(* ===== verification/_CoqProject ===== *)
-Q . S2P
Prelude.v
StateMonad.v
UaTypes.v
Util.v
UaValue.v
BinarySize.v
BinaryEncode.v
BinaryDecode.v
BinarySpec.v
EncodeLogic.v
BinaryEncodeCorrect.v
BinarySizeCorrect.v
DecodeLogic.v
BinaryRoundtrip.v
DecodeSafe.v
Codec.v
FieldCodec.v
NetworkMessage.v
NetworkMessageCorrect.v
PubSub.v
Connection.v
ConnectionCorrect.v
SecureChannel.v
SecureChannelWire.v
SecureChannelSend.v
SecureChannelCorrect.v
Mpsc.v
Timer.v
TimerCorrect.v
NodeStore.v
NodeStoreTable.v
NodeStoreCorrect.v
SecureChannelFrame.v
ServerState.v
SecureChannelManager.v
SessionManager.v
ServerBinary.v
ServerLogic.v
ServerInvariant.v
ServerSafe.v
ServerRun.v
ServerInversion.v
ServerExamples.v
SessionCorrect.v
ChannelCorrect.v
SubscriptionState.v
Subscription.v
SubscriptionServices.v
SubscriptionInvariant.v
SubscriptionLogic.v
SubscriptionQueues.v
SubscriptionSafe.v
SubscriptionPublish.v
SubscriptionServicesSafe.v
SubscriptionBounds.v
SubscriptionCorrect.v
SubscriptionRetransmission.v
SubscriptionDetect.v
SubscriptionBehaviour.v
AddressSpace.v
NodeTree.v
Browse.v
AddressLogic.v
BrowseCorrect.v
NodeManagement.v
NodeReferences.v
ReferencesMutual.v
NodeDelete.v
TranslateCorrect.v
SpaceCheck.v
NodeSpace.v
AddressCorrect.v
AddressServices.v
Variant.v
VariantCopyCorrect.v
Strides.v
IndexRangeCorrect.v
RangeServices.v
