(* ===== verification/Prelude.v ===== *)
(** * open62541 with OPC UA PubSub over TSN: verification library

    open62541 is an implementation of OPC UA in C.  This library models the
    core of the stack and of the server: how values and messages are encoded,
    how bytes become chunks, messages and calls of services, who may call
    them, the services on subscriptions and on the address space, and the data
    structures below.  Paths are relative to [src/].

    ** The program and its parts

    Bytes arrive at a connection ([src/ua_connection.c]), which cuts them into
    chunks.  The server ([src/server/ua_server_binary.c]) hands the chunks of
    a connection to its SecureChannel ([src/ua_securechannel.c]), which
    verifies, decrypts and assembles them; a complete message is decoded
    ([src/ua_types_encoding_binary.c]) and given to a service with its session
    ([src/server/ua_session*.c], [src/server/ua_services_session.c]); the
    answer goes the same way back.  Channels and sessions live in lists of the
    server ([src/server/ua_securechannel_manager.c],
    [src/server/ua_session_manager.c]) and are freed by delayed callbacks.
    Beside it stand the timer ([src/ua_timer.c]), the node store
    ([plugins/ua_nodestore_default.c]) and the messages of PubSub
    ([src/pubsub/ua_pubsub_networkmessage.c]), which reuse the codec.  Of the
    services behind the dispatch, those on subscriptions
    ([src/server/ua_subscription*.c], [ua_services_subscription.c]) sample
    values and publish their changes; those on the address space
    ([src/server/ua_services_view.c], [ua_services_nodemanagement.c],
    [ua_nodes.c], [ua_server_utils.c]) browse and change nodes in the node
    store, with continuation points of the session; values are copied and
    parts of arrays selected by the functions of [src/ua_types.c].

    ** Files

    - [Prelude]: lengths, status codes, machine integers, little-endian
      numbers, lemmas on lists, tactics.  [StateMonad]: computations on a
      state that can be undefined, their weakest preconditions and inversion,
      shared by the server, the subscriptions and the address space.
    - [UaTypes], [UaValue]: the builtin types as records, [UA_DataType] with
      its table, and values of described types.  A value has the fields of the
      C object; integers and floating point numbers are their images in
      memory, with the comparisons of [double] that settings use.  [Util]:
      numbers and endpoint URLs ([src/ua_util.c]).
    - [BinarySize], [BinaryEncode], [BinaryDecode]: the three halves of the
      codec, a Definition per C function of the same name.  [BinarySpec] is
      the abstract specification: the bytes a value stands for.  [EncodeLogic]
      and [DecodeLogic] are the program logics of encoders (with a buffer that
      is exchanged when it is full) and decoders; [BinaryEncodeCorrect],
      [BinarySizeCorrect], [BinaryRoundtrip] and [DecodeSafe] the proofs;
      [Codec] the statements.
    - [FieldCodec]: the part of the codec that messages are built from, as a
      class with laws; [NetworkMessage], [NetworkMessageCorrect], [PubSub]:
      PubSub messages, proved against these laws.
    - [Connection], [ConnectionCorrect]: headers of the transport, reassembly
      of chunks, receiving, error messages.
    - [SecureChannel]: keys, tokens, padding, sending and processing of
      chunks.  [SecureChannelWire], [SecureChannelSend]: a chunk on the wire,
      frames that are received, the encoder as a sender;
      [SecureChannelCorrect]: the statements; [SecureChannelFrame]: what the
      callback of the encoder and a message do to network and application.
    - [Timer], [TimerCorrect]: the sorted list of callbacks; [Mpsc]: its queue
      of changes under concurrency, as a step relation.
    - [NodeStore], [NodeStoreTable], [NodeStoreCorrect]: the hash map of
      nodes, double hashing, the documented interface as a relation on finite
      maps, and the refinement, with the two errors in which the code keeps a
      node that the interface documents as deleted.
    - [ServerState]: channels, sessions and connections on a heap, pointers
      between them, and computations on it.  [SecureChannelManager] (with the
      policy without security), [SessionManager], [ServerBinary]: the server,
      a Definition per C function.
    - [ServerLogic], [ServerInvariant], [ServerSafe], [ServerRun]: weakest
      preconditions, the invariant of lists and pointers and its preservation
      by everything the network layer and the main loop call.
      [ServerInversion], [SessionCorrect], [ChannelCorrect]: functional
      theorems on sessions and channels.  [ServerExamples]: a configuration,
      clients as sequences of packets.
    - [SubscriptionState], [Subscription], [SubscriptionServices]:
      subscriptions, monitored items and notifications of a session on a heap,
      with sampling, publishing, the services, and the calls of timer and
      application.  [SubscriptionInvariant], [SubscriptionLogic],
      [SubscriptionQueues], [SubscriptionSafe], [SubscriptionPublish],
      [SubscriptionServicesSafe]: the invariant of lists, queues and counters
      and its preservation; [SubscriptionBounds]: the bound of the queues of
      items, kept by whatever ends.  [SubscriptionCorrect],
      [SubscriptionRetransmission], [SubscriptionBehaviour],
      [SubscriptionDetect]: the statements.
    - [AddressSpace]: nodes, their references, the node store as the services
      see it; [NodeTree]: searching along references, types, editing;
      [Browse], [NodeManagement]: the services, a Definition per C function.
      [AddressLogic]: computations that only read; [BrowseCorrect],
      [TranslateCorrect]: what pages and paths give; [NodeReferences],
      [ReferencesMutual], [NodeDelete]: references in both directions and
      deletion; [SpaceCheck]: decision of the invariants, an example;
      [NodeSpace]: the hash map of [NodeStore] implements the node store of
      [AddressSpace]; [AddressCorrect], [AddressServices]: continuation points
      of the session, sequences of requests and the statements.
    - [Variant]: copies of values, index ranges and strides;
      [VariantCopyCorrect], [Strides], [IndexRangeCorrect], [RangeServices]:
      what they are, and the statements.

    ** How the code is modelled

    A function that reads and writes through pointers takes and returns the
    state it touches.  [status] is the 32-bit status code, combined with [|=]
    as the code does.  Two statuses are not of the code: [UNDEFINED] marks an
    access outside of an object or another undefined behaviour, [OUTOFFUEL] a
    recursion that ran out of fuel; the theorems exclude both, or say where
    they occur.  In the server,
    the timer, the node store, the subscriptions and the address space
    undefined behaviour is [None].  Allocation
    may fail: an oracle tells for every allocation whether it succeeds.

    Fuel: decoding and encoding nest at most [UA_ENCODING_MAX_RECURSION] deep,
    so 64 levels suffice ([decode_fuel], [image_fuel]); the loop over a memory
    image runs at most once more than it has bytes, the exchanging loops over
    members and elements at most twice per element, as no single write takes
    more than [MAX_ATOM] bytes.  The loop of the security footer is bounded by
    the buffer; chunks of a packet by its length; changes of the timer by the
    queue; the probes of the hash table by its size, the search of an
    identifier by twice the size and its start; primes by their table.  The
    search along references ends at [UA_MAX_TREE_RECURSE], 50 levels, so
    [tree_fuel] is 51; the loops that remove incoming references run at most
    once more than the node has references; an index range has fewer
    dimensions than characters.  Deleting a node recurses without a bound: the
    fuel is above the rank of the node in a hierarchy without cycles
    ([delete_node_ends]).  That the fuel suffices is part of the theorems.

    The concurrent queue [Mpsc] is modelled under sequentially consistent
    memory.  The node store holds at most 2^26 nodes; its specification keeps
    the identifiers handed out as a history variable.

    The server is built without threads and subscriptions.  The clocks stand
    still during a call; sending is an oracle on a network state; generated
    structures of the services are copied as a whole; services beyond
    channels and sessions are parameters that compute an answer and leave
    channels and sessions alone; the answer of the Read service, which the
    code encodes piece by piece, is encoded as one value.

    Subscriptions are a model of their own, of one session, in a build without
    events and threads: the timer is the list of callbacks with its queue of
    changes, and any of them may be due; samples, allocations and the outcome
    of queueing a change for the timer are oracles.  The theorems are for
    environments that are [sane]: queues of items have room for one
    notification, the small entries that remove callbacks and free objects
    later find memory, and readings can be compared by their deadbands.

    The address space is a model of its own too: nodes on a heap, the ones in
    the node store and the references handed out, and the continuation points
    of one session, in a build without immutable nodes and assertions.
    Destructors of nodes are recorded as calls.  Access control and the limits
    of the configuration are parameters.  An index of an array of references
    that was moved away is treated as a dangling pointer.

    ** Theorems

    - Codec: encoding through any number of buffers, sizes, round trips,
      decoding of arbitrary bytes is safe and ends; where a round trip fails.
    - PubSub: round trip from the encoder to the decoder, sizes, safety of
      decoding but for errors inside a delta frame, whose release reads
      uninitialised fields, and for allocations the decoder does not check;
      release.
    - Connections: segmentation does not matter, chunks are delivered in
      order, buffered bytes are bounded, blocking receive ends if every
      reading of the clock is later than the one before.  Endpoint URLs are
      parsed into their parts.
    - SecureChannels: a message is delivered through chunks, padding,
      signature and encryption for every policy whose operations undo each
      other; sequence numbers; padding of both ciphers.
    - Timer and queue: sorted list, due callbacks in order, FIFO under every
      interleaving.
    - Node store: refinement of the interface, references stay valid.
    - Server: every sequence of packets, disconnects, timeouts and delayed
      callbacks is executed without dangling pointers to channels, sessions
      and connections (message buffers are values); deletion releases
      everything; a service gets an activated session bound to the channel of
      the request; activation, which a session without a channel never
      reaches, timeout, opening and release.

    - Subscriptions: every sequence of calls is safe and keeps the queues
      consistent and within their bounds; publishing, how long a message can
      be requested again, lifetime, queue overflow, detection of changes with
      deadbands, and settings.
    - Address space: the search along references is exact; browsing in pages
      gives every matching reference once; paths lead where they say;
      references stay mutual under every sequence of service requests that
      treat them in both directions; adding one is atomic; deleting a node
      ends; the node store's hash map implements the
      store the services assume.
    - Values: deep copies; index ranges are parsed, read and written within
      the array, and exactly where the strides are regular -- with computed
      examples of ranges and dimensions for which they are not.

    The statements that are counted as properties carry a number; other
    theorems of the statement files are as strong and merely not numbered.

    Not modelled: the Attribute and Method services and the creation of nodes,
    which need all attributes of the eight node classes; the release of
    values; PubSub configuration, client and discovery; sockets, threads and
    the main loop (calls of the operating system); security policies other
    than None (calls of a cryptographic library, parameters here); logging,
    clock and configuration data. *)

From Stdlib Require Import ZArith Lia.
From stdpp Require Import base list numbers tactics sets.

#[global] Open Scope Z_scope.

(** ** Notation scope of the development *)

Declare Scope ua_scope.
Delimit Scope ua_scope with ua.

(** Lengths and positions of byte buffers are C [size_t] values; the library
    works with them as mathematical integers. *)
Definition zlen {A} (l : list A) : Z := Z.of_nat (length l).

(** ** Status codes

    [UA_StatusCode] is a [uint32_t]; the sources combine codes with [|=], so
    the numeric values matter.  They are the rows of
    [tools/schema/StatusCode.csv]. *)

Abbreviation status := Z (only parsing).

Definition GOOD : status := 0.
Definition BADINTERNALERROR : status := 0x80020000.
Definition BADOUTOFMEMORY : status := 0x80030000.
Definition BADCOMMUNICATIONERROR : status := 0x80050000.
Definition BADENCODINGERROR : status := 0x80060000.
Definition BADDECODINGERROR : status := 0x80070000.
Definition BADENCODINGLIMITSEXCEEDED : status := 0x80080000.
Definition BADSERVICEUNSUPPORTED : status := 0x800B0000.
Definition BADNOTHINGTODO : status := 0x800F0000.
Definition BADTOOMANYOPERATIONS : status := 0x80100000.
Definition BADCERTIFICATEINVALID : status := 0x80120000.
Definition BADSECURITYCHECKSFAILED : status := 0x80130000.
Definition BADCERTIFICATEUNTRUSTED : status := 0x801A0000.
Definition BADSECURECHANNELIDINVALID : status := 0x80220000.
Definition BADNONCEINVALID : status := 0x80240000.
Definition BADSESSIONIDINVALID : status := 0x80250000.
Definition BADSESSIONNOTACTIVATED : status := 0x80270000.
Definition BADSUBSCRIPTIONIDINVALID : status := 0x80280000.
Definition BADINDEXRANGEINVALID : status := 0x80360000.
Definition BADINDEXRANGENODATA : status := 0x80370000.
Definition BADNOTIMPLEMENTED : status := 0x80400000.
Definition BADSECURITYMODEREJECTED : status := 0x80540000.
Definition BADSECURITYPOLICYREJECTED : status := 0x80550000.
Definition BADTOOMANYSESSIONS : status := 0x80560000.
Definition BADTCPMESSAGETYPEINVALID : status := 0x807E0000.
Definition BADTCPMESSAGETOOLARGE : status := 0x80800000.
Definition BADTCPENDPOINTURLINVALID : status := 0x80830000.
Definition BADSECURECHANNELTOKENUNKNOWN : status := 0x80870000.
Definition GOODNONCRITICALTIMEOUT : status := 0x00AA0000.
Definition BADCONNECTIONCLOSED : status := 0x80AE0000.
Definition BADRESPONSETOOLARGE : status := 0x80B90000.

(** Two results that no C function returns.  [OUTOFFUEL] marks a loop of the
    model that was given too few iterations, [UNDEFINED] an execution that
    dereferences a null or dangling pointer in the sources.  Theorems exclude
    both explicitly. *)
Definition OUTOFFUEL : status := -1.
Definition UNDEFINED : status := -2.

(** [if(ret != UA_STATUSCODE_GOOD)] *)
Definition bad (s : status) : bool := negb (s =? GOOD).

(** ** Machine integers *)

Definition u8 (z : Z) : Z := z mod 2 ^ 8.
Definition u16 (z : Z) : Z := z mod 2 ^ 16.
Definition u32 (z : Z) : Z := z mod 2 ^ 32.
Definition u64 (z : Z) : Z := z mod 2 ^ 64.

(** Conversion of a 32-bit memory image to the [int32_t] it holds. *)
Definition i32 (z : Z) : Z :=
  let m := u32 z in if m <? 2 ^ 31 then m else m - 2 ^ 32.

Definition UA_BYTE_MAX : Z := 255.
Definition UA_UINT16_MAX : Z := 65535.
Definition UA_UINT32_MAX : Z := 4294967295.
Definition UA_INT32_MAX : Z := 2147483647.
Definition UA_INT64_MAX : Z := 9223372036854775807.

(** ** Little-endian memory images *)

Fixpoint le_bytes (n : nat) (z : Z) : list Z :=
  match n with
  | O => []
  | S n => (z mod 256) :: le_bytes n (z / 256)
  end.

Fixpoint le_value (l : list Z) : Z :=
  match l with
  | [] => 0
  | b :: t => b + 256 * le_value t
  end.

(** ** Automation *)

Create HintDb ua.
Create Rewrite HintDb ualen.
Create Rewrite HintDb ua_rw.

(** Case analysis on every boolean test or option match of the goal or of a
    hypothesis, with the arithmetic tests turned into inequalities. *)
Ltac zbool :=
  repeat match goal with
  | H : (_ =? _) = true |- _ => apply Z.eqb_eq in H
  | H : (_ =? _) = false |- _ => apply Z.eqb_neq in H
  | H : (_ <? _) = true |- _ => apply Z.ltb_lt in H
  | H : (_ <? _) = false |- _ => apply Z.ltb_ge in H
  | H : (_ <=? _) = true |- _ => apply Z.leb_le in H
  | H : (_ <=? _) = false |- _ => apply Z.leb_gt in H
  | H : (_ && _) = true |- _ => apply andb_true_iff in H as [? ?]
  | H : (_ || _) = false |- _ => apply orb_false_iff in H as [? ?]
  | H : negb _ = true |- _ => apply negb_true_iff in H
  | H : negb _ = false |- _ => apply negb_false_iff in H
  end.

Ltac destr_if :=
  match goal with
  | |- context [if ?b then _ else _] => destruct b eqn:?
  | H : context [if ?b then _ else _] |- _ => destruct b eqn:?
  end.

Ltac destr_match :=
  match goal with
  | |- context [match ?x with _ => _ end] => destruct x eqn:?
  | H : context [match ?x with _ => _ end] |- _ => destruct x eqn:?
  end.

(** [zlia]: [lia] after turning list lengths into [zlen] form. *)
Ltac zlen_simpl :=
  autorewrite with ualen in *.

Ltac zlia := zbool; zlen_simpl; try lia.

(** ** Lists *)

Section Lists.
Context {A : Type}.
Implicit Types l : list A.

Lemma zlen_nonneg l : 0 <= zlen l.
Proof. unfold zlen; lia. Qed.

Lemma zlen_nil : zlen (@nil A) = 0.
Proof. reflexivity. Qed.

Lemma zlen_cons (a : A) l : zlen (a :: l) = 1 + zlen l.
Proof. unfold zlen; simpl; lia. Qed.

Lemma zlen_app l1 l2 : zlen (l1 ++ l2) = zlen l1 + zlen l2.
Proof. unfold zlen; rewrite length_app; lia. Qed.

Lemma zlen_take n l : 0 <= n <= zlen l -> zlen (take (Z.to_nat n) l) = n.
Proof. unfold zlen; intros; rewrite length_take; lia. Qed.

Lemma zlen_drop n l : 0 <= n <= zlen l -> zlen (drop (Z.to_nat n) l) = zlen l - n.
Proof. unfold zlen; intros; rewrite length_drop; lia. Qed.

Lemma zlen_zero l : zlen l = 0 -> l = [].
Proof. destruct l; [done|]; rewrite zlen_cons; pose proof (zlen_nonneg l); lia. Qed.

Lemma take_zlen_app l1 l2 : take (Z.to_nat (zlen l1)) (l1 ++ l2) = l1.
Proof. unfold zlen; rewrite Nat2Z.id; apply take_app_length. Qed.

Lemma drop_zlen_app l1 l2 : drop (Z.to_nat (zlen l1)) (l1 ++ l2) = l2.
Proof. unfold zlen; rewrite Nat2Z.id; apply drop_app_length. Qed.
End Lists.

#[export] Hint Rewrite @zlen_nil @zlen_cons @zlen_app : ualen.

#[export] Instance zlen_perm {A} : Proper ((≡ₚ) ==> eq) (@zlen A).
Proof. intros l l' Hp; unfold zlen; by rewrite Hp. Qed.
#[export] Hint Resolve zlen_nonneg : ua.

Lemma zlen_map {A B} (f : A -> B) l : zlen (map f l) = zlen l.
Proof. unfold zlen; by rewrite length_map. Qed.
#[export] Hint Rewrite @zlen_map : ualen.

(** Every element of [concat] of equally long pieces. *)
Lemma zlen_concat_const {A B} (f : A -> list B) n l :
  (forall a, a ∈ l -> zlen (f a) = n) -> zlen (concat (map f l)) = n * zlen l.
Proof.
  induction l as [|a l IH]; intros Hf; simpl.
  - unfold zlen; simpl; lia.
  - rewrite zlen_app, zlen_cons, IH, (Hf a).
    + lia.
    + set_solver.
    + intros; apply Hf; set_solver.
Qed.

(** ** Status combination *)

Lemma lor_good a b : Z.lor a b = GOOD <-> a = GOOD /\ b = GOOD.
Proof. unfold GOOD; apply Z.lor_eq_0_iff. Qed.

Lemma lor_good_l a : Z.lor GOOD a = a.
Proof. apply Z.lor_0_l. Qed.

Lemma lor_good_r a : Z.lor a GOOD = a.
Proof. apply Z.lor_0_r. Qed.

Lemma bad_good : bad GOOD = false.
Proof. reflexivity. Qed.

Lemma bad_true s : bad s = true <-> s <> GOOD.
Proof. unfold bad; rewrite negb_true_iff, Z.eqb_neq; done. Qed.

Lemma bad_false s : bad s = false <-> s = GOOD.
Proof. unfold bad; rewrite negb_false_iff, Z.eqb_eq; done. Qed.

#[export] Hint Rewrite lor_good_l lor_good_r bad_good : ua_rw.

(** ** Little-endian images: length, bounds, round trip *)

Lemma length_le_bytes n z : length (le_bytes n z) = n.
Proof. revert z; induction n; simpl; auto. Qed.

Lemma zlen_le_bytes n z : zlen (le_bytes n z) = Z.of_nat n.
Proof. unfold zlen; by rewrite length_le_bytes. Qed.
#[export] Hint Rewrite zlen_le_bytes : ualen.

Lemma pow_256_succ n : 2 ^ (8 * Z.of_nat (S n)) = 256 * 2 ^ (8 * Z.of_nat n).
Proof.
  rewrite Nat2Z.inj_succ, Z.mul_succ_r, Z.pow_add_r by lia.
  change (2 ^ 8) with 256; lia.
Qed.

Lemma le_value_le_bytes n z : le_value (le_bytes n z) = z mod 2 ^ (8 * Z.of_nat n).
Proof.
  revert z; induction n as [|n IH]; intros z; cbn [le_bytes le_value].
  - by rewrite Z.mod_1_r.
  - rewrite IH, pow_256_succ, Z.rem_mul_r by lia; lia.
Qed.

Lemma le_value_le_bytes_id n z :
  0 <= z < 2 ^ (8 * Z.of_nat n) -> le_value (le_bytes n z) = z.
Proof. intros; rewrite le_value_le_bytes; by apply Z.mod_small. Qed.

Definition is_byte (b : Z) : Prop := 0 <= b < 256.

Lemma le_bytes_is_byte n z : Forall is_byte (le_bytes n z).
Proof.
  revert z; induction n; intros z; simpl; constructor; auto.
  unfold is_byte; apply Z.mod_pos_bound; lia.
Qed.

Lemma le_bytes_le_value l :
  Forall is_byte l -> le_bytes (length l) (le_value l) = l.
Proof.
  induction 1 as [|b l Hb Hl IH]; simpl; [done|].
  unfold is_byte in Hb.
  replace ((b + 256 * le_value l) mod 256) with b
    by (rewrite Z.mul_comm, Z.mod_add, Z.mod_small; lia).
  replace ((b + 256 * le_value l) / 256) with (le_value l)
    by (rewrite Z.mul_comm, Z.div_add, Z.div_small; lia).
  by rewrite IH.
Qed.

Lemma le_value_bounds l :
  Forall is_byte l -> 0 <= le_value l < 2 ^ (8 * zlen l).
Proof.
  unfold zlen; induction 1 as [|b l Hb _ IH]; [simpl; lia|].
  cbn [length le_value]; rewrite pow_256_succ; unfold is_byte in Hb; lia.
Qed.

Lemma u32_range z : 0 <= u32 z < 2 ^ 32.
Proof. apply Z.mod_pos_bound; lia. Qed.

Lemma u32_small z : 0 <= z < 2 ^ 32 -> u32 z = z.
Proof. apply Z.mod_small. Qed.

Lemma u8_u8 z : u8 (u8 z) = u8 z.
Proof. unfold u8; by rewrite Z.mod_mod by lia. Qed.

Lemma u16_small z : 0 <= z < 2 ^ 16 -> u16 z = z.
Proof. apply Z.mod_small. Qed.

(** An [int32_t] written through its 32-bit image is read back unchanged. *)
Lemma i32_u32 z : -2 ^ 31 <= z < 2 ^ 31 -> i32 (u32 z) = z.
Proof.
  intros Hz; unfold i32, u32.
  rewrite Z.mod_mod by lia.
  destruct (Z_le_gt_dec 0 z).
  - rewrite Z.mod_small by lia. destr_if; zbool; lia.
  - replace (z mod 2 ^ 32) with (z + 2 ^ 32)
      by (rewrite <- (Z.mod_add z 1 (2 ^ 32)) by lia; rewrite Z.mod_small; lia).
    destr_if; zbool; lia.
Qed.

(** ** Bit masks

    Flag bytes are built with [|=] and tested with [&]: the following lemma
    evaluates the test bit by bit. *)
Definition flag (b : bool) (m : Z) : Z := if b then m else 0.

Definition has (v m : Z) : bool := negb (Z.land v m =? 0).

#[global] Arguments le_bytes : simpl never.
#[global] Arguments le_value : simpl never.
