(* ===== verification/StateMonad.v ===== *)
(** * Computations on a state with undefined behaviour

    The models of stateful components are computations [state_m S A]: from a
    state they give a result and a new state, or [None] where the code would
    follow a dangling pointer.  Weakest preconditions and inversions. *)

From Stdlib Require Import ZArith Lia SpecFloat.
From stdpp Require Import base list numbers tactics sets.
From S2P Require Import Prelude.

(** ** Counters and lists without an element *)

Lemma u32_pred n : u32 (u32 n - 1) = u32 (n - 1).
Proof. unfold u32; apply Zminus_mod_idemp_l. Qed.
Lemma u32_succ n : u32 (u32 n + 1) = u32 (1 + n).
Proof. unfold u32; rewrite Zplus_mod_idemp_l; f_equal; lia. Qed.

Definition without (a : nat) (l : list nat) : list nat := filter (fun b => b <> a) l.

Lemma elem_of_without a b l : b ∈ without a l <-> b <> a /\ b ∈ l.
Proof. unfold without; by rewrite list_elem_of_filter. Qed.

Lemma without_notin a l : a ∉ l -> without a l = l.
Proof.
  intros Ha; unfold without; induction l as [|b l IH]; [done|].
  rewrite filter_cons_True by set_solver; f_equal; set_solver.
Qed.

Lemma zlen_without a l : NoDup l -> a ∈ l -> zlen (without a l) = zlen l - 1.
Proof.
  induction 1 as [|b l Hb Hl IH]; [set_solver|].
  intros [->|Ha]%elem_of_cons; rewrite zlen_cons.
  - unfold without; rewrite filter_cons_False by auto; fold (without b l).
    rewrite without_notin by done; lia.
  - unfold without; rewrite filter_cons_True by set_solver; fold (without a l).
    rewrite zlen_cons, IH by done; lia.
Qed.

(** ** Computations *)

Definition state_m (S A : Type) : Type := S -> option (A * S).

#[export] Instance M_ret {S} : MRet (state_m S) := fun A a s => Some (a, s).
#[export] Instance M_bind {S} : MBind (state_m S) := fun A B k m s =>
  match m s with Some (a, s') => k a s' | None => None end.

Section Monad.
Context {S : Type}.

Abbreviation M := (state_m S).

Definition gets {A} (f : S -> A) : M A := fun s => Some (f s, s).
Definition modify (f : S -> S) : M unit := fun s => Some (tt, f s).
Definition undefined {A} : M A := fun _ => None.

(** A dangling pointer makes the execution undefined. *)
Definition the {A} (o : option A) : M A :=
  match o with Some a => mret a | None => undefined end.

(** [LIST_REMOVE] of an element that the list has to contain. *)
Definition list_remove (a : nat) (l : list nat) : M (list nat) :=
  if decide (a ∈ l) then mret (without a l) else undefined.

(** ** Weakest preconditions *)

(** The computation is defined, and its result and final state satisfy [Q]. *)
Definition wp {A} (m : M A) (Q : A -> S -> Prop) (s : S) : Prop :=
  match m s with Some (a, s') => Q a s' | None => False end.

Lemma wp_ret {A} (a : A) (Q : A -> S -> Prop) s : Q a s -> wp (mret a) Q s.
Proof. done. Qed.

Lemma wp_bind {A B} (m : M A) (k : A -> M B) (Q : B -> S -> Prop) s :
  wp m (fun a s' => wp (k a) Q s') s -> wp (m ≫= k) Q s.
Proof. unfold wp, mbind, M_bind; by destruct (m s) as [[a s']|]. Qed.

Lemma wp_mono {A} (m : M A) (P Q : A -> S -> Prop) s :
  wp m P s -> (forall a s', P a s' -> Q a s') -> wp m Q s.
Proof. unfold wp; destruct (m s) as [[a s']|]; auto. Qed.

Lemma wp_gets {A} (f : S -> A) (Q : A -> S -> Prop) s : Q (f s) s -> wp (gets f) Q s.
Proof. done. Qed.

Lemma wp_modify f (Q : unit -> S -> Prop) s : Q tt (f s) -> wp (modify f) Q s.
Proof. done. Qed.

Lemma wp_the {A} (o : option A) a (Q : A -> S -> Prop) s : o = Some a -> Q a s -> wp (the o) Q s.
Proof. by intros ->. Qed.

Lemma wp_list_remove a l (Q : list nat -> S -> Prop) s :
  a ∈ l -> Q (without a l) s -> wp (list_remove a l) Q s.
Proof. intros Ha HQ; unfold list_remove; rewrite decide_True by done; exact HQ. Qed.

Lemma wp_defined {A} (m : M A) (Q : A -> S -> Prop) s :
  wp m Q s -> exists a s', m s = Some (a, s') /\ Q a s'.
Proof. unfold wp; destruct (m s) as [[a s']|]; naive_solver. Qed.

(** ** Inversion *)

Lemma bind_inv {A B} (m : M A) (k : A -> M B) s b s' :
  (m ≫= k) s = Some (b, s') -> exists a s1, m s = Some (a, s1) /\ k a s1 = Some (b, s').
Proof. unfold mbind, M_bind; destruct (m s) as [[a s1]|]; [|done]; intros H; by exists a, s1. Qed.

Lemma ret_inv {A} (a b : A) s s' : (mret a : M A) s = Some (b, s') -> b = a /\ s' = s.
Proof. by injection 1 as -> ->. Qed.

Lemma gets_inv {A} (f : S -> A) s b s' : gets f s = Some (b, s') -> b = f s /\ s' = s.
Proof. by injection 1 as -> ->. Qed.

Lemma modify_inv f s u s' : modify f s = Some (u, s') -> s' = f s.
Proof. by injection 1 as _ ->. Qed.

Lemma the_inv {A} (o : option A) s b s' : the o s = Some (b, s') -> o = Some b /\ s' = s.
Proof. destruct o as [a|]; [|done]; by injection 1 as -> ->. Qed.

Lemma list_remove_inv h l s r s' : list_remove h l s = Some (r, s') -> s' = s.
Proof. unfold list_remove; destruct (decide _); [by intros [_ ->]%ret_inv|done]. Qed.
End Monad.

(** ** What a computation leaves *)

Section Keeps.
Context {S B : Type} (part : S -> B).

(** The computation does not change a part of the state. *)
Definition keeps {A} (m : state_m S A) : Prop :=
  forall s a s', m s = Some (a, s') -> part s' = part s.

Lemma keeps_mret {A} (a : A) : keeps (mret a).
Proof. intros s b s' [_ ->]%ret_inv; done. Qed.

Lemma keeps_gets {A} (f : S -> A) : keeps (gets f).
Proof. intros s b s' [_ ->]%gets_inv; done. Qed.

Lemma keeps_undefined {A} : keeps (undefined : state_m S A).
Proof. done. Qed.

Lemma keeps_the {A} (o : option A) : keeps (the o).
Proof. intros s b s' [_ ->]%the_inv; done. Qed.

Lemma keeps_list_remove a l : keeps (list_remove a l).
Proof. intros s b s' ->%list_remove_inv; done. Qed.

Lemma keeps_modify (f : S -> S) : (forall s, part (f s) = part s) -> keeps (modify f).
Proof. intros H s b s' ->%modify_inv; done. Qed.

Lemma keeps_bind {A C} (m : state_m S A) (k : A -> state_m S C) :
  keeps m -> (forall a, keeps (k a)) -> keeps (m ≫= k).
Proof. intros Hm Hk s b s' (a & s1 & H1 & H2)%bind_inv; rewrite (Hk a _ _ _ H2); eauto. Qed.

Lemma wp_keeps {A} (m : state_m S A) Q s :
  keeps m -> wp m Q s -> wp m (fun a s' => Q a s' /\ part s' = part s) s.
Proof. unfold wp; intros Hk; destruct (m s) as [[a s']|] eqn:H; [|done]; eauto. Qed.
End Keeps.

Ltac keeps_step :=
  match goal with
  | |- keeps _ (mbind _ _) => apply keeps_bind; [|intros ?]
  | |- keeps _ (mret _) => apply keeps_mret
  | |- keeps _ (gets _) => apply keeps_gets
  | |- keeps _ undefined => apply keeps_undefined
  | |- keeps _ (the _) => apply keeps_the
  | |- keeps _ (list_remove _ _) => apply keeps_list_remove
  | |- keeps _ (modify _) => apply keeps_modify; intros ?; reflexivity
  | |- keeps _ (if ?b then _ else _) => destruct b
  | |- keeps _ (match ?x with _ => _ end) => destruct x
  | |- keeps _ (let '(_, _) := ?x in _) => destruct x
  end.
