(* ===== verification/UaTypes.v ===== *)
(** * Builtin data types ([include/ua_types.h], [src/ua_types.c])

    The C structs of the builtin types as records and inductive types, the
    type descriptions the binary codec reads, and the comparison and hashing
    functions of [ua_types.c].

    A C array is a length and a data pointer.  The pointer is [NULL], the
    sentinel [(void* )0x01] or the address of the elements; the length is the
    number of elements the pointer gives access to. *)

From Stdlib Require Import ZArith Lia.
From Stdlib Require Import ZArith Lia SpecFloat.
From stdpp Require Import base list numbers tactics sets.
From S2P Require Import Prelude.

(** ** Arrays and strings *)

Inductive UA_Array (A : Type) : Type :=
| ArrNull                (* data == NULL, length 0 *)
| ArrEmpty               (* data == UA_EMPTY_ARRAY_SENTINEL, length 0 *)
| ArrData (l : list A).  (* data > UA_EMPTY_ARRAY_SENTINEL *)

Arguments ArrNull {A}.
Arguments ArrEmpty {A}.
Arguments ArrData {A} _.

(** The elements the data pointer gives access to. *)
Definition arr_list {A} (a : UA_Array A) : list A :=
  match a with ArrData l => l | _ => [] end.

(** The [length] member of the struct. *)
Definition arr_length {A} (a : UA_Array A) : Z := zlen (arr_list a).

(** [if(ptr)] *)
Definition arr_nonnull {A} (a : UA_Array A) : bool :=
  match a with ArrNull => false | _ => true end.

(** [ptr > UA_EMPTY_ARRAY_SENTINEL] *)
Definition arr_real {A} (a : UA_Array A) : bool :=
  match a with ArrData _ => true | _ => false end.

(** [ptr == UA_EMPTY_ARRAY_SENTINEL] *)
Definition arr_is_sentinel {A} (a : UA_Array A) : bool :=
  match a with ArrEmpty => true | _ => false end.

(** The pointer of a non-empty [ArrData] is what the allocator returned; an
    array built by the library is [ArrData] only when it has elements. *)
Definition arr_canonical {A} (a : UA_Array A) : Prop :=
  match a with ArrData l => l <> [] | _ => True end.

Definition UA_String := UA_Array Z.
Definition UA_ByteString := UA_String.

Definition UA_STRING_NULL : UA_String := ArrNull.

(** ** Guid, NodeId, ExpandedNodeId, QualifiedName, LocalizedText *)

Record UA_Guid := mkGuid {
  data1 : Z;        (* UA_UInt32 *)
  data2 : Z;        (* UA_UInt16 *)
  data3 : Z;        (* UA_UInt16 *)
  data4 : list Z    (* UA_Byte[8] *)
}.

Definition UA_GUID_NULL : UA_Guid := mkGuid 0 0 0 [0; 0; 0; 0; 0; 0; 0; 0].

(** [identifierType] and the union it selects.  [OtherId t raw] is an enum
    value that names none of the four members, with the bytes of the union. *)
Inductive UA_NodeIdIdentifier :=
| NumericId (numeric : Z)
| StringId (string : UA_String)
| GuidId (guid : UA_Guid)
| ByteStringId (byteString : UA_ByteString)
| OtherId (identifierType : Z) (raw : list Z).

Record UA_NodeId := mkNodeId {
  nid_namespaceIndex : Z;
  nid_identifier : UA_NodeIdIdentifier
}.

Definition UA_NODEID_NULL : UA_NodeId := mkNodeId 0 (NumericId 0).

Definition UA_NODEIDTYPE_NUMERIC : Z := 0.
Definition UA_NODEIDTYPE_STRING : Z := 3.
Definition UA_NODEIDTYPE_GUID : Z := 4.
Definition UA_NODEIDTYPE_BYTESTRING : Z := 5.

Definition identifierType (n : UA_NodeId) : Z :=
  match nid_identifier n with
  | NumericId _ => UA_NODEIDTYPE_NUMERIC
  | StringId _ => UA_NODEIDTYPE_STRING
  | GuidId _ => UA_NODEIDTYPE_GUID
  | ByteStringId _ => UA_NODEIDTYPE_BYTESTRING
  | OtherId t _ => t
  end.

Record UA_ExpandedNodeId := mkExpandedNodeId {
  eni_nodeId : UA_NodeId;
  eni_namespaceUri : UA_String;
  eni_serverIndex : Z
}.

Record UA_QualifiedName := mkQualifiedName {
  qn_namespaceIndex : Z;
  qn_name : UA_String
}.

Record UA_LocalizedText := mkLocalizedText {
  lt_locale : UA_String;
  lt_text : UA_String
}.

(** ** DiagnosticInfo *)

Inductive UA_DiagnosticInfo := mkDiagnosticInfo {
  hasSymbolicId : bool;
  hasNamespaceUri : bool;
  hasLocalizedText : bool;
  hasLocale : bool;
  hasAdditionalInfo : bool;
  hasInnerStatusCode : bool;
  hasInnerDiagnosticInfo : bool;
  symbolicId : Z;       (* 32-bit image of the UA_Int32 *)
  di_namespaceUri : Z;
  localizedText : Z;
  di_locale : Z;
  additionalInfo : UA_String;
  innerStatusCode : Z;
  innerDiagnosticInfo : option UA_DiagnosticInfo
}.

Definition UA_DiagnosticInfo_null : UA_DiagnosticInfo :=
  mkDiagnosticInfo false false false false false false false 0 0 0 0 ArrNull 0 None.

(** ** Type descriptions *)

Record UA_DataTypeMember := mkMember {
  memberTypeIndex : Z;
  padding : Z;
  namespaceZero : bool;
  isArray : bool
}.

Record UA_DataType := mkDataType {
  dt_typeId : UA_NodeId;
  memSize : Z;
  typeIndex : Z;
  builtin : bool;
  pointerFree : bool;
  overlayable : bool;
  binaryEncodingId : Z;
  members : list UA_DataTypeMember
}.

Definition membersSize (t : UA_DataType) : Z := zlen (members t).

(** Row [i] of the builtin part of [UA_TYPES], as [BuiltinType] of the type
    generator prints it: one member, the type itself.  The sizes are those of
    the structs above on an LP64 target with little-endian integers. *)
Definition builtin_row (index size : Z) (ovl : bool) : UA_DataType :=
  mkDataType (mkNodeId 0 (NumericId (index + 1))) size index true ovl ovl 0
             [mkMember index 0 true false].

Definition UA_TYPES_BOOLEAN := builtin_row 0 1 true.
Definition UA_TYPES_SBYTE := builtin_row 1 1 true.
Definition UA_TYPES_BYTE := builtin_row 2 1 true.
Definition UA_TYPES_INT16 := builtin_row 3 2 true.
Definition UA_TYPES_UINT16 := builtin_row 4 2 true.
Definition UA_TYPES_INT32 := builtin_row 5 4 true.
Definition UA_TYPES_UINT32 := builtin_row 6 4 true.
Definition UA_TYPES_INT64 := builtin_row 7 8 true.
Definition UA_TYPES_UINT64 := builtin_row 8 8 true.
Definition UA_TYPES_FLOAT := builtin_row 9 4 true.
Definition UA_TYPES_DOUBLE := builtin_row 10 8 true.
Definition UA_TYPES_STRING := builtin_row 11 16 false.
Definition UA_TYPES_DATETIME := builtin_row 12 8 true.
Definition UA_TYPES_GUID := builtin_row 13 16 true.
Definition UA_TYPES_BYTESTRING := builtin_row 14 16 false.
Definition UA_TYPES_XMLELEMENT := builtin_row 15 16 false.
Definition UA_TYPES_NODEID := builtin_row 16 24 false.
Definition UA_TYPES_EXPANDEDNODEID := builtin_row 17 48 false.
Definition UA_TYPES_STATUSCODE := builtin_row 18 4 true.
Definition UA_TYPES_QUALIFIEDNAME := builtin_row 19 24 false.
Definition UA_TYPES_LOCALIZEDTEXT := builtin_row 20 32 false.
Definition UA_TYPES_EXTENSIONOBJECT := builtin_row 21 48 false.
Definition UA_TYPES_DATAVALUE := builtin_row 22 96 false.
Definition UA_TYPES_VARIANT := builtin_row 23 48 false.
Definition UA_TYPES_DIAGNOSTICINFO := builtin_row 24 56 false.

Definition UA_BUILTIN_TYPES_COUNT : Z := 25.

(** ** Comparison *)

(** [memcmp(a, b, n) == 0] for two regions of the same length. *)
Definition memeq (a b : list Z) : bool := bool_decide (a = b).

Definition UA_String_equal (s1 s2 : UA_String) : bool :=
  if negb (arr_length s1 =? arr_length s2) then false
  else memeq (arr_list s1) (arr_list s2).

(** The 16 bytes of a [UA_Guid] in memory. *)
Definition guid_image (g : UA_Guid) : list Z :=
  le_bytes 4 (data1 g) ++ le_bytes 2 (data2 g) ++ le_bytes 2 (data3 g) ++ data4 g.

Definition UA_Guid_equal (g1 g2 : UA_Guid) : bool := memeq (guid_image g1) (guid_image g2).

Definition UA_QualifiedName_equal (qn1 qn2 : option UA_QualifiedName) : bool :=
  match qn1, qn2 with
  | Some qn1, Some qn2 =>
      if negb (qn_namespaceIndex qn1 =? qn_namespaceIndex qn2) then false
      else if negb (arr_length (qn_name qn1) =? arr_length (qn_name qn2)) then false
      else memeq (arr_list (qn_name qn1)) (arr_list (qn_name qn2))
  | _, _ => false
  end.

Definition UA_NodeId_isNull (p : UA_NodeId) : bool :=
  if negb (nid_namespaceIndex p =? 0) then false
  else match nid_identifier p with
       | NumericId n => n =? 0
       | GuidId g =>
           (data1 g =? 0) && (data2 g =? 0) && (data3 g =? 0) &&
           forallb (fun b => b =? 0) (data4 g)
       | StringId s | ByteStringId s => arr_length s =? 0
       | OtherId _ raw => le_value (take 8 raw) =? 0
       end.

Definition UA_NodeId_equal (n1 n2 : option UA_NodeId) : bool :=
  match n1, n2 with
  | Some n1, Some n2 =>
      if negb (nid_namespaceIndex n1 =? nid_namespaceIndex n2)
         || negb (identifierType n1 =? identifierType n2) then false
      else match nid_identifier n1, nid_identifier n2 with
           | NumericId a, NumericId b => a =? b
           | StringId a, StringId b => UA_String_equal a b
           | GuidId a, GuidId b => UA_Guid_equal a b
           | ByteStringId a, ByteStringId b => UA_String_equal a b
           | _, _ => false
           end
  | _, _ => false
  end.

Definition UA_ExpandedNodeId_equal (n1 n2 : option UA_ExpandedNodeId) : bool :=
  match n1, n2 with
  | Some n1, Some n2 =>
      if negb (eni_serverIndex n1 =? eni_serverIndex n2) then false
      else if negb (UA_String_equal (eni_namespaceUri n1) (eni_namespaceUri n2)) then false
      else UA_NodeId_equal (Some (eni_nodeId n1)) (Some (eni_nodeId n2))
  | _, _ => false
  end.

(** ** Hashing *)

Definition FNV_PRIME_32 : Z := 16777619.

Fixpoint fnv32 (fnv : Z) (buf : list Z) : Z :=
  match buf with
  | [] => fnv
  | b :: buf => fnv32 (u32 (u32 (Z.lxor fnv b) * FNV_PRIME_32)) buf
  end.

Definition UA_NodeId_hash (n : UA_NodeId) : Z :=
  let knuth numeric :=
    u32 (Z.land (u64 (nid_namespaceIndex n + Z.shiftr (u64 (numeric * 2654435761)) 32))
                4294967295) in
  match nid_identifier n with
  | NumericId numeric => knuth numeric
  | StringId s | ByteStringId s => fnv32 (nid_namespaceIndex n) (arr_list s)
  | GuidId g => fnv32 (nid_namespaceIndex n) (guid_image g)
  | OtherId _ raw => knuth (le_value (take 4 raw))
  end.

(** ** Null-insensitive equality

    [UA_String_equal] does not distinguish a null string from an empty one:
    it decides equality of the content. *)

Definition string_eqv (s1 s2 : UA_String) : Prop := arr_list s1 = arr_list s2.

Lemma memeq_true a b : memeq a b = true <-> a = b.
Proof. unfold memeq; apply bool_decide_eq_true. Qed.

Lemma memeq_refl a : memeq a a = true.
Proof. by apply memeq_true. Qed.

Lemma UA_String_equal_spec s1 s2 : UA_String_equal s1 s2 = true <-> string_eqv s1 s2.
Proof.
  unfold UA_String_equal, string_eqv, arr_length.
  destruct (negb _) eqn:E; zbool.
  - split; [done|]; intros Heq; by rewrite Heq in E.
  - apply memeq_true.
Qed.

#[export] Instance string_eqv_equivalence : Equivalence string_eqv.
Proof. unfold string_eqv; split; red; congruence. Qed.

(** A [NodeId] the library builds: the identifier type is one of the four. *)
Definition nodeid_valid (n : UA_NodeId) : Prop :=
  match nid_identifier n with
  | GuidId g => length (data4 g) = 8%nat /\ 0 <= data1 g < 2 ^ 32 /\
                0 <= data2 g < 2 ^ 16 /\ 0 <= data3 g < 2 ^ 16
  | OtherId _ _ => False
  | _ => True
  end.

(** Two node ids name the same node. *)
Definition nodeid_eqv (n1 n2 : UA_NodeId) : Prop :=
  nid_namespaceIndex n1 = nid_namespaceIndex n2 /\
  match nid_identifier n1, nid_identifier n2 with
  | NumericId a, NumericId b => a = b
  | StringId a, StringId b => string_eqv a b
  | GuidId a, GuidId b => a = b
  | ByteStringId a, ByteStringId b => string_eqv a b
  | _, _ => False
  end.

Lemma guid_image_inj g1 g2 :
  length (data4 g1) = 8%nat -> length (data4 g2) = 8%nat ->
  0 <= data1 g1 < 2 ^ 32 -> 0 <= data1 g2 < 2 ^ 32 ->
  0 <= data2 g1 < 2 ^ 16 -> 0 <= data2 g2 < 2 ^ 16 ->
  0 <= data3 g1 < 2 ^ 16 -> 0 <= data3 g2 < 2 ^ 16 ->
  guid_image g1 = guid_image g2 -> g1 = g2.
Proof.
  destruct g1 as [a1 a2 a3 a4], g2 as [b1 b2 b3 b4]; unfold guid_image; simpl data1;
    simpl data2; simpl data3; simpl data4; intros ? ? ? ? ? ? ? ? Heq.
  apply app_inj_1 in Heq as [E1 Heq]; [|by rewrite !length_le_bytes].
  apply app_inj_1 in Heq as [E2 Heq]; [|by rewrite !length_le_bytes].
  apply app_inj_1 in Heq as [E3 ->]; [|by rewrite !length_le_bytes].
  apply (f_equal le_value) in E1, E2, E3.
  rewrite !le_value_le_bytes_id in E1, E2, E3 by done; by subst.
Qed.

Lemma UA_NodeId_equal_spec n1 n2 :
  nodeid_valid n1 -> nodeid_valid n2 ->
  UA_NodeId_equal (Some n1) (Some n2) = true <-> nodeid_eqv n1 n2.
Proof.
  destruct n1 as [ns1 i1], n2 as [ns2 i2]; unfold nodeid_valid, nodeid_eqv,
    UA_NodeId_equal, identifierType; simpl; intros V1 V2.
  destruct i1, i2; simpl; try done;
    destruct (ns1 =? ns2) eqn:E; simpl; zbool;
    rewrite ?UA_String_equal_spec, ?Z.eqb_eq; try naive_solver.
  unfold UA_Guid_equal; rewrite memeq_true; split; [|naive_solver].
  intros Hi; split; [done|]; destruct_and!; by apply guid_image_inj.
Qed.

#[export] Instance nodeid_eqv_sym : Symmetric nodeid_eqv.
Proof.
  intros [ns1 i1] [ns2 i2]; unfold nodeid_eqv; simpl; intros [-> H]; split; [done|].
  destruct i1, i2; try done; by symmetry.
Qed.

#[export] Instance nodeid_eqv_trans : Transitive nodeid_eqv.
Proof.
  intros [ns1 i1] [ns2 i2] [ns3 i3]; unfold nodeid_eqv; simpl; intros [-> H] [-> H'].
  split; [done|]; destruct i1, i2; try done; destruct i3; try done; by etransitivity.
Qed.

Lemma nodeid_eqv_refl n : nodeid_valid n -> nodeid_eqv n n.
Proof. destruct n as [ns []]; unfold nodeid_valid, nodeid_eqv; simpl; naive_solver. Qed.

#[export] Instance UA_NodeId_hash_proper : Proper (nodeid_eqv ==> eq) UA_NodeId_hash.
Proof.
  intros [ns1 i1] [ns2 i2]; unfold nodeid_eqv, UA_NodeId_hash, string_eqv; simpl.
  intros [-> H]; destruct i1, i2; try done; by rewrite H.
Qed.

(** ** [UA_Double]: binary64 numbers of the specification of floats *)

Definition double := spec_float.

Definition double_mul (x y : double) : double := SFmul 53 1024 x y.

(** The conversion to [int64_t]: towards zero, and the indefinite value of
    the processor where the result does not fit. *)
Definition INT64_INDEFINITE : Z := -9223372036854775808.

Definition double_to_int64 (x : double) : Z :=
  match x with
  | S754_zero _ => 0
  | S754_finite s m e =>
      let z := Z.shiftl (Zpos m) e in
      let z := if s then - z else z in
      if (z <? - 2 ^ 63) || (2 ^ 63 <=? z) then INT64_INDEFINITE else z
  | _ => INT64_INDEFINITE
  end.

(** [UA_DATETIME_MSEC] in units of 100 ns, as integer and as double. *)
Definition UA_DATETIME_MSEC : Z := 10000.
Definition UA_DATETIME_MSEC_double : double := S754_finite false 5497558138880000 (-39).

(** Two's complement of a sum of [int64_t]. *)
Definition i64 (z : Z) : Z :=
  let m := u64 z in if m <? 2 ^ 63 then m else m - 2 ^ 64.
