(* ===== verification/Util.v ===== *)
(** * Utilities ([src/ua_util.c])

    Numbers and endpoint URLs, [opc.tcp://host:port/path], as the client and
    the discovery services read them. *)

From Stdlib Require Import ZArith Lia.
From stdpp Require Import base list numbers tactics.
From S2P Require Import Prelude UaTypes.

(** ** Numbers *)

Definition is_digit (c : Z) : bool := (48 <=? c) && (c <=? 57).

(** The loop of [UA_readNumber]: the number modulo 2^32 and the progress. *)
Fixpoint readNumber_loop (buf : list Z) (n progress : Z) : Z * Z :=
  match buf with
  | [] => (n, progress)
  | c :: buf =>
      if is_digit c then readNumber_loop buf (u32 (u32 (n * 10) + u32 (c - 48))) (progress + 1)
      else (n, progress)
  end.

Definition UA_readNumber (buf : list Z) : Z * Z := readNumber_loop buf 0 0.

(** ** Endpoint URLs *)

(** The three output parameters; what is not found keeps its value. *)
Record EndpointUrl := mkUrl { outHostname : list Z; outPort : Z; outPath : list Z }.

(** "opc.tcp://" *)
Definition opc_tcp : list Z := [111; 112; 99; 46; 116; 99; 112; 58; 47; 47].

(** Position of the first character with [p], if there is one. *)
Fixpoint find_char (p : Z -> bool) (data : list Z) : option nat :=
  match data with
  | [] => None
  | c :: data => if p c then Some O else S <$> find_char p data
  end.

Definition is_slash (c : Z) : bool := c =? 47.
Definition is_colon (c : Z) : bool := c =? 58.
Definition is_closing (c : Z) : bool := c =? 93.

(** Length of the host name at the beginning of [data], which is not empty. *)
Definition hostname_length (data : list Z) : option nat :=
  if hd 0 data =? 91 then S <$> find_char is_closing data
  else Some (default (length data) (find_char (fun c => is_colon c || is_slash c) data)).

(** From the slash on. *)
Definition parse_path (data : list Z) (out : EndpointUrl) : status * EndpointUrl :=
  match data with
  | [] => (UNDEFINED, out)
  | c :: path =>
      if negb (is_slash c) then (BADTCPENDPOINTURLINVALID, out)
      else if bool_decide (path = []) then (GOOD, out)
      else
        (GOOD, mkUrl (outHostname out) (outPort out)
                 (if is_slash (List.last path 0) then removelast path else path))
  end.

(** Behind the host name. *)
Definition parse_port (data : list Z) (out : EndpointUrl) : status * EndpointUrl :=
  match data with
  | [] => (GOOD, out)
  | c :: rest =>
      if negb (is_colon c) then parse_path data out
      else if bool_decide (rest = []) then (BADTCPENDPOINTURLINVALID, out)
      else
        let '(largeNum, progress) := UA_readNumber rest in
        if (progress =? 0) || (65535 <? largeNum) then (BADTCPENDPOINTURLINVALID, out)
        else
          let rest := drop (Z.to_nat progress) rest in
          let out := if bool_decide (rest = []) || is_slash (hd 0 rest)
                     then mkUrl (outHostname out) largeNum (outPath out) else out in
          if bool_decide (rest = []) then (GOOD, out) else parse_path rest out
  end.

Definition UA_parseEndpointUrl (endpointUrl : UA_String) (out : EndpointUrl) :
    status * EndpointUrl :=
  let data := arr_list endpointUrl in
  if (arr_length endpointUrl <? 11) || negb (bool_decide (take 10 data = opc_tcp))
  then (BADTCPENDPOINTURLINVALID, out)
  else
    let data := drop 10 data in
    match hostname_length data with
    | None => (BADTCPENDPOINTURLINVALID, out)
    | Some n => parse_port (drop n data) (mkUrl (take n data) (outPort out) (outPath out))
    end.

(** ** Specification *)

(** A number of at most [k] decimal digits. *)
Fixpoint digits (k : nat) (n : Z) : list Z :=
  match k with
  | O => []
  | S k => if n <? 10 then [48 + n] else digits k (n / 10) ++ [48 + n mod 10]
  end.

(** The URL of its parts. *)
Definition endpointUrl (host : list Z) (port : option Z) (path : option (list Z)) : list Z :=
  opc_tcp ++ host
  ++ match port with Some p => 58 :: digits 5 p | None => [] end
  ++ match path with Some q => 47 :: q | None => [] end.

(** A host name, or an IPv6 address in brackets. *)
Definition host_ok (h : list Z) : Prop :=
  (h <> [] /\ hd 0 h <> 91 /\ Forall (fun c => c <> 58 /\ c <> 47) h) \/
  (exists a, h = 91 :: a ++ [93] /\ Forall (fun c => c <> 93) a).

Definition strip_slash (q : list Z) : list Z :=
  if is_slash (List.last q 0) then removelast q else q.

(** ** Proofs *)

Lemma readNumber_loop_digits k n rest m progress :
  0 <= n < 10 ^ Z.of_nat k -> 0 <= m -> (0 < k)%nat -> m * 10 ^ Z.of_nat k + n < 2 ^ 32 ->
  exists j, (0 < j <= k)%nat /\ 10 ^ Z.of_nat j <= 10 * 10 ^ Z.of_nat k /\
    readNumber_loop (digits k n ++ rest) m progress
      = readNumber_loop rest (m * 10 ^ Z.of_nat j + n) (progress + Z.of_nat j) /\
    zlen (digits k n) = Z.of_nat j.
Proof.
  revert n rest m progress; induction k as [|k IH]; intros n rest m progress Hn Hm Hk Hsum; [lia|].
  assert (forall c l p, 0 <= c < 10 -> 0 <= l -> 10 * l + c < 2 ^ 32 ->
            readNumber_loop ((48 + c) :: rest) l p = readNumber_loop rest (10 * l + c) (p + 1)) as step.
  { intros c l p Hc Hl Hlt; cbn [readNumber_loop]; unfold is_digit.
    destruct (Z.leb_spec 48 (48 + c)), (Z.leb_spec (48 + c) 57); try lia; cbn [andb].
    rewrite (u32_small (l * 10)), (u32_small (48 + c - 48)), u32_small by lia.
    f_equal; lia. }
  rewrite Nat2Z.inj_succ, Z.pow_succ_r in * by lia.
  pose proof (Z.pow_pos_nonneg 10 (Z.of_nat k) ltac:(lia) ltac:(lia)) as Hp.
  cbn [digits]; destruct (Z.ltb_spec n 10).
  - exists 1%nat; change (Z.of_nat 1) with 1; rewrite Z.pow_1_r.
    split; [lia|split; [nia|split; [|done]]]; cbn [app].
    rewrite step by nia; f_equal; lia.
  - assert (0 < k)%nat as Hk' by (destruct k; [cbn in Hn; lia|lia]).
    pose proof (Z.div_mod n 10 ltac:(lia)); pose proof (Z.mod_pos_bound n 10 ltac:(lia)).
    destruct (IH (n / 10) ((48 + n mod 10) :: rest) m progress) as (j & Hj & Hle & Hr & Hl);
      [nia|lia|lia|nia|].
    exists (S j); rewrite Nat2Z.inj_succ, Z.pow_succ_r by lia.
    pose proof (Z.pow_pos_nonneg 10 (Z.of_nat j) ltac:(lia) ltac:(lia)) as Hpj.
    assert (10 ^ Z.of_nat j <= 10 ^ Z.of_nat k) by (apply Z.pow_le_mono_r; lia).
    split; [lia|split; [nia|split]].
    + rewrite <- app_assoc; cbn [app]; rewrite Hr, step; [f_equal; lia|lia|nia|nia].
    + rewrite zlen_app, Hl; unfold zlen; cbn; lia.
Qed.

Lemma readNumber_digits p rest :
  0 <= p < 10 ^ 5 -> is_digit (hd 0 rest) = false ->
  UA_readNumber (digits 5 p ++ rest) = (p, zlen (digits 5 p)).
Proof.
  intros Hp Hr; unfold UA_readNumber.
  destruct (readNumber_loop_digits 5 p rest 0 0) as (j & Hj & _ & -> & ->); [cbn; lia..|].
  destruct rest as [|c rest]; cbn [readNumber_loop]; [|cbn in Hr; rewrite Hr]; f_equal; lia.
Qed.

Lemma digits_start p : 0 <= p -> exists c l, digits 5 p = c :: l.
Proof.
  intros Hp; destruct (digits 5 p) as [|c l] eqn:H; [|by do 2 eexists].
  cbn [digits] in H; repeat (destruct (_ <? _); [done|]); by apply app_eq_nil in H as [_ ?].
Qed.

Lemma find_char_app p l rest :
  Forall (fun c => p c = false) l -> (rest = [] \/ p (hd 0 rest) = true) ->
  find_char p (l ++ rest) = if bool_decide (rest = []) then None else Some (length l).
Proof.
  intros Hl Hr; induction Hl as [|c l Hc Hl IH]; cbn [app find_char].
  - destruct rest as [|c rest]; [done|]; destruct Hr as [|Hr]; [done|]; cbn in Hr |- *.
    by rewrite Hr.
  - rewrite Hc, IH; by destruct (bool_decide _).
Qed.

Lemma hostname_length_ok h rest :
  host_ok h -> (rest = [] \/ is_colon (hd 0 rest) || is_slash (hd 0 rest) = true) ->
  hostname_length (h ++ rest) = Some (length h).
Proof.
  intros [(Hne & Hb & Hh)|(a & -> & Ha)] Hr; unfold hostname_length.
  - destruct h as [|c h]; [done|]; cbn [app hd] in *; rewrite (proj2 (Z.eqb_neq _ _) Hb).
    rewrite (find_char_app _ (c :: h) rest); [|apply (list_relations.list.Forall_impl _ _ _ Hh);
      intros x [H1 H2]; unfold is_colon, is_slash; lia|exact Hr].
    destruct (bool_decide_reflect (rest = [])) as [->|]; cbn [default]; [|done].
    by rewrite app_nil_r.
  - cbn [app hd]; change (91 =? 91) with true; cbn [find_char fmap option_fmap option_map].
    rewrite <- app_assoc, (find_char_app _ a); [|apply (list_relations.list.Forall_impl _ _ _ Ha);
      intros x Hx; unfold is_closing; lia|by right].
    cbn; f_equal; rewrite length_app; cbn; lia.
Qed.

Lemma parse_path_ok q out :
  parse_path (47 :: q) out
  = (GOOD, mkUrl (outHostname out) (outPort out) (if bool_decide (q = []) then outPath out else strip_slash q)).
Proof. unfold parse_path; cbn; destruct (bool_decide_reflect (q = [])) as [->|]; by destruct out. Qed.

(** C27: the parts of an endpoint URL are found again: a host name or an IPv6
    address in brackets, with a port below 65536 in decimal or without, with a
    path, of which a slash at the end is removed, or without.  Parts that the
    URL does not have keep their values. *)
Theorem parse_endpointUrl host port path out :
  host_ok host -> (forall p, port = Some p -> 0 <= p < 65536) ->
  UA_parseEndpointUrl (ArrData (endpointUrl host port path)) out =
    (GOOD, mkUrl host (default (outPort out) port)
             (match path with
              | Some (c :: q) => strip_slash (c :: q)
              | _ => outPath out
              end)).
Proof.
  intros Hh Hport; unfold UA_parseEndpointUrl, endpointUrl, arr_length; cbn [arr_list].
  match goal with |- context [opc_tcp ++ host ++ ?r] => set (rest := r) end.
  assert (0 < zlen host) as Hlen.
  { destruct Hh as [(H & _)|(a & -> & _)]; [|cbn; unfold zlen; cbn; lia].
    destruct host; [done|]; unfold zlen; cbn; lia. }
  rewrite zlen_app, zlen_app; change (zlen opc_tcp) with 10; pose proof (zlen_nonneg rest).
  rewrite (proj2 (Z.ltb_ge _ _)) by lia; cbn [orb].
  change 10%nat with (length opc_tcp); rewrite take_app_length, drop_app_length.
  rewrite bool_decide_eq_true_2 by done; cbn [negb].
  rewrite hostname_length_ok; [|done|].
  2: { subst rest; destruct port as [p|]; [by right|]; destruct path; [by right|by left]. }
  rewrite take_app_length, drop_app_length; subst rest.
  destruct port as [p|]; cbn [default]; [specialize (Hport p eq_refl)|].
  - set (tl := match path with Some q => 47 :: q | None => [] end).
    destruct (digits_start p) as (c & l & Hd); [lia|].
    cbn [parse_port app]; rewrite (bool_decide_eq_false_2 (digits 5 p ++ tl = [])) by (by rewrite Hd).
    change (is_colon 58) with true; cbn [negb].
    rewrite readNumber_digits; [|lia|by destruct path].
    rewrite (proj2 (Z.eqb_neq (zlen (digits 5 p)) 0)) by (rewrite Hd; unfold zlen; cbn; lia).
    rewrite (proj2 (Z.ltb_ge 65535 p)) by lia; cbn [orb]; rewrite drop_zlen_app.
    subst tl; destruct path as [q|]; [|done]; cbn [hd].
    change (is_slash 47) with true; rewrite orb_true_r, bool_decide_eq_false_2 by done.
    rewrite parse_path_ok; by destruct q.
  - cbn [app]; destruct path as [q|]; [|done]; unfold parse_port.
    change (negb (is_colon 47)) with true; cbn beta iota.
    rewrite parse_path_ok; by destruct q.
Qed.

(** "opc.tcp://[::1]:4840/path/" *)
Lemma parse_endpointUrl_witness :
  let host := [91; 58; 58; 49; 93] in
  let url := endpointUrl host (Some 4840) (Some [112; 97; 116; 104; 47]) in
  url = opc_tcp ++ host ++ [58; 52; 56; 52; 48; 47; 112; 97; 116; 104; 47] /\
  UA_parseEndpointUrl (ArrData url) (mkUrl [] 0 []) = (GOOD, mkUrl host 4840 [112; 97; 116; 104]).
Proof.
  split; [vm_compute; reflexivity|].
  apply (parse_endpointUrl [91; 58; 58; 49; 93] (Some 4840) (Some [112; 97; 116; 104; 47]) (mkUrl [] 0 [])).
  - right; exists [58; 58; 49]; split; [reflexivity|]; repeat constructor; discriminate.
  - intros p [= <-]; lia.
Defined.

(** A port of 2^32 + 80 is taken for the port 80. *)
Example port_wraps :
  snd (UA_parseEndpointUrl
         (ArrData (opc_tcp ++ [104; 58; 52; 50; 57; 52; 57; 54; 55; 51; 55; 54])) (mkUrl [] 0 []))
    = mkUrl [104] 80 [].
Proof. vm_compute; reflexivity. Qed.
