(* ===== verification/UaValue.v ===== *)
(** * Values of described types

    The codec works on a pointer to memory and a [UA_DataType] that describes
    it.  A [UA_Value] is the content of such memory: the member values of a
    structure, the content of a builtin type, or the elements an array member
    points to.  Which constructor is meaningful is decided by the type
    description, as in the sources. *)

From Stdlib Require Import ZArith Lia.
From stdpp Require Import base list numbers tactics sets.
From S2P Require Import Prelude UaTypes.

(** ** Values *)

(** A structure member or the content of a variant: one value in place, or a
    length and a pointer to an array. *)
Inductive Slot (A : Type) : Type :=
| SScalar (a : A)
| SArray (arr : UA_Array A).

Arguments SScalar {A} _.
Arguments SArray {A} _.

(** [UA_DataValue] without its [value] member. *)
Record DataValueHeader := mkDataValueHeader {
  hasValue : bool;
  hasStatus : bool;
  hasSourceTimestamp : bool;
  hasServerTimestamp : bool;
  hasSourcePicoseconds : bool;
  hasServerPicoseconds : bool;
  dv_status : Z;
  sourceTimestamp : Z;
  sourcePicoseconds : Z;
  serverTimestamp : Z;
  serverPicoseconds : Z
}.

Definition DataValueHeader_init : DataValueHeader :=
  mkDataValueHeader false false false false false false 0 0 0 0 0.

(** - [VInt]: Boolean, SByte, ..., DateTime, StatusCode, Float and Double as
      the unsigned integer that the bytes of the value form;
    - [VExtEncoded]: an ExtensionObject whose [encoding] is at most
      [UA_EXTENSIONOBJECT_ENCODED_XML]; [VExtDecoded]: the other encodings,
      with the [decoded] member of the union;
    - [VVariant]: type, content (scalar or array) and array dimensions;
    - [VStruct]: a type that is not builtin, member by member. *)
Inductive UA_Value :=
| VInt (z : Z)
| VString (s : UA_String)
| VGuid (g : UA_Guid)
| VNodeId (n : UA_NodeId)
| VExpandedNodeId (n : UA_ExpandedNodeId)
| VQualifiedName (q : UA_QualifiedName)
| VLocalizedText (t : UA_LocalizedText)
| VExtEncoded (encoding : Z) (typeId : UA_NodeId) (body : UA_ByteString)
| VExtDecoded (encoding : Z) (type : option UA_DataType) (data : option UA_Value)
| VDataValue (h : DataValueHeader) (value : UA_Value)
| VVariant (type : option UA_DataType) (data : Slot UA_Value) (arrayDimensions : UA_Array Z)
| VDiagnosticInfo (d : UA_DiagnosticInfo)
| VStruct (fields : list (Slot UA_Value)).

Definition UA_EXTENSIONOBJECT_ENCODED_NOBODY : Z := 0.
Definition UA_EXTENSIONOBJECT_ENCODED_BYTESTRING : Z := 1.
Definition UA_EXTENSIONOBJECT_ENCODED_XML : Z := 2.
Definition UA_EXTENSIONOBJECT_DECODED : Z := 3.
Definition UA_EXTENSIONOBJECT_DECODED_NODELETE : Z := 4.

(** The zeroed memory of a variant. *)
Definition UA_Variant_null : UA_Value := VVariant None (SArray ArrNull) ArrNull.

Definition slot_list {A} (s : Slot A) : list A :=
  match s with SScalar a => [a] | SArray arr => arr_list arr end.

Definition arr_map {A B} (f : A -> B) (a : UA_Array A) : UA_Array B :=
  match a with
  | ArrNull => ArrNull
  | ArrEmpty => ArrEmpty
  | ArrData l => ArrData (map f l)
  end.

(** ** Induction over values *)

Section ValueInd.
Variable P : UA_Value -> Prop.
Hypothesis Hint : forall z, P (VInt z).
Hypothesis Hstring : forall s, P (VString s).
Hypothesis Hguid : forall g, P (VGuid g).
Hypothesis Hnodeid : forall n, P (VNodeId n).
Hypothesis Hexpanded : forall n, P (VExpandedNodeId n).
Hypothesis Hqname : forall q, P (VQualifiedName q).
Hypothesis Hltext : forall t, P (VLocalizedText t).
Hypothesis Hextenc : forall e t b, P (VExtEncoded e t b).
Hypothesis Hextdec : forall e t d, (forall v, d = Some v -> P v) -> P (VExtDecoded e t d).
Hypothesis Hdatavalue : forall h v, P v -> P (VDataValue h v).
Hypothesis Hvariant : forall t d dims, Forall P (slot_list d) -> P (VVariant t d dims).
Hypothesis Hdiag : forall d, P (VDiagnosticInfo d).
Hypothesis Hstruct : forall fs, Forall (fun s => Forall P (slot_list s)) fs -> P (VStruct fs).

Fixpoint UA_Value_nested_ind (v : UA_Value) : P v :=
  let all := fix all (l : list UA_Value) : Forall P l :=
    match l with
    | [] => Forall_nil_2 P
    | v :: l => Forall_cons_2 P v l (UA_Value_nested_ind v) (all l)
    end in
  let slot s : Forall P (slot_list s) :=
    match s with
    | SScalar v => Forall_cons_2 P v [] (UA_Value_nested_ind v) (Forall_nil_2 P)
    | SArray (ArrData l) => all l
    | SArray ArrNull => Forall_nil_2 P
    | SArray ArrEmpty => Forall_nil_2 P
    end in
  match v with
  | VInt z => Hint z
  | VString s => Hstring s
  | VGuid g => Hguid g
  | VNodeId n => Hnodeid n
  | VExpandedNodeId n => Hexpanded n
  | VQualifiedName q => Hqname q
  | VLocalizedText t => Hltext t
  | VExtEncoded e t b => Hextenc e t b
  | VExtDecoded e t d =>
      Hextdec e t d (fun w (H : d = Some w) =>
        match d as d' return d' = Some w -> P w with
        | Some x => fun H => eq_ind x P (UA_Value_nested_ind x) w
                              (f_equal (fun o => match o with Some y => y | None => x end) H)
        | None => fun H => match H with eq_refl => I end
        end H)
  | VDataValue h v => Hdatavalue h v (UA_Value_nested_ind v)
  | VVariant t d dims => Hvariant t d dims (slot d)
  | VDiagnosticInfo d => Hdiag d
  | VStruct fs =>
      Hstruct fs ((fix slots (fs : list (Slot UA_Value)) :=
        match fs return Forall (fun s => Forall P (slot_list s)) fs with
        | [] => Forall_nil_2 _
        | s :: fs => Forall_cons_2 _ s fs (slot s) (slots fs)
        end) fs)
  end.
End ValueInd.

(** ** Type tables

    [UA_TYPES] starts with the builtin types; the further rows are printed by
    the type generator from the schema files, and custom data types live in
    arrays of the application.  [typelist type] is the array that the
    description [type] is an element of, [&type[-type->typeIndex]]. *)

Definition builtin_types : list UA_DataType :=
  [UA_TYPES_BOOLEAN; UA_TYPES_SBYTE; UA_TYPES_BYTE; UA_TYPES_INT16; UA_TYPES_UINT16;
   UA_TYPES_INT32; UA_TYPES_UINT32; UA_TYPES_INT64; UA_TYPES_UINT64; UA_TYPES_FLOAT;
   UA_TYPES_DOUBLE; UA_TYPES_STRING; UA_TYPES_DATETIME; UA_TYPES_GUID;
   UA_TYPES_BYTESTRING; UA_TYPES_XMLELEMENT; UA_TYPES_NODEID; UA_TYPES_EXPANDEDNODEID;
   UA_TYPES_STATUSCODE; UA_TYPES_QUALIFIEDNAME; UA_TYPES_LOCALIZEDTEXT;
   UA_TYPES_EXTENSIONOBJECT; UA_TYPES_DATAVALUE; UA_TYPES_VARIANT;
   UA_TYPES_DIAGNOSTICINFO].

Class TypeEnv := {
  generated : list UA_DataType;
  typelist : UA_DataType -> list UA_DataType;
  customTypes : list UA_DataType
}.

Section Types.
Context `{TypeEnv}.

Definition UA_TYPES : list UA_DataType := builtin_types ++ generated.

Definition membertype (type : UA_DataType) (m : UA_DataTypeMember) : option UA_DataType :=
  (if namespaceZero m then UA_TYPES else typelist type) !! Z.to_nat (memberTypeIndex m).
End Types.

(** ** Memory images

    The bytes that [memcpy] moves for a value of an overlayable type: integers
    in little endian, a Guid as its struct, a structure as its members (an
    overlayable structure has no padding). *)
Section Image.
Context `{TypeEnv}.

Fixpoint mem_image (v : UA_Value) (type : UA_DataType) {struct v} : list Z :=
  match v with
  | VInt z => le_bytes (Z.to_nat (memSize type)) z
  | VGuid g => guid_image g
  | VStruct fs =>
      (fix go (fs : list (Slot UA_Value)) (ms : list UA_DataTypeMember) : list Z :=
         match fs, ms with
         | SScalar v :: fs, m :: ms =>
             match membertype type m with
             | Some mt => mem_image v mt ++ go fs ms
             | None => []
             end
         | _, _ => []
         end) fs (members type)
  | _ => []
  end.
End Image.

(** ** Lemmas on arrays *)

Lemma arr_length_map {A B} (f : A -> B) a : arr_length (arr_map f a) = arr_length a.
Proof. destruct a; unfold arr_length; simpl; by rewrite ?zlen_map. Qed.

Lemma arr_list_map {A B} (f : A -> B) a : arr_list (arr_map f a) = map f (arr_list a).
Proof. by destruct a. Qed.

Lemma arr_sentinel_map {A B} (f : A -> B) a :
  arr_is_sentinel (arr_map f a) = arr_is_sentinel a.
Proof. by destruct a. Qed.

#[export] Hint Rewrite @arr_length_map @arr_list_map @arr_sentinel_map : ua_rw.
