(* ===== verification/BinarySize.v ===== *)
(** * Size of the binary encoding ([src/ua_types_encoding_binary.c], the
    [_calcSizeBinary] functions)

    A [size_t] is a mathematical integer here: the sizes are those of objects
    in memory.  A value that is not of the described type has no size in the
    sources; the model gives 0. *)

From Stdlib Require Import ZArith Lia.
From stdpp Require Import base list numbers tactics sets.
From S2P Require Import Prelude UaTypes UaValue.

(** ** Jump tables

    The encoding, decoding and size tables have the same order.  An [Entry]
    names the function of the row. *)
Inductive Entry :=
| EBoolean | EByte | EUInt16 | EUInt32 | EUInt64 | EString | EGuid | ENodeId
| EExpandedNodeId | EQualifiedName | ELocalizedText | EExtensionObject
| EDataValue | EVariant | EDiagnosticInfo | EInternal.

Definition jumpTable : list Entry :=
  [EBoolean; EByte; EByte; EUInt16; EUInt16; EUInt32; EUInt32; EUInt64; EUInt64;
   EUInt32 (* Float *); EUInt64 (* Double *); EString; EUInt64 (* DateTime *); EGuid;
   EString; EString; ENodeId; EExpandedNodeId; EUInt32 (* StatusCode *);
   EQualifiedName; ELocalizedText; EExtensionObject; EDataValue; EVariant;
   EDiagnosticInfo; EInternal].

Definition jumpIndex (type : UA_DataType) : Z :=
  if builtin type then typeIndex type else UA_BUILTIN_TYPES_COUNT.

Definition entry (type : UA_DataType) : option Entry :=
  jumpTable !! Z.to_nat (jumpIndex type).

(** ** Builtin types without recursion *)

Definition String_calcSizeBinary (s : UA_String) : Z := 4 + arr_length s.

Definition NodeId_calcSizeBinary (src : UA_NodeId) : Z :=
  match nid_identifier src with
  | NumericId numeric =>
      if (UA_UINT16_MAX <? numeric) || (UA_BYTE_MAX <? nid_namespaceIndex src) then 1 + 6
      else if (UA_BYTE_MAX <? numeric) || (0 <? nid_namespaceIndex src) then 1 + 3
      else 1 + 1
  | ByteStringId s | StringId s => 1 + 2 + String_calcSizeBinary s
  | GuidId _ => 1 + 18
  | OtherId _ _ => 0
  end.

Definition ExpandedNodeId_calcSizeBinary (src : UA_ExpandedNodeId) : Z :=
  NodeId_calcSizeBinary (eni_nodeId src)
  + (if 0 <? arr_length (eni_namespaceUri src)
     then String_calcSizeBinary (eni_namespaceUri src) else 0)
  + (if 0 <? eni_serverIndex src then 4 else 0).

Definition QualifiedName_calcSizeBinary (src : UA_QualifiedName) : Z :=
  2 + String_calcSizeBinary (qn_name src).

Definition LocalizedText_calcSizeBinary (src : UA_LocalizedText) : Z :=
  1 + (if arr_nonnull (lt_locale src) then String_calcSizeBinary (lt_locale src) else 0)
    + (if arr_nonnull (lt_text src) then String_calcSizeBinary (lt_text src) else 0).

Fixpoint DiagnosticInfo_calcSizeBinary (src : UA_DiagnosticInfo) : Z :=
  1 + (if hasSymbolicId src then 4 else 0)
    + (if hasNamespaceUri src then 4 else 0)
    + (if hasLocalizedText src then 4 else 0)
    + (if hasLocale src then 4 else 0)
    + (if hasAdditionalInfo src then String_calcSizeBinary (additionalInfo src) else 0)
    + (if hasInnerStatusCode src then 4 else 0)
    + (if hasInnerDiagnosticInfo src then
         match innerDiagnosticInfo src with
         | Some inner => DiagnosticInfo_calcSizeBinary inner
         | None => 0
         end
       else 0).

(** Sum of a list of sizes, the accumulator [s += ...] of the loops. *)
Definition zsum (l : list Z) : Z := foldr Z.add 0 l.

(** [sizes] are the sizes of the elements, computed through the jump table. *)
Definition Array_calcSizeBinary (length : Z) (sizes : list Z) (type : UA_DataType) : Z :=
  if overlayable type then 4 + memSize type * length
  else 4 + zsum sizes.

(** The members of [DataValue] other than the value. *)
Definition DataValue_calcSizeTail (h : DataValueHeader) : Z :=
  (if hasStatus h then 4 else 0)
  + (if hasSourceTimestamp h then 8 else 0)
  + (if hasSourcePicoseconds h then 2 else 0)
  + (if hasServerTimestamp h then 8 else 0)
  + (if hasServerPicoseconds h then 2 else 0).

(** [src->arrayLength > 0 || src->data <= UA_EMPTY_ARRAY_SENTINEL] *)
Definition variant_isArray {A} (d : Slot A) : bool :=
  match d with
  | SScalar _ => false
  | SArray arr => (0 <? arr_length arr) || negb (arr_real arr)
  end.

Definition variant_arrayLength {A} (d : Slot A) : Z :=
  match d with SScalar _ => 0 | SArray arr => arr_length arr end.

Definition numeric_id (n : UA_NodeId) : bool :=
  match nid_identifier n with NumericId _ => true | _ => false end.

(** ** All types *)

Section CalcSize.
Context `{TypeEnv}.

(** [calcSizeBinaryJumpTable[index](src, type)] *)
Fixpoint calcSizeBinary (v : UA_Value) (type : UA_DataType) {struct v} : Z :=
  match entry type, v with
  | Some (EBoolean | EByte | EUInt16 | EUInt32 | EUInt64), VInt _ => memSize type
  | Some EString, VString s => String_calcSizeBinary s
  | Some EGuid, VGuid _ => 16
  | Some ENodeId, VNodeId n => NodeId_calcSizeBinary n
  | Some EExpandedNodeId, VExpandedNodeId n => ExpandedNodeId_calcSizeBinary n
  | Some EQualifiedName, VQualifiedName q => QualifiedName_calcSizeBinary q
  | Some ELocalizedText, VLocalizedText t => LocalizedText_calcSizeBinary t
  | Some EExtensionObject, VExtDecoded _ ot od =>
      match ot, od with
      | Some t, Some d =>
          if negb (numeric_id (dt_typeId t)) then 0
          else 1 + NodeId_calcSizeBinary (dt_typeId t) + 4 + calcSizeBinary d t
      | _, _ => 0
      end
  | Some EExtensionObject, VExtEncoded encoding typeId body =>
      if encoding =? UA_EXTENSIONOBJECT_ENCODED_NOBODY
      then 1 + NodeId_calcSizeBinary typeId
      else if (encoding =? UA_EXTENSIONOBJECT_ENCODED_BYTESTRING)
              || (encoding =? UA_EXTENSIONOBJECT_ENCODED_XML)
      then 1 + NodeId_calcSizeBinary typeId + String_calcSizeBinary body
      else 0
  | Some EDataValue, VDataValue h v =>
      1 + (if hasValue h then
             calcSizeBinary v UA_TYPES_VARIANT else 0)
        + DataValue_calcSizeTail h
  | Some EVariant, VVariant ot data dims =>
      match ot with
      | None => 1
      | Some t =>
          let isArray := variant_isArray data in
          let hasDimensions := isArray && (0 <? arr_length dims) in
          if negb (builtin t) && negb (numeric_id (dt_typeId t)) then 0
          else
            let length := if isArray then variant_arrayLength data else 1 in
            1 + (match data with
                 | SArray arr =>
                     if isArray then
                       Array_calcSizeBinary length
                         (arr_list (arr_map (fun d => calcSizeBinary d t) arr)) t
                     else 0
                 | SScalar d => calcSizeBinary d t
                 end)
              + (if builtin t then 0
                 else (NodeId_calcSizeBinary (dt_typeId t) + 1 + 4) * length)
              + (if hasDimensions
                 then Array_calcSizeBinary (arr_length dims) [] UA_TYPES_INT32 else 0)
      end
  | Some EDiagnosticInfo, VDiagnosticInfo d => DiagnosticInfo_calcSizeBinary d
  | Some EInternal, VStruct fs =>
      (fix go (fs : list (Slot UA_Value)) (ms : list UA_DataTypeMember) : Z :=
         match fs, ms with
         | s :: fs, m :: ms =>
             match membertype type m with
             | None => 0
             | Some mt =>
                 (match s with
                  | SScalar v => if isArray m then 0 else calcSizeBinary v mt
                  | SArray arr =>
                      if isArray m then
                        Array_calcSizeBinary (arr_length arr)
                          (arr_list (arr_map (fun v => calcSizeBinary v mt) arr)) mt
                      else 0
                  end) + go fs ms
             end
         | _, _ => 0
         end) fs (members type)
  | _, _ => 0
  end.

(** The loop over the members: a builtin type is its own single member, so
    the sum is the table entry of the type; the table entry of the other
    types is this function. *)
Definition UA_calcSizeBinary (v : UA_Value) (type : UA_DataType) : Z :=
  calcSizeBinary v type.
End CalcSize.
