(* ===== verification/BinaryEncode.v ===== *)
(** * Binary encoding ([src/ua_types_encoding_binary.c], the [_encodeBinary]
    functions)

    The encoding context holds the send buffer.  [out] are the bytes written
    to the current buffer, [room] is [ctx->end - ctx->pos].  The exchange
    callback receives the written bytes and the room that is left, and answers
    with a status, its own state and, when it replaced the buffer, the room of
    the new one.

    Saved positions ([u8 *oldpos = ctx->pos]) point into a buffer.  [gen]
    counts the buffers used so far; restoring a position of another buffer
    marks the context [stale]: the sources would then write through a pointer
    to memory that the callback has released. *)

From Stdlib Require Import ZArith Lia.
From stdpp Require Import base list numbers tactics sets.
From S2P Require Import Prelude UaTypes UaValue BinarySize.

Definition UA_ENCODING_MAX_RECURSION : Z := 20.

Definition exchangeEncodeBuffer (H : Type) : Type :=
  H -> list Z -> Z -> status * H * option Z.

Record Ctx (H : Type) := mkCtx {
  out : list Z;
  room : Z;
  depth : Z;
  handle : H;
  gen : nat;
  stale : bool
}.

Arguments mkCtx {H}.
Arguments out {H}.
Arguments room {H}.
Arguments depth {H}.
Arguments handle {H}.
Arguments gen {H}.
Arguments stale {H}.

Section Encode.
Context {TE : TypeEnv} {H : Type}.
Variable exchangeBufferCallback : option (exchangeEncodeBuffer H).

Abbreviation ctx := (Ctx H).
Abbreviation enc := (Ctx H -> status * Ctx H).

(** [ret |= m1; ret |= m2]: both run. *)
Definition orE (m1 m2 : enc) : enc := fun c =>
  let '(r1, c) := m1 c in
  let '(r2, c) := m2 c in
  (Z.lor r1 r2, c).

(** [ret = m1; if(ret != GOOD) return ret; return m2] *)
Definition thenE (m1 m2 : enc) : enc := fun c =>
  let '(r1, c) := m1 c in
  if bad r1 then (r1, c) else m2 c.

Definition retE (s : status) : enc := fun c => (s, c).

(** Statements guarded by a condition. *)
Definition whenE (b : bool) (m : enc) : enc := if b then m else retE GOOD.

Definition set_depth (c : ctx) (d : Z) : ctx :=
  mkCtx (out c) (room c) d (handle c) (gen c) (stale c).

(** Writing [bs] with the check [ctx->pos + n > ctx->end]. *)
Definition put (bs : list Z) : enc := fun c =>
  if room c <? zlen bs then (BADENCODINGLIMITSEXCEEDED, c)
  else (GOOD, mkCtx (out c ++ bs) (room c - zlen bs) (depth c) (handle c) (gen c) (stale c)).

(** [u8 *oldpos = ctx->pos] and [ctx->pos = oldpos]. *)
Definition save_pos (c : ctx) : nat * nat := (gen c, length (out c)).

Definition restore_pos (p : nat * nat) (c : ctx) : ctx :=
  if (fst p =? gen c)%nat then
    mkCtx (take (snd p) (out c)) (room c + (zlen (out c) - Z.of_nat (snd p)))
          (depth c) (handle c) (gen c) (stale c)
  else mkCtx (out c) (room c) (depth c) (handle c) (gen c) true.

(** ** Chunking *)

Definition exchangeBuffer : enc := fun c =>
  match exchangeBufferCallback with
  | None => (BADENCODINGERROR, c)
  | Some cb =>
      let '(ret, h, fresh) := cb (handle c) (out c) (room c) in
      match fresh with
      | Some r => (ret, mkCtx [] r (depth c) h (S (gen c)) (stale c))
      | None => (ret, mkCtx (out c) (room c) (depth c) h (gen c) (stale c))
      end
  end.

Definition encodeWithExchangeBuffer (encodeFunc : enc) : enc := fun c =>
  let '(ret, c) := encodeFunc c in
  if ret =? BADENCODINGLIMITSEXCEEDED then
    let '(ret, c) := exchangeBuffer c in
    if bad ret then (ret, c)
    else let '(_, c) := encodeFunc c in (GOOD, c)
  else (GOOD, c).

(** ** Integers

    Floats are written as the integer of the same size
    ([UA_BINARY_OVERLAYABLE_FLOAT]). *)

Definition Boolean_encodeBinary (src : Z) : enc := put [u8 src].
Definition Byte_encodeBinary (src : Z) : enc := put [u8 src].
Definition UInt16_encodeBinary (src : Z) : enc := put (le_bytes 2 src).
Definition UInt32_encodeBinary (src : Z) : enc := put (le_bytes 4 src).
Definition UInt64_encodeBinary (src : Z) : enc := put (le_bytes 8 src).

(** ** Arrays *)

(** The loop of [Array_encodeBinaryOverlayable] on the bytes that remain. *)
Fixpoint overlayable_loop (fuel : nat) (elementMemSize : Z) (mem : list Z) : enc := fun c =>
  if room c <? zlen mem then
    if elementMemSize =? 0 then (UNDEFINED, c) else
    let possibleMem := room c / elementMemSize * elementMemSize in
    let c := mkCtx (out c ++ take (Z.to_nat possibleMem) mem) (room c - possibleMem)
                   (depth c) (handle c) (gen c) (stale c) in
    let '(ret, c) := exchangeBuffer c in
    if bad ret then (ret, c)
    else match fuel with
         | O => (OUTOFFUEL, c)
         | S fuel => overlayable_loop fuel elementMemSize (drop (Z.to_nat possibleMem) mem) c
         end
  else put mem c.

Definition Array_encodeBinaryOverlayable (mem : list Z) (length : Z) (elementMemSize : Z) : enc :=
  overlayable_loop (S (Z.to_nat length)) elementMemSize mem.

(** The loop of [Array_encodeBinaryComplex]: the elements from [i] on, each
    given by its call through the jump table. *)
Fixpoint complex_loop (fuel : nat) (elems : list enc) : enc := fun c =>
  match elems with
  | [] => (GOOD, c)
  | encodeType :: rest =>
      match fuel with
      | O => (OUTOFFUEL, c)
      | S fuel =>
          let oldpos := save_pos c in
          let '(ret, c) := encodeType c in
          if negb (bad ret) then complex_loop fuel rest c
          else if ret =? BADENCODINGLIMITSEXCEEDED then
            let '(ret, c) := exchangeBuffer (restore_pos oldpos c) in
            if bad ret then (ret, c) else complex_loop fuel elems c
          else (ret, c)
      end
  end.

Definition Array_encodeBinaryComplex (elems : list enc) : enc :=
  complex_loop (2 * length elems) elems.

(** The elements come as memory image and encoder. *)
Definition Array_encodeBinary (src : UA_Array (list Z * enc)) (type : UA_DataType) : enc :=
  let length := arr_length src in
  if UA_INT32_MAX <? length then retE BADINTERNALERROR else
  let signed_length :=
    if 0 <? length then length else if arr_is_sentinel src then 0 else -1 in
  thenE (encodeWithExchangeBuffer (UInt32_encodeBinary signed_length))
        (if length =? 0 then retE GOOD
         else if negb (overlayable type)
         then Array_encodeBinaryComplex (map snd (arr_list src))
         else Array_encodeBinaryOverlayable (concat (map fst (arr_list src))) length
                                            (memSize type)).

(** ** Builtin types without recursion *)

Definition byte_elem (b : Z) : list Z * enc := ([u8 b], Byte_encodeBinary b).

Definition String_encodeBinary (src : UA_String) : enc :=
  Array_encodeBinary (arr_map byte_elem src) UA_TYPES_BYTE.

Definition Guid_encodeBinary (src : UA_Guid) : enc := fun c =>
  let '(ret, c) :=
    orE (orE (UInt32_encodeBinary (data1 src)) (UInt16_encodeBinary (data2 src)))
        (UInt16_encodeBinary (data3 src)) c in
  let '(ret4, c) := put (data4 src) c in
  if bad ret4 then (BADENCODINGLIMITSEXCEEDED, c) else (ret, c).

Definition UA_NODEIDTYPE_NUMERIC_TWOBYTE : Z := 0.
Definition UA_NODEIDTYPE_NUMERIC_FOURBYTE : Z := 1.
Definition UA_NODEIDTYPE_NUMERIC_COMPLETE : Z := 2.
Definition UA_EXPANDEDNODEID_SERVERINDEX_FLAG : Z := 0x40.
Definition UA_EXPANDEDNODEID_NAMESPACEURI_FLAG : Z := 0x80.

Definition NodeId_encodeBinaryWithEncodingMask (src : UA_NodeId) (encoding : Z) : enc :=
  let ns := nid_namespaceIndex src in
  match nid_identifier src with
  | NumericId numeric =>
      if (UA_UINT16_MAX <? numeric) || (UA_BYTE_MAX <? ns) then
        orE (orE (Byte_encodeBinary (Z.lor encoding UA_NODEIDTYPE_NUMERIC_COMPLETE))
                 (UInt16_encodeBinary ns))
            (UInt32_encodeBinary numeric)
      else if (UA_BYTE_MAX <? numeric) || (0 <? ns) then
        orE (orE (Byte_encodeBinary (Z.lor encoding UA_NODEIDTYPE_NUMERIC_FOURBYTE))
                 (Byte_encodeBinary (u8 ns)))
            (UInt16_encodeBinary (u16 numeric))
      else
        orE (Byte_encodeBinary (Z.lor encoding UA_NODEIDTYPE_NUMERIC_TWOBYTE))
            (Byte_encodeBinary (u8 numeric))
  | StringId string =>
      thenE (orE (Byte_encodeBinary (Z.lor encoding UA_NODEIDTYPE_STRING))
                 (UInt16_encodeBinary ns))
            (String_encodeBinary string)
  | GuidId guid =>
      orE (orE (Byte_encodeBinary (Z.lor encoding UA_NODEIDTYPE_GUID))
               (UInt16_encodeBinary ns))
          (Guid_encodeBinary guid)
  | ByteStringId byteString =>
      thenE (orE (Byte_encodeBinary (Z.lor encoding UA_NODEIDTYPE_BYTESTRING))
                 (UInt16_encodeBinary ns))
            (String_encodeBinary byteString)
  | OtherId _ _ => retE BADINTERNALERROR
  end.

Definition NodeId_encodeBinary (src : UA_NodeId) : enc :=
  NodeId_encodeBinaryWithEncodingMask src 0.

Definition ExpandedNodeId_encodeBinary (src : UA_ExpandedNodeId) : enc :=
  let uri := arr_real (eni_namespaceUri src) in
  let encoding := Z.lor (flag uri UA_EXPANDEDNODEID_NAMESPACEURI_FLAG)
                        (flag (0 <? eni_serverIndex src) UA_EXPANDEDNODEID_SERVERINDEX_FLAG) in
  thenE (NodeId_encodeBinaryWithEncodingMask (eni_nodeId src) encoding)
 (thenE (whenE uri (String_encodeBinary (eni_namespaceUri src)))
        (whenE (0 <? eni_serverIndex src)
           (encodeWithExchangeBuffer (UInt32_encodeBinary (eni_serverIndex src))))).

Definition QualifiedName_encodeBinary (src : UA_QualifiedName) : enc :=
  orE (UInt16_encodeBinary (qn_namespaceIndex src)) (String_encodeBinary (qn_name src)).

Definition UA_LOCALIZEDTEXT_ENCODINGMASKTYPE_LOCALE : Z := 0x01.
Definition UA_LOCALIZEDTEXT_ENCODINGMASKTYPE_TEXT : Z := 0x02.

Definition LocalizedText_encodeBinary (src : UA_LocalizedText) : enc :=
  let encoding :=
    Z.lor (flag (arr_nonnull (lt_locale src)) UA_LOCALIZEDTEXT_ENCODINGMASKTYPE_LOCALE)
          (flag (arr_nonnull (lt_text src)) UA_LOCALIZEDTEXT_ENCODINGMASKTYPE_TEXT) in
  thenE (Byte_encodeBinary encoding)
        (orE (whenE (has encoding UA_LOCALIZEDTEXT_ENCODINGMASKTYPE_LOCALE)
                    (String_encodeBinary (lt_locale src)))
             (whenE (has encoding UA_LOCALIZEDTEXT_ENCODINGMASKTYPE_TEXT)
                    (String_encodeBinary (lt_text src)))).

(** ** Structures *)

(** One iteration of the member loop: a member in place, with the size of
    its memory and the call through the jump table, or an array member. *)
Inductive Job :=
| JobScalar (memSize : Z) (encodeType : enc)
| JobArray (encodeArray : enc).

Fixpoint members_loop (fuel : nat) (jobs : list Job) : enc := fun c =>
  match jobs with
  | [] => (GOOD, c)
  | job :: rest =>
      match fuel with
      | O => (OUTOFFUEL, c)
      | S fuel =>
          match job with
          | JobScalar memSize encodeType =>
              let oldpos := save_pos c in
              let '(ret, c) := encodeType c in
              if ret =? BADENCODINGLIMITSEXCEEDED then
                let '(ret, c) := exchangeBuffer (restore_pos oldpos c) in
                if (ret =? BADENCODINGLIMITSEXCEEDED) || (room c <? memSize)
                then (BADRESPONSETOOLARGE, c)
                else if bad ret then (ret, c)
                else members_loop fuel jobs c
              else if bad ret then (ret, c)
              else members_loop fuel rest c
          | JobArray encodeArray =>
              let '(ret, c) := encodeArray c in
              if bad ret then (ret, c) else members_loop fuel rest c
          end
      end
  end.

(** [encodeBinaryInternal] on the members of the type. *)
Definition encodeMembers (jobs : list Job) : enc := fun c =>
  if UA_ENCODING_MAX_RECURSION <? depth c then (BADENCODINGERROR, c)
  else
    let '(ret, c) := members_loop (2 * length jobs) jobs (set_depth c (depth c + 1)) in
    (ret, set_depth c (depth c - 1)).

(** [encodeBinaryInternal(src, type, ctx)], given the table entry of the
    type: a builtin type is its own single member, and the entry of every
    other type is [encodeBinaryInternal]. *)
Definition encodeBinaryInternal (encodeType : enc) (type : UA_DataType) : enc :=
  if builtin type then encodeMembers [JobScalar (memSize type) encodeType] else encodeType.

(** ** DiagnosticInfo *)

Definition DiagnosticInfo_encodingMask (src : UA_DiagnosticInfo) : Z :=
  Z.lor (flag (hasSymbolicId src) 1)
 (Z.lor (flag (hasNamespaceUri src) 2)
 (Z.lor (flag (hasLocalizedText src) 4)
 (Z.lor (flag (hasLocale src) 8)
 (Z.lor (flag (hasAdditionalInfo src) 16)
        (flag (hasInnerDiagnosticInfo src) 32))))).

Fixpoint DiagnosticInfo_encodeBinary (src : UA_DiagnosticInfo) : enc :=
  thenE
    (orE (orE (orE (orE (Byte_encodeBinary (DiagnosticInfo_encodingMask src))
      (whenE (hasSymbolicId src) (UInt32_encodeBinary (symbolicId src))))
      (whenE (hasNamespaceUri src) (UInt32_encodeBinary (di_namespaceUri src))))
      (whenE (hasLocalizedText src) (UInt32_encodeBinary (localizedText src))))
      (whenE (hasLocale src) (UInt32_encodeBinary (di_locale src))))
 (thenE (whenE (hasAdditionalInfo src) (String_encodeBinary (additionalInfo src)))
 (thenE (whenE (hasInnerStatusCode src)
           (encodeWithExchangeBuffer (UInt32_encodeBinary (innerStatusCode src))))
        (whenE (hasInnerDiagnosticInfo src)
           (match innerDiagnosticInfo src with
            | Some inner =>
                encodeBinaryInternal (DiagnosticInfo_encodeBinary inner)
                                     UA_TYPES_DIAGNOSTICINFO
            | None => retE UNDEFINED
            end)))).

(** ** ExtensionObject, Variant, DataValue, structures *)

Definition isAlias (type : UA_DataType) : option bool :=
  if membersSize type =? 1 then
    match members type with
    | m :: _ => t ← UA_TYPES !! Z.to_nat (memberTypeIndex m); Some (builtin t)
    | [] => Some false
    end
  else Some false.

Definition UA_VARIANT_ENCODINGMASKTYPE_TYPEID_MASK : Z := 0x3F.
Definition UA_VARIANT_ENCODINGMASKTYPE_DIMENSIONS : Z := Z.shiftl 1 6.
Definition UA_VARIANT_ENCODINGMASKTYPE_ARRAY : Z := Z.shiftl 1 7.

Definition variant_typeMask (type : UA_DataType) (alias : bool) : Z :=
  Z.land UA_VARIANT_ENCODINGMASKTYPE_TYPEID_MASK
    (u8 (1 + if builtin type then typeIndex type
             else if alias then
               match members type with m :: _ => memberTypeIndex m | [] => 0 end
             else typeIndex UA_TYPES_EXTENSIONOBJECT)).

Definition variant_encodingMask (type : UA_DataType) (alias isArray hasDimensions : bool) : Z :=
  Z.lor (variant_typeMask type alias)
        (flag isArray (Z.lor UA_VARIANT_ENCODINGMASKTYPE_ARRAY
                             (flag hasDimensions UA_VARIANT_ENCODINGMASKTYPE_DIMENSIONS))).

(** An ExtensionObject with decoded content.  [content] is the call of
    [encodeBinaryInternal] for the content, [len] the result of
    [UA_calcSizeBinary]. *)
Definition ExtensionObject_encodeDecoded (type : UA_DataType) (len : Z) (content : enc) : enc :=
  if negb (numeric_id (dt_typeId type)) then retE BADENCODINGERROR else
  let typeId := mkNodeId (nid_namespaceIndex (dt_typeId type))
                         (NumericId (binaryEncodingId type)) in
  fun c =>
    let '(ret, c) := orE (NodeId_encodeBinary typeId)
                         (Byte_encodeBinary UA_EXTENSIONOBJECT_ENCODED_BYTESTRING) c in
    if UA_INT32_MAX <? len then (BADENCODINGERROR, c) else
    let '(ret', c) := UInt32_encodeBinary len c in
    let ret := Z.lor ret ret' in
    if bad ret then (ret, c) else content c.

Definition ExtensionObject_encodeEncoded (encoding : Z) (typeId : UA_NodeId)
    (body : UA_ByteString) : enc :=
  thenE (NodeId_encodeBinary typeId)
 (thenE (encodeWithExchangeBuffer (Byte_encodeBinary encoding))
        (if encoding =? UA_EXTENSIONOBJECT_ENCODED_NOBODY then retE GOOD
         else if (encoding =? UA_EXTENSIONOBJECT_ENCODED_BYTESTRING)
                 || (encoding =? UA_EXTENSIONOBJECT_ENCODED_XML)
         then String_encodeBinary body
         else retE BADINTERNALERROR)).

(** The loop stops at the first element that is not [GOOD]. *)
Fixpoint wrap_loop (elems : list enc) : enc :=
  match elems with
  | [] => retE GOOD
  | e :: rest => thenE e (wrap_loop rest)
  end.

(** [elems] are the calls [encodeBinaryInternal(&eo, EXTENSIONOBJECT)] for
    the elements (one for a scalar). *)
Definition Variant_encodeBinaryWrapExtensionObject (isArray : bool) (arrayLength : Z)
    (elems : list enc) : enc :=
  if isArray then
    if UA_INT32_MAX <? arrayLength then retE BADENCODINGERROR
    else thenE (UInt32_encodeBinary arrayLength) (wrap_loop elems)
  else wrap_loop elems.

Definition DataValue_encodingMask (h : DataValueHeader) : Z :=
  Z.lor (flag (hasValue h) 1)
 (Z.lor (flag (hasStatus h) 2)
 (Z.lor (flag (hasSourceTimestamp h) 4)
 (Z.lor (flag (hasServerTimestamp h) 8)
 (Z.lor (flag (hasSourcePicoseconds h) 16)
        (flag (hasServerPicoseconds h) 32))))).

Definition DataValue_encodeTail (h : DataValueHeader) : enc :=
  orE (orE (orE (orE
    (whenE (hasStatus h) (encodeWithExchangeBuffer (UInt32_encodeBinary (dv_status h))))
    (whenE (hasSourceTimestamp h)
       (encodeWithExchangeBuffer (UInt64_encodeBinary (sourceTimestamp h)))))
    (whenE (hasSourcePicoseconds h)
       (encodeWithExchangeBuffer (UInt16_encodeBinary (sourcePicoseconds h)))))
    (whenE (hasServerTimestamp h)
       (encodeWithExchangeBuffer (UInt64_encodeBinary (serverTimestamp h)))))
    (whenE (hasServerPicoseconds h)
       (encodeWithExchangeBuffer (UInt16_encodeBinary (serverPicoseconds h)))).

(** [encodeBinaryJumpTable[index](src, type, ctx)] *)
Fixpoint encodeBinary (v : UA_Value) (type : UA_DataType) {struct v} : enc :=
  match entry type, v with
  | Some EBoolean, VInt z => Boolean_encodeBinary z
  | Some EByte, VInt z => Byte_encodeBinary z
  | Some EUInt16, VInt z => UInt16_encodeBinary z
  | Some EUInt32, VInt z => UInt32_encodeBinary z
  | Some EUInt64, VInt z => UInt64_encodeBinary z
  | Some EString, VString s => String_encodeBinary s
  | Some EGuid, VGuid g => Guid_encodeBinary g
  | Some ENodeId, VNodeId n => NodeId_encodeBinary n
  | Some EExpandedNodeId, VExpandedNodeId n => ExpandedNodeId_encodeBinary n
  | Some EQualifiedName, VQualifiedName q => QualifiedName_encodeBinary q
  | Some ELocalizedText, VLocalizedText t => LocalizedText_encodeBinary t
  | Some EExtensionObject, VExtEncoded encoding typeId body =>
      ExtensionObject_encodeEncoded encoding typeId body
  | Some EExtensionObject, VExtDecoded _ ot od =>
      match ot, od with
      | Some t, Some d =>
          ExtensionObject_encodeDecoded t (UA_calcSizeBinary d t)
            (encodeBinaryInternal (encodeBinary d t) t)
      | _, _ => retE BADENCODINGERROR
      end
  | Some EDataValue, VDataValue h v =>
      thenE (Byte_encodeBinary (DataValue_encodingMask h))
     (thenE (whenE (hasValue h) (encodeBinary v UA_TYPES_VARIANT))
            (DataValue_encodeTail h))
  | Some EVariant, VVariant None _ _ => Byte_encodeBinary 0
  | Some EVariant, VVariant (Some t) data dims =>
      match isAlias t with
      | None => retE UNDEFINED
      | Some alias =>
          let isArray := variant_isArray data in
          let hasDimensions := isArray && (0 <? arr_length dims) in
          let wrapped d :=
            encodeBinaryInternal
              (ExtensionObject_encodeDecoded t (UA_calcSizeBinary d t)
                 (encodeBinaryInternal (encodeBinary d t) t))
              UA_TYPES_EXTENSIONOBJECT in
          thenE (Byte_encodeBinary (variant_encodingMask t alias isArray hasDimensions))
         (thenE
            (if negb (builtin t) && negb alias then
               match data with
               | SScalar d => Variant_encodeBinaryWrapExtensionObject false 0 [wrapped d]
               | SArray arr =>
                   if isArray then
                     Variant_encodeBinaryWrapExtensionObject true (arr_length arr)
                       (arr_list (arr_map wrapped arr))
                   else retE UNDEFINED
               end
             else
               match data with
               | SScalar d => encodeBinaryInternal (encodeBinary d t) t
               | SArray arr =>
                   if isArray then
                     Array_encodeBinary
                       (arr_map (fun d => (mem_image d t, encodeBinary d t)) arr) t
                   else retE UNDEFINED
               end)
            (whenE hasDimensions
               (Array_encodeBinary
                  (arr_map (fun z => (le_bytes 4 z, UInt32_encodeBinary z)) dims)
                  UA_TYPES_INT32)))
      end
  | Some EDiagnosticInfo, VDiagnosticInfo d => DiagnosticInfo_encodeBinary d
  | Some EInternal, VStruct fs =>
      encodeMembers
        ((fix jobs (fs : list (Slot UA_Value)) (ms : list UA_DataTypeMember) : list Job :=
            match fs, ms with
            | [], [] => []
            | s :: fs, m :: ms =>
                match membertype type m, s with
                | Some mt, SScalar v =>
                    if isArray m then [JobArray (retE UNDEFINED)]
                    else JobScalar (memSize mt) (encodeBinary v mt) :: jobs fs ms
                | Some mt, SArray arr =>
                    if isArray m then
                      JobArray (Array_encodeBinary
                        (arr_map (fun v => (mem_image v mt, encodeBinary v mt)) arr) mt)
                      :: jobs fs ms
                    else [JobArray (retE UNDEFINED)]
                | None, _ => [JobArray (retE UNDEFINED)]
                end
            | _, _ => [JobArray (retE UNDEFINED)]
            end) fs (members type))
  | _, _ => retE UNDEFINED
  end.

(** [UA_encodeBinary] starts at depth 0 in the given buffer. *)
Definition UA_encodeBinary (v : UA_Value) (type : UA_DataType) (h : H) (bufRoom : Z)
    : status * Ctx H :=
  encodeBinaryInternal (encodeBinary v type) type (mkCtx [] bufRoom 0 h 0%nat false).
End Encode.
