(* ===== verification/BinaryDecode.v ===== *)
(** * Binary decoding ([src/ua_types_encoding_binary.c], the [_decodeBinary]
    functions)

    A decoder reads from a fixed buffer and returns a status, the decoded
    value and the new context.  Destinations are zeroed memory: [UA_decodeBinary]
    clears its target, and array elements, variant contents and inner
    structures come from [UA_calloc].  The value is meaningful only with the
    status [GOOD]; [UA_decodeBinary] deletes it otherwise.

    [calloc_ok n size] tells whether the [n]-th allocation of the call
    succeeds. *)

From Stdlib Require Import ZArith Lia.
From stdpp Require Import base list numbers tactics sets.
From S2P Require Import Prelude UaTypes UaValue BinarySize BinaryEncode.

Record DCtx := mkDCtx {
  pos : Z;        (* ctx->pos - start of the buffer *)
  ddepth : Z;
  allocs : nat
}.

Section Decode.
Context {TE : TypeEnv}.
Variable calloc_ok : nat -> Z -> bool.
Variable buf : list Z.

Definition dec (A : Type) : Type := DCtx -> status * A * DCtx.

Definition set_pos (c : DCtx) (p : Z) : DCtx := mkDCtx p (ddepth c) (allocs c).
Definition set_ddepth (c : DCtx) (d : Z) : DCtx := mkDCtx (pos c) d (allocs c).

(** Reading memory: only the bytes of the buffer can be read. *)
Definition load (p n : Z) : option (list Z) :=
  if (0 <=? p) && (p + n <=? zlen buf)
  then Some (take (Z.to_nat n) (drop (Z.to_nat p) buf)) else None.

(** [if(ctx->pos + n > ctx->end) return BADDECODINGERROR], then [n] bytes. *)
Definition get (n : Z) : dec (list Z) := fun c =>
  if zlen buf <? pos c + n then (BADDECODINGERROR, [], c)
  else match load (pos c) n with
       | Some bs => (GOOD, bs, set_pos c (pos c + n))
       | None => (UNDEFINED, [], c)
       end.

Definition fmapD {A B} (f : A -> B) (m : dec A) : dec B := fun c =>
  let '(r, a, c) := m c in (r, f a, c).

(** A member that is decoded only when its bit is set, and is zero
    otherwise. *)
Definition whenD {A} (b : bool) (zero : A) (m : dec A) : dec A :=
  if b then m else fun c => (GOOD, zero, c).

(** [UA_calloc] *)
Definition calloc (size : Z) (c : DCtx) : bool * DCtx :=
  (calloc_ok (allocs c) size, mkDCtx (pos c) (ddepth c) (S (allocs c))).

(** ** Integers *)

Definition Boolean_decodeBinary : dec Z :=
  fmapD (fun bs => if 0 <? le_value bs then 1 else 0) (get 1).
Definition Byte_decodeBinary : dec Z := fmapD le_value (get 1).
Definition UInt16_decodeBinary : dec Z := fmapD le_value (get 2).
Definition UInt32_decodeBinary : dec Z := fmapD le_value (get 4).
Definition UInt64_decodeBinary : dec Z := fmapD le_value (get 8).

(** ** Arrays *)

(** Decode [n] elements; stop at the first failure. *)
Fixpoint decode_elems {A} (decodeType : dec A) (n : nat) : dec (list A) := fun c =>
  match n with
  | O => (GOOD, [], c)
  | S n =>
      let '(ret, a, c) := decodeType c in
      if bad ret then (ret, [], c)
      else let '(ret, l, c) := decode_elems decodeType n c in (ret, a :: l, c)
  end.

(** The elements of an overlayable array in a memory region. *)
Fixpoint split_mem {A} (from_mem : list Z -> A) (size n : nat) (mem : list Z) : list A :=
  match n with
  | O => []
  | S n => from_mem (take size mem) :: split_mem from_mem size n (drop size mem)
  end.

Definition Array_decodeBinary {A} (decodeType : dec A) (from_mem : list Z -> A)
    (type : UA_DataType) : dec (UA_Array A) := fun c =>
  let '(ret, image, c) := UInt32_decodeBinary c in
  if bad ret then (ret, ArrNull, c) else
  let signed_length := i32 image in
  if signed_length <=? 0 then
    (GOOD, if signed_length <? 0 then ArrNull else ArrEmpty, c)
  else
    let length := signed_length in
    if zlen buf <? pos c + (memSize type * length) / 32 then (BADDECODINGERROR, ArrNull, c) else
    let '(ok, c) := calloc (memSize type * length) c in
    if negb ok then (BADOUTOFMEMORY, ArrNull, c) else
    if overlayable type then
      let '(ret, mem, c) := get (memSize type * length) c in
      if bad ret then (ret, ArrNull, c)
      else (GOOD, ArrData (split_mem from_mem (Z.to_nat (memSize type))
                                     (Z.to_nat length) mem), c)
    else
      let '(ret, l, c) := decode_elems decodeType (Z.to_nat length) c in
      if bad ret then (ret, ArrNull, c) else (GOOD, ArrData l, c).

(** ** Builtin types without recursion *)

Definition String_decodeBinary : dec UA_String :=
  Array_decodeBinary Byte_decodeBinary le_value UA_TYPES_BYTE.

Definition Guid_decodeBinary : dec UA_Guid := fun c =>
  let '(r1, d1, c) := UInt32_decodeBinary c in
  let '(r2, d2, c) := UInt16_decodeBinary c in
  let '(r3, d3, c) := UInt16_decodeBinary c in
  let '(r4, d4, c) := get 8 c in
  if bad r4 then (r4, mkGuid d1 d2 d3 [0; 0; 0; 0; 0; 0; 0; 0], c)
  else (Z.lor r1 (Z.lor r2 r3), mkGuid d1 d2 d3 d4, c).

(** The identifier types that carry a 16-bit namespace index followed by the
    identifier. *)
Definition NodeId_decodeWith {A} (m : dec A) (f : A -> UA_NodeIdIdentifier) : dec UA_NodeId :=
  fun c =>
    let '(r1, ns, c) := UInt16_decodeBinary c in
    let '(r2, a, c) := m c in
    (Z.lor r1 r2, mkNodeId ns (f a), c).

(** [switch(encodingByte)] *)
Definition NodeId_decodeSwitch (encodingByte : Z) : dec UA_NodeId :=
  if encodingByte =? UA_NODEIDTYPE_NUMERIC_TWOBYTE then
    fmapD (fun b => mkNodeId 0 (NumericId b)) Byte_decodeBinary
  else if encodingByte =? UA_NODEIDTYPE_NUMERIC_FOURBYTE then
    fun c =>
      let '(r1, ns, c) := Byte_decodeBinary c in
      let '(r2, n, c) := UInt16_decodeBinary c in
      (Z.lor r1 r2, mkNodeId ns (NumericId n), c)
  else if encodingByte =? UA_NODEIDTYPE_NUMERIC_COMPLETE then
    NodeId_decodeWith UInt32_decodeBinary NumericId
  else if encodingByte =? UA_NODEIDTYPE_STRING then
    NodeId_decodeWith String_decodeBinary StringId
  else if encodingByte =? UA_NODEIDTYPE_GUID then
    NodeId_decodeWith Guid_decodeBinary GuidId
  else if encodingByte =? UA_NODEIDTYPE_BYTESTRING then
    NodeId_decodeWith String_decodeBinary ByteStringId
  else fun c => (BADINTERNALERROR, UA_NODEID_NULL, c).

Definition NodeId_decodeBinary : dec UA_NodeId := fun c =>
  let '(ret, encodingByte, c) := Byte_decodeBinary c in
  if bad ret then (ret, UA_NODEID_NULL, c)
  else NodeId_decodeSwitch
         (Z.land encodingByte
            (u8 (Z.lnot (Z.lor UA_EXPANDEDNODEID_SERVERINDEX_FLAG
                               UA_EXPANDEDNODEID_NAMESPACEURI_FLAG)))) c.

Definition ExpandedNodeId_decodeBinary : dec UA_ExpandedNodeId := fun c =>
  let zero := mkExpandedNodeId UA_NODEID_NULL ArrNull 0 in
  if zlen buf <=? pos c then (BADDECODINGERROR, zero, c) else
  match load (pos c) 1 with
  | None => (UNDEFINED, zero, c)
  | Some bs =>
      let encoding := le_value bs in
      let '(r1, nodeId, c) := NodeId_decodeBinary c in
      let uri := has encoding UA_EXPANDEDNODEID_NAMESPACEURI_FLAG in
      let nodeId := if uri then mkNodeId 0 (nid_identifier nodeId) else nodeId in
      let '(r2, s, c) := whenD uri ArrNull String_decodeBinary c in
      let '(r3, i, c) :=
        whenD (has encoding UA_EXPANDEDNODEID_SERVERINDEX_FLAG) 0 UInt32_decodeBinary c in
      (Z.lor r1 (Z.lor r2 r3), mkExpandedNodeId nodeId s i, c)
  end.

Definition QualifiedName_decodeBinary : dec UA_QualifiedName := fun c =>
  let '(r1, ns, c) := UInt16_decodeBinary c in
  let '(r2, s, c) := String_decodeBinary c in
  (Z.lor r1 r2, mkQualifiedName ns s, c).

Definition LocalizedText_decodeBinary : dec UA_LocalizedText := fun c =>
  let '(r1, encoding, c) := Byte_decodeBinary c in
  let '(r2, locale, c) :=
    whenD (has encoding UA_LOCALIZEDTEXT_ENCODINGMASKTYPE_LOCALE) ArrNull
          String_decodeBinary c in
  let '(r3, text, c) :=
    whenD (has encoding UA_LOCALIZEDTEXT_ENCODINGMASKTYPE_TEXT) ArrNull
          String_decodeBinary c in
  (Z.lor r1 (Z.lor r2 r3), mkLocalizedText locale text, c).

(** ** DiagnosticInfo *)

Definition recursion_limit (c : DCtx) : bool := UA_ENCODING_MAX_RECURSION <? ddepth c.

Fixpoint DiagnosticInfo_decodeBinary (fuel : nat) : dec UA_DiagnosticInfo := fun c =>
  match fuel with
  | O => (OUTOFFUEL, UA_DiagnosticInfo_null, c)
  | S fuel =>
      let '(ret, mask, c) := Byte_decodeBinary c in
      if bad ret then (ret, UA_DiagnosticInfo_null, c) else
      let '(r1, symbolicId, c) := whenD (has mask 0x01) 0 UInt32_decodeBinary c in
      let '(r2, namespaceUri, c) := whenD (has mask 0x02) 0 UInt32_decodeBinary c in
      let '(r3, localizedText, c) := whenD (has mask 0x04) 0 UInt32_decodeBinary c in
      let '(r4, locale, c) := whenD (has mask 0x08) 0 UInt32_decodeBinary c in
      let '(r5, additionalInfo, c) := whenD (has mask 0x10) ArrNull String_decodeBinary c in
      let '(r6, innerStatusCode, c) := whenD (has mask 0x20) 0 UInt32_decodeBinary c in
      let ret := Z.lor r1 (Z.lor r2 (Z.lor r3 (Z.lor r4 (Z.lor r5 r6)))) in
      let result inner :=
        mkDiagnosticInfo (has mask 0x01) (has mask 0x02) (has mask 0x04) (has mask 0x08)
          (has mask 0x10) (has mask 0x20) (bool_decide (inner <> None)) symbolicId
          namespaceUri localizedText locale additionalInfo innerStatusCode inner in
      if has mask 0x40 then
        let '(ok, c) := calloc (memSize UA_TYPES_DIAGNOSTICINFO) c in
        if negb ok then (BADOUTOFMEMORY, result None, c) else
        if recursion_limit c
        then (BADENCODINGERROR, result (Some UA_DiagnosticInfo_null), c)
        else
          let '(r7, inner, c) :=
            DiagnosticInfo_decodeBinary fuel (set_ddepth c (ddepth c + 1)) in
          (Z.lor ret r7, result (Some inner), set_ddepth c (ddepth c - 1))
      else (ret, result None, c)
  end.

(** ** Lookup of type descriptions *)

Definition find_binary (types : list UA_DataType) (numeric ns : Z) : option UA_DataType :=
  find (fun t => (binaryEncodingId t =? numeric)
                 && (nid_namespaceIndex (dt_typeId t) =? ns)) types.

Definition UA_findDataTypeByBinaryInternal (typeId : UA_NodeId)
    (customTypesArray : list UA_DataType) : option UA_DataType :=
  match nid_identifier typeId with
  | NumericId numeric =>
      match find_binary UA_TYPES numeric (nid_namespaceIndex typeId) with
      | Some t => Some t
      | None =>
          if nid_namespaceIndex typeId =? 0 then None
          else find_binary customTypesArray numeric (nid_namespaceIndex typeId)
      end
  | _ => None
  end.

Definition UA_findDataTypeByBinary (typeId : UA_NodeId) : option UA_DataType :=
  UA_findDataTypeByBinaryInternal typeId [].

(** ** Types with content of other types

    [decodeBinary] stands for the jump table. *)
Section Recursive.
Variable decodeBinary : UA_DataType -> dec UA_Value.
Variable from_image : UA_DataType -> list Z -> UA_Value.

(** [UA_String_copy] and [UA_NodeId_copy]: a non-empty string is copied to
    new memory. *)
Definition UA_String_copy (s : UA_String) : dec UA_String := fun c =>
  if arr_length s =? 0 then
    (GOOD, if arr_nonnull s then ArrEmpty else ArrNull, c)
  else
    let '(ok, c) := calloc (arr_length s) c in
    if ok then (GOOD, s, c) else (BADOUTOFMEMORY, ArrNull, c).

Definition UA_NodeId_copy (n : UA_NodeId) : dec UA_NodeId :=
  match nid_identifier n with
  | NumericId _ | GuidId _ => fun c => (GOOD, n, c)
  | StringId s =>
      fmapD (fun s => mkNodeId (nid_namespaceIndex n) (StringId s)) (UA_String_copy s)
  | ByteStringId s =>
      fmapD (fun s => mkNodeId (nid_namespaceIndex n) (ByteStringId s)) (UA_String_copy s)
  | OtherId _ _ => fun c => (BADINTERNALERROR, UA_NODEID_NULL, c)
  end.

Definition ExtensionObject_decodeBinaryContent (typeId : UA_NodeId) : dec UA_Value := fun c =>
  match UA_findDataTypeByBinaryInternal typeId customTypes with
  | None =>
      let '(_, typeId, c) := UA_NodeId_copy typeId c in
      fmapD (VExtEncoded UA_EXTENSIONOBJECT_ENCODED_BYTESTRING typeId)
            String_decodeBinary c
  | Some type =>
      let '(ok, c) := calloc (memSize type) c in
      if negb ok then
        (BADOUTOFMEMORY, VExtEncoded UA_EXTENSIONOBJECT_ENCODED_NOBODY UA_NODEID_NULL ArrNull, c)
      else
        fmapD (fun d => VExtDecoded UA_EXTENSIONOBJECT_DECODED (Some type) (Some d))
              (decodeBinary type) (set_pos c (pos c + 4))
  end.

Definition ExtensionObject_decodeBinary : dec UA_Value := fun c =>
  let zero := VExtEncoded UA_EXTENSIONOBJECT_ENCODED_NOBODY UA_NODEID_NULL ArrNull in
  let '(r1, binTypeId, c) := NodeId_decodeBinary c in
  let '(r2, encoding, c) := Byte_decodeBinary c in
  let ret := Z.lor r1 r2 in
  if bad ret then (ret, zero, c)
  else if encoding =? UA_EXTENSIONOBJECT_ENCODED_BYTESTRING then
    ExtensionObject_decodeBinaryContent binTypeId c
  else if encoding =? UA_EXTENSIONOBJECT_ENCODED_NOBODY then
    (GOOD, VExtEncoded encoding binTypeId ArrNull, c)
  else if encoding =? UA_EXTENSIONOBJECT_ENCODED_XML then
    fmapD (VExtEncoded encoding binTypeId) String_decodeBinary c
  else (BADDECODINGERROR, zero, c).

Definition Variant_decodeBinaryUnwrapExtensionObject : dec UA_Value := fun c =>
  let old_pos := pos c in
  let '(ret, typeId, c) := NodeId_decodeBinary c in
  if bad ret then (ret, UA_Variant_null, c) else
  let '(ret, encoding, c) := Byte_decodeBinary c in
  if bad ret then (ret, UA_Variant_null, c) else
  let found :=
    if encoding =? UA_EXTENSIONOBJECT_ENCODED_BYTESTRING
    then UA_findDataTypeByBinaryInternal typeId customTypes else None in
  let '(type, c) :=
    match found with
    | Some type => (type, set_pos c (pos c + 4))
    | None => (UA_TYPES_EXTENSIONOBJECT, set_pos c old_pos)
    end in
  let '(ok, c) := calloc (memSize type) c in
  if negb ok then (BADOUTOFMEMORY, VVariant (Some type) (SArray ArrNull) ArrNull, c)
  else fmapD (fun d => VVariant (Some type) (SScalar d) ArrNull) (decodeBinary type) c.

(** The content and the array dimensions, with the depth already counted. *)
Definition Variant_decodeContent (typeIndex : Z) (type : UA_DataType)
    (isArray hasDimensions : bool) : dec UA_Value := fun c =>
  if isArray then
    let '(r1, arr, c) :=
      Array_decodeBinary (decodeBinary type) (from_image type) type c in
    let '(r2, dims, c) :=
      whenD hasDimensions ArrNull
            (Array_decodeBinary UInt32_decodeBinary le_value UA_TYPES_INT32) c in
    (Z.lor r1 r2, VVariant (Some type) (SArray arr) dims, set_ddepth c (ddepth c - 1))
  else if negb (typeIndex =? UaTypes.typeIndex UA_TYPES_EXTENSIONOBJECT) then
    let '(ok, c) := calloc (memSize type) c in
    if negb ok then (BADOUTOFMEMORY, VVariant (Some type) (SArray ArrNull) ArrNull, c)
    else
      let '(ret, d, c) := decodeBinary type c in
      (ret, VVariant (Some type) (SScalar d) ArrNull, set_ddepth c (ddepth c - 1))
  else
    let '(ret, v, c) := Variant_decodeBinaryUnwrapExtensionObject c in
    (ret, v, set_ddepth c (ddepth c - 1)).

Definition Variant_decodeBinary : dec UA_Value := fun c =>
  let '(ret, encodingByte, c) := Byte_decodeBinary c in
  if bad ret then (ret, UA_Variant_null, c)
  else if encodingByte =? 0 then (GOOD, UA_Variant_null, c)
  else
    let isArray := has encodingByte UA_VARIANT_ENCODINGMASKTYPE_ARRAY in
    let typeIndex :=
      u64 (Z.land encodingByte UA_VARIANT_ENCODINGMASKTYPE_TYPEID_MASK - 1) in
    if UaTypes.typeIndex UA_TYPES_DIAGNOSTICINFO <? typeIndex
    then (BADDECODINGERROR, UA_Variant_null, c)
    else if (typeIndex =? UaTypes.typeIndex UA_TYPES_VARIANT) && negb isArray
    then (BADDECODINGERROR, UA_Variant_null, c)
    else if recursion_limit c then (BADENCODINGERROR, UA_Variant_null, c)
    else
      match UA_TYPES !! Z.to_nat typeIndex with
      | None => (UNDEFINED, UA_Variant_null, c)
      | Some type =>
          Variant_decodeContent typeIndex type isArray
            (has encodingByte UA_VARIANT_ENCODINGMASKTYPE_DIMENSIONS)
            (set_ddepth c (ddepth c + 1))
      end.

Definition MAX_PICO_SECONDS : Z := 9999.

Definition DataValue_decodeBinary : dec UA_Value := fun c =>
  let '(ret, mask, c) := Byte_decodeBinary c in
  if bad ret then (ret, VDataValue DataValueHeader_init UA_Variant_null, c)
  else if recursion_limit c
  then (BADENCODINGERROR, VDataValue DataValueHeader_init UA_Variant_null, c)
  else
    let c := set_ddepth c (ddepth c + 1) in
    let '(r1, value, c) :=
      whenD (has mask 0x01) UA_Variant_null (decodeBinary UA_TYPES_VARIANT) c in
    let '(r2, status, c) := whenD (has mask 0x02) 0 UInt32_decodeBinary c in
    let '(r3, srcTs, c) := whenD (has mask 0x04) 0 UInt64_decodeBinary c in
    let '(r4, srcPico, c) := whenD (has mask 0x10) 0 UInt16_decodeBinary c in
    let '(r5, srvTs, c) := whenD (has mask 0x08) 0 UInt64_decodeBinary c in
    let '(r6, srvPico, c) := whenD (has mask 0x20) 0 UInt16_decodeBinary c in
    (Z.lor r1 (Z.lor r2 (Z.lor r3 (Z.lor r4 (Z.lor r5 r6)))),
     VDataValue
       (mkDataValueHeader (has mask 0x01) (has mask 0x02) (has mask 0x04)
          (has mask 0x08) (has mask 0x10) (has mask 0x20) status srcTs
          (Z.min srcPico MAX_PICO_SECONDS) srvTs (Z.min srvPico MAX_PICO_SECONDS))
       value,
     set_ddepth c (ddepth c - 1)).

(** The member loop of [decodeBinaryInternal]. *)
Fixpoint decode_members (type : UA_DataType) (ms : list UA_DataTypeMember)
    : dec (list (Slot UA_Value)) := fun c =>
  match ms with
  | [] => (GOOD, [], c)
  | m :: ms =>
      match membertype type m with
      | None => (UNDEFINED, [], c)
      | Some mt =>
          let '(ret, s, c) :=
            if isArray m
            then fmapD SArray (Array_decodeBinary (decodeBinary mt) (from_image mt) mt) c
            else fmapD SScalar (decodeBinary mt) c in
          if bad ret then (ret, [], c)
          else let '(ret, ss, c) := decode_members type ms c in (ret, s :: ss, c)
      end
  end.

Definition decodeMembers {A} (loop : dec A) (zero : A) : dec A := fun c =>
  if recursion_limit c then (BADENCODINGERROR, zero, c)
  else
    let '(ret, a, c) := loop (set_ddepth c (ddepth c + 1)) in
    (ret, a, set_ddepth c (ddepth c - 1)).
End Recursive.

(** The value of an overlayable type in memory. *)
Fixpoint from_image (fuel : nat) (type : UA_DataType) (mem : list Z) : UA_Value :=
  match fuel with
  | O => VInt 0
  | S fuel =>
      match entry type with
      | Some EGuid =>
          VGuid (mkGuid (le_value (take 4 mem)) (le_value (take 2 (drop 4 mem)))
                        (le_value (take 2 (drop 6 mem))) (take 8 (drop 8 mem)))
      | Some EInternal =>
          VStruct
            ((fix go (ms : list UA_DataTypeMember) (mem : list Z) : list (Slot UA_Value) :=
                match ms with
                | [] => []
                | m :: ms =>
                    match membertype type m with
                    | None => []
                    | Some mt =>
                        let size := Z.to_nat (memSize mt) in
                        SScalar (from_image fuel mt (take size mem)) :: go ms (drop size mem)
                    end
                end) (members type) mem)
      | _ => VInt (le_value mem)
      end
  end.

(** The nesting of type descriptions that [from_image] follows. *)
Definition image_fuel : nat := 64.

(** [decodeBinaryJumpTable[index](dst, type, ctx)] *)
Fixpoint decodeBinary (fuel : nat) (type : UA_DataType) : dec UA_Value := fun c =>
  match fuel with
  | O => (OUTOFFUEL, VInt 0, c)
  | S fuel =>
      match entry type with
      | Some EBoolean => fmapD VInt Boolean_decodeBinary c
      | Some EByte => fmapD VInt Byte_decodeBinary c
      | Some EUInt16 => fmapD VInt UInt16_decodeBinary c
      | Some EUInt32 => fmapD VInt UInt32_decodeBinary c
      | Some EUInt64 => fmapD VInt UInt64_decodeBinary c
      | Some EString => fmapD VString String_decodeBinary c
      | Some EGuid => fmapD VGuid Guid_decodeBinary c
      | Some ENodeId => fmapD VNodeId NodeId_decodeBinary c
      | Some EExpandedNodeId => fmapD VExpandedNodeId ExpandedNodeId_decodeBinary c
      | Some EQualifiedName => fmapD VQualifiedName QualifiedName_decodeBinary c
      | Some ELocalizedText => fmapD VLocalizedText LocalizedText_decodeBinary c
      | Some EExtensionObject => ExtensionObject_decodeBinary (decodeBinary fuel) c
      | Some EDataValue => DataValue_decodeBinary (decodeBinary fuel) c
      | Some EVariant =>
          Variant_decodeBinary (decodeBinary fuel) (from_image image_fuel) c
      | Some EDiagnosticInfo =>
          fmapD VDiagnosticInfo (DiagnosticInfo_decodeBinary fuel) c
      | Some EInternal =>
          fmapD VStruct
            (decodeMembers
               (decode_members (decodeBinary fuel) (from_image image_fuel) type (members type))
               []) c
      | None => (UNDEFINED, VInt 0, c)
      end
  end.

(** [decodeBinaryInternal(dst, type, ctx)]: as in the encoder, a builtin type
    is its own single member. *)
Definition decodeBinaryInternal (fuel : nat) (type : UA_DataType) : dec UA_Value :=
  if builtin type then decodeMembers (decodeBinary fuel type) (VInt 0)
  else decodeBinary fuel type.

(** Twice the recursion limit, as an ExtensionObject does not count. *)
Definition decode_fuel : nat := 64.

Definition UA_decodeBinary (offset : Z) (type : UA_DataType) : status * option UA_Value * Z :=
  let '(ret, v, c) := decodeBinaryInternal decode_fuel type (mkDCtx offset 0 0%nat) in
  if bad ret then (ret, None, offset) else (ret, Some v, pos c).
End Decode.
