(* ===== verification/BinarySpec.v ===== *)
(** * The binary encoding as bytes

    [bytes_of v type] is the byte string that a value stands for on the wire,
    with no reference to buffers, chunks or errors.  It is the specification
    of the encoder ([BinaryEncodeCorrect]), of the size computation and of the
    decoder ([BinaryRoundtrip]).  [wf] are the values the encoder accepts and
    [nest] the recursion depth it uses for them. *)

From Stdlib Require Import ZArith Lia.
From stdpp Require Import base list numbers tactics sets.
From S2P Require Import Prelude UaTypes UaValue BinarySize BinaryEncode BinaryDecode.

(** ** Bytes *)

(** The signed 32-bit length field: -1 for a null array. *)
Definition length_field {A} (a : UA_Array A) : Z :=
  if 0 <? arr_length a then arr_length a else if arr_is_sentinel a then 0 else -1.

Definition bytes_array (a : UA_Array (list Z)) : list Z :=
  le_bytes 4 (length_field a) ++ concat (arr_list a).

Definition bytes_string (s : UA_String) : list Z :=
  bytes_array (arr_map (fun b => [u8 b]) s).

Definition bytes_guid (g : UA_Guid) : list Z := guid_image g.

Definition bytes_nodeid (n : UA_NodeId) (mask : Z) : list Z :=
  let ns := nid_namespaceIndex n in
  match nid_identifier n with
  | NumericId i =>
      if (UA_UINT16_MAX <? i) || (UA_BYTE_MAX <? ns) then
        [u8 (Z.lor mask 2)] ++ le_bytes 2 ns ++ le_bytes 4 i
      else if (UA_BYTE_MAX <? i) || (0 <? ns) then
        [u8 (Z.lor mask 1)] ++ [u8 (u8 ns)] ++ le_bytes 2 (u16 i)
      else [u8 (Z.lor mask 0)] ++ [u8 (u8 i)]
  | StringId s => [u8 (Z.lor mask 3)] ++ le_bytes 2 ns ++ bytes_string s
  | GuidId g => [u8 (Z.lor mask 4)] ++ le_bytes 2 ns ++ bytes_guid g
  | ByteStringId s => [u8 (Z.lor mask 5)] ++ le_bytes 2 ns ++ bytes_string s
  | OtherId _ _ => []
  end.

Definition when {A} (b : bool) (l : list A) : list A := if b then l else [].

Definition bytes_expandednodeid (n : UA_ExpandedNodeId) : list Z :=
  let uri := arr_real (eni_namespaceUri n) in
  let srv := 0 <? eni_serverIndex n in
  bytes_nodeid (eni_nodeId n) (Z.lor (flag uri 0x80) (flag srv 0x40))
  ++ when uri (bytes_string (eni_namespaceUri n))
  ++ when srv (le_bytes 4 (eni_serverIndex n)).

Definition bytes_qualifiedname (q : UA_QualifiedName) : list Z :=
  le_bytes 2 (qn_namespaceIndex q) ++ bytes_string (qn_name q).

Definition bytes_localizedtext (t : UA_LocalizedText) : list Z :=
  [u8 (Z.lor (flag (arr_nonnull (lt_locale t)) 1) (flag (arr_nonnull (lt_text t)) 2))]
  ++ when (arr_nonnull (lt_locale t)) (bytes_string (lt_locale t))
  ++ when (arr_nonnull (lt_text t)) (bytes_string (lt_text t)).

Definition bytes_diag_prefix (d : UA_DiagnosticInfo) : list Z :=
  [u8 (DiagnosticInfo_encodingMask d)]
  ++ when (hasSymbolicId d) (le_bytes 4 (symbolicId d))
  ++ when (hasNamespaceUri d) (le_bytes 4 (di_namespaceUri d))
  ++ when (hasLocalizedText d) (le_bytes 4 (localizedText d))
  ++ when (hasLocale d) (le_bytes 4 (di_locale d)).

Fixpoint bytes_diagnosticinfo (d : UA_DiagnosticInfo) : list Z :=
  bytes_diag_prefix d
  ++ when (hasAdditionalInfo d) (bytes_string (additionalInfo d))
  ++ when (hasInnerStatusCode d) (le_bytes 4 (innerStatusCode d))
  ++ when (hasInnerDiagnosticInfo d)
       (match innerDiagnosticInfo d with Some i => bytes_diagnosticinfo i | None => [] end).

Definition bytes_datavalue_tail (h : DataValueHeader) : list Z :=
  when (hasStatus h) (le_bytes 4 (dv_status h))
  ++ when (hasSourceTimestamp h) (le_bytes 8 (sourceTimestamp h))
  ++ when (hasSourcePicoseconds h) (le_bytes 2 (sourcePicoseconds h))
  ++ when (hasServerTimestamp h) (le_bytes 8 (serverTimestamp h))
  ++ when (hasServerPicoseconds h) (le_bytes 2 (serverPicoseconds h)).

(** NodeId of the binary encoding, encoding byte and length before the content
    of an ExtensionObject. *)
Definition bytes_ext_header (type : UA_DataType) (len : Z) : list Z :=
  bytes_nodeid (mkNodeId (nid_namespaceIndex (dt_typeId type))
                         (NumericId (binaryEncodingId type))) 0
  ++ [u8 UA_EXTENSIONOBJECT_ENCODED_BYTESTRING] ++ le_bytes 4 len.

Definition bytes_ext_encoded (encoding : Z) (typeId : UA_NodeId) (body : UA_ByteString) : list Z :=
  bytes_nodeid typeId 0 ++ [u8 encoding]
  ++ when (negb (encoding =? UA_EXTENSIONOBJECT_ENCODED_NOBODY)) (bytes_string body).

Definition alias_of {TE : TypeEnv} (t : UA_DataType) : bool := default false (isAlias t).

Section Spec.
Context {TE : TypeEnv}.

Fixpoint bytes_of (v : UA_Value) (type : UA_DataType) {struct v} : list Z :=
  match v with
  | VInt z => le_bytes (Z.to_nat (memSize type)) z
  | VString s => bytes_string s
  | VGuid g => bytes_guid g
  | VNodeId n => bytes_nodeid n 0
  | VExpandedNodeId n => bytes_expandednodeid n
  | VQualifiedName q => bytes_qualifiedname q
  | VLocalizedText t => bytes_localizedtext t
  | VExtEncoded encoding typeId body => bytes_ext_encoded encoding typeId body
  | VExtDecoded _ (Some t) (Some d) =>
      bytes_ext_header t (UA_calcSizeBinary d t) ++ bytes_of d t
  | VExtDecoded _ _ _ => []
  | VDataValue h v =>
      [u8 (DataValue_encodingMask h)]
      ++ when (hasValue h) (bytes_of v UA_TYPES_VARIANT) ++ bytes_datavalue_tail h
  | VVariant None _ _ => [0]
  | VVariant (Some t) data dims =>
      let isArray := variant_isArray data in
      let hasDimensions := isArray && (0 <? arr_length dims) in
      let wrapped d := bytes_ext_header t (UA_calcSizeBinary d t) ++ bytes_of d t in
      [u8 (variant_encodingMask t (alias_of t) isArray hasDimensions)]
      ++ (if negb (builtin t) && negb (alias_of t) then
            match data with
            | SScalar d => wrapped d
            | SArray arr =>
                le_bytes 4 (arr_length arr) ++ concat (arr_list (arr_map wrapped arr))
            end
          else
            match data with
            | SScalar d => bytes_of d t
            | SArray arr =>
                bytes_array (arr_map (fun d => if overlayable t then mem_image d t
                                               else bytes_of d t) arr)
            end)
      ++ when hasDimensions (bytes_array (arr_map (le_bytes 4) dims))
  | VDiagnosticInfo d => bytes_diagnosticinfo d
  | VStruct fs =>
      (fix go (fs : list (Slot UA_Value)) (ms : list UA_DataTypeMember) : list Z :=
         match fs, ms with
         | s :: fs, m :: ms =>
             match membertype type m with
             | None => []
             | Some mt =>
                 match s with
                 | SScalar v => bytes_of v mt
                 | SArray arr =>
                     bytes_array (arr_map (fun v => if overlayable mt then mem_image v mt
                                                    else bytes_of v mt) arr)
                 end ++ go fs ms
             end
         | _, _ => []
         end) fs (members type)
  end.

(** The wire form of one array element. *)
Definition elem_bytes (t : UA_DataType) (v : UA_Value) : list Z :=
  if overlayable t then mem_image v t else bytes_of v t.

(** ** Well-formed values *)

(** A builtin description is the row of [UA_TYPES] it claims to be. *)
Definition wf_type (t : UA_DataType) : Prop :=
  builtin t = true -> builtin_types !! Z.to_nat (typeIndex t) = Some t.

Definition wf_string (s : UA_String) : Prop :=
  arr_canonical s /\ Forall is_byte (arr_list s) /\ arr_length s <= UA_INT32_MAX.

Definition wf_guid (g : UA_Guid) : Prop :=
  0 <= data1 g < 2 ^ 32 /\ 0 <= data2 g < 2 ^ 16 /\ 0 <= data3 g < 2 ^ 16 /\
  length (data4 g) = 8%nat /\ Forall is_byte (data4 g).

Definition wf_nodeid (n : UA_NodeId) : Prop :=
  0 <= nid_namespaceIndex n < 2 ^ 16 /\
  match nid_identifier n with
  | NumericId i => 0 <= i < 2 ^ 32
  | StringId s | ByteStringId s => wf_string s
  | GuidId g => wf_guid g
  | OtherId _ _ => False
  end.

Definition wf_expandednodeid (n : UA_ExpandedNodeId) : Prop :=
  wf_nodeid (eni_nodeId n) /\ wf_string (eni_namespaceUri n) /\
  0 <= eni_serverIndex n < 2 ^ 32.

Definition wf_qualifiedname (q : UA_QualifiedName) : Prop :=
  0 <= qn_namespaceIndex q < 2 ^ 16 /\ wf_string (qn_name q).

Definition wf_localizedtext (t : UA_LocalizedText) : Prop :=
  wf_string (lt_locale t) /\ wf_string (lt_text t).

Fixpoint wf_diagnosticinfo (d : UA_DiagnosticInfo) : Prop :=
  0 <= symbolicId d < 2 ^ 32 /\ 0 <= di_namespaceUri d < 2 ^ 32 /\
  0 <= localizedText d < 2 ^ 32 /\ 0 <= di_locale d < 2 ^ 32 /\
  wf_string (additionalInfo d) /\ 0 <= innerStatusCode d < 2 ^ 32 /\
  match innerDiagnosticInfo d with
  | Some i => wf_diagnosticinfo i
  | None => hasInnerDiagnosticInfo d = false
  end.

Definition wf_datavalue_header (h : DataValueHeader) : Prop :=
  0 <= dv_status h < 2 ^ 32 /\ 0 <= sourceTimestamp h < 2 ^ 64 /\
  0 <= sourcePicoseconds h < 2 ^ 16 /\ 0 <= serverTimestamp h < 2 ^ 64 /\
  0 <= serverPicoseconds h < 2 ^ 16.

Definition wf_dims (dims : UA_Array Z) : Prop :=
  arr_canonical dims /\ arr_length dims <= UA_INT32_MAX /\
  Forall (fun z => 0 <= z < 2 ^ 32) (arr_list dims).

(** [R] bounds the size of an element that is copied as memory: it must fit
    into a fresh buffer. *)
Definition wf_elem_image (R : Z) (t : UA_DataType) (v : UA_Value) : Prop :=
  overlayable t = true -> 0 < memSize t <= R /\ zlen (mem_image v t) = memSize t.

Fixpoint wf (R : Z) (v : UA_Value) (type : UA_DataType) {struct v} : Prop :=
  wf_type type /\
  match entry type, v with
  | Some EBoolean, VInt z => 0 <= z < 2
  | Some (EByte | EUInt16 | EUInt32 | EUInt64), VInt z => 0 <= z < 2 ^ (8 * memSize type)
  | Some EString, VString s => wf_string s
  | Some EGuid, VGuid g => wf_guid g
  | Some ENodeId, VNodeId n => wf_nodeid n
  | Some EExpandedNodeId, VExpandedNodeId n => wf_expandednodeid n
  | Some EQualifiedName, VQualifiedName q => wf_qualifiedname q
  | Some ELocalizedText, VLocalizedText t => wf_localizedtext t
  | Some EExtensionObject, VExtEncoded encoding typeId body =>
      0 <= encoding <= UA_EXTENSIONOBJECT_ENCODED_XML /\ wf_nodeid typeId /\ wf_string body
  | Some EExtensionObject, VExtDecoded _ (Some t) (Some d) =>
      numeric_id (dt_typeId t) = true /\ UA_calcSizeBinary d t <= UA_INT32_MAX /\
      0 <= nid_namespaceIndex (dt_typeId t) < 2 ^ 16 /\ 0 <= binaryEncodingId t < 2 ^ 32 /\
      wf R d t
  | Some EDataValue, VDataValue h v =>
      wf_datavalue_header h /\ wf R v UA_TYPES_VARIANT
  | Some EVariant, VVariant None _ _ => True
  | Some EVariant, VVariant (Some t) data dims =>
      isAlias t <> None /\ wf_type t /\ wf_dims dims /\
      (if negb (builtin t) && negb (alias_of t) then
         numeric_id (dt_typeId t) = true /\ 0 <= nid_namespaceIndex (dt_typeId t) < 2 ^ 16 /\
         0 <= binaryEncodingId t < 2 ^ 32 /\
         match data with
         | SScalar d => UA_calcSizeBinary d t <= UA_INT32_MAX
         | SArray arr => foldr (fun d P => UA_calcSizeBinary d t <= UA_INT32_MAX /\ P) True
                               (arr_list arr)
         end
       else True) /\
      match data with
      | SScalar d => wf R d t
      | SArray arr =>
          arr_canonical arr /\ arr_length arr <= UA_INT32_MAX /\
          foldr and True
            (arr_list (arr_map (fun d => wf R d t /\ wf_elem_image R t d) arr))
      end
  | Some EDiagnosticInfo, VDiagnosticInfo d => wf_diagnosticinfo d
  | Some EInternal, VStruct fs =>
      (fix go (fs : list (Slot UA_Value)) (ms : list UA_DataTypeMember) : Prop :=
         match fs, ms with
         | [], [] => True
         | s :: fs, m :: ms =>
             match membertype type m with
             | None => False
             | Some mt =>
                 match s with
                 | SScalar v => isArray m = false /\ wf R v mt
                 | SArray arr =>
                     isArray m = true /\ arr_canonical arr /\
                     arr_length arr <= UA_INT32_MAX /\
                     foldr and True
                       (arr_list (arr_map (fun v => wf R v mt /\ wf_elem_image R mt v) arr))
                 end /\ go fs ms
             end
         | _, _ => False
         end) fs (members type)
  | _, _ => False
  end.

(** ** Recursion depth *)

Fixpoint nest_diag (d : UA_DiagnosticInfo) : Z :=
  if hasInnerDiagnosticInfo d then
    match innerDiagnosticInfo d with Some i => 1 + nest_diag i | None => 0 end
  else 0.

(** Entering [encodeBinaryInternal] for a type. *)
Definition nest_internal (t : UA_DataType) (n : Z) : Z := if builtin t then 1 + n else n.

Definition zmax (l : list Z) : Z := foldr Z.max 0 l.

Fixpoint nest (v : UA_Value) (type : UA_DataType) {struct v} : Z :=
  match v with
  | VExtDecoded _ (Some t) (Some d) => nest_internal t (nest d t)
  | VDataValue _ v => nest v UA_TYPES_VARIANT
  | VVariant (Some t) data _ =>
      if negb (builtin t) && negb (alias_of t) then
        match data with
        | SScalar d => 1 + nest_internal t (nest d t)
        | SArray arr => 1 + zmax (arr_list (arr_map (fun d => nest_internal t (nest d t)) arr))
        end
      else
        match data with
        | SScalar d => nest_internal t (nest d t)
        | SArray arr => zmax (arr_list (arr_map (fun d => nest d t) arr))
        end
  | VDiagnosticInfo d => nest_diag d
  | VStruct fs =>
      1 + (fix go (fs : list (Slot UA_Value)) (ms : list UA_DataTypeMember) : Z :=
             match fs, ms with
             | s :: fs, m :: ms =>
                 match membertype type m with
                 | None => 0
                 | Some mt =>
                     Z.max
                       (match s with
                        | SScalar v => nest v mt
                        | SArray arr => zmax (arr_list (arr_map (fun v => nest v mt) arr))
                        end) (go fs ms)
                 end
             | _, _ => 0
             end) fs (members type)
  | _ => 0
  end.

(** ** QualifiedNames

    [QualifiedName_encodeBinary] is the one encoder that may exchange the
    buffer and still report a full buffer; theorems on chunked encoding
    exclude it. *)
Fixpoint has_qname (v : UA_Value) : bool :=
  match v with
  | VQualifiedName _ => true
  | VExtDecoded _ _ (Some d) => has_qname d
  | VDataValue _ v => has_qname v
  | VVariant _ (SScalar d) _ => has_qname d
  | VVariant _ (SArray arr) _ => existsb id (arr_list (arr_map has_qname arr))
  | VStruct fs =>
      existsb id (map (fun s => match s with
                                | SScalar v => has_qname v
                                | SArray arr => existsb id (arr_list (arr_map has_qname arr))
                                end) fs)
  | _ => false
  end.
End Spec.
