(* ===== verification/EncodeLogic.v ===== *)
(** * Reasoning about encoders

    [ok need n m bs] says what an encoder [m] does for the byte string [bs]:
    it writes exactly [bs], possibly across several buffers; or it reports a
    full buffer, which it may do only when less than [need] bytes are left and
    the buffer has not been exchanged; or the exchange fails.  The last two
    happen only when [bs] does not fit.  [n] is the recursion depth used.

    The rules of this file are the ones the encoders are composed with; the
    loops over array elements and structure members are handled here once. *)

From Stdlib Require Import ZArith Lia.
From stdpp Require Import base list numbers tactics sets.
From S2P Require Import Prelude UaTypes UaValue BinarySize BinaryEncode.

(** A status that differs from [GOOD] and [BADENCODINGLIMITSEXCEEDED] however
    it is combined with [|=].  [U] says whether executions with undefined
    behaviour are admitted: they are for callbacks that must not be called
    again after a failure. *)
Definition hard (U : Prop) (s : status) : Prop :=
  (U \/ 0 <= s) /\ Z.ldiff s BADENCODINGLIMITSEXCEEDED <> 0.

Lemma hard_lor_l (U : Prop) a b : hard U a -> U \/ 0 <= b -> hard U (Z.lor a b).
Proof.
  intros [Ha Hd] Hb; split; [destruct Ha, Hb; auto; right; by apply Z.lor_nonneg|].
  intros E; apply Hd.
  apply Z.bits_inj'; intros k Hk; apply (f_equal (fun z => Z.testbit z k)) in E.
  rewrite Z.ldiff_spec, Z.lor_spec, Z.bits_0 in E; rewrite Z.ldiff_spec, Z.bits_0.
  destruct (Z.testbit a k), (Z.testbit b k); simpl in *; congruence.
Qed.

Lemma hard_lor_r (U : Prop) a b : hard U b -> U \/ 0 <= a -> hard U (Z.lor a b).
Proof. rewrite Z.lor_comm; apply hard_lor_l. Qed.

Lemma hard_weaken (U V : Prop) s : hard U s -> (U -> V) -> hard V s.
Proof. intros [[]]; split; auto. Qed.

Lemma hard_not_good U s : hard U s -> s <> GOOD.
Proof. intros [_ Hd] ->; by apply Hd. Qed.

Lemma hard_not_limits U s : hard U s -> s <> BADENCODINGLIMITSEXCEEDED.
Proof. intros [_ Hd] ->; by apply Hd. Qed.

Lemma hard_eqb_limits U s : hard U s -> (s =? BADENCODINGLIMITSEXCEEDED) = false.
Proof. intros; apply Z.eqb_neq; by eapply hard_not_limits. Qed.

Lemma hard_bad U s : hard U s -> bad s = true.
Proof. intros; apply bad_true; by eapply hard_not_good. Qed.

Lemma bad_limits : bad BADENCODINGLIMITSEXCEEDED = true.
Proof. reflexivity. Qed.

Lemma hard_nonneg U s : hard U s -> U \/ 0 <= s.
Proof. by intros []. Qed.

Lemma hard_encodingerror U : hard U BADENCODINGERROR.
Proof. split; [right; vm_compute|]; done. Qed.

Lemma hard_responsetoolarge U : hard U BADRESPONSETOOLARGE.
Proof. split; [right; vm_compute|]; done. Qed.

#[export] Hint Resolve hard_lor_l hard_lor_r hard_nonneg hard_encodingerror
  hard_responsetoolarge : ua.

Section Logic.
Context {TE : TypeEnv} {H : Type}.
Variable U : Prop.
Abbreviation hard := (hard U).
(** [sent h] are the bytes that the callback has taken over so far. *)
Variable sent : H -> list Z.
(** [inv h n]: what the callback's handle knows about a buffer with [n] bytes
    between the start of the encoding and its end. *)
Variable inv : H -> Z -> Prop.
Variable cb : option (exchangeEncodeBuffer H).
Variable R : Z.

(** The exchange callback is called when less than [R] bytes are left.  It
    either takes all bytes of the buffer and provides a new buffer of at least
    [R] bytes, or fails. *)
Definition callback_ok : Prop :=
  match cb with
  | None => True
  | Some f => forall h o r, 0 <= r < R -> inv h (zlen o + r) ->
      let '(s, h', fresh) := f h o r in
      match fresh with Some r' => 0 <= r' /\ inv h' r' | None => inv h' (zlen o + r) end /\
      ((s = GOOD /\ exists r', fresh = Some r' /\ R <= r' /\ sent h' = sent h ++ o) \/ hard s)
  end.

Abbreviation ctx := (Ctx H).
Implicit Types (c : ctx) (m : ctx -> status * ctx) (bs : list Z).

Definition good c : Prop := 0 <= room c /\ inv (handle c) (zlen (out c) + room c).

Lemma good_put c bs d g st : good c -> zlen bs <= room c ->
  good (mkCtx (out c ++ bs) (room c - zlen bs) d (handle c) g st).
Proof.
  intros [Hr Hi] Hl; split; simpl; [lia|]; rewrite zlen_app.
  by replace (zlen (out c) + zlen bs + (room c - zlen bs)) with (zlen (out c) + room c) by lia.
Qed.

(** All bytes written so far, in order. *)
Definition total c : list Z := sent (handle c) ++ out c.

Record writes c bs c' : Prop := mkWrites {
  w_total : total c' = total c ++ bs;
  w_same : gen c' = gen c -> handle c' = handle c /\ room c' = room c - zlen bs;
  w_fits : zlen bs <= room c -> gen c' = gen c;
  w_gen : (gen c <= gen c')%nat;
  w_cb : cb = None -> gen c' = gen c;
  w_out : (gen c < gen c')%nat -> out c' <> []
}.

(** Bytes may have been added to the current buffer; nothing was sent. *)
Definition partial c c' : Prop :=
  gen c' = gen c /\ handle c' = handle c /\
  exists w, out c' = out c ++ w /\ room c' = room c - zlen w.

Inductive outcome (need : Z) c bs (r : status) c' : Prop :=
| OutGood : r = GOOD -> writes c bs c' -> outcome need c bs r c'
| OutFull : r = BADENCODINGLIMITSEXCEEDED -> room c < need -> room c < zlen bs ->
            partial c c' -> outcome need c bs r c'
| OutHard : hard r -> room c < zlen bs -> outcome need c bs r c'.

(** What every run keeps. *)
Definition frame c c' : Prop :=
  good c' /\ depth c' = depth c /\ stale c' = stale c.

Definition ok (need n : Z) m bs : Prop :=
  forall c, good c -> depth c + n <= UA_ENCODING_MAX_RECURSION + 1 ->
    frame c (snd (m c)) /\ outcome need c bs (fst (m c)) (snd (m c)).

(** Encoders that never exchange the buffer. *)
Definition atomic m bs : Prop :=
  forall c, good c ->
    frame c (snd (m c)) /\ partial c (snd (m c)) /\
    ((fst (m c) = GOOD /\ zlen bs <= room c /\ out (snd (m c)) = out c ++ bs) \/
     (fst (m c) = BADENCODINGLIMITSEXCEEDED /\ room c < zlen bs)).

(** ** Properties of the relations *)

Lemma writes_refl c : writes c [] c.
Proof. split; rewrite ?app_nil_r; try done; [rewrite zlen_nil; split; [done|]|]; lia. Qed.

(** Without exchange the bytes are at the end of the buffer. *)
Lemma writes_out c bs c' : writes c bs c' -> gen c' = gen c -> out c' = out c ++ bs.
Proof.
  intros [T S _ _ _ _] E; destruct (S E) as [Hh _]; unfold total in T; rewrite Hh, <- app_assoc in T.
  by apply app_inv_head in T.
Qed.

Lemma writes_trans c1 c2 c3 bs1 bs2 :
  writes c1 bs1 c2 -> writes c2 bs2 c3 -> writes c1 (bs1 ++ bs2) c3.
Proof.
  intros W1 W2; pose proof (writes_out _ _ _ W2) as O2.
  destruct W1 as [T1 S1 F1 G1 N1 O1], W2 as [T2 S2 F2 G2 N2 O2']; split.
  - by rewrite T2, T1, app_assoc.
  - intros E; destruct S1 as [Hh1 Hr1]; [lia|]; destruct S2 as [Hh2 Hr2]; [lia|].
    split; [congruence|]; rewrite zlen_app; lia.
  - rewrite zlen_app; intros E; pose proof (zlen_nonneg bs1); pose proof (zlen_nonneg bs2).
    destruct S1 as [_ Hr]; [apply F1; lia|]; rewrite F2, F1; lia.
  - lia.
  - intros; rewrite N2, N1; done.
  - intros E; destruct (decide (gen c3 = gen c2)) as [E2|]; [|apply O2'; lia].
    rewrite (O2 E2); intros [Hn _]%app_nil; apply O1; [lia|done].
Qed.

(** If the second part does not fit after the first, the whole does not. *)
Lemma writes_nofit c1 c2 bs1 bs2 :
  writes c1 bs1 c2 -> room c2 < zlen bs2 -> room c1 < zlen (bs1 ++ bs2).
Proof.
  intros [_ S1 F1 _ _ _] Hn; rewrite zlen_app; pose proof (zlen_nonneg bs2).
  destruct (Z_lt_ge_dec (room c1) (zlen bs1)); [lia|].
  destruct S1; [apply F1|]; lia.
Qed.

Lemma partial_trans c1 c2 c3 : partial c1 c2 -> partial c2 c3 -> partial c1 c3.
Proof.
  intros (G1 & H1 & w1 & O1 & R1) (G2 & H2 & w2 & O2 & R2).
  split; [congruence|]; split; [congruence|]; exists (w1 ++ w2).
  rewrite O2, O1, app_assoc, zlen_app; split; [done|lia].
Qed.

Lemma partial_writes c c' bs :
  partial c c' -> out c' = out c ++ bs -> writes c bs c'.
Proof.
  intros (G & Hh & w & O & Rm) E; assert (w = bs) as -> by (rewrite O in E; by simplify_list_eq).
  split; [by unfold total; rewrite Hh, O, app_assoc| |auto|lia|auto|lia].
  intros _; split; [done|]; lia.
Qed.

Lemma frame_trans c1 c2 c3 : frame c1 c2 -> frame c2 c3 -> frame c1 c3.
Proof. intros (? & ? & ?) (? & ? & ?); split; [done|]; split; congruence. Qed.

Lemma frame_refl c : good c -> frame c c.
Proof. done. Qed.

Lemma put_full bs c : room c < zlen bs -> put bs c = (BADENCODINGLIMITSEXCEEDED, c).
Proof. unfold put; intros; destr_if; zbool; [done|lia]. Qed.

Lemma put_fits bs c : zlen bs <= room c ->
  put bs c = (GOOD, mkCtx (out c ++ bs) (room c - zlen bs) (depth c) (handle c) (gen c) (stale c)).
Proof. unfold put; intros; destr_if; zbool; [lia|done]. Qed.

(** ** Rules *)

Lemma ok_weaken need need' n n' m bs :
  ok need n m bs -> need <= need' -> n <= n' -> ok need' n' m bs.
Proof.
  intros Hm ? ? c Hr Hd; destruct (Hm c) as [F O]; [done|lia|]; split; [done|].
  destruct O; [by apply OutGood|apply OutFull; auto; lia|by apply OutHard].
Qed.

Lemma ok_eq need n m bs bs' : ok need n m bs -> bs = bs' -> ok need n m bs'.
Proof. by intros ? ->. Qed.

Lemma atomic_put bs : atomic (put bs) bs.
Proof.
  intros c Hr; unfold put; destruct (room c <? zlen bs) eqn:E; zbool; simpl.
  - split; [done|]; split; [|by right].
    split; [done|]; split; [done|]; exists []; rewrite app_nil_r, zlen_nil; split; [done|lia].
  - split; [split; [by apply good_put|done]|]; split; [|left; done].
    split; [done|]; split; [done|]; exists bs; done.
Qed.

Lemma atomic_ok m bs n need : atomic m bs -> zlen bs <= need -> ok need n m bs.
Proof.
  intros Hm Hneed c Hr _; destruct (Hm c Hr) as (F & P & [(E & L & O)|(E & L)]);
    split; try done.
  - apply OutGood; [done|]; by apply partial_writes.
  - apply OutFull; try done; lia.
Qed.

Lemma atomic_ret : atomic (retE GOOD) [].
Proof.
  intros c Hr; simpl; split; [done|]; split.
  - split; [done|]; split; [done|]; exists []; rewrite app_nil_r, zlen_nil; split; [done|lia].
  - left; rewrite app_nil_r; split; [done|]; split; [apply Hr|done].
Qed.

Lemma ok_ret n : ok 0 n (retE GOOD) [].
Proof. apply atomic_ok; [apply atomic_ret|done]. Qed.

Lemma atomic_or m1 m2 bs1 bs2 :
  atomic m1 bs1 -> atomic m2 bs2 -> atomic (orE m1 m2) (bs1 ++ bs2).
Proof.
  intros H1 H2 c Hr; unfold orE.
  destruct (m1 c) as [r1 c1] eqn:E1; specialize (H1 c Hr); rewrite E1 in H1; simpl in H1.
  destruct H1 as (F1 & P1 & O1); destruct (F1) as (Hr1 & _); pose proof (proj1 Hr).
  pose proof (proj1 Hr1).
  destruct (m2 c1) as [r2 c2] eqn:E2; specialize (H2 c1 Hr1); rewrite E2 in H2; simpl in H2.
  destruct H2 as (F2 & P2 & O2); simpl.
  split; [by eapply frame_trans|]; split; [by eapply partial_trans|].
  pose proof (zlen_nonneg bs1); pose proof (zlen_nonneg bs2).
  destruct O1 as [(-> & L1 & B1)|(-> & L1)], O2 as [(-> & L2 & B2)|(-> & L2)];
    rewrite zlen_app.
  - left; split; [done|]; rewrite B2, B1, app_assoc; split; [|done].
    destruct P1 as (_ & _ & w & Ow & Rw); rewrite B1 in Ow; simplify_list_eq; lia.
  - right; split; [done|]; destruct P1 as (_ & _ & w & Ow & Rw); rewrite B1 in Ow;
      simplify_list_eq; lia.
  - right; split; [done|lia].
  - right; split; [done|lia].
Qed.

Lemma orE_eq m1 m2 c r1 c1 r2 c2 :
  m1 c = (r1, c1) -> m2 c1 = (r2, c2) -> orE m1 m2 c = (Z.lor r1 r2, c2).
Proof. unfold orE; by intros -> ->. Qed.

Lemma atomic_when (b : bool) m bs :
  atomic m bs -> atomic (whenE b m) (if b then bs else []).
Proof. destruct b; simpl; [done|]; intros _; apply atomic_ret. Qed.

Lemma ok_when (b : bool) need n m bs :
  0 <= need -> ok need n m bs -> ok need n (whenE b m) (if b then bs else []).
Proof. destruct b; simpl; [done|]; intros ? _; by apply (ok_weaken 0 need n n); [apply ok_ret|..]. Qed.

(** Sequencing with early return: after the first part only an encoder that
    never reports a full buffer may follow ... *)
Lemma ok_then need n m1 m2 bs1 bs2 :
  ok need n m1 bs1 -> ok 0 n m2 bs2 -> ok need n (thenE m1 m2) (bs1 ++ bs2).
Proof.
  intros H1 H2 c Hr Hd; unfold thenE.
  destruct (m1 c) as [r1 c1] eqn:E1; specialize (H1 c Hr Hd); rewrite E1 in H1; simpl in H1.
  destruct H1 as (F1 & O1); destruct (F1) as (Hr1 & Hd1 & _); pose proof (proj1 Hr) as Hr0; pose proof (proj1 Hr1).
  pose proof (zlen_nonneg bs2).
  destruct O1 as [-> W1| -> ? ? P1|Hh ?].
  - rewrite bad_good; destruct (m2 c1) as [r2 c2] eqn:E2.
    specialize (H2 c1 Hr1 ltac:(by rewrite Hd1)); rewrite E2 in H2; simpl in *.
    destruct H2 as (F2 & O2); split; [by eapply frame_trans|].
    destruct O2 as [-> W2| -> ? ? P2|Hh ?].
    + apply OutGood; [done|]; by eapply writes_trans.
    + lia.
    + apply OutHard; [done|]; by eapply writes_nofit.
  - rewrite bad_limits; simpl; split; [done|]; apply OutFull; try done; rewrite zlen_app; lia.
  - rewrite (hard_bad U) by done; simpl; split; [done|]; apply OutHard; [done|].
    rewrite zlen_app; lia.
Qed.

(** ... unless the first part never exchanges the buffer. *)
Lemma ok_then_atomic need n m1 m2 bs1 bs2 :
  atomic m1 bs1 -> ok need n m2 bs2 -> 0 <= need ->
  ok (zlen bs1 + need) n (thenE m1 m2) (bs1 ++ bs2).
Proof.
  intros H1 H2 Hneed c Hr Hd; unfold thenE.
  destruct (m1 c) as [r1 c1] eqn:E1; specialize (H1 c Hr); rewrite E1 in H1; simpl in H1.
  destruct H1 as (F1 & P1 & O1); destruct (F1) as (Hr1 & Hd1 & _); pose proof (proj1 Hr) as Hr0; pose proof (proj1 Hr1).
  pose proof (zlen_nonneg bs1); pose proof (zlen_nonneg bs2).
  destruct O1 as [(-> & L1 & B1)|(-> & L1)].
  - rewrite bad_good; pose proof (partial_writes _ _ _ P1 B1) as W1.
    assert (Hroom : room c1 = room c - zlen bs1) by (apply W1; apply P1).
    destruct (m2 c1) as [r2 c2] eqn:E2.
    specialize (H2 c1 Hr1 ltac:(by rewrite Hd1)); rewrite E2 in H2; simpl in *.
    destruct H2 as (F2 & O2); split; [by eapply frame_trans|].
    destruct O2 as [-> W2| -> ? ? P2|Hh ?].
    + apply OutGood; [done|]; by eapply writes_trans.
    + apply OutFull; [done|lia|rewrite zlen_app; lia|by eapply partial_trans].
    + apply OutHard; [done|]; by eapply writes_nofit.
  - rewrite bad_limits; simpl; split; [done|]; apply OutFull; try done; rewrite ?zlen_app; lia.
Qed.

Lemma ok_then_atomic0 need n m1 m2 bs1 bs2 :
  atomic m1 bs1 -> ok 0 n m2 bs2 -> zlen bs1 <= need -> ok need n (thenE m1 m2) (bs1 ++ bs2).
Proof.
  intros H1 H2 Hn; eapply (ok_weaken (zlen bs1 + 0) need n n); [|lia..].
  by apply ok_then_atomic.
Qed.

(** [ret |= ...; ret |= ...] of encoders that never report a full buffer. *)
Lemma ok_or n m1 m2 bs1 bs2 :
  ok 0 n m1 bs1 -> ok 0 n m2 bs2 -> ok 0 n (orE m1 m2) (bs1 ++ bs2).
Proof.
  intros H1 H2 c Hr Hd; unfold orE.
  destruct (m1 c) as [r1 c1] eqn:E1; specialize (H1 c Hr Hd); rewrite E1 in H1; simpl in H1.
  destruct H1 as (F1 & O1); destruct (F1) as (Hr1 & Hd1 & _); pose proof (proj1 Hr) as Hr0; pose proof (proj1 Hr1).
  destruct (m2 c1) as [r2 c2] eqn:E2.
  specialize (H2 c1 Hr1 ltac:(by rewrite Hd1)); rewrite E2 in H2; simpl in *.
  destruct H2 as (F2 & O2); split; [by eapply frame_trans|].
  pose proof (zlen_nonneg bs2).
  destruct O1 as [-> W1| -> ? ? P1|Hh ?]; [|lia|].
  - destruct O2 as [-> W2| -> ? ? P2|Hh ?]; [|lia|].
    + apply OutGood; [done|]; by eapply writes_trans.
    + apply OutHard; [by rewrite lor_good_l|]; by eapply writes_nofit.
  - apply OutHard; [|rewrite zlen_app; lia].
    apply hard_lor_l; [done|].
    destruct O2 as [-> W2| -> ? ? P2|Hh2 ?]; [by right|lia|by apply hard_nonneg].
Qed.

(** ** The exchange *)

Hypothesis Hcb : callback_ok.

Lemma exchangeBuffer_spec c :
  good c -> room c < R ->
  frame c (snd (exchangeBuffer cb c)) /\
  ((fst (exchangeBuffer cb c) = GOOD /\ R <= room (snd (exchangeBuffer cb c)) /\
    gen (snd (exchangeBuffer cb c)) = S (gen c) /\ cb <> None /\
    total (snd (exchangeBuffer cb c)) = total c) \/
   hard (fst (exchangeBuffer cb c))).
Proof.
  intros Hr HrR; unfold exchangeBuffer; unfold callback_ok in Hcb.
  destruct cb as [f|]; [|split; [done|]; right; apply hard_encodingerror].
  specialize (Hcb (handle c) (out c) (room c) (conj (proj1 Hr) HrR) (proj2 Hr)).
  destruct (f _ _ _) as [[s h'] fresh]; destruct Hcb as (Hf & [(-> & r' & -> & HR & Hs)|Hh]).
  - simpl; split; [split; [done|done]|]; left; split; [done|].
    unfold total; simpl; rewrite app_nil_r; done.
  - destruct fresh; (split; [|by right]); split; try done; split; [apply Hr|done].
Qed.

(** Writing across an exchange, when the bytes did not fit. *)
Lemma writes_across c1 c3 bs :
  cb <> None -> room c1 < zlen bs -> (gen c1 < gen c3)%nat -> total c3 = total c1 ++ bs ->
  out c3 <> [] -> writes c1 bs c3.
Proof. intros ? ? ? ? ?; split; [done|lia..|done|done]. Qed.

Lemma writes_nonempty c bs c' : writes c bs c' -> 0 < zlen bs -> out c' <> [].
Proof.
  intros W Hb; destruct (decide (gen c' = gen c)) as [E|]; [|apply W; destruct W; lia].
  rewrite (writes_out _ _ _ W E); intros [_ Hn]%app_nil; rewrite Hn in Hb; by vm_compute in Hb.
Qed.

Lemma writes_exchange c1 c2 c3 bs :
  cb <> None -> 0 <= room c1 < zlen bs -> gen c2 = S (gen c1) -> total c2 = total c1 ->
  writes c2 bs c3 -> writes c1 bs c3.
Proof.
  intros Hcb' Hr Hg Ht W; pose proof (writes_nonempty _ _ _ W); destruct W as [T S F G N O].
  apply writes_across; [done|lia|lia|congruence|auto with lia].
Qed.

Lemma ok_with_exchange n bs :
  zlen bs <= R -> ok 0 n (encodeWithExchangeBuffer cb (put bs)) bs.
Proof.
  intros HR c Hr Hd; unfold encodeWithExchangeBuffer.
  destruct (room c <? zlen bs) eqn:E; zbool.
  - rewrite put_full, Z.eqb_refl by done; destruct (exchangeBuffer_spec c Hr ltac:(lia)) as (Fx & Ox).
    destruct (exchangeBuffer cb c) as [rx cx]; simpl in *.
    destruct Ox as [(-> & HRx & Gx & Nx & Tx)|Hh]; [rewrite bad_good|rewrite (hard_bad U) by done].
    + destruct (atomic_put bs cx ltac:(by destruct Fx)) as (F2 & P2 & O2).
      destruct (put bs cx) as [r2 c2]; simpl in *.
      split; [by eapply frame_trans|]; destruct O2 as [(-> & _ & B2)|(_ & ?)]; [|lia].
      apply OutGood; [done|]; eapply writes_exchange; try done; [split; [apply Hr|done]|].
      by apply partial_writes.
    + split; [done|]; by apply OutHard.
  - destruct (atomic_put bs c Hr) as (F & P & [(Er & _ & B)|(_ & ?)]); [|lia].
    destruct (put bs c) as [r1 c1]; simpl in *; subst r1; simpl; split; [done|].
    apply OutGood; [done|]; by apply partial_writes.
Qed.

(** ** Overlayable arrays *)

Lemma overlayable_loop_spec fuel n esz k mem c :
  0 < esz <= R -> 0 <= k -> zlen mem = esz * k -> good c ->
  depth c + n <= UA_ENCODING_MAX_RECURSION + 1 ->
  k + (if room c <? esz then 1 else 0) <= Z.of_nat fuel ->
  frame c (snd (overlayable_loop cb fuel esz mem c)) /\
  outcome 0 c mem (fst (overlayable_loop cb fuel esz mem c))
          (snd (overlayable_loop cb fuel esz mem c)).
Proof.
  intros He; revert k mem c; induction fuel as [|fuel IH]; intros k mem c Hk Hm Hr Hd Hf;
    pose proof (proj1 Hr) as Hr0; simpl; destruct (room c <? zlen mem) eqn:E; zbool.
  1: { exfalso; assert (0 < k) by nia; destruct (room c <? esz); lia. }
  1, 3: destruct (atomic_put mem c Hr) as (F & P & [(Er & _ & B)|(_ & ?)]); [|lia];
    rewrite Er; (split; [done|]); apply OutGood; [done|]; by apply partial_writes.
  destruct (esz =? 0) eqn:Ez; zbool; [lia|].
  set (q := room c / esz) in *.
  assert (Hq : 0 <= q /\ esz * q <= room c < esz * q + esz)
    by (unfold q; pose proof (Z.mul_div_le (room c) esz); pose proof (Z.mod_pos_bound (room c) esz);
        pose proof (Z.div_mod (room c) esz); split; [apply Z.div_pos|]; lia).
  assert (Hqk : q < k) by nia.
  set (c0 := mkCtx _ _ _ _ _ _).
  destruct (exchangeBuffer_spec c0) as (Fx & Ox).
  { assert (Hq' : zlen (take (Z.to_nat (q * esz)) mem) = q * esz) by (apply zlen_take; nia).
    assert (c0 = mkCtx (out c ++ take (Z.to_nat (q * esz)) mem)
      (room c - zlen (take (Z.to_nat (q * esz)) mem)) (depth c) (handle c) (gen c) (stale c))
      as -> by (by rewrite Hq').
    apply good_put; [done|lia]. }
  { simpl; nia. }
  destruct (exchangeBuffer cb c0) as [rx cx]; simpl in *.
  destruct Ox as [(-> & HRx & Gx & Nx & Tx)|Hh]; [rewrite bad_good|rewrite (hard_bad U) by done].
  - destruct (IH (k - q) (drop (Z.to_nat (q * esz)) mem) cx) as (F2 & O2).
    + lia.
    + rewrite zlen_drop; [lia|]; nia.
    + apply Fx.
    + destruct Fx as (_ & -> & _); done.
    + destruct (room cx <? esz) eqn:Ecx; zbool; [lia|].
      destruct (room c <? esz) eqn:Ec; zbool; [lia|]; nia.
    + destruct (overlayable_loop _ _ _ _ cx) as [r2 c2]; simpl in *.
      split; [by eapply frame_trans|]; destruct O2 as [-> W2| -> ? ? P2|Hh ?];
        [|destruct Fx as [[? _] _]; lia|by apply OutHard].
      apply OutGood; [done|]; pose proof (writes_nonempty _ _ _ W2) as Ho.
      destruct W2; simpl in *; apply writes_across; [done|done|simpl in *; lia| |].
      * rewrite w_total0, Tx; unfold c0, total; simpl.
        rewrite <- !app_assoc, take_drop; done.
      * apply Ho; rewrite zlen_drop; nia.
  - split; [done|]; apply OutHard; [done|lia].
Qed.

Lemma ok_overlayable n mem length esz :
  0 < esz <= R -> 0 <= length -> zlen mem = esz * length ->
  ok 0 n (Array_encodeBinaryOverlayable cb mem length esz) mem.
Proof.
  intros He Hl Hm c Hr Hd; unfold Array_encodeBinaryOverlayable.
  apply (overlayable_loop_spec _ n _ length); try done; destr_if; lia.
Qed.

(** ** Retrying on a fresh buffer *)

Lemma restore_partial c c' : frame c c' -> partial c c' -> restore_pos (save_pos c) c' = c.
Proof.
  destruct c, c'; intros (_ & Hd & Hs) (Hg & Hh & w & Ho & Hr).
  unfold restore_pos, save_pos; simpl in *; subst.
  rewrite Nat.eqb_refl, take_app_length; f_equal.
  rewrite zlen_app; unfold zlen; lia.
Qed.

(** An encoder that reports a full buffer is retried after an exchange; with
    a fresh buffer it does not report it again. *)
Lemma retry_spec need n m bs c :
  ok need n m bs -> good c -> depth c + n <= UA_ENCODING_MAX_RECURSION + 1 ->
  fst (m c) = BADENCODINGLIMITSEXCEEDED -> need <= R ->
  room c < R /\ room c < zlen bs /\
  let x := exchangeBuffer cb (restore_pos (save_pos c) (snd (m c))) in
  frame c (snd x) /\
  ((fst x = GOOD /\ R <= room (snd x) /\ gen (snd x) = S (gen c) /\ cb <> None /\
    total (snd x) = total c) \/ hard (fst x)).
Proof.
  intros Hm Hr Hd He Hneed; destruct (Hm c Hr Hd) as (F & O).
  destruct O as [Eg _|_ ? ? P|Hh _].
  - rewrite He in Eg; done.
  - split; [lia|]; split; [done|]; rewrite restore_partial by done; apply exchangeBuffer_spec; [done|lia].
  - by destruct (hard_not_limits _ _ Hh).
Qed.

(** The outcome of the rest of a loop, seen from before its first part. *)
Lemma outcome_after c c1 c2 r bs bs' :
  writes c bs c1 -> outcome 0 c1 bs' r c2 -> good c1 -> outcome 0 c (bs ++ bs') r c2.
Proof.
  intros W [-> W2| -> ? ? P|Hh ?] [Hr _]; [|lia|].
  - apply OutGood; [done|]; by eapply writes_trans.
  - apply OutHard; [done|]; by eapply writes_nofit.
Qed.

Lemma outcome_exchanged c c1 c2 r bs bs' :
  cb <> None -> 0 <= room c < zlen bs -> good c1 -> gen c1 = S (gen c) ->
  total c1 = total c ->
  outcome 0 c1 (bs ++ bs') r c2 -> outcome 0 c (bs ++ bs') r c2.
Proof.
  intros Hn Hf [Hr _] Hg Ht O; pose proof (zlen_nonneg bs').
  destruct O as [-> W2| -> ? ? P|Hh ?]; [|lia|].
  - apply OutGood; [done|]; eapply writes_exchange; try done; rewrite zlen_app; lia.
  - apply OutHard; [done|]; rewrite zlen_app; lia.
Qed.

Lemma complex_loop_spec need n : need <= R -> forall fuel elems bss c,
  Forall2 (ok need n) elems bss -> good c ->
  depth c + n <= UA_ENCODING_MAX_RECURSION + 1 ->
  2 * zlen elems <= Z.of_nat fuel + (if R <=? room c then 1 else 0) ->
  frame c (snd (complex_loop cb fuel elems c)) /\
  outcome 0 c (concat bss) (fst (complex_loop cb fuel elems c))
          (snd (complex_loop cb fuel elems c)).
Proof.
  intros Hneed; induction fuel as [|fuel IH]; intros elems bss c Hall Hr Hd Hf;
    destruct Hall as [|m bs elems bss Hm Hall]; simpl.
  1, 3: split; [by apply frame_refl|]; apply OutGood; [done|apply writes_refl].
  1: { rewrite zlen_cons in Hf; pose proof (zlen_nonneg elems); destr_if; lia. }
  rewrite zlen_cons in Hf; pose proof (Hm c Hr Hd) as (F & O).
  destruct (fst (m c) =? BADENCODINGLIMITSEXCEEDED) eqn:El; zbool.
  - destruct (retry_spec need n m bs c) as (HrR & Hnofit & Fx & Ox); try done.
    destruct (m c) as [r c1]; simpl in *; subst r; rewrite bad_limits; simpl.
    destruct (exchangeBuffer cb _) as [rx cx]; simpl in *.
    destruct Ox as [(-> & HRx & Gx & Nx & Tx)|Hh]; [rewrite bad_good|rewrite (hard_bad U) by done].
    + destruct (IH (m :: elems) (bs :: bss) cx) as (F2 & O2).
      * by constructor.
      * apply Fx.
      * destruct Fx as (_ & -> & _); done.
      * rewrite zlen_cons; repeat destr_if; zbool; lia.
      * split; [by eapply frame_trans|]; apply (outcome_exchanged c cx); try done; [split; [apply Hr|done]|apply Fx].
    + split; [done|]; apply OutHard; [done|]; rewrite zlen_app; pose proof (zlen_nonneg (concat bss)); lia.
  - destruct (m c) as [r c1]; simpl in *; destruct O as [-> W| -> ? ? P|Hh ?]; [|done|].
    + rewrite bad_good; simpl; destruct (IH elems bss c1) as (F2 & O2); try done.
      * apply F.
      * destruct F as (_ & -> & _); done.
      * repeat destr_if; zbool; lia.
      * split; [by eapply frame_trans|]; apply (outcome_after c c1); try done; apply F.
    + rewrite (hard_bad U), (hard_eqb_limits U) by done; simpl; split; [done|]; apply OutHard; [done|].
      rewrite zlen_app; pose proof (zlen_nonneg (concat bss)); lia.
Qed.

Lemma ok_complex need n elems bss :
  need <= R -> Forall2 (ok need n) elems bss ->
  ok 0 n (Array_encodeBinaryComplex cb elems) (concat bss).
Proof.
  intros Hneed Hall c Hr Hd; apply (complex_loop_spec need n); try done.
  unfold zlen; destr_if; lia.
Qed.

(** ** Structure members *)

Definition job_ok (need n : Z) (job : Job) (bs : list Z) : Prop :=
  match job with
  | JobScalar _ m => ok need n m bs
  | JobArray m => ok 0 n m bs
  end.

Lemma members_loop_spec need n : need <= R -> forall fuel jobs bss c,
  Forall2 (job_ok need n) jobs bss -> good c ->
  depth c + n <= UA_ENCODING_MAX_RECURSION + 1 ->
  2 * zlen jobs <= Z.of_nat fuel + (if R <=? room c then 1 else 0) ->
  frame c (snd (members_loop cb fuel jobs c)) /\
  outcome 0 c (concat bss) (fst (members_loop cb fuel jobs c))
          (snd (members_loop cb fuel jobs c)).
Proof.
  intros Hneed; induction fuel as [|fuel IH]; intros jobs bss c Hall Hr Hd Hf;
    destruct Hall as [|job bs jobs bss Hj Hall]; simpl.
  1, 3: split; [by apply frame_refl|]; apply OutGood; [done|apply writes_refl].
  1: { rewrite zlen_cons in Hf; pose proof (zlen_nonneg jobs); destr_if; lia. }
  pose proof (proj1 Hr).
  rewrite zlen_cons in Hf; pose proof (zlen_nonneg (concat bss)).
  assert (Hrest : forall c1, frame c c1 -> writes c bs c1 ->
    frame c (snd (members_loop cb fuel jobs c1)) /\
    outcome 0 c (bs ++ concat bss) (fst (members_loop cb fuel jobs c1))
            (snd (members_loop cb fuel jobs c1))).
  { intros c1 F W; destruct (IH jobs bss c1) as (F2 & O2); try done; [apply F| | |].
    - destruct F as (_ & -> & _); done.
    - repeat destr_if; zbool; lia.
    - split; [by eapply frame_trans|]; apply (outcome_after c c1); try done; apply F. }
  destruct job as [sz m|m]; simpl in Hj; pose proof (Hj c Hr Hd) as (F & O).
  - destruct (fst (m c) =? BADENCODINGLIMITSEXCEEDED) eqn:El; zbool.
    + destruct (retry_spec need n m bs c) as (HrR & Hnofit & Fx & Ox); try done.
      destruct (m c) as [r c1]; simpl in *; subst r; rewrite Z.eqb_refl.
      destruct (exchangeBuffer cb _) as [rx cx]; simpl in *.
      destruct (room cx <? sz) eqn:Ecx.
      { rewrite orb_true_r; split; [done|]; apply OutHard; [apply hard_responsetoolarge|].
        rewrite zlen_app; lia. }
      rewrite orb_false_r; destruct Ox as [(-> & HRx & Gx & Nx & Tx)|Hh].
      * simpl; destruct (IH (JobScalar sz m :: jobs) (bs :: bss) cx) as (F2 & O2).
        -- by constructor.
        -- apply Fx.
        -- destruct Fx as (_ & -> & _); done.
        -- rewrite zlen_cons; repeat destr_if; zbool; lia.
        -- split; [by eapply frame_trans|]; apply (outcome_exchanged c cx); try done; apply Fx.
      * rewrite (hard_eqb_limits U), (hard_bad U) by done; split; [done|].
        apply OutHard; [done|]; rewrite zlen_app; lia.
    + destruct (m c) as [r c1]; simpl in *; rewrite (proj2 (Z.eqb_neq _ _)) by done.
      destruct O as [-> W| -> ? ? P|Hh ?]; [|done|].
      * rewrite bad_good; by apply Hrest.
      * rewrite (hard_bad U) by done; split; [done|]; apply OutHard; [done|]; rewrite zlen_app; lia.
  - destruct (m c) as [r c1]; simpl in *.
    destruct O as [-> W| -> ? ? P|Hh ?]; [|lia|].
    + rewrite bad_good; by apply Hrest.
    + rewrite (hard_bad U) by done; split; [done|]; apply OutHard; [done|]; rewrite zlen_app; lia.
Qed.

Lemma frame_depth c c' d d' :
  frame (set_depth c d) c' -> d' = depth c -> frame c (set_depth c' d').
Proof. intros (? & ? & ?) ->; split; [done|]; split; [done|]; done. Qed.

Lemma ok_members need n jobs bss :
  0 <= n -> need <= R -> Forall2 (job_ok need n) jobs bss ->
  ok 0 (1 + n) (encodeMembers cb jobs) (concat bss).
Proof.
  intros Hn Hneed Hall c Hr Hd; unfold encodeMembers.
  destruct (UA_ENCODING_MAX_RECURSION <? depth c) eqn:E; zbool; [lia|].
  destruct (members_loop_spec need n Hneed (2 * length jobs) jobs bss
              (set_depth c (depth c + 1))) as (F & O); try done; simpl.
  - lia.
  - unfold zlen; destr_if; lia.
  - destruct (members_loop _ _ _ _) as [r c1]; simpl in *.
    split; [eapply frame_depth; [done|]; destruct F as (_ & -> & _); simpl; lia|].
    destruct O as [-> [T S Fi G N Wo]| -> ? ? P|Hh ?].
    + apply OutGood; [done|]; by split.
    + by apply OutFull.
    + by apply OutHard.
Qed.

(** [encodeBinaryInternal] for a type given its table entry. *)
Lemma ok_internal need n t m bs :
  0 <= n -> need <= R -> ok (if builtin t then need else 0) n m bs ->
  ok 0 (if builtin t then 1 + n else n) (encodeBinaryInternal cb m t) bs.
Proof.
  intros Hn Hneed Hm; unfold encodeBinaryInternal; destruct (builtin t); [|done].
  replace bs with (concat [bs]) by (simpl; apply app_nil_r).
  apply (ok_members need); [done..|]; constructor; [done|constructor].
Qed.

(** ** Arrays *)

Lemma ok_array need n (src : UA_Array (list Z * (ctx -> status * ctx))) t bss :
  need <= R -> 4 <= R -> arr_length src <= UA_INT32_MAX ->
  (overlayable t = true -> arr_list src <> [] ->
   0 < memSize t <= R /\ bss = map fst (arr_list src) /\
   Forall (fun e => zlen (fst e) = memSize t) (arr_list src)) ->
  (overlayable t = false -> Forall2 (ok need n) (map snd (arr_list src)) bss) ->
  ok 0 n (Array_encodeBinary cb src t)
     (le_bytes 4 (if 0 <? arr_length src then arr_length src
                  else if arr_is_sentinel src then 0 else -1) ++
      if arr_length src =? 0 then [] else concat bss).
Proof.
  intros Hneed HR Hlen Hov Hcx; unfold Array_encodeBinary.
  replace (UA_INT32_MAX <? arr_length src) with false by (symmetry; apply Z.ltb_ge; done).
  apply ok_then; [by apply ok_with_exchange; rewrite zlen_le_bytes|].
  destruct (arr_length src =? 0) eqn:E; zbool; [apply ok_ret|].
  destruct (overlayable t) eqn:Eo; simpl.
  - destruct Hov as (He & -> & Hall); [done|by unfold arr_length in E; intros E'; rewrite E' in E|].
    apply ok_overlayable; [done|apply zlen_nonneg|].
    unfold arr_length; clear -Hall; induction Hall as [|e l He Hl IH]; simpl.
    + unfold zlen; simpl; lia.
    + rewrite zlen_app, zlen_cons, IH, He; lia.
  - by apply (ok_complex need); [|apply Hcx].
Qed.
End Logic.
