(* ===== verification/BinaryEncodeCorrect.v ===== *)
(** * Correctness of the binary encoder

    Every encoder of [BinaryEncode] produces the bytes of [BinarySpec]: in one
    buffer, across buffers when the exchange callback provides new ones, and
    never silently truncated. *)

From Stdlib Require Import ZArith Lia.
From stdpp Require Import base list numbers tactics sets.
From S2P Require Import Prelude UaTypes UaValue BinarySize BinaryEncode BinaryDecode BinarySpec EncodeLogic.

(** Every encoder that reports a full buffer does so with less than this room:
    the largest part that is written without exchange is a Guid NodeId. *)
Definition MAX_ATOM : Z := 19.

(** Widths of the integer rows of the builtin table. *)
Lemma wf_type_builtin `{TypeEnv} t : wf_type t -> builtin t = true -> t ∈ builtin_types.
Proof. intros Hw Hb; by eapply list_elem_of_lookup_2, Hw. Qed.

Definition entry_width (e : Entry) : option Z :=
  match e with
  | EBoolean | EByte => Some 1
  | EUInt16 => Some 2
  | EUInt32 => Some 4
  | EUInt64 => Some 8
  | _ => None
  end.

Lemma builtin_rows_width :
  Forall (fun t => match entry t with
                   | Some e => match entry_width e with
                               | Some w => memSize t = w | None => True end
                   | None => False end) builtin_types.
Proof. repeat constructor. Qed.

Lemma entry_nonbuiltin t : builtin t = false -> entry t = Some EInternal.
Proof. unfold entry, jumpIndex; by intros ->. Qed.

Lemma entry_memSize `{TypeEnv} t e w :
  wf_type t -> entry t = Some e -> entry_width e = Some w -> memSize t = w.
Proof.
  intros Hw He Hwd; destruct (builtin t) eqn:Hb.
  - pose proof (wf_type_builtin t Hw Hb) as Hin.
    pose proof (proj1 (Forall_forall _ _) builtin_rows_width t Hin) as Hrow; simpl in Hrow.
    by rewrite He, Hwd in Hrow.
  - rewrite entry_nonbuiltin in He by done; by simplify_eq.
Qed.

Lemma entry_internal `{TypeEnv} t :
  wf_type t -> entry t = Some EInternal -> builtin t = false.
Proof.
  intros Hw He; destruct (builtin t) eqn:Hb; [|done].
  pose proof (wf_type_builtin t Hw Hb) as Hin.
  assert (Forall (fun t => entry t <> Some EInternal) builtin_types) as Hall
    by (repeat constructor; discriminate).
  by destruct (proj1 (Forall_forall _ _) Hall t Hin).
Qed.

Lemma entry_builtin t e : entry t = Some e -> e <> EInternal -> builtin t = true.
Proof.
  intros He Hne; destruct (builtin t) eqn:Hb; [done|].
  rewrite entry_nonbuiltin in He by done; congruence.
Qed.

Lemma le_bytes_1 z : le_bytes 1 z = [u8 z].
Proof. reflexivity. Qed.

Lemma concat_singletons {A B} (f : A -> B) l : concat (map (fun x => [f x]) l) = map f l.
Proof. induction l; simpl; congruence. Qed.

Lemma length_field_map {A B} (f : A -> B) a : length_field (arr_map f a) = length_field a.
Proof. unfold length_field; by rewrite arr_length_map, arr_sentinel_map. Qed.

Section Correct.
Context {TE : TypeEnv} {H : Type}.
Variable U : Prop.
Variable sent : H -> list Z.
Variable inv : H -> Z -> Prop.
Variable cb : option (exchangeEncodeBuffer H).
Variable R : Z.
Hypothesis HR : MAX_ATOM <= R.
Hypothesis Hcb : callback_ok U sent inv cb R.

Abbreviation ok := (ok U sent inv cb).
Abbreviation atomic := (atomic inv).

Lemma ok_mono need n n' m bs : ok need n m bs -> n <= n' -> ok need n' m bs.
Proof. intros; by eapply ok_weaken. Qed.

(** ** Arrays of values *)

Lemma ok_array_map {A} n (f : A -> list Z) (g : A -> list Z * (Ctx H -> status * Ctx H)) a t :
  arr_length a <= UA_INT32_MAX ->
  (overlayable t = true -> arr_list a <> [] -> 0 < memSize t <= R /\
     Forall (fun x => fst (g x) = f x /\ zlen (f x) = memSize t) (arr_list a)) ->
  (overlayable t = false -> Forall (fun x => ok MAX_ATOM n (snd (g x)) (f x)) (arr_list a)) ->
  ok 0 n (Array_encodeBinary cb (arr_map g a) t) (bytes_array (arr_map f a)).
Proof.
  intros Hl Hov Hcx; unfold MAX_ATOM in *.
  eapply ok_eq.
  - apply (ok_array U sent inv cb R Hcb MAX_ATOM n _ t (map f (arr_list a))); try done.
    + unfold MAX_ATOM; lia.
    + by rewrite arr_length_map.
    + rewrite arr_list_map; intros Ho Hne; destruct (Hov Ho) as [He Hall];
        [by intros E; rewrite E in Hne|]; split; [done|]; split.
      * rewrite map_map; apply map_ext_Forall; eapply Forall_impl; [exact Hall|].
        by intros x [-> _].
      * apply Forall_map; eapply Forall_impl; [exact Hall|]; intros x [-> ?]; done.
    + intros Ho; rewrite arr_list_map, map_map.
      specialize (Hcx Ho); clear -Hcx; induction Hcx; simpl; by constructor.
  - unfold bytes_array; rewrite length_field_map; unfold length_field.
    rewrite !arr_length_map, arr_sentinel_map, arr_list_map.
    destruct (arr_length a =? 0) eqn:E; zbool; [|done].
    unfold arr_length in E; apply zlen_zero in E; by rewrite E.
Qed.

Lemma ok_string n s :
  arr_length s <= UA_INT32_MAX -> ok 0 n (String_encodeBinary cb s) (bytes_string s).
Proof.
  intros Hl; unfold String_encodeBinary, bytes_string.
  apply ok_array_map; [done| |done].
  intros _ _; split; [unfold MAX_ATOM in *; simpl; lia|].
  apply Forall_true; done.
Qed.

Lemma ok_string' n s : wf_string s -> ok 0 n (String_encodeBinary cb s) (bytes_string s).
Proof. intros (_ & _ & ?); by apply ok_string. Qed.

(** ** NodeIds *)

Lemma atomic_guid g : length (data4 g) = 8%nat ->
  atomic (Guid_encodeBinary g) (bytes_guid g).
Proof.
  intros H4 c Hr; unfold Guid_encodeBinary, bytes_guid, guid_image.
  assert (A : atomic (orE (orE (orE (UInt32_encodeBinary (data1 g)) (UInt16_encodeBinary (data2 g)))
    (UInt16_encodeBinary (data3 g))) (put (data4 g)))
    (le_bytes 4 (data1 g) ++ le_bytes 2 (data2 g) ++ le_bytes 2 (data3 g) ++ data4 g)).
  { rewrite !app_assoc; repeat apply atomic_or; apply atomic_put. }
  specialize (A c Hr).
  assert (A3 : atomic (orE (orE (UInt32_encodeBinary (data1 g)) (UInt16_encodeBinary (data2 g)))
    (UInt16_encodeBinary (data3 g)))
    ((le_bytes 4 (data1 g) ++ le_bytes 2 (data2 g)) ++ le_bytes 2 (data3 g)))
    by (repeat apply atomic_or; apply atomic_put).
  destruct (A3 c Hr) as ((Hr3 & _) & _ & O3).
  destruct (orE (orE _ _) (UInt16_encodeBinary (data3 g)) c) as [r3 c3] eqn:E3; simpl in Hr3, O3.
  destruct (atomic_put inv (data4 g) c3 Hr3) as (_ & _ & O4).
  destruct (put (data4 g) c3) as [r4 c4] eqn:E4; simpl in O4.
  rewrite (orE_eq _ _ _ _ _ _ _ E3 E4) in A; simpl in A.
  destruct A as (F & P & O); destruct O4 as [(-> & _)|(-> & _)].
  - rewrite bad_good; simpl; by rewrite lor_good_r in O.
  - rewrite bad_limits; simpl; split; [done|]; split; [done|].
    destruct O3 as [(-> & _)|(-> & _)]; destruct O as [(? & _)|(? & ?)]; try done; by right.
Qed.

Lemma ok_nodeid n mask id : wf_nodeid id ->
  ok MAX_ATOM n (NodeId_encodeBinaryWithEncodingMask cb id mask) (bytes_nodeid id mask).
Proof.
  intros [_ Hid]; unfold NodeId_encodeBinaryWithEncodingMask, bytes_nodeid.
  destruct (nid_identifier id) as [i|s|g|s|]; [| | | |done].
  - repeat destr_if; rewrite ?app_assoc;
      (apply atomic_ok; [repeat apply atomic_or; apply atomic_put|unfold MAX_ATOM; zlia]).
  - rewrite app_assoc; apply ok_then_atomic0;
      [repeat apply atomic_or; apply atomic_put|by apply ok_string'|unfold MAX_ATOM; zlia].
  - rewrite app_assoc; apply atomic_ok; [|destruct Hid as (_ & _ & _ & H4 & _)].
    + repeat apply atomic_or; try apply atomic_put; apply atomic_guid, Hid.
    + unfold bytes_guid, guid_image, MAX_ATOM; zlen_simpl; unfold zlen; rewrite H4; lia.
  - rewrite app_assoc; apply ok_then_atomic0;
      [repeat apply atomic_or; apply atomic_put|by apply ok_string'|unfold MAX_ATOM; zlia].
Qed.

Lemma ok_expandednodeid n id : wf_expandednodeid id ->
  ok MAX_ATOM n (ExpandedNodeId_encodeBinary cb id) (bytes_expandednodeid id).
Proof.
  intros (Hn & Hu & _); unfold ExpandedNodeId_encodeBinary, bytes_expandednodeid.
  apply ok_then; [by apply ok_nodeid|]; apply ok_then.
  - apply ok_when; [done|]; by apply ok_string'.
  - apply ok_when; [done|]; apply (ok_with_exchange U sent inv cb R Hcb).
    unfold MAX_ATOM in HR; zlia.
Qed.

Lemma ok_localizedtext n t : wf_localizedtext t ->
  ok MAX_ATOM n (LocalizedText_encodeBinary cb t) (bytes_localizedtext t).
Proof.
  intros [Hl Ht]; unfold LocalizedText_encodeBinary, bytes_localizedtext.
  apply ok_then_atomic0; [apply atomic_put| |unfold MAX_ATOM; zlia].
  apply ok_or.
  - replace (has _ _) with (arr_nonnull (lt_locale t))
      by (by destruct (arr_nonnull (lt_locale t)), (arr_nonnull (lt_text t))).
    apply ok_when; [done|]; by apply ok_string'.
  - replace (has _ _) with (arr_nonnull (lt_text t))
      by (by destruct (arr_nonnull (lt_locale t)), (arr_nonnull (lt_text t))).
    apply ok_when; [done|]; by apply ok_string'.
Qed.

(** Without callback the failed exchange of the name's length is reported
    together with the full buffer. *)
Lemma ok_qualifiedname n q : cb = None -> wf_qualifiedname q ->
  ok MAX_ATOM n (QualifiedName_encodeBinary cb q) (bytes_qualifiedname q).
Proof.
  intros Hn [_ Hw]; unfold QualifiedName_encodeBinary, bytes_qualifiedname.
  intros c Hr Hd; destruct (room c <? 2) eqn:E; zbool.
  - assert (E1 : UInt16_encodeBinary (qn_namespaceIndex q) c = (BADENCODINGLIMITSEXCEEDED, c))
      by (apply put_full; zlia).
    assert (E2 : String_encodeBinary cb (qn_name q) c = (BADENCODINGERROR, c)).
    { unfold String_encodeBinary, Array_encodeBinary; rewrite arr_length_map.
      destruct Hw as (_ & _ & Hl).
      replace (UA_INT32_MAX <? arr_length (qn_name q)) with false
        by (symmetry; apply Z.ltb_ge; done).
      unfold thenE, encodeWithExchangeBuffer, UInt32_encodeBinary.
      rewrite put_full by zlia; by rewrite Z.eqb_refl, Hn. }
    rewrite (orE_eq _ _ _ _ _ _ _ E1 E2); split; [done|].
    apply OutHard; [split; [right; vm_compute|]; done|].
    unfold bytes_string, bytes_array; zlen_simpl.
    pose proof (zlen_nonneg (concat (arr_list (arr_map (fun b => [u8 b]) (qn_name q))))); lia.
  - assert (E1 : UInt16_encodeBinary (qn_namespaceIndex q) c =
      (GOOD, snd (put (le_bytes 2 (qn_namespaceIndex q)) c)))
      by (unfold UInt16_encodeBinary; rewrite put_fits; [done|zlia]).
    pose proof (ok_then_atomic0 U sent inv cb MAX_ATOM n _ _ _ _
      (atomic_put inv (le_bytes 2 (qn_namespaceIndex q))) (ok_string' n (qn_name q) Hw)
      ltac:(unfold MAX_ATOM; zlia) c Hr Hd) as O.
    unfold UInt16_encodeBinary in E1; unfold thenE in O; rewrite E1 in O; simpl in O.
    destruct (String_encodeBinary cb (qn_name q) _) as [r2 c2] eqn:E2.
    rewrite (orE_eq (UInt16_encodeBinary _) _ _ _ _ _ _ E1 E2), lor_good_l; done.
Qed.

(** ** DiagnosticInfo *)

Lemma nest_diag_nonneg d : 0 <= nest_diag d.
Proof.
  revert d; fix IH 1; intros d; destruct d as [? ? ? ? ? ? hi ? ? ? ? ? ? inner]; simpl.
  destruct hi; [|done]; destruct inner as [i|]; [|done]; specialize (IH i); lia.
Qed.

Lemma atomic_diag_prefix d :
  atomic (orE (orE (orE (orE (Byte_encodeBinary (DiagnosticInfo_encodingMask d))
      (whenE (hasSymbolicId d) (UInt32_encodeBinary (symbolicId d))))
      (whenE (hasNamespaceUri d) (UInt32_encodeBinary (di_namespaceUri d))))
      (whenE (hasLocalizedText d) (UInt32_encodeBinary (localizedText d))))
      (whenE (hasLocale d) (UInt32_encodeBinary (di_locale d))))
    (bytes_diag_prefix d).
Proof.
  unfold bytes_diag_prefix; rewrite !app_assoc.
  repeat apply atomic_or; try apply atomic_when; apply atomic_put.
Qed.

Lemma diag_prefix_length d : zlen (bytes_diag_prefix d) <= 17.
Proof. unfold bytes_diag_prefix, when; repeat destr_if; zlia. Qed.

Lemma ok_diagnosticinfo d : wf_diagnosticinfo d ->
  ok MAX_ATOM (nest_diag d) (DiagnosticInfo_encodeBinary cb d) (bytes_diagnosticinfo d).
Proof.
  revert d; fix IH 1; intros d Hw.
  assert (Hin : ok 0 (nest_diag d) (whenE (hasInnerDiagnosticInfo d)
     match innerDiagnosticInfo d with
     | Some inner => encodeBinaryInternal cb (DiagnosticInfo_encodeBinary cb inner)
                                          UA_TYPES_DIAGNOSTICINFO
     | None => retE UNDEFINED
     end)
     (when (hasInnerDiagnosticInfo d)
        match innerDiagnosticInfo d with Some i => bytes_diagnosticinfo i | None => [] end)).
  { destruct d as [? ? ? ? ? ? hi ? ? ? ? ? ? inner]; simpl in *.
    destruct_and!; destruct hi; [|apply ok_ret]; destruct inner as [i|]; [|done]; simpl.
    apply (ok_internal U sent inv cb R Hcb MAX_ATOM _ UA_TYPES_DIAGNOSTICINFO);
      [apply nest_diag_nonneg|done|by apply IH]. }
  destruct d as [h1 h2 h3 h4 h5 h6 h7 f1 f2 f3 f4 f5 f6 inner].
  simpl in Hw; destruct_and!; cbn [DiagnosticInfo_encodeBinary bytes_diagnosticinfo].
  apply ok_then_atomic0; [apply atomic_diag_prefix| |].
  2: { pose proof (diag_prefix_length
         (mkDiagnosticInfo h1 h2 h3 h4 h5 h6 h7 f1 f2 f3 f4 f5 f6 inner)).
       unfold MAX_ATOM; lia. }
  apply ok_then; [apply ok_when; [done|]; by apply ok_string'|].
  apply ok_then; [apply ok_when; [done|]|exact Hin].
  apply (ok_with_exchange U sent inv cb R Hcb); unfold MAX_ATOM in HR; zlia.
Qed.

(** ** ExtensionObjects *)

Lemma ok_ext need n (m m' : Ctx H -> status * Ctx H) bs :
  (forall c, m c = m' c) -> ok need n m bs -> ok need n m' bs.
Proof. intros E Hm c; rewrite <- E; apply Hm. Qed.

Lemma atomic_nodeid_numeric ns i mask :
  atomic (NodeId_encodeBinaryWithEncodingMask cb (mkNodeId ns (NumericId i)) mask)
         (bytes_nodeid (mkNodeId ns (NumericId i)) mask).
Proof.
  unfold NodeId_encodeBinaryWithEncodingMask, bytes_nodeid;
    cbn [nid_identifier nid_namespaceIndex].
  repeat destr_if; rewrite ?app_assoc; repeat apply atomic_or; apply atomic_put.
Qed.

Lemma ext_header_length t len : zlen (bytes_ext_header t len) <= 12.
Proof. unfold bytes_ext_header, bytes_nodeid; simpl; repeat destr_if; zlia. Qed.

Lemma ok_ext_decoded n t len content bs :
  numeric_id (dt_typeId t) = true -> len <= UA_INT32_MAX -> ok 0 n content bs ->
  ok MAX_ATOM n (ExtensionObject_encodeDecoded cb t len content) (bytes_ext_header t len ++ bs).
Proof.
  intros Hnum Hlen Hc; unfold ExtensionObject_encodeDecoded; rewrite Hnum; simpl.
  set (id := mkNodeId _ _).
  apply (ok_ext _ _ (thenE (orE (orE (NodeId_encodeBinary cb id)
    (Byte_encodeBinary UA_EXTENSIONOBJECT_ENCODED_BYTESTRING)) (UInt32_encodeBinary len)) content)).
  - intros c; unfold thenE; rewrite (proj2 (Z.ltb_ge _ _)) by done.
    unfold orE at 1; destruct (orE _ _ c) as [r1 c1]; by destruct (UInt32_encodeBinary len c1).
  - apply ok_then_atomic0; [|done|].
    + unfold bytes_ext_header; rewrite app_assoc; repeat apply atomic_or; try apply atomic_put.
      apply atomic_nodeid_numeric.
    + pose proof (ext_header_length t len); unfold MAX_ATOM; lia.
Qed.

Lemma ok_ext_encoded n encoding typeId body :
  0 <= encoding <= UA_EXTENSIONOBJECT_ENCODED_XML -> wf_nodeid typeId -> wf_string body ->
  ok MAX_ATOM n (ExtensionObject_encodeEncoded cb encoding typeId body)
     (bytes_ext_encoded encoding typeId body).
Proof.
  intros He Hn Hb; unfold ExtensionObject_encodeEncoded, bytes_ext_encoded.
  apply ok_then; [by apply ok_nodeid|]; apply ok_then.
  - apply (ok_with_exchange U sent inv cb R Hcb); unfold MAX_ATOM in HR; zlia.
  - unfold UA_EXTENSIONOBJECT_ENCODED_NOBODY, UA_EXTENSIONOBJECT_ENCODED_BYTESTRING,
      UA_EXTENSIONOBJECT_ENCODED_XML in *.
    assert (encoding = 0 \/ encoding = 1 \/ encoding = 2) as [-> | [-> | ->]] by lia; simpl;
      [apply ok_ret|by apply ok_string'..].
Qed.

(** ** DataValue *)

Lemma ok_datavalue_tail n h :
  ok 0 n (DataValue_encodeTail cb h) (bytes_datavalue_tail h).
Proof.
  unfold DataValue_encodeTail, bytes_datavalue_tail; rewrite !app_assoc.
  repeat apply ok_or; (apply ok_when; [done|]);
    apply (ok_with_exchange U sent inv cb R Hcb); unfold MAX_ATOM in HR; zlia.
Qed.

(** ** Variants and structures *)

(** The room below which an entry may report a full buffer. *)
Definition need_of (type : UA_DataType) : Z :=
  match entry type with
  | Some EInternal => 0
  | Some EVariant => 5
  | _ => MAX_ATOM
  end.

Lemma need_of_le t : need_of t <= if builtin t then MAX_ATOM else 0.
Proof.
  unfold need_of, MAX_ATOM; destruct (builtin t) eqn:Hb; [|by rewrite entry_nonbuiltin].
  destruct (entry t) as [[]|]; lia.
Qed.

(** The induction hypothesis at one value. *)
Definition value_ok (v : UA_Value) : Prop :=
  forall type, wf R v type -> cb = None \/ has_qname v = false ->
    ok (need_of type) (nest v type)
       (encodeBinary cb v type) (bytes_of v type).

Lemma zmax_nonneg l : 0 <= zmax l.
Proof. induction l; simpl; lia. Qed.

Lemma zmax_le (l : list Z) z : z ∈ l -> z <= zmax l.
Proof. induction 1; simpl; lia. Qed.

Lemma foldr_and_Forall {A} (P : A -> Prop) (l : list A) :
  foldr and True (map P l) <-> Forall P l.
Proof. induction l; simpl; rewrite ?Forall_cons, ?Forall_nil; naive_solver. Qed.

Lemma existsb_false_Forall {A} (f : A -> bool) (l : list A) :
  existsb id (map f l) = false -> Forall (fun x => f x = false) l.
Proof.
  induction l; simpl; intros E; constructor; zbool; auto.
Qed.

Lemma nest_nonneg v type : 0 <= nest v type.
Proof.
  revert type; induction v using UA_Value_nested_ind; intros type; simpl; try done.
  - destruct t as [t|]; [|done]; destruct d as [d|]; [|done]; unfold nest_internal.
    specialize (H0 d eq_refl t); destruct (builtin t); lia.
  - destruct t as [t|]; [|done].
    destruct d as [d|arr]; simpl in *; repeat destr_if; unfold nest_internal;
      try (pose proof (zmax_nonneg (arr_list (arr_map (fun d => nest_internal t (nest d t)) arr)));
           unfold nest_internal in *; lia);
      try apply zmax_nonneg; rewrite Forall_singleton in H0; specialize (H0 t);
      destruct (builtin t); lia.
  - apply nest_diag_nonneg.
  - match goal with |- 0 <= 1 + ?g fs (members type) =>
      assert (forall ms, 0 <= g fs ms); [|specialize (H1 (members type)); lia] end.
    clear H0; induction fs as [|s fs IH]; intros ms; destruct ms; try done.
    destruct (membertype type u); [|done]; specialize (IH ms); lia.
Qed.

Lemma ok_value_array n t arr :
  Forall value_ok (arr_list arr) ->
  foldr and True (arr_list (arr_map (fun d => wf R d t /\ wf_elem_image R t d) arr)) ->
  arr_length arr <= UA_INT32_MAX ->
  cb = None \/ existsb id (arr_list (arr_map has_qname arr)) = false ->
  zmax (arr_list (arr_map (fun d => nest d t) arr)) <= n ->
  ok 0 n (Array_encodeBinary cb
            (arr_map (fun d => (mem_image d t, encodeBinary cb d t)) arr) t)
     (bytes_array (arr_map (fun d => if overlayable t then mem_image d t
                                     else bytes_of d t) arr)).
Proof.
  rewrite !arr_list_map; intros IH Hwf Hl Hq Hn; apply foldr_and_Forall in Hwf.
  apply ok_array_map; [done| |].
  - intros Ho Hne; rewrite Ho; split.
    + destruct (arr_list arr) as [|v l]; [done|]; inversion_clear Hwf as [|? ? [_ Hi] _].
      by apply Hi.
    + eapply Forall_impl; [exact Hwf|]; intros v [_ Hi]; split; [done|]; by apply Hi.
  - intros Ho; rewrite Ho; apply Forall_forall; intros v Hv; simpl.
    rewrite Forall_forall in IH, Hwf.
    eapply ok_weaken; [apply (IH v Hv t)| |].
    + by apply (Hwf v Hv).
    + destruct Hq as [|Hq]; [by left|right].
      apply existsb_false_Forall in Hq; rewrite Forall_forall in Hq; by apply Hq.
    + pose proof (need_of_le t); unfold MAX_ATOM in *; destruct (builtin t); lia.
    + etrans; [|exact Hn]; apply zmax_le, list_elem_of_fmap; eauto.
Qed.

Lemma ok_value_internal v t :
  value_ok v -> wf R v t -> cb = None \/ has_qname v = false ->
  ok 0 (nest_internal t (nest v t)) (encodeBinaryInternal cb (encodeBinary cb v t) t) (bytes_of v t).
Proof.
  intros IH Hw Hq; unfold nest_internal; apply (ok_internal U sent inv cb R Hcb MAX_ATOM);
    [apply nest_nonneg|done|].
  eapply ok_weaken; [by apply IH|apply need_of_le|done].
Qed.

Lemma ok_wrap n elems bss :
  Forall2 (ok 0 n) elems bss -> ok 0 n (wrap_loop elems) (concat bss).
Proof. induction 1; simpl; [apply ok_ret|]; by apply ok_then. Qed.

(** A member or variant content wrapped into an ExtensionObject. *)
Lemma ok_wrapped v t :
  value_ok v -> wf R v t -> cb = None \/ has_qname v = false ->
  numeric_id (dt_typeId t) = true -> UA_calcSizeBinary v t <= UA_INT32_MAX ->
  ok 0 (1 + nest_internal t (nest v t))
     (encodeBinaryInternal cb
        (ExtensionObject_encodeDecoded cb t (UA_calcSizeBinary v t)
           (encodeBinaryInternal cb (encodeBinary cb v t) t)) UA_TYPES_EXTENSIONOBJECT)
     (bytes_ext_header t (UA_calcSizeBinary v t) ++ bytes_of v t).
Proof.
  intros IH Hw Hq Hnum Hsz.
  apply (ok_internal U sent inv cb R Hcb MAX_ATOM _ UA_TYPES_EXTENSIONOBJECT); [|done|].
  - unfold nest_internal; pose proof (nest_nonneg v t); destruct (builtin t); lia.
  - simpl; apply ok_ext_decoded; [done..|]; by apply ok_value_internal.
Qed.

Lemma ok_wrapped_array t arr :
  Forall value_ok (arr_list arr) ->
  foldr and True (arr_list (arr_map (fun d => wf R d t /\ wf_elem_image R t d) arr)) ->
  cb = None \/ existsb id (arr_list (arr_map has_qname arr)) = false ->
  numeric_id (dt_typeId t) = true ->
  foldr (fun d P => UA_calcSizeBinary d t <= UA_INT32_MAX /\ P) True (arr_list arr) ->
  ok 0 (1 + zmax (arr_list (arr_map (fun d => nest_internal t (nest d t)) arr)))
     (wrap_loop (arr_list (arr_map (fun d => encodeBinaryInternal cb
        (ExtensionObject_encodeDecoded cb t (UA_calcSizeBinary d t)
           (encodeBinaryInternal cb (encodeBinary cb d t) t)) UA_TYPES_EXTENSIONOBJECT) arr)))
     (concat (arr_list (arr_map
        (fun d => bytes_ext_header t (UA_calcSizeBinary d t) ++ bytes_of d t) arr))).
Proof.
  rewrite !arr_list_map; intros IH Hwf Hq Hnum Hsz.
  apply foldr_and_Forall in Hwf; apply ok_wrap.
  induction (arr_list arr) as [|v l IHl]; simpl; [constructor|].
  inversion_clear IH; inversion_clear Hwf as [|? ? [Hv _] Hl]; destruct Hsz as [Hs1 Hs2].
  assert (Hq' : (cb = None \/ has_qname v = false) /\
                (cb = None \/ existsb id (map has_qname l) = false)).
  { destruct Hq as [|Hq]; [by split; left|]; simpl in Hq; zbool; by split; right. }
  destruct Hq' as [Hq1 Hq2]; constructor.
  - eapply ok_mono; [by apply ok_wrapped|]; simpl; lia.
  - eapply Forall2_impl; [by apply IHl|]; intros ? ? ?; eapply ok_mono; [done|]; simpl; lia.
Qed.

Lemma ok_dims n dims :
  wf_dims dims ->
  ok 0 n (Array_encodeBinary cb
            (arr_map (fun z => (le_bytes 4 z, UInt32_encodeBinary z)) dims) UA_TYPES_INT32)
     (bytes_array (arr_map (le_bytes 4) dims)).
Proof.
  intros (_ & Hl & _); apply ok_array_map; [done| |done].
  intros _ _; split; [unfold MAX_ATOM in HR; simpl; lia|].
  apply Forall_true; intros z; split; [done|]; by rewrite zlen_le_bytes.
Qed.

Lemma variant_isArray_scalar {A} (d : A) : variant_isArray (SScalar d) = false.
Proof. done. Qed.

Lemma variant_isArray_array {A} (arr : UA_Array A) :
  arr_canonical arr -> variant_isArray (SArray arr) = true.
Proof.
  destruct arr as [| |l]; try done; simpl; intros Hl; unfold arr_length; simpl.
  destruct l as [|x l]; [done|]; rewrite zlen_cons; pose proof (zlen_nonneg l).
  rewrite (proj2 (Z.ltb_lt _ _)); [done|lia].
Qed.

(** The content of a variant, after the encoding byte. *)
Lemma ok_variant_content t data :
  Forall value_ok (slot_list data) ->
  cb = None \/ has_qname (VVariant (Some t) data ArrNull) = false ->
  (if negb (builtin t) && negb (alias_of t) then
     numeric_id (dt_typeId t) = true /\ 0 <= nid_namespaceIndex (dt_typeId t) < 2 ^ 16 /\
     0 <= binaryEncodingId t < 2 ^ 32 /\
     match data with
     | SScalar d => UA_calcSizeBinary d t <= UA_INT32_MAX
     | SArray arr => foldr (fun d P => UA_calcSizeBinary d t <= UA_INT32_MAX /\ P) True
                           (arr_list arr)
     end
   else True) ->
  match data with
  | SScalar d => wf R d t
  | SArray arr =>
      arr_canonical arr /\ arr_length arr <= UA_INT32_MAX /\
      foldr and True (arr_list (arr_map (fun d => wf R d t /\ wf_elem_image R t d) arr))
  end ->
  let wrapped d := encodeBinaryInternal cb
    (ExtensionObject_encodeDecoded cb t (UA_calcSizeBinary d t)
       (encodeBinaryInternal cb (encodeBinary cb d t) t)) UA_TYPES_EXTENSIONOBJECT in
  let wrapped_bytes d := bytes_ext_header t (UA_calcSizeBinary d t) ++ bytes_of d t in
  ok 4 (nest (VVariant (Some t) data ArrNull) UA_TYPES_VARIANT)
    (if negb (builtin t) && negb (alias_of t) then
       match data with
       | SScalar d => Variant_encodeBinaryWrapExtensionObject false 0 [wrapped d]
       | SArray arr =>
           if variant_isArray data then
             Variant_encodeBinaryWrapExtensionObject true (arr_length arr)
               (arr_list (arr_map wrapped arr))
           else retE UNDEFINED
       end
     else
       match data with
       | SScalar d => encodeBinaryInternal cb (encodeBinary cb d t) t
       | SArray arr =>
           if variant_isArray data then
             Array_encodeBinary cb
               (arr_map (fun d => (mem_image d t, encodeBinary cb d t)) arr) t
           else retE UNDEFINED
       end)
    (if negb (builtin t) && negb (alias_of t) then
       match data with
       | SScalar d => wrapped_bytes d
       | SArray arr => le_bytes 4 (arr_length arr) ++ concat (arr_list (arr_map wrapped_bytes arr))
       end
     else
       match data with
       | SScalar d => bytes_of d t
       | SArray arr =>
           bytes_array (arr_map (fun d => if overlayable t then mem_image d t
                                          else bytes_of d t) arr)
       end).
Proof.
  intros IH Hq Hwrap Hdata wrapped wrapped_bytes; cbn [nest].
  destruct data as [d|arr]; cbn [slot_list has_qname] in *.
  - rewrite Forall_singleton in IH; destruct (negb (builtin t) && negb (alias_of t)).
    + destruct Hwrap as (Hnum & _ & _ & Hsz).
      apply (ok_weaken U sent inv cb 0 _ (1 + nest_internal t (nest d t)) _); [|done..].
      eapply ok_eq; [apply (ok_wrap _ _ [wrapped_bytes d])|simpl; by rewrite app_nil_r].
      constructor; [by apply ok_wrapped|constructor].
    + eapply ok_weaken; [by apply ok_value_internal|done..].
  - destruct Hdata as (Hcan & Hlen & Hall); rewrite variant_isArray_array by done.
    destruct (negb (builtin t) && negb (alias_of t)).
    + destruct Hwrap as (Hnum & _ & _ & Hsz); unfold Variant_encodeBinaryWrapExtensionObject.
      rewrite (proj2 (Z.ltb_ge _ _)) by done.
      apply ok_then_atomic0; [apply atomic_put|by apply ok_wrapped_array|zlia].
    + eapply ok_weaken; [by eapply ok_value_array|done..].
Qed.

Lemma ok_variant t data dims :
  Forall value_ok (slot_list data) -> value_ok (VVariant t data dims).
Proof.
  intros IH type Hw Hq; destruct Hw as [Hwt Hw]; cbn [encodeBinary bytes_of].
  destruct (entry type) as [[]|] eqn:He; try done.
  unfold need_of; rewrite He.
  destruct t as [t|]; [|apply atomic_ok; [apply atomic_put|zlia]].
  destruct Hw as (Hal & Hwtt & Hdims & Hwrap & Hdata).
  pose proof (ok_variant_content t data IH Hq Hwrap Hdata) as Hc; cbv zeta in Hc.
  destruct (isAlias t) as [alias|] eqn:Ea; [|done].
  assert (Ealias : alias_of t = alias) by (unfold alias_of; by rewrite Ea).
  rewrite Ealias in *.
  change (nest (VVariant (Some t) data ArrNull) UA_TYPES_VARIANT)
    with (nest (VVariant (Some t) data dims) type) in Hc.
  apply (ok_weaken U sent inv cb (zlen [u8 (variant_encodingMask t alias (variant_isArray data)
     (variant_isArray data && (0 <? arr_length dims)))] + 4) _
     (nest (VVariant (Some t) data dims) type) _); [|zlia|done].
  apply ok_then_atomic; [apply atomic_put| |lia].
  apply ok_then; [exact Hc|]; apply ok_when; [done|by apply ok_dims].
Qed.

Lemma ok_struct fs :
  Forall (fun s => Forall value_ok (slot_list s)) fs -> value_ok (VStruct fs).
Proof.
  intros IH type Hw Hq; destruct Hw as [Hwt Hw].
  destruct (entry type) as [[]|] eqn:He; try done.
  unfold need_of; cbn [encodeBinary bytes_of nest]; rewrite He.
  match goal with |- ok 0 (1 + ?g fs (members type)) (encodeMembers cb (?j fs (members type)))
                       (?b fs (members type)) =>
    set (depths := g); set (jobs := j); set (bytes := b) end.
  enough (Hall : forall ms,
    (fix go (fs : list (Slot UA_Value)) (ms : list UA_DataTypeMember) : Prop :=
       match fs, ms with
       | [], [] => True
       | s :: fs, m :: ms =>
           match membertype type m with
           | None => False
           | Some mt =>
               match s with
               | SScalar v => isArray m = false /\ wf R v mt
               | SArray arr =>
                   isArray m = true /\ arr_canonical arr /\
                   arr_length arr <= UA_INT32_MAX /\
                   foldr and True
                     (arr_list (arr_map (fun v => wf R v mt /\ wf_elem_image R mt v) arr))
               end /\ go fs ms
           end
       | _, _ => False
       end) fs ms ->
    exists bss, concat bss = bytes fs ms /\
      Forall2 (job_ok U sent inv cb MAX_ATOM (depths fs ms)) (jobs fs ms) bss /\ 0 <= depths fs ms).
  { destruct (Hall (members type) Hw) as (bss & <- & Hj & Hn).
    by apply (ok_members U sent inv cb R Hcb MAX_ATOM). }
  clear Hw; induction fs as [|s fs IHfs]; intros ms Hw; destruct ms as [|m ms]; try done.
  { exists []; split; [done|]; split; [constructor|done]. }
  assert (Hq' : (cb = None \/ has_qname (VVariant None s ArrNull) = false) /\
                (cb = None \/ has_qname (VStruct fs) = false)).
  { destruct Hq as [|Hq]; [by split; left|]; simpl in Hq; zbool; split; right; [|done].
    destruct s; simpl in *; done. }
  destruct Hq' as [Hq1 Hq2]; inversion_clear IH as [|? ? IHs IHrest].
  simpl in Hw; simpl jobs; simpl bytes; simpl depths.
  destruct (membertype type m) as [mt|] eqn:Em; [|done]; destruct Hw as [Hs Hw].
  destruct (IHfs IHrest Hq2 ms Hw) as (bss & Hb & Hj & Hn); fold bytes in Hb.
  assert (Hmono : forall n, depths fs ms <= n ->
    Forall2 (job_ok U sent inv cb MAX_ATOM n) (jobs fs ms) bss).
  { intros n Hle; eapply Forall2_impl; [exact Hj|]; intros [|] ? Hjob; simpl in *;
      by eapply ok_mono. }
  destruct s as [v|arr]; cbn [slot_list has_qname] in *.
  - destruct Hs as [-> Hv]; rewrite Forall_singleton in IHs.
    exists (bytes_of v mt :: bss); simpl; rewrite Hb; split; [done|]; split; [|lia].
    constructor; [|apply Hmono; lia]; simpl.
    eapply ok_weaken; [by apply IHs| |lia].
    pose proof (need_of_le mt); unfold MAX_ATOM in *; destruct (builtin mt); lia.
  - destruct Hs as (-> & Hcan & Hlen & Hall).
    exists (bytes_array (arr_map (fun v => if overlayable mt then mem_image v mt
                                           else bytes_of v mt) arr) :: bss).
    cbn [concat]; rewrite Hb; split; [done|]; split; [|lia].
    constructor; [|apply Hmono; lia]; simpl; apply ok_value_array; try done; lia.
Qed.

Lemma ok_int type en w (z : Z) n :
  wf_type type -> entry type = Some en -> entry_width en = Some w -> 0 < w <= 8 ->
  ok MAX_ATOM n (put (le_bytes (Z.to_nat w) z)) (le_bytes (Z.to_nat (memSize type)) z).
Proof.
  intros Hwt He Hw Hb; rewrite (entry_memSize type en w) by done.
  apply atomic_ok; [apply atomic_put|]; unfold MAX_ATOM; zlia.
Qed.

Lemma encodeBinary_ok v : value_ok v.
Proof.
  induction v using UA_Value_nested_ind; try (by apply ok_variant); try (by apply ok_struct);
    intros type Hw Hq; destruct Hw as [Hwt Hw];
    destruct (entry type) as [en|] eqn:He; try done; destruct en; try done;
    unfold need_of; cbn [encodeBinary bytes_of nest]; rewrite He.
  - by apply (ok_int type EBoolean 1).
  - by apply (ok_int type EByte 1).
  - by apply (ok_int type EUInt16 2).
  - by apply (ok_int type EUInt32 4).
  - by apply (ok_int type EUInt64 8).
  - eapply ok_weaken; [by apply ok_string'|unfold MAX_ATOM; lia|done].
  - apply atomic_ok; [apply atomic_guid, Hw|]; destruct Hw as (_ & _ & _ & H4 & _).
    unfold bytes_guid, guid_image, MAX_ATOM; zlen_simpl; unfold zlen; rewrite H4; lia.
  - by apply ok_nodeid.
  - by apply ok_expandednodeid.
  - apply ok_qualifiedname; [by destruct Hq|done].
  - by apply ok_localizedtext.
  - destruct Hw as (? & ? & ?); by apply ok_ext_encoded.
  - destruct t as [t|]; [|done]; destruct d as [d|]; [|done].
    destruct Hw as (Hnum & Hsz & _ & _ & Hwd); apply ok_ext_decoded; [done..|].
    apply ok_value_internal; auto.
  - destruct Hw as [_ Hv].
    apply (ok_weaken U sent inv cb (zlen [u8 (DataValue_encodingMask h)] + 5) _
             (nest v UA_TYPES_VARIANT) _); [|unfold MAX_ATOM; zlia|done].
    apply ok_then_atomic; [apply atomic_put| |lia].
    apply ok_then; [apply ok_when; [lia|]; by apply IHv|apply ok_datavalue_tail].
  - by apply ok_diagnosticinfo.
Qed.
End Correct.
