(* ===== verification/BinarySizeCorrect.v ===== *)
(** * The size computation agrees with the encoding

    [UA_calcSizeBinary] is the length of [bytes_of]: the encoder relies on it
    for the length field of an ExtensionObject, and callers to allocate the
    buffer.  [sized] excludes the values for which the two differ: content
    whose data type id and binary encoding id do not have the same encoded
    size, and variants of a type that is an alias of a builtin type. *)

From Stdlib Require Import ZArith Lia.
From stdpp Require Import base list numbers tactics sets.
From S2P Require Import Prelude UaTypes UaValue BinarySize BinaryEncode BinaryDecode BinarySpec EncodeLogic BinaryEncodeCorrect.

Section SizeCorrect.
Context {TE : TypeEnv}.
Variable R : Z.

(** The id that is measured has the size of the id that is written. *)
Definition ids_agree (t : UA_DataType) : Prop :=
  NodeId_calcSizeBinary (dt_typeId t) =
  NodeId_calcSizeBinary (mkNodeId (nid_namespaceIndex (dt_typeId t))
                                  (NumericId (binaryEncodingId t))).

Fixpoint sized (v : UA_Value) (type : UA_DataType) {struct v} : Prop :=
  match v with
  | VExtDecoded _ (Some t) (Some d) => ids_agree t /\ sized d t
  | VDataValue _ v => sized v UA_TYPES_VARIANT
  | VVariant (Some t) data _ =>
      (builtin t = true \/ (alias_of t = false /\ ids_agree t)) /\
      match data with
      | SScalar d => sized d t
      | SArray arr =>
          foldr and True
            (arr_list (arr_map (fun d => sized d t /\
               (builtin t = false -> overlayable t = true ->
                zlen (bytes_of d t) = memSize t)) arr))
      end
  | VStruct fs =>
      (fix go (fs : list (Slot UA_Value)) (ms : list UA_DataTypeMember) : Prop :=
         match fs, ms with
         | s :: fs, m :: ms =>
             match membertype type m with
             | None => True
             | Some mt =>
                 match s with
                 | SScalar v => sized v mt
                 | SArray arr => foldr and True (arr_list (arr_map (fun v => sized v mt) arr))
                 end /\ go fs ms
             end
         | _, _ => True
         end) fs (members type)
  | _ => True
  end.

Lemma zlen_concat {A} (l : list (list A)) : zlen (concat l) = zsum (map zlen l).
Proof. induction l; simpl; [done|]; by rewrite zlen_app, IHl. Qed.

Lemma zlen_bytes_array a : zlen (bytes_array a) = 4 + zsum (map zlen (arr_list a)).
Proof. unfold bytes_array; rewrite zlen_app, zlen_le_bytes, zlen_concat; lia. Qed.

Lemma zsum_const {A} (f : A -> Z) l k : Forall (fun x => f x = k) l -> zsum (map f l) = k * zlen l.
Proof.
  induction 1 as [|x l Hx _ IH]; simpl; [unfold zlen; simpl; lia|].
  rewrite zlen_cons, IH, Hx; lia.
Qed.

Lemma zsum_ext {A} (f g : A -> Z) l : Forall (fun x => f x = g x) l -> zsum (map f l) = zsum (map g l).
Proof. induction 1; simpl; congruence. Qed.

Lemma String_size s : String_calcSizeBinary s = zlen (bytes_string s).
Proof.
  unfold String_calcSizeBinary, bytes_string; rewrite zlen_bytes_array, arr_list_map, map_map.
  rewrite (zsum_const _ _ 1); [unfold arr_length; lia|]; by apply Forall_true.
Qed.

Lemma NodeId_size n mask : wf_nodeid n -> NodeId_calcSizeBinary n = zlen (bytes_nodeid n mask).
Proof.
  intros [_ Hi]; unfold NodeId_calcSizeBinary, bytes_nodeid.
  destruct (nid_identifier n); try done; repeat destr_if; rewrite ?String_size; try zlia.
  destruct Hi as (_ & _ & _ & H4 & _); unfold bytes_guid, guid_image; zlen_simpl.
  unfold zlen; rewrite H4; lia.
Qed.

Lemma zlen_when {A} (b : bool) (l : list A) : zlen (when b l) = if b then zlen l else 0.
Proof. by destruct b. Qed.

Lemma arr_real_length {A} (a : UA_Array A) : arr_canonical a -> arr_real a = (0 <? arr_length a).
Proof.
  destruct a as [| |l]; simpl; try done; unfold arr_length; simpl; destruct l; [done|].
  intros _; rewrite zlen_cons; pose proof (zlen_nonneg l); symmetry; apply Z.ltb_lt; lia.
Qed.

Lemma ExpandedNodeId_size n : wf_expandednodeid n ->
  ExpandedNodeId_calcSizeBinary n = zlen (bytes_expandednodeid n).
Proof.
  intros (Hn & (Hu & _) & _); unfold ExpandedNodeId_calcSizeBinary, bytes_expandednodeid.
  rewrite !zlen_app, !zlen_when, <- NodeId_size, <- String_size, zlen_le_bytes,
    arr_real_length by done.
  repeat destr_if; lia.
Qed.

Lemma DiagnosticInfo_size d : wf_diagnosticinfo d ->
  DiagnosticInfo_calcSizeBinary d = zlen (bytes_diagnosticinfo d).
Proof.
  revert d; fix IH 1; intros d Hw.
  destruct d as [h1 h2 h3 h4 h5 h6 h7 f1 f2 f3 f4 f5 f6 inner].
  simpl in Hw; destruct_and!; cbn [DiagnosticInfo_calcSizeBinary bytes_diagnosticinfo].
  unfold bytes_diag_prefix; simpl hasSymbolicId.
  rewrite !zlen_app, !zlen_when; zlen_simpl; rewrite <- String_size; simpl.
  destruct inner as [i|].
  - rewrite <- IH by done; destruct h1, h2, h3, h4, h5, h6, h7; lia.
  - subst; destruct h1, h2, h3, h4, h5, h6; lia.
Qed.

Lemma ext_header_size t len :
  ids_agree t -> 0 <= nid_namespaceIndex (dt_typeId t) < 2 ^ 16 ->
  0 <= binaryEncodingId t < 2 ^ 32 ->
  zlen (bytes_ext_header t len) = NodeId_calcSizeBinary (dt_typeId t) + 5.
Proof.
  intros -> Hns Hid; unfold bytes_ext_header; rewrite !zlen_app, <- NodeId_size by done; zlia.
Qed.

(** ** All values *)

Definition value_sized (v : UA_Value) : Prop :=
  forall type, wf R v type -> sized v type -> calcSizeBinary v type = zlen (bytes_of v type).

Lemma array_size (t : UA_DataType) arr :
  Forall value_sized (arr_list arr) ->
  foldr and True (arr_list (arr_map (fun d => wf R d t /\ wf_elem_image R t d) arr)) ->
  foldr and True (arr_list (arr_map (fun d => sized d t) arr)) ->
  Array_calcSizeBinary (arr_length arr)
    (arr_list (arr_map (fun d => calcSizeBinary d t) arr)) t =
  zlen (bytes_array (arr_map (fun d => if overlayable t then mem_image d t
                                       else bytes_of d t) arr)).
Proof.
  rewrite !arr_list_map, !foldr_and_Forall; intros IH Hwf Hs.
  rewrite zlen_bytes_array, arr_list_map, map_map; unfold Array_calcSizeBinary.
  destruct (overlayable t) eqn:Eo.
  - rewrite (zsum_const _ _ (memSize t)); [unfold arr_length; lia|].
    eapply Forall_impl; [exact Hwf|]; intros v [_ Hi]; by apply Hi.
  - f_equal; apply zsum_ext; rewrite !Forall_forall in *; intros v Hv.
    apply IH; [done|by apply Hwf|by apply Hs].
Qed.

Lemma dims_size dims :
  Array_calcSizeBinary (arr_length dims) [] UA_TYPES_INT32 =
  zlen (bytes_array (arr_map (le_bytes 4) dims)).
Proof.
  rewrite zlen_bytes_array, arr_list_map, map_map; unfold Array_calcSizeBinary.
  rewrite (zsum_const _ _ 4); [simpl; unfold arr_length; lia|].
  apply Forall_true; intros; by rewrite zlen_le_bytes.
Qed.

Lemma wrapped_size (t : UA_DataType) d :
  value_sized d -> wf R d t -> sized d t -> ids_agree t ->
  0 <= nid_namespaceIndex (dt_typeId t) < 2 ^ 16 -> 0 <= binaryEncodingId t < 2 ^ 32 ->
  zlen (bytes_ext_header t (UA_calcSizeBinary d t) ++ bytes_of d t) =
  calcSizeBinary d t + (NodeId_calcSizeBinary (dt_typeId t) + 5).
Proof. intros IH ? ? ? ? ?; rewrite zlen_app, ext_header_size, <- IH by done; lia. Qed.

Lemma wrapped_array_size (t : UA_DataType) arr :
  Forall value_sized (arr_list arr) -> ids_agree t ->
  0 <= nid_namespaceIndex (dt_typeId t) < 2 ^ 16 -> 0 <= binaryEncodingId t < 2 ^ 32 ->
  builtin t = false ->
  foldr and True (arr_list (arr_map (fun d => wf R d t /\ wf_elem_image R t d) arr)) ->
  foldr and True (arr_list (arr_map (fun d => sized d t /\
    (builtin t = false -> overlayable t = true -> zlen (bytes_of d t) = memSize t)) arr)) ->
  Array_calcSizeBinary (arr_length arr)
    (arr_list (arr_map (fun d => calcSizeBinary d t) arr)) t
  + (NodeId_calcSizeBinary (dt_typeId t) + 1 + 4) * arr_length arr =
  4 + zlen (concat (arr_list (arr_map
    (fun d => bytes_ext_header t (UA_calcSizeBinary d t) ++ bytes_of d t) arr))).
Proof.
  rewrite !arr_list_map, !foldr_and_Forall; unfold Array_calcSizeBinary, arr_length.
  intros IH Hids Hns Hid Hb Hwf Hs.
  enough (zlen (concat (map (fun d => bytes_ext_header t (UA_calcSizeBinary d t) ++ bytes_of d t)
            (arr_list arr))) =
          zsum (map (fun d => calcSizeBinary d t) (arr_list arr)) +
          (NodeId_calcSizeBinary (dt_typeId t) + 5) * zlen (arr_list arr) /\
          (overlayable t = true ->
           zsum (map (fun d => calcSizeBinary d t) (arr_list arr)) =
           memSize t * zlen (arr_list arr))) as [E Ho].
  { destruct (overlayable t); [rewrite Ho in E by done|]; lia. }
  induction (arr_list arr) as [|d l IHl]; [by split; intros; unfold zlen; simpl; lia|].
  inversion_clear IH; inversion_clear Hwf as [|? ? [Hwd _] Hwl].
  inversion_clear Hs as [|? ? [Hsd Hov] Hsl]; destruct IHl as [E Ho]; [done..|].
  cbn [map concat zsum foldr]; fold (zsum (map (fun d => calcSizeBinary d t) l)).
  rewrite zlen_app, wrapped_size, E, zlen_cons by done; split; [lia|].
  intros Hot; rewrite Ho by done.
  assert (calcSizeBinary d t = memSize t) by (rewrite <- Hov by done; auto); lia.
Qed.

Lemma variant_size t data dims :
  Forall value_sized (slot_list data) -> value_sized (VVariant t data dims).
Proof.
  intros IH type [Hwt Hw] Hs; destruct (entry type) as [[]|] eqn:He; try done.
  cbn [calcSizeBinary bytes_of]; rewrite He.
  destruct t as [t|]; [|done].
  destruct Hw as (Hal & Hwtt & Hdims & Hwrap & Hdata); destruct Hs as [Hkind Hs].
  assert (Hdimsz : zlen (when (variant_isArray data && (0 <? arr_length dims))
    (bytes_array (arr_map (le_bytes 4) dims))) =
    if variant_isArray data && (0 <? arr_length dims)
    then Array_calcSizeBinary (arr_length dims) [] UA_TYPES_INT32 else 0)
    by (rewrite zlen_when, dims_size; done).
  rewrite !zlen_app, Hdimsz, zlen_cons; clear Hdimsz; change (zlen (@nil Z)) with 0.
  assert (Hnum : negb (builtin t) && negb (numeric_id (dt_typeId t)) = false).
  { destruct (builtin t) eqn:Hb; [done|]; destruct Hkind as [|[Ha _]]; [done|].
    rewrite Ha in Hwrap; destruct Hwrap as [-> _]; done. }
  rewrite Hnum; destruct data as [d|arr]; cbn [slot_list variant_isArray variant_arrayLength] in *.
  - rewrite Forall_singleton in IH; destruct (builtin t) eqn:Hb; simpl.
    + rewrite (IH t Hdata Hs); lia.
    + destruct Hkind as [|[Ha Hids]]; [done|]; rewrite Ha in *.
      destruct Hwrap as (_ & Hns & Hid & _); simpl; rewrite wrapped_size by done.
      lia.
  - destruct Hdata as (Hcan & Hlen & Hall); fold (variant_isArray (SArray arr)).
    rewrite variant_isArray_array by done; destruct (builtin t) eqn:Hb; cbn [andb negb].
    + rewrite <- array_size; [lia|done|done|].
      rewrite arr_list_map, foldr_and_Forall in *; eapply Forall_impl; [exact Hs|]; naive_solver.
    + destruct Hkind as [|[Ha Hids]]; [done|]; rewrite Ha in *.
      destruct Hwrap as (_ & Hns & Hid & _); cbn [andb negb]; rewrite zlen_app, zlen_le_bytes.
      pose proof (wrapped_array_size t arr IH Hids Hns Hid Hb Hall) as E.
      rewrite Hb in E; specialize (E Hs); lia.
Qed.

Lemma struct_size fs :
  Forall (fun s => Forall value_sized (slot_list s)) fs -> value_sized (VStruct fs).
Proof.
  intros IH type [Hwt Hw] Hs; destruct (entry type) as [[]|] eqn:He; try done.
  cbn [calcSizeBinary bytes_of sized] in *; rewrite He.
  revert Hw Hs; generalize (members type) as ms.
  induction fs as [|s fs IHfs]; intros [|m ms] Hw Hs; try done.
  inversion_clear IH as [|? ? IHs IHrest].
  destruct (membertype type m) as [mt|]; [|done]; destruct Hw as [Hws Hw], Hs as [Hss Hs].
  rewrite zlen_app, <- IHfs by done; f_equal.
  destruct s as [v|arr]; simpl slot_list in IHs.
  - destruct Hws as [-> Hv]; rewrite Forall_singleton in IHs; by apply IHs.
  - destruct Hws as (-> & _ & _ & Hall); by apply array_size.
Qed.

Lemma calcSizeBinary_correct v : value_sized v.
Proof.
  induction v using UA_Value_nested_ind; try (by apply variant_size); try (by apply struct_size);
    intros type [Hwt Hw] Hs; destruct (entry type) as [en|] eqn:He; try done; destruct en;
    try done; cbn [calcSizeBinary bytes_of]; rewrite He.
  1-5: rewrite zlen_le_bytes, Z2Nat.id; [done|]; erewrite (entry_memSize type) by done; lia.
  - apply String_size.
  - destruct Hw as (_ & _ & _ & H4 & _); unfold bytes_guid, guid_image; zlen_simpl.
    unfold zlen; rewrite H4; lia.
  - by apply NodeId_size.
  - by apply ExpandedNodeId_size.
  - unfold bytes_qualifiedname, QualifiedName_calcSizeBinary.
    rewrite zlen_app, zlen_le_bytes, String_size; lia.
  - unfold bytes_localizedtext, LocalizedText_calcSizeBinary.
    rewrite !zlen_app, !zlen_when, <- !String_size; zlen_simpl; lia.
  - destruct Hw as (Henc & Hn & Hb); unfold bytes_ext_encoded.
    rewrite !zlen_app, zlen_when, <- NodeId_size, <- String_size by done; zlen_simpl.
    unfold UA_EXTENSIONOBJECT_ENCODED_NOBODY, UA_EXTENSIONOBJECT_ENCODED_BYTESTRING,
      UA_EXTENSIONOBJECT_ENCODED_XML in *.
    assert (e = 0 \/ e = 1 \/ e = 2) as [-> | [-> | ->]] by lia; simpl; lia.
  - destruct t as [t|]; [|done]; destruct d as [d|]; [|done].
    destruct Hw as (Hnum & Hsz & Hns & Hid & Hwd), Hs as [Hids Hs]; rewrite Hnum; simpl.
    rewrite wrapped_size; auto; lia.
  - destruct Hw as [_ Hv]; rewrite !zlen_app, zlen_when; unfold bytes_datavalue_tail.
    rewrite !zlen_app, !zlen_when, <- IHv by done; zlen_simpl.
    unfold DataValue_calcSizeTail; repeat destr_if; lia.
  - by apply DiagnosticInfo_size.
Qed.
End SizeCorrect.
