(* ===== verification/DecodeLogic.v ===== *)
(** * Reasoning about decoders

    [dok n m bs a] says that the decoder [m], started at a position where the
    buffer holds [bs], returns [a] and stops right behind [bs], using [n]
    levels of the recursion limit.  Allocation is assumed to succeed. *)

From Stdlib Require Import ZArith Lia.
From stdpp Require Import base list numbers tactics sets.
From S2P Require Import Prelude UaTypes UaValue BinarySize BinaryEncode BinaryDecode BinarySpec EncodeLogic BinaryEncodeCorrect BinarySizeCorrect.

Section DecodeLogic.
Context {TE : TypeEnv}.
Variable calloc_ok : nat -> Z -> bool.
Variable buf : list Z.
Hypothesis Halloc : forall n s, calloc_ok n s = true.

(** The buffer holds [bs] at position [p]. *)
Definition reads (p : Z) (bs : list Z) : Prop :=
  0 <= p /\ exists post, drop (Z.to_nat p) buf = bs ++ post /\ p <= zlen buf.

Lemma reads_app p bs1 bs2 :
  reads p (bs1 ++ bs2) -> reads p bs1 /\ reads (p + zlen bs1) bs2.
Proof.
  intros (Hp & post & E & Hle); pose proof (zlen_nonneg bs1); split.
  - split; [done|]; exists (bs2 ++ post); by rewrite app_assoc.
  - split; [lia|]; exists post; split.
    + rewrite Z2Nat.inj_add, <- drop_drop, E by lia; unfold zlen.
      by rewrite Nat2Z.id, <- app_assoc, drop_app_length.
    + apply (f_equal zlen) in E; rewrite zlen_drop, !zlen_app in E by lia.
      pose proof (zlen_nonneg bs2); pose proof (zlen_nonneg post); lia.
Qed.

Lemma reads_bound p bs : reads p bs -> 0 <= p /\ p + zlen bs <= zlen buf.
Proof.
  intros (Hp & post & E & Hle); split; [done|].
  apply (f_equal zlen) in E; rewrite zlen_drop, zlen_app in E by lia.
  pose proof (zlen_nonneg post); lia.
Qed.

Lemma load_reads p bs n : reads p bs -> n = zlen bs -> load buf p n = Some bs.
Proof.
  intros Hr ->; pose proof (reads_bound p bs Hr) as [Hp Hb]; unfold load.
  rewrite (proj2 (Z.leb_le _ _)), (proj2 (Z.leb_le _ _)) by lia; simpl; f_equal.
  destruct Hr as (_ & post & -> & _); unfold zlen; by rewrite Nat2Z.id, take_app_length.
Qed.

Definition dok {A} (n : Z) (m : dec A) (bs : list Z) (a : A) : Prop :=
  forall c, reads (pos c) bs -> ddepth c + n <= UA_ENCODING_MAX_RECURSION + 1 ->
    exists k, m c = (GOOD, a, mkDCtx (pos c + zlen bs) (ddepth c) k).

Lemma dok_mono {A} n n' (m : dec A) bs a : dok n m bs a -> n <= n' -> dok n' m bs a.
Proof. intros Hm ? c Hr Hd; apply Hm; [done|lia]. Qed.

Lemma dok_get n bs : dok n (get buf (zlen bs)) bs bs.
Proof.
  intros c Hr _; pose proof (reads_bound _ _ Hr) as [? ?]; unfold get.
  rewrite (proj2 (Z.ltb_ge _ _)), (load_reads _ bs) by (done || lia).
  exists (allocs c); done.
Qed.

Lemma dok_get' n bs k : k = zlen bs -> dok n (get buf k) bs bs.
Proof. intros ->; apply dok_get. Qed.

Lemma dok_fmap {A B} n (f : A -> B) (m : dec A) bs a : dok n m bs a -> dok n (fmapD f m) bs (f a).
Proof. intros Hm c Hr Hd; destruct (Hm c Hr Hd) as [k E]; exists k; unfold fmapD; by rewrite E. Qed.

Lemma dok_ret {A} n (a : A) : dok n (fun c => (GOOD, a, c)) [] a.
Proof.
  intros [p d k] _ _; exists k; simpl; change (zlen (@nil Z)) with 0; by rewrite Z.add_0_r.
Qed.

Lemma dok_when {A} n (b : bool) (zero a : A) (m : dec A) bs :
  (b = true -> dok n m bs a) -> (b = false -> a = zero) -> dok n (whenD b zero m) (when b bs) a.
Proof.
  destruct b; simpl; intros Hm Hz; [by apply Hm|]; rewrite Hz by done; apply dok_ret.
Qed.

(** Sequencing, for decoders of the form [let '(r, a, c) := m c in k r a c]. *)
Lemma dok_step {A B} n (m : dec A) (k : status -> A -> dec B) bs1 bs2 a b :
  dok n m bs1 a -> dok n (k GOOD a) bs2 b ->
  dok n (fun c => let '(r, a, c) := m c in k r a c) (bs1 ++ bs2) b.
Proof.
  intros H1 H2 c Hr Hd; apply reads_app in Hr as [Hr1 Hr2].
  destruct (H1 c Hr1 Hd) as [k1 ->].
  destruct (H2 (mkDCtx (pos c + zlen bs1) (ddepth c) k1)) as [k2 ->]; [done|done|].
  exists k2; simpl; by rewrite zlen_app, Z.add_assoc.
Qed.

Lemma dok_ext {A} n (m m' : dec A) bs a : (forall c, m c = m' c) -> dok n m bs a -> dok n m' bs a.
Proof. intros E Hm c; rewrite <- E; apply Hm. Qed.

Lemma dok_nil {A} n (m : dec A) bs a : dok n m (bs ++ []) a -> dok n m bs a.
Proof. by rewrite app_nil_r. Qed.

Lemma calloc_true s c :
  calloc calloc_ok s c = (true, mkDCtx (pos c) (ddepth c) (S (allocs c))).
Proof. unfold calloc; by rewrite Halloc. Qed.

(** An allocation before a decoder changes nothing else. *)
Lemma dok_alloc {A} n s (m m' : dec A) bs a :
  dok n m bs a -> dok n (fun c => let '(ok, c) := calloc calloc_ok s c in
                                  if negb ok then m' c else m c) bs a.
Proof.
  intros Hm c Hr Hd; rewrite calloc_true; simpl.
  apply (Hm (mkDCtx (pos c) (ddepth c) (S (allocs c)))); done.
Qed.

(** One level of the recursion limit. *)
Lemma dok_deeper {A} n (m : dec A) zero bs a :
  0 <= n -> dok n m bs a -> dok (1 + n) (decodeMembers m zero) bs a.
Proof.
  intros Hn Hm c Hr Hd; unfold decodeMembers, recursion_limit.
  rewrite (proj2 (Z.ltb_ge _ _)) by lia.
  destruct (Hm (set_ddepth c (ddepth c + 1))) as [k ->]; [done|simpl; lia|].
  exists k; unfold set_ddepth; simpl; do 2 f_equal; lia.
Qed.

(** ** Integers *)

Lemma dok_int n (w : nat) z :
  0 <= z < 2 ^ (8 * Z.of_nat w) ->
  dok n (fmapD le_value (get buf (Z.of_nat w))) (le_bytes w z) z.
Proof.
  intros Hz; rewrite <- (le_value_le_bytes_id w z Hz) at 2.
  apply dok_fmap, dok_get'; by rewrite zlen_le_bytes.
Qed.

Lemma dok_byte n z : 0 <= z < 256 -> dok n (Byte_decodeBinary buf) [u8 z] z.
Proof. intros; apply (dok_int n 1 z); done. Qed.

Lemma dok_uint16 n z : 0 <= z < 2 ^ 16 -> dok n (UInt16_decodeBinary buf) (le_bytes 2 z) z.
Proof. apply (dok_int n 2 z). Qed.

Lemma dok_uint32 n z : 0 <= z < 2 ^ 32 -> dok n (UInt32_decodeBinary buf) (le_bytes 4 z) z.
Proof. apply (dok_int n 4 z). Qed.

Lemma dok_uint64 n z : 0 <= z < 2 ^ 64 -> dok n (UInt64_decodeBinary buf) (le_bytes 8 z) z.
Proof. apply (dok_int n 8 z). Qed.

Lemma dok_boolean n z : 0 <= z < 2 -> dok n (Boolean_decodeBinary buf) (le_bytes 1 z) z.
Proof.
  intros Hz; assert (z = 0 \/ z = 1) as Hc by lia.
  unfold Boolean_decodeBinary.
  replace z with ((fun bs => if 0 <? le_value bs then 1 else 0) (le_bytes 1 z)) at 2
    by (destruct Hc; by subst).
  apply (dok_fmap n (fun bs => if 0 <? le_value bs then 1 else 0) _ (le_bytes 1 z)).
  apply dok_get'; by rewrite zlen_le_bytes.
Qed.

(** ** Arrays *)

Lemma dok_elems {A} n (m : dec A) (f : A -> list Z) l :
  Forall (fun a => dok n m (f a) a) l ->
  dok n (decode_elems m (length l)) (concat (map f l)) l.
Proof.
  induction 1 as [|a l Ha Hl IH]; cbn [length map concat]; [apply dok_ret|].
  apply (dok_step n m (fun ret a c => if bad ret then (ret, [], c)
    else let '(ret, l, c) := decode_elems m (length l) c in (ret, a :: l, c)) _ _ a); [done|].
  rewrite bad_good; apply dok_nil; by apply (dok_step n _ (fun ret l c => (ret, a :: l, c)) _ _ l _ IH),
    dok_ret.
Qed.

Lemma split_mem_concat {A} (from_mem : list Z -> A) (size : nat) (f : A -> list Z) l :
  Forall (fun a => length (f a) = size /\ from_mem (f a) = a) l ->
  split_mem from_mem size (length l) (concat (map f l)) = l.
Proof.
  induction 1 as [|a l [Hs Hf] Hl IH]; simpl; [done|].
  rewrite take_app_length', drop_app_length', Hf by done; by rewrite IH.
Qed.

Lemma i32_length_field {A} (a : UA_Array A) :
  arr_length a <= UA_INT32_MAX -> i32 (u32 (length_field a)) = length_field a.
Proof.
  intros; pose proof (zlen_nonneg (arr_list a)); apply i32_u32; unfold length_field, UA_INT32_MAX,
    arr_length in *; repeat destr_if; zbool; lia.
Qed.

(** The length field on the wire is the 32-bit image. *)
Lemma le_bytes_u32 z : le_bytes 4 z = le_bytes 4 (u32 z).
Proof.
  rewrite <- (le_bytes_le_value (le_bytes 4 z)) at 1 by apply le_bytes_is_byte.
  rewrite length_le_bytes, le_value_le_bytes; done.
Qed.

(** The array filter: [memSize * length / 32] bytes must be present. *)
Definition filter_ok (t : UA_DataType) (f : list Z) (len : Z) : Prop :=
  memSize t * len / 32 <= zlen f.

Lemma dok_array {A} n (m : dec A) (from_mem : list Z -> A) (f : A -> list Z) t arr :
  arr_canonical arr -> arr_length arr <= UA_INT32_MAX ->
  filter_ok t (concat (map f (arr_list arr))) (arr_length arr) ->
  0 <= memSize t ->
  (overlayable t = true ->
   Forall (fun a => zlen (f a) = memSize t /\ from_mem (f a) = a) (arr_list arr)) ->
  (overlayable t = false -> Forall (fun a => dok n m (f a) a) (arr_list arr)) ->
  dok n (Array_decodeBinary calloc_ok buf m from_mem t) (bytes_array (arr_map f arr)) arr.
Proof.
  intros Hcan Hlen Hfilter Hms Hov Hcx; unfold bytes_array.
  rewrite length_field_map, arr_list_map, le_bytes_u32; unfold Array_decodeBinary.
  intros c Hr Hd; apply reads_app in Hr as [Hr1 Hr2].
  destruct (dok_uint32 n (u32 (length_field arr)) (u32_range _) c Hr1 Hd) as [k1 ->].
  rewrite bad_good, i32_length_field by done; cbn [pos].
  rewrite zlen_app; rewrite zlen_le_bytes in *; change (Z.of_nat 4) with 4 in *.
  destruct arr as [| |l]; [eexists; simpl; repeat f_equal; lia..|].
  simpl in Hcan; unfold length_field, arr_length in *; cbn [arr_list] in *.
  assert (Hpos : 0 < zlen l) by (destruct l; [done|]; rewrite zlen_cons; pose proof (zlen_nonneg l); lia).
  rewrite (proj2 (Z.ltb_lt _ _)) by done; rewrite (proj2 (Z.leb_gt _ _)) by done.
  pose proof (reads_bound _ _ Hr2) as [_ Hb]; unfold filter_ok in Hfilter.
  rewrite (proj2 (Z.ltb_ge _ _)) by lia; rewrite calloc_true; cbn [negb].
  destruct (overlayable t) eqn:Eo.
  - specialize (Hov eq_refl).
    assert (Hsz : memSize t * zlen l = zlen (concat (map f l))).
    { rewrite zlen_concat, map_map, (zsum_const _ _ (memSize t)); [done|].
      eapply Forall_impl; [exact Hov|]; by intros ? []. }
    destruct (dok_get' n (concat (map f l)) (memSize t * zlen l) Hsz
      (mkDCtx (pos c + 4) (ddepth c) (S k1)) Hr2 Hd) as [k2 E2].
    cbn [pos ddepth allocs] in *; rewrite E2, bad_good; eexists; unfold zlen at 1.
    rewrite Nat2Z.id, split_mem_concat; [by rewrite Z.add_assoc|].
    eapply Forall_impl; [exact Hov|]; intros a [Hz Hf]; split; [unfold zlen in Hz; lia|done].
  - destruct (dok_elems n m f l (Hcx eq_refl) (mkDCtx (pos c + 4) (ddepth c) (S k1)) Hr2 Hd)
      as [k2 E2].
    unfold zlen at 1; rewrite Nat2Z.id; cbn [pos ddepth allocs] in *; rewrite E2, bad_good.
    eexists; by rewrite Z.add_assoc.
Qed.
End DecodeLogic.
