(* ===== verification/BinaryRoundtrip.v ===== *)
(** * Decoding what was encoded

    [rt v type] are the well-formed values that the wire format represents
    without loss.  For them the decoder returns the value that was encoded and
    consumes exactly its bytes ([decodeBinary_ok]). *)

From Stdlib Require Import ZArith Lia.
From stdpp Require Import base list numbers tactics sets.
From S2P Require Import Prelude UaTypes UaValue BinarySize BinaryEncode BinaryDecode BinarySpec EncodeLogic BinaryEncodeCorrect BinarySizeCorrect DecodeLogic.

(** One step of a decoder that is a chain of [let '(r, a, c) := m c in ...]:
    run [m] by the lemma [L] at the current context. *)
Ltac dstep L :=
  let k := fresh "k" in
  let E := fresh "E" in
  lazymatch goal with
  | |- exists _, (match ?m ?c with pair _ _ => _ end) = _ =>
      destruct (L c) as [k E];
      [cbn [pos ddepth allocs]; assumption|cbn [pos ddepth allocs]; lia|];
      rewrite E; clear E; cbn [pos ddepth allocs]
  end.

(** Close a chain: all statuses are [GOOD] and the positions add up. *)
Ltac dfinish :=
  eexists; autorewrite with ua_rw; rewrite ?zlen_app, ?Z.add_assoc;
  try reflexivity; repeat f_equal; try lia.

(** The same, when the positions need arithmetic. *)
Ltac dfinish_pos :=
  eexists;
  match goal with
  | |- (_, _, mkDCtx ?a _ _) = (_, _, mkDCtx ?b _ _) =>
      let E := fresh "E" in
      assert (E : a = b)
        by (rewrite ?zlen_app, ?zlen_le_bytes; change (zlen (@nil Z)) with 0; lia);
      rewrite E; reflexivity
  end.

(** Cut the bytes at the current position into the parts of a sequence. *)
Ltac dsplit :=
  repeat match goal with
  | H : reads _ _ (_ ++ _) |- _ =>
      apply reads_app in H; destruct H as [? ?]
  end.

Section Roundtrip.
Context {TE : TypeEnv}.
Variable calloc_ok : nat -> Z -> bool.
Variable buf : list Z.
Hypothesis Halloc : forall n s, calloc_ok n s = true.

Abbreviation dok := (dok buf).

(** ** Values represented without loss *)

Definition rt_expandednodeid (n : UA_ExpandedNodeId) : Prop :=
  (arr_real (eni_namespaceUri n) = true -> nid_namespaceIndex (eni_nodeId n) = 0) /\
  eni_namespaceUri n <> ArrEmpty.

Definition rt_diagnosticinfo (d : UA_DiagnosticInfo) : Prop :=
  (hasSymbolicId d = false -> symbolicId d = 0) /\
  (hasNamespaceUri d = false -> di_namespaceUri d = 0) /\
  (hasLocalizedText d = false -> localizedText d = 0) /\
  (hasLocale d = false -> di_locale d = 0) /\
  (hasAdditionalInfo d = false -> additionalInfo d = ArrNull) /\
  hasInnerStatusCode d = false /\ innerStatusCode d = 0 /\
  hasInnerDiagnosticInfo d = false /\ innerDiagnosticInfo d = None.

Definition rt_datavalue_header (h : DataValueHeader) : Prop :=
  (hasStatus h = false -> dv_status h = 0) /\
  (hasSourceTimestamp h = false -> sourceTimestamp h = 0) /\
  (hasSourcePicoseconds h = false -> sourcePicoseconds h = 0) /\
  (hasServerTimestamp h = false -> serverTimestamp h = 0) /\
  (hasServerPicoseconds h = false -> serverPicoseconds h = 0) /\
  sourcePicoseconds h <= MAX_PICO_SECONDS /\ serverPicoseconds h <= MAX_PICO_SECONDS.

Definition binaryId (t : UA_DataType) : UA_NodeId :=
  mkNodeId (nid_namespaceIndex (dt_typeId t)) (NumericId (binaryEncodingId t)).

Definition rt_ext_encoded (encoding : Z) (typeId : UA_NodeId) (body : UA_ByteString) : Prop :=
  (encoding = UA_EXTENSIONOBJECT_ENCODED_NOBODY -> body = ArrNull) /\
  (encoding = UA_EXTENSIONOBJECT_ENCODED_BYTESTRING ->
   UA_findDataTypeByBinaryInternal typeId customTypes = None).

(** The array passes the length filter of the decoder, and its elements are
    recovered from their memory image. *)
Definition rt_array (t : UA_DataType) (arr : UA_Array UA_Value) : Prop :=
  filter_ok t (concat (map (elem_bytes t) (arr_list arr))) (arr_length arr) /\
  0 <= memSize t /\
  (overlayable t = true ->
   Forall (fun v => from_image image_fuel t (mem_image v t) = v) (arr_list arr)).

Definition rt_dims (isArray : bool) (dims : UA_Array Z) : Prop :=
  isArray && (0 <? arr_length dims) = false -> dims = ArrNull.

Fixpoint rt (v : UA_Value) (type : UA_DataType) {struct v} : Prop :=
  match v with
  | VExpandedNodeId n => rt_expandednodeid n
  | VExtEncoded encoding typeId body => rt_ext_encoded encoding typeId body
  | VExtDecoded encoding (Some t) (Some d) =>
      encoding = UA_EXTENSIONOBJECT_DECODED /\ builtin t = false /\
      UA_findDataTypeByBinaryInternal (binaryId t) customTypes = Some t /\ rt d t
  | VDataValue h v =>
      rt_datavalue_header h /\ (hasValue h = false -> v = UA_Variant_null) /\
      rt v UA_TYPES_VARIANT
  | VVariant None data dims => data = SArray ArrNull /\ dims = ArrNull
  | VVariant (Some t) data dims =>
      rt_dims (variant_isArray data) dims /\
      match data with
      | SScalar d =>
          rt d t /\ entry t <> Some EVariant /\
          (builtin t = false ->
           alias_of t = false /\
           UA_findDataTypeByBinaryInternal (binaryId t) customTypes = Some t) /\
          match d with VExtDecoded _ _ _ => False | _ => True end
      | SArray arr =>
          builtin t = true /\ rt_array t arr /\
          foldr and True (arr_list (arr_map (fun d => rt d t) arr))
      end
  | VDiagnosticInfo d => rt_diagnosticinfo d
  | VStruct fs =>
      (fix go (fs : list (Slot UA_Value)) (ms : list UA_DataTypeMember) : Prop :=
         match fs, ms with
         | s :: fs, m :: ms =>
             match membertype type m with
             | None => True
             | Some mt =>
                 match s with
                 | SScalar v => rt v mt
                 | SArray arr =>
                     rt_array mt arr /\
                     foldr and True (arr_list (arr_map (fun v => rt v mt) arr))
                 end /\ go fs ms
             end
         | _, _ => True
         end) fs (members type)
  | _ => True
  end.

(** Levels of the recursion limit the decoder uses. *)
Fixpoint dnest (v : UA_Value) (type : UA_DataType) {struct v} : Z :=
  match v with
  | VExtDecoded _ (Some t) (Some d) => dnest d t
  | VDataValue _ v => 1 + dnest v UA_TYPES_VARIANT
  | VVariant (Some t) data _ =>
      1 + match data with
          | SScalar d => dnest d t
          | SArray arr => zmax (arr_list (arr_map (fun d => dnest d t) arr))
          end
  | VStruct fs =>
      1 + (fix go (fs : list (Slot UA_Value)) (ms : list UA_DataTypeMember) : Z :=
             match fs, ms with
             | s :: fs, m :: ms =>
                 match membertype type m with
                 | None => 0
                 | Some mt =>
                     Z.max
                       (match s with
                        | SScalar v => dnest v mt
                        | SArray arr => zmax (arr_list (arr_map (fun v => dnest v mt) arr))
                        end) (go fs ms)
                 end
             | _, _ => 0
             end) fs (members type)
  | _ => 0
  end.

(** ** Builtin types *)

Lemma dok_string n s : wf_string s ->
  dok n (String_decodeBinary calloc_ok buf) (bytes_string s) s.
Proof.
  intros (Hcan & Hb & Hl); unfold String_decodeBinary, bytes_string.
  apply dok_array; try done.
  - unfold filter_ok; rewrite (concat_singletons u8), zlen_map.
    change (memSize UA_TYPES_BYTE) with 1; unfold arr_length.
    pose proof (zlen_nonneg (arr_list s)); apply Z.div_le_upper_bound; lia.
  - intros _; eapply Forall_impl; [exact Hb|]; intros b Hbyte; split; [done|].
    unfold le_value, u8, is_byte in *; simpl; rewrite Z.mod_small; lia.
Qed.

Lemma dok_guid n g : wf_guid g -> dok n (Guid_decodeBinary buf) (bytes_guid g) g.
Proof.
  intros (H1 & H2 & H3 & H4 & _) c Hr Hd; unfold bytes_guid, guid_image in *.
  dsplit; unfold Guid_decodeBinary.
  dstep (dok_uint32 buf n (data1 g) H1); dstep (dok_uint16 buf n (data2 g) H2).
  dstep (dok_uint16 buf n (data3 g) H3).
  dstep (dok_get' buf n (data4 g) 8 ltac:(unfold zlen; rewrite H4; done)).
  destruct g; dfinish.
Qed.

Definition mask_ok (mask : Z) : Prop :=
  mask = 0 \/ mask = 0x40 \/ mask = 0x80 \/ mask = 0xC0.

(** The first byte of a NodeId, after removing the ExpandedNodeId flags. *)
Lemma mask_filter mask k : mask_ok mask -> 0 <= k < 64 ->
  0 <= Z.lor mask k < 256 /\
  Z.land (Z.lor mask k)
    (u8 (Z.lnot (Z.lor UA_EXPANDEDNODEID_SERVERINDEX_FLAG UA_EXPANDEDNODEID_NAMESPACEURI_FLAG))) = k.
Proof.
  intros Hm Hk.
  assert (E : forallb (fun m => forallb (fun k => (0 <=? Z.lor m k) && (Z.lor m k <? 256) &&
    (Z.land (Z.lor m k) (u8 (Z.lnot (Z.lor UA_EXPANDEDNODEID_SERVERINDEX_FLAG
       UA_EXPANDEDNODEID_NAMESPACEURI_FLAG))) =? k)) (seqZ 0 64)) [0; 0x40; 0x80; 0xC0] = true)
    by (vm_compute; done).
  rewrite forallb_forall in E; specialize (E mask ltac:(unfold mask_ok in Hm; simpl; lia)).
  rewrite forallb_forall in E; specialize (E k ltac:(apply list_elem_of_In, elem_of_seqZ; lia)).
  zbool; done.
Qed.

Lemma dok_nodeid_with {A} n (m : dec A) (f : A -> UA_NodeIdIdentifier) bs ns a :
  0 <= ns < 2 ^ 16 -> dok n m bs a ->
  dok n (NodeId_decodeWith buf m f) (le_bytes 2 ns ++ bs) (mkNodeId ns (f a)).
Proof.
  intros Hns Hm c Hr Hd; dsplit; unfold NodeId_decodeWith.
  dstep (dok_uint16 buf n ns Hns); dstep Hm; dfinish.
Qed.

Lemma dok_nodeid_byte n mask k bs a :
  mask_ok mask -> 0 <= k < 64 -> dok n (NodeId_decodeSwitch calloc_ok buf k) bs a ->
  dok n (NodeId_decodeBinary calloc_ok buf) ([u8 (Z.lor mask k)] ++ bs) a.
Proof.
  intros Hm Hk Hs c Hr Hd; destruct (mask_filter mask k Hm Hk) as [Hb E].
  dsplit; unfold NodeId_decodeBinary; dstep (dok_byte buf n _ Hb); rewrite bad_good, E.
  edestruct Hs as [k2 ->]; [done|done|]; dfinish.
Qed.

Lemma dok_nodeid n id mask : wf_nodeid id -> mask_ok mask ->
  dok n (NodeId_decodeBinary calloc_ok buf) (bytes_nodeid id mask) id.
Proof.
  intros [Hns Hid] Hmask; unfold bytes_nodeid; destruct id as [ns idf];
    cbn [nid_identifier nid_namespaceIndex] in *.
  destruct idf as [i|s|g|s|]; [| | | |done].
  - repeat destr_if; apply dok_nodeid_byte; try done; try lia.
    + by apply dok_nodeid_with, dok_uint32.
    + zbool; unfold UA_UINT16_MAX, UA_BYTE_MAX in *.
      intros c Hr Hd; rewrite u8_u8, u16_small in * by lia; dsplit.
      unfold NodeId_decodeSwitch;
        cbn [Z.eqb Pos.eqb UA_NODEIDTYPE_NUMERIC_TWOBYTE UA_NODEIDTYPE_NUMERIC_FOURBYTE].
      dstep (dok_byte buf n ns ltac:(lia)); dstep (dok_uint16 buf n i ltac:(lia)); dfinish.
    + zbool; unfold UA_UINT16_MAX, UA_BYTE_MAX in *; assert (ns = 0) as -> by lia.
      rewrite u8_u8; apply (dok_fmap buf n (fun b => mkNodeId 0 (NumericId b))).
      apply dok_byte; lia.
  - apply dok_nodeid_byte; [done|lia|]; by apply dok_nodeid_with, dok_string.
  - apply dok_nodeid_byte; [done|lia|]; by apply dok_nodeid_with, dok_guid.
  - apply dok_nodeid_byte; [done|lia|]; by apply dok_nodeid_with, dok_string.
Qed.

(** The flags of an ExpandedNodeId can be read off the first byte. *)
Lemma nodeid_first_byte id mask : wf_nodeid id -> mask_ok mask ->
  exists e rest, bytes_nodeid id mask = [e] ++ rest /\
    has e UA_EXPANDEDNODEID_NAMESPACEURI_FLAG = has mask UA_EXPANDEDNODEID_NAMESPACEURI_FLAG /\
    has e UA_EXPANDEDNODEID_SERVERINDEX_FLAG = has mask UA_EXPANDEDNODEID_SERVERINDEX_FLAG.
Proof.
  intros [_ Hid] Hm; unfold bytes_nodeid.
  destruct (nid_identifier id); [repeat destr_if| | | |done];
    (eexists _, _; split; [reflexivity|]);
    unfold mask_ok in Hm; destruct Hm as [-> | [-> | [-> | ->]]]; done.
Qed.

Lemma dok_expandednodeid n id : wf_expandednodeid id -> rt_expandednodeid id ->
  dok n (ExpandedNodeId_decodeBinary calloc_ok buf) (bytes_expandednodeid id) id.
Proof.
  intros (Hn & Hu & Hs) [Hns Hne] c Hr Hd; unfold bytes_expandednodeid in *.
  set (uri := arr_real (eni_namespaceUri id)) in *; set (srv := 0 <? eni_serverIndex id) in *.
  set (mask := Z.lor (flag uri 0x80) (flag srv 0x40)) in *.
  assert (Hmask : mask_ok mask)
    by (unfold mask_ok, mask; destruct uri, srv; vm_compute; auto).
  pose proof Hr as Hr0; unfold ExpandedNodeId_decodeBinary.
  destruct (nodeid_first_byte _ _ Hn Hmask) as (e & rest & Ee & Hu8 & Hsv).
  rewrite Ee, <- app_assoc in Hr0; apply (reads_app _ _ [e]) in Hr0 as [Hfirst _].
  pose proof (reads_bound _ _ _ Hfirst) as [Hp0 Hp1]; rewrite zlen_cons in Hp1.
  change (zlen (@nil Z)) with 0 in Hp1; dsplit.
  rewrite (proj2 (Z.leb_gt _ _)), (load_reads _ _ [e] 1) by (done || lia).
  replace (le_value [e]) with e by (unfold le_value; lia).
  rewrite Hu8, Hsv; dstep (dok_nodeid n _ _ Hn Hmask).
  replace (has mask UA_EXPANDEDNODEID_NAMESPACEURI_FLAG) with uri
    by (unfold mask; by destruct uri, srv).
  replace (has mask UA_EXPANDEDNODEID_SERVERINDEX_FLAG) with srv
    by (unfold mask; by destruct uri, srv).
  dstep (dok_when buf n uri ArrNull (eni_namespaceUri id) _ _
    (fun _ => dok_string n _ Hu)
    ltac:(unfold uri; destruct (eni_namespaceUri id); done)).
  dstep (dok_when buf n srv 0 (eni_serverIndex id) _ _
    (fun _ => dok_uint32 buf n _ Hs)
    ltac:(unfold srv; intros ?; zbool; lia)).
  assert ((if uri then mkNodeId 0 (nid_identifier (eni_nodeId id)) else eni_nodeId id) =
          eni_nodeId id) as ->
    by (destruct uri; [|done]; rewrite <- Hns by done; by destruct (eni_nodeId id)).
  destruct id; dfinish.
Qed.

Lemma dok_qualifiedname n q : wf_qualifiedname q ->
  dok n (QualifiedName_decodeBinary calloc_ok buf) (bytes_qualifiedname q) q.
Proof.
  intros [Hns Hs] c Hr Hd; unfold bytes_qualifiedname in *; dsplit.
  unfold QualifiedName_decodeBinary.
  dstep (dok_uint16 buf n _ Hns); dstep (dok_string n _ Hs); destruct q; dfinish.
Qed.

Lemma dok_localizedtext n t : wf_localizedtext t ->
  dok n (LocalizedText_decodeBinary calloc_ok buf) (bytes_localizedtext t) t.
Proof.
  intros [Hl Ht] c Hr Hd; unfold bytes_localizedtext in *; dsplit.
  unfold LocalizedText_decodeBinary.
  dstep (dok_byte buf n (Z.lor (flag (arr_nonnull (lt_locale t)) 1)
    (flag (arr_nonnull (lt_text t)) 2))
    ltac:(destruct (arr_nonnull (lt_locale t)), (arr_nonnull (lt_text t)); split; vm_compute; congruence)).
  replace (has _ UA_LOCALIZEDTEXT_ENCODINGMASKTYPE_LOCALE) with (arr_nonnull (lt_locale t))
    by (by destruct (arr_nonnull (lt_locale t)), (arr_nonnull (lt_text t))).
  replace (has _ UA_LOCALIZEDTEXT_ENCODINGMASKTYPE_TEXT) with (arr_nonnull (lt_text t))
    by (by destruct (arr_nonnull (lt_locale t)), (arr_nonnull (lt_text t))).
  assert (Hnull : forall s : UA_String, arr_nonnull s = false -> s = ArrNull) by (by intros []).
  dstep (dok_when buf n (arr_nonnull (lt_locale t)) ArrNull (lt_locale t) _ _
    (fun _ => dok_string n _ Hl) (Hnull _)).
  dstep (dok_when buf n (arr_nonnull (lt_text t)) ArrNull (lt_text t) _ _
    (fun _ => dok_string n _ Ht) (Hnull _)).
  destruct t; dfinish.
Qed.

(** ** Masks *)

(** The bits of a mask that is the union of six flags. *)
Lemma mask6_bits b0 b1 b2 b3 b4 b5 :
  let mask := Z.lor (flag b0 1) (Z.lor (flag b1 2) (Z.lor (flag b2 4) (Z.lor (flag b3 8)
                (Z.lor (flag b4 16) (flag b5 32))))) in
  0 <= mask < 256 /\
  has mask 0x01 = b0 /\ has mask 0x02 = b1 /\ has mask 0x04 = b2 /\ has mask 0x08 = b3 /\
  has mask 0x10 = b4 /\ has mask 0x20 = b5 /\ has mask 0x40 = false.
Proof. destruct b0, b1, b2, b3, b4, b5; vm_compute; repeat split; congruence. Qed.

Lemma dok_diagnosticinfo n fuel d : wf_diagnosticinfo d -> rt_diagnosticinfo d ->
  dok n (DiagnosticInfo_decodeBinary calloc_ok buf (S fuel)) (bytes_diagnosticinfo d) d.
Proof.
  destruct d as [h1 h2 h3 h4 h5 h6 h7 f1 f2 f3 f4 f5 f6 inner].
  unfold rt_diagnosticinfo; cbn [wf_diagnosticinfo bytes_diagnosticinfo DiagnosticInfo_decodeBinary
    hasSymbolicId hasNamespaceUri hasLocalizedText hasLocale hasAdditionalInfo hasInnerStatusCode
    hasInnerDiagnosticInfo symbolicId di_namespaceUri localizedText di_locale additionalInfo
    innerStatusCode innerDiagnosticInfo].
  intros (W1 & W2 & W3 & W4 & W5 & W6 & _) (Z1 & Z2 & Z3 & Z4 & Z5 & -> & -> & -> & ->) c Hr Hd.
  unfold bytes_diag_prefix, DiagnosticInfo_encodingMask in *;
    cbn [hasSymbolicId hasNamespaceUri hasLocalizedText hasLocale hasAdditionalInfo
         hasInnerDiagnosticInfo symbolicId di_namespaceUri localizedText di_locale] in *.
  destruct (mask6_bits h1 h2 h3 h4 h5 false) as (Hm & B1 & B2 & B3 & B4 & B5 & B6 & B7).
  rewrite <- !app_assoc in Hr; dsplit.
  dstep (dok_byte buf n _ Hm); rewrite bad_good, B1, B2, B3, B4, B5, B6, B7.
  dstep (dok_when buf n h1 0 f1 _ _ (fun _ => dok_uint32 buf n _ W1) Z1).
  dstep (dok_when buf n h2 0 f2 _ _ (fun _ => dok_uint32 buf n _ W2) Z2).
  dstep (dok_when buf n h3 0 f3 _ _ (fun _ => dok_uint32 buf n _ W3) Z3).
  dstep (dok_when buf n h4 0 f4 _ _ (fun _ => dok_uint32 buf n _ W4) Z4).
  dstep (dok_when buf n h5 ArrNull f5 _ _ (fun _ => dok_string n _ W5) Z5).
  cbv beta iota; simpl whenD; cbv beta iota.
  eexists; autorewrite with ua_rw; f_equal; f_equal; rewrite !zlen_app, !Z.add_assoc; simpl.
  change (zlen (@nil Z)) with 0; lia.
Qed.

(** ** ExtensionObjects *)

Lemma NodeId_copy_ok id c : wf_nodeid id ->
  exists k, UA_NodeId_copy calloc_ok id c = (GOOD, id, mkDCtx (pos c) (ddepth c) k).
Proof.
  assert (Hs : forall s, wf_string s -> exists k,
    UA_String_copy calloc_ok s c = (GOOD, s, mkDCtx (pos c) (ddepth c) k)).
  { intros s (Hcan & _ & _); unfold UA_String_copy; destruct c as [p d k0].
    destruct (arr_length s =? 0) eqn:E; zbool; [|rewrite calloc_true by done; by eexists].
    exists k0; destruct s as [| |l]; try done.
    unfold arr_length in E; simpl in E; by apply zlen_zero in E. }
  intros [_ Hid]; unfold UA_NodeId_copy; destruct id as [ns i]; simpl in *.
  destruct i as [i|s|g|s|]; try done; try (by destruct c; eexists);
    destruct (Hs s Hid) as [k E]; exists k; unfold fmapD; by rewrite E.
Qed.

Section Rec.
Variable rec : UA_DataType -> dec UA_Value.

Lemma wf_binaryId t :
  0 <= nid_namespaceIndex (dt_typeId t) < 2 ^ 16 -> 0 <= binaryEncodingId t < 2 ^ 32 ->
  wf_nodeid (binaryId t).
Proof. done. Qed.

Lemma dok_ext_decoded n t len d bs :
  0 <= nid_namespaceIndex (dt_typeId t) < 2 ^ 16 -> 0 <= binaryEncodingId t < 2 ^ 32 ->
  UA_findDataTypeByBinaryInternal (binaryId t) customTypes = Some t ->
  dok n (rec t) bs d ->
  dok n (ExtensionObject_decodeBinary calloc_ok buf rec) (bytes_ext_header t len ++ bs)
    (VExtDecoded UA_EXTENSIONOBJECT_DECODED (Some t) (Some d)).
Proof.
  intros Hns Hid Hfind Hd c Hr Hdepth; unfold bytes_ext_header in *.
  rewrite <- !app_assoc in *; dsplit; unfold ExtensionObject_decodeBinary.
  dstep (dok_nodeid n (binaryId t) 0 (wf_binaryId t Hns Hid) ltac:(by left)).
  dstep (dok_byte buf n UA_EXTENSIONOBJECT_ENCODED_BYTESTRING ltac:(done)).
  rewrite lor_good_l, bad_good, Z.eqb_refl; unfold ExtensionObject_decodeBinaryContent.
  rewrite Hfind, calloc_true by done; cbn [negb]; unfold fmapD, set_pos; cbn [pos ddepth allocs].
  rewrite zlen_le_bytes in *; change (Z.of_nat 4) with 4 in *.
  dstep Hd; unfold binaryId; dfinish_pos.
Qed.

Lemma dok_ext_encoded n encoding typeId body :
  0 <= encoding <= UA_EXTENSIONOBJECT_ENCODED_XML -> wf_nodeid typeId -> wf_string body ->
  rt_ext_encoded encoding typeId body ->
  dok n (ExtensionObject_decodeBinary calloc_ok buf rec)
    (bytes_ext_encoded encoding typeId body) (VExtEncoded encoding typeId body).
Proof.
  intros He Hid Hb [Hnb Hbs] c Hr Hdepth; unfold bytes_ext_encoded in *; dsplit.
  unfold ExtensionObject_decodeBinary.
  unfold UA_EXTENSIONOBJECT_ENCODED_NOBODY, UA_EXTENSIONOBJECT_ENCODED_BYTESTRING,
    UA_EXTENSIONOBJECT_ENCODED_XML in *.
  dstep (dok_nodeid n typeId 0 Hid ltac:(by left)).
  dstep (dok_byte buf n encoding ltac:(lia)); rewrite lor_good_l, bad_good.
  assert (encoding = 0 \/ encoding = 1 \/ encoding = 2) as [-> | [-> | ->]] by lia;
    cbn [Z.eqb Pos.eqb negb when] in *.
  - rewrite Hnb by done; dfinish_pos.
  - unfold ExtensionObject_decodeBinaryContent; rewrite Hbs by done.
    match goal with |- context [UA_NodeId_copy _ _ ?c] =>
      destruct (NodeId_copy_ok typeId c Hid) as [k' ->] end.
    cbn [pos ddepth]; unfold fmapD; dstep (dok_string n _ Hb); dfinish.
  - unfold fmapD; dstep (dok_string n _ Hb); dfinish.
Qed.

(** A structure in a variant is found by the id of its binary encoding. *)
Lemma dok_unwrap_struct n t len d bs :
  0 <= nid_namespaceIndex (dt_typeId t) < 2 ^ 16 -> 0 <= binaryEncodingId t < 2 ^ 32 ->
  UA_findDataTypeByBinaryInternal (binaryId t) customTypes = Some t ->
  dok n (rec t) bs d ->
  dok n (Variant_decodeBinaryUnwrapExtensionObject calloc_ok buf rec)
    (bytes_ext_header t len ++ bs) (VVariant (Some t) (SScalar d) ArrNull).
Proof.
  intros Hns Hid Hfind Hd c Hr Hdepth; unfold bytes_ext_header in *.
  rewrite <- !app_assoc in *; dsplit; unfold Variant_decodeBinaryUnwrapExtensionObject.
  cbv zeta; dstep (dok_nodeid n (binaryId t) 0 (wf_binaryId t Hns Hid) ltac:(by left)).
  rewrite bad_good; dstep (dok_byte buf n UA_EXTENSIONOBJECT_ENCODED_BYTESTRING ltac:(done)).
  rewrite bad_good, Z.eqb_refl, Hfind; unfold set_pos; rewrite calloc_true by done.
  cbn [negb]; unfold fmapD; cbn [pos ddepth allocs].
  rewrite zlen_le_bytes in *; change (Z.of_nat 4) with 4 in *.
  dstep Hd; unfold binaryId; dfinish_pos.
Qed.

(** An ExtensionObject in a variant that stays an ExtensionObject. *)
Lemma dok_unwrap_encoded n encoding typeId body :
  0 <= encoding <= UA_EXTENSIONOBJECT_ENCODED_XML -> wf_nodeid typeId ->
  rt_ext_encoded encoding typeId body ->
  dok n (rec UA_TYPES_EXTENSIONOBJECT) (bytes_ext_encoded encoding typeId body)
    (VExtEncoded encoding typeId body) ->
  dok n (Variant_decodeBinaryUnwrapExtensionObject calloc_ok buf rec)
    (bytes_ext_encoded encoding typeId body)
    (VVariant (Some UA_TYPES_EXTENSIONOBJECT) (SScalar (VExtEncoded encoding typeId body)) ArrNull).
Proof.
  intros He Hid [_ Hbs] Hrec c Hr Hdepth; pose proof Hr as Hr0.
  unfold bytes_ext_encoded in Hr0; dsplit; unfold Variant_decodeBinaryUnwrapExtensionObject.
  cbv zeta; dstep (dok_nodeid n typeId 0 Hid ltac:(by left)); rewrite bad_good.
  unfold UA_EXTENSIONOBJECT_ENCODED_XML in *.
  dstep (dok_byte buf n encoding ltac:(lia)); rewrite bad_good.
  assert ((if encoding =? UA_EXTENSIONOBJECT_ENCODED_BYTESTRING
           then UA_findDataTypeByBinaryInternal typeId customTypes else None) = None) as ->
    by (destr_if; zbool; [by apply Hbs|done]).
  unfold set_pos; rewrite calloc_true by done; cbn [negb]; unfold fmapD; cbn [pos ddepth allocs].
  dstep Hrec; eexists; done.
Qed.
End Rec.

(** ** Values *)

Variable R : Z.

(** Fuel for the recursion of the decoder. *)
Fixpoint height (v : UA_Value) : nat :=
  match v with
  | VExtDecoded _ _ (Some d) => S (height d)
  | VDataValue _ v => S (height v)
  | VVariant _ (SScalar d) _ => S (height d)
  | VVariant _ (SArray arr) _ => S (list_max (arr_list (arr_map height arr)))
  | VDiagnosticInfo _ => 2
  | VStruct fs =>
      S (list_max (map (fun s => match s with
                                 | SScalar v => height v
                                 | SArray arr => list_max (arr_list (arr_map height arr))
                                 end) fs))
  | _ => 1
  end.

Definition value_dok (v : UA_Value) : Prop :=
  forall type fuel, wf R v type -> rt v type -> (height v <= fuel)%nat ->
    dok (dnest v type) (decodeBinary calloc_ok buf fuel type) (bytes_of v type) v.

Lemma dnest_nonneg v type : 0 <= dnest v type.
Proof.
  revert type; induction v using UA_Value_nested_ind; intros type; simpl; try done.
  - destruct t as [t|]; [|done]; destruct d as [d|]; [|done]; auto.
  - specialize (IHv UA_TYPES_VARIANT); lia.
  - destruct t as [t|]; [|done]; destruct d as [d|arr]; simpl in *.
    + rewrite Forall_singleton in H; specialize (H t); lia.
    + pose proof (zmax_nonneg (arr_list (arr_map (fun d => dnest d t) arr))); lia.
  - match goal with |- 0 <= 1 + ?g fs (members type) =>
      assert (Hg : forall ms, 0 <= g fs ms); [|specialize (Hg (members type)); lia] end.
    clear H; induction fs as [|s fs IH]; intros ms; destruct ms; try done.
    destruct (membertype type u); [|done]; specialize (IH ms); lia.
Qed.

Lemma dok_value_array n fuel t arr :
  Forall value_dok (arr_list arr) -> arr_canonical arr -> arr_length arr <= UA_INT32_MAX ->
  foldr and True (arr_list (arr_map (fun d => wf R d t /\ wf_elem_image R t d) arr)) ->
  foldr and True (arr_list (arr_map (fun d => rt d t) arr)) -> rt_array t arr ->
  (list_max (arr_list (arr_map height arr)) <= fuel)%nat ->
  zmax (arr_list (arr_map (fun d => dnest d t) arr)) <= n ->
  dok n (Array_decodeBinary calloc_ok buf (decodeBinary calloc_ok buf fuel t)
           (from_image image_fuel t) t)
    (bytes_array (arr_map (fun d => if overlayable t then mem_image d t else bytes_of d t) arr))
    arr.
Proof.
  rewrite !arr_list_map, !foldr_and_Forall.
  intros IH Hcan Hlen Hwf Hrt (Hfilter & Hms & Himg) Hf Hn.
  apply dok_array; try done.
  - intros Ho; rewrite Ho; specialize (Himg Ho); rewrite !Forall_forall in *.
    intros v Hv; split; [by apply Hwf|by apply Himg].
  - intros Ho; rewrite Ho; rewrite !Forall_forall in *; intros v Hv.
    eapply dok_mono; [apply (IH v Hv); [by apply Hwf|by apply Hrt|]|].
    + etrans; [|exact Hf]; apply list_max_le in Hf as Hf'.
      pose proof (proj1 (list_max_le (map height (arr_list arr)) _) (Nat.le_refl _)) as Hm.
      rewrite Forall_forall in Hm; apply Hm, list_elem_of_fmap; eauto.
    + etrans; [|exact Hn]; apply zmax_le, list_elem_of_fmap; eauto.
Qed.

Lemma dok_datavalue n rec h v :
  wf_datavalue_header h -> rt_datavalue_header h -> 0 <= n ->
  (hasValue h = false -> v = UA_Variant_null) ->
  dok n (rec UA_TYPES_VARIANT) (bytes_of v UA_TYPES_VARIANT) v ->
  dok (1 + n) (DataValue_decodeBinary buf rec)
    ([u8 (DataValue_encodingMask h)] ++ when (hasValue h) (bytes_of v UA_TYPES_VARIANT)
     ++ bytes_datavalue_tail h) (VDataValue h v).
Proof.
  destruct h as [h0 h1 h2 h3 h4 h5 f1 f2 f3 f4 f5].
  unfold wf_datavalue_header, rt_datavalue_header, DataValue_encodingMask, bytes_datavalue_tail;
    cbn [hasValue hasStatus hasSourceTimestamp hasServerTimestamp hasSourcePicoseconds
         hasServerPicoseconds dv_status sourceTimestamp sourcePicoseconds serverTimestamp
         serverPicoseconds].
  intros (W1 & W2 & W3 & W4 & W5) (Z1 & Z2 & Z3 & Z4 & Z5 & P1 & P2) Hn0 Hnull Hv c Hr Hd.
  destruct (mask6_bits h0 h1 h2 h3 h4 h5) as (Hm & B1 & B2 & B3 & B4 & B5 & B6 & _).
  dsplit; unfold DataValue_decodeBinary, recursion_limit.
  dstep (dok_byte buf (1 + n) _ Hm); rewrite bad_good; cbv zeta.
  rewrite (proj2 (Z.ltb_ge _ _)) by lia; rewrite B1, B2, B3, B4, B5, B6.
  unfold set_ddepth; cbn [pos ddepth allocs].
  dstep (dok_when buf n h0 UA_Variant_null v _ _ (fun _ => Hv) Hnull).
  dstep (dok_when buf n h1 0 f1 _ _ (fun _ => dok_uint32 buf n _ W1) Z1).
  dstep (dok_when buf n h2 0 f2 _ _ (fun _ => dok_uint64 buf n _ W2) Z2).
  dstep (dok_when buf n h4 0 f3 _ _ (fun _ => dok_uint16 buf n _ W3) Z3).
  dstep (dok_when buf n h3 0 f4 _ _ (fun _ => dok_uint64 buf n _ W4) Z4).
  dstep (dok_when buf n h5 0 f5 _ _ (fun _ => dok_uint16 buf n _ W5) Z5).
  rewrite !Z.min_l by done; autorewrite with ua_rw.
  replace (ddepth c + 1 - 1) with (ddepth c) by lia; dfinish_pos.
Qed.

(** The parts of the encoding byte of a variant. *)
Lemma variant_mask_bits idx isArray hd : 0 <= idx < 25 -> (hd = true -> isArray = true) ->
  let m := Z.lor (Z.land UA_VARIANT_ENCODINGMASKTYPE_TYPEID_MASK (u8 (1 + idx)))
             (flag isArray (Z.lor UA_VARIANT_ENCODINGMASKTYPE_ARRAY
                                  (flag hd UA_VARIANT_ENCODINGMASKTYPE_DIMENSIONS))) in
  0 <= m < 256 /\ (m =? 0) = false /\ has m UA_VARIANT_ENCODINGMASKTYPE_ARRAY = isArray /\
  has m UA_VARIANT_ENCODINGMASKTYPE_DIMENSIONS = hd /\
  u64 (Z.land m UA_VARIANT_ENCODINGMASKTYPE_TYPEID_MASK - 1) = idx.
Proof.
  intros Hi Hhd.
  assert (E : forallb (fun i => forallb (fun p : bool * bool =>
    let m := Z.lor (Z.land UA_VARIANT_ENCODINGMASKTYPE_TYPEID_MASK (u8 (1 + i)))
             (flag (fst p) (Z.lor UA_VARIANT_ENCODINGMASKTYPE_ARRAY
                                  (flag (snd p) UA_VARIANT_ENCODINGMASKTYPE_DIMENSIONS))) in
    (0 <=? m) && (m <? 256) && negb (m =? 0)
    && eqb (has m UA_VARIANT_ENCODINGMASKTYPE_ARRAY) (fst p)
    && eqb (has m UA_VARIANT_ENCODINGMASKTYPE_DIMENSIONS) (snd p)
    && (u64 (Z.land m UA_VARIANT_ENCODINGMASKTYPE_TYPEID_MASK - 1) =? i))
    [(false, false); (true, false); (true, true)]) (seqZ 0 25) = true)
    by (vm_compute; done).
  rewrite forallb_forall in E; specialize (E idx ltac:(apply list_elem_of_In, elem_of_seqZ; lia)).
  rewrite forallb_forall in E; specialize (E (isArray, hd)
    ltac:(destruct isArray, hd; simpl; try tauto; by specialize (Hhd eq_refl))).
  simpl in E; zbool; rewrite !eqb_true_iff in *; repeat split; try assumption;
    by apply Z.eqb_neq.
Qed.

Lemma builtin_row_lookup t : wf_type t -> builtin t = true ->
  0 <= typeIndex t < 25 /\ UA_TYPES !! Z.to_nat (typeIndex t) = Some t.
Proof.
  intros Hw Hb; pose proof (Hw Hb) as Hl.
  assert (Forall (fun t => 0 <= typeIndex t < 25) builtin_types) as Hall
    by (repeat constructor; vm_compute; congruence).
  rewrite Forall_forall in Hall; split.
  - by apply Hall, wf_type_builtin.
  - unfold UA_TYPES; by apply lookup_app_l_Some.
Qed.

(** The encoding byte leads to the decoder of the content. *)
Lemma dok_variant_byte n rec idx t isArray hd bs v :
  0 <= idx < 25 -> (hd = true -> isArray = true) -> UA_TYPES !! Z.to_nat idx = Some t ->
  (idx = typeIndex UA_TYPES_VARIANT -> isArray = true) -> 0 <= n ->
  (forall p d k, reads buf p bs -> d + n <= UA_ENCODING_MAX_RECURSION + 1 -> exists k',
     Variant_decodeContent calloc_ok buf rec (from_image image_fuel) idx t isArray hd
       (mkDCtx p d k) = (GOOD, v, mkDCtx (p + zlen bs) (d - 1) k')) ->
  dok (1 + n) (Variant_decodeBinary calloc_ok buf rec (from_image image_fuel))
    ([u8 (Z.lor (Z.land UA_VARIANT_ENCODINGMASKTYPE_TYPEID_MASK (u8 (1 + idx)))
           (flag isArray (Z.lor UA_VARIANT_ENCODINGMASKTYPE_ARRAY
              (flag hd UA_VARIANT_ENCODINGMASKTYPE_DIMENSIONS))))] ++ bs) v.
Proof.
  intros Hidx Hhd Hlook Hvar Hn Hcontent c Hr Hd.
  destruct (variant_mask_bits idx isArray hd Hidx Hhd) as (Hm & Hm0 & Ba & Bd & Bi).
  dsplit; unfold Variant_decodeBinary, recursion_limit; dstep (dok_byte buf (1 + n) _ Hm).
  rewrite bad_good, Hm0; cbv zeta; rewrite Ba, Bd, Bi, Hlook.
  change (typeIndex UA_TYPES_DIAGNOSTICINFO) with 24.
  rewrite (proj2 (Z.ltb_ge 24 idx)) by lia.
  rewrite (proj2 (Z.ltb_ge UA_ENCODING_MAX_RECURSION (ddepth c))) by lia.
  replace ((idx =? typeIndex UA_TYPES_VARIANT) && negb isArray) with false
    by (symmetry; apply andb_false_iff; destruct (idx =? _) eqn:E; zbool; [right|by left];
        by rewrite Hvar).
  unfold set_ddepth; cbn [pos ddepth allocs].
  edestruct Hcontent as [k' ->]; [eassumption|lia|].
  replace (ddepth c + 1 - 1) with (ddepth c) by lia; dfinish_pos.
Qed.

Lemma dok_dims n dims : wf_dims dims -> arr_length dims <> 0 ->
  dok n (Array_decodeBinary calloc_ok buf (UInt32_decodeBinary buf) le_value UA_TYPES_INT32)
    (bytes_array (arr_map (le_bytes 4) dims)) dims.
Proof.
  intros (Hcan & Hl & Hr) Hne; apply dok_array; try done.
  - unfold filter_ok; change (memSize UA_TYPES_INT32) with 4.
    rewrite (zlen_concat_const _ 4) by (intros; by rewrite zlen_le_bytes).
    unfold arr_length in *; pose proof (zlen_nonneg (arr_list dims)).
    apply Z.div_le_upper_bound; lia.
  - intros _; eapply Forall_impl; [exact Hr|]; intros z Hz; split; [by rewrite zlen_le_bytes|].
    by apply le_value_le_bytes_id.
Qed.

Lemma dok_content_scalar n rec t d bs p dp k :
  typeIndex t <> typeIndex UA_TYPES_EXTENSIONOBJECT -> dok n (rec t) bs d ->
  reads buf p bs -> dp + n <= UA_ENCODING_MAX_RECURSION + 1 -> exists k',
    Variant_decodeContent calloc_ok buf rec (from_image image_fuel) (typeIndex t) t false false
      (mkDCtx p dp k) =
    (GOOD, VVariant (Some t) (SScalar d) ArrNull, mkDCtx (p + zlen bs) (dp - 1) k').
Proof.
  intros Hne Hd Hr Hdp; unfold Variant_decodeContent.
  rewrite (proj2 (Z.eqb_neq _ _)) by done; cbn [negb]; rewrite calloc_true by done.
  cbn [pos ddepth allocs negb]; dstep Hd; eexists; done.
Qed.

Lemma dok_content_unwrap n rec t v bs p dp k :
  dok n (Variant_decodeBinaryUnwrapExtensionObject calloc_ok buf rec) bs v ->
  reads buf p bs -> dp + n <= UA_ENCODING_MAX_RECURSION + 1 -> exists k',
    Variant_decodeContent calloc_ok buf rec (from_image image_fuel)
      (typeIndex UA_TYPES_EXTENSIONOBJECT) t false false (mkDCtx p dp k) =
    (GOOD, v, mkDCtx (p + zlen bs) (dp - 1) k').
Proof.
  intros Hd Hr Hdp; unfold Variant_decodeContent; rewrite Z.eqb_refl; cbn [negb].
  dstep Hd; eexists; done.
Qed.

Lemma dok_content_array n rec idx t arr dims bs p dp k :
  wf_dims dims -> ((0 <? arr_length dims) = false -> dims = ArrNull) ->
  dok n (Array_decodeBinary calloc_ok buf (rec t) (from_image image_fuel t) t) bs arr ->
  reads buf p (bs ++ when (0 <? arr_length dims) (bytes_array (arr_map (le_bytes 4) dims))) ->
  dp + n <= UA_ENCODING_MAX_RECURSION + 1 -> exists k',
    Variant_decodeContent calloc_ok buf rec (from_image image_fuel) idx t true
      (0 <? arr_length dims) (mkDCtx p dp k) =
    (GOOD, VVariant (Some t) (SArray arr) dims,
     mkDCtx (p + zlen (bs ++ when (0 <? arr_length dims)
                               (bytes_array (arr_map (le_bytes 4) dims)))) (dp - 1) k').
Proof.
  intros Hw Hnull Harr Hr Hdp; unfold Variant_decodeContent; dsplit; dstep Harr.
  assert (Hwhen : (0 <? arr_length dims) = true -> dok n
    (Array_decodeBinary calloc_ok buf (UInt32_decodeBinary buf) le_value UA_TYPES_INT32)
    (bytes_array (arr_map (le_bytes 4) dims)) dims)
    by (intros ?; zbool; apply dok_dims; [done|lia]).
  dstep (dok_when buf n (0 <? arr_length dims) ArrNull dims _ _ Hwhen Hnull).
  unfold set_ddepth; cbn [pos ddepth allocs]; autorewrite with ua_rw; dfinish_pos.
Qed.

Lemma entry_row t e : wf_type t -> builtin t = true -> entry t = Some e ->
  (e = EVariant <-> typeIndex t = typeIndex UA_TYPES_VARIANT) /\
  (e = EExtensionObject <-> t = UA_TYPES_EXTENSIONOBJECT) /\
  (e = EExtensionObject <-> typeIndex t = typeIndex UA_TYPES_EXTENSIONOBJECT).
Proof.
  intros Hw Hb He; pose proof (wf_type_builtin t Hw Hb) as Hin.
  unfold builtin_types in Hin; repeat (apply elem_of_cons in Hin as [->|Hin]);
    [injection He as <-; repeat split; intros; try done..|].
  by apply elem_of_nil in Hin.
Qed.

Lemma dok_variant_scalar fuel t d :
  value_dok d -> wf R d t -> rt (VVariant (Some t) (SScalar d) ArrNull) UA_TYPES_VARIANT ->
  (if negb (builtin t) && negb (alias_of t) then
     0 <= nid_namespaceIndex (dt_typeId t) < 2 ^ 16 /\ 0 <= binaryEncodingId t < 2 ^ 32
   else True) ->
  (height d <= fuel)%nat ->
  dok (1 + dnest d t)
    (Variant_decodeBinary calloc_ok buf (decodeBinary calloc_ok buf fuel) (from_image image_fuel))
    (bytes_of (VVariant (Some t) (SScalar d) ArrNull) UA_TYPES_VARIANT)
    (VVariant (Some t) (SScalar d) ArrNull).
Proof.
  intros IH Hw (_ & Hrt & Hnv & Hst & Hnd) Hid Hf; cbn [bytes_of variant_isArray andb when].
  rewrite app_nil_r; unfold variant_encodingMask, variant_typeMask.
  assert (Hrec : dok (dnest d t) (decodeBinary calloc_ok buf fuel t) (bytes_of d t) d)
    by (by apply IH).
  assert (Hwt : wf_type t) by (destruct d; apply Hw).
  pose proof (dnest_nonneg d t); destruct (builtin t) eqn:Hb; cbn [andb negb].
  - destruct (builtin_row_lookup t Hwt Hb) as [Hidx Hlook].
    destruct (entry t) as [e|] eqn:He; [|by destruct d; destruct Hw as [_ Hw]; rewrite He in Hw].
    destruct (entry_row t e Hwt Hb He) as (Hv & Hx & Hxi).
    apply dok_variant_byte with (t := t); try done; [intros E; by apply Hv in E; subst|].
    intros p dp k Hr Hdp; destruct (Z.eq_dec (typeIndex t) (typeIndex UA_TYPES_EXTENSIONOBJECT))
      as [Ei|Ei]; [|by eapply dok_content_scalar].
    rewrite Ei; apply Hxi in Ei; apply Hx in Ei; subst t.
    destruct d; destruct Hw as [_ Hw]; try done.
    destruct Hw as (? & ? & ?); by eapply dok_content_unwrap; [apply dok_unwrap_encoded|..].
  - destruct (Hst eq_refl) as [Ha Hfind]; rewrite Ha in *; cbn [andb negb] in *.
    destruct Hid as [Hns Hid].
    apply dok_variant_byte with (t := UA_TYPES_EXTENSIONOBJECT); try done.
    intros p dp k Hr Hdp; by eapply dok_content_unwrap; [apply dok_unwrap_struct|..].
Qed.

Lemma dok_variant t data dims :
  Forall value_dok (slot_list data) -> value_dok (VVariant t data dims).
Proof.
  intros IH type fuel [Hwt Hw] Hrt Hf; destruct (entry type) as [[]|] eqn:He; try done.
  destruct fuel as [|fuel]; [by destruct data; simpl in Hf; lia|].
  eapply (dok_ext buf _ (Variant_decodeBinary calloc_ok buf (decodeBinary calloc_ok buf fuel)
    (from_image image_fuel))); [intros c; simpl; by rewrite He|].
  destruct t as [t|].
  2: { destruct Hrt as [-> ->]; intros c Hr Hd; simpl in Hd; unfold Variant_decodeBinary.
       dstep (dok_byte buf 0 0 ltac:(done)); rewrite bad_good; cbn [Z.eqb]; eexists; reflexivity. }
  destruct Hw as (Hal & Hwtt & Hdims & Hwrap & Hdata), Hrt as [Hrd Hrt].
  destruct data as [d|arr]; cbn [slot_list height dnest] in *.
  - rewrite Forall_singleton in IH; specialize (Hrd eq_refl); subst dims.
    apply dok_variant_scalar; [done..| |lia].
    destruct (negb (builtin t) && negb (alias_of t)); [|done]; by destruct Hwrap as (_ & ? & ? & _).
  - destruct Hrt as (Hb & Harr & Hrt), Hdata as (Hcan & Hlen & Hall).
    unfold rt_dims in Hrd; cbn [bytes_of]; rewrite variant_isArray_array in * by done.
    rewrite Hb; cbn [andb negb] in *; unfold variant_encodingMask, variant_typeMask; rewrite Hb.
    pose proof (zmax_nonneg (arr_list (arr_map (fun d => dnest d t) arr))).
    destruct (builtin_row_lookup t Hwtt Hb) as [Hidx Hlook].
    apply dok_variant_byte with (t := t); try done.
    intros p dp k Hr Hdp; eapply dok_content_array; try done.
    eapply dok_value_array; try done; lia.
Qed.

Lemma dok_struct fs :
  Forall (fun s => Forall value_dok (slot_list s)) fs -> value_dok (VStruct fs).
Proof.
  intros IH type fuel [Hwt Hw] Hrt Hf; destruct (entry type) as [[]|] eqn:He; try done.
  destruct fuel as [|fuel]; [simpl in Hf; lia|].
  eapply (dok_ext buf _ (fmapD VStruct (decodeMembers
    (decode_members calloc_ok buf (decodeBinary calloc_ok buf fuel) (from_image image_fuel) type
       (members type)) []))); [intros c; simpl; by rewrite He|].
  apply dok_fmap; cbn [dnest bytes_of height rt] in *.
  match goal with |- dok (1 + ?g fs (members type)) _ (?b fs (members type)) _ =>
    set (depths := g); set (bytes := b) end.
  enough (Hall : 0 <= depths fs (members type) /\ dok (depths fs (members type))
    (decode_members calloc_ok buf (decodeBinary calloc_ok buf fuel) (from_image image_fuel) type
       (members type)) (bytes fs (members type)) fs)
    by (destruct Hall as [? ?]; by apply dok_deeper).
  revert Hw Hrt; generalize (members type) as ms.
  induction fs as [|s fs IHfs]; intros [|m ms] Hw Hrt; try done.
  { split; [done|]; apply dok_ret. }
  inversion_clear IH as [|? ? IHs IHrest]; simpl in Hf.
  simpl in Hw, Hrt; unfold depths, bytes; fold depths; fold bytes.
  cbn [decode_members]; destruct (membertype type m) as [mt|]; [|done].
  destruct Hw as [Hws Hw], Hrt as [Hrs Hrt].
  destruct (IHfs IHrest ltac:(simpl; lia) ms Hw Hrt) as [Hn Hrest]; split; [lia|].
  apply dok_step with (a := s) (k := fun ret s c => if bad ret then (ret, [], c)
    else let '(ret, ss, c) := decode_members calloc_ok buf (decodeBinary calloc_ok buf fuel)
           (from_image image_fuel) type ms c in (ret, s :: ss, c)).
  - destruct s as [v|arr]; simpl slot_list in IHs.
    + destruct Hws as [-> Hv]; rewrite Forall_singleton in IHs.
      apply (dok_fmap buf _ SScalar); eapply dok_mono; [apply IHs; [done..|]; lia|lia].
    + destruct Hws as (-> & Hcan & Hlen & Hall), Hrs as [Harr Hrs].
      apply (dok_fmap buf _ SArray); apply dok_value_array; try done; lia.
  - rewrite bad_good; apply dok_nil.
    apply dok_step with (a := fs) (k := fun ret ss c => (ret, s :: ss, c)); [|apply dok_ret].
    eapply dok_mono; [exact Hrest|]; lia.
Qed.

Lemma height_pos v : (1 <= height v)%nat.
Proof.
  destruct v as [| | | | | | | |? ? [|]| |? [|] ?| |]; simpl; lia.
Qed.

Lemma decodeBinary_ok v : value_dok v.
Proof.
  induction v using UA_Value_nested_ind; try (by apply dok_variant); try (by apply dok_struct);
    intros type fuel [Hwt Hw] Hrt Hf; (destruct fuel as [|fuel];
      [match type of Hf with (height ?v <= _)%nat => pose proof (height_pos v) end; lia|]);
    destruct (entry type) as [en|] eqn:He; try done; destruct en; try done;
    cbn [bytes_of].
  1-5: erewrite (entry_memSize type) by done.
  - eapply (dok_ext buf _ (fmapD VInt (Boolean_decodeBinary buf))); [intros c; simpl; by rewrite He|].
    by apply dok_fmap, dok_boolean.
  - eapply (dok_ext buf _ (fmapD VInt (Byte_decodeBinary buf))); [intros c; simpl; by rewrite He|].
    erewrite (entry_memSize type) in Hw by done; by apply dok_fmap, dok_byte.
  - eapply (dok_ext buf _ (fmapD VInt (UInt16_decodeBinary buf))); [intros c; simpl; by rewrite He|].
    erewrite (entry_memSize type) in Hw by done; by apply dok_fmap, dok_uint16.
  - eapply (dok_ext buf _ (fmapD VInt (UInt32_decodeBinary buf))); [intros c; simpl; by rewrite He|].
    erewrite (entry_memSize type) in Hw by done; by apply dok_fmap, dok_uint32.
  - eapply (dok_ext buf _ (fmapD VInt (UInt64_decodeBinary buf))); [intros c; simpl; by rewrite He|].
    erewrite (entry_memSize type) in Hw by done; by apply dok_fmap, dok_uint64.
  - eapply (dok_ext buf _ (fmapD VString _)); [intros c; simpl; by rewrite He|].
    by apply dok_fmap, dok_string.
  - eapply (dok_ext buf _ (fmapD VGuid _)); [intros c; simpl; by rewrite He|].
    by apply dok_fmap, dok_guid.
  - eapply (dok_ext buf _ (fmapD VNodeId _)); [intros c; simpl; by rewrite He|].
    apply dok_fmap, dok_nodeid; [done|by left].
  - eapply (dok_ext buf _ (fmapD VExpandedNodeId _)); [intros c; simpl; by rewrite He|].
    by apply dok_fmap, dok_expandednodeid.
  - eapply (dok_ext buf _ (fmapD VQualifiedName _)); [intros c; simpl; by rewrite He|].
    by apply dok_fmap, dok_qualifiedname.
  - eapply (dok_ext buf _ (fmapD VLocalizedText _)); [intros c; simpl; by rewrite He|].
    by apply dok_fmap, dok_localizedtext.
  - eapply (dok_ext buf _ (ExtensionObject_decodeBinary calloc_ok buf
      (decodeBinary calloc_ok buf fuel))); [intros c; simpl; by rewrite He|].
    destruct Hw as (? & ? & ?); by apply dok_ext_encoded.
  - eapply (dok_ext buf _ (ExtensionObject_decodeBinary calloc_ok buf
      (decodeBinary calloc_ok buf fuel))); [intros c; simpl; by rewrite He|].
    destruct t as [t|]; [|done]; destruct d as [d|]; [|done].
    destruct Hw as (Hnum & Hsz & Hns & Hid & Hwd), Hrt as (-> & _ & Hfind & Hrt).
    apply dok_ext_decoded; [done..|]; simpl in Hf; apply (H d eq_refl); [done..|lia].
  - eapply (dok_ext buf _ (DataValue_decodeBinary buf (decodeBinary calloc_ok buf fuel)));
      [intros c; simpl; by rewrite He|].
    destruct Hw as [Hh Hv], Hrt as (Hrh & Hnull & Hrt); simpl in Hf.
    apply dok_datavalue; try done; [apply dnest_nonneg|]; apply IHv; [done..|lia].
  - eapply (dok_ext buf _ (fmapD VDiagnosticInfo _)); [intros c; simpl; by rewrite He|].
    simpl in Hf; destruct fuel as [|fuel]; [lia|]; by apply dok_fmap, dok_diagnosticinfo.
Qed.

(** ** Fuel *)

Definition is_ext (v : UA_Value) : bool :=
  match v with VExtDecoded _ _ _ => true | _ => false end.

(** The recursion limit bounds the recursion: only an ExtensionObject does
    not count, and its content does. *)
Definition height_ok (v : UA_Value) : Prop :=
  forall type, wf R v type -> rt v type ->
    Z.of_nat (height v) <= 2 * dnest v type + (if is_ext v then 3 else 2).

Lemma list_max_bound {A} (f : A -> nat) (l : list A) b :
  0 <= b -> Forall (fun x => Z.of_nat (f x) <= b) l -> Z.of_nat (list_max (map f l)) <= b.
Proof. intros Hb; induction 1; simpl; lia. Qed.

Lemma array_height t arr :
  Forall height_ok (arr_list arr) ->
  foldr and True (arr_list (arr_map (fun d => wf R d t /\ wf_elem_image R t d) arr)) ->
  foldr and True (arr_list (arr_map (fun d => rt d t) arr)) ->
  Z.of_nat (list_max (arr_list (arr_map height arr))) <=
  2 * zmax (arr_list (arr_map (fun d => dnest d t) arr)) + 3.
Proof.
  rewrite !arr_list_map, !foldr_and_Forall; intros IH Hwf Hrt.
  pose proof (zmax_nonneg (map (fun d => dnest d t) (arr_list arr))).
  apply list_max_bound; [lia|]; rewrite !Forall_forall in *; intros v Hv.
  pose proof (IH v Hv t (proj1 (Hwf v Hv)) (Hrt v Hv)).
  assert (dnest v t <= zmax (map (fun d => dnest d t) (arr_list arr)))
    by (apply zmax_le, list_elem_of_fmap; eauto).
  destruct (is_ext v); lia.
Qed.

Lemma height_bound v : height_ok v.
Proof.
  induction v using UA_Value_nested_ind; intros type [Hwt Hw] Hrt;
    destruct (entry type) as [en|]; try done; destruct en; try done;
    cbn [height dnest is_ext]; try lia.
  - destruct t as [t|]; [|done]; destruct d as [d|]; [|done].
    destruct Hw as (_ & _ & _ & _ & Hwd), Hrt as (_ & Hb & _ & Hrt).
    pose proof (H d eq_refl t Hwd Hrt) as Hd; destruct (is_ext d) eqn:Ex; [|lia].
    destruct d; try done; destruct Hwd as [_ Hwd]; by rewrite entry_nonbuiltin in Hwd.
  - destruct Hw as [_ Hv], Hrt as (_ & _ & Hrt); pose proof (IHv _ Hv Hrt) as Hd.
    destruct (is_ext v) eqn:Ex; [|lia]; by destruct v; destruct Hv as [_ Hv].
  - destruct t as [t|].
    2: { destruct Hrt as [-> _]; simpl; lia. }
    destruct Hw as (_ & _ & _ & _ & Hdata), Hrt as [_ Hrt].
    destruct d as [d|arr]; simpl slot_list in H.
    + rewrite Forall_singleton in H; destruct Hrt as (Hrt & _).
      pose proof (H t Hdata Hrt); destruct (is_ext d); lia.
    + destruct Hrt as (_ & _ & Hrt), Hdata as (_ & _ & Hall).
      pose proof (array_height t arr H Hall Hrt); lia.
  - match goal with |- _ <= 2 * (1 + ?g fs (members type)) + 2 => set (depths := g) end.
    enough (Hg : 0 <= depths fs (members type) /\
               Z.of_nat (list_max (map (fun s => match s with
               | SScalar v => height v
               | SArray arr => list_max (arr_list (arr_map height arr)) end) fs))
               <= 2 * depths fs (members type) + 3) by lia.
    revert Hw Hrt; cbn [rt]; generalize (members type) as ms.
    induction fs as [|s fs IHfs]; intros [|m ms] Hw Hrt; try done.
    inversion_clear H as [|? ? Hs Hrest]; simpl.
    destruct (membertype type m) as [mt|]; [|done].
    destruct Hw as [Hws Hw], Hrt as [Hrs Hrt].
    destruct (IHfs Hrest ms Hw Hrt) as [Hn Hb]; fold depths.
    destruct s as [v|arr]; simpl slot_list in Hs.
    + destruct Hws as [_ Hv]; rewrite Forall_singleton in Hs; pose proof (Hs mt Hv Hrs).
      destruct (is_ext v); lia.
    + destruct Hws as (_ & _ & _ & Hall), Hrs as [_ Hrs].
      pose proof (array_height mt arr Hs Hall Hrs); lia.
Qed.
End Roundtrip.
