(* ===== verification/DecodeSafe.v ===== *)
(** * Decoding arbitrary bytes

    Whatever the bytes and whatever the allocator does, decoding terminates
    within the recursion limit, reads only inside the buffer and never moves
    the position backwards.  [UNDEFINED] and [OUTOFFUEL] are the negative
    statuses of the model, so the claim is that the status is not negative. *)

From Stdlib Require Import ZArith Lia.
From stdpp Require Import base list numbers tactics sets.
From S2P Require Import Prelude UaTypes UaValue BinarySize BinaryEncode BinaryDecode BinarySpec EncodeLogic BinaryEncodeCorrect.

(** One step of a chain [let '(r, a, c) := m c in ...] by the lemma [L]. *)
Ltac sstep L :=
  lazymatch goal with
  | |- 0 <= fst (fst (match ?m ?cc with pair _ _ => _ end)) /\ _ =>
      let Hs := fresh "Hs" in let Hf := fresh "Hf" in
      destruct (L cc) as [Hs Hf]; [cbn [pos ddepth set_ddepth set_pos] in *; lia..|];
      let r := fresh "r" in let a := fresh "a" in
      destruct (m cc) as [[r a] ?]; cbn [fst snd] in Hs, Hf;
      destruct Hf as (? & ? & ?)
  end.

(** The same for a byte, keeping that a byte that was read is inside. *)
Ltac sbyte L :=
  lazymatch goal with
  | |- 0 <= fst (fst (match ?m ?cc with pair _ _ => _ end)) /\ _ =>
      let Hs := fresh "Hs" in let Hf := fresh "Hf" in let Hg := fresh "Hg" in
      destruct (L cc) as [[Hs Hf] Hg]; [cbn [pos ddepth] in *; lia..|];
      let r := fresh "r" in let a := fresh "a" in
      destruct (m cc) as [[r a] ?]; cbn [fst snd] in Hs, Hf, Hg;
      destruct Hf as (? & ? & ?)
  end.

Ltac sbad :=
  lazymatch goal with
  | |- 0 <= fst (fst (if ?b then _ else _)) /\ _ => destruct b eqn:?
  end.

Section Safe.
Context {TE : TypeEnv}.
Variable calloc_ok : nat -> Z -> bool.
Variable buf : list Z.

(** A set of descriptions closed under the lookups of the decoder: the rows
    of the type tables. *)
Record closed_types (P : UA_DataType -> Prop) : Prop := mkClosed {
  ct_wf : forall t, P t -> wf_type t /\ 0 <= memSize t;
  ct_member : forall t m, P t -> m ∈ members t -> exists mt, membertype t m = Some mt /\ P mt;
  ct_builtin : forall t, t ∈ builtin_types -> P t;
  ct_generated : forall t, t ∈ generated \/ t ∈ customTypes -> P t /\ builtin t = false
}.

(** Between two contexts: only forward, at most the four bytes of a length
    field beyond the end, and never less deep. *)
Definition fwd (c c' : DCtx) : Prop :=
  pos c <= pos c' /\ (pos c <= zlen buf + 4 -> pos c' <= zlen buf + 4) /\
  ddepth c <= ddepth c'.

Definition dsafe {A} (D : Z) (m : dec A) : Prop :=
  forall c, 0 <= pos c -> D <= ddepth c ->
    0 <= fst (fst (m c)) /\ fwd c (snd (m c)).

Lemma fwd_refl c : fwd c c.
Proof. unfold fwd; lia. Qed.

Lemma fwd_trans c1 c2 c3 : fwd c1 c2 -> fwd c2 c3 -> fwd c1 c3.
Proof. unfold fwd; lia. Qed.

Lemma dsafe_get D n : 0 <= n -> dsafe D (get buf n).
Proof.
  intros Hn c Hp _; unfold get, load; destruct (zlen buf <? pos c + n) eqn:E; zbool;
    [split; [done|apply fwd_refl]|].
  rewrite (proj2 (Z.leb_le _ _)), (proj2 (Z.leb_le _ _)) by lia; simpl.
  split; [done|]; unfold fwd, set_pos; simpl; lia.
Qed.

Lemma dsafe_fmap {A B} D (f : A -> B) (m : dec A) : dsafe D m -> dsafe D (fmapD f m).
Proof.
  intros Hm c Hp Hd; specialize (Hm c Hp Hd); unfold fmapD.
  by destruct (m c) as [[r a] c'].
Qed.

Lemma dsafe_ret {A} D s (a : A) : 0 <= s -> dsafe D (fun c => (s, a, c)).
Proof. intros Hs c _ _; split; [done|apply fwd_refl]. Qed.

Lemma dsafe_when {A} D b (zero : A) (m : dec A) : dsafe D m -> dsafe D (whenD b zero m).
Proof. destruct b; [done|]; intros _; by apply dsafe_ret. Qed.

(** Sequencing. *)
Lemma dsafe_step {A B} D (m : dec A) (k : status -> A -> dec B) :
  dsafe D m -> (forall r a, 0 <= r -> dsafe D (k r a)) ->
  dsafe D (fun c => let '(r, a, c) := m c in k r a c).
Proof.
  intros Hm Hk c Hp Hd; destruct (Hm c Hp Hd) as [Hs Hf].
  destruct (m c) as [[r a] c1]; simpl in *; destruct (Hf) as (Hf1 & _ & Hf3).
  destruct (Hk r a Hs c1) as [Hs2 Hf2]; [lia..|].
  split; [done|]; by eapply fwd_trans.
Qed.

Lemma dsafe_alloc {A} D s (m : bool -> dec A) :
  (forall ok, dsafe D (m ok)) ->
  dsafe D (fun c => let '(ok, c) := calloc calloc_ok s c in m ok c).
Proof.
  intros Hm c Hp Hd; unfold calloc; destruct (calloc_ok (allocs c) s);
    match goal with |- context [m ?b ?c'] =>
      destruct (Hm b c' Hp Hd) as [Hs Hf]; split; [done|]; by eapply fwd_trans; [|exact Hf] end.
Qed.

Lemma dsafe_if {A} D (b : bool) (m1 m2 : dec A) :
  dsafe D m1 -> dsafe D m2 -> dsafe D (if b then m1 else m2).
Proof. by destruct b. Qed.

(** The same for tests on the context or on the results of earlier steps. *)
Lemma dsafe_if_ctx {A} D (b : DCtx -> bool) (m1 m2 : dec A) :
  dsafe D m1 -> dsafe D m2 -> dsafe D (fun c => if b c then m1 c else m2 c).
Proof. intros H1 H2 c; destruct (b c); auto. Qed.

Lemma dsafe_ext {A} D (m m' : dec A) : (forall c, m c = m' c) -> dsafe D m -> dsafe D m'.
Proof. intros E Hm c; rewrite <- E; apply Hm. Qed.

Lemma dsafe_mono {A} D D' (m : dec A) : dsafe D m -> D <= D' -> dsafe D' m.
Proof. intros Hm ? c ? ?; apply Hm; lia. Qed.

(** One level deeper and back. *)
Lemma dsafe_deeper {A} D (m : dec A) :
  dsafe (D + 1) m ->
  dsafe D (fun c => let '(r, a, c) := m (set_ddepth c (ddepth c + 1)) in
                    (r, a, set_ddepth c (ddepth c - 1))).
Proof.
  intros Hm c Hp Hd.
  destruct (Hm (set_ddepth c (ddepth c + 1))) as [Hs Hf]; [done|simpl; lia|].
  destruct (m _) as [[r a] c1]; simpl in *; split; [done|].
  unfold fwd, set_ddepth in *; simpl in *; lia.
Qed.

Ltac safe_leaf :=
  repeat first
    [ apply dsafe_get; lia | apply dsafe_fmap | apply dsafe_when
    | apply dsafe_ret; auto; try lia ].

Lemma dsafe_byte D : dsafe D (Byte_decodeBinary buf).
Proof. unfold Byte_decodeBinary; safe_leaf. Qed.
Lemma dsafe_uint16 D : dsafe D (UInt16_decodeBinary buf).
Proof. unfold UInt16_decodeBinary; safe_leaf. Qed.
Lemma dsafe_uint32 D : dsafe D (UInt32_decodeBinary buf).
Proof. unfold UInt32_decodeBinary; safe_leaf. Qed.
Lemma dsafe_uint64 D : dsafe D (UInt64_decodeBinary buf).
Proof. unfold UInt64_decodeBinary; safe_leaf. Qed.
Lemma dsafe_boolean D : dsafe D (Boolean_decodeBinary buf).
Proof. unfold Boolean_decodeBinary; safe_leaf. Qed.

Lemma dsafe_byte_inside D c : 0 <= pos c -> D <= ddepth c ->
  (0 <= fst (fst (Byte_decodeBinary buf c)) /\ fwd c (snd (Byte_decodeBinary buf c))) /\
  (fst (fst (Byte_decodeBinary buf c)) = GOOD ->
   pos (snd (Byte_decodeBinary buf c)) <= zlen buf /\
   pos c < pos (snd (Byte_decodeBinary buf c))).
Proof.
  intros Hp Hd; split; [by apply (dsafe_byte D)|].
  unfold Byte_decodeBinary, fmapD, get, load; destruct (zlen buf <? pos c + 1) eqn:E; zbool; [done|].
  destr_if; [simpl; lia|done].
Qed.

Lemma dsafe_elems {A} D (m : dec A) n : dsafe D m -> dsafe D (decode_elems m n).
Proof.
  intros Hm; induction n as [|n IH]; [by apply dsafe_ret|].
  apply (dsafe_step D m (fun ret a c => if bad ret then (ret, [], c)
    else let '(ret, l, c) := decode_elems m n c in (ret, a :: l, c))); [done|].
  intros r a Hr; destruct (bad r); [by apply dsafe_ret|].
  apply (dsafe_step D _ (fun ret l c => (ret, a :: l, c))); [done|].
  intros; by apply dsafe_ret.
Qed.

Lemma dsafe_array {A} D (m : dec A) from_mem t :
  0 <= memSize t -> dsafe D m -> dsafe D (Array_decodeBinary calloc_ok buf m from_mem t).
Proof.
  intros Hms Hm; unfold Array_decodeBinary.
  apply (dsafe_step D (UInt32_decodeBinary buf) (fun ret image c => if bad ret then (ret, ArrNull, c) else _));
    [apply dsafe_uint32|].
  intros r image Hr; destruct (bad r); [by apply dsafe_ret|].
  destruct (i32 image <=? 0) eqn:E; zbool; [by apply dsafe_ret|].
  apply dsafe_if_ctx; [by apply dsafe_ret|].
  apply (dsafe_alloc D _ (fun ok c => if negb ok then (BADOUTOFMEMORY, ArrNull, c) else _)).
  intros []; cbn [negb]; [|by apply dsafe_ret].
  destruct (overlayable t).
  - apply (dsafe_step D _ (fun ret mem c => if bad ret then (ret, ArrNull, c) else _));
      [apply dsafe_get; lia|].
    intros r' mem Hr'; destruct (bad r'); by apply dsafe_ret.
  - apply (dsafe_step D _ (fun ret l c => if bad ret then (ret, ArrNull, c) else _));
      [by apply dsafe_elems|].
    intros r' mem Hr'; destruct (bad r'); by apply dsafe_ret.
Qed.

Ltac sdone :=
  cbn [fst snd]; split;
    [rewrite ?Z.lor_nonneg; repeat split; (lia || (vm_compute; congruence))
    |unfold fwd, set_ddepth, set_pos in *; cbn [pos ddepth allocs] in *; lia].

Lemma dsafe_string D : dsafe D (String_decodeBinary calloc_ok buf).
Proof. apply dsafe_array; [done|apply dsafe_byte]. Qed.

Lemma dsafe_guid D : dsafe D (Guid_decodeBinary buf).
Proof.
  intros c Hp Hd; unfold Guid_decodeBinary.
  sstep (dsafe_uint32 D); sstep (dsafe_uint16 D); sstep (dsafe_uint16 D).
  sstep (dsafe_get D 8 ltac:(lia)); sbad; sdone.
Qed.

Lemma dsafe_nodeid_with {A} D (m : dec A) f : dsafe D m -> dsafe D (NodeId_decodeWith buf m f).
Proof.
  intros Hm c Hp Hd; unfold NodeId_decodeWith; sstep (dsafe_uint16 D); sstep Hm; sdone.
Qed.

Lemma dsafe_nodeid D : dsafe D (NodeId_decodeBinary calloc_ok buf).
Proof.
  intros c Hp Hd; unfold NodeId_decodeBinary; sstep (dsafe_byte D); sbad; [sdone|].
  match goal with |- 0 <= fst (fst (NodeId_decodeSwitch _ _ ?e ?c1)) /\ _ =>
    assert (Hsw : dsafe D (NodeId_decodeSwitch calloc_ok buf e));
    [|destruct (Hsw c1) as [Hs' Hf']; [lia..|]; split; [done|];
      unfold fwd in *; lia] end.
  unfold NodeId_decodeSwitch; repeat apply dsafe_if.
  - apply dsafe_fmap, dsafe_byte.
  - intros c' Hp' Hd'; sstep (dsafe_byte D); sstep (dsafe_uint16 D); sdone.
  - apply dsafe_nodeid_with, dsafe_uint32.
  - apply dsafe_nodeid_with, dsafe_string.
  - apply dsafe_nodeid_with, dsafe_guid.
  - apply dsafe_nodeid_with, dsafe_string.
  - by apply dsafe_ret.
Qed.

Lemma dsafe_expandednodeid D : dsafe D (ExpandedNodeId_decodeBinary calloc_ok buf).
Proof.
  intros c Hp Hd; unfold ExpandedNodeId_decodeBinary.
  destruct (zlen buf <=? pos c) eqn:E; zbool; [sdone|].
  unfold load; rewrite (proj2 (Z.leb_le _ _)), (proj2 (Z.leb_le _ _)) by lia; cbn [andb].
  cbv zeta; sstep (dsafe_nodeid D).
  sstep (dsafe_when D (has (le_value (take (Z.to_nat 1) (drop (Z.to_nat (pos c)) buf)))
    UA_EXPANDEDNODEID_NAMESPACEURI_FLAG) ArrNull _ (dsafe_string D)).
  sstep (dsafe_when D (has (le_value (take (Z.to_nat 1) (drop (Z.to_nat (pos c)) buf)))
    UA_EXPANDEDNODEID_SERVERINDEX_FLAG) 0 _ (dsafe_uint32 D)).
  sdone.
Qed.

Lemma dsafe_qualifiedname D : dsafe D (QualifiedName_decodeBinary calloc_ok buf).
Proof.
  intros c Hp Hd; unfold QualifiedName_decodeBinary.
  sstep (dsafe_uint16 D); sstep (dsafe_string D); sdone.
Qed.

Lemma dsafe_localizedtext D : dsafe D (LocalizedText_decodeBinary calloc_ok buf).
Proof.
  intros c Hp Hd; unfold LocalizedText_decodeBinary; sstep (dsafe_byte D).
  sstep (dsafe_when D (has a UA_LOCALIZEDTEXT_ENCODINGMASKTYPE_LOCALE) ArrNull _
    (dsafe_string D)).
  sstep (dsafe_when D (has a UA_LOCALIZEDTEXT_ENCODINGMASKTYPE_TEXT) ArrNull _
    (dsafe_string D)).
  sdone.
Qed.

(** ** Recursion *)

(** Fuel for the levels that are left below depth [D]. *)
Definition levels (D : Z) : Z := Z.max 0 (22 - D).

Lemma dsafe_diagnosticinfo fuel D : levels D + 1 <= Z.of_nat fuel ->
  dsafe D (DiagnosticInfo_decodeBinary calloc_ok buf fuel).
Proof.
  revert D; induction fuel as [|fuel IH]; intros D Hf; [unfold levels in *; lia|].
  intros c Hp Hd; cbn [DiagnosticInfo_decodeBinary]; sstep (dsafe_byte D); sbad; [sdone|].
  cbv zeta; sstep (dsafe_when D (has a 0x01) 0 _ (dsafe_uint32 D)).
  sstep (dsafe_when D (has a 0x02) 0 _ (dsafe_uint32 D)).
  sstep (dsafe_when D (has a 0x04) 0 _ (dsafe_uint32 D)).
  sstep (dsafe_when D (has a 0x08) 0 _ (dsafe_uint32 D)).
  sstep (dsafe_when D (has a 0x10) ArrNull _ (dsafe_string D)).
  sstep (dsafe_when D (has a 0x20) 0 _ (dsafe_uint32 D)).
  sbad; [|sdone].
  unfold calloc; sbad; [sdone|]; unfold recursion_limit, UA_ENCODING_MAX_RECURSION;
    cbn [ddepth].
  sbad; zbool; [sdone|].
  sstep (IH (D + 1) ltac:(unfold levels in *; lia)); sdone.
Qed.

Lemma dsafe_string_copy D st : dsafe D (UA_String_copy calloc_ok st).
Proof.
  intros c Hp Hd; unfold UA_String_copy, calloc; sbad; [sdone|]; sbad; sdone.
Qed.

Lemma dsafe_nodeid_copy D id : dsafe D (UA_NodeId_copy calloc_ok id).
Proof.
  unfold UA_NodeId_copy; destruct (nid_identifier id);
    try (by apply dsafe_ret); apply dsafe_fmap, dsafe_string_copy.
Qed.

(** ** Types with content *)

Variable P : UA_DataType -> Prop.
Hypothesis HP : closed_types P.

(** Only the Boolean row of the builtin types can be found by the id of a
    binary encoding. *)
Lemma find_binary_closed id t :
  UA_findDataTypeByBinaryInternal id customTypes = Some t ->
  P t /\ (t = UA_TYPES_BOOLEAN \/ builtin t = false).
Proof.
  unfold UA_findDataTypeByBinaryInternal; destruct (nid_identifier id) as [i| | | |]; try done.
  set (ns := nid_namespaceIndex id).
  assert (Hb : find_binary UA_TYPES i ns =
    if (i =? 0) && (ns =? 0) then Some UA_TYPES_BOOLEAN else find_binary generated i ns).
  { unfold find_binary, UA_TYPES; clearbody ns; destruct i, ns; reflexivity. }
  assert (Hg : forall l, (forall t, t ∈ l -> P t /\ builtin t = false) ->
    find_binary l i ns = Some t -> P t /\ (t = UA_TYPES_BOOLEAN \/ builtin t = false)).
  { intros l Hl Hf; unfold find_binary in Hf; apply find_some in Hf as [Hin _].
    apply list_elem_of_In in Hin; destruct (Hl t Hin); by split; [|right]. }
  rewrite Hb; destruct ((i =? 0) && (ns =? 0)).
  - intros [= <-]; split; [|by left]; apply (ct_builtin P HP); unfold builtin_types; set_solver.
  - destruct (find_binary generated i ns) as [t'|] eqn:Eg.
    + intros [= ->]; eapply Hg; [|exact Eg]; intros; apply (ct_generated P HP); by left.
    + destruct (ns =? 0); [done|]; apply Hg; intros; apply (ct_generated P HP); by right.
Qed.

Section Rec.
Variable rec : UA_DataType -> dec UA_Value.
Variable D : Z.

Definition found (t : UA_DataType) : Prop :=
  P t /\ (t = UA_TYPES_BOOLEAN \/ builtin t = false \/ t = UA_TYPES_EXTENSIONOBJECT).

Lemma dsafe_extensionobject :
  (forall t, P t -> t = UA_TYPES_BOOLEAN \/ builtin t = false -> dsafe D (rec t)) ->
  dsafe D (ExtensionObject_decodeBinary calloc_ok buf rec).
Proof.
  intros Hrec c Hp Hd; unfold ExtensionObject_decodeBinary; cbv zeta.
  sstep (dsafe_nodeid D); sbyte (dsafe_byte_inside D); sbad; [sdone|].
  match goal with H : bad _ = false |- _ => apply bad_false, lor_good in H as [-> ->] end.
  specialize (Hg eq_refl); sbad; [|sbad; [sdone|]; sbad; [|sdone]].
  - unfold ExtensionObject_decodeBinaryContent.
    destruct (UA_findDataTypeByBinaryInternal a customTypes) as [t|] eqn:Ef.
    + destruct (find_binary_closed _ _ Ef) as [HPt Hk].
      unfold calloc; sbad; [sdone|]; unfold fmapD; sstep (Hrec t HPt Hk); sdone.
    + sstep (dsafe_nodeid_copy D a); unfold fmapD; sstep (dsafe_string D); sdone.
  - unfold fmapD; sstep (dsafe_string D); sdone.
Qed.

Lemma dsafe_unwrap :
  (forall t, found t -> dsafe D (rec t)) ->
  dsafe D (Variant_decodeBinaryUnwrapExtensionObject calloc_ok buf rec).
Proof.
  intros Hrec c Hp Hd; unfold Variant_decodeBinaryUnwrapExtensionObject; cbv zeta.
  sstep (dsafe_nodeid D); sbad; [sdone|]; sbyte (dsafe_byte_inside D); sbad; [sdone|].
  match goal with H : bad r0 = false |- _ => apply bad_false in H as -> end.
  specialize (Hg eq_refl); match goal with |- context [match ?x with Some _ => _ | None => _ end] =>
    destruct x as [t|] eqn:Ef end.
  - destr_if; [|done]; destruct (find_binary_closed _ _ Ef) as [HPt Hk].
    unfold calloc; sbad; [sdone|]; unfold fmapD.
    sstep (Hrec t ltac:(unfold found; tauto)); sdone.
  - unfold calloc; sbad; [sdone|]; unfold fmapD.
    sstep (Hrec UA_TYPES_EXTENSIONOBJECT
      ltac:(split; [apply (ct_builtin P HP); unfold builtin_types; set_solver|tauto])); sdone.
Qed.
End Rec.

(** A variant that was decoded took at least its encoding byte. *)
Lemma variant_progress rec from D c :
  (D <= UA_ENCODING_MAX_RECURSION -> forall t, P t -> dsafe (D + 1) (rec t)) ->
  0 <= pos c -> D <= ddepth c ->
  let x := Variant_decodeBinary calloc_ok buf rec from c in
  0 <= fst (fst x) /\ fwd c (snd x) /\ (fst (fst x) = GOOD -> pos c < pos (snd x)).
Proof.
  intros Hrec Hp Hd; unfold Variant_decodeBinary, recursion_limit; cbv zeta.
  sbyte (dsafe_byte_inside D); sbad; [apply bad_true in Heqb; sdone|].
  apply bad_false in Heqb; specialize (Hg Heqb); sbad; [sdone|]; sbad; [sdone|]; sbad; [sdone|].
  sbad; zbool; [sdone|].
  set (i := u64 _) in *.
  assert (Hi : 0 <= i < 25) by (unfold i, u64 in *; simpl in *; split;
    [apply Z.mod_pos_bound|]; lia).
  destruct (lookup_lt_is_Some_2 builtin_types (Z.to_nat i)) as [t Ht]; [simpl; lia|].
  assert (UA_TYPES !! Z.to_nat i = Some t) as -> by (by apply lookup_app_l_Some).
  assert (HPt : P t) by (by apply (ct_builtin P HP), (list_elem_of_lookup_2 _ _ _ Ht)).
  specialize (Hrec ltac:(lia)); unfold Variant_decodeContent; sbad.
  - sstep (dsafe_array (D + 1) (rec t) (from t) t (proj2 (ct_wf P HP t HPt)) (Hrec t HPt)).
    sstep (dsafe_when (D + 1) (has a UA_VARIANT_ENCODINGMASKTYPE_DIMENSIONS) ArrNull _
      (dsafe_array (D + 1) _ le_value UA_TYPES_INT32 ltac:(done) (dsafe_uint32 (D + 1)))).
    sdone.
  - sbad.
    + unfold calloc; sbad; [sdone|]; sstep (Hrec t HPt); sdone.
    + sstep (dsafe_unwrap rec (D + 1) (fun t Ht => Hrec t (proj1 Ht))); sdone.
Qed.

Lemma dsafe_variant rec from D :
  (D <= UA_ENCODING_MAX_RECURSION -> forall t, P t -> dsafe (D + 1) (rec t)) ->
  dsafe D (Variant_decodeBinary calloc_ok buf rec from).
Proof. intros Hrec c Hp Hd; split; by apply (variant_progress rec from D c). Qed.

Lemma dsafe_datavalue rec D :
  (D <= UA_ENCODING_MAX_RECURSION -> dsafe (D + 1) (rec UA_TYPES_VARIANT)) ->
  dsafe D (DataValue_decodeBinary buf rec).
Proof.
  intros Hrec c Hp Hd; unfold DataValue_decodeBinary, recursion_limit; cbv zeta.
  sstep (dsafe_byte D); sbad; [sdone|]; sbad; zbool; [sdone|]; specialize (Hrec ltac:(lia)).
  sstep (dsafe_when (D + 1) (has a 0x01) UA_Variant_null _ Hrec).
  sstep (dsafe_when (D + 1) (has a 0x02) 0 _ (dsafe_uint32 (D + 1))).
  sstep (dsafe_when (D + 1) (has a 0x04) 0 _ (dsafe_uint64 (D + 1))).
  sstep (dsafe_when (D + 1) (has a 0x10) 0 _ (dsafe_uint16 (D + 1))).
  sstep (dsafe_when (D + 1) (has a 0x08) 0 _ (dsafe_uint64 (D + 1))).
  sstep (dsafe_when (D + 1) (has a 0x20) 0 _ (dsafe_uint16 (D + 1))).
  sdone.
Qed.

Lemma dsafe_members rec from D t ms :
  (forall t, P t -> dsafe D (rec t)) -> P t -> (forall m, m ∈ ms -> m ∈ members t) ->
  dsafe D (decode_members calloc_ok buf rec from t ms).
Proof.
  intros Hrec HPt; induction ms as [|m ms IH]; intros Hms; [by apply dsafe_ret|].
  destruct (ct_member P HP t m HPt) as (mt & Em & HPm); [apply Hms; set_solver|].
  intros c Hp Hd; cbn [decode_members]; rewrite Em.
  assert (Hs : dsafe D (fun c => if isArray m
    then fmapD SArray (Array_decodeBinary calloc_ok buf (rec mt) (from mt) mt) c
    else fmapD SScalar (rec mt) c)).
  { destruct (isArray m); apply dsafe_fmap; [|by apply Hrec].
    apply dsafe_array; [apply (ct_wf P HP mt HPm)|by apply Hrec]. }
  destruct (Hs c Hp Hd) as [Hs1 Hf1].
  destruct (if isArray m then _ else _) as [[r s] c1]; cbn [fst snd] in Hs1, Hf1.
  destruct Hf1 as (? & ? & ?); sbad; [sdone|].
  sstep (IH ltac:(intros; apply Hms; set_solver)); sdone.
Qed.

Lemma dsafe_decodeMembers {A} D (m : dec A) zero :
  (D <= UA_ENCODING_MAX_RECURSION -> dsafe (D + 1) m) -> dsafe D (decodeMembers m zero).
Proof.
  intros Hm c Hp Hd; unfold decodeMembers, recursion_limit; sbad; zbool; [sdone|].
  specialize (Hm ltac:(lia)); sstep Hm; sdone.
Qed.

(** Fuel of two per level is enough; one more for an ExtensionObject, which
    does not count as a level itself. *)
Lemma decodeBinary_safe fuel : forall D t, P t ->
  2 * levels D + (if builtin t then 2 else 1) <= Z.of_nat fuel ->
  dsafe D (decodeBinary calloc_ok buf fuel t).
Proof.
  induction fuel as [|fuel IH]; intros D t HPt Hf;
    [unfold levels in *; destruct (builtin t); lia|].
  assert (Hdeep : D <= UA_ENCODING_MAX_RECURSION -> forall t, P t ->
    dsafe (D + 1) (decodeBinary calloc_ok buf fuel t)).
  { intros HD t' HPt'; apply IH; [done|].
    unfold UA_ENCODING_MAX_RECURSION, levels in *; repeat destr_if; lia. }
  destruct (ct_wf P HP t HPt) as [Hwt _].
  assert (Hent : exists e, entry t = Some e /\ (e <> EInternal -> builtin t = true)).
  { destruct (builtin t) eqn:Hb; [|by exists EInternal; rewrite entry_nonbuiltin].
    pose proof (wf_type_builtin t Hwt Hb) as Hin.
    pose proof (proj1 (Forall_forall _ _) builtin_rows_width t Hin) as Hrow; simpl in Hrow.
    destruct (entry t) as [e|]; [by exists e|done]. }
  destruct Hent as (e & He & Hext).
  intros c Hp Hd; cbn [decodeBinary]; rewrite He; revert c Hp Hd.
  change (dsafe D (fun c => match e with
    | EBoolean => fmapD VInt (Boolean_decodeBinary buf) c
    | EByte => fmapD VInt (Byte_decodeBinary buf) c
    | EUInt16 => fmapD VInt (UInt16_decodeBinary buf) c
    | EUInt32 => fmapD VInt (UInt32_decodeBinary buf) c
    | EUInt64 => fmapD VInt (UInt64_decodeBinary buf) c
    | EString => fmapD VString (String_decodeBinary calloc_ok buf) c
    | EGuid => fmapD VGuid (Guid_decodeBinary buf) c
    | ENodeId => fmapD VNodeId (NodeId_decodeBinary calloc_ok buf) c
    | EExpandedNodeId => fmapD VExpandedNodeId (ExpandedNodeId_decodeBinary calloc_ok buf) c
    | EQualifiedName => fmapD VQualifiedName (QualifiedName_decodeBinary calloc_ok buf) c
    | ELocalizedText => fmapD VLocalizedText (LocalizedText_decodeBinary calloc_ok buf) c
    | EExtensionObject =>
        ExtensionObject_decodeBinary calloc_ok buf (decodeBinary calloc_ok buf fuel) c
    | EDataValue => DataValue_decodeBinary buf (decodeBinary calloc_ok buf fuel) c
    | EVariant => Variant_decodeBinary calloc_ok buf (decodeBinary calloc_ok buf fuel)
                    (from_image image_fuel) c
    | EDiagnosticInfo =>
        fmapD VDiagnosticInfo (DiagnosticInfo_decodeBinary calloc_ok buf fuel) c
    | EInternal => fmapD VStruct (decodeMembers (decode_members calloc_ok buf
        (decodeBinary calloc_ok buf fuel) (from_image image_fuel) t (members t)) []) c
    end)).
  destruct e; try apply dsafe_fmap.
  - apply dsafe_boolean.
  - apply dsafe_byte.
  - apply dsafe_uint16.
  - apply dsafe_uint32.
  - apply dsafe_uint64.
  - apply dsafe_string.
  - apply dsafe_guid.
  - apply dsafe_nodeid.
  - apply dsafe_expandednodeid.
  - apply dsafe_qualifiedname.
  - apply dsafe_localizedtext.
  - rewrite Hext in Hf by done; apply dsafe_extensionobject.
    intros t' HPt' [->|Hb']; [|apply IH; [done|]; unfold levels in *; rewrite Hb'; lia].
    destruct fuel as [|fuel']; [unfold levels in *; lia|].
    apply (dsafe_fmap D VInt), dsafe_boolean.
  - apply dsafe_datavalue; intros; apply Hdeep; [done|].
    apply (ct_builtin P HP); unfold builtin_types; set_solver.
  - apply dsafe_variant; auto.
  - rewrite Hext in Hf by done; apply dsafe_diagnosticinfo; unfold levels in *; lia.
  - apply dsafe_decodeMembers; intros; apply dsafe_members; auto.
Qed.

Lemma decodeBinaryInternal_safe t : P t ->
  dsafe 0 (decodeBinaryInternal calloc_ok buf decode_fuel t).
Proof.
  intros HPt; unfold decodeBinaryInternal, decode_fuel.
  destruct (builtin t) eqn:Hb; [apply dsafe_decodeMembers; intros _|];
    apply decodeBinary_safe; try done; rewrite Hb; vm_compute; congruence.
Qed.
End Safe.
