(* ===== verification/Codec.v ===== *)
(** * The binary codec: main theorems

    The statements about [UA_encodeBinary], [UA_decodeBinary] and
    [UA_calcSizeBinary] as their callers use them, with concrete instances,
    and the cases in which the functions disagree with each other. *)

From Stdlib Require Import ZArith Lia.
From stdpp Require Import base list numbers tactics sets.
From S2P Require Import Prelude UaTypes UaValue BinarySize BinaryEncode BinaryDecode BinarySpec EncodeLogic BinaryEncodeCorrect BinarySizeCorrect DecodeLogic BinaryRoundtrip DecodeSafe.

(** Ground well-formedness goals: unfold to conjunctions and evaluate the
    comparisons. *)
Ltac ground :=
  lazymatch goal with
  | |- True => exact I
  | |- (_ <= _)%Z => vm_compute; congruence
  | |- (_ < _)%Z => vm_compute; congruence
  | |- (_ <= _ <= _)%Z => split; ground
  | |- (_ <= _ < _)%Z => split; ground
  | |- (_ < _ <= _)%Z => split; ground
  | |- _ = _ => vm_compute; reflexivity
  | |- _ <> _ => vm_compute; congruence
  | |- Forall _ [] => constructor
  | |- Forall _ (_ :: _) => constructor; ground
  | |- _ /\ _ => split; ground
  | |- _ \/ _ => first [left; ground | right; ground]
  | |- _ -> _ => let H := fresh in intros H; first [ground | vm_compute in H; congruence]
  | |- Forall _ ?l => let l' := eval vm_compute in l in change l with l'; ground
  | |- _ => progress hnf; ground
  end.

(** ** Example descriptions and values *)

Module Example.
Definition member (i pad : Z) (arr : bool) := mkMember i pad true arr.

(** [UA_Argument] of namespace zero: name, dataType, valueRank,
    arrayDimensions and description. *)
Definition Argument : UA_DataType :=
  mkDataType (mkNodeId 0 (NumericId 296)) 96 25 false false false 298
    [member 11 0 false; member 16 0 false; member 5 0 false; member 6 4 true; member 20 0 false].

(** An enumeration: an alias of Int32. *)
Definition MessageSecurityMode : UA_DataType :=
  mkDataType (mkNodeId 0 (NumericId 302)) 4 26 false true true 0 [member 5 0 false].

(** A structure without members. *)
Definition MonitoringFilter : UA_DataType :=
  mkDataType (mkNodeId 0 (NumericId 719)) 0 27 false true true 721 [].

#[export] Instance env : TypeEnv := {|
  generated := [Argument; MessageSecurityMode; MonitoringFilter];
  typelist := fun _ => [];
  customTypes := []
|}.

Definition argument : UA_Value :=
  VStruct [SScalar (VString (ArrData [105; 110]));
           SScalar (VNodeId (mkNodeId 1 (NumericId 300)));
           SScalar (VInt 1);
           SArray (ArrData [VInt 2; VInt 3]);
           SScalar (VLocalizedText (mkLocalizedText (ArrData [101; 110]) ArrNull))].

Definition datavalue : UA_Value :=
  VDataValue (mkDataValueHeader true true false false true false 0x80010000 0 77 0 0)
             (VVariant (Some Argument) (SScalar argument) ArrNull).

(** A callback that keeps the chunks and hands out buffers of 96 bytes. *)
Definition sink : exchangeEncodeBuffer (list (list Z)) :=
  fun h o _ => (GOOD, h ++ [o], Some 96).

Lemma sink_ok : callback_ok False (@concat Z) (fun _ _ => True) (Some sink) 96.
Proof.
  intros h o r _ _; simpl; split; [done|].
  left; split; [done|]; exists 96; split; [done|]; split; [done|].
  rewrite concat_app; simpl; by rewrite app_nil_r.
Qed.

Lemma wf_datavalue : wf 96 datavalue UA_TYPES_DATAVALUE.
Proof. ground. Qed.

Lemma rt_datavalue : rt datavalue UA_TYPES_DATAVALUE.
Proof. ground. Qed.
End Example.

#[local] Existing Instance Example.env.

(** ** Encoding *)

Section Encoding.
Context {TE : TypeEnv} {H : Type}.
Variable U : Prop.
Variable sent : H -> list Z.
Variable inv : H -> Z -> Prop.
Variable cb : option (exchangeEncodeBuffer H).
Variable R : Z.

Lemma UA_encodeBinary_outcome v type h room0 :
  MAX_ATOM <= R -> callback_ok U sent inv cb R -> wf R v type ->
  cb = None \/ has_qname v = false ->
  nest_internal type (nest v type) <= UA_ENCODING_MAX_RECURSION + 1 ->
  0 <= room0 -> inv h room0 ->
  frame inv (mkCtx [] room0 0 h 0%nat false) (snd (UA_encodeBinary cb v type h room0)) /\
  outcome U sent cb 0 (mkCtx [] room0 0 h 0%nat false) (bytes_of v type)
    (fst (UA_encodeBinary cb v type h room0)) (snd (UA_encodeBinary cb v type h room0)).
Proof.
  intros HR Hcb Hw Hq Hn Hr Hi; unfold UA_encodeBinary.
  by apply (ok_value_internal U sent inv cb R HR Hcb v type); [apply encodeBinary_ok with (R := R)|..].
Qed.
End Encoding.

(** A value that fits into the buffer is encoded there completely: the
    status is GOOD, the buffer holds exactly the bytes of the value, the
    position has advanced by their number and the callback was not used. *)
Theorem encode_fits {TE : TypeEnv} {H} U (sent : H -> list Z) (inv : H -> Z -> Prop) cb R v type h room0 :
  MAX_ATOM <= R -> callback_ok U sent inv cb R -> wf R v type ->
  cb = None \/ has_qname v = false ->
  nest_internal type (nest v type) <= UA_ENCODING_MAX_RECURSION + 1 ->
  zlen (bytes_of v type) <= room0 -> inv h room0 ->
  UA_encodeBinary cb v type h room0 =
  (GOOD, mkCtx (bytes_of v type) (room0 - zlen (bytes_of v type)) 0 h 0%nat false).
Proof.
  intros HR Hcb Hw Hq Hn Hfit Hi; pose proof (zlen_nonneg (bytes_of v type)).
  destruct (UA_encodeBinary_outcome U sent inv cb R v type h room0) as [(F1 & F2 & F3) O]; try done; [lia|].
  destruct (UA_encodeBinary cb v type h room0) as [s [o r d h' g st]]; simpl in *.
  destruct O as [-> [T S Fi G N Wo]| -> ? ? P|? ?]; simpl in *; [|lia..].
  specialize (Fi Hfit); destruct (S Fi) as [-> ->]; subst.
  unfold total in T; simpl in T; rewrite app_nil_r in T; by apply app_inv_head in T as ->.
Qed.

Lemma encode_fits_witness :
  UA_encodeBinary (Some Example.sink) Example.datavalue UA_TYPES_DATAVALUE [] 100 =
  (GOOD, mkCtx (bytes_of Example.datavalue UA_TYPES_DATAVALUE) 50 0 [] 0%nat false).
Proof.
  refine (eq_trans (encode_fits False (@concat Z) (fun _ _ => True) (Some Example.sink) 96 Example.datavalue
    UA_TYPES_DATAVALUE [] 100 _ Example.sink_ok Example.wf_datavalue _ _ _ I) _).
  - vm_compute; congruence.
  - right; reflexivity.
  - vm_compute; congruence.
  - vm_compute; congruence.
  - reflexivity.
Defined.

(** C1: Chunking is transparent for well-formed values within the limit of
    nesting that hold no QualifiedName: with a callback that takes over full
    buffers and hands out new ones of at least [MAX_ATOM] bytes, the bytes sent
    followed by the bytes in the current buffer are the bytes of the value,
    whatever the size of the first buffer; otherwise the status is an error
    other than BADENCODINGLIMITSEXCEEDED and the value did not fit into the
    first buffer.  No saved position is restored into a buffer that was
    exchanged, and the loops end.  The same holds without a callback for all
    well-formed values; with one, a QualifiedName can break it
    ([qualifiedname_restores_exchanged_buffer]). *)
Theorem encode_chunks {TE : TypeEnv} {H} U (sent : H -> list Z) (inv : H -> Z -> Prop) cb R v type h room0 :
  MAX_ATOM <= R -> callback_ok U sent inv cb R -> wf R v type ->
  cb = None \/ has_qname v = false ->
  nest_internal type (nest v type) <= UA_ENCODING_MAX_RECURSION + 1 ->
  0 <= room0 -> inv h room0 ->
  let '(s, c) := UA_encodeBinary cb v type h room0 in
  stale c = false /\ depth c = 0 /\
  (s = GOOD /\ sent (handle c) ++ out c = sent h ++ bytes_of v type \/
   hard U s /\ room0 < zlen (bytes_of v type)).
Proof.
  intros HR Hcb Hw Hq Hn Hr Hi.
  destruct (UA_encodeBinary_outcome U sent inv cb R v type h room0) as [(F1 & F2 & F3) O]; try done.
  destruct (UA_encodeBinary cb v type h room0) as [s c]; simpl in *.
  split; [done|]; split; [done|]; destruct O as [-> [T S Fi G N Wo]| -> ? ? P|? ?]; simpl in *;
    [left|lia|by right].
  split; [done|]; unfold total in T; simpl in T; by rewrite app_nil_r in T.
Qed.

Lemma encode_chunks_witness :
  let '(s, c) := UA_encodeBinary (Some Example.sink) Example.datavalue UA_TYPES_DATAVALUE [] 7 in
  length (handle c) = 1%nat /\ stale c = false /\ s = GOOD.
Proof.
  pose proof (encode_chunks False (@concat Z) (fun _ _ => True) (Some Example.sink) 96 Example.datavalue
    UA_TYPES_DATAVALUE [] 7 ltac:(vm_compute; congruence) Example.sink_ok Example.wf_datavalue
    ltac:(right; reflexivity) ltac:(vm_compute; congruence) ltac:(lia) I) as W.
  destruct (UA_encodeBinary (Some Example.sink) Example.datavalue UA_TYPES_DATAVALUE [] 7)
    as [s c] eqn:E; destruct W as (Hs & _ & _); vm_compute in E; injection E as <- <-.
  repeat split.
Defined.

(** Without callback nothing is cut off: when the value does not fit into
    the buffer the status is an error, so a GOOD status means that all bytes
    are there. *)
Theorem encode_never_truncates `{TypeEnv} v type room0 :
  wf 65535 v type -> nest_internal type (nest v type) <= UA_ENCODING_MAX_RECURSION + 1 ->
  0 <= room0 < zlen (bytes_of v type) ->
  hard False (fst (UA_encodeBinary (H := unit) None v type tt room0)).
Proof.
  intros Hw Hn Hr.
  destruct (UA_encodeBinary_outcome False (fun _ : unit => []) (fun _ _ => True) None 65535 v type tt room0)
    as [[[F1 _] _] O]; try done; [by left|lia|].
  destruct (UA_encodeBinary None v type tt room0) as [s c]; simpl in *.
  destruct O as [-> [T S Fi G N Wo]| -> ? ? P|? ?]; simpl in *; [|lia|done].
  destruct (S (N eq_refl)); lia.
Qed.

Lemma encode_never_truncates_witness :
  hard False (fst (UA_encodeBinary (H := unit) None (VString (ArrData [1; 2; 3])) UA_TYPES_STRING tt 6)).
Proof.
  apply encode_never_truncates; [ground|vm_compute; congruence|vm_compute; split; congruence].
Defined.

(** ** Size *)

(** C28: [UA_calcSizeBinary] predicts the encoder.  For a well-formed value
    that holds no variant of an alias type ([sized]; for those the two differ,
    [calcSize_alias_mismatch]) and is within the limit of nesting, encoding
    without a callback succeeds exactly if the buffer has at least the
    calculated size, and what it then has written has exactly that size. *)
Theorem calcSize_is_encoded_length `{TypeEnv} R v type room0 :
  MAX_ATOM <= R -> wf R v type -> sized v type ->
  nest_internal type (nest v type) <= UA_ENCODING_MAX_RECURSION + 1 -> 0 <= room0 ->
  let '(s, c) := UA_encodeBinary (H := unit) None v type tt room0 in
  (s = GOOD <-> UA_calcSizeBinary v type <= room0) /\
  (s = GOOD -> zlen (out c) = UA_calcSizeBinary v type /\ room c = room0 - UA_calcSizeBinary v type).
Proof.
  intros HR Hw Hs Hn Hr.
  rewrite (calcSizeBinary_correct R v type Hw Hs : UA_calcSizeBinary v type = _).
  destruct (UA_encodeBinary_outcome False (fun _ : unit => []) (fun _ _ => True) None R v type tt room0)
    as [[[F1 _] _] O]; try done; [by left|].
  destruct (UA_encodeBinary None v type tt room0) as [s c]; simpl in *.
  destruct O as [-> [T S Fi G N Wo]|? H0 ?|Hh Hr0]; simpl in *; [|lia|].
  - destruct (S (N eq_refl)) as [_ Hroom]; unfold total in T; simpl in T.
    rewrite T; split; [split; [lia|done]|]; intros _; split; [done|lia].
  - split; [split; [intros ->; by destruct (hard_not_good _ _ Hh)|lia]|].
    intros ->; by destruct (hard_not_good _ _ Hh).
Qed.

Lemma calcSize_is_encoded_length_witness :
  UA_calcSizeBinary Example.datavalue UA_TYPES_DATAVALUE = 50 /\
  fst (UA_encodeBinary (H := unit) None Example.datavalue UA_TYPES_DATAVALUE tt 50) = GOOD /\
  fst (UA_encodeBinary (H := unit) None Example.datavalue UA_TYPES_DATAVALUE tt 49) <> GOOD.
Proof.
  pose proof (fun room Hr => calcSize_is_encoded_length 96 Example.datavalue UA_TYPES_DATAVALUE room
    ltac:(vm_compute; congruence) Example.wf_datavalue ltac:(vm_compute; tauto)
    ltac:(vm_compute; congruence) Hr) as W.
  pose proof (W 50 ltac:(lia)) as W50; pose proof (W 49 ltac:(lia)) as W49; clear W.
  destruct (UA_encodeBinary None Example.datavalue UA_TYPES_DATAVALUE tt 50) as [s50 c50].
  destruct (UA_encodeBinary None Example.datavalue UA_TYPES_DATAVALUE tt 49) as [s49 c49].
  split; [reflexivity|]; split; [apply W50; vm_compute; congruence|].
  cbn [fst]; rewrite (proj1 W49); vm_compute; congruence.
Defined.

(** ** Decoding *)

Lemma decode_bytes `{TypeEnv} calloc_ok R v type pre post :
  (forall n s, calloc_ok n s = true) -> wf R v type -> rt v type ->
  nest_internal type (dnest v type) <= UA_ENCODING_MAX_RECURSION + 1 ->
  UA_decodeBinary calloc_ok (pre ++ bytes_of v type ++ post) (zlen pre) type =
  (GOOD, Some v, zlen pre + zlen (bytes_of v type)).
Proof.
  intros Ha Hw Hrt Hn; set (buf := pre ++ _ ++ _).
  assert (Hd : dnest v type <= 21)
    by (unfold nest_internal, UA_ENCODING_MAX_RECURSION in Hn; destruct (builtin type); lia).
  assert (Hh : (height v <= decode_fuel)%nat).
  { pose proof (height_bound R v type Hw Hrt); unfold decode_fuel; destruct (is_ext v); lia. }
  assert (Hreads : reads buf (zlen pre) (bytes_of v type)).
  { split; [apply zlen_nonneg|]; exists post; split; [apply drop_zlen_app|].
    unfold buf; rewrite zlen_app; pose proof (zlen_nonneg (bytes_of v type ++ post)); lia. }
  assert (Hdok : dok buf (nest_internal type (dnest v type))
    (decodeBinaryInternal calloc_ok buf decode_fuel type) (bytes_of v type) v).
  { pose proof (decodeBinary_ok calloc_ok buf Ha R v type decode_fuel Hw Hrt Hh) as Hv.
    unfold decodeBinaryInternal, nest_internal; destruct (builtin type); [|done].
    apply dok_deeper; [apply dnest_nonneg|done]. }
  unfold UA_decodeBinary.
  destruct (Hdok (mkDCtx (zlen pre) 0 0%nat) Hreads Hn) as [k ->]; done.
Qed.

(** C2: Decoding inverts encoding on the values that can come back ([rt]: no
    inner diagnostic info, canonical headers and dimensions, arrays that pass
    the length filter of the decoder, contents of known types), without
    QualifiedNames if buffers are exchanged, within the limit of nesting, and
    with memory to decode: a value that fits is encoded with GOOD, and whenever
    the encoder ends with GOOD, decoding the bytes that were sent and written,
    anywhere in a buffer, yields the value and stops right behind them.  What
    [rt] leaves out does fail: [diagnosticinfo_inner_lost],
    [array_filter_rejects_encoded]. *)
Theorem decode_encode {TE : TypeEnv} {H} U (sent : H -> list Z) (inv : H -> Z -> Prop) cb R calloc_ok v type h room0 pre post :
  MAX_ATOM <= R -> callback_ok U sent inv cb R -> (forall n s, calloc_ok n s = true) ->
  wf R v type -> rt v type -> cb = None \/ has_qname v = false ->
  nest_internal type (nest v type) <= UA_ENCODING_MAX_RECURSION + 1 ->
  nest_internal type (dnest v type) <= UA_ENCODING_MAX_RECURSION + 1 ->
  0 <= room0 -> inv h room0 -> sent h = [] ->
  let '(s, c) := UA_encodeBinary cb v type h room0 in
  (zlen (bytes_of v type) <= room0 -> s = GOOD) /\
  (s = GOOD ->
   UA_decodeBinary calloc_ok (pre ++ (sent (handle c) ++ out c) ++ post) (zlen pre) type =
   (GOOD, Some v, zlen pre + zlen (sent (handle c) ++ out c))).
Proof.
  intros HR Hcb Ha Hw Hrt Hq Hn Hdn Hr Hi Hs0.
  destruct (UA_encodeBinary_outcome U sent inv cb R v type h room0) as [(F1 & F2 & F3) O]; try done.
  destruct (UA_encodeBinary cb v type h room0) as [s c]; simpl in *.
  destruct O as [-> [T S Fi G N Wo]| -> ? ? P|Hh ?]; simpl in *; [|lia|].
  - split; [done|]; intros _; unfold total in T; simpl in T.
    rewrite T, Hs0; by apply (decode_bytes calloc_ok R).
  - split; [lia|]; intros ->; by destruct (hard_not_good _ _ Hh).
Qed.

Lemma decode_encode_witness :
  let '(s, c) := UA_encodeBinary (Some Example.sink) Example.datavalue UA_TYPES_DATAVALUE [] 7 in
  UA_decodeBinary (fun _ _ => true) ([9; 9] ++ (concat (handle c) ++ out c) ++ [8]) 2
    UA_TYPES_DATAVALUE = (GOOD, Some Example.datavalue, 2 + 50).
Proof.
  pose proof (decode_encode False (@concat Z) (fun _ _ => True) (Some Example.sink) 96 (fun _ _ => true) Example.datavalue
    UA_TYPES_DATAVALUE [] 7 [9; 9] [8] ltac:(vm_compute; congruence) Example.sink_ok
    ltac:(reflexivity) Example.wf_datavalue Example.rt_datavalue ltac:(right; reflexivity)
    ltac:(vm_compute; congruence) ltac:(vm_compute; congruence) ltac:(lia) I eq_refl) as W.
  destruct (UA_encodeBinary (Some Example.sink) Example.datavalue UA_TYPES_DATAVALUE [] 7)
    as [s c] eqn:E; vm_compute in E; injection E as <- <-.
  exact (proj2 W eq_refl).
Defined.

(** C11: Decoding arbitrary bytes is safe: for every input, type of the tables
    and behaviour of the allocator it ends within the fuel, reads no byte
    outside of the buffer, and on success the offset has not decreased and is
    at most four bytes beyond the end. *)
Theorem decode_safe `{TypeEnv} calloc_ok buf P type offset :
  closed_types P -> P type -> 0 <= offset <= zlen buf ->
  let '(s, v, offset') := UA_decodeBinary calloc_ok buf offset type in
  s <> UNDEFINED /\ s <> OUTOFFUEL /\ (v <> None <-> s = GOOD) /\
  offset <= offset' <= zlen buf + 4.
Proof.
  intros HP HPt Ho; unfold UA_decodeBinary.
  destruct (decodeBinaryInternal_safe calloc_ok buf P HP type HPt (mkDCtx offset 0 0%nat))
    as [Hs (Hf1 & Hf2 & _)]; [simpl; lia..|].
  destruct (decodeBinaryInternal _ _ _ _ _) as [[s v] c]; simpl in *.
  destruct (bad s) eqn:E; [apply bad_true in E|apply bad_false in E];
    repeat split; try done; try (unfold UNDEFINED, OUTOFFUEL; lia); by intros.
Qed.

Lemma Example_closed :
  closed_types (fun t => t ∈ @UA_TYPES Example.env).
Proof.
  split.
  - intros t Ht; repeat (apply elem_of_cons in Ht as [->|Ht]); try by apply elem_of_nil in Ht.
    all: split; [intros Hb; try done|vm_compute; congruence].
  - intros t m Ht; repeat (apply elem_of_cons in Ht as [->|Ht]); try by apply elem_of_nil in Ht.
    all: intros Hm; simpl in Hm; repeat (apply elem_of_cons in Hm as [->|Hm]);
      try (by apply elem_of_nil in Hm);
      (eexists; split; [reflexivity|unfold UA_TYPES, builtin_types; simpl; set_solver]).
  - intros t Ht; unfold UA_TYPES; set_solver.
  - intros t [Ht|Ht]; [|by apply elem_of_nil in Ht].
    split; [unfold UA_TYPES; set_solver|].
    repeat (apply elem_of_cons in Ht as [->|Ht]); try done; by apply elem_of_nil in Ht.
Qed.

Lemma decode_safe_witness :
  let '(s, v, o) := UA_decodeBinary (fun _ _ => false) [1; 255; 7] 0 UA_TYPES_DATAVALUE in
  s = BADDECODINGERROR /\ o = 0.
Proof.
  pose proof (decode_safe (fun _ _ => false) [1; 255; 7]
    (fun t => t ∈ @UA_TYPES Example.env) UA_TYPES_DATAVALUE 0 Example_closed
    ltac:(unfold UA_TYPES, builtin_types; simpl; set_solver)
    ltac:(vm_compute; split; congruence)) as W.
  destruct (UA_decodeBinary (fun _ _ => false) [1; 255; 7] 0 UA_TYPES_DATAVALUE)
    as [[s v] o] eqn:E; vm_compute in E; injection E as <- <- <-; by split.
Defined.

(** ** Cases in which the functions disagree *)

Definition nested_diagnosticinfo : UA_DiagnosticInfo :=
  mkDiagnosticInfo false false false false false false true 0 0 0 0 ArrNull 0
    (Some (mkDiagnosticInfo true false false false false false false 5 0 0 0 ArrNull 0 None)).

(** A DiagnosticInfo with an inner DiagnosticInfo is encoded with status
    GOOD and not decodable: the encoder announces it with the mask bit that the
    decoder reads as "inner status code". *)
Theorem diagnosticinfo_inner_lost :
  wf 65535 (VDiagnosticInfo nested_diagnosticinfo) UA_TYPES_DIAGNOSTICINFO /\
  let '(s, c) := UA_encodeBinary (H := unit) None (VDiagnosticInfo nested_diagnosticinfo)
                   UA_TYPES_DIAGNOSTICINFO tt 100 in
  s = GOOD /\
  forall s' v' o', UA_decodeBinary (fun _ _ => true) (out c) 0 UA_TYPES_DIAGNOSTICINFO =
    (s', v', o') -> v' <> Some (VDiagnosticInfo nested_diagnosticinfo).
Proof.
  split; [ground|]; vm_compute; split; [reflexivity|]; intros s' v' o' [= <- <- <-]; congruence.
Qed.

(** A QualifiedName encoded into a buffer with one byte left: the length of
    its name exchanges the buffer although the namespace index did not fit, and
    the full buffer is still reported; the caller then continues at a position
    of the buffer that was given away. *)
Theorem qualifiedname_restores_exchanged_buffer :
  let '(s, c) := UA_encodeBinary (Some Example.sink)
    (VQualifiedName (mkQualifiedName 1 (ArrData [97]))) UA_TYPES_QUALIFIEDNAME [] 1 in
  stale c = true /\ s = GOOD /\
  concat (handle c) ++ out c <>
    bytes_of (VQualifiedName (mkQualifiedName 1 (ArrData [97]))) UA_TYPES_QUALIFIEDNAME.
Proof. vm_compute; repeat split; congruence. Qed.

(** The length filter of [Array_decodeBinary] rejects messages that the
    encoder produces: an array of two empty variants at the end of a message. *)
Theorem array_filter_rejects_encoded :
  let v := VVariant (Some UA_TYPES_VARIANT) (SArray (ArrData [UA_Variant_null; UA_Variant_null]))
             ArrNull in
  wf 65535 v UA_TYPES_VARIANT /\
  let '(s, c) := UA_encodeBinary (H := unit) None v UA_TYPES_VARIANT tt 100 in
  s = GOOD /\
  UA_decodeBinary (fun _ _ => true) (out c) 0 UA_TYPES_VARIANT = (BADDECODINGERROR, None, 0).
Proof. split; [ground|]; vm_compute; split; reflexivity. Qed.

(** For a variant that holds an enumeration [UA_calcSizeBinary] adds an
    ExtensionObject header that the encoder does not write. *)
Theorem calcSize_alias_mismatch :
  let v := VVariant (Some Example.MessageSecurityMode) (SScalar (VStruct [SScalar (VInt 3)]))
             ArrNull in
  wf 65535 v UA_TYPES_VARIANT /\
  UA_calcSizeBinary v UA_TYPES_VARIANT = 14 /\ zlen (bytes_of v UA_TYPES_VARIANT) = 5.
Proof. split; [ground|]; vm_compute; split; reflexivity. Qed.

(** The length field of an ExtensionObject is skipped without a check: a
    message that ends before it is decoded with status GOOD when the type has
    no members, and the offset lies behind the end of the message. *)
Theorem decode_skips_missing_length :
  UA_decodeBinary (fun _ _ => true) [1; 0; 209; 2; 1] 0 UA_TYPES_EXTENSIONOBJECT =
  (GOOD, Some (VExtDecoded UA_EXTENSIONOBJECT_DECODED (Some Example.MonitoringFilter)
                 (Some (VStruct []))), 9).
Proof. vm_compute; reflexivity. Qed.
