(* ===== verification/FieldCodec.v ===== *)
(** * The codec that PubSub messages are written with

    [ua_pubsub_networkmessage.c] uses the generated functions
    [UA_<Type>_encodeBinary(src, bufPos, bufEnd)],
    [UA_<Type>_decodeBinary(src, offset, dst)] and
    [UA_<Type>_calcSizeBinary(src)].  [FieldCodec] is that interface,
    [FieldCodecLaws] what the message encoding needs to know about it; the
    instances at the end of the file provide both from the binary codec. *)

From Stdlib Require Import ZArith Lia.
From stdpp Require Import base list numbers tactics sets.
From S2P Require Import Prelude UaTypes UaValue BinarySize BinaryEncode BinaryDecode BinarySpec EncodeLogic BinaryEncodeCorrect BinarySizeCorrect DecodeLogic BinaryRoundtrip DecodeSafe Codec.

(** The output buffer: the bytes written and the room up to [bufEnd]. *)
Definition wbuf : Type := list Z * Z.
Definition wenc : Type := wbuf -> status * wbuf.

Class FieldCodec := {
  fc_encode : UA_Value -> UA_DataType -> wenc;
  fc_decode : list Z -> Z -> UA_DataType -> status * option UA_Value * Z;
  fc_size : UA_Value -> UA_DataType -> Z
}.

Class FieldCodecLaws (F : FieldCodec) := {
  (** values that can be represented, and their bytes *)
  fc_wf : UA_Value -> UA_DataType -> Prop;
  fc_bytes : UA_Value -> UA_DataType -> list Z;
  fc_encode_fits : forall v t o room, fc_wf v t -> zlen (fc_bytes v t) <= room ->
    fc_encode v t (o, room) = (GOOD, (o ++ fc_bytes v t, room - zlen (fc_bytes v t)));
  fc_decode_bytes : forall v t pre post, fc_wf v t ->
    fc_decode (pre ++ fc_bytes v t ++ post) (zlen pre) t =
    (GOOD, Some v, zlen pre + zlen (fc_bytes v t));
  fc_decode_bad : forall src off t s v off', fc_decode src off t = (s, v, off') ->
    s <> GOOD -> v = None;
  fc_size_bytes : forall v t, fc_wf v t -> fc_size v t = zlen (fc_bytes v t);
  (** the integers of the headers *)
  fc_wf_byte : forall z, 0 <= z < 2 ^ 8 -> fc_wf (VInt z) UA_TYPES_BYTE;
  fc_wf_uint16 : forall z, 0 <= z < 2 ^ 16 -> fc_wf (VInt z) UA_TYPES_UINT16;
  fc_wf_uint32 : forall z, 0 <= z < 2 ^ 32 -> fc_wf (VInt z) UA_TYPES_UINT32;
  fc_wf_uint64 : forall z, 0 <= z < 2 ^ 64 -> fc_wf (VInt z) UA_TYPES_UINT64;
  fc_wf_datetime : forall z, 0 <= z < 2 ^ 64 -> fc_wf (VInt z) UA_TYPES_DATETIME;
  fc_bytes_byte : forall z, fc_bytes (VInt z) UA_TYPES_BYTE = [u8 z];
  fc_len_uint16 : forall z, zlen (fc_bytes (VInt z) UA_TYPES_UINT16) = 2;
  fc_len_uint32 : forall z, zlen (fc_bytes (VInt z) UA_TYPES_UINT32) = 4;
  fc_len_uint64 : forall z, zlen (fc_bytes (VInt z) UA_TYPES_UINT64) = 8;
  fc_len_datetime : forall z, zlen (fc_bytes (VInt z) UA_TYPES_DATETIME) = 8;
  (** a variant takes at least its encoding byte *)
  fc_bytes_variant : forall v, fc_wf v UA_TYPES_VARIANT -> 0 < zlen (fc_bytes v UA_TYPES_VARIANT)
}.

(** What holds when arbitrary bytes are decoded. *)
Class FieldDecodeSafe (F : FieldCodec) := {
  fd_safe : forall src off t, t ∈ builtin_types -> 0 <= off ->
    let '(s, v, off') := fc_decode src off t in
    s <> UNDEFINED /\ s <> OUTOFFUEL /\ (v <> None <-> s = GOOD) /\ off <= off';
  (** the value is of the kind of the type *)
  fd_int : forall src off t v off', fc_decode src off t = (GOOD, Some v, off') ->
    t = UA_TYPES_BYTE \/ t = UA_TYPES_UINT16 \/ t = UA_TYPES_UINT32 \/ t = UA_TYPES_UINT64 \/
    t = UA_TYPES_DATETIME -> exists z, v = VInt z;
  fd_string : forall src off t v off', fc_decode src off t = (GOOD, Some v, off') ->
    t = UA_TYPES_STRING \/ t = UA_TYPES_BYTESTRING -> exists st, v = VString st;
  fd_guid : forall src off v off', fc_decode src off UA_TYPES_GUID = (GOOD, Some v, off') ->
    exists g, v = VGuid g;
  (** a byte is read inside of the buffer, a variant takes at least a byte *)
  fd_byte : forall src off v off', fc_decode src off UA_TYPES_BYTE = (GOOD, Some v, off') ->
    off' = off + 1 /\ off < zlen src;
  fd_variant : forall src off v off', 0 <= off ->
    fc_decode src off UA_TYPES_VARIANT = (GOOD, Some v, off') -> off < off'
}.

(** ** The binary codec as field codec *)

Section BinaryInstance.
Context {TE : TypeEnv}.
Variable calloc_ok : nat -> Z -> bool.

(** [UA_encodeBinary(src, type, bufPos, &bufEnd, NULL, NULL)] *)
Definition UA_encodeBinary_buf (v : UA_Value) (t : UA_DataType) : wenc := fun '(o, room0) =>
  let '(s, c) := UA_encodeBinary (H := unit) None v t tt room0 in
  (s, (o ++ out c, room c)).

#[export] Instance binary_field_codec : FieldCodec := {|
  fc_encode := UA_encodeBinary_buf;
  fc_decode := fun src off t => UA_decodeBinary calloc_ok src off t;
  fc_size := UA_calcSizeBinary
|}.

(** Values of the field types that survive the encoding and whose size is
    computed exactly; [Codec] has the theorems. *)
Definition field_wf (v : UA_Value) (t : UA_DataType) : Prop :=
  wf 65535 v t /\ rt v t /\ sized v t /\
  nest_internal t (nest v t) <= UA_ENCODING_MAX_RECURSION + 1 /\
  nest_internal t (dnest v t) <= UA_ENCODING_MAX_RECURSION + 1.

Hypothesis Halloc : forall n s, calloc_ok n s = true.

Lemma variant_bytes_nonempty v : wf 65535 v UA_TYPES_VARIANT ->
  0 < zlen (bytes_of v UA_TYPES_VARIANT).
Proof.
  destruct v; intros [_ Hw]; try done; simpl; destruct type; simpl;
    rewrite zlen_cons; match goal with |- 0 < 1 + zlen ?l => pose proof (zlen_nonneg l) end; lia.
Qed.

Ltac int_wf := repeat split; try done; cbn; try lia; vm_compute; congruence.

#[refine] Instance binary_field_codec_laws : FieldCodecLaws binary_field_codec := {|
  fc_wf := field_wf;
  fc_bytes := bytes_of
|}.
Proof.
  - intros v t o r (Hw & _ & _ & Hn & _) Hf; simpl; unfold UA_encodeBinary_buf.
    destruct (UA_encodeBinary_outcome False (fun _ : unit => []) (fun _ _ => True) None 65535 v t tt r)
      as [(F1 & F2 & F3) O]; try done;
      [by left|pose proof (zlen_nonneg (bytes_of v t)); lia|].
    destruct (UA_encodeBinary None v t tt r) as [s [o' r' d h' g st]]; simpl in *.
    destruct O as [-> [T S Fi G N Wo]| -> ? ? P|? ?]; simpl in *; [|lia..].
    destruct (S (Fi Hf)) as [_ ->]; unfold total in T; simpl in T; by rewrite T.
  - intros v t pre post (Hw & Hrt & _ & _ & Hd); by apply (decode_bytes calloc_ok 65535).
  - intros src off t s v off'; simpl; unfold UA_decodeBinary.
    destruct (decodeBinaryInternal _ _ _ _ _) as [[s0 v0] c].
    destruct (bad s0) eqn:E; intros [= <- <- <-]; [done|]; apply bad_false in E; congruence.
  - intros v t (Hw & _ & Hs & _); by apply (calcSizeBinary_correct 65535).
  - intros z Hz; int_wf.
  - intros z Hz; int_wf.
  - intros z Hz; int_wf.
  - intros z Hz; int_wf.
  - intros z Hz; int_wf.
  - done.
  - done.
  - done.
  - done.
  - done.
  - intros v (Hw & _); by apply variant_bytes_nonempty.
Defined.

(** A decoded value is of the kind its jump table entry produces. *)
Lemma decode_kind {A} (f : A -> UA_Value) (m : dec A) src off t v off' :
  builtin t = true ->
  (forall fuel c, decodeBinary calloc_ok src (S fuel) t c = fmapD f m c) ->
  UA_decodeBinary calloc_ok src off t = (GOOD, Some v, off') ->
  exists a c, m (mkDCtx off 1 0%nat) = (GOOD, a, c) /\ v = f a /\ off' = pos c.
Proof.
  intros Hb Hd; unfold UA_decodeBinary, decodeBinaryInternal, decodeMembers; rewrite Hb.
  cbn [ddepth]; unfold decode_fuel; rewrite Hd; unfold fmapD, set_ddepth; simpl.
  destruct (m _) as [[r a] c]; destruct (bad r) eqn:E; intros [= <- <- <-]; eauto.
Qed.

Lemma get_inside src n c bs c' : get src n c = (GOOD, bs, c') ->
  pos c' = pos c + n /\ pos c + n <= zlen src.
Proof.
  unfold get; destruct (Z.ltb_spec (zlen src) (pos c + n)); [done|].
  destruct (load _ _ _); [|done]; intros [= <- <-]; split; [by destruct c|lia].
Qed.

Context (P : UA_DataType -> Prop) (HP : closed_types P).

Lemma decode_variant_progress src off v off' : 0 <= off ->
  UA_decodeBinary calloc_ok src off UA_TYPES_VARIANT = (GOOD, Some v, off') -> off < off'.
Proof.
  intros Ho; unfold UA_decodeBinary, decodeBinaryInternal, decodeMembers, decode_fuel.
  change (builtin UA_TYPES_VARIANT) with true; cbv iota beta.
  change (recursion_limit (mkDCtx off 0 0%nat)) with false; cbv iota.
  assert (Hv : forall f c, decodeBinary calloc_ok src (S f) UA_TYPES_VARIANT c =
    Variant_decodeBinary calloc_ok src (decodeBinary calloc_ok src f) (from_image image_fuel) c)
    by reflexivity.
  rewrite (Hv 63%nat).
  destruct (variant_progress calloc_ok src P HP (decodeBinary calloc_ok src 63)
    (from_image image_fuel) 1 (mkDCtx off 1 0%nat)) as (_ & _ & Hp); [|done..|].
  { intros _ t Ht; apply (decodeBinary_safe calloc_ok src P HP); [done|].
    destruct (builtin t); vm_compute; congruence. }
  change (set_ddepth (mkDCtx off 0 0%nat) _) with (mkDCtx off 1 0%nat).
  destruct (Variant_decodeBinary _ _ _ _ _) as [[s v0] c]; simpl in Hp |- *.
  destruct (bad s); intros [= -> <- <-]; by apply Hp.
Qed.

#[export] Instance binary_field_decode_safe : FieldDecodeSafe binary_field_codec.
Proof.
  constructor.
  - intros src off t Ht Ho; simpl.
    pose proof (decodeBinaryInternal_safe calloc_ok src P HP t (ct_builtin P HP t Ht)
      (mkDCtx off 0 0%nat)) as Hs; unfold UA_decodeBinary.
    destruct (decodeBinaryInternal _ _ _ _ _) as [[s v] c]; simpl in Hs.
    destruct Hs as [Hs (Hf & _)]; [lia..|].
    destruct (bad s) eqn:E; [apply bad_true in E|apply bad_false in E];
      repeat split; try done; try (unfold UNDEFINED, OUTOFFUEL; lia); by intros.
  - intros src off t v off' Hd [-> | [-> | [-> | [-> | ->]]]];
      [eapply (decode_kind VInt (Byte_decodeBinary src)) in Hd
      |eapply (decode_kind VInt (UInt16_decodeBinary src)) in Hd
      |eapply (decode_kind VInt (UInt32_decodeBinary src)) in Hd
      |eapply (decode_kind VInt (UInt64_decodeBinary src)) in Hd
      |eapply (decode_kind VInt (UInt64_decodeBinary src)) in Hd];
      first [reflexivity | destruct Hd as (a & c & _ & -> & _); eauto].
  - intros src off t v off' Hd [-> | ->];
      eapply (decode_kind VString (String_decodeBinary calloc_ok src)) in Hd;
      first [reflexivity | destruct Hd as (a & c & _ & -> & _); eauto].
  - intros src off v off' Hd; eapply (decode_kind VGuid (Guid_decodeBinary src)) in Hd;
      first [reflexivity | destruct Hd as (a & c & _ & -> & _); eauto].
  - intros src off v off' Hd; eapply (decode_kind VInt (Byte_decodeBinary src)) in Hd;
      try reflexivity; destruct Hd as (a & c & Hg & _ & ->).
    unfold Byte_decodeBinary, fmapD in Hg; destruct (get src 1 _) as [[r bs] c'] eqn:Eg.
    injection Hg as -> <- <-; apply get_inside in Eg; simpl in Eg; lia.
  - apply decode_variant_progress.
Qed.
End BinaryInstance.
