(* ===== verification/NetworkMessage.v ===== *)
(** * PubSub network messages ([src/pubsub/ua_pubsub_networkmessage.c])

    The UADP encoding of [UA_NetworkMessage] and [UA_DataSetMessage] on top of
    a [FieldCodec].  Encoders write to a buffer of fixed size; decoders work on
    a source buffer and an offset and fill a zeroed structure.

    A pointer to elements is a [UA_Array]; a read beyond its elements gives
    [UNDEFINED].  So does writing to an array for which there was no memory:
    the decoder checks the result of an allocation only for the nonce and the
    footer.  And so does deleting, after an error, a delta frame whose fields
    have not all been initialised. *)

From Stdlib Require Import ZArith Lia.
From stdpp Require Import base list numbers tactics sets.
From S2P Require Import Prelude UaTypes UaValue FieldCodec.

(** ** Data *)

Definition UA_FIELDENCODING_VARIANT : Z := 0.
Definition UA_FIELDENCODING_RAWDATA : Z := 1.
Definition UA_FIELDENCODING_DATAVALUE : Z := 2.

Definition UA_DATASETMESSAGE_DATAKEYFRAME : Z := 0.
Definition UA_DATASETMESSAGE_DATADELTAFRAME : Z := 1.
Definition UA_DATASETMESSAGE_EVENT : Z := 2.
Definition UA_DATASETMESSAGE_KEEPALIVE : Z := 3.

Definition UA_PUBLISHERDATATYPE_BYTE : Z := 0.
Definition UA_PUBLISHERDATATYPE_UINT16 : Z := 1.
Definition UA_PUBLISHERDATATYPE_UINT32 : Z := 2.
Definition UA_PUBLISHERDATATYPE_UINT64 : Z := 3.
Definition UA_PUBLISHERDATATYPE_STRING : Z := 4.

Definition UA_NETWORKMESSAGE_DATASET : Z := 0.

Record UA_DataSetMessageHeader := mkDSMHeader {
  dataSetMessageValid : bool;
  fieldEncoding : Z;
  dataSetMessageSequenceNrEnabled : bool;
  h_timestampEnabled : bool;
  statusEnabled : bool;
  configVersionMajorVersionEnabled : bool;
  configVersionMinorVersionEnabled : bool;
  dataSetMessageType : Z;
  picoSecondsIncluded : bool;
  dataSetMessageSequenceNr : Z;
  h_timestamp : Z;
  picoSeconds : Z;
  h_status : Z;
  configVersionMajorVersion : Z;
  configVersionMinorVersion : Z
}.

(** The union [data] of a DataSetMessage. *)
Inductive UA_DataSetMessage_Data :=
| KeyFrameData (fieldCount : Z) (dataSetFields : UA_Array UA_Value)
| DeltaFrameData (fieldCount : Z) (deltaFrameFields : UA_Array (Z * UA_Value)).

Record UA_DataSetMessage := mkDSM {
  header : UA_DataSetMessageHeader;
  data : UA_DataSetMessage_Data
}.

Record UA_NetworkMessageGroupHeader := mkGroupHeader {
  writerGroupIdEnabled : bool;
  groupVersionEnabled : bool;
  networkMessageNumberEnabled : bool;
  sequenceNumberEnabled : bool;
  writerGroupId : Z;
  groupVersion : Z;
  networkMessageNumber : Z;
  sequenceNumber : Z
}.

Record UA_NetworkMessageSecurityHeader := mkSecurityHeader {
  networkMessageSigned : bool;
  networkMessageEncrypted : bool;
  securityFooterEnabled : bool;
  forceKeyReset : bool;
  securityTokenId : Z;
  nonceLength : Z;
  messageNonce : UA_ByteString;
  securityFooterSize : Z
}.

(** The union [publisherId]: the integer of its first eight bytes, or a
    string. *)
Inductive PublisherId :=
| PublisherIdInt (image : Z)
| PublisherIdString (s : UA_String).

Record UA_NetworkMessage := mkNetworkMessage {
  version : Z;
  publisherIdEnabled : bool;
  groupHeaderEnabled : bool;
  payloadHeaderEnabled : bool;
  publisherIdType : Z;
  dataSetClassIdEnabled : bool;
  securityEnabled : bool;
  timestampEnabled : bool;
  picosecondsEnabled : bool;
  chunkMessage : bool;
  promotedFieldsEnabled : bool;
  networkMessageType : Z;
  publisherId : PublisherId;
  dataSetClassId : UA_Guid;
  groupHeader : UA_NetworkMessageGroupHeader;
  payloadCount : Z;                     (* payloadHeader.dataSetPayloadHeader.count *)
  dataSetWriterIds : UA_Array Z;
  timestamp : Z;
  picoseconds : Z;
  promotedFieldsSize : Z;
  promotedFields : UA_Array UA_Value;
  securityHeader : UA_NetworkMessageSecurityHeader;
  payloadSizes : UA_Array Z;            (* payload.dataSetPayload.sizes *)
  dataSetMessages : UA_Array UA_DataSetMessage;
  securityFooter : UA_ByteString;
  signature : UA_ByteString
}.

(** ** Masks *)

Definition NM_VERSION_MASK : Z := 15.
Definition NM_PUBLISHER_ID_ENABLED_MASK : Z := 16.
Definition NM_GROUP_HEADER_ENABLED_MASK : Z := 32.
Definition NM_PAYLOAD_HEADER_ENABLED_MASK : Z := 64.
Definition NM_EXTENDEDFLAGS1_ENABLED_MASK : Z := 128.
Definition NM_PUBLISHER_ID_MASK : Z := 7.
Definition NM_DATASET_CLASSID_ENABLED_MASK : Z := 8.
Definition NM_SECURITY_ENABLED_MASK : Z := 16.
Definition NM_TIMESTAMP_ENABLED_MASK : Z := 32.
Definition NM_PICOSECONDS_ENABLED_MASK : Z := 64.
Definition NM_EXTENDEDFLAGS2_ENABLED_MASK : Z := 128.
Definition NM_NETWORK_MSG_TYPE_MASK : Z := 28.
Definition NM_CHUNK_MESSAGE_MASK : Z := 1.
Definition NM_PROMOTEDFIELDS_ENABLED_MASK : Z := 2.
Definition GROUP_HEADER_WRITER_GROUPID_ENABLED : Z := 1.
Definition GROUP_HEADER_GROUP_VERSION_ENABLED : Z := 2.
Definition GROUP_HEADER_NM_NUMBER_ENABLED : Z := 4.
Definition GROUP_HEADER_SEQUENCE_NUMBER_ENABLED : Z := 8.
Definition SECURITY_HEADER_NM_SIGNED : Z := 1.
Definition SECURITY_HEADER_NM_ENCRYPTED : Z := 2.
Definition SECURITY_HEADER_SEC_FOOTER_ENABLED : Z := 4.
Definition SECURITY_HEADER_FORCE_KEY_RESET : Z := 8.
Definition DS_MESSAGEHEADER_DS_MSG_VALID : Z := 1.
Definition DS_MESSAGEHEADER_FIELD_ENCODING_MASK : Z := 6.
Definition DS_MESSAGEHEADER_SEQ_NR_ENABLED_MASK : Z := 8.
Definition DS_MESSAGEHEADER_STATUS_ENABLED_MASK : Z := 16.
Definition DS_MESSAGEHEADER_CONFIGMAJORVERSION_ENABLED_MASK : Z := 32.
Definition DS_MESSAGEHEADER_CONFIGMINORVERSION_ENABLED_MASK : Z := 64.
Definition DS_MESSAGEHEADER_FLAGS2_ENABLED_MASK : Z := 128.
Definition DS_MESSAGEHEADER_DS_MESSAGE_TYPE_MASK : Z := 15.
Definition DS_MESSAGEHEADER_TIMESTAMP_ENABLED_MASK : Z := 16.
Definition DS_MESSAGEHEADER_PICOSECONDS_INCLUDED_MASK : Z := 32.
Definition NM_SHIFT_LEN : Z := 2.
Definition DS_MH_SHIFT_LEN : Z := 1.

(** ** Optional parts *)

Definition UA_NetworkMessage_ExtendedFlags2Enabled (src : UA_NetworkMessage) : bool :=
  chunkMessage src || promotedFieldsEnabled src
  || negb (networkMessageType src =? UA_NETWORKMESSAGE_DATASET).

Definition UA_NetworkMessage_ExtendedFlags1Enabled (src : UA_NetworkMessage) : bool :=
  negb (publisherIdType src =? UA_PUBLISHERDATATYPE_BYTE)
  || dataSetClassIdEnabled src || securityEnabled src || timestampEnabled src
  || picosecondsEnabled src || UA_NetworkMessage_ExtendedFlags2Enabled src.

Definition UA_DataSetMessageHeader_DataSetFlags2Enabled (src : UA_DataSetMessageHeader) : bool :=
  negb (dataSetMessageType src =? UA_DATASETMESSAGE_DATAKEYFRAME)
  || h_timestampEnabled src || picoSecondsIncluded src.

(** ** Writing *)

(** [rv = m1; if(rv != GOOD) return rv; m2] *)
Definition wthen (m1 m2 : wenc) : wenc := fun b =>
  let '(rv, b) := m1 b in if bad rv then (rv, b) else m2 b.

(** [rv = m1;] with a status that is not looked at again; what follows an
    undefined execution is undefined. *)
Definition wignore (m1 m2 : wenc) : wenc := fun b =>
  let '(rv, b) := m1 b in if rv =? UNDEFINED then (rv, b) else m2 b.

Definition wret (s : status) : wenc := fun b => (s, b).

Definition wwhen (c : bool) (m : wenc) : wenc := if c then m else wret GOOD.

(** [for(i = 0; i < count; i++) { ... elems[i] ... }] *)
Fixpoint wfor {A} (count : nat) (elems : list A) (f : A -> wenc) : wenc :=
  match count with
  | O => wret GOOD
  | S count =>
      match elems with
      | a :: elems => wthen (f a) (wfor count elems f)
      | [] => wret UNDEFINED
      end
  end.

(** ** Reading: source buffer, offset, early return on errors *)

Definition ndec (A : Type) : Type := list Z -> Z -> status * option A * Z.

Definition nret {A} (a : A) : ndec A := fun _ off => (GOOD, Some a, off).
Definition nfail {A} (s : status) : ndec A := fun _ off => (s, None, off).

Definition nbind {A B} (m : ndec A) (k : A -> ndec B) : ndec B := fun src off =>
  let '(rv, a, off) := m src off in
  match a with
  | Some a => if bad rv then (rv, None, off) else k a src off
  | None => (rv, None, off)
  end.

Notation "'let?' x ':=' m 'in' k" := (nbind m (fun x => k))
  (at level 10, x name, m at level 100, k at level 200) : ua_scope.
Open Scope ua_scope.

(** A member that is read only when enabled and stays zero otherwise. *)
Definition nwhen {A} (b : bool) (zero : A) (m : ndec A) : ndec A :=
  if b then m else nret zero.

Fixpoint nfor {A} (count : nat) (m : ndec A) : ndec (list A) :=
  match count with
  | O => nret []
  | S count => let? a := m in let? l := nfor count m in nret (a :: l)
  end.

(** ** Memory

    [nm_malloc off n]: is there memory for [n] elements when the decoder has
    come to offset [off]? *)
Class NMAllocator := nm_malloc : Z -> Z -> bool.

(** An array of [n] elements whose address is used without a check: the first
    access to it follows a null pointer. *)
Definition nalloc `{NMAllocator} {A} (n : Z) (k : ndec A) : ndec A := fun src off =>
  if (0 <? n) && negb (nm_malloc off n) then (UNDEFINED, None, off) else k src off.

(** [rv = UA_ByteString_allocBuffer(...); if(rv != GOOD) return rv] *)
Definition nalloc_checked `{NMAllocator} {A} (n : Z) (k : ndec A) : ndec A := fun src off =>
  if negb (nm_malloc off n) then (BADOUTOFMEMORY, None, off) else k src off.

(** A step after whose failure uninitialised memory is left: [lost] is what
    becomes of its status. *)
Definition nlost {A} (lost : status -> status) (m : ndec A) : ndec A := fun src off =>
  let '(rv, a, off) := m src off in if bad rv then (lost rv, None, off) else (rv, a, off).

(** The array a decoder fills: [UA_Array_new] of no elements is the sentinel. *)
Definition new_array {A} (l : list A) : UA_Array A :=
  match l with [] => ArrEmpty | _ => ArrData l end.

Lemma arr_list_new {A} (l : list A) : arr_list (new_array l) = l.
Proof. by destruct l. Qed.

Section Messages.
Context {FC : FieldCodec} {NM : NMAllocator}.

Definition enc_byte (z : Z) : wenc := fc_encode (VInt z) UA_TYPES_BYTE.
Definition enc_uint16 (z : Z) : wenc := fc_encode (VInt z) UA_TYPES_UINT16.
Definition enc_uint32 (z : Z) : wenc := fc_encode (VInt z) UA_TYPES_UINT32.
Definition enc_uint64 (z : Z) : wenc := fc_encode (VInt z) UA_TYPES_UINT64.
Definition enc_datetime (z : Z) : wenc := fc_encode (VInt z) UA_TYPES_DATETIME.

Definition dec_value (t : UA_DataType) : ndec UA_Value := fun src off => fc_decode src off t.

(** The typed decoders; another kind of value cannot be stored. *)
Definition dec_int (t : UA_DataType) : ndec Z :=
  let? v := dec_value t in match v with VInt z => nret z | _ => nfail UNDEFINED end.
Definition dec_string (t : UA_DataType) : ndec UA_String :=
  let? v := dec_value t in match v with VString s => nret s | _ => nfail UNDEFINED end.
Definition dec_guid : ndec UA_Guid :=
  let? v := dec_value UA_TYPES_GUID in match v with VGuid g => nret g | _ => nfail UNDEFINED end.

Definition dec_byte : ndec Z := dec_int UA_TYPES_BYTE.
Definition dec_uint16 : ndec Z := dec_int UA_TYPES_UINT16.
Definition dec_uint32 : ndec Z := dec_int UA_TYPES_UINT32.
Definition dec_uint64 : ndec Z := dec_int UA_TYPES_UINT64.
Definition dec_datetime : ndec Z := dec_int UA_TYPES_DATETIME.

(** ** DataSetMessage header *)

Definition dsm_flags1 (src : UA_DataSetMessageHeader) : Z :=
  Z.lor (u8 (Z.shiftl (fieldEncoding src) DS_MH_SHIFT_LEN))
 (Z.lor (flag (dataSetMessageValid src) DS_MESSAGEHEADER_DS_MSG_VALID)
 (Z.lor (flag (dataSetMessageSequenceNrEnabled src) DS_MESSAGEHEADER_SEQ_NR_ENABLED_MASK)
 (Z.lor (flag (statusEnabled src) DS_MESSAGEHEADER_STATUS_ENABLED_MASK)
 (Z.lor (flag (configVersionMajorVersionEnabled src)
              DS_MESSAGEHEADER_CONFIGMAJORVERSION_ENABLED_MASK)
 (Z.lor (flag (configVersionMinorVersionEnabled src)
              DS_MESSAGEHEADER_CONFIGMINORVERSION_ENABLED_MASK)
        (flag (UA_DataSetMessageHeader_DataSetFlags2Enabled src)
              DS_MESSAGEHEADER_FLAGS2_ENABLED_MASK)))))).

Definition dsm_flags2 (src : UA_DataSetMessageHeader) : Z :=
  Z.lor (u8 (dataSetMessageType src))
 (Z.lor (flag (h_timestampEnabled src) DS_MESSAGEHEADER_TIMESTAMP_ENABLED_MASK)
        (flag (picoSecondsIncluded src) DS_MESSAGEHEADER_PICOSECONDS_INCLUDED_MASK)).

Definition UA_DataSetMessageHeader_encodeBinary (src : UA_DataSetMessageHeader) : wenc :=
  wthen (enc_byte (dsm_flags1 src))
 (wthen (wwhen (UA_DataSetMessageHeader_DataSetFlags2Enabled src) (enc_byte (dsm_flags2 src)))
 (wthen (wwhen (dataSetMessageSequenceNrEnabled src) (enc_uint16 (dataSetMessageSequenceNr src)))
 (wthen (wwhen (h_timestampEnabled src) (enc_datetime (h_timestamp src)))
 (wthen (wwhen (picoSecondsIncluded src) (enc_uint16 (picoSeconds src)))
 (wthen (wwhen (statusEnabled src) (enc_uint16 (h_status src)))
 (wthen (wwhen (configVersionMajorVersionEnabled src)
               (enc_uint32 (configVersionMajorVersion src)))
        (wwhen (configVersionMinorVersionEnabled src)
               (enc_uint32 (configVersionMinorVersion src))))))))).

Definition UA_DataSetMessageHeader_decodeBinary : ndec UA_DataSetMessageHeader :=
  let? v := dec_byte in
  let fe := Z.shiftr (Z.land v DS_MESSAGEHEADER_FIELD_ENCODING_MASK) DS_MH_SHIFT_LEN in
  let seqEnabled := has v DS_MESSAGEHEADER_SEQ_NR_ENABLED_MASK in
  let stEnabled := has v DS_MESSAGEHEADER_STATUS_ENABLED_MASK in
  let majEnabled := has v DS_MESSAGEHEADER_CONFIGMAJORVERSION_ENABLED_MASK in
  let minEnabled := has v DS_MESSAGEHEADER_CONFIGMINORVERSION_ENABLED_MASK in
  let? v2 := nwhen (has v DS_MESSAGEHEADER_FLAGS2_ENABLED_MASK) 0 dec_byte in
  let tsEnabled := has v2 DS_MESSAGEHEADER_TIMESTAMP_ENABLED_MASK in
  let picoIncluded := has v2 DS_MESSAGEHEADER_PICOSECONDS_INCLUDED_MASK in
  let? seqNr := nwhen seqEnabled 0 dec_uint16 in
  let? ts := nwhen tsEnabled 0 dec_datetime in
  let? pico := nwhen picoIncluded 0 dec_uint16 in
  let? st := nwhen stEnabled 0 dec_uint16 in
  let? maj := nwhen majEnabled 0 dec_uint32 in
  let? min := nwhen minEnabled 0 dec_uint32 in
  nret (mkDSMHeader (has v DS_MESSAGEHEADER_DS_MSG_VALID) fe seqEnabled tsEnabled stEnabled
          majEnabled minEnabled (Z.land v2 DS_MESSAGEHEADER_DS_MESSAGE_TYPE_MASK)
          picoIncluded seqNr ts pico st maj min).

(** The sizes of the fixed types; [UA_Byte_calcSizeBinary(&byte)] and the
    like only look at the type. *)
Definition size_byte : Z := fc_size (VInt 0) UA_TYPES_BYTE.
Definition size_uint16 : Z := fc_size (VInt 0) UA_TYPES_UINT16.
Definition size_uint32 : Z := fc_size (VInt 0) UA_TYPES_UINT32.
Definition size_uint64 : Z := fc_size (VInt 0) UA_TYPES_UINT64.
Definition size_datetime : Z := fc_size (VInt 0) UA_TYPES_DATETIME.

Definition size_when (b : bool) (n : Z) : Z := if b then n else 0.

Definition UA_DataSetMessageHeader_calcSizeBinary (p : UA_DataSetMessageHeader) : Z :=
  size_byte
  + size_when (UA_DataSetMessageHeader_DataSetFlags2Enabled p) size_byte
  + size_when (dataSetMessageSequenceNrEnabled p) size_uint16
  + size_when (h_timestampEnabled p) size_datetime
  + size_when (picoSecondsIncluded p) size_uint16
  + size_when (statusEnabled p) size_uint16
  + size_when (configVersionMajorVersionEnabled p) size_uint32
  + size_when (configVersionMinorVersionEnabled p) size_uint32.

(** ** DataSetMessage *)

(** [&dataSetFields[i].value] *)
Definition enc_field_value (f : UA_Value) : wenc :=
  match f with
  | VDataValue _ v => fc_encode v UA_TYPES_VARIANT
  | _ => wret UNDEFINED
  end.

Definition enc_field (encoding : Z) (f : UA_Value) : wenc :=
  if encoding =? UA_FIELDENCODING_VARIANT then enc_field_value f
  else fc_encode f UA_TYPES_DATAVALUE.

(** A field encoding that is none of the three writes no fields. *)
Definition UA_DataSetMessage_encodeBinary (src : UA_DataSetMessage) : wenc :=
  let fe := fieldEncoding (header src) in
  let ty := dataSetMessageType (header src) in
  wthen (UA_DataSetMessageHeader_encodeBinary (header src))
    (if ty =? UA_DATASETMESSAGE_DATAKEYFRAME then
       match data src with
       | KeyFrameData fieldCount fields =>
           wthen (wwhen (negb (fe =? UA_FIELDENCODING_RAWDATA)) (enc_uint16 fieldCount))
             (if fe =? UA_FIELDENCODING_RAWDATA then wret BADNOTIMPLEMENTED
              else if (fe =? UA_FIELDENCODING_VARIANT) || (fe =? UA_FIELDENCODING_DATAVALUE)
              then wfor (Z.to_nat fieldCount) (arr_list fields) (enc_field fe)
              else wret GOOD)
       | DeltaFrameData _ _ => wret UNDEFINED
       end
     else if ty =? UA_DATASETMESSAGE_DATADELTAFRAME then
       match data src with
       | DeltaFrameData fieldCount fields =>
           wthen (enc_uint16 fieldCount)
             (if fe =? UA_FIELDENCODING_RAWDATA then wret BADNOTIMPLEMENTED
              else if (fe =? UA_FIELDENCODING_VARIANT) || (fe =? UA_FIELDENCODING_DATAVALUE)
              then wfor (Z.to_nat fieldCount) (arr_list fields)
                     (fun '(fieldIndex, f) => wthen (enc_uint16 fieldIndex) (enc_field fe f))
              else wret GOOD)
       | KeyFrameData _ _ => wret UNDEFINED
       end
     else if negb (ty =? UA_DATASETMESSAGE_KEEPALIVE) then wret BADNOTIMPLEMENTED
     else wret GOOD).

(** The DataValue around a decoded variant: only [hasValue] and [value]. *)
Definition value_field (v : UA_Value) : UA_Value :=
  VDataValue (mkDataValueHeader true false false false false false 0 0 0 0 0) v.

Definition dec_field (encoding : Z) : ndec UA_Value :=
  if encoding =? UA_FIELDENCODING_VARIANT then
    let? v := dec_value UA_TYPES_VARIANT in nret (value_field v)
  else dec_value UA_TYPES_DATAVALUE.

(** The fields of a delta frame, in memory from [UA_malloc].  A field is
    initialised after its index was read, with its value; [lost] is applied to
    an error that comes before the last field is. *)
Fixpoint dec_deltaFields (lost : status -> status) (fe : Z) (count : nat) : ndec (list (Z * UA_Value)) :=
  match count with
  | O => nret []
  | S count =>
      let? i := nlost lost dec_uint16 in
      let? f := (if (count =? 0)%nat then dec_field fe else nlost lost (dec_field fe)) in
      let? l := dec_deltaFields lost fe count in
      nret ((i, f) :: l)
  end.

Definition DataSetMessage_decode (lost : status -> status) : ndec UA_DataSetMessage :=
  let? h := UA_DataSetMessageHeader_decodeBinary in
  let fe := fieldEncoding h in
  let ty := dataSetMessageType h in
  let withFields :=
    (fe =? UA_FIELDENCODING_VARIANT) || (fe =? UA_FIELDENCODING_DATAVALUE) in
  if ty =? UA_DATASETMESSAGE_DATAKEYFRAME then
    if fe =? UA_FIELDENCODING_RAWDATA then nret (mkDSM h (KeyFrameData 0 ArrNull))
    else
      let? fieldCount := dec_uint16 in
      if withFields then
        nalloc fieldCount (
          let? fields := nfor (Z.to_nat fieldCount) (dec_field fe) in
          nret (mkDSM h (KeyFrameData fieldCount (new_array fields))))
      else nret (mkDSM h (KeyFrameData fieldCount ArrNull))
  else if ty =? UA_DATASETMESSAGE_DATADELTAFRAME then
    if fe =? UA_FIELDENCODING_RAWDATA then nret (mkDSM h (DeltaFrameData 0 ArrNull))
    else
      let? fieldCount := dec_uint16 in
      if withFields then
        nalloc fieldCount (
          let? fields := dec_deltaFields lost fe (Z.to_nat fieldCount) in
          (* UA_malloc(0) returns an address of no elements *)
          nret (mkDSM h (DeltaFrameData fieldCount (ArrData fields))))
      else nret (mkDSM h (DeltaFrameData fieldCount ArrNull))
  else if negb (ty =? UA_DATASETMESSAGE_KEEPALIVE) then nfail BADNOTIMPLEMENTED
  else nret (mkDSM h (KeyFrameData 0 ArrNull)).

(** On an error the fields are left as they are. *)
Definition UA_DataSetMessage_decodeBinary : ndec UA_DataSetMessage :=
  DataSetMessage_decode (fun rv => rv).

Definition zsum_map {A} (f : A -> Z) (l : list A) : Z := foldr (fun a s => f a + s) 0 l.

Definition size_field (encoding : Z) (f : UA_Value) : Z :=
  if encoding =? UA_FIELDENCODING_VARIANT then
    match f with VDataValue _ v => fc_size v UA_TYPES_VARIANT | _ => 0 end
  else if encoding =? UA_FIELDENCODING_DATAVALUE then fc_size f UA_TYPES_DATAVALUE
  else 0.

Definition UA_DataSetMessage_calcSizeBinary (p : UA_DataSetMessage) : Z :=
  let fe := fieldEncoding (header p) in
  let ty := dataSetMessageType (header p) in
  let withFields :=
    (fe =? UA_FIELDENCODING_VARIANT) || (fe =? UA_FIELDENCODING_DATAVALUE) in
  UA_DataSetMessageHeader_calcSizeBinary (header p)
  + (if ty =? UA_DATASETMESSAGE_DATAKEYFRAME then
       match data p with
       | KeyFrameData n fields =>
           size_when (negb (fe =? UA_FIELDENCODING_RAWDATA)) size_uint16
           + size_when withFields
               (zsum_map (size_field fe) (take (Z.to_nat n) (arr_list fields)))
       | DeltaFrameData _ _ => 0
       end
     else if ty =? UA_DATASETMESSAGE_DATADELTAFRAME then
       match data p with
       | DeltaFrameData n fields =>
           size_when (negb (fe =? UA_FIELDENCODING_RAWDATA)) size_uint16
           + size_when withFields
               (zsum_map (fun '(_, f) => size_uint16 + size_field fe f)
                         (take (Z.to_nat n) (arr_list fields)))
       | KeyFrameData _ _ => 0
       end
     else 0).

(** ** NetworkMessage: writing *)

Definition nm_flags (src : UA_NetworkMessage) : Z :=
  Z.lor (u8 (version src))
 (Z.lor (flag (publisherIdEnabled src) NM_PUBLISHER_ID_ENABLED_MASK)
 (Z.lor (flag (groupHeaderEnabled src) NM_GROUP_HEADER_ENABLED_MASK)
 (Z.lor (flag (payloadHeaderEnabled src) NM_PAYLOAD_HEADER_ENABLED_MASK)
        (flag (UA_NetworkMessage_ExtendedFlags1Enabled src) NM_EXTENDEDFLAGS1_ENABLED_MASK)))).

Definition nm_extendedFlags1 (src : UA_NetworkMessage) : Z :=
  Z.lor (u8 (publisherIdType src))
 (Z.lor (flag (dataSetClassIdEnabled src) NM_DATASET_CLASSID_ENABLED_MASK)
 (Z.lor (flag (securityEnabled src) NM_SECURITY_ENABLED_MASK)
 (Z.lor (flag (timestampEnabled src) NM_TIMESTAMP_ENABLED_MASK)
 (Z.lor (flag (picosecondsEnabled src) NM_PICOSECONDS_ENABLED_MASK)
        (flag (UA_NetworkMessage_ExtendedFlags2Enabled src) NM_EXTENDEDFLAGS2_ENABLED_MASK))))).

Definition nm_extendedFlags2 (src : UA_NetworkMessage) : Z :=
  Z.lor (u8 (Z.shiftl (u8 (networkMessageType src)) NM_SHIFT_LEN))
 (Z.lor (flag (chunkMessage src) NM_CHUNK_MESSAGE_MASK)
        (flag (promotedFieldsEnabled src) NM_PROMOTEDFIELDS_ENABLED_MASK)).

Definition encode_flags (src : UA_NetworkMessage) : wenc :=
  wthen (enc_byte (nm_flags src))
    (wwhen (UA_NetworkMessage_ExtendedFlags1Enabled src)
       (wthen (enc_byte (nm_extendedFlags1 src))
          (wwhen (UA_NetworkMessage_ExtendedFlags2Enabled src)
             (enc_byte (nm_extendedFlags2 src))))).

(** [switch(src->publisherIdType)]: the member of the union that the type
    selects. *)
Definition encode_publisherId (src : UA_NetworkMessage) : wenc :=
  let ty := publisherIdType src in
  match publisherId src with
  | PublisherIdInt image =>
      if ty =? UA_PUBLISHERDATATYPE_BYTE then enc_byte (u8 image)
      else if ty =? UA_PUBLISHERDATATYPE_UINT16 then enc_uint16 (u16 image)
      else if ty =? UA_PUBLISHERDATATYPE_UINT32 then enc_uint32 (u32 image)
      else if ty =? UA_PUBLISHERDATATYPE_UINT64 then enc_uint64 image
      else if ty =? UA_PUBLISHERDATATYPE_STRING then wret UNDEFINED
      else wret BADINTERNALERROR
  | PublisherIdString s =>
      if ty =? UA_PUBLISHERDATATYPE_STRING then fc_encode (VString s) UA_TYPES_STRING
      else if (0 <=? ty) && (ty <? UA_PUBLISHERDATATYPE_STRING) then wret UNDEFINED
      else wret BADINTERNALERROR
  end.

Definition group_flags (g : UA_NetworkMessageGroupHeader) : Z :=
  Z.lor (flag (writerGroupIdEnabled g) GROUP_HEADER_WRITER_GROUPID_ENABLED)
 (Z.lor (flag (groupVersionEnabled g) GROUP_HEADER_GROUP_VERSION_ENABLED)
 (Z.lor (flag (networkMessageNumberEnabled g) GROUP_HEADER_NM_NUMBER_ENABLED)
        (flag (sequenceNumberEnabled g) GROUP_HEADER_SEQUENCE_NUMBER_ENABLED))).

Definition encode_groupHeader (g : UA_NetworkMessageGroupHeader) : wenc :=
  wthen (enc_byte (group_flags g))
 (wthen (wwhen (writerGroupIdEnabled g) (enc_uint16 (writerGroupId g)))
 (wthen (wwhen (groupVersionEnabled g) (enc_uint32 (groupVersion g)))
 (wthen (wwhen (networkMessageNumberEnabled g) (enc_uint16 (networkMessageNumber g)))
        (wwhen (sequenceNumberEnabled g) (enc_uint16 (sequenceNumber g)))))).

(** The status of the count is overwritten. *)
Definition encode_payloadHeader (src : UA_NetworkMessage) : wenc :=
  if negb (networkMessageType src =? UA_NETWORKMESSAGE_DATASET) then wret BADNOTIMPLEMENTED
  else
    wignore (enc_byte (payloadCount src))
      (if negb (arr_nonnull (dataSetWriterIds src)) then wret BADENCODINGERROR
       else wfor (Z.to_nat (payloadCount src)) (arr_list (dataSetWriterIds src)) enc_uint16).

(** The promoted fields are written one after the other whatever the status. *)
Fixpoint encode_promoted (count : nat) (fields : list UA_Value) : wenc :=
  match count with
  | O => wret GOOD
  | S count =>
      match fields with
      | f :: fields => wignore (fc_encode f UA_TYPES_VARIANT) (encode_promoted count fields)
      | [] => wret UNDEFINED
      end
  end.

Definition promoted_size (src : UA_NetworkMessage) : Z :=
  u16 (zsum_map (fun f => fc_size f UA_TYPES_VARIANT)
         (take (Z.to_nat (promotedFieldsSize src)) (arr_list (promotedFields src)))).

Definition security_flags (h : UA_NetworkMessageSecurityHeader) : Z :=
  Z.lor (flag (networkMessageSigned h) SECURITY_HEADER_NM_SIGNED)
 (Z.lor (flag (networkMessageEncrypted h) SECURITY_HEADER_NM_ENCRYPTED)
 (Z.lor (flag (securityFooterEnabled h) SECURITY_HEADER_SEC_FOOTER_ENABLED)
        (flag (forceKeyReset h) SECURITY_HEADER_FORCE_KEY_RESET))).

Definition encode_securityHeader (h : UA_NetworkMessageSecurityHeader) : wenc :=
  wthen (enc_byte (security_flags h))
 (wthen (enc_uint32 (securityTokenId h))
 (wthen (enc_byte (nonceLength h))
 (wthen (wfor (Z.to_nat (nonceLength h)) (arr_list (messageNonce h)) enc_byte)
        (wwhen (securityFooterEnabled h) (enc_uint16 (securityFooterSize h)))))).

(** The number of DataSetMessages. *)
Definition message_count (src : UA_NetworkMessage) : Z :=
  if payloadHeaderEnabled src then payloadCount src else 1.

(** The size field of message [i]: given, or computed when it is zero. *)
Definition message_size (sizes : UA_Array Z) (i : nat) (m : UA_DataSetMessage) : option Z :=
  match sizes with
  | ArrNull => Some (u16 (UA_DataSetMessage_calcSizeBinary m))
  | _ =>
      match arr_list sizes !! i with
      | Some sz => Some (if sz =? 0 then u16 (UA_DataSetMessage_calcSizeBinary m) else sz)
      | None => None
      end
  end.

Fixpoint encode_sizes (sizes : UA_Array Z) (i count : nat) (ms : list UA_DataSetMessage) : wenc :=
  match count with
  | O => wret GOOD
  | S count =>
      match ms with
      | m :: ms =>
          match message_size sizes i m with
          | Some sz => wthen (enc_uint16 sz) (encode_sizes sizes (S i) count ms)
          | None => wret UNDEFINED
          end
      | [] => wret UNDEFINED
      end
  end.

(** [for(UA_Byte i = 0; i < securityFooterSize; i++)]: the index has eight
    bits, the bound sixteen. *)
Fixpoint encode_footer (fuel : nat) (i size : Z) (footer : list Z) : wenc :=
  if i <? size then
    match fuel with
    | O => wret OUTOFFUEL
    | S fuel =>
        match footer !! Z.to_nat i with
        | Some b => wthen (enc_byte b) (encode_footer fuel (u8 (i + 1)) size footer)
        | None => wret UNDEFINED
        end
    end
  else wret GOOD.

Definition footer_fuel (b : wbuf) : nat := (256 + Z.to_nat (snd b))%nat.

(** Footer and signature behind the payload. *)
Definition encode_trailer (src : UA_NetworkMessage) : wenc := fun b =>
  let sec := securityHeader src in
  wthen (wwhen (securityFooterEnabled sec)
           (encode_footer (footer_fuel b) 0 (securityFooterSize sec)
              (arr_list (securityFooter src))))
        (wwhen (networkMessageSigned sec)
           (fc_encode (VString (signature src)) UA_TYPES_BYTESTRING)) b.

(** The DataSetMessages, preceded by their sizes when there are several. *)
Definition encode_payload (src : UA_NetworkMessage) : wenc :=
  if negb (networkMessageType src =? UA_NETWORKMESSAGE_DATASET) then wret BADNOTIMPLEMENTED
  else
    wthen (wwhen (payloadHeaderEnabled src && (1 <? payloadCount src))
             (encode_sizes (payloadSizes src) 0 (Z.to_nat (payloadCount src))
                (arr_list (dataSetMessages src))))
          (wfor (Z.to_nat (message_count src)) (arr_list (dataSetMessages src))
             UA_DataSetMessage_encodeBinary).

Definition encode_promotedFields (src : UA_NetworkMessage) : wenc :=
  wignore (enc_uint16 (promoted_size src))
    (encode_promoted (Z.to_nat (promotedFieldsSize src)) (arr_list (promotedFields src))).

(** The statuses of timestamp, picoseconds and promoted fields are
    overwritten before they are looked at. *)
Definition UA_NetworkMessage_encodeBinary (src : UA_NetworkMessage) : wenc :=
  wthen (encode_flags src)
 (wthen (wwhen (publisherIdEnabled src) (encode_publisherId src))
 (wthen (wwhen (dataSetClassIdEnabled src) (fc_encode (VGuid (dataSetClassId src)) UA_TYPES_GUID))
 (wthen (wwhen (groupHeaderEnabled src) (encode_groupHeader (groupHeader src)))
 (wthen (wwhen (payloadHeaderEnabled src) (encode_payloadHeader src))
 (wignore (wwhen (timestampEnabled src) (enc_datetime (timestamp src)))
 (wignore (wwhen (picosecondsEnabled src) (enc_uint16 (picoseconds src)))
 (wignore (wwhen (promotedFieldsEnabled src) (encode_promotedFields src))
 (wthen (wwhen (securityEnabled src) (encode_securityHeader (securityHeader src)))
 (wthen (encode_payload src)
        (wwhen (securityEnabled src) (encode_trailer src))))))))))).

(** ** NetworkMessage: reading *)

Definition decode_publisherId (ty : Z) : ndec PublisherId :=
  if ty =? UA_PUBLISHERDATATYPE_BYTE then let? z := dec_byte in nret (PublisherIdInt z)
  else if ty =? UA_PUBLISHERDATATYPE_UINT16 then let? z := dec_uint16 in nret (PublisherIdInt z)
  else if ty =? UA_PUBLISHERDATATYPE_UINT32 then let? z := dec_uint32 in nret (PublisherIdInt z)
  else if ty =? UA_PUBLISHERDATATYPE_UINT64 then let? z := dec_uint64 in nret (PublisherIdInt z)
  else if ty =? UA_PUBLISHERDATATYPE_STRING then
    let? s := dec_string UA_TYPES_STRING in nret (PublisherIdString s)
  else nfail BADINTERNALERROR.

Definition groupHeader_zero : UA_NetworkMessageGroupHeader :=
  mkGroupHeader false false false false 0 0 0 0.

Definition decode_groupHeader : ndec UA_NetworkMessageGroupHeader :=
  let? v := dec_byte in
  let e1 := has v GROUP_HEADER_WRITER_GROUPID_ENABLED in
  let e2 := has v GROUP_HEADER_GROUP_VERSION_ENABLED in
  let e3 := has v GROUP_HEADER_NM_NUMBER_ENABLED in
  let e4 := has v GROUP_HEADER_SEQUENCE_NUMBER_ENABLED in
  let? wg := nwhen e1 0 dec_uint16 in
  let? gv := nwhen e2 0 dec_uint32 in
  let? nr := nwhen e3 0 dec_uint16 in
  let? sn := nwhen e4 0 dec_uint16 in
  nret (mkGroupHeader e1 e2 e3 e4 wg gv nr sn).

Definition decode_payloadHeader (nmType : Z) : ndec (Z * UA_Array Z) :=
  if negb (nmType =? UA_NETWORKMESSAGE_DATASET) then nfail BADNOTIMPLEMENTED
  else
    let? count := dec_byte in
    nalloc count (
      let? ids := nfor (Z.to_nat count) dec_uint16 in
      nret (count, new_array ids)).

(** [do { ... } while(offset < offsetEnd)], at least one variant; the array
    grows by one element for each. *)
Fixpoint decode_promoted_loop (fuel : nat) (offsetEnd : Z) : ndec (list UA_Value) :=
  fun src off =>
    match fuel with
    | O => (OUTOFFUEL, None, off)
    | S fuel =>
        nalloc 1
          (let? v := dec_value UA_TYPES_VARIANT in
           fun src off =>
             if off <? offsetEnd then
               (let? l := decode_promoted_loop fuel offsetEnd in nret (v :: l)) src off
             else nret [v] src off) src off
    end.

Definition decode_promoted : ndec (Z * UA_Array UA_Value) :=
  let? size := dec_uint16 in
  if 0 <? size then
    fun src off =>
      (let? l := decode_promoted_loop (S (Z.to_nat size)) (off + size) in
       nret (u16 (zlen l), ArrData l)) src off
  else nret (0, ArrNull).

Definition securityHeader_zero : UA_NetworkMessageSecurityHeader :=
  mkSecurityHeader false false false false 0 0 ArrNull 0.

Definition decode_securityHeader : ndec UA_NetworkMessageSecurityHeader :=
  let? v := dec_byte in
  let footerEnabled := has v SECURITY_HEADER_SEC_FOOTER_ENABLED in
  let? tokenId := dec_uint32 in
  let? nonceLen := dec_byte in
  let? nonce := nwhen (0 <? nonceLen) ArrNull
                  (nalloc_checked nonceLen
                    (let? l := nfor (Z.to_nat nonceLen) dec_byte in nret (ArrData l))) in
  let? footerSize := nwhen footerEnabled 0 dec_uint16 in
  nret (mkSecurityHeader (has v SECURITY_HEADER_NM_SIGNED) (has v SECURITY_HEADER_NM_ENCRYPTED)
          footerEnabled (has v SECURITY_HEADER_FORCE_KEY_RESET) tokenId nonceLen nonce
          footerSize).

(** The loop over the footer; [data] is the buffer of [securityFooterSize]
    bytes that is being filled. *)
Fixpoint decode_footer (fuel : nat) (i size : Z) (data : list Z) : ndec (list Z) :=
  if i <? size then
    match fuel with
    | O => nfail OUTOFFUEL
    | S fuel =>
        let? b := dec_byte in
        decode_footer fuel (u8 (i + 1)) size (<[Z.to_nat i := b]> data)
    end
  else nret data.

(** [messageType] of ExtendedFlags2: [(v & NM_NETWORK_MSG_TYPE_MASK) >> NM_SHIFT_LEN] *)
Definition decode_messageType (v : Z) : Z :=
  Z.shiftr (Z.land v NM_NETWORK_MSG_TYPE_MASK) NM_SHIFT_LEN.

Definition NetworkMessage_decode (lost : status -> status) : ndec UA_NetworkMessage :=
  let? v := dec_byte in
  let pidEnabled := has v NM_PUBLISHER_ID_ENABLED_MASK in
  let groupEnabled := has v NM_GROUP_HEADER_ENABLED_MASK in
  let payloadEnabled := has v NM_PAYLOAD_HEADER_ENABLED_MASK in
  let? v1 := nwhen (has v NM_EXTENDEDFLAGS1_ENABLED_MASK) 0 dec_byte in
  let pidType := Z.land v1 NM_PUBLISHER_ID_MASK in
  let classEnabled := has v1 NM_DATASET_CLASSID_ENABLED_MASK in
  let secEnabled := has v1 NM_SECURITY_ENABLED_MASK in
  let tsEnabled := has v1 NM_TIMESTAMP_ENABLED_MASK in
  let picoEnabled := has v1 NM_PICOSECONDS_ENABLED_MASK in
  let? v2 := nwhen (has v1 NM_EXTENDEDFLAGS2_ENABLED_MASK) 0 dec_byte in
  let chunk := has v2 NM_CHUNK_MESSAGE_MASK in
  let promEnabled := has v2 NM_PROMOTEDFIELDS_ENABLED_MASK in
  let nmType := decode_messageType v2 in
  let? pid := nwhen pidEnabled (PublisherIdInt 0) (decode_publisherId pidType) in
  let? classId := nwhen classEnabled UA_GUID_NULL dec_guid in
  let? group := nwhen groupEnabled groupHeader_zero decode_groupHeader in
  let? ph := nwhen payloadEnabled (0, ArrNull) (decode_payloadHeader nmType) in
  let? ts := nwhen tsEnabled 0 dec_datetime in
  let? pico := nwhen picoEnabled 0 dec_uint16 in
  let? prom := nwhen promEnabled (0, ArrNull) decode_promoted in
  let? sec := nwhen secEnabled securityHeader_zero decode_securityHeader in
  if negb (nmType =? UA_NETWORKMESSAGE_DATASET) then nfail BADNOTIMPLEMENTED
  else
    let count := if payloadEnabled then fst ph else 1 in
    let? sizes := nwhen (payloadEnabled && (1 <? count)) ArrNull
                    (nalloc count
                      (let? l := nfor (Z.to_nat count) dec_uint16 in nret (new_array l))) in
    let? ms := nalloc count (nfor (Z.to_nat count) (DataSetMessage_decode lost)) in
    let? footer :=
      nwhen (secEnabled && securityFooterEnabled sec && (0 <? securityFooterSize sec)) ArrNull
        (nalloc_checked (securityFooterSize sec) (fun src off =>
           (let? l := decode_footer (256 + length src) 0 (securityFooterSize sec)
                        (replicate (Z.to_nat (securityFooterSize sec)) 0) in
            nret (ArrData l)) src off)) in
    let? sig := nwhen (secEnabled && networkMessageSigned sec) ArrNull
                  (dec_string UA_TYPES_BYTESTRING) in
    nret (mkNetworkMessage (Z.land v NM_VERSION_MASK) pidEnabled groupEnabled payloadEnabled
            pidType classEnabled secEnabled tsEnabled picoEnabled chunk promEnabled nmType
            pid classId group (fst ph) (snd ph) ts pico (fst prom) (snd prom) sec sizes
            (ArrData ms) footer sig).

Definition UA_NetworkMessage_decodeBinaryInternal : ndec UA_NetworkMessage :=
  NetworkMessage_decode (fun rv => rv).

(** On an error [UA_NetworkMessage_deleteMembers] releases what has been
    decoded.  All pointers in it are set or null, but
    [UA_DataSetMessage_free] deletes all [fieldCount] fields of a delta frame:
    when the error has come before the last one was initialised, it frees what
    uninitialised memory points to. *)
Definition UA_NetworkMessage_decodeBinary : ndec UA_NetworkMessage := fun src off =>
  let '(retval, dst, off) := NetworkMessage_decode (fun _ => UNDEFINED) src off in
  if bad retval then (retval, None, off) else (retval, dst, off).

(** ** NetworkMessage: size *)

Definition publisherId_size (p : UA_NetworkMessage) : Z :=
  let ty := publisherIdType p in
  if ty =? UA_PUBLISHERDATATYPE_BYTE then size_byte
  else if ty =? UA_PUBLISHERDATATYPE_UINT16 then size_uint16
  else if ty =? UA_PUBLISHERDATATYPE_UINT32 then size_uint32
  else if ty =? UA_PUBLISHERDATATYPE_UINT64 then size_uint64
  else if ty =? UA_PUBLISHERDATATYPE_STRING then
    match publisherId p with
    | PublisherIdString s => fc_size (VString s) UA_TYPES_STRING
    | PublisherIdInt _ => 0
    end
  else 0.

Definition UA_NetworkMessage_calcSizeBinary (p : UA_NetworkMessage) : Z :=
  let g := groupHeader p in
  let sec := securityHeader p in
  let dataset := networkMessageType p =? UA_NETWORKMESSAGE_DATASET in
  if payloadHeaderEnabled p && dataset && negb (arr_nonnull (dataSetWriterIds p)) then 0
  else
    size_byte
    + size_when (UA_NetworkMessage_ExtendedFlags1Enabled p)
        (size_byte + size_when (UA_NetworkMessage_ExtendedFlags2Enabled p) size_byte)
    + size_when (publisherIdEnabled p) (publisherId_size p)
    + size_when (dataSetClassIdEnabled p) (fc_size (VGuid (dataSetClassId p)) UA_TYPES_GUID)
    + size_when (groupHeaderEnabled p)
        (size_byte + size_when (writerGroupIdEnabled g) size_uint16
         + size_when (groupVersionEnabled g) size_uint32
         + size_when (networkMessageNumberEnabled g) size_uint16
         + size_when (sequenceNumberEnabled g) size_uint16)
    + size_when (payloadHeaderEnabled p && dataset)
        (size_byte + size_uint16 * payloadCount p)
    + size_when (timestampEnabled p) size_datetime
    + size_when (picosecondsEnabled p) size_uint16
    + size_when (promotedFieldsEnabled p)
        (size_uint16 +
         zsum_map (fun f => fc_size f UA_TYPES_VARIANT)
           (take (Z.to_nat (promotedFieldsSize p)) (arr_list (promotedFields p))))
    + size_when (securityEnabled p)
        (size_byte + size_uint32 + size_byte
         + size_when (0 <? nonceLength sec) (size_byte * nonceLength sec)
         + size_when (securityFooterEnabled sec) size_uint16)
    + size_when dataset
        (size_when (payloadHeaderEnabled p && (1 <? payloadCount p))
           (size_uint16 * payloadCount p)
         + zsum_map UA_DataSetMessage_calcSizeBinary
             (take (Z.to_nat (message_count p)) (arr_list (dataSetMessages p))))
    + size_when (securityEnabled p)
        (size_when (securityFooterEnabled sec) (securityFooterSize sec)
         + size_when (networkMessageSigned sec)
             (fc_size (VString (signature p)) UA_TYPES_BYTESTRING)).
End Messages.

(** ** Deleting

    The heap blocks that a message refers to.  The contents of a field value
    are released together with the array that holds it. *)

Inductive Block :=
| BPublisherId
| BWriterIds
| BPromoted
| BNonce
| BSizes
| BMessages
| BFields (message : nat)
| BFooter
| BSignature.

#[export] Instance Block_eq_dec : EqDecision Block.
Proof. solve_decision. Defined.

(** [UA_free] of a null pointer or of the sentinel does nothing. *)
Definition UA_free {A} (p : UA_Array A) (b : Block) : list Block :=
  match p with ArrData _ => [b] | _ => [] end.

Definition UA_DataSetMessage_free (i : nat) (p : UA_DataSetMessage) : list Block :=
  let ty := dataSetMessageType (header p) in
  match data p with
  | KeyFrameData _ fields =>
      if ty =? UA_DATASETMESSAGE_DATAKEYFRAME then UA_free fields (BFields i) else []
  | DeltaFrameData _ fields =>
      if ty =? UA_DATASETMESSAGE_DATADELTAFRAME then UA_free fields (BFields i) else []
  end.

Fixpoint free_messages (i count : nat) (ms : list UA_DataSetMessage) : list Block :=
  match count, ms with
  | S count, m :: ms => UA_DataSetMessage_free i m ++ free_messages (S i) count ms
  | _, _ => []
  end.

Definition nm_zero : UA_NetworkMessage :=
  mkNetworkMessage 0 false false false 0 false false false false false false 0 (PublisherIdInt 0)
    UA_GUID_NULL groupHeader_zero 0 ArrNull 0 0 0 ArrNull securityHeader_zero ArrNull ArrNull
    ArrNull ArrNull.

(** The blocks that are freed, in order, and the message afterwards. *)
Definition UA_NetworkMessage_deleteMembers (p : UA_NetworkMessage) :
    list Block * UA_NetworkMessage :=
  let sec := securityHeader p in
  let promoted := if promotedFieldsEnabled p then UA_free (promotedFields p) BPromoted else [] in
  let nonce := if securityEnabled p && (0 <? nonceLength sec)
               then UA_free (messageNonce sec) BNonce else [] in
  let payload :=
    if networkMessageType p =? UA_NETWORKMESSAGE_DATASET then
      (if payloadHeaderEnabled p
       then UA_free (dataSetWriterIds p) BWriterIds ++ UA_free (payloadSizes p) BSizes else [])
      ++ (if arr_nonnull (dataSetMessages p)
          then free_messages 0 (Z.to_nat (message_count p)) (arr_list (dataSetMessages p))
               ++ UA_free (dataSetMessages p) BMessages else [])
    else [] in
  let footer := if securityFooterEnabled sec && (0 <? securityFooterSize sec)
                then UA_free (securityFooter p) BFooter else [] in
  (promoted ++ nonce ++ payload ++ footer, nm_zero).
