(* ===== verification/NetworkMessageCorrect.v ===== *)
(** * PubSub messages: encoding, size and decoding agree

    Proved for any [FieldCodec] that satisfies [FieldCodecLaws].  [dsm_bytes]
    and [nm_bytes] are the wire forms of the messages; [dsm_wf] and [nm_wf]
    describe the messages that a decoder can reproduce: the members of parts
    that are not enabled are zero, counts agree with arrays, and only the
    implemented message types and field encodings occur. *)

From Stdlib Require Import ZArith Lia.
From stdpp Require Import base list numbers tactics sets.
From S2P Require Import Prelude UaTypes UaValue BinarySpec FieldCodec NetworkMessage.

Create Rewrite HintDb nm.

Section Correct.
Context {FC : FieldCodec} {FL : FieldCodecLaws FC} {NM : NMAllocator}.

Abbreviation B_byte z := (fc_bytes (VInt z) UA_TYPES_BYTE).
Abbreviation B_uint16 z := (fc_bytes (VInt z) UA_TYPES_UINT16).
Abbreviation B_uint32 z := (fc_bytes (VInt z) UA_TYPES_UINT32).
Abbreviation B_uint64 z := (fc_bytes (VInt z) UA_TYPES_UINT64).
Abbreviation B_datetime z := (fc_bytes (VInt z) UA_TYPES_DATETIME).

(** ** Writing: [m] writes [bs] when there is room *)

Definition wok (m : wenc) (bs : list Z) : Prop :=
  forall o r, zlen bs <= r -> m (o, r) = (GOOD, (o ++ bs, r - zlen bs)).

Lemma wok_then m1 m2 bs1 bs2 : wok m1 bs1 -> wok m2 bs2 -> wok (wthen m1 m2) (bs1 ++ bs2).
Proof.
  intros H1 H2 o r Hr; rewrite zlen_app in *; pose proof (zlen_nonneg bs1);
    pose proof (zlen_nonneg bs2); unfold wthen.
  rewrite H1, bad_good, H2, app_assoc by lia; by rewrite Z.sub_add_distr.
Qed.

Lemma wok_ignore m1 m2 bs1 bs2 : wok m1 bs1 -> wok m2 bs2 -> wok (wignore m1 m2) (bs1 ++ bs2).
Proof.
  intros H1 H2 o r Hr; rewrite zlen_app in *; pose proof (zlen_nonneg bs1);
    pose proof (zlen_nonneg bs2); unfold wignore.
  rewrite H1 by lia; cbn [Z.eqb GOOD UNDEFINED]; rewrite H2, app_assoc by lia;
    by rewrite Z.sub_add_distr.
Qed.

Lemma wok_ret : wok (wret GOOD) [].
Proof.
  intros o r _; unfold wret; rewrite app_nil_r; change (zlen (@nil Z)) with 0.
  by rewrite Z.sub_0_r.
Qed.

Lemma wok_when (b : bool) m bs : (b = true -> wok m bs) -> wok (wwhen b m) (when b bs).
Proof. destruct b; simpl; [auto|]; intros _; apply wok_ret. Qed.

Lemma wok_for {A} (f : A -> wenc) (g : A -> list Z) l :
  Forall (fun a => wok (f a) (g a)) l -> wok (wfor (length l) l f) (concat (map g l)).
Proof. induction 1; simpl; [apply wok_ret|by apply wok_then]. Qed.

Lemma wok_fc v t : fc_wf v t -> wok (fc_encode v t) (fc_bytes v t).
Proof. intros Hw o r Hr; by apply fc_encode_fits. Qed.

Lemma wok_eq m bs bs' : wok m bs -> bs = bs' -> wok m bs'.
Proof. by intros ? ->. Qed.

(** ** Reading: from a buffer that holds [bs] at the offset *)

Definition ndok {A} (m : ndec A) (bs : list Z) (a : A) : Prop :=
  forall pre post, m (pre ++ bs ++ post) (zlen pre) = (GOOD, Some a, zlen pre + zlen bs).

Lemma ndok_bind {A B} (m : ndec A) (k : A -> ndec B) bs1 bs2 a b :
  ndok m bs1 a -> ndok (k a) bs2 b -> ndok (nbind m k) (bs1 ++ bs2) b.
Proof.
  intros H1 H2 pre post; unfold nbind; rewrite <- app_assoc, H1, bad_good.
  specialize (H2 (pre ++ bs1) post); rewrite <- app_assoc, zlen_app in H2.
  by rewrite H2, zlen_app, Z.add_assoc.
Qed.

Lemma ndok_ret {A} (a : A) : ndok (nret a) [] a.
Proof.
  intros pre post; unfold nret; change (zlen (@nil Z)) with 0; by rewrite Z.add_0_r.
Qed.

Lemma ndok_when {A} (b : bool) (zero a : A) m bs :
  (b = true -> ndok m bs a) -> (b = false -> a = zero) -> ndok (nwhen b zero m) (when b bs) a.
Proof. destruct b; simpl; intros Hm Hz; [auto|]; rewrite Hz by done; apply ndok_ret. Qed.

Lemma ndok_map {A B} (m : ndec A) (k : A -> ndec B) bs a b :
  ndok m bs a -> ndok (k a) [] b -> ndok (nbind m k) bs b.
Proof. intros; rewrite <- (app_nil_r bs); by eapply ndok_bind. Qed.

Lemma ndok_for {A} (m : ndec A) (g : A -> list Z) l :
  Forall (fun a => ndok m (g a) a) l -> ndok (nfor (length l) m) (concat (map g l)) l.
Proof.
  induction 1 as [|a l Ha Hl IH]; simpl; [apply ndok_ret|].
  eapply ndok_bind; [done|]; eapply ndok_map; [done|apply ndok_ret].
Qed.

(** With memory; a step that succeeds leaves nothing behind. *)
Lemma ndok_alloc {A} n (k : ndec A) bs a :
  (forall off n, nm_malloc off n = true) -> ndok k bs a -> ndok (nalloc n k) bs a.
Proof. intros Hmem Hk pre post; unfold nalloc; rewrite Hmem, andb_false_r; apply Hk. Qed.

Lemma ndok_alloc_checked {A} n (k : ndec A) bs a :
  (forall off n, nm_malloc off n = true) -> ndok k bs a -> ndok (nalloc_checked n k) bs a.
Proof. intros Hmem Hk pre post; unfold nalloc_checked; rewrite Hmem; apply Hk. Qed.

Lemma ndok_lost {A} lost (m : ndec A) bs a : ndok m bs a -> ndok (nlost lost m) bs a.
Proof. intros Hm pre post; unfold nlost; by rewrite Hm. Qed.

Lemma ndok_value v t : fc_wf v t -> ndok (dec_value t) (fc_bytes v t) v.
Proof. intros Hw pre post; by apply fc_decode_bytes. Qed.

Lemma ndok_int z t : fc_wf (VInt z) t -> ndok (dec_int t) (fc_bytes (VInt z) t) z.
Proof. intros Hw; unfold dec_int; eapply ndok_map; [by apply ndok_value|apply ndok_ret]. Qed.

Lemma ndok_byte z : 0 <= z < 2 ^ 8 -> ndok dec_byte (B_byte z) z.
Proof. intros; by apply ndok_int, fc_wf_byte. Qed.
Lemma ndok_uint16 z : 0 <= z < 2 ^ 16 -> ndok dec_uint16 (B_uint16 z) z.
Proof. intros; by apply ndok_int, fc_wf_uint16. Qed.
Lemma ndok_uint32 z : 0 <= z < 2 ^ 32 -> ndok dec_uint32 (B_uint32 z) z.
Proof. intros; by apply ndok_int, fc_wf_uint32. Qed.
Lemma ndok_uint64 z : 0 <= z < 2 ^ 64 -> ndok dec_uint64 (B_uint64 z) z.
Proof. intros; by apply ndok_int, fc_wf_uint64. Qed.
Lemma ndok_datetime z : 0 <= z < 2 ^ 64 -> ndok dec_datetime (B_datetime z) z.
Proof. intros; by apply ndok_int, fc_wf_datetime. Qed.

Lemma ndok_string s t : fc_wf (VString s) t -> ndok (dec_string t) (fc_bytes (VString s) t) s.
Proof. intros Hw; unfold dec_string; eapply ndok_map; [by apply ndok_value|apply ndok_ret]. Qed.

Lemma ndok_guid g : fc_wf (VGuid g) UA_TYPES_GUID ->
  ndok dec_guid (fc_bytes (VGuid g) UA_TYPES_GUID) g.
Proof. intros Hw; unfold dec_guid; eapply ndok_map; [by apply ndok_value|apply ndok_ret]. Qed.

(** The size of an integer does not depend on its value. *)
Lemma size_byte_1 : size_byte = 1.
Proof. unfold size_byte; rewrite fc_size_bytes, fc_bytes_byte; [done|apply fc_wf_byte; lia]. Qed.
Lemma size_uint16_2 : size_uint16 = 2.
Proof. unfold size_uint16; rewrite fc_size_bytes, fc_len_uint16; [done|apply fc_wf_uint16; lia]. Qed.
Lemma size_uint32_4 : size_uint32 = 4.
Proof. unfold size_uint32; rewrite fc_size_bytes, fc_len_uint32; [done|apply fc_wf_uint32; lia]. Qed.
Lemma size_uint64_8 : size_uint64 = 8.
Proof. unfold size_uint64; rewrite fc_size_bytes, fc_len_uint64; [done|apply fc_wf_uint64; lia]. Qed.
Lemma size_datetime_8 : size_datetime = 8.
Proof.
  unfold size_datetime; rewrite fc_size_bytes, fc_len_datetime; [done|apply fc_wf_datetime; lia].
Qed.

Lemma zlen_byte z : zlen (B_byte z) = 1.
Proof. by rewrite fc_bytes_byte. Qed.

Lemma zlen_size_when b (l : list Z) : zlen (when b l) = size_when b (zlen l).
Proof. by destruct b. Qed.

#[local] Hint Rewrite @zlen_app @zlen_size_when zlen_byte fc_len_uint16 fc_len_uint32 fc_len_uint64
  fc_len_datetime size_byte_1 size_uint16_2 size_uint32_4 size_uint64_8 size_datetime_8 : nm.

(** ** DataSetMessage header *)

Definition zero_unless (b : bool) (z : Z) : Prop := b = false -> z = 0.

Record dsmh_wf (h : UA_DataSetMessageHeader) : Prop := mkDsmhWf {
  hw_fe : fieldEncoding h = UA_FIELDENCODING_VARIANT \/
          fieldEncoding h = UA_FIELDENCODING_DATAVALUE;
  hw_ty : dataSetMessageType h = UA_DATASETMESSAGE_DATAKEYFRAME \/
          dataSetMessageType h = UA_DATASETMESSAGE_DATADELTAFRAME \/
          dataSetMessageType h = UA_DATASETMESSAGE_KEEPALIVE;
  hw_seq : 0 <= dataSetMessageSequenceNr h < 2 ^ 16 /\
           zero_unless (dataSetMessageSequenceNrEnabled h) (dataSetMessageSequenceNr h);
  hw_ts : 0 <= h_timestamp h < 2 ^ 64 /\ zero_unless (h_timestampEnabled h) (h_timestamp h);
  hw_pico : 0 <= picoSeconds h < 2 ^ 16 /\ zero_unless (picoSecondsIncluded h) (picoSeconds h);
  hw_status : 0 <= h_status h < 2 ^ 16 /\ zero_unless (statusEnabled h) (h_status h);
  hw_major : 0 <= configVersionMajorVersion h < 2 ^ 32 /\
             zero_unless (configVersionMajorVersionEnabled h) (configVersionMajorVersion h);
  hw_minor : 0 <= configVersionMinorVersion h < 2 ^ 32 /\
             zero_unless (configVersionMinorVersionEnabled h) (configVersionMinorVersion h)
}.

Definition dsmh_bytes (h : UA_DataSetMessageHeader) : list Z :=
  B_byte (dsm_flags1 h)
  ++ when (UA_DataSetMessageHeader_DataSetFlags2Enabled h) (B_byte (dsm_flags2 h))
  ++ when (dataSetMessageSequenceNrEnabled h) (B_uint16 (dataSetMessageSequenceNr h))
  ++ when (h_timestampEnabled h) (B_datetime (h_timestamp h))
  ++ when (picoSecondsIncluded h) (B_uint16 (picoSeconds h))
  ++ when (statusEnabled h) (B_uint16 (h_status h))
  ++ when (configVersionMajorVersionEnabled h) (B_uint32 (configVersionMajorVersion h))
  ++ when (configVersionMinorVersionEnabled h) (B_uint32 (configVersionMinorVersion h)).

(** The bits of DataSetFlags1: field encoding, six flags and the presence of
    DataSetFlags2. *)
Lemma dsm_flags1_bits fe b0 b3 b4 b5 b6 b7 : 0 <= fe < 3 ->
  let v := Z.lor (u8 (Z.shiftl fe 1)) (Z.lor (flag b0 1) (Z.lor (flag b3 8) (Z.lor (flag b4 16)
             (Z.lor (flag b5 32) (Z.lor (flag b6 64) (flag b7 128)))))) in
  0 <= v < 2 ^ 8 /\ Z.shiftr (Z.land v 6) 1 = fe /\ has v 1 = b0 /\ has v 8 = b3 /\
  has v 16 = b4 /\ has v 32 = b5 /\ has v 64 = b6 /\ has v 128 = b7.
Proof.
  intros Hfe; assert (fe = 0 \/ fe = 1 \/ fe = 2) as [-> | [-> | ->]] by lia;
    destruct b0, b3, b4, b5, b6, b7; vm_compute; repeat split; congruence.
Qed.

Lemma dsm_flags2_bits ty b4 b5 : 0 <= ty < 4 ->
  let v := Z.lor (u8 ty) (Z.lor (flag b4 16) (flag b5 32)) in
  0 <= v < 2 ^ 8 /\ Z.land v 15 = ty /\ has v 16 = b4 /\ has v 32 = b5.
Proof.
  intros Hty; assert (ty = 0 \/ ty = 1 \/ ty = 2 \/ ty = 3) as [-> | [-> | [-> | ->]]] by lia;
    destruct b4, b5; vm_compute; repeat split; congruence.
Qed.

Lemma dsmh_flags1_ok h : dsmh_wf h ->
  let v := dsm_flags1 h in
  0 <= v < 2 ^ 8 /\
  Z.shiftr (Z.land v DS_MESSAGEHEADER_FIELD_ENCODING_MASK) DS_MH_SHIFT_LEN = fieldEncoding h /\
  has v DS_MESSAGEHEADER_DS_MSG_VALID = dataSetMessageValid h /\
  has v DS_MESSAGEHEADER_SEQ_NR_ENABLED_MASK = dataSetMessageSequenceNrEnabled h /\
  has v DS_MESSAGEHEADER_STATUS_ENABLED_MASK = statusEnabled h /\
  has v DS_MESSAGEHEADER_CONFIGMAJORVERSION_ENABLED_MASK = configVersionMajorVersionEnabled h /\
  has v DS_MESSAGEHEADER_CONFIGMINORVERSION_ENABLED_MASK = configVersionMinorVersionEnabled h /\
  has v DS_MESSAGEHEADER_FLAGS2_ENABLED_MASK = UA_DataSetMessageHeader_DataSetFlags2Enabled h.
Proof.
  intros Hw; unfold dsm_flags1; apply dsm_flags1_bits.
  destruct (hw_fe h Hw) as [-> | ->]; vm_compute; split; congruence.
Qed.

Lemma dsmh_ty_range h : dsmh_wf h -> 0 <= dataSetMessageType h < 4.
Proof. intros Hw; destruct (hw_ty h Hw) as [-> | [-> | ->]]; vm_compute; split; congruence. Qed.

(** What the decoder has read for DataSetFlags2; zero when it is absent. *)
Lemma dsmh_flags2_ok h : dsmh_wf h ->
  let v2 := if UA_DataSetMessageHeader_DataSetFlags2Enabled h then dsm_flags2 h else 0 in
  0 <= dsm_flags2 h < 2 ^ 8 /\
  has v2 DS_MESSAGEHEADER_TIMESTAMP_ENABLED_MASK = h_timestampEnabled h /\
  has v2 DS_MESSAGEHEADER_PICOSECONDS_INCLUDED_MASK = picoSecondsIncluded h /\
  Z.land v2 DS_MESSAGEHEADER_DS_MESSAGE_TYPE_MASK = dataSetMessageType h.
Proof.
  intros Hw; destruct (dsm_flags2_bits (dataSetMessageType h) (h_timestampEnabled h)
    (picoSecondsIncluded h) (dsmh_ty_range h Hw)) as (H0 & H1 & H2 & H3).
  change (Z.lor (u8 _) _) with (dsm_flags2 h) in H0, H1, H2, H3.
  cbv zeta; destruct (UA_DataSetMessageHeader_DataSetFlags2Enabled h) eqn:E; [repeat split; tauto|].
  unfold UA_DataSetMessageHeader_DataSetFlags2Enabled in E; zbool.
  repeat split; try tauto; symmetry; (etransitivity; [eassumption|reflexivity]).
Qed.

Ltac fc_int := first [apply fc_wf_byte | apply fc_wf_uint16 | apply fc_wf_uint32
                     | apply fc_wf_uint64 | apply fc_wf_datetime].
Ltac nd_int := first [apply ndok_byte | apply ndok_uint16 | apply ndok_uint32
                     | apply ndok_uint64 | apply ndok_datetime].

Lemma dsmh_encode h : dsmh_wf h -> wok (UA_DataSetMessageHeader_encodeBinary h) (dsmh_bytes h).
Proof.
  intros Hw; destruct (dsmh_flags1_ok h Hw) as [? _], (dsmh_flags2_ok h Hw) as [? _]; destruct Hw.
  unfold UA_DataSetMessageHeader_encodeBinary, dsmh_bytes.
  repeat apply wok_then; try (apply wok_when; intros _); apply wok_fc; fc_int; tauto.
Qed.

(** One optional member of a structure: read when enabled, zero otherwise. *)
Ltac nd_step :=
  eapply ndok_bind; [apply ndok_when; [intros _; nd_int; tauto | unfold zero_unless in *; tauto]|].

Lemma dsmh_decode h : dsmh_wf h -> ndok UA_DataSetMessageHeader_decodeBinary (dsmh_bytes h) h.
Proof.
  intros Hw; destruct (dsmh_flags1_ok h Hw) as (R1 & E1 & E2 & E3 & E4 & E5 & E6 & E7).
  destruct (dsmh_flags2_ok h Hw) as (R2 & G1 & G2 & G3); destruct Hw.
  unfold UA_DataSetMessageHeader_decodeBinary, dsmh_bytes.
  eapply ndok_bind; [nd_int; done|]; cbv zeta; rewrite E1, E2, E3, E4, E5, E6, E7.
  eapply ndok_bind; [apply (ndok_when _ _ (if UA_DataSetMessageHeader_DataSetFlags2Enabled h
    then dsm_flags2 h else 0)); intros ->; [nd_int|]; done|].
  rewrite G1, G2, G3; do 5 nd_step.
  eapply ndok_map; [apply ndok_when; [intros _; nd_int; tauto|unfold zero_unless in *; tauto]|].
  destruct h; apply ndok_ret.
Qed.

Lemma dsmh_size h : UA_DataSetMessageHeader_calcSizeBinary h = zlen (dsmh_bytes h).
Proof.
  unfold UA_DataSetMessageHeader_calcSizeBinary, dsmh_bytes; autorewrite with nm; lia.
Qed.

(** ** DataSetMessage *)

(** A field of a message with field encoding [fe]: with Variant encoding only
    the value is kept. *)
Definition field_wf (fe : Z) (f : UA_Value) : Prop :=
  if fe =? UA_FIELDENCODING_VARIANT
  then exists v, f = value_field v /\ fc_wf v UA_TYPES_VARIANT
  else fc_wf f UA_TYPES_DATAVALUE.

Definition field_bytes (fe : Z) (f : UA_Value) : list Z :=
  if fe =? UA_FIELDENCODING_VARIANT then
    match f with VDataValue _ v => fc_bytes v UA_TYPES_VARIANT | _ => [] end
  else fc_bytes f UA_TYPES_DATAVALUE.

Definition dfield_bytes (fe : Z) (f : Z * UA_Value) : list Z :=
  B_uint16 (fst f) ++ field_bytes fe (snd f).

Record dsm_wf (m : UA_DataSetMessage) : Prop := mkDsmWf {
  mw_header : dsmh_wf (header m);
  mw_data :
    let fe := fieldEncoding (header m) in
    match data m with
    | KeyFrameData n fields =>
        (dataSetMessageType (header m) = UA_DATASETMESSAGE_DATAKEYFRAME /\
         0 <= n < 2 ^ 16 /\ exists l, fields = new_array l /\ zlen l = n /\
         Forall (field_wf fe) l) \/
        (dataSetMessageType (header m) = UA_DATASETMESSAGE_KEEPALIVE /\ n = 0 /\
         fields = ArrNull)
    | DeltaFrameData n fields =>
        dataSetMessageType (header m) = UA_DATASETMESSAGE_DATADELTAFRAME /\
        0 <= n < 2 ^ 16 /\ exists l, fields = ArrData l /\ zlen l = n /\
        Forall (fun '(i, f) => 0 <= i < 2 ^ 16 /\ field_wf fe f) l
    end
}.

Definition dsm_bytes (m : UA_DataSetMessage) : list Z :=
  let fe := fieldEncoding (header m) in
  dsmh_bytes (header m) ++
  (if dataSetMessageType (header m) =? UA_DATASETMESSAGE_KEEPALIVE then []
   else match data m with
        | KeyFrameData n fields => B_uint16 n ++ concat (map (field_bytes fe) (arr_list fields))
        | DeltaFrameData n fields => B_uint16 n ++ concat (map (dfield_bytes fe) (arr_list fields))
        end).

Lemma field_encode fe f : field_wf fe f -> wok (enc_field fe f) (field_bytes fe f).
Proof.
  unfold field_wf, enc_field, field_bytes; destruct (fe =? _); [|apply wok_fc].
  intros (v & -> & Hv); by apply wok_fc.
Qed.

Lemma field_decode fe f : field_wf fe f -> ndok (dec_field fe) (field_bytes fe f) f.
Proof.
  unfold field_wf, dec_field, field_bytes; destruct (fe =? _); [|apply ndok_value].
  intros (v & -> & Hv); eapply ndok_map; [by apply ndok_value|apply ndok_ret].
Qed.

Lemma dsm_fe m : dsm_wf m ->
  (fieldEncoding (header m) =? UA_FIELDENCODING_RAWDATA) = false /\
  (fieldEncoding (header m) =? UA_FIELDENCODING_VARIANT)
    || (fieldEncoding (header m) =? UA_FIELDENCODING_DATAVALUE) = true.
Proof. intros [[[-> | ->]] _]; done. Qed.

Lemma dsm_encode m : dsm_wf m -> wok (UA_DataSetMessage_encodeBinary m) (dsm_bytes m).
Proof.
  intros Hm; destruct (dsm_fe m Hm) as [Hraw Hwith]; destruct Hm as [Hh Hd].
  unfold UA_DataSetMessage_encodeBinary, dsm_bytes; apply wok_then; [by apply dsmh_encode|].
  cbv zeta in Hd; destruct (data m) as [n fields|n fields].
  - destruct Hd as [(-> & Hn & l & -> & <- & Hl)|(-> & -> & ->)]; [|apply wok_ret].
    cbn [Z.eqb UA_DATASETMESSAGE_DATAKEYFRAME UA_DATASETMESSAGE_KEEPALIVE].
    rewrite Hraw, Hwith, arr_list_new; cbn [negb wwhen].
    apply wok_then; [apply wok_fc; by apply fc_wf_uint16|].
    unfold zlen; rewrite Nat2Z.id; apply wok_for.
    eapply Forall_impl; [done|]; intros; by apply field_encode.
  - destruct Hd as (-> & Hn & l & -> & <- & Hl).
    cbn [Z.eqb UA_DATASETMESSAGE_DATAKEYFRAME UA_DATASETMESSAGE_KEEPALIVE
         UA_DATASETMESSAGE_DATADELTAFRAME Pos.eqb]; rewrite Hraw, Hwith; cbn [arr_list].
    apply wok_then; [apply wok_fc; by apply fc_wf_uint16|].
    unfold zlen; rewrite Nat2Z.id; apply wok_for.
    eapply Forall_impl; [done|]; intros [i f] [Hi Hf]; apply wok_then;
      [apply wok_fc; by apply fc_wf_uint16|by apply field_encode].
Qed.

Lemma deltaFields_decode lost fe l : Forall (fun '(i, f) => 0 <= i < 2 ^ 16 /\ field_wf fe f) l ->
  ndok (dec_deltaFields lost fe (length l)) (concat (map (dfield_bytes fe) l)) l.
Proof.
  induction 1 as [|[i f] l [Hi Hf] _ IH]; cbn [length dec_deltaFields map concat]; [apply ndok_ret|].
  unfold dfield_bytes at 1; cbn [fst snd]; rewrite <- app_assoc.
  eapply ndok_bind; [by apply ndok_lost, ndok_uint16|].
  eapply ndok_bind; [|eapply ndok_map; [exact IH|apply ndok_ret]].
  destruct (length l =? 0)%nat; [|apply ndok_lost]; by apply field_decode.
Qed.

(** Decoding needs memory. *)
Hypothesis Hmem : forall off n, nm_malloc off n = true.

Lemma dsm_decode lost m : dsm_wf m -> ndok (DataSetMessage_decode lost) (dsm_bytes m) m.
Proof.
  intros Hm; destruct (dsm_fe m Hm) as [Hraw Hwith]; destruct Hm as [Hh Hd].
  unfold DataSetMessage_decode, dsm_bytes; eapply ndok_bind; [by apply dsmh_decode|].
  destruct m as [h [n fields|n fields]]; cbn [header data] in *.
  - destruct Hd as [(-> & Hn & l & -> & <- & Hl)|(-> & -> & ->)]; [|apply ndok_ret].
    cbn [Z.eqb UA_DATASETMESSAGE_DATAKEYFRAME UA_DATASETMESSAGE_KEEPALIVE].
    rewrite Hraw, Hwith, arr_list_new.
    eapply ndok_bind; [by apply ndok_uint16|]; cbv beta; apply ndok_alloc; [exact Hmem|].
    eapply ndok_map; [unfold zlen; rewrite Nat2Z.id; apply ndok_for|apply ndok_ret].
    eapply Forall_impl; [done|]; intros; by apply field_decode.
  - destruct Hd as (-> & Hn & l & -> & <- & Hl).
    cbn [Z.eqb UA_DATASETMESSAGE_DATAKEYFRAME UA_DATASETMESSAGE_KEEPALIVE
         UA_DATASETMESSAGE_DATADELTAFRAME Pos.eqb]; rewrite Hraw, Hwith; cbn [arr_list].
    eapply ndok_bind; [by apply ndok_uint16|]; cbv beta; apply ndok_alloc; [exact Hmem|].
    eapply ndok_map; [unfold zlen; rewrite Nat2Z.id; by apply deltaFields_decode|apply ndok_ret].
Qed.

(** The size of a sequence is the sum of the sizes of its elements. *)
Lemma zsum_map_concat {A} (f : A -> Z) (g : A -> list Z) l :
  Forall (fun a => f a = zlen (g a)) l -> zsum_map f l = zlen (concat (map g l)).
Proof.
  induction 1 as [|a l Ha _ IH]; cbn; [done|]; rewrite zlen_app, <- Ha, <- IH; done.
Qed.

Lemma field_size fe f : fe = UA_FIELDENCODING_VARIANT \/ fe = UA_FIELDENCODING_DATAVALUE ->
  field_wf fe f -> size_field fe f = zlen (field_bytes fe f).
Proof.
  intros [-> | ->]; unfold field_wf, size_field, field_bytes; simpl; [|apply fc_size_bytes].
  intros (v & -> & Hv); by apply fc_size_bytes.
Qed.

Lemma take_zlen {A} (l : list A) : take (Z.to_nat (zlen l)) l = l.
Proof. unfold zlen; rewrite Nat2Z.id; by apply take_ge. Qed.

Lemma dsm_size m : dsm_wf m -> UA_DataSetMessage_calcSizeBinary m = zlen (dsm_bytes m).
Proof.
  intros Hm; destruct (dsm_fe m Hm) as [Hraw Hwith]; destruct Hm as [Hh Hd].
  pose proof (hw_fe _ Hh) as Hfe.
  unfold UA_DataSetMessage_calcSizeBinary, dsm_bytes; rewrite zlen_app, dsmh_size.
  rewrite Hraw, Hwith; destruct m as [h [n fields|n fields]]; cbn [header data] in *.
  - destruct Hd as [(-> & Hn & l & -> & <- & Hl)|(-> & -> & ->)]; [|done].
    cbn [Z.eqb UA_DATASETMESSAGE_DATAKEYFRAME UA_DATASETMESSAGE_KEEPALIVE negb size_when].
    rewrite arr_list_new, take_zlen, (zsum_map_concat _ (field_bytes (fieldEncoding h))).
    + by autorewrite with nm.
    + eapply Forall_impl; [done|]; intros; by apply field_size.
  - destruct Hd as (-> & Hn & l & -> & <- & Hl).
    cbn [Z.eqb UA_DATASETMESSAGE_DATAKEYFRAME UA_DATASETMESSAGE_KEEPALIVE
         UA_DATASETMESSAGE_DATADELTAFRAME Pos.eqb negb size_when arr_list].
    rewrite take_zlen, (zsum_map_concat _ (dfield_bytes (fieldEncoding h))).
    + by autorewrite with nm.
    + eapply Forall_impl; [done|]; intros [i f] [Hi Hf]; unfold dfield_bytes.
      autorewrite with nm; cbn [fst snd]; by rewrite (field_size _ _ Hfe Hf).
Qed.

(** ** Parts of the NetworkMessage *)

Ltac wok_int := apply wok_fc; fc_int; try done.

Definition pid_wf (ty : Z) (p : PublisherId) : Prop :=
  match p with
  | PublisherIdInt z =>
      (ty = UA_PUBLISHERDATATYPE_BYTE /\ 0 <= z < 2 ^ 8) \/
      (ty = UA_PUBLISHERDATATYPE_UINT16 /\ 0 <= z < 2 ^ 16) \/
      (ty = UA_PUBLISHERDATATYPE_UINT32 /\ 0 <= z < 2 ^ 32) \/
      (ty = UA_PUBLISHERDATATYPE_UINT64 /\ 0 <= z < 2 ^ 64)
  | PublisherIdString s =>
      ty = UA_PUBLISHERDATATYPE_STRING /\ fc_wf (VString s) UA_TYPES_STRING
  end.

Definition pid_bytes (ty : Z) (p : PublisherId) : list Z :=
  match p with
  | PublisherIdInt z =>
      if ty =? UA_PUBLISHERDATATYPE_BYTE then B_byte z
      else if ty =? UA_PUBLISHERDATATYPE_UINT16 then B_uint16 z
      else if ty =? UA_PUBLISHERDATATYPE_UINT32 then B_uint32 z
      else B_uint64 z
  | PublisherIdString s => fc_bytes (VString s) UA_TYPES_STRING
  end.

Lemma pid_encode m : pid_wf (publisherIdType m) (publisherId m) ->
  wok (encode_publisherId m) (pid_bytes (publisherIdType m) (publisherId m)).
Proof.
  unfold encode_publisherId; destruct (publisherId m) as [z|s]; cbn [pid_wf pid_bytes].
  - intros [[-> ?] | [[-> ?] | [[-> ?] | [-> ?]]]]; cbn;
      unfold u8, u16, u32; rewrite ?Z.mod_small by done; wok_int.
  - intros [-> ?]; by apply wok_fc.
Qed.

Lemma pid_decode ty p : pid_wf ty p -> ndok (decode_publisherId ty) (pid_bytes ty p) p.
Proof.
  destruct p as [z|s]; cbn [pid_wf pid_bytes].
  - intros [[-> ?] | [[-> ?] | [[-> ?] | [-> ?]]]]; cbn;
      (eapply ndok_map; [by nd_int|apply ndok_ret]).
  - intros [-> ?]; eapply ndok_map; [by apply ndok_string|apply ndok_ret].
Qed.

Lemma pid_size m : pid_wf (publisherIdType m) (publisherId m) ->
  publisherId_size m = zlen (pid_bytes (publisherIdType m) (publisherId m)).
Proof.
  unfold publisherId_size; destruct (publisherId m) as [z|s]; cbn [pid_wf pid_bytes].
  - intros [[-> ?] | [[-> ?] | [[-> ?] | [-> ?]]]]; cbn; by autorewrite with nm.
  - intros [-> ?]; by apply fc_size_bytes.
Qed.

Record group_wf (g : UA_NetworkMessageGroupHeader) : Prop := mkGroupWf {
  gw_id : 0 <= writerGroupId g < 2 ^ 16 /\ zero_unless (writerGroupIdEnabled g) (writerGroupId g);
  gw_version : 0 <= groupVersion g < 2 ^ 32 /\ zero_unless (groupVersionEnabled g) (groupVersion g);
  gw_number : 0 <= networkMessageNumber g < 2 ^ 16 /\
              zero_unless (networkMessageNumberEnabled g) (networkMessageNumber g);
  gw_seq : 0 <= sequenceNumber g < 2 ^ 16 /\
           zero_unless (sequenceNumberEnabled g) (sequenceNumber g)
}.

Definition group_bytes (g : UA_NetworkMessageGroupHeader) : list Z :=
  B_byte (group_flags g)
  ++ when (writerGroupIdEnabled g) (B_uint16 (writerGroupId g))
  ++ when (groupVersionEnabled g) (B_uint32 (groupVersion g))
  ++ when (networkMessageNumberEnabled g) (B_uint16 (networkMessageNumber g))
  ++ when (sequenceNumberEnabled g) (B_uint16 (sequenceNumber g)).

(** Four flags in the low bits of a byte, as in the group and security headers. *)
Lemma four_flags b0 b1 b2 b3 :
  let v := Z.lor (flag b0 1) (Z.lor (flag b1 2) (Z.lor (flag b2 4) (flag b3 8))) in
  0 <= v < 2 ^ 8 /\ has v 1 = b0 /\ has v 2 = b1 /\ has v 4 = b2 /\ has v 8 = b3.
Proof. destruct b0, b1, b2, b3; vm_compute; repeat split; congruence. Qed.

Lemma group_flags_ok g :
  let v := group_flags g in
  0 <= v < 2 ^ 8 /\
  has v GROUP_HEADER_WRITER_GROUPID_ENABLED = writerGroupIdEnabled g /\
  has v GROUP_HEADER_GROUP_VERSION_ENABLED = groupVersionEnabled g /\
  has v GROUP_HEADER_NM_NUMBER_ENABLED = networkMessageNumberEnabled g /\
  has v GROUP_HEADER_SEQUENCE_NUMBER_ENABLED = sequenceNumberEnabled g.
Proof. apply four_flags. Qed.

Lemma group_encode g : group_wf g -> wok (encode_groupHeader g) (group_bytes g).
Proof.
  intros []; destruct (group_flags_ok g) as [? _]; unfold encode_groupHeader, group_bytes.
  repeat apply wok_then; try (apply wok_when; intros _); apply wok_fc; fc_int; tauto.
Qed.

Lemma group_decode g : group_wf g -> ndok decode_groupHeader (group_bytes g) g.
Proof.
  intros []; destruct (group_flags_ok g) as (? & E1 & E2 & E3 & E4).
  unfold decode_groupHeader, group_bytes; eapply ndok_bind; [nd_int; done|]; cbv zeta.
  rewrite E1, E2, E3, E4; do 3 nd_step.
  eapply ndok_map; [apply ndok_when; [intros _; nd_int; tauto|unfold zero_unless in *; tauto]|].
  destruct g; apply ndok_ret.
Qed.

Definition ids_bytes (ids : list Z) : list Z := concat (map (fun z => B_uint16 z) ids).

Lemma ids_encode ids : Forall (fun z => 0 <= z < 2 ^ 16) ids ->
  wok (wfor (Z.to_nat (zlen ids)) ids enc_uint16) (ids_bytes ids).
Proof.
  intros Hf; unfold zlen; rewrite Nat2Z.id; apply wok_for.
  eapply Forall_impl; [done|]; intros; by wok_int.
Qed.

Lemma ids_decode ids : Forall (fun z => 0 <= z < 2 ^ 16) ids ->
  ndok (nfor (Z.to_nat (zlen ids)) dec_uint16) (ids_bytes ids) ids.
Proof.
  intros Hf; unfold zlen; rewrite Nat2Z.id; apply ndok_for.
  eapply Forall_impl; [done|]; intros; by nd_int.
Qed.

Lemma ids_len ids : zlen (ids_bytes ids) = 2 * zlen ids.
Proof. apply zlen_concat_const; intros; by autorewrite with nm. Qed.

Definition octets_bytes (l : list Z) : list Z := concat (map (fun z => B_byte z) l).

Lemma octets_encode l : Forall is_byte l ->
  wok (wfor (Z.to_nat (zlen l)) l enc_byte) (octets_bytes l).
Proof.
  intros Hf; unfold zlen; rewrite Nat2Z.id; apply wok_for.
  eapply Forall_impl; [done|]; intros; by wok_int.
Qed.

Lemma octets_decode l : Forall is_byte l ->
  ndok (nfor (Z.to_nat (zlen l)) dec_byte) (octets_bytes l) l.
Proof.
  intros Hf; unfold zlen; rewrite Nat2Z.id; apply ndok_for.
  eapply Forall_impl; [done|]; intros; by nd_int.
Qed.

Lemma octets_len l : zlen (octets_bytes l) = zlen l.
Proof.
  unfold octets_bytes; rewrite (zlen_concat_const _ 1); [lia|]; intros; by autorewrite with nm.
Qed.

(** *** Promoted fields *)

Definition variants_bytes (l : list UA_Value) : list Z :=
  concat (map (fun v => fc_bytes v UA_TYPES_VARIANT) l).

Abbreviation variants_wf := (Forall (fun v => fc_wf v UA_TYPES_VARIANT)).

Lemma promoted_encode l : variants_wf l ->
  wok (encode_promoted (Z.to_nat (zlen l)) l) (variants_bytes l).
Proof.
  unfold zlen; rewrite Nat2Z.id.
  induction 1; cbn [length encode_promoted]; [apply wok_ret|].
  apply (wok_ignore _ _ (fc_bytes x UA_TYPES_VARIANT) (variants_bytes l)); [by apply wok_fc|done].
Qed.

Lemma variants_size l : variants_wf l ->
  zsum_map (fun f => fc_size f UA_TYPES_VARIANT) l = zlen (variants_bytes l).
Proof.
  intros Hl; apply zsum_map_concat; eapply Forall_impl; [done|]; intros; by apply fc_size_bytes.
Qed.

Lemma variants_nonempty v l : variants_wf (v :: l) -> zlen (v :: l) <= zlen (variants_bytes (v :: l)).
Proof.
  assert (Hg : forall l, variants_wf l -> zlen l <= zlen (variants_bytes l)); [|by apply Hg].
  clear; induction 1 as [|v l Hv _ IH]; [done|].
  unfold variants_bytes in *; cbn [map concat]; rewrite zlen_app, zlen_cons.
  pose proof (fc_bytes_variant v Hv); lia.
Qed.

Lemma variants_bytes_cons v l :
  variants_bytes (v :: l) = fc_bytes v UA_TYPES_VARIANT ++ variants_bytes l.
Proof. done. Qed.

Lemma promoted_loop_decode fuel v l pre post : variants_wf (v :: l) ->
  (length l < fuel)%nat ->
  decode_promoted_loop fuel (zlen pre + zlen (variants_bytes (v :: l)))
    (pre ++ variants_bytes (v :: l) ++ post) (zlen pre) =
  (GOOD, Some (v :: l), zlen pre + zlen (variants_bytes (v :: l))).
Proof.
  revert v l pre; induction fuel as [|fuel IH]; intros v l pre Hl Hf; [lia|].
  inversion Hl as [|? ? Hv Hl']; subst.
  rewrite variants_bytes_cons; cbn [decode_promoted_loop]; unfold nalloc; rewrite Hmem, andb_false_r.
  unfold nbind at 1.
  rewrite <- app_assoc, (ndok_value v UA_TYPES_VARIANT Hv pre), bad_good, zlen_app.
  destruct l as [|v' l'].
  - change (zlen (variants_bytes [])) with 0; rewrite Z.add_0_r.
    by destruct (Z.ltb_spec (zlen pre + zlen (fc_bytes v UA_TYPES_VARIANT))
                            (zlen pre + zlen (fc_bytes v UA_TYPES_VARIANT))); [lia|].
  - pose proof (variants_nonempty v' l' Hl') as Hne; rewrite zlen_cons in Hne.
    pose proof (zlen_nonneg l').
    destruct (Z.ltb_spec (zlen pre + zlen (fc_bytes v UA_TYPES_VARIANT))
      (zlen pre + (zlen (fc_bytes v UA_TYPES_VARIANT) + zlen (variants_bytes (v' :: l')))));
      [|lia].
    cbn [length] in Hf.
    specialize (IH v' l' (pre ++ fc_bytes v UA_TYPES_VARIANT) Hl' ltac:(lia)).
    rewrite <- app_assoc, zlen_app, <- Z.add_assoc in IH.
    unfold nbind; rewrite Z.add_assoc in IH |- *.
    rewrite IH; cbn; by rewrite ?Z.add_assoc.
Qed.

Definition promoted_wf (n : Z) (fields : UA_Array UA_Value) : Prop :=
  (n = 0 /\ fields = ArrNull) \/
  (exists v l, fields = ArrData (v :: l) /\ zlen (v :: l) = n /\ variants_wf (v :: l) /\
     zlen (variants_bytes (v :: l)) < 2 ^ 16).

Definition promoted_bytes (fields : UA_Array UA_Value) : list Z :=
  B_uint16 (zlen (variants_bytes (arr_list fields))) ++ variants_bytes (arr_list fields).

Lemma promotedFields_encode m : promoted_wf (promotedFieldsSize m) (promotedFields m) ->
  wok (encode_promotedFields m) (promoted_bytes (promotedFields m)).
Proof.
  unfold encode_promotedFields, promoted_size, promoted_bytes.
  intros [[-> ->] | (v & l & -> & <- & Hl & Hlt)]; cbn [arr_list].
  - apply wok_ignore; [wok_int|apply wok_ret].
  - pose proof (zlen_nonneg (variants_bytes (v :: l))).
    rewrite take_zlen, variants_size, u16_small by done.
    apply wok_ignore; [by wok_int|by apply promoted_encode].
Qed.

Lemma promoted_decode n fields : promoted_wf n fields ->
  ndok decode_promoted (promoted_bytes fields) (n, fields).
Proof.
  intros [[-> ->] | (v & l & -> & <- & Hl & Hlt)]; unfold decode_promoted, promoted_bytes;
    cbn [arr_list].
  - eapply ndok_bind; [nd_int; by vm_compute|apply ndok_ret].
  - pose proof (variants_nonempty v l Hl) as Hne; rewrite zlen_cons in Hne.
    pose proof (zlen_nonneg l).
    eapply ndok_bind; [nd_int; lia|]; cbv beta.
    destruct (Z.ltb_spec 0 (zlen (variants_bytes (v :: l)))); [|lia].
    intros pre post; unfold nbind.
    rewrite promoted_loop_decode by (done || unfold zlen in *; lia).
    cbn; rewrite zlen_cons, u16_small by lia; done.
Qed.

(** *** Security header, footer *)

Record sec_wf (h : UA_NetworkMessageSecurityHeader) : Prop := mkSecWf {
  sw_token : 0 <= securityTokenId h < 2 ^ 32;
  sw_nonce : 0 <= nonceLength h < 2 ^ 8 /\
    ((nonceLength h = 0 /\ messageNonce h = ArrNull) \/
     exists l, messageNonce h = ArrData l /\ zlen l = nonceLength h /\ 0 < zlen l /\
       Forall is_byte l);
  sw_footer : 0 <= securityFooterSize h < 2 ^ 8 /\
              zero_unless (securityFooterEnabled h) (securityFooterSize h)
}.

Definition sec_bytes (h : UA_NetworkMessageSecurityHeader) : list Z :=
  B_byte (security_flags h) ++ B_uint32 (securityTokenId h) ++ B_byte (nonceLength h)
  ++ octets_bytes (arr_list (messageNonce h))
  ++ when (securityFooterEnabled h) (B_uint16 (securityFooterSize h)).

Lemma security_flags_ok h :
  let v := security_flags h in
  0 <= v < 2 ^ 8 /\
  has v SECURITY_HEADER_NM_SIGNED = networkMessageSigned h /\
  has v SECURITY_HEADER_NM_ENCRYPTED = networkMessageEncrypted h /\
  has v SECURITY_HEADER_SEC_FOOTER_ENABLED = securityFooterEnabled h /\
  has v SECURITY_HEADER_FORCE_KEY_RESET = forceKeyReset h.
Proof. apply four_flags. Qed.

Lemma nonce_list h : sec_wf h ->
  zlen (arr_list (messageNonce h)) = nonceLength h /\ Forall is_byte (arr_list (messageNonce h)).
Proof. intros [_ [_ [[-> ->] | (l & -> & <- & _ & Hl)]] _]; simpl; auto. Qed.

Lemma sec_encode h : sec_wf h -> wok (encode_securityHeader h) (sec_bytes h).
Proof.
  intros Hw; destruct (nonce_list h Hw) as [Hn Hl]; destruct Hw.
  destruct (security_flags_ok h) as [? _]; unfold encode_securityHeader, sec_bytes.
  rewrite <- Hn at 2.
  repeat apply wok_then; try (apply wok_when; intros _); try (apply wok_fc; fc_int; lia).
  by apply octets_encode.
Qed.

Lemma sec_decode h : sec_wf h -> ndok decode_securityHeader (sec_bytes h) h.
Proof.
  intros [Ht [Hn Hl] [Hf Hz]]; destruct (security_flags_ok h) as (? & E1 & E2 & E3 & E4).
  unfold decode_securityHeader, sec_bytes; eapply ndok_bind; [nd_int; done|]; cbv zeta.
  rewrite E1, E2, E3, E4; eapply ndok_bind; [nd_int; done|]; eapply ndok_bind; [nd_int; done|].
  eapply (ndok_bind _ _ _ _ (messageNonce h)).
  - destruct Hl as [[-> ->] | (l & -> & <- & Hpos & Hl)]; [apply ndok_ret|].
    destruct (Z.ltb_spec 0 (zlen l)); [|lia].
    apply ndok_alloc_checked; [exact Hmem|]; eapply ndok_map; [by apply octets_decode|apply ndok_ret].
  - eapply ndok_map; [apply ndok_when; [intros _; nd_int; lia|unfold zero_unless in *; tauto]|].
    destruct h; apply ndok_ret.
Qed.

Lemma footer_encode rest pre fuel : Forall is_byte (pre ++ rest) ->
  zlen (pre ++ rest) < 2 ^ 8 -> (length rest < fuel)%nat ->
  wok (encode_footer fuel (zlen pre) (zlen (pre ++ rest)) (pre ++ rest)) (octets_bytes rest).
Proof.
  revert pre fuel; induction rest as [|b rest IH]; intros pre fuel Hb Hlt Hf;
    (destruct fuel as [|fuel]; [simpl in Hf; lia|]); cbn [encode_footer].
  - rewrite app_nil_r, Z.ltb_irrefl; apply wok_ret.
  - pose proof (zlen_nonneg pre); pose proof (zlen_nonneg rest).
    rewrite zlen_app, zlen_cons in Hlt |- *.
    destruct (Z.ltb_spec (zlen pre) (zlen pre + (1 + zlen rest))); [|lia].
    unfold zlen at 1; rewrite Nat2Z.id, (list_lookup_middle pre rest b) by done.
    apply (wok_then _ _ (B_byte b) (octets_bytes rest)).
    + apply Forall_app in Hb as [_ Hb]; inversion Hb; subst; by wok_int.
    + unfold u8; rewrite Z.mod_small by lia.
      specialize (IH (pre ++ [b]) fuel); rewrite <- app_assoc in IH; cbn [app] in IH.
      rewrite !zlen_app, zlen_cons in IH; change (zlen [b]) with 1 in IH.
      apply IH; [done|lia|simpl in Hf; lia].
Qed.

Lemma footer_decode rest pre fuel : Forall is_byte rest ->
  zlen pre + zlen rest < 2 ^ 8 -> (length rest < fuel)%nat ->
  ndok (decode_footer fuel (zlen pre) (zlen pre + zlen rest) (pre ++ replicate (length rest) 0))
    (octets_bytes rest) (pre ++ rest).
Proof.
  revert pre fuel; induction rest as [|b rest IH]; intros pre fuel Hb Hlt Hf;
    (destruct fuel as [|fuel]; [simpl in Hf; lia|]); cbn [decode_footer].
  - change (zlen (@nil Z)) with 0; rewrite Z.add_0_r, Z.ltb_irrefl; apply ndok_ret.
  - pose proof (zlen_nonneg pre); pose proof (zlen_nonneg rest); inversion Hb; subst.
    rewrite zlen_cons in Hlt |- *.
    destruct (Z.ltb_spec (zlen pre) (zlen pre + (1 + zlen rest))); [|lia].
    eapply (ndok_bind _ _ (B_byte b) (octets_bytes rest)); [by nd_int|].
    unfold u8; rewrite Z.mod_small by lia.
    assert (Z.to_nat (zlen pre) = length pre) as -> by (unfold zlen; lia).
    cbn [length replicate].
    rewrite insert_app_r_alt, Nat.sub_diag by done; cbn [list_insert insert].
    specialize (IH (pre ++ [b]) fuel); rewrite <- !app_assoc in IH; cbn [app] in IH.
    rewrite !zlen_app in IH; change (zlen [b]) with 1 in IH.
    rewrite Z.add_assoc; apply IH; [done|lia|simpl in Hf; lia].
Qed.

(** *** Sizes *)

(** The size fields that are written: given ones, or the computed length. *)
Fixpoint size_fields (sizes : UA_Array Z) (i : nat) (ms : list UA_DataSetMessage) : list Z :=
  match ms with
  | [] => []
  | m :: ms =>
      match message_size sizes i m with
      | Some sz => sz
      | None => 0
      end :: size_fields sizes (S i) ms
  end.

Definition sizes_wf (sizes : UA_Array Z) (n : nat) : Prop :=
  sizes = ArrNull \/
  (exists l, sizes = ArrData l /\ length l = n /\ Forall (fun z => 0 <= z < 2 ^ 16) l).

Lemma message_size_ok sizes n i m : sizes_wf sizes n -> (i < n)%nat ->
  exists sz, message_size sizes i m = Some sz /\ 0 <= sz < 2 ^ 16.
Proof.
  assert (Hu : forall z, 0 <= u16 z < 2 ^ 16) by (intros; apply Z.mod_pos_bound; lia).
  intros [-> | (l & -> & Hlen & Hl)] Hi; unfold message_size; cbn [arr_list]; [eauto|].
  destruct (lookup_lt_is_Some_2 l i ltac:(lia)) as [sz Hsz]; rewrite Hsz.
  destruct (sz =? 0); eauto; eexists; split; [done|].
  by apply (proj1 (Forall_lookup _ l) Hl i).
Qed.

Lemma sizes_encode sizes n ms i : sizes_wf sizes n -> (i + length ms <= n)%nat ->
  wok (encode_sizes sizes i (length ms) ms) (ids_bytes (size_fields sizes i ms)) /\
  Forall (fun z => 0 <= z < 2 ^ 16) (size_fields sizes i ms).
Proof.
  intros Hs; revert i; induction ms as [|m ms IH]; intros i Hi;
    cbn [length encode_sizes size_fields] in *; [split; [apply wok_ret|constructor]|].
  destruct (message_size_ok sizes n i m Hs ltac:(lia)) as (sz & -> & Hsz).
  destruct (IH (S i) ltac:(lia)) as [IH1 IH2]; split; [|by constructor].
  apply (wok_then _ _ (B_uint16 sz) (ids_bytes (size_fields sizes (S i) ms))); [by wok_int|done].
Qed.

Lemma size_fields_len sizes i ms : length (size_fields sizes i ms) = length ms.
Proof. revert i; induction ms; intros; simpl; auto. Qed.

(** ** NetworkMessage *)

Definition many (m : UA_NetworkMessage) : bool :=
  payloadHeaderEnabled m && (1 <? payloadCount m).

Definition footer_on (m : UA_NetworkMessage) : bool :=
  securityEnabled m && securityFooterEnabled (securityHeader m)
  && (0 <? securityFooterSize (securityHeader m)).

Definition signed (m : UA_NetworkMessage) : bool :=
  securityEnabled m && networkMessageSigned (securityHeader m).

Record nm_wf (m : UA_NetworkMessage) : Prop := mkNmWf {
  nw_version : 0 <= version m < 16;
  nw_type : networkMessageType m = UA_NETWORKMESSAGE_DATASET;
  nw_pidType : 0 <= publisherIdType m < 8;
  nw_pid : if publisherIdEnabled m then pid_wf (publisherIdType m) (publisherId m)
           else publisherId m = PublisherIdInt 0;
  nw_class : if dataSetClassIdEnabled m then fc_wf (VGuid (dataSetClassId m)) UA_TYPES_GUID
             else dataSetClassId m = UA_GUID_NULL;
  nw_group : if groupHeaderEnabled m then group_wf (groupHeader m)
             else groupHeader m = groupHeader_zero;
  nw_payload : if payloadHeaderEnabled m
               then 0 <= payloadCount m < 2 ^ 8 /\
                    exists ids, dataSetWriterIds m = new_array ids /\
                      zlen ids = payloadCount m /\ Forall (fun z => 0 <= z < 2 ^ 16) ids
               else payloadCount m = 0 /\ dataSetWriterIds m = ArrNull;
  nw_ts : 0 <= timestamp m < 2 ^ 64 /\ zero_unless (timestampEnabled m) (timestamp m);
  nw_pico : 0 <= picoseconds m < 2 ^ 16 /\ zero_unless (picosecondsEnabled m) (picoseconds m);
  nw_promoted : if promotedFieldsEnabled m
                then promoted_wf (promotedFieldsSize m) (promotedFields m)
                else promotedFieldsSize m = 0 /\ promotedFields m = ArrNull;
  nw_sec : if securityEnabled m then sec_wf (securityHeader m)
           else securityHeader m = securityHeader_zero;
  nw_messages : exists ms, dataSetMessages m = ArrData ms /\ zlen ms = message_count m /\
                  Forall dsm_wf ms /\ (if many m then sizes_wf (payloadSizes m) (length ms)
                                       else True);
  nw_footer : if footer_on m
              then exists l, securityFooter m = ArrData l /\
                     zlen l = securityFooterSize (securityHeader m) /\ Forall is_byte l
              else securityFooter m = ArrNull;
  nw_signature : if signed m then fc_wf (VString (signature m)) UA_TYPES_BYTESTRING
                 else signature m = ArrNull
}.

(** The array of size fields that the receiver sees. *)
Definition sent_sizes (m : UA_NetworkMessage) : UA_Array Z :=
  if many m then new_array (size_fields (payloadSizes m) 0 (arr_list (dataSetMessages m)))
  else ArrNull.

Definition nm_bytes (m : UA_NetworkMessage) : list Z :=
  B_byte (nm_flags m)
  ++ when (UA_NetworkMessage_ExtendedFlags1Enabled m) (B_byte (nm_extendedFlags1 m))
  ++ when (UA_NetworkMessage_ExtendedFlags2Enabled m) (B_byte (nm_extendedFlags2 m))
  ++ when (publisherIdEnabled m) (pid_bytes (publisherIdType m) (publisherId m))
  ++ when (dataSetClassIdEnabled m) (fc_bytes (VGuid (dataSetClassId m)) UA_TYPES_GUID)
  ++ when (groupHeaderEnabled m) (group_bytes (groupHeader m))
  ++ when (payloadHeaderEnabled m)
       (B_byte (payloadCount m) ++ ids_bytes (arr_list (dataSetWriterIds m)))
  ++ when (timestampEnabled m) (B_datetime (timestamp m))
  ++ when (picosecondsEnabled m) (B_uint16 (picoseconds m))
  ++ when (promotedFieldsEnabled m) (promoted_bytes (promotedFields m))
  ++ when (securityEnabled m) (sec_bytes (securityHeader m))
  ++ when (many m) (ids_bytes (arr_list (sent_sizes m)))
  ++ concat (map dsm_bytes (arr_list (dataSetMessages m)))
  ++ when (footer_on m) (octets_bytes (arr_list (securityFooter m)))
  ++ when (signed m) (fc_bytes (VString (signature m)) UA_TYPES_BYTESTRING).

(** *** Flags *)

Lemma nm_flags_bits z b4 b5 b6 b7 : 0 <= z < 16 ->
  let v := Z.lor (u8 z) (Z.lor (flag b4 16) (Z.lor (flag b5 32)
             (Z.lor (flag b6 64) (flag b7 128)))) in
  0 <= v < 2 ^ 8 /\ Z.land v 15 = z /\ has v 16 = b4 /\ has v 32 = b5 /\ has v 64 = b6 /\
  has v 128 = b7.
Proof.
  intros Hz; assert (Hin : z ∈ seqZ 0 16) by (apply elem_of_seqZ; lia).
  repeat (apply elem_of_cons in Hin as [-> | Hin];
    [destruct b4, b5, b6, b7; vm_compute; repeat split; congruence|]).
  by apply elem_of_nil in Hin.
Qed.

Lemma nm_ext1_bits z b3 b4 b5 b6 b7 : 0 <= z < 8 ->
  let v := Z.lor (u8 z) (Z.lor (flag b3 8) (Z.lor (flag b4 16) (Z.lor (flag b5 32)
             (Z.lor (flag b6 64) (flag b7 128))))) in
  0 <= v < 2 ^ 8 /\ Z.land v 7 = z /\ has v 8 = b3 /\ has v 16 = b4 /\ has v 32 = b5 /\
  has v 64 = b6 /\ has v 128 = b7.
Proof.
  intros Hz; assert (Hin : z ∈ seqZ 0 8) by (apply elem_of_seqZ; lia).
  repeat (apply elem_of_cons in Hin as [-> | Hin];
    [destruct b3, b4, b5, b6, b7; vm_compute; repeat split; congruence|]).
  by apply elem_of_nil in Hin.
Qed.

Lemma nm_flags_ok m : nm_wf m ->
  let v := nm_flags m in
  0 <= v < 2 ^ 8 /\ Z.land v NM_VERSION_MASK = version m /\
  has v NM_PUBLISHER_ID_ENABLED_MASK = publisherIdEnabled m /\
  has v NM_GROUP_HEADER_ENABLED_MASK = groupHeaderEnabled m /\
  has v NM_PAYLOAD_HEADER_ENABLED_MASK = payloadHeaderEnabled m /\
  has v NM_EXTENDEDFLAGS1_ENABLED_MASK = UA_NetworkMessage_ExtendedFlags1Enabled m.
Proof. intros []; by apply nm_flags_bits. Qed.

(** What the decoder has read for the extended flags; zero when absent. *)
Definition ext1 m := if UA_NetworkMessage_ExtendedFlags1Enabled m then nm_extendedFlags1 m else 0.
Definition ext2 m := if UA_NetworkMessage_ExtendedFlags2Enabled m then nm_extendedFlags2 m else 0.

Lemma nm_ext1_ok m : nm_wf m ->
  0 <= nm_extendedFlags1 m < 2 ^ 8 /\
  Z.land (ext1 m) NM_PUBLISHER_ID_MASK = publisherIdType m /\
  has (ext1 m) NM_DATASET_CLASSID_ENABLED_MASK = dataSetClassIdEnabled m /\
  has (ext1 m) NM_SECURITY_ENABLED_MASK = securityEnabled m /\
  has (ext1 m) NM_TIMESTAMP_ENABLED_MASK = timestampEnabled m /\
  has (ext1 m) NM_PICOSECONDS_ENABLED_MASK = picosecondsEnabled m /\
  has (ext1 m) NM_EXTENDEDFLAGS2_ENABLED_MASK = UA_NetworkMessage_ExtendedFlags2Enabled m.
Proof.
  intros [_ _ Hp]; pose proof (nm_ext1_bits _ (dataSetClassIdEnabled m) (securityEnabled m)
    (timestampEnabled m) (picosecondsEnabled m) (UA_NetworkMessage_ExtendedFlags2Enabled m) Hp)
    as Hb; cbv zeta in Hb; change (Z.lor (u8 _) _) with (nm_extendedFlags1 m) in Hb.
  unfold ext1; destruct (UA_NetworkMessage_ExtendedFlags1Enabled m) eqn:E; [done|].
  unfold UA_NetworkMessage_ExtendedFlags1Enabled in E; zbool.
  repeat split; try tauto; symmetry; (etransitivity; [eassumption|reflexivity]).
Qed.

Lemma nm_ext2_ok m : nm_wf m ->
  0 <= nm_extendedFlags2 m < 2 ^ 8 /\
  has (ext2 m) NM_CHUNK_MESSAGE_MASK = chunkMessage m /\
  has (ext2 m) NM_PROMOTEDFIELDS_ENABLED_MASK = promotedFieldsEnabled m /\
  decode_messageType (ext2 m) = UA_NETWORKMESSAGE_DATASET.
Proof.
  intros [_ Ht]; unfold ext2, nm_extendedFlags2, UA_NetworkMessage_ExtendedFlags2Enabled.
  rewrite Ht; destruct (chunkMessage m), (promotedFieldsEnabled m); vm_compute;
    repeat split; congruence.
Qed.

Lemma ext2_ext1 m : UA_NetworkMessage_ExtendedFlags2Enabled m = true ->
  UA_NetworkMessage_ExtendedFlags1Enabled m = true.
Proof. unfold UA_NetworkMessage_ExtendedFlags1Enabled; intros ->; by rewrite orb_true_r. Qed.

Lemma flags_encode m : nm_wf m ->
  wok (encode_flags m)
    (B_byte (nm_flags m)
     ++ when (UA_NetworkMessage_ExtendedFlags1Enabled m) (B_byte (nm_extendedFlags1 m))
     ++ when (UA_NetworkMessage_ExtendedFlags2Enabled m) (B_byte (nm_extendedFlags2 m))).
Proof.
  intros Hw; destruct (nm_flags_ok m Hw) as [? _], (nm_ext1_ok m Hw) as [? _],
    (nm_ext2_ok m Hw) as [? _].
  unfold encode_flags; apply wok_then; [by wok_int|].
  pose proof (ext2_ext1 m).
  destruct (UA_NetworkMessage_ExtendedFlags1Enabled m); cbn [wwhen when].
  - apply wok_then; [by wok_int|]; apply wok_when; intros _; by wok_int.
  - destruct (UA_NetworkMessage_ExtendedFlags2Enabled m); [naive_solver|apply wok_ret].
Qed.

(** *** Encoding *)

Lemma payloadHeader_encode m : nm_wf m -> payloadHeaderEnabled m = true ->
  wok (encode_payloadHeader m) (B_byte (payloadCount m) ++ ids_bytes (arr_list (dataSetWriterIds m))).
Proof.
  intros [_ Ht _ _ _ _ Hp] E; rewrite E in Hp; destruct Hp as (Hc & ids & Hi & Hn & Hf).
  unfold encode_payloadHeader; rewrite Ht, Hi, <- Hn, arr_list_new; cbn [negb Z.eqb].
  apply wok_ignore; [wok_int; lia|].
  destruct ids; cbn [new_array arr_nonnull negb]; by apply ids_encode.
Qed.

Lemma payload_encode m : nm_wf m ->
  wok (encode_payload m)
    (when (many m) (ids_bytes (arr_list (sent_sizes m)))
     ++ concat (map dsm_bytes (arr_list (dataSetMessages m)))).
Proof.
  intros []; destruct nw_messages0 as (ms & Hms & Hn & Hf & Hs).
  unfold encode_payload; rewrite nw_type0, Hms, <- Hn; cbn [negb Z.eqb arr_list].
  apply wok_then.
  - unfold sent_sizes; rewrite Hms; cbn [arr_list].
    change (payloadHeaderEnabled m && (1 <? payloadCount m)) with (many m).
    apply wok_when; intros Hmany; rewrite Hmany in Hs |- *; rewrite arr_list_new.
    unfold many in Hmany; apply andb_true_iff in Hmany as [Hp _].
    unfold message_count in Hn; rewrite Hp in Hn; rewrite <- Hn.
    unfold zlen; rewrite Nat2Z.id; apply (sizes_encode _ (length ms)); [done|lia].
  - unfold zlen; rewrite Nat2Z.id; apply wok_for.
    eapply Forall_impl; [done|]; intros; by apply dsm_encode.
Qed.

Lemma trailer_encode m : nm_wf m -> securityEnabled m = true ->
  wok (encode_trailer m)
    (when (footer_on m) (octets_bytes (arr_list (securityFooter m)))
     ++ when (signed m) (fc_bytes (VString (signature m)) UA_TYPES_BYTESTRING)).
Proof.
  intros [] E o r; unfold encode_trailer.
  revert o r; cut (forall f, (256 <= f)%nat -> wok
    (wthen (wwhen (securityFooterEnabled (securityHeader m))
              (encode_footer f 0 (securityFooterSize (securityHeader m)) (arr_list (securityFooter m))))
           (wwhen (networkMessageSigned (securityHeader m))
              (fc_encode (VString (signature m)) UA_TYPES_BYTESTRING)))
    (when (footer_on m) (octets_bytes (arr_list (securityFooter m)))
     ++ when (signed m) (fc_bytes (VString (signature m)) UA_TYPES_BYTESTRING))).
  { intros Hc o r Hr; apply Hc; [unfold footer_fuel; lia|done]. }
  intros f Hfuel; rewrite E in *.
  unfold footer_on, signed in *; rewrite E in *; cbn [andb] in *; apply wok_then.
  - destruct nw_sec0 as [_ _ [Hs _]].
    destruct (securityFooterEnabled (securityHeader m)); cbn [andb wwhen] in *; [|apply wok_ret].
    destruct (Z.ltb_spec 0 (securityFooterSize (securityHeader m))).
    + destruct nw_footer0 as (l & -> & Hl & Hb); rewrite <- Hl in Hs |- *.
      apply (footer_encode l []); [done|simpl; lia|unfold zlen in *; lia].
    + replace (securityFooterSize (securityHeader m)) with 0 by lia.
      destruct f; apply wok_ret.
  - apply wok_when; intros Hsig; rewrite Hsig in *; by apply wok_fc.
Qed.

Lemma nm_encode m : nm_wf m -> wok (UA_NetworkMessage_encodeBinary m) (nm_bytes m).
Proof.
  intros Hw; unfold UA_NetworkMessage_encodeBinary, nm_bytes.
  eapply wok_eq; [apply wok_then; [by apply flags_encode|]|by rewrite <- !app_assoc].
  pose proof Hw as [].
  apply wok_then; [apply wok_when; intros E; rewrite E in *; by apply pid_encode|].
  apply wok_then; [apply wok_when; intros E; rewrite E in *; by apply wok_fc|].
  apply wok_then; [apply wok_when; intros E; rewrite E in *; by apply group_encode|].
  apply wok_then; [apply wok_when; by apply payloadHeader_encode|].
  apply wok_ignore; [apply wok_when; intros _; wok_int; tauto|].
  apply wok_ignore; [apply wok_when; intros _; wok_int; tauto|].
  apply wok_ignore; [apply wok_when; intros E; rewrite E in *; by apply promotedFields_encode|].
  apply wok_then; [apply wok_when; intros E; rewrite E in *; by apply sec_encode|].
  rewrite app_assoc; apply wok_then; [by apply payload_encode|].
  destruct (securityEnabled m) eqn:E; cbn [wwhen]; [by apply trailer_encode|].
  unfold footer_on, signed; rewrite E; apply wok_ret.
Qed.

(** *** Size *)

Lemma payload_size m : nm_wf m ->
  size_when (many m) (size_uint16 * payloadCount m)
  + zsum_map UA_DataSetMessage_calcSizeBinary
      (take (Z.to_nat (message_count m)) (arr_list (dataSetMessages m))) =
  zlen (when (many m) (ids_bytes (arr_list (sent_sizes m)))
        ++ concat (map dsm_bytes (arr_list (dataSetMessages m)))).
Proof.
  intros []; destruct nw_messages0 as (ms & Hms & Hn & Hf & Hs).
  rewrite size_uint16_2, zlen_app, zlen_size_when, ids_len, Hms, <- Hn; cbn [arr_list]; rewrite take_zlen.
  rewrite (zsum_map_concat _ dsm_bytes)
    by (eapply Forall_impl; [done|]; intros; by apply dsm_size).
  f_equal; unfold sent_sizes; rewrite Hms; cbn [arr_list].
  destruct (many m) eqn:Hmany; [|done]; rewrite arr_list_new; cbn [size_when].
  unfold many in Hmany; apply andb_true_iff in Hmany as [Hp _].
  unfold message_count in Hn; rewrite Hp in Hn; rewrite <- Hn.
  unfold zlen; by rewrite size_fields_len.
Qed.

Lemma trailer_size m : nm_wf m ->
  size_when (securityEnabled m)
    (size_when (securityFooterEnabled (securityHeader m)) (securityFooterSize (securityHeader m))
     + size_when (networkMessageSigned (securityHeader m))
         (fc_size (VString (signature m)) UA_TYPES_BYTESTRING)) =
  zlen (when (footer_on m) (octets_bytes (arr_list (securityFooter m)))
        ++ when (signed m) (fc_bytes (VString (signature m)) UA_TYPES_BYTESTRING)).
Proof.
  intros []; rewrite zlen_app, !zlen_size_when, octets_len.
  unfold footer_on, signed in *; destruct (securityEnabled m); [|done]; cbn [andb size_when] in *.
  destruct nw_sec0 as [_ _ [Hs _]]; f_equal.
  - destruct (securityFooterEnabled (securityHeader m)); [|done]; cbn [andb size_when] in *.
    destruct (Z.ltb_spec 0 (securityFooterSize (securityHeader m))); cbn [size_when]; [|lia].
    by destruct nw_footer0 as (l & -> & <- & Hb).
  - destruct (networkMessageSigned (securityHeader m)); [|done]; by apply fc_size_bytes.
Qed.

(** One optional part: its computed size is the length of its bytes. *)
Lemma size_part (b : bool) n (l : list Z) : (b = true -> n = zlen l) ->
  size_when b n = zlen (when b l).
Proof. destruct b; simpl; auto. Qed.

Lemma group_size g :
  size_byte + size_when (writerGroupIdEnabled g) size_uint16
  + size_when (groupVersionEnabled g) size_uint32
  + size_when (networkMessageNumberEnabled g) size_uint16
  + size_when (sequenceNumberEnabled g) size_uint16 = zlen (group_bytes g).
Proof. unfold group_bytes; autorewrite with nm; lia. Qed.

Lemma sec_size h : sec_wf h ->
  size_byte + size_uint32 + size_byte
  + size_when (0 <? nonceLength h) (size_byte * nonceLength h)
  + size_when (securityFooterEnabled h) size_uint16 = zlen (sec_bytes h).
Proof.
  intros Hw; destruct (nonce_list h Hw) as [Hn _]; destruct Hw as [_ [Hr _] _].
  unfold sec_bytes; autorewrite with nm; rewrite octets_len, Hn.
  destruct (Z.ltb_spec 0 (nonceLength h)); cbn [size_when]; lia.
Qed.

Lemma promoted_part_size m : promoted_wf (promotedFieldsSize m) (promotedFields m) ->
  size_uint16 + zsum_map (fun f => fc_size f UA_TYPES_VARIANT)
    (take (Z.to_nat (promotedFieldsSize m)) (arr_list (promotedFields m))) =
  zlen (promoted_bytes (promotedFields m)).
Proof.
  unfold promoted_bytes; autorewrite with nm.
  intros [[-> ->] | (v & l & -> & <- & Hl & _)]; cbn [arr_list]; [done|].
  by rewrite take_zlen, variants_size.
Qed.

Lemma payloadHeader_size m : nm_wf m ->
  payloadHeaderEnabled m && true && negb (arr_nonnull (dataSetWriterIds m)) = false /\
  size_when (payloadHeaderEnabled m && true) (size_byte + size_uint16 * payloadCount m) =
  zlen (when (payloadHeaderEnabled m)
          (B_byte (payloadCount m) ++ ids_bytes (arr_list (dataSetWriterIds m)))).
Proof.
  intros []; destruct (payloadHeaderEnabled m); [|done]; cbn [andb size_when when].
  destruct nw_payload0 as (_ & ids & -> & <- & _); autorewrite with nm.
  rewrite ids_len, arr_list_new; by destruct ids.
Qed.

Lemma nm_size m : nm_wf m -> UA_NetworkMessage_calcSizeBinary m = zlen (nm_bytes m).
Proof.
  intros Hw; pose proof (payload_size m Hw) as Hp; pose proof (trailer_size m Hw) as Ht.
  destruct (payloadHeader_size m Hw) as [Hph Hps]; pose proof Hw as [].
  unfold UA_NetworkMessage_calcSizeBinary, nm_bytes.
  rewrite nw_type0, Z.eqb_refl, Hph, Hps, Ht, group_size; cbn [size_when].
  change (payloadHeaderEnabled m && (1 <? payloadCount m)) with (many m).
  rewrite Hp.
  rewrite (size_part (publisherIdEnabled m) _ (pid_bytes (publisherIdType m) (publisherId m)))
    by (intros E; rewrite E in *; by apply pid_size).
  rewrite (size_part (dataSetClassIdEnabled m) _
    (fc_bytes (VGuid (dataSetClassId m)) UA_TYPES_GUID))
    by (intros E; rewrite E in *; by apply fc_size_bytes).
  rewrite (size_part (promotedFieldsEnabled m) _ (promoted_bytes (promotedFields m)))
    by (intros E; rewrite E in *; by apply promoted_part_size).
  rewrite (size_part (securityEnabled m) _ (sec_bytes (securityHeader m)))
    by (intros E; rewrite E in *; by apply sec_size).
  assert (He : size_when (UA_NetworkMessage_ExtendedFlags1Enabled m)
    (size_byte + size_when (UA_NetworkMessage_ExtendedFlags2Enabled m) size_byte) =
    size_when (UA_NetworkMessage_ExtendedFlags1Enabled m) 1
    + size_when (UA_NetworkMessage_ExtendedFlags2Enabled m) 1).
  { pose proof (ext2_ext1 m); rewrite size_byte_1.
    destruct (UA_NetworkMessage_ExtendedFlags1Enabled m),
      (UA_NetworkMessage_ExtendedFlags2Enabled m); naive_solver. }
  rewrite He; autorewrite with nm; lia.
Qed.

(** *** Decoding *)

Lemma payloadHeader_decode m : nm_wf m ->
  ndok (nwhen (payloadHeaderEnabled m) (0, ArrNull) (decode_payloadHeader UA_NETWORKMESSAGE_DATASET))
    (when (payloadHeaderEnabled m)
       (B_byte (payloadCount m) ++ ids_bytes (arr_list (dataSetWriterIds m))))
    (payloadCount m, dataSetWriterIds m).
Proof.
  intros []; apply ndok_when; intros E; rewrite E in *.
  - destruct nw_payload0 as (Hc & ids & -> & Hn & Hf); rewrite <- Hn in Hc |- *; rewrite arr_list_new.
    unfold decode_payloadHeader; cbn [negb Z.eqb UA_NETWORKMESSAGE_DATASET].
    eapply ndok_bind; [nd_int; lia|]; apply ndok_alloc; [exact Hmem|].
    eapply ndok_map; [by apply ids_decode|apply ndok_ret].
  - by destruct nw_payload0 as [-> ->].
Qed.

Lemma sizes_decode m : nm_wf m ->
  ndok (nwhen (many m) ArrNull
          (nalloc (message_count m)
            (let? l := nfor (Z.to_nat (message_count m)) dec_uint16 in nret (new_array l))))
    (when (many m) (ids_bytes (arr_list (sent_sizes m)))) (sent_sizes m).
Proof.
  intros []; destruct nw_messages0 as (ms & Hms & Hn & Hf & Hs).
  unfold sent_sizes; rewrite Hms; cbn [arr_list]; apply ndok_when; intros E; rewrite E in *; [|done].
  rewrite arr_list_new; apply ndok_alloc; [exact Hmem|]; eapply ndok_map; [|apply ndok_ret].
  rewrite <- Hn; replace (zlen ms) with (zlen (size_fields (payloadSizes m) 0 ms))
    by (unfold zlen; by rewrite size_fields_len).
  apply ids_decode; by apply (sizes_encode _ (length ms)).
Qed.

Lemma messages_decode lost m : nm_wf m ->
  exists ms, dataSetMessages m = ArrData ms /\
  ndok (nalloc (message_count m) (nfor (Z.to_nat (message_count m)) (DataSetMessage_decode lost)))
    (concat (map dsm_bytes (arr_list (dataSetMessages m)))) ms.
Proof.
  intros []; destruct nw_messages0 as (ms & Hms & Hn & Hf & Hs).
  exists ms; split; [done|]; rewrite Hms, <- Hn; cbn [arr_list]; apply ndok_alloc; [exact Hmem|].
  unfold zlen; rewrite Nat2Z.id; apply ndok_for.
  eapply Forall_impl; [done|]; intros; by apply dsm_decode.
Qed.

Lemma footer_part_decode m : nm_wf m ->
  ndok (nwhen (footer_on m) ArrNull
          (nalloc_checked (securityFooterSize (securityHeader m)) (fun src off =>
            (let? l := decode_footer (256 + length src) 0 (securityFooterSize (securityHeader m))
                         (replicate (Z.to_nat (securityFooterSize (securityHeader m))) 0) in
             nret (ArrData l)) src off)))
    (when (footer_on m) (octets_bytes (arr_list (securityFooter m)))) (securityFooter m).
Proof.
  intros []; apply ndok_when; intros E; rewrite E in *; [|done].
  unfold footer_on in E; zbool; rewrite H in nw_sec0; destruct nw_sec0 as [_ _ [Hs _]].
  destruct nw_footer0 as (l & -> & Hl & Hb); rewrite <- Hl in Hs |- *; cbn [arr_list].
  apply ndok_alloc_checked; [exact Hmem|]; intros pre post; unfold nbind.
  pose proof (footer_decode l [] (256 + length (pre ++ octets_bytes l ++ post)) Hb (proj2 Hs)
    ltac:(unfold zlen in *; lia) pre post) as Hd.
  change (zlen (@nil Z)) with 0 in Hd; cbn [app] in Hd; rewrite Z.add_0_l in Hd.
  replace (Z.to_nat (zlen l)) with (length l) by (unfold zlen; lia).
  by rewrite Hd.
Qed.

(** The message a receiver gets: the sender's, with the sizes filled in. *)
Definition received (m : UA_NetworkMessage) : UA_NetworkMessage :=
  mkNetworkMessage (version m) (publisherIdEnabled m) (groupHeaderEnabled m)
    (payloadHeaderEnabled m) (publisherIdType m) (dataSetClassIdEnabled m) (securityEnabled m)
    (timestampEnabled m) (picosecondsEnabled m) (chunkMessage m) (promotedFieldsEnabled m)
    (networkMessageType m) (publisherId m) (dataSetClassId m) (groupHeader m) (payloadCount m)
    (dataSetWriterIds m) (timestamp m) (picoseconds m) (promotedFieldsSize m) (promotedFields m)
    (securityHeader m) (sent_sizes m) (dataSetMessages m) (securityFooter m) (signature m).

Ltac nd_part lem :=
  eapply ndok_bind;
  [apply ndok_when; intros E; rewrite E in *; [by apply lem|congruence || done]|].

Lemma nm_decode_internal lost m : nm_wf m ->
  ndok (NetworkMessage_decode lost) (nm_bytes m) (received m).
Proof.
  intros Hw; destruct (nm_flags_ok m Hw) as (R & F1 & F2 & F3 & F4 & F5).
  destruct (nm_ext1_ok m Hw) as (R1 & G1 & G2 & G3 & G4 & G5 & G6).
  destruct (nm_ext2_ok m Hw) as (R2 & K1 & K2 & K3); destruct (messages_decode lost m Hw) as (ms & Hms & Hd).
  pose proof Hw as []; unfold NetworkMessage_decode, nm_bytes.
  eapply ndok_bind; [by nd_int|]; cbv zeta; rewrite F1, F2, F3, F4, F5.
  eapply (ndok_bind _ _ _ _ (ext1 m)); [apply ndok_when; unfold ext1; intros ->; [by nd_int|done]|].
  rewrite G1, G2, G3, G4, G5, G6.
  eapply (ndok_bind _ _ _ _ (ext2 m)); [apply ndok_when; unfold ext2; intros ->; [by nd_int|done]|].
  rewrite K1, K2, K3.
  nd_part pid_decode; nd_part ndok_guid; nd_part group_decode.
  eapply ndok_bind; [by apply payloadHeader_decode|]; do 2 nd_step.
  eapply (ndok_bind _ _ _ _ (promotedFieldsSize m, promotedFields m)).
  { apply ndok_when; intros E; rewrite E in *; [by apply promoted_decode|].
    by destruct nw_promoted0 as [-> ->]. }
  nd_part sec_decode; cbn [negb Z.eqb UA_NETWORKMESSAGE_DATASET fst snd].
  change (if payloadHeaderEnabled m then payloadCount m else 1) with (message_count m).
  assert (payloadHeaderEnabled m && (1 <? message_count m) = many m) as ->
    by (unfold many, message_count; by destruct (payloadHeaderEnabled m)).
  eapply ndok_bind; [by apply sizes_decode|].
  eapply ndok_bind; [exact Hd|].
  eapply ndok_bind; [by apply footer_part_decode|].
  eapply ndok_map; [apply ndok_when; intros E; fold (signed m) in E; rewrite E in *;
    [by apply ndok_string|done]|].
  unfold received; rewrite Hms, nw_type0; apply ndok_ret.
Qed.

Lemma nm_decode m : nm_wf m ->
  ndok UA_NetworkMessage_decodeBinary (nm_bytes m) (received m).
Proof.
  intros Hw pre post; unfold UA_NetworkMessage_decodeBinary.
  by rewrite (nm_decode_internal _ m Hw pre post).
Qed.
End Correct.
