(* ===== verification/PubSub.v ===== *)
(** * Decoding arbitrary PubSub messages

    Whatever bytes arrive, [UA_NetworkMessage_decodeBinaryInternal] ends with a
    status of the library, moves the offset only forward, and the counters of a
    message it returns agree with the arrays they describe: code that walks the
    message by its counters stays inside of the arrays.  After an error in a
    delta frame [UA_NetworkMessage_decodeBinary] may delete uninitialised
    fields.  Proved for any field codec with [FieldDecodeSafe], where there is
    memory. *)

From Stdlib Require Import ZArith Lia.
From stdpp Require Import base list numbers tactics sets.
From S2P Require Import Prelude UaTypes UaValue BinarySpec DecodeSafe Codec FieldCodec NetworkMessage NetworkMessageCorrect.

(** ** Shape of decoded messages *)

(** The type selects the member of the union, and with a field encoding that
    has fields the counter is the length of the array. *)
Definition dsm_shape (m : UA_DataSetMessage) : Prop :=
  let fe := fieldEncoding (header m) in
  let ty := dataSetMessageType (header m) in
  let with_fields := fe = UA_FIELDENCODING_VARIANT \/ fe = UA_FIELDENCODING_DATAVALUE in
  match data m with
  | KeyFrameData n fields =>
      (ty = UA_DATASETMESSAGE_DATAKEYFRAME \/
       (ty = UA_DATASETMESSAGE_KEEPALIVE /\ fields = ArrNull)) /\
      (with_fields -> zlen (arr_list fields) = Z.max 0 n)
  | DeltaFrameData n fields =>
      ty = UA_DATASETMESSAGE_DATADELTAFRAME /\
      (with_fields -> zlen (arr_list fields) = Z.max 0 n)
  end.

Definition ids_shape (enabled : bool) (count : Z) (ids : UA_Array Z) : Prop :=
  zlen (arr_list ids) = Z.max 0 count /\ (enabled = false -> ids = ArrNull).

Definition promoted_shape (enabled : bool) (n : Z) (fields : UA_Array UA_Value) : Prop :=
  n = u16 (zlen (arr_list fields)) /\ (enabled = false -> fields = ArrNull).

Record sec_shape (enabled : bool) (h : UA_NetworkMessageSecurityHeader) : Prop := mkSecShape {
  ss_nonce : zlen (arr_list (messageNonce h)) = Z.max 0 (nonceLength h) /\
             (nonceLength h <= 0 -> messageNonce h = ArrNull);
  ss_off : enabled = false -> h = securityHeader_zero
}.

Definition footer_shape (b : bool) (size : Z) (f : UA_ByteString) : Prop :=
  (b = true -> zlen (arr_list f) = Z.max 0 size /\ size < 256) /\
  (b && (0 <? size) = false -> f = ArrNull).

Definition sizes_shape (b : bool) (n : Z) (a : UA_Array Z) : Prop :=
  (b = true -> zlen (arr_list a) = Z.max 0 n) /\ (b = false -> a = ArrNull).

Record nm_shape (m : UA_NetworkMessage) : Prop := mkNmShape {
  ns_type : networkMessageType m = UA_NETWORKMESSAGE_DATASET;
  ns_pid : publisherIdEnabled m = true ->
    (exists s, publisherId m = PublisherIdString s) <->
    publisherIdType m = UA_PUBLISHERDATATYPE_STRING;
  ns_ids : ids_shape (payloadHeaderEnabled m) (payloadCount m) (dataSetWriterIds m);
  ns_promoted : promoted_shape (promotedFieldsEnabled m) (promotedFieldsSize m) (promotedFields m);
  ns_sec : sec_shape (securityEnabled m) (securityHeader m);
  ns_sizes : sizes_shape (payloadHeaderEnabled m && (1 <? message_count m)) (message_count m)
               (payloadSizes m);
  ns_messages : exists ms, dataSetMessages m = ArrData ms /\
    zlen ms = Z.max 0 (message_count m) /\ Forall dsm_shape ms;
  ns_footer : footer_shape (securityEnabled m && securityFooterEnabled (securityHeader m))
                (securityFooterSize (securityHeader m)) (securityFooter m)
}.

(** ** Safety of decoders *)

Create HintDb nsafe.

Section Safe.
Context {FC : FieldCodec} {FS : FieldDecodeSafe FC} {NM : NMAllocator}.
Hypothesis Hmem : forall off n, nm_malloc off n = true.

Definition nresult {A} (Q : A -> Prop) (off : Z) (r : status * option A * Z) : Prop :=
  let '(s, v, off') := r in
  s <> UNDEFINED /\ s <> OUTOFFUEL /\ off <= off' /\
  match v with Some a => s = GOOD /\ Q a | None => s <> GOOD end.

Definition nsafe {A} (Q : A -> Prop) (m : ndec A) : Prop :=
  forall src off, 0 <= off -> nresult Q off (m src off).

Lemma nsafe_ret {A} (Q : A -> Prop) a : Q a -> nsafe Q (nret a).
Proof. intros HQ src off Ho; repeat split; try done; lia. Qed.

Lemma nsafe_fail {A} (Q : A -> Prop) s : s <> UNDEFINED -> s <> OUTOFFUEL -> s <> GOOD ->
  nsafe Q (@nfail A s).
Proof. intros ? ? ? src off Ho; repeat split; try done; lia. Qed.

Lemma nresult_bind {A B} (Q : A -> Prop) (R : B -> Prop) (m : ndec A) (k : A -> ndec B) src off :
  0 <= off -> nresult Q off (m src off) ->
  (forall a off', off <= off' -> Q a -> m src off = (GOOD, Some a, off') ->
     nresult R off' (k a src off')) ->
  nresult R off (nbind m k src off).
Proof.
  intros Ho Hm Hk; unfold nbind; destruct (m src off) as [[s [a|]] off'];
    destruct Hm as (H1 & H2 & H3 & H4); [|done].
  destruct H4 as [-> HQ]; rewrite bad_good; specialize (Hk a off' H3 HQ eq_refl).
  destruct (k a src off') as [[s' v'] off'']; unfold nresult in *; intuition lia.
Qed.

Lemma nsafe_bind {A B} (Q : A -> Prop) (R : B -> Prop) (m : ndec A) (k : A -> ndec B) :
  nsafe Q m -> (forall a, Q a -> nsafe R (k a)) -> nsafe R (nbind m k).
Proof.
  intros Hm Hk src off Ho; eapply nresult_bind; [done|by apply Hm|].
  intros a off' Hoff HQ _; apply Hk; [done|lia].
Qed.

Lemma nsafe_impl {A} (Q Q' : A -> Prop) m : nsafe Q m -> (forall a, Q a -> Q' a) -> nsafe Q' m.
Proof.
  intros Hm HQ src off Ho; specialize (Hm src off Ho); unfold nresult in *.
  destruct (m src off) as [[s [a|]] off']; intuition.
Qed.

Lemma nsafe_when {A} (Q : A -> Prop) (b : bool) zero m :
  (b = true -> nsafe Q m) -> (b = false -> Q zero) -> nsafe Q (nwhen b zero m).
Proof. destruct b; simpl; intros Hm Hz; [auto|by apply nsafe_ret, Hz]. Qed.

Lemma nsafe_for {A} (Q : A -> Prop) (m : ndec A) n :
  nsafe Q m -> nsafe (fun l => length l = n /\ Forall Q l) (nfor n m).
Proof.
  intros Hm; induction n as [|n IH]; [by apply nsafe_ret|].
  eapply nsafe_bind; [done|]; intros a Ha; eapply nsafe_bind; [done|].
  intros l [Hn Hl]; apply nsafe_ret; simpl; auto.
Qed.

Lemma nresult_alloc {A} (Q : A -> Prop) n (m : ndec A) src off :
  nresult Q off (m src off) -> nresult Q off (nalloc n m src off).
Proof. intros Hm; unfold nalloc; by rewrite Hmem, andb_false_r. Qed.

Lemma nsafe_alloc {A} (Q : A -> Prop) n (m : ndec A) : nsafe Q m -> nsafe Q (nalloc n m).
Proof. intros Hm src off Ho; apply nresult_alloc; auto. Qed.

Lemma nsafe_alloc_checked {A} (Q : A -> Prop) n (m : ndec A) : nsafe Q m -> nsafe Q (nalloc_checked n m).
Proof.
  intros Hm src off Ho; unfold nalloc_checked; destruct (nm_malloc off n); cbn [negb]; [by apply Hm|].
  repeat split; try done; lia.
Qed.

Lemma nsafe_kept {A} (Q : A -> Prop) (m : ndec A) : nsafe Q m -> nsafe Q (nlost (fun rv => rv) m).
Proof.
  intros Hm src off Ho; specialize (Hm src off Ho); unfold nlost, nresult in *.
  destruct (m src off) as [[s [a|]] off']; destruct (bad s) eqn:Hb; try done.
  destruct Hm as (? & ? & ? & -> & _); by rewrite bad_good in Hb.
Qed.

Lemma nsafe_value t : t ∈ builtin_types -> nsafe (fun _ => True) (dec_value t).
Proof.
  intros Ht src off Ho; unfold dec_value; pose proof (fd_safe src off t Ht Ho) as Hs.
  destruct (fc_decode src off t) as [[s [v|]] off']; destruct Hs as (H1 & H2 & H3 & H4);
    repeat split; try done; [by apply H3|]; by intros ->; apply H3.
Qed.

(** The typed decoders: the stored kind is that of the type. *)
Lemma nsafe_typed {A} t (f : A -> UA_Value) (k : UA_Value -> ndec A) :
  t ∈ builtin_types ->
  (forall src off v off', fc_decode src off t = (GOOD, Some v, off') -> exists a, v = f a) ->
  (forall a, k (f a) = nret a) -> nsafe (fun _ => True) (nbind (dec_value t) k).
Proof.
  intros Ht Hkind Hk src off Ho; eapply nresult_bind; [done|by apply nsafe_value|].
  intros v off' Hoff _ Hd; destruct (Hkind _ _ _ _ Hd) as [a ->]; rewrite Hk.
  by apply nsafe_ret; [|lia].
Qed.

Ltac member := apply list_elem_of_In; simpl; tauto.

Lemma nsafe_int t :
  t = UA_TYPES_BYTE \/ t = UA_TYPES_UINT16 \/ t = UA_TYPES_UINT32 \/ t = UA_TYPES_UINT64 \/
  t = UA_TYPES_DATETIME -> nsafe (fun _ => True) (dec_int t).
Proof.
  intros Ht; apply (nsafe_typed t VInt); [|intros; by eapply fd_int|done].
  by destruct Ht as [-> | [-> | [-> | [-> | ->]]]]; member.
Qed.

Lemma nsafe_byte : nsafe (fun _ => True) dec_byte.
Proof. apply nsafe_int; tauto. Qed.
Lemma nsafe_uint16 : nsafe (fun _ => True) dec_uint16.
Proof. apply nsafe_int; tauto. Qed.
Lemma nsafe_uint32 : nsafe (fun _ => True) dec_uint32.
Proof. apply nsafe_int; tauto. Qed.
Lemma nsafe_uint64 : nsafe (fun _ => True) dec_uint64.
Proof. apply nsafe_int; tauto. Qed.
Lemma nsafe_datetime : nsafe (fun _ => True) dec_datetime.
Proof. apply nsafe_int; tauto. Qed.

Lemma nsafe_string t : t = UA_TYPES_STRING \/ t = UA_TYPES_BYTESTRING ->
  nsafe (fun _ => True) (dec_string t).
Proof.
  intros Ht; apply (nsafe_typed t VString); [|intros; by eapply fd_string|done].
  by destruct Ht as [-> | ->]; member.
Qed.

Lemma nsafe_guid : nsafe (fun _ => True) dec_guid.
Proof. apply (nsafe_typed UA_TYPES_GUID VGuid); [member|intros; by eapply fd_guid|done]. Qed.

Lemma nsafe_variant : nsafe (fun _ => True) (dec_value UA_TYPES_VARIANT).
Proof. apply nsafe_value; member. Qed.
Lemma nsafe_datavalue : nsafe (fun _ => True) (dec_value UA_TYPES_DATAVALUE).
Proof. apply nsafe_value; member. Qed.

#[local] Hint Resolve nsafe_byte nsafe_uint16 nsafe_uint32 nsafe_uint64 nsafe_datetime
  nsafe_string nsafe_guid nsafe_variant nsafe_datavalue : nsafe.

(** Next member of a structure, mandatory or optional. *)
Ltac nstep :=
  eapply nsafe_bind;
  [first [solve [eauto with nsafe]
         |apply nsafe_when; [intros _; solve [eauto with nsafe]|done]]
  |intros ? _; cbv beta zeta].

(** ** DataSetMessage *)

Lemma dsmh_safe : nsafe (fun _ => True) UA_DataSetMessageHeader_decodeBinary.
Proof. unfold UA_DataSetMessageHeader_decodeBinary; do 8 nstep; by apply nsafe_ret. Qed.

Lemma field_safe fe : nsafe (fun _ => True) (dec_field fe).
Proof.
  unfold dec_field; destr_if; [|auto with nsafe].
  eapply nsafe_bind; [apply nsafe_variant|]; intros; by apply nsafe_ret.
Qed.

Ltac fe_absurd :=
  intros [? | ?];
  unfold UA_FIELDENCODING_VARIANT, UA_FIELDENCODING_RAWDATA, UA_FIELDENCODING_DATAVALUE in *;
  lia.

Lemma keyframe_safe h : dataSetMessageType h = UA_DATASETMESSAGE_DATAKEYFRAME ->
  nsafe dsm_shape (
    if fieldEncoding h =? UA_FIELDENCODING_RAWDATA then nret (mkDSM h (KeyFrameData 0 ArrNull))
    else
      let? fieldCount := dec_uint16 in
      if (fieldEncoding h =? UA_FIELDENCODING_VARIANT)
         || (fieldEncoding h =? UA_FIELDENCODING_DATAVALUE) then
        nalloc fieldCount (
          let? fields := nfor (Z.to_nat fieldCount) (dec_field (fieldEncoding h)) in
          nret (mkDSM h (KeyFrameData fieldCount (new_array fields))))
      else nret (mkDSM h (KeyFrameData fieldCount ArrNull))).
Proof.
  intros Ht; destr_if; zbool; [apply nsafe_ret; split; [by left|simpl; fe_absurd]|].
  nstep; destr_if; zbool; [|apply nsafe_ret; split; [by left|simpl; fe_absurd]].
  apply nsafe_alloc; eapply nsafe_bind; [apply nsafe_for, field_safe|]; intros l [Hn _].
  apply nsafe_ret; split; [by left|]; intros _; rewrite arr_list_new; unfold zlen; lia.
Qed.

Lemma deltaFields_safe fe n :
  nsafe (fun l => length l = n) (dec_deltaFields (fun rv => rv) fe n).
Proof.
  induction n as [|n IH]; cbn [dec_deltaFields]; [by apply nsafe_ret|].
  eapply nsafe_bind; [apply nsafe_kept, nsafe_uint16|]; intros i _.
  eapply (nsafe_bind (fun _ => True)).
  { destruct (n =? 0)%nat; [|apply nsafe_kept]; apply field_safe. }
  intros f _; eapply nsafe_bind; [exact IH|]; intros l Hl; apply nsafe_ret; cbn; by rewrite Hl.
Qed.

Lemma deltaframe_safe h : dataSetMessageType h = UA_DATASETMESSAGE_DATADELTAFRAME ->
  nsafe dsm_shape (
    if fieldEncoding h =? UA_FIELDENCODING_RAWDATA then nret (mkDSM h (DeltaFrameData 0 ArrNull))
    else
      let? fieldCount := dec_uint16 in
      if (fieldEncoding h =? UA_FIELDENCODING_VARIANT)
         || (fieldEncoding h =? UA_FIELDENCODING_DATAVALUE) then
        nalloc fieldCount (
          let? fields := dec_deltaFields (fun rv => rv) (fieldEncoding h) (Z.to_nat fieldCount) in
          nret (mkDSM h (DeltaFrameData fieldCount (ArrData fields))))
      else nret (mkDSM h (DeltaFrameData fieldCount ArrNull))).
Proof.
  intros Ht; destr_if; zbool; [apply nsafe_ret; split; [done|simpl; fe_absurd]|].
  nstep; destr_if; zbool; [|apply nsafe_ret; split; [done|simpl; fe_absurd]].
  apply nsafe_alloc; eapply nsafe_bind; [apply deltaFields_safe|].
  intros l Hn; cbv beta in Hn; apply nsafe_ret; split; [done|]; intros _; simpl; unfold zlen; lia.
Qed.

Lemma dsm_safe : nsafe dsm_shape UA_DataSetMessage_decodeBinary.
Proof.
  unfold UA_DataSetMessage_decodeBinary, DataSetMessage_decode; eapply nsafe_bind; [apply dsmh_safe|].
  intros h _; cbv beta zeta.
  destr_if; zbool; [by apply keyframe_safe|].
  destr_if; zbool; [by apply deltaframe_safe|].
  destr_if; zbool; [by apply nsafe_fail|].
  apply nsafe_ret; split; [by right|done].
Qed.

(** ** NetworkMessage *)

Lemma publisherId_safe ty :
  nsafe (fun p => (exists s, p = PublisherIdString s) <-> ty = UA_PUBLISHERDATATYPE_STRING)
    (decode_publisherId ty).
Proof.
  unfold decode_publisherId.
  repeat (destr_if; zbool;
    [nstep; apply nsafe_ret; subst ty; split; [by intros [? ?] | by eauto]|]).
  by apply nsafe_fail.
Qed.

Lemma groupHeader_safe : nsafe (fun _ => True) decode_groupHeader.
Proof. unfold decode_groupHeader; do 5 nstep; by apply nsafe_ret. Qed.

Lemma payloadHeader_safe ty :
  nsafe (fun p => ids_shape true (fst p) (snd p)) (decode_payloadHeader ty).
Proof.
  unfold decode_payloadHeader; destr_if; [by apply nsafe_fail|]; nstep.
  apply nsafe_alloc; eapply nsafe_bind; [apply nsafe_for, nsafe_uint16|]; intros l [Hn _].
  apply nsafe_ret; split; [|done]; simpl; rewrite arr_list_new; unfold zlen; lia.
Qed.

Lemma promoted_loop_safe fuel offsetEnd src off : 0 <= off ->
  offsetEnd - off < Z.of_nat fuel -> (0 < fuel)%nat ->
  nresult (fun _ => True) off (decode_promoted_loop fuel offsetEnd src off).
Proof.
  revert off; induction fuel as [|fuel IH]; intros off Ho Hf Hpos; [lia|].
  cbn [decode_promoted_loop]; apply nresult_alloc; eapply nresult_bind; [done|by apply nsafe_variant|].
  intros v off' Hoff _ Hd; pose proof (fd_variant src off v off' Ho Hd).
  destruct (Z.ltb_spec off' offsetEnd); [|by apply nsafe_ret; [|lia]].
  eapply nresult_bind; [lia|apply IH; lia|].
  intros l off'' ? _ _; by apply nsafe_ret; [|lia].
Qed.

Lemma promoted_safe :
  nsafe (fun p => promoted_shape true (fst p) (snd p)) decode_promoted.
Proof.
  unfold decode_promoted; nstep; destruct (Z.ltb_spec 0 a); [|by apply nsafe_ret].
  intros src off Ho; eapply nresult_bind; [done|apply promoted_loop_safe; lia|].
  intros l off' ? _ _; by apply nsafe_ret; [|lia].
Qed.

Lemma securityHeader_safe : nsafe (sec_shape true) decode_securityHeader.
Proof.
  unfold decode_securityHeader; do 3 nstep.
  eapply (nsafe_bind (fun n => zlen (arr_list n) = Z.max 0 a1 /\ (a1 <= 0 -> n = ArrNull))).
  - apply nsafe_when; intros E; zbool; [|split; [change (zlen (arr_list (@ArrNull Z))) with 0; lia|done]].
    apply nsafe_alloc_checked; eapply nsafe_bind; [apply nsafe_for, nsafe_byte|]; intros l [Hn _].
    apply nsafe_ret; cbn [arr_list]; unfold zlen; split; [lia|]; intros; lia.
  - intros nonce Hn; nstep; by apply nsafe_ret.
Qed.

(** The loop over the footer ends: with at most 255 bytes by its counter,
    with more by the end of the input. *)
Lemma footer_loop_safe fuel i size data src off :
  0 <= off -> 0 <= i < 256 ->
  Z.max 0 (zlen src - off) + 1 <= Z.of_nat fuel ->
  nresult (fun l => length l = length data /\ (i < size -> size < 256)) off
    (decode_footer fuel i size data src off).
Proof.
  revert i data off; induction fuel as [|fuel IH]; intros i data off Ho Hi Hf; [lia|].
  cbn [decode_footer]; destruct (Z.ltb_spec i size); [|apply nsafe_ret; [split; [done|lia]|done]].
  eapply nresult_bind; [done|by apply nsafe_byte|]; intros b off' Hoff _ Hd.
  assert (Hadv : off' = off + 1 /\ off < zlen src).
  { unfold dec_byte, dec_int, nbind, dec_value in Hd.
    destruct (fc_decode src off UA_TYPES_BYTE) as [[s [v|]] o] eqn:E; [|done].
    destruct (bad s) eqn:Eb; [done|apply bad_false in Eb as ->].
    apply fd_byte in E; unfold nret, nfail in Hd; destruct v; try done.
    by injection Hd as _ <-. }
  destruct Hadv as [-> Hin].
  assert (Hu : 0 <= u8 (i + 1) < 256) by (apply Z.mod_pos_bound; lia).
  specialize (IH (u8 (i + 1)) (<[Z.to_nat i:=b]> data) (off + 1) ltac:(lia) Hu ltac:(lia)).
  revert IH; rewrite length_insert; unfold nresult.
  destruct (decode_footer _ _ _ _ _ _) as [[s [l|]] o]; [|tauto].
  intros (H1 & H2 & H3 & H4 & H5 & H6); repeat split; try done.
  intros _; destruct (Z_lt_ge_dec (u8 (i + 1)) size) as [Hlt|Hge]; [auto|].
  unfold u8 in *; destruct (Z.eq_dec i 255) as [->|]; [vm_compute in Hge; lia|].
  rewrite Z.mod_small in Hge; lia.
Qed.

Lemma footer_safe b size :
  nsafe (footer_shape b size)
    (nwhen (b && (0 <? size)) ArrNull (nalloc_checked size (fun src off =>
       (let? l := decode_footer (256 + length src) 0 size (replicate (Z.to_nat size) 0) in
        nret (ArrData l)) src off))).
Proof.
  apply nsafe_when; intros E.
  - apply nsafe_alloc_checked; intros src off Ho; eapply nresult_bind; [done|apply footer_loop_safe; unfold zlen; lia|].
    intros l off' Hoff [Hl Hs] _; apply nsafe_ret; [|lia]; split; [|congruence].
    intros _; rewrite length_replicate in Hl; cbn [arr_list]; zbool; unfold zlen; lia.
  - split; [|done]; intros ->; cbn [andb] in E; zbool.
    change (zlen (arr_list (@ArrNull Z))) with 0; lia.
Qed.

Lemma sizes_safe b n :
  nsafe (sizes_shape b n)
    (nwhen b ArrNull (nalloc n (let? l := nfor (Z.to_nat n) dec_uint16 in nret (new_array l)))).
Proof.
  apply nsafe_when; intros E; [|split; [congruence|done]].
  apply nsafe_alloc; eapply nsafe_bind; [apply nsafe_for, nsafe_uint16|]; intros l [Hn _].
  apply nsafe_ret; split; [|congruence]; intros _; rewrite arr_list_new; unfold zlen; lia.
Qed.

(** An optional part: what holds of a decoded one holds of the zero one. *)
Lemma nsafe_part {A} (Q : bool -> A -> Prop) (b : bool) zero m :
  nsafe (Q true) m -> Q false zero -> nsafe (Q b) (nwhen b zero m).
Proof. intros Hm Hz; apply nsafe_when; intros ->; done. Qed.

Lemma nm_safe_internal : nsafe nm_shape UA_NetworkMessage_decodeBinaryInternal.
Proof.
  unfold UA_NetworkMessage_decodeBinaryInternal, NetworkMessage_decode.
  nstep; nstep; rename a into v, a0 into v1; nstep; rename a into v2.
  eapply (nsafe_bind (fun p => has v NM_PUBLISHER_ID_ENABLED_MASK = true ->
    (exists s, p = PublisherIdString s) <->
    Z.land v1 NM_PUBLISHER_ID_MASK = UA_PUBLISHERDATATYPE_STRING)).
  { apply nsafe_when; intros E; [|congruence].
    eapply nsafe_impl; [apply publisherId_safe|]; auto. }
  intros pid Hpid; nstep; eapply (nsafe_bind (fun _ => True)).
  { apply nsafe_when; intros _; [apply groupHeader_safe|done]. }
  intros group _; eapply nsafe_bind.
  { by apply (nsafe_part (fun b p => ids_shape b (fst p) (snd p))); [apply payloadHeader_safe|]. }
  intros ph Hph; do 2 nstep; eapply nsafe_bind.
  { by apply (nsafe_part (fun b p => promoted_shape b (fst p) (snd p))); [apply promoted_safe|]. }
  intros prom Hprom; eapply nsafe_bind.
  { by apply (nsafe_part sec_shape); [apply securityHeader_safe|]. }
  intros sec Hsec; destr_if; [by apply nsafe_fail|]; zbool.
  eapply nsafe_bind; [apply sizes_safe|]; intros sizes Hsizes.
  eapply nsafe_bind; [apply nsafe_alloc, nsafe_for, dsm_safe|]; intros ms [Hn Hms].
  eapply nsafe_bind; [apply footer_safe|]; intros footer Hfooter; nstep.
  apply nsafe_ret; split; try done.
  exists ms; split; [done|]; split; [|done].
  unfold message_count, zlen; simpl; lia.
Qed.

(** ** Errors in delta frames *)

(** The delta frame at offset [o] ends with error [s] at offset [off']. *)
Definition broken_deltaframe (src : list Z) (o : Z) (s : status) (off' : Z) : Prop :=
  UA_DataSetMessage_decodeBinary src o = (s, None, off') /\
  exists h o1, UA_DataSetMessageHeader_decodeBinary src o = (GOOD, Some h, o1) /\
    dataSetMessageType h = UA_DATASETMESSAGE_DATADELTAFRAME.

(** The results with and without a loss: the same, or an error in a delta
    frame. *)
Definition relost {A} (lost : status -> status) (P : status -> Z -> Prop) (r r' : status * option A * Z) : Prop :=
  r' = r \/ exists s off', P s off' /\ r = (s, None, off') /\ r' = (lost s, None, off').

Lemma relost_bind {A B} lost P (m m' : ndec A) (k k' : A -> ndec B) src off :
  relost lost P (m src off) (m' src off) ->
  (forall a off', m src off = (GOOD, Some a, off') -> relost lost P (k a src off') (k' a src off')) ->
  relost lost P (nbind m k src off) (nbind m' k' src off).
Proof.
  intros [Hm|(s & off' & HP & Hm & Hm')] Hk; unfold nbind.
  - rewrite Hm; destruct (m src off) as [[s [a|]] off']; [|by left].
    destruct (bad s) eqn:Hs; [by left|apply bad_false in Hs as ->; by apply Hk].
  - rewrite Hm, Hm'; right; by exists s, off'.
Qed.

Lemma relost_refl {A} lost P (r : status * option A * Z) : relost lost P r r.
Proof. by left. Qed.

Lemma relost_lost {A} lost (m : ndec A) src off :
  relost lost (fun _ _ => True) (nlost (fun rv => rv) m src off) (nlost lost m src off).
Proof.
  unfold nlost; destruct (m src off) as [[s a] off']; destruct (bad s); [right|by left].
  by exists s, off'.
Qed.

Lemma deltaFields_lost lost fe n src off :
  relost lost (fun _ _ => True) (dec_deltaFields (fun rv => rv) fe n src off)
    (dec_deltaFields lost fe n src off).
Proof.
  revert off; induction n as [|n IH]; intros off; [apply relost_refl|]; cbn [dec_deltaFields].
  apply relost_bind; [apply relost_lost|]; intros i off1 _; apply relost_bind.
  - destruct (n =? 0)%nat; [apply relost_refl|apply relost_lost].
  - intros f off2 _; apply relost_bind; [apply IH|]; intros l off3 _; apply relost_refl.
Qed.

Lemma dsm_lost lost src off :
  relost lost (fun s off' => exists o, broken_deltaframe src o s off')
    (UA_DataSetMessage_decodeBinary src off) (DataSetMessage_decode lost src off).
Proof.
  assert (relost lost (fun _ _ => exists h o1, UA_DataSetMessageHeader_decodeBinary src off = (GOOD, Some h, o1) /\
    dataSetMessageType h = UA_DATASETMESSAGE_DATADELTAFRAME)
    (UA_DataSetMessage_decodeBinary src off) (DataSetMessage_decode lost src off)) as [H|(s & off' & Hh & Hr & Hr')].
  - apply relost_bind; [apply relost_refl|]; intros h o1 Hh; cbv zeta.
    destruct (dataSetMessageType h =? UA_DATASETMESSAGE_DATAKEYFRAME); [by left|].
    destruct (Z.eqb_spec (dataSetMessageType h) UA_DATASETMESSAGE_DATADELTAFRAME) as [Ht|]; [|by left].
    destruct (fieldEncoding h =? UA_FIELDENCODING_RAWDATA); [by left|].
    apply relost_bind; [apply relost_refl|]; intros n o2 _; destruct (_ || _); [|by left].
    unfold nalloc; destruct (_ && _); [by left|].
    apply relost_bind; [|intros l o3 _; apply relost_refl].
    destruct (deltaFields_lost lost (fieldEncoding h) (Z.to_nat n) src o2) as [H|(s & off' & _ & H)]; [by left|].
    right; exists s, off'; split; [by exists h, o1|done].
  - by left.
  - right; exists s, off'; split; [exists off; by split|done].
Qed.

Lemma nm_lost lost src off :
  relost lost (fun s off' => exists o, broken_deltaframe src o s off')
    (UA_NetworkMessage_decodeBinaryInternal src off) (NetworkMessage_decode lost src off).
Proof.
  unfold UA_NetworkMessage_decodeBinaryInternal, NetworkMessage_decode.
  do 11 (apply relost_bind; [apply relost_refl|]; intros ? ? _).
  destruct (negb _); [apply relost_refl|].
  apply relost_bind; [apply relost_refl|]; intros ? ? _.
  apply relost_bind; [|intros; apply relost_refl].
  unfold nalloc; destruct (_ && _); [apply relost_refl|].
  match goal with |- context [nfor ?n _] => generalize n end; intros n.
  match goal with |- context [nfor n _ src ?o] => generalize o end.
  induction n as [|n IH]; intros o; [apply relost_refl|]; cbn [nfor].
  apply relost_bind; [apply dsm_lost|]; intros ? ? _; apply relost_bind; [apply IH|].
  intros; apply relost_refl.
Qed.

Lemma nm_safe src off : 0 <= off ->
  nresult nm_shape off (UA_NetworkMessage_decodeBinary src off) \/
  exists o s off', broken_deltaframe src o s off' /\
    UA_NetworkMessage_decodeBinaryInternal src off = (s, None, off') /\
    UA_NetworkMessage_decodeBinary src off = (UNDEFINED, None, off').
Proof.
  intros Ho; pose proof (nm_safe_internal src off Ho) as H; unfold UA_NetworkMessage_decodeBinary.
  destruct (nm_lost (fun _ => UNDEFINED) src off) as [->|(s & off' & [o Hb] & Hi & ->)]; [left|right].
  - destruct (UA_NetworkMessage_decodeBinaryInternal src off) as [[s v] off'].
    destruct (bad s) eqn:E; [apply bad_true in E|done]; simpl in *.
    destruct v; intuition congruence.
  - by exists o, s, off'.
Qed.
End Safe.

(** ** PubSub messages: main theorems

    Statements about [UA_NetworkMessage_encodeBinary], [_decodeBinary],
    [_calcSizeBinary] and [_deleteMembers] for any field codec that satisfies
    the interface of [FieldCodec]; the witnesses use the binary codec. *)

(** ** An example message

    A publisher with a string id, a group header, two DataSetMessages (a key
    frame and a delta frame), a timestamp, a promoted field and a signed
    security header with a footer. *)
Module PubSubExample.
#[export] Existing Instance Example.env.

Definition alloc : nat -> Z -> bool := fun _ _ => true.
#[export] Instance memory : NMAllocator := fun _ _ => true.
#[export] Instance codec : FieldCodec := binary_field_codec alloc.
#[export] Instance laws : FieldCodecLaws codec :=
  binary_field_codec_laws alloc (fun _ _ => eq_refl).
#[export] Instance safe : FieldDecodeSafe codec :=
  binary_field_decode_safe alloc (fun t => t ∈ @UA_TYPES Example.env) Example_closed.

Definition int32 (z : Z) : UA_Value := VVariant (Some UA_TYPES_INT32) (SScalar (VInt z)) ArrNull.

Definition keyframe : UA_DataSetMessage :=
  mkDSM (mkDSMHeader true 0 true true true false true 0 true 7 1000 20 5 0 9)
        (KeyFrameData 2 (ArrData [value_field (int32 1); value_field (int32 2)])).

Definition deltaframe : UA_DataSetMessage :=
  mkDSM (mkDSMHeader true 2 false false false false false 1 false 0 0 0 0 0 0)
        (DeltaFrameData 1 (ArrData [(3, Example.datavalue)])).

Definition message (sizes : UA_Array Z) : UA_NetworkMessage :=
  mkNetworkMessage 1 true true true 4 false true true false false true 0
    (PublisherIdString (ArrData [80; 49])) UA_GUID_NULL
    (mkGroupHeader true false false true 11 0 0 12)
    2 (ArrData [100; 101]) 5000 0 1 (ArrData [int32 42])
    (mkSecurityHeader true false true false 77 2 (ArrData [1; 2]) 3)
    sizes (ArrData [keyframe; deltaframe]) (ArrData [7; 8; 9]) (ArrData [200; 201]).

Ltac flat := vm_compute; intuition congruence.

Lemma keyframe_wf : dsm_wf keyframe.
Proof.
  split; [split; flat|left].
  split; [done|]; split; [flat|].
  exists [value_field (int32 1); value_field (int32 2)]; split; [done|]; split; [done|].
  do 2 (apply Forall_cons; split; [eexists; split; [reflexivity|ground]|]); apply Forall_nil; done.
Qed.

Lemma deltaframe_wf : dsm_wf deltaframe.
Proof.
  split; [split; flat|].
  split; [done|]; split; [flat|]; eexists; split; [reflexivity|]; split; [done|].
  constructor; [|done]; split; [flat|ground].
Qed.

Lemma message_wf sizes : sizes_wf sizes 2 -> nm_wf (message sizes).
Proof.
  intros Hs; split.
  - flat.
  - done.
  - flat.
  - split; [done|ground].
  - done.
  - split; flat.
  - split; [flat|]; exists [100; 101]; split; [done|]; split; [done|].
    repeat constructor; flat.
  - flat.
  - flat.
  - right; eexists _, []; split; [reflexivity|]; split; [done|]; split; [|done].
    constructor; [ground|done].
  - split; [flat|split; [flat|right]|flat]; exists [1; 2]; repeat split; try done.
    repeat constructor; flat.
  - exists [keyframe; deltaframe]; split; [done|]; split; [done|]; split; [|done].
    constructor; [apply keyframe_wf|constructor; [apply deltaframe_wf|done]].
  - exists [7; 8; 9]; split; [done|]; split; [done|]; repeat constructor; flat.
  - ground.
Qed.
End PubSubExample.

#[local] Existing Instances Example.env PubSubExample.memory PubSubExample.codec PubSubExample.laws PubSubExample.safe.

(** ** Encoding, size and decoding *)

(** A publisher that allocates [UA_NetworkMessage_calcSizeBinary] bytes gets
    the whole message: the encoder returns GOOD, writes exactly that many bytes
    and uses up the buffer. *)
Theorem networkmessage_fills_buffer {FC : FieldCodec} {FL : FieldCodecLaws FC} m o :
  nm_wf m ->
  UA_NetworkMessage_encodeBinary m (o, UA_NetworkMessage_calcSizeBinary m) =
  (GOOD, (o ++ nm_bytes m, 0)) /\ zlen (nm_bytes m) = UA_NetworkMessage_calcSizeBinary m.
Proof.
  intros Hw; rewrite (nm_size m Hw), (nm_encode m Hw) by lia; by rewrite Z.sub_diag.
Qed.

Lemma networkmessage_fills_buffer_witness :
  let m := PubSubExample.message ArrNull in
  UA_NetworkMessage_calcSizeBinary m = 145 /\
  fst (UA_NetworkMessage_encodeBinary m ([], 145)) = GOOD.
Proof.
  intros m; split; [vm_compute; reflexivity|].
  assert (E : UA_NetworkMessage_calcSizeBinary m = 145) by (vm_compute; reflexivity).
  pose proof (networkmessage_fills_buffer m [] (PubSubExample.message_wf _ (or_introl eq_refl)))
    as [W _]; rewrite E in W; by rewrite W.
Defined.

(** C29: A publisher and a subscriber agree: encoding a well-formed message
    ([nm_wf]: the flags, counts, types and arrays fit each other, fields that are
    off are zero, the footer has less than 256 bytes) into a buffer with room for
    [UA_NetworkMessage_calcSizeBinary] bytes succeeds and writes exactly that
    many, and decoding them, at any position in the input of a subscriber with
    memory, gives the message that was encoded, with the size fields of the
    DataSetMessages filled in when there are several, and the offset behind
    it. *)
Theorem networkmessage_roundtrip {FC : FieldCodec} {FL : FieldCodecLaws FC} {NM : NMAllocator}
    m o room pre post :
  (forall off n, nm_malloc off n = true) -> nm_wf m -> UA_NetworkMessage_calcSizeBinary m <= room ->
  exists b,
    UA_NetworkMessage_encodeBinary m (o, room) = (GOOD, (o ++ b, room - UA_NetworkMessage_calcSizeBinary m)) /\
    zlen b = UA_NetworkMessage_calcSizeBinary m /\
    UA_NetworkMessage_decodeBinary (pre ++ b ++ post) (zlen pre) =
    (GOOD, Some (received m), zlen pre + UA_NetworkMessage_calcSizeBinary m).
Proof.
  intros Hmem Hw Hr; rewrite (nm_size m Hw) in *; exists (nm_bytes m).
  split; [by apply (nm_encode m Hw)|]; split; [done|]; by apply nm_decode.
Qed.

Lemma networkmessage_roundtrip_witness :
  let m := PubSubExample.message ArrNull in
  let '(_, (bs, _)) := UA_NetworkMessage_encodeBinary m ([], 1000) in
  UA_NetworkMessage_decodeBinary ([255] ++ bs ++ [0; 0]) 1 =
  (GOOD, Some (PubSubExample.message (ArrData [32; 56])), 146).
Proof.
  intros m; pose proof (PubSubExample.message_wf _ (or_introl eq_refl)) as Hm.
  destruct (networkmessage_roundtrip m [] 1000 [255] [0; 0] (fun _ _ => eq_refl) Hm
    ltac:(vm_compute; congruence)) as (b & He & _ & Hd).
  rewrite He; cbn [app] in *; etransitivity; [exact Hd|]; vm_compute; reflexivity.
Defined.

(** ** Arbitrary input *)

(** C30: Decoding arbitrary bytes as a NetworkMessage, with memory, ends: either
    within defined behaviour, without moving the offset backwards, and a message
    that is returned has counters that agree with its arrays and a footer of at
    most 255 bytes; or decoding met an error inside a delta frame
    ([broken_deltaframe]), which it returned without leaving defined behaviour,
    and deleting the rest of the message may then be undefined, as
    [truncated_deltaframe_undefined] shows. *)
Theorem networkmessage_decode_safe {FC : FieldCodec} {FS : FieldDecodeSafe FC} {NM : NMAllocator} src off :
  (forall off n, nm_malloc off n = true) -> 0 <= off ->
  (let '(s, v, off') := UA_NetworkMessage_decodeBinary src off in
   s <> UNDEFINED /\ s <> OUTOFFUEL /\ off <= off' /\
   match v with Some m => s = GOOD /\ nm_shape m | None => s <> GOOD end) \/
  exists o s off', broken_deltaframe src o s off' /\
    UA_NetworkMessage_decodeBinaryInternal src off = (s, None, off') /\
    s <> UNDEFINED /\ s <> OUTOFFUEL /\ s <> GOOD /\ off <= off'.
Proof.
  intros Hmem Ho; destruct (nm_safe Hmem src off Ho) as [H|(o & s & off' & Hb & Hi & _)]; [by left|right].
  exists o, s, off'; split; [done|]; split; [done|].
  pose proof (nm_safe_internal Hmem src off Ho) as H; rewrite Hi in H; unfold nresult in H; tauto.
Qed.

Lemma networkmessage_decode_safe_witness :
  (* a signed message with an empty payload whose footer announces 256 bytes *)
  fst (fst (UA_NetworkMessage_decodeBinary
              [193; 16; 0; 4; 0; 0; 0; 0; 0; 0; 1; 1; 2; 3] 0)) = BADDECODINGERROR.
Proof.
  destruct (networkmessage_decode_safe [193; 16; 0; 4; 0; 0; 0; 0; 0; 0; 1; 1; 2; 3] 0
    (fun _ _ => eq_refl) (Z.le_refl 0)) as [W|(o & s & off' & _ & Hi & _)].
  - destruct (UA_NetworkMessage_decodeBinary _ _) as [[s v] o] eqn:E; vm_compute in E.
    injection E as <- <- <-; destruct W as (_ & _ & _ & _); reflexivity.
  - vm_compute in Hi; injection Hi as <- <-; reflexivity.
Defined.

(** Five bytes announce a delta frame of one field and end there: decoding
    reports an error, and deleting the message releases the field, which nothing
    has initialised. *)
Theorem truncated_deltaframe_undefined :
  fst (fst (UA_NetworkMessage_decodeBinaryInternal [1; 129; 1; 1; 0] 0)) = BADDECODINGERROR /\
  fst (fst (UA_NetworkMessage_decodeBinary [1; 129; 1; 1; 0] 0)) = UNDEFINED.
Proof. split; vm_compute; reflexivity. Qed.

(** An array for which there is no memory is filled all the same. *)
Theorem unchecked_allocation_undefined :
  fst (fst (UA_NetworkMessage_decodeBinary (NM := fun _ _ => false) [65; 1; 100; 0] 0)) = UNDEFINED.
Proof. vm_compute; reflexivity. Qed.

(** ** Deleting *)

Fixpoint owned_fields (i : nat) (ms : list UA_DataSetMessage) : list Block :=
  match ms with
  | [] => []
  | m :: ms =>
      match data m with
      | KeyFrameData _ fields => UA_free fields (BFields i)
      | DeltaFrameData _ fields => UA_free fields (BFields i)
      end ++ owned_fields (S i) ms
  end.

(** The blocks that deleting releases and the two that it forgets. *)
Definition owned_released (m : UA_NetworkMessage) : list Block :=
  UA_free (promotedFields m) BPromoted ++ UA_free (messageNonce (securityHeader m)) BNonce
  ++ UA_free (dataSetWriterIds m) BWriterIds ++ UA_free (payloadSizes m) BSizes
  ++ owned_fields 0 (arr_list (dataSetMessages m)) ++ UA_free (dataSetMessages m) BMessages
  ++ UA_free (securityFooter m) BFooter.

Definition owned_leaked (m : UA_NetworkMessage) : list Block :=
  match publisherId m with
  | PublisherIdString s => UA_free s BPublisherId
  | PublisherIdInt _ => []
  end ++ UA_free (signature m) BSignature.

Definition owned (m : UA_NetworkMessage) : list Block := owned_released m ++ owned_leaked m.

Lemma elem_of_free {A} (p : UA_Array A) b x : x ∈ UA_free p b -> x = b.
Proof. destruct p; simpl; set_solver. Qed.

Lemma elem_of_owned_fields i ms x : x ∈ owned_fields i ms -> exists j, (i <= j)%nat /\ x = BFields j.
Proof.
  revert i; induction ms as [|m ms IH]; intros i; simpl; [by intros ?%elem_of_nil|].
  rewrite elem_of_app; intros [Hx|Hx].
  - exists i; split; [lia|]; destruct (data m); by apply elem_of_free in Hx.
  - destruct (IH _ Hx) as (j & ? & ->); exists j; split; [lia|done].
Qed.

Lemma NoDup_free_app {A} (p : UA_Array A) b l : NoDup l -> b ∉ l -> NoDup (UA_free p b ++ l).
Proof. intros; destruct p; simpl; [done..|]; by apply NoDup_cons. Qed.

Lemma NoDup_owned_fields i ms : NoDup (owned_fields i ms).
Proof.
  revert i; induction ms as [|m ms IH]; intros i; simpl; [constructor|].
  assert (BFields i ∉ owned_fields (S i) ms).
  { intros Hx; apply elem_of_owned_fields in Hx as (j & ? & [= ->]); lia. }
  destruct (data m); by apply NoDup_free_app.
Qed.

Lemma free_messages_owned i ms : Forall dsm_shape ms ->
  free_messages i (length ms) ms = owned_fields i ms.
Proof.
  intros Hms; revert i; induction Hms as [|m ms Hm _ IH]; intros i; simpl; [done|].
  rewrite IH; f_equal; unfold UA_DataSetMessage_free, dsm_shape in *.
  destruct (data m); [destruct Hm as [[-> | [-> ->]] _]|destruct Hm as [-> _]]; done.
Qed.

Lemma delete_released m : nm_shape m ->
  fst (UA_NetworkMessage_deleteMembers m) = owned_released m.
Proof.
  intros [Ht _ [_ Hi] [_ Hp] [[_ Hn] Hz] [_ Hsz] (ms & Hm & Hlen & Hms) [_ Hf]].
  unfold UA_NetworkMessage_deleteMembers, owned_released; rewrite Ht, Z.eqb_refl, Hm.
  cbn [fst arr_nonnull arr_list].
  replace (Z.to_nat (message_count m)) with (length ms) by (unfold zlen in *; lia).
  rewrite free_messages_owned by done.
  f_equal; [destruct (promotedFieldsEnabled m); [done|by rewrite Hp]|].
  f_equal; [destruct (securityEnabled m); cbn [andb]; [|by rewrite Hz]|].
  { destruct (Z.ltb_spec 0 (nonceLength (securityHeader m))); [done|by rewrite Hn]. }
  rewrite !app_assoc; f_equal.
  - rewrite <- !app_assoc; destruct (payloadHeaderEnabled m); [by rewrite <- app_assoc|].
    cbn [andb] in Hsz; by rewrite Hi, Hsz.
  - destruct (securityEnabled m); cbn [andb] in *; [|by rewrite Hf, Hz].
    destruct (securityFooterEnabled (securityHeader m) && _) eqn:E; [done|by rewrite Hf].
Qed.

(** A block is none of the others. *)
Ltac other_block :=
  rewrite ?elem_of_app; intros Hx;
  repeat match type of Hx with _ \/ _ => destruct Hx as [Hx|Hx] end;
  first [apply elem_of_free in Hx; congruence
        |apply elem_of_owned_fields in Hx as (? & _ & ?); congruence].

Lemma NoDup_released m : NoDup (owned_released m).
Proof.
  unfold owned_released; do 4 (apply NoDup_free_app; [|other_block]).
  apply NoDup_app; split; [apply NoDup_owned_fields|split].
  - intros x Hx; apply elem_of_owned_fields in Hx as (j & _ & ->); other_block.
  - apply NoDup_free_app; [|other_block].
    rewrite <- (app_nil_r (UA_free _ _)); apply NoDup_free_app; [constructor|].
    by intros ?%elem_of_nil.
Qed.

(** Deleting a decoded message frees every block once and leaves a zeroed
    message, except that the string of the publisher id and the signature are
    not freed. *)
Theorem networkmessage_delete m : nm_shape m ->
  let '(freed, m') := UA_NetworkMessage_deleteMembers m in
  freed ++ owned_leaked m = owned m /\ NoDup freed /\ m' = nm_zero.
Proof.
  intros Hm; pose proof (delete_released m Hm) as Hfreed; pose proof (NoDup_released m).
  destruct (UA_NetworkMessage_deleteMembers m) as [freed m'] eqn:E; simpl in Hfreed; subst.
  by injection E.
Qed.

Lemma networkmessage_delete_witness :
  let m := PubSubExample.message (ArrData [32; 56]) in
  fst (UA_NetworkMessage_deleteMembers m) =
    [BPromoted; BNonce; BWriterIds; BSizes; BFields 0; BFields 1; BMessages; BFooter] /\
  owned_leaked m = [BPublisherId; BSignature].
Proof.
  assert (Hs : nm_shape (PubSubExample.message (ArrData [32; 56]))).
  { assert (E : UA_NetworkMessage_decodeBinary (nm_bytes (PubSubExample.message ArrNull)) 0 =
      (GOOD, Some (PubSubExample.message (ArrData [32; 56])), 145)) by (vm_compute; reflexivity).
    destruct (nm_safe (NM := PubSubExample.memory) (fun _ _ => eq_refl) (nm_bytes (PubSubExample.message ArrNull)) 0 (Z.le_refl 0))
      as [W|(? & ? & ? & _ & _ & W)]; rewrite E in W; [apply W|discriminate]. }
  pose proof (networkmessage_delete _ Hs) as W; intros m; fold m in W.
  split; [|reflexivity].
  destruct (UA_NetworkMessage_deleteMembers m) as [freed m'] eqn:E.
  destruct W as (W & _); vm_compute in E; by injection E.
Defined.

(** ** What the encoder gets wrong *)

Lemma wthen_good m1 m2 b : fst (wthen m1 m2 b) = GOOD ->
  fst (m1 b) = GOOD /\ fst (m2 (snd (m1 b))) = GOOD.
Proof.
  unfold wthen; destruct (m1 b) as [s b']; simpl; destruct (bad s) eqn:E; simpl; [|].
  - intros ->; by apply bad_true in E.
  - by apply bad_false in E.
Qed.

Lemma wignore_good m1 m2 b : fst (wignore m1 m2 b) = GOOD -> fst (m2 (snd (m1 b))) = GOOD.
Proof.
  unfold wignore; destruct (m1 b) as [s b']; destruct (Z.eqb_spec s UNDEFINED); [|done].
  by subst.
Qed.

Lemma footer_never {FC : FieldCodec} fuel i size footer b : 256 <= size -> 0 <= i < 256 ->
  fst (encode_footer fuel i size footer b) <> GOOD.
Proof.
  intros Hs; revert i b; induction fuel as [|fuel IH]; intros i b Hi; cbn [encode_footer];
    (destruct (Z.ltb_spec i size); [|lia]); [done|].
  destruct (footer !! Z.to_nat i); [|done]; intros Hg; apply wthen_good in Hg as [_ Hg].
  revert Hg; apply IH, Z.mod_pos_bound; lia.
Qed.

(** A message with a security footer of 256 bytes or more cannot be encoded
    into a buffer of any size: the loop over the footer counts with eight bits
    and never reaches its end. *)
Theorem footer_256_never_encoded {FC : FieldCodec} m b :
  securityEnabled m = true -> securityFooterEnabled (securityHeader m) = true ->
  256 <= securityFooterSize (securityHeader m) ->
  fst (UA_NetworkMessage_encodeBinary m b) <> GOOD.
Proof.
  intros H1 H2 H3 Hg; unfold UA_NetworkMessage_encodeBinary in Hg.
  do 5 (apply wthen_good in Hg as [_ Hg]); do 3 (apply wignore_good in Hg).
  do 2 (apply wthen_good in Hg as [_ Hg]); rewrite H1 in Hg; unfold wwhen, encode_trailer in Hg.
  apply wthen_good in Hg as [Hg _]; rewrite H2 in Hg; by apply footer_never in Hg.
Qed.

Definition footer_message : UA_NetworkMessage :=
  mkNetworkMessage 1 false false false 0 false true false false false false 0
    (PublisherIdInt 0) UA_GUID_NULL groupHeader_zero 0 ArrNull 0 0 0 ArrNull
    (mkSecurityHeader false false true false 0 0 ArrNull 256) ArrNull
    (ArrData [mkDSM (mkDSMHeader true 0 false false false false false 3 false 0 0 0 0 0 0)
                    (KeyFrameData 0 ArrNull)])
    (ArrData (replicate 256 0)) ArrNull.

Lemma footer_256_never_encoded_witness :
  UA_NetworkMessage_calcSizeBinary footer_message = 268 /\
  fst (UA_NetworkMessage_encodeBinary footer_message ([], 600)) = BADRESPONSETOOLARGE /\
  fst (UA_NetworkMessage_encodeBinary footer_message ([], 1000000)) <> GOOD.
Proof.
  split; [vm_compute; reflexivity|]; split; [vm_compute; reflexivity|].
  apply footer_256_never_encoded; [reflexivity..|vm_compute; congruence].
Defined.

Definition keepalive_message : UA_NetworkMessage :=
  mkNetworkMessage 1 false false false 0 false false true false false false 0
    (PublisherIdInt 0) UA_GUID_NULL groupHeader_zero 0 ArrNull 5000 0 0 ArrNull
    securityHeader_zero ArrNull
    (ArrData [mkDSM (mkDSMHeader true 0 false false false false false 3 false 0 0 0 0 0 0)
                    (KeyFrameData 0 ArrNull)])
    ArrNull ArrNull.

(** A timestamp that does not fit into the buffer is dropped and the encoder
    still returns GOOD, since the status of writing it is overwritten: the
    receiver takes what follows as the timestamp. *)
Theorem timestamp_silently_dropped :
  nm_wf keepalive_message /\ UA_NetworkMessage_calcSizeBinary keepalive_message = 12 /\
  UA_NetworkMessage_encodeBinary keepalive_message ([], 6) = (GOOD, ([129; 32; 129; 3], 2)).
Proof.
  split; [|split; vm_compute; reflexivity].
  split; [PubSubExample.flat|done|PubSubExample.flat|done|done|done|done|PubSubExample.flat
         |PubSubExample.flat|done|done| |done|done].
  eexists; split; [reflexivity|]; split; [done|]; split; [|done].
  constructor; [|done]; split; [split; vm_compute; intuition congruence|by right].
Qed.
