(* ===== verification/Connection.v ===== *)
(** * Transport types ([tools/schema/Custom.Opc.Ua.Connection.bsd])

    The headers of the binary transport as values of the codec.  Their
    descriptions are generated from the schema; the rows below follow it
    field by field.  For every header the file gives its bytes and shows that
    the codec writes and reads exactly them. *)

From Stdlib Require Import ZArith Lia.
From stdpp Require Import base list numbers tactics sets gmap.
From S2P Require Import Prelude UaTypes UaValue BinarySize BinaryEncode BinaryDecode BinarySpec BinarySizeCorrect BinaryRoundtrip FieldCodec.

(** ** Message and chunk types *)

Definition UA_MESSAGETYPE_ACK : Z := 0x4B4341.
Definition UA_MESSAGETYPE_HEL : Z := 0x4C4548.
Definition UA_MESSAGETYPE_MSG : Z := 0x47534D.
Definition UA_MESSAGETYPE_OPN : Z := 0x4E504F.
Definition UA_MESSAGETYPE_CLO : Z := 0x4F4C43.
Definition UA_MESSAGETYPE_ERR : Z := 0x525245.

Definition UA_CHUNKTYPE_FINAL : Z := 0x46000000.
Definition UA_CHUNKTYPE_INTERMEDIATE : Z := 0x43000000.
Definition UA_CHUNKTYPE_ABORT : Z := 0x41000000.

(** ** Descriptions *)

Definition transport_row (index size : Z) (ovl : bool) (ms : list UA_DataTypeMember) : UA_DataType :=
  mkDataType (mkNodeId 0 (NumericId 0)) size index false ovl ovl 0 ms.

Definition m_uint32 : UA_DataTypeMember := mkMember 6 0 true false.
Definition m_string : UA_DataTypeMember := mkMember 11 0 true false.
Definition m_bytestring : UA_DataTypeMember := mkMember 14 0 true false.

Definition TcpMessageHeader := transport_row 0 8 true [m_uint32; m_uint32].
Definition TcpHelloMessage :=
  transport_row 1 40 false [m_uint32; m_uint32; m_uint32; m_uint32; m_uint32; m_string].
Definition TcpAcknowledgeMessage :=
  transport_row 2 20 true [m_uint32; m_uint32; m_uint32; m_uint32; m_uint32].
Definition TcpErrorMessage := transport_row 3 24 false [m_uint32; m_string].
Definition SecureConversationMessageHeader :=
  transport_row 4 12 true [mkMember 0 0 false false; m_uint32].
Definition AsymmetricAlgorithmSecurityHeader :=
  transport_row 5 48 false [m_bytestring; m_bytestring; m_bytestring].
Definition SymmetricAlgorithmSecurityHeader := transport_row 6 4 true [m_uint32].
Definition SequenceHeader := transport_row 7 8 true [m_uint32; m_uint32].

Definition UA_TRANSPORT : list UA_DataType :=
  [TcpMessageHeader; TcpHelloMessage; TcpAcknowledgeMessage; TcpErrorMessage;
   SecureConversationMessageHeader; AsymmetricAlgorithmSecurityHeader;
   SymmetricAlgorithmSecurityHeader; SequenceHeader].

(** [&type[-type->typeIndex]] of a transport type is [UA_TRANSPORT]. *)
Class TransportEnv (TE : TypeEnv) : Prop :=
  typelist_transport : forall t, t ∈ UA_TRANSPORT -> typelist t = UA_TRANSPORT.

(** ** Values *)

Definition tcpMessageHeader (typeAndChunk size : Z) : UA_Value :=
  VStruct [SScalar (VInt typeAndChunk); SScalar (VInt size)].
Definition tcpErrorMessage (error : Z) (reason : UA_String) : UA_Value :=
  VStruct [SScalar (VInt error); SScalar (VString reason)].
Definition secureConversationMessageHeader (typeAndChunk size channelId : Z) : UA_Value :=
  VStruct [SScalar (tcpMessageHeader typeAndChunk size); SScalar (VInt channelId)].
Definition asymmetricSecurityHeader (uri cert thumbprint : UA_ByteString) : UA_Value :=
  VStruct [SScalar (VString uri); SScalar (VString cert); SScalar (VString thumbprint)].
Definition symmetricSecurityHeader (tokenId : Z) : UA_Value := VStruct [SScalar (VInt tokenId)].
Definition sequenceHeader (sequenceNumber requestId : Z) : UA_Value :=
  VStruct [SScalar (VInt sequenceNumber); SScalar (VInt requestId)].

Section Headers.
Context {TE : TypeEnv} {TT : TransportEnv TE}.

Lemma mt_uint32 t : membertype t m_uint32 = Some UA_TYPES_UINT32.
Proof. done. Qed.
Lemma mt_string t : membertype t m_string = Some UA_TYPES_STRING.
Proof. done. Qed.
Lemma mt_bytestring t : membertype t m_bytestring = Some UA_TYPES_BYTESTRING.
Proof. done. Qed.
Lemma mt_header :
  membertype SecureConversationMessageHeader (mkMember 0 0 false false) = Some TcpMessageHeader.
Proof.
  unfold membertype; simpl; rewrite typelist_transport; [done|unfold UA_TRANSPORT; set_solver].
Qed.

Lemma wf_type_row i n o ms : wf_type (transport_row i n o ms).
Proof. done. Qed.

(** Unfold the well-formedness of a structure member by member. *)
Ltac struct_wf :=
  repeat split; try apply wf_type_row;
  cbn -[Z.le Z.lt Z.pow membertype];
  rewrite ?mt_header; cbn -[Z.le Z.lt Z.pow membertype];
  rewrite ?mt_uint32, ?mt_string, ?mt_bytestring; cbn -[Z.le Z.lt Z.pow membertype];
  try done; try lia; unfold UA_ENCODING_MAX_RECURSION; try lia;
  repeat split; try done; try lia.

Lemma tcpMessageHeader_wf a b : 0 <= a < 2 ^ 32 -> 0 <= b < 2 ^ 32 ->
  FieldCodec.field_wf (tcpMessageHeader a b) TcpMessageHeader.
Proof. intros; struct_wf. Qed.

Lemma tcpErrorMessage_wf e r : 0 <= e < 2 ^ 32 -> wf_string r ->
  FieldCodec.field_wf (tcpErrorMessage e r) TcpErrorMessage.
Proof. intros ? (? & ? & ?); struct_wf. Qed.

Lemma secureConversationMessageHeader_wf a b c :
  0 <= a < 2 ^ 32 -> 0 <= b < 2 ^ 32 -> 0 <= c < 2 ^ 32 ->
  FieldCodec.field_wf (secureConversationMessageHeader a b c) SecureConversationMessageHeader.
Proof. intros; struct_wf. Qed.

Lemma asymmetricSecurityHeader_wf u c t : wf_string u -> wf_string c -> wf_string t ->
  FieldCodec.field_wf (asymmetricSecurityHeader u c t) AsymmetricAlgorithmSecurityHeader.
Proof. intros (? & ? & ?) (? & ? & ?) (? & ? & ?); struct_wf. Qed.

Lemma symmetricSecurityHeader_wf t : 0 <= t < 2 ^ 32 ->
  FieldCodec.field_wf (symmetricSecurityHeader t) SymmetricAlgorithmSecurityHeader.
Proof. intros; struct_wf. Qed.

Lemma sequenceHeader_wf s r : 0 <= s < 2 ^ 32 -> 0 <= r < 2 ^ 32 ->
  FieldCodec.field_wf (sequenceHeader s r) SequenceHeader.
Proof. intros; struct_wf. Qed.

(** ** Bytes *)

Definition header_bytes (typeAndChunk size channelId : Z) : list Z :=
  le_bytes 4 typeAndChunk ++ le_bytes 4 size ++ le_bytes 4 channelId.

Ltac struct_bytes :=
  cbn -[membertype le_bytes]; rewrite ?mt_header; cbn -[membertype le_bytes];
  rewrite ?mt_uint32, ?mt_string, ?mt_bytestring; cbn -[membertype le_bytes];
  rewrite ?app_nil_r, <- ?app_assoc; try done.

Lemma tcpMessageHeader_bytes a b :
  bytes_of (tcpMessageHeader a b) TcpMessageHeader = le_bytes 4 a ++ le_bytes 4 b.
Proof. struct_bytes. Qed.

Lemma tcpErrorMessage_bytes e r :
  bytes_of (tcpErrorMessage e r) TcpErrorMessage = le_bytes 4 e ++ bytes_string r.
Proof. struct_bytes. Qed.

Lemma secureConversationMessageHeader_bytes a b c :
  bytes_of (secureConversationMessageHeader a b c) SecureConversationMessageHeader =
  header_bytes a b c.
Proof. struct_bytes. Qed.

Lemma asymmetricSecurityHeader_bytes u c t :
  bytes_of (asymmetricSecurityHeader u c t) AsymmetricAlgorithmSecurityHeader =
  bytes_string u ++ bytes_string c ++ bytes_string t.
Proof. struct_bytes. Qed.

Lemma symmetricSecurityHeader_bytes t :
  bytes_of (symmetricSecurityHeader t) SymmetricAlgorithmSecurityHeader = le_bytes 4 t.
Proof. struct_bytes. Qed.

Lemma sequenceHeader_bytes s r :
  bytes_of (sequenceHeader s r) SequenceHeader = le_bytes 4 s ++ le_bytes 4 r.
Proof. struct_bytes. Qed.
End Headers.

(** ** Headers in a buffer *)

Lemma encode_buf {TE : TypeEnv} v t o r : FieldCodec.field_wf v t -> zlen (bytes_of v t) <= r ->
  UA_encodeBinary_buf v t (o, r) = (GOOD, (o ++ bytes_of v t, r - zlen (bytes_of v t))).
Proof.
  intros Hw Hr; exact (fc_encode_fits (FieldCodecLaws :=
    binary_field_codec_laws (fun _ _ => true) (fun _ _ => eq_refl)) v t o r Hw Hr).
Qed.

Lemma decode_buf {TE : TypeEnv} calloc_ok v t pre post :
  (forall n s, calloc_ok n s = true) -> FieldCodec.field_wf v t ->
  UA_decodeBinary calloc_ok (pre ++ bytes_of v t ++ post) (zlen pre) t =
  (GOOD, Some v, zlen pre + zlen (bytes_of v t)).
Proof.
  intros Ha Hw; exact (fc_decode_bytes (FieldCodecLaws := binary_field_codec_laws calloc_ok Ha)
    v t pre post Hw).
Qed.

Lemma zlen_bytes_string r : zlen (bytes_string r) = 4 + arr_length r.
Proof.
  unfold bytes_string, bytes_array, arr_length; rewrite zlen_app, zlen_le_bytes.
  assert (E : arr_list (arr_map (fun b => [u8 b]) r) = map (fun b => [u8 b]) (arr_list r))
    by (by destruct r).
  rewrite E, (zlen_concat_const (fun b => [u8 b]) 1) by done; lia.
Qed.

(** ** Connections ([src/ua_connection.c])

    TCP delivers a byte stream in packets of any size.  [UA_Connection_processChunks]
    cuts it into chunks, calls a callback for every complete chunk and keeps the
    rest in [incompleteMessage].  The callback (client or server) is a parameter
    that may change the application and the connection.  [malloc] and [realloc]
    may fail: [alloc_ok n] tells whether the [n]-th allocation succeeds. *)

(** ** Data ([include/ua_plugin_network.h]) *)

Record UA_ConnectionConfig := mkConnectionConfig {
  protocolVersion : Z;
  sendBufferSize : Z;
  recvBufferSize : Z;
  maxMessageSize : Z;
  maxChunkCount : Z
}.

Inductive UA_ConnectionState :=
| UA_CONNECTION_CLOSED
| UA_CONNECTION_OPENING
| UA_CONNECTION_ESTABLISHED.

#[export] Instance UA_ConnectionState_eq_dec : EqDecision UA_ConnectionState.
Proof. solve_decision. Defined.

(** [channel] is the SecureChannel that is attached, by its address;
    [incompleteMessage] is empty when its length is zero. *)
Record UA_Connection := mkConnection {
  conn_state : UA_ConnectionState;
  localConf : UA_ConnectionConfig;
  remoteConf : UA_ConnectionConfig;
  conn_channel : option nat;
  incompleteMessage : list Z
}.

Definition set_incomplete (c : UA_Connection) (m : list Z) : UA_Connection :=
  mkConnection (conn_state c) (localConf c) (remoteConf c) (conn_channel c) m.

Definition set_channel (c : UA_Connection) (ch : option nat) : UA_Connection :=
  mkConnection (conn_state c) (localConf c) (remoteConf c) ch (incompleteMessage c).

(** ** Splitting the stream into chunks *)

Section Process.
Context {App : Type}.
Variable processCallback : App -> UA_Connection -> list Z -> status * App * UA_Connection.
Variable alloc_ok : nat -> bool.

Record PState := mkPState {
  ps_conn : UA_Connection;
  ps_app : App;
  ps_allocs : nat
}.

Definition with_conn (st : PState) (c : UA_Connection) : PState :=
  mkPState c (ps_app st) (ps_allocs st).

(** [UA_malloc], [UA_realloc] *)
Definition alloc (st : PState) : bool * PState :=
  (alloc_ok (ps_allocs st), mkPState (ps_conn st) (ps_app st) (S (ps_allocs st))).

Definition prependIncompleteChunk (st : PState) (message : list Z) : status * PState * list Z :=
  let '(ok, st) := alloc st in
  let inc := incompleteMessage (ps_conn st) in
  let st := with_conn st (set_incomplete (ps_conn st) []) in
  if ok then (GOOD, st, inc ++ message) else (BADOUTOFMEMORY, st, message).

Definition bufferIncompleteChunk (st : PState) (bytes : list Z) : status * PState :=
  let '(ok, st) := alloc st in
  if ok then (GOOD, with_conn st (set_incomplete (ps_conn st) bytes))
  else (BADOUTOFMEMORY, with_conn st (set_incomplete (ps_conn st) [])).

(** Bytes of the header at [pos]; the caller has checked that they exist. *)
Definition byte_at (pos : list Z) (i : nat) : Z := nth i pos 0.

Definition msgtype_of (pos : list Z) : Z :=
  byte_at pos 0 + Z.shiftl (byte_at pos 1) 8 + Z.shiftl (byte_at pos 2) 16.

Definition msgtype_known (t : Z) : bool :=
  (t =? UA_MESSAGETYPE_MSG) || (t =? UA_MESSAGETYPE_ERR) || (t =? UA_MESSAGETYPE_OPN)
  || (t =? UA_MESSAGETYPE_HEL) || (t =? UA_MESSAGETYPE_ACK) || (t =? UA_MESSAGETYPE_CLO).

(** 'C', 'F' or 'A' *)
Definition isFinal_known (b : Z) : bool := (b =? 67) || (b =? 70) || (b =? 65).

Definition chunk_length_of (pos : list Z) : Z := le_value (take 4 (drop 4 pos)).

(** Result: status, state, position and [done]. *)
Definition processChunk (st : PState) (pos : list Z) : status * PState * list Z * bool :=
  let length := zlen pos in
  if length <? 8 then
    let '(_, st) := if 0 <? length then bufferIncompleteChunk st pos else (GOOD, st) in
    (GOOD, st, pos, true)
  else if negb (msgtype_known (msgtype_of pos)) then (BADTCPMESSAGETYPEINVALID, st, pos, true)
  else if negb (isFinal_known (byte_at pos 3)) then (BADTCPMESSAGETYPEINVALID, st, pos, true)
  else
    let chunk_length := chunk_length_of pos in
    if (chunk_length <? 16) || (recvBufferSize (localConf (ps_conn st)) <? chunk_length)
    then (BADTCPMESSAGETOOLARGE, st, pos, true)
    else if length <? chunk_length then
      let '(_, st) := bufferIncompleteChunk st pos in (GOOD, st, pos, true)
    else
      let n := Z.to_nat chunk_length in
      let '(ret, app, conn) := processCallback (ps_app st) (ps_conn st) (take n pos) in
      (ret, mkPState conn app (ps_allocs st), drop n pos, false).

(** The loop over the chunks of a message; every chunk has 16 bytes or more. *)
Fixpoint processChunks_loop (fuel : nat) (st : PState) (pos : list Z) : status * PState :=
  match fuel with
  | O => (OUTOFFUEL, st)
  | S fuel =>
      let '(retval, st, pos, done) := processChunk st pos in
      if negb done && negb (bad retval) then processChunks_loop fuel st pos else (retval, st)
  end.

Definition UA_Connection_processChunks (st : PState) (packet : list Z) : status * PState :=
  let '(retval, st, message) :=
    if 0 <? zlen (incompleteMessage (ps_conn st)) then prependIncompleteChunk st packet
    else (GOOD, st, packet) in
  if bad retval then (retval, st)
  else processChunks_loop (S (length message)) st message.

(** Packets one after the other, until an error. *)
Fixpoint receive_all (st : PState) (packets : list (list Z)) : status * PState :=
  match packets with
  | [] => (GOOD, st)
  | p :: packets =>
      let '(retval, st) := UA_Connection_processChunks st p in
      if bad retval then (retval, st) else receive_all st packets
  end.

(** ** Facts about the loop *)

Lemma loop_total fuel st pos :
  (forall app conn chunk, fst (fst (processCallback app conn chunk)) <> OUTOFFUEL) ->
  (length pos < fuel)%nat -> fst (processChunks_loop fuel st pos) <> OUTOFFUEL.
Proof.
  intros Hcb; revert st pos; induction fuel as [|fuel IH]; intros st pos Hf; [lia|].
  cbn [processChunks_loop]; unfold processChunk.
  destr_if; [repeat case_match; simplify_eq/=; done|].
  destr_if; [done|]; destr_if; [done|]; destr_if; [done|].
  destr_if; [repeat case_match; simplify_eq/=; done|]; zbool.
  specialize (Hcb (ps_app st) (ps_conn st) (take (Z.to_nat (chunk_length_of pos)) pos)).
  destruct (processCallback _ _ _) as [[s app] conn]; cbn [fst negb andb] in *.
  destruct (negb (bad s)); [|done]; apply IH; rewrite length_drop; unfold zlen in *; lia.
Qed.

(** Processing a packet ends within its fuel. *)
Lemma processChunks_total st packet :
  (forall app conn chunk, fst (fst (processCallback app conn chunk)) <> OUTOFFUEL) ->
  fst (UA_Connection_processChunks st packet) <> OUTOFFUEL.
Proof.
  intros Hcb; unfold UA_Connection_processChunks.
  destruct (if 0 <? _ then _ else _) as [[s st'] m] eqn:E.
  destruct (bad s) eqn:Eb; [|apply loop_total; [done|lia]].
  revert E; unfold prependIncompleteChunk, alloc; repeat case_match; intros; by simplify_eq/=.
Qed.

Hypothesis Halloc : forall n, alloc_ok n = true.
(** The callback leaves the buffered bytes of the connection alone. *)
Hypothesis Hcb : forall app conn chunk,
  incompleteMessage (snd (processCallback app conn chunk)) = incompleteMessage conn.

(** The state without the number of allocations. *)
Definition view (r : status * PState) : status * UA_Connection * App :=
  (fst r, ps_conn (snd r), ps_app (snd r)).

(** One step of the loop as a function of connection and application. *)
Definition step (c : UA_Connection) (a : App) (pos : list Z) :
    status * UA_Connection * App * list Z * bool :=
  if zlen pos <? 8 then
    (GOOD, if 0 <? zlen pos then set_incomplete c pos else c, a, pos, true)
  else if negb (msgtype_known (msgtype_of pos)) then (BADTCPMESSAGETYPEINVALID, c, a, pos, true)
  else if negb (isFinal_known (byte_at pos 3)) then (BADTCPMESSAGETYPEINVALID, c, a, pos, true)
  else if (chunk_length_of pos <? 16) || (recvBufferSize (localConf c) <? chunk_length_of pos)
  then (BADTCPMESSAGETOOLARGE, c, a, pos, true)
  else if zlen pos <? chunk_length_of pos then (GOOD, set_incomplete c pos, a, pos, true)
  else
    let n := Z.to_nat (chunk_length_of pos) in
    let '(ret, a, c) := processCallback a c (take n pos) in (ret, c, a, drop n pos, false).

Fixpoint run (fuel : nat) (c : UA_Connection) (a : App) (pos : list Z) :
    status * UA_Connection * App :=
  match fuel with
  | O => (OUTOFFUEL, c, a)
  | S fuel =>
      let '(s, c, a, pos, done) := step c a pos in
      if negb done && negb (bad s) then run fuel c a pos else (s, c, a)
  end.

Lemma processChunk_step st pos :
  let '(s, st', pos', done) := processChunk st pos in
  step (ps_conn st) (ps_app st) pos = (s, ps_conn st', ps_app st', pos', done).
Proof.
  unfold processChunk, step, bufferIncompleteChunk, alloc; cbn [ps_allocs]; rewrite Halloc.
  repeat (case_match; simplify_eq/=; try done).
Qed.

Lemma loop_run fuel st pos :
  view (processChunks_loop fuel st pos) = run fuel (ps_conn st) (ps_app st) pos.
Proof.
  revert st pos; induction fuel as [|fuel IH]; intros st pos; [done|].
  cbn [processChunks_loop run]; pose proof (processChunk_step st pos) as Hs.
  destruct (processChunk st pos) as [[[s st'] pos'] done]; rewrite Hs.
  by destruct (negb done && negb (bad s)).
Qed.

(** A step depends only on the bytes it takes: more input behind a complete
    chunk or a bad header changes nothing. *)
Lemma nth_app_l (l1 l2 : list Z) i : (i < length l1)%nat -> nth i (l1 ++ l2) 0 = nth i l1 0.
Proof. apply app_nth1. Qed.

Lemma header_app pos more : 8 <= zlen pos ->
  msgtype_of (pos ++ more) = msgtype_of pos /\ byte_at (pos ++ more) 3 = byte_at pos 3 /\
  chunk_length_of (pos ++ more) = chunk_length_of pos.
Proof.
  unfold zlen; intros Hl; unfold msgtype_of, byte_at, chunk_length_of.
  rewrite !nth_app_l by lia; split; [done|]; split; [done|].
  by rewrite drop_app_le, take_app_le by (rewrite ?length_drop; lia).
Qed.

(** Classification of a step. *)
Inductive step_case (c : UA_Connection) (a : App) (pos : list Z) : Prop :=
| StepWait : step c a pos = (GOOD, if 0 <? zlen pos then set_incomplete c pos else c, a, pos, true) ->
    step_case c a pos
| StepBad s : s <> GOOD -> (forall more, step c a (pos ++ more) = (s, c, a, pos ++ more, true)) ->
    step_case c a pos
| StepChunk n : 16 <= Z.of_nat n <= zlen pos -> 
    (forall more, step c a (pos ++ more) =
       let '(s, a', c') := processCallback a c (take n pos) in
       (s, c', a', drop n pos ++ more, false)) ->
    step_case c a pos.

Lemma step_classify c a pos : step_case c a pos.
Proof.
  destruct (Z.ltb_spec (zlen pos) 8) as [Hs|Hl].
  { apply StepWait; unfold step; by destruct (Z.ltb_spec (zlen pos) 8); [|lia]. }
  assert (Hm : forall more, (zlen (pos ++ more) <? 8) = false).
  { intros; rewrite zlen_app; pose proof (zlen_nonneg more); apply Z.ltb_ge; lia. }
  destruct (msgtype_known (msgtype_of pos)) eqn:E1.
  2: { apply (StepBad _ _ _ BADTCPMESSAGETYPEINVALID); [done|]; intros more; unfold step.
       destruct (header_app pos more Hl) as (-> & -> & ->); by rewrite Hm, E1. }
  destruct (isFinal_known (byte_at pos 3)) eqn:E2.
  2: { apply (StepBad _ _ _ BADTCPMESSAGETYPEINVALID); [done|]; intros more; unfold step.
       destruct (header_app pos more Hl) as (-> & -> & ->); by rewrite Hm, E1, E2. }
  destruct ((chunk_length_of pos <? 16) || (recvBufferSize (localConf c) <? chunk_length_of pos))
    eqn:E3.
  { apply (StepBad _ _ _ BADTCPMESSAGETOOLARGE); [done|]; intros more; unfold step.
    destruct (header_app pos more Hl) as (-> & -> & ->); by rewrite Hm, E1, E2, E3. }
  assert (Hmin : 16 <= chunk_length_of pos) by (clear -E3; zbool; lia).
  destruct (Z.ltb_spec (zlen pos) (chunk_length_of pos)) as [Hw|Hc].
  { apply StepWait; unfold step; rewrite <- (app_nil_r pos), Hm, app_nil_r, E1, E2, E3; simpl.
    destruct (Z.ltb_spec (zlen pos) (chunk_length_of pos)); [|lia].
    by destruct (Z.ltb_spec 0 (zlen pos)); [|lia]. }
  apply (StepChunk _ _ _ (Z.to_nat (chunk_length_of pos))); [lia|]; intros more; unfold step.
  destruct (header_app pos more Hl) as (-> & -> & ->); rewrite Hm, E1, E2, E3; simpl.
  pose proof (zlen_nonneg more); unfold zlen in Hc.
  destruct (Z.ltb_spec (zlen (pos ++ more)) (chunk_length_of pos)) as [Hx|_];
    [rewrite zlen_app in Hx; unfold zlen in *; lia|].
  by rewrite take_app_le, drop_app_le by lia.
Qed.

(** Enough fuel is any that exceeds the number of bytes. *)
Lemma run_fuel f1 f2 c a pos : (length pos < f1)%nat -> (length pos < f2)%nat ->
  run f1 c a pos = run f2 c a pos.
Proof.
  revert f2 c a pos; induction f1 as [|f1 IH]; intros [|f2] c a pos H1 H2; try lia.
  cbn [run]; destruct (step_classify c a pos) as [E|s Hs E|n Hn E].
  - by rewrite E.
  - specialize (E []); rewrite app_nil_r in E; by rewrite E.
  - specialize (E []); rewrite !app_nil_r in E; rewrite E.
    destruct (processCallback a c (take n pos)) as [[s a'] c']; cbn [negb andb].
    destruct (negb (bad s)); [|done]; unfold zlen in Hn.
    apply IH; rewrite length_drop; lia.
Qed.

(** Feeding bytes to a connection with [incompleteMessage] in front. *)
Definition feed (c : UA_Connection) (a : App) (bytes : list Z) : status * UA_Connection * App :=
  run (S (length (incompleteMessage c ++ bytes))) (set_incomplete c []) a
      (incompleteMessage c ++ bytes).

Lemma set_incomplete_id c : incompleteMessage c = [] -> set_incomplete c [] = c.
Proof. destruct c; simpl; by intros ->. Qed.

Lemma processChunks_feed st packet :
  view (UA_Connection_processChunks st packet) = feed (ps_conn st) (ps_app st) packet.
Proof.
  unfold UA_Connection_processChunks, feed.
  destruct (Z.ltb_spec 0 (zlen (incompleteMessage (ps_conn st)))) as [Hp|Hz].
  - unfold prependIncompleteChunk, alloc; cbn [ps_conn]; rewrite Halloc, bad_good.
    by rewrite loop_run.
  - assert (E : incompleteMessage (ps_conn st) = [])
      by (apply zlen_zero; pose proof (zlen_nonneg (incompleteMessage (ps_conn st))); lia).
    by rewrite bad_good, loop_run, E, set_incomplete_id.
Qed.

Lemma run_app fuel c a m1 m2 : (length m1 < fuel)%nat -> incompleteMessage c = [] ->
  run (S (length (m1 ++ m2))) c a (m1 ++ m2) =
  let '(s, c1, a1) := run fuel c a m1 in if bad s then (s, c1, a1) else feed c1 a1 m2.
Proof.
  revert c a m1; induction fuel as [|fuel IH]; intros c a m1 Hf Hi; [lia|].
  cbn [run]; destruct (step_classify c a m1) as [E|s Hs E|n Hn E].
  - rewrite E; cbn [negb andb]; rewrite bad_good; unfold feed.
    destruct (Z.ltb_spec 0 (zlen m1)) as [Hp|Hz].
    + cbn [set_incomplete incompleteMessage]; change (set_incomplete (set_incomplete c m1) [])
        with (set_incomplete c []); by rewrite set_incomplete_id.
    + assert (m1 = []) as -> by (apply zlen_zero; pose proof (zlen_nonneg m1); lia).
      by rewrite Hi, set_incomplete_id.
  - rewrite E; specialize (E []); rewrite app_nil_r in E; rewrite E; cbn [negb andb].
    apply bad_true in Hs; by rewrite Hs.
  - rewrite E; specialize (E []); rewrite !app_nil_r in E; rewrite E.
    specialize (Hcb a c (take n m1)).
    destruct (processCallback a c (take n m1)) as [[s a'] c']; cbn [negb andb snd] in *.
    destruct (bad s) eqn:Eb; cbn [negb]; [by rewrite Eb|].
    assert (Hn' : (n <= length m1)%nat) by (unfold zlen in Hn; lia).
    rewrite <- (IH c' a' (drop n m1)); [|rewrite length_drop; lia|congruence].
    apply run_fuel; rewrite !length_app, length_drop; lia.
Qed.

(** One packet or two. *)
Lemma feed_app c a m1 m2 :
  feed c a (m1 ++ m2) =
  let '(s, c1, a1) := feed c a m1 in if bad s then (s, c1, a1) else feed c1 a1 m2.
Proof.
  unfold feed at 1; rewrite app_assoc.
  rewrite (run_app (S (length (incompleteMessage c ++ m1)))); [done|lia|done].
Qed.

Lemma feed_nil c a : incompleteMessage c = [] -> feed c a [] = (GOOD, c, a).
Proof. intros E; unfold feed; rewrite E, set_incomplete_id by done; done. Qed.

Lemma feed_stable c a m c1 a1 : feed c a m = (GOOD, c1, a1) -> feed c1 a1 [] = (GOOD, c1, a1).
Proof.
  intros E; pose proof (feed_app c a m []) as Ha; rewrite app_nil_r, E, bad_good in Ha.
  congruence.
Qed.

Lemma receive_all_feed st p packets :
  view (receive_all st (p :: packets)) = feed (ps_conn st) (ps_app st) (concat (p :: packets)).
Proof.
  revert st p; induction packets as [|p' ps IH]; intros st p; cbn [receive_all concat];
    pose proof (processChunks_feed st p) as Hp;
    destruct (UA_Connection_processChunks st p) as [s st']; unfold view in Hp; cbn [fst snd] in Hp.
  - rewrite app_nil_r, <- Hp; destruct (bad s) eqn:Eb; [done|].
    by apply bad_false in Eb as ->.
  - rewrite feed_app, <- Hp; destruct (bad s) eqn:Eb; [done|].
    apply IH.
Qed.

(** ** Delivery of chunks *)

(** A chunk that the connection accepts with a receive buffer of [size]. *)
Definition valid_chunk (size : Z) (chunk : list Z) : Prop :=
  16 <= zlen chunk <= size /\ msgtype_known (msgtype_of chunk) = true /\
  isFinal_known (byte_at chunk 3) = true /\ chunk_length_of chunk = zlen chunk.

Lemma step_valid c a chunk more : valid_chunk (recvBufferSize (localConf c)) chunk ->
  step c a (chunk ++ more) =
  let '(s, a', c') := processCallback a c chunk in (s, c', a', more, false).
Proof.
  intros (Hl & H1 & H2 & H3); unfold step.
  destruct (header_app chunk more) as (-> & -> & ->); [lia|].
  rewrite H1, H2, H3, zlen_app; pose proof (zlen_nonneg more); cbn [negb].
  destruct (Z.ltb_spec (zlen chunk + zlen more) 8); [lia|].
  destruct (Z.ltb_spec (zlen chunk) 16); [lia|].
  destruct (Z.ltb_spec (recvBufferSize (localConf c)) (zlen chunk)); [lia|].
  destruct (Z.ltb_spec (zlen chunk + zlen more) (zlen chunk)); [lia|]; cbn [orb].
  by rewrite take_zlen_app, drop_zlen_app.
Qed.

(** The callback on a sequence of chunks, until it fails. *)
Fixpoint deliver (c : UA_Connection) (a : App) (chunks : list (list Z)) :
    status * UA_Connection * App :=
  match chunks with
  | [] => (GOOD, c, a)
  | chunk :: chunks =>
      let '(s, a, c) := processCallback a c chunk in
      if bad s then (s, c, a) else deliver c a chunks
  end.

Hypothesis Hconf : forall app conn chunk,
  recvBufferSize (localConf (snd (processCallback app conn chunk))) =
  recvBufferSize (localConf conn).

Lemma feed_chunks c a chunks : incompleteMessage c = [] ->
  Forall (valid_chunk (recvBufferSize (localConf c))) chunks ->
  feed c a (concat chunks) = deliver c a chunks.
Proof.
  intros Hi Hv; unfold feed; rewrite Hi, set_incomplete_id by done; cbn [app].
  revert c a Hi Hv; induction chunks as [|chunk chunks IH]; intros c a Hi Hv; [done|].
  inversion Hv; subst; cbn [concat run deliver]; rewrite step_valid by done.
  specialize (Hcb a c chunk); specialize (Hconf a c chunk).
  destruct (processCallback a c chunk) as [[s a'] c']; cbn [snd negb andb] in *.
  destruct (bad s); cbn [negb]; [done|].
  rewrite <- IH; [|congruence|by rewrite Hconf].
  apply run_fuel; rewrite ?length_app; lia || (destruct H1 as [[? _] _]; unfold zlen in *; lia).
Qed.

(** ** Bound on what is buffered *)

Lemma step_done_bound c a pos s c' a' pos' :
  step c a pos = (s, c', a', pos', true) -> incompleteMessage c = [] ->
  zlen (incompleteMessage c') < Z.max 8 (recvBufferSize (localConf c')).
Proof.
  assert (H0 : zlen (@nil Z) = 0) by done.
  unfold step; intros E Hi; repeat (case_match; simplify_eq/=); zbool; rewrite ?Hi, ?H0; lia.
Qed.

Lemma run_bound fuel c a pos : incompleteMessage c = [] ->
  let '(s, c', _) := run fuel c a pos in
  zlen (incompleteMessage c') < Z.max 8 (recvBufferSize (localConf c')).
Proof.
  assert (H0 : zlen (@nil Z) = 0) by done.
  revert c a pos; induction fuel as [|fuel IH]; intros c a pos Hi; cbn [run]; [rewrite Hi; lia|].
  destruct (step c a pos) as [[[[s c'] a'] pos'] done] eqn:E.
  destruct done; [by eapply step_done_bound|]; cbn [negb andb].
  assert (Hi' : incompleteMessage c' = []).
  { revert E; unfold step; repeat case_match; intros; simplify_eq/=.
    pose proof (Hcb a c (take (Z.to_nat (chunk_length_of pos)) pos)) as Hc.
    match goal with H : processCallback _ _ _ = _ |- _ => rewrite H in Hc end; simpl in Hc.
    congruence. }
  destruct (negb (bad s)); [by apply IH|rewrite Hi'; lia].
Qed.
End Process.

Arguments PState : clear implicits.
Arguments mkPState {App}.

(** ** Receiving

    [recv] and the monotonic clock belong to the network layer and the platform:
    they act on a world [W]. *)

Definition UA_DATETIME_MSEC : Z := 10000.

(** [timeout = (UA_UInt32)(((maxDate - now) + (UA_DATETIME_MSEC - 1)) / UA_DATETIME_MSEC)] *)
Definition remaining_timeout (maxDate now : Z) : Z :=
  u32 (Z.quot ((maxDate - now) + (UA_DATETIME_MSEC - 1)) UA_DATETIME_MSEC).

Section Receive.
Context {App W : Type}.
Variable processCallback : App -> UA_Connection -> list Z -> status * App * UA_Connection.
Variable alloc_ok : nat -> bool.
Variable recv : W -> Z -> status * list Z * W.
Variable nowMonotonic : W -> Z * W.

(** The redirection that notes that the callback was called. *)
Definition completeChunkTrampoline (data : bool * App) (conn : UA_Connection) (chunk : list Z) :
    status * (bool * App) * UA_Connection :=
  let '(ret, app, conn) := processCallback (snd data) conn chunk in (ret, (true, app), conn).

Abbreviation tstate := (PState (bool * App)).

Fixpoint receive_loop (fuel : nat) (st : tstate) (w : W) (maxDate timeout : Z) :
    status * tstate * W :=
  match fuel with
  | O => (OUTOFFUEL, st, w)
  | S fuel =>
      let '(retval, packet, w) := recv w timeout in
      if bad retval then (retval, st, w)
      else
        let '(retval, st) :=
          UA_Connection_processChunks completeChunkTrampoline alloc_ok st packet in
        if fst (ps_app st) then (retval, st, w)
        else
          let '(now, w) := nowMonotonic w in
          if maxDate <=? now then (GOODNONCRITICALTIMEOUT, st, w)
          else receive_loop fuel st w maxDate (remaining_timeout maxDate now)
  end.

Definition UA_Connection_receiveChunksBlocking (fuel : nat) (conn : UA_Connection) (app : App)
    (allocs : nat) (w : W) (timeout : Z) : status * tstate * W :=
  let '(now, w) := nowMonotonic w in
  let maxDate := now + timeout * UA_DATETIME_MSEC in
  receive_loop fuel (mkPState conn (false, app) allocs) w maxDate timeout.

Definition UA_Connection_receiveChunksNonBlocking (conn : UA_Connection) (app : App)
    (allocs : nat) (w : W) : status * tstate * W :=
  let st := mkPState conn (false, app) allocs in
  let '(retval, packet, w) := recv w 1 in
  if bad retval && negb (retval =? GOODNONCRITICALTIMEOUT) then (retval, st, w)
  else
    let '(retval, st) := UA_Connection_processChunks completeChunkTrampoline alloc_ok st packet in
    (retval, st, w).

(** The blocking receive ends: with every round the clock gets closer to the
    date. *)
Lemma receive_loop_ends (time : W -> Z) fuel st w maxDate timeout :
  (forall w t, fst (fst (recv w t)) <> OUTOFFUEL /\ time w <= time (snd (recv w t))) ->
  (forall w, time w < fst (nowMonotonic w) <= time (snd (nowMonotonic w))) ->
  (forall app conn chunk, fst (fst (processCallback app conn chunk)) <> OUTOFFUEL) ->
  maxDate - time w < Z.of_nat fuel -> (0 < fuel)%nat ->
  fst (fst (receive_loop fuel st w maxDate timeout)) <> OUTOFFUEL.
Proof.
  intros Hrecv Hnow Hcb; revert st w timeout; induction fuel as [|fuel IH];
    intros st w timeout Hf Hpos; [lia|]; cbn [receive_loop].
  destruct (Hrecv w timeout) as [Hr1 Hr2].
  destruct (recv w timeout) as [[s packet] w1]; cbn [fst snd] in *.
  destruct (bad s); [done|].
  pose proof (processChunks_total completeChunkTrampoline alloc_ok st packet) as Ht.
  destruct (UA_Connection_processChunks _ _ st packet) as [s1 st1]; cbn [fst] in Ht.
  destruct (fst (ps_app st1)).
  { apply Ht; intros [b app] conn chunk; specialize (Hcb app conn chunk).
    unfold completeChunkTrampoline; cbn [snd].
    by destruct (processCallback app conn chunk) as [[? ?] ?]. }
  specialize (Hnow w1); destruct (nowMonotonic w1) as [now w2]; cbn [fst snd] in *.
  destruct (Z.leb_spec maxDate now); [done|]; apply IH; lia.
Qed.
End Receive.

(** ** Error messages *)

Section SendError.
Context {TE : TypeEnv} {N : Type}.
(** The network layer: a buffer of the requested length, and sending. *)
Variable getSendBuffer : N -> Z -> status * list Z * N.
Variable send : N -> list Z -> status * N.

Definition hideErrors (error : Z) (reason : UA_String) : Z * UA_String :=
  if error =? BADCERTIFICATEUNTRUSTED then (BADSECURITYCHECKSFAILED, ArrNull)
  else (error, reason).

(** [msg.data] after writing [o] at its start. *)
Definition overwrite (data o : list Z) : list Z := o ++ drop (length o) data.

Definition UA_Connection_sendError (net : N) (error : Z) (reason : UA_String) : N :=
  let '(error, reason) := hideErrors error reason in
  let messageSize := u32 (8 + (4 + 4 + u32 (arr_length reason))) in
  let '(retval, msg, net) := getSendBuffer net messageSize in
  if bad retval then net
  else
    let '(_, b) := UA_encodeBinary_buf
      (tcpMessageHeader (u32 (UA_MESSAGETYPE_ERR + UA_CHUNKTYPE_FINAL)) messageSize)
      TcpMessageHeader ([], zlen msg) in
    let '(_, (o, _)) := UA_encodeBinary_buf (tcpErrorMessage error reason) TcpErrorMessage b in
    snd (send net (take (Z.to_nat messageSize) (overwrite msg o))).

Definition error_bytes (error : Z) (reason : UA_String) : list Z :=
  le_bytes 4 (UA_MESSAGETYPE_ERR + UA_CHUNKTYPE_FINAL) ++ le_bytes 4 (16 + arr_length reason)
  ++ le_bytes 4 error ++ bytes_string reason.
End SendError.

(** ** Attaching SecureChannels

    The pointers between connections and channels, by address. *)

Record Links := mkLinks {
  channel_of : gmap nat nat;       (* connection->channel *)
  connection_of : gmap nat nat     (* channel->connection *)
}.

Definition UA_Connection_detachSecureChannel (l : Links) (connection : nat) : Links :=
  let conns :=
    match channel_of l !! connection with
    | Some channel =>
        if decide (connection_of l !! channel = Some connection)
        then delete channel (connection_of l) else connection_of l
    | None => connection_of l
    end in
  mkLinks (delete connection (channel_of l)) conns.

Definition UA_Connection_attachSecureChannel (l : Links) (connection channel : nat) : Links :=
  match connection_of l !! channel with
  | None => mkLinks (<[connection := channel]> (channel_of l))
                    (<[channel := connection]> (connection_of l))
  | Some _ => l
  end.

(** A connection's channel points back to it. *)
Definition links_ok (l : Links) : Prop :=
  forall c ch, channel_of l !! c = Some ch -> connection_of l !! ch = Some c.

Inductive LinkOp := Attach (connection channel : nat) | Detach (connection : nat).

Definition link_step (l : Links) (op : LinkOp) : Links :=
  match op with
  | Attach c ch => UA_Connection_attachSecureChannel l c ch
  | Detach c => UA_Connection_detachSecureChannel l c
  end.

Lemma link_step_ok l op : links_ok l -> links_ok (link_step l op).
Proof.
  intros Hl; destruct op as [c ch|c]; simpl.
  - unfold UA_Connection_attachSecureChannel; destruct (connection_of l !! ch) as [c0|] eqn:E; [done|].
    intros c1 ch1; simpl; rewrite !lookup_insert_Some; intros [[<- <-]|[Hne H1]]; [by left|].
    right; split; [|by apply Hl]; intros <-; apply Hl in H1; congruence.
  - unfold UA_Connection_detachSecureChannel; intros c1 ch1; simpl.
    rewrite lookup_delete_Some; intros [Hne H1]; pose proof (Hl _ _ H1) as H2.
    destruct (channel_of l !! c) as [ch|] eqn:E; [|done].
    case_decide; [|done]; rewrite lookup_delete_Some; split; [congruence|done].
Qed.
