(* ===== verification/ConnectionCorrect.v ===== *)
(** * Connections: main theorems *)

From Stdlib Require Import ZArith Lia.
From stdpp Require Import base list numbers tactics sets gmap.
From S2P Require Import Prelude UaTypes UaValue BinarySpec Codec FieldCodec Connection.

(** ** Example: a logging application *)

Module ConnExample.
Definition conf : UA_ConnectionConfig := mkConnectionConfig 0 65535 100 0 0.
Definition conn : UA_Connection := mkConnection UA_CONNECTION_ESTABLISHED conf conf None [].

(** The application keeps the chunks it was given. *)
Definition log (app : list (list Z)) (c : UA_Connection) (chunk : list Z) :
  status * list (list Z) * UA_Connection := (GOOD, app ++ [chunk], c).

(** MSGF of 16 bytes and CLOF of 20 bytes. *)
Definition chunk1 : list Z := [77; 83; 71; 70; 16; 0; 0; 0; 1; 2; 3; 4; 5; 6; 7; 8].
Definition chunk2 : list Z := [67; 76; 79; 70; 20; 0; 0; 0] ++ replicate 12 9.

Definition start : PState (list (list Z)) := mkPState conn [] 0.

Lemma chunks_valid : Forall (valid_chunk 100) [chunk1; chunk2].
Proof. repeat constructor; vm_compute; congruence. Qed.
End ConnExample.

(** C37: How the byte stream is cut into packets does not matter: two sequences
    of packets with the same bytes lead to the same status, the same calls of
    the callback (through the application's state) and the same buffered
    rest. *)
Theorem segmentation_irrelevant {App} (cb : App -> UA_Connection -> list Z -> status * App * UA_Connection)
    alloc_ok st p1 ps1 p2 ps2 :
  (forall n, alloc_ok n = true) ->
  (forall app conn chunk, incompleteMessage (snd (cb app conn chunk)) = incompleteMessage conn) ->
  concat (p1 :: ps1) = concat (p2 :: ps2) ->
  view (receive_all cb alloc_ok st (p1 :: ps1)) = view (receive_all cb alloc_ok st (p2 :: ps2)).
Proof. intros Ha Hcb E; by rewrite !(receive_all_feed cb alloc_ok Ha Hcb), E. Qed.

Lemma segmentation_irrelevant_witness :
  view (receive_all ConnExample.log (fun _ => true) ConnExample.start
          [take 3 ConnExample.chunk1; drop 3 ConnExample.chunk1 ++ take 19 ConnExample.chunk2]) =
  (GOOD, set_incomplete ConnExample.conn (take 19 ConnExample.chunk2), [ConnExample.chunk1]).
Proof.
  etransitivity; [apply (segmentation_irrelevant ConnExample.log (fun _ => true) ConnExample.start
    _ _ (ConnExample.chunk1 ++ take 19 ConnExample.chunk2) [])|]; done.
Defined.

(** A stream of chunks is delivered chunk by chunk and in order, whatever
    the packets: the callback sees exactly the chunks, up to the first one it
    rejects. *)
Theorem chunks_delivered {App} (cb : App -> UA_Connection -> list Z -> status * App * UA_Connection)
    alloc_ok st p ps chunks :
  (forall n, alloc_ok n = true) ->
  (forall app conn chunk, incompleteMessage (snd (cb app conn chunk)) = incompleteMessage conn) ->
  (forall app conn chunk, recvBufferSize (localConf (snd (cb app conn chunk))) =
                          recvBufferSize (localConf conn)) ->
  incompleteMessage (ps_conn st) = [] ->
  Forall (valid_chunk (recvBufferSize (localConf (ps_conn st)))) chunks ->
  concat (p :: ps) = concat chunks ->
  view (receive_all cb alloc_ok st (p :: ps)) = deliver cb (ps_conn st) (ps_app st) chunks.
Proof.
  intros Ha Hcb Hconf Hi Hv E.
  by rewrite (receive_all_feed cb alloc_ok Ha Hcb), E, (feed_chunks cb Hcb Hconf).
Qed.

Lemma chunks_delivered_witness :
  view (receive_all ConnExample.log (fun _ => true) ConnExample.start
          (map (fun b => [b]) (ConnExample.chunk1 ++ ConnExample.chunk2))) =
  (GOOD, ConnExample.conn, [ConnExample.chunk1; ConnExample.chunk2]).
Proof.
  etransitivity; [apply (chunks_delivered ConnExample.log (fun _ => true) ConnExample.start
    _ _ [ConnExample.chunk1; ConnExample.chunk2]); try done; apply ConnExample.chunks_valid|done].
Defined.

(** A peer cannot make a connection buffer much: after every packet the
    bytes that are kept are fewer than the receive buffer size (or than a
    header). *)
Theorem buffered_bounded {App} (cb : App -> UA_Connection -> list Z -> status * App * UA_Connection)
    alloc_ok st packet :
  (forall n, alloc_ok n = true) ->
  (forall app conn chunk, incompleteMessage (snd (cb app conn chunk)) = incompleteMessage conn) ->
  let '(s, st') := UA_Connection_processChunks cb alloc_ok st packet in
  zlen (incompleteMessage (ps_conn st')) < Z.max 8 (recvBufferSize (localConf (ps_conn st'))).
Proof.
  intros Ha Hcb; pose proof (processChunks_feed cb alloc_ok Ha st packet) as Hf.
  destruct (UA_Connection_processChunks cb alloc_ok st packet) as [s st'].
  unfold view, feed in Hf; cbn [fst snd] in Hf.
  pose proof (run_bound cb Hcb (S (length (incompleteMessage (ps_conn st) ++ packet)))
    (set_incomplete (ps_conn st) []) (ps_app st) (incompleteMessage (ps_conn st) ++ packet)
    eq_refl) as Hb.
  by rewrite <- Hf in Hb.
Qed.

Lemma buffered_bounded_witness :
  let '(s, st') := UA_Connection_processChunks ConnExample.log (fun _ => true) ConnExample.start
                     (take 15 ConnExample.chunk1) in
  zlen (incompleteMessage (ps_conn st')) = 15 /\ 15 < 100.
Proof.
  pose proof (buffered_bounded ConnExample.log (fun _ => true) ConnExample.start
    (take 15 ConnExample.chunk1) (fun _ => eq_refl) (fun _ _ _ => eq_refl)) as W.
  destruct (UA_Connection_processChunks _ _ _ _) as [s st'] eqn:E; vm_compute in E.
  injection E as <- <-; vm_compute in W; vm_compute; split; congruence.
Defined.

(** Receiving with a timeout ends: if the network layer returns and every
    reading of the clock is later than the one before, the loop makes at most as many rounds as the timeout has
    clock ticks (plus one). *)
Theorem receiveChunksBlocking_ends {App W}
    (cb : App -> UA_Connection -> list Z -> status * App * UA_Connection) alloc_ok
    (recv : W -> Z -> status * list Z * W) (nowMonotonic : W -> Z * W) (time : W -> Z)
    conn app allocs w timeout :
  (forall w t, fst (fst (recv w t)) <> OUTOFFUEL /\ time w <= time (snd (recv w t))) ->
  (forall w, time w < fst (nowMonotonic w) <= time (snd (nowMonotonic w))) ->
  (forall app conn chunk, fst (fst (cb app conn chunk)) <> OUTOFFUEL) ->
  0 <= timeout ->
  fst (fst (UA_Connection_receiveChunksBlocking cb alloc_ok recv nowMonotonic
              (S (Z.to_nat (timeout * UA_DATETIME_MSEC))) conn app allocs w timeout)) <> OUTOFFUEL.
Proof.
  intros Hr Hn Hcb Ht; unfold UA_Connection_receiveChunksBlocking.
  pose proof (Hn w) as Hw; destruct (nowMonotonic w) as [now w1]; cbn [fst snd] in Hw.
  apply (receive_loop_ends _ _ _ _ time); try done; [|lia].
  unfold UA_DATETIME_MSEC in *; lia.
Qed.

(** A world of packets that arrive one per round, with a clock that counts
    calls. *)
Module RecvExample.
Definition recv (w : Z * list (list Z)) (t : Z) : status * list Z * (Z * list (list Z)) :=
  match snd w with
  | [] => (BADCONNECTIONCLOSED, [], w)
  | p :: ps => (GOOD, p, (fst w, ps))
  end.
Definition now (w : Z * list (list Z)) : Z * (Z * list (list Z)) := (fst w + 1, (fst w + 1, snd w)).
End RecvExample.

Lemma receiveChunksBlocking_ends_witness :
  fst (fst (UA_Connection_receiveChunksBlocking ConnExample.log (fun _ => true) RecvExample.recv
    RecvExample.now (S (Z.to_nat (1 * UA_DATETIME_MSEC))) ConnExample.conn [] 0
    (7, [take 3 ConnExample.chunk1; drop 3 ConnExample.chunk1]) 1)) <> OUTOFFUEL.
Proof.
  apply (receiveChunksBlocking_ends _ _ _ _ fst).
  - intros [t ps] ?; unfold RecvExample.recv; destruct ps; simpl; split; (lia || done).
  - intros [t ps]; simpl; lia.
  - done.
  - lia.
Defined.

(** The remaining timeout of the next round is rounded up: it is at least
    one millisecond, it covers the time that is left and exceeds it by less
    than a millisecond. *)
Theorem remaining_timeout_rounds_up maxDate now :
  now < maxDate -> maxDate - now <= (2 ^ 32 - 1) * UA_DATETIME_MSEC ->
  let t := remaining_timeout maxDate now in
  1 <= t < 2 ^ 32 /\ (t - 1) * UA_DATETIME_MSEC < maxDate - now <= t * UA_DATETIME_MSEC.
Proof.
  unfold remaining_timeout, UA_DATETIME_MSEC; intros H1 H2.
  rewrite Z.quot_div_nonneg by lia.
  set (q := (maxDate - now + (10000 - 1)) / 10000).
  assert (Hq : 10000 * q <= maxDate - now + 9999 < 10000 * q + 10000).
  { pose proof (Z.div_mod (maxDate - now + (10000 - 1)) 10000 ltac:(lia)) as E.
    pose proof (Z.mod_pos_bound (maxDate - now + (10000 - 1)) 10000 ltac:(lia)); fold q in E; lia. }
  cbv zeta; rewrite u32_small by lia; lia.
Qed.

Lemma remaining_timeout_rounds_up_witness : remaining_timeout 25001 5000 = 3.
Proof.
  pose proof (remaining_timeout_rounds_up 25001 5000 ltac:(lia) ltac:(vm_compute; congruence)) as W.
  cbv zeta in W; unfold UA_DATETIME_MSEC in W; lia.
Defined.

(** The blocking receive loses errors: a packet with an invalid message type
    makes [UA_Connection_processChunks] fail, but as no chunk was handed to the
    callback the loop goes on and the status of a later packet is returned. *)
Theorem receiveChunksBlocking_loses_error :
  fst (UA_Connection_processChunks ConnExample.log (fun _ => true) ConnExample.start
         (replicate 16 0)) = BADTCPMESSAGETYPEINVALID /\
  let '(s, st, _) := UA_Connection_receiveChunksBlocking ConnExample.log (fun _ => true)
    RecvExample.recv RecvExample.now 10 ConnExample.conn [] 0
    (7, [replicate 16 0; ConnExample.chunk1]) 1 in
  s = GOOD /\ snd (ps_app st) = [ConnExample.chunk1].
Proof. vm_compute; repeat split. Qed.

(** When there is no memory to keep an incomplete chunk its bytes are lost
    without an error: the status is GOOD, nothing is buffered, and the rest of
    the chunk is then taken as the start of a new one. *)
Theorem incomplete_chunk_lost :
  let '(s, st) := UA_Connection_processChunks ConnExample.log (fun _ => false) ConnExample.start
                    (take 10 ConnExample.chunk1) in
  s = GOOD /\ incompleteMessage (ps_conn st) = [] /\
  fst (UA_Connection_processChunks ConnExample.log (fun _ => false) st
         (drop 10 ConnExample.chunk1 ++ ConnExample.chunk2)) = BADTCPMESSAGETYPEINVALID.
Proof. vm_compute; repeat split. Qed.

(** ** Error messages *)

Lemma error_bytes_len error reason : zlen (error_bytes error reason) = 16 + arr_length reason.
Proof.
  unfold error_bytes; rewrite !zlen_app, !zlen_le_bytes, zlen_bytes_string; simpl; lia.
Qed.

Lemma error_bytes_valid error reason : 0 <= arr_length reason < 2 ^ 32 - 16 ->
  valid_chunk (16 + arr_length reason) (error_bytes error reason).
Proof.
  intros Hl; unfold valid_chunk; rewrite error_bytes_len.
  split; [lia|]; split; [done|]; split; [done|].
  unfold chunk_length_of, error_bytes.
  rewrite (drop_app_length' (le_bytes 4 _)), (take_app_length' (le_bytes 4 _)) by done.
  by rewrite le_value_le_bytes_id by (simpl; lia).
Qed.

(** An error is sent as one complete ERR chunk of the length in its size
    field, which the peer's framing accepts; the error that reveals that a
    certificate is not trusted is replaced by BADSECURITYCHECKSFAILED without
    reason. *)
Theorem sendError_message {TE : TypeEnv} {N} (getSendBuffer : N -> Z -> status * list Z * N)
    (send : N -> list Z -> status * N) net error reason error' reason' msg net' :
  0 <= error < 2 ^ 32 -> wf_string reason -> hideErrors error reason = (error', reason') ->
  getSendBuffer net (16 + arr_length reason') = (GOOD, msg, net') ->
  zlen msg = 16 + arr_length reason' ->
  UA_Connection_sendError getSendBuffer send net error reason =
    snd (send net' (error_bytes error' reason')) /\
  valid_chunk (16 + arr_length reason') (error_bytes error' reason') /\
  error' <> BADCERTIFICATEUNTRUSTED.
Proof.
  intros He Hr Hh Hg Hm.
  assert (Hw : 0 <= error' < 2 ^ 32 /\ wf_string reason' /\ error' <> BADCERTIFICATEUNTRUSTED).
  { revert Hh; unfold hideErrors; destruct (Z.eqb_spec error BADCERTIFICATEUNTRUSTED);
      intros [= <- <-]; [|done]; repeat split; vm_compute; (congruence || constructor). }
  destruct Hw as (He' & Hr' & Hne); pose proof Hr' as (_ & _ & Hlen).
  assert (Hpos : 0 <= arr_length reason') by apply zlen_nonneg.
  unfold UA_INT32_MAX in Hlen.
  split; [|split; [apply error_bytes_valid; lia|done]].
  unfold UA_Connection_sendError; rewrite Hh, (u32_small (arr_length reason')),
    (u32_small (8 + (4 + 4 + arr_length reason'))) by lia.
  replace (8 + (4 + 4 + arr_length reason')) with (16 + arr_length reason') by lia.
  rewrite Hg, bad_good, Hm.
  rewrite encode_buf; [|apply tcpMessageHeader_wf; [vm_compute; split; congruence|lia]
                       |rewrite tcpMessageHeader_bytes, zlen_app, !zlen_le_bytes; lia].
  rewrite encode_buf; [|by apply tcpErrorMessage_wf
                       |rewrite tcpMessageHeader_bytes, tcpErrorMessage_bytes, !zlen_app,
                          !zlen_le_bytes, zlen_bytes_string; simpl; lia].
  rewrite tcpMessageHeader_bytes, tcpErrorMessage_bytes; cbn [app].
  rewrite <- app_assoc; change (u32 (UA_MESSAGETYPE_ERR + UA_CHUNKTYPE_FINAL))
    with (UA_MESSAGETYPE_ERR + UA_CHUNKTYPE_FINAL).
  change (le_bytes 4 (UA_MESSAGETYPE_ERR + UA_CHUNKTYPE_FINAL) ++ _) with (error_bytes error' reason').
  pose proof (error_bytes_len error' reason') as Hbl; unfold zlen in Hbl, Hm.
  unfold overwrite; rewrite drop_ge, app_nil_r, take_ge by lia; done.
Qed.

Lemma sendError_message_witness :
  UA_Connection_sendError (TE := Example.env) (fun (n : list (list Z)) l => (GOOD, replicate (Z.to_nat l) 0, n))
    (fun n m => (GOOD, n ++ [m])) [] BADCERTIFICATEUNTRUSTED (ArrData [1; 2; 3]) =
  [[69; 82; 82; 70; 16; 0; 0; 0; 0; 0; 19; 128; 255; 255; 255; 255]].
Proof.
  refine (eq_trans (proj1 (sendError_message _ _ [] BADCERTIFICATEUNTRUSTED (ArrData [1; 2; 3])
    BADSECURITYCHECKSFAILED ArrNull (replicate 16 0) [] _ _ _ _ _)) _);
    try reflexivity; [vm_compute; split; congruence|ground].
Defined.

(** ** Links *)

(** Whatever the sequence of attach and detach operations, the channel of a
    connection points back to that connection. *)
Theorem links_consistent ops : links_ok (foldl link_step (mkLinks ∅ ∅) ops).
Proof.
  assert (H : forall l, links_ok l -> links_ok (foldl link_step l ops)).
  { induction ops as [|op ops IH]; intros l Hl; simpl; [done|]; by apply IH, link_step_ok. }
  apply H; intros c ch; simpl; by rewrite lookup_empty.
Qed.
