(* ===== verification/SecureChannel.v ===== *)
(** * SecureChannels ([src/ua_securechannel.c])

    Sending a message in chunks that are padded, signed and encrypted, and
    processing received chunks.  The cryptography is a plugin: a
    [UA_SecurityPolicy] is a record of its operations on a channel context [C].
    The network layer is a state [N] with the operations of a connection.

    A buffer that is being written is given by the bytes behind the reserved
    header; writing behind its end, reading outside of a received chunk and
    lengths below zero are [UNDEFINED]. *)

From Stdlib Require Import ZArith Lia.
From stdpp Require Import base list numbers tactics sets.
From S2P Require Import Prelude UaTypes UaValue BinarySize BinaryEncode BinaryDecode BinarySpec FieldCodec Connection.

(** ** Security policies ([include/ua_plugin_securitypolicy.h]) *)

Record UA_SecurityPolicyCryptoModule (C : Type) := mkCryptoModule {
  verify : C -> list Z -> list Z -> status;
  sign : C -> list Z -> status * list Z;
  getLocalSignatureSize : C -> Z;
  getRemoteSignatureSize : C -> Z;
  sig_getLocalKeyLength : C -> Z;
  sig_getRemoteKeyLength : C -> Z;
  encrypt : C -> list Z -> status * list Z;
  decrypt : C -> list Z -> status * list Z;
  getLocalKeyLength : C -> Z;
  getRemoteKeyLength : C -> Z;
  getLocalBlockSize : C -> Z;
  getRemoteBlockSize : C -> Z;
  getRemotePlainTextBlockSize : C -> Z
}.

Record UA_SecurityPolicy (C : Type) := mkSecurityPolicy {
  policyUri : UA_ByteString;
  localCertificate : UA_ByteString;
  verifyCertificate : option (UA_ByteString -> status);   (* certificateVerification *)
  makeCertificateThumbprint : UA_ByteString -> status * list Z;
  compareCertificateThumbprint : UA_ByteString -> status;
  asymCrypto : UA_SecurityPolicyCryptoModule C;
  generateKey : list Z -> list Z -> Z -> status * list Z;  (* secret, seed, length *)
  generateNonce : Z -> status * list Z;
  secureChannelNonceLength : Z;
  symCrypto : UA_SecurityPolicyCryptoModule C;
  newContext : UA_ByteString -> status * C;
  setLocalSymSigningKey : C -> list Z -> status * C;
  setLocalSymEncryptingKey : C -> list Z -> status * C;
  setLocalSymIv : C -> list Z -> status * C;
  setRemoteSymSigningKey : C -> list Z -> status * C;
  setRemoteSymEncryptingKey : C -> list Z -> status * C;
  setRemoteSymIv : C -> list Z -> status * C
}.

Arguments verify {C}. Arguments sign {C}. Arguments getLocalSignatureSize {C}.
Arguments getRemoteSignatureSize {C}. Arguments sig_getLocalKeyLength {C}.
Arguments sig_getRemoteKeyLength {C}. Arguments encrypt {C}. Arguments decrypt {C}.
Arguments getLocalKeyLength {C}. Arguments getRemoteKeyLength {C}.
Arguments getLocalBlockSize {C}. Arguments getRemoteBlockSize {C}.
Arguments getRemotePlainTextBlockSize {C}.
Arguments policyUri {C}. Arguments localCertificate {C}. Arguments verifyCertificate {C}.
Arguments makeCertificateThumbprint {C}. Arguments compareCertificateThumbprint {C}.
Arguments asymCrypto {C}. Arguments generateKey {C}. Arguments generateNonce {C}.
Arguments secureChannelNonceLength {C}. Arguments symCrypto {C}. Arguments newContext {C}.
Arguments setLocalSymSigningKey {C}. Arguments setLocalSymEncryptingKey {C}.
Arguments setLocalSymIv {C}. Arguments setRemoteSymSigningKey {C}.
Arguments setRemoteSymEncryptingKey {C}. Arguments setRemoteSymIv {C}.

(** ** Channels ([src/ua_securechannel.h]) *)

Definition UA_SECURE_CONVERSATION_MESSAGE_HEADER_LENGTH : Z := 12.
Definition UA_SECURE_MESSAGE_HEADER_LENGTH : Z := 24.
Definition UA_ASYMMETRIC_ALG_SECURITY_HEADER_FIXED_LENGTH : Z := 12.
Definition UA_SEQUENCE_HEADER_LENGTH : Z := 8.
Definition UA_SECUREMH_AND_SYMALGH_LENGTH : Z := 16.
Definition UA_BITMASK_MESSAGETYPE : Z := 0x00ffffff.
Definition UA_BITMASK_CHUNKTYPE : Z := 0xff000000.

Definition UA_MESSAGESECURITYMODE_INVALID : Z := 0.
Definition UA_MESSAGESECURITYMODE_NONE : Z := 1.
Definition UA_MESSAGESECURITYMODE_SIGN : Z := 2.
Definition UA_MESSAGESECURITYMODE_SIGNANDENCRYPT : Z := 3.

Inductive UA_SecureChannelState :=
| UA_SECURECHANNELSTATE_FRESH
| UA_SECURECHANNELSTATE_OPEN
| UA_SECURECHANNELSTATE_CLOSED.

#[export] Instance UA_SecureChannelState_eq_dec : EqDecision UA_SecureChannelState.
Proof. solve_decision. Defined.

Record UA_ChannelSecurityToken := mkToken {
  channelId : Z;
  tokenId : Z;
  createdAt : Z;
  revisedLifetime : Z
}.

Definition token_zero : UA_ChannelSecurityToken := mkToken 0 0 0 0.

Record ChunkEntry := mkChunkEntry { ce_requestId : Z; ce_bytes : list Z }.

Record UA_SecureChannel (C : Type) := mkChannel {
  ch_state : UA_SecureChannelState;
  securityMode : Z;
  securityToken : UA_ChannelSecurityToken;
  nextSecurityToken : UA_ChannelSecurityToken;
  channelContext : C;
  connection : option UA_Connection;
  remoteCertificate : UA_ByteString;
  remoteCertificateThumbprint : list Z;
  remoteNonce : list Z;
  localNonce : list Z;
  receiveSequenceNumber : Z;
  sendSequenceNumber : Z;
  sessions : list UA_NodeId;           (* authentication tokens *)
  chunks : list ChunkEntry
}.

Arguments mkChannel {C}.
Arguments ch_state {C}. Arguments securityMode {C}. Arguments securityToken {C}.
Arguments nextSecurityToken {C}. Arguments channelContext {C}. Arguments connection {C}.
Arguments remoteCertificate {C}. Arguments remoteCertificateThumbprint {C}.
Arguments remoteNonce {C}. Arguments localNonce {C}. Arguments receiveSequenceNumber {C}.
Arguments sendSequenceNumber {C}. Arguments sessions {C}. Arguments chunks {C}.

Section Setters.
Context {C : Type}.
Implicit Types ch : UA_SecureChannel C.

Definition set_tokens ch cur next :=
  mkChannel (ch_state ch) (securityMode ch) cur next (channelContext ch) (connection ch)
    (remoteCertificate ch) (remoteCertificateThumbprint ch) (remoteNonce ch) (localNonce ch)
    (receiveSequenceNumber ch) (sendSequenceNumber ch) (sessions ch) (chunks ch).
Definition set_context ch (ctx : C) :=
  mkChannel (ch_state ch) (securityMode ch) (securityToken ch) (nextSecurityToken ch) ctx
    (connection ch) (remoteCertificate ch) (remoteCertificateThumbprint ch) (remoteNonce ch)
    (localNonce ch) (receiveSequenceNumber ch) (sendSequenceNumber ch) (sessions ch) (chunks ch).
Definition set_localNonce ch n :=
  mkChannel (ch_state ch) (securityMode ch) (securityToken ch) (nextSecurityToken ch)
    (channelContext ch) (connection ch) (remoteCertificate ch) (remoteCertificateThumbprint ch)
    (remoteNonce ch) n (receiveSequenceNumber ch) (sendSequenceNumber ch) (sessions ch) (chunks ch).
Definition set_receiveSeq ch n :=
  mkChannel (ch_state ch) (securityMode ch) (securityToken ch) (nextSecurityToken ch)
    (channelContext ch) (connection ch) (remoteCertificate ch) (remoteCertificateThumbprint ch)
    (remoteNonce ch) (localNonce ch) n (sendSequenceNumber ch) (sessions ch) (chunks ch).
Definition set_sendSeq ch n :=
  mkChannel (ch_state ch) (securityMode ch) (securityToken ch) (nextSecurityToken ch)
    (channelContext ch) (connection ch) (remoteCertificate ch) (remoteCertificateThumbprint ch)
    (remoteNonce ch) (localNonce ch) (receiveSequenceNumber ch) n (sessions ch) (chunks ch).
Definition set_chunks ch l :=
  mkChannel (ch_state ch) (securityMode ch) (securityToken ch) (nextSecurityToken ch)
    (channelContext ch) (connection ch) (remoteCertificate ch) (remoteCertificateThumbprint ch)
    (remoteNonce ch) (localNonce ch) (receiveSequenceNumber ch) (sendSequenceNumber ch)
    (sessions ch) l.
End Setters.

Definition is_signed (mode : Z) : bool :=
  (mode =? UA_MESSAGESECURITYMODE_SIGN) || (mode =? UA_MESSAGESECURITYMODE_SIGNANDENCRYPT).
Definition is_encrypted (mode : Z) : bool := mode =? UA_MESSAGESECURITYMODE_SIGNANDENCRYPT.

(** Allocations of nonces and of the copy of the certificate succeed. *)
Section Channel.
Context {TE : TypeEnv} {C N : Type}.
Variable policy : UA_SecurityPolicy C.

(** The network layer: a send buffer of the requested length, sending (which
    takes over the buffer) and releasing. *)
Variable getSendBuffer : N -> Z -> status * N.
Variable send : N -> list Z -> status * N.
Variable releaseSendBuffer : N -> N.

Abbreviation channel := (UA_SecureChannel C).

(** ** Creation, nonces and keys *)

Definition UA_SecureChannel_init (ctx0 : C) (cert : UA_ByteString) : status * channel :=
  let ch0 := mkChannel UA_SECURECHANNELSTATE_FRESH UA_MESSAGESECURITYMODE_INVALID token_zero
               token_zero ctx0 None ArrNull (replicate 20 0) [] [] 0 0 [] [] in
  let retval := match verifyCertificate policy with Some f => f cert | None => GOOD end in
  if bad retval then (retval, ch0)
  else
    let '(retval, ctx) := newContext policy cert in
    if bad retval then (retval, ch0)
    else
      let '(retval, thumb) := makeCertificateThumbprint policy cert in
      (retval, mkChannel UA_SECURECHANNELSTATE_FRESH UA_MESSAGESECURITYMODE_INVALID token_zero
                 token_zero ctx None cert thumb [] [] 0 0 [] []).

Definition UA_SecureChannel_generateLocalNonce (ch : channel) : status * channel :=
  let '(retval, nonce) := generateNonce policy (secureChannelNonceLength policy) in
  (retval, set_localNonce ch nonce).

(** Three consecutive slices of the key material. *)
Definition slice (l : list Z) (from len : Z) : list Z :=
  take (Z.to_nat len) (drop (Z.to_nat from) l).

Definition UA_SecureChannel_generateLocalKeys (ch : channel) : status * C :=
  let ctx := channelContext ch in
  let cm := symCrypto policy in
  let encLen := getLocalKeyLength cm ctx in
  let blockLen := getLocalBlockSize cm ctx in
  let sigLen := sig_getLocalKeyLength cm ctx in
  let '(retval, buffer) :=
    generateKey policy (remoteNonce ch) (localNonce ch) (blockLen + sigLen + encLen) in
  if bad retval then (retval, ctx)
  else
    let '(r1, ctx) := setLocalSymSigningKey policy ctx (slice buffer 0 sigLen) in
    let '(r2, ctx) := setLocalSymEncryptingKey policy ctx (slice buffer sigLen encLen) in
    let '(r3, ctx) := setLocalSymIv policy ctx (slice buffer (sigLen + encLen) blockLen) in
    (Z.lor (Z.lor r1 r2) r3, ctx).

Definition UA_SecureChannel_generateRemoteKeys (ch : channel) : status * C :=
  let ctx := channelContext ch in
  let cm := symCrypto policy in
  let encLen := getRemoteKeyLength cm ctx in
  let blockLen := getRemoteBlockSize cm ctx in
  let sigLen := sig_getRemoteKeyLength cm ctx in
  let '(retval, buffer) :=
    generateKey policy (localNonce ch) (remoteNonce ch) (blockLen + sigLen + encLen) in
  if bad retval then (retval, ctx)
  else
    let '(r1, ctx) := setRemoteSymSigningKey policy ctx (slice buffer 0 sigLen) in
    let '(r2, ctx) := setRemoteSymEncryptingKey policy ctx (slice buffer sigLen encLen) in
    let '(r3, ctx) := setRemoteSymIv policy ctx (slice buffer (sigLen + encLen) blockLen) in
    (Z.lor (Z.lor r1 r2) r3, ctx).

Definition UA_SecureChannel_generateNewKeys (ch : channel) : status * channel :=
  let '(retval, ctx) := UA_SecureChannel_generateLocalKeys ch in
  let ch := set_context ch ctx in
  if bad retval then (retval, ch)
  else
    let '(retval, ctx) := UA_SecureChannel_generateRemoteKeys ch in
    (retval, set_context ch ctx).

Definition UA_SecureChannel_getSession (ch : channel) (authenticationToken : UA_NodeId) :
    option UA_NodeId :=
  List.find (fun t => UA_NodeId_equal (Some t) (Some authenticationToken)) (sessions ch).

Definition UA_SecureChannel_revolveTokens (ch : channel) : status * channel :=
  if tokenId (nextSecurityToken ch) =? 0 then (BADSECURECHANNELTOKENUNKNOWN, ch)
  else UA_SecureChannel_generateNewKeys (set_tokens ch (nextSecurityToken ch) token_zero).

(** ** Sending an asymmetric message *)

(** Padding length, padding byte and extra padding byte. *)
Definition calculatePaddingAsym (ctx : C) (bytesToWrite : Z) : Z * Z * Z :=
  let cm := asymCrypto policy in
  let plainTextBlockSize := getRemotePlainTextBlockSize cm ctx in
  let signatureSize := getLocalSignatureSize cm ctx in
  let paddingBytes := if 2048 <? getRemoteKeyLength cm ctx then 2 else 1 in
  let padding := plainTextBlockSize -
                 (bytesToWrite + signatureSize + paddingBytes) mod plainTextBlockSize in
  (u16 padding, Z.land padding 255, u8 (Z.shiftr padding 8)).

Definition calculateAsymAlgSecurityHeaderLength (ch : channel) : Z :=
  UA_ASYMMETRIC_ALG_SECURITY_HEADER_FIXED_LENGTH + arr_length (policyUri policy) +
  (if is_signed (securityMode ch) then 20 + arr_length (localCertificate policy) else 0).

Definition UA_SecurityPolicy_getRemoteAsymEncryptionBufferLengthOverhead (ctx : C)
    (maxEncryptionLength : Z) : Z :=
  let cm := asymCrypto policy in
  let plainTextBlockSize := getRemotePlainTextBlockSize cm ctx in
  let encryptedBlockSize := getRemoteBlockSize cm ctx in
  if maxEncryptionLength =? 0 then 0
  else if plainTextBlockSize =? 0 then 0
  else maxEncryptionLength / plainTextBlockSize * (encryptedBlockSize - plainTextBlockSize).

(** Offsets of the start and of the end of the space for the payload. *)
Definition hideBytesAsym (ch : channel) (buf_start buf_end : Z) : Z * Z :=
  let cm := asymCrypto policy in
  let ctx := channelContext ch in
  let buf_start := buf_start + UA_SECURE_CONVERSATION_MESSAGE_HEADER_LENGTH
                   + UA_SEQUENCE_HEADER_LENGTH + calculateAsymAlgSecurityHeaderLength ch in
  let potentialEncryptionMaxSize := buf_end - buf_start + UA_SEQUENCE_HEADER_LENGTH in
  (buf_start,
   if is_signed (securityMode ch) then
     buf_end - getLocalSignatureSize cm ctx - 2
     - UA_SecurityPolicy_getRemoteAsymEncryptionBufferLengthOverhead ctx potentialEncryptionMaxSize
   else buf_end).

(** The padding of a message: [padding + 1] times the padding byte, then the
    extra padding byte for long keys. *)
Definition asym_padding (ctx : C) (bytesToWrite : Z) : list Z :=
  let '(total, paddingSize, extraPaddingSize) := calculatePaddingAsym ctx bytesToWrite in
  replicate (Z.to_nat (total + 1)) paddingSize
  ++ (if 2048 <? getRemoteKeyLength (asymCrypto policy) ctx then [extraPaddingSize] else []).

Definition UA_SecureChannel_sendAsymmetricOPNMessage (ch : channel) (net : N) (requestId : Z)
    (content : UA_Value) (contentType : UA_DataType) : status * channel * N :=
  let ctx := channelContext ch in
  let cm := asymCrypto policy in
  let signed := is_signed (securityMode ch) in
  if securityMode ch =? UA_MESSAGESECURITYMODE_INVALID then (BADSECURITYMODEREJECTED, ch, net)
  else
    match connection ch with
    | None => (BADINTERNALERROR, ch, net)
    | Some conn =>
        let bufLength := sendBufferSize (localConf conn) in
        let '(retval, net) := getSendBuffer net bufLength in
        if bad retval then (retval, ch, net)
        else
          let '(buf_pos, buf_end) := hideBytesAsym ch 0 bufLength in
          let typeId := mkNodeId 0 (NumericId (binaryEncodingId contentType)) in
          let '(r1, b) := UA_encodeBinary_buf (VNodeId typeId) UA_TYPES_NODEID
                            ([], buf_end - buf_pos) in
          let '(r2, (body, _)) := UA_encodeBinary_buf content contentType b in
          if bad (Z.lor r1 r2) then (Z.lor r1 r2, ch, releaseSendBuffer net)
          else
            let securityHeaderLength := calculateAsymAlgSecurityHeaderLength ch in
            let padding := if signed then asym_padding ctx (zlen body + UA_SEQUENCE_HEADER_LENGTH)
                           else [] in
            let pre_sig_length := buf_pos + zlen body + zlen padding in
            let total_length :=
              pre_sig_length + (if signed then getLocalSignatureSize cm ctx else 0) in
            if bufLength <? total_length then (UNDEFINED, ch, net)
            else
              let unencrypted_length :=
                UA_SECURE_CONVERSATION_MESSAGE_HEADER_LENGTH + securityHeaderLength in
              let messageSize :=
                u32 (total_length +
                     UA_SecurityPolicy_getRemoteAsymEncryptionBufferLengthOverhead ctx
                       (total_length - unencrypted_length)) in
              let '(r1, b) := UA_encodeBinary_buf
                (secureConversationMessageHeader (UA_MESSAGETYPE_OPN + UA_CHUNKTYPE_FINAL)
                   messageSize (channelId (securityToken ch)))
                SecureConversationMessageHeader ([], buf_end) in
              let '(r2, b) := UA_encodeBinary_buf
                (asymmetricSecurityHeader (policyUri policy)
                   (if signed then localCertificate policy else ArrNull)
                   (if signed then ArrData (remoteCertificateThumbprint ch) else ArrNull))
                AsymmetricAlgorithmSecurityHeader b in
              let seq := u32 (sendSequenceNumber ch + 1) in
              let ch := set_sendSeq ch seq in
              let '(r3, (header, _)) := UA_encodeBinary_buf (sequenceHeader seq requestId)
                SequenceHeader b in
              let retval := Z.lor (Z.lor r1 r2) r3 in
              if bad retval then (retval, ch, releaseSendBuffer net)
              else
                let dataToSign := header ++ body ++ padding in
                if signed then
                  let '(retval, signature) := sign cm ctx dataToSign in
                  if bad retval then (retval, ch, releaseSendBuffer net)
                  else
                    let data := dataToSign ++ signature in
                    let n := Z.to_nat unencrypted_length in
                    let '(retval, cipher) := encrypt cm ctx (drop n data) in
                    if bad retval then (retval, ch, releaseSendBuffer net)
                    else if bufLength <? unencrypted_length + zlen cipher
                    then (UNDEFINED, ch, net)
                    else
                      let '(retval, net) :=
                        send net (take (Z.to_nat messageSize) (take n data ++ cipher)) in
                      (retval, ch, net)
                else
                  let '(retval, net) := send net (take (Z.to_nat messageSize) dataToSign) in
                  (retval, ch, net)
    end.

(** ** Sending a symmetric message *)

Definition calculatePaddingSym (ctx : C) (bytesToWrite : Z) : Z * Z * Z :=
  let cm := symCrypto policy in
  let encryptionBlockSize := getLocalBlockSize cm ctx in
  let signatureSize := getLocalSignatureSize cm ctx in
  let padding := u16 (encryptionBlockSize -
                      (bytesToWrite + signatureSize + 1) mod encryptionBlockSize) in
  (padding, u8 padding, u8 (Z.shiftr padding 8)).

Definition sym_padding (ctx : C) (bytesToWrite : Z) : list Z :=
  let '(total, paddingSize, extraPaddingSize) := calculatePaddingSym ctx bytesToWrite in
  replicate (Z.to_nat (total + 1)) paddingSize
  ++ (if 0 <? extraPaddingSize then [extraPaddingSize] else []).

(** [mc_body] are the bytes from the end of the reserved header to [buf_pos],
    [mc_end] the offset of [buf_end] in the buffer of [mc_length] bytes. *)
Record UA_MessageContext := mkMC {
  mc_channel : channel;
  mc_net : N;
  mc_requestId : Z;
  mc_messageType : Z;
  chunksSoFar : Z;
  messageSizeSoFar : Z;
  mc_length : Z;
  mc_body : list Z;
  mc_end : Z;
  mc_final : bool
}.

Definition mc_set_net mc net length :=
  mkMC (mc_channel mc) net (mc_requestId mc) (mc_messageType mc) (chunksSoFar mc)
    (messageSizeSoFar mc) length (mc_body mc) (mc_end mc) (mc_final mc).
Definition mc_set_buf mc body e :=
  mkMC (mc_channel mc) (mc_net mc) (mc_requestId mc) (mc_messageType mc) (chunksSoFar mc)
    (messageSizeSoFar mc) (mc_length mc) body e (mc_final mc).
Definition mc_set_final mc :=
  mkMC (mc_channel mc) (mc_net mc) (mc_requestId mc) (mc_messageType mc) (chunksSoFar mc)
    (messageSizeSoFar mc) (mc_length mc) (mc_body mc) (mc_end mc) true.
Definition mc_count mc n :=
  mkMC (mc_channel mc) (mc_net mc) (mc_requestId mc) (mc_messageType mc)
    (u16 (chunksSoFar mc + 1)) (messageSizeSoFar mc + n) (mc_length mc) (mc_body mc) (mc_end mc)
    (mc_final mc).
Definition mc_set_channel mc ch :=
  mkMC ch (mc_net mc) (mc_requestId mc) (mc_messageType mc) (chunksSoFar mc)
    (messageSizeSoFar mc) (mc_length mc) (mc_body mc) (mc_end mc) (mc_final mc).

Definition setBufPos (mc : UA_MessageContext) : UA_MessageContext :=
  let ch := mc_channel mc in
  let mode := securityMode ch in
  mc_set_buf mc []
    (mc_length mc
     - (if is_signed mode then getLocalSignatureSize (symCrypto policy) (channelContext ch) else 0)
     - (if is_encrypted mode then 2 else 0)).

(** Release the buffer and return an error. *)
Definition mc_release (mc : UA_MessageContext) : UA_MessageContext :=
  mc_set_net mc (releaseSendBuffer (mc_net mc)) 0.

(** More than the peer accepts? *)
Definition exceeds_limits (conn : UA_Connection) (mc : UA_MessageContext) : bool :=
  let conf := remoteConf conn in
  ((maxMessageSize conf <? messageSizeSoFar mc) && negb (maxMessageSize conf =? 0))
  || ((maxChunkCount conf <? chunksSoFar mc) && negb (maxChunkCount conf =? 0)).

(** The three headers of a chunk, at the start of the buffer. *)
Definition chunk_headers (mc : UA_MessageContext) (total_length seq : Z) : status * list Z :=
  let ch := mc_channel mc in
  let chunkType := if mc_final mc then UA_CHUNKTYPE_FINAL else UA_CHUNKTYPE_INTERMEDIATE in
  let '(r1, b) := UA_encodeBinary_buf
    (secureConversationMessageHeader (u32 (mc_messageType mc + chunkType)) (u32 total_length)
       (channelId (securityToken ch)))
    SecureConversationMessageHeader ([], mc_end mc) in
  let '(r2, b) := UA_encodeBinary_buf (symmetricSecurityHeader (tokenId (securityToken ch)))
    SymmetricAlgorithmSecurityHeader b in
  let '(r3, (header, _)) := UA_encodeBinary_buf (sequenceHeader seq (mc_requestId mc))
    SequenceHeader b in
  (Z.lor (Z.lor r1 r2) r3, header).

(** Sign [plain] and encrypt all behind the symmetric header. *)
Definition protect (mode : Z) (ctx : C) (plain : list Z) : status * list Z :=
  let cm := symCrypto policy in
  let '(r1, signature) := if is_signed mode then sign cm ctx plain else (GOOD, []) in
  let data := plain ++ signature in
  if is_encrypted mode then
    let n := Z.to_nat UA_SECUREMH_AND_SYMALGH_LENGTH in
    let '(r2, cipher) := encrypt cm ctx (drop n data) in
    (Z.lor r1 r2, take n data ++ cipher)
  else (r1, data).

Definition sendSymmetricChunk (mc : UA_MessageContext) : status * UA_MessageContext :=
  let ch := mc_channel mc in
  let mode := securityMode ch in
  let ctx := channelContext ch in
  match connection ch with
  | None => (BADINTERNALERROR, mc)
  | Some conn =>
      let bodyLength := zlen (mc_body mc) in
      let mc := mc_count mc bodyLength in
      if exceeds_limits conn mc then (BADRESPONSETOOLARGE, mc_release mc)
      else
        let padding := if is_encrypted mode
                       then sym_padding ctx (bodyLength + UA_SEQUENCE_HEADER_LENGTH) else [] in
        let pre_sig_length := UA_SECURE_MESSAGE_HEADER_LENGTH + bodyLength + zlen padding in
        let total_length :=
          pre_sig_length
          + (if is_signed mode then getLocalSignatureSize (symCrypto policy) ctx else 0) in
        if mc_length mc <? total_length then (UNDEFINED, mc)
        else
          let seq := u32 (sendSequenceNumber ch + 1) in
          let '(r1, header) := chunk_headers mc total_length seq in
          let mc := mc_set_channel mc (set_sendSeq ch seq) in
          let '(r2, message) := protect mode ctx (header ++ mc_body mc ++ padding) in
          let res := Z.lor r1 r2 in
          if bad res then (res, mc_release mc)
          else
            let '(res, net) := send (mc_net mc) message in
            (res, mc_set_net mc net 0)
  end.

(** The callback of the encoder: the buffer holds [o] behind what was there
    before, with room for [r] bytes. *)
Definition sendSymmetricEncodingCallback : exchangeEncodeBuffer UA_MessageContext := fun mc0 o r =>
  let body := mc_body mc0 ++ o in
  let mc := mc_set_buf mc0 body (UA_SECURE_MESSAGE_HEADER_LENGTH + zlen body + r) in
  let '(retval, mc) := sendSymmetricChunk mc in
  if bad retval then (retval, mc_set_buf mc (mc_body mc0) (mc_end mc), None)
  else
    match connection (mc_channel mc) with
    | None => (UNDEFINED, mc, None)
    | Some conn =>
        let size := sendBufferSize (localConf conn) in
        let '(retval, net) := getSendBuffer (mc_net mc) size in
        if bad retval
        then (retval, mc_set_buf (mc_set_net mc net 0) (mc_body mc0) (mc_end mc), None)
        else
          let mc := setBufPos (mc_set_net mc net size) in
          (GOOD, mc, Some (mc_end mc - UA_SECURE_MESSAGE_HEADER_LENGTH))
    end.

Definition UA_MessageContext_begin (ch : channel) (net : N) (requestId messageType : Z) :
    status * UA_MessageContext :=
  let mc := mkMC ch net requestId messageType 0 0 0 [] UA_SECURE_MESSAGE_HEADER_LENGTH false in
  match connection ch with
  | None => (BADINTERNALERROR, mc)
  | Some conn =>
      if negb (messageType =? UA_MESSAGETYPE_MSG) && negb (messageType =? UA_MESSAGETYPE_CLO)
      then (BADINTERNALERROR, mc)
      else if sendBufferSize (localConf conn) <=? UA_SECURE_MESSAGE_HEADER_LENGTH
      then (BADRESPONSETOOLARGE, mc)
      else
        let '(retval, net) := getSendBuffer net (sendBufferSize (localConf conn)) in
        if bad retval then (retval, mc_set_net mc net 0)
        else (GOOD, setBufPos (mc_set_net mc net (sendBufferSize (localConf conn))))
  end.

Definition UA_MessageContext_encode (mc : UA_MessageContext) (content : UA_Value)
    (contentType : UA_DataType) : status * UA_MessageContext :=
  let '(retval, c) :=
    UA_encodeBinary (Some sendSymmetricEncodingCallback) content contentType mc
      (mc_end mc - UA_SECURE_MESSAGE_HEADER_LENGTH - zlen (mc_body mc)) in
  let body := mc_body (handle c) ++ out c in
  let mc := mc_set_buf (handle c) body (UA_SECURE_MESSAGE_HEADER_LENGTH + zlen body + room c) in
  if bad retval then (retval, if 0 <? mc_length mc then mc_release mc else mc) else (retval, mc).

Definition UA_MessageContext_finish (mc : UA_MessageContext) : status * UA_MessageContext :=
  sendSymmetricChunk (mc_set_final mc).

Definition UA_MessageContext_abort (mc : UA_MessageContext) : UA_MessageContext := mc_release mc.

Definition UA_SecureChannel_sendSymmetricMessage (ch : channel) (net : N)
    (requestId messageType : Z) (payload : UA_Value) (payloadType : UA_DataType) :
    status * UA_MessageContext :=
  let closed := match connection ch with
                | Some conn => bool_decide (conn_state conn = UA_CONNECTION_CLOSED)
                | None => false
                end in
  if closed
  then (BADCONNECTIONCLOSED, mkMC ch net requestId messageType 0 0 0 [] 0 false)
  else
    let '(retval, mc) := UA_MessageContext_begin ch net requestId messageType in
    if bad retval then (retval, mc)
    else
      let typeId := mkNodeId 0 (NumericId (binaryEncodingId payloadType)) in
      let '(retval, mc) := UA_MessageContext_encode mc (VNodeId typeId) UA_TYPES_NODEID in
      if bad retval then (retval, mc)
      else
        let '(retval, mc) := UA_MessageContext_encode mc payload payloadType in
        if bad retval then (retval, mc) else UA_MessageContext_finish mc.
End Channel.

(** ** Receiving *)

Section Receive.
Context {TE : TypeEnv} {C App : Type}.
Variable policy : UA_SecurityPolicy C.
Variable calloc_ok : nat -> Z -> bool.      (* allocations of the decoder *)
Variable alloc_ok : Z -> bool.              (* allocations of the channel, by size *)

Abbreviation channel := (UA_SecureChannel C).

(** The callback for complete messages: type, request id and body. *)
Variable callback : App -> channel -> Z -> Z -> list Z -> status * App * channel.

(** *** Assembling messages from chunks *)

Fixpoint remove_entry (requestId : Z) (l : list ChunkEntry) : list ChunkEntry :=
  match l with
  | [] => []
  | e :: l => if ce_requestId e =? requestId then l else e :: remove_entry requestId l
  end.

Definition find_entry (requestId : Z) (l : list ChunkEntry) : option ChunkEntry :=
  List.find (fun e => ce_requestId e =? requestId) l.

(** Replace the bytes of the entry that [find_entry] returns. *)
Fixpoint update_entry (requestId : Z) (bytes : list Z) (l : list ChunkEntry) : list ChunkEntry :=
  match l with
  | [] => []
  | e :: l => if ce_requestId e =? requestId then mkChunkEntry requestId bytes :: l
              else e :: update_entry requestId bytes l
  end.

Definition UA_SecureChannel_removeChunks (ch : channel) (requestId : Z) : channel :=
  set_chunks ch (remove_entry requestId (chunks ch)).

(** The bytes of the entry afterwards; none when [realloc] fails. *)
Definition appendChunk (bytes chunkBody : list Z) : status * list Z :=
  if alloc_ok (zlen bytes + zlen chunkBody) then (GOOD, bytes ++ chunkBody)
  else (BADOUTOFMEMORY, []).

Definition sizeof_ChunkEntry : Z := 40.

Definition UA_SecureChannel_appendChunk (ch : channel) (requestId : Z) (chunkBody : list Z) :
    status * channel :=
  match find_entry requestId (chunks ch) with
  | Some e =>
      let '(retval, bytes) := appendChunk (ce_bytes e) chunkBody in
      (retval, set_chunks ch (update_entry requestId bytes (chunks ch)))
  | None =>
      if negb (alloc_ok sizeof_ChunkEntry) then (BADOUTOFMEMORY, ch)
      else
        let '(retval, bytes) := appendChunk [] chunkBody in
        (retval, set_chunks ch (mkChunkEntry requestId bytes :: chunks ch))
  end.

Definition UA_SecureChannel_finalizeChunk (app : App) (ch : channel) (requestId : Z)
    (chunkBody : list Z) (messageType : Z) : status * App * channel :=
  match find_entry requestId (chunks ch) with
  | None => callback app ch messageType requestId chunkBody
  | Some e =>
      let '(retval, bytes) := appendChunk (ce_bytes e) chunkBody in
      if bad retval
      then (retval, app, set_chunks ch (update_entry requestId bytes (chunks ch)))
      else callback app (UA_SecureChannel_removeChunks ch requestId) messageType requestId bytes
  end.

(** *** Decrypting a chunk *)

(** [chunk->data[i]] *)
Definition data_at (data : list Z) (i : Z) : option Z :=
  if (0 <=? i) && (i <? zlen data) then Some (nth (Z.to_nat i) data 0) else None.

(** Is the end of the chunk padded? *)
Definition is_padded (mode messageType : Z) : bool :=
  is_encrypted mode
  || ((messageType =? UA_MESSAGETYPE_OPN) && (UA_MESSAGESECURITYMODE_NONE <? mode)).

(** The number of bytes of padding, with its one or two length bytes. *)
Definition padding_size (cm : UA_SecurityPolicyCryptoModule C) (ctx : C) (data : list Z)
    (size sigsize : Z) : option Z :=
  match data_at data (size - sigsize - 1) with
  | None => None
  | Some p =>
      if 2048 <? getRemoteKeyLength cm ctx then
        match data_at data (size - sigsize - 2) with
        | Some q => Some (Z.shiftl p 8 + q + 1 + 1)
        | None => None
        end
      else Some (p + 1)
  end.

(** The values of a decoded sequence header. *)
Definition decode_sequenceHeader (data : list Z) (offset : Z) : status * Z * Z * Z :=
  match UA_decodeBinary calloc_ok data offset SequenceHeader with
  | (s, Some (VStruct [SScalar (VInt sequenceNumber); SScalar (VInt requestId)]), offset) =>
      (s, sequenceNumber, requestId, offset)
  | (s, Some _, offset) => (UNDEFINED, 0, 0, offset)
  | (s, None, offset) => (s, 0, 0, offset)
  end.

(** Decryption in place: the bytes behind the plain text stay. *)
Definition decrypt_chunk (ch : channel) (cm : UA_SecurityPolicyCryptoModule C) (chunk : list Z)
    (offset : Z) (messageType : Z) : status * list Z * Z :=
  if is_encrypted (securityMode ch) || (messageType =? UA_MESSAGETYPE_OPN) then
    let n := Z.to_nat offset in
    let '(retval, plain) := decrypt cm (channelContext ch) (drop n chunk) in
    (retval, take n chunk ++ plain ++ drop (n + length plain) chunk,
     zlen chunk - (zlen chunk - offset - zlen plain))
  else (GOOD, chunk, zlen chunk).

(** Signature and padding: status, size of the signature, size of the padding. *)
Definition verify_chunk (ch : channel) (cm : UA_SecurityPolicyCryptoModule C) (data : list Z)
    (size offset messageType : Z) : status * Z * Z :=
  let mode := securityMode ch in
  let ctx := channelContext ch in
  if is_signed mode || (messageType =? UA_MESSAGETYPE_OPN) then
    let sigsize := getRemoteSignatureSize cm ctx in
    match (if is_padded mode messageType then padding_size cm ctx data size sigsize
           else Some 0) with
    | None => (UNDEFINED, sigsize, 0)
    | Some paddingSize =>
        if size <=? offset + paddingSize + sigsize
        then (BADSECURITYCHECKSFAILED, sigsize, paddingSize)
        else
          let retval := verify cm ctx (take (Z.to_nat (size - sigsize)) data)
                          (slice data (size - sigsize) sigsize) in
          (retval, sigsize, paddingSize)
    end
  else (GOOD, 0, 0).

(** Result: status, request id, sequence number and payload. *)
Definition decryptChunk (ch : channel) (cm : UA_SecurityPolicyCryptoModule C) (chunk : list Z)
    (offset messageType : Z) : status * Z * Z * list Z :=
  let '(retval, data, size) := decrypt_chunk ch cm chunk offset messageType in
  if bad retval then (retval, 0, 0, [])
  else
    let '(retval, sigsize, paddingSize) := verify_chunk ch cm data size offset messageType in
    if bad retval then (retval, 0, 0, [])
    else
      let '(retval, sequenceNumber, requestId, offset) := decode_sequenceHeader data offset in
      if bad retval then (retval, 0, 0, [])
      else if zlen chunk <=? offset + paddingSize + sigsize
      then (BADSECURITYCHECKSFAILED, 0, 0, [])
      else
        let length := size - offset - sigsize - paddingSize in
        if length <? 0 then (UNDEFINED, requestId, sequenceNumber, [])
        else (GOOD, requestId, sequenceNumber, slice data offset length).

(** *** Sequence numbers and security tokens *)

Definition processSequenceNumberAsym (ch : channel) (sequenceNumber : Z) : status * channel :=
  (GOOD, set_receiveSeq ch sequenceNumber).

Definition processSequenceNumberSym (ch : channel) (sequenceNumber : Z) : status * channel :=
  if negb (sequenceNumber =? u32 (receiveSequenceNumber ch + 1)) then
    if (4294966271 <? u32 (receiveSequenceNumber ch + 1)) && (sequenceNumber <? 1024)
    then (GOOD, set_receiveSeq ch (u32 (u32 (sequenceNumber - 1) + 1)))
    else (BADSECURITYCHECKSFAILED, ch)
  else (GOOD, set_receiveSeq ch (u32 (receiveSequenceNumber ch + 1))).

Definition checkAsymHeader (uri thumbprint : UA_ByteString) : status :=
  if negb (UA_String_equal (policyUri policy) uri) then BADSECURITYPOLICYREJECTED
  else compareCertificateThumbprint policy thumbprint.

Definition checkSymHeader (ch : channel) (token : Z) : status * channel :=
  if negb (token =? tokenId (securityToken ch)) then
    if negb (token =? tokenId (nextSecurityToken ch)) then (BADSECURECHANNELTOKENUNKNOWN, ch)
    else UA_SecureChannel_revolveTokens policy ch
  else (GOOD, ch).

(** *** Processing a chunk *)

Definition decode_messageHeader (chunk : list Z) : status * Z * Z * Z * Z :=
  match UA_decodeBinary calloc_ok chunk 0 SecureConversationMessageHeader with
  | (s, Some (VStruct [SScalar (VStruct [SScalar (VInt t); SScalar (VInt size)]);
                       SScalar (VInt id)]), offset) => (s, t, size, id, offset)
  | (s, Some _, offset) => (UNDEFINED, 0, 0, 0, offset)
  | (s, None, offset) => (s, 0, 0, 0, offset)
  end.

Definition decode_symHeader (chunk : list Z) (offset : Z) : status * Z * Z :=
  match UA_decodeBinary calloc_ok chunk offset SymmetricAlgorithmSecurityHeader with
  | (s, Some (VStruct [SScalar (VInt token)]), offset) => (s, token, offset)
  | (s, Some _, offset) => (UNDEFINED, 0, offset)
  | (s, None, offset) => (s, 0, offset)
  end.

Definition decode_asymHeader (chunk : list Z) (offset : Z) :
    status * UA_ByteString * UA_ByteString * Z :=
  match UA_decodeBinary calloc_ok chunk offset AsymmetricAlgorithmSecurityHeader with
  | (s, Some (VStruct [SScalar (VString uri); SScalar (VString _); SScalar (VString thumb)]),
     offset) => (s, uri, thumb, offset)
  | (s, Some _, offset) => (UNDEFINED, ArrNull, ArrNull, offset)
  | (s, None, offset) => (s, ArrNull, ArrNull, offset)
  end.

(** Security header: the crypto module, the check of the sequence number and
    the offset behind it. *)
Definition processSecurityHeader (ch : channel) (chunk : list Z) (messageType chunkType offset : Z) :
    status * channel * bool * Z :=
  if (messageType =? UA_MESSAGETYPE_MSG) || (messageType =? UA_MESSAGETYPE_CLO) then
    let '(retval, token, offset) := decode_symHeader chunk offset in
    if bad retval then (retval, ch, true, offset)
    else let '(retval, ch) := checkSymHeader ch token in (retval, ch, true, offset)
  else if messageType =? UA_MESSAGETYPE_OPN then
    if negb (chunkType =? UA_CHUNKTYPE_FINAL) then (BADTCPMESSAGETYPEINVALID, ch, false, offset)
    else
      let '(retval, uri, thumb, offset) :=
        decode_asymHeader chunk UA_SECURE_CONVERSATION_MESSAGE_HEADER_LENGTH in
      if bad retval then (retval, ch, false, offset)
      else (checkAsymHeader uri thumb, ch, false, offset)
  else (BADTCPMESSAGETYPEINVALID, ch, false, offset).

Definition processPayload (app : App) (ch : channel) (messageType chunkType requestId : Z)
    (payload : list Z) : status * App * channel :=
  if chunkType =? UA_CHUNKTYPE_FINAL then
    UA_SecureChannel_finalizeChunk app ch requestId payload messageType
  else if chunkType =? UA_CHUNKTYPE_INTERMEDIATE then
    let '(retval, ch) := UA_SecureChannel_appendChunk ch requestId payload in (retval, app, ch)
  else if chunkType =? UA_CHUNKTYPE_ABORT then
    (GOOD, app, UA_SecureChannel_removeChunks ch requestId)
  else (BADTCPMESSAGETYPEINVALID, app, ch).

Definition UA_SecureChannel_processChunk (app : App) (ch : channel) (chunk : list Z) :
    status * App * channel :=
  let '(retval, typeAndChunk, _, id, offset) := decode_messageHeader chunk in
  if bad retval then (retval, app, ch)
  else if negb (id =? channelId (securityToken ch))
          && negb (bool_decide (ch_state ch = UA_SECURECHANNELSTATE_FRESH))
  then (BADSECURECHANNELIDINVALID, app, ch)
  else
    let messageType := Z.land typeAndChunk UA_BITMASK_MESSAGETYPE in
    let chunkType := Z.land typeAndChunk UA_BITMASK_CHUNKTYPE in
    if messageType =? UA_MESSAGETYPE_ERR then
      if negb (chunkType =? UA_CHUNKTYPE_FINAL) then (BADTCPMESSAGETYPEINVALID, app, ch)
      else callback app ch messageType 0 (drop (Z.to_nat offset) chunk)
    else
      let '(retval, ch, symmetric, offset) :=
        processSecurityHeader ch chunk messageType chunkType offset in
      if bad retval then (retval, app, ch)
      else
        let cm := if symmetric then symCrypto policy else asymCrypto policy in
        let '(retval, requestId, sequenceNumber, payload) :=
          decryptChunk ch cm chunk offset messageType in
        if bad retval then (retval, app, ch)
        else
          let '(retval, ch) :=
            if symmetric then processSequenceNumberSym ch sequenceNumber
            else processSequenceNumberAsym ch sequenceNumber in
          if bad retval then (retval, app, ch)
          else processPayload app ch messageType chunkType requestId payload.

(** Chunks one after the other, until an error. *)
Fixpoint process_all (app : App) (ch : channel) (l : list (list Z)) : status * App * channel :=
  match l with
  | [] => (GOOD, app, ch)
  | chunk :: l =>
      let '(retval, app, ch) := UA_SecureChannel_processChunk app ch chunk in
      if bad retval then (retval, app, ch) else process_all app ch l
  end.
End Receive.
