(* ===== verification/SecureChannelWire.v ===== *)
(** * Chunks on the wire

    What [sendSymmetricChunk] puts on the wire for a body, that the padding is
    right, and that [decryptChunk] of the peer returns the body.  The two ends
    are linked by what the cryptography promises: the peer verifies what was
    signed and decrypts what was encrypted. *)

From Stdlib Require Import ZArith Lia.
From stdpp Require Import base list numbers tactics sets.
From S2P Require Import Prelude UaTypes UaValue BinarySize BinaryEncode BinaryDecode BinarySpec EncodeLogic FieldCodec Connection SecureChannel.

(** The symmetric cryptography of two ends with the contexts [a] (sending) and
    [b] (receiving): sizes agree, signatures verify, decryption inverts
    encryption of whole blocks, and failures are reported with an error other
    than [BADENCODINGLIMITSEXCEEDED]. *)
Record sym_pair {C} (ps pr : UA_SecurityPolicy C) (a b : C) : Prop := mkSymPair {
  sp_sigsize : getRemoteSignatureSize (symCrypto pr) b = getLocalSignatureSize (symCrypto ps) a;
  sp_sig_nonneg : 0 <= getLocalSignatureSize (symCrypto ps) a;
  sp_block : 0 < getLocalBlockSize (symCrypto ps) a <= 255;
  sp_keylen : getRemoteKeyLength (symCrypto pr) b <= 2048;
  sp_sign : forall m sg, sign (symCrypto ps) a m = (GOOD, sg) ->
    zlen sg = getLocalSignatureSize (symCrypto ps) a /\ verify (symCrypto pr) b m sg = GOOD;
  sp_sign_error : forall m, fst (sign (symCrypto ps) a m) = GOOD \/
    hard False (fst (sign (symCrypto ps) a m));
  sp_encrypt : forall m c, zlen m mod getLocalBlockSize (symCrypto ps) a = 0 ->
    encrypt (symCrypto ps) a m = (GOOD, c) ->
    zlen c = zlen m /\ decrypt (symCrypto pr) b c = (GOOD, m);
  sp_encrypt_error : forall m, fst (encrypt (symCrypto ps) a m) = GOOD \/
    hard False (fst (encrypt (symCrypto ps) a m))
}.

Definition symmetric_type (t : Z) : Prop := t = UA_MESSAGETYPE_MSG \/ t = UA_MESSAGETYPE_CLO.

Section Padding.
Context {C : Type} (ps : UA_SecurityPolicy C) (a : C).
Abbreviation bs := (getLocalBlockSize (symCrypto ps) a).
Abbreviation sigsize := (getLocalSignatureSize (symCrypto ps) a).

(** The number of bytes of padding before its last byte. *)
Definition pad (n : Z) : Z := bs - (n + sigsize + 1) mod bs.

Lemma pad_range n : 0 < bs <= 255 -> 1 <= pad n <= bs.
Proof. intros Hb; unfold pad; pose proof (Z.mod_pos_bound (n + sigsize + 1) bs); lia. Qed.

Lemma sym_padding_eq n : 0 < bs <= 255 ->
  sym_padding ps a n = replicate (Z.to_nat (pad n + 1)) (pad n).
Proof.
  intros Hb; pose proof (pad_range n Hb) as Hp; unfold sym_padding, calculatePaddingSym.
  fold (pad n); rewrite (u16_small (pad n)) by lia.
  assert (E : u8 (Z.shiftr (pad n) 8) = 0)
    by (rewrite Z.shiftr_div_pow2, Z.div_small by lia; done).
  rewrite E; simpl; rewrite app_nil_r; f_equal; unfold u8; apply Z.mod_small; lia.
Qed.

Lemma zlen_replicate {A} k (x : A) : 0 <= k -> zlen (replicate (Z.to_nat k) x) = k.
Proof. intros; unfold zlen; rewrite length_replicate; lia. Qed.

Lemma zlen_sym_padding n : 0 < bs <= 255 -> zlen (sym_padding ps a n) = pad n + 1.
Proof.
  intros Hb; pose proof (pad_range n Hb); rewrite sym_padding_eq, zlen_replicate by lia; done.
Qed.

(** Payload, padding and signature fill whole blocks. *)
Lemma padded_blocks n : 0 < bs <= 255 -> (n + zlen (sym_padding ps a n) + sigsize) mod bs = 0.
Proof.
  intros Hb; rewrite zlen_sym_padding by done; unfold pad.
  pose proof (Z.div_mod (n + sigsize + 1) bs ltac:(lia)).
  replace (n + (bs - (n + sigsize + 1) mod bs + 1) + sigsize)
    with (((n + sigsize + 1) / bs + 1) * bs) by lia.
  apply Z_mod_mult.
Qed.
End Padding.

(** [data_at] inside of a concatenation. *)
Lemma data_at_last l x r : data_at (l ++ x :: r) (zlen l) = Some x.
Proof.
  unfold data_at; pose proof (zlen_nonneg l); pose proof (zlen_nonneg r).
  rewrite zlen_app, zlen_cons.
  replace ((0 <=? zlen l) && (zlen l <? zlen l + (1 + zlen r))) with true
    by (symmetry; apply andb_true_iff; split; [apply Z.leb_le|apply Z.ltb_lt]; lia).
  unfold zlen; rewrite Nat2Z.id, app_nth2, Nat.sub_diag by lia; done.
Qed.

Lemma slice_middle l m r : slice (l ++ m ++ r) (zlen l) (zlen m) = m.
Proof. unfold slice; by rewrite drop_zlen_app, take_zlen_app. Qed.

(** ** One chunk *)

Section Chunk.
Context {TE : TypeEnv} {TT : TransportEnv TE} {C : Type}.
Context (ps pr : UA_SecurityPolicy C) (a b : C).
Variable calloc_ok : nat -> Z -> bool.
Hypothesis Halloc : forall n s, calloc_ok n s = true.
Hypothesis Hpair : sym_pair ps pr a b.
Variable mode : Z.

Abbreviation bs := (getLocalBlockSize (symCrypto ps) a).
Abbreviation sigsize := (getLocalSignatureSize (symCrypto ps) a).

(** Signature bytes of a chunk. *)
Definition sig_len : Z := if is_signed mode then sigsize else 0.

Definition chunk_padding (body : list Z) : list Z :=
  if is_encrypted mode then sym_padding ps a (zlen body + UA_SEQUENCE_HEADER_LENGTH) else [].

Definition chunk_total (body : list Z) : Z :=
  UA_SECURE_MESSAGE_HEADER_LENGTH + zlen body + zlen (chunk_padding body) + sig_len.

(** Header, body and padding, before signing. *)
Definition plain_chunk (typ channel token seq req : Z) (body : list Z) : list Z :=
  (header_bytes typ (chunk_total body) channel ++ le_bytes 4 token)
  ++ (le_bytes 4 seq ++ le_bytes 4 req) ++ body ++ chunk_padding body.

(** [message] is what is sent for [body]. *)
Definition frame_of (typ channel token seq req : Z) (body message : list Z) : Prop :=
  protect ps mode a (plain_chunk typ channel token seq req body) = (GOOD, message).

Lemma encrypted_signed : is_encrypted mode = true -> is_signed mode = true.
Proof. unfold is_encrypted, is_signed; intros ->; by rewrite orb_true_r. Qed.

Lemma zlen_header typ channel token size :
  zlen (header_bytes typ size channel ++ le_bytes 4 token) = 16.
Proof. done. Qed.

Lemma zlen_plain typ channel token seq req body :
  zlen (plain_chunk typ channel token seq req body) = chunk_total body - sig_len.
Proof.
  unfold plain_chunk, chunk_total; rewrite zlen_app, zlen_header, !zlen_app, !zlen_le_bytes.
  unfold UA_SECURE_MESSAGE_HEADER_LENGTH; lia.
Qed.

(** What [protect] yields: the plain text with signature, encrypted or not. *)
Lemma frame_cases typ channel token seq req body message :
  frame_of typ channel token seq req body message ->
  exists sg, zlen sg = sig_len /\
    (is_signed mode = true ->
     verify (symCrypto pr) b (plain_chunk typ channel token seq req body) sg = GOOD) /\
    zlen message = chunk_total body /\
    exists rest, message = (header_bytes typ (chunk_total body) channel ++ le_bytes 4 token) ++ rest /\
    let data := (le_bytes 4 seq ++ le_bytes 4 req) ++ body ++ chunk_padding body ++ sg in
    if is_encrypted mode then decrypt (symCrypto pr) b rest = (GOOD, data) else rest = data.
Proof.
  unfold frame_of, protect; intros Hp.
  destruct (if is_signed mode then _ else _) as [r1 sg] eqn:Es.
  set (plain := plain_chunk typ channel token seq req body) in *.
  assert (Hpl : zlen plain = chunk_total body - sig_len) by apply zlen_plain.
  assert (Hdata : plain ++ sg =
    (header_bytes typ (chunk_total body) channel ++ le_bytes 4 token) ++
    (le_bytes 4 seq ++ le_bytes 4 req) ++ body ++ chunk_padding body ++ sg)
    by (unfold plain, plain_chunk; by rewrite <- !app_assoc).
  assert (Hsg : r1 = GOOD -> zlen sg = sig_len /\
    (is_signed mode = true -> verify (symCrypto pr) b plain sg = GOOD)).
  { intros ->; unfold sig_len; destruct (is_signed mode).
    - destruct (sp_sign _ _ _ _ Hpair _ _ Es); auto.
    - injection Es as <-; done. }
  destruct (is_encrypted mode) eqn:Ee.
  - rewrite Hdata in Hp.
    change (Z.to_nat UA_SECUREMH_AND_SYMALGH_LENGTH) with
      (length (header_bytes typ (chunk_total body) channel ++ le_bytes 4 token)) in Hp.
    rewrite drop_app_length, take_app_length in Hp.
    destruct (encrypt _ _ _) as [r2 cipher] eqn:Ec; apply pair_equal_spec in Hp as [Hr <-].
    apply lor_good in Hr as [-> ->]; destruct (Hsg eq_refl) as [Hl Hv].
    apply (sp_encrypt _ _ _ _ Hpair) in Ec as [Hc Hd].
    + exists sg; split; [done|]; split; [done|]; split; [|by exists cipher].
      rewrite zlen_app, zlen_header, Hc, !zlen_app, !zlen_le_bytes, Hl; unfold chunk_total,
        UA_SECURE_MESSAGE_HEADER_LENGTH; lia.
    + rewrite !zlen_app, !zlen_le_bytes, Hl; unfold sig_len, chunk_padding.
      rewrite Ee, (encrypted_signed Ee).
      pose proof (padded_blocks ps a (zlen body + UA_SEQUENCE_HEADER_LENGTH)
        (sp_block _ _ _ _ Hpair)) as Hb.
      rewrite <- Hb; f_equal; unfold UA_SEQUENCE_HEADER_LENGTH; lia.
  - apply pair_equal_spec in Hp as [-> <-]; destruct (Hsg eq_refl) as [Hl Hv].
    exists sg; split; [done|]; split; [done|]; split; [rewrite zlen_app; lia|].
    rewrite Hdata; by eexists.
Qed.

(** *** The receiving end *)

Section Receiver.
Variable ch : UA_SecureChannel C.
Hypothesis Hch : securityMode ch = mode.
Hypothesis Hctx : channelContext ch = b.
Variable messageType : Z.
Hypothesis Htype : symmetric_type messageType.

Lemma not_opn : (messageType =? UA_MESSAGETYPE_OPN) = false.
Proof. by destruct Htype as [-> | ->]. Qed.

Lemma decrypt_chunk_frame hd rest data :
  zlen hd = UA_SECUREMH_AND_SYMALGH_LENGTH ->
  (if is_encrypted mode then decrypt (symCrypto pr) b rest = (GOOD, data) else rest = data) ->
  zlen rest = zlen data ->
  decrypt_chunk ch (symCrypto pr) (hd ++ rest) UA_SECUREMH_AND_SYMALGH_LENGTH messageType =
  (GOOD, hd ++ data, zlen (hd ++ rest)).
Proof.
  intros Hhd Hd Hl; unfold decrypt_chunk; rewrite Hch, Hctx, not_opn, orb_false_r, <- Hhd.
  destruct (is_encrypted mode); [|by rewrite Hd].
  rewrite drop_zlen_app, take_zlen_app, Hd; f_equal; [f_equal|].
  - unfold zlen in *; rewrite drop_ge by (rewrite length_app; lia); by rewrite app_nil_r.
  - rewrite zlen_app; lia.
Qed.

(** The last byte of the padding gives its length. *)
Lemma padding_size_frame pre sg body : zlen sg = sig_len ->
  (if is_padded mode messageType
   then padding_size (symCrypto pr) b (pre ++ chunk_padding body ++ sg)
          (zlen (pre ++ chunk_padding body ++ sg)) sig_len
   else Some 0) = Some (zlen (chunk_padding body)).
Proof.
  intros Hsg; unfold is_padded; rewrite not_opn, orb_false_r; unfold chunk_padding.
  destruct (is_encrypted mode); [|done].
  pose proof (sp_block _ _ _ _ Hpair) as Hb; set (n := zlen body + _).
  pose proof (pad_range ps a n Hb) as Hp; rewrite sym_padding_eq by done.
  replace (Z.to_nat (pad ps a n + 1)) with (S (Z.to_nat (pad ps a n))) by lia.
  rewrite <- (Nat.add_1_r (Z.to_nat _)), replicate_add; cbn [replicate].
  rewrite <- app_assoc; cbn [app].
  set (full := replicate _ _); assert (Hf : zlen full = pad ps a n)
    by (apply zlen_replicate; lia).
  unfold padding_size; rewrite (app_assoc pre full).
  replace (zlen ((pre ++ full) ++ pad ps a n :: sg) - sig_len - 1) with (zlen (pre ++ full))
    by (rewrite (zlen_app (pre ++ full)), zlen_cons, Hsg; lia).
  rewrite data_at_last; pose proof (sp_keylen _ _ _ _ Hpair).
  destr_if; zbool; [lia|]; rewrite zlen_app, zlen_cons, zlen_nil, Hf; done.
Qed.

Lemma verify_chunk_frame pre body sg :
  zlen sg = sig_len -> UA_SECUREMH_AND_SYMALGH_LENGTH < zlen pre ->
  (is_signed mode = true ->
   verify (symCrypto pr) b (pre ++ chunk_padding body) sg = GOOD) ->
  exists p, verify_chunk ch (symCrypto pr) (pre ++ chunk_padding body ++ sg)
    (zlen (pre ++ chunk_padding body ++ sg)) UA_SECUREMH_AND_SYMALGH_LENGTH messageType =
    (GOOD, sig_len, p) /\ p = zlen (chunk_padding body).
Proof.
  intros Hsg Hpre Hv; eexists; split; [|reflexivity].
  unfold verify_chunk; rewrite Hch, Hctx, not_opn, orb_false_r.
  destruct (is_signed mode) eqn:Es.
  - assert (Esz : getRemoteSignatureSize (symCrypto pr) b = sig_len)
      by (unfold sig_len; rewrite Es; apply Hpair).
    rewrite Esz, (padding_size_frame pre sg body Hsg), !zlen_app.
    destr_if; zbool; [lia|].
    replace (zlen pre + (zlen (chunk_padding body) + zlen sg) - sig_len)
      with (zlen (pre ++ chunk_padding body)) by (rewrite zlen_app; lia).
    rewrite app_assoc, take_zlen_app.
    replace (slice _ _ sig_len) with sg; [by rewrite Hv|].
    rewrite <- Hsg, <- (app_nil_r ((pre ++ _) ++ sg)), <- app_assoc; by rewrite slice_middle.
  - unfold sig_len; rewrite Es; f_equal; unfold chunk_padding.
    destruct (is_encrypted mode) eqn:Ee; [|done]; by rewrite encrypted_signed in Es.
Qed.

Lemma decode_sequenceHeader_frame pre seq req post :
  0 <= seq < 2 ^ 32 -> 0 <= req < 2 ^ 32 ->
  decode_sequenceHeader calloc_ok (pre ++ (le_bytes 4 seq ++ le_bytes 4 req) ++ post) (zlen pre) =
  (GOOD, seq, req, zlen pre + UA_SEQUENCE_HEADER_LENGTH).
Proof.
  intros Hs Hr; unfold decode_sequenceHeader.
  rewrite <- sequenceHeader_bytes, decode_buf by auto using sequenceHeader_wf.
  by rewrite sequenceHeader_bytes.
Qed.

(** The peer gets the body back. *)
Lemma decryptChunk_frame typ channel token seq req body message :
  frame_of typ channel token seq req body message -> body <> [] ->
  0 <= seq < 2 ^ 32 -> 0 <= req < 2 ^ 32 ->
  decryptChunk calloc_ok ch (symCrypto pr) message UA_SECUREMH_AND_SYMALGH_LENGTH messageType =
  (GOOD, req, seq, body).
Proof.
  intros Hf Hne Hs Hr; destruct (frame_cases _ _ _ _ _ _ _ Hf) as (sg & Hsg & Hv & Hlen & rest & -> & Hd).
  set (hd := header_bytes _ _ _ ++ _) in *; assert (Hhd : zlen hd = UA_SECUREMH_AND_SYMALGH_LENGTH) by done.
  set (seqs := le_bytes 4 seq ++ le_bytes 4 req) in *.
  assert (Hseqs : zlen seqs = UA_SEQUENCE_HEADER_LENGTH) by done.
  assert (Hb : 0 < zlen body) by (destruct body; [done|]; rewrite zlen_cons; pose proof (zlen_nonneg body); lia).
  assert (Hrest : zlen rest = zlen (seqs ++ body ++ chunk_padding body ++ sg)).
  { rewrite zlen_app in Hlen; rewrite !zlen_app; unfold chunk_total, UA_SECURE_MESSAGE_HEADER_LENGTH,
      UA_SECUREMH_AND_SYMALGH_LENGTH, UA_SEQUENCE_HEADER_LENGTH in *; lia. }
  unfold decryptChunk; rewrite (decrypt_chunk_frame hd rest _ Hhd Hd Hrest); cbn [bad negb Z.eqb GOOD].
  replace (zlen (hd ++ rest)) with (zlen ((hd ++ seqs ++ body) ++ chunk_padding body ++ sg))
    by (rewrite !zlen_app, Hrest, !zlen_app; lia).
  replace (hd ++ seqs ++ body ++ chunk_padding body ++ sg)
    with ((hd ++ seqs ++ body) ++ chunk_padding body ++ sg) by (by rewrite <- !app_assoc).
  destruct (verify_chunk_frame (hd ++ seqs ++ body) body sg) as (p & -> & ->); [done| | |].
  { rewrite !zlen_app; unfold UA_SEQUENCE_HEADER_LENGTH in *; lia. }
  { intros Es; rewrite <- !app_assoc; exact (Hv Es). }
  cbn [bad negb Z.eqb GOOD]; rewrite <- Hhd.
  replace ((hd ++ seqs ++ body) ++ chunk_padding body ++ sg)
    with (hd ++ seqs ++ body ++ chunk_padding body ++ sg) by (by rewrite <- !app_assoc).
  unfold seqs at 1; rewrite decode_sequenceHeader_frame by done; cbn [bad negb Z.eqb GOOD].
  rewrite !zlen_app, Hseqs; repeat (destr_if; zbool; [lia|]).
  f_equal; rewrite <- Hseqs, <- zlen_app.
  replace (_ - _ - _ - _) with (zlen body) by (rewrite zlen_app; lia).
  by rewrite (app_assoc hd seqs), slice_middle.
Qed.
End Receiver.
End Chunk.

(** ** Delivering messages

    A list of frames as the sender produces them, with consecutive sequence
    numbers and the last one marked final, makes the receiver call its
    callback exactly once, with the concatenation of the bodies. *)

Definition chunk_type (final : bool) : Z :=
  if final then UA_CHUNKTYPE_FINAL else UA_CHUNKTYPE_INTERMEDIATE.

Section Deliver.
Context {TE : TypeEnv} {TT : TransportEnv TE} {C App : Type}.
Context (ps pr : UA_SecurityPolicy C) (a b : C).
Variable calloc_ok : nat -> Z -> bool.
Variable alloc_ok : Z -> bool.
Variable callback : App -> UA_SecureChannel C -> Z -> Z -> list Z ->
  status * App * UA_SecureChannel C.
Hypothesis Halloc : forall n s, calloc_ok n s = true.
Hypothesis Halloc_ch : forall n, alloc_ok n = true.
Hypothesis Hpair : sym_pair ps pr a b.
Variables mode messageType chId token requestId : Z.
Hypothesis Htype : symmetric_type messageType.
Hypothesis Hid : 0 <= chId < 2 ^ 32.
Hypothesis Htoken : 0 <= token < 2 ^ 32.
Hypothesis Hreq : 0 <= requestId < 2 ^ 32.

(** The receiving channel belongs to the sender. *)
Definition peer_ok (ch : UA_SecureChannel C) : Prop :=
  securityMode ch = mode /\ channelContext ch = b /\
  channelId (securityToken ch) = chId /\ tokenId (securityToken ch) = token.

(** The frame with sequence number [seq]. *)
Definition sym_frame (final : bool) (seq : Z) (body message : list Z) : Prop :=
  body <> [] /\ chunk_total ps a mode body < 2 ^ 32 /\
  frame_of ps a mode (u32 (messageType + chunk_type final)) chId token seq requestId body message.

Lemma message_type_bits final :
  u32 (messageType + chunk_type final) = messageType + chunk_type final /\
  Z.land (messageType + chunk_type final) UA_BITMASK_MESSAGETYPE = messageType /\
  Z.land (messageType + chunk_type final) UA_BITMASK_CHUNKTYPE = chunk_type final.
Proof. destruct Htype as [-> | ->], final; done. Qed.

Lemma decode_messageHeader_frame typ size rest :
  0 <= typ < 2 ^ 32 -> 0 <= size < 2 ^ 32 ->
  decode_messageHeader calloc_ok (header_bytes typ size chId ++ rest) =
  (GOOD, typ, size, chId, UA_SECURE_CONVERSATION_MESSAGE_HEADER_LENGTH).
Proof.
  intros Ht Hs; unfold decode_messageHeader.
  rewrite <- secureConversationMessageHeader_bytes.
  pose proof (decode_buf calloc_ok (secureConversationMessageHeader typ size chId)
    SecureConversationMessageHeader [] rest Halloc) as E; rewrite app_nil_l in E.
  change (zlen (@nil Z)) with 0 in E.
  rewrite E by auto using secureConversationMessageHeader_wf.
  by rewrite secureConversationMessageHeader_bytes.
Qed.

Lemma decode_symHeader_frame pre rest :
  decode_symHeader calloc_ok (pre ++ le_bytes 4 token ++ rest) (zlen pre) =
  (GOOD, token, zlen pre + 4).
Proof.
  unfold decode_symHeader; rewrite <- symmetricSecurityHeader_bytes.
  rewrite decode_buf by auto using symmetricSecurityHeader_wf.
  by rewrite symmetricSecurityHeader_bytes.
Qed.

(** *** One frame *)

Lemma processChunk_frame app ch final seq body message :
  peer_ok ch -> sym_frame final seq body message ->
  seq = u32 (receiveSequenceNumber ch + 1) ->
  UA_SecureChannel_processChunk pr calloc_ok alloc_ok callback app ch message =
  processPayload alloc_ok callback app (set_receiveSeq ch seq) messageType (chunk_type final)
    requestId body.
Proof.
  intros (Hm & Hc & Hi & Ht) (Hne & Hbig & Hf) Hseq.
  pose proof (u32_range (receiveSequenceNumber ch + 1)) as Hs; rewrite <- Hseq in Hs.
  destruct (frame_cases ps pr a b Hpair mode _ _ _ _ _ _ _ Hf) as (sg & _ & _ & Hlen & rest & Emsg & _).
  pose proof (decryptChunk_frame ps pr a b calloc_ok Halloc Hpair mode ch Hm Hc messageType Htype
    _ _ _ _ _ _ _ Hf Hne Hs Hreq) as Hdec.
  unfold UA_SecureChannel_processChunk; destruct (message_type_bits final) as (Eu & Emt & Ect).
  pose proof (u32_range (messageType + chunk_type final)) as Hu.
  assert (Htot : 0 <= chunk_total ps a mode body) by (rewrite <- Hlen; apply zlen_nonneg).
  assert (Emsg' : message = header_bytes (u32 (messageType + chunk_type final))
    (chunk_total ps a mode body) chId ++ le_bytes 4 token ++ rest)
    by (rewrite Emsg; by rewrite <- app_assoc).
  rewrite Emsg' at 1; rewrite decode_messageHeader_frame by (done || lia).
  rewrite Hi, Z.eqb_refl, Eu, Emt, Ect; cbn [bad negb andb Z.eqb GOOD].
  replace (messageType =? UA_MESSAGETYPE_ERR) with false by (by destruct Htype as [-> | ->]).
  unfold processSecurityHeader.
  replace ((messageType =? UA_MESSAGETYPE_MSG) || (messageType =? UA_MESSAGETYPE_CLO)) with true
    by (by destruct Htype as [-> | ->]).
  rewrite Emsg' at 1.
  change UA_SECURE_CONVERSATION_MESSAGE_HEADER_LENGTH with
    (zlen (header_bytes (u32 (messageType + chunk_type final)) (chunk_total ps a mode body) chId)).
  rewrite decode_symHeader_frame; unfold checkSymHeader; rewrite Ht, Z.eqb_refl.
  cbn [bad negb Z.eqb GOOD].
  change (zlen (header_bytes _ _ _) + 4) with UA_SECUREMH_AND_SYMALGH_LENGTH.
  rewrite Hdec; cbn [bad negb Z.eqb GOOD].
  unfold processSequenceNumberSym; rewrite Hseq, Z.eqb_refl; done.
Qed.

(** *** Many frames *)

(** The sequence number after [n] chunks. *)
Definition advance (n : nat) (seq : Z) : Z := Nat.iter n (fun s => u32 (s + 1)) seq.

Lemma advance_S n seq : advance n (u32 (seq + 1)) = advance (S n) seq.
Proof. unfold advance; by rewrite Nat.iter_succ_r. Qed.

(** Intermediate frames, numbered from the one behind [seq]. *)
Fixpoint intermediates (seq : Z) (bodies messages : list (list Z)) : Prop :=
  match bodies, messages with
  | [], [] => True
  | body :: bodies, message :: messages =>
      sym_frame false (u32 (seq + 1)) body message /\
      intermediates (u32 (seq + 1)) bodies messages
  | _, _ => False
  end.

Lemma intermediates_snoc bodies : forall seq messages body message,
  intermediates seq bodies messages ->
  sym_frame false (advance (S (length bodies)) seq) body message ->
  intermediates seq (bodies ++ [body]) (messages ++ [message]).
Proof.
  induction bodies as [|b0 bodies IH]; intros seq [|m0 messages] body message Hi Hf; simpl in *;
    try done.
  destruct Hi as [H0 Hi]; split; [done|]; apply IH; [done|].
  rewrite advance_S; exact Hf.
Qed.

(** The channel after receiving up to [seq], with the chunk entries [l]. *)
Definition received (ch : UA_SecureChannel C) (seq : Z) (l : list ChunkEntry) :=
  set_chunks (set_receiveSeq ch seq) l.

Lemma received_twice ch s l s' l' : received (received ch s l) s' l' = received ch s' l'.
Proof. done. Qed.

(** The entry of the message that is being assembled. *)
Definition pending (acc : option (list Z)) (l : list ChunkEntry) : list ChunkEntry :=
  match acc with Some bytes => mkChunkEntry requestId bytes :: l | None => l end.

Lemma find_pending acc l : find_entry requestId l = None ->
  find_entry requestId (pending acc l) =
  match acc with Some bytes => Some (mkChunkEntry requestId bytes) | None => None end.
Proof. intros Hl; destruct acc; [|done]; unfold find_entry; simpl; by rewrite Z.eqb_refl. Qed.

Lemma intermediate_received app ch acc l body message :
  peer_ok ch -> chunks ch = pending acc l -> find_entry requestId l = None ->
  sym_frame false (u32 (receiveSequenceNumber ch + 1)) body message ->
  UA_SecureChannel_processChunk pr calloc_ok alloc_ok callback app ch message =
  (GOOD, app, received ch (u32 (receiveSequenceNumber ch + 1))
                (pending (Some (default [] acc ++ body)) l)).
Proof.
  intros Hp Hc Hl Hf; rewrite (processChunk_frame app ch false _ body) by done.
  unfold processPayload; cbn [chunk_type Z.eqb UA_CHUNKTYPE_FINAL UA_CHUNKTYPE_INTERMEDIATE].
  unfold UA_SecureChannel_appendChunk, appendChunk; cbn [set_receiveSeq chunks].
  rewrite Hc, find_pending, ?Halloc_ch by done.
  destruct acc; simpl; [by rewrite Halloc_ch, Z.eqb_refl|done].
Qed.

Lemma final_received app ch acc l body message :
  peer_ok ch -> chunks ch = pending acc l -> find_entry requestId l = None ->
  sym_frame true (u32 (receiveSequenceNumber ch + 1)) body message ->
  UA_SecureChannel_processChunk pr calloc_ok alloc_ok callback app ch message =
  callback app (received ch (u32 (receiveSequenceNumber ch + 1)) l) messageType requestId
    (default [] acc ++ body).
Proof.
  intros Hp Hc Hl Hf; rewrite (processChunk_frame app ch true _ body) by done.
  unfold processPayload; cbn [chunk_type Z.eqb UA_CHUNKTYPE_FINAL].
  unfold UA_SecureChannel_finalizeChunk, appendChunk; cbn [set_receiveSeq chunks].
  rewrite Hc, find_pending by done.
  destruct acc; cbn [default List.app ce_bytes]; rewrite ?Halloc_ch.
  - cbn [bad negb Z.eqb GOOD ce_bytes]; unfold UA_SecureChannel_removeChunks; cbn [set_receiveSeq chunks].
    rewrite Hc; cbn [pending remove_entry ce_requestId]; by rewrite Z.eqb_refl.
  - unfold received; f_equal; simpl in Hc; rewrite <- Hc; by destruct ch.
Qed.

Lemma frames_received app bodies : forall messages ch acc l body message,
  peer_ok ch -> chunks ch = pending acc l -> find_entry requestId l = None ->
  intermediates (receiveSequenceNumber ch) bodies messages ->
  sym_frame true (advance (S (length bodies)) (receiveSequenceNumber ch)) body message ->
  process_all pr calloc_ok alloc_ok callback app ch (messages ++ [message]) =
  callback app (received ch (advance (S (length bodies)) (receiveSequenceNumber ch)) l)
    messageType requestId (default [] acc ++ concat bodies ++ body).
Proof.
  induction bodies as [|b0 bodies IH]; intros [|m0 messages] ch acc l body message Hp Hc Hl Hi Hf;
    try done; cbn [process_all List.app concat].
  - rewrite (final_received app ch acc l body) by done.
    destruct (callback _ _ _ _ _) as [[s app'] ch'] eqn:E; destruct (bad s) eqn:Eb; [done|].
    by apply bad_false in Eb as ->.
  - destruct Hi as [H0 Hi]; rewrite (intermediate_received app ch acc l b0) by done.
    cbn [bad negb Z.eqb GOOD].
    rewrite (IH messages _ (Some (default [] acc ++ b0)) l body message); try done.
    + cbn [received set_receiveSeq set_chunks receiveSequenceNumber].
      rewrite advance_S, received_twice; cbn [default]. unfold id; by rewrite <- !app_assoc.
    + cbn [received set_receiveSeq set_chunks receiveSequenceNumber]; by rewrite advance_S.
Qed.
End Deliver.
