(* ===== verification/SecureChannelSend.v ===== *)
(** * Sending messages in chunks

    The encoder's exchange callback of a secure channel sends the buffer as a
    frame and provides a new one.  This file shows that it satisfies the
    contract of [EncodeLogic], and what [UA_SecureChannel_sendSymmetricMessage]
    has put on the wire when it returns [GOOD]. *)

From Stdlib Require Import ZArith Lia.
From stdpp Require Import base list numbers tactics sets.
From S2P Require Import Prelude UaTypes UaValue BinarySize BinaryEncode BinaryDecode BinarySpec EncodeLogic BinaryEncodeCorrect Codec FieldCodec Connection SecureChannel SecureChannelWire.

(** The network layer: [log] are the messages that were sent.  Sending takes
    the message over or fails; getting a buffer sends nothing. *)
Record net_laws {N} (getSendBuffer : N -> Z -> status * N) (send : N -> list Z -> status * N)
    (log : N -> list (list Z)) : Prop := mkNetLaws {
  nl_get : forall n k, log (snd (getSendBuffer n k)) = log n /\
    (fst (getSendBuffer n k) = GOOD \/ hard False (fst (getSendBuffer n k)));
  nl_send : forall n m,
    (fst (send n m) = GOOD /\ log (snd (send n m)) = log n ++ [m]) \/
    hard False (fst (send n m))
}.

Section Send.
Context {TE : TypeEnv} {TT : TransportEnv TE} {C N : Type}.
Context (ps pr : UA_SecurityPolicy C) (b : C) (chR : UA_SecureChannel C).
Variable calloc_ok : nat -> Z -> bool.
Hypothesis Halloc : forall n s, calloc_ok n s = true.
Variable getSendBuffer : N -> Z -> status * N.
Variable send : N -> list Z -> status * N.
Variable releaseSendBuffer : N -> N.
Variable log : N -> list (list Z).
Hypothesis Hnet : net_laws getSendBuffer send log.

(** The sending channel, at the start of the message. *)
Variable ch0 : UA_SecureChannel C.
Variable conn : UA_Connection.
Hypothesis Hconn : connection ch0 = Some conn.
Variables requestId messageType : Z.
Hypothesis Htype : symmetric_type messageType.
Hypothesis Hreq : 0 <= requestId < 2 ^ 32.
Abbreviation a := (channelContext ch0).
Abbreviation mode := (securityMode ch0).
Abbreviation size := (sendBufferSize (localConf conn)).
Abbreviation chId := (channelId (securityToken ch0)).
Abbreviation token := (tokenId (securityToken ch0)).
Abbreviation bs := (getLocalBlockSize (symCrypto ps) a).
Hypothesis Hid : 0 <= chId < 2 ^ 32.
Hypothesis Htoken : 0 <= token < 2 ^ 32.
Hypothesis Hpair : sym_pair ps pr a b.
Hypothesis HchR : securityMode chR = mode.
Hypothesis HctxR : channelContext chR = b.
(** Whole blocks fit behind the headers that are not encrypted. *)
Hypothesis Hblocks : is_encrypted mode = true -> (size - UA_SECUREMH_AND_SYMALGH_LENGTH) mod bs = 0.
Hypothesis Hsize : size < 2 ^ 32.

(** Bytes of payload that fit into a chunk. *)
Definition full : Z :=
  size - UA_SECURE_MESSAGE_HEADER_LENGTH - sig_len ps a mode - (if is_encrypted mode then 2 else 0).

Abbreviation context := (UA_MessageContext (C := C) (N := N)).
Abbreviation send_chunk := (sendSymmetricChunk ps send releaseSendBuffer).
Abbreviation frame := (sym_frame ps a mode messageType chId token requestId).
Abbreviation frames := (intermediates ps a mode messageType chId token requestId).

Lemma sig_len_nonneg : 0 <= sig_len ps a mode.
Proof. unfold sig_len; destruct (is_signed mode); [apply Hpair|done]. Qed.

(** Padding never runs past the end of the buffer. *)
Lemma total_fits body : zlen body <= full -> chunk_total ps a mode body <= size.
Proof.
  unfold full, chunk_total, chunk_padding; intros Hb.
  destruct (is_encrypted mode) eqn:Ee; [|change (zlen (@nil Z)) with 0; lia].
  pose proof (sp_block _ _ _ _ Hpair) as Hbs; specialize (Hblocks eq_refl).
  rewrite zlen_sym_padding by done; unfold pad, sig_len in *.
  rewrite (encrypted_signed mode Ee) in *.
  set (sg := getLocalSignatureSize (symCrypto ps) a) in *.
  set (x := zlen body + UA_SEQUENCE_HEADER_LENGTH + sg + 1).
  unfold UA_SECURE_MESSAGE_HEADER_LENGTH, UA_SECUREMH_AND_SYMALGH_LENGTH, UA_SEQUENCE_HEADER_LENGTH in *.
  pose proof (Z.div_mod x bs ltac:(lia)); pose proof (Z.mod_pos_bound x bs ltac:(lia)).
  apply Z.mod_divide in Hblocks as [k Hk]; [|lia].
  assert (x / bs < k) by (apply Z.div_lt_upper_bound; [lia|]; unfold x; lia).
  unfold x in *; nia.
Qed.

(** ** One chunk *)

Lemma chunk_headers_ok (mc : context) seq final :
  mc_channel mc = set_sendSeq ch0 seq -> mc_requestId mc = requestId ->
  mc_messageType mc = messageType -> mc_final mc = final ->
  UA_SECURE_MESSAGE_HEADER_LENGTH <= mc_end mc -> forall total s,
  0 <= total < 2 ^ 32 -> 0 <= s < 2 ^ 32 ->
  chunk_headers mc total s =
  (GOOD, header_bytes (u32 (messageType + chunk_type final)) total chId ++ le_bytes 4 token
         ++ le_bytes 4 s ++ le_bytes 4 requestId).
Proof.
  intros Hc Hr Hm Hf He total s Ht Hs; unfold chunk_headers; rewrite Hc, Hr, Hm, Hf.
  change (if final then UA_CHUNKTYPE_FINAL else UA_CHUNKTYPE_INTERMEDIATE) with (chunk_type final).
  unfold UA_SECURE_MESSAGE_HEADER_LENGTH in He; cbn [set_sendSeq securityToken].
  rewrite (u32_small total) by done; pose proof (u32_range (messageType + chunk_type final)).
  rewrite encode_buf; [|by apply secureConversationMessageHeader_wf|];
    rewrite secureConversationMessageHeader_bytes; [|change (zlen (header_bytes _ _ _)) with 12; lia].
  change (zlen (header_bytes _ _ _)) with 12.
  rewrite encode_buf; [|by apply symmetricSecurityHeader_wf|];
    rewrite symmetricSecurityHeader_bytes, zlen_le_bytes; [|lia].
  rewrite encode_buf; [|by apply sequenceHeader_wf|];
    rewrite sequenceHeader_bytes; [|rewrite zlen_app, !zlen_le_bytes; lia].
  by rewrite app_nil_l, <- !app_assoc.
Qed.

Lemma protect_error plain : fst (protect ps mode a plain) = GOOD \/
  hard False (fst (protect ps mode a plain)).
Proof.
  unfold protect.
  assert (H1 : forall r sg, (if is_signed mode then sign (symCrypto ps) a plain else (GOOD, [])) = (r, sg) ->
    r = GOOD \/ hard False r).
  { intros r sg E; destruct (is_signed mode); [|injection E as <-; by left].
    pose proof (sp_sign_error _ _ _ _ Hpair plain) as He; by rewrite E in He. }
  destruct (if is_signed mode then _ else _) as [r1 sg]; specialize (H1 r1 sg eq_refl).
  destruct (is_encrypted mode); [|done].
  destruct (encrypt _ _ _) as [r2 c] eqn:E2; simpl.
  pose proof (sp_encrypt_error _ _ _ _ Hpair (drop (Z.to_nat UA_SECUREMH_AND_SYMALGH_LENGTH) (plain ++ sg))) as He.
  rewrite E2 in He; simpl in He; destruct H1 as [-> |H1].
  - by rewrite lor_good_l.
  - right; apply hard_lor_l; [done|]; destruct He as [-> |He]; [by right|by apply hard_nonneg].
Qed.

(** A chunk is sent as a frame, or an error is reported and the buffer is gone. *)
Lemma send_chunk_spec (mc : context) seq final :
  mc_channel mc = set_sendSeq ch0 seq -> mc_requestId mc = requestId ->
  mc_messageType mc = messageType -> mc_final mc = final ->
  UA_SECURE_MESSAGE_HEADER_LENGTH <= mc_end mc -> mc_length mc = size ->
  0 < zlen (mc_body mc) <= full ->
  let '(s, mc') := send_chunk mc in
  mc_length mc' = 0 /\ (exists seq', mc_channel mc' = set_sendSeq ch0 seq') /\
  ((s = GOOD /\ mc_channel mc' = set_sendSeq ch0 (u32 (seq + 1)) /\
    mc_requestId mc' = requestId /\ mc_messageType mc' = messageType /\ mc_final mc' = final /\
    exists message, frame final (u32 (seq + 1)) (mc_body mc) message /\
      log (mc_net mc') = log (mc_net mc) ++ [message]) \/
   hard False s).
Proof.
  intros Hc Hr Hm Hf He Hl Hb; unfold sendSymmetricChunk.
  rewrite Hc; cbn [set_sendSeq connection securityMode channelContext sendSequenceNumber]; rewrite Hconn.
  destruct (exceeds_limits conn (mc_count mc (zlen (mc_body mc)))).
  { split; [done|]; split; [by exists seq|]; right; apply hard_responsetoolarge. }
  pose proof (total_fits (mc_body mc) ltac:(lia)) as Hfit.
  fold (chunk_padding ps a mode (mc_body mc)).
  assert (Etot : UA_SECURE_MESSAGE_HEADER_LENGTH + zlen (mc_body mc)
    + zlen (chunk_padding ps a mode (mc_body mc))
    + (if is_signed mode then getLocalSignatureSize (symCrypto ps) a else 0)
    = chunk_total ps a mode (mc_body mc)) by done.
  rewrite Etot; pose proof sig_len_nonneg.
  assert (Hpos : 0 <= chunk_total ps a mode (mc_body mc))
    by (unfold chunk_total, UA_SECURE_MESSAGE_HEADER_LENGTH;
        pose proof (zlen_nonneg (chunk_padding ps a mode (mc_body mc))); lia).
  replace (mc_length (mc_count mc (zlen (mc_body mc))) <? _) with false
    by (symmetry; apply Z.ltb_ge; simpl; lia).
  pose proof (u32_range (seq + 1)) as Hseq.
  rewrite (chunk_headers_ok (mc_count mc _) seq final Hc Hr Hm Hf He) by lia.
  cbn [mc_count mc_set_channel mc_body].
  set (plain := (header_bytes _ _ _ ++ _) ++ _ ++ _).
  assert (Epl : plain = plain_chunk ps a mode (u32 (messageType + chunk_type final)) chId token
    (u32 (seq + 1)) requestId (mc_body mc)) by (unfold plain, plain_chunk; by rewrite <- !app_assoc).
  pose proof (protect_error plain) as Hp; destruct (protect ps mode a plain) as [r message] eqn:Epr.
  rewrite lor_good_l; simpl in Hp; destruct (bad r) eqn:Ebad.
  { apply bad_true in Ebad; split; [done|]; split; [by exists (u32 (seq + 1))|].
    right; by destruct Hp. }
  apply bad_false in Ebad as ->.
  pose proof (nl_send _ _ _ Hnet (mc_net mc) message) as Hs; simpl.
  destruct (send (mc_net mc) message) as [r net]; simpl in *.
  split; [done|]; split; [by exists (u32 (seq + 1))|].
  destruct Hs as [[-> Hlog]|Hs]; [left|by right]; do 5 (split; [done|]).
  exists message; split; [|done]; rewrite Epl in Epr; split; [|split; [lia|exact Epr]].
  intros E; rewrite E in Hb; change (zlen (@nil Z)) with 0 in Hb; lia.
Qed.

(** The buffer of a failed exchange is gone: sending again runs into it. *)
Lemma send_chunk_dead (mc : context) seq :
  mc_channel mc = set_sendSeq ch0 seq -> mc_length mc = 0 ->
  let '(s, mc') := send_chunk mc in
  mc_length mc' = 0 /\ (exists seq', mc_channel mc' = set_sendSeq ch0 seq') /\ hard True s.
Proof.
  intros Hc Hl; unfold sendSymmetricChunk.
  rewrite Hc; cbn [set_sendSeq connection securityMode channelContext sendSequenceNumber]; rewrite Hconn.
  destruct (exceeds_limits conn (mc_count mc (zlen (mc_body mc)))).
  { split; [done|]; split; [by exists seq|]; apply hard_responsetoolarge. }
  fold (chunk_padding ps a mode (mc_body mc)).
  pose proof (zlen_nonneg (chunk_padding ps a mode (mc_body mc))).
  pose proof (zlen_nonneg (mc_body mc)); pose proof sig_len_nonneg as Hsg; unfold sig_len in Hsg.
  destr_if; zbool; simpl in *.
  - split; [done|]; split; [by exists seq|]; split; [by left|vm_compute; congruence].
  - unfold UA_SECURE_MESSAGE_HEADER_LENGTH in *; lia.
Qed.

(** ** The exchange callback *)

Section Exchange.
(** What the network had sent before this message. *)
Variable base : list (list Z).

(** The frames [messages] with the given bodies were sent; the buffer is held. *)
Record live (mc : context) (bodies messages : list (list Z)) : Prop := mkLive {
  lv_channel : mc_channel mc =
    set_sendSeq ch0 (advance (length bodies) (sendSequenceNumber ch0));
  lv_request : mc_requestId mc = requestId;
  lv_type : mc_messageType mc = messageType;
  lv_final : mc_final mc = false;
  lv_length : mc_length mc = size;
  lv_log : log (mc_net mc) = base ++ messages;
  lv_frames : frames (sendSequenceNumber ch0) bodies messages
}.

Definition dead (mc : context) : Prop :=
  mc_length mc = 0 /\ exists seq, mc_channel mc = set_sendSeq ch0 seq.

Definition context_inv (mc : context) (n : Z) : Prop :=
  dead mc \/ (zlen (mc_body mc) + n = full /\ exists bodies messages, live mc bodies messages).

(** The payload that the peer reads from a frame. *)
Definition payload_of (message : list Z) : list Z :=
  snd (decryptChunk calloc_ok chR (symCrypto pr) message UA_SECUREMH_AND_SYMALGH_LENGTH messageType).

Lemma payloads bodies : forall seq messages, frames seq bodies messages ->
  map payload_of messages = bodies.
Proof.
  induction bodies as [|body bodies IH]; intros seq [|m messages] Hf; simpl in *; try done.
  destruct Hf as [(Hne & _ & Hfr) Hf]; f_equal; [|by eapply IH].
  unfold payload_of; rewrite (decryptChunk_frame ps pr a b calloc_ok Halloc Hpair mode chR HchR HctxR
    messageType Htype _ _ _ _ _ _ _ Hfr Hne (u32_range _) Hreq); done.
Qed.

(** The bytes taken over so far; [mark] stands for a lost buffer. *)
Definition sent_bytes (mark : Z) (mc : context) : list Z :=
  if mc_length mc =? 0 then [mark]
  else concat (map payload_of (drop (length base) (log (mc_net mc)))) ++ mc_body mc.

Hypothesis Hfull : 0 < full.

Lemma size_pos : 0 < size.
Proof.
  pose proof sig_len_nonneg; unfold full, UA_SECURE_MESSAGE_HEADER_LENGTH in Hfull.
  destruct (is_encrypted mode); lia.
Qed.

Lemma sent_live mark mc bodies messages :
  live mc bodies messages -> sent_bytes mark mc = concat bodies ++ mc_body mc.
Proof.
  intros []; unfold sent_bytes; pose proof size_pos.
  rewrite lv_length0, lv_log0, drop_app_length, (payloads bodies (sendSequenceNumber ch0)) by done.
  replace (size =? 0) with false by (symmetry; apply Z.eqb_neq; lia); done.
Qed.

Abbreviation exchange := (sendSymmetricEncodingCallback ps getSendBuffer send releaseSendBuffer).

Lemma setBufPos_end (mc : context) seq : mc_channel mc = set_sendSeq ch0 seq -> mc_length mc = size ->
  mc_end (setBufPos ps mc) = UA_SECURE_MESSAGE_HEADER_LENGTH + full.
Proof.
  intros Hc Hl; unfold setBufPos; rewrite Hc; simpl; rewrite Hl; unfold full, sig_len.
  destruct (is_signed mode), (is_encrypted mode); lia.
Qed.

Lemma exchange_live mark mc o r bodies messages :
  0 <= r < full -> zlen (mc_body mc) + (zlen o + r) = full -> live mc bodies messages ->
  let '(s, mc', fresh) := exchange mc o r in
  match fresh with Some r' => 0 <= r' /\ context_inv mc' r' | None => dead mc' end /\
  ((s = GOOD /\ exists r', fresh = Some r' /\ full <= r' /\
    sent_bytes mark mc' = sent_bytes mark mc ++ o) \/ hard True s).
Proof.
  intros Hr Hsum Hlive; destruct (Hlive); unfold sendSymmetricEncodingCallback.
  set (mc1 := mc_set_buf mc _ _).
  pose proof (send_chunk_spec mc1 (advance (length bodies) (sendSequenceNumber ch0)) false) as Hsend.
  assert (Hbody : zlen (mc_body mc ++ o) = full - r) by (rewrite zlen_app; lia).
  specialize (Hsend lv_channel0 lv_request0 lv_type0 lv_final0).
  assert (He1 : UA_SECURE_MESSAGE_HEADER_LENGTH <= mc_end mc1)
    by (unfold mc1; cbn [mc_set_buf mc_end]; lia).
  specialize (Hsend He1 lv_length0); assert (Hb1 : 0 < zlen (mc_body mc1) <= full)
    by (unfold mc1; cbn [mc_set_buf mc_body]; lia).
  specialize (Hsend Hb1).
  destruct (send_chunk mc1) as [s mc2]; destruct Hsend as (Hl & [seq' Hc] & Hs).
  destruct (bad s) eqn:Ebad.
  { apply bad_true in Ebad; split; [by split; [|exists seq']|].
    right; destruct Hs as [[? _]|Hs]; [done|]; by eapply hard_weaken. }
  apply bad_false in Ebad as ->; destruct Hs as [(_ & Hc2 & Hr2 & Ht2 & Hf2 & m & Hfr & Hlog)|Hs];
    [|by destruct (hard_not_good _ _ Hs)].
  rewrite Hc; cbn [set_sendSeq connection]; rewrite Hconn.
  destruct (nl_get _ _ _ Hnet (mc_net mc2) size) as [Hg1 Hg2].
  destruct (getSendBuffer (mc_net mc2) size) as [s net]; simpl in Hg1, Hg2.
  destruct (bad s) eqn:Ebad.
  { apply bad_true in Ebad; split; [by split; [|exists seq']|].
    right; destruct Hg2 as [|Hs]; [done|]; by eapply hard_weaken. }
  apply bad_false in Ebad as ->.
  set (mc3 := setBufPos ps (mc_set_net mc2 net size)).
  assert (Hend : mc_end mc3 = UA_SECURE_MESSAGE_HEADER_LENGTH + full)
    by (by apply (setBufPos_end _ seq')).
  assert (Hlive3 : live mc3 (bodies ++ [mc_body mc ++ o]) (messages ++ [m])).
  { split; try done; simpl.
    - rewrite Hc2, length_app, Nat.add_1_r; done.
    - rewrite Hg1, Hlog; unfold mc1; simpl; rewrite lv_log0; by rewrite app_assoc.
    - apply intermediates_snoc; done. }
  replace (mc_end mc3 - UA_SECURE_MESSAGE_HEADER_LENGTH) with full by lia.
  split; [split; [lia|]; right; split; [done|by eauto]|].
  left; split; [done|]; exists full; split; [done|]; split; [done|].
  rewrite (sent_live mark mc3 _ _ Hlive3), (sent_live mark mc _ _ Hlive).
  rewrite concat_app; simpl; rewrite !app_nil_r; by rewrite app_assoc.
Qed.

Lemma exchange_dead mc o r : dead mc ->
  let '(s, mc', fresh) := exchange mc o r in fresh = None /\ dead mc' /\ hard True s.
Proof.
  intros [Hl [seq Hc]]; unfold sendSymmetricEncodingCallback; set (mc1 := mc_set_buf mc _ _).
  pose proof (send_chunk_dead mc1 seq Hc Hl) as Hd; destruct (send_chunk mc1) as [s mc2].
  destruct Hd as (Hl2 & Hc2 & Hs); rewrite (hard_bad _ _ Hs); done.
Qed.

(** The callback meets the contract of the encoder. *)
Lemma exchange_ok mark : callback_ok True (sent_bytes mark) context_inv (Some exchange) full.
Proof.
  intros mc o r Hr [Hd|(Hsum & bodies & messages & Hlive)].
  - pose proof (exchange_dead mc o r Hd) as He.
    destruct (exchange mc o r) as [[s mc'] fresh]; destruct He as (-> & Hd' & Hs).
    split; [by left|by right].
  - pose proof (exchange_live mark mc o r bodies messages Hr Hsum Hlive) as He.
    destruct (exchange mc o r) as [[s mc'] [r'|]]; destruct He as (Hi & Hs); split; try done.
    by left.
Qed.

(** ** Encoding a value into the message *)

Hypothesis Hatom : MAX_ATOM <= full.

Record ready (mc : context) (bodies messages : list (list Z)) : Prop := mkReady {
  rd_live : live mc bodies messages;
  rd_end : mc_end mc = UA_SECURE_MESSAGE_HEADER_LENGTH + full;
  rd_body : zlen (mc_body mc) <= full
}.

Definition encodable (v : UA_Value) (t : UA_DataType) : Prop :=
  wf full v t /\ has_qname v = false /\
  nest_internal t (nest v t) <= UA_ENCODING_MAX_RECURSION + 1.

(** [GOOD] excludes that the buffer was lost. *)
Lemma encode_alive v t mc room0 :
  encodable v t -> 0 <= room0 -> context_inv mc room0 -> mc_length mc <> 0 ->
  fst (UA_encodeBinary (Some exchange) v t mc room0) = GOOD ->
  mc_length (handle (snd (UA_encodeBinary (Some exchange) v t mc room0))) <> 0.
Proof.
  intros (Hw & Hq & Hn) Hr Hi Hm Hg Hz.
  assert (Ht : forall mark, [mark] ++ out (snd (UA_encodeBinary (Some exchange) v t mc room0)) =
    sent_bytes 0 mc ++ bytes_of v t).
  { intros mark.
    destruct (UA_encodeBinary_outcome True (sent_bytes mark) context_inv (Some exchange) full v t mc room0)
      as [_ O]; auto using exchange_ok.
    destruct O as [_ W|Hs _ _ _|Hs _]; [|rewrite Hg in Hs; discriminate Hs|by destruct (hard_not_good _ _ Hs)].
    pose proof (w_total _ _ _ _ _ W) as T; unfold total in T; cbn [handle out] in T.
    assert (E : forall k, sent_bytes k mc = sent_bytes 0 mc)
      by (intros k; unfold sent_bytes; by rewrite (proj2 (Z.eqb_neq _ _) Hm)).
    unfold sent_bytes at 1 in T; rewrite Hz, app_nil_r, E in T; exact T. }
  pose proof (Ht 1) as H1; rewrite <- (Ht 2) in H1; discriminate H1.
Qed.

Lemma encode_spec v t mc bodies messages :
  ready mc bodies messages -> encodable v t ->
  let '(s, mc') := UA_MessageContext_encode ps getSendBuffer send releaseSendBuffer mc v t in
  s = GOOD -> exists bodies' messages', ready mc' bodies' messages' /\
    concat bodies' ++ mc_body mc' = (concat bodies ++ mc_body mc) ++ bytes_of v t /\
    (mc_body mc <> [] \/ bytes_of v t <> [] -> mc_body mc' <> []).
Proof.
  intros [Hlive Hend Hbody] Hv; unfold UA_MessageContext_encode.
  replace (mc_end mc - UA_SECURE_MESSAGE_HEADER_LENGTH - zlen (mc_body mc))
    with (full - zlen (mc_body mc)) by lia.
  set (room0 := full - zlen (mc_body mc)); assert (Hr : 0 <= room0) by lia.
  assert (Hi : context_inv mc room0) by (right; split; [lia|by eauto]).
  pose proof size_pos as Hsz; pose proof (lv_length _ _ _ Hlive) as Hlen.
  pose proof (encode_alive v t mc room0 Hv Hr Hi ltac:(lia)) as Ha.
  destruct Hv as (Hw & Hq & Hn).
  destruct (UA_encodeBinary_outcome True (sent_bytes 0) context_inv (Some exchange) full v t mc room0)
    as [F O]; auto using exchange_ok.
  destruct (UA_encodeBinary (Some exchange) v t mc room0) as [s c]; simpl in F, O, Ha.
  destruct (bad s) eqn:Ebad; [apply bad_true in Ebad; by intros ->|intros _].
  apply bad_false in Ebad as ->; specialize (Ha eq_refl).
  destruct O as [_ W|Hs _ _ _|Hs _]; [|discriminate Hs|by destruct (hard_not_good _ _ Hs)].
  destruct F as ([Hrc [[Hz _]|(Hsum & bodies' & messages' & Hlive')]] & _); [done|].
  pose proof (w_total _ _ _ _ _ W) as T; unfold total in T; cbn [handle out] in T.
  rewrite app_nil_r, (sent_live 0 _ _ _ Hlive), (sent_live 0 _ _ _ Hlive'), <- app_assoc in T.
  exists bodies', messages'; split; [split|split].
  - destruct Hlive'; by split.
  - cbn [mc_set_buf mc_end]; rewrite zlen_app; lia.
  - cbn [mc_set_buf mc_body]; rewrite zlen_app; lia.
  - exact T.
  - cbn [mc_set_buf mc_body]; intros Hne [E1 E2]%app_nil.
    destruct (decide (gen c = 0%nat)) as [Eg|Eg].
    + pose proof (writes_out _ _ _ _ _ W Eg) as Eo; destruct (w_same _ _ _ _ _ W Eg) as [Eh _].
      cbn [out handle] in Eo, Eh; rewrite Eh in E1; rewrite Eo in E2; tauto.
    + apply (w_out _ _ _ _ _ W); [simpl; lia|done].
Qed.
End Exchange.

(** ** Whole messages *)

Lemma set_sendSeq_id (ch : UA_SecureChannel C) : set_sendSeq ch (sendSequenceNumber ch) = ch.
Proof. by destruct ch. Qed.

Definition message_typeId (t : UA_DataType) : UA_Value :=
  VNodeId (mkNodeId 0 (NumericId (binaryEncodingId t))).

Hypothesis Hatom : MAX_ATOM <= full.

Lemma begin_spec net :
  let '(s, mc) := UA_MessageContext_begin ps getSendBuffer ch0 net requestId messageType in
  s = GOOD -> ready (log net) mc [] [] /\ mc_body mc = [].
Proof.
  unfold UA_MessageContext_begin; rewrite Hconn.
  destruct (negb _ && negb _); [done|]; destruct (size <=? _); [done|].
  destruct (nl_get _ _ _ Hnet net size) as [Hg1 Hg2].
  destruct (getSendBuffer net size) as [s net']; simpl in Hg1, Hg2.
  destruct (bad s) eqn:Ebad; [apply bad_true in Ebad; by intros ->|intros _]; split; [|done].
  assert (Hc : forall mc : context, mc_channel mc = ch0 ->
    mc_channel mc = set_sendSeq ch0 (sendSequenceNumber ch0)) by (by intros; rewrite set_sendSeq_id).
  split.
  - split; try done; [by apply Hc|]; simpl; by rewrite app_nil_r.
  - apply (setBufPos_end _ (sendSequenceNumber ch0)); [by apply Hc|done].
  - unfold MAX_ATOM in Hatom; simpl; change (zlen (@nil Z)) with 0; lia.
Qed.

Lemma typeId_encodable t : 0 <= binaryEncodingId t < 2 ^ 32 -> encodable (message_typeId t) UA_TYPES_NODEID.
Proof.
  intros Hb; unfold MAX_ATOM in Hatom; repeat split; try done; try (cbn; lia); vm_compute; congruence.
Qed.

Lemma typeId_bytes t : bytes_of (message_typeId t) UA_TYPES_NODEID <> [].
Proof. cbn; unfold bytes_nodeid; simpl; repeat destr_if; done. Qed.

(** What is on the wire when a message was sent. *)
Lemma message_sent net payload t :
  encodable payload t -> 0 <= binaryEncodingId t < 2 ^ 32 ->
  let '(s, mc) := UA_SecureChannel_sendSymmetricMessage ps getSendBuffer send releaseSendBuffer
                    ch0 net requestId messageType payload t in
  s = GOOD -> exists bodies messages body message,
    log (mc_net mc) = log net ++ messages ++ [message] /\
    frames (sendSequenceNumber ch0) bodies messages /\
    frame true (advance (S (length bodies)) (sendSequenceNumber ch0)) body message /\
    concat bodies ++ body = bytes_of (message_typeId t) UA_TYPES_NODEID ++ bytes_of payload t /\
    mc_channel mc = set_sendSeq ch0 (advance (S (length bodies)) (sendSequenceNumber ch0)).
Proof.
  intros Hp Hb; unfold UA_SecureChannel_sendSymmetricMessage; rewrite Hconn.
  assert (Hf : 0 < full) by (unfold MAX_ATOM in Hatom; lia).
  destruct (bool_decide _); [done|].
  pose proof (begin_spec net) as Hbegin.
  destruct (UA_MessageContext_begin _ _ _ _ _ _) as [s mc].
  destruct (bad s) eqn:E; [apply bad_true in E; by intros ->|apply bad_false in E].
  destruct (Hbegin E) as [Hrd Hbody]; clear Hbegin E s.
  pose proof (encode_spec (log net) Hf Hatom _ UA_TYPES_NODEID mc [] [] Hrd (typeId_encodable t Hb)) as He.
  unfold message_typeId in He at 1; destruct (UA_MessageContext_encode _ _ _ _ _ _ _) as [s mc1].
  destruct (bad s) eqn:E; [apply bad_true in E; by intros ->|apply bad_false in E].
  destruct (He E) as (bodies1 & messages1 & Hrd1 & Hb1 & Hne1); clear He E s.
  specialize (Hne1 (or_intror (typeId_bytes t))); rewrite Hbody in Hb1; simpl concat in Hb1.
  pose proof (encode_spec (log net) Hf Hatom _ t mc1 _ _ Hrd1 Hp) as He.
  destruct (UA_MessageContext_encode _ _ _ _ _ _ _) as [s mc2].
  destruct (bad s) eqn:E; [apply bad_true in E; by intros ->|apply bad_false in E].
  destruct (He E) as (bodies & messages & [Hlive Hend Hlen] & Hb2 & Hne2); clear He E s.
  specialize (Hne2 (or_introl Hne1)); destruct Hlive.
  unfold UA_MessageContext_finish.
  pose proof (send_chunk_spec (mc_set_final mc2) _ true lv_channel0 lv_request0 lv_type0 eq_refl) as Hs.
  assert (Hpos : 0 < zlen (mc_body mc2)).
  { destruct (mc_body mc2) as [|x l]; [done|]; rewrite zlen_cons; pose proof (zlen_nonneg l); lia. }
  cbn [mc_set_final mc_end mc_length mc_body mc_net] in Hs.
  specialize (Hs ltac:(lia) lv_length0 ltac:(lia)).
  destruct (send_chunk (mc_set_final mc2)) as [s mc3]; intros ->.
  destruct Hs as (_ & _ & [(_ & Hc & _ & _ & _ & m & Hfr & Hlog)|Hs]); [|by destruct (hard_not_good _ _ Hs)].
  exists bodies, messages, (mc_body mc2), m; split; [by rewrite Hlog, lv_log0, app_assoc|].
  split; [done|]; split; [exact Hfr|]; split; [|exact Hc].
  rewrite Hb2, Hb1; done.
Qed.
End Send.
