(* ===== verification/SecureChannelCorrect.v ===== *)
(** * Secure channels: main theorems

    End-to-end delivery of messages, padding, sequence numbers, and the inputs
    on which the code leaves its buffers or trusts unverified data. *)

From Stdlib Require Import ZArith Lia.
From stdpp Require Import base list numbers tactics sets.
From S2P Require Import Prelude UaTypes UaValue BinarySize BinaryEncode BinaryDecode BinarySpec EncodeLogic BinaryEncodeCorrect Codec FieldCodec Connection SecureChannel SecureChannelWire SecureChannelSend.

(** ** Two ends of a channel *)

(** [s] is the sending channel, attached to [conn], and [r] the receiving one:
    same mode, ids and position in the sequence, matching keys, and a send
    buffer that holds whole blocks behind the plain headers. *)
Record linked {C} (ps pr : UA_SecurityPolicy C) (s r : UA_SecureChannel C) (conn : UA_Connection) :
    Prop := mkLinked {
  lk_conn : connection s = Some conn;
  lk_same_mode : securityMode r = securityMode s;
  lk_keys : sym_pair ps pr (channelContext s) (channelContext r);
  lk_id : 0 <= channelId (securityToken s) < 2 ^ 32;
  lk_same_id : channelId (securityToken r) = channelId (securityToken s);
  lk_token : 0 <= tokenId (securityToken s) < 2 ^ 32;
  lk_same_token : tokenId (securityToken r) = tokenId (securityToken s);
  lk_seq : receiveSequenceNumber r = sendSequenceNumber s;
  lk_buffer : sendBufferSize (localConf conn) < 2 ^ 32;
  lk_room : MAX_ATOM <= full ps s conn;
  lk_blocks : is_encrypted (securityMode s) = true ->
    (sendBufferSize (localConf conn) - UA_SECUREMH_AND_SYMALGH_LENGTH)
      mod getLocalBlockSize (symCrypto ps) (channelContext s) = 0
}.

(** ** Example ends *)

Module ChannelExample.
#[export] Instance env : TypeEnv := {|
  generated := [Example.Argument];
  typelist := fun _ => UA_TRANSPORT;
  customTypes := []
|}.

#[export] Instance transport : TransportEnv env.
Proof. by intros t Ht. Qed.

Definition checksum (n : nat) (l : list Z) : list Z := replicate n (foldr Z.add 7 l mod 256).

(** A policy with signatures of [n] bytes and blocks of [bs] bytes. *)
Definition crypto (n : nat) (bs : Z) : UA_SecurityPolicyCryptoModule Z :=
  mkCryptoModule Z
    (fun k m sg => if bool_decide (checksum n (k :: m) = sg) then GOOD else BADSECURITYCHECKSFAILED)
    (fun k m => (GOOD, checksum n (k :: m)))
    (fun _ => Z.of_nat n) (fun _ => Z.of_nat n) (fun _ => 16) (fun _ => 16)
    (fun k m => (GOOD, map (Z.lxor k) m)) (fun k m => (GOOD, map (Z.lxor k) m))
    (fun _ => 16) (fun _ => 16) (fun _ => bs) (fun _ => bs) (fun _ => bs).

Definition policy (n : nat) (bs : Z) : UA_SecurityPolicy Z :=
  mkSecurityPolicy Z (ArrData [112]) (ArrData [99]) None (fun _ => (GOOD, replicate 20 0))
    (fun _ => GOOD) (crypto n bs)
    (fun _ _ k => (GOOD, replicate (Z.to_nat k) 1)) (fun k => (GOOD, replicate (Z.to_nat k) 2)) 16
    (crypto n bs) (fun _ => (GOOD, 90))
    (fun k _ => (GOOD, k)) (fun k l => (GOOD, hd 0 l)) (fun k _ => (GOOD, k))
    (fun k _ => (GOOD, k)) (fun k l => (GOOD, hd 0 l)) (fun k _ => (GOOD, k)).

Definition conn (size : Z) : UA_Connection :=
  mkConnection UA_CONNECTION_ESTABLISHED (mkConnectionConfig 0 size size 0 0)
    (mkConnectionConfig 0 size size 0 0) None [].

Definition channel (size seq_in seq_out : Z) : UA_SecureChannel Z :=
  mkChannel UA_SECURECHANNELSTATE_OPEN UA_MESSAGESECURITYMODE_SIGNANDENCRYPT (mkToken 5 1 0 0)
    (mkToken 5 2 0 0) 90 (Some (conn size)) ArrNull [] [1; 2] [3; 4] seq_in seq_out [] [].

(** The network keeps what was sent. *)
Definition get (n : list (list Z)) (_ : Z) : status * list (list Z) := (GOOD, n).
Definition put (n : list (list Z)) (m : list Z) : status * list (list Z) := (GOOD, n ++ [m]).

Lemma net : net_laws get put id.
Proof. split; intros; simpl; auto. Qed.

(** The application keeps the messages. *)
Definition deliver (app : list (Z * Z * list Z)) (ch : UA_SecureChannel Z) (t r : Z) (m : list Z) :
    status * list (Z * Z * list Z) * UA_SecureChannel Z := (GOOD, app ++ [(t, r, m)], ch).

Lemma xor_twice k l : map (Z.lxor k) (map (Z.lxor k) l) = l.
Proof.
  induction l as [|x l IH]; simpl; [done|]; rewrite IH; f_equal.
  by rewrite <- Z.lxor_assoc, Z.lxor_nilpotent, Z.lxor_0_l.
Qed.

Lemma pair n bs k : 0 < bs <= 255 -> sym_pair (policy n bs) (policy n bs) k k.
Proof.
  intros Hb; split; try done; cbn -[checksum]; try lia; auto.
  - intros m sg [= <-]; split; [unfold checksum, zlen; by rewrite length_replicate|].
    by rewrite bool_decide_true.
  - intros m c _ [= <-]; by rewrite zlen_map, xor_twice.
Qed.

Lemma ends : linked (policy 2 4) (policy 2 4) (channel 48 9 4294967295) (channel 48 4294967295 6)
  (conn 48).
Proof.
  split; [done|done| |simpl; lia|done|simpl; lia|done|done|simpl; lia|vm_compute; congruence|done].
  by apply pair.
Qed.
End ChannelExample.

(** ** End-to-end delivery *)

(** C3: between [linked] ends, when [UA_SecureChannel_sendSymmetricMessage]
    returns GOOD, the frames it has sent, processed in order by the peer with
    memory, make the peer call its callback exactly once, with the message
    type, the request id and exactly the bytes of the type id and of the
    payload; both ends then agree on the sequence number.  This holds for any
    number of chunks, in every security mode, and for every policy that undoes
    its own operations.  Linked ends have the same mode, token, channel id and
    position in the sequence, keys and block sizes that fit, a send buffer with
    room for every atom, and, with encryption, a send buffer that less the plain
    headers is a multiple of the block size: the default one of 65535 bytes is
    not ([full_chunk_overflows]).  The payload is [encodable]: well-formed,
    within the nesting limit and without QualifiedNames
    ([qualifiedname_restores_exchanged_buffer]). *)
Theorem message_delivered {TE : TypeEnv} {TT : TransportEnv TE} {C N App}
    (ps pr : UA_SecurityPolicy C) (s r : UA_SecureChannel C) conn calloc_ok alloc_ok
    (getSendBuffer : N -> Z -> status * N) send releaseSendBuffer log
    (callback : App -> UA_SecureChannel C -> Z -> Z -> list Z -> status * App * UA_SecureChannel C)
    net app requestId messageType payload t :
  linked ps pr s r conn -> net_laws getSendBuffer send log ->
  (forall n k, calloc_ok n k = true) -> (forall n, alloc_ok n = true) ->
  symmetric_type messageType -> 0 <= requestId < 2 ^ 32 -> 0 <= binaryEncodingId t < 2 ^ 32 ->
  encodable ps s conn payload t -> find_entry requestId (chunks r) = None ->
  let '(st, mc) := UA_SecureChannel_sendSymmetricMessage ps getSendBuffer send releaseSendBuffer
                     s net requestId messageType payload t in
  st = GOOD -> exists frames,
    log (mc_net mc) = log net ++ frames /\
    process_all pr calloc_ok alloc_ok callback app r frames =
    callback app (set_receiveSeq r (sendSequenceNumber (mc_channel mc))) messageType requestId
      (bytes_of (message_typeId t) UA_TYPES_NODEID ++ bytes_of payload t).
Proof.
  intros [] Hnet Hca Hal Ht Hr Hb Hp Hfind.
  pose proof (message_sent ps pr (channelContext r) r calloc_ok Hca getSendBuffer send
    releaseSendBuffer log Hnet s conn lk_conn0 requestId messageType Ht Hr lk_id0 lk_token0
    lk_keys0 lk_same_mode0 eq_refl lk_blocks0 lk_buffer0 lk_room0 net payload t Hp Hb) as Hs.
  destruct (UA_SecureChannel_sendSymmetricMessage _ _ _ _ _ _ _ _ _ _) as [st mc]; intros Hg.
  destruct (Hs Hg) as (bodies & messages & body & m & Hlog & Hfr & Hlast & Hbytes & Hch).
  exists (messages ++ [m]); split; [done|].
  rewrite <- lk_seq0 in Hfr, Hlast, Hch.
  rewrite (frames_received ps pr (channelContext s) (channelContext r) calloc_ok alloc_ok callback
    Hca Hal lk_keys0 (securityMode s) messageType (channelId (securityToken s))
    (tokenId (securityToken s)) requestId Ht lk_id0 lk_token0 Hr app bodies messages r None
    (chunks r) body m); try done.
  rewrite Hch; cbn [default List.app set_sendSeq sendSequenceNumber]; rewrite Hbytes.
  unfold received; f_equal; by destruct r.
Qed.

#[local] Existing Instances ChannelExample.env ChannelExample.transport.

Lemma argument_encodable :
  encodable (ChannelExample.policy 2 4) (ChannelExample.channel 48 9 4294967295)
    (ChannelExample.conn 48) Example.argument Example.Argument.
Proof. split; [ground|]; split; [reflexivity|vm_compute; congruence]. Qed.

Lemma message_delivered_witness :
  let '(st, mc) := UA_SecureChannel_sendSymmetricMessage (ChannelExample.policy 2 4)
    ChannelExample.get ChannelExample.put id (ChannelExample.channel 48 9 4294967295) []
    77 UA_MESSAGETYPE_MSG Example.argument Example.Argument in
  st = GOOD /\ length (mc_net mc) = 2%nat /\
  process_all (ChannelExample.policy 2 4) (fun _ _ => true) (fun _ => true)
    ChannelExample.deliver [] (ChannelExample.channel 48 4294967295 6) (mc_net mc) =
  (GOOD, [(UA_MESSAGETYPE_MSG, 77, [1; 0; 42; 1] ++ bytes_of Example.argument Example.Argument)],
   ChannelExample.channel 48 1 6).
Proof.
  assert (Hr : 0 <= 77 < 2 ^ 32) by lia.
  assert (Hb : 0 <= binaryEncodingId Example.Argument < 2 ^ 32) by (simpl; lia).
  pose proof (message_delivered (ChannelExample.policy 2 4) (ChannelExample.policy 2 4)
    (ChannelExample.channel 48 9 4294967295) (ChannelExample.channel 48 4294967295 6)
    (ChannelExample.conn 48) (fun _ _ => true) (fun _ => true) ChannelExample.get ChannelExample.put
    id id ChannelExample.deliver [] [] 77 UA_MESSAGETYPE_MSG Example.argument Example.Argument
    ChannelExample.ends ChannelExample.net (fun _ _ => eq_refl) (fun _ => eq_refl)
    (or_introl eq_refl) Hr Hb argument_encodable eq_refl) as W.
  destruct (UA_SecureChannel_sendSymmetricMessage _ _ _ _ _ _ _ _ _ _) as [st mc] eqn:E.
  assert (st = GOOD) as -> by (symmetry; apply (f_equal fst) in E; vm_compute in E; exact E).
  assert (length (mc_net mc) = 2%nat) as Hl
    by (symmetry; apply (f_equal (fun x => length (mc_net (snd x)))) in E; vm_compute in E; exact E).
  destruct (W eq_refl) as (frames & Hf & Hp); cbn [id List.app] in Hf; rewrite Hf, Hp.
  split; [done|]; split; [by rewrite <- Hf|].
  assert (sendSequenceNumber (mc_channel mc) = 1) as ->; [|reflexivity].
  symmetry; apply (f_equal (fun x => sendSequenceNumber (mc_channel (snd x)))) in E.
  vm_compute in E; exact E.
Defined.

(** ** Sequence numbers *)

(** C36: A symmetric chunk is accepted exactly when its sequence number follows
    the last one, or wraps from the last 1024 numbers to the first 1024; it
    becomes the last number, so that the same chunk is not accepted again, and
    a rejected number changes nothing. *)
Theorem sequence_number_accepted {C} (ch : UA_SecureChannel C) n : 0 <= n < 2 ^ 32 ->
  let '(s, ch') := processSequenceNumberSym ch n in
  (s = GOOD <-> n = u32 (receiveSequenceNumber ch + 1) \/
                (4294966271 < u32 (receiveSequenceNumber ch + 1) /\ n < 1024)) /\
  (s = GOOD -> ch' = set_receiveSeq ch n /\
               fst (processSequenceNumberSym ch' n) = BADSECURITYCHECKSFAILED) /\
  (s <> GOOD -> ch' = ch).
Proof.
  intros Hn; unfold processSequenceNumberSym at 1.
  assert (Hagain : fst (processSequenceNumberSym (set_receiveSeq ch n) n) = BADSECURITYCHECKSFAILED).
  { unfold processSequenceNumberSym; cbn [set_receiveSeq receiveSequenceNumber].
    assert (Hne : n <> u32 (n + 1)) by (unfold u32; pose proof (Z.div_mod (n + 1) (2 ^ 32));
      destruct (Z.eq_dec n (2 ^ 32 - 1)) as [-> |]; [done|rewrite Z.mod_small; lia]).
    rewrite (proj2 (Z.eqb_neq _ _) Hne); cbn [negb].
    destruct (n <? 1024) eqn:E; [|by rewrite andb_false_r]; apply Z.ltb_lt in E.
    rewrite u32_small by lia; replace (4294966271 <? n + 1) with false; [done|].
    symmetry; apply Z.ltb_ge; lia. }
  destruct (Z.eqb_spec n (u32 (receiveSequenceNumber ch + 1))) as [E|E]; cbn [negb].
  - rewrite <- E; split; [tauto|]; split; [done|]; tauto.
  - destruct (_ && _) eqn:Ew.
    + apply andb_true_iff in Ew as [E1%Z.ltb_lt E2%Z.ltb_lt].
      replace (u32 (u32 (n - 1) + 1)) with n.
      * split; [tauto|]; split; [done|]; tauto.
      * unfold u32; rewrite Zplus_mod_idemp_l, Z.sub_add; symmetry; by apply Z.mod_small.
    + split; [|by split].
      split; [done|]; intros [|[E1%Z.ltb_lt E2%Z.ltb_lt]]; [done|]; by rewrite E1, E2 in Ew.
Qed.

Lemma sequence_number_accepted_witness :
  fst (processSequenceNumberSym (ChannelExample.channel 48 4294967000 0) 3) = GOOD /\
  fst (processSequenceNumberSym (ChannelExample.channel 48 7 0) 9) = BADSECURITYCHECKSFAILED.
Proof.
  assert (H3 : 0 <= 3 < 2 ^ 32) by lia.
  pose proof (sequence_number_accepted (ChannelExample.channel 48 4294967000 0) 3 H3) as W.
  destruct (processSequenceNumberSym (ChannelExample.channel 48 4294967000 0) 3) as [s ch'] eqn:E.
  split; [|reflexivity]; apply (proj1 W); right; split; reflexivity.
Defined.

(** ** Padding of asymmetric messages *)

Lemma asym_padding_shape {C} (ps : UA_SecurityPolicy C) a n :
  let cm := asymCrypto ps in
  let pbs := getRemotePlainTextBlockSize cm a in
  let long := 2048 <? getRemoteKeyLength cm a in
  0 < pbs < 65536 ->
  exists p, asym_padding ps a n =
    replicate (Z.to_nat p) (Z.land p 255) ++ Z.land p 255 :: (if long then [p / 256] else []) /\
    1 <= p <= pbs /\
    (n + (p + (if long then 2 else 1)) + getLocalSignatureSize cm a) mod pbs = 0.
Proof.
  intros cm pbs long Hp; unfold asym_padding, calculatePaddingAsym; fold cm; fold pbs; fold long.
  set (k := if long then 2 else 1); set (x := n + getLocalSignatureSize cm a + k).
  pose proof (Z.mod_pos_bound x pbs ltac:(lia)); pose proof (Z.div_mod x pbs ltac:(lia)).
  exists (pbs - x mod pbs); split; [|split; [lia|]].
  - set (p := pbs - x mod pbs); assert (Hpp : 1 <= p <= pbs) by (unfold p; lia).
    rewrite u16_small by lia; replace (Z.to_nat (p + 1)) with (Z.to_nat p + 1)%nat by lia.
    rewrite replicate_add, <- app_assoc; cbn [replicate List.app]; do 2 f_equal.
    destruct long; [|done]; f_equal; unfold u8.
    rewrite Z.shiftr_div_pow2 by lia; apply Z.mod_small; split; [apply Z.div_pos; lia|].
    apply Z.div_lt_upper_bound; lia.
  - replace (n + (pbs - x mod pbs + k) + getLocalSignatureSize cm a) with ((x / pbs + 1) * pbs)
      by (unfold x in *; lia).
    apply Z_mod_mult.
Qed.

(** The padding of an asymmetric message fills whole plain text blocks, and
    the receiver reads from its last bytes exactly its length, with one length
    byte for keys of up to 2048 bits and two for longer ones, provided both ends
    compare the same key length with 2048. *)
Theorem asym_padding_removed {C} (ps pr : UA_SecurityPolicy C) a b n pre sg :
  let cm := asymCrypto ps in
  let pbs := getRemotePlainTextBlockSize cm a in
  0 < pbs < 65536 -> (getRemoteKeyLength cm a <= 2048 -> pbs < 256) ->
  getRemoteKeyLength (asymCrypto pr) b = getRemoteKeyLength cm a ->
  zlen sg = getLocalSignatureSize cm a ->
  let data := pre ++ asym_padding ps a n ++ sg in
  (n + zlen (asym_padding ps a n) + zlen sg) mod pbs = 0 /\
  padding_size (asymCrypto pr) b data (zlen data) (zlen sg) = Some (zlen (asym_padding ps a n)).
Proof.
  intros cm pbs Hp Hshort Hkey Hsg data; unfold data.
  destruct (asym_padding_shape ps a n Hp) as (p & -> & Hr & Hmod); fold cm in Hmod |- *; fold pbs in Hr, Hmod.
  set (long := 2048 <? getRemoteKeyLength cm a) in *.
  set (full := replicate (Z.to_nat p) (Z.land p 255)).
  assert (Hf : zlen full = p) by (apply zlen_replicate; lia).
  assert (Hl : zlen (full ++ Z.land p 255 :: (if long then [p / 256] else [])) =
    p + (if long then 2 else 1)) 
    by (rewrite zlen_app, zlen_cons, Hf; destruct long;
        [change (zlen [p / 256]) with 1|change (zlen (@nil Z)) with 0]; lia).
  rewrite Hl, Hsg; split; [done|]; rewrite <- Hsg; unfold padding_size; rewrite Hkey; fold long.
  destruct long eqn:El.
  - rewrite <- !app_assoc; cbn [List.app].
    replace (pre ++ full ++ Z.land p 255 :: p / 256 :: sg)
      with ((pre ++ full ++ [Z.land p 255]) ++ p / 256 :: sg) by (by rewrite <- !app_assoc).
    replace (zlen ((pre ++ full ++ [Z.land p 255]) ++ p / 256 :: sg) - zlen sg - 1)
      with (zlen (pre ++ full ++ [Z.land p 255])) by (rewrite (zlen_app (pre ++ full ++ _)), (zlen_cons (p / 256)); lia).
    rewrite data_at_last.
    replace (zlen ((pre ++ full ++ [Z.land p 255]) ++ p / 256 :: sg) - zlen sg - 2)
      with (zlen (pre ++ full)) by (rewrite !zlen_app, !zlen_cons; change (zlen (@nil Z)) with 0; lia).
    replace ((pre ++ full ++ [Z.land p 255]) ++ p / 256 :: sg)
      with ((pre ++ full) ++ Z.land p 255 :: p / 256 :: sg) by (by rewrite <- !app_assoc).
    rewrite data_at_last; f_equal.
    change 255 with (Z.ones 8); rewrite Z.shiftl_mul_pow2, Z.land_ones by lia.
    pose proof (Z.div_mod p (2 ^ 8)); change (2 ^ 8) with 256 in *; lia.
  - rewrite <- !app_assoc; cbn [List.app]; rewrite (app_assoc pre full).
    replace (zlen ((pre ++ full) ++ Z.land p 255 :: sg) - zlen sg - 1) with (zlen (pre ++ full))
      by (rewrite (zlen_app (pre ++ full)), zlen_cons; lia).
    rewrite data_at_last; f_equal; change 255 with (Z.ones 8).
    apply Z.ltb_ge in El; specialize (Hshort El); rewrite Z.land_ones by lia.
    rewrite Z.mod_small; [done|]; change (2 ^ 8) with 256. unfold pbs, cm in *; lia.
Qed.

Module AsymExample.
(** A policy whose ends have keys of [mine] and [theirs] bits. *)
Definition crypto (theirs pbs : Z) : UA_SecurityPolicyCryptoModule unit :=
  mkCryptoModule unit (fun _ _ _ => GOOD) (fun _ _ => (GOOD, [8; 8]))
    (fun _ => 2) (fun _ => 2) (fun _ => theirs) (fun _ => theirs)
    (fun _ m => (GOOD, m)) (fun _ m => (GOOD, take (length m - 4) m))
    (fun _ => theirs) (fun _ => theirs) (fun _ => pbs) (fun _ => pbs) (fun _ => pbs).

Definition policy (theirs pbs : Z) : UA_SecurityPolicy unit :=
  mkSecurityPolicy unit (ArrData [112]) ArrNull None (fun _ => (GOOD, replicate 20 0))
    (fun _ => GOOD) (crypto theirs pbs) (fun _ _ _ => (GOOD, [])) (fun _ => (GOOD, [])) 0
    (crypto theirs pbs) (fun _ => (GOOD, tt)) (fun k _ => (GOOD, k)) (fun k _ => (GOOD, k))
    (fun k _ => (GOOD, k)) (fun k _ => (GOOD, k)) (fun k _ => (GOOD, k)) (fun k _ => (GOOD, k)).
End AsymExample.

Lemma asym_padding_removed_witness :
  let pad := asym_padding (AsymExample.policy 4096 470) tt 30 in
  zlen pad = 438 /\
  padding_size (asymCrypto (AsymExample.policy 4096 470)) tt (replicate 50 0 ++ pad ++ [8; 8]) 490 2 =
  Some 438.
Proof.
  assert (H1 : 0 < getRemotePlainTextBlockSize (asymCrypto (AsymExample.policy 4096 470)) tt < 65536) by (simpl; lia).
  assert (H2 : getRemoteKeyLength (asymCrypto (AsymExample.policy 4096 470)) tt <= 2048 ->
    getRemotePlainTextBlockSize (asymCrypto (AsymExample.policy 4096 470)) tt < 256) by (simpl; lia).
  pose proof (asym_padding_removed (AsymExample.policy 4096 470) (AsymExample.policy 4096 470) tt tt 30
    (replicate 50 0) [8; 8] H1 H2 eq_refl eq_refl) as W.
  split; [reflexivity|exact (proj2 W)].
Defined.

(** ** Where the code leaves its buffers *)

(** The sender decides about the second length byte of the padding by the
    key of the receiver, the receiver by the key of the sender: when one key has
    4096 and the other 2048 bits, the receiver takes a padding of 113 bytes for 1
    byte, or one of 112 bytes for 28529 bytes. *)
Theorem asym_padding_mixed_keys :
  let to_long := asym_padding (AsymExample.policy 4096 470) tt 355 in
  let to_short := asym_padding (AsymExample.policy 2048 214) tt 100 in
  zlen to_long = 113 /\
  padding_size (asymCrypto (AsymExample.policy 2048 214)) tt (replicate 50 0 ++ to_long ++ [8; 8])
    165 2 = Some 1 /\
  zlen to_short = 112 /\
  padding_size (asymCrypto (AsymExample.policy 4096 470)) tt (replicate 50 0 ++ to_short ++ [8; 8])
    164 2 = Some 28529.
Proof. vm_compute; repeat split. Qed.

(** With the default send buffer of 65535 bytes, blocks of 16 and signatures
    of 32 bytes, the padding of a full chunk is written one byte past the end of
    the buffer: [setBufPos] hides two bytes, the padding may need a whole block
    more. *)
Theorem full_chunk_overflows :
  let policy := ChannelExample.policy 32 16 in
  let mc := setBufPos policy
    (mkMC (ChannelExample.channel 65535 0 0) tt 1 UA_MESSAGETYPE_MSG 0 0 65535 [] 0 false) in
  let body := repeat 0 (Z.to_nat (mc_end mc - UA_SECURE_MESSAGE_HEADER_LENGTH)) in
  chunk_total policy 90 UA_MESSAGESECURITYMODE_SIGNANDENCRYPT body = 65536 /\
  fst (sendSymmetricChunk policy (fun n _ => (GOOD, n)) id (mc_set_buf mc body (mc_end mc))) = UNDEFINED.
Proof. vm_compute; split; reflexivity. Qed.

(** A symmetric chunk that is shorter than header and signature makes the
    receiver read the padding length in front of the chunk: the size is
    compared only afterwards. *)
Theorem short_chunk_read_outside :
  let chunk := header_bytes (UA_MESSAGETYPE_MSG + UA_CHUNKTYPE_FINAL) 32 5 ++ le_bytes 4 1
               ++ replicate 16 0 in
  fst (fst (UA_SecureChannel_processChunk (ChannelExample.policy 32 16) (fun _ _ => true)
    (fun _ => true) ChannelExample.deliver [] (ChannelExample.channel 65535 0 0) chunk)) = UNDEFINED.
Proof. vm_compute; reflexivity. Qed.

(** After decryption the payload length is checked against the size of the
    encrypted chunk, so that a signed message without room for the sequence
    header is accepted and its payload length falls below zero. *)
Theorem payload_length_underflows :
  let ch := mkChannel UA_SECURECHANNELSTATE_OPEN UA_MESSAGESECURITYMODE_SIGN (mkToken 5 1 0 0)
    token_zero tt None ArrNull [] [] [] 0 0 [] [] in
  let chunk := replicate 16 0 ++ [1; 0; 0; 0; 2; 0; 0; 8; 8; 0; 0; 0; 0] in
  fst (fst (fst (decryptChunk (fun _ _ => true) ch (asymCrypto (AsymExample.policy 2048 214)) chunk 16
    UA_MESSAGETYPE_OPN))) = UNDEFINED.
Proof. vm_compute; reflexivity. Qed.

(** A chunk that carries the next token revolves the tokens and the keys
    before its signature is verified: a chunk that is then rejected has
    changed the channel, and chunks under the old token are refused. *)
Theorem token_revolved_unverified :
  let ch := ChannelExample.channel 65535 0 0 in
  let chunk := header_bytes (UA_MESSAGETYPE_MSG + UA_CHUNKTYPE_FINAL) 96 5 ++ le_bytes 4 2
               ++ replicate 80 0 in
  let '(s, _, ch') := UA_SecureChannel_processChunk (ChannelExample.policy 32 16) (fun _ _ => true)
    (fun _ => true) ChannelExample.deliver [] ch chunk in
  s = BADSECURITYCHECKSFAILED /\
  securityToken ch' = nextSecurityToken ch /\
  channelContext ch' <> channelContext ch /\
  fst (checkSymHeader (ChannelExample.policy 32 16) ch' (tokenId (securityToken ch))) =
  BADSECURECHANNELTOKENUNKNOWN.
Proof. vm_compute; repeat split; congruence. Qed.

(** When a chunk cannot be sent, the encoder goes on with the next field
    ([ret |= ...]) and calls the exchange again, on the buffer that the network
    layer has released. *)
Theorem failed_send_uses_released_buffer :
  let send := fun (n : nat) (_ : list Z) => (BADCONNECTIONCLOSED, S n) in
  let value := VLocalizedText (mkLocalizedText (ArrData (replicate 40 65)) (ArrData [66])) in
  fst (UA_SecureChannel_sendSymmetricMessage (ChannelExample.policy 2 4) (fun n _ => (GOOD, n)) send id
    (ChannelExample.channel 48 0 0) 0%nat 1 UA_MESSAGETYPE_MSG value UA_TYPES_LOCALIZEDTEXT) = UNDEFINED.
Proof. vm_compute; reflexivity. Qed.
