(* ===== verification/Mpsc.v ===== *)
(** * The change queue of the timer ([src/ua_timer.c])

    Changes of the timer come from all threads through a multi-producer
    single-consumer queue (after Vyukov).  A node is a pointer into the heap;
    the queue holds a stub node of its own.  [enqueueChange] exchanges the head
    and then writes the link; between the two other threads may run.

    The first part has the two operations as the code has them.  The second
    part is the concurrent system: every access to the shared variables is a
    step.  It refines a plain FIFO queue. *)

From Stdlib Require Import ZArith Lia.
From stdpp Require Import base list numbers tactics sets gmap.
From S2P Require Import Prelude.

(** [None] is the stub. *)
Abbreviation Ptr := (option nat).
Definition changes_stub : Ptr := None.

(** [nexts !! p] is [p->next.sle_next], absent when it is [NULL]. *)
Record Mpsc := mkMpsc {
  nexts : gmap Ptr Ptr;
  changes_head : Ptr;
  changes_tail : Ptr
}.

Definition mpsc_init : Mpsc := mkMpsc ∅ changes_stub changes_stub.

(** [tc->next = NULL; prev = xchg(head, tc)] *)
Definition xchg_head (q : Mpsc) (tc : Ptr) : Ptr * Mpsc :=
  (changes_head q, mkMpsc (delete tc (nexts q)) tc (changes_tail q)).

(** [prev->next = tc] *)
Definition write_next (q : Mpsc) (prev tc : Ptr) : Mpsc :=
  mkMpsc (<[prev := tc]> (nexts q)) (changes_head q) (changes_tail q).

Definition set_tail (q : Mpsc) (p : Ptr) : Mpsc := mkMpsc (nexts q) (changes_head q) p.

Definition enqueueChange (q : Mpsc) (tc : Ptr) : Mpsc :=
  let '(prev, q) := xchg_head q tc in write_next q prev tc.

(** The part behind the skipping of the stub. *)
Definition dequeue_node (q : Mpsc) (tail : Ptr) (next : option Ptr) : option Ptr * Mpsc :=
  match next with
  | Some next => (Some tail, set_tail q next)
  | None =>
      if negb (bool_decide (tail = changes_head q)) then (None, q)
      else
        let q := enqueueChange q changes_stub in
        match nexts q !! tail with
        | Some next => (Some tail, set_tail q next)
        | None => (None, q)
        end
  end.

Definition dequeueChange (q : Mpsc) : option Ptr * Mpsc :=
  let tail := changes_tail q in
  let next := nexts q !! tail in
  if bool_decide (tail = changes_stub) then
    match next with
    | None => (None, q)
    | Some next => dequeue_node (set_tail q next) next (nexts q !! next)
    end
  else dequeue_node q tail next.

(** ** The concurrent system *)

(** The consumer inside of [dequeueChange]. *)
Inductive Consumer :=
| Idle
| ReadNext (tail : Ptr) (next : option Ptr)       (* [next] was read *)
| AtNode (tail : Ptr) (next : option Ptr)         (* the stub was skipped *)
| Emptied (tail : Ptr)                            (* [tail == head] was read *)
| Linking (tail prev : Ptr)                       (* the stub is the head, not linked *)
| Rereading (tail : Ptr).                         (* the stub is linked *)

(** [producers] are the enqueue operations between exchange and link;
    [enqueued] and [dequeued] record the nodes in the order of the exchanges
    and of the returns. *)
Record System := mkSystem {
  queue : Mpsc;
  producers : list (Ptr * Ptr);
  consumer : Consumer;
  enqueued : list nat;
  dequeued : list nat
}.

Definition system_init : System := mkSystem mpsc_init [] Idle [] [].

Definition at_consumer (s : System) (q : Mpsc) (c : Consumer) : System :=
  mkSystem q (producers s) c (enqueued s) (dequeued s).

(** The consumer returns the node [tail] (never the stub). *)
Definition return_node (s : System) (q : Mpsc) (n : nat) : System :=
  mkSystem q (producers s) Idle (enqueued s) (dequeued s ++ [n]).

(** The nodes that are in the queue or about to be returned are not reused. *)
Inductive mpsc_step : System -> System -> Prop :=
| StepXchg s n : n ∉ drop (length (dequeued s)) (enqueued s) ->
    mpsc_step s (mkSystem (snd (xchg_head (queue s) (Some n)))
                          ((changes_head (queue s), Some n) :: producers s)
                          (consumer s) (enqueued s ++ [n]) (dequeued s))
| StepLink s prev tc l1 l2 : producers s = l1 ++ (prev, tc) :: l2 ->
    mpsc_step s (mkSystem (write_next (queue s) prev tc) (l1 ++ l2) (consumer s)
                          (enqueued s) (dequeued s))
| StepReadNext s : consumer s = Idle ->
    mpsc_step s (at_consumer s (queue s)
      (ReadNext (changes_tail (queue s)) (nexts (queue s) !! changes_tail (queue s))))
| StepEmpty s : consumer s = ReadNext changes_stub None ->
    mpsc_step s (at_consumer s (queue s) Idle)
| StepSkipStub s next : consumer s = ReadNext changes_stub (Some next) ->
    mpsc_step s (at_consumer s (set_tail (queue s) next) (AtNode next (nexts (queue s) !! next)))
| StepNode s tail next : consumer s = ReadNext tail next -> tail <> changes_stub ->
    mpsc_step s (at_consumer s (queue s) (AtNode tail next))
| StepReturn s n next : consumer s = AtNode (Some n) (Some next) ->
    mpsc_step s (return_node s (set_tail (queue s) next) n)
| StepBusy s tail : consumer s = AtNode tail None -> tail <> changes_head (queue s) ->
    mpsc_step s (at_consumer s (queue s) Idle)
| StepEmptied s tail : consumer s = AtNode tail None -> tail = changes_head (queue s) ->
    mpsc_step s (at_consumer s (queue s) (Emptied tail))
| StepStub s tail : consumer s = Emptied tail ->
    mpsc_step s (at_consumer s (snd (xchg_head (queue s) changes_stub))
                             (Linking tail (changes_head (queue s))))
| StepLinkStub s tail prev : consumer s = Linking tail prev ->
    mpsc_step s (at_consumer s (write_next (queue s) prev changes_stub) (Rereading tail))
| StepReturnLast s n next : consumer s = Rereading (Some n) ->
    nexts (queue s) !! (Some n) = Some next ->
    mpsc_step s (return_node s (set_tail (queue s) next) n)
| StepGiveUp s tail : consumer s = Rereading tail -> nexts (queue s) !! tail = None ->
    mpsc_step s (at_consumer s (queue s) Idle).

(** ** Adjacent elements *)

Definition pairs {A} (l : list A) : list (A * A) := zip l (tail l).

Section Pairs.
Context {A : Type}.
Implicit Types l : list A.

Lemma pairs_cons a b l : pairs (a :: b :: l) = (a, b) :: pairs (b :: l).
Proof. done. Qed.

Lemma pairs_snoc l h z : last l = Some h -> pairs (l ++ [z]) = pairs l ++ [(h, z)].
Proof.
  induction l as [|a [|b l] IH]; [done| |]; intros Hl.
  - by injection Hl as ->.
  - cbn [app]; rewrite !pairs_cons; cbn [app]; f_equal; by apply IH.
Qed.

Lemma pairs_in l x y : (x, y) ∈ pairs l -> x ∈ l /\ y ∈ tail l.
Proof. intros H; split; [by eapply elem_of_zip_l|by eapply elem_of_zip_r]. Qed.

Lemma pairs_last l h y : NoDup l -> last l = Some h -> (h, y) ∉ pairs l.
Proof.
  induction l as [|a [|b l] IH]; [done| |]; intros Hn Hl.
  - unfold pairs; simpl; set_solver.
  - rewrite pairs_cons; apply NoDup_cons in Hn as [Ha Hn].
    intros [[= <- <-]|Hin]%elem_of_cons; [|by apply IH].
    apply Ha; apply last_Some_elem_of; exact Hl.
Qed.

Lemma pairs_unique l x y z : NoDup l -> (x, y) ∈ pairs l -> (x, z) ∈ pairs l -> y = z.
Proof.
  induction l as [|a [|b l] IH]; [unfold pairs; simpl; set_solver..|]; intros Hn H1 H2.
  rewrite pairs_cons in H1, H2; apply NoDup_cons in Hn as [Ha Hn].
  apply elem_of_cons in H1 as [E1|H1]; apply elem_of_cons in H2 as [E2|H2]; simplify_eq; auto.
  - by destruct Ha; apply (pairs_in _ _ _ H2).
  - by destruct Ha; apply (pairs_in _ _ _ H1).
Qed.
End Pairs.

(** ** The invariant *)

(** Links that are announced but not written. *)
Definition unlinked (s : System) : list (Ptr * Ptr) :=
  match consumer s with
  | Linking _ prev => (prev, changes_stub) :: producers s
  | _ => producers s
  end.

(** What the consumer knows at its position. *)
Definition consumer_ok (s : System) (chain : list Ptr) : Prop :=
  let q := queue s in
  match consumer s with
  | Idle => True
  | ReadNext t next =>
      t = changes_tail q /\ (forall p, next = Some p -> nexts q !! t = Some p)
  | AtNode t next =>
      t = changes_tail q /\ t <> changes_stub /\ (forall p, next = Some p -> nexts q !! t = Some p)
  | Emptied t => t = changes_tail q /\ t <> changes_stub /\ changes_stub ∉ chain
  | Linking t _ | Rereading t => t = changes_tail q /\ t <> changes_stub
  end.

(** [chain] are the nodes from the tail to the head. *)
Record mpsc_inv (s : System) (chain : list Ptr) : Prop := mkInv {
  iv_nodup : NoDup chain;
  iv_tail : head chain = Some (changes_tail (queue s));
  iv_head : last chain = Some (changes_head (queue s));
  iv_end : nexts (queue s) !! changes_head (queue s) = None;
  iv_next : forall x y, (x, y) ∈ pairs chain ->
    nexts (queue s) !! x = Some y \/ (nexts (queue s) !! x = None /\ (x, y) ∈ unlinked s);
  iv_pend : forall x y, (x, y) ∈ unlinked s ->
    (x, y) ∈ pairs chain /\ nexts (queue s) !! x = None;
  iv_pend_nodup : NoDup (unlinked s);
  iv_log : enqueued s = dequeued s ++ omap id chain;
  iv_consumer : consumer_ok s chain
}.

Lemma inv_init : mpsc_inv system_init [changes_stub].
Proof.
  split; simpl; try done; try set_solver.
  - apply NoDup_singleton.
  - apply NoDup_nil_2.
Qed.

Lemma elem_of_nodes n (chain : list Ptr) : n ∈ omap id chain <-> Some n ∈ chain.
Proof.
  rewrite list_elem_of_omap; split; [intros (x & Hx & E); unfold id in E; by subst|].
  intros H; by exists (Some n).
Qed.

(** The successor of the tail. *)
Lemma next_of_tail s chain t p :
  mpsc_inv s chain -> t = changes_tail (queue s) -> nexts (queue s) !! t = Some p ->
  exists rest, chain = t :: p :: rest.
Proof.
  intros [] -> Hn; destruct chain as [|x [|y rest]]; simpl in *; simplify_eq.
  - congruence.
  - exists rest; do 2 f_equal.
    destruct (iv_next0 (changes_tail (queue s)) y) as [E|[E _]]; [rewrite pairs_cons; set_solver|..];
      by rewrite Hn in E; simplify_eq.
Qed.

(** Dropping the tail whose successor is known. *)
Lemma inv_advance s chain t p c' :
  mpsc_inv s chain -> t = changes_tail (queue s) -> nexts (queue s) !! t = Some p ->
  (forall a b, c' <> Linking a b) ->
  exists rest, chain = t :: p :: rest /\
  forall s', queue s' = set_tail (queue s) p -> producers s' = producers s -> consumer s' = c' ->
    unlinked s = producers s ->
    enqueued s' = dequeued s' ++ omap id (p :: rest) -> consumer_ok s' (p :: rest) ->
    mpsc_inv s' (p :: rest).
Proof.
  intros Hi Ht Hn Hc'; destruct (next_of_tail s chain t p Hi Ht Hn) as [rest ->].
  exists rest; split; [done|]; intros s' Hq Hp Hc Hu Hlog Hok; destruct Hi.
  assert (Hu' : unlinked s' = producers s)
    by (unfold unlinked; rewrite Hc, Hp; destruct c' as [| | | |a b|]; try done; by destruct (Hc' a b)).
  rewrite Hu in *; split; rewrite ?Hu', ?Hq; cbn [set_tail nexts changes_head changes_tail]; try done.
  - by apply NoDup_cons in iv_nodup0 as [_ ?].
  - intros x y Hxy; apply iv_next0; rewrite pairs_cons; by right.
  - intros x y Hxy; destruct (iv_pend0 x y Hxy) as [Hin Hnone]; split; [|done].
    rewrite pairs_cons in Hin; apply elem_of_cons in Hin as [[= -> ->]|]; [congruence|done].
Qed.

(** Appending a node at the head. *)
Lemma inv_append s chain tc s' :
  mpsc_inv s chain -> tc ∉ chain ->
  queue s' = snd (xchg_head (queue s) tc) ->
  unlinked s' ≡ₚ (changes_head (queue s), tc) :: unlinked s ->
  enqueued s' = dequeued s' ++ omap id (chain ++ [tc]) -> consumer_ok s' (chain ++ [tc]) ->
  mpsc_inv s' (chain ++ [tc]).
Proof.
  intros [] Hnew Hq Hu Hlog Hok.
  assert (Hh : changes_head (queue s) ∈ chain) by (by apply last_Some_elem_of).
  pose proof (pairs_snoc chain _ tc iv_head0) as Hp.
  split; rewrite ?Hq; cbn [xchg_head snd nexts changes_head changes_tail]; try done.
  - apply NoDup_app; split; [done|]; split; [set_solver|apply NoDup_singleton].
  - by destruct chain.
  - by rewrite last_snoc.
  - by apply lookup_delete_eq.
  - intros x y Hxy; rewrite Hp, elem_of_app, list_elem_of_singleton in Hxy; rewrite Hu.
    destruct Hxy as [Hxy|[= -> ->]].
    + destruct (pairs_in _ _ _ Hxy) as [Hx _]; rewrite lookup_delete_ne by (by intros ->).
      destruct (iv_next0 x y Hxy) as [|[? ?]]; [by left|right; split; [done|by right]].
    + right; split; [|by left]; rewrite lookup_delete_ne by (by intros ->); done.
  - intros x y; rewrite Hu; intros Hxy; rewrite Hp, elem_of_app, list_elem_of_singleton.
    apply elem_of_cons in Hxy as [[= -> ->]|Hxy].
    + split; [by right|]; rewrite lookup_delete_ne by (by intros ->); done.
    + destruct (iv_pend0 x y Hxy) as [Hin Hnone]; split; [by left|].
      destruct (pairs_in _ _ _ Hin) as [Hx _]; by rewrite lookup_delete_ne by (by intros ->).
  - rewrite Hu; apply NoDup_cons; split; [|done]; intros Hin; destruct (iv_pend0 _ _ Hin) as [Hin' _].
    by apply (pairs_last _ _ tc iv_nodup0 iv_head0).
Qed.

(** Writing an announced link. *)
Lemma inv_link s chain x y l s' :
  mpsc_inv s chain -> unlinked s ≡ₚ (x, y) :: l -> unlinked s' ≡ₚ l ->
  queue s' = write_next (queue s) x y -> enqueued s' = enqueued s -> dequeued s' = dequeued s ->
  consumer_ok s' chain -> mpsc_inv s' chain.
Proof.
  intros [] Hu Hu' Hq He Hd Hok.
  assert (Hin : (x, y) ∈ unlinked s) by (rewrite Hu; by left).
  destruct (iv_pend0 x y Hin) as [Hxy Hnone].
  rewrite Hu, NoDup_cons in iv_pend_nodup0; destruct iv_pend_nodup0 as [Hout Hnd].
  assert (Hxh : x <> changes_head (queue s))
    by (intros ->; by apply (pairs_last _ _ y iv_nodup0 iv_head0)).
  split; rewrite ?Hq, ?He, ?Hd; simpl; try done.
  - by rewrite lookup_insert_ne.
  - intros x' y' H'; rewrite Hu'; destruct (decide (x' = x)) as [-> |Hne].
    + left; rewrite (pairs_unique chain x y' y) by done; apply lookup_insert_eq.
    + rewrite lookup_insert_ne by done; destruct (iv_next0 x' y' H') as [|[? Hp]]; [by left|right].
      split; [done|]; rewrite Hu in Hp; apply elem_of_cons in Hp as [[= -> ->]|]; done.
  - intros x' y'; rewrite Hu'; intros H'.
    destruct (iv_pend0 x' y') as [Hin' Hn']; [rewrite Hu; by right|]; split; [done|].
    rewrite lookup_insert_ne; [done|]; intros <-; apply Hout.
    by rewrite (pairs_unique chain x y y').
  - by rewrite Hu'.
Qed.

(** The consumer's knowledge survives steps of the producers. *)
Lemma consumer_stable s s' chain chain' :
  consumer_ok s chain -> consumer s' = consumer s ->
  changes_tail (queue s') = changes_tail (queue s) ->
  (forall p, nexts (queue s) !! changes_tail (queue s) = Some p ->
             nexts (queue s') !! changes_tail (queue s) = Some p) ->
  (changes_stub ∉ chain -> changes_stub ∉ chain') ->
  consumer_ok s' chain'.
Proof.
  unfold consumer_ok; intros Hok -> -> Hn Hs; destruct (consumer s); naive_solver.
Qed.

Lemma inv_idle s chain c : mpsc_inv s chain -> unlinked s = producers s ->
  (forall a b, c <> Linking a b) -> consumer_ok (at_consumer s (queue s) c) chain ->
  mpsc_inv (at_consumer s (queue s) c) chain.
Proof.
  intros [] Hu Hc Hok.
  assert (Hu' : unlinked (at_consumer s (queue s) c) = producers s)
    by (unfold unlinked; simpl; destruct c as [| | | |a b|]; try done; by destruct (Hc a b)).
  rewrite Hu in *; split; rewrite ?Hu'; done.
Qed.

Lemma mpsc_step_inv s s' chain : mpsc_step s s' -> mpsc_inv s chain ->
  exists chain', mpsc_inv s' chain'.
Proof.
  intros Hstep Hi; pose proof (iv_consumer _ _ Hi) as Hok; unfold consumer_ok in Hok.
  destruct Hstep as [s n Hf|s prev tc l1 l2 Hp|s Hc|s Hc|s next Hc|s t next Hc Hns|s n next Hc
    |s t Hc Hh|s t Hc Hh|s t Hc|s t prev Hc|s n next Hc Hn|s t Hc Hn];
    try (rewrite Hc in Hok; assert (Hu : unlinked s = producers s) by (unfold unlinked; by rewrite Hc)).
  - (* exchange *)
    assert (Hnew : Some n ∉ chain)
      by (by rewrite (iv_log _ _ Hi), drop_app_length, elem_of_nodes in Hf).
    exists (chain ++ [Some n]); apply (inv_append s chain (Some n)); try done.
    + unfold unlinked; simpl; destruct (consumer s); try done; apply Permutation_swap.
    + simpl; rewrite (iv_log _ _ Hi), omap_app; simpl; by rewrite app_assoc.
    + apply (consumer_stable s _ chain _ (iv_consumer _ _ Hi)); try done; simpl; [|set_solver].
      intros p Hp; rewrite lookup_delete_ne; [done|]; intros E; apply Hnew; rewrite E.
      apply head_Some_elem_of, (iv_tail _ _ Hi).
  - (* link *)
    exists chain; eapply (inv_link s chain prev tc (match consumer s with
      | Linking _ p => [(p, changes_stub)] | _ => [] end ++ l1 ++ l2)); try done.
    + unfold unlinked; rewrite Hp; destruct (consumer s); simpl; try (symmetry; apply Permutation_middle).
      rewrite Permutation_swap; constructor; symmetry; apply Permutation_middle.
    + unfold unlinked; simpl; by destruct (consumer s).
    + apply (consumer_stable s _ chain _ (iv_consumer _ _ Hi)); try done; simpl.
      intros p Hpt; rewrite lookup_insert_ne; [done|]; intros E'.
      destruct (iv_pend _ _ Hi prev tc) as [_ E]; [|congruence].
      unfold unlinked; rewrite Hp; destruct (consumer s); set_solver.
  - exists chain; apply inv_idle; done.
  - exists chain; by apply inv_idle.
  - (* skip the stub *)
    destruct Hok as [Ht Hn]; specialize (Hn next eq_refl).
    destruct (inv_advance s chain changes_stub next (AtNode next (nexts (queue s) !! next)) Hi Ht Hn
      ltac:(done)) as (rest & -> & Hadv).
    exists (next :: rest); eapply Hadv; try done; simpl.
    + by rewrite (iv_log _ _ Hi).
    + split; [done|]; split; [|done].
      intros ->; pose proof (iv_nodup _ _ Hi) as Hnd; apply NoDup_cons in Hnd as [Hnd _]; set_solver.
  - exists chain; apply inv_idle; try done; destruct Hok; by split.
  - (* return a node *)
    destruct Hok as (Ht & _ & Hn); specialize (Hn next eq_refl).
    destruct (inv_advance s chain (Some n) next Idle Hi Ht Hn ltac:(done)) as (rest & -> & Hadv).
    exists (next :: rest); eapply Hadv; try done; simpl.
    rewrite (iv_log _ _ Hi); simpl; by rewrite <- app_assoc.
  - exists chain; by apply inv_idle.
  - (* nothing behind the tail *)
    exists chain; apply inv_idle; try done; destruct Hok as (Ht & Hns & _).
    split; [done|]; split; [done|]; intros Hin.
    destruct chain as [|x [|y rest]]; [by pose proof (iv_tail _ _ Hi)|..].
    + pose proof (iv_tail _ _ Hi) as E; simpl in E; injection E as E.
      apply list_elem_of_singleton in Hin; congruence.
    + exfalso; pose proof (iv_tail _ _ Hi) as E; simpl in E; injection E as E; subst x.
      pose proof (iv_head _ _ Hi) as El; pose proof (iv_nodup _ _ Hi) as Hnd.
      apply NoDup_cons in Hnd as [Hnd _]; apply Hnd; rewrite <- Ht, Hh.
      apply last_Some_elem_of; exact El.
  - (* enqueue the stub *)
    destruct Hok as (Ht & Hns & Hout).
    exists (chain ++ [changes_stub]); apply (inv_append s chain changes_stub); try done.
    + by rewrite Hu.
    + simpl; rewrite (iv_log _ _ Hi), omap_app; simpl; by rewrite app_nil_r.
  - exists chain; rewrite Hc in Hok.
    eapply (inv_link s chain prev changes_stub (producers s)); try done.
    unfold unlinked; by rewrite Hc.
  - destruct Hok as (Ht & _).
    destruct (inv_advance s chain (Some n) next Idle Hi Ht Hn ltac:(done)) as (rest & -> & Hadv).
    exists (next :: rest); eapply Hadv; try done; simpl.
    rewrite (iv_log _ _ Hi); simpl; by rewrite <- app_assoc.
  - exists chain; by apply inv_idle.
Qed.

Lemma reachable_inv s : rtc mpsc_step system_init s -> exists chain, mpsc_inv s chain.
Proof.
  intros H; apply (rtc_ind_r (fun s => exists chain, mpsc_inv s chain)) with (3 := H).
  - exists [changes_stub]; apply inv_init.
  - intros s1 s2 _ Hs [chain Hi]; by apply (mpsc_step_inv s1 s2 chain).
Qed.

(** ** Without a producer in between *)

Section Quiescent.
Context (s : System) (Hp : producers s = []) (Hc : consumer s = Idle).

Lemma quiescent_next chain x y :
  mpsc_inv s chain -> (x, y) ∈ pairs chain -> nexts (queue s) !! x = Some y.
Proof using Hp Hc.
  intros Hi Hxy; destruct (iv_next _ _ Hi x y Hxy) as [|[_ Hin]]; [done|].
  unfold unlinked in Hin; rewrite Hc, Hp in Hin; by apply elem_of_nil in Hin.
Qed.

(** The part of [dequeueChange] behind the stub, from the node [n] on. *)
Lemma node_steps s1 n rest :
  mpsc_inv s1 (Some n :: rest) -> producers s1 = [] ->
  consumer s1 = AtNode (Some n) (nexts (queue s1) !! Some n) ->
  exists q', dequeue_node (queue s1) (Some n) (nexts (queue s1) !! Some n) = (Some (Some n), q') /\
             rtc mpsc_step s1 (return_node s1 q' n).
Proof.
  intros Hi Hp1 Hc1; unfold dequeue_node.
  destruct (nexts (queue s1) !! Some n) as [next|] eqn:En.
  { eexists; split; [done|]; apply rtc_once; by apply (StepReturn _ _ next). }
  assert (Hh : Some n = changes_head (queue s1)).
  { destruct rest as [|p rest]; [by pose proof (iv_head _ _ Hi) as [=]|].
    destruct (iv_next _ _ Hi (Some n) p) as [E|[_ E]]; [rewrite pairs_cons; by left|
      by pose proof (eq_trans (eq_sym En) E)|].
    unfold unlinked in E; rewrite Hc1, Hp1 in E; by apply elem_of_nil in E. }
  rewrite bool_decide_true by done; cbn [negb].
  assert (El : nexts (enqueueChange (queue s1) changes_stub) !! Some n = Some changes_stub)
    by (cbn; rewrite <- Hh; apply lookup_insert_eq).
  rewrite El; eexists; split; [done|].
  eapply rtc_l; [by apply (StepEmptied _ (Some n))|].
  eapply rtc_l; [by apply (StepStub _ (Some n))|].
  eapply rtc_l; [by apply (StepLinkStub _ (Some n) (changes_head (queue s1)))|].
  apply rtc_once.
  exact (StepReturnLast (at_consumer s1 (enqueueChange (queue s1) changes_stub) (Rereading (Some n)))
    n changes_stub eq_refl El).
Qed.

(** [dequeueChange] without interruption is a run of the consumer: it returns
    the oldest node, and [NULL] only when there is none. *)
Lemma dequeue_steps chain : mpsc_inv s chain ->
  match dequeueChange (queue s) with
  | (Some (Some n), q') =>
      rtc mpsc_step s (return_node s q' n) /\ exists l, omap id chain = n :: l
  | (Some None, _) => False
  | (None, q') => q' = queue s /\ omap id chain = []
  end.
Proof using Hp Hc.
  intros Hi; unfold dequeueChange.
  assert (H1 : mpsc_step s (at_consumer s (queue s) (ReadNext (changes_tail (queue s))
    (nexts (queue s) !! changes_tail (queue s))))) by (by constructor).
  destruct chain as [|t rest]; [by pose proof (iv_tail _ _ Hi)|].
  pose proof (iv_tail _ _ Hi) as [= ->].
  destruct (changes_tail (queue s)) as [n|] eqn:Et.
  - rewrite bool_decide_false by done.
    edestruct (node_steps (at_consumer s (queue s) (AtNode (Some n) (nexts (queue s) !! Some n)))
      n rest) as (q' & Eq & Hs); [|done..|].
    { apply inv_idle; try done; unfold unlinked; by rewrite ?Hc. }
    cbn [at_consumer queue] in Eq; rewrite Eq.
    split; [|by eexists]; eapply rtc_l; [exact H1|]; eapply rtc_l; [|exact Hs].
    by apply (StepNode (at_consumer s (queue s) (ReadNext (Some n) _)) (Some n)).
  - rewrite bool_decide_true by done; destruct rest as [|p rest].
    + replace (nexts (queue s) !! None) with (@None Ptr); [done|].
      pose proof (iv_head _ _ Hi) as [= E]; pose proof (iv_end _ _ Hi) as E'; by rewrite <- E in E'.
    + assert (Hn : nexts (queue s) !! None = Some p)
        by (apply (quiescent_next _ _ _ Hi); rewrite pairs_cons; by left).
      rewrite Hn; rewrite Hn in H1.
      assert (Hne : p <> None)
        by (intros ->; pose proof (iv_nodup _ _ Hi) as Hnd; apply NoDup_cons in Hnd as [Hnd _]; set_solver).
      destruct p as [n|]; [|done].
      destruct (inv_advance s _ None (Some n) (AtNode (Some n) (nexts (queue s) !! Some n)) Hi
        (eq_sym Et) Hn ltac:(done)) as (rest' & [= <-] & Hadv).
      edestruct (node_steps (at_consumer s (set_tail (queue s) (Some n))
        (AtNode (Some n) (nexts (queue s) !! Some n))) n rest) as (q' & Eq & Hs); [|done..|].
      { apply Hadv; try done; [unfold unlinked; by rewrite Hc|exact (iv_log _ _ Hi)]. }
      cbn [at_consumer queue] in Eq; cbn [set_tail nexts] in Eq; rewrite Eq.
      split; [|by eexists]; eapply rtc_l; [exact H1|]; eapply rtc_l; [|exact Hs].
      by apply (StepSkipStub (at_consumer s (queue s) (ReadNext None (Some (Some n)))) (Some n)).
Qed.
End Quiescent.

(** C33: The change queue refines a FIFO queue under every interleaving of any
    number of producers with the consumer: in each reachable state the nodes
    returned so far are a prefix of the nodes in the order of their exchanges,
    none lost, doubled or overtaken; and as soon as no enqueue is half done,
    [dequeueChange], run without interruption, is a run of the consumer that
    returns the oldest node of the rest, or [NULL] exactly when nothing is
    left. *)
Theorem mpsc_fifo s : rtc mpsc_step system_init s ->
  exists rest, enqueued s = dequeued s ++ rest /\
    (producers s = [] -> consumer s = Idle ->
     let '(r, q') := dequeueChange (queue s) in
     r = Some <$> head rest /\
     match r with
     | Some (Some n) => rtc mpsc_step s (return_node s q' n)
     | _ => q' = queue s
     end).
Proof.
  intros H; destruct (reachable_inv s H) as [chain Hi]; exists (omap id chain).
  split; [exact (iv_log _ _ Hi)|]; intros Hp Hc.
  pose proof (dequeue_steps s Hp Hc chain Hi) as Hd.
  destruct (dequeueChange (queue s)) as [[[n|]|] q']; [|done|].
  - by destruct Hd as (Hs & l & ->).
  - by destruct Hd as [-> ->].
Qed.

(** Two producers interleave: the second one links first. *)
Definition interleaved : System :=
  mkSystem (write_next (write_next (snd (xchg_head (snd (xchg_head mpsc_init (Some 1%nat))) (Some 2%nat)))
    (Some 1%nat) (Some 2%nat)) None (Some 1%nat)) [] Idle [1%nat; 2%nat] [].

Lemma mpsc_fifo_witness :
  rtc mpsc_step system_init interleaved /\
  fst (dequeueChange (queue interleaved)) = Some (Some 1%nat).
Proof.
  assert (Hs : rtc mpsc_step system_init interleaved).
  { eapply rtc_l; [apply (StepXchg system_init 1%nat); apply not_elem_of_nil|].
    eapply rtc_l; [apply (StepXchg _ 2%nat); apply (bool_decide_unpack _); vm_compute; reflexivity|].
    eapply rtc_l; [apply (StepLink _ (Some 1%nat) (Some 2%nat) [] [(None, Some 1%nat)]); reflexivity|].
    apply rtc_once; exact (StepLink (mkSystem (write_next (snd (xchg_head (snd (xchg_head mpsc_init
      (Some 1%nat))) (Some 2%nat))) (Some 1%nat) (Some 2%nat)) [(None, Some 1%nat)] Idle
      [1%nat; 2%nat] []) None (Some 1%nat) [] [] eq_refl). }
  split; [exact Hs|].
  destruct (mpsc_fifo interleaved Hs) as (rest & E & F).
  specialize (F eq_refl eq_refl); destruct (dequeueChange (queue interleaved)) as [r q'].
  destruct F as [F _]; simpl in E; rewrite <- E in F; exact F.
Defined.

(** ** The interface the timer uses *)

(** A queue of changes for one consumer: [queue_repr q l] says that [q] holds
    the changes [l], the oldest first; [queue_bound] bounds their number. *)
Class ChangeQueue (E Q : Type) := {
  queue_init : Q;
  queue_put : Q -> E -> Q;
  queue_get : Q -> option E * Q;
  queue_bound : Q -> nat;
  queue_repr : Q -> list E -> Prop;
  queue_init_repr : queue_repr queue_init [];
  queue_put_repr q l e : queue_repr q l -> queue_repr (queue_put q e) (l ++ [e]);
  queue_get_repr q l : queue_repr q l ->
    fst (queue_get q) = head l /\ queue_repr (snd (queue_get q)) (tail l);
  queue_bound_repr q l : queue_repr q l -> (length l <= queue_bound q)%nat
}.

(** The linked list with its nodes on the heap; [next_node] is the address of
    the next allocation. *)
Record NodeQueue (E : Type) := mkNodeQueue {
  nq_mpsc : Mpsc;
  nq_heap : gmap nat E;
  next_node : nat
}.
Arguments mkNodeQueue {E}.
Arguments nq_mpsc {E}.
Arguments nq_heap {E}.
Arguments next_node {E}.

Definition node_put {E} (q : NodeQueue E) (e : E) : NodeQueue E :=
  mkNodeQueue (enqueueChange (nq_mpsc q) (Some (next_node q))) (<[next_node q := e]> (nq_heap q))
              (S (next_node q)).

Definition node_get {E} (q : NodeQueue E) : option E * NodeQueue E :=
  match dequeueChange (nq_mpsc q) with
  | (Some (Some n), m) => (nq_heap q !! n, mkNodeQueue m (delete n (nq_heap q)) (next_node q))
  | (_, m) => (None, mkNodeQueue m (nq_heap q) (next_node q))
  end.

(** [q] holds the nodes [ns] and no operation is under way. *)
Definition holds (q : Mpsc) (ns : list nat) : Prop :=
  exists chain, mpsc_inv (mkSystem q [] Idle ns []) chain.

Lemma inv_forget s chain : mpsc_inv s chain -> producers s = [] -> consumer s = Idle ->
  holds (queue s) (omap id chain).
Proof.
  intros [] Hp Hc; exists chain; unfold unlinked in *; rewrite Hc, Hp in *; by split.
Qed.

Lemma nodup_nodes (chain : list Ptr) : NoDup chain -> NoDup (omap id chain).
Proof.
  induction 1 as [|[n|] l Hn _ IH]; simpl; [constructor| |done].
  constructor; [|done]; by rewrite elem_of_nodes.
Qed.

Lemma holds_nodup q ns : holds q ns -> NoDup ns.
Proof.
  intros [chain Hi]; pose proof (iv_log _ _ Hi) as E; simpl in E; rewrite E.
  apply nodup_nodes, (iv_nodup _ _ Hi).
Qed.

Lemma holds_put q ns n : holds q ns -> n ∉ ns -> holds (enqueueChange q (Some n)) (ns ++ [n]).
Proof.
  intros [chain Hi] Hn.
  destruct (mpsc_step_inv _ _ chain (StepXchg (mkSystem q [] Idle ns []) n Hn) Hi) as [c1 H1].
  cbn [queue producers consumer enqueued dequeued] in H1.
  edestruct (mpsc_step_inv _ _ c1 (StepLink (mkSystem (snd (xchg_head q (Some n)))
    [(changes_head q, Some n)] Idle (ns ++ [n]) []) (changes_head q) (Some n) [] [] eq_refl) H1)
    as [c2 H2].
  exists c2; exact H2.
Qed.

Lemma holds_get q ns : holds q ns ->
  fst (dequeueChange q) = Some <$> head ns /\ holds (snd (dequeueChange q)) (tail ns).
Proof.
  intros [chain Hi]; pose proof (iv_log _ _ Hi) as Hlog; simpl in Hlog.
  pose proof (dequeue_steps (mkSystem q [] Idle ns []) eq_refl eq_refl chain Hi) as Hd.
  simpl in Hd; destruct (dequeueChange q) as [[[n|]|] q'] eqn:Eq; [|done|].
  - destruct Hd as (Hs & l & El); rewrite Hlog, El; split; [done|]; simpl.
    assert (Hi' : exists c, mpsc_inv (return_node (mkSystem q [] Idle ns []) q' n) c).
    { eapply (rtc_ind_r (fun s => exists c, mpsc_inv s c)) with (3 := Hs); [by exists chain|].
      intros s1 s2 _ Hst [c Hc]; by apply (mpsc_step_inv s1 s2 c). }
    destruct Hi' as [c Hc]; pose proof (iv_log _ _ Hc) as Hl; simpl in Hl.
    rewrite Hlog, El in Hl; injection Hl as ->; exact (inv_forget _ _ Hc eq_refl eq_refl).
  - destruct Hd as [-> E]; rewrite Hlog, E; split; [done|]; simpl; exists chain.
    by rewrite Hlog, E in Hi.
Qed.

Definition node_repr {E} (q : NodeQueue E) (l : list E) : Prop :=
  exists ns, holds (nq_mpsc q) ns /\ Forall2 (fun n e => nq_heap q !! n = Some e) ns l /\
             Forall (fun n => n < next_node q)%nat ns.

Lemma heap_frame {E} (h h' : gmap nat E) ns l : (forall n, n ∈ ns -> h' !! n = h !! n) ->
  Forall2 (fun n e => h !! n = Some e) ns l -> Forall2 (fun n e => h' !! n = Some e) ns l.
Proof.
  intros Hh Hl; revert Hh; induction Hl as [|n e ns l Hn Hl IH]; intros Hh; constructor.
  - rewrite Hh; [done|by left].
  - apply IH; intros n' Hn'; apply Hh; by right.
Qed.

Lemma node_put_repr {E} (q : NodeQueue E) l e : node_repr q l -> node_repr (node_put q e) (l ++ [e]).
Proof.
  intros (ns & Hh & Hl & Hb).
  assert (Hnew : next_node q ∉ ns) by (intros Hin; rewrite Forall_forall in Hb; apply Hb in Hin; lia).
  exists (ns ++ [next_node q]); split; [by apply holds_put|]; split; simpl.
  - apply Forall2_app; [|constructor; [apply lookup_insert_eq|constructor]].
    eapply heap_frame; [|exact Hl]; intros n Hn; apply lookup_insert_ne; by intros <-.
  - apply Forall_app; split; [|by repeat constructor].
    eapply Forall_impl; [exact Hb|]; simpl; lia.
Qed.

Lemma node_get_repr {E} (q : NodeQueue E) l : node_repr q l ->
  fst (node_get q) = head l /\ node_repr (snd (node_get q)) (tail l).
Proof.
  intros (ns & Hh & Hl & Hb); destruct (holds_get _ _ Hh) as [Hf Hs]; unfold node_get.
  pose proof (holds_nodup _ _ Hh) as Hnd.
  destruct (dequeueChange (nq_mpsc q)) as [r m]; simpl in Hf, Hs; subst r.
  destruct Hl as [|n e ns l Hn Hl]; simpl; (split; [done|]).
  - by exists [].
  - apply NoDup_cons in Hnd as [Hout _]; apply Forall_cons in Hb as [_ Hb].
    exists ns; split; [done|]; split; [|done]; simpl.
    eapply heap_frame; [|exact Hl]; intros n' Hn'; apply lookup_delete_ne; by intros <-.
Qed.

Lemma node_bound_repr {E} (q : NodeQueue E) l : node_repr q l -> (length l <= size (nq_heap q))%nat.
Proof.
  intros (ns & Hh & Hl & _); rewrite <- (Forall2_length _ _ _ Hl).
  rewrite <- (size_list_to_set (C := gset nat) ns) by (by apply (holds_nodup (nq_mpsc q))).
  rewrite <- size_dom; apply subseteq_size; intros n; rewrite elem_of_list_to_set; intros Hn.
  apply elem_of_dom; apply list_elem_of_lookup in Hn as [i Hi].
  destruct (Forall2_lookup_l _ _ _ _ _ Hl Hi) as (e & _ & ?); by exists e.
Qed.

#[export] Instance node_queue (E : Type) : ChangeQueue E (NodeQueue E) := {|
  queue_init := mkNodeQueue mpsc_init ∅ 0%nat;
  queue_put := node_put;
  queue_get := node_get;
  queue_bound q := size (nq_heap q);
  queue_repr := node_repr;
  queue_init_repr := ltac:(exists []; split; [by exists [changes_stub]; apply inv_init|by split]);
  queue_put_repr := node_put_repr;
  queue_get_repr := node_get_repr;
  queue_bound_repr := node_bound_repr
|}.
