(* ===== verification/Timer.v ===== *)
(** * The timer ([src/ua_timer.c], [src/ua_timer.h])

    Repeated callbacks are kept in a list sorted by the time of their next
    execution.  All changes arrive through a queue (the class [ChangeQueue];
    [Mpsc.node_queue] is the queue of the sources) and are applied by the main
    loop.  [UA_Timer_process] executes what is due and sorts the executed
    callbacks in again; the callbacks may themselves request changes. *)

From Stdlib Require Import ZArith Lia Sorting.Sorted.
From stdpp Require Import base list numbers tactics sorting.
From S2P Require Import Prelude Mpsc.

Definition REMOVE_SENTINEL : Z := 0.
Definition CHANGE_SENTINEL : Z := 1.
Definition UA_DATETIME_USEC : Z := 10.
Definition UA_DATETIME_MSEC : Z := UA_DATETIME_USEC * 1000.
Definition UA_DATETIME_SEC : Z := UA_DATETIME_MSEC * 1000.

(** [int64_t] arithmetic.  Signed overflow is undefined in C; the model wraps. *)
Definition i64 (z : Z) : Z := (z + 2 ^ 63) mod 2 ^ 64 - 2 ^ 63.

(** A callback and its data are pointers. *)
Record UA_TimerCallbackEntry := mkEntry {
  nextTime : Z;
  interval : Z;
  id : Z;
  callback : Z;
  data : Z
}.

#[export] Instance entry_eq_dec : EqDecision UA_TimerCallbackEntry.
Proof. solve_decision. Defined.

Definition set_nextTime (e : UA_TimerCallbackEntry) (t : Z) : UA_TimerCallbackEntry :=
  mkEntry t (interval e) (id e) (callback e) (data e).

(** A call of the timer's functions from within a callback.  [mem] is what
    [UA_malloc] returns: [None] for [NULL], otherwise memory with its former
    content; [clock] is the reading of [UA_DateTime_nowMonotonic]. *)
Inductive Request :=
| AddCallback (cb data interval : Z) (mem : option UA_TimerCallbackEntry) (clock : Z)
| ChangeInterval (callbackId interval : Z) (mem : option UA_TimerCallbackEntry) (clock : Z)
| RemoveCallback (callbackId : Z) (mem : option UA_TimerCallbackEntry).

Section Timer.
Context {Q : Type} {CQ : ChangeQueue UA_TimerCallbackEntry Q}.

(** [issued] is a history variable, the number of ids given out; the sources
    have only the 64-bit [idCounter]. *)
Record UA_Timer := mkTimer {
  repeatedCallbacks : list UA_TimerCallbackEntry;
  changes : Q;
  idCounter : Z;
  issued : Z
}.

Definition set_callbacks (t : UA_Timer) (l : list UA_TimerCallbackEntry) : UA_Timer :=
  mkTimer l (changes t) (idCounter t) (issued t).

Definition set_changes (t : UA_Timer) (q : Q) : UA_Timer :=
  mkTimer (repeatedCallbacks t) q (idCounter t) (issued t).

Definition UA_Timer_init : UA_Timer := mkTimer [] queue_init 0 0.

(** ** Requesting changes *)

Definition UA_Timer_addRepeatedCallback (t : UA_Timer) (cb data interval : Z)
    (mem : option UA_TimerCallbackEntry) (clock : Z) : status * option Z * UA_Timer :=
  if cb =? 0 then (BADINTERNALERROR, None, t)
  else if interval <? 5 then (BADINTERNALERROR, None, t)
  else match mem with
  | None => (BADOUTOFMEMORY, None, t)
  | Some _ =>
      let iv := u64 (interval * UA_DATETIME_MSEC) in
      let newid := u64 (idCounter t + 1) in
      let tc := mkEntry (i64 (clock + i64 iv)) iv newid cb data in
      (GOOD, Some newid,
       mkTimer (repeatedCallbacks t) (queue_put (changes t) tc) newid (issued t + 1))
  end.

Definition UA_Timer_changeRepeatedCallbackInterval (t : UA_Timer) (callbackId interval : Z)
    (mem : option UA_TimerCallbackEntry) (clock : Z) : status * UA_Timer :=
  if interval <? 5 then (BADINTERNALERROR, t)
  else match mem with
  | None => (BADOUTOFMEMORY, t)
  | Some m =>
      let iv := u64 (interval * UA_DATETIME_MSEC) in
      let tc := mkEntry (i64 (clock + i64 iv)) iv callbackId CHANGE_SENTINEL (data m) in
      (GOOD, set_changes t (queue_put (changes t) tc))
  end.

Definition UA_Timer_removeRepeatedCallback (t : UA_Timer) (callbackId : Z)
    (mem : option UA_TimerCallbackEntry) : status * UA_Timer :=
  match mem with
  | None => (BADOUTOFMEMORY, t)
  | Some m =>
      let tc := mkEntry (nextTime m) (Timer.interval m) callbackId REMOVE_SENTINEL (data m) in
      (GOOD, set_changes t (queue_put (changes t) tc))
  end.

Definition do_request (t : UA_Timer) (r : Request) : UA_Timer :=
  match r with
  | AddCallback cb d iv mem clock => snd (UA_Timer_addRepeatedCallback t cb d iv mem clock)
  | ChangeInterval cid iv mem clock => snd (UA_Timer_changeRepeatedCallbackInterval t cid iv mem clock)
  | RemoveCallback cid mem => snd (UA_Timer_removeRepeatedCallback t cid mem)
  end.

(** ** Applying changes *)

(** The loop: the new entry, the entries up to [afterTc] and the others. *)
Fixpoint find_after (tc : UA_TimerCallbackEntry) (l : list UA_TimerCallbackEntry)
    : UA_TimerCallbackEntry * list UA_TimerCallbackEntry * list UA_TimerCallbackEntry :=
  match l with
  | [] => (tc, [], [])
  | tmpTc :: r =>
      if nextTime tc <=? nextTime tmpTc then (tc, [], l)
      else
        let tc :=
          if (interval tmpTc =? interval tc) &&
             (i64 (nextTime tc - UA_DATETIME_SEC) <? nextTime tmpTc)
          then set_nextTime tc (nextTime tmpTc) else tc in
        let '(tc, before, after) := find_after tc r in
        (tc, tmpTc :: before, after)
  end.

Definition addTimerCallbackEntry (l : list UA_TimerCallbackEntry) (tc : UA_TimerCallbackEntry)
    : list UA_TimerCallbackEntry :=
  let '(tc, before, after) := find_after tc l in before ++ tc :: after.

(** The first entry with the id, taken out of the list. *)
Fixpoint take_out (callbackId : Z) (l : list UA_TimerCallbackEntry)
    : option (UA_TimerCallbackEntry * list UA_TimerCallbackEntry) :=
  match l with
  | [] => None
  | tc :: r =>
      if callbackId =? id tc then Some (tc, r)
      else match take_out callbackId r with
           | Some (x, r) => Some (x, tc :: r)
           | None => None
           end
  end.

Definition changeTimerCallbackEntryInterval (l : list UA_TimerCallbackEntry)
    (callbackId iv nt : Z) : list UA_TimerCallbackEntry :=
  match take_out callbackId l with
  | None => l
  | Some (tc, l) => addTimerCallbackEntry l (mkEntry nt iv (id tc) (callback tc) (data tc))
  end.

Definition removeRepeatedCallback (l : list UA_TimerCallbackEntry) (callbackId : Z)
    : list UA_TimerCallbackEntry :=
  match take_out callbackId l with
  | None => l
  | Some (_, l) => l
  end.

(** The body of the loop of [processChanges]. *)
Definition apply_change (l : list UA_TimerCallbackEntry) (change : UA_TimerCallbackEntry)
    : list UA_TimerCallbackEntry :=
  if callback change =? REMOVE_SENTINEL then removeRepeatedCallback l (id change)
  else if callback change =? CHANGE_SENTINEL then
    changeTimerCallbackEntryInterval l (id change) (interval change) (nextTime change)
  else addTimerCallbackEntry l change.

Fixpoint processChanges_loop (fuel : nat) (t : UA_Timer) : UA_Timer :=
  match fuel with
  | O => t
  | S fuel =>
      match queue_get (changes t) with
      | (None, q) => set_changes t q
      | (Some change, q) =>
          processChanges_loop fuel
            (set_callbacks (set_changes t q) (apply_change (repeatedCallbacks t) change))
      end
  end.

Definition processChanges (t : UA_Timer) : UA_Timer :=
  processChanges_loop (S (queue_bound (changes t))) t.

(** ** Executing callbacks *)

Section Process.
Context {App : Type} (dispatchCallback : App -> Z -> Z -> App * list Request).

(** The entries to execute now and the others. *)
Fixpoint split_now (now : Z) (l : list UA_TimerCallbackEntry)
    : list UA_TimerCallbackEntry * list UA_TimerCallbackEntry :=
  match l with
  | [] => ([], [])
  | e :: r =>
      if now <? nextTime e then ([], l)
      else let '(due, after) := split_now now r in (e :: due, after)
  end.

(** The new time of an executed entry. *)
Definition reschedule (now : Z) (tc : UA_TimerCallbackEntry) : UA_TimerCallbackEntry :=
  let nt := i64 (nextTime tc + i64 (interval tc)) in
  set_nextTime tc (if nt <? now then i64 (now + 1) else nt).

(** The number of entries the linear search passes. *)
Fixpoint search (nt : Z) (l : list UA_TimerCallbackEntry) : nat :=
  match l with
  | [] => 0
  | n :: r => if nt <=? nextTime n then 0 else S (search nt r)
  end.

(** Sorting in one executed entry.  The list starts with [tmp_first];
    [last] is the position of [last_dispatched] in it. *)
Definition sort_in (l : list UA_TimerCallbackEntry) (last : nat) (tc : UA_TimerCallbackEntry)
    : list UA_TimerCallbackEntry * nat :=
  let last_time := from_option nextTime 0 (l !! last) in
  if last_time =? nextTime tc then
    (take (S last) l ++ tc :: drop (S last) l, last)
  else
    let start := if last_time <? nextTime tc then last else 0%nat in
    let prev := (start + search (nextTime tc) (drop (S start) l))%nat in
    (take (S prev) l ++ tc :: drop (S prev) l, S prev).

Fixpoint execute_loop (now : Z) (due : list UA_TimerCallbackEntry) (app : App) (t : UA_Timer)
    (l : list UA_TimerCallbackEntry) (last : nat) : App * UA_Timer * list UA_TimerCallbackEntry :=
  match due with
  | [] => (app, t, l)
  | tc :: due =>
      let '(app, reqs) := dispatchCallback app (callback tc) (data tc) in
      let t := fold_left do_request reqs t in
      let '(l, last) := sort_in l last (reschedule now tc) in
      execute_loop now due app t l last
  end.

Definition first_time (l : list UA_TimerCallbackEntry) : Z :=
  match l with
  | [] => UA_INT64_MAX
  | tc :: _ => nextTime tc
  end.

(** [garbage] is the uninitialised part of [tmp_first] on the stack. *)
Definition UA_Timer_process (t : UA_Timer) (nowMonotonic : Z) (app : App)
    (garbage : UA_TimerCallbackEntry) : Z * App * UA_Timer :=
  let t := processChanges t in
  let '(due, after) := split_now nowMonotonic (repeatedCallbacks t) in
  match due with
  | [] => (first_time after, app, t)
  | _ =>
      let tmp_first := set_nextTime garbage (i64 (nowMonotonic - 1)) in
      let '(app, t, l) := execute_loop nowMonotonic due app t (tmp_first :: after) 0 in
      let t := processChanges (set_callbacks t (tail l)) in
      (first_time (repeatedCallbacks t), app, t)
  end.
End Process.

Definition UA_Timer_deleteMembers (t : UA_Timer) : UA_Timer :=
  set_callbacks (processChanges t) [].
End Timer.
Arguments UA_Timer Q : clear implicits.
