(* ===== verification/TimerCorrect.v ===== *)
(** * The timer is correct

    The list of callbacks stays sorted under every sequence of requests and
    runs of the main loop, ids are given out once, and a run executes exactly
    the callbacks that are due, in the order of their times. *)

From Stdlib Require Import ZArith Lia Sorting.Sorted.
From stdpp Require Import base list numbers tactics sorting relations.
From S2P Require Import Prelude Mpsc Timer.

Definition earlier (a b : UA_TimerCallbackEntry) : Prop := nextTime a <= nextTime b.
Abbreviation by_time := (StronglySorted earlier).

(** ** Sorted lists *)

Lemma sorted_insert l1 l2 tc : by_time (l1 ++ l2) ->
  Forall (fun e => earlier e tc) l1 -> Forall (earlier tc) l2 -> by_time (l1 ++ tc :: l2).
Proof.
  rewrite !StronglySorted_app, StronglySorted_cons, !Forall_forall; unfold earlier.
  intros (H12 & H1 & H2) Ha Hb; split_and!; try done.
  intros x1 x2 Hx1 [->|Hx2]%elem_of_cons; auto.
Qed.

Lemma sorted_remove l1 l2 x : by_time (l1 ++ x :: l2) -> by_time (l1 ++ l2).
Proof.
  rewrite !StronglySorted_app, StronglySorted_cons; intros (H12 & H1 & H2 & H3).
  split_and!; try done; intros; apply H12; set_solver.
Qed.

Lemma sorted_split k l : by_time l ->
  Forall (fun e => Forall (earlier e) (drop k l)) (take k l) /\ by_time (take k l) /\ by_time (drop k l).
Proof.
  intros Hl; rewrite <- (take_drop k l) in Hl at 1; apply StronglySorted_app in Hl as (H & H1 & H2).
  split_and!; try done; apply Forall_forall; intros x Hx; apply Forall_forall; eauto.
Qed.

Lemma sorted_filter (P : UA_TimerCallbackEntry -> Prop) `{!forall e, Decision (P e)} l :
  by_time l -> by_time (base.filter P l).
Proof.
  induction 1 as [|e l Hl IH He]; [constructor|]; rewrite filter_cons.
  destruct (decide (P e)); [|done]; constructor; [done|].
  apply Forall_forall; intros x [_ Hx]%list_elem_of_filter; rewrite Forall_forall in He; auto.
Qed.

(** ** Adding an entry *)

Lemma find_after_spec l : forall tc tc' before after,
  find_after tc l = (tc', before, after) ->
  l = before ++ after /\
  tc' = set_nextTime tc (nextTime tc') /\ earlier tc' tc /\
  (nextTime tc' = nextTime tc \/ nextTime tc' ∈ map nextTime before) /\
  (by_time l -> Forall (fun e => earlier e tc') before /\ Forall (earlier tc') after).
Proof.
  unfold earlier.
  induction l as [|tmp r IH]; intros tc tc' before after; cbn [find_after].
  { intros [= <- <- <-]; destruct tc; split_and!; try done; auto with lia. }
  destruct (nextTime tc <=? nextTime tmp) eqn:Hle; zbool.
  { intros [= <- <- <-]; split_and!; [done|by destruct tc|lia|auto|].
    intros Hs; apply StronglySorted_cons in Hs as [Hr _]; split; [constructor|].
    constructor; [done|]; eapply Forall_impl; [exact Hr|]; unfold earlier; intros; lia. }
  set (tc1 := if _ && _ then _ else _).
  assert (H1 : set_nextTime tc1 = set_nextTime tc /\ nextTime tmp <= nextTime tc1 <= nextTime tc /\
    (nextTime tc1 = nextTime tc \/ nextTime tc1 = nextTime tmp))
    by (unfold tc1; destr_if; destruct tc; simpl in *; split_and!; auto; lia).
  destruct H1 as (Hset & Hb & Hor).
  destruct (find_after tc1 r) as [[tc2 b] a] eqn:E; intros [= <- <- <-].
  destruct (IH _ _ _ _ E) as (-> & He & Ht & Hin & Hsort); rewrite Hset in He.
  split_and!; [done|done|lia| |].
  - destruct Hin as [-> |Hin]; [destruct Hor as [-> | ->]; [by left|right; by left]|right; by right].
  - intros Hs; apply StronglySorted_cons in Hs as [Hr Hs]; destruct (Hsort Hs) as [Hbf Haf].
    split; [|done]; constructor; [|done].
    destruct Hin as [-> |Hin]; [lia|].
    apply list_elem_of_fmap in Hin as (e & -> & Hin).
    rewrite Forall_forall in Hr; apply Hr; set_solver.
Qed.

(** The entry is put in with its own time or an earlier one. *)
Lemma add_entry_spec l tc : exists t',
  t' <= nextTime tc /\ addTimerCallbackEntry l tc ≡ₚ set_nextTime tc t' :: l /\
  (by_time l -> by_time (addTimerCallbackEntry l tc)).
Proof.
  unfold addTimerCallbackEntry; destruct (find_after tc l) as [[tc' b] a] eqn:E.
  destruct (find_after_spec _ _ _ _ _ E) as (-> & He & Ht & _ & Hs).
  exists (nextTime tc'); rewrite <- He; split_and!; [exact Ht|by rewrite <- Permutation_middle|].
  intros Hl; destruct (Hs Hl); by apply sorted_insert.
Qed.

Lemma take_out_spec cid l :
  match take_out cid l with
  | Some (x, r) => exists l1 l2, l = l1 ++ x :: l2 /\ r = l1 ++ l2 /\ id x = cid
  | None => cid ∉ map id l
  end.
Proof.
  induction l as [|tc r IH]; cbn [take_out]; [apply not_elem_of_nil|].
  destruct (cid =? id tc) eqn:E; zbool; [by exists [], r|].
  destruct (take_out cid r) as [[x r']|].
  - destruct IH as (l1 & l2 & -> & -> & Hx); by exists (tc :: l1), l2.
  - simpl; by rewrite not_elem_of_cons.
Qed.

(** ** Applying changes *)

Definition is_add (c : UA_TimerCallbackEntry) : bool :=
  negb (callback c =? REMOVE_SENTINEL) && negb (callback c =? CHANGE_SENTINEL).

(** The ids of the callbacks that wait in the queue. *)
Definition pending_ids (l : list UA_TimerCallbackEntry) : list Z := map id (base.filter is_add l).

Lemma pending_app l1 l2 : pending_ids (l1 ++ l2) = pending_ids l1 ++ pending_ids l2.
Proof. unfold pending_ids; by rewrite filter_app, map_app. Qed.

Lemma pending_single c : pending_ids [c] = if is_add c then [id c] else [].
Proof. unfold pending_ids; rewrite filter_cons, filter_nil; by destruct (is_add c). Qed.

Lemma apply_change_sorted l c : by_time l -> by_time (apply_change l c).
Proof.
  intros Hl; unfold apply_change, removeRepeatedCallback, changeTimerCallbackEntryInterval.
  pose proof (take_out_spec (id c) l) as Ht.
  destruct (take_out (id c) l) as [[x r]|].
  - destruct Ht as (l1 & l2 & -> & -> & _); pose proof (sorted_remove _ _ _ Hl) as Hr.
    repeat destr_if; [done| |]; match goal with
    | |- context [addTimerCallbackEntry ?l ?e] => destruct (add_entry_spec l e) as (? & _ & _ & ?) end; auto.
  - repeat destr_if; [done..|]; destruct (add_entry_spec l c) as (? & _ & _ & ?); auto.
Qed.

Lemma apply_changes_sorted cs l : by_time l -> by_time (fold_left apply_change cs l).
Proof. revert l; induction cs; simpl; auto using apply_change_sorted. Qed.

Lemma map_id_perm l l' : l ≡ₚ l' -> map id l ≡ₚ map id l'.
Proof. apply Permutation_map. Qed.

(** No id is duplicated by a change. *)
Lemma apply_change_ids l c : map id (apply_change l c) ⊆+ map id l ++ pending_ids [c].
Proof.
  rewrite pending_single; unfold is_add, apply_change, removeRepeatedCallback,
    changeTimerCallbackEntryInterval.
  pose proof (take_out_spec (id c) l) as Ht.
  destruct (callback c =? REMOVE_SENTINEL); cbn [negb andb]; [rewrite app_nil_r|].
  { destruct (take_out (id c) l) as [[x r]|]; [|done].
    destruct Ht as (l1 & l2 & -> & -> & _); rewrite !map_app; cbn [map].
    apply submseteq_app; [done|by apply submseteq_cons]. }
  destruct (callback c =? CHANGE_SENTINEL); cbn [negb andb]; [rewrite app_nil_r|].
  - destruct (take_out (id c) l) as [[x r]|]; [|done].
    destruct Ht as (l1 & l2 & -> & -> & _).
    match goal with |- context [addTimerCallbackEntry ?l ?e] =>
      destruct (add_entry_spec l e) as (t' & _ & Hp & _) end.
    rewrite Hp; cbn [map]; rewrite !map_app; cbn [map]; by rewrite Permutation_middle.
  - destruct (add_entry_spec l c) as (t' & _ & Hp & _); rewrite Hp; cbn [map].
    by rewrite (Permutation_app_comm _ [id c]).
Qed.

Lemma apply_changes_ids cs : forall l,
  map id (fold_left apply_change cs l) ⊆+ map id l ++ pending_ids cs.
Proof.
  induction cs as [|c cs IH]; intros l; simpl.
  - unfold pending_ids; simpl; by rewrite app_nil_r.
  - change (c :: cs) with ([c] ++ cs); rewrite pending_app, IH, app_assoc.
    by apply submseteq_app; [apply apply_change_ids|].
Qed.

Lemma submseteq_nodup {A} (l1 l2 : list A) : l1 ⊆+ l2 -> NoDup l2 -> NoDup l1.
Proof.
  intros [k ->]%submseteq_Permutation Hd; by apply NoDup_app in Hd as [? _].
Qed.

(** ** Sorting in the executed entries *)

Lemma search_spec nt l : by_time l ->
  Forall (fun e => nextTime e < nt) (take (search nt l) l) /\
  Forall (fun e => nt <= nextTime e) (drop (search nt l) l).
Proof.
  induction l as [|n r IH]; intros Hs; cbn [search]; [split; constructor|].
  apply StronglySorted_cons in Hs as [Hr Hs]; destruct (nt <=? nextTime n) eqn:E; zbool.
  - split; [constructor|]; constructor; [done|].
    eapply Forall_impl; [exact Hr|]; unfold earlier; intros; lia.
  - destruct (IH Hs); split; [by constructor|done].
Qed.

(** Everything up to a position is earlier than what is there. *)
Lemma sorted_upto l k e : by_time l -> l !! k = Some e ->
  Forall (fun x => earlier x e) (take (S k) l) /\ Forall (earlier e) (drop (S k) l).
Proof.
  intros Hs Hk; rewrite (take_S_r _ _ e Hk).
  rewrite <- (take_drop_middle l k e Hk) in Hs.
  apply StronglySorted_app in Hs as (H & _ & [Hr _]%StronglySorted_cons).
  split; [|done]; apply Forall_app; split; [|repeat constructor; unfold earlier; lia].
  apply Forall_forall; intros x Hx; apply H; set_solver.
Qed.

(** The invariant of the loop: the list is sorted and starts with [tmp_first]. *)
Definition loop_ok (now : Z) (l : list UA_TimerCallbackEntry) (last : nat) : Prop :=
  by_time l /\ (last < length l)%nat /\
  exists first r, l = first :: r /\ nextTime first = now - 1.

Lemma sort_in_at l tc k now :
  by_time l -> (exists first r, l = first :: r /\ nextTime first = now - 1) ->
  Forall (fun e => earlier e tc) (take (S k) l) -> Forall (earlier tc) (drop (S k) l) ->
  let l' := take (S k) l ++ tc :: drop (S k) l in
  by_time l' /\ (exists first r, l' = first :: r /\ nextTime first = now - 1) /\
  tail l' ≡ₚ tc :: tail l.
Proof.
  intros Hs (first & r & -> & Hf) Hb Ha; cbn [take drop app tail] in *; split_and!.
  - apply (sorted_insert (first :: take k r)); [|done..]; cbn [app]; by rewrite take_drop.
  - by exists first, (take k r ++ tc :: drop k r).
  - rewrite <- Permutation_middle; by rewrite take_drop.
Qed.

Lemma sort_in_spec now l last tc : loop_ok now l last -> now <= nextTime tc ->
  let '(l', last') := sort_in l last tc in
  loop_ok now l' last' /\ tail l' ≡ₚ tc :: tail l.
Proof.
  intros (Hs & Hlast & Hf) Hnow; unfold sort_in.
  destruct (lookup_lt_is_Some_2 l last Hlast) as [e He]; rewrite He; cbn [from_option].
  assert (Hlen : forall k, length (take (S k) l ++ tc :: drop (S k) l) = S (length l))
    by (intros k; rewrite length_app; simpl; rewrite length_take, length_drop; lia).
  destruct (nextTime e =? nextTime tc) eqn:Eq; zbool.
  - destruct (sorted_upto l last e Hs He) as [Hb Ha].
    destruct (sort_in_at l tc last now Hs Hf) as (H1 & H2 & H3).
    + eapply Forall_impl; [exact Hb|]; unfold earlier; intros; lia.
    + eapply Forall_impl; [exact Ha|]; unfold earlier; intros; lia.
    + split; [|exact H3]; split; [exact H1|]; split; [rewrite Hlen; lia|exact H2].
  - set (start := if _ <? _ then _ else _).
    assert (Hst : exists e', l !! start = Some e' /\ nextTime e' < nextTime tc).
    { unfold start; destr_if; zbool; [by exists e|].
      destruct Hf as (first & r & -> & ?); exists first; split; [done|lia]. }
    destruct Hst as (e' & He' & Hlt); set (n := search _ _).
    destruct (sorted_upto l start e' Hs He') as [Hb _].
    destruct (sorted_split (S start) l Hs) as (_ & _ & Hd).
    destruct (search_spec (nextTime tc) _ Hd) as [Hn1 Hn2]; fold n in Hn1, Hn2.
    rewrite drop_drop in Hn2; replace (S start + n)%nat with (S (start + n)) in Hn2 by lia.
    destruct (sort_in_at l tc (start + n) now Hs Hf) as (H1 & H2 & H3).
    + replace (S (start + n)) with (S start + n)%nat by lia.
      rewrite <- (take_drop (S start) l) at 1; rewrite take_app_add'.
      * apply Forall_app; split; (eapply Forall_impl; [eassumption|]); unfold earlier; intros; lia.
      * symmetry; apply length_take_le; apply lookup_lt_Some in He'; lia.
    + exact Hn2.
    + split; [|exact H3]; split; [exact H1|]; split; [|exact H2].
      rewrite Hlen; apply lookup_lt_Some in He'.
      assert (n <= length (drop (S start) l))%nat; [|rewrite length_drop in *; lia].
      unfold n; clear; induction (drop (S start) l) as [|x r IH]; simpl; [lia|]; destr_if; lia.
Qed.

Lemma i64_small z : -2 ^ 63 <= z < 2 ^ 63 -> i64 z = z.
Proof. intros; unfold i64; rewrite Z.mod_small; lia. Qed.

(** The times at which the main loop may run. *)
Definition time_ok (now : Z) : Prop := -2 ^ 63 < now < 2 ^ 63 - 1.

Lemma reschedule_later now tc : time_ok now -> now <= nextTime (reschedule now tc).
Proof.
  intros [? ?]; unfold reschedule; cbn [set_nextTime nextTime]; destr_if; zbool; [|done].
  rewrite i64_small; lia.
Qed.

Lemma filter_every {A} (P : A -> Prop) `{!forall x, Decision (P x)} l :
  Forall P l -> base.filter P l = l.
Proof. induction 1; [done|]; rewrite filter_cons_True by done; by f_equal. Qed.

Lemma filter_none {A} (P : A -> Prop) `{!forall x, Decision (P x)} l :
  Forall (fun x => ~ P x) l -> base.filter P l = [].
Proof. induction 1; [done|]; by rewrite filter_cons_False by done. Qed.

Lemma split_now_spec now l : by_time l ->
  split_now now l = (base.filter (fun e => nextTime e <= now) l,
                     base.filter (fun e => now < nextTime e) l).
Proof.
  induction l as [|e r IH]; intros Hs; [done|]; cbn [split_now].
  apply StronglySorted_cons in Hs as [Hr Hs]; rewrite !filter_cons.
  destruct (now <? nextTime e) eqn:E; zbool.
  - rewrite decide_False, decide_True by lia.
    rewrite filter_none, filter_every; [done|..];
      (eapply Forall_impl; [exact Hr|]; unfold earlier; intros; lia).
  - rewrite decide_True, decide_False by lia; by rewrite (IH Hs).
Qed.

(** ** What the callbacks request *)

(** The changes that requests put into the queue, from the state of the id
    counter on. *)
Definition request_change (n : Z) (r : Request) : list UA_TimerCallbackEntry * Z :=
  match r with
  | AddCallback cb d iv (Some _) clock =>
      if (cb =? 0) || (iv <? 5) then ([], n)
      else let iv := u64 (iv * UA_DATETIME_MSEC) in
           ([mkEntry (i64 (clock + i64 iv)) iv (u64 (n + 1)) cb d], u64 (n + 1))
  | ChangeInterval cid iv (Some m) clock =>
      if iv <? 5 then ([], n)
      else let iv := u64 (iv * UA_DATETIME_MSEC) in
           ([mkEntry (i64 (clock + i64 iv)) iv cid CHANGE_SENTINEL (data m)], n)
  | RemoveCallback cid (Some m) =>
      ([mkEntry (nextTime m) (interval m) cid REMOVE_SENTINEL (data m)], n)
  | _ => ([], n)
  end.

Fixpoint request_changes (n : Z) (rs : list Request) : list UA_TimerCallbackEntry :=
  match rs with
  | [] => []
  | r :: rs => let '(c, n) := request_change n r in c ++ request_changes n rs
  end.

(** ** The state of the timer *)

Section State.
Context {Q : Type} {CQ : ChangeQueue UA_TimerCallbackEntry Q}.
Implicit Types t : UA_Timer Q.

(** All changes of the queue are applied in order, and the queue is empty. *)
Lemma processChanges_spec t cs : queue_repr (changes t) cs ->
  exists q, queue_repr q [] /\
  processChanges t = mkTimer (fold_left apply_change cs (repeatedCallbacks t)) q (idCounter t) (issued t).
Proof.
  unfold processChanges; intros Hq; pose proof (queue_bound_repr _ _ Hq) as Hb.
  assert (Hf : (length cs < S (queue_bound (changes t)))%nat) by lia; clear Hb.
  revert Hf; generalize (S (queue_bound (changes t))) as fuel; intros fuel; revert t cs Hq.
  induction fuel as [|fuel IH]; intros t cs Hq Hf; [lia|]; cbn [processChanges_loop].
  destruct (queue_get_repr _ _ Hq) as [Hh Ht].
  destruct (queue_get (changes t)) as [c q]; cbn [fst snd] in *; subst c.
  destruct cs as [|c cs]; cbn [head tail length] in *.
  - by exists q.
  - destruct (IH (set_callbacks (set_changes t q) (apply_change (repeatedCallbacks t) c)) cs)
      as (q' & Hq' & E); [exact Ht|lia|]; by exists q'.
Qed.

(** What holds between the calls; [cs] are the changes in the queue. *)
Record timer_ok t (cs : list UA_TimerCallbackEntry) : Prop := mkTimerOk {
  tk_sorted : by_time (repeatedCallbacks t);
  tk_queue : queue_repr (changes t) cs;
  tk_counter : idCounter t = u64 (issued t) /\ 0 <= issued t;
  tk_ids : issued t < 2 ^ 64 ->
    let ids := map id (repeatedCallbacks t) ++ pending_ids cs in
    NoDup ids /\ Forall (fun i => 1 <= i <= issued t) ids
}.

Lemma init_ok : timer_ok UA_Timer_init [].
Proof.
  split; simpl; [constructor|apply queue_init_repr|done|]; intros _; split; constructor.
Qed.

Lemma put_change_ok t cs c : timer_ok t cs -> is_add c = false ->
  timer_ok (set_changes t (queue_put (changes t) c)) (cs ++ [c]).
Proof.
  intros [] Hc; split; simpl; [done|by apply queue_put_repr|done|].
  by rewrite pending_app, pending_single, Hc, app_nil_r.
Qed.

Lemma put_add_ok t cs e : timer_ok t cs -> id e = u64 (idCounter t + 1) ->
  timer_ok (mkTimer (repeatedCallbacks t) (queue_put (changes t) e) (id e) (issued t + 1)) (cs ++ [e]).
Proof.
  intros [Hs Hq [Hc Hn] Hids] He; split; simpl; [done|by apply queue_put_repr| |].
  - split; [|lia]; rewrite He, Hc; unfold u64; by rewrite Zplus_mod_idemp_l.
  - intros Hlt; destruct Hids as [Hd Hb]; [lia|].
    assert (Hid : id e = issued t + 1)
      by (rewrite He, Hc; unfold u64; rewrite Zplus_mod_idemp_l; apply Z.mod_small; lia).
    rewrite pending_app, pending_single, app_assoc.
    assert (Hb' : Forall (fun i => 1 <= i <= issued t + 1) (map id (repeatedCallbacks t) ++ pending_ids cs))
      by (eapply Forall_impl; [exact Hb|]; simpl; lia).
    destruct (is_add e); [|rewrite app_nil_r; by split].
    split; [|apply Forall_app; split; [done|repeat constructor; lia]].
    apply NoDup_app; split; [done|]; split; [|apply NoDup_singleton].
    intros i Hi ->%list_elem_of_singleton; rewrite Forall_forall in Hb; apply Hb in Hi; lia.
Qed.

Lemma do_request_ok t cs r : timer_ok t cs ->
  let '(c, n) := request_change (idCounter t) r in
  timer_ok (do_request t r) (cs ++ c) /\ idCounter (do_request t r) = n /\
  issued t <= issued (do_request t r).
Proof.
  intros Hok; assert (Hno : timer_ok t (cs ++ []) /\ idCounter t = idCounter t /\ issued t <= issued t)
    by (rewrite app_nil_r; split_and!; [done..|lia]).
  destruct r as [cb d iv [m|] clock|cid iv [m|] clock|cid [m|]]; simpl;
    unfold UA_Timer_addRepeatedCallback, UA_Timer_changeRepeatedCallbackInterval;
    repeat destr_if; simpl in *; try exact Hno; try discriminate.
  - set (e := mkEntry (i64 (clock + i64 (u64 (iv * UA_DATETIME_MSEC)))) _ _ cb d).
    split; [exact (put_add_ok t cs e Hok eq_refl)|simpl; split; [done|lia]].
  - split_and!; [by apply put_change_ok|done|lia].
  - split_and!; [by apply put_change_ok|done|lia].
Qed.

Lemma do_requests_ok rs : forall t cs, timer_ok t cs ->
  timer_ok (fold_left do_request rs t) (cs ++ request_changes (idCounter t) rs) /\
  issued t <= issued (fold_left do_request rs t).
Proof.
  induction rs as [|r rs IH]; intros t cs Hok; cbn [fold_left request_changes].
  - rewrite app_nil_r; split; [done|lia].
  - pose proof (do_request_ok t cs r Hok) as H.
    destruct (request_change (idCounter t) r) as [c n]; destruct H as (H1 & <- & L1).
    destruct (IH _ _ H1) as [H2 L2]; rewrite app_assoc; split; [done|lia].
Qed.

Lemma do_requests_callbacks rs : forall t,
  repeatedCallbacks (fold_left do_request rs t) = repeatedCallbacks t.
Proof.
  induction rs as [|r rs IH]; intros t; simpl; [done|]; rewrite IH.
  destruct r as [cb d iv [m|] clock|cid iv [m|] clock|cid [m|]]; simpl;
    unfold UA_Timer_addRepeatedCallback, UA_Timer_changeRepeatedCallbackInterval;
    by repeat destr_if.
Qed.

Lemma processChanges_ok t cs : timer_ok t cs -> timer_ok (processChanges t) [].
Proof.
  intros [Hs Hq Hc Hids]; destruct (processChanges_spec t cs Hq) as (q & Hq' & ->).
  split; simpl; [by apply apply_changes_sorted|done|done|]; intros Hlt.
  destruct (Hids Hlt) as [Hd Hb]; unfold pending_ids at 1 2; simpl; rewrite app_nil_r.
  pose proof (apply_changes_ids cs (repeatedCallbacks t)) as Hsub; split.
  - by eapply submseteq_nodup.
  - apply Forall_forall; intros i Hi; rewrite Forall_forall in Hb; apply Hb.
    by eapply elem_of_submseteq.
Qed.

(** Exchanging the list for one with the same entries. *)
Lemma set_callbacks_ok t cs l : timer_ok t cs -> by_time l ->
  map id l ≡ₚ map id (repeatedCallbacks t) -> timer_ok (set_callbacks t l) cs.
Proof.
  intros [Hs Hq Hc Hids] Hl Hp; split; simpl; [done..|]; rewrite Hp; exact Hids.
Qed.
End State.

(** ** A run of the main loop *)

Section Process.
Context {Q : Type} {CQ : ChangeQueue UA_TimerCallbackEntry Q}.
Context {App : Type} (dispatchCallback : App -> Z -> Z -> App * list Request).
Implicit Types t : UA_Timer Q.

(** Executing callbacks one after the other: the application and the requests. *)
Fixpoint dispatch_all (due : list UA_TimerCallbackEntry) (app : App) : App * list Request :=
  match due with
  | [] => (app, [])
  | e :: due =>
      let '(app, reqs) := dispatchCallback app (callback e) (data e) in
      let '(app, reqs') := dispatch_all due app in (app, reqs ++ reqs')
  end.

Lemma execute_loop_spec now due : time_ok now -> forall app t l last, loop_ok now l last ->
  exists l' last', loop_ok now l' last' /\ tail l' ≡ₚ map (reschedule now) due ++ tail l /\
  execute_loop dispatchCallback now due app t l last =
    (fst (dispatch_all due app), fold_left do_request (snd (dispatch_all due app)) t, l').
Proof.
  intros Hnow; induction due as [|e due IH]; intros app t l last Hl; cbn [execute_loop dispatch_all].
  { by exists l, last. }
  destruct (dispatchCallback app (callback e) (data e)) as [app1 reqs].
  pose proof (sort_in_spec now l last (reschedule now e) Hl (reschedule_later now e Hnow)) as Hi.
  destruct (sort_in l last (reschedule now e)) as [l1 last1]; destruct Hi as [Hl1 Hp1].
  destruct (IH app1 (fold_left do_request reqs t) l1 last1 Hl1) as (l' & last' & Hl' & Hp & ->).
  exists l', last'; split; [done|]; split.
  - rewrite Hp, Hp1; cbn [map List.app]; by rewrite <- Permutation_middle.
  - destruct (dispatch_all due app1); cbn [fst snd]; by rewrite fold_left_app.
Qed.

(** The state that [UA_Timer_process] is to leave behind. *)
Record processed t cs (now : Z) (app : App) (ret : Z) (app' : App) t' : Prop := mkProcessed {
  pr_app : app' = fst (dispatch_all (base.filter (fun e => nextTime e <= now)
    (fold_left apply_change cs (repeatedCallbacks t))) app);
  pr_list : let es := fold_left apply_change cs (repeatedCallbacks t) in
    let due := base.filter (fun e => nextTime e <= now) es in
    exists es', by_time es' /\
      es' ≡ₚ map (reschedule now) due ++ base.filter (fun e => now < nextTime e) es /\
      repeatedCallbacks t' =
        fold_left apply_change (request_changes (idCounter t) (snd (dispatch_all due app))) es';
  pr_ok : timer_ok t' [];
  pr_issued : issued t <= issued t';
  pr_ret : ret = first_time (repeatedCallbacks t')
}.

Lemma reschedule_ids now l : map id (map (reschedule now) l) = map id l.
Proof. rewrite map_map; by apply map_ext; intros []. Qed.

Lemma split_perm now (l : list UA_TimerCallbackEntry) :
  l ≡ₚ base.filter (fun e => nextTime e <= now) l ++ base.filter (fun e => now < nextTime e) l.
Proof.
  induction l as [|e l IH]; [done|]; rewrite !filter_cons.
  destruct (decide (nextTime e <= now)); [rewrite decide_False by lia|rewrite decide_True by lia].
  - cbn [app]; by constructor.
  - rewrite <- Permutation_middle; by constructor.
Qed.

Lemma process_spec t cs now app garbage : timer_ok t cs -> time_ok now ->
  let '(ret, app', t') := UA_Timer_process dispatchCallback t now app garbage in
  processed t cs now app ret app' t'.
Proof.
  intros Hok Hnow; unfold UA_Timer_process.
  pose proof (processChanges_ok t cs Hok) as Hok1.
  destruct (processChanges_spec t cs (tk_queue _ _ Hok)) as (q & Hq & E); rewrite E in *; clear E.
  set (es := fold_left apply_change cs (repeatedCallbacks t)) in *.
  set (t1 := mkTimer es q (idCounter t) (issued t)) in *; cbn [repeatedCallbacks t1].
  pose proof (tk_sorted _ _ Hok1 : by_time es) as Hs; rewrite (split_now_spec now es Hs).
  pose proof (split_perm now es) as Hperm.
  destruct (base.filter (fun e => nextTime e <= now) es) as [|d due'] eqn:Ed.
  { assert (Ea : base.filter (fun e => now < nextTime e) es = es).
    { apply filter_every, Forall_forall; intros e He; rewrite Hperm in He.
      by apply list_elem_of_filter in He as [? _]. }
    rewrite Ea; split; fold es; rewrite ?Ed; cbn; [done| |done|lia|done].
    exists es; rewrite Ed, Ea; by split_and!. }
  set (due := d :: due') in *.
  assert (Hstart : loop_ok now (set_nextTime garbage (i64 (now - 1)) ::
      base.filter (fun e => now < nextTime e) es) 0).
  { unfold time_ok in Hnow; split; [|split; [simpl; lia|]].
    - apply StronglySorted_cons; split.
      + apply Forall_forall; intros e [He _]%list_elem_of_filter; unfold earlier; simpl.
        rewrite i64_small; lia.
      + by apply sorted_filter.
    - eexists _, _; split; [done|]; simpl; rewrite i64_small; lia. }
  destruct (execute_loop_spec now due Hnow app t1 _ 0%nat Hstart) as (l' & last' & Hl' & Hp & ->).
  cbn [tail] in Hp; set (reqs := snd (dispatch_all due app)).
  destruct (do_requests_ok reqs t1 [] Hok1) as [Hok2 Hn]; cbn [List.app] in Hok2.
  assert (Hsl : by_time (tail l')) by (destruct Hl' as (Hl' & _ & ? & ? & -> & _);
    by apply StronglySorted_cons in Hl' as [_ ?]).
  assert (Hok3 : timer_ok (set_callbacks (fold_left do_request reqs t1) (tail l'))
                          (request_changes (idCounter t) reqs)).
  { apply set_callbacks_ok; [done|done|]; rewrite do_requests_callbacks, Hp; cbn [repeatedCallbacks t1].
    rewrite map_app, reschedule_ids, <- map_app; by apply map_id_perm. }
  destruct (processChanges_spec _ _ (tk_queue _ _ Hok3)) as (q' & _ & E).
  split; fold es; rewrite ?Ed; [done| |by eapply processChanges_ok| |done].
  - exists (tail l'); split; [done|]; rewrite Ed; split; [done|]; by rewrite E.
  - by rewrite E.
Qed.
End Process.

(** ** The theorems *)

(** Requests from any thread and runs of the main loop, in any order. *)
Inductive timer_step {Q App} {CQ : ChangeQueue UA_TimerCallbackEntry Q}
    (dispatchCallback : App -> Z -> Z -> App * list Request)
    : UA_Timer Q * App -> UA_Timer Q * App -> Prop :=
| StepRequest t app r : timer_step dispatchCallback (t, app) (do_request t r, app)
| StepProcess t app now garbage ret app' t' :
    time_ok now ->
    UA_Timer_process dispatchCallback t now app garbage = (ret, app', t') ->
    timer_step dispatchCallback (t, app) (t', app').

Lemma step_ok {Q App} {CQ : ChangeQueue UA_TimerCallbackEntry Q} dispatchCallback
    (s s' : UA_Timer Q * App) :
  timer_step dispatchCallback s s' -> (exists cs, timer_ok (fst s) cs) -> exists cs, timer_ok (fst s') cs.
Proof.
  intros [t app r|t app now garbage ret app' t' Hnow E] [cs Hok]; cbn [fst] in *.
  - pose proof (do_request_ok t cs r Hok) as H; destruct (request_change (idCounter t) r).
    destruct H as [H _]; by eexists.
  - pose proof (process_spec dispatchCallback t cs now app garbage Hok Hnow) as H; rewrite E in H.
    exists []; apply H.
Qed.

(** C38: From the initial timer on, whatever is requested and whenever the main
    loop runs, also when callbacks themselves request changes, the list of
    callbacks is sorted by the time of the next execution; and no two of them
    have the same id as long as fewer than [2 ^ 64] ids were given out. *)
Theorem timer_invariant {Q App} {CQ : ChangeQueue UA_TimerCallbackEntry Q}
    (dispatchCallback : App -> Z -> Z -> App * list Request) app0 app (t : UA_Timer Q) :
  rtc (timer_step dispatchCallback) (UA_Timer_init, app0) (t, app) ->
  StronglySorted (fun a b => nextTime a <= nextTime b) (repeatedCallbacks t) /\
  (issued t < 2 ^ 64 -> NoDup (map id (repeatedCallbacks t))).
Proof.
  intros H; assert (Hok : exists cs, timer_ok (fst (t, app)) cs).
  { apply (rtc_ind_r (fun s => exists cs, timer_ok (fst s) cs)) with (3 := H).
    - exists []; apply init_ok.
    - intros s1 s2 _ Hs; by apply (step_ok dispatchCallback). }
  destruct Hok as [cs Hok]; split; [exact (tk_sorted _ _ Hok)|]; intros Hlt.
  destruct (tk_ids _ _ Hok Hlt) as [Hd _]; by apply NoDup_app in Hd as [? _].
Qed.

(** C32: [UA_Timer_process] first applies the queued changes in order; then it
    calls the callbacks that are due, each once, in the order of their times;
    each of them is put back at its next time (the interval later, or right
    after [now] when that has passed), the others are kept, and the list stays
    sorted; then the changes the callbacks requested are applied.  The result
    is the earliest time of the list, [UA_INT64_MAX] when it is empty. *)
Theorem timer_process_executes {Q App} {CQ : ChangeQueue UA_TimerCallbackEntry Q}
    (dispatchCallback : App -> Z -> Z -> App * list Request) (t : UA_Timer Q) cs now app garbage
    ret app' t' :
  timer_ok t cs -> time_ok now ->
  UA_Timer_process dispatchCallback t now app garbage = (ret, app', t') ->
  let es := fold_left apply_change cs (repeatedCallbacks t) in
  let due := base.filter (fun e => nextTime e <= now) es in
  let '(app1, reqs) := dispatch_all dispatchCallback due app in
  app' = app1 /\
  (exists es', by_time es' /\
     es' ≡ₚ map (reschedule now) due ++ base.filter (fun e => now < nextTime e) es /\
     repeatedCallbacks t' = fold_left apply_change (request_changes (idCounter t) reqs) es') /\
  timer_ok t' [] /\
  match repeatedCallbacks t' with
  | [] => ret = UA_INT64_MAX
  | _ => ret ∈ map nextTime (repeatedCallbacks t') /\
         Forall (fun e => ret <= nextTime e) (repeatedCallbacks t')
  end.
Proof.
  intros Hok Hnow E es due.
  pose proof (process_spec dispatchCallback t cs now app garbage Hok Hnow) as H; rewrite E in H.
  destruct H as [Ha Hl Hok' _ Hr]; fold es in Ha, Hl; cbn zeta in Hl; fold due in Ha, Hl.
  destruct (dispatch_all dispatchCallback due app) as [app1 reqs]; split_and!; [done..|].
  pose proof (tk_sorted _ _ Hok') as Hs; subst ret.
  destruct (repeatedCallbacks t') as [|e r]; [done|]; split; [by left|].
  apply StronglySorted_cons in Hs as [Hs _]; by constructor; [simpl; lia|].
Qed.

(** Dispatching into a log; [requests] are the changes a callback asks for. *)
Definition logging (requests : Z -> Z -> list Request) (log : list (Z * Z)) (cb d : Z)
    : list (Z * Z) * list Request := (log ++ [(cb, d)], requests cb d).

Lemma logging_all requests due : forall log,
  fst (dispatch_all (logging requests) due log) = log ++ map (fun e => (callback e, data e)) due.
Proof.
  induction due as [|e due IH]; intros log; cbn [dispatch_all logging map]; [by rewrite app_nil_r|].
  specialize (IH (log ++ [(callback e, data e)])).
  destruct (dispatch_all _ due _); cbn [fst] in *; rewrite IH; by rewrite <- app_assoc.
Qed.

(** A callback that was added is called by the first run of the main loop at
    or after the end of its interval, whatever else was queued before it and
    whatever the other callbacks do. *)
Theorem added_callback_executed {Q} {CQ : ChangeQueue UA_TimerCallbackEntry Q} requests
    (t t1 t2 : UA_Timer Q) cs cb d iv mem clock cid now garbage ret log log' :
  timer_ok t cs -> 1 < cb -> 0 <= iv < 2 ^ 32 -> -2 ^ 63 <= clock < 2 ^ 62 -> time_ok now ->
  UA_Timer_addRepeatedCallback t cb d iv mem clock = (GOOD, cid, t1) ->
  clock + iv * UA_DATETIME_MSEC <= now ->
  UA_Timer_process (logging requests) t1 now log garbage = (ret, log', t2) ->
  exists before after, log' = log ++ before ++ (cb, d) :: after.
Proof.
  intros Hok Hcb Hiv Hclock Hnow Hadd Hle Hp.
  unfold UA_Timer_addRepeatedCallback in Hadd.
  destruct (cb =? 0), (iv <? 5); try discriminate; destruct mem; [|discriminate].
  set (e := mkEntry (i64 (clock + i64 (u64 (iv * UA_DATETIME_MSEC))))
    (u64 (iv * UA_DATETIME_MSEC)) (u64 (idCounter t + 1)) cb d) in Hadd.
  assert (Et1 : t1 = mkTimer (repeatedCallbacks t) (queue_put (changes t) e) (id e) (issued t + 1))
    by (by injection Hadd as _ <-); subst t1; clear Hadd.
  pose proof (put_add_ok t cs e Hok eq_refl) as Hok1.
  pose proof (process_spec (logging requests) _ _ now log garbage Hok1 Hnow) as H.
  rewrite Hp in H; pose proof (pr_app _ _ _ _ _ _ _ _ H) as Hlog; clear H.
  rewrite logging_all in Hlog; subst log'; rewrite fold_left_app in *; cbn [fold_left repeatedCallbacks] in *.
  set (es := fold_left apply_change cs (repeatedCallbacks t)).
  assert (Happ : apply_change es e = addTimerCallbackEntry es e)
    by (unfold apply_change, REMOVE_SENTINEL, CHANGE_SENTINEL; cbn [callback e];
        rewrite (proj2 (Z.eqb_neq cb 0)), (proj2 (Z.eqb_neq cb 1)) by lia; done).
  rewrite Happ; destruct (add_entry_spec es e) as (t' & Ht' & Hperm & _).
  assert (He : nextTime e = clock + iv * UA_DATETIME_MSEC).
  { unfold e, UA_DATETIME_MSEC, UA_DATETIME_USEC, u64 in *; cbn [nextTime].
    rewrite Z.mod_small by lia; rewrite (i64_small (iv * _)) by lia; apply i64_small; lia. }
  assert (Hin : set_nextTime e t' ∈ base.filter (fun e => nextTime e <= now) (addTimerCallbackEntry es e)).
  { apply list_elem_of_filter; split; [simpl; lia|]; rewrite Hperm; by left. }
  apply list_elem_of_split in Hin as (l1 & l2 & ->).
  rewrite map_app; cbn [map]; by eexists _, _.
Qed.

(** ** Witnesses: two callbacks of 10 and 20 ms *)

Definition ex_mem : UA_TimerCallbackEntry := mkEntry 0 0 0 0 0.
Definition ex_requests : list Request :=
  [AddCallback 100 7 10 (Some ex_mem) 0; AddCallback 101 8 20 (Some ex_mem) 0].
Definition ex_timer : UA_Timer (NodeQueue UA_TimerCallbackEntry) :=
  fold_left do_request ex_requests UA_Timer_init.
Definition ex_log : list (Z * Z) -> Z -> Z -> list (Z * Z) * list Request := logging (fun _ _ => []).
Definition ex_run := UA_Timer_process ex_log ex_timer 100000 [] ex_mem.

Lemma ex_timer_ok : timer_ok ex_timer (request_changes 0 ex_requests).
Proof. exact (proj1 (do_requests_ok ex_requests UA_Timer_init [] init_ok)). Qed.

Lemma timer_invariant_witness :
  map nextTime (repeatedCallbacks (snd ex_run)) = [200000; 200000] /\
  StronglySorted (fun a b => nextTime a <= nextTime b) (repeatedCallbacks (snd ex_run)) /\
  NoDup (map id (repeatedCallbacks (snd ex_run))).
Proof.
  split; [vm_compute; reflexivity|].
  destruct (timer_invariant ex_log [] (snd (fst ex_run)) (snd ex_run)) as [H1 H2].
  - eapply rtc_l; [apply (StepRequest ex_log UA_Timer_init [] (AddCallback 100 7 10 (Some ex_mem) 0))|].
    eapply rtc_l; [apply (StepRequest ex_log _ [] (AddCallback 101 8 20 (Some ex_mem) 0))|].
    apply rtc_once; apply (StepProcess ex_log _ _ 100000 ex_mem (fst (fst ex_run))).
    + unfold time_ok; lia.
    + vm_compute; reflexivity.
  - split; [exact H1|apply H2; vm_compute; reflexivity].
Defined.

Lemma timer_process_executes_witness :
  fst (fst ex_run) = 200000 /\ snd (fst ex_run) = [(100, 7)] /\
  Forall (fun e => 200000 <= nextTime e) (repeatedCallbacks (snd ex_run)).
Proof.
  destruct (timer_process_executes ex_log ex_timer (request_changes 0 ex_requests) 100000 [] ex_mem
    (fst (fst ex_run)) (snd (fst ex_run)) (snd ex_run)) as (Ha & _ & _ & Hr).
  - exact ex_timer_ok.
  - unfold time_ok; lia.
  - vm_compute; reflexivity.
  - split; [vm_compute; reflexivity|]; split; [rewrite Ha; vm_compute; reflexivity|].
    assert (E : fst (fst ex_run) = 200000) by (vm_compute; reflexivity); rewrite E in Hr.
    destruct (repeatedCallbacks (snd ex_run)); [discriminate Hr|exact (proj2 Hr)].
Defined.

Lemma added_callback_executed_witness :
  exists before after,
    snd (fst (UA_Timer_process ex_log
      (snd (UA_Timer_addRepeatedCallback ex_timer 102 9 5 (Some ex_mem) 0)) 100000 [] ex_mem))
    = [] ++ before ++ (102, 9) :: after.
Proof.
  eapply (added_callback_executed (fun _ _ => []) ex_timer _ _ (request_changes 0 ex_requests)
    102 9 5 (Some ex_mem) 0 (Some 3) 100000 ex_mem).
  - exact ex_timer_ok.
  - lia.
  - lia.
  - lia.
  - unfold time_ok; lia.
  - reflexivity.
  - vm_compute; discriminate.
  - vm_compute; reflexivity.
Defined.
