(* ===== verification/NodeStore.v ===== *)
(** * The default node store ([plugins/ua_nodestore_default.c])

    A hash map from node ids to nodes with open addressing, double hashing and
    tombstones.  A slot holds a pointer; the entries live on a heap and count
    the references that were handed out.  The node itself is seen through the
    interface [NodeOps].

    An operation returns [None] when the code would dereference a dangling or
    null pointer or free memory twice.  The model has no second thread, so the
    critical sections are empty and [UA_atomic_cmpxchg] finds the slot as it
    was read. *)

From Stdlib Require Import ZArith Lia.
From stdpp Require Import base list numbers tactics gmap.
From S2P Require Import Prelude UaTypes.

Definition BADNODEIDUNKNOWN : status := 0x80340000.
Definition BADNODEIDEXISTS : status := 0x805E0000.

(** What the store uses of a node; [node_copy src dst] is [UA_Node_copy]. *)
Class NodeOps (N : Type) := {
  node_id : N -> UA_NodeId;
  set_numeric : N -> Z -> N;
  node_class : N -> Z;
  node_new : Z -> N;
  node_copy : N -> N -> status * N;
  set_numeric_id n i :
    node_id (set_numeric n i) = mkNodeId (nid_namespaceIndex (node_id n)) (NumericId i);
  set_numeric_twice n i j : set_numeric (set_numeric n i) j = set_numeric n j
}.

(** A slot holds [NULL], [UA_NODEMAP_TOMBSTONE] or a pointer. *)
Inductive MapSlot :=
| SlotNull
| SlotTombstone
| SlotEntry (p : nat).

#[export] Instance mapslot_eq_dec : EqDecision MapSlot.
Proof. solve_decision. Defined.

(** [entry > UA_NODEMAP_TOMBSTONE] *)
Definition occupied (s : MapSlot) : bool := match s with SlotEntry _ => true | _ => false end.

(** [entry != NULL] *)
Definition nonnull (s : MapSlot) : bool := match s with SlotNull => false | _ => true end.

Record UA_NodeMap := mkNodeMap {
  entries : list MapSlot;
  size : Z;
  count : Z;
  sizePrimeIndex : Z
}.

Definition UA_NODEMAP_MINSIZE : Z := 64.

Definition primes : list Z :=
  [7;         13;         31;         61;         127;         251;
   509;       1021;       2039;       4093;       8191;        16381;
   32749;     65521;      131071;     262139;     524287;      1048573;
   2097143;   4194301;    8388593;    16777213;   33554393;    67108859;
   134217689; 268435399;  536870909;  1073741789; 2147483647;  4294967291].

Definition mod1 (h size : Z) : Z := h mod size.
Definition mod2 (h size : Z) : Z := u32 (1 + h mod u32 (size - 2)).

Fixpoint higher_prime_loop (fuel : nat) (n low high : Z) : Z :=
  match fuel with
  | O => low
  | S fuel =>
      if low =? high then low
      else
        let mid := u16 (low + (high - low) / 2) in
        if nth (Z.to_nat mid) primes 0 <? n
        then higher_prime_loop fuel n (u16 (mid + 1)) high
        else higher_prime_loop fuel n low mid
  end.

(** The interval halves; [length primes] rounds are more than enough. *)
Definition higher_prime_index (n : Z) : Z :=
  higher_prime_loop (length primes) n 0 (zlen primes).

(** ** The table *)

Section Table.
(** [entry->node.nodeId] *)
Context (idof : nat -> option UA_NodeId).

Definition matches (nodeid : UA_NodeId) (s : MapSlot) : bool :=
  match s with
  | SlotEntry p => UA_NodeId_equal (idof p) (Some nodeid)
  | _ => false
  end.

Definition slot_at (l : list MapSlot) (idx : Z) : MapSlot := nth (Z.to_nat idx) l SlotNull.

(** [idx += hash2; if(idx >= size) idx -= size;] *)
Definition advance (idx hash2 size : Z) : Z :=
  let idx := u64 (idx + hash2) in if size <=? idx then u64 (idx - size) else idx.

(** The loops return [None] when the fuel ends, otherwise the slot. *)
Fixpoint findFreeSlot_loop (fuel : nat) (ns : UA_NodeMap) (nodeid : UA_NodeId)
    (hash2 startIdx idx : Z) (retval : option Z) : option (option Z) :=
  match fuel with
  | O => None
  | S fuel =>
      let entry := slot_at (entries ns) (u32 idx) in
      if matches nodeid entry then Some None
      else
        let retval :=
          match retval with
          | Some r => Some r
          | None => if occupied entry then None else Some (u32 idx)
          end in
        let idx := advance idx hash2 (size ns) in
        if negb (u32 idx =? startIdx) && nonnull entry
        then findFreeSlot_loop fuel ns nodeid hash2 startIdx idx retval
        else Some retval
  end.

Fixpoint findOccupiedSlot_loop (fuel : nat) (ns : UA_NodeMap) (nodeid : UA_NodeId)
    (hash2 startIdx idx : Z) : option (option Z) :=
  match fuel with
  | O => None
  | S fuel =>
      let entry := slot_at (entries ns) (u32 idx) in
      if matches nodeid entry then Some (Some (u32 idx))
      else
        let idx := advance idx hash2 (size ns) in
        if negb (u32 idx =? startIdx) && nonnull entry
        then findOccupiedSlot_loop fuel ns nodeid hash2 startIdx idx
        else Some None
  end.

(** The probe sequence returns to its start after [size] steps. *)
Definition findFreeSlot (ns : UA_NodeMap) (nodeid : UA_NodeId) : option (option Z) :=
  let h := UA_NodeId_hash nodeid in
  let idx := mod1 h (size ns) in
  findFreeSlot_loop (Z.to_nat (size ns)) ns nodeid (mod2 h (size ns)) (u32 idx) idx None.

Definition findOccupiedSlot (ns : UA_NodeMap) (nodeid : UA_NodeId) : option (option Z) :=
  let h := UA_NodeId_hash nodeid in
  let idx := mod1 h (size ns) in
  findOccupiedSlot_loop (Z.to_nat (size ns)) ns nodeid (mod2 h (size ns)) (u32 idx) idx.

Definition set_slot (ns : UA_NodeMap) (i : Z) (s : MapSlot) : UA_NodeMap :=
  mkNodeMap (<[Z.to_nat i := s]> (entries ns)) (size ns) (count ns) (sizePrimeIndex ns).

Definition set_count (ns : UA_NodeMap) (n : Z) : UA_NodeMap :=
  mkNodeMap (entries ns) (size ns) n (sizePrimeIndex ns).

(** [for(size_t i = 0, j = 0; i < osize && j < count; ++i)] *)
Fixpoint rehash (oentries : list MapSlot) (j : Z) (ns : UA_NodeMap) : option UA_NodeMap :=
  match oentries with
  | [] => Some ns
  | s :: oentries =>
      if j <? count ns then
        match s with
        | SlotEntry p =>
            nodeid ← idof p;
            e ← findFreeSlot ns nodeid;
            e ← e;
            rehash oentries (j + 1) (set_slot ns e s)
        | _ => rehash oentries j ns
        end
      else Some ns
  end.

Definition expand (calloc_ok : Z -> bool) (ns : UA_NodeMap) : option (status * UA_NodeMap) :=
  let osize := size ns in
  let n := count ns in
  if (u32 (n * 2) <? osize) && ((osize <? u32 (n * 8)) || (osize <=? UA_NODEMAP_MINSIZE))
  then Some (GOOD, ns)
  else
    let nindex := higher_prime_index (u32 (n * 2)) in
    nsize ← primes !! Z.to_nat nindex;
    if negb (calloc_ok nsize) then Some (BADOUTOFMEMORY, ns)
    else
      ns ← rehash (entries ns) 0 (mkNodeMap (replicate (Z.to_nat nsize) SlotNull) nsize n nindex);
      Some (GOOD, ns).
End Table.

(** ** Entries and the heap *)

Section Store.
Context {N : Type} {NO : NodeOps N}.

Record UA_NodeMapEntry := mkMapEntry {
  orig : option nat;
  refCount : Z;
  deleted : bool;
  node : N
}.

Record Store := mkStore {
  nodemap : UA_NodeMap;
  heap : gmap nat UA_NodeMapEntry
}.

Definition set_map (st : Store) (ns : UA_NodeMap) : Store := mkStore ns (heap st).
Definition set_heap (st : Store) (h : gmap nat UA_NodeMapEntry) : Store := mkStore (nodemap st) h.
Definition store_entry (st : Store) (p : nat) (e : UA_NodeMapEntry) : Store :=
  set_heap st (<[p := e]> (heap st)).

Definition idof (st : Store) (p : nat) : option UA_NodeId := node_id ∘ node <$> heap st !! p.

(** The node classes that [newEntry] knows. *)
Definition known_class (c : Z) : bool := bool_decide (c ∈ [1; 2; 4; 8; 16; 32; 64; 128]).

(** [mem] is the address [UA_calloc] returns, [None] for [NULL]. *)
Definition newEntry (st : Store) (nodeClass : Z) (mem : option nat) : option nat * Store :=
  if negb (known_class nodeClass) then (None, st)
  else match mem with
       | None => (None, st)
       | Some p => (Some p, store_entry st p (mkMapEntry None 0 false (node_new nodeClass)))
       end.

Definition deleteEntry (st : Store) (p : nat) : option Store :=
  _ ← heap st !! p; Some (set_heap st (delete p (heap st))).

Definition cleanupEntry (st : Store) (p : nat) : option Store :=
  e ← heap st !! p;
  if deleted e && (refCount e =? 0) then deleteEntry st p else Some st.

(** [entry->deleted = true; cleanupEntry(entry);] *)
Definition mark_deleted (st : Store) (p : nat) : option Store :=
  e ← heap st !! p;
  cleanupEntry (store_entry st p (mkMapEntry (orig e) (refCount e) true (node e))) p.

Definition clearSlot (calloc_ok : Z -> bool) (st : Store) (slot : Z) : option (status * Store) :=
  match slot_at (entries (nodemap st)) slot with
  | SlotEntry p =>
      st ← mark_deleted (set_map st (set_slot (nodemap st) slot SlotTombstone)) p;
      let ns := set_count (nodemap st) (u32 (count (nodemap st) - 1)) in
      if (u32 (count ns * 8) <? size ns) && (32 <? size ns) then
        '(_, ns) ← expand (idof st) calloc_ok ns;
        Some (GOOD, set_map st ns)
      else Some (GOOD, set_map st ns)
  | _ => None
  end.

(** ** Interface functions *)

Definition UA_NodeMap_newNode (st : Store) (nodeClass : Z) (mem : option nat) : option nat * Store :=
  newEntry st nodeClass mem.

Definition UA_NodeMap_deleteNode (st : Store) (p : nat) : option Store := deleteEntry st p.

(** The pointer in a slot that was found. *)
Definition slot_entry (st : Store) (i : Z) : option nat :=
  match slot_at (entries (nodemap st)) i with SlotEntry p => Some p | _ => None end.

Definition add_reference (st : Store) (p : nat) (n : Z) : option Store :=
  e ← heap st !! p;
  Some (store_entry st p (mkMapEntry (orig e) (u16 (refCount e + n)) (deleted e) (node e))).

Definition UA_NodeMap_getNode (st : Store) (nodeid : UA_NodeId) : option (option nat * Store) :=
  entry ← findOccupiedSlot (idof st) (nodemap st) nodeid;
  match entry with
  | None => Some (None, st)
  | Some i =>
      p ← slot_entry st i;
      st ← add_reference st p 1;
      Some (Some p, st)
  end.

Definition UA_NodeMap_releaseNode (st : Store) (node : option nat) : option Store :=
  match node with
  | None => Some st
  | Some p => st ← add_reference st p (-1); cleanupEntry st p
  end.

Definition UA_NodeMap_getNodeCopy (st : Store) (nodeid : UA_NodeId) (mem : option nat)
    : option (status * option nat * Store) :=
  slot ← findOccupiedSlot (idof st) (nodemap st) nodeid;
  match slot with
  | None => Some (BADNODEIDUNKNOWN, None, st)
  | Some i =>
      p ← slot_entry st i;
      e ← heap st !! p;
      let '(newItem, st) := newEntry st (node_class (node e)) mem in
      match newItem with
      | None => Some (BADOUTOFMEMORY, None, st)
      | Some q =>
          ne ← heap st !! q;
          let '(retval, n) := node_copy (node e) (node ne) in
          if bad retval then st ← deleteEntry st q; Some (retval, None, st)
          else Some (retval, Some q,
                     store_entry st q (mkMapEntry (Some p) (refCount ne) (deleted ne) n))
      end
  end.

Definition UA_NodeMap_removeNode (calloc_ok : Z -> bool) (st : Store) (nodeid : UA_NodeId)
    : option (status * Store) :=
  slot ← findOccupiedSlot (idof st) (nodemap st) nodeid;
  match slot with
  | Some i => clearSlot calloc_ok st i
  | None => Some (BADNODEIDUNKNOWN, st)
  end.

(** The search for an unused numeric identifier: the node with the identifier
    that was tried last, and the slot. *)
Fixpoint new_identifier_loop (fuel : nat) (st : Store) (p : nat) (increase startId identifier : Z)
    : option (Store * option Z) :=
  match fuel with
  | O => None
  | S fuel =>
      e ← heap st !! p;
      let n := set_numeric (node e) (u32 identifier) in
      let st := store_entry st p (mkMapEntry (orig e) (refCount e) (deleted e) n) in
      slot ← findFreeSlot (idof st) (nodemap st) (node_id n);
      match slot with
      | Some i => Some (st, Some i)
      | None =>
          let identifier := advance identifier increase (size (nodemap st)) in
          if u32 identifier =? startId then Some (st, None)
          else new_identifier_loop fuel st p increase startId identifier
      end
  end.

Definition null_numeric (n : UA_NodeId) : bool :=
  match nid_identifier n with NumericId i => i =? 0 | _ => false end.

(** The identifiers first fall from the start below [size], then run through
    all remainders. *)
Definition new_identifier_fuel (size : Z) : nat := Z.to_nat (size + 50003 + size).

Definition find_slot_for (st : Store) (p : nat) : option (Store * option Z) :=
  e ← heap st !! p;
  if null_numeric (node_id (node e)) then
    let size := size (nodemap st) in
    let identifier := mod1 (u32 (50000 + size + 1)) UA_UINT32_MAX in
    let increase := mod2 (u32 (count (nodemap st) + 1)) size in
    new_identifier_loop (new_identifier_fuel size) st p increase (u32 identifier) identifier
  else
    slot ← findFreeSlot (idof st) (nodemap st) (node_id (node e));
    Some (st, slot).

(** [node] is the node of the entry [p].  [nodeid_copy] is the result of
    [UA_NodeId_copy] into [addedNodeId], [None] when that is [NULL]. *)
Definition UA_NodeMap_insertNode (calloc_ok : Z -> bool) (st : Store) (p : nat)
    (nodeid_copy : option status) : option (status * Store) :=
  let ns := nodemap st in
  '(grown, ns) ← (if u32 (size ns * 3) <=? u32 (count ns * 4)
                  then expand (idof st) calloc_ok ns else Some (GOOD, ns));
  let st := set_map st ns in
  if bad grown then Some (BADINTERNALERROR, st)
  else
    '(st, slot) ← find_slot_for st p;
    match slot with
    | None => st ← deleteEntry st p; Some (BADNODEIDEXISTS, st)
    | Some i =>
        if bad (default GOOD nodeid_copy) then
          st ← deleteEntry st p; Some (default GOOD nodeid_copy, st)
        else if occupied (slot_at (entries (nodemap st)) i) then
          st ← deleteEntry st p; Some (BADNODEIDEXISTS, st)
        else
          let ns := set_slot (nodemap st) i (SlotEntry p) in
          Some (GOOD, set_map st (set_count ns (u32 (count ns + 1))))
    end.

Definition UA_NodeMap_replaceNode (st : Store) (p : nat) : option (status * Store) :=
  e ← heap st !! p;
  slot ← findOccupiedSlot (idof st) (nodemap st) (node_id (node e));
  match slot with
  | None => Some (BADNODEIDUNKNOWN, st)
  | Some i =>
      old ← slot_entry st i;
      if negb (bool_decide (Some old = orig e)) then
        st ← deleteEntry st p; Some (BADINTERNALERROR, st)
      else
        st ← mark_deleted (set_map st (set_slot (nodemap st) i (SlotEntry p))) old;
        Some (GOOD, st)
  end.

(** The visitor sees the pointer of the node and may itself use the store. *)
Fixpoint UA_NodeMap_iterate {App} (visitor : App -> Store -> nat -> App * Store) (fuel : nat) (i : Z)
    (app : App) (st : Store) : option (App * Store) :=
  match fuel with
  | O => None
  | S fuel =>
      if i <? size (nodemap st) then
        match slot_at (entries (nodemap st)) i with
        | SlotEntry p =>
            st ← add_reference st p 1;
            let '(app, st) := visitor app st p in
            st ← add_reference st p (-1);
            st ← cleanupEntry st p;
            UA_NodeMap_iterate visitor fuel (u32 (i + 1)) app st
        | _ => UA_NodeMap_iterate visitor fuel (u32 (i + 1)) app st
        end
      else Some (app, st)
  end.

(** The loop that releases all entries; then the map itself is freed. *)
Fixpoint delete_entries (l : list MapSlot) (st : Store) : option Store :=
  match l with
  | [] => Some st
  | SlotEntry p :: l => st ← deleteEntry st p; delete_entries l st
  | _ :: l => delete_entries l st
  end.

Definition UA_NodeMap_delete (st : Store) : option Store :=
  delete_entries (entries (nodemap st)) st.

(** [malloc_ok] and [calloc_ok] are the two allocations. *)
Definition UA_Nodestore_default_new (malloc_ok calloc_ok : bool) : status * option Store :=
  if negb malloc_ok then (BADOUTOFMEMORY, None)
  else
    let index := higher_prime_index UA_NODEMAP_MINSIZE in
    let size := nth (Z.to_nat index) primes 0 in
    if negb calloc_ok then (BADOUTOFMEMORY, None)
    else (GOOD, Some (mkStore (mkNodeMap (replicate (Z.to_nat size) SlotNull) size 0 index) ∅)).
End Store.
Arguments UA_NodeMapEntry N : clear implicits.
Arguments Store N : clear implicits.
