(* ===== verification/NodeStoreTable.v ===== *)
(** * The hash table of the node store

    The sizes are primes, so that the probe sequence of double hashing visits
    every slot before it returns to its start.  [table_wf] is the invariant of
    open addressing: no empty slot lies on the probe sequence of a stored node
    before its slot. *)

From Stdlib Require Import ZArith Lia Znumtheory.
From stdpp Require Import base list numbers tactics gmap.
From Stdlib Require Import ZArith Lia.
From S2P Require Import Prelude UaTypes NodeStore.

(** ** The table of primes *)

(** No odd number from [d] on, [fuel] of them, divides [n]. *)
Fixpoint no_odd_divisor (fuel : nat) (d n : Z) : bool :=
  match fuel with
  | O => false
  | S fuel => if n <? d * d then true
              else negb (n mod d =? 0) && no_odd_divisor fuel (d + 2) n
  end.

Definition prime_check (n : Z) : bool :=
  (3 <=? n) && Z.odd n && no_odd_divisor (Z.to_nat (Z.sqrt n)) 3 n.

Lemma no_odd_divisor_spec fuel : forall d n, 0 < d -> Z.odd d = true -> no_odd_divisor fuel d n = true ->
  forall e, d <= e -> e * e <= n -> Z.odd e = true -> ~ (e | n).
Proof.
  induction fuel as [|fuel IH]; intros d n Hd Ho H e He Hn Hodd; [done|]; cbn [no_odd_divisor] in H.
  destruct (n <? d * d) eqn:E; zbool; [nia|].
  destruct (decide (e = d)) as [-> |Hne].
  - intros Hdiv; apply Z.mod_divide in Hdiv; [zbool; lia|lia].
  - eapply (IH (d + 2)); [lia| |eassumption|..|done|done].
    + by rewrite Z.odd_add, Ho.
    + assert (e <> d + 1); [|lia]; intros ->.
      by rewrite Z.odd_add, Ho in Hodd.
Qed.

Lemma prime_check_prime n : prime_check n = true -> Z.prime n.
Proof.
  unfold prime_check; intros H; zbool; split; [lia|].
  intros d [Hd1 Hd2] [q ->].
  assert (Hodd : Z.odd q = true /\ Z.odd d = true)
    by (rewrite Z.odd_mul, andb_true_iff in *; tauto).
  assert (Hq : 1 < q) by nia.
  assert (Hcase : d * d <= q * d \/ q * q <= q * d) by nia.
  destruct Hodd as [Hoq Hod], Hcase as [Hle|Hle].
  - eapply (no_odd_divisor_spec _ 3 (q * d)); [lia|done|eassumption| |exact Hle|done|by exists q].
    assert (d <> 2) by (by intros ->); lia.
  - eapply (no_odd_divisor_spec _ 3 (q * d)); [lia|done|eassumption| |exact Hle|done|exists d; lia].
    assert (q <> 2) by (by intros ->); lia.
Qed.

(** The sizes of tables of up to [2 ^ 26] nodes. *)
Definition sizes : list Z := take 26 primes.

Lemma sizes_checked : forallb (fun p => prime_check p && (7 <=? p) && (p <? 2 ^ 28)) sizes = true.
Proof. vm_compute; reflexivity. Qed.

Lemma sizes_ok p : p ∈ sizes -> Z.prime p /\ 7 <= p < 2 ^ 28.
Proof.
  intros Hp; pose proof sizes_checked as H; rewrite forallb_forall in H.
  apply list_elem_of_In in Hp; specialize (H p Hp); zbool.
  split; [by apply prime_check_prime|lia].
Qed.

(** ** The probe sequence *)

Section Probe.
Context (p : Z) (Hp : Z.prime p).

(** Two steps of the sequence meet only when their distance is a multiple. *)
Lemma probe_inj start step j k : 1 <= step < p ->
  (start + j * step) mod p = (start + k * step) mod p -> (p | j - k).
Proof.
  intros Hs Heq; pose proof (Z.prime_ge_2 p Hp).
  assert (Hdiv : (p | (j - k) * step)).
  { exists ((start + j * step) / p - (start + k * step) / p).
    rewrite (Z.mul_comm _ p), Z.mul_sub_distr_l.
    pose proof (Z.div_mod (start + j * step) p); pose proof (Z.div_mod (start + k * step) p); lia. }
  destruct (proj1 (Z.divide_prime_mul _ _ p Hp) Hdiv) as [|Hstep]; [done|].
  apply Z.divide_pos_le in Hstep; lia.
Qed.

Lemma probe_start start step k : 1 <= step < p -> 0 < k < p -> 0 <= start < p ->
  (start + k * step) mod p <> start.
Proof.
  intros Hs Hk Hst Heq.
  assert (Hd : (p | k - 0)); [|apply Z.divide_pos_le in Hd; lia].
  apply (probe_inj start step k 0 Hs); rewrite Heq, Z.mul_0_l, Z.add_0_r; by rewrite Z.mod_small.
Qed.

(** Every slot is visited within [p] steps. *)
Lemma probe_onto start step i : 1 <= step < p -> 0 <= i < p ->
  exists k, 0 <= k < p /\ (start + k * step) mod p = i.
Proof.
  intros Hs Hi.
  destruct (Z.Bezout_coprime p step) as (v & u & Huv); [by apply Z.coprime_prime_small|].
  exists ((u * (i - start)) mod p); split; [apply Z.mod_pos_bound; lia|].
  rewrite <- Zplus_mod_idemp_r, Zmult_mod_idemp_l, Zplus_mod_idemp_r.
  replace (start + u * (i - start) * step) with (i + - v * (i - start) * p)
    by (replace (u * (i - start) * step) with ((i - start) * (u * step)) by ring;
        replace (u * step) with (1 - v * p) by lia; ring).
  rewrite Z.mod_add by lia; by apply Z.mod_small.
Qed.
End Probe.

Lemma advance_mod idx step size : 0 <= idx < size -> 1 <= step < size -> size < 2 ^ 28 ->
  advance idx step size = (idx + step) mod size.
Proof.
  intros Hi Hs Hz; unfold advance, u64; rewrite !(Z.mod_small (idx + step)) by lia.
  destruct (size <=? idx + step) eqn:E; zbool.
  - rewrite Z.mod_small by lia; apply Z.mod_unique with (q := 1); lia.
  - by rewrite Z.mod_small by lia.
Qed.

Lemma mod2_range h size : 7 <= size < 2 ^ 28 -> 1 <= mod2 h size <= size - 2.
Proof.
  intros Hs; unfold mod2; rewrite (u32_small (size - 2)) by lia.
  pose proof (Z.mod_pos_bound h (size - 2)); rewrite u32_small; lia.
Qed.

(** Where the [k]-th step of the search for a node id looks. *)
Definition probe (ns : UA_NodeMap) (id : UA_NodeId) (k : Z) : Z :=
  (mod1 (UA_NodeId_hash id) (size ns) + k * mod2 (UA_NodeId_hash id) (size ns)) mod size ns.

Abbreviation slot ns i := (slot_at (entries ns) i).

(** [i] is on the sequence of [id], and no empty slot comes before it. *)
Definition reach (ns : UA_NodeMap) (id : UA_NodeId) (i : Z) : Prop :=
  exists k, 0 <= k < size ns /\ probe ns id k = i /\
            forall j, 0 <= j < k -> slot ns (probe ns id j) <> SlotNull.

(** The pointers in the slots. *)
Definition ptrs (l : list MapSlot) : list nat :=
  omap (fun s => match s with SlotEntry p => Some p | _ => None end) l.

Record table_wf (idof : nat -> option UA_NodeId) (ns : UA_NodeMap) : Prop := mkTableWf {
  tw_size : size ns ∈ sizes;
  tw_len : length (entries ns) = Z.to_nat (size ns);
  tw_ids : forall p, p ∈ ptrs (entries ns) -> exists id, idof p = Some id /\ nodeid_valid id;
  tw_nodup : NoDup (ptrs (entries ns));
  tw_unique : forall p q idp idq, p ∈ ptrs (entries ns) -> q ∈ ptrs (entries ns) ->
    idof p = Some idp -> idof q = Some idq -> nodeid_eqv idp idq -> p = q;
  tw_chain : forall i p id, 0 <= i < size ns -> slot ns i = SlotEntry p -> idof p = Some id ->
    reach ns id i
}.

(** [p] is stored under a node id that names the same node as [id]. *)
Definition stored (idof : nat -> option UA_NodeId) (ns : UA_NodeMap) (id : UA_NodeId) (p : nat) : Prop :=
  p ∈ ptrs (entries ns) /\ exists idp, idof p = Some idp /\ nodeid_eqv idp id.

Lemma elem_of_ptrs l p : p ∈ ptrs l <-> SlotEntry p ∈ l.
Proof.
  unfold ptrs; rewrite list_elem_of_omap; split.
  - intros ([| |q] & Hq & E); by simplify_eq.
  - intros H; by exists (SlotEntry p).
Qed.

Lemma slot_lookup (l : list MapSlot) i : 0 <= i < zlen l -> l !! Z.to_nat i = Some (slot_at l i).
Proof.
  unfold zlen, slot_at; intros Hi; destruct (l !! Z.to_nat i) as [s|] eqn:E.
  - by rewrite (nth_lookup_Some _ _ _ _ E).
  - apply lookup_ge_None in E; lia.
Qed.

Lemma ptrs_slot ns p : length (entries ns) = Z.to_nat (size ns) -> p ∈ ptrs (entries ns) ->
  exists i, 0 <= i < size ns /\ slot ns i = SlotEntry p.
Proof.
  intros Hl Hp; apply elem_of_ptrs, list_elem_of_lookup in Hp as [i Hi].
  exists (Z.of_nat i); pose proof (lookup_lt_Some _ _ _ Hi); split; [lia|].
  unfold slot_at; rewrite Nat2Z.id; by apply nth_lookup_Some.
Qed.

Lemma slot_ptrs ns i p : slot ns i = SlotEntry p -> p ∈ ptrs (entries ns).
Proof.
  unfold slot_at; intros H; apply elem_of_ptrs.
  destruct (nth_in_or_default (Z.to_nat i) (entries ns) SlotNull) as [Hin|Hd]; [|congruence].
  rewrite H in Hin; by apply list_elem_of_In.
Qed.

(** ** Searching *)

Section Search.
Context (idof : nat -> option UA_NodeId) (ns : UA_NodeMap) (Hwf : table_wf idof ns).
Context (id : UA_NodeId) (Hid : nodeid_valid id).

Local Abbreviation at_probe k := (slot ns (probe ns id k)).

Lemma size_ok : Z.prime (size ns) /\ 7 <= size ns < 2 ^ 28.
Proof using Hwf. apply sizes_ok, (tw_size _ _ Hwf). Qed.

Lemma probe_range k : 0 <= probe ns id k < size ns.
Proof using Hwf. apply Z.mod_pos_bound; pose proof size_ok; lia. Qed.

Lemma probe_0 : probe ns id 0 = mod1 (UA_NodeId_hash id) (size ns).
Proof using Hwf.
  unfold probe, mod1; rewrite Z.mul_0_l, Z.add_0_r; apply Z.mod_mod; pose proof size_ok; lia.
Qed.

Lemma probe_next k : advance (probe ns id k) (mod2 (UA_NodeId_hash id) (size ns)) (size ns) = probe ns id (k + 1).
Proof using Hwf.
  destruct size_ok as [_ Hs]; pose proof (mod2_range (UA_NodeId_hash id) (size ns) Hs).
  rewrite advance_mod; [|apply probe_range|lia|lia]; unfold probe.
  rewrite Zplus_mod_idemp_l; f_equal; ring.
Qed.

(** The loop is back at its start exactly after [size] steps. *)
Lemma probe_back k : 0 <= k < size ns ->
  (u32 (probe ns id (k + 1)) =? u32 (mod1 (UA_NodeId_hash id) (size ns))) = (k + 1 =? size ns).
Proof using Hwf.
  intros Hk; destruct size_ok as [Hp Hs]; pose proof (mod2_range (UA_NodeId_hash id) (size ns) Hs).
  rewrite <- probe_0; pose proof (probe_range (k + 1)); pose proof (probe_range 0).
  rewrite !u32_small by lia; rewrite probe_0 in *.
  destruct (k + 1 =? size ns) eqn:E; zbool.
  - rewrite E; apply Z.eqb_eq; unfold probe; rewrite (Z.mul_comm (size ns)), Z.mod_add by lia.
    unfold mod1; apply Z.mod_mod; lia.
  - apply Z.eqb_neq; unfold probe; apply probe_start; [done|lia|lia|].
    apply Z.mod_pos_bound; lia.
Qed.

Lemma matches_stored i p : slot ns i = SlotEntry p ->
  matches idof id (SlotEntry p) = true <-> stored idof ns id p.
Proof using Hwf Hid.
  intros Hi; pose proof (slot_ptrs _ _ _ Hi) as Hp; destruct (tw_ids _ _ Hwf p Hp) as (idp & E & Hv).
  unfold matches, stored; rewrite E, UA_NodeId_equal_spec by done; split.
  - intros Heq; split; [done|]; by exists idp.
  - intros (_ & ? & [= <-] & ?); done.
Qed.

(** A stored node is found on its sequence before any empty slot. *)
Lemma stored_probe p : stored idof ns id p ->
  exists k, 0 <= k < size ns /\ at_probe k = SlotEntry p /\
            forall j, 0 <= j < k -> at_probe j <> SlotNull.
Proof using Hwf.
  intros (Hp & idp & E & Heq); destruct (ptrs_slot ns p (tw_len _ _ Hwf) Hp) as (i & Hi & Hs).
  destruct (tw_chain _ _ Hwf i p idp Hi Hs E) as (k & Hk & Hpk & Hj).
  assert (Hprobe : forall k, probe ns id k = probe ns idp k)
    by (intros; unfold probe; by rewrite (UA_NodeId_hash_proper _ _ Heq)).
  exists k; rewrite Hprobe, Hpk; do 2 (split; [done|]); intros j Hlt; rewrite Hprobe; auto.
Qed.

(** What is known when the loops come to step [k]. *)
Definition passed (k : Z) : Prop :=
  forall j, 0 <= j < k -> matches idof id (at_probe j) = false /\ at_probe j <> SlotNull.

Lemma passed_next k : passed k -> matches idof id (at_probe k) = false -> at_probe k <> SlotNull ->
  passed (k + 1).
Proof.
  intros Hp Hm Hn j Hj; destruct (decide (j = k)) as [-> |]; [done|]; apply Hp; lia.
Qed.

(** The search ends without a match: the node is not stored. *)
Lemma passed_end k : 0 <= k < size ns -> passed k -> matches idof id (at_probe k) = false ->
  at_probe k = SlotNull \/ k + 1 = size ns -> forall p, ~ stored idof ns id p.
Proof using Hwf Hid.
  intros Hk Hp Hm Hend p Hst; destruct (stored_probe p Hst) as (k' & Hk' & Hs & Hnn).
  assert (Hm' : matches idof id (at_probe k') = true) by (rewrite Hs; by eapply matches_stored).
  destruct (decide (k' < k)) as [Hlt|Hge]; [destruct (Hp k'); [lia|congruence]|].
  destruct (decide (k' = k)) as [-> |Hne]; [congruence|].
  destruct Hend as [Hnull|Hlast]; [|lia]; by apply (Hnn k); [lia|].
Qed.

Lemma u32_probe k : u32 (probe ns id k) = probe ns id k.
Proof using Hwf. pose proof (probe_range k); pose proof size_ok; apply u32_small; lia. Qed.

Lemma nonnull_spec s : nonnull s = true <-> s <> SlotNull.
Proof. by destruct s. Qed.

Lemma findOccupied_loop fuel : forall k, 0 <= k < size ns -> size ns <= k + Z.of_nat fuel -> passed k ->
  match findOccupiedSlot_loop idof fuel ns id (mod2 (UA_NodeId_hash id) (size ns))
          (u32 (mod1 (UA_NodeId_hash id) (size ns))) (probe ns id k) with
  | Some (Some i) => exists p, 0 <= i < size ns /\ slot ns i = SlotEntry p /\ stored idof ns id p
  | Some None => forall p, ~ stored idof ns id p
  | None => False
  end.
Proof using Hwf Hid.
  induction fuel as [|fuel IH]; intros k Hk Hf Hp; [lia|]; cbn [findOccupiedSlot_loop].
  rewrite u32_probe, probe_next, (probe_back k Hk).
  destruct (matches idof id (at_probe k)) eqn:Em.
  { destruct (at_probe k) as [| |p] eqn:Es; [done..|]; exists p.
    split; [apply probe_range|]; split; [done|]; by eapply matches_stored. }
  destruct (k + 1 =? size ns) eqn:El; cbn [negb andb]; zbool.
  { apply (passed_end k); auto. }
  destruct (nonnull (at_probe k)) eqn:En.
  - apply IH; [lia|lia|]; apply passed_next; [done..|by apply nonnull_spec].
  - apply (passed_end k); [done..|left]; by destruct (at_probe k).
Qed.

(** [findOccupiedSlot] terminates and finds a node exactly when it is stored. *)
Lemma findOccupiedSlot_spec :
  match findOccupiedSlot idof ns id with
  | Some (Some i) => exists p, 0 <= i < size ns /\ slot ns i = SlotEntry p /\ stored idof ns id p
  | Some None => forall p, ~ stored idof ns id p
  | None => False
  end.
Proof using Hwf Hid.
  unfold findOccupiedSlot; pose proof (findOccupied_loop (Z.to_nat (size ns)) 0) as H.
  pose proof size_ok; rewrite probe_0 in H; apply H; [lia|lia|intros j; lia].
Qed.

(** What [retval] holds at step [k]. *)
Definition first_free (k : Z) (retval : option Z) : Prop :=
  match retval with
  | None => forall j, 0 <= j < k -> occupied (at_probe j) = true
  | Some i => occupied (slot ns i) = false /\ 0 <= i < size ns /\ reach ns id i
  end.

Lemma first_free_next k retval : 0 <= k < size ns -> first_free k retval ->
  first_free (k + 1) (match retval with
                      | Some r => Some r
                      | None => if occupied (at_probe k) then None else Some (probe ns id k)
                      end).
Proof using Hwf.
  intros Hk; destruct retval as [r|]; [done|]; intros Hf; destruct (occupied (at_probe k)) eqn:E.
  - intros j Hj; destruct (decide (j = k)) as [-> |]; [done|]; apply Hf; lia.
  - split; [done|]; split; [apply probe_range|]; exists k; split; [done|]; split; [done|].
    intros j Hj Hn; specialize (Hf j Hj); by rewrite Hn in Hf.
Qed.

Lemma findFree_loop fuel : forall k retval, 0 <= k < size ns -> size ns <= k + Z.of_nat fuel ->
  passed k -> first_free k retval ->
  match findFreeSlot_loop idof fuel ns id (mod2 (UA_NodeId_hash id) (size ns))
          (u32 (mod1 (UA_NodeId_hash id) (size ns))) (probe ns id k) retval with
  | Some (Some i) => (forall p, ~ stored idof ns id p) /\ first_free 0 (Some i)
  | Some None => (exists p, stored idof ns id p) \/ first_free (size ns) None
  | None => False
  end.
Proof using Hwf Hid.
  induction fuel as [|fuel IH]; intros k retval Hk Hf Hp Hfree; [lia|]; cbn [findFreeSlot_loop].
  rewrite u32_probe, probe_next, (probe_back k Hk).
  destruct (matches idof id (at_probe k)) eqn:Em.
  { destruct (at_probe k) as [| |p] eqn:Es; [done..|]; left; exists p; by eapply matches_stored. }
  pose proof (first_free_next k retval Hk Hfree) as Hnext; set (r := match retval with Some _ => _ | _ => _ end) in *.
  destruct (k + 1 =? size ns) eqn:El; cbn [negb andb]; zbool.
  { destruct r as [i|].
    - split; [|exact Hnext]; apply (passed_end k); auto.
    - right; by rewrite El in Hnext. }
  destruct (nonnull (at_probe k)) eqn:En.
  - apply IH; [lia|lia| |done]; apply passed_next; [done..|by apply nonnull_spec].
  - assert (Hnull : at_probe k = SlotNull) by (by destruct (at_probe k)).
    destruct r as [i|]; [split; [apply (passed_end k); auto|exact Hnext]|].
    specialize (Hnext k ltac:(lia)); by rewrite Hnull in Hnext.
Qed.

(** When some slot is free, [findFreeSlot] fails only for a stored node. *)
Lemma findFreeSlot_spec : zlen (ptrs (entries ns)) < size ns ->
  match findFreeSlot idof ns id with
  | Some (Some i) => (forall p, ~ stored idof ns id p) /\
      occupied (slot ns i) = false /\ 0 <= i < size ns /\ reach ns id i
  | Some None => exists p, stored idof ns id p
  | None => False
  end.
Proof using Hwf Hid.
  intros Hroom; unfold findFreeSlot; destruct size_ok as [Hprime Hs].
  pose proof (findFree_loop (Z.to_nat (size ns)) 0 None) as H; rewrite probe_0 in H.
  destruct (findFreeSlot_loop _ _ _ _ _ _ _ _) as [[i|]|]; [apply H|destruct H as [|H]|apply H];
    try done; try lia; try (intros j; lia).
  exfalso; assert (Hall : forall i, 0 <= i < size ns -> occupied (slot ns i) = true).
  { intros i Hi; pose proof (mod2_range (UA_NodeId_hash id) (size ns) Hs).
    destruct (probe_onto (size ns) Hprime (mod1 (UA_NodeId_hash id) (size ns))
      (mod2 (UA_NodeId_hash id) (size ns)) i) as (k & Hk & Hki); [lia|done|].
    specialize (H k Hk); unfold probe in H; by rewrite Hki in H. }
  assert (Hlen : length (ptrs (entries ns)) = length (entries ns)); [|unfold zlen in Hroom;
    rewrite Hlen, (tw_len _ _ Hwf) in Hroom; lia].
  assert (Hocc : Forall (fun s => occupied s = true) (entries ns)).
  { apply Forall_lookup; intros i s Hi; pose proof (lookup_lt_Some _ _ _ Hi).
    specialize (Hall (Z.of_nat i)); unfold slot_at in Hall; rewrite Nat2Z.id in Hall.
    rewrite (nth_lookup_Some _ _ _ _ Hi) in Hall; apply Hall; rewrite (tw_len _ _ Hwf) in *; lia. }
  clear -Hocc; induction Hocc as [|[| |p] l Hp Hl IH]; simpl; [done..|by f_equal].
Qed.
End Search.

(** ** Updating slots *)

Definition ptr_of (s : MapSlot) : list nat := ptrs [s].

Lemma ptrs_cons s l : ptrs (s :: l) = ptr_of s ++ ptrs l.
Proof. by destruct s. Qed.

Lemma ptrs_app l1 l2 : ptrs (l1 ++ l2) = ptrs l1 ++ ptrs l2.
Proof. apply omap_app. Qed.

(** The other pointers of the table. *)
Lemma ptrs_insert l i s : 0 <= i < zlen l -> exists rest,
  ptrs l ≡ₚ ptr_of (slot_at l i) ++ rest /\ ptrs (<[Z.to_nat i := s]> l) ≡ₚ ptr_of s ++ rest.
Proof.
  intros Hi; pose proof (slot_lookup l i Hi) as Hl.
  exists (ptrs (take (Z.to_nat i) l) ++ ptrs (drop (S (Z.to_nat i)) l)); split.
  - rewrite <- (take_drop_middle l _ _ Hl) at 1.
    rewrite ptrs_app, ptrs_cons; by rewrite Permutation_app_swap_app.
  - rewrite insert_take_drop by (unfold zlen in Hi; lia).
    rewrite ptrs_app, ptrs_cons; by rewrite Permutation_app_swap_app.
Qed.

Lemma slot_set ns i j s : 0 <= i < zlen (entries ns) -> 0 <= j ->
  slot (set_slot ns i s) j = if decide (i = j) then s else slot ns j.
Proof.
  unfold slot_at, set_slot; cbn [entries]; intros Hi Hj; destruct (decide (i = j)) as [<- |Hne].
  - apply nth_lookup_Some, list_lookup_insert_eq; unfold zlen in Hi; lia.
  - rewrite !nth_lookup, list_lookup_insert_ne by lia; done.
Qed.

Section Update.
Context (idof : nat -> option UA_NodeId) (ns : UA_NodeMap) (Hwf : table_wf idof ns).
Context (i : Z) (Hi : 0 <= i < size ns).

Lemma zlen_entries : zlen (entries ns) = size ns.
Proof using Hwf Hi. unfold zlen; rewrite (tw_len _ _ Hwf); lia. Qed.

Lemma reach_set id j s : s <> SlotNull -> reach ns id j -> reach (set_slot ns i s) id j.
Proof using Hwf Hi.
  intros Hs (k & Hk & Hp & Hn); exists k; split; [done|]; split; [done|]; intros m Hm.
  change (probe (set_slot ns i s) id m) with (probe ns id m).
  pose proof (probe_range _ _ Hwf id m); rewrite slot_set; [|rewrite zlen_entries; done|lia].
  destruct (decide _); [done|]; by apply Hn.
Qed.

(** A slot is filled with something else than [NULL]. *)
Lemma set_slot_wf s : s <> SlotNull ->
  (forall p rest, s = SlotEntry p -> ptrs (entries ns) ≡ₚ ptr_of (slot ns i) ++ rest ->
     exists id, idof p = Some id /\ nodeid_valid id /\ reach ns id i /\
       forall q idq, q ∈ rest -> idof q = Some idq -> ~ nodeid_eqv idq id) ->
  table_wf idof (set_slot ns i s).
Proof using Hwf Hi.
  intros Hs Hnew; destruct (ptrs_insert (entries ns) i s) as (rest & Hold & Hins);
    [by rewrite zlen_entries|].
  assert (Hrest : forall q, q ∈ rest -> q ∈ ptrs (entries ns)) by (intros q Hq; rewrite Hold; set_solver).
  assert (Hsingle : forall p, p ∈ ptr_of s -> s = SlotEntry p)
    by (intros p; unfold ptr_of; rewrite elem_of_ptrs, list_elem_of_singleton; congruence).
  assert (Hne : forall p q idp idq, p ∈ ptr_of s -> q ∈ rest -> idof p = Some idp -> idof q = Some idq ->
    ~ nodeid_eqv idq idp).
  { intros p q idp idq Hp Hq Ep Eq; destruct (Hnew p rest (Hsingle p Hp) Hold) as (id & E & _ & _ & H).
    rewrite E in Ep; injection Ep as <-; by apply (H q). }
  split; cbn [set_slot size entries].
  - apply (tw_size _ _ Hwf).
  - rewrite length_insert; apply (tw_len _ _ Hwf).
  - intros p Hp; rewrite Hins in Hp; apply elem_of_app in Hp as [Hp|Hp].
    + destruct (Hnew p rest (Hsingle p Hp) Hold) as (id & ? & ? & _); by exists id.
    + apply (tw_ids _ _ Hwf); auto.
  - rewrite Hins; apply NoDup_app; split_and!.
    + destruct s; simpl; [apply NoDup_nil_2..|apply NoDup_singleton].
    + intros p Hp Hq; destruct (Hnew p rest (Hsingle p Hp) Hold) as (id & E & Hv & _ & H).
      by apply (H p id Hq E), nodeid_eqv_refl.
    + pose proof (tw_nodup _ _ Hwf) as Hd; rewrite Hold in Hd; by apply NoDup_app in Hd as (_ & _ & ?).
  - intros p q idp idq Hp Hq Ep Eq Heq; rewrite Hins in Hp, Hq.
    apply elem_of_app in Hp as [Hp|Hp]; apply elem_of_app in Hq as [Hq|Hq].
    + apply Hsingle in Hp; apply Hsingle in Hq; congruence.
    + exfalso; eapply (Hne p q); eauto; by symmetry.
    + exfalso; eapply (Hne q p); eauto.
    + eapply (tw_unique _ _ Hwf); eauto.
  - change (forall j p id, 0 <= j < size ns -> slot (set_slot ns i s) j = SlotEntry p ->
      idof p = Some id -> reach (set_slot ns i s) id j).
    intros j p id Hj Hsj Ej; rewrite slot_set in Hsj; [|by rewrite zlen_entries|lia].
    destruct (decide (i = j)) as [<- |Hij].
    + destruct (Hnew p rest Hsj Hold) as (id' & E & _ & Hr & _).
      rewrite E in Ej; injection Ej as <-; by apply reach_set.
    + apply reach_set; [done|]; by apply (tw_chain _ _ Hwf j p).
Qed.

Lemma insert_wf p id : occupied (slot ns i) = false -> idof p = Some id -> nodeid_valid id ->
  reach ns id i -> (forall q, ~ stored idof ns id q) ->
  table_wf idof (set_slot ns i (SlotEntry p)) /\
  ptrs (entries (set_slot ns i (SlotEntry p))) ≡ₚ p :: ptrs (entries ns).
Proof using Hwf Hi.
  intros Ho Hp Hv Hr Hnew.
  assert (E : ptr_of (slot ns i) = []) by (by destruct (slot ns i)).
  destruct (ptrs_insert (entries ns) i (SlotEntry p)) as (rest & Hold & Hins); [by rewrite zlen_entries|].
  rewrite E in Hold; split; [|cbn [set_slot entries]; rewrite Hins, Hold; done].
  apply set_slot_wf; [done|]; intros p' rest' [= <-] Hperm; exists id; split_and!; [done..|].
  rewrite E in Hperm; intros q idq Hq Eq Heq; apply (Hnew q); split; [by rewrite Hperm|by exists idq].
Qed.

Lemma tombstone_wf p : slot ns i = SlotEntry p ->
  table_wf idof (set_slot ns i SlotTombstone) /\
  ptrs (entries ns) ≡ₚ p :: ptrs (entries (set_slot ns i SlotTombstone)).
Proof using Hwf Hi.
  intros Hs; destruct (ptrs_insert (entries ns) i SlotTombstone) as (rest & Hold & Hins);
    [by rewrite zlen_entries|].
  split; [by apply set_slot_wf|]; cbn [set_slot entries]; rewrite Hins, Hold, Hs; done.
Qed.

Lemma replace_wf old p idold id : slot ns i = SlotEntry old -> idof old = Some idold ->
  idof p = Some id -> nodeid_valid id -> nodeid_eqv idold id ->
  table_wf idof (set_slot ns i (SlotEntry p)) /\
  exists rest, ptrs (entries ns) ≡ₚ old :: rest /\
               ptrs (entries (set_slot ns i (SlotEntry p))) ≡ₚ p :: rest.
Proof using Hwf Hi.
  intros Hs Eold Ep Hv Heq.
  destruct (ptrs_insert (entries ns) i (SlotEntry p)) as (rest & Hold & Hins); [by rewrite zlen_entries|].
  rewrite Hs in Hold; split; [|by exists rest].
  apply set_slot_wf; [done|]; intros p' rest' [= <-] Hperm; exists id; split_and!; [done..| |].
  - destruct (tw_chain _ _ Hwf i old idold Hi Hs Eold) as (k & Hk & Hpk & Hn).
    assert (Hpr : forall k, probe ns id k = probe ns idold k)
      by (intros; unfold probe; by rewrite (UA_NodeId_hash_proper _ _ Heq)).
    exists k; rewrite Hpr; do 2 (split; [done|]); intros j; rewrite Hpr; apply Hn.
  - rewrite Hs in Hperm; intros q idq Hq Eq Hqe.
    assert (q = old) as ->.
    { eapply (tw_unique _ _ Hwf q old idq idold); try done; [rewrite Hperm; set_solver..|].
      etransitivity; [exact Hqe|by symmetry]. }
    pose proof (tw_nodup _ _ Hwf) as Hd; rewrite Hperm in Hd; cbn in Hd.
    by apply NoDup_cons in Hd as [? _].
Qed.
End Update.

(** The invariant only reads the ids of the stored entries. *)
Lemma table_wf_ext idof idof' ns : table_wf idof ns ->
  (forall p, p ∈ ptrs (entries ns) -> idof' p = idof p) -> table_wf idof' ns.
Proof.
  intros [] He; split; try done.
  - intros p Hp; rewrite He by done; auto.
  - intros p q idp idq Hp Hq; rewrite !He by done; eauto.
  - intros i p id Hi Hs; rewrite He by (by eapply slot_ptrs); eauto.
Qed.

Lemma set_count_wf idof ns n : table_wf idof ns -> table_wf idof (set_count ns n).
Proof. intros []; by split. Qed.

Lemma stored_ext idof idof' ns id p : (forall p, p ∈ ptrs (entries ns) -> idof' p = idof p) ->
  stored idof' ns id p <-> stored idof ns id p.
Proof. intros He; unfold stored; split; intros [Hp H]; [rewrite He in H|rewrite <- He in H]; done. Qed.

Lemma empty_table_wf idof sz n k : sz ∈ sizes ->
  table_wf idof (mkNodeMap (replicate (Z.to_nat sz) SlotNull) sz n k) /\
  ptrs (replicate (Z.to_nat sz) SlotNull) = [].
Proof.
  intros Hsz; assert (E : ptrs (replicate (Z.to_nat sz) SlotNull) = [])
    by (generalize (Z.to_nat sz) as m; induction m; done).
  split; [|exact E]; split; cbn [size entries]; rewrite ?E.
  - exact Hsz.
  - apply length_replicate.
  - intros p Hp; by apply elem_of_nil in Hp.
  - apply NoDup_nil_2.
  - intros p q idp idq Hp; by apply elem_of_nil in Hp.
  - intros i p id Hi Hs _; apply (slot_ptrs (mkNodeMap _ sz n k)) in Hs; cbn [entries] in Hs.
    rewrite E in Hs; by apply elem_of_nil in Hs.
Qed.

(** ** Resizing *)

Lemma higher_prime_loop_spec n fuel : n <= 4294967291 -> forall low high,
  0 <= low <= high -> high <= zlen primes -> high - low <= Z.of_nat fuel ->
  (low = 0 \/ nth (Z.to_nat (low - 1)) primes 0 < n) ->
  (high = zlen primes \/ n <= nth (Z.to_nat high) primes 0) ->
  let r := higher_prime_loop fuel n low high in
  0 <= r < zlen primes /\ n <= nth (Z.to_nat r) primes 0 /\
  (r = 0 \/ nth (Z.to_nat (r - 1)) primes 0 < n).
Proof.
  intros Hn; change (zlen primes) with 30.
  assert (Hend : forall low high, low = high -> 0 <= low <= 30 ->
    (low = 0 \/ nth (Z.to_nat (low - 1)) primes 0 < n) ->
    (high = 30 \/ n <= nth (Z.to_nat high) primes 0) ->
    0 <= low < 30 /\ n <= nth (Z.to_nat low) primes 0 /\
    (low = 0 \/ nth (Z.to_nat (low - 1)) primes 0 < n)).
  { intros low high <- Hl Hlow [-> |Hhigh].
    - destruct Hlow as [|Hlow]; [lia|]; change (nth _ _ _) with 4294967291 in Hlow; lia.
    - split; [|by split]; assert (low <> 30); [|lia]; intros ->; change (nth _ _ _) with 0 in Hhigh.
      destruct Hlow as [|Hlow]; [lia|]; change (nth _ _ _) with 4294967291 in Hlow; lia. }
  induction fuel as [|fuel IH]; intros low high Hl Hh Hf Hlow Hhigh; cbn [higher_prime_loop].
  { apply (Hend low high); auto; lia. }
  destruct (low =? high) eqn:E; zbool; [apply (Hend low high); auto; lia|].
  assert (Hmid : low <= low + (high - low) / 2 < high)
    by (pose proof (Z.div_pos (high - low) 2); pose proof (Z.div_lt (high - low) 2); lia).
  set (mid := low + (high - low) / 2) in *; rewrite (u16_small mid) by lia.
  destruct (nth (Z.to_nat mid) primes 0 <? n) eqn:Em; zbool.
  - rewrite u16_small by lia; apply IH; try lia; right.
    by replace (mid + 1 - 1) with mid by lia.
  - apply IH; try lia; by right.
Qed.

Lemma sizes_below k : 0 <= k < 30 -> (k = 0 \/ nth (Z.to_nat (k - 1)) primes 0 < 2 ^ 27) -> k < 26.
Proof.
  intros Hk [|Hb]; [lia|]; apply Z.nle_gt; intros Hge.
  assert (H : k = 26 \/ k = 27 \/ k = 28 \/ k = 29) by lia.
  destruct H as [-> |[-> |[-> | ->]]]; vm_compute in Hb; discriminate.
Qed.

(** The index of a prime that is large enough. *)
Lemma higher_prime_index_spec n : n <= 2 ^ 27 ->
  exists p, primes !! Z.to_nat (higher_prime_index n) = Some p /\ n <= p /\ p ∈ sizes.
Proof.
  intros Hn; unfold higher_prime_index; destruct (higher_prime_loop_spec n (length primes) ltac:(lia) 0 (zlen primes))
    as (Hr & Hp & Hmin);
    [unfold zlen; lia|lia|unfold zlen; lia|by left|by left|].
  revert Hr Hp Hmin; generalize (higher_prime_loop (length primes) n 0 (zlen primes)) as k; intros k Hr Hp Hmin.
  assert (Hlt : k < 26) by (apply sizes_below; [exact Hr|]; destruct Hmin; [by left|right; lia]).
  destruct (lookup_lt_is_Some_2 primes (Z.to_nat k)) as [p E]; [unfold zlen in Hr; lia|].
  exists p; rewrite (nth_lookup_Some _ _ _ _ E) in Hp; split; [done|]; split; [done|].
  apply (list_elem_of_lookup_2 _ (Z.to_nat k)); unfold sizes; by rewrite lookup_take_lt by lia.
Qed.

Section Rehash.
Context (idof : nat -> option UA_NodeId).

(** Every pointer has a valid id, and different pointers name different nodes. *)
Definition distinct_ids (l : list nat) : Prop :=
  NoDup l /\ (forall p, p ∈ l -> exists id, idof p = Some id /\ nodeid_valid id) /\
  (forall p q idp idq, p ∈ l -> q ∈ l -> idof p = Some idp -> idof q = Some idq ->
     nodeid_eqv idp idq -> p = q).

#[local] Instance distinct_ids_proper : Proper ((≡ₚ) ==> iff) distinct_ids.
Proof.
  assert (H : forall l l', l ≡ₚ l' -> distinct_ids l -> distinct_ids l').
  { intros l l' Hp (H1 & H2 & H3); unfold distinct_ids; split_and!.
    - by rewrite <- Hp.
    - intros p Hin; rewrite <- Hp in Hin; auto.
    - intros p q idp idq Hi Hq; rewrite <- Hp in Hi, Hq; eauto. }
  intros l l' Hp; split; apply H; [done|by symmetry].
Qed.

Lemma wf_distinct ns : table_wf idof ns -> distinct_ids (ptrs (entries ns)).
Proof. intros []; by split_and!. Qed.

Lemma rehash_spec old : forall j ns, table_wf idof ns -> zlen (ptrs (entries ns)) = j ->
  j + zlen (ptrs old) = count ns -> count ns < size ns ->
  distinct_ids (ptrs old ++ ptrs (entries ns)) ->
  exists ns', rehash idof old j ns = Some ns' /\ table_wf idof ns' /\
    ptrs (entries ns') ≡ₚ ptrs old ++ ptrs (entries ns) /\
    size ns' = size ns /\ count ns' = count ns.
Proof.
  induction old as [|s old IH]; intros j ns Hwf Hj Hc Hroom Hd; cbn [rehash]; [by exists ns|].
  destruct (j <? count ns) eqn:Ej; zbool.
  2: { exists ns; split; [done|]; split; [done|]; rewrite (zlen_zero (ptrs (s :: old))); [done|].
       pose proof (zlen_nonneg (ptrs (s :: old))); lia. }
  destruct s as [| |p]; [by apply IH..|].
  rewrite ptrs_cons in *; cbn [ptr_of ptrs omap list_omap List.app] in Hd, Hc |- *.
  rewrite zlen_cons in Hc; pose proof (zlen_nonneg (ptrs old)).
  destruct (proj1 (proj2 Hd) p) as (id & Ep & Hv); [by left|]; rewrite Ep; cbn [mbind option_bind].
  pose proof (findFreeSlot_spec idof ns Hwf id Hv ltac:(lia)) as Hf.
  destruct (findFreeSlot idof ns id) as [[e|]|]; cbn [mbind option_bind]; [|exfalso|done].
  - destruct Hf as (Hns & Ho & He & Hr).
    destruct (insert_wf idof ns Hwf e He p id Ho Ep Hv Hr Hns) as [Hwf' Hp'].
    destruct (IH (j + 1) (set_slot ns e (SlotEntry p)) Hwf') as (ns' & -> & Hwf'' & Hp'' & Hs & Hcnt).
    + rewrite Hp', zlen_cons; lia.
    + cbn [set_slot count]; unfold ptrs in *; lia.
    + done.
    + rewrite Hp'; by rewrite <- Permutation_middle.
    + exists ns'; split; [done|]; split; [done|]; split; [|done].
      rewrite Hp'', Hp'; by rewrite <- Permutation_middle.
  - destruct Hf as (q & Hq & idq & Eq & Heq).
    assert (q = p) as ->.
    { apply (proj2 (proj2 Hd) q p idq id); try done; [|by left]. right; apply elem_of_app; by right. }
    destruct Hd as [Hnd _]; apply NoDup_cons in Hnd as [Hnd _]; apply Hnd, elem_of_app; by right.
Qed.

(** [expand] keeps the content; when it succeeds at least half of the table is free. *)
Lemma expand_spec calloc_ok ns : table_wf idof ns -> zlen (ptrs (entries ns)) = count ns ->
  0 <= count ns < 2 ^ 26 ->
  exists st ns', expand idof calloc_ok ns = Some (st, ns') /\ table_wf idof ns' /\
    ptrs (entries ns') ≡ₚ ptrs (entries ns) /\ count ns' = count ns /\
    (st = GOOD /\ count ns * 2 <= size ns' \/
     st = BADOUTOFMEMORY /\ ns' = ns /\ exists sz, calloc_ok sz = false).
Proof.
  intros Hwf Hc Hn; unfold expand; rewrite !u32_small by lia.
  destruct (_ && _) eqn:E.
  { exists GOOD, ns; split_and!; [done..|left; split; [done|zbool; lia]]. }
  destruct (higher_prime_index_spec (count ns * 2)) as (p & -> & Hp & Hin); [lia|].
  cbn [mbind option_bind]; destruct (calloc_ok p) eqn:Hcalloc; cbn [negb].
  2: { exists BADOUTOFMEMORY, ns; split_and!; [done..|right; eauto]. }
  destruct (empty_table_wf idof p (count ns) (higher_prime_index (count ns * 2)) Hin) as [Hwf0 E0].
  destruct (sizes_ok p Hin) as [_ Hrange].
  destruct (rehash_spec (entries ns) 0 _ Hwf0) as (ns' & -> & Hwf' & Hp' & Hs & Hcn);
    cbn [entries size count] in *; rewrite ?E0, ?app_nil_r in *; try done.
  - lia.
  - by apply wf_distinct.
  - exists GOOD, ns'; cbn [mbind option_bind]; split_and!; [done..|left; split; [done|lia]].
Qed.
End Rehash.

(** ** The node store is a finite map with reference counting

    The documented interface ([include/ua_plugin_nodestore.h]) is the relation
    [call_spec] on a collection of nodes with distinct ids, the references the
    clients hold and the editable nodes they own.  Every call on the hash map
    refines it, but for two errors ([call_kept]) after which the code keeps the
    node that the documentation calls deleted; and no call touches freed
    memory. *)

Section Spec.
Context {N : Type} {NO : NodeOps N}.
Implicit Types st : Store N.

(** ** Calls *)

Inductive Call :=
| NewNode (nodeClass : Z) (mem : option nat)
| DeleteNode (p : nat)
| EditNode (p : nat) (n : N)          (* the owner of an editable node writes to it *)
| GetNode (id : UA_NodeId)
| ReleaseNode (p : nat)
| GetNodeCopy (id : UA_NodeId) (mem : option nat)
| InsertNode (p : nat) (nodeid_copy : option status)
| ReplaceNode (p : nat)
| RemoveNode (id : UA_NodeId).

Inductive Result :=
| RNone
| RNode (p : option nat)
| RStatus (s : status)
| RCopy (s : status) (p : option nat).

Definition exec (calloc_ok : Z -> bool) (c : Call) (st : Store N) : option (Result * Store N) :=
  match c with
  | NewNode cl mem => let '(p, st) := UA_NodeMap_newNode st cl mem in Some (RNode p, st)
  | DeleteNode p => st ← UA_NodeMap_deleteNode st p; Some (RNone, st)
  | EditNode p n => e ← heap st !! p;
      Some (RNone, store_entry st p (mkMapEntry (orig e) (refCount e) (deleted e) n))
  | GetNode id => '(p, st) ← UA_NodeMap_getNode st id; Some (RNode p, st)
  | ReleaseNode p => st ← UA_NodeMap_releaseNode st (Some p); Some (RNone, st)
  | GetNodeCopy id mem => '(s, p, st) ← UA_NodeMap_getNodeCopy st id mem; Some (RCopy s p, st)
  | InsertNode p cp => '(s, st) ← UA_NodeMap_insertNode calloc_ok st p cp; Some (RStatus s, st)
  | ReplaceNode p => '(s, st) ← UA_NodeMap_replaceNode st p; Some (RStatus s, st)
  | RemoveNode id => '(s, st) ← UA_NodeMap_removeNode calloc_ok st id; Some (RStatus s, st)
  end.

(** ** The invariant *)

Definition node_at st (p : nat) : option N := node <$> heap st !! p.

(** The entry an editable node was copied from. *)
Definition orig_at st (p : nat) : option nat := heap st !! p ≫= orig.

Abbreviation pointers st := (ptrs (entries (nodemap st))).

(** The nodes in the store. *)
Definition contents st : list N := omap (node_at st) (pointers st).

(** The number of references to [p] that were handed out. *)
Definition refs (p : nat) (held : list nat) : Z := zlen (base.filter (eq p) held).

(** The heap: [P] are the entries of the table, [held] the references of
    clients, with repetition, and [owned] the editable nodes. *)
Record heap_ok (h : gmap nat (UA_NodeMapEntry N)) (P held owned : list nat) : Prop := mkHeapOk {
  ho_alloc : forall p, p ∈ P \/ p ∈ owned \/ p ∈ held -> is_Some (h !! p);
  ho_leak : forall p e, h !! p = Some e -> p ∈ P \/ p ∈ owned \/ p ∈ held;
  ho_refs : forall p e, h !! p = Some e ->
    refCount e = refs p held /\ (deleted e = true <-> (p ∉ P) /\ (p ∉ owned));
  ho_nodup : NoDup P /\ NoDup owned;
  ho_owned : forall p, p ∈ owned -> (p ∉ P) /\ (p ∉ held)
}.

Record store_ok st (held owned : list nat) : Prop := mkStoreOk {
  so_table : table_wf (idof st) (nodemap st);
  so_count : count (nodemap st) = zlen (pointers st);
  so_heap : heap_ok (heap st) (pointers st) held owned
}.

(** What a client may do: use references it holds and nodes it owns, and valid
    node ids; [UA_calloc] returns unused memory. *)
Definition allowed st (held owned : list nat) (c : Call) : Prop :=
  match c with
  | NewNode _ mem => forall p, mem = Some p -> heap st !! p = None
  | DeleteNode p | EditNode p _ | ReplaceNode p => p ∈ owned
  | GetNode id | RemoveNode id => nodeid_valid id
  | ReleaseNode p => p ∈ held
  | GetNodeCopy id mem => nodeid_valid id /\ forall p, mem = Some p -> heap st !! p = None
  | InsertNode p _ => p ∈ owned
  end /\
  match c with
  | InsertNode p _ | ReplaceNode p => forall n, node_at st p = Some n -> nodeid_valid (node_id n)
  | _ => True
  end.

(** ** The documented behaviour *)

Definition named (id : UA_NodeId) (n : N) : Prop := nodeid_eqv (node_id n) id.

(** From the contents [M], references [held] and owned nodes to the new ones. *)
Inductive call_spec st (held owned : list nat) (M : list N)
    : Call -> Result -> list N -> list nat -> list nat -> Prop :=
| SpecNew cl p : known_class cl = true ->
    call_spec st held owned M (NewNode cl (Some p)) (RNode (Some p)) M held (p :: owned)
| SpecNewFails cl mem : known_class cl = false \/ mem = None ->
    call_spec st held owned M (NewNode cl mem) (RNode None) M held owned
| SpecDelete p owned' : owned ≡ₚ p :: owned' ->
    call_spec st held owned M (DeleteNode p) RNone M held owned'
| SpecEdit p n : p ∈ owned -> call_spec st held owned M (EditNode p n) RNone M held owned
| SpecGet id p n : n ∈ M -> named id n -> node_at st p = Some n ->
    call_spec st held owned M (GetNode id) (RNode (Some p)) M (p :: held) owned
| SpecGetNone id : (forall n, n ∈ M -> ~ named id n) ->
    call_spec st held owned M (GetNode id) (RNode None) M held owned
| SpecRelease p held' : held ≡ₚ p :: held' ->
    call_spec st held owned M (ReleaseNode p) RNone M held' owned
| SpecCopy id q p n n' : n ∈ M -> named id n -> node_at st p = Some n ->
    node_copy n (node_new (node_class n)) = (GOOD, n') ->
    call_spec st held owned M (GetNodeCopy id (Some q)) (RCopy GOOD (Some q)) M held (q :: owned)
| SpecCopyUnknown id mem : (forall n, n ∈ M -> ~ named id n) ->
    call_spec st held owned M (GetNodeCopy id mem) (RCopy BADNODEIDUNKNOWN None) M held owned
| SpecCopyMemory id n mem : n ∈ M -> named id n -> known_class (node_class n) = false \/ mem = None ->
    call_spec st held owned M (GetNodeCopy id mem) (RCopy BADOUTOFMEMORY None) M held owned
| SpecCopyFails id n mem s : n ∈ M -> named id n -> s <> GOOD ->
    fst (node_copy n (node_new (node_class n))) = s ->
    call_spec st held owned M (GetNodeCopy id mem) (RCopy s None) M held owned
| SpecInsert p cp n n' owned' : node_at st p = Some n -> owned ≡ₚ p :: owned' ->
    (if null_numeric (node_id n) then exists i, n' = set_numeric n i else n' = n) ->
    (forall m, m ∈ M -> ~ named (node_id n') m) ->
    call_spec st held owned M (InsertNode p cp) (RStatus GOOD) (n' :: M) held owned'
| SpecInsertExists p cp n m owned' : node_at st p = Some n -> owned ≡ₚ p :: owned' ->
    null_numeric (node_id n) = false -> m ∈ M -> named (node_id n) m ->
    call_spec st held owned M (InsertNode p cp) (RStatus BADNODEIDEXISTS) M held owned'
| SpecInsertCopyFails p s owned' : s <> GOOD -> owned ≡ₚ p :: owned' ->
    call_spec st held owned M (InsertNode p (Some s)) (RStatus s) M held owned'
| SpecInsertMemory p cp owned' : owned ≡ₚ p :: owned' ->
    call_spec st held owned M (InsertNode p cp) (RStatus BADINTERNALERROR) M held owned'
| SpecReplace p n q old rest owned' : node_at st p = Some n -> owned ≡ₚ p :: owned' ->
    M ≡ₚ old :: rest -> named (node_id n) old -> node_at st q = Some old -> orig_at st p = Some q ->
    call_spec st held owned M (ReplaceNode p) (RStatus GOOD) (n :: rest) held owned'
| SpecReplaceChanged p n q old owned' : node_at st p = Some n -> owned ≡ₚ p :: owned' ->
    old ∈ M -> named (node_id n) old -> node_at st q = Some old -> orig_at st p <> Some q ->
    call_spec st held owned M (ReplaceNode p) (RStatus BADINTERNALERROR) M held owned'
| SpecReplaceUnknown p n owned' : node_at st p = Some n -> owned ≡ₚ p :: owned' ->
    (forall m, m ∈ M -> ~ named (node_id n) m) ->
    call_spec st held owned M (ReplaceNode p) (RStatus BADNODEIDUNKNOWN) M held owned'
| SpecRemove id n rest : M ≡ₚ n :: rest -> named id n ->
    call_spec st held owned M (RemoveNode id) (RStatus GOOD) rest held owned
| SpecRemoveUnknown id : (forall n, n ∈ M -> ~ named id n) ->
    call_spec st held owned M (RemoveNode id) (RStatus BADNODEIDUNKNOWN) M held owned.

(** What the code does instead of [SpecInsertMemory] and [SpecReplaceUnknown]:
    when there is no memory for a larger table, and when the node to replace is
    not in the store, the caller still owns the node. *)
Inductive call_kept (calloc_ok : Z -> bool) st (held owned : list nat) (M : list N)
    : Call -> Result -> list N -> list nat -> list nat -> Prop :=
| KeptInsert p cp sz : calloc_ok sz = false ->
    call_kept calloc_ok st held owned M (InsertNode p cp) (RStatus BADINTERNALERROR) M held owned
| KeptReplace p n : node_at st p = Some n -> (forall m, m ∈ M -> ~ named (node_id n) m) ->
    call_kept calloc_ok st held owned M (ReplaceNode p) (RStatus BADNODEIDUNKNOWN) M held owned.

Definition call_outcome calloc_ok st held owned M c r M' held' owned' : Prop :=
  call_spec st held owned M c r M' held' owned' \/ call_kept calloc_ok st held owned M c r M' held' owned'.

(** ** The heap *)

Lemma refs_cons p q held : refs p (q :: held) = (if decide (p = q) then 1 else 0) + refs p held.
Proof.
  unfold refs; rewrite filter_cons; destruct (decide (p = q)); [by rewrite zlen_cons|done].
Qed.

Lemma refs_none p held : refs p held = 0 <-> p ∉ held.
Proof.
  unfold refs; split.
  - intros H Hin; apply zlen_zero in H.
    assert (Hf : p ∈ base.filter (eq p) held) by (by apply list_elem_of_filter).
    rewrite H in Hf; by apply elem_of_nil in Hf.
  - induction held as [|q held IH]; [done|]; rewrite not_elem_of_cons; intros [Hne Hin].
    rewrite filter_cons_False by done; auto.
Qed.

#[local] Instance refs_perm : Proper (eq ==> (≡ₚ) ==> eq) refs.
Proof. intros p ? <- l l' Hl; unfold refs; by rewrite Hl. Qed.

Lemma heap_ok_perm h P P' held held' owned owned' :
  P ≡ₚ P' -> held ≡ₚ held' -> owned ≡ₚ owned' -> heap_ok h P held owned -> heap_ok h P' held' owned'.
Proof.
  intros HP Hh Ho []; split.
  - intros p; rewrite <- HP, <- Hh, <- Ho; auto.
  - intros p e; rewrite <- HP, <- Hh, <- Ho; eauto.
  - intros p e; rewrite <- HP, <- Hh, <- Ho; eauto.
  - rewrite <- HP, <- Ho; auto.
  - intros p; rewrite <- HP, <- Hh, <- Ho; auto.
Qed.

Section Heap.
Context (h : gmap nat (UA_NodeMapEntry N)) (P held owned : list nat).

Lemma heap_new p n o : heap_ok h P held owned -> h !! p = None ->
  heap_ok (<[p := mkMapEntry o 0 false n]> h) P held (p :: owned).
Proof.
  intros [Ha Hl Hr [HnP Hno] Ho] Hp.
  assert (Hout : (p ∉ P) /\ (p ∉ owned) /\ (p ∉ held)).
  { split_and!; intros Hin; destruct (Ha p) as [? E]; auto; congruence. }
  destruct Hout as (H1 & H2 & H3); split.
  - intros q Hq; destruct (decide (p = q)) as [<- |Hne]; [rewrite lookup_insert_eq; by eexists|].
    rewrite lookup_insert_ne by done; apply Ha; set_solver.
  - intros q e; destruct (decide (p = q)) as [<- |Hne]; [set_solver|].
    rewrite lookup_insert_ne by done; intros E; apply Hl in E; set_solver.
  - intros q e; destruct (decide (p = q)) as [<- |Hne].
    + rewrite lookup_insert_eq; intros [= <-]; simpl; split; [by symmetry; apply refs_none|]; set_solver.
    + rewrite lookup_insert_ne by done; intros E; destruct (Hr q e E) as [-> Hd]; split; [done|].
      rewrite Hd; set_solver.
  - split; [done|by constructor].
  - intros q [-> |Hq]%elem_of_cons; [done|by apply Ho].
Qed.

(** The meta data of an entry is kept. *)
Lemma heap_same_meta p e e' : heap_ok h P held owned -> h !! p = Some e ->
  refCount e' = refCount e -> deleted e' = deleted e -> heap_ok (<[p := e']> h) P held owned.
Proof.
  intros [Ha Hl Hr Hn Ho] Hp Hrc Hdel; split; [..|done|done].
  - intros q Hq; destruct (decide (p = q)) as [<- |Hne]; [rewrite lookup_insert_eq; by eexists|].
    rewrite lookup_insert_ne by done; auto.
  - intros q f; destruct (decide (p = q)) as [<- |Hne]; [intros _; eauto|].
    rewrite lookup_insert_ne by done; eauto.
  - intros q f; destruct (decide (p = q)) as [<- |Hne].
    + rewrite lookup_insert_eq; intros [= <-]; rewrite Hrc, Hdel; eauto.
    + rewrite lookup_insert_ne by done; eauto.
Qed.

Lemma heap_free p : heap_ok h P held (p :: owned) -> heap_ok (delete p h) P held owned.
Proof.
  intros [Ha Hl Hr [HnP Hno] Ho]; apply NoDup_cons in Hno as [Hpo Hno].
  destruct (Ho p) as [HpP Hph]; [by left|]; split; [| | |done|].
  - intros q Hq; rewrite lookup_delete_ne; [apply Ha; set_solver|]; intros <-; set_solver.
  - intros q e; destruct (decide (p = q)) as [<- |Hne]; [by rewrite lookup_delete_eq|].
    rewrite lookup_delete_ne by done; intros E; apply Hl in E; set_solver.
  - intros q e; destruct (decide (p = q)) as [<- |Hne]; [by rewrite lookup_delete_eq|].
    rewrite lookup_delete_ne by done; intros E; destruct (Hr q e E) as [-> Hd]; split; [done|].
    rewrite Hd; set_solver.
  - intros q Hq; apply Ho; by right.
Qed.

Lemma heap_link p : heap_ok h P held (p :: owned) -> heap_ok h (p :: P) held owned.
Proof.
  intros [Ha Hl Hr [HnP Hno] Ho]; apply NoDup_cons in Hno as [Hpo Hno].
  destruct (Ho p) as [HpP Hph]; [by left|]; split.
  - intros q Hq; apply Ha; set_solver.
  - intros q e E; apply Hl in E; set_solver.
  - intros q e E; destruct (Hr q e E) as [-> Hd]; split; [done|]; rewrite Hd; set_solver.
  - split; [by constructor|done].
  - intros q Hq; destruct (Ho q) as [? ?]; [by right|]; split; [|done].
    intros [-> |]%elem_of_cons; done.
Qed.

Lemma heap_get p e : heap_ok h P held owned -> h !! p = Some e -> p ∈ P ->
  heap_ok (<[p := mkMapEntry (orig e) (refCount e + 1) (deleted e) (node e)]> h) P (p :: held) owned.
Proof.
  intros [Ha Hl Hr Hn Ho] Hp HpP; split; [| | |done|].
  - intros q Hq; destruct (decide (p = q)) as [<- |Hne]; [rewrite lookup_insert_eq; by eexists|].
    rewrite lookup_insert_ne by done; apply Ha; set_solver.
  - intros q f; destruct (decide (p = q)) as [<- |Hne]; [set_solver|].
    rewrite lookup_insert_ne by done; intros E; apply Hl in E; set_solver.
  - intros q f; rewrite refs_cons; destruct (decide (p = q)) as [<- |Hne].
    + rewrite lookup_insert_eq, decide_True by done; intros [= <-]; simpl.
      destruct (Hr p e Hp) as [-> Hd]; split; [lia|done].
    + rewrite lookup_insert_ne, decide_False by done; intros E; destruct (Hr q f E); by split.
  - intros q Hq; destruct (Ho q Hq) as [? ?]; split; [done|].
    intros [-> |]%elem_of_cons; done.
Qed.
End Heap.

Section Release.
Context (h : gmap nat (UA_NodeMapEntry N)) (P held owned : list nat).

(** The entry [p] leaves the table: it is marked, and freed when nobody
    refers to it. *)
Lemma heap_unlink p e : heap_ok h (p :: P) held owned -> h !! p = Some e ->
  heap_ok (if refCount e =? 0 then delete p h
           else <[p := mkMapEntry (orig e) (refCount e) true (node e)]> h) P held owned.
Proof.
  intros [Ha Hl Hr [HnP Hno] Ho] Hp; apply NoDup_cons in HnP as [HpP HnP].
  destruct (Hr p e Hp) as [Hc _].
  assert (Hpo : p ∉ owned) by (intros Hin; destruct (Ho p Hin); set_solver).
  destruct (refCount e =? 0) eqn:E; zbool.
  - rewrite E in Hc; symmetry in Hc; apply refs_none in Hc; split; [| | |done|].
    + intros q Hq; rewrite lookup_delete_ne; [apply Ha; set_solver|]; intros <-; set_solver.
    + intros q f; destruct (decide (p = q)) as [<- |Hne]; [by rewrite lookup_delete_eq|].
      rewrite lookup_delete_ne by done; intros Ef; apply Hl in Ef; set_solver.
    + intros q f; destruct (decide (p = q)) as [<- |Hne]; [by rewrite lookup_delete_eq|].
      rewrite lookup_delete_ne by done; intros Ef; destruct (Hr q f Ef) as [-> Hd]; split; [done|].
      rewrite Hd; set_solver.
    + intros q Hq; destruct (Ho q Hq) as [? ?]; split; [set_solver|done].
  - assert (Hph : p ∈ held) by (destruct (decide (p ∈ held)) as [|Hn]; [done|];
      apply refs_none in Hn; congruence).
    split; [| | |done|].
    + intros q Hq; destruct (decide (p = q)) as [<- |Hne]; [rewrite lookup_insert_eq; by eexists|].
      rewrite lookup_insert_ne by done; apply Ha; set_solver.
    + intros q f; destruct (decide (p = q)) as [<- |Hne]; [auto|].
      rewrite lookup_insert_ne by done; intros Ef; apply Hl in Ef; set_solver.
    + intros q f; destruct (decide (p = q)) as [<- |Hne].
      * rewrite lookup_insert_eq; intros [= <-]; simpl; split; [done|]; by split.
      * rewrite lookup_insert_ne by done; intros Ef; destruct (Hr q f Ef) as [-> Hd]; split; [done|].
        rewrite Hd; set_solver.
    + intros q Hq; destruct (Ho q Hq) as [? ?]; split; [set_solver|done].
Qed.

Lemma heap_release p e : heap_ok h P (p :: held) owned -> h !! p = Some e ->
  heap_ok (if deleted e && (refCount e - 1 =? 0) then delete p h
           else <[p := mkMapEntry (orig e) (refCount e - 1) (deleted e) (node e)]> h) P held owned.
Proof.
  intros [Ha Hl Hr Hn Ho] Hp; destruct (Hr p e Hp) as [Hc Hdel].
  rewrite refs_cons, decide_True in Hc by done.
  assert (Hheld : forall q, q ∈ owned -> (q ∉ P) /\ (q ∉ held))
    by (intros q Hq; destruct (Ho q Hq); split; [done|set_solver]).
  assert (Hother : forall q f, p <> q -> h !! q = Some f ->
    refCount f = refs q held /\ (deleted f = true <-> (q ∉ P) /\ (q ∉ owned))).
  { intros q f Hne Ef; destruct (Hr q f Ef) as [Hq Hd]; rewrite refs_cons, decide_False in Hq by done.
    split; [lia|done]. }
  destruct (deleted e && (refCount e - 1 =? 0)) eqn:E; zbool.
  - assert (Hph : p ∉ held) by (apply refs_none; lia).
    destruct (proj1 Hdel) as [HpP Hpo]; [done|]; split; [| | |done|done].
    + intros q Hq; rewrite lookup_delete_ne; [apply Ha; set_solver|]; intros <-; set_solver.
    + intros q f; destruct (decide (p = q)) as [<- |Hne]; [by rewrite lookup_delete_eq|].
      rewrite lookup_delete_ne by done; intros Ef; apply Hl in Ef; set_solver.
    + intros q f; destruct (decide (p = q)) as [<- |Hne]; [by rewrite lookup_delete_eq|].
      rewrite lookup_delete_ne by done; auto.
  - split; [| | |done|done].
    + intros q Hq; destruct (decide (p = q)) as [<- |Hne]; [rewrite lookup_insert_eq; by eexists|].
      rewrite lookup_insert_ne by done; apply Ha; set_solver.
    + intros q f; destruct (decide (p = q)) as [<- |Hne].
      * intros _; destruct (deleted e) eqn:Ed; cbn [andb] in E.
        -- right; right; zbool; destruct (decide (p ∈ held)) as [|Hno]; [done|].
           apply refs_none in Hno; lia.
        -- destruct (Hl p e Hp) as [|[|Hin]]; [by left|by right; left|].
           destruct (decide (p ∈ P)) as [|HnP]; [by left|].
           destruct (decide (p ∈ owned)) as [|Hno]; [by right; left|].
           by pose proof (proj2 Hdel (conj HnP Hno)).
      * rewrite lookup_insert_ne by done; intros Ef; apply Hl in Ef; set_solver.
    + intros q f; destruct (decide (p = q)) as [<- |Hne].
      * rewrite lookup_insert_eq; intros [= <-]; simpl; split; [lia|done].
      * rewrite lookup_insert_ne by done; auto.
Qed.
End Release.
End Spec.
Arguments Call N : clear implicits.
