(* ===== verification/NodeStoreCorrect.v ===== *)
(** * Every call on the node store refines the documented interface *)

From Stdlib Require Import ZArith Lia.
From stdpp Require Import base list numbers tactics gmap.
From S2P Require Import Prelude UaTypes NodeStore NodeStoreTable.

Abbreviation pointers st := (ptrs (entries (nodemap st))).

Section Correct.
Context {N : Type} {NO : NodeOps N}.
Implicit Types st : Store N.

(** ** Contents *)

Lemma elem_of_contents st n : n ∈ contents st <-> exists p, p ∈ pointers st /\ node_at st p = Some n.
Proof. apply list_elem_of_omap. Qed.

Lemma contents_ext st st' : pointers st' = pointers st ->
  (forall p, p ∈ pointers st -> node_at st' p = node_at st p) -> contents st' = contents st.
Proof.
  intros Hp Hn; unfold contents; rewrite Hp; clear Hp; revert Hn.
  induction (pointers st) as [|p l IH]; intros Hn; [done|]; cbn [omap list_omap].
  rewrite (Hn p) by (by left); rewrite IH; [done|]; intros q Hq; apply Hn; by right.
Qed.

(** The pointers change, the nodes behind them do not. *)
Lemma contents_perm st st' l : pointers st' ≡ₚ l ->
  (forall p, p ∈ l -> node_at st' p = node_at st p) -> contents st' ≡ₚ omap (node_at st) l.
Proof.
  intros Hp Hn; unfold contents; rewrite Hp; clear Hp; revert Hn.
  induction l as [|p l IH]; intros Hn; [done|]; cbn [omap list_omap].
  rewrite (Hn p) by (by left); destruct (node_at st p); [apply Permutation_skip|];
    apply IH; intros q Hq; apply Hn; by right.
Qed.

Lemma stored_named st held owned id p n : store_ok st held owned -> node_at st p = Some n ->
  p ∈ pointers st -> stored (idof st) (nodemap st) id p <-> named id n.
Proof.
  intros Hok Hn Hp; unfold stored, named, idof; unfold node_at in Hn.
  destruct (heap st !! p) as [e|]; [|done]; injection Hn as <-; cbn [fmap option_fmap option_map].
  split; [intros (_ & ? & [= <-] & ?); done|]; intros Heq; split; [done|]; by eexists.
Qed.

Lemma pointer_node st held owned p : store_ok st held owned -> p ∈ pointers st ->
  exists e, heap st !! p = Some e /\ node_at st p = Some (node e) /\ node e ∈ contents st /\
            deleted e = false /\ nodeid_valid (node_id (node e)).
Proof.
  intros Hok Hp; destruct (ho_alloc _ _ _ _ (so_heap _ _ _ Hok) p) as [e He]; [by left|]; exists e.
  assert (Hn : node_at st p = Some (node e)) by (unfold node_at; by rewrite He).
  split_and!; [done..| | |].
  - apply elem_of_contents; by exists p.
  - destruct (ho_refs _ _ _ _ (so_heap _ _ _ Hok) p e He) as [_ Hd].
    destruct (deleted e); [|done]; by destruct (proj1 Hd eq_refl).
  - destruct (tw_ids _ _ (so_table _ _ _ Hok) p Hp) as (id & E & Hv).
    unfold idof in E; rewrite He in E; by injection E as <-.
Qed.

Lemma not_stored_named st held owned id : store_ok st held owned ->
  (forall p, ~ stored (idof st) (nodemap st) id p) -> forall n, n ∈ contents st -> ~ named id n.
Proof.
  intros Hok Hs n Hn Hnamed; apply elem_of_contents in Hn as (p & Hp & Hn).
  apply (Hs p); by apply (stored_named st held owned id p n).
Qed.

(** Looking up a node id. *)
Lemma lookup_spec st held owned id : store_ok st held owned -> nodeid_valid id ->
  match findOccupiedSlot (idof st) (nodemap st) id with
  | Some (Some i) => exists p e, 0 <= i < size (nodemap st) /\ slot (nodemap st) i = SlotEntry p /\
      p ∈ pointers st /\ heap st !! p = Some e /\ node_at st p = Some (node e) /\
      node e ∈ contents st /\ named id (node e)
  | Some None => forall n, n ∈ contents st -> ~ named id n
  | None => False
  end.
Proof.
  intros Hok Hid; pose proof (findOccupiedSlot_spec _ _ (so_table _ _ _ Hok) id Hid) as Hf.
  destruct (findOccupiedSlot (idof st) (nodemap st) id) as [[i|]|]; [|by eapply not_stored_named|done].
  destruct Hf as (p & Hi & Hs & Hst); pose proof (proj1 Hst) as Hp.
  destruct (pointer_node _ _ _ p Hok Hp) as (e & He & Hn & Hin & _).
  exists p, e; split_and!; try done; try lia; by apply (stored_named st held owned id p).
Qed.

(** ** Changing the heap or the table *)

Lemma idof_node_at st p : idof st p = node_id <$> node_at st p.
Proof. unfold idof, node_at; by destruct (heap st !! p). Qed.

Lemma set_heap_ok st held owned h held' owned' : store_ok st held owned ->
  heap_ok h (pointers st) held' owned' ->
  (forall p, p ∈ pointers st -> node_at (set_heap st h) p = node_at st p) ->
  store_ok (set_heap st h) held' owned' /\ contents (set_heap st h) = contents st.
Proof.
  intros [Ht Hc Hh] Hok Hn; split; [|by apply contents_ext]; split; [|done..].
  apply (table_wf_ext (idof st)); [done|]; intros p Hp; by rewrite !idof_node_at, Hn.
Qed.

Lemma set_map_ok st held owned ns : store_ok st held owned -> table_wf (idof st) ns ->
  ptrs (entries ns) ≡ₚ pointers st -> count ns = count (nodemap st) ->
  store_ok (set_map st ns) held owned /\ contents (set_map st ns) ≡ₚ contents st.
Proof.
  intros [Ht Hc Hh] Hwf Hp Hcn; split; [split|].
  - exact Hwf.
  - cbn [set_map nodemap]; by rewrite Hp, Hcn.
  - by eapply heap_ok_perm; [symmetry; exact Hp|..].
  - by apply contents_perm.
Qed.

(** A referenced node is not changed; it is gone only when the call gave the
    last reference back. *)
Definition keeps st (held : list nat) st' : Prop :=
  forall q, q ∈ held -> heap st' !! q = None \/ node_at st' q = node_at st q.

Lemma keeps_other st held st' p : (p ∉ held) -> (forall q, q <> p -> heap st' !! q = heap st !! q) ->
  keeps st held st'.
Proof. intros Hp Hs q Hq; right; unfold node_at; rewrite Hs; [done|]; by intros ->. Qed.

Lemma keeps_at st held st' p : (forall q, q <> p -> heap st' !! q = heap st !! q) ->
  heap st' !! p = None \/ node_at st' p = node_at st p -> keeps st held st'.
Proof.
  intros Hs Hp q Hq; destruct (decide (q = p)) as [-> |Hne]; [done|]; right; unfold node_at; by rewrite Hs.
Qed.

Lemma keeps_refl st held st' : heap st' = heap st -> keeps st held st'.
Proof. intros Hh q _; right; unfold node_at; by rewrite Hh. Qed.

(** The store is left as it was. *)
Ltac same_store := split; [done|]; split; [done|]; by apply keeps_refl.

Definition refines calloc_ok st held owned (c : Call N) (r : Result) st' : Prop :=
  exists M' held' owned', call_outcome calloc_ok st held owned (contents st) c r M' held' owned' /\
    contents st' ≡ₚ M' /\ store_ok st' held' owned' /\ keeps st held st'.

Lemma owned_not_held st held owned p : store_ok st held owned -> p ∈ owned -> p ∉ held.
Proof. intros Hok Hp; apply (ho_owned _ _ _ _ (so_heap _ _ _ Hok) p Hp). Qed.

Lemma fresh_not_held st held owned p : store_ok st held owned -> heap st !! p = None -> p ∉ held.
Proof.
  intros Hok Hp Hin; destruct (ho_alloc _ _ _ _ (so_heap _ _ _ Hok) p) as [e E]; [auto|congruence].
Qed.

Lemma owned_split st held owned p : store_ok st held owned -> p ∈ owned ->
  exists owned' e, owned ≡ₚ p :: owned' /\ heap st !! p = Some e /\
    heap_ok (heap st) (pointers st) held (p :: owned') /\ (p ∉ pointers st).
Proof.
  intros Hok Hp; destruct (ho_alloc _ _ _ _ (so_heap _ _ _ Hok) p) as [e He]; [auto|].
  apply elem_of_Permutation in Hp as [owned' Hperm]; exists owned', e; split_and!; [done..| |].
  - eapply heap_ok_perm; [done..|exact Hperm|apply Hok].
  - apply (ho_owned _ _ _ _ (so_heap _ _ _ Hok)); rewrite Hperm; by left.
Qed.

(** ** The calls *)

Lemma new_refines calloc_ok st held owned cl mem : store_ok st held owned ->
  (forall p, mem = Some p -> heap st !! p = None) ->
  exists r st', exec calloc_ok (NewNode cl mem) st = Some (r, st') /\
                refines calloc_ok st held owned (NewNode cl mem) r st'.
Proof.
  intros Hok Hmem; cbn [exec]; unfold UA_NodeMap_newNode, newEntry.
  destruct (known_class cl) eqn:Ec; cbn [negb].
  2: { eexists _, _; split; [done|]; eexists _, _, _; split; [left; constructor; auto|]; same_store. }
  destruct mem as [p|].
  2: { eexists _, _; split; [done|]; eexists _, _, _; split; [left; constructor; auto|]; same_store. }
  specialize (Hmem p eq_refl); eexists _, _; split; [done|].
  pose proof (heap_new _ _ _ _ p (node_new cl) None (so_heap _ _ _ Hok) Hmem) as Hh.
  destruct (set_heap_ok st held owned _ _ _ Hok Hh) as [Hok' Hcon].
  { intros q Hq; unfold node_at; cbn [set_heap heap]; rewrite lookup_insert_ne; [done|].
    intros <-; destruct (ho_alloc _ _ _ _ (so_heap _ _ _ Hok) p) as [e E]; [auto|congruence]. }
  eexists _, _, _; split; [left; by constructor|]; split; [unfold store_entry; by rewrite Hcon|].
  split; [exact Hok'|]; apply (keeps_other _ _ _ p); [by apply (fresh_not_held st held owned)|].
  intros q Hq; by apply lookup_insert_ne.
Qed.

Lemma delete_owned st held owned owned' p : store_ok st held owned -> owned ≡ₚ p :: owned' ->
  exists st', deleteEntry st p = Some st' /\ store_ok st' held owned' /\ contents st' = contents st /\
              forall q, q <> p -> heap st' !! q = heap st !! q.
Proof.
  intros Hok Hperm; destruct (owned_split st held owned p Hok) as (o & e & Ho & He & Hh & Hout);
    [rewrite Hperm; by left|].
  assert (Heq : owned' ≡ₚ o) by (apply (Permutation_cons_inv (a := p)); by rewrite <- Hperm).
  unfold deleteEntry; rewrite He; cbn [mbind option_bind]; eexists; split; [done|].
  rewrite assoc by apply _; split; [|intros q Hq; by apply lookup_delete_ne].
  apply (set_heap_ok st held owned); [done| |].
  - eapply heap_ok_perm; [done..|symmetry; exact Heq|]; by apply heap_free.
  - intros q Hq; unfold node_at; cbn [set_heap heap]; rewrite lookup_delete_ne; [done|]; by intros <-.
Qed.

Lemma delete_refines calloc_ok st held owned p : store_ok st held owned -> p ∈ owned ->
  exists r st', exec calloc_ok (DeleteNode p) st = Some (r, st') /\
                refines calloc_ok st held owned (DeleteNode p) r st'.
Proof.
  intros Hok Hp; pose proof (owned_not_held _ _ _ _ Hok Hp).
  apply elem_of_Permutation in Hp as [owned' Hperm].
  destruct (delete_owned st held owned owned' p Hok Hperm) as (st' & E & Hok' & Hc & Hsame).
  eexists _, _; cbn [exec]; unfold UA_NodeMap_deleteNode; rewrite E; split; [done|].
  eexists _, _, _; split; [left; by econstructor|]; split; [by rewrite Hc|]; split; [done|].
  by apply (keeps_other _ _ _ p).
Qed.

Lemma edit_owned st held owned p e n : store_ok st held owned -> p ∈ owned -> heap st !! p = Some e ->
  let st' := store_entry st p (mkMapEntry (orig e) (refCount e) (deleted e) n) in
  store_ok st' held owned /\ contents st' = contents st.
Proof.
  intros Hok Hp He; apply (set_heap_ok st held owned); [done| |].
  - by eapply heap_same_meta; [apply Hok|exact He|..].
  - intros q Hq; unfold node_at; cbn [set_heap heap]; rewrite lookup_insert_ne; [done|]; intros <-.
    by destruct (ho_owned _ _ _ _ (so_heap _ _ _ Hok) p Hp).
Qed.

Lemma edit_refines calloc_ok st held owned p n : store_ok st held owned -> p ∈ owned ->
  exists r st', exec calloc_ok (EditNode p n) st = Some (r, st') /\
                refines calloc_ok st held owned (EditNode p n) r st'.
Proof.
  intros Hok Hp; destruct (owned_split st held owned p Hok Hp) as (_ & e & _ & He & _).
  cbn [exec]; rewrite He; cbn [mbind option_bind]; eexists _, _; split; [done|].
  destruct (edit_owned st held owned p e n Hok Hp He) as [Hok' Hc].
  eexists _, _, _; split; [left; by constructor|]; split; [by rewrite Hc|]; split; [done|].
  apply (keeps_other _ _ _ p); [by apply (owned_not_held st held owned)|]; intros q Hq; by apply lookup_insert_ne.
Qed.

Lemma refs_bound p held : 0 <= refs p held <= zlen held.
Proof.
  unfold refs, zlen; pose proof (length_filter (eq p) held); lia.
Qed.

(** The hash map hands out the entry of an identifier. *)
Lemma get_exact st held owned id : store_ok st held owned -> nodeid_valid id -> zlen held < 65535 ->
  (exists p n st', p ∈ pointers st /\ node_at st p = Some n /\ named id n /\
     UA_NodeMap_getNode st id = Some (Some p, st') /\ store_ok st' (p :: held) owned /\
     nodemap st' = nodemap st /\ forall q, node_at st' q = node_at st q) \/
  ((forall n, n ∈ contents st -> ~ named id n) /\ UA_NodeMap_getNode st id = Some (None, st)).
Proof.
  intros Hok Hid Hheld; pose proof (lookup_spec st held owned id Hok Hid) as Hl; unfold UA_NodeMap_getNode.
  destruct (findOccupiedSlot (idof st) (nodemap st) id) as [[i|]|]; cbn [mbind option_bind]; [left|by right|done].
  destruct Hl as (p & e & Hi & Hs & Hp & He & Hn & Hin & Hnm); exists p, (node e).
  unfold slot_entry; rewrite Hs; cbn [mbind option_bind]; unfold add_reference; rewrite He.
  destruct (ho_refs _ _ _ _ (so_heap _ _ _ Hok) p e He) as [Hc _]; pose proof (refs_bound p held).
  cbn [mbind option_bind]; rewrite u16_small by lia; eexists; split_and!; [done..| | |].
  - apply (set_heap_ok st held owned); [done|exact (heap_get _ _ _ _ p e (so_heap _ _ _ Hok) He Hp)|].
    intros q Hq; unfold node_at; cbn [set_heap heap]; destruct (decide (p = q)) as [<- |Hne];
      [by rewrite lookup_insert_eq, He|by rewrite lookup_insert_ne].
  - done.
  - intros q; unfold node_at; cbn [store_entry set_heap heap]; destruct (decide (p = q)) as [<- |Hne];
      [by rewrite lookup_insert_eq, He|by rewrite lookup_insert_ne].
Qed.

Lemma get_refines calloc_ok st held owned id : store_ok st held owned -> nodeid_valid id ->
  zlen held < 65535 ->
  exists r st', exec calloc_ok (GetNode id) st = Some (r, st') /\
                refines calloc_ok st held owned (GetNode id) r st'.
Proof.
  intros Hok Hid Hheld; cbn [exec].
  destruct (get_exact st held owned id Hok Hid Hheld) as [(p & n & st' & Hp & Hn & Hnm & -> & Hok' & Hm & Hsame)|[Hnone ->]].
  - eexists _, _; split; [done|]; eexists _, _, _; split; [left; eapply SpecGet; [apply elem_of_contents|..]; eauto|].
    split; [rewrite (contents_ext st st'); [done|by rewrite Hm|done]|]; split; [done|].
    intros q _; right; apply Hsame.
  - eexists _, _; split; [done|]; eexists _, _, _; split; [left; by constructor|]; same_store.
Qed.

(** An entry nobody refers to any more is freed when it is not in the map. *)
Lemma release_exact st held owned p : store_ok st held owned -> p ∈ held -> zlen held < 65536 ->
  exists held' st', held ≡ₚ p :: held' /\ UA_NodeMap_releaseNode st (Some p) = Some st' /\
    store_ok st' held' owned /\ nodemap st' = nodemap st /\
    (forall q, q <> p \/ q ∈ pointers st -> node_at st' q = node_at st q) /\
    (heap st' !! p = None \/ node_at st' p = node_at st p).
Proof.
  intros Hok Hp Hlen; destruct (ho_alloc _ _ _ _ (so_heap _ _ _ Hok) p) as [e He]; [auto|].
  apply elem_of_Permutation in Hp as [held' Hperm]; exists held'.
  assert (Hh : heap_ok (heap st) (pointers st) (p :: held') owned)
    by (eapply heap_ok_perm; [done|exact Hperm|done|apply Hok]).
  destruct (ho_refs _ _ _ _ Hh p e He) as [Hc _]; pose proof (refs_bound p (p :: held')).
  rewrite Hperm in Hlen; rewrite refs_cons, decide_True in Hc by done; pose proof (refs_bound p held').
  pose proof (heap_release _ _ _ _ p e Hh He) as Hrel.
  unfold UA_NodeMap_releaseNode, add_reference; rewrite He; cbn [mbind option_bind].
  unfold cleanupEntry; cbn [store_entry set_heap heap]; rewrite lookup_insert_eq; cbn [mbind option_bind].
  cbn [deleted refCount]; replace (refCount e + -1) with (refCount e - 1) by lia.
  rewrite u16_small by (rewrite zlen_cons in *; lia).
  destruct (deleted e && (refCount e - 1 =? 0)) eqn:Ed.
  - unfold deleteEntry; cbn [store_entry set_heap heap]; rewrite lookup_insert_eq; cbn [mbind option_bind].
    rewrite delete_insert_eq; eexists; split; [done|]; split; [done|].
    assert (Hsame : forall q, q <> p \/ q ∈ pointers st ->
      node_at (set_heap st (delete p (heap st))) q = node_at st q).
    { intros q Hq; unfold node_at; cbn [set_heap heap]; rewrite lookup_delete_ne; [done|]; intros <-.
      destruct Hq as [|Hq]; [done|]; destruct (pointer_node _ _ _ p Hok Hq) as (e' & He' & _ & _ & Hd & _).
      rewrite He in He'; injection He' as <-; by rewrite Hd in Ed. }
    split; [apply (set_heap_ok st held owned); [done|done|]; intros q Hq; apply Hsame; by right|].
    split; [done|]; split; [exact Hsame|left; apply lookup_delete_eq].
  - eexists; split; [done|]; split; [done|].
    assert (Hsame : forall q, node_at (store_entry st p (mkMapEntry (orig e) (refCount e - 1) (deleted e) (node e))) q
                              = node_at st q).
    { intros q; unfold node_at; cbn [store_entry set_heap heap]; destruct (decide (p = q)) as [<- |Hne];
        [by rewrite lookup_insert_eq, He|by rewrite lookup_insert_ne]. }
    split; [apply (set_heap_ok st held owned); [done|done|]; intros q _; apply Hsame|].
    split; [done|]; split; [intros q _; apply Hsame|right; apply Hsame].
Qed.

Lemma release_refines calloc_ok st held owned p : store_ok st held owned -> p ∈ held ->
  zlen held < 65536 ->
  exists r st', exec calloc_ok (ReleaseNode p) st = Some (r, st') /\
                refines calloc_ok st held owned (ReleaseNode p) r st'.
Proof.
  intros Hok Hp Hlen; cbn [exec].
  destruct (release_exact st held owned p Hok Hp Hlen) as (held' & st' & Hperm & -> & Hok' & Hm & Hsame & Hgone).
  eexists _, _; split; [done|]; eexists _, _, _; split; [left; by econstructor|].
  split; [rewrite (contents_ext st st'); [done|by rewrite Hm|intros q Hq; apply Hsame; by right]|]; split; [done|].
  intros q _; destruct (decide (q = p)) as [-> |Hne]; [done|right; apply Hsame; by left].
Qed.

Lemma copy_refines calloc_ok st held owned id mem : store_ok st held owned -> nodeid_valid id ->
  (forall p, mem = Some p -> heap st !! p = None) ->
  exists r st', exec calloc_ok (GetNodeCopy id mem) st = Some (r, st') /\
                refines calloc_ok st held owned (GetNodeCopy id mem) r st'.
Proof.
  intros Hok Hid Hmem; pose proof (lookup_spec st held owned id Hok Hid) as Hl.
  cbn [exec]; unfold UA_NodeMap_getNodeCopy.
  destruct (findOccupiedSlot (idof st) (nodemap st) id) as [[i|]|]; cbn [mbind option_bind]; [| |done].
  2: { eexists _, _; split; [done|]; eexists _, _, _; split; [left; by constructor|]; same_store. }
  destruct Hl as (p & e & Hi & Hs & Hp & He & Hn & Hin & Hnm).
  unfold slot_entry; rewrite Hs; cbn [mbind option_bind]; rewrite He; cbn [mbind option_bind].
  unfold newEntry; destruct (known_class (node_class (node e))) eqn:Ec; cbn [negb].
  2: { eexists _, _; split; [done|]; eexists _, _, _; split; [left; eapply SpecCopyMemory; eauto|]; same_store. }
  destruct mem as [q|].
  2: { eexists _, _; split; [done|]; eexists _, _, _; split; [left; eapply SpecCopyMemory; eauto|]; same_store. }
  specialize (Hmem q eq_refl); cbn [store_entry set_heap heap]; rewrite lookup_insert_eq.
  cbn [mbind option_bind node refCount deleted].
  destruct (node_copy (node e) (node_new (node_class (node e)))) as [s n'] eqn:Ecp.
  assert (Hother : forall q' (x : UA_NodeMapEntry N), q' ∈ pointers st ->
    node <$> <[q := x]> (heap st) !! q' = node_at st q').
  { intros q' x Hq'; rewrite lookup_insert_ne; [done|]; intros <-.
    destruct (ho_alloc _ _ _ _ (so_heap _ _ _ Hok) q) as [? E]; [auto|congruence]. }
  destruct (bad s) eqn:Eb.
  - unfold deleteEntry; cbn [store_entry set_heap heap]; rewrite lookup_insert_eq; cbn [mbind option_bind].
    rewrite delete_insert_id by done; eexists _, _; split; [done|].
    replace (set_heap (store_entry st q _) (heap st)) with st by (by destruct st).
    eexists _, _, _; split; [|same_store].
    left; eapply (SpecCopyFails _ _ _ _ id (node e)); eauto; [by apply bad_true|by rewrite Ecp].
  - apply bad_false in Eb as ->; eexists _, _; split; [done|].
    unfold store_entry; cbn [set_heap nodemap heap]; rewrite insert_insert_eq.
    pose proof (heap_new _ _ _ _ q n' (Some p) (so_heap _ _ _ Hok) Hmem) as Hh.
    destruct (set_heap_ok st held owned _ _ _ Hok Hh) as [Hok' Hcon]; [intros; by apply Hother|].
    eexists _, _, _; split; [left; by eapply SpecCopy|]; split; [by rewrite <- Hcon|]; split; [exact Hok'|].
    apply (keeps_other _ _ _ q); [by apply (fresh_not_held st held owned)|]; intros x Hx; by apply lookup_insert_ne.
Qed.

(** An entry leaves the table. *)
Lemma mark_deleted_spec st P held owned p : heap_ok (heap st) (p :: P) held owned ->
  exists h, mark_deleted st p = Some (set_heap st h) /\ heap_ok h P held owned /\
    (forall q, q <> p -> h !! q = heap st !! q) /\
    (h !! p = None \/ node <$> h !! p = node_at st p).
Proof.
  intros Hh; destruct (ho_alloc _ _ _ _ Hh p) as [e He]; [left; by left|].
  pose proof (heap_unlink _ _ _ _ p e Hh He) as Hu.
  unfold mark_deleted; rewrite He; cbn [mbind option_bind]; unfold cleanupEntry, store_entry.
  cbn [set_heap heap]; rewrite lookup_insert_eq; cbn [mbind option_bind deleted refCount andb].
  destruct (refCount e =? 0).
  - unfold deleteEntry; cbn [set_heap heap]; rewrite lookup_insert_eq; cbn [mbind option_bind].
    rewrite delete_insert_eq; eexists; split; [done|]; split; [exact Hu|].
    split; [intros q Hq; by apply lookup_delete_ne|left; apply lookup_delete_eq].
  - eexists; split; [done|]; split; [exact Hu|]; split; [intros q Hq; by apply lookup_insert_ne|right].
    unfold node_at; by rewrite lookup_insert_eq, He.
Qed.

Lemma contents_cons st held owned p P e : store_ok st held owned -> pointers st ≡ₚ p :: P ->
  heap st !! p = Some e -> contents st ≡ₚ node e :: omap (node_at st) P.
Proof.
  intros Hok Hp He; rewrite (contents_perm st st (p :: P) Hp) by done.
  cbn [omap list_omap]; unfold node_at at 1; by rewrite He.
Qed.

(** The table without [p], whose entry was marked as deleted. *)
Lemma unlinked_ok st held owned ns P p h :
  store_ok st held owned -> table_wf (idof st) ns -> ptrs (entries ns) ≡ₚ P -> (p ∉ P) ->
  count ns = zlen P -> heap_ok h P held owned ->
  (forall q, q <> p -> h !! q = heap st !! q) ->
  store_ok (mkStore ns h) held owned /\ contents (mkStore ns h) ≡ₚ omap (node_at st) P.
Proof.
  intros Hok Hwf Hp Hout Hc Hh Hsame.
  assert (Hn : forall q, q ∈ P -> node_at (mkStore ns h) q = node_at st q).
  { intros q Hq; unfold node_at; cbn [heap]; rewrite Hsame; [done|]; by intros ->. }
  split; [split|].
  - apply (table_wf_ext (idof st)); [done|]; cbn [nodemap]; intros q Hq; rewrite Hp in Hq.
    by rewrite !idof_node_at, Hn.
  - cbn [nodemap]; by rewrite Hp.
  - eapply heap_ok_perm; [symmetry; exact Hp|done..].
  - by apply contents_perm.
Qed.

(** The entry of an identifier leaves the map; it is freed unless somebody
    refers to it. *)
Lemma remove_exact calloc_ok st held owned id : store_ok st held owned -> nodeid_valid id ->
  count (nodemap st) < 2 ^ 26 ->
  (exists p n st', node_at st p = Some n /\ named id n /\ UA_NodeMap_removeNode calloc_ok st id = Some (GOOD, st') /\
     store_ok st' held owned /\ pointers st ≡ₚ p :: pointers st' /\ (p ∉ pointers st') /\
     (forall q, q <> p -> heap st' !! q = heap st !! q) /\
     (heap st' !! p = None \/ node_at st' p = node_at st p)) \/
  ((forall n, n ∈ contents st -> ~ named id n) /\
     UA_NodeMap_removeNode calloc_ok st id = Some (BADNODEIDUNKNOWN, st)).
Proof.
  intros Hok Hid Hcnt; pose proof (lookup_spec st held owned id Hok Hid) as Hl; unfold UA_NodeMap_removeNode.
  destruct (findOccupiedSlot (idof st) (nodemap st) id) as [[i|]|]; cbn [mbind option_bind]; [left|by right|done].
  destruct Hl as (p & e & Hi & Hs & Hp & He & Hn & Hin & Hnm).
  destruct (tombstone_wf _ _ (so_table _ _ _ Hok) i Hi p Hs) as [Hwf Hperm].
  set (ns1 := set_slot (nodemap st) i SlotTombstone) in *; set (P := ptrs (entries ns1)) in *.
  assert (Hh : heap_ok (heap st) (p :: P) held owned)
    by (eapply heap_ok_perm; [exact Hperm|done..|apply Hok]).
  destruct (mark_deleted_spec (set_map st ns1) P held owned p Hh) as (h & Emark & Hh' & Hsame & Hgone).
  assert (Hout : p ∉ P) by (destruct (ho_nodup _ _ _ _ Hh) as [Hd _]; by apply NoDup_cons in Hd as [? _]).
  pose proof (so_count _ _ _ Hok) as Hc; rewrite Hperm, zlen_cons in Hc; pose proof (zlen_nonneg P).
  unfold clearSlot; rewrite Hs; fold ns1; rewrite Emark; cbn [mbind option_bind set_heap set_map nodemap heap].
  change (count ns1) with (count (nodemap st)); rewrite (u32_small (count (nodemap st) - 1)) by lia.
  set (ns2 := set_count ns1 (count (nodemap st) - 1)).
  destruct (unlinked_ok st held owned ns2 P p h Hok (set_count_wf _ _ _ Hwf) (reflexivity _) Hout) as [Hok2 _]; try done.
  { cbn [ns2 set_count count]; lia. }
  exists p, (node e); destruct (_ && _).
  - destruct (expand_spec (idof (mkStore ns2 h)) calloc_ok ns2) as (s & ns3 & Eexp & Hwf3 & Hp3 & Hc3 & _).
    { apply (so_table _ _ _ Hok2). } { symmetry; apply (so_count _ _ _ Hok2). }
    { cbn [ns2 set_count count]; lia. }
    match goal with |- context [expand ?f calloc_ok ?n] =>
      change (expand f calloc_ok n) with (expand (idof (mkStore ns2 h)) calloc_ok ns2) end.
    rewrite Eexp; cbn [mbind option_bind]; eexists; split_and!; [done..| | | | |].
    + apply (set_map_ok (mkStore ns2 h) held owned ns3 Hok2 Hwf3 Hp3 Hc3).
    + cbn [set_map nodemap]; by rewrite Hp3.
    + cbn [set_map nodemap]; by rewrite Hp3.
    + exact Hsame.
    + exact Hgone.
  - eexists; split_and!; [done..|exact Hgone].
Qed.

Lemma remove_refines calloc_ok st held owned id : store_ok st held owned -> nodeid_valid id ->
  count (nodemap st) < 2 ^ 26 ->
  exists r st', exec calloc_ok (RemoveNode id) st = Some (r, st') /\
                refines calloc_ok st held owned (RemoveNode id) r st'.
Proof.
  intros Hok Hid Hcnt; cbn [exec].
  destruct (remove_exact calloc_ok st held owned id Hok Hid Hcnt)
    as [(p & n & st' & Hn & Hnm & -> & Hok' & Hperm & Hout & Hsame & Hgone)|[Hnone ->]].
  - eexists _, _; split; [done|]; eexists (omap (node_at st) (pointers st')), _, _; split; [|split; [|split; [done|]]].
    + left; eapply SpecRemove; [|done]; rewrite (contents_perm st st _ Hperm) by done.
      cbn [omap list_omap]; by rewrite Hn.
    + apply contents_perm; [done|]; intros q Hq; unfold node_at; rewrite Hsame; [done|]; by intros ->.
    + apply (keeps_at _ _ _ p); done.
  - eexists _, _; split; [done|]; eexists _, _, _; split; [left; by constructor|]; same_store.
Qed.

Lemma replace_refines calloc_ok st held owned p : store_ok st held owned -> p ∈ owned ->
  (forall n, node_at st p = Some n -> nodeid_valid (node_id n)) ->
  exists r st', exec calloc_ok (ReplaceNode p) st = Some (r, st') /\
                refines calloc_ok st held owned (ReplaceNode p) r st'.
Proof.
  intros Hok Hp Hvalid; destruct (owned_split st held owned p Hok Hp) as (owned' & e & Ho & He & Hh & Hout).
  assert (Hn : node_at st p = Some (node e)) by (unfold node_at; by rewrite He).
  specialize (Hvalid _ Hn); pose proof (lookup_spec st held owned _ Hok Hvalid) as Hl.
  cbn [exec]; unfold UA_NodeMap_replaceNode; rewrite He; cbn [mbind option_bind].
  destruct (findOccupiedSlot (idof st) (nodemap st) (node_id (node e))) as [[i|]|];
    cbn [mbind option_bind]; [| |done].
  2: { eexists _, _; split; [done|]; eexists _, _, _; split; [right; by eapply KeptReplace|]; same_store. }
  destruct Hl as (q & f & Hi & Hs & Hq & Hf & Hnq & Hin & Hnm).
  unfold slot_entry; rewrite Hs; cbn [mbind option_bind].
  assert (Horig : orig_at st p = orig e) by (unfold orig_at; by rewrite He).
  case_bool_decide as Hor; cbn [negb].
  2: { destruct (delete_owned st held owned owned' p Hok Ho) as (st' & -> & Hok' & Hcon & Hother).
       eexists _, _; split; [done|]; eexists _, _, _; split;
         [|split_and!; [by rewrite Hcon|done|apply (keeps_other _ _ _ p); [by apply (owned_not_held st held owned)|done]]].
       left; eapply SpecReplaceChanged; try done; rewrite Horig; congruence. }
  assert (Eq : idof st q = Some (node_id (node f))) by (by rewrite idof_node_at, Hnq).
  assert (Ep : idof st p = Some (node_id (node e))) by (by rewrite idof_node_at, Hn).
  destruct (replace_wf _ _ (so_table _ _ _ Hok) i Hi q p _ _ Hs Eq Ep Hvalid Hnm) as (Hwf & P & Hold & Hnew).
  set (ns1 := set_slot (nodemap st) i (SlotEntry p)) in *.
  assert (Hh1 : heap_ok (heap st) (q :: p :: P) held owned').
  { eapply heap_ok_perm; [|done|done|by apply heap_link].
    rewrite Hold; apply Permutation_swap. }
  destruct (mark_deleted_spec (set_map st ns1) _ held owned' q Hh1) as (h & Emark & Hh' & Hsame & Hgone).
  rewrite Emark; cbn [mbind option_bind]; eexists _, _; split; [done|].
  assert (HqP : q ∉ p :: P) by (destruct (ho_nodup _ _ _ _ Hh1) as [Hd _]; by apply NoDup_cons in Hd as [? _]).
  assert (Hsame' : forall x, x ∈ p :: P -> node_at (mkStore ns1 h) x = node_at st x).
  { intros x Hx; unfold node_at; cbn [heap]; rewrite Hsame; [done|]; by intros ->. }
  eexists _, _, _; split; [left; eapply (SpecReplace _ _ _ _ p (node e) q (node f)); try done|split; [|split; [split|]]].
  - by eapply contents_cons.
  - by rewrite Horig.
  - change (set_heap (set_map st ns1) h) with (mkStore ns1 h).
    rewrite (contents_perm st (mkStore ns1 h) (p :: P) Hnew Hsame'); cbn [omap list_omap]; by rewrite Hn.
  - apply (table_wf_ext (idof st)); [exact Hwf|]; intros x Hx.
    change (x ∈ ptrs (entries ns1)) in Hx; rewrite Hnew in Hx; rewrite !idof_node_at.
    by rewrite <- (Hsame' x Hx).
  - change (count (nodemap st) = zlen (ptrs (entries ns1))); rewrite Hnew, (so_count _ _ _ Hok), Hold.
    by rewrite !zlen_cons.
  - eapply heap_ok_perm; [symmetry; exact Hnew|done..].
  - by apply (keeps_at _ _ _ q).
Qed.

(** ** Inserting *)

(** Searching a slot while the node that is to be inserted is edited. *)
Lemma free_slot_spec st held owned p x id : store_ok st held owned -> p ∈ owned -> nodeid_valid id ->
  zlen (pointers st) < size (nodemap st) ->
  match findFreeSlot (idof (store_entry st p x)) (nodemap st) id with
  | Some (Some i) => (forall q, ~ stored (idof st) (nodemap st) id q) /\
      occupied (slot (nodemap st) i) = false /\ 0 <= i < size (nodemap st) /\ reach (nodemap st) id i
  | Some None => exists q, stored (idof st) (nodemap st) id q
  | None => False
  end.
Proof.
  intros Hok Hp Hid Hroom.
  assert (Hsame : forall q, q ∈ pointers st -> idof (store_entry st p x) q = idof st q).
  { intros q Hq; unfold idof; cbn [store_entry set_heap heap]; rewrite lookup_insert_ne; [done|].
    intros <-; by destruct (ho_owned _ _ _ _ (so_heap _ _ _ Hok) p Hp). }
  pose proof (findFreeSlot_spec _ _ (table_wf_ext _ _ _ (so_table _ _ _ Hok) Hsame) id Hid Hroom) as H.
  pose proof (fun q => stored_ext (idof st) _ (nodemap st) id q Hsame) as Hst.
  destruct (findFreeSlot _ _ _) as [[i|]|]; [|destruct H as [q H]; exists q|done].
  - destruct H as (H & Hrest); split; [|done]; intros q Hq; by apply (H q), Hst.
  - by apply Hst.
Qed.

Section NewId.
Context st (held owned : list nat) (p : nat) (e : UA_NodeMapEntry N).
Context (Hok : store_ok st held owned) (Hp : p ∈ owned) (He : heap st !! p = Some e).
Context (Hroom : zlen (pointers st) < size (nodemap st)).
Local Abbreviation sz := (size (nodemap st)).

Definition with_node (n : N) : Store N :=
  store_entry st p (mkMapEntry (orig e) (refCount e) (deleted e) n).
Definition with_id (k : Z) : Store N := with_node (set_numeric (node e) k).
Definition name (k : Z) : UA_NodeId := mkNodeId (nid_namespaceIndex (node_id (node e))) (NumericId k).

(** The identifier [k] is found to be unused, with a slot for it. *)
Definition found (r : option (Store N * option Z)) : Prop :=
  exists k i, r = Some (with_id k, Some i) /\ (forall q, ~ stored (idof st) (nodemap st) (name k) q) /\
    occupied (slot (nodemap st) i) = false /\ 0 <= i < sz /\ reach (nodemap st) (name k) i.

(** One round: the identifier is free or taken. *)
Lemma new_identifier_step fuel n inc startId x : (forall k, set_numeric n k = set_numeric (node e) k) ->
  found (new_identifier_loop (S fuel) (with_node n) p inc startId x) \/
  (exists q, stored (idof st) (nodemap st) (name (u32 x)) q) /\
  new_identifier_loop (S fuel) (with_node n) p inc startId x =
    (if u32 (advance x inc sz) =? startId then Some (with_id (u32 x), None)
     else new_identifier_loop fuel (with_id (u32 x)) p inc startId (advance x inc sz)).
Proof using Hok Hp Hroom.
  intros Hn; cbn [new_identifier_loop].
  assert (Hlook : heap (with_node n) !! p = Some (mkMapEntry (orig e) (refCount e) (deleted e) n))
    by (apply lookup_insert_eq).
  rewrite Hlook; cbn [mbind option_bind node orig refCount deleted]; rewrite Hn.
  assert (E : store_entry (with_node n) p (mkMapEntry (orig e) (refCount e) (deleted e)
    (set_numeric (node e) (u32 x))) = with_id (u32 x)).
  { unfold with_id, with_node, store_entry, set_heap; cbn [nodemap heap]; by rewrite insert_insert_eq. }
  rewrite E, set_numeric_id; change (nodemap (with_id (u32 x))) with (nodemap st).
  pose proof (free_slot_spec st held owned p (mkMapEntry (orig e) (refCount e) (deleted e)
    (set_numeric (node e) (u32 x))) (name (u32 x)) Hok Hp I Hroom) as Hf.
  fold (name (u32 x)); unfold with_id, with_node in *.
  destruct (findFreeSlot _ _ _) as [[i|]|]; cbn [mbind option_bind]; [left|right|done].
  - exists (u32 x), i; split; [done|]; exact Hf.
  - split; [exact Hf|done].
Qed.

(** The identifiers below [size] cannot all be taken. *)
Lemma identifiers_left : ~ forall r, 0 <= r < sz -> exists q, stored (idof st) (nodemap st) (name r) q.
Proof using Hroom.
  intros Hall.
  set (num := fun q => match nid_identifier <$> idof st q with Some (NumericId i) => Some i | _ => None end).
  assert (Hsub : seqZ 0 sz ⊆+ omap num (pointers st)).
  { apply NoDup_submseteq; [apply NoDup_seqZ|]; intros r Hr; apply elem_of_seqZ in Hr.
    destruct (Hall r) as (q & Hq & idq & Eq & Heq); [lia|].
    apply list_elem_of_omap; exists q; split; [done|]; unfold num; rewrite Eq; cbn.
    destruct Heq as [_ Heq]; cbn in Heq; destruct (nid_identifier idq); try done; by subst. }
  apply submseteq_length in Hsub; rewrite length_seqZ in Hsub.
  assert (Hlen : (length (omap num (pointers st)) <= length (pointers st))%nat).
  { clear; induction (pointers st) as [|q l IH]; cbn [omap list_omap length]; [lia|].
    destruct (num q); cbn [length]; unfold omap in *; lia. }
  unfold zlen in Hroom; lia.
Qed.

Section Increase.
Context (inc startId : Z) (Hinc : 1 <= inc <= sz - 2) (Hstart : sz <= startId < 2 ^ 32).

Lemma identifier_cycle x0 fuel : 0 <= x0 < sz -> forall k n,
  (forall i, set_numeric n i = set_numeric (node e) i) -> 0 <= k -> sz <= k + Z.of_nat fuel ->
  (forall j, 0 <= j < k -> exists q, stored (idof st) (nodemap st) (name ((x0 + j * inc) mod sz)) q) ->
  found (new_identifier_loop fuel (with_node n) p inc startId ((x0 + k * inc) mod sz)).
Proof using Hok Hp He Hroom Hinc Hstart.
  intros Hx; destruct (sizes_ok _ (tw_size _ _ (so_table _ _ _ Hok))) as [Hprime Hs].
  induction fuel as [|fuel IH]; intros k n Hn Hk Hf Hall.
  { exfalso; apply identifiers_left; intros r Hr.
    destruct (probe_onto sz Hprime x0 inc r) as (j & Hj & <-); [lia|done|]; apply Hall; lia. }
  pose proof (Z.mod_pos_bound (x0 + k * inc) sz ltac:(lia)) as Hmod.
  destruct (new_identifier_step fuel n inc startId ((x0 + k * inc) mod sz) Hn) as [H|[Hq ->]]; [done|].
  rewrite (u32_small ((x0 + k * inc) mod sz)) in * by lia.
  rewrite advance_mod, Zplus_mod_idemp_l by lia.
  replace (x0 + k * inc + inc) with (x0 + (k + 1) * inc) by ring.
  pose proof (Z.mod_pos_bound (x0 + (k + 1) * inc) sz ltac:(lia)).
  rewrite u32_small by lia; rewrite (proj2 (Z.eqb_neq _ _)) by lia.
  apply IH; [intros; by rewrite set_numeric_twice|lia|lia|].
  intros j Hj; destruct (decide (j = k)) as [-> |]; [done|]; apply Hall; lia.
Qed.

Lemma identifier_descends fuel : forall x n,
  (forall i, set_numeric n i = set_numeric (node e) i) -> sz <= x <= startId -> x + sz <= Z.of_nat fuel ->
  found (new_identifier_loop fuel (with_node n) p inc startId x).
Proof using Hok Hp He Hroom Hinc Hstart.
  pose proof (sizes_ok _ (tw_size _ _ (so_table _ _ _ Hok))) as [_ Hs].
  induction fuel as [|fuel IH]; intros x n Hn Hx Hf; [lia|].
  destruct (new_identifier_step fuel n inc startId x Hn) as [H|[Hq ->]]; [done|].
  assert (E : advance x inc sz = x + inc - sz)
    by (unfold advance, u64; rewrite !Z.mod_small by lia; by rewrite (proj2 (Z.leb_le _ _)) by lia).
  rewrite E, !u32_small by lia; rewrite (proj2 (Z.eqb_neq _ _)) by lia.
  assert (Hn' : forall i, set_numeric (set_numeric (node e) x) i = set_numeric (node e) i)
    by (intros; apply set_numeric_twice).
  destruct (decide (sz <= x + inc - sz)); [apply IH; [done|lia|lia]|].
  pose proof (identifier_cycle (x + inc - sz) fuel ltac:(lia) 0 _ Hn' ltac:(lia) ltac:(lia)) as H.
  rewrite Z.mul_0_l, Z.add_0_r, Z.mod_small in H by lia; apply H; lia.
Qed.
End Increase.

Lemma find_slot_for_spec : nodeid_valid (node_id (node e)) ->
  exists n' slot', find_slot_for st p = Some (with_node n', slot') /\
    (if null_numeric (node_id (node e)) then exists i, n' = set_numeric (node e) i else n' = node e) /\
    nodeid_valid (node_id n') /\
    match slot' with
    | Some i => (forall q, ~ stored (idof st) (nodemap st) (node_id n') q) /\
        occupied (slot (nodemap st) i) = false /\ 0 <= i < sz /\ reach (nodemap st) (node_id n') i
    | None => null_numeric (node_id (node e)) = false /\
        exists q, stored (idof st) (nodemap st) (node_id (node e)) q
    end.
Proof using Hok Hp He Hroom.
  intros Hv; pose proof (sizes_ok _ (tw_size _ _ (so_table _ _ _ Hok))) as [_ Hs].
  assert (Eself : with_node (node e) = st).
  { unfold with_node, store_entry, set_heap; destruct e as [a b c d]; cbn [orig refCount deleted node] in *.
    rewrite insert_id by exact He; by destruct st. }
  unfold find_slot_for; rewrite He; cbn [mbind option_bind].
  destruct (null_numeric (node_id (node e))).
  - rewrite (u32_small (50000 + sz + 1)) by lia; unfold mod1; rewrite (Z.mod_small (50000 + sz + 1))
      by (unfold UA_UINT32_MAX; lia); rewrite (u32_small (50000 + sz + 1)) by lia.
    pose proof (mod2_range (u32 (count (nodemap st) + 1)) sz Hs).
    destruct (identifier_descends (mod2 (u32 (count (nodemap st) + 1)) sz) (50000 + sz + 1) ltac:(lia)
      ltac:(lia) (new_identifier_fuel sz) (50000 + sz + 1) (node e)) as (k & i & E & Hi);
      [done|lia|unfold new_identifier_fuel; lia|].
    rewrite Eself in E; rewrite E; exists (set_numeric (node e) k), (Some i).
    rewrite set_numeric_id; split; [done|]; split; [by exists k|]; split; [done|exact Hi].
  - pose proof (free_slot_spec st held owned p e _ Hok Hp Hv Hroom) as Hf.
    replace (store_entry st p e) with st in Hf
      by (rewrite <- Eself at 1; unfold with_node; by destruct e).
    destruct (findFreeSlot _ _ _) as [s'|]; [|done]; cbn [mbind option_bind].
    exists (node e), s'; rewrite Eself; split; [done|]; split; [done|]; split; [done|].
    destruct s' as [i|]; [done|]; by split.
Qed.
End NewId.

(** Growing the table before an insertion. *)
Lemma grow_spec calloc_ok st held owned : store_ok st held owned -> count (nodemap st) < 2 ^ 26 ->
  exists s ns, (if u32 (size (nodemap st) * 3) <=? u32 (count (nodemap st) * 4)
                then expand (idof st) calloc_ok (nodemap st) else Some (GOOD, nodemap st)) = Some (s, ns) /\
    store_ok (set_map st ns) held owned /\ contents (set_map st ns) ≡ₚ contents st /\
    (s = GOOD -> zlen (ptrs (entries ns)) < size ns) /\ count ns = count (nodemap st) /\
    (s = GOOD \/ s = BADOUTOFMEMORY /\ exists sz, calloc_ok sz = false).
Proof.
  intros Hok Hcnt; pose proof (so_count _ _ _ Hok) as Hc; pose proof (zlen_nonneg (pointers st)).
  pose proof (sizes_ok _ (tw_size _ _ (so_table _ _ _ Hok))) as [_ Hs].
  destruct (_ <=? _) eqn:E.
  - destruct (expand_spec (idof st) calloc_ok (nodemap st) (so_table _ _ _ Hok)) as
      (s & ns & Eexp & Hwf & Hp & Hcn & Hst); [lia|lia|].
    exists s, ns; destruct (set_map_ok st held owned ns Hok Hwf Hp Hcn) as [Hok' Hcon].
    split_and!; try done.
    + intros ->; pose proof (sizes_ok _ (tw_size _ _ Hwf)) as [_ Hs'].
      destruct Hst as [[_ Hle]|[? _]]; [rewrite Hp; lia|done].
    + destruct Hst as [[-> _]|(-> & _ & ?)]; auto.
  - exists GOOD, (nodemap st); replace (set_map st (nodemap st)) with st by (by destruct st).
    split_and!; try done; [|by left]; intros _; zbool.
    destruct (decide (size (nodemap st) < 2 ^ 30)); [|lia].
    rewrite !u32_small in E by lia; lia.
Qed.

Lemma insert_refines calloc_ok st held owned p cp : store_ok st held owned -> p ∈ owned ->
  (forall n, node_at st p = Some n -> nodeid_valid (node_id n)) -> count (nodemap st) < 2 ^ 26 ->
  exists r st', exec calloc_ok (InsertNode p cp) st = Some (r, st') /\
                refines calloc_ok st held owned (InsertNode p cp) r st'.
Proof.
  intros Hok Hp Hvalid Hcnt; cbn [exec]; unfold UA_NodeMap_insertNode.
  destruct (grow_spec calloc_ok st held owned Hok Hcnt) as (s & ns & -> & Hok1 & Hcon1 & Hroom & Hc1 & Hs).
  cbn [mbind option_bind]; destruct (bad s) eqn:Eb.
  { destruct Hs as [->|[_ [sz Hsz]]]; [done|].
    eexists _, _; split; [done|]; eexists _, _, _; split; [right; by econstructor|]; same_store. }
  apply bad_false in Eb as ->; specialize (Hroom eq_refl); set (st1 := set_map st ns) in *.
  destruct (owned_split st1 held owned p Hok1 Hp) as (owned' & e & Ho & He & _ & Hout).
  assert (Hn : node_at st p = Some (node e)) by (unfold node_at; change (heap st) with (heap st1); by rewrite He).
  specialize (Hvalid _ Hn).
  destruct (find_slot_for_spec st1 held owned p e Hok1 Hp He Hroom Hvalid)
    as (n' & slot' & -> & Hn' & Hv' & Hslot); cbn [mbind option_bind].
  destruct (edit_owned st1 held owned p e n' Hok1 Hp He) as [Hok2 Hcon2].
  fold (with_node st1 p e n') in Hok2, Hcon2; set (st2 := with_node st1 p e n') in *.
  destruct (delete_owned st2 held owned owned' p Hok2 Ho) as (st3 & E3 & Hok3 & Hcon3 & Hother).
  assert (Hcon : contents st3 ≡ₚ contents st) by (by rewrite Hcon3, Hcon2, Hcon1).
  assert (Hkeep2 : forall q, q <> p -> heap st2 !! q = heap st !! q)
    by (intros q Hq; by apply lookup_insert_ne).
  assert (Hkeep3 : keeps st held st3) by (apply (keeps_other _ _ _ p); [by apply (owned_not_held st held owned)|];
    intros q Hq; by rewrite Hother, Hkeep2).
  destruct slot' as [i|].
  2: { rewrite E3; eexists _, _; split; [done|]; destruct Hslot as (Hnull & q & Hq).
       destruct (pointer_node _ _ _ q Hok1 (proj1 Hq)) as (f & Hf & Hnf & Hin & _).
       exists (contents st), held, owned'; split; [|by split_and!].
       left; eapply (SpecInsertExists _ _ _ _ p cp (node e) (node f)); try done.
       - by rewrite <- Hcon1.
       - by apply (stored_named st1 held owned _ q (node f) Hok1 Hnf (proj1 Hq)). }
  destruct (bad (default GOOD cp)) eqn:Ecp.
  { destruct cp as [s|]; [|done]; rewrite E3; eexists _, _; split; [done|].
    exists (contents st), held, owned'; split; [|by split_and!].
    left; eapply SpecInsertCopyFails; [by apply bad_true|done]. }
  destruct Hslot as (Hnot & Hocc & Hi & Hreach).
  change (nodemap st2) with ns; change (nodemap st1) with ns in Hocc, Hi, Hreach, Hnot.
  rewrite Hocc; eexists _, _; split; [done|].
  assert (Hsame : forall q, q ∈ pointers st1 -> idof st2 q = idof st1 q).
  { intros q Hq; unfold idof; cbn [st2 with_node store_entry set_heap heap].
    rewrite lookup_insert_ne; [done|]; by intros <-. }
  assert (Hnot2 : forall q, ~ stored (idof st2) ns (node_id n') q)
    by (intros q Hq; apply (Hnot q), (stored_ext (idof st1) (idof st2) ns); done).
  assert (Enode : heap st2 !! p = Some (mkMapEntry (orig e) (refCount e) (deleted e) n'))
    by apply lookup_insert_eq.
  assert (Ep : idof st2 p = Some (node_id n')) by (unfold idof; by rewrite Enode).
  destruct (insert_wf (idof st2) ns (so_table _ _ _ Hok2) i Hi p (node_id n') Hocc Ep Hv' Hreach Hnot2)
    as [Hwf Hptr].
  pose proof (so_count _ _ _ Hok1) as Hc; change (nodemap st1) with ns in Hc; pose proof (zlen_nonneg (ptrs (entries ns))).
  change (count (set_slot ns i (SlotEntry p))) with (count ns); rewrite u32_small by lia.
  exists (n' :: contents st), held, owned'; split; [|split; [|split; [split|]]].
  - left; eapply SpecInsert; try done; intros m Hm; rewrite <- Hcon1 in Hm.
    by eapply (not_stored_named st1).
  - match goal with |- contents ?s ≡ₚ _ => rewrite (contents_perm st2 s (p :: ptrs (entries ns))) by done end.
    cbn [omap list_omap]; unfold node_at at 1; rewrite Enode; cbn [fmap option_fmap option_map node].
    apply Permutation_skip; rewrite <- Hcon1, <- Hcon2; done.
  - by apply set_count_wf.
  - cbn [set_map nodemap set_count count entries]; rewrite Hptr, zlen_cons; lia.
  - eapply heap_ok_perm; [symmetry; exact Hptr|done..|]; apply heap_link.
    eapply heap_ok_perm; [done..|exact Ho|apply Hok2].
  - apply (keeps_other _ _ _ p); [by apply (owned_not_held st held owned)|done].
Qed.

Lemma exec_refines calloc_ok st held owned c :
  store_ok st held owned -> allowed st held owned c ->
  count (nodemap st) < 2 ^ 26 -> zlen held < 65535 ->
  exists r st', exec calloc_ok c st = Some (r, st') /\ refines calloc_ok st held owned c r st'.
Proof.
  intros Hok [Ha Hv] Hc Hh; destruct c.
  - by apply new_refines.
  - by apply delete_refines.
  - by apply edit_refines.
  - by apply get_refines.
  - apply release_refines; [done..|lia].
  - destruct Ha; by apply copy_refines.
  - by apply insert_refines.
  - by apply replace_refines.
  - by apply remove_refines.
Qed.

(** C31: The hash map refines the documented node store up to two errors: every
    call a client may make, on a store of less than 2^26 nodes and with less than
    65535 references held, is executed without touching freed memory and without
    running out of probe steps; its result is the one the interface documents
    for the nodes in the store (found exactly when a node of that id is stored,
    inserted exactly when there was none, a fresh identifier for a null id,
    removed, replaced unless it was changed since the copy), and afterwards the
    store holds the documented nodes.  The two exceptions are the cases of
    [call_kept], in which the code keeps the node that the documentation calls
    deleted: no memory for a larger table, and no node to replace. *)
Theorem nodestore_refines calloc_ok st held owned c :
  store_ok st held owned -> allowed st held owned c ->
  count (nodemap st) < 2 ^ 26 -> zlen held < 65535 ->
  exists r st' M' held' owned', exec calloc_ok c st = Some (r, st') /\
    (call_spec st held owned (contents st) c r M' held' owned' \/
     call_kept calloc_ok st held owned (contents st) c r M' held' owned') /\
    contents st' ≡ₚ M' /\ store_ok st' held' owned'.
Proof.
  intros Hok Ha Hc Hh.
  destruct (exec_refines calloc_ok st held owned c Hok Ha Hc Hh) as (r & st' & E & M' & held' & owned' & H).
  destruct H as (H1 & H2 & H3 & _); by exists r, st', M', held', owned'.
Qed.

(** A node that was handed out stays allocated and unchanged as long as the
    reference is held, also when it is removed or replaced in the meantime; and
    after every call the memory in use is exactly the nodes in the store, the
    nodes somebody refers to and the editable nodes. *)
Theorem nodestore_references calloc_ok st held owned c p :
  store_ok st held owned -> allowed st held owned c ->
  count (nodemap st) < 2 ^ 26 -> zlen held < 65535 -> p ∈ held -> c <> ReleaseNode p ->
  exists r st' (held' owned' : list nat), exec calloc_ok c st = Some (r, st') /\
    (exists n, node_at st p = Some n /\ node_at st' p = Some n) /\
    forall q, is_Some (heap st' !! q) <-> q ∈ pointers st' \/ q ∈ owned' \/ q ∈ held'.
Proof.
  intros Hok Ha Hc Hh Hp Hne.
  destruct (exec_refines calloc_ok st held owned c Hok Ha Hc Hh)
    as (r & st' & E & M' & held' & owned' & Hspec & _ & Hok' & Hkeep).
  exists r, st', held', owned'; split; [done|]; split.
  - assert (Hp' : p ∈ held').
    { destruct Hspec as [Hspec|Hspec]; inversion Hspec; subst; try done; [by right|].
      match goal with H : held ≡ₚ ?x :: _ |- _ => rewrite H in Hp; apply elem_of_cons in Hp as [-> |] end;
        done. }
    destruct (ho_alloc _ _ _ _ (so_heap _ _ _ Hok') p) as [e' He']; [auto|].
    destruct (Hkeep p Hp) as [Hnone|Hsame]; [congruence|].
    exists (node e'); rewrite <- Hsame; split; unfold node_at; by rewrite He'.
  - intros q; split; [intros [e He]; by apply (ho_leak _ _ _ _ (so_heap _ _ _ Hok') q e)|].
    apply (ho_alloc _ _ _ _ (so_heap _ _ _ Hok')).
Qed.
End Correct.

(** ** Examples *)

(** The store of [UA_Nodestore_default_new]. *)
Definition new_store (N : Type) : Store N := mkStore (mkNodeMap (replicate 127 SlotNull) 127 0 4) ∅.

Lemma new_store_ok {N} {NO : NodeOps N} : store_ok (new_store N) [] [].
Proof.
  destruct (empty_table_wf (idof (new_store N)) 127 0 4) as [Hwf Hp]; [apply (bool_decide_unpack _); reflexivity|].
  split; [exact Hwf|reflexivity|].
  change (ptrs (entries (nodemap (new_store N)))) with (ptrs (replicate (Z.to_nat 127) SlotNull)); rewrite Hp; split.
  - intros p; rewrite !elem_of_nil; tauto.
  - intros p e He; change (heap (new_store N)) with (∅ : gmap nat (UA_NodeMapEntry N)) in He.
    by rewrite lookup_empty in He.
  - intros p e He; change (heap (new_store N)) with (∅ : gmap nat (UA_NodeMapEntry N)) in He.
    by rewrite lookup_empty in He.
  - split; apply NoDup_nil_2.
  - intros p; by rewrite elem_of_nil.
Qed.

(** After a call that was executed. *)
Lemma exec_ok {N} {NO : NodeOps N} (c : Call N) st held owned r st' :
  store_ok st held owned -> allowed st held owned c -> count (nodemap st) < 2 ^ 26 ->
  zlen held < 65535 -> exec (fun _ => true) c st = Some (r, st') ->
  exists M' held' owned', call_outcome (fun _ => true) st held owned (contents st) c r M' held' owned' /\
    store_ok st' held' owned'.
Proof.
  intros Hok Ha Hc Hh E.
  destruct (exec_refines (fun _ => true) st held owned c Hok Ha Hc Hh) as (? & ? & E' & M' & h & o & H).
  rewrite E in E'; injection E' as <- <-; destruct H as (H1 & _ & H3 & _); by exists M', h, o.
Qed.

Module StoreExample.
(** A node with an id, a class and a value. *)
Record Node := mkNode { ex_id : UA_NodeId; ex_class : Z; ex_value : Z }.

#[export] Instance node_ops : NodeOps Node := {|
  node_id := ex_id;
  set_numeric n i := mkNode (mkNodeId (nid_namespaceIndex (ex_id n)) (NumericId i)) (ex_class n) (ex_value n);
  node_class := ex_class;
  node_new c := mkNode UA_NODEID_NULL c 0;
  node_copy src dst := (GOOD, src);
  set_numeric_id n i := eq_refl;
  set_numeric_twice n i j := eq_refl
|}.

Definition numeric (i : Z) : UA_NodeId := mkNodeId 1 (NumericId i).

Definition empty : Store Node := new_store Node.

(** A sequence of calls; the last result and the store. *)
Fixpoint run (calloc_ok : Z -> bool) (cs : list (Call Node)) (st : Store Node) (r : Result)
    : option (Result * Store Node) :=
  match cs with
  | [] => Some (r, st)
  | c :: cs => '(r, st) ← exec calloc_ok c st; run calloc_ok cs st r
  end.

(** A new node at the address [p] with an id is inserted. *)
Definition add (p : nat) (id : UA_NodeId) : list (Call Node) :=
  [NewNode 1 (Some p); EditNode p (mkNode id 1 0); InsertNode p None].
End StoreExample.
Import StoreExample.

(** One node is in the store and a client refers to it. *)
Definition example_store : Store Node :=
  default empty (snd <$> run (fun _ => true) (add 1 (numeric 7) ++ [GetNode (numeric 7)]) empty RNone).

Lemma example_store_ok : store_ok example_store [1%nat] [].
Proof.
  pose (s1 := default empty (snd <$> exec (fun _ => true) (NewNode 1 (Some 1%nat)) empty)).
  pose (s2 := default empty (snd <$> exec (fun _ => true) (EditNode 1 (mkNode (numeric 7) 1 0)) s1)).
  pose (s3 := default empty (snd <$> exec (fun _ => true) (InsertNode 1 None) s2)).
  destruct (exec_ok (NewNode 1 (Some 1%nat)) empty [] [] (RNode (Some 1%nat)) s1)
    as (M1 & h1 & o1 & C1 & O1); [exact new_store_ok|split; [by intros ? _|done]|done..|].
  destruct C1 as [C1|C1]; inversion C1; subst.
  destruct (exec_ok (EditNode 1 (mkNode (numeric 7) 1 0)) s1 [] [1%nat] RNone s2)
    as (M2 & h2 & o2 & C2 & O2); [exact O1|split; [by left|done]|done..|].
  destruct C2 as [C2|C2]; inversion C2; subst.
  destruct (exec_ok (InsertNode 1 None) s2 [] [1%nat] (RStatus GOOD) s3)
    as (M3 & h3 & o3 & C3 & O3); [exact O2|split; [by left|]|done..|].
  { intros n Hn; vm_compute in Hn; by injection Hn as <-. }
  assert (o3 = [] /\ h3 = []) as [-> ->].
  { destruct C3 as [C3|C3]; inversion C3; subst; (split; [|done]); apply Permutation_nil, (Permutation_cons_inv (a := 1%nat)); done. }
  destruct (exec_ok (GetNode (numeric 7)) s3 [] [] (RNode (Some 1%nat)) example_store)
    as (M4 & h4 & o4 & C4 & O4); [exact O3|done|done..|].
  destruct C4 as [C4|C4]; inversion C4; subst; exact O4.
Qed.

Lemma nodestore_refines_witness :
  contents example_store = [mkNode (numeric 7) 1 0] /\
  exists r st' M' held' owned', exec (fun _ => true) (RemoveNode (numeric 7)) example_store = Some (r, st') /\
    (call_spec example_store [1%nat] [] (contents example_store) (RemoveNode (numeric 7)) r M' held' owned' \/
     call_kept (fun _ => true) example_store [1%nat] [] (contents example_store) (RemoveNode (numeric 7)) r
       M' held' owned') /\
    contents st' ≡ₚ M' /\ store_ok st' held' owned'.
Proof.
  split; [vm_compute; reflexivity|].
  apply (nodestore_refines (fun _ => true) example_store [1%nat] [] (RemoveNode (numeric 7))).
  - exact example_store_ok.
  - split; exact I.
  - vm_compute; reflexivity.
  - vm_compute; reflexivity.
Defined.

Lemma nodestore_references_witness :
  exists r st' (held' owned' : list nat),
    exec (fun _ => true) (RemoveNode (numeric 7)) example_store = Some (r, st') /\
    (exists n, node_at example_store 1 = Some n /\ node_at st' 1 = Some n) /\
    forall q, is_Some (heap st' !! q) <-> q ∈ pointers st' \/ q ∈ owned' \/ q ∈ held'.
Proof.
  apply (nodestore_references (fun _ => true) example_store [1%nat] [] (RemoveNode (numeric 7)) 1).
  - exact example_store_ok.
  - split; exact I.
  - vm_compute; reflexivity.
  - vm_compute; reflexivity.
  - left.
  - discriminate.
Defined.

(** ** Where the code departs from the documentation *)

Definition allocated (st : Store Node) (p : nat) : bool := bool_decide (is_Some (heap st !! p)).

(** The interface says that a node is deleted when it cannot be inserted or
    replaced.  The code keeps it when the table cannot grow, and when the id of
    an editable copy is not found any more: the caller cannot tell these
    failures from those that freed the node. *)
Theorem failed_calls_leak :
  let fill := concat (map (fun i => add i (numeric (Z.of_nat i))) (seq 1 96)) in
  (exists st, run (fun _ => false) (fill ++ add 97 (numeric 97)) empty RNone =
                Some (RStatus BADINTERNALERROR, st) /\ allocated st 97 = true) /\
  (exists st, run (fun _ => true) (add 1 (numeric 7) ++
                [GetNodeCopy (numeric 7) (Some 2%nat); RemoveNode (numeric 7); ReplaceNode 2]) empty RNone =
                Some (RStatus BADNODEIDUNKNOWN, st) /\ allocated st 2 = true).
Proof. split; eexists; (split; [vm_compute; reflexivity|vm_compute; reflexivity]). Qed.

(** Identifiers for nodes without one are to start at 50,000 so that they do
    not conflict with nodes of the specification.  After a conflict the search
    goes down from there: in a store of 16 nodes, when one of them is removed
    after two such insertions, the third one gets the identifier 49912. *)
Theorem fresh_identifier_below_50000 :
  let null_id := mkNodeId 0 (NumericId 0) in
  exists st, run (fun _ => true)
    (concat (map (fun i => add i (numeric (Z.of_nat i))) (seq 1 16)) ++ add 17 null_id ++
     add 18 null_id ++ [RemoveNode (numeric 7)] ++ add 19 null_id) empty RNone = Some (RStatus GOOD, st) /\
  ex_id <$> node_at st 19 = Some (mkNodeId 0 (NumericId 49912)).
Proof. eexists; split; [vm_compute; reflexivity|vm_compute; reflexivity]. Qed.
