(* ===== verification/SecureChannelFrame.v ===== *)
(** * What the encoder does to the state of the exchange callback

    The encoders reach the state of the callback through the callback alone:
    every property of that state that the callback keeps is kept by encoding
    any value, well-formed or not. *)

From Stdlib Require Import ZArith Lia.
From stdpp Require Import base list numbers tactics sets.
From S2P Require Import Prelude UaTypes UaValue BinarySize BinaryEncode BinaryDecode BinarySpec FieldCodec Connection SecureChannel.

Create HintDb keeps.

Section Frame.
Context {TE : TypeEnv} {H : Type}.
Variable cb : option (exchangeEncodeBuffer H).
Variable P : H -> Prop.
Hypothesis cb_keeps : forall f h o r, cb = Some f -> P h -> P (snd (fst (f h o r))).

Abbreviation enc := (Ctx H -> status * Ctx H).

Definition keeps (m : enc) : Prop := forall c, P (handle c) -> P (handle (snd (m c))).

(** ** Combinators *)

Lemma keeps_ret s : keeps (retE s).
Proof. by intros c Hc. Qed.

Lemma keeps_or m1 m2 : keeps m1 -> keeps m2 -> keeps (orE m1 m2).
Proof.
  intros H1 H2 c Hc; unfold orE; specialize (H1 c Hc); destruct (m1 c) as [r1 c1].
  specialize (H2 c1 H1); by destruct (m2 c1).
Qed.

Lemma keeps_then m1 m2 : keeps m1 -> keeps m2 -> keeps (thenE m1 m2).
Proof.
  intros H1 H2 c Hc; unfold thenE; specialize (H1 c Hc); destruct (m1 c) as [r1 c1].
  destruct (bad r1); [done|by apply H2].
Qed.

Lemma keeps_when b m : keeps m -> keeps (whenE b m).
Proof. destruct b; [done|]; intros _; apply keeps_ret. Qed.

Lemma keeps_if (b : bool) m1 m2 : keeps m1 -> keeps m2 -> keeps (if b then m1 else m2).
Proof. by destruct b. Qed.

Lemma keeps_put bs : keeps (put bs).
Proof. intros c Hc; unfold put; by destruct (_ <? _). Qed.

Lemma keeps_exchange : keeps (exchangeBuffer cb).
Proof.
  intros c Hc; unfold exchangeBuffer; destruct cb as [f|] eqn:Hf; [|done].
  pose proof (cb_keeps f (handle c) (out c) (room c) eq_refl Hc) as Hp.
  by destruct (f _ _ _) as [[ret h] [r|]].
Qed.

Lemma keeps_restore p c : P (handle c) -> P (handle (restore_pos p c)).
Proof. unfold restore_pos; by destruct (_ =? _)%nat. Qed.

Lemma keeps_retry m : keeps m -> keeps (encodeWithExchangeBuffer cb m).
Proof.
  intros Hm c Hc; unfold encodeWithExchangeBuffer; pose proof (Hm c Hc) as H1.
  destruct (m c) as [r1 c1]; destruct (_ =? _); [|done].
  pose proof (keeps_exchange c1 H1) as H2; destruct (exchangeBuffer cb c1) as [r2 c2].
  destruct (bad r2); [done|]; pose proof (Hm c2 H2) as H3; by destruct (m c2).
Qed.

Lemma keeps_byte z : keeps (Byte_encodeBinary z).
Proof. apply keeps_put. Qed.
Lemma keeps_uint16 z : keeps (UInt16_encodeBinary z).
Proof. apply keeps_put. Qed.
Lemma keeps_uint32 z : keeps (UInt32_encodeBinary z).
Proof. apply keeps_put. Qed.
Lemma keeps_uint64 z : keeps (UInt64_encodeBinary z).
Proof. apply keeps_put. Qed.

#[local] Hint Resolve keeps_byte keeps_uint16 keeps_uint32 keeps_uint64 keeps_ret keeps_or keeps_then keeps_when keeps_if keeps_put keeps_exchange
  keeps_restore keeps_retry : keeps.

(** ** Loops *)

Lemma keeps_overlayable fuel esz mem : keeps (overlayable_loop cb fuel esz mem).
Proof.
  revert mem; induction fuel as [|fuel IH]; intros mem c Hc; cbn [overlayable_loop].
  all: destruct (_ <? _); [|by apply keeps_put]; destruct (_ =? _); [done|].
  all: match goal with |- context [exchangeBuffer cb ?c] =>
         pose proof (keeps_exchange c Hc) as H1; destruct (exchangeBuffer cb c) as [r1 c1] end.
  all: destruct (bad r1); [done|]; first [done|by apply IH].
Qed.

Lemma keeps_complex fuel elems : Forall keeps elems -> keeps (complex_loop cb fuel elems).
Proof.
  revert elems; induction fuel as [|fuel IH]; intros [|e l] He c Hc; try exact Hc; cbn [complex_loop].
  pose proof (Forall_inv He c Hc) as H1; destruct (e c) as [r1 c1].
  destruct (negb (bad r1)); [by apply IH; [apply Forall_inv_tail in He|]|].
  destruct (_ =? _); [|done].
  pose proof (keeps_exchange _ (keeps_restore (save_pos c) c1 H1)) as H2.
  destruct (exchangeBuffer cb _) as [r2 c2]; destruct (bad r2); [done|by apply IH].
Qed.

Lemma keeps_array src type :
  Forall (fun e => keeps (snd e)) (arr_list src) -> keeps (Array_encodeBinary cb src type).
Proof.
  intros He; unfold Array_encodeBinary; destruct (_ <? arr_length src); [apply keeps_ret|].
  apply keeps_then; [auto with keeps|].
  apply keeps_if; [apply keeps_ret|apply keeps_if; [|apply keeps_overlayable]].
  apply keeps_complex, Forall_map; by eapply Forall_impl.
Qed.

Lemma keeps_array_map {A} (f : A -> list Z * enc) (src : UA_Array A) type :
  Forall (fun a => keeps (snd (f a))) (arr_list src) -> keeps (Array_encodeBinary cb (arr_map f src) type).
Proof. intros Hf; apply keeps_array; rewrite arr_list_map; by apply Forall_map. Qed.

Lemma keeps_string s : keeps (String_encodeBinary cb s).
Proof. apply keeps_array_map, Forall_forall; intros b _; apply keeps_put. Qed.
#[local] Hint Resolve keeps_string : keeps.

Definition job_keeps (j : Job) : Prop :=
  match j with JobScalar _ e => keeps e | JobArray e => keeps e end.

Lemma keeps_members fuel jobs : Forall job_keeps jobs -> keeps (members_loop cb fuel jobs).
Proof.
  revert jobs; induction fuel as [|fuel IH]; intros [|j l] Hj c Hc; try exact Hc; cbn [members_loop].
  pose proof (Forall_inv Hj) as He; pose proof (Forall_inv_tail Hj) as Hl; destruct j as [sz e|e].
  - pose proof (He c Hc) as H1; destruct (e c) as [r1 c1]; destruct (_ =? _).
    + pose proof (keeps_exchange _ (keeps_restore (save_pos c) c1 H1)) as H2.
      destruct (exchangeBuffer cb _) as [r2 c2]; destruct (_ || _); [done|].
      destruct (bad r2); [done|by apply IH].
    + destruct (bad r1); [done|by apply IH].
  - pose proof (He c Hc) as H1; destruct (e c) as [r1 c1]; destruct (bad r1); [done|by apply IH].
Qed.

Lemma keeps_encodeMembers jobs : Forall job_keeps jobs -> keeps (encodeMembers cb jobs).
Proof.
  intros Hj c Hc; unfold encodeMembers; destruct (_ <? depth c); [done|].
  pose proof (keeps_members (2 * length jobs) jobs Hj (set_depth c (depth c + 1)) Hc) as H1.
  by destruct (members_loop _ _ _ _).
Qed.

Lemma keeps_internal e type : keeps e -> keeps (encodeBinaryInternal cb e type).
Proof.
  intros He; apply keeps_if; [|done]; apply keeps_encodeMembers; by repeat constructor.
Qed.
#[local] Hint Resolve keeps_internal : keeps.

(** ** Types *)

Lemma keeps_guid g : keeps (Guid_encodeBinary g).
Proof.
  intros c Hc; unfold Guid_encodeBinary.
  assert (keeps (orE (orE (UInt32_encodeBinary (data1 g)) (UInt16_encodeBinary (data2 g)))
                   (UInt16_encodeBinary (data3 g)) : enc)) as Hk by auto with keeps.
  specialize (Hk c Hc); destruct (orE _ _ c) as [r1 c1].
  pose proof (keeps_put (data4 g) c1 Hk) as H2; destruct (put (data4 g) c1) as [r2 c2].
  by destruct (bad r2).
Qed.
#[local] Hint Resolve keeps_guid : keeps.

Lemma keeps_nodeid n mask : keeps (NodeId_encodeBinaryWithEncodingMask cb n mask).
Proof.
  unfold NodeId_encodeBinaryWithEncodingMask.
  destruct (nid_identifier n); auto 10 with keeps.
Qed.
#[local] Hint Resolve keeps_nodeid : keeps.

Lemma keeps_diagnosticInfo d : keeps (DiagnosticInfo_encodeBinary cb d).
Proof.
  revert d; fix IH 1; intros d; destruct d as [b1 b2 b3 b4 b5 b6 b7 s ns lt loc add st [inner|]];
    cbn [DiagnosticInfo_encodeBinary innerDiagnosticInfo]; auto 20 with keeps.
Qed.
#[local] Hint Resolve keeps_diagnosticInfo : keeps.

Lemma keeps_encoded encoding typeId body : keeps (ExtensionObject_encodeEncoded cb encoding typeId body).
Proof. unfold ExtensionObject_encodeEncoded, NodeId_encodeBinary; auto 10 with keeps. Qed.

Lemma keeps_decoded type len content : keeps content -> keeps (ExtensionObject_encodeDecoded cb type len content).
Proof.
  intros Hk; unfold ExtensionObject_encodeDecoded; destruct (negb _); [apply keeps_ret|]; intros c Hc.
  match goal with |- context [orE ?m1 ?m2 c] =>
    assert (keeps (orE m1 m2)) as H1 by (unfold NodeId_encodeBinary; auto with keeps) end.
  specialize (H1 c Hc); destruct (orE _ _ c) as [r1 c1]; destruct (_ <? len); [done|].
  pose proof (keeps_uint32 len c1 H1) as H2; destruct (UInt32_encodeBinary len c1) as [r2 c2].
  destruct (bad _); [done|by apply Hk].
Qed.

Lemma keeps_wrap_loop elems : Forall keeps elems -> keeps (wrap_loop elems).
Proof. induction 1; cbn [wrap_loop]; auto with keeps. Qed.

Lemma keeps_wrap b n elems : Forall keeps elems -> keeps (Variant_encodeBinaryWrapExtensionObject b n elems).
Proof.
  intros He; unfold Variant_encodeBinaryWrapExtensionObject.
  pose proof (keeps_wrap_loop _ He); auto with keeps.
Qed.

Lemma keeps_dataValueTail h : keeps (DataValue_encodeTail cb h).
Proof. unfold DataValue_encodeTail; auto 10 with keeps. Qed.

Lemma keeps_qualifiedName q : keeps (QualifiedName_encodeBinary cb q).
Proof. unfold QualifiedName_encodeBinary; auto with keeps. Qed.

Lemma keeps_localizedText t : keeps (LocalizedText_encodeBinary cb t).
Proof. unfold LocalizedText_encodeBinary; auto 10 with keeps. Qed.

Lemma keeps_expandedNodeId n : keeps (ExpandedNodeId_encodeBinary cb n).
Proof. unfold ExpandedNodeId_encodeBinary; auto 10 with keeps. Qed.

#[local] Hint Resolve keeps_encoded keeps_decoded keeps_wrap keeps_dataValueTail keeps_qualifiedName
  keeps_localizedText keeps_expandedNodeId : keeps.

Definition value_keeps (v : UA_Value) : Prop := forall type, keeps (encodeBinary cb v type).

Lemma keeps_variant t data dims :
  Forall value_keeps (slot_list data) -> value_keeps (VVariant t data dims).
Proof.
  intros Hd type; cbn [encodeBinary]; destruct (entry type) as [[]|]; try apply keeps_ret.
  destruct t as [t|]; [|apply keeps_byte]; destruct (isAlias t) as [alias|]; [|apply keeps_ret].
  apply keeps_then; [apply keeps_byte|apply keeps_then].
  - destruct (negb (builtin t) && negb alias), data as [d|arr]; cbn [variant_isArray slot_list] in *.
    + apply keeps_wrap; constructor; [|done]; apply keeps_internal, keeps_decoded, keeps_internal.
      by apply (Forall_inv Hd).
    + apply keeps_if; [|apply keeps_ret]; apply keeps_wrap; rewrite arr_list_map.
      apply Forall_map; eapply Forall_impl; [exact Hd|]; intros v Hv.
      by apply keeps_internal, keeps_decoded, keeps_internal.
    + by apply keeps_internal, (Forall_inv Hd).
    + apply keeps_if; [|apply keeps_ret]; apply keeps_array_map.
      eapply Forall_impl; [exact Hd|]; intros v Hv; apply Hv.
  - apply keeps_when, keeps_array_map, Forall_forall; intros z _; apply keeps_uint32.
Qed.

Lemma keeps_struct fs : Forall (fun s => Forall value_keeps (slot_list s)) fs -> value_keeps (VStruct fs).
Proof.
  intros Hfs type; cbn [encodeBinary]; destruct (entry type) as [[]|]; try apply keeps_ret.
  apply keeps_encodeMembers; generalize (members type) as ms.
  assert (job_keeps (JobArray (retE UNDEFINED : enc))) as Hu by apply keeps_ret.
  induction Hfs as [|s fs Hs Hfs IH]; intros [|m ms]; try (by repeat constructor).
  destruct (membertype type m) as [mt|]; [|by repeat constructor].
  destruct s as [v|arr]; destruct (isArray m); try (by repeat constructor); constructor; try apply IH.
  - apply (Forall_inv Hs).
  - apply keeps_array_map; eapply Forall_impl; [exact Hs|]; intros v Hv; apply Hv.
Qed.

Lemma keeps_value v : value_keeps v.
Proof.
  induction v using UA_Value_nested_ind; try (by apply keeps_variant); try (by apply keeps_struct);
    intros type; cbn [encodeBinary]; destruct (entry type) as [[]|]; try apply keeps_ret;
    unfold NodeId_encodeBinary; auto with keeps; try apply keeps_put.
  destruct t as [t|], d as [d|]; try apply keeps_ret; apply keeps_decoded, keeps_internal.
  by apply H0.
Qed.

(** Encoding a value keeps what the callback keeps. *)
Lemma encode_keeps v type h room :
  P h -> P (handle (snd (UA_encodeBinary cb v type h room))).
Proof. intros Hh; apply (keeps_internal _ _ (keeps_value v type)); exact Hh. Qed.
End Frame.

(** ** What messages do to the network and the application

    Sending reaches the network layer through its three operations alone, and
    receiving reaches the application through the callback alone: what they
    keep is kept by the whole message. *)

(** ** Sending *)

Section Send.
Context {TE : TypeEnv} {C N : Type}.
Variable policy : UA_SecurityPolicy C.
Variable getSendBuffer : N -> Z -> status * N.
Variable send : N -> list Z -> status * N.
Variable releaseSendBuffer : N -> N.
Variable P : N -> Prop.
Hypothesis get_keeps : forall n k, P n -> P (snd (getSendBuffer n k)).
Hypothesis send_keeps : forall n b, P n -> P (snd (send n b)).
Hypothesis release_keeps : forall n, P n -> P (releaseSendBuffer n).

Abbreviation context := (UA_MessageContext (C := C) (N := N)).
Abbreviation net_ok := (fun mc : context => P (mc_net mc)).

Lemma chunk_keeps (mc : context) :
  net_ok mc -> net_ok (snd (sendSymmetricChunk policy send releaseSendBuffer mc)).
Proof.
  intros Hm; unfold sendSymmetricChunk; destruct (connection (mc_channel mc)) as [conn|]; [|done].
  destruct (exceeds_limits _ _); [by apply release_keeps|]; destruct (_ <? _); [done|].
  destruct (chunk_headers _ _ _) as [r1 h]; destruct (protect _ _ _ _) as [r2 m].
  destruct (bad _); [by apply release_keeps|].
  match goal with |- context [send ?n ?b] => pose proof (send_keeps n b Hm) as H1; by destruct (send n b) end.
Qed.

Lemma exchange_keeps (mc : context) o r :
  net_ok mc ->
  net_ok (snd (fst (sendSymmetricEncodingCallback policy getSendBuffer send releaseSendBuffer mc o r))).
Proof.
  intros Hm; unfold sendSymmetricEncodingCallback.
  match goal with |- context [sendSymmetricChunk _ _ _ ?m] =>
    pose proof (chunk_keeps m Hm) as H1; destruct (sendSymmetricChunk _ _ _ m) as [r1 mc1] end.
  destruct (bad r1); [done|]; destruct (connection (mc_channel mc1)); [|done].
  match goal with |- context [getSendBuffer ?n ?k] =>
    pose proof (get_keeps n k H1) as H2; destruct (getSendBuffer n k) as [r2 n2] end.
  by destruct (bad r2).
Qed.

Lemma begin_keeps ch n id t :
  P n -> net_ok (snd (UA_MessageContext_begin policy getSendBuffer ch n id t)).
Proof.
  intros Hn; unfold UA_MessageContext_begin; destruct (connection ch); [|done].
  destruct (_ && _); [done|]; destruct (_ <=? _); [done|].
  match goal with |- context [getSendBuffer ?n ?k] =>
    pose proof (get_keeps n k Hn) as H2; destruct (getSendBuffer n k) as [r2 n2] end.
  by destruct (bad r2).
Qed.

Lemma encode_context_keeps (mc : context) v t :
  net_ok mc ->
  net_ok (snd (UA_MessageContext_encode policy getSendBuffer send releaseSendBuffer mc v t)).
Proof.
  intros Hm; unfold UA_MessageContext_encode.
  match goal with |- context [UA_encodeBinary ?cb v t mc ?room] =>
    pose proof (encode_keeps cb (fun mc => P (mc_net mc))
      ltac:(intros f h o r Hf; injection Hf as <-; apply exchange_keeps) v t mc room Hm) as H1;
    destruct (UA_encodeBinary cb v t mc room) as [r1 c1] end.
  cbn [snd] in H1; destruct (bad r1); [|done]; destruct (_ <? _); [by apply release_keeps|done].
Qed.

Lemma finish_keeps (mc : context) :
  net_ok mc -> net_ok (snd (UA_MessageContext_finish policy send releaseSendBuffer mc)).
Proof. exact (chunk_keeps (mc_set_final mc)). Qed.

Lemma abort_keeps (mc : context) : net_ok mc -> net_ok (UA_MessageContext_abort releaseSendBuffer mc).
Proof. exact (release_keeps _). Qed.

Lemma sendSymmetricMessage_keeps ch n id mt v t :
  P n ->
  net_ok (snd (UA_SecureChannel_sendSymmetricMessage policy getSendBuffer send releaseSendBuffer ch n id mt v t)).
Proof.
  intros Hn; unfold UA_SecureChannel_sendSymmetricMessage; cbv zeta.
  match goal with |- context [if ?b then _ else _] => destruct b end; [done|].
  pose proof (begin_keeps ch n id mt Hn) as H1; destruct (UA_MessageContext_begin _ _ _ _ _ _) as [r1 m1].
  destruct (bad r1); [done|].
  match goal with |- context [UA_MessageContext_encode _ _ _ _ m1 ?v ?t] =>
    pose proof (encode_context_keeps m1 v t H1) as H2; destruct (UA_MessageContext_encode _ _ _ _ m1 v t) as [r2 m2] end.
  destruct (bad r2); [done|].
  pose proof (encode_context_keeps m2 v t H2) as H3; destruct (UA_MessageContext_encode _ _ _ _ m2 v t) as [r3 m3].
  destruct (bad r3); [done|by apply finish_keeps].
Qed.
End Send.

(** ** Receiving *)

Section Receive.
Context {TE : TypeEnv} {C App : Type}.
Variable policy : UA_SecurityPolicy C.
Variable calloc_ok : nat -> Z -> bool.
Variable alloc_ok : Z -> bool.
Variable callback : App -> UA_SecureChannel C -> Z -> Z -> list Z -> status * App * UA_SecureChannel C.
Variable P : App -> Prop.
Hypothesis callback_keeps : forall app ch t id m, P app -> P (snd (fst (callback app ch t id m))).

Lemma processPayload_keeps app ch mt ct id m :
  P app -> P (snd (fst (processPayload alloc_ok callback app ch mt ct id m))).
Proof.
  intros Hp; unfold processPayload, UA_SecureChannel_finalizeChunk.
  destruct (_ =? _).
  - destruct (find_entry _ _); [|by apply callback_keeps]; destruct (appendChunk _ _ _) as [r b].
    destruct (bad r); [done|by apply callback_keeps].
  - destruct (_ =? _); [by destruct (UA_SecureChannel_appendChunk _ _ _ _)|by destruct (_ =? _)].
Qed.

Lemma processChunk_keeps app ch chunk :
  P app -> P (snd (fst (UA_SecureChannel_processChunk policy calloc_ok alloc_ok callback app ch chunk))).
Proof.
  intros Hp; unfold UA_SecureChannel_processChunk.
  destruct (decode_messageHeader _ _) as [[[[r t] sz] id] o]; destruct (bad r); [done|].
  destruct (_ && _); [done|]; destruct (_ =? _).
  { destruct (negb _); [done|by apply callback_keeps]. }
  destruct (processSecurityHeader _ _ _ _ _ _ _) as [[[r1 ch1] sym] o1]; destruct (bad r1); [done|].
  destruct (decryptChunk _ _ _ _ _ _) as [[[r2 rid] sn] pl]; destruct (bad r2); [done|].
  destruct (if sym then _ else _) as [r3 ch3]; destruct (bad r3); [done|by apply processPayload_keeps].
Qed.
End Receive.

Section Stream.
Context {App : Type}.
Variable callback : App -> UA_Connection -> list Z -> status * App * UA_Connection.
Variable alloc_ok : nat -> bool.
Variable P : App -> UA_Connection -> Prop.
Hypothesis callback_keeps : forall app conn chunk, P app conn ->
  let r := callback app conn chunk in P (snd (fst r)) (snd r).
Hypothesis buffer_keeps : forall app conn m, P app conn -> P app (set_incomplete conn m).

Abbreviation state_ok := (fun st : PState App => P (ps_app st) (ps_conn st)).

Lemma buffer_chunk_keeps st m : state_ok st -> state_ok (snd (bufferIncompleteChunk alloc_ok st m)).
Proof.
  intros Hs; unfold bufferIncompleteChunk, alloc; destruct (alloc_ok _); by apply buffer_keeps.
Qed.

Lemma stream_chunk_keeps st pos :
  state_ok st -> state_ok (snd (fst (fst (processChunk callback alloc_ok st pos)))).
Proof.
  intros Hs; unfold processChunk; destruct (_ <? 8).
  { destruct (0 <? _); [|done]; pose proof (buffer_chunk_keeps st pos Hs) as H1.
    by destruct (bufferIncompleteChunk _ _ _). }
  destruct (negb _); [done|]; destruct (negb _); [done|]; destruct (_ || _); [done|].
  destruct (_ <? _).
  { pose proof (buffer_chunk_keeps st pos Hs) as H1; by destruct (bufferIncompleteChunk _ _ _). }
  match goal with |- context [callback ?a ?c ?m] =>
    pose proof (callback_keeps a c m Hs) as H1; by destruct (callback a c m) as [[r a'] c'] end.
Qed.

Lemma stream_loop_keeps fuel st pos :
  state_ok st -> state_ok (snd (processChunks_loop callback alloc_ok fuel st pos)).
Proof.
  revert st pos; induction fuel as [|fuel IH]; intros st pos Hs; [done|]; cbn [processChunks_loop].
  pose proof (stream_chunk_keeps st pos Hs) as H1.
  destruct (processChunk _ _ _ _) as [[[r st'] pos'] done]; cbn in H1.
  destruct (negb done && negb (bad r)); [by apply IH|exact H1].
Qed.

Lemma processChunks_keeps st packet :
  state_ok st -> state_ok (snd (UA_Connection_processChunks callback alloc_ok st packet)).
Proof.
  intros Hs; unfold UA_Connection_processChunks.
  assert (state_ok (snd (fst (if 0 <? zlen (incompleteMessage (ps_conn st))
            then prependIncompleteChunk alloc_ok st packet else (GOOD, st, packet))))) as H1.
  { destruct (0 <? _); [|done]; unfold prependIncompleteChunk, alloc; destruct (alloc_ok _);
      by apply buffer_keeps. }
  destruct (if 0 <? _ then _ else _) as [[r st'] m]; cbn in H1.
  destruct (bad r); [done|by apply stream_loop_keeps].
Qed.
End Stream.
