(* ===== verification/ServerState.v ===== *)
(** * The state of the server ([src/server/ua_server_internal.h])

    SecureChannels, sessions and connections point to each other and are freed
    at different times.  They live on a heap here, under their addresses; an
    operation is a computation [M] over the state of the server that is [None]
    when the code would follow a dangling pointer or take an element out of a
    list that does not contain it.

    [malloc] may fail: [malloc_ok n] tells whether the [n]-th allocation
    succeeds, and a new object gets the number of its allocation as address.
    [buffer_ok n] and [chunk_ok n] are the same for the buffers of connections
    and channels, in an operation that starts after [n] allocations.
    The clocks stand still while an operation runs; they advance between two
    operations.  The model is of the build without threads and without
    subscriptions. *)

From Stdlib Require Import ZArith Lia SpecFloat.
From stdpp Require Import base list numbers tactics sets gmap.
From S2P Require Import Prelude StateMonad UaTypes UaValue BinarySize BinaryEncode BinaryDecode BinarySpec FieldCodec Connection SecureChannel.

(** ** Configuration and environment *)

(** An endpoint: its security policy with the algorithm that signs with the
    certificates, and what is told about it. *)
Record UA_Endpoint (C D : Type) := mkEndpoint {
  securityPolicy : UA_SecurityPolicy C;
  certSign_uri : UA_String;
  certSign_sign : C -> list Z -> status * list Z;
  certSign_verify : C -> list Z -> list Z -> status;
  certSign_getLocalSignatureSize : C -> Z;
  endpointDescription : D
}.

Arguments securityPolicy {C D}. Arguments certSign_uri {C D}.
Arguments certSign_sign {C D}. Arguments certSign_verify {C D}.
Arguments certSign_getLocalSignatureSize {C D}. Arguments endpointDescription {C D}.

Class ServerEnv := {
  PolicyContext : Type;                (* contexts of the security policies *)
  null_context : PolicyContext;
  EndpointDescription : Type;          (* generated types *)
  null_endpoint : EndpointDescription;
  with_endpointUrl : UA_String -> EndpointDescription -> EndpointDescription;
  ApplicationDescription : Type;
  null_application : ApplicationDescription;
  UserIdentityToken : Type;

  endpoints : list (UA_Endpoint PolicyContext EndpointDescription);   (* configuration *)
  maxSecureChannels : Z;
  maxSecurityTokenLifetime : Z;
  maxSessions : Z;
  maxSessions_range : 0 <= maxSessions < 2 ^ 32;
  maxSessionTimeout : double;
  accessControl_activateSession : UA_NodeId -> UserIdentityToken -> Z -> status * Z;

  malloc_ok : nat -> bool;             (* operating system *)
  buffer_ok : nat -> nat -> bool;
  chunk_ok : nat -> Z -> bool;
  UA_Guid_random : nat -> UA_Guid;
  Net : Type;
  socket_send : Net -> nat -> list Z -> bool * Net
}.

Section State.
Context {E : ServerEnv}.

Abbreviation endpoint := (UA_Endpoint PolicyContext EndpointDescription).

(** ** Objects *)

(** The record of [SecureChannel.v] and the pointers of a channel: its
    connection and the sessions attached to it, the newest first.  The fields
    [connection] and [sessions] of the record hold what the pointers point to;
    they are filled in by [load_channel] and empty on the heap. *)
Record channel_list_entry := mkEntry {
  e_endpoint : endpoint;
  e_channel : UA_SecureChannel PolicyContext;
  e_connection : option nat;
  e_sessions : list nat
}.

Definition set_e_channel (e : channel_list_entry) ch :=
  mkEntry (e_endpoint e) ch (e_connection e) (e_sessions e).
Definition set_e_connection (e : channel_list_entry) c :=
  mkEntry (e_endpoint e) (e_channel e) c (e_sessions e).
Definition set_e_sessions (e : channel_list_entry) l :=
  mkEntry (e_endpoint e) (e_channel e) (e_connection e) l.

Record UA_Session := mkSession {
  authenticationToken : UA_NodeId;     (* header *)
  s_channel : option nat;
  clientDescription : ApplicationDescription;
  sessionName : UA_String;
  activated : bool;
  sessionHandle : Z;
  sessionId : UA_NodeId;
  maxRequestMessageSize : Z;
  maxResponseMessageSize : Z;
  timeout : double;
  validTill : Z;
  serverNonce : list Z;
  availableContinuationPoints : Z
}.

Definition set_s_channel (s : UA_Session) a :=
  mkSession (authenticationToken s) a (clientDescription s) (sessionName s) (activated s)
    (sessionHandle s) (sessionId s) (maxRequestMessageSize s) (maxResponseMessageSize s)
    (timeout s) (validTill s) (serverNonce s) (availableContinuationPoints s).
Definition set_activated (s : UA_Session) b :=
  mkSession (authenticationToken s) (s_channel s) (clientDescription s) (sessionName s) b
    (sessionHandle s) (sessionId s) (maxRequestMessageSize s) (maxResponseMessageSize s)
    (timeout s) (validTill s) (serverNonce s) (availableContinuationPoints s).
Definition set_handle (s : UA_Session) h :=
  mkSession (authenticationToken s) (s_channel s) (clientDescription s) (sessionName s)
    (activated s) h (sessionId s) (maxRequestMessageSize s) (maxResponseMessageSize s)
    (timeout s) (validTill s) (serverNonce s) (availableContinuationPoints s).
Definition set_ids (s : UA_Session) id token :=
  mkSession token (s_channel s) (clientDescription s) (sessionName s) (activated s)
    (sessionHandle s) id (maxRequestMessageSize s) (maxResponseMessageSize s)
    (timeout s) (validTill s) (serverNonce s) (availableContinuationPoints s).
Definition set_timeout (s : UA_Session) t :=
  mkSession (authenticationToken s) (s_channel s) (clientDescription s) (sessionName s)
    (activated s) (sessionHandle s) (sessionId s) (maxRequestMessageSize s)
    (maxResponseMessageSize s) t (validTill s) (serverNonce s) (availableContinuationPoints s).
Definition set_validTill (s : UA_Session) t :=
  mkSession (authenticationToken s) (s_channel s) (clientDescription s) (sessionName s)
    (activated s) (sessionHandle s) (sessionId s) (maxRequestMessageSize s)
    (maxResponseMessageSize s) (timeout s) t (serverNonce s) (availableContinuationPoints s).
Definition set_serverNonce (s : UA_Session) n :=
  mkSession (authenticationToken s) (s_channel s) (clientDescription s) (sessionName s)
    (activated s) (sessionHandle s) (sessionId s) (maxRequestMessageSize s)
    (maxResponseMessageSize s) (timeout s) (validTill s) n (availableContinuationPoints s).
Definition set_client (s : UA_Session) d reqSize respSize :=
  mkSession (authenticationToken s) (s_channel s) d (sessionName s)
    (activated s) (sessionHandle s) (sessionId s) reqSize respSize
    (timeout s) (validTill s) (serverNonce s) (availableContinuationPoints s).
Definition set_sessionName (s : UA_Session) n :=
  mkSession (authenticationToken s) (s_channel s) (clientDescription s) n
    (activated s) (sessionHandle s) (sessionId s) (maxRequestMessageSize s)
    (maxResponseMessageSize s) (timeout s) (validTill s) (serverNonce s)
    (availableContinuationPoints s).

(** ** The server *)

(** Delayed callbacks: free a channel, free a session. *)
Inductive UA_DelayedCallback :=
| removeSecureChannelCallback (entry : nat)
| removeSessionCallback (entry : nat).

#[export] Instance UA_DelayedCallback_eq_dec : EqDecision UA_DelayedCallback.
Proof. solve_decision. Defined.

Record UA_SecureChannelManager := mkCM {
  channels : list nat;
  currentChannelCount : Z;
  lastChannelId : Z;
  lastTokenId : Z
}.

Record UA_SessionManager := mkSM {
  sm_sessions : list nat;
  currentSessionCount : Z
}.

Record Heap := mkHeap {
  h_channels : gmap nat channel_list_entry;
  h_sessions : gmap nat UA_Session;
  h_connections : gmap nat UA_Connection
}.

(** Clocks, numbers of allocations and of random identifiers so far, the
    network, and the calls of [accessControl.closeSession], the last first. *)
Record World := mkWorld {
  monotonic : Z;
  wallclock : Z;
  allocs : nat;
  randoms : nat;
  net : Net;
  closeSession_calls : list (UA_NodeId * Z)
}.

Record UA_Server := mkServer {
  secureChannelManager : UA_SecureChannelManager;
  sessionManager : UA_SessionManager;
  delayedCallbacks : list UA_DelayedCallback;
  heap : Heap;
  world : World
}.

Definition with_cm (s : UA_Server) cm :=
  mkServer cm (sessionManager s) (delayedCallbacks s) (heap s) (world s).
Definition with_sm (s : UA_Server) sm :=
  mkServer (secureChannelManager s) sm (delayedCallbacks s) (heap s) (world s).
Definition with_delayed (s : UA_Server) d :=
  mkServer (secureChannelManager s) (sessionManager s) d (heap s) (world s).
Definition with_heap (s : UA_Server) h :=
  mkServer (secureChannelManager s) (sessionManager s) (delayedCallbacks s) h (world s).
Definition with_world (s : UA_Server) w :=
  mkServer (secureChannelManager s) (sessionManager s) (delayedCallbacks s) (heap s) w.

Definition with_h_channels (h : Heap) x := mkHeap x (h_sessions h) (h_connections h).
Definition with_h_sessions (h : Heap) x := mkHeap (h_channels h) x (h_connections h).
Definition with_h_connections (h : Heap) x := mkHeap (h_channels h) (h_sessions h) x.

Definition with_allocs (w : World) n :=
  mkWorld (monotonic w) (wallclock w) n (randoms w) (net w) (closeSession_calls w).
Definition with_randoms (w : World) n :=
  mkWorld (monotonic w) (wallclock w) (allocs w) n (net w) (closeSession_calls w).
Definition with_net (w : World) n :=
  mkWorld (monotonic w) (wallclock w) (allocs w) (randoms w) n (closeSession_calls w).
Definition with_closed (w : World) l :=
  mkWorld (monotonic w) (wallclock w) (allocs w) (randoms w) (net w) l.
Definition with_clocks (w : World) m d :=
  mkWorld m d (allocs w) (randoms w) (net w) (closeSession_calls w).

(** ** Computations *)

Abbreviation M := (state_m UA_Server).

Definition deref_channel (a : nat) : M channel_list_entry :=
  h ← gets heap; the (h_channels h !! a).
Definition deref_session (a : nat) : M UA_Session :=
  h ← gets heap; the (h_sessions h !! a).
Definition deref_connection (a : nat) : M UA_Connection :=
  h ← gets heap; the (h_connections h !! a).

Definition write_channel (a : nat) (e : channel_list_entry) : M unit :=
  _ ← deref_channel a;
  modify (fun s => with_heap s (with_h_channels (heap s) (<[a := e]> (h_channels (heap s))))).
Definition write_session (a : nat) (x : UA_Session) : M unit :=
  _ ← deref_session a;
  modify (fun s => with_heap s (with_h_sessions (heap s) (<[a := x]> (h_sessions (heap s))))).
Definition write_connection (a : nat) (x : UA_Connection) : M unit :=
  _ ← deref_connection a;
  modify (fun s =>
    with_heap s (with_h_connections (heap s) (<[a := x]> (h_connections (heap s))))).

(** [UA_free] *)
Definition free_channel (a : nat) : M unit :=
  _ ← deref_channel a;
  modify (fun s => with_heap s (with_h_channels (heap s) (delete a (h_channels (heap s))))).
Definition free_session (a : nat) : M unit :=
  _ ← deref_session a;
  modify (fun s => with_heap s (with_h_sessions (heap s) (delete a (h_sessions (heap s))))).
Definition free_connection (a : nat) : M unit :=
  _ ← deref_connection a;
  modify (fun s => with_heap s (with_h_connections (heap s) (delete a (h_connections (heap s))))).

(** [UA_malloc]: the address, if there is memory. *)
Definition malloc : M (option nat) :=
  n ← gets (fun s => allocs (world s));
  _ ← modify (fun s => with_world s (with_allocs (world s) (S n)));
  mret (if malloc_ok n then Some n else None).

(** New objects. *)
Definition new_channel (a : nat) (e : channel_list_entry) : M unit :=
  modify (fun s => with_heap s (with_h_channels (heap s) (<[a := e]> (h_channels (heap s))))).
Definition new_session (a : nat) (x : UA_Session) : M unit :=
  modify (fun s => with_heap s (with_h_sessions (heap s) (<[a := x]> (h_sessions (heap s))))).
Definition new_connection (a : nat) (x : UA_Connection) : M unit :=
  modify (fun s =>
    with_heap s (with_h_connections (heap s) (<[a := x]> (h_connections (heap s))))).

(** [UA_DateTime_nowMonotonic], [UA_DateTime_now] *)
Definition nowMonotonic : M Z := gets (fun s => monotonic (world s)).
Definition now : M Z := gets (fun s => wallclock (world s)).

(** Copies of a byte string: an empty one needs no memory. *)
Definition copy_bytes (l : list Z) : M (status * list Z) :=
  if zlen l =? 0 then mret (GOOD, [])
  else
    p ← malloc;
    mret (match p with Some _ => (GOOD, l) | None => (BADOUTOFMEMORY, []) end).

Definition copy_string (l : UA_String) : M (status * UA_String) :=
  if arr_length l =? 0 then mret (GOOD, l)
  else
    p ← malloc;
    mret (match p with Some _ => (GOOD, l) | None => (BADOUTOFMEMORY, ArrNull) end).

(** Copies of a structure of a generated type, as a whole. *)
Definition copy_struct {A} (null a : A) : M (status * A) :=
  p ← malloc;
  mret (match p with Some _ => (GOOD, a) | None => (BADOUTOFMEMORY, null) end).

(** ** Connections and channels *)

(** [ServerNetworkLayerTCP_close] *)
Definition connection_close (c : nat) : M unit :=
  conn ← deref_connection c;
  write_connection c
    (mkConnection UA_CONNECTION_CLOSED (localConf conn) (remoteConf conn) (conn_channel conn)
       (incompleteMessage conn)).

Definition detachSecureChannel (c : nat) : M unit :=
  conn ← deref_connection c;
  _ ← match conn_channel conn with
      | Some a =>
          e ← deref_channel a;
          if decide (e_connection e = Some c)
          then write_channel a (set_e_connection e None) else mret tt
      | None => mret tt
      end;
  conn ← deref_connection c;
  write_connection c (set_channel conn None).

Definition attachSecureChannel (c a : nat) : M unit :=
  e ← deref_channel a;
  match e_connection e with
  | None =>
      _ ← write_channel a (set_e_connection e (Some c));
      conn ← deref_connection c;
      write_connection c (set_channel conn (Some a))
  | Some _ => mret tt
  end.

(** The record of a channel with what its pointers point to. *)
Definition load_channel (a : nat) : M (UA_SecureChannel PolicyContext) :=
  e ← deref_channel a;
  conn ← match e_connection e with
         | Some c => x ← deref_connection c; mret (Some x)
         | None => mret None
         end;
  h ← gets heap;
  mret (mkChannel (ch_state (e_channel e)) (securityMode (e_channel e))
          (securityToken (e_channel e)) (nextSecurityToken (e_channel e))
          (channelContext (e_channel e)) conn (remoteCertificate (e_channel e))
          (remoteCertificateThumbprint (e_channel e)) (remoteNonce (e_channel e))
          (localNonce (e_channel e)) (receiveSequenceNumber (e_channel e))
          (sendSequenceNumber (e_channel e))
          (omap (fun x => authenticationToken <$> (h_sessions h !! x)) (e_sessions e))
          (chunks (e_channel e))).

(** The policy of a channel. *)
Definition e_policy (e : channel_list_entry) := securityPolicy (e_endpoint e).

(** Write the data of a channel back. *)
Definition store_channel (a : nat) (ch : UA_SecureChannel PolicyContext) : M unit :=
  e ← deref_channel a;
  write_channel a (set_e_channel e
    (mkChannel (ch_state ch) (securityMode ch) (securityToken ch) (nextSecurityToken ch)
       (channelContext ch) None (remoteCertificate ch) (remoteCertificateThumbprint ch)
       (remoteNonce ch) (localNonce ch) (receiveSequenceNumber ch) (sendSequenceNumber ch) []
       (chunks ch))).

(** ** Delayed callbacks ([src/server/ua_server_worker.c]) *)

Definition UA_Server_delayedCallback (d : UA_DelayedCallback) : M status :=
  dc ← malloc;
  match dc with
  | None => mret BADOUTOFMEMORY
  | Some _ =>
      _ ← modify (fun s => with_delayed s (d :: delayedCallbacks s));
      mret GOOD
  end.
End State.

Abbreviation M := (state_m UA_Server).
