(* ===== verification/SecureChannelManager.v ===== *)
(** * The SecureChannel manager ([src/server/ua_securechannel_manager.c])

    Creating, opening, renewing, closing and timing out of the SecureChannels
    of the server, and the release of a channel
    ([UA_SecureChannel_deleteMembersCleanup] of [src/ua_securechannel.c]). *)

From Stdlib Require Import ZArith Lia.
From stdpp Require Import base list numbers tactics sets gmap.
From S2P Require Import Prelude StateMonad UaTypes UaValue BinarySize BinaryEncode BinaryDecode BinarySpec FieldCodec Connection SecureChannel ServerState.

Definition STARTCHANNELID : Z := 1.
Definition STARTTOKENID : Z := 1.

Definition UA_SECURITYTOKENREQUESTTYPE_ISSUE : Z := 0.
Definition UA_SECURITYTOKENREQUESTTYPE_RENEW : Z := 1.

(** "http://opcfoundation.org/UA/SecurityPolicy#None" *)
Definition UA_SECURITY_POLICY_NONE_URI : UA_ByteString :=
  ArrData [104; 116; 116; 112; 58; 47; 47; 111; 112; 99; 102; 111; 117; 110; 100; 97; 116; 105;
           111; 110; 46; 111; 114; 103; 47; 85; 65; 47; 83; 101; 99; 117; 114; 105; 116; 121; 80;
           111; 108; 105; 99; 121; 35; 78; 111; 110; 101].

(** ** Requests and responses (generated types) *)

Record UA_OpenSecureChannelRequest := mkOpenRequest {
  osr_requestHandle : Z;
  osr_requestType : Z;
  osr_securityMode : Z;
  osr_clientNonce : list Z;
  osr_requestedLifetime : Z
}.

Record UA_OpenSecureChannelResponse := mkOpenResponse {
  osp_requestHandle : Z;
  osp_timestamp : Z;
  osp_serviceResult : status;
  osp_securityToken : UA_ChannelSecurityToken;
  osp_serverNonce : list Z
}.

Definition open_response_init : UA_OpenSecureChannelResponse :=
  mkOpenResponse 0 0 GOOD token_zero [].

Definition with_serviceResult (r : UA_OpenSecureChannelResponse) (s : status) :=
  mkOpenResponse (osp_requestHandle r) (osp_timestamp r) s (osp_securityToken r)
    (osp_serverNonce r).

Section Manager.
Context {E : ServerEnv}.

Abbreviation channel := (UA_SecureChannel PolicyContext).

(** ** Fields of a channel *)

Definition ch_set_open (ch : channel) (mode : Z) (token : UA_ChannelSecurityToken) : channel :=
  mkChannel (ch_state ch) mode token (nextSecurityToken ch) (channelContext ch) (connection ch)
    (remoteCertificate ch) (remoteCertificateThumbprint ch) (remoteNonce ch) (localNonce ch)
    (receiveSequenceNumber ch) (sendSequenceNumber ch) (sessions ch) (chunks ch).
Definition ch_set_state (ch : channel) (st : UA_SecureChannelState) : channel :=
  mkChannel st (securityMode ch) (securityToken ch) (nextSecurityToken ch) (channelContext ch)
    (connection ch) (remoteCertificate ch) (remoteCertificateThumbprint ch) (remoteNonce ch)
    (localNonce ch) (receiveSequenceNumber ch) (sendSequenceNumber ch) (sessions ch) (chunks ch).
Definition ch_set_remoteNonce (ch : channel) (n : list Z) : channel :=
  mkChannel (ch_state ch) (securityMode ch) (securityToken ch) (nextSecurityToken ch)
    (channelContext ch) (connection ch) (remoteCertificate ch) (remoteCertificateThumbprint ch)
    n (localNonce ch) (receiveSequenceNumber ch) (sendSequenceNumber ch) (sessions ch) (chunks ch).
Definition ch_clear (ch : channel) : channel :=
  mkChannel (ch_state ch) (securityMode ch) token_zero token_zero (channelContext ch)
    (connection ch) ArrNull (remoteCertificateThumbprint ch) [] []
    (receiveSequenceNumber ch) (sendSequenceNumber ch) (sessions ch) [].

(** Change the data of a channel on the heap. *)
Definition update_channel (a : nat) (f : channel -> channel) : M unit :=
  e ← deref_channel a; write_channel a (set_e_channel e (f (e_channel e))).

(** ** Release of a channel *)

(** [sh->channel = NULL] for the sessions of the channel. *)
Fixpoint forget_channel (l : list nat) : M unit :=
  match l with
  | [] => mret tt
  | h :: l =>
      x ← deref_session h;
      _ ← write_session h (set_s_channel x None);
      forget_channel l
  end.

Definition UA_SecureChannel_deleteMembersCleanup (a : nat) : M unit :=
  _ ← update_channel a ch_clear;
  e ← deref_channel a;
  _ ← match e_connection e with
      | Some c =>
          conn ← deref_connection c;
          _ ← (if bool_decide (conn_state conn = UA_CONNECTION_CLOSED) then mret tt
               else connection_close c);
          detachSecureChannel c
      | None => mret tt
      end;
  e ← deref_channel a;
  _ ← forget_channel (e_sessions e);
  write_channel a (set_e_sessions e []).

Definition run_removeSecureChannelCallback (entry : nat) : M unit :=
  _ ← UA_SecureChannel_deleteMembersCleanup entry;
  free_channel entry.

(** ** The list of channels *)

Definition UA_SecureChannelManager_init (s : UA_Server) : UA_Server :=
  with_cm s (mkCM [] 0 STARTCHANNELID STARTTOKENID).

Definition with_channels (l : list nat) (n : Z) : M unit :=
  modify (fun s =>
    let cm := secureChannelManager s in
    with_cm s (mkCM l n (lastChannelId cm) (lastTokenId cm))).

Fixpoint delete_channels (l : list nat) : M unit :=
  match l with
  | [] => mret tt
  | a :: l =>
      cm ← gets secureChannelManager;
      rest ← list_remove a (channels cm);
      _ ← with_channels rest (currentChannelCount cm);
      _ ← UA_SecureChannel_deleteMembersCleanup a;
      _ ← free_channel a;
      delete_channels l
  end.

Definition UA_SecureChannelManager_deleteMembers : M unit :=
  cm ← gets secureChannelManager; delete_channels (channels cm).

Definition removeSecureChannel (a : nat) : M status :=
  retval ← UA_Server_delayedCallback (removeSecureChannelCallback a);
  if bad retval then mret retval
  else
    cm ← gets secureChannelManager;
    rest ← list_remove a (channels cm);
    _ ← with_channels rest (u32 (currentChannelCount cm - 1));
    mret GOOD.

Definition revolve (a : nat) : M status :=
  e ← deref_channel a;
  let '(retval, ch) := UA_SecureChannel_revolveTokens (e_policy e) (e_channel e) in
  _ ← write_channel a (set_e_channel e ch);
  mret retval.

(** The end of the lifetime of the current token. *)
Definition token_timeout (t : UA_ChannelSecurityToken) : Z :=
  i64 (createdAt t + revisedLifetime t * UA_DATETIME_MSEC).

Definition channel_timed_out (nowMonotonic : Z) (e : channel_list_entry) : bool :=
  (token_timeout (securityToken (e_channel e)) <? nowMonotonic)
  || negb (bool_decide (is_Some (e_connection e))).

Fixpoint cleanup_channels (nowMonotonic : Z) (l : list nat) : M unit :=
  match l with
  | [] => mret tt
  | a :: l =>
      e ← deref_channel a;
      _ ← (if channel_timed_out nowMonotonic e then removeSecureChannel a
           else if 0 <? tokenId (nextSecurityToken (e_channel e)) then revolve a
           else mret GOOD);
      cleanup_channels nowMonotonic l
  end.

Definition UA_SecureChannelManager_cleanupTimedOut (nowMonotonic : Z) : M unit :=
  cm ← gets secureChannelManager; cleanup_channels nowMonotonic (channels cm).

Fixpoint purge_channels (l : list nat) : M bool :=
  match l with
  | [] => mret false
  | a :: l =>
      e ← deref_channel a;
      match e_sessions e with
      | [] => _ ← removeSecureChannel a; mret true
      | _ :: _ => purge_channels l
      end
  end.

Definition purgeFirstChannelWithoutSession : M bool :=
  cm ← gets secureChannelManager; purge_channels (channels cm).

(** [cm->lastTokenId++], [cm->lastChannelId++] *)
Definition next_tokenId : M Z :=
  cm ← gets secureChannelManager;
  _ ← modify (fun s => with_cm s (mkCM (channels cm) (currentChannelCount cm) (lastChannelId cm)
                                      (u32 (lastTokenId cm + 1))));
  mret (lastTokenId cm).
Definition next_channelId : M Z :=
  cm ← gets secureChannelManager;
  _ ← modify (fun s => with_cm s (mkCM (channels cm) (currentChannelCount cm)
                                      (u32 (lastChannelId cm + 1)) (lastTokenId cm)));
  mret (lastChannelId cm).

Definition UA_SecureChannelManager_create (c : nat)
    (ep : UA_Endpoint PolicyContext EndpointDescription) (senderCertificate : UA_ByteString) :
    M status :=
  conn ← deref_connection c;
  match conn_channel conn with
  | Some _ => mret BADINTERNALERROR
  | None =>
      cm ← gets secureChannelManager;
      ok ← (if currentChannelCount cm <? maxSecureChannels then mret true
            else purgeFirstChannelWithoutSession);
      if negb ok then mret BADOUTOFMEMORY
      else
        entry ← malloc;
        match entry with
        | None => mret BADOUTOFMEMORY
        | Some a =>
            let '(retval, ch) :=
              UA_SecureChannel_init (securityPolicy ep) null_context senderCertificate in
            if bad retval then mret retval
            else
              token ← next_tokenId;
              created ← now;
              let ch := ch_set_open ch (securityMode ch)
                          (mkToken 0 token created maxSecurityTokenLifetime) in
              _ ← new_channel a (mkEntry ep ch None []);
              cm ← gets secureChannelManager;
              _ ← with_channels (a :: channels cm) (u32 (currentChannelCount cm + 1));
              _ ← attachSecureChannel c a;
              mret GOOD
        end
  end.

(** Lifetime 0 asks for the maximum. *)
Definition revise_lifetime (requestedLifetime : Z) : Z :=
  let l := if maxSecurityTokenLifetime <? requestedLifetime then maxSecurityTokenLifetime
           else requestedLifetime in
  if l =? 0 then maxSecurityTokenLifetime else l.

(** The nonce of the client, a new one of the server. *)
Definition replace_nonces (a : nat) (req : UA_OpenSecureChannelRequest) : M status :=
  '(r1, nonce) ← copy_bytes (osr_clientNonce req);
  _ ← update_channel a (fun ch => ch_set_remoteNonce ch nonce);
  e ← deref_channel a;
  let '(r2, ch) := UA_SecureChannel_generateLocalNonce (e_policy e) (e_channel e) in
  _ ← write_channel a (set_e_channel e ch);
  mret (Z.lor r1 r2).

Definition generateNewKeys (a : nat) : M status :=
  e ← deref_channel a;
  let '(retval, ch) := UA_SecureChannel_generateNewKeys (e_policy e) (e_channel e) in
  _ ← write_channel a (set_e_channel e ch);
  mret retval.

(** [createdAt] is set from the monotonic clock first; the second assignment,
    from the wall clock, is the one that stays. *)
Definition UA_SecureChannelManager_open (a : nat) (request : UA_OpenSecureChannelRequest)
    (response : UA_OpenSecureChannelResponse) : M (status * UA_OpenSecureChannelResponse) :=
  e ← deref_channel a;
  if negb (bool_decide (ch_state (e_channel e) = UA_SECURECHANNELSTATE_FRESH))
  then mret (BADINTERNALERROR, response)
  else if negb (osr_securityMode request =? UA_MESSAGESECURITYMODE_NONE)
          && UA_String_equal (policyUri (e_policy e)) UA_SECURITY_POLICY_NONE_URI
  then mret (BADSECURITYMODEREJECTED, response)
  else
    id ← next_channelId;
    created ← now;
    _ ← update_channel a (fun ch =>
          ch_set_open ch (osr_securityMode request)
            (mkToken id (tokenId (securityToken ch)) created
               (revise_lifetime (osr_requestedLifetime request))));
    r1 ← replace_nonces a request;
    r2 ← generateNewKeys a;
    let retval := Z.lor r1 r2 in
    if bad retval then mret (retval, response)
    else
      e ← deref_channel a;
      '(retval, nonce) ← copy_bytes (localNonce (e_channel e));
      timestamp ← now;
      let response := mkOpenResponse (osr_requestHandle request) timestamp
                        (osp_serviceResult response) (securityToken (e_channel e)) nonce in
      if bad retval then mret (retval, response)
      else
        _ ← update_channel a (fun ch => ch_set_state ch UA_SECURECHANNELSTATE_OPEN);
        mret (GOOD, response).

Definition UA_SecureChannelManager_renew (a : nat) (request : UA_OpenSecureChannelRequest)
    (response : UA_OpenSecureChannelResponse) : M (status * UA_OpenSecureChannelResponse) :=
  e ← deref_channel a;
  if negb (bool_decide (ch_state (e_channel e) = UA_SECURECHANNELSTATE_OPEN))
  then mret (BADINTERNALERROR, response)
  else
    _ ← (if tokenId (nextSecurityToken (e_channel e)) =? 0 then
           id ← next_tokenId;
           created ← now;
           update_channel a (fun ch =>
             set_tokens ch (securityToken ch)
               (mkToken (channelId (securityToken ch)) id created
                  (revise_lifetime (osr_requestedLifetime request))))
         else mret tt);
    retval ← replace_nonces a request;
    if bad retval then mret (retval, response)
    else
      e ← deref_channel a;
      '(retval, nonce) ← copy_bytes (localNonce (e_channel e));
      let response := mkOpenResponse (osr_requestHandle request) (osp_timestamp response)
                        (osp_serviceResult response) (nextSecurityToken (e_channel e)) nonce in
      if bad retval then mret (retval, response)
      else
        created ← nowMonotonic;
        _ ← update_channel a (fun ch =>
              let t := nextSecurityToken ch in
              set_tokens ch (securityToken ch)
                (mkToken (channelId t) (tokenId t) created (revisedLifetime t)));
        mret (GOOD, response).

Fixpoint find_channel (id : Z) (l : list nat) : M (option nat) :=
  match l with
  | [] => mret None
  | a :: l =>
      e ← deref_channel a;
      if channelId (securityToken (e_channel e)) =? id then mret (Some a) else find_channel id l
  end.

Definition UA_SecureChannelManager_get (id : Z) : M (option nat) :=
  cm ← gets secureChannelManager; find_channel id (channels cm).

Definition UA_SecureChannelManager_close (id : Z) : M status :=
  entry ← UA_SecureChannelManager_get id;
  match entry with
  | None => mret BADINTERNALERROR
  | Some a => removeSecureChannel a
  end.

(** ** Services ([src/server/ua_services_securechannel.c]) *)

Definition Service_OpenSecureChannel (a : nat) (request : UA_OpenSecureChannelRequest)
    (response : UA_OpenSecureChannelResponse) : M UA_OpenSecureChannelResponse :=
  if osr_requestType request =? UA_SECURITYTOKENREQUESTTYPE_RENEW then
    '(retval, response) ← UA_SecureChannelManager_renew a request response;
    mret (with_serviceResult response retval)
  else if negb (osr_requestType request =? UA_SECURITYTOKENREQUESTTYPE_ISSUE)
  then mret (with_serviceResult response BADINTERNALERROR)
  else
    '(retval, response) ← UA_SecureChannelManager_open a request response;
    mret (with_serviceResult response retval).

Definition Service_CloseSecureChannel (a : nat) : M unit :=
  e ← deref_channel a;
  _ ← UA_SecureChannelManager_close (channelId (securityToken (e_channel e)));
  mret tt.
End Manager.

(** ** The security policy None ([plugins/ua_securitypolicy_none.c])

    A policy whose signatures have no bytes, whose ciphers leave the data as it
    is, and whose nonces come from the generator that is not cryptographic. *)

Section None_.
(** [UA_UInt32_random], call by call, and the bytes of a buffer that nobody has
    written yet: keys and thumbprints are left in the buffer of the caller. *)
Context (UA_UInt32_random : nat -> Z) (unwritten : Z -> list Z).

Definition verify_none (channelContext : unit) (message signature : list Z) : status := GOOD.
Definition sign_none (channelContext : unit) (message : list Z) : status * list Z := (GOOD, []).
Definition length_none (channelContext : unit) : Z := 0.
Definition encrypt_none (channelContext : unit) (data : list Z) : status * list Z := (GOOD, data).
Definition decrypt_none (channelContext : unit) (data : list Z) : status * list Z := (GOOD, data).

Definition makeThumbprint_none (certificate : UA_ByteString) : status * list Z :=
  (GOOD, unwritten 20).
Definition compareThumbprint_none (certificateThumbprint : UA_ByteString) : status := GOOD.
Definition generateKey_none (secret seed : list Z) (length : Z) : status * list Z :=
  (GOOD, unwritten length).

(** The loop over blocks of four bytes; [k] words have been drawn. *)
Fixpoint nonce_blocks (n k : nat) : list Z :=
  match n with
  | O => []
  | S n => le_bytes 4 (UA_UInt32_random k) ++ nonce_blocks n (S k)
  end.

Definition generateNonce_none (length : Z) : status * list Z :=
  let blocks := Z.to_nat (length / 4) in
  (GOOD, nonce_blocks blocks 0 ++
         take (Z.to_nat (length mod 4)) (le_bytes 4 (UA_UInt32_random blocks))).

Definition newContext_none (remoteCertificate : UA_ByteString) : status * unit := (GOOD, tt).
Definition setContextValue_none (channelContext : unit) (key : list Z) : status * unit :=
  (GOOD, channelContext).

Definition cryptoModule_none : UA_SecurityPolicyCryptoModule unit :=
  mkCryptoModule unit verify_none sign_none length_none length_none length_none length_none
    encrypt_none decrypt_none length_none length_none length_none length_none length_none.

Definition UA_SecurityPolicy_None (localCertificate : UA_ByteString)
    (certificateVerification : option (UA_ByteString -> status)) : UA_SecurityPolicy unit :=
  mkSecurityPolicy unit UA_SECURITY_POLICY_NONE_URI localCertificate certificateVerification
    makeThumbprint_none compareThumbprint_none cryptoModule_none generateKey_none
    generateNonce_none 0 cryptoModule_none newContext_none setContextValue_none
    setContextValue_none setContextValue_none setContextValue_none setContextValue_none
    setContextValue_none.

Lemma nonce_blocks_length n k : zlen (nonce_blocks n k) = 4 * Z.of_nat n.
Proof.
  revert k; induction n as [|n IH]; intros k; [done|]; cbn [nonce_blocks].
  rewrite zlen_app, IH; unfold zlen; rewrite length_le_bytes; lia.
Qed.

(** A nonce has the length that was asked for. *)
Lemma generateNonce_none_length length :
  0 <= length -> zlen (snd (generateNonce_none length)) = length.
Proof.
  intros Hl; unfold generateNonce_none; cbn [snd]; rewrite zlen_app, nonce_blocks_length.
  pose proof (Z.mod_pos_bound length 4 ltac:(lia)); pose proof (Z.div_mod length 4 ltac:(lia)).
  pose proof (Z.div_pos length 4 Hl ltac:(lia)).
  unfold zlen; rewrite length_take, length_le_bytes; lia.
Qed.
End None_.
