(* ===== verification/SessionManager.v ===== *)
(** * Sessions ([src/server/ua_session.c], [src/server/ua_session_manager.c])

    The life of a session: creation, attachment to a SecureChannel, timeout
    and removal, and the three services of [src/server/ua_services_session.c]. *)

From Stdlib Require Import ZArith Lia SpecFloat.
From stdpp Require Import base list numbers tactics sets gmap.
From S2P Require Import Prelude StateMonad UaTypes UaValue BinarySize BinaryEncode BinaryDecode BinarySpec FieldCodec Connection SecureChannel ServerState SecureChannelManager.

Definition UA_MAXCONTINUATIONPOINTS : Z := 5.
Definition UA_SESSION_NONCELENTH : Z := 32.

Section Sessions.
Context {E : ServerEnv}.

(** ** Sessions *)

Definition UA_Session_init : UA_Session :=
  mkSession UA_NODEID_NULL None null_application ArrNull false 0 UA_NODEID_NULL 0 0
    (S754_zero false) 0 [] UA_MAXCONTINUATIONPOINTS.

Definition update_session (h : nat) (f : UA_Session -> UA_Session) : M unit :=
  x ← deref_session h; write_session h (f x).

Definition UA_Session_attachToSecureChannel (h a : nat) : M unit :=
  e ← deref_channel a;
  _ ← write_channel a (set_e_sessions e (h :: e_sessions e));
  update_session h (fun x => set_s_channel x (Some a)).

Definition UA_Session_detachFromSecureChannel (h : nat) : M unit :=
  x ← deref_session h;
  match s_channel x with
  | None => mret tt
  | Some a =>
      _ ← write_session h (set_s_channel x None);
      e ← deref_channel a;
      rest ← list_remove h (e_sessions e);
      write_channel a (set_e_sessions e rest)
  end.

(** The members are memory of the session alone; there are no continuation
    points without the browse services. *)
Definition UA_Session_deleteMembersCleanup (h : nat) : M unit :=
  UA_Session_detachFromSecureChannel h.

Definition UA_Session_generateNonce (h : nat) : M status :=
  x ← deref_session h;
  match s_channel x with
  | None => mret BADINTERNALERROR
  | Some a =>
      e ← deref_channel a;
      ok ← (if zlen (serverNonce x) =? UA_SESSION_NONCELENTH then mret true
            else p ← malloc; mret (bool_decide (is_Some p)));
      if negb ok then
        _ ← write_session h (set_serverNonce x []);
        mret BADOUTOFMEMORY
      else
        let '(retval, nonce) := generateNonce (e_policy e) UA_SESSION_NONCELENTH in
        _ ← write_session h (set_serverNonce x nonce);
        mret retval
  end.

(** The end of the lifetime after activity at time [t]. *)
Definition lifetime_end (x : UA_Session) (t : Z) : Z :=
  i64 (t + double_to_int64 (double_mul (timeout x) UA_DATETIME_MSEC_double)).

Definition UA_Session_updateLifetime (h : nat) : M unit :=
  t ← nowMonotonic;
  update_session h (fun x => set_validTill x (lifetime_end x t)).

(** ** The session manager *)

Definition UA_SessionManager_init (s : UA_Server) : UA_Server := with_sm s (mkSM [] 0).

Definition with_sessions (l : list nat) (n : Z) : M unit :=
  modify (fun s => with_sm s (mkSM l n)).

Definition run_removeSessionCallback (entry : nat) : M unit :=
  _ ← UA_Session_deleteMembersCleanup entry;
  free_session entry.

Fixpoint delete_sessions (l : list nat) : M unit :=
  match l with
  | [] => mret tt
  | h :: l =>
      sm ← gets sessionManager;
      rest ← list_remove h (sm_sessions sm);
      _ ← with_sessions rest (currentSessionCount sm);
      _ ← UA_Session_deleteMembersCleanup h;
      _ ← free_session h;
      delete_sessions l
  end.

Definition UA_SessionManager_deleteMembers : M unit :=
  sm ← gets sessionManager; delete_sessions (sm_sessions sm).

Definition removeSession (h : nat) : M status :=
  _ ← UA_Session_detachFromSecureChannel h;
  _ ← update_session h (fun x => set_activated x false);
  retval ← UA_Server_delayedCallback (removeSessionCallback h);
  if bad retval then mret retval
  else
    sm ← gets sessionManager;
    rest ← list_remove h (sm_sessions sm);
    _ ← with_sessions rest (u32 (currentSessionCount sm - 1));
    mret GOOD.

(** The callback [accessControl.closeSession] is recorded. *)
Definition accessControl_closeSession (id : UA_NodeId) (handle : Z) : M unit :=
  modify (fun s =>
    with_world s (with_closed (world s) ((id, handle) :: closeSession_calls (world s)))).

Fixpoint cleanup_sessions (nowMonotonic : Z) (l : list nat) : M unit :=
  match l with
  | [] => mret tt
  | h :: l =>
      x ← deref_session h;
      _ ← (if nowMonotonic <=? validTill x then mret tt
           else
             _ ← accessControl_closeSession (sessionId x) (sessionHandle x);
             _ ← removeSession h;
             mret tt);
      cleanup_sessions nowMonotonic l
  end.

Definition UA_SessionManager_cleanupTimedOut (nowMonotonic : Z) : M unit :=
  sm ← gets sessionManager; cleanup_sessions nowMonotonic (sm_sessions sm).

(** The first session of the list with a node id, unless it has timed out. *)
Fixpoint find_session (key : UA_Session -> UA_NodeId) (id : UA_NodeId) (l : list nat) :
    M (option nat) :=
  match l with
  | [] => mret None
  | h :: l =>
      x ← deref_session h;
      if negb (UA_NodeId_equal (Some (key x)) (Some id)) then find_session key id l
      else
        t ← nowMonotonic;
        mret (if validTill x <? t then None else Some h)
  end.

Definition UA_SessionManager_getSessionByToken (token : UA_NodeId) : M (option nat) :=
  sm ← gets sessionManager; find_session authenticationToken token (sm_sessions sm).

Definition UA_SessionManager_getSessionById (id : UA_NodeId) : M (option nat) :=
  sm ← gets sessionManager; find_session sessionId id (sm_sessions sm).

(** [UA_NODEID_GUID(1, UA_Guid_random())] *)
Definition random_nodeid : M UA_NodeId :=
  n ← gets (fun s => randoms (world s));
  _ ← modify (fun s => with_world s (with_randoms (world s) (S n)));
  mret (mkNodeId 1 (GuidId (UA_Guid_random n))).

Definition revise_timeout (requested : double) : double :=
  if SFleb requested maxSessionTimeout && SFltb (S754_zero false) requested
  then requested else maxSessionTimeout.

Definition UA_SessionManager_createSession (requestedSessionTimeout : double) :
    M (status * option nat) :=
  sm ← gets sessionManager;
  if maxSessions <=? currentSessionCount sm then mret (BADTOOMANYSESSIONS, None)
  else
    newentry ← malloc;
    match newentry with
    | None => mret (BADOUTOFMEMORY, None)
    | Some h =>
        _ ← with_sessions (sm_sessions sm) (u32 (currentSessionCount sm + 1));
        id ← random_nodeid;
        token ← random_nodeid;
        _ ← new_session h (set_timeout (set_ids UA_Session_init id token)
                             (revise_timeout requestedSessionTimeout));
        _ ← UA_Session_updateLifetime h;
        sm ← gets sessionManager;
        _ ← with_sessions (h :: sm_sessions sm) (currentSessionCount sm);
        mret (GOOD, Some h)
    end.

(** The first session of the list with the token, timed out or not. *)
Fixpoint find_token (token : UA_NodeId) (l : list nat) : M (option nat) :=
  match l with
  | [] => mret None
  | h :: l =>
      x ← deref_session h;
      if UA_NodeId_equal (Some (authenticationToken x)) (Some token) then mret (Some h)
      else find_token token l
  end.

Definition UA_SessionManager_removeSession (token : UA_NodeId) : M status :=
  sm ← gets sessionManager;
  current ← find_token token (sm_sessions sm);
  match current with
  | None => mret BADSESSIONIDINVALID
  | Some h => removeSession h
  end.
End Sessions.

(** ** The session services ([src/server/ua_services_session.c])

    CreateSession, ActivateSession and CloseSession, with the signatures of
    the server and of the client. *)

(** ** Requests and responses (generated types) *)

Record UA_SignatureData := mkSignatureData {
  algorithm : UA_String;
  signature : list Z
}.

Definition signature_init : UA_SignatureData := mkSignatureData ArrNull [].

Section Services.
Context {E : ServerEnv}.

Record UA_CreateSessionRequest := mkCreateRequest {
  csr_clientDescription : ApplicationDescription;
  csr_endpointUrl : UA_String;
  csr_sessionName : UA_String;
  csr_clientNonce : UA_ByteString;
  csr_clientCertificate : UA_ByteString;
  csr_requestedSessionTimeout : double;
  csr_maxResponseMessageSize : Z
}.

Record UA_CreateSessionResponse := mkCreateResponse {
  csp_serviceResult : status;
  csp_sessionId : UA_NodeId;
  csp_authenticationToken : UA_NodeId;
  csp_revisedSessionTimeout : double;
  csp_serverNonce : list Z;
  csp_serverCertificate : UA_ByteString;
  csp_serverEndpoints : list EndpointDescription;
  csp_serverSignature : UA_SignatureData
}.

(** A response with its endpoints and a result, before there is a session. *)
Definition create_response (eps : list EndpointDescription) (s : status) :
    UA_CreateSessionResponse :=
  mkCreateResponse s UA_NODEID_NULL UA_NODEID_NULL (S754_zero false) [] ArrNull eps signature_init.

Record UA_ActivateSessionRequest := mkActivateRequest {
  asr_clientSignature : list Z;
  asr_userIdentityToken : UserIdentityToken
}.

Record UA_ActivateSessionResponse := mkActivateResponse {
  asp_serviceResult : status;
  asp_serverNonce : list Z
}.

(** ** Creating *)

Definition string_bytes (s : UA_String) : list Z := arr_list s.

Definition signCreateSessionResponse (a : nat) (request : UA_CreateSessionRequest) :
    M (status * UA_SignatureData) :=
  e ← deref_channel a;
  let ch := e_channel e in
  if negb (is_signed (securityMode ch)) then mret (GOOD, signature_init)
  else
    let ep := e_endpoint e in
    let signatureSize := certSign_getLocalSignatureSize ep (channelContext ch) in
    '(r1, alg) ← copy_string (certSign_uri ep);
    '(r2, buf) ← copy_bytes (replicate (Z.to_nat signatureSize) 0);
    if bad (Z.lor r1 r2) then mret (Z.lor r1 r2, mkSignatureData alg buf)
    else
      let data := string_bytes (csr_clientCertificate request)
                  ++ string_bytes (csr_clientNonce request) in
      '(retval, dataToSign) ← copy_bytes data;
      if bad retval then mret (retval, mkSignatureData alg buf)
      else
        let '(retval, sig) := certSign_sign ep (channelContext ch) dataToSign in
        mret (retval, mkSignatureData alg sig).

(** Copy the descriptions; every status goes into the result. *)
Fixpoint copy_endpoints (l : list (UA_Endpoint PolicyContext EndpointDescription)) :
    M (status * list EndpointDescription) :=
  match l with
  | [] => mret (GOOD, [])
  | ep :: l =>
      '(r, d) ← copy_struct null_endpoint (endpointDescription ep);
      '(rs, ds) ← copy_endpoints l;
      mret (Z.lor r rs, d :: ds)
  end.

(** The endpoint URL of the request replaces the one of every endpoint. *)
Fixpoint mirror_endpointUrl (url : UA_String) (l : list EndpointDescription) :
    M (list EndpointDescription) :=
  match l with
  | [] => mret []
  | d :: l =>
      '(_, u) ← copy_string url;
      ds ← mirror_endpointUrl url l;
      mret (with_endpointUrl u d :: ds)
  end.

(** The checks of the request, before anything is created. *)
Definition check_createSession (e : channel_list_entry) (request : UA_CreateSessionRequest) :
    status :=
  let ch := e_channel e in
  if is_signed (securityMode ch)
     && negb (UA_String_equal (csr_clientCertificate request) (remoteCertificate ch))
  then BADCERTIFICATEINVALID
  else if channelId (securityToken ch) =? 0 then BADSECURECHANNELIDINVALID
  else if negb (UA_String_equal (policyUri (e_policy e)) UA_SECURITY_POLICY_NONE_URI)
          && (arr_length (csr_clientNonce request) <? 32)
  then BADNONCEINVALID
  else GOOD.

(** Everything after the new session [h] exists: result and response. *)
Definition fill_session (a h : nat) (maxMessageSize : Z) (request : UA_CreateSessionRequest)
    (eps : list EndpointDescription) : M UA_CreateSessionResponse :=
  _ ← UA_Session_attachToSecureChannel h a;
  '(_, desc) ← copy_struct null_application (csr_clientDescription request);
  _ ← update_session h (fun x =>
        set_client x desc maxMessageSize (csr_maxResponseMessageSize request));
  x ← deref_session h;
  '(_, name) ← copy_string (csr_sessionName request);
  _ ← update_session h (fun x => set_sessionName x name);
  e ← deref_channel a;
  '(_, cert) ← (match endpoints with
                | [] => mret (GOOD, ArrNull)
                | _ :: _ => copy_string (localCertificate (e_policy e))
                end);
  r1 ← UA_Session_generateNonce h;
  y ← deref_session h;
  '(r2, nonce) ← copy_bytes (serverNonce y);
  '(r3, sig) ← signCreateSessionResponse a request;
  mret (mkCreateResponse (Z.lor (Z.lor r1 r2) r3) (sessionId x) (authenticationToken x)
          (timeout x) nonce cert eps sig).

Definition Service_CreateSession (channel : option nat) (request : UA_CreateSessionRequest) :
    M UA_CreateSessionResponse :=
  match channel with
  | None => mret (create_response [] BADINTERNALERROR)
  | Some a =>
      e ← deref_channel a;
      match e_connection e with
      | None => mret (create_response [] BADINTERNALERROR)
      | Some c =>
          let retval := check_createSession e request in
          if bad retval then mret (create_response [] retval)
          else
            ok ← (match endpoints with
                  | [] => mret true
                  | _ :: _ => p ← malloc; mret (bool_decide (is_Some p))
                  end);
            if negb ok then mret (create_response [] BADOUTOFMEMORY)
            else
              '(retval, eps) ← copy_endpoints endpoints;
              if bad retval then mret (create_response eps retval)
              else
                eps ← mirror_endpointUrl (csr_endpointUrl request) eps;
                '(retval, newSession) ←
                  UA_SessionManager_createSession (csr_requestedSessionTimeout request);
                match newSession with
                | None => mret (create_response eps retval)
                | Some h =>
                    conn ← deref_connection c;
                    response ← fill_session a h (maxMessageSize (localConf conn)) request eps;
                    if bad (csp_serviceResult response) then
                      x ← deref_session h;
                      _ ← UA_SessionManager_removeSession (authenticationToken x);
                      mret response
                    else mret response
                end
      end
  end.

(** ** Activating *)

Definition checkSignature (a h : nat) (request : UA_ActivateSessionRequest) : M status :=
  e ← deref_channel a;
  x ← deref_session h;
  if negb (is_signed (securityMode (e_channel e))) then mret GOOD
  else
    let data := string_bytes (localCertificate (e_policy e)) ++ serverNonce x in
    '(retval, dataToVerify) ← copy_bytes data;
    if bad retval then mret retval
    else mret (certSign_verify (e_endpoint e) (channelContext (e_channel e)) dataToVerify
                 (asr_clientSignature request)).

(** A session with a channel moves to the one of the request. *)
Definition move_session (a h : nat) : M unit :=
  x ← deref_session h;
  if bool_decide (is_Some (s_channel x)) && negb (bool_decide (s_channel x = Some a))
  then
    _ ← UA_Session_detachFromSecureChannel h;
    UA_Session_attachToSecureChannel h a
  else mret tt.

(** The checks have been passed. *)
Definition finish_activation (a h : nat) : M UA_ActivateSessionResponse :=
  _ ← move_session a h;
  _ ← update_session h (fun x => set_activated x true);
  _ ← UA_Session_updateLifetime h;
  r1 ← UA_Session_generateNonce h;
  x ← deref_session h;
  '(r2, nonce) ← copy_bytes (serverNonce x);
  if bad (Z.lor r1 r2) then
    _ ← UA_Session_detachFromSecureChannel h;
    _ ← update_session h (fun x => set_activated x false);
    mret (mkActivateResponse (Z.lor r1 r2) nonce)
  else mret (mkActivateResponse (Z.lor r1 r2) nonce).

Definition Service_ActivateSession (a h : nat) (request : UA_ActivateSessionRequest) :
    M UA_ActivateSessionResponse :=
  x ← deref_session h;
  t ← nowMonotonic;
  if validTill x <? t then mret (mkActivateResponse BADSESSIONIDINVALID [])
  else
    retval ← checkSignature a h request;
    if bad retval then mret (mkActivateResponse retval [])
    else
      let '(retval, handle) :=
        accessControl_activateSession (sessionId x) (asr_userIdentityToken request)
          (sessionHandle x) in
      _ ← update_session h (fun x => set_handle x handle);
      if bad retval then mret (mkActivateResponse retval [])
      else finish_activation a h.

(** ** Closing *)

Definition Service_CloseSession (h : nat) : M status :=
  x ← deref_session h;
  _ ← accessControl_closeSession (sessionId x) (sessionHandle x);
  UA_SessionManager_removeSession (authenticationToken x).
End Services.
