(* ===== verification/ServerBinary.v ===== *)
(** * Processing messages in the server ([src/server/ua_server_binary.c])

    The hello message, opening a SecureChannel, and the way of a request to
    its service: which session it belongs to and whether the service may be
    called.  Descriptions and layouts of the requests are generated from the
    schema and parameters here ([GeneratedTypes]).

    [find_reply] is the first half of [processMSG] and ends with what is to be
    answered, a [Reply]; [CallService] says which service is called with which
    session.  The services beyond sessions are parameters: they compute their
    answer from the request and leave channels and sessions alone. *)

From Stdlib Require Import ZArith Lia SpecFloat.
From stdpp Require Import base list numbers tactics sets gmap.
From Stdlib Require Import ZArith Lia.
From S2P Require Import Prelude StateMonad UaTypes UaValue BinarySize BinaryEncode BinaryDecode BinarySpec FieldCodec Connection SecureChannel ServerState SecureChannelManager SessionManager.

(** ** The table of services *)

Inductive Service :=
| Service_GetEndpoints | Service_FindServers | Service_RegisterServer | Service_RegisterServer2
| CreateSession | ActivateSession | CloseSession
| Service_Read | Service_Write | Service_Browse | Service_BrowseNext
| Service_RegisterNodes | Service_UnregisterNodes | Service_TranslateBrowsePathsToNodeIds
| Service_Call
| Service_AddNodes | Service_AddReferences | Service_DeleteNodes | Service_DeleteReferences.

#[export] Instance Service_eq_dec : EqDecision Service.
Proof. solve_decision. Defined.

Inductive UA_ServiceType :=
| UA_SERVICETYPE_NORMAL | UA_SERVICETYPE_INSITU | UA_SERVICETYPE_CUSTOM.

(** The numeric ids of the binary encodings of the requests ([NodeIds.csv]):
    the service, whether it requires a session, and its type.  Discovery, method
    calls and node management are enabled in the build; subscriptions and
    multicast discovery are not. *)
Definition service_table : list (Z * (Service * bool * UA_ServiceType)) :=
  [(428, (Service_GetEndpoints, false, UA_SERVICETYPE_NORMAL));
   (422, (Service_FindServers, false, UA_SERVICETYPE_NORMAL));
   (437, (Service_RegisterServer, false, UA_SERVICETYPE_NORMAL));
   (12211, (Service_RegisterServer2, false, UA_SERVICETYPE_NORMAL));
   (461, (CreateSession, false, UA_SERVICETYPE_CUSTOM));
   (467, (ActivateSession, true, UA_SERVICETYPE_CUSTOM));
   (473, (CloseSession, true, UA_SERVICETYPE_NORMAL));
   (631, (Service_Read, true, UA_SERVICETYPE_INSITU));
   (673, (Service_Write, true, UA_SERVICETYPE_NORMAL));
   (527, (Service_Browse, true, UA_SERVICETYPE_NORMAL));
   (533, (Service_BrowseNext, true, UA_SERVICETYPE_NORMAL));
   (560, (Service_RegisterNodes, true, UA_SERVICETYPE_NORMAL));
   (566, (Service_UnregisterNodes, true, UA_SERVICETYPE_NORMAL));
   (554, (Service_TranslateBrowsePathsToNodeIds, true, UA_SERVICETYPE_NORMAL));
   (712, (Service_Call, true, UA_SERVICETYPE_NORMAL));
   (488, (Service_AddNodes, true, UA_SERVICETYPE_NORMAL));
   (494, (Service_AddReferences, true, UA_SERVICETYPE_NORMAL));
   (500, (Service_DeleteNodes, true, UA_SERVICETYPE_NORMAL));
   (506, (Service_DeleteReferences, true, UA_SERVICETYPE_NORMAL))].

Definition getServicePointers (requestTypeId : Z) : option (Service * bool * UA_ServiceType) :=
  snd <$> List.find (fun row => fst row =? requestTypeId) service_table.

Definition requiresSession (svc : Service) : bool :=
  match svc with
  | Service_GetEndpoints | Service_FindServers | Service_RegisterServer
  | Service_RegisterServer2 | CreateSession => false
  | _ => true
  end.

Lemma getServicePointers_session id svc req ty :
  getServicePointers id = Some (svc, req, ty) -> req = requiresSession svc.
Proof.
  unfold getServicePointers; intros ([i r] & Hf & Heq)%fmap_Some; cbn [snd] in Heq; subst r.
  apply find_some in Hf as [Hin _]; revert Hin; unfold service_table; simpl.
  intros; repeat match goal with H : _ \/ _ |- _ => destruct H as [H|H] end; by simplify_eq.
Qed.

Section Binary.
Context {TE : TypeEnv} {E : ServerEnv}.

Record UA_RequestHeader := mkRequestHeader {
  rh_authenticationToken : UA_NodeId;
  rh_requestHandle : Z
}.

Inductive Request :=
| RequestCreateSession (r : UA_CreateSessionRequest)
| RequestActivateSession (r : UA_ActivateSessionRequest)
| RequestOther.

(** Generated types and the decoder's allocations. *)
Class GeneratedTypes := {
  UA_TYPES_OPENSECURECHANNELREQUEST : UA_DataType;
  UA_TYPES_OPENSECURECHANNELRESPONSE : UA_DataType;
  open_request_of_value : UA_Value -> UA_OpenSecureChannelRequest;
  value_of_open_response : UA_OpenSecureChannelResponse -> UA_Value;
  UA_TYPES_REQUESTHEADER : UA_DataType;
  UA_TYPES_SERVICEFAULT : UA_DataType;
  requestType : Service -> UA_DataType;
  responseType : Service -> UA_DataType;
  requestHandle_of_header : UA_Value -> Z;
  header_of_request : Service -> UA_Value -> UA_RequestHeader;
  create_request_of_value : UA_Value -> UA_CreateSessionRequest;
  activate_request_of_value : UA_Value -> UA_ActivateSessionRequest;
  (* responses with the handle of the request and the time *)
  value_of_fault : UA_DataType -> Z -> Z -> status -> UA_Value;
  value_of_create_response : Z -> Z -> UA_CreateSessionResponse -> UA_Value;
  value_of_activate_response : Z -> Z -> UA_ActivateSessionResponse -> UA_Value;
  value_of_close_response : Z -> Z -> status -> UA_Value;
  other_service : Service -> option nat -> UA_Value -> UA_Server -> Z -> Z -> UA_Value;
  calloc_ok : nat -> Z -> bool
}.
Context {GT : GeneratedTypes}.

(** ** The network layer ([plugins/ua_network_tcp.c]) *)

Definition connection_getsendbuffer (c : nat) (length : Z) : M status :=
  conn ← deref_connection c;
  if recvBufferSize (remoteConf conn) <? length then mret BADCOMMUNICATIONERROR
  else if length =? 0 then mret GOOD
  else
    p ← malloc;
    mret (match p with Some _ => GOOD | None => BADOUTOFMEMORY end).

(** One call for the loops around [send]. *)
Definition connection_write (c : nat) (buf : list Z) : M status :=
  conn ← deref_connection c;
  if bool_decide (conn_state conn = UA_CONNECTION_CLOSED) then mret BADCONNECTIONCLOSED
  else
    n ← gets (fun s => net (world s));
    let '(ok, n) := socket_send n c buf in
    _ ← modify (fun s => with_world s (with_net (world s) n));
    if ok then mret GOOD else _ ← connection_close c; mret BADCONNECTIONCLOSED.

(** The message layer is called with a server as its network and application;
    [None] is a server that has followed a dangling pointer. *)
Definition run_app {A} (failed : A) (m : M A) (app : option UA_Server) : A * option UA_Server :=
  match app with
  | Some s =>
      match m s with Some (a, s) => (a, Some s) | None => (failed, None) end
  | None => (failed, None)
  end.

Definition suspend : M (option UA_Server) := gets Some.
Definition resume (app : option UA_Server) : M unit :=
  match app with Some s => modify (fun _ => s) | None => undefined end.

(** The network of the connection [c]; the send buffer is released by
    forgetting it. *)
Definition net_get (c : nat) (app : option UA_Server) (n : Z) : status * option UA_Server :=
  run_app UNDEFINED (connection_getsendbuffer c n) app.
Definition net_send (c : nat) (app : option UA_Server) (msg : list Z) : status * option UA_Server :=
  run_app UNDEFINED (connection_write c msg) app.
Definition net_release (app : option UA_Server) : option UA_Server := app.

(** ** HEL *)

Definition conn_set_confs (conn : UA_Connection) st loc rem :=
  mkConnection st loc rem (conn_channel conn) (incompleteMessage conn).

(** The parameters of a hello message: status, version, sizes of the receive
    and of the send buffer, maximal size and number of chunks of a message. *)
Definition decode_hello (msg : list Z) (offset : Z) : status * Z * Z * Z * Z * Z :=
  match UA_decodeBinary calloc_ok msg offset TcpHelloMessage with
  | (s, Some (VStruct [SScalar (VInt version); SScalar (VInt recvSize); SScalar (VInt sendSize);
                       SScalar (VInt maxMessage); SScalar (VInt maxChunks); SScalar _]), _) =>
      (s, version, recvSize, sendSize, maxMessage, maxChunks)
  | (s, Some _, _) => (UNDEFINED, 0, 0, 0, 0, 0)
  | (s, None, _) => (s, 0, 0, 0, 0, 0)
  end.

(** [localConf] and [remoteConf] after a hello. *)
Definition hello_confs (conn : UA_Connection) (version recvSize sendSize maxMessage maxChunks : Z) :
    UA_ConnectionConfig * UA_ConnectionConfig :=
  let loc := localConf conn in
  (mkConnectionConfig (protocolVersion loc) (Z.min (sendBufferSize loc) recvSize)
     (Z.min (recvBufferSize loc) sendSize) (maxMessageSize loc) (maxChunkCount loc),
   mkConnectionConfig version sendSize recvSize maxMessage maxChunks).

Definition tcpAcknowledgeMessage (conf : UA_ConnectionConfig) : UA_Value :=
  VStruct [SScalar (VInt (protocolVersion conf)); SScalar (VInt (recvBufferSize conf));
           SScalar (VInt (sendBufferSize conf)); SScalar (VInt (maxMessageSize conf));
           SScalar (VInt (maxChunkCount conf))].

Definition processHEL (c : nat) (msg : list Z) (offset : Z) : M status :=
  let '(retval, version, recvSize, sendSize, maxMessage, maxChunks) := decode_hello msg offset in
  if bad retval then mret retval
  else
    conn ← deref_connection c;
    let '(loc, rem) := hello_confs conn version recvSize sendSize maxMessage maxChunks in
    _ ← write_connection c (conn_set_confs conn (conn_state conn) loc rem);
    if recvBufferSize rem =? 0 then mret BADINTERNALERROR
    else
      _ ← write_connection c (conn_set_confs conn UA_CONNECTION_ESTABLISHED loc rem);
      retval ← connection_getsendbuffer c (sendBufferSize loc);
      if bad retval then mret retval
      else
        let '(r1, b) := UA_encodeBinary_buf
          (tcpMessageHeader (UA_MESSAGETYPE_ACK + UA_CHUNKTYPE_FINAL) (8 + 20))
          TcpMessageHeader ([], sendBufferSize loc) in
        if bad r1 then mret r1
        else
          let '(r2, (ack, _)) :=
            UA_encodeBinary_buf (tcpAcknowledgeMessage loc) TcpAcknowledgeMessage b in
          if bad r2 then mret r2 else connection_write c ack.

(** ** OPN *)

(** [requestType.identifier.numeric], the first four bytes of the union. *)
Definition identifier_numeric (id : UA_NodeId) : Z :=
  match nid_identifier id with
  | NumericId n => n
  | StringId s | ByteStringId s => u32 (arr_length s)
  | GuidId g => data1 g
  | OtherId _ raw => le_value (take 4 raw)
  end.

(** Both decoders run; the second goes on where the first stopped. *)
Definition decode_openRequest (msg : list Z) : status * Z * UA_OpenSecureChannelRequest :=
  let '(r1, id, offset) := UA_decodeBinary calloc_ok msg 0 UA_TYPES_NODEID in
  let '(r2, req, _) :=
    UA_decodeBinary calloc_ok msg offset UA_TYPES_OPENSECURECHANNELREQUEST in
  (Z.lor r1 r2,
   match id with Some (VNodeId id) => identifier_numeric id | _ => 0 end,
   match req with
   | Some v => open_request_of_value v
   | None => mkOpenRequest 0 0 0 [] 0
   end).

(** The connection of a channel; the message layer sends nothing when there is
    none. *)
Definition connection_of_channel (e : channel_list_entry) : nat := default 0%nat (e_connection e).

(** [UA_SecureChannel_sendAsymmetricOPNMessage] on the channel [a]. *)
Definition send_openResponse (a : nat) (requestId : Z) (response : UA_OpenSecureChannelResponse) :
    M status :=
  e ← deref_channel a;
  ch ← load_channel a;
  let c := connection_of_channel e in
  app ← suspend;
  let '(retval, ch, app) :=
    UA_SecureChannel_sendAsymmetricOPNMessage (e_policy e) (net_get c) (net_send c) net_release
      ch app requestId (value_of_open_response response) UA_TYPES_OPENSECURECHANNELRESPONSE in
  _ ← resume app;
  _ ← store_channel a ch;
  mret retval.

Definition close_channel_of (a : nat) : M unit :=
  e ← deref_channel a;
  _ ← UA_SecureChannelManager_close (channelId (securityToken (e_channel e)));
  mret tt.

Definition processOPN (a : nat) (requestId : Z) (msg : list Z) : M status :=
  let '(retval, typeId, request) := decode_openRequest msg in
  if bad retval || negb (typeId =? binaryEncodingId UA_TYPES_OPENSECURECHANNELREQUEST) then
    _ ← close_channel_of a; mret retval
  else
    response ← Service_OpenSecureChannel a request open_response_init;
    if bad (osp_serviceResult response) then
      _ ← close_channel_of a; mret (osp_serviceResult response)
    else
      retval ← send_openResponse a requestId response;
      _ ← (if bad retval then close_channel_of a else mret tt);
      mret retval.

(** *** A new channel for a connection *)

(** The first endpoint with the policy of the message whose certificate the
    sender means. *)
Fixpoint find_endpoint (uri thumbprint : UA_ByteString)
    (l : list (UA_Endpoint PolicyContext EndpointDescription)) :
    option (UA_Endpoint PolicyContext EndpointDescription) :=
  match l with
  | [] => None
  | ep :: l =>
      if negb (UA_String_equal uri (policyUri (securityPolicy ep)))
      then find_endpoint uri thumbprint l
      else if bad (compareCertificateThumbprint (securityPolicy ep) thumbprint)
      then find_endpoint uri thumbprint l
      else Some ep
  end.

Definition createSecureChannel (c : nat) (uri senderCertificate thumbprint : UA_ByteString) :
    M status :=
  match find_endpoint uri thumbprint endpoints with
  | None => mret BADSECURITYPOLICYREJECTED
  | Some ep => UA_SecureChannelManager_create c ep senderCertificate
  end.

(** ** MSG *)

(** What is answered to a request: an error, with the position of the request
    in the message; the answer of a session service, or the call of a
    service, with the handle of the request. *)
Inductive Reply :=
| NoReply (retval : status)
| ServiceFault (response : option Service) (requestPos : Z) (error : status)
| ReplyCreateSession (requestHandle : Z) (response : UA_CreateSessionResponse)
| ReplyActivateSession (requestHandle : Z) (response : UA_ActivateSessionResponse)
| CallService (svc : Service) (session : option nat) (requestHandle : Z) (request : UA_Value).

(** The session with a token among the ones attached to the channel. *)
Fixpoint find_attached (token : UA_NodeId) (l : list nat) : M (option nat) :=
  match l with
  | [] => mret None
  | h :: l =>
      x ← deref_session h;
      if UA_NodeId_equal (Some (authenticationToken x)) (Some token) then mret (Some h)
      else find_attached token l
  end.

Definition getSession (a : nat) (token : UA_NodeId) : M (option nat) :=
  e ← deref_channel a; find_attached token (e_sessions e).

(** The session of a request: attached to the channel or known to the server. *)
Definition lookup_session (a : nat) (token : UA_NodeId) : M (option nat) :=
  session ← getSession a token;
  match session with
  | Some h => mret (Some h)
  | None =>
      if UA_NodeId_isNull token then mret None
      else UA_SessionManager_getSessionByToken token
  end.

(** The session has been found: may the service be called? *)
Definition call_with_session (a : nat) (svc : Service) (sessionRequired : bool) (h : nat)
    (requestPos requestHandle : Z) (request : UA_Value) : M Reply :=
  x ← deref_session h;
  if sessionRequired && negb (activated x) then
    _ ← UA_SessionManager_removeSession (authenticationToken x);
    mret (ServiceFault (Some svc) requestPos BADSESSIONNOTACTIVATED)
  else if negb (bool_decide (s_channel x = Some a)) then
    mret (ServiceFault (Some svc) requestPos BADSESSIONNOTACTIVATED)
  else
    _ ← UA_Session_updateLifetime h;
    mret (CallService svc (Some h) requestHandle request).

(** A decoded request; without a session, services that need none get the
    anonymous one, [None]. *)
Definition dispatch (a : nat) (svc : Service) (sessionRequired : bool) (requestPos : Z)
    (header : UA_RequestHeader) (v : UA_Value) (request : Request) : M Reply :=
  match request with
  | RequestCreateSession r =>
      response ← Service_CreateSession (Some a) r;
      mret (ReplyCreateSession (rh_requestHandle header) response)
  | RequestActivateSession r =>
      session ← lookup_session a (rh_authenticationToken header);
      match session with
      | Some h =>
          response ← Service_ActivateSession a h r;
          mret (ReplyActivateSession (rh_requestHandle header) response)
      | None => mret (ServiceFault (Some svc) requestPos BADSESSIONIDINVALID)
      end
  | RequestOther =>
      session ← lookup_session a (rh_authenticationToken header);
      match session with
      | Some h =>
          call_with_session a svc sessionRequired h requestPos (rh_requestHandle header) v
      | None =>
          if sessionRequired then mret (ServiceFault (Some svc) requestPos BADSESSIONIDINVALID)
          else mret (CallService svc None (rh_requestHandle header) v)
      end
  end.

Definition request_of_value (svc : Service) (v : UA_Value) : Request :=
  if decide (svc = CreateSession) then RequestCreateSession (create_request_of_value v)
  else if decide (svc = ActivateSession)
  then RequestActivateSession (activate_request_of_value v)
  else RequestOther.

Definition find_reply (a : nat) (msg : list Z) : M Reply :=
  match UA_decodeBinary calloc_ok msg 0 UA_TYPES_NODEID with
  | (retval, id, offset) =>
      if bad retval then mret (NoReply retval)
      else
        let numeric :=
          match id with
          | Some (VNodeId (mkNodeId 0 (NumericId n))) => n
          | _ => 0
          end in
        match getServicePointers numeric with
        | None => mret (ServiceFault None offset BADSERVICEUNSUPPORTED)
        | Some (svc, sessionRequired, _) =>
            match UA_decodeBinary calloc_ok msg offset (requestType svc) with
            | (retval, request, _) =>
                if bad retval then mret (ServiceFault (Some svc) offset retval)
                else
                  match request with
                  | None => undefined
                  | Some v =>
                      dispatch a svc sessionRequired offset (header_of_request svc v) v
                        (request_of_value svc v)
                  end
            end
        end
  end.

(** *** The answer *)

Abbreviation context := (UA_MessageContext (C := PolicyContext) (N := option UA_Server)).

(** The state that sending leaves behind. *)
Definition end_message (a : nat) (retval : status) (mc : context) : M status :=
  _ ← resume (mc_net mc);
  _ ← store_channel a (mc_channel mc);
  mret retval.

Definition sendServiceFault (a : nat) (msg : list Z) (offset : Z) (type : UA_DataType)
    (requestId : Z) (error : status) : M status :=
  let '(retval, header, _) := UA_decodeBinary calloc_ok msg offset UA_TYPES_REQUESTHEADER in
  if bad retval then mret retval
  else
    timestamp ← now;
    let handle := match header with Some v => requestHandle_of_header v | None => 0 end in
    e ← deref_channel a;
    ch ← load_channel a;
    let c := connection_of_channel e in
    app ← suspend;
    let '(retval, mc) :=
      UA_SecureChannel_sendSymmetricMessage (e_policy e) (net_get c) (net_send c) net_release
        ch app requestId UA_MESSAGETYPE_MSG (value_of_fault type handle timestamp error) type in
    end_message a retval mc.

(** The message is begun, then the service computes its response. *)
Definition send_response (a : nat) (requestId : Z) (type : UA_DataType) (service : M UA_Value) :
    M status :=
  e ← deref_channel a;
  ch ← load_channel a;
  let c := connection_of_channel e in
  let encode := UA_MessageContext_encode (e_policy e) (net_get c) (net_send c) net_release in
  app ← suspend;
  let '(retval, mc) :=
    UA_MessageContext_begin (e_policy e) (net_get c) ch app requestId UA_MESSAGETYPE_MSG in
  if bad retval then end_message a retval mc
  else
    let '(retval, mc) :=
      encode mc (VNodeId (mkNodeId 0 (NumericId (binaryEncodingId type)))) UA_TYPES_NODEID in
    if bad retval then end_message a retval mc
    else
      _ ← resume (mc_net mc);
      response ← service;
      app ← suspend;
      let '(retval, mc) := encode (mc_set_net mc app (mc_length mc)) response type in
      if bad retval then end_message a retval (UA_MessageContext_abort net_release mc)
      else
        let '(retval, mc) :=
          UA_MessageContext_finish (e_policy e) (net_send c) net_release mc in
        end_message a retval mc.

(** [service(server, session, request, response)] *)
Definition call_service (svc : Service) (session : option nat) (requestHandle timestamp : Z)
    (request : UA_Value) : M UA_Value :=
  match session with
  | Some h =>
      if decide (svc = CloseSession) then
        r ← Service_CloseSession h; mret (value_of_close_response requestHandle timestamp r)
      else gets (fun s => other_service svc session request s requestHandle timestamp)
  | None => gets (fun s => other_service svc None request s requestHandle timestamp)
  end.

Definition send_reply (a : nat) (requestId : Z) (msg : list Z) (reply : Reply) : M status :=
  timestamp ← now;
  match reply with
  | NoReply retval => mret retval
  | ServiceFault svc requestPos error =>
      let type := match svc with Some svc => responseType svc | None => UA_TYPES_SERVICEFAULT end in
      sendServiceFault a msg requestPos type requestId error
  | ReplyCreateSession handle r =>
      send_response a requestId (responseType CreateSession)
        (mret (value_of_create_response handle timestamp r))
  | ReplyActivateSession handle r =>
      send_response a requestId (responseType ActivateSession)
        (mret (value_of_activate_response handle timestamp r))
  | CallService svc session handle request =>
      send_response a requestId (responseType svc)
        (call_service svc session handle timestamp request)
  end.

Definition processMSG (a : nat) (requestId : Z) (msg : list Z) : M status :=
  reply ← find_reply a msg; send_reply a requestId msg reply.

(** ** Connections and maintenance *)

(** [UA_Server_removeConnection] *)
Definition UA_Server_removeConnection (c : nat) : M unit :=
  _ ← detachSecureChannel c;
  free_connection c.

(** [UA_Server_cleanup] of [src/server/ua_server.c] *)
Definition UA_Server_cleanup : M unit :=
  t ← nowMonotonic;
  _ ← UA_SessionManager_cleanupTimedOut t;
  UA_SecureChannelManager_cleanupTimedOut t.

Definition run_delayed (d : UA_DelayedCallback) : M unit :=
  match d with
  | removeSecureChannelCallback a => run_removeSecureChannelCallback a
  | removeSessionCallback h => run_removeSessionCallback h
  end.

(** Each entry is taken out of the list before its callback runs. *)
Fixpoint run_delayed_list (l : list UA_DelayedCallback) : M unit :=
  match l with
  | [] => mret tt
  | d :: l =>
      _ ← modify (fun s => with_delayed s (filter (fun d' => d' <> d) (delayedCallbacks s)));
      _ ← run_delayed d;
      run_delayed_list l
  end.

Definition UA_Server_cleanupDelayedCallbacks : M unit :=
  l ← gets delayedCallbacks; run_delayed_list l.
End Binary.

(** ** From bytes to services ([src/server/ua_server_binary.c])

    The way of the bytes of a connection through chunks and messages to the
    services: [UA_Connection_processChunks] of [Connection.v] calls
    [processCompleteChunk], which calls [UA_SecureChannel_processChunk] of
    [SecureChannel.v], which calls [processSecureChannelMessage].  These layers
    are functions of an application state, here the server; [None] stands for
    a server that has followed a dangling pointer. *)

Section Wire.
Context {TE : TypeEnv} {E : ServerEnv} {GT : GeneratedTypes}.

Abbreviation channel := (UA_SecureChannel PolicyContext).

(** ** Messages of a channel *)

Definition processSecureChannelMessage (a : nat) (messagetype requestId : Z) (message : list Z) :
    M status :=
  if messagetype =? UA_MESSAGETYPE_OPN then processOPN a requestId message
  else if messagetype =? UA_MESSAGETYPE_MSG then processMSG a requestId message
  else if messagetype =? UA_MESSAGETYPE_CLO then
    _ ← Service_CloseSecureChannel a; mret GOOD
  else mret BADTCPMESSAGETYPEINVALID.

(** The callback of the channel: its data is written back before the message
    is processed and read again afterwards. *)
Definition on_message (a : nat) (app : option UA_Server) (ch : channel)
    (messagetype requestId : Z) (message : list Z) : status * option UA_Server * channel :=
  let '((retval, ch), app) :=
    run_app (UNDEFINED, ch)
      (_ ← store_channel a ch;
       retval ← processSecureChannelMessage a messagetype requestId message;
       ch ← load_channel a;
       mret (retval, ch)) app in
  (retval, app, ch).

(** [UA_SecureChannel_processChunk(channel, chunk, processSecureChannelMessage, server)] *)
Definition processChunk_on (a : nat) (chunk : list Z) : M status :=
  e ← deref_channel a;
  ch ← load_channel a;
  n ← gets (fun s => allocs (world s));
  app ← suspend;
  let '(retval, app, ch) :=
    UA_SecureChannel_processChunk (e_policy e) calloc_ok (chunk_ok n) (on_message a) app ch
      chunk in
  _ ← resume app;
  _ ← store_channel a ch;
  mret retval.

(** ** Chunks of a connection *)

(** Status, type with chunk type, and the offset behind the header. *)
Definition decode_tcpHeader (chunk : list Z) : status * Z * Z :=
  match UA_decodeBinary calloc_ok chunk 0 TcpMessageHeader with
  | (s, Some (VStruct [SScalar (VInt t); SScalar (VInt _)]), offset) => (s, t, offset)
  | (s, Some _, offset) => (UNDEFINED, 0, offset)
  | (s, None, offset) => (s, 0, offset)
  end.

(** Policy URI, certificate of the sender and thumbprint of the receiver. *)
Definition decode_asymmetricHeader (chunk : list Z) :
    status * UA_ByteString * UA_ByteString * UA_ByteString :=
  match UA_decodeBinary calloc_ok chunk UA_SECURE_CONVERSATION_MESSAGE_HEADER_LENGTH
          AsymmetricAlgorithmSecurityHeader with
  | (s, Some (VStruct [SScalar (VString uri); SScalar (VString cert); SScalar (VString thumb)]), _) =>
      (s, uri, cert, thumb)
  | (s, Some _, _) => (UNDEFINED, ArrNull, ArrNull, ArrNull)
  | (s, None, _) => (s, ArrNull, ArrNull, ArrNull)
  end.

(** An OPN message on a connection without a channel. *)
Definition openChannel (c : nat) (message : list Z) : M status :=
  conn ← deref_connection c;
  if negb (bool_decide (conn_state conn = UA_CONNECTION_ESTABLISHED))
  then mret BADCOMMUNICATIONERROR
  else
    let '(retval, uri, cert, thumb) := decode_asymmetricHeader message in
    if bad retval then mret retval
    else
      retval ← createSecureChannel c uri cert thumb;
      if bad retval then mret retval
      else
        conn ← deref_connection c;
        match conn_channel conn with
        | Some a => processChunk_on a message
        | None => undefined
        end.

Definition processCompleteChunkWithoutChannel (c : nat) (message : list Z) : M status :=
  let '(retval, typeAndChunk, offset) := decode_tcpHeader message in
  if bad retval then mret retval
  else
    let type := Z.land typeAndChunk 0x00ffffff in
    if type =? UA_MESSAGETYPE_HEL then processHEL c message offset
    else if type =? UA_MESSAGETYPE_OPN then openChannel c message
    else mret BADTCPMESSAGETYPEINVALID.

Definition processCompleteChunk (c : nat) (chunk : list Z) : M status :=
  conn ← deref_connection c;
  match conn_channel conn with
  | None => processCompleteChunkWithoutChannel c chunk
  | Some a => processChunk_on a chunk
  end.

(** The callback of the connection, which is written back and read again. *)
Definition on_chunk (c : nat) (app : option UA_Server) (conn : UA_Connection) (chunk : list Z) :
    status * option UA_Server * UA_Connection :=
  let '((retval, conn), app) :=
    run_app (UNDEFINED, conn)
      (_ ← write_connection c conn;
       retval ← processCompleteChunk c chunk;
       conn ← deref_connection c;
       mret (retval, conn)) app in
  (retval, app, conn).

(** The buffer for an error message. *)
Definition net_getBuffer (c : nat) (app : option UA_Server) (n : Z) :
    status * list Z * option UA_Server :=
  let '(retval, app) := net_get c app n in (retval, replicate (Z.to_nat n) 0, app).

Definition processBinaryMessage (c : nat) (message : list Z) : M unit :=
  conn ← deref_connection c;
  n ← gets (fun s => allocs (world s));
  app ← suspend;
  let '(retval, st) :=
    UA_Connection_processChunks (on_chunk c) (buffer_ok n) (mkPState conn app 0) message in
  _ ← resume (ps_app st);
  _ ← write_connection c (ps_conn st);
  if bad retval then
    app ← suspend;
    _ ← resume (UA_Connection_sendError (net_getBuffer c) (net_send c) app retval ArrNull);
    connection_close c
  else mret tt.
End Wire.
