(* ===== verification/ServerLogic.v ===== *)
(** * Reasoning about computations on the server

    Weakest preconditions for the computations of [ServerState.v], the
    skeleton of a state (its lists and pointers without the data), and the
    rules for the operations that leave the skeleton alone. *)

From Stdlib Require Import ZArith Lia.
From stdpp Require Import base list numbers tactics sets gmap.
From S2P Require Import Prelude StateMonad UaTypes UaValue BinarySize BinaryEncode BinaryDecode BinarySpec FieldCodec Connection SecureChannel SecureChannelFrame ServerState SecureChannelManager SessionManager ServerBinary.

Section Logic.
Context {E : ServerEnv}.

(** ** Skeletons *)

(** Of a channel: connection and sessions; of a session: its channel; of a
    connection: its channel. *)
Record Skel := mkSkel {
  k_channels : list nat;
  k_channelCount : Z;
  k_sessions : list nat;
  k_sessionCount : Z;
  k_delayed : list UA_DelayedCallback;
  k_ch : gmap nat (option nat * list nat);
  k_se : gmap nat (option nat);
  k_co : gmap nat (option nat)
}.

Definition ch_links (e : channel_list_entry) : option nat * list nat :=
  (e_connection e, e_sessions e).

Definition skel (s : UA_Server) : Skel :=
  mkSkel (channels (secureChannelManager s)) (currentChannelCount (secureChannelManager s))
    (sm_sessions (sessionManager s)) (currentSessionCount (sessionManager s))
    (delayedCallbacks s)
    (ch_links <$> h_channels (heap s)) (s_channel <$> h_sessions (heap s))
    (conn_channel <$> h_connections (heap s)).

Definition used (s : UA_Server) : nat := allocs (world s).

(** The skeleton stays; memory may have been allocated. *)
Definition same (s0 s : UA_Server) : Prop := skel s = skel s0 /\ (used s0 <= used s)%nat.

#[export] Instance same_preorder : PreOrder same.
Proof.
  unfold same; split; [done|]; intros x y z [H1 H2] [H3 H4]; split; [congruence|lia].
Qed.

(** ** Objects of a skeleton *)

Lemma skel_channel s a p :
  k_ch (skel s) !! a = Some p -> exists e, h_channels (heap s) !! a = Some e /\ ch_links e = p.
Proof. cbn [skel k_ch]; rewrite lookup_fmap, fmap_Some; naive_solver. Qed.

Lemma skel_session s h p :
  k_se (skel s) !! h = Some p -> exists x, h_sessions (heap s) !! h = Some x /\ s_channel x = p.
Proof. cbn [skel k_se]; rewrite lookup_fmap, fmap_Some; naive_solver. Qed.

Lemma skel_connection s c p :
  k_co (skel s) !! c = Some p ->
  exists x, h_connections (heap s) !! c = Some x /\ conn_channel x = p.
Proof. cbn [skel k_co]; rewrite lookup_fmap, fmap_Some; naive_solver. Qed.

(** ** Rules for reading *)

Lemma wp_deref_channel a p (Q : channel_list_entry -> UA_Server -> Prop) s :
  k_ch (skel s) !! a = Some p ->
  (forall e, h_channels (heap s) !! a = Some e -> ch_links e = p -> Q e s) ->
  wp (deref_channel a) Q s.
Proof.
  intros (e & He & Hl)%skel_channel HQ; apply wp_bind, wp_gets; eapply wp_the; eauto.
Qed.

Lemma wp_deref_session h p (Q : UA_Session -> UA_Server -> Prop) s :
  k_se (skel s) !! h = Some p ->
  (forall x, h_sessions (heap s) !! h = Some x -> s_channel x = p -> Q x s) ->
  wp (deref_session h) Q s.
Proof.
  intros (e & He & Hl)%skel_session HQ; apply wp_bind, wp_gets; eapply wp_the; eauto.
Qed.

Lemma wp_deref_connection c p (Q : UA_Connection -> UA_Server -> Prop) s :
  k_co (skel s) !! c = Some p ->
  (forall x, h_connections (heap s) !! c = Some x -> conn_channel x = p -> Q x s) ->
  wp (deref_connection c) Q s.
Proof.
  intros (e & He & Hl)%skel_connection HQ; apply wp_bind, wp_gets; eapply wp_the; eauto.
Qed.

(** ** Skeleton transformers *)

Definition k_set_ch (k : Skel) x :=
  mkSkel (k_channels k) (k_channelCount k) (k_sessions k) (k_sessionCount k) (k_delayed k) x
    (k_se k) (k_co k).
Definition k_set_se (k : Skel) x :=
  mkSkel (k_channels k) (k_channelCount k) (k_sessions k) (k_sessionCount k) (k_delayed k)
    (k_ch k) x (k_co k).
Definition k_set_co (k : Skel) x :=
  mkSkel (k_channels k) (k_channelCount k) (k_sessions k) (k_sessionCount k) (k_delayed k)
    (k_ch k) (k_se k) x.
Definition k_set_channels (k : Skel) l n :=
  mkSkel l n (k_sessions k) (k_sessionCount k) (k_delayed k) (k_ch k) (k_se k) (k_co k).
Definition k_set_sessions (k : Skel) l n :=
  mkSkel (k_channels k) (k_channelCount k) l n (k_delayed k) (k_ch k) (k_se k) (k_co k).
Definition k_set_delayed (k : Skel) d :=
  mkSkel (k_channels k) (k_channelCount k) (k_sessions k) (k_sessionCount k) d (k_ch k)
    (k_se k) (k_co k).

(** What a write does to the skeleton. *)
Lemma wp_write_channel a e p (Q : unit -> UA_Server -> Prop) s :
  k_ch (skel s) !! a = Some p ->
  (forall s', skel s' = k_set_ch (skel s) (<[a := ch_links e]> (k_ch (skel s))) ->
              used s' = used s -> Q tt s') ->
  wp (write_channel a e) Q s.
Proof.
  intros Ha HQ; apply wp_bind; eapply wp_deref_channel; [done|]; intros _ _ _.
  apply wp_modify, HQ; [|done].
  unfold skel, k_set_ch; cbn; by rewrite fmap_insert.
Qed.

Lemma wp_write_session h x p (Q : unit -> UA_Server -> Prop) s :
  k_se (skel s) !! h = Some p ->
  (forall s', skel s' = k_set_se (skel s) (<[h := s_channel x]> (k_se (skel s))) ->
              used s' = used s -> Q tt s') ->
  wp (write_session h x) Q s.
Proof.
  intros Ha HQ; apply wp_bind; eapply wp_deref_session; [done|]; intros _ _ _.
  apply wp_modify, HQ; [|done].
  unfold skel, k_set_se; cbn; by rewrite fmap_insert.
Qed.

Lemma wp_write_connection c x p (Q : unit -> UA_Server -> Prop) s :
  k_co (skel s) !! c = Some p ->
  (forall s', skel s' = k_set_co (skel s) (<[c := conn_channel x]> (k_co (skel s))) ->
              used s' = used s -> Q tt s') ->
  wp (write_connection c x) Q s.
Proof.
  intros Ha HQ; apply wp_bind; eapply wp_deref_connection; [done|]; intros _ _ _.
  apply wp_modify, HQ; [|done].
  unfold skel, k_set_co; cbn; by rewrite fmap_insert.
Qed.

(** Writing back the same pointers. *)
Lemma k_set_ch_id k a p : k_ch k !! a = Some p -> k_set_ch k (<[a := p]> (k_ch k)) = k.
Proof. intros H; destruct k; unfold k_set_ch; cbn in *; by rewrite insert_id. Qed.
Lemma k_set_se_id k a p : k_se k !! a = Some p -> k_set_se k (<[a := p]> (k_se k)) = k.
Proof. intros H; destruct k; unfold k_set_se; cbn in *; by rewrite insert_id. Qed.
Lemma k_set_co_id k a p : k_co k !! a = Some p -> k_set_co k (<[a := p]> (k_co k)) = k.
Proof. intros H; destruct k; unfold k_set_co; cbn in *; by rewrite insert_id. Qed.

Lemma same_wp_write_channel s0 a e (Q : unit -> UA_Server -> Prop) s :
  same s0 s -> k_ch (skel s0) !! a = Some (ch_links e) ->
  (forall s', same s0 s' -> Q tt s') -> wp (write_channel a e) Q s.
Proof.
  intros [Hk Hu] Ha HQ; eapply wp_write_channel; [by rewrite Hk|].
  intros s' Hk' Hu'; apply HQ; split; [|lia].
  rewrite Hk', Hk; by apply k_set_ch_id.
Qed.

Lemma same_wp_write_session s0 h x (Q : unit -> UA_Server -> Prop) s :
  same s0 s -> k_se (skel s0) !! h = Some (s_channel x) ->
  (forall s', same s0 s' -> Q tt s') -> wp (write_session h x) Q s.
Proof.
  intros [Hk Hu] Ha HQ; eapply wp_write_session; [by rewrite Hk|].
  intros s' Hk' Hu'; apply HQ; split; [|lia].
  rewrite Hk', Hk; by apply k_set_se_id.
Qed.

Lemma same_wp_write_connection s0 c x (Q : unit -> UA_Server -> Prop) s :
  same s0 s -> k_co (skel s0) !! c = Some (conn_channel x) ->
  (forall s', same s0 s' -> Q tt s') -> wp (write_connection c x) Q s.
Proof.
  intros [Hk Hu] Ha HQ; eapply wp_write_connection; [by rewrite Hk|].
  intros s' Hk' Hu'; apply HQ; split; [|lia].
  rewrite Hk', Hk; by apply k_set_co_id.
Qed.

(** Reading in a state with the same skeleton. *)
Lemma same_wp_deref_channel s0 a p (Q : channel_list_entry -> UA_Server -> Prop) s :
  same s0 s -> k_ch (skel s0) !! a = Some p ->
  (forall e, h_channels (heap s) !! a = Some e -> ch_links e = p -> Q e s) ->
  wp (deref_channel a) Q s.
Proof. intros [Hk _] Ha HQ; eapply wp_deref_channel; [by rewrite Hk|done]. Qed.

Lemma same_wp_deref_session s0 a p (Q : UA_Session -> UA_Server -> Prop) s :
  same s0 s -> k_se (skel s0) !! a = Some p ->
  (forall x, h_sessions (heap s) !! a = Some x -> s_channel x = p -> Q x s) ->
  wp (deref_session a) Q s.
Proof. intros [Hk _] Ha HQ; eapply wp_deref_session; [by rewrite Hk|done]. Qed.

Lemma same_wp_deref_connection s0 a p (Q : UA_Connection -> UA_Server -> Prop) s :
  same s0 s -> k_co (skel s0) !! a = Some p ->
  (forall x, h_connections (heap s) !! a = Some x -> conn_channel x = p -> Q x s) ->
  wp (deref_connection a) Q s.
Proof. intros [Hk _] Ha HQ; eapply wp_deref_connection; [by rewrite Hk|done]. Qed.

(** ** Allocation and copies *)

Lemma wp_malloc (Q : option nat -> UA_Server -> Prop) s :
  (forall r s', skel s' = skel s -> used s' = S (used s) -> heap s' = heap s ->
     (forall p, r = Some p -> p = used s) -> Q r s') ->
  wp malloc Q s.
Proof.
  intros HQ; apply HQ; [done..|]; intros p; destruct (malloc_ok _); naive_solver.
Qed.

Lemma same_wp_malloc s0 (Q : option nat -> UA_Server -> Prop) s :
  same s0 s -> (forall r s', same s0 s' -> Q r s') -> wp malloc Q s.
Proof.
  intros [Hk Hu] HQ; apply wp_malloc; intros r s' Hk' Hu' _ _; apply HQ; split; [congruence|lia].
Qed.

Lemma same_wp_copy_bytes s0 l (Q : status * list Z -> UA_Server -> Prop) s :
  same s0 s -> (forall r s', same s0 s' -> Q r s') -> wp (copy_bytes l) Q s.
Proof.
  intros Hs HQ; unfold copy_bytes; destruct (_ =? _); [by apply wp_ret, HQ|].
  eapply wp_bind, same_wp_malloc; [done|]; intros r s' Hs'; by apply wp_ret, HQ.
Qed.

Lemma same_wp_copy_string s0 l (Q : status * UA_String -> UA_Server -> Prop) s :
  same s0 s -> (forall r s', same s0 s' -> Q r s') -> wp (copy_string l) Q s.
Proof.
  intros Hs HQ; unfold copy_string; destruct (_ =? _); [by apply wp_ret, HQ|].
  eapply wp_bind, same_wp_malloc; [done|]; intros r s' Hs'; by apply wp_ret, HQ.
Qed.

Lemma same_wp_copy_struct s0 {A} (n a : A) (Q : status * A -> UA_Server -> Prop) s :
  same s0 s -> (forall r s', same s0 s' -> Q r s') -> wp (copy_struct n a) Q s.
Proof.
  intros Hs HQ; eapply wp_bind, same_wp_malloc; [done|]; intros r s' Hs'; by apply wp_ret, HQ.
Qed.

Lemma same_wp_modify s0 f (Q : unit -> UA_Server -> Prop) s :
  same s0 s -> same s (f s) -> (forall s', same s0 s' -> Q tt s') -> wp (modify f) Q s.
Proof. intros Hs Hf HQ; apply wp_modify, HQ; by transitivity s. Qed.

Lemma same_wp_connection_close s0 c p (Q : unit -> UA_Server -> Prop) s :
  same s0 s -> k_co (skel s0) !! c = Some p ->
  (forall s', same s0 s' -> Q tt s') -> wp (connection_close c) Q s.
Proof.
  intros Hs Hc HQ; eapply wp_bind, same_wp_deref_connection; [done..|]; intros x _ <-.
  by eapply same_wp_write_connection.
Qed.
End Logic.

(** ** Automation

    [data_step] executes one step of a computation that keeps the skeleton of
    a state [s0] with [same s0 s]; the database [same] holds the rules of the
    operations. *)
Create HintDb same.

Ltac data_rule lem := eapply lem; [eassumption|first [eassumption|done|eauto with same]..|].

Ltac data_step :=
  match goal with
  | |- wp (mret _) _ _ => apply wp_ret
  | |- wp (_ ≫= _) _ _ => apply wp_bind
  | |- wp (gets _) _ _ => apply wp_gets
  | |- wp nowMonotonic _ _ => apply wp_gets
  | |- wp now _ _ => apply wp_gets
  | |- wp (deref_channel _) _ _ =>
      eapply same_wp_deref_channel; [eassumption|eassumption|]; intros ? ? ?
  | |- wp (deref_session _) _ _ =>
      eapply same_wp_deref_session; [eassumption|eassumption|]; intros ? ? ?
  | |- wp (deref_connection _) _ _ =>
      eapply same_wp_deref_connection; [eassumption|eassumption|]; intros ? ? ?
  | |- wp malloc _ _ => eapply same_wp_malloc; [eassumption|]; intros ? ? ?
  | |- wp (copy_bytes _) _ _ => eapply same_wp_copy_bytes; [eassumption|]; intros ? ? ?
  | |- wp (copy_string _) _ _ => eapply same_wp_copy_string; [eassumption|]; intros ? ? ?
  | |- wp (copy_struct _ _) _ _ => eapply same_wp_copy_struct; [eassumption|]; intros ? ? ?
  | |- wp (let '(_, _) := ?p in _) _ _ => destruct p eqn:?
  | |- wp (if ?b then _ else _) _ _ => destruct b eqn:?
  | |- wp (match ?p with _ => _ end) _ _ => destruct p eqn:?
  end.

Ltac data_steps := repeat data_step.

(** ** Operations that leave lists and pointers alone

    Every rule has the form [same s0 s -> ... -> wp m Q s]: the operation is
    defined and its final state has the skeleton of [s0] again. *)

Section Frame.
Context {E : ServerEnv}.

(** ** Channels *)

Lemma same_wp_update_channel s0 a f p (Q : unit -> UA_Server -> Prop) s :
  same s0 s -> k_ch (skel s0) !! a = Some p ->
  (forall s', same s0 s' -> Q tt s') -> wp (update_channel a f) Q s.
Proof.
  intros Hs Ha HQ; unfold update_channel; do 2 data_step; subst p.
  by eapply same_wp_write_channel.
Qed.

(** Replace the data of a channel by what a function of the message layer
    returns. *)
Lemma same_wp_write_data s0 a e ch p (Q : unit -> UA_Server -> Prop) s :
  same s0 s -> k_ch (skel s0) !! a = Some p -> ch_links e = p ->
  (forall s', same s0 s' -> Q tt s') -> wp (write_channel a (set_e_channel e ch)) Q s.
Proof. intros Hs Ha <- HQ; by eapply same_wp_write_channel. Qed.

Lemma same_wp_revolve s0 a p (Q : status -> UA_Server -> Prop) s :
  same s0 s -> k_ch (skel s0) !! a = Some p ->
  (forall r s', same s0 s' -> Q r s') -> wp (revolve a) Q s.
Proof.
  intros Hs Ha HQ; unfold revolve; data_steps.
  eapply same_wp_write_data; [done..|]; intros s' Hs'; data_step; auto.
Qed.

Lemma same_wp_generateNewKeys s0 a p (Q : status -> UA_Server -> Prop) s :
  same s0 s -> k_ch (skel s0) !! a = Some p ->
  (forall r s', same s0 s' -> Q r s') -> wp (generateNewKeys a) Q s.
Proof.
  intros Hs Ha HQ; unfold generateNewKeys; data_steps.
  eapply same_wp_write_data; [done..|]; intros s' Hs'; data_step; auto.
Qed.

Lemma same_wp_replace_nonces s0 a req p (Q : status -> UA_Server -> Prop) s :
  same s0 s -> k_ch (skel s0) !! a = Some p ->
  (forall r s', same s0 s' -> Q r s') -> wp (replace_nonces a req) Q s.
Proof.
  intros Hs Ha HQ; unfold replace_nonces; data_steps.
  eapply same_wp_update_channel; [done..|]; intros s2 Hs2; data_steps.
  eapply same_wp_write_data; [done..|]; intros s3 Hs3; data_step; auto.
Qed.

Lemma same_wp_next_tokenId s0 (Q : Z -> UA_Server -> Prop) s :
  same s0 s -> (forall r s', same s0 s' -> Q r s') -> wp next_tokenId Q s.
Proof.
  intros Hs HQ; unfold next_tokenId; data_steps; eapply same_wp_modify; [done| |].
  - by split.
  - intros s' Hs'; data_step; auto.
Qed.

Lemma same_wp_next_channelId s0 (Q : Z -> UA_Server -> Prop) s :
  same s0 s -> (forall r s', same s0 s' -> Q r s') -> wp next_channelId Q s.
Proof.
  intros Hs HQ; unfold next_channelId; data_steps; eapply same_wp_modify; [done| |].
  - by split.
  - intros s' Hs'; data_step; auto.
Qed.

Ltac channel_step :=
  match goal with
  | |- wp (update_channel _ _) _ _ =>
      eapply same_wp_update_channel; [eassumption|eassumption|]; intros ? ?
  | |- wp (revolve _) _ _ => eapply same_wp_revolve; [eassumption|eassumption|]; intros ? ? ?
  | |- wp (generateNewKeys _) _ _ =>
      eapply same_wp_generateNewKeys; [eassumption|eassumption|]; intros ? ? ?
  | |- wp (replace_nonces _ _) _ _ =>
      eapply same_wp_replace_nonces; [eassumption|eassumption|]; intros ? ? ?
  | |- wp next_tokenId _ _ => eapply same_wp_next_tokenId; [eassumption|]; intros ? ? ?
  | |- wp next_channelId _ _ => eapply same_wp_next_channelId; [eassumption|]; intros ? ? ?
  | _ => data_step
  end.

Lemma same_wp_open s0 a req resp p (Q : _ -> UA_Server -> Prop) s :
  same s0 s -> k_ch (skel s0) !! a = Some p ->
  (forall r s', same s0 s' -> Q r s') -> wp (UA_SecureChannelManager_open a req resp) Q s.
Proof.
  intros Hs Ha HQ; unfold UA_SecureChannelManager_open; repeat channel_step; by apply HQ.
Qed.

Lemma same_wp_renew s0 a req resp p (Q : _ -> UA_Server -> Prop) s :
  same s0 s -> k_ch (skel s0) !! a = Some p ->
  (forall r s', same s0 s' -> Q r s') -> wp (UA_SecureChannelManager_renew a req resp) Q s.
Proof.
  intros Hs Ha HQ; unfold UA_SecureChannelManager_renew; repeat channel_step; by apply HQ.
Qed.

Lemma same_wp_Service_OpenSecureChannel s0 a req resp p (Q : _ -> UA_Server -> Prop) s :
  same s0 s -> k_ch (skel s0) !! a = Some p ->
  (forall r s', same s0 s' -> Q r s') -> wp (Service_OpenSecureChannel a req resp) Q s.
Proof.
  intros Hs Ha HQ; unfold Service_OpenSecureChannel; data_steps.
  - eapply same_wp_renew; [done..|]; intros [r resp'] s' Hs'; data_steps; by apply HQ.
  - by apply HQ.
  - eapply same_wp_open; [done..|]; intros [r resp'] s' Hs'; data_steps; by apply HQ.
Qed.

(** The list of channels is searched without changing anything. *)
Lemma same_wp_find_channel s0 id l (Q : option nat -> UA_Server -> Prop) s :
  same s0 s -> (forall a, a ∈ l -> is_Some (k_ch (skel s0) !! a)) ->
  (forall r, (forall a, r = Some a -> a ∈ l) -> Q r s) -> wp (find_channel id l) Q s.
Proof.
  revert Q; induction l as [|a l IH]; intros Q Hs Hl HQ; cbn [find_channel].
  - apply wp_ret, HQ; done.
  - destruct (Hl a) as [p Hp]; [set_solver|]; data_steps.
    + apply HQ; intros ? [= <-]; set_solver.
    + apply IH; [done|set_solver|]; intros r Hr; apply HQ; set_solver.
Qed.

(** ** Sessions *)

Lemma same_wp_update_session s0 h f p (Q : unit -> UA_Server -> Prop) s :
  same s0 s -> k_se (skel s0) !! h = Some p -> (forall x, s_channel (f x) = s_channel x) ->
  (forall s', same s0 s' -> Q tt s') -> wp (update_session h f) Q s.
Proof.
  intros Hs Ha Hf HQ; unfold update_session; do 2 data_step; subst p.
  eapply same_wp_write_session; [done|by rewrite Hf|done].
Qed.

Lemma same_wp_updateLifetime s0 h p (Q : unit -> UA_Server -> Prop) s :
  same s0 s -> k_se (skel s0) !! h = Some p ->
  (forall s', same s0 s' -> Q tt s') -> wp (UA_Session_updateLifetime h) Q s.
Proof.
  intros Hs Ha HQ; unfold UA_Session_updateLifetime; data_steps.
  by eapply same_wp_update_session.
Qed.

(** The channel of a session exists. *)
Definition channel_exists (k : Skel) (p : option nat) : Prop :=
  forall a, p = Some a -> is_Some (k_ch k !! a).

Lemma same_wp_generateNonce s0 h p (Q : status -> UA_Server -> Prop) s :
  same s0 s -> k_se (skel s0) !! h = Some p -> channel_exists (skel s0) p ->
  (forall r s', same s0 s' -> Q r s') -> wp (UA_Session_generateNonce h) Q s.
Proof.
  intros Hs Hh Hp HQ; unfold UA_Session_generateNonce.
  eapply wp_bind, same_wp_deref_session; [done..|]; intros x _ Hx; subst p.
  destruct (s_channel x) as [c|] eqn:Hc; [|data_steps; by apply HQ].
  destruct (Hp c) as [q Hq]; [done|].
  data_steps; (eapply same_wp_write_session; [done|cbn; by rewrite Hc|]);
    intros s2 Hs2; data_steps; by apply HQ.
Qed.

Lemma same_wp_closeSession_call s0 id hd (Q : unit -> UA_Server -> Prop) s :
  same s0 s -> (forall s', same s0 s' -> Q tt s') -> wp (accessControl_closeSession id hd) Q s.
Proof. intros Hs HQ; eapply same_wp_modify; [done|by split|done]. Qed.

Lemma same_wp_random_nodeid s0 (Q : UA_NodeId -> UA_Server -> Prop) s :
  same s0 s -> (forall r s', same s0 s' -> Q r s') -> wp random_nodeid Q s.
Proof.
  intros Hs HQ; unfold random_nodeid; data_steps; eapply same_wp_modify; [done|by split|].
  intros s' Hs'; data_steps; by apply HQ.
Qed.

Lemma same_wp_find_session s0 key id l (Q : option nat -> UA_Server -> Prop) s :
  same s0 s -> (forall h, h ∈ l -> is_Some (k_se (skel s0) !! h)) ->
  (forall r, (forall h, r = Some h -> h ∈ l) -> Q r s) -> wp (find_session key id l) Q s.
Proof.
  revert Q; induction l as [|h l IH]; intros Q Hs Hl HQ; cbn [find_session].
  - apply wp_ret, HQ; done.
  - destruct (Hl h) as [p Hp]; [set_solver|]; do 3 data_step.
    + apply IH; [done|set_solver|]; intros r Hr; apply HQ; set_solver.
    + do 3 data_step; apply HQ; intros ? Hx; destr_if; set_solver.
Qed.

Lemma same_wp_find_token s0 id l (Q : option nat -> UA_Server -> Prop) s :
  same s0 s -> (forall h, h ∈ l -> is_Some (k_se (skel s0) !! h)) ->
  (forall r, (forall h, r = Some h -> h ∈ l) -> Q r s) -> wp (find_token id l) Q s.
Proof.
  revert Q; induction l as [|h l IH]; intros Q Hs Hl HQ; cbn [find_token].
  - apply wp_ret, HQ; done.
  - destruct (Hl h) as [p Hp]; [set_solver|]; data_steps.
    + apply HQ; intros ? [= <-]; set_solver.
    + apply IH; [done|set_solver|]; intros r Hr; apply HQ; set_solver.
Qed.

Lemma same_wp_find_attached s0 id l (Q : option nat -> UA_Server -> Prop) s :
  same s0 s -> (forall h, h ∈ l -> is_Some (k_se (skel s0) !! h)) ->
  (forall r, (forall h, r = Some h -> h ∈ l) -> Q r s) -> wp (find_attached id l) Q s.
Proof.
  revert Q; induction l as [|h l IH]; intros Q Hs Hl HQ; cbn [find_attached].
  - apply wp_ret, HQ; done.
  - destruct (Hl h) as [p Hp]; [set_solver|]; data_steps.
    + apply HQ; intros ? [= <-]; set_solver.
    + apply IH; [done|set_solver|]; intros r Hr; apply HQ; set_solver.
Qed.

(** ** Signatures and endpoints *)

Lemma same_wp_signCreateSessionResponse s0 a req p (Q : _ -> UA_Server -> Prop) s :
  same s0 s -> k_ch (skel s0) !! a = Some p ->
  (forall r s', same s0 s' -> Q r s') -> wp (signCreateSessionResponse a req) Q s.
Proof.
  intros Hs Ha HQ; unfold signCreateSessionResponse; cbv zeta; data_steps; by apply HQ.
Qed.

Lemma same_wp_checkSignature s0 a h req p q (Q : _ -> UA_Server -> Prop) s :
  same s0 s -> k_ch (skel s0) !! a = Some p -> k_se (skel s0) !! h = Some q ->
  (forall r s', same s0 s' -> Q r s') -> wp (checkSignature a h req) Q s.
Proof.
  intros Hs Ha Hh HQ; unfold checkSignature; cbv zeta; data_steps; by apply HQ.
Qed.

Lemma same_wp_copy_endpoints s0 l (Q : _ -> UA_Server -> Prop) s :
  same s0 s -> (forall r s', same s0 s' -> Q r s') -> wp (copy_endpoints l) Q s.
Proof.
  revert Q s; induction l as [|ep l IH]; intros Q s Hs HQ; cbn [copy_endpoints].
  - by apply wp_ret, HQ.
  - do 3 data_step; apply wp_bind, IH; [done|]; intros [rs ds] s2 Hs2; data_steps; by apply HQ.
Qed.

Lemma same_wp_mirror_endpointUrl s0 url l (Q : _ -> UA_Server -> Prop) s :
  same s0 s -> (forall r s', same s0 s' -> Q r s') -> wp (mirror_endpointUrl url l) Q s.
Proof.
  revert Q s; induction l as [|ep l IH]; intros Q s Hs HQ; cbn [mirror_endpointUrl].
  - by apply wp_ret, HQ.
  - do 3 data_step; apply wp_bind, IH; [done|]; intros ds s2 Hs2; data_steps; by apply HQ.
Qed.

(** ** The network and the message layer *)

Lemma same_wp_getsendbuffer s0 c n p (Q : _ -> UA_Server -> Prop) s :
  same s0 s -> k_co (skel s0) !! c = Some p ->
  (forall r s', same s0 s' -> Q r s') -> wp (connection_getsendbuffer c n) Q s.
Proof. intros Hs Hc HQ; unfold connection_getsendbuffer; data_steps; by apply HQ. Qed.

Lemma same_wp_connection_write s0 c buf p (Q : _ -> UA_Server -> Prop) s :
  same s0 s -> k_co (skel s0) !! c = Some p ->
  (forall r s', same s0 s' -> Q r s') -> wp (connection_write c buf) Q s.
Proof.
  intros Hs Hc HQ; unfold connection_write; data_steps; [by apply HQ|].
  eapply same_wp_modify; [done|by split|]; intros s2 Hs2; data_steps; [by apply HQ|].
  eapply same_wp_connection_close; [done..|]; intros s3 Hs3; data_steps; by apply HQ.
Qed.

(** A server in the hands of the message layer. *)
Definition app_is (P : UA_Server -> Prop) (app : option UA_Server) : Prop :=
  exists s, app = Some s /\ P s.

Lemma run_app_is {A} (P : UA_Server -> Prop) (failed : A) (m : M A) app :
  app_is P app -> (forall s, P s -> wp m (fun _ s' => P s') s) ->
  app_is P (snd (run_app failed m app)).
Proof.
  intros (s & -> & Hs) Hm; cbn; destruct (wp_defined _ _ _ (Hm s Hs)) as (a & s' & -> & Hs').
  by exists s'.
Qed.

Lemma wp_resume app (P : UA_Server -> Prop) (Q : unit -> UA_Server -> Prop) s :
  app_is P app -> (forall s', P s' -> Q tt s') -> wp (resume app) Q s.
Proof. intros (s' & -> & Hs') HQ; by apply HQ. Qed.

Lemma net_get_same s0 c p app n :
  k_co (skel s0) !! c = Some p -> app_is (same s0) app -> app_is (same s0) (snd (net_get c app n)).
Proof.
  intros Hc Happ; apply run_app_is; [done|]; intros s Hs.
  by eapply same_wp_getsendbuffer.
Qed.

Lemma net_send_same s0 c p app m :
  k_co (skel s0) !! c = Some p -> app_is (same s0) app -> app_is (same s0) (snd (net_send c app m)).
Proof.
  intros Hc Happ; apply run_app_is; [done|]; intros s Hs.
  by eapply same_wp_connection_write.
Qed.

Context {TE : TypeEnv} {GT : GeneratedTypes}.

(** The message layer touches the network only through its operations. *)
Lemma sendAsymmetric_network {C N} (policy : UA_SecurityPolicy C) gsb send rel ch (n : N) id v t
    (P : N -> Prop) :
  P n -> (forall n l, P n -> P (snd (gsb n l))) -> (forall n l, P n -> P (snd (send n l))) ->
  (forall n, P n -> P (rel n)) ->
  P (snd (UA_SecureChannel_sendAsymmetricOPNMessage policy gsb send rel ch n id v t)).
Proof.
  intros Hn Hg Hs Hr; unfold UA_SecureChannel_sendAsymmetricOPNMessage; cbv zeta.
  repeat match goal with
  | |- context [gsb ?n ?l] => let E := fresh in
      pose proof (Hg n l Hn) as E; destruct (gsb n l) as [? ?]; cbn in E
  | |- P (snd (let '(_, _) := send ?n ?l in _)) =>
      let H := fresh in assert (P (snd (send n l))) as H by auto; destruct (send n l); exact H
  | |- P (snd (_, _)) => cbn; auto
  | |- P (snd (if ?b then _ else _)) => destruct b
  | |- P (snd (match ?b with _ => _ end)) => destruct b
  end.
Qed.

Lemma same_wp_processHEL s0 c msg offset p (Q : _ -> UA_Server -> Prop) s :
  same s0 s -> k_co (skel s0) !! c = Some p ->
  (forall r s', same s0 s' -> Q r s') -> wp (processHEL c msg offset) Q s.
Proof.
  intros Hs Hc HQ; unfold processHEL; data_steps; try by apply HQ.
  all: eapply same_wp_write_connection; [done|by subst|]; intros s2 Hs2; data_steps; try by apply HQ.
  all: eapply same_wp_write_connection; [done|by subst|]; intros s3 Hs3; data_step.
  all: eapply same_wp_getsendbuffer; [done..|]; intros r s4 Hs4; data_steps; try by apply HQ.
  all: eapply same_wp_connection_write; [done..|]; intros; by apply HQ.
Qed.
End Frame.
