(* ===== verification/ServerInvariant.v ===== *)
(** * The invariant of the server's lists and pointers

    [skel_ok]: an object is allocated exactly as long as it is in its list or
    waits for its delayed callback, and the pointers between channels, sessions
    and connections are mutual.  The lemmas say that every change of lists or
    pointers that the operations make keeps it. *)

From Stdlib Require Import ZArith Lia.
From stdpp Require Import base list numbers tactics sets gmap.
From S2P Require Import Prelude StateMonad UaTypes Connection SecureChannel ServerState SecureChannelManager SessionManager ServerBinary ServerLogic.

Record skel_ok {E : ServerEnv} (k : Skel) (n : nat) : Prop := mkOk {
  ok_channels : NoDup (k_channels k);
  ok_sessions : NoDup (k_sessions k);
  ok_delayed : NoDup (k_delayed k);
  ok_ch_dom : forall a, is_Some (k_ch k !! a) <->
    a ∈ k_channels k \/ removeSecureChannelCallback a ∈ k_delayed k;
  ok_ch_disj : forall a, a ∈ k_channels k -> removeSecureChannelCallback a ∉ k_delayed k;
  ok_se_dom : forall h, is_Some (k_se k !! h) <->
    h ∈ k_sessions k \/ removeSessionCallback h ∈ k_delayed k;
  ok_se_disj : forall h, h ∈ k_sessions k -> removeSessionCallback h ∉ k_delayed k;
  ok_ch_fresh : forall a, is_Some (k_ch k !! a) -> (a < n)%nat;
  ok_se_fresh : forall h, is_Some (k_se k !! h) -> (h < n)%nat;
  ok_co_fresh : forall c, is_Some (k_co k !! c) -> (c < n)%nat;
  ok_session_links : forall h a, k_se k !! h = Some (Some a) <->
    exists c l, k_ch k !! a = Some (c, l) /\ h ∈ l;
  ok_attached : forall a c l, k_ch k !! a = Some (c, l) -> NoDup l;
  ok_connection_links : forall c a, k_co k !! c = Some (Some a) <->
    exists l, k_ch k !! a = Some (Some c, l)
}.

Section Invariant.
Context {E : ServerEnv}.

(** The counters, of 32 bits, count the lists; there are not too many
    sessions. *)
Definition counts_ok (k : Skel) : Prop :=
  k_channelCount k = u32 (zlen (k_channels k)) /\
  k_sessionCount k = u32 (zlen (k_sessions k)) /\ zlen (k_sessions k) <= maxSessions.

Definition server_ok (s : UA_Server) : Prop := skel_ok (skel s) (used s) /\ counts_ok (skel s).

Lemma skel_ok_mono k n n' : skel_ok k n -> (n <= n')%nat -> skel_ok k n'.
Proof.
  intros [] Hn; constructor; try done; intros a Ha.
  - specialize (ok_ch_fresh0 a Ha); lia.
  - specialize (ok_se_fresh0 a Ha); lia.
  - specialize (ok_co_fresh0 a Ha); lia.
Qed.

Lemma server_ok_same s0 s : same s0 s -> server_ok s0 -> server_ok s.
Proof. unfold server_ok; intros [-> Hu] [H Hc]; split; [by eapply skel_ok_mono|done]. Qed.

(** ** The pointers alone *)

Lemma insert_existing {A} (m : gmap nat A) a p q x :
  m !! a = Some p -> is_Some (<[a := q]> m !! x) <-> is_Some (m !! x).
Proof.
  intros Ha; destruct (decide (a = x)) as [<-|Hne].
  - rewrite lookup_insert_eq, Ha; by split; eexists.
  - by rewrite lookup_insert_ne.
Qed.

(** Lookup of channels when one entry keeps its sessions, or its connection. *)
Lemma insert_same_sessions (m : gmap nat (option nat * list nat)) a c c' l x h :
  m !! a = Some (c, l) ->
  (exists d k, <[a := (c', l)]> m !! x = Some (d, k) /\ h ∈ k) <->
  (exists d k, m !! x = Some (d, k) /\ h ∈ k).
Proof.
  intros Ha; destruct (decide (a = x)) as [<-|Hne].
  - rewrite lookup_insert_eq, Ha; naive_solver.
  - by rewrite lookup_insert_ne.
Qed.

Lemma insert_same_connection (m : gmap nat (option nat * list nat)) a c l l' x d :
  m !! a = Some (c, l) ->
  (exists k, <[a := (c, l')]> m !! x = Some (d, k)) <-> (exists k, m !! x = Some (d, k)).
Proof.
  intros Ha; destruct (decide (a = x)) as [<-|Hne].
  - rewrite lookup_insert_eq, Ha; naive_solver.
  - by rewrite lookup_insert_ne.
Qed.

(** Detach a connection from its channel. *)
Lemma ok_detach_connection k n c a l :
  skel_ok k n -> k_co k !! c = Some (Some a) -> k_ch k !! a = Some (Some c, l) ->
  skel_ok (k_set_co (k_set_ch k (<[a := (None, l)]> (k_ch k))) (<[c := None]> (k_co k))) n.
Proof.
  intros [] Hc Ha; constructor; cbn; try done.
  - intros x; rewrite <- ok_ch_dom0; by eapply insert_existing.
  - intros x; rewrite insert_existing by done; auto.
  - intros x; rewrite insert_existing by done; auto.
  - intros h x; rewrite ok_session_links0; symmetry; by eapply insert_same_sessions.
  - intros x c' l'; rewrite lookup_insert_Some; intros [[<- [= <- <-]]|[_ H]]; eauto.
  - intros c' x; setoid_rewrite lookup_insert_Some; rewrite ok_connection_links0.
    split.
    { intros [[_ [=]]|[Hne [l' H]]]; exists l'; right; split; [congruence|done]. }
    intros (l' & [[-> [=]]|[Hne H]]); right; split; [|by exists l'].
    intros <-; assert (k_co k !! c = Some (Some x)) by (apply ok_connection_links0; eauto).
    congruence.
Qed.

Lemma ok_attach_connection k n c a l :
  skel_ok k n -> k_co k !! c = Some None -> k_ch k !! a = Some (None, l) ->
  skel_ok (k_set_co (k_set_ch k (<[a := (Some c, l)]> (k_ch k))) (<[c := Some a]> (k_co k))) n.
Proof.
  intros [] Hc Ha; constructor; cbn; try done.
  - intros x; rewrite <- ok_ch_dom0; by eapply insert_existing.
  - intros x; rewrite insert_existing by done; auto.
  - intros x; rewrite insert_existing by done; auto.
  - intros h x; rewrite ok_session_links0; symmetry; by eapply insert_same_sessions.
  - intros x c' l'; rewrite lookup_insert_Some; intros [[<- [= <- <-]]|[_ H]]; eauto.
  - intros c' x; setoid_rewrite lookup_insert_Some; rewrite ok_connection_links0.
    split.
    + intros [[<- [= <-]]|[Hne [l' H]]]; [exists l; by left|].
      exists l'; right; split; [congruence|done].
    + intros (l' & [[<- [= <- <-]]|[Hne H]]); [by left|right; split; [|by exists l']].
      intros <-; assert (k_co k !! c = Some (Some x)) by (apply ok_connection_links0; eauto).
      congruence.
Qed.

(** Attach and detach a session. *)
Lemma ok_attach_session k n h a c l :
  skel_ok k n -> k_se k !! h = Some None -> k_ch k !! a = Some (c, l) ->
  skel_ok (k_set_se (k_set_ch k (<[a := (c, h :: l)]> (k_ch k))) (<[h := Some a]> (k_se k))) n.
Proof.
  intros [] Hh Ha; constructor; cbn; try done.
  - intros x; rewrite <- ok_ch_dom0; by eapply insert_existing.
  - intros x; rewrite <- ok_se_dom0; by eapply insert_existing.
  - intros x; rewrite insert_existing by done; auto.
  - intros x; rewrite insert_existing by done; auto.
  - intros h' x; setoid_rewrite lookup_insert_Some; rewrite ok_session_links0.
    split.
    + intros [[<- [= <-]]|[Hne (c' & l' & H1 & H2)]].
      { exists c, (h :: l); split; [by left|apply elem_of_cons; by left]. }
      destruct (decide (a = x)) as [<-|Hx].
      * rewrite Ha in H1; injection H1 as <- <-.
        exists c, (h :: l); split; [by left|apply elem_of_cons; by right].
      * exists c', l'; split; [by right|done].
    + intros (c' & l' & [[<- [= <- <-]]|[Hne H1]] & H2).
      * apply elem_of_cons in H2 as [->|H2]; [by left|].
        destruct (decide (h = h')) as [<-|Hh']; [by left|right].
        split; [done|]; by exists c, l.
      * right; split; [|by exists c', l'].
        intros <-; assert (k_se k !! h = Some (Some x)) by (apply ok_session_links0; eauto).
        congruence.
  - intros x c' l'; rewrite lookup_insert_Some; intros [[<- [= <- <-]]|[_ H]]; [|eauto].
    constructor; [|eauto]; intros Hin.
    assert (k_se k !! h = Some (Some a)) by (apply ok_session_links0; eauto); congruence.
  - intros c' x; rewrite ok_connection_links0; symmetry; by eapply insert_same_connection.
Qed.

Lemma ok_detach_session k n h a c l :
  skel_ok k n -> k_se k !! h = Some (Some a) -> k_ch k !! a = Some (c, l) ->
  skel_ok (k_set_ch (k_set_se k (<[h := None]> (k_se k))) (<[a := (c, without h l)]> (k_ch k))) n.
Proof.
  intros [] Hh Ha; constructor; cbn; try done.
  - intros x; rewrite <- ok_ch_dom0; by eapply insert_existing.
  - intros x; rewrite <- ok_se_dom0; by eapply insert_existing.
  - intros x; rewrite insert_existing by done; auto.
  - intros x; rewrite insert_existing by done; auto.
  - intros h' x; setoid_rewrite lookup_insert_Some; rewrite ok_session_links0.
    split.
    + intros [[_ [=]]|[Hne (c' & l' & H1 & H2)]].
      destruct (decide (a = x)) as [<-|Hx]; [|by exists c', l'; split; [right|]].
      rewrite Ha in H1; injection H1 as <- <-.
      exists c, (without h l); split; [by left|]; by apply elem_of_without.
    + intros (c' & l' & [[<- [= <- <-]]|[Hne H1]] & H2).
      * apply elem_of_without in H2 as [??]; right; split; [done|]; by exists c, l.
      * right; split; [|by exists c', l']; intros <-.
        assert (k_se k !! h = Some (Some x)) by (apply ok_session_links0; eauto); congruence.
  - intros x c' l'; rewrite lookup_insert_Some; intros [[<- [= <- <-]]|[_ H]]; [|eauto].
    apply NoDup_filter; eauto.
  - intros c' x; rewrite ok_connection_links0; symmetry; by eapply insert_same_connection.
Qed.

(** The sessions of a channel forget it. *)
Definition forget (l : list nat) (m : gmap nat (option nat)) : gmap nat (option nat) :=
  map_imap (fun h p => Some (if decide (h ∈ l) then None else p)) m.

Lemma lookup_forget l m h :
  forget l m !! h = (fun p => if decide (h ∈ l) then None else p) <$> m !! h.
Proof. unfold forget; rewrite map_lookup_imap; by destruct (m !! h). Qed.

Lemma ok_forget k n a c l :
  skel_ok k n -> k_ch k !! a = Some (c, l) ->
  skel_ok (k_set_ch (k_set_se k (forget l (k_se k))) (<[a := (c, [])]> (k_ch k))) n.
Proof.
  intros [] Ha; constructor; cbn; try done.
  - intros x; rewrite <- ok_ch_dom0; by eapply insert_existing.
  - intros x; rewrite <- ok_se_dom0, lookup_forget; by rewrite fmap_is_Some.
  - intros x; rewrite insert_existing by done; auto.
  - intros x; rewrite lookup_forget, fmap_is_Some; auto.
  - intros h' x; rewrite lookup_forget, fmap_Some; setoid_rewrite lookup_insert_Some.
    split.
    + intros (p & Hp & Heq); destruct (decide (h' ∈ l)) as [|Hn]; [done|]; subst p.
      apply ok_session_links0 in Hp as (c' & l' & H1 & H2).
      exists c', l'; split; [|done]; right; split; [|done]; intros <-; congruence.
    + intros (c' & l' & [[<- [= <- <-]]|[Hne H1]] & H2); [set_solver|].
      assert (k_se k !! h' = Some (Some x)) as Hp by (apply ok_session_links0; eauto).
      exists (Some x); split; [done|]; rewrite decide_False; [done|]; intros Hin.
      assert (k_se k !! h' = Some (Some a)) by (apply ok_session_links0; eauto); congruence.
  - intros x c' l'; rewrite lookup_insert_Some; intros [[<- [= <- <-]]|[_ H]]; [constructor|eauto].
  - intros c' x; rewrite ok_connection_links0; symmetry; by eapply insert_same_connection.
Qed.

(** A channel that is cleaned up, with connection [c] and sessions [l]. *)
Definition cleanup_skel (k : Skel) (a : nat) (c : option nat) (l : list nat) : Skel :=
  let k := match c with Some c => k_set_co k (<[c := None]> (k_co k)) | None => k end in
  k_set_ch (k_set_se k (forget l (k_se k))) (<[a := (None, [])]> (k_ch k)).

Lemma ok_cleanup k n a c l :
  skel_ok k n -> k_ch k !! a = Some (c, l) -> skel_ok (cleanup_skel k a c l) n.
Proof.
  intros Hk Ha; unfold cleanup_skel; destruct c as [c|]; [|by eapply (ok_forget _ _ _ None)].
  assert (k_co k !! c = Some (Some a)) as Hc by (eapply ok_connection_links; eauto).
  pose proof (ok_detach_connection _ _ _ _ _ Hk Hc Ha) as H1.
  eapply (ok_forget _ _ a None l) in H1; [|cbn; by rewrite lookup_insert_eq].
  cbn in H1; rewrite insert_insert_eq in H1; exact H1.
Qed.

(** ** Lists and allocation *)

Lemma ok_remove_channel k n a m :
  skel_ok k n -> a ∈ k_channels k ->
  skel_ok (k_set_channels (k_set_delayed k (removeSecureChannelCallback a :: k_delayed k))
             (without a (k_channels k)) m) n.
Proof.
  intros Hk Ha; pose proof Hk as []; constructor; cbn; try done.
  - by apply NoDup_filter.
  - constructor; auto.
  - intros x; rewrite ok_ch_dom0, elem_of_without, elem_of_cons.
    destruct (decide (x = a)) as [->|Hx]; naive_solver.
  - intros x [Hx Hin]%elem_of_without [[= ->]|Hd]%elem_of_cons; [done|by eapply ok_ch_disj].
  - intros h; rewrite ok_se_dom0, elem_of_cons; naive_solver.
  - intros h Hh [[=]|Hd]%elem_of_cons; by eapply ok_se_disj.
Qed.

Lemma ok_remove_session k n h m :
  skel_ok k n -> h ∈ k_sessions k ->
  skel_ok (k_set_sessions (k_set_delayed k (removeSessionCallback h :: k_delayed k))
             (without h (k_sessions k)) m) n.
Proof.
  intros Hk Ha; pose proof Hk as []; constructor; cbn; try done.
  - by apply NoDup_filter.
  - constructor; auto.
  - intros a; rewrite ok_ch_dom0, elem_of_cons; naive_solver.
  - intros a Hh [[=]|Hd]%elem_of_cons; by eapply ok_ch_disj.
  - intros x; rewrite ok_se_dom0, elem_of_without, elem_of_cons.
    destruct (decide (x = h)) as [->|Hx]; naive_solver.
  - intros x [Hx Hin]%elem_of_without [[= ->]|Hd]%elem_of_cons; [done|by eapply ok_se_disj].
Qed.

(** An address that was handed out by [malloc] is in no list. *)
Lemma fresh_not_channel k n a : skel_ok k n -> (n <= a)%nat ->
  k_ch k !! a = None /\ (a ∉ k_channels k) /\ (removeSecureChannelCallback a ∉ k_delayed k).
Proof.
  intros Hk Hn; assert (k_ch k !! a = None) as Ha.
  { apply eq_None_not_Some; intros Hs%(ok_ch_fresh _ _ Hk); lia. }
  split; [done|]; split; intros Hin;
    (assert (is_Some (k_ch k !! a)) as [? ?] by (apply (ok_ch_dom _ _ Hk); auto)); congruence.
Qed.

Lemma fresh_not_session k n h : skel_ok k n -> (n <= h)%nat ->
  k_se k !! h = None /\ (h ∉ k_sessions k) /\ (removeSessionCallback h ∉ k_delayed k).
Proof.
  intros Hk Hn; assert (k_se k !! h = None) as Ha.
  { apply eq_None_not_Some; intros Hs%(ok_se_fresh _ _ Hk); lia. }
  split; [done|]; split; intros Hin;
    (assert (is_Some (k_se k !! h)) as [? ?] by (apply (ok_se_dom _ _ Hk); auto)); congruence.
Qed.

Lemma insert_is_Some_or {A} (m : gmap nat A) a p x :
  is_Some (<[a := p]> m !! x) <-> x = a \/ is_Some (m !! x).
Proof.
  destruct (decide (a = x)) as [<-|Hne].
  - rewrite lookup_insert_eq; split; [by left|by eexists].
  - rewrite lookup_insert_ne by done; naive_solver.
Qed.

Lemma ok_new_channel k n n' a m :
  skel_ok k n -> (n <= a < n')%nat ->
  skel_ok (k_set_channels (k_set_ch k (<[a := (None, [])]> (k_ch k))) (a :: k_channels k) m) n'.
Proof.
  intros Hk Ha; destruct (fresh_not_channel _ _ a Hk) as (Hm & Hl & Hd); [lia|].
  apply (skel_ok_mono _ _ n') in Hk; [|lia]; destruct Hk; constructor; cbn; try done.
  - by constructor.
  - intros x; rewrite insert_is_Some_or, ok_ch_dom0, elem_of_cons; naive_solver.
  - intros x [->|Hx]%elem_of_cons; auto.
  - intros x [->|Hx]%insert_is_Some_or; [lia|auto].
  - intros h x; rewrite ok_session_links0; split; intros (c & l & H1 & H2).
    + exists c, l; split; [|done]; rewrite lookup_insert_ne; [done|]; intros <-; congruence.
    + apply lookup_insert_Some in H1 as [[<- [= <- <-]]|[_ H1]]; [set_solver|by exists c, l].
  - intros x c l; rewrite lookup_insert_Some; intros [[<- [= <- <-]]|[_ H]]; [constructor|eauto].
  - intros c x; rewrite ok_connection_links0; split; intros [l H1].
    + exists l; rewrite lookup_insert_ne; [done|]; intros <-; congruence.
    + apply lookup_insert_Some in H1 as [[<- [=]]|[_ H1]]; by exists l.
Qed.

Lemma ok_new_session k n n' h m :
  skel_ok k n -> (n <= h < n')%nat ->
  skel_ok (k_set_sessions (k_set_se k (<[h := None]> (k_se k))) (h :: k_sessions k) m) n'.
Proof.
  intros Hk Ha; destruct (fresh_not_session _ _ h Hk) as (Hm & Hl & Hd); [lia|].
  apply (skel_ok_mono _ _ n') in Hk; [|lia]; destruct Hk; constructor; cbn; try done.
  - by constructor.
  - intros x; rewrite insert_is_Some_or, ok_se_dom0, elem_of_cons; naive_solver.
  - intros x [->|Hx]%elem_of_cons; auto.
  - intros x [->|Hx]%insert_is_Some_or; [lia|auto].
  - intros x a; rewrite <- ok_session_links0, lookup_insert_Some; split.
    + intros [[_ [=]]|[_ H]]; done.
    + intros H; right; split; [|done]; intros <-; congruence.
Qed.

Lemma ok_new_connection k n n' c :
  skel_ok k n -> (n <= c < n')%nat ->
  skel_ok (k_set_co k (<[c := None]> (k_co k))) n'.
Proof.
  intros Hk Hc; assert (k_co k !! c = None) as Hm.
  { apply eq_None_not_Some; intros Hs%(ok_co_fresh _ _ Hk); lia. }
  apply (skel_ok_mono _ _ n') in Hk; [|lia]; destruct Hk; constructor; cbn; try done.
  - intros x [->|Hx]%insert_is_Some_or; [lia|auto].
  - intros x a; rewrite <- ok_connection_links0, lookup_insert_Some; split.
    + intros [[_ [=]]|[_ H]]; done.
    + intros H; right; split; [|done]; intros <-; congruence.
Qed.

(** ** Release *)

Lemma delete_is_Some_and {A} (m : gmap nat A) a x :
  is_Some (delete a m !! x) <-> x <> a /\ is_Some (m !! x).
Proof. unfold is_Some; setoid_rewrite lookup_delete_Some; naive_solver. Qed.

(** A channel without pointers that is in no list any more. *)
Lemma ok_free_channel k n a l d m :
  skel_ok k n -> k_ch k !! a = Some (None, []) -> NoDup l -> NoDup d ->
  (forall x, x ∈ l <-> (x ∈ k_channels k) /\ x <> a) ->
  (forall x, x ∈ d <-> (x ∈ k_delayed k) /\ x <> removeSecureChannelCallback a) ->
  skel_ok (k_set_ch (k_set_delayed (k_set_channels k l m) d) (delete a (k_ch k))) n.
Proof.
  intros Hk Ha Hl Hd Hll Hdd; destruct Hk; constructor; cbn; try done.
  - intros x; rewrite delete_is_Some_and, ok_ch_dom0, Hll, Hdd; naive_solver.
  - intros x; rewrite Hll, Hdd; naive_solver.
  - intros h; rewrite ok_se_dom0, Hdd; naive_solver.
  - intros h Hh; rewrite Hdd; naive_solver.
  - intros x [_ Hx]%delete_is_Some_and; auto.
  - intros h x; rewrite ok_session_links0; setoid_rewrite lookup_delete_Some.
    split; intros (c' & l' & H1 & H2); exists c', l'; [|naive_solver].
    split; [|done]; split; [|done]; intros <-; rewrite Ha in H1; simplify_eq; set_solver.
  - intros x c' l' [_ H]%lookup_delete_Some; eauto.
  - intros c x; rewrite ok_connection_links0; setoid_rewrite lookup_delete_Some.
    split; intros [l' H1]; exists l'; [|naive_solver].
    split; [|done]; intros <-; congruence.
Qed.

Lemma ok_free_session k n h l d m :
  skel_ok k n -> k_se k !! h = Some None -> NoDup l -> NoDup d ->
  (forall x, x ∈ l <-> (x ∈ k_sessions k) /\ x <> h) ->
  (forall x, x ∈ d <-> (x ∈ k_delayed k) /\ x <> removeSessionCallback h) ->
  skel_ok (k_set_se (k_set_delayed (k_set_sessions k l m) d) (delete h (k_se k))) n.
Proof.
  intros Hk Ha Hl Hd Hll Hdd; destruct Hk; constructor; cbn; try done.
  - intros a; rewrite ok_ch_dom0, Hdd; naive_solver.
  - intros a Hin; rewrite Hdd; naive_solver.
  - intros x; rewrite delete_is_Some_and, ok_se_dom0, Hll, Hdd; naive_solver.
  - intros x; rewrite Hll, Hdd; naive_solver.
  - intros x [_ Hx]%delete_is_Some_and; auto.
  - intros x a; rewrite <- ok_session_links0, lookup_delete_Some.
    split; [naive_solver|]; intros H; split; [intros <-; congruence|done].
Qed.

Lemma ok_free_connection k n c :
  skel_ok k n -> k_co k !! c = Some None -> skel_ok (k_set_co k (delete c (k_co k))) n.
Proof.
  intros Hk Hc; destruct Hk; constructor; cbn; try done.
  - intros x [_ Hx]%delete_is_Some_and; auto.
  - intros x a; rewrite <- ok_connection_links0, lookup_delete_Some.
    split; [by intros [_ H]|]; intros H; split; [intros <-; congruence|done].
Qed.
End Invariant.

(** ** The operations that change pointers

    What attaching, detaching and releasing do to the skeleton of the state,
    exactly. *)

Section Pointers.
Context {E : ServerEnv}.

(** ** Connections *)

Lemma wp_detachSecureChannel_none c (Q : unit -> UA_Server -> Prop) s :
  k_co (skel s) !! c = Some None ->
  (forall s', skel s' = skel s -> used s' = used s -> Q tt s') -> wp (detachSecureChannel c) Q s.
Proof.
  intros Hc HQ; unfold detachSecureChannel.
  eapply wp_bind, wp_deref_connection; [done|]; intros x Hx Hp; rewrite Hp.
  apply wp_bind, wp_ret; eapply wp_bind, wp_deref_connection; [done|]; intros y _ Hy.
  eapply wp_write_connection; [done|]; intros s' Hk Hu; apply HQ; [|done].
  rewrite Hk; by apply k_set_co_id.
Qed.

Lemma wp_detachSecureChannel_some c a l (Q : unit -> UA_Server -> Prop) s :
  k_co (skel s) !! c = Some (Some a) -> k_ch (skel s) !! a = Some (Some c, l) ->
  (forall s', skel s' = k_set_co (k_set_ch (skel s) (<[a := (None, l)]> (k_ch (skel s))))
                          (<[c := None]> (k_co (skel s))) ->
     used s' = used s -> Q tt s') ->
  wp (detachSecureChannel c) Q s.
Proof.
  intros Hc Ha HQ; unfold detachSecureChannel.
  eapply wp_bind, wp_deref_connection; [done|]; intros x Hx Hp; rewrite Hp.
  eapply wp_bind, wp_bind, wp_deref_channel; [done|]; intros e _ [= He Hl].
  rewrite decide_True by done.
  eapply wp_write_channel; [done|]; intros s1 Hk1 Hu1.
  assert (k_co (skel s1) !! c = Some (Some a)) as Hc1 by (by rewrite Hk1).
  eapply wp_bind, wp_deref_connection; [done|]; intros y _ Hy.
  eapply wp_write_connection; [done|]; intros s' Hk Hu; apply HQ; [|congruence].
  rewrite Hk, Hk1; unfold ch_links; cbn; by rewrite Hl.
Qed.

Lemma wp_attachSecureChannel c a l (Q : unit -> UA_Server -> Prop) s :
  k_co (skel s) !! c = Some None -> k_ch (skel s) !! a = Some (None, l) ->
  (forall s', skel s' = k_set_co (k_set_ch (skel s) (<[a := (Some c, l)]> (k_ch (skel s))))
                          (<[c := Some a]> (k_co (skel s))) ->
     used s' = used s -> Q tt s') ->
  wp (attachSecureChannel c a) Q s.
Proof.
  intros Hc Ha HQ; unfold attachSecureChannel.
  eapply wp_bind, wp_deref_channel; [done|]; intros e _ [= He Hl]; rewrite He.
  eapply wp_bind, wp_write_channel; [done|]; intros s1 Hk1 Hu1.
  assert (k_co (skel s1) !! c = Some None) as Hc1 by (by rewrite Hk1).
  eapply wp_bind, wp_deref_connection; [done|]; intros y _ Hy.
  eapply wp_write_connection; [done|]; intros s' Hk Hu; apply HQ; [|congruence].
  rewrite Hk, Hk1; unfold ch_links; cbn; by rewrite Hl.
Qed.

(** ** Sessions *)

Lemma wp_update_session h f p (Q : unit -> UA_Server -> Prop) s :
  k_se (skel s) !! h = Some p ->
  (forall x s', s_channel x = p ->
     skel s' = k_set_se (skel s) (<[h := s_channel (f x)]> (k_se (skel s))) ->
     used s' = used s -> Q tt s') ->
  wp (update_session h f) Q s.
Proof.
  intros Hh HQ; eapply wp_bind, wp_deref_session; [done|]; intros x _ Hx.
  eapply wp_write_session; [done|]; intros s' Hk Hu; by eapply HQ.
Qed.

Lemma wp_attachSession h a c l (Q : unit -> UA_Server -> Prop) s :
  k_se (skel s) !! h = Some None -> k_ch (skel s) !! a = Some (c, l) ->
  (forall s', skel s' = k_set_se (k_set_ch (skel s) (<[a := (c, h :: l)]> (k_ch (skel s))))
                          (<[h := Some a]> (k_se (skel s))) ->
     used s' = used s -> Q tt s') ->
  wp (UA_Session_attachToSecureChannel h a) Q s.
Proof.
  intros Hh Ha HQ; unfold UA_Session_attachToSecureChannel.
  eapply wp_bind, wp_deref_channel; [done|]; intros e _ [= He Hl].
  eapply wp_bind, wp_write_channel; [done|]; intros s1 Hk1 Hu1.
  eapply wp_update_session; [by rewrite Hk1|]; intros x s' _ Hk Hu; apply HQ; [|congruence].
  rewrite Hk, Hk1; unfold ch_links; cbn; by rewrite He, Hl.
Qed.

Lemma wp_detachSession_none h (Q : unit -> UA_Server -> Prop) s :
  k_se (skel s) !! h = Some None -> Q tt s ->
  wp (UA_Session_detachFromSecureChannel h) Q s.
Proof.
  intros Hh HQ; eapply wp_bind, wp_deref_session; [done|]; intros x _ Hx; by rewrite Hx.
Qed.

Lemma wp_detachSession_some h a c l (Q : unit -> UA_Server -> Prop) s :
  k_se (skel s) !! h = Some (Some a) -> k_ch (skel s) !! a = Some (c, l) -> h ∈ l ->
  (forall s', skel s' = k_set_ch (k_set_se (skel s) (<[h := None]> (k_se (skel s))))
                          (<[a := (c, without h l)]> (k_ch (skel s))) ->
     used s' = used s -> Q tt s') ->
  wp (UA_Session_detachFromSecureChannel h) Q s.
Proof.
  intros Hh Ha Hin HQ; eapply wp_bind, wp_deref_session; [done|]; intros x _ Hx; rewrite Hx.
  eapply wp_bind, wp_write_session; [done|]; intros s1 Hk1 Hu1.
  assert (k_ch (skel s1) !! a = Some (c, l)) as Ha1 by (by rewrite Hk1).
  eapply wp_bind, wp_deref_channel; [done|]; intros e _ [= He Hl].
  rewrite Hl; apply wp_bind, wp_list_remove; [done|].
  eapply wp_write_channel; [done|]; intros s' Hk Hu; apply HQ; [|congruence].
  rewrite Hk, Hk1; unfold ch_links; cbn; by rewrite He.
Qed.

(** ** Release of a channel *)

Lemma wp_forget_channel l (Q : unit -> UA_Server -> Prop) s :
  (forall h, h ∈ l -> is_Some (k_se (skel s) !! h)) ->
  (forall s', skel s' = k_set_se (skel s) (forget l (k_se (skel s))) -> used s' = used s -> Q tt s') ->
  wp (forget_channel l) Q s.
Proof.
  revert s; induction l as [|h l IH]; intros s Hl HQ; cbn [forget_channel].
  - apply wp_ret, HQ; [|done].
    assert (forget [] (k_se (skel s)) = k_se (skel s)) as ->.
    { apply map_eq; intros x; rewrite lookup_forget; by destruct (k_se (skel s) !! x). }
    by destruct (skel s).
  - destruct (Hl h) as [p Hp]; [set_solver|].
    eapply wp_bind, wp_deref_session; [done|]; intros x _ Hx.
    eapply wp_bind, wp_write_session; [done|]; intros s1 Hk1 Hu1; apply IH.
    + intros y Hy; rewrite Hk1; cbn; eapply insert_existing; [done|]; apply Hl; set_solver.
    + intros s' Hk Hu; apply HQ; [|congruence].
      rewrite Hk, Hk1; unfold k_set_se; cbn [s_channel set_s_channel k_se]; f_equal.
      apply map_eq; intros y; rewrite !lookup_forget.
      destruct (decide (h = y)) as [<-|Hne].
      * rewrite lookup_insert_eq, Hp; cbn; rewrite (decide_True _ _ (P := h ∈ h :: l)) by set_solver.
        by destruct (decide _).
      * rewrite lookup_insert_ne by done; destruct (k_se (skel s) !! y); cbn; [|done].
        destruct (decide (y ∈ l)), (decide (y ∈ h :: l)); set_solver.
Qed.

(** The pointer to the connection, which is closed first. *)
Lemma wp_release_connection a c l (Q : unit -> UA_Server -> Prop) s :
  k_ch (skel s) !! a = Some (c, l) ->
  (forall c', c = Some c' -> k_co (skel s) !! c' = Some (Some a)) ->
  (forall s', skel s' = k_set_ch (match c with
                                  | Some c => k_set_co (skel s) (<[c := None]> (k_co (skel s)))
                                  | None => skel s
                                  end) (<[a := (None, l)]> (k_ch (skel s))) ->
     (used s <= used s')%nat -> Q tt s') ->
  wp (match c with
      | Some c =>
          conn ← deref_connection c;
          _ ← (if bool_decide (conn_state conn = UA_CONNECTION_CLOSED) then mret tt
               else connection_close c);
          detachSecureChannel c
      | None => mret tt
      end) Q s.
Proof.
  intros Ha Hc HQ; destruct c as [c|].
  - specialize (Hc c eq_refl).
    assert (forall s1, same s s1 -> wp (detachSecureChannel c) Q s1) as Hd.
    { intros s1 [Hk1 Hu1]; eapply wp_detachSecureChannel_some; [by rewrite Hk1..|].
      intros s' Hk Hu; apply HQ; [|lia]; by rewrite Hk, Hk1. }
    eapply wp_bind, wp_deref_connection; [done|]; intros x _ Hx; apply wp_bind.
    destruct (bool_decide _); [by apply wp_ret, Hd|].
    eapply same_wp_connection_close; [reflexivity|done|]; intros; by apply Hd.
  - apply wp_ret, HQ; [|done]; by rewrite k_set_ch_id.
Qed.

Lemma wp_deleteMembersCleanup a c l (Q : unit -> UA_Server -> Prop) s :
  k_ch (skel s) !! a = Some (c, l) ->
  (forall c', c = Some c' -> k_co (skel s) !! c' = Some (Some a)) ->
  (forall h, h ∈ l -> is_Some (k_se (skel s) !! h)) ->
  (forall s', skel s' = cleanup_skel (skel s) a c l -> (used s <= used s')%nat -> Q tt s') ->
  wp (UA_SecureChannel_deleteMembersCleanup a) Q s.
Proof.
  intros Ha Hc Hl HQ; unfold UA_SecureChannel_deleteMembersCleanup.
  eapply wp_bind, same_wp_update_channel; [reflexivity|done|]; intros s1 [Hk1 Hu1].
  eapply wp_bind, wp_deref_channel; [by rewrite Hk1|]; intros e _ [= He He']; rewrite He.
  apply wp_bind, (wp_release_connection a c l); rewrite ?Hk1; [done..|]; intros s2 Hk2 Hu2.
  assert (k_ch (skel s2) !! a = Some (None, l)) as Ha2.
  { rewrite Hk2; cbn; by rewrite lookup_insert_eq. }
  eapply wp_bind, wp_deref_channel; [done|]; intros e2 _ [= He2 Hl2]; rewrite Hl2.
  apply wp_bind, wp_forget_channel.
  { intros h Hh; rewrite Hk2; cbn; destruct c; cbn; auto. }
  intros s3 Hk3 Hu3; eapply wp_write_channel; [by rewrite Hk3|].
  intros s' Hk Hu; apply HQ; [|lia].
  rewrite Hk, Hk3, Hk2; unfold ch_links, cleanup_skel; cbn; rewrite He2, insert_insert_eq.
  by destruct c.
Qed.
End Pointers.
