(* ===== verification/ServerSafe.v ===== *)
(** * Memory safety of the server

    Every operation on the server's objects is defined in a state with the
    invariant of [ServerInvariant.v] and keeps it: no dangling pointer is
    followed, nothing is freed twice, nothing is lost. *)

From Stdlib Require Import ZArith Lia.
From stdpp Require Import base list numbers tactics sets gmap.
From S2P Require Import Prelude StateMonad UaTypes UaValue BinaryDecode FieldCodec Connection SecureChannel SecureChannelFrame ServerState SecureChannelManager SessionManager ServerBinary ServerLogic ServerInvariant.

Section Safe.
Context {E : ServerEnv}.

(** ** What operations leave in place *)

(** No object is freed. *)
Definition grows (s s' : UA_Server) : Prop :=
  (forall a, is_Some (k_ch (skel s) !! a) -> is_Some (k_ch (skel s') !! a)) /\
  (forall h, is_Some (k_se (skel s) !! h) -> is_Some (k_se (skel s') !! h)) /\
  (forall c, is_Some (k_co (skel s) !! c) -> is_Some (k_co (skel s') !! c)).

#[export] Instance grows_preorder : PreOrder grows.
Proof. unfold grows; split; [done|]; intros x y z; naive_solver. Qed.

(** The lists and counters are the same. *)
Definition lists_same (s s' : UA_Server) : Prop :=
  k_channels (skel s') = k_channels (skel s) /\
  k_channelCount (skel s') = k_channelCount (skel s) /\
  k_sessions (skel s') = k_sessions (skel s) /\
  k_sessionCount (skel s') = k_sessionCount (skel s) /\
  k_delayed (skel s') = k_delayed (skel s).

#[export] Instance lists_same_preorder : PreOrder lists_same.
Proof. unfold lists_same; split; [done|]; intros x y z; naive_solver congruence. Qed.

Lemma same_grows s s' : same s s' -> grows s s'.
Proof. intros [Hk _]; unfold grows; by rewrite Hk. Qed.

Lemma same_lists s s' : same s s' -> lists_same s s'.
Proof. intros [Hk _]; unfold lists_same; by rewrite Hk. Qed.

Lemma counts_lists_same s s' : lists_same s s' -> counts_ok (skel s) -> counts_ok (skel s').
Proof. unfold counts_ok; intros (-> & -> & -> & -> & _); done. Qed.

(** Facts of the invariant. *)
Lemma ok_session_channel s h p :
  server_ok s -> k_se (skel s) !! h = Some p -> channel_exists (skel s) p.
Proof.
  intros [Hk _] Hh a ->; apply (ok_session_links _ _ Hk) in Hh as (c & l & H & _); by eexists.
Qed.

Lemma ok_channel_sessions s a c l h :
  server_ok s -> k_ch (skel s) !! a = Some (c, l) -> h ∈ l -> k_se (skel s) !! h = Some (Some a).
Proof. intros [Hk _] Ha Hin; apply (ok_session_links _ _ Hk); by exists c, l. Qed.

Lemma ok_listed_channel s a : server_ok s -> a ∈ k_channels (skel s) -> is_Some (k_ch (skel s) !! a).
Proof. intros [Hk _] Ha; apply (ok_ch_dom _ _ Hk); by left. Qed.

Lemma ok_listed_session s h : server_ok s -> h ∈ k_sessions (skel s) -> is_Some (k_se (skel s) !! h).
Proof. intros [Hk _] Ha; apply (ok_se_dom _ _ Hk); by left. Qed.

(** ** Sessions and channels *)

Lemma safe_attachSession s h a (Q : unit -> UA_Server -> Prop) :
  server_ok s -> k_se (skel s) !! h = Some None -> is_Some (k_ch (skel s) !! a) ->
  (forall s', server_ok s' -> grows s s' -> lists_same s s' -> Q tt s') ->
  wp (UA_Session_attachToSecureChannel h a) Q s.
Proof.
  intros [Hk Hc] Hh [[c l] Ha] HQ; eapply wp_attachSession; [done..|]; intros s' Hk' Hu.
  assert (lists_same s s') as Hls by (unfold lists_same; by rewrite Hk').
  apply HQ; [split| |done].
  - rewrite Hk'; apply ok_attach_session; [by rewrite Hu|done..].
  - by eapply counts_lists_same.
  - unfold grows; rewrite Hk'; cbn; split; [|split; [|done]];
      intros x Hx; by eapply insert_existing.
Qed.

Lemma safe_detachSession s h (Q : unit -> UA_Server -> Prop) :
  server_ok s -> is_Some (k_se (skel s) !! h) ->
  (forall s', server_ok s' -> grows s s' -> lists_same s s' -> k_se (skel s') !! h = Some None ->
     Q tt s') ->
  wp (UA_Session_detachFromSecureChannel h) Q s.
Proof.
  intros Hok [p Hh] HQ; pose proof Hok as [Hk Hc]; destruct p as [a|].
  - pose proof (proj1 (ok_session_links _ _ Hk h a) Hh) as (c & l & Ha & Hin).
    eapply wp_detachSession_some; [done..|]; intros s' Hk' Hu.
    assert (lists_same s s') as Hls by (unfold lists_same; by rewrite Hk').
    apply HQ; [split| |done|].
    + rewrite Hk'; apply ok_detach_session; [by rewrite Hu|done..].
    + by eapply counts_lists_same.
    + unfold grows; rewrite Hk'; cbn; split; [|split; [|done]];
        intros x Hx; by eapply insert_existing.
    + rewrite Hk'; cbn; by rewrite lookup_insert_eq.
  - eapply wp_detachSession_none; [done|]; by apply HQ.
Qed.

Lemma safe_generateNonce s h (Q : status -> UA_Server -> Prop) :
  server_ok s -> is_Some (k_se (skel s) !! h) ->
  (forall r s', same s s' -> Q r s') -> wp (UA_Session_generateNonce h) Q s.
Proof.
  intros Hok [p Hh] HQ; eapply same_wp_generateNonce; [reflexivity|done| |done].
  by eapply ok_session_channel.
Qed.

(** ** Delayed removal *)

Lemma wp_delayedCallback d (Q : status -> UA_Server -> Prop) s :
  (forall r s', bad r = true -> same s s' -> Q r s') ->
  (forall s', skel s' = k_set_delayed (skel s) (d :: k_delayed (skel s)) ->
     (used s <= used s')%nat -> Q GOOD s') ->
  wp (UA_Server_delayedCallback d) Q s.
Proof.
  intros Hbad Hgood; unfold UA_Server_delayedCallback.
  eapply wp_bind, same_wp_malloc; [reflexivity|]; intros [p|] s1 [Hk1 Hu1].
  - apply wp_bind, wp_modify, wp_ret, Hgood; [|done].
    unfold skel in *; injection Hk1; intros; unfold k_set_delayed; cbn; congruence.
  - by apply wp_ret, Hbad.
Qed.

(** A channel is taken out of its list, unless memory is short. *)
Lemma wp_removeSecureChannel s a (Q : status -> UA_Server -> Prop) :
  server_ok s -> a ∈ k_channels (skel s) ->
  (forall r s', bad r = true -> same s s' -> Q r s') ->
  (forall s', server_ok s' ->
     skel s' = k_set_channels
                 (k_set_delayed (skel s) (removeSecureChannelCallback a :: k_delayed (skel s)))
                 (without a (k_channels (skel s))) (u32 (k_channelCount (skel s) - 1)) ->
     Q GOOD s') ->
  wp (removeSecureChannel a) Q s.
Proof.
  intros [Hk [Hc [Hs Hm]]] Ha Hbad Hgood; unfold removeSecureChannel.
  apply wp_bind, wp_delayedCallback.
  - intros r s1 Hr Hsame; rewrite Hr; by apply wp_ret, Hbad.
  - intros s1 Hk1 Hu1; rewrite bad_good; apply wp_bind, wp_gets.
    assert (channels (secureChannelManager s1) = k_channels (skel s)) as Hl.
    { change (k_channels (skel s1) = k_channels (skel s)); by rewrite Hk1. }
    assert (currentChannelCount (secureChannelManager s1) = k_channelCount (skel s)) as Hn.
    { change (k_channelCount (skel s1) = k_channelCount (skel s)); by rewrite Hk1. }
    apply wp_bind, wp_list_remove; [by rewrite Hl|].
    apply wp_bind, wp_modify, wp_ret.
    match goal with |- Q _ ?s' => set (s2 := s') end.
    assert (skel s2 = k_set_channels (skel s1) (without a (k_channels (skel s)))
                        (u32 (k_channelCount (skel s) - 1))) as Hk2.
    { subst s2; unfold skel at 1, k_set_channels; cbn [secureChannelManager with_cm channels
        currentChannelCount]; by rewrite Hl, Hn. }
    rewrite Hk1 in Hk2; apply Hgood; [split|done].
    + rewrite Hk2; eapply skel_ok_mono; [by apply ok_remove_channel|]; exact Hu1.
    + rewrite Hk2; split; [cbn [k_channelCount k_channels k_set_channels]|done]; rewrite Hc, u32_pred, zlen_without; [done| |done].
      apply (ok_channels _ _ Hk).
Qed.

Lemma wp_removeSession s h (Q : status -> UA_Server -> Prop) :
  server_ok s -> h ∈ k_sessions (skel s) ->
  (forall r s', server_ok s' -> grows s s' ->
     k_sessions (skel s') = (if bad r then k_sessions (skel s) else without h (k_sessions (skel s))) ->
     k_channels (skel s') = k_channels (skel s) -> Q r s') ->
  wp (removeSession h) Q s.
Proof.
  intros Hok Hh HQ; unfold removeSession.
  apply wp_bind, safe_detachSession; [done|by apply ok_listed_session|].
  intros s1 Hok1 Hg1 (Hl1 & _ & Hl2 & _ & _) Hh1.
  eapply wp_bind, same_wp_update_session; [reflexivity|done|done|]; intros s2 Hs2.
  pose proof (server_ok_same _ _ Hs2 Hok1) as [Hk2 [Hc2 [Hn2 Hm2]]].
  assert (grows s s2) as Hg2 by (etransitivity; [done|by apply same_grows]).
  destruct Hs2 as [Hsk2 Hu2].
  apply wp_bind, wp_delayedCallback.
  - intros r s3 Hr Hs3; rewrite Hr; apply wp_ret, HQ.
    + eapply server_ok_same; [done|by split].
    + etransitivity; [done|by apply same_grows].
    + rewrite Hr; destruct Hs3 as [-> _]; by rewrite Hsk2, Hl2.
    + destruct Hs3 as [-> _]; by rewrite Hsk2, Hl1.
  - intros s3 Hk3 Hu3; rewrite bad_good; apply wp_bind, wp_gets.
    assert (sm_sessions (sessionManager s3) = k_sessions (skel s2)) as Hl.
    { change (k_sessions (skel s3) = k_sessions (skel s2)); by rewrite Hk3. }
    assert (currentSessionCount (sessionManager s3) = k_sessionCount (skel s2)) as Hn.
    { change (k_sessionCount (skel s3) = k_sessionCount (skel s2)); by rewrite Hk3. }
    assert (k_sessions (skel s2) = k_sessions (skel s)) as Hls by (by rewrite Hsk2).
    apply wp_bind, wp_list_remove; [by rewrite Hl, Hls|].
    apply wp_bind, wp_modify, wp_ret.
    match goal with |- Q _ ?s' => set (s4 := s') end.
    assert (skel s4 = k_set_sessions (k_set_delayed (skel s2)
              (removeSessionCallback h :: k_delayed (skel s2)))
              (without h (k_sessions (skel s2))) (u32 (k_sessionCount (skel s2) - 1))) as Hk4.
    { rewrite <- Hk3; subst s4; unfold skel at 1, k_set_sessions; cbn; by rewrite Hl, Hn. }
    apply HQ; [split| | |].
    + rewrite Hk4; eapply skel_ok_mono; [apply ok_remove_session; [done|by rewrite Hls]|exact Hu3].
    + rewrite Hk4; split; [done|cbn [k_sessionCount k_sessions k_set_sessions]].
      assert (zlen (without h (k_sessions (skel s2))) = zlen (k_sessions (skel s2)) - 1) as Hz.
      { apply zlen_without; [apply (ok_sessions _ _ Hk2)|by rewrite Hls]. }
      rewrite Hn2, u32_pred, Hz; split; [done|lia].
    + etransitivity; [done|]; unfold grows; by rewrite Hk4.
    + rewrite Hk4, bad_good; cbn [k_sessions k_set_sessions]; by rewrite Hls.
    + rewrite Hk4; cbn [k_channels k_set_sessions k_set_delayed]; by rewrite Hsk2, Hl1.
Qed.

(** ** Timed out channels and sessions *)

Lemma k_removed_channel s a (s' : UA_Server) :
  skel s' = k_set_channels
              (k_set_delayed (skel s) (removeSecureChannelCallback a :: k_delayed (skel s)))
              (without a (k_channels (skel s))) (u32 (k_channelCount (skel s) - 1)) ->
  grows s s' /\ k_channels (skel s') = without a (k_channels (skel s)).
Proof. intros Hk; unfold grows; by rewrite Hk. Qed.

(** Elements of a list of channels that is worked off are still listed. *)
Lemma without_subset a l (l' : list nat) :
  NoDup (a :: l) -> a :: l ⊆ l' -> l ⊆ without a l'.
Proof. intros [Ha _]%NoDup_cons Hl x Hx; apply elem_of_without; set_solver. Qed.

Lemma safe_cleanup_channels t l s (Q : unit -> UA_Server -> Prop) :
  server_ok s -> NoDup l -> l ⊆ k_channels (skel s) ->
  (forall s', server_ok s' -> grows s s' -> Q tt s') -> wp (cleanup_channels t l) Q s.
Proof.
  revert s; induction l as [|a l IH]; intros s Hok Hnd Hl HQ; cbn [cleanup_channels].
  - by apply wp_ret, HQ.
  - assert (a ∈ k_channels (skel s)) as Ha by set_solver.
    destruct (ok_listed_channel _ _ Hok Ha) as [p Hp].
    assert (forall s1, same s s1 -> wp (cleanup_channels t l) Q s1) as Hsame.
    { intros s1 Hs1; apply IH; [by eapply server_ok_same|by inversion Hnd| |].
      - destruct Hs1 as [-> _]; set_solver.
      - intros s' Hok' Hg; apply HQ; [done|]; etransitivity; [by apply same_grows|done]. }
    eapply wp_bind, wp_deref_channel; [done|]; intros e _ _; apply wp_bind.
    destruct (channel_timed_out t e).
    + apply wp_removeSecureChannel; [done..| |].
      * intros r s1 _ Hs1; by apply Hsame.
      * intros s1 Hok1 [Hg1 Hl1]%k_removed_channel; apply IH; [done|by inversion Hnd| |].
        -- rewrite Hl1; by apply without_subset.
        -- intros s' Hok' Hg; apply HQ; [done|by etransitivity].
    + destruct (0 <? _); [|by apply wp_ret, Hsame].
      eapply same_wp_revolve; [reflexivity|done|]; intros r s1 Hs1; by apply Hsame.
Qed.

Lemma safe_cleanupTimedOut_channels t s (Q : unit -> UA_Server -> Prop) :
  server_ok s -> (forall s', server_ok s' -> grows s s' -> Q tt s') ->
  wp (UA_SecureChannelManager_cleanupTimedOut t) Q s.
Proof.
  intros Hok HQ; apply wp_bind, wp_gets, safe_cleanup_channels; [done| |done|done].
  apply (ok_channels _ _ (proj1 Hok)).
Qed.

Lemma safe_cleanup_sessions t l s (Q : unit -> UA_Server -> Prop) :
  server_ok s -> NoDup l -> l ⊆ k_sessions (skel s) ->
  (forall s', server_ok s' -> grows s s' -> Q tt s') -> wp (cleanup_sessions t l) Q s.
Proof.
  revert s; induction l as [|h l IH]; intros s Hok Hnd Hl HQ; cbn [cleanup_sessions].
  - by apply wp_ret, HQ.
  - assert (h ∈ k_sessions (skel s)) as Hh by set_solver.
    destruct (ok_listed_session _ _ Hok Hh) as [p Hp].
    eapply wp_bind, wp_deref_session; [done|]; intros x _ _; apply wp_bind.
    destruct (t <=? validTill x).
    { apply wp_ret, IH; [done|by inversion Hnd|set_solver|done]. }
    eapply wp_bind, same_wp_closeSession_call; [reflexivity|]; intros s1 Hs1.
    pose proof (server_ok_same _ _ Hs1 Hok) as Hok1; destruct (Hs1) as [Hk1 _].
    apply wp_bind, wp_removeSession; [done|by rewrite Hk1|].
    intros r s2 Hok2 Hg2 Hl2 _; apply wp_ret, IH; [done|by inversion Hnd| |].
    + rewrite Hl2, Hk1; destruct (bad r); [set_solver|by apply without_subset].
    + intros s' Hok' Hg'; apply HQ; [done|].
      etransitivity; [by apply same_grows|]; by etransitivity.
Qed.

Lemma safe_cleanupTimedOut_sessions t s (Q : unit -> UA_Server -> Prop) :
  server_ok s -> (forall s', server_ok s' -> grows s s' -> Q tt s') ->
  wp (UA_SessionManager_cleanupTimedOut t) Q s.
Proof.
  intros Hok HQ; apply wp_bind, wp_gets, safe_cleanup_sessions; [done| |done|done].
  apply (ok_sessions _ _ (proj1 Hok)).
Qed.

(** ** Creating and closing channels *)

Lemma safe_purge_channels l s (Q : bool -> UA_Server -> Prop) :
  server_ok s -> l ⊆ k_channels (skel s) ->
  (forall b s', server_ok s' -> grows s s' -> k_co (skel s') = k_co (skel s) -> Q b s') ->
  wp (purge_channels l) Q s.
Proof.
  intros Hok; revert Q; induction l as [|a l IH]; intros Q Hl HQ; cbn [purge_channels].
  - by apply wp_ret, HQ.
  - assert (a ∈ k_channels (skel s)) as Ha by set_solver.
    destruct (ok_listed_channel _ _ Hok Ha) as [p Hp].
    eapply wp_bind, wp_deref_channel; [done|]; intros e _ _.
    destruct (e_sessions e); [|apply IH; [set_solver|done]].
    apply wp_bind, wp_removeSecureChannel; [done..| |].
    + intros r s1 _ Hs1; apply wp_ret, HQ; [by eapply server_ok_same|by apply same_grows|].
      by destruct Hs1 as [-> _].
    + intros s1 Hok1 Hk1; apply wp_ret, HQ; [done|by apply k_removed_channel in Hk1 as [? _]|].
      by rewrite Hk1.
Qed.

Lemma safe_create s c ep cert (Q : status -> UA_Server -> Prop) :
  server_ok s -> is_Some (k_co (skel s) !! c) ->
  (forall r s', server_ok s' -> grows s s' ->
     (bad r = false -> exists a, k_co (skel s') !! c = Some (Some a)) -> Q r s') ->
  wp (UA_SecureChannelManager_create c ep cert) Q s.
Proof.
  intros Hok [p Hc] HQ; unfold UA_SecureChannelManager_create.
  eapply wp_bind, wp_deref_connection; [done|]; intros conn _ ->.
  destruct p as [a|]; [by apply wp_ret, HQ|].
  apply wp_bind, wp_gets, wp_bind.
  match goal with |- wp _ ?K s => set (Kont := K) end.
  enough (forall b s1, server_ok s1 -> grows s s1 -> k_co (skel s1) = k_co (skel s) -> Kont b s1)
    as HK.
  { destruct (_ <? _); [by apply wp_ret, HK|].
    apply wp_bind, wp_gets, safe_purge_channels; [done|done|exact HK]. }
  intros b s1 Hok1 Hg1 Hco1; subst Kont; cbn beta.
  destruct (negb b); [by apply wp_ret, HQ|].
  apply wp_bind, wp_malloc; intros r s2 Hk2 Hu2 _ Hr.
  assert (same s1 s2) as Hs2 by (split; [done|lia]).
  assert (grows s s2) as Hg2 by (etransitivity; [done|by apply same_grows]).
  pose proof (server_ok_same _ _ Hs2 Hok1) as Hok2.
  destruct r as [a|]; [|by apply wp_ret, HQ]; specialize (Hr a eq_refl); subst a.
  destruct (UA_SecureChannel_init _ _ _) as [retval ch].
  destruct (bad retval) eqn:Hr; [by apply wp_ret, HQ; [..|intros; congruence]|].
  eapply wp_bind, same_wp_next_tokenId; [reflexivity|]; intros token s3 Hs3.
  apply wp_bind, wp_gets, wp_bind, wp_modify, wp_bind, wp_gets, wp_bind, wp_modify.
  match goal with |- wp _ _ ?s' => set (s4 := s') end.
  assert (skel s4 = k_set_channels (k_set_ch (skel s1) (<[used s1 := (None, [])]> (k_ch (skel s1))))
            (used s1 :: k_channels (skel s1)) (u32 (k_channelCount (skel s1) + 1))) as Hk4.
  { destruct Hs3 as [Hk3 _]; rewrite <- Hk2, <- Hk3; subst s4.
    unfold skel at 1, k_set_channels, k_set_ch, new_channel; cbn; by rewrite fmap_insert. }
  assert (skel_ok (skel s4) (used s3)) as Hok4.
  { rewrite Hk4; apply (ok_new_channel _ (used s1)); [apply Hok1|]; destruct Hs3 as [_ Hu3]; lia. }
  assert (counts_ok (skel s4)) as Hc4.
  { destruct Hok1 as [_ (H1 & H2 & H3)]; rewrite Hk4; split; [|done].
    cbn [k_channelCount k_channels k_set_channels]; rewrite H1, u32_succ; f_equal; by rewrite zlen_cons. }
  assert (used s4 = used s3) as Hu4 by done.
  assert (k_co (skel s4) !! c = Some None) as Hc4'.
  { rewrite Hk4; cbn [k_co k_set_channels k_set_ch]; by rewrite Hco1. }
  assert (k_ch (skel s4) !! used s1 = Some (None, [])) as Ha4.
  { rewrite Hk4; cbn [k_ch k_set_channels k_set_ch]; by rewrite lookup_insert_eq. }
  assert (grows s1 s4) as Hg4.
  { unfold grows; rewrite Hk4; cbn; split; [|done]; intros x Hx; apply insert_is_Some_or; by right. }
  clearbody s4; eapply wp_bind, wp_attachSecureChannel; [done..|]; intros s5 Hk5 Hu5.
  apply wp_ret, HQ; [split| |].
  - rewrite Hk5, Hu5, Hu4; by apply ok_attach_connection.
  - rewrite Hk5; exact Hc4.
  - transitivity s1; [done|]; transitivity s4; [done|].
    unfold grows; rewrite Hk5; cbn; split; [|split; [done|]]; intros x Hx; by eapply insert_existing.
  - intros _; exists (used s1); rewrite Hk5; cbn; by rewrite lookup_insert_eq.
Qed.

Lemma safe_close s id (Q : status -> UA_Server -> Prop) :
  server_ok s -> (forall r s', server_ok s' -> grows s s' -> Q r s') ->
  wp (UA_SecureChannelManager_close id) Q s.
Proof.
  intros Hok HQ; apply wp_bind, wp_bind, wp_gets.
  apply (same_wp_find_channel s); [done| |].
  - intros a Ha; by apply ok_listed_channel.
  - intros [a|] Hr; [|by apply wp_ret, HQ].
    apply wp_removeSecureChannel; [done|by apply Hr| |].
    + intros r s1 _ Hs1; apply HQ; [by eapply server_ok_same|by apply same_grows].
    + intros s1 Hok1 [Hg1 _]%k_removed_channel; by apply HQ.
Qed.

(** ** Creating sessions *)

Lemma safe_createSession s t (Q : status * option nat -> UA_Server -> Prop) :
  server_ok s ->
  (forall r s', server_ok s' -> grows s s' -> Q (r, None) s') ->
  (forall h s', server_ok s' -> grows s s' -> k_se (skel s') !! h = Some None ->
     h ∈ k_sessions (skel s') -> Q (GOOD, Some h) s') ->
  wp (UA_SessionManager_createSession t) Q s.
Proof.
  intros Hok Hnone Hsome; unfold UA_SessionManager_createSession.
  apply wp_bind, wp_gets; destruct (_ <=? _) eqn:Hmax; [by apply wp_ret, Hnone|].
  apply wp_bind, wp_malloc; intros r s1 Hk1 Hu1 _ Hr.
  assert (same s s1) as Hs1 by (split; [done|lia]).
  destruct r as [h|]; [|by apply wp_ret, Hnone; [eapply server_ok_same|apply same_grows]].
  specialize (Hr h eq_refl); subst h.
  set (n := u32 (currentSessionCount (sessionManager s) + 1)).
  apply wp_bind, wp_modify; match goal with |- wp _ _ ?s' => set (s2 := s') end.
  assert (skel s2 = k_set_sessions (skel s) (k_sessions (skel s)) n) as Hk2.
  { rewrite <- Hk1; subst s2; unfold skel, k_set_sessions; cbn; f_equal.
    by injection Hk1. }
  assert (used s2 = used s1) as Hu2 by done; clearbody s2.
  eapply wp_bind, same_wp_random_nodeid; [reflexivity|]; intros id s3 Hs3.
  eapply wp_bind, same_wp_random_nodeid; [exact Hs3|]; intros token s4 [Hk4 Hu4].
  apply wp_bind, wp_modify; match goal with |- wp _ _ ?s' => set (s5 := s') end.
  assert (skel s5 = k_set_se (skel s2) (<[used s := None]> (k_se (skel s2)))) as Hk5.
  { rewrite <- Hk4; subst s5; unfold skel at 1, k_set_se; cbn; by rewrite fmap_insert. }
  assert (used s5 = used s4) as Hu5 by done; clearbody s5.
  assert (k_se (skel s5) !! used s = Some None) as Hh5.
  { rewrite Hk5; cbn [k_se k_set_se]; by rewrite lookup_insert_eq. }
  eapply wp_bind, same_wp_updateLifetime; [reflexivity|done|]; intros s6 [Hk6 Hu6].
  apply wp_bind, wp_gets.
  assert (sm_sessions (sessionManager s6) = k_sessions (skel s)) as Hl.
  { change (k_sessions (skel s6) = k_sessions (skel s)); by rewrite Hk6, Hk5, Hk2. }
  assert (currentSessionCount (sessionManager s6) = n) as Hn.
  { change (k_sessionCount (skel s6) = n); by rewrite Hk6, Hk5, Hk2. }
  apply wp_bind, wp_modify, wp_ret; match goal with |- Q _ ?s' => set (s7 := s') end.
  assert (skel s7 = k_set_sessions (k_set_se (skel s) (<[used s := None]> (k_se (skel s))))
                      (used s :: k_sessions (skel s)) n) as Hk7.
  { subst s7; unfold skel at 1; cbn [secureChannelManager with_sm sessionManager delayedCallbacks
      heap sm_sessions currentSessionCount]; rewrite Hl, Hn.
    transitivity (k_set_sessions (skel s6) (used s :: k_sessions (skel s)) n); [done|].
    by rewrite Hk6, Hk5, Hk2. }
  assert (used s7 = used s6) as Hu7 by done; clearbody s7.
  apply Hsome; [split| | |].
  - rewrite Hk7; apply (ok_new_session _ (used s)); [apply Hok|lia].
  - destruct Hok as [_ (H1 & H2 & H3)]; rewrite Hk7; split; [done|].
    cbn [k_sessionCount k_sessions k_set_sessions]; subst n; rewrite zlen_cons.
    change (currentSessionCount (sessionManager s)) with (k_sessionCount (skel s)) in *.
    rewrite H2 in *; split; [by rewrite u32_succ|].
    pose proof maxSessions_range; pose proof (zlen_nonneg (k_sessions (skel s))).
    rewrite u32_small in Hmax by lia; zbool; lia.
  - unfold grows; rewrite Hk7; cbn; split; [done|split; [|done]].
    intros x Hx; apply insert_is_Some_or; by right.
  - rewrite Hk7; cbn [k_se k_set_se k_set_sessions]; by rewrite lookup_insert_eq.
  - rewrite Hk7; cbn [k_sessions k_set_sessions]; apply elem_of_cons; by left.
Qed.

Lemma safe_removeSession_token s token (Q : status -> UA_Server -> Prop) :
  server_ok s -> (forall r s', server_ok s' -> grows s s' -> Q r s') ->
  wp (UA_SessionManager_removeSession token) Q s.
Proof.
  intros Hok HQ; apply wp_bind, wp_gets, wp_bind.
  apply (same_wp_find_token s); [done| |].
  - intros a Ha; by apply ok_listed_session.
  - intros [h|] Hr; [|by apply wp_ret, HQ].
    apply wp_removeSession; [done|by apply Hr|]; intros; by apply HQ.
Qed.

(** The data operations of [fill_session] behind the attachment. *)
Lemma safe_fill_session s a h n req eps (Q : UA_CreateSessionResponse -> UA_Server -> Prop) :
  server_ok s -> is_Some (k_ch (skel s) !! a) -> k_se (skel s) !! h = Some None ->
  (forall r s', server_ok s' -> grows s s' -> Q r s') -> wp (fill_session a h n req eps) Q s.
Proof.
  intros Hok Ha Hh HQ; unfold fill_session.
  apply wp_bind, safe_attachSession; [done..|]; intros s1 Hok1 Hg1 _.
  assert (is_Some (k_se (skel s1) !! h)) as [p Hp] by (apply Hg1; by eexists).
  destruct (proj1 Hg1 a Ha) as [q Hq].
  assert (forall s2, same s1 s2 -> server_ok s2 /\ grows s s2) as Hdone.
  { intros s2 Hs2; split; [by eapply server_ok_same|].
    etransitivity; [done|by apply same_grows]. }
  assert (same s1 s1) as Hs1 by done.
  do 3 data_step; apply wp_bind; eapply same_wp_update_session; [done..|]; intros s2 Hs2.
  do 5 data_step; apply wp_bind; eapply same_wp_update_session; [done..|]; intros s3 Hs3.
  do 2 data_step; apply wp_bind.
  match goal with |- wp _ ?K s3 => set (Kont := K) end.
  enough (forall r s4, same s1 s4 -> Kont r s4) as HK by (destruct endpoints; data_steps; by apply HK).
  intros [? cert] s4 Hs4; subst Kont; cbn beta iota; apply wp_bind.
  eapply same_wp_generateNonce; [done..|by eapply ok_session_channel|]; intros r1 s5 Hs5.
  do 5 data_step; apply wp_bind; eapply same_wp_signCreateSessionResponse; [done..|].
  intros [r3 sig] s6 Hs6; data_steps; by apply HQ; apply Hdone.
Qed.

Lemma safe_Service_CreateSession s a req (Q : UA_CreateSessionResponse -> UA_Server -> Prop) :
  server_ok s -> is_Some (k_ch (skel s) !! a) ->
  (forall r s', server_ok s' -> grows s s' -> Q r s') -> wp (Service_CreateSession (Some a) req) Q s.
Proof.
  intros Hok [[c l] Ha] HQ; unfold Service_CreateSession.
  eapply wp_bind, wp_deref_channel; [done|]; intros e _ [= He _]; rewrite He.
  destruct c as [c|]; [|by apply wp_ret, HQ].
  assert (is_Some (k_co (skel s) !! c)) as Hc.
  { eexists; apply (ok_connection_links _ _ (proj1 Hok)); by eexists. }
  destruct (bad _); [by apply wp_ret, HQ|]; apply wp_bind.
  match goal with |- wp _ ?K s => set (Kont := K) end.
  enough (forall r s1, same s s1 -> Kont r s1) as HK.
  { assert (same s s) by done; destruct endpoints; data_steps; by apply HK. }
  intros b s1 Hs1; subst Kont; cbn beta.
  assert (forall s2, same s s2 -> server_ok s2 /\ grows s s2) as Hdone.
  { intros s2 Hs2; split; [by eapply server_ok_same|by apply same_grows]. }
  destruct (negb b); [by apply wp_ret, HQ; apply Hdone|].
  apply wp_bind; eapply same_wp_copy_endpoints; [done|]; intros [r eps] s2 Hs2.
  destruct (bad r); [by apply wp_ret, HQ; apply Hdone|].
  apply wp_bind; eapply same_wp_mirror_endpointUrl; [done|]; intros eps' s3 Hs3.
  destruct (Hdone s3 Hs3) as [Hok3 Hg3].
  apply wp_bind, safe_createSession; [done| |].
  - intros r' s4 Hok4 Hg4; apply wp_ret, HQ; [done|by etransitivity].
  - intros h s4 Hok4 Hg4 Hh4 _.
    assert (grows s s4) as Hgs4 by (by etransitivity).
    destruct (proj2 (proj2 Hgs4) c Hc) as [q Hq].
    eapply wp_bind, wp_deref_connection; [done|]; intros conn _ _.
    apply wp_bind, safe_fill_session; [done|apply Hgs4; by eexists|done|].
    intros resp s5 Hok5 Hg5; assert (grows s s5) as Hgs5 by (by etransitivity).
    destruct (bad _); [|by apply wp_ret, HQ].
    destruct (proj1 (proj2 Hg5) h) as [p Hp]; [by eexists|].
    eapply wp_bind, wp_deref_session; [done|]; intros x _ _.
    apply wp_bind, safe_removeSession_token; [done|]; intros r5 s6 Hok6 Hg6.
    apply wp_ret, HQ; [done|by etransitivity].
Qed.

(** ** Activating and closing sessions *)

(** The attachment to the channel on which the session is activated. *)
Lemma safe_move_session s h a (Q : unit -> UA_Server -> Prop) :
  server_ok s -> is_Some (k_se (skel s) !! h) -> is_Some (k_ch (skel s) !! a) ->
  (forall s', server_ok s' -> grows s s' -> Q tt s') -> wp (move_session a h) Q s.
Proof.
  intros Hok [p Hh] Ha HQ; eapply wp_bind, wp_deref_session; [done|]; intros x _ _.
  destruct (_ && _); [|by apply wp_ret, HQ].
  apply wp_bind, safe_detachSession; [done|by eexists|]; intros s1 Hok1 Hg1 _ Hh1.
  apply safe_attachSession; [done|done|by apply Hg1|]; intros s2 Hok2 Hg2 _.
  apply HQ; [done|by etransitivity].
Qed.

Lemma safe_finish_activation s a h (Q : UA_ActivateSessionResponse -> UA_Server -> Prop) :
  server_ok s -> is_Some (k_ch (skel s) !! a) -> is_Some (k_se (skel s) !! h) ->
  (forall r s', server_ok s' -> grows s s' -> Q r s') ->
  wp (finish_activation a h) Q s.
Proof.
  intros Hok Ha Hh HQ; unfold finish_activation.
  apply wp_bind, safe_move_session; [done..|]; intros s3 Hok3 Hg3.
  assert (is_Some (k_se (skel s3) !! h)) as [p3 Hp3] by (by apply Hg3).
  assert (same s3 s3) as Hs3 by done.
  assert (forall s2, same s3 s2 -> server_ok s2 /\ grows s s2) as Hdone3.
  { intros s4 Hs4; split; [by eapply server_ok_same|].
    etransitivity; [done|by apply same_grows]. }
  eapply wp_bind, same_wp_update_session; [done..|]; intros s4 Hs4.
  eapply wp_bind, same_wp_updateLifetime; [done..|]; intros s5 Hs5.
  eapply wp_bind, same_wp_generateNonce; [done..|by eapply ok_session_channel|]; intros r3 s6 Hs6.
  do 5 data_step; data_step; [|by data_step; apply HQ; apply Hdone3].
  match goal with H : same s3 ?sx |- wp _ _ ?sx => destruct (Hdone3 _ H) as [Hok7 Hg7] end.
  apply wp_bind, safe_detachSession; [done| |].
  { match goal with H : same s3 ?sx |- is_Some (k_se (skel ?sx) !! _) =>
      destruct H as [-> _] end; by eexists. }
  intros s8 Hok8 Hg8 _ Hh8.
  eapply wp_bind, same_wp_update_session; [reflexivity|done|done|]; intros s9 Hs9.
  apply wp_ret, HQ; [by eapply server_ok_same|].
  etransitivity; [done|]; etransitivity; [done|by apply same_grows].
Qed.

Lemma safe_Service_ActivateSession s a h req (Q : UA_ActivateSessionResponse -> UA_Server -> Prop) :
  server_ok s -> is_Some (k_ch (skel s) !! a) -> is_Some (k_se (skel s) !! h) ->
  (forall r s', server_ok s' -> grows s s' -> Q r s') ->
  wp (Service_ActivateSession a h req) Q s.
Proof.
  intros Hok [q Ha] [p Hh] HQ; unfold Service_ActivateSession.
  assert (same s s) as Hs by done.
  assert (forall s2, same s s2 -> server_ok s2 /\ grows s s2) as Hdone.
  { intros s2 Hs2; split; [by eapply server_ok_same|by apply same_grows]. }
  do 4 data_step; data_step; [by data_step; apply HQ; apply Hdone|].
  apply wp_bind; eapply same_wp_checkSignature; [done..|]; intros r1 s1 Hs1.
  data_step; [by data_step; apply HQ; apply Hdone|].
  destruct (accessControl_activateSession _ _ _) as [r2 handle].
  eapply wp_bind, same_wp_update_session; [done..|]; intros s2 Hs2.
  data_step; [by data_step; apply HQ; apply Hdone|].
  destruct (Hdone s2 Hs2) as [Hok2 Hg2]; destruct (Hs2) as [Hk2 _].
  apply safe_finish_activation; [done|by rewrite Hk2; eexists|by rewrite Hk2; eexists|].
  intros r s3 Hok3 Hg3; apply HQ; [done|by etransitivity].
Qed.

Lemma safe_Service_CloseSession s h (Q : status -> UA_Server -> Prop) :
  server_ok s -> is_Some (k_se (skel s) !! h) ->
  (forall r s', server_ok s' -> grows s s' -> Q r s') -> wp (Service_CloseSession h) Q s.
Proof.
  intros Hok [p Hh] HQ; eapply wp_bind, wp_deref_session; [done|]; intros x _ _.
  eapply wp_bind, same_wp_closeSession_call; [reflexivity|]; intros s1 Hs1.
  apply safe_removeSession_token; [by eapply server_ok_same|]; intros r s2 Hok2 Hg2.
  apply HQ; [done|]; etransitivity; [by apply same_grows|done].
Qed.

(** ** OPN *)

Context {TE : TypeEnv} {GT : GeneratedTypes}.

Lemma same_wp_store_channel s0 a ch p (Q : unit -> UA_Server -> Prop) s :
  same s0 s -> k_ch (skel s0) !! a = Some p ->
  (forall s', same s0 s' -> Q tt s') -> wp (store_channel a ch) Q s.
Proof.
  intros Hs Ha HQ; unfold store_channel; do 2 data_step; by eapply same_wp_write_data.
Qed.

Lemma same_wp_load_channel s a p (Q : UA_SecureChannel PolicyContext -> UA_Server -> Prop) :
  server_ok s -> k_ch (skel s) !! a = Some p ->
  (forall ch, (is_Some (connection ch) <-> is_Some (fst p)) -> Q ch s) -> wp (load_channel a) Q s.
Proof.
  intros Hok Ha HQ; unfold load_channel.
  eapply wp_bind, wp_deref_channel; [done|]; intros e _ Hp; apply wp_bind.
  destruct p as [c l]; injection Hp as -> ->; destruct c as [c|].
  - assert (k_co (skel s) !! c = Some (Some a)) as Hc.
    { apply (ok_connection_links _ _ (proj1 Hok)); by eexists. }
    eapply wp_bind, wp_deref_connection; [done|]; intros x _ _.
    apply wp_ret, wp_bind, wp_gets, wp_ret, HQ; cbn; split; by eexists.
  - apply wp_ret, wp_bind, wp_gets, wp_ret, HQ; cbn; split; by intros [].
Qed.

(** The message layer on a channel without a connection stops at once. *)
Lemma sendAsymmetric_unconnected {C N} (policy : UA_SecurityPolicy C) gsb send rel ch (n : N) id v t :
  connection ch = None ->
  snd (UA_SecureChannel_sendAsymmetricOPNMessage policy gsb send rel ch n id v t) = n.
Proof.
  intros Hc; unfold UA_SecureChannel_sendAsymmetricOPNMessage; cbv zeta; rewrite Hc.
  by destruct (_ =? _).
Qed.

(** The connection of a channel that has one. *)
Lemma ok_channel_connection s a p e :
  server_ok s -> k_ch (skel s) !! a = Some p -> ch_links e = p -> is_Some (fst p) ->
  exists q, k_co (skel s) !! connection_of_channel e = Some q.
Proof.
  intros [Hk _] Ha <- [c Hc]; cbn in Hc; exists (Some a); unfold connection_of_channel; rewrite Hc; cbn.
  apply (ok_connection_links _ _ Hk); exists (e_sessions e); unfold ch_links in Ha; by rewrite Hc in Ha.
Qed.

Lemma safe_send_openResponse s a id resp (Q : status -> UA_Server -> Prop) :
  server_ok s -> is_Some (k_ch (skel s) !! a) ->
  (forall r s', same s s' -> Q r s') -> wp (send_openResponse a id resp) Q s.
Proof.
  intros Hok [p Ha] HQ; unfold send_openResponse.
  eapply wp_bind, wp_deref_channel; [done|]; intros e _ Hp.
  eapply wp_bind, same_wp_load_channel; [done..|]; intros ch Hch.
  apply wp_bind, wp_gets.
  match goal with |- context [UA_SecureChannel_sendAsymmetricOPNMessage ?po ?g ?w ?r ch ?n id ?v ?t] =>
    assert (app_is (same s) (snd (UA_SecureChannel_sendAsymmetricOPNMessage po g w r ch n id v t))) as Hs1
  end.
  { assert (app_is (same s) (Some s)) as Hs0 by (by exists s).
    destruct (connection ch) as [conn|] eqn:Hcn; [|by rewrite sendAsymmetric_unconnected].
    destruct (ok_channel_connection _ _ _ _ Hok Ha Hp) as [q Hq]; [apply Hch; by eexists|].
    apply (sendAsymmetric_network _ _ _ _ _ _ _ _ _ (app_is (same s))); [done| | |done].
    - intros app n; by eapply net_get_same.
    - intros app n; by eapply net_send_same. }
  destruct (UA_SecureChannel_sendAsymmetricOPNMessage _ _ _ _ _ _ _ _ _) as [[r ch'] app].
  cbn [snd] in Hs1; eapply wp_bind, wp_resume; [exact Hs1|]; intros s1 Hs2.
  eapply wp_bind, same_wp_store_channel; [exact Hs2|done|]; intros s2 Hs3; by apply wp_ret, HQ.
Qed.

Lemma safe_close_channel_of s a (Q : unit -> UA_Server -> Prop) :
  server_ok s -> is_Some (k_ch (skel s) !! a) ->
  (forall s', server_ok s' -> grows s s' -> Q tt s') -> wp (close_channel_of a) Q s.
Proof.
  intros Hok [p Ha] HQ; eapply wp_bind, wp_deref_channel; [done|]; intros e _ _.
  apply wp_bind, safe_close; [done|]; intros; by apply wp_ret, HQ.
Qed.

Lemma safe_processOPN s a id msg (Q : status -> UA_Server -> Prop) :
  server_ok s -> is_Some (k_ch (skel s) !! a) ->
  (forall r s', server_ok s' -> grows s s' -> Q r s') -> wp (processOPN a id msg) Q s.
Proof.
  intros Hok Ha HQ; unfold processOPN.
  destruct (decode_openRequest msg) as [[r typeId] req]; destruct (_ || _).
  { apply wp_bind, safe_close_channel_of; [done..|]; intros; by apply wp_ret, HQ. }
  destruct Ha as [p Ha].
  eapply wp_bind, same_wp_Service_OpenSecureChannel; [reflexivity|done|]; intros resp s1 Hs1.
  pose proof (server_ok_same _ _ Hs1 Hok) as Hok1.
  assert (is_Some (k_ch (skel s1) !! a)) as Ha1 by (destruct Hs1 as [-> _]; by eexists).
  destruct (bad _).
  { apply wp_bind, safe_close_channel_of; [done..|]; intros s2 Hok2 Hg2; apply wp_ret, HQ; [done|].
    etransitivity; [by apply same_grows|done]. }
  apply wp_bind, safe_send_openResponse; [done..|]; intros r2 s2 Hs2; apply wp_bind.
  assert (same s s2) as Hss2 by (by etransitivity).
  pose proof (server_ok_same _ _ Hss2 Hok) as Hok2.
  destruct (bad r2); [|by apply wp_ret, wp_ret, HQ, same_grows].
  apply safe_close_channel_of; [done|destruct Hss2 as [-> _]; by eexists|].
  intros s3 Hok3 Hg3; apply wp_ret, HQ; [done|]; etransitivity; [by apply same_grows|done].
Qed.

Lemma safe_createSecureChannel s c uri cert thumb (Q : status -> UA_Server -> Prop) :
  server_ok s -> is_Some (k_co (skel s) !! c) ->
  (forall r s', server_ok s' -> grows s s' ->
     (bad r = false -> exists a, k_co (skel s') !! c = Some (Some a)) -> Q r s') ->
  wp (createSecureChannel c uri cert thumb) Q s.
Proof.
  intros Hok Hc HQ; unfold createSecureChannel; destruct (find_endpoint _ _ _).
  - by apply safe_create.
  - by apply wp_ret, HQ.
Qed.

(** ** MSG *)

(** The session that is handed to a service exists. *)
Definition reply_ok (s : UA_Server) (r : Reply) : Prop :=
  match r with
  | CallService _ (Some h) _ _ => is_Some (k_se (skel s) !! h)
  | _ => True
  end.

Lemma same_wp_lookup_session s a token (Q : option nat -> UA_Server -> Prop) :
  server_ok s -> is_Some (k_ch (skel s) !! a) ->
  (forall r, (forall h, r = Some h -> is_Some (k_se (skel s) !! h)) -> Q r s) ->
  wp (lookup_session a token) Q s.
Proof.
  intros Hok [[c l] Ha] HQ; apply wp_bind.
  eapply wp_bind, wp_deref_channel; [done|]; intros e _ [= _ Hl]; rewrite Hl.
  assert (forall h, h ∈ l -> is_Some (k_se (skel s) !! h)) as Hall.
  { intros h Hh; eexists; by eapply ok_channel_sessions. }
  apply (same_wp_find_attached s); [done|done|]; intros [h|] Hr.
  - apply wp_ret, HQ; intros ? [= <-]; auto.
  - destruct (UA_NodeId_isNull token); [by apply wp_ret, HQ|].
    apply wp_bind, wp_gets, (same_wp_find_session s); [done| |].
    + intros h Hh; by apply ok_listed_session.
    + intros r Hr2; apply HQ; intros h Hh; apply ok_listed_session; auto.
Qed.

Lemma safe_call_with_session s a svc req h pos hd v (Q : Reply -> UA_Server -> Prop) :
  server_ok s -> is_Some (k_se (skel s) !! h) ->
  (forall r s', server_ok s' -> grows s s' -> reply_ok s' r -> Q r s') ->
  wp (call_with_session a svc req h pos hd v) Q s.
Proof.
  intros Hok [p Hh] HQ; unfold call_with_session.
  eapply wp_bind, wp_deref_session; [done|]; intros x _ _; destruct (_ && _).
  { apply wp_bind, safe_removeSession_token; [done|]; intros; by apply wp_ret, HQ. }
  destruct (negb _); [by apply wp_ret, HQ|].
  eapply wp_bind, same_wp_updateLifetime; [reflexivity|done|]; intros s1 Hs1.
  apply wp_ret, HQ; [by eapply server_ok_same|by apply same_grows|].
  destruct Hs1 as [Hk1 _]; cbn [reply_ok]; rewrite Hk1; by eexists.
Qed.

Lemma safe_dispatch s a svc req pos hd v rq (Q : Reply -> UA_Server -> Prop) :
  server_ok s -> is_Some (k_ch (skel s) !! a) ->
  (forall r s', server_ok s' -> grows s s' -> reply_ok s' r -> Q r s') ->
  wp (dispatch a svc req pos hd v rq) Q s.
Proof.
  intros Hok Ha HQ; unfold dispatch; destruct rq as [r|r|]; apply wp_bind.
  - apply safe_Service_CreateSession; [done..|]; intros; by apply wp_ret, HQ.
  - apply same_wp_lookup_session; [done..|]; intros [h|] Hh; [|by apply wp_ret, HQ].
    apply wp_bind, safe_Service_ActivateSession; [done|done|auto|]; intros; by apply wp_ret, HQ.
  - apply same_wp_lookup_session; [done..|]; intros [h|] Hh.
    + apply safe_call_with_session; auto.
    + destruct req; by apply wp_ret, HQ.
Qed.

Lemma decode_good_some buf offset t v pos :
  UA_decodeBinary calloc_ok buf offset t = (GOOD, v, pos) -> is_Some v.
Proof.
  unfold UA_decodeBinary; destruct (decodeBinaryInternal _ _ _ _ _) as [[ret w] c].
  destruct (bad ret) eqn:Hb; intros Heq; injection Heq as H1 H2 H3; subst; [done|by eexists].
Qed.

Lemma safe_find_reply s a msg (Q : Reply -> UA_Server -> Prop) :
  server_ok s -> is_Some (k_ch (skel s) !! a) ->
  (forall r s', server_ok s' -> grows s s' -> reply_ok s' r -> Q r s') -> wp (find_reply a msg) Q s.
Proof.
  intros Hok Ha HQ; unfold find_reply.
  destruct (UA_decodeBinary _ _ 0 _) as [[r id] offset].
  destruct (bad r); [by apply wp_ret, HQ|].
  destruct (getServicePointers _) as [[[svc req] ty]|]; [|by apply wp_ret, HQ].
  destruct (UA_decodeBinary _ _ _ (requestType svc)) as [[r2 v] pos2] eqn:Hd.
  destruct (bad r2) eqn:Hb; [by apply wp_ret, HQ|]; apply bad_false in Hb; subst r2.
  destruct (decode_good_some _ _ _ _ _ Hd) as [w ->]; by apply safe_dispatch.
Qed.

(** *** Sending the answer *)

Lemma safe_end_message s a r mc (Q : status -> UA_Server -> Prop) s0 :
  server_ok s -> is_Some (k_ch (skel s) !! a) -> app_is (same s) (mc_net mc) ->
  (forall r s', server_ok s' -> grows s s' -> Q r s') -> wp (end_message a r mc) Q s0.
Proof.
  intros Hok [p Ha] Hn HQ; eapply wp_bind, wp_resume; [exact Hn|]; intros s1 Hs1.
  eapply wp_bind, same_wp_store_channel; [done..|]; intros s2 Hs2.
  apply wp_ret, HQ; [by eapply server_ok_same|by apply same_grows].
Qed.

Lemma begin_unconnected {C N} (policy : UA_SecurityPolicy C) gsb ch (n : N) id t :
  connection ch = None ->
  bad (fst (UA_MessageContext_begin policy gsb ch n id t)) = true /\
  mc_net (snd (UA_MessageContext_begin policy gsb ch n id t)) = n.
Proof. intros Hc; unfold UA_MessageContext_begin; by rewrite Hc. Qed.

Lemma sendSymmetricMessage_unconnected {C N} (policy : UA_SecurityPolicy C) gsb send rel ch (n : N) id t v ty :
  connection ch = None ->
  mc_net (snd (UA_SecureChannel_sendSymmetricMessage policy gsb send rel ch n id t v ty)) = n.
Proof.
  intros Hc; unfold UA_SecureChannel_sendSymmetricMessage; rewrite Hc.
  destruct (begin_unconnected policy gsb ch n id t Hc) as [Hb Hn].
  destruct (UA_MessageContext_begin _ _ _ _ _ _) as [r mc]; cbn in Hb, Hn; by rewrite Hb.
Qed.

Lemma safe_sendServiceFault s a msg offset ty id err (Q : status -> UA_Server -> Prop) :
  server_ok s -> is_Some (k_ch (skel s) !! a) ->
  (forall r s', server_ok s' -> grows s s' -> Q r s') ->
  wp (sendServiceFault a msg offset ty id err) Q s.
Proof.
  intros Hok [p Ha] HQ; unfold sendServiceFault.
  destruct (UA_decodeBinary _ _ _ _) as [[r hd] pos]; destruct (bad r); [by apply wp_ret, HQ|].
  apply wp_bind, wp_gets; eapply wp_bind, wp_deref_channel; [done|]; intros e _ Hp.
  eapply wp_bind, same_wp_load_channel; [done..|]; intros ch Hch; apply wp_bind, wp_gets.
  match goal with |- context [UA_SecureChannel_sendSymmetricMessage ?po ?g ?w ?r ch ?n id ?t ?v ?ty] =>
    assert (app_is (same s) (mc_net (snd (UA_SecureChannel_sendSymmetricMessage po g w r ch n id t v ty)))) as Hs1
  end.
  { assert (app_is (same s) (Some s)) as Hs0 by (by exists s).
    destruct (connection ch) as [conn|] eqn:Hcn; [|by rewrite sendSymmetricMessage_unconnected].
    destruct (ok_channel_connection _ _ _ _ Hok Ha Hp) as [q Hq]; [apply Hch; by eexists|].
    apply (sendSymmetricMessage_keeps _ _ _ _ (app_is (same s))); [| |done..].
    - intros app n; by eapply net_get_same.
    - intros app n; by eapply net_send_same. }
  destruct (UA_SecureChannel_sendSymmetricMessage _ _ _ _ _ _ _ _ _ _) as [r1 mc].
  by eapply safe_end_message; [|eexists|..].
Qed.

(** What a service may do while its answer is sent. *)
Definition service_safe (s : UA_Server) (service : M UA_Value) : Prop :=
  forall s1 (Q : UA_Value -> UA_Server -> Prop), same s s1 ->
    (forall v s2, server_ok s2 -> grows s s2 -> Q v s2) -> wp service Q s1.

Lemma safe_send_response s a id ty service (Q : status -> UA_Server -> Prop) :
  server_ok s -> is_Some (k_ch (skel s) !! a) -> service_safe s service ->
  (forall r s', server_ok s' -> grows s s' -> Q r s') ->
  wp (send_response a id ty service) Q s.
Proof.
  intros Hok [p Ha] Hsvc HQ; unfold send_response.
  eapply wp_bind, wp_deref_channel; [done|]; intros e _ Hp.
  eapply wp_bind, same_wp_load_channel; [done..|]; intros ch Hch; apply wp_bind, wp_gets.
  assert (app_is (same s) (Some s)) as Hs0 by (by exists s).
  destruct (connection ch) as [conn|] eqn:Hcn; cycle 1.
  { destruct (begin_unconnected (e_policy e) (net_get (connection_of_channel e)) ch (Some s) id
                UA_MESSAGETYPE_MSG Hcn) as [Hb Hn].
    destruct (UA_MessageContext_begin _ _ _ _ _ _) as [r mc]; cbn in Hb, Hn; rewrite Hb.
    apply (safe_end_message s); [done|by eexists|by rewrite Hn|done]. }
  destruct (ok_channel_connection _ _ _ _ Hok Ha Hp) as [q Hq]; [apply Hch; by eexists|].
  set (c := connection_of_channel e) in *.
  assert (forall s1, is_Some (k_co (skel s1) !! c) ->
            (forall app n, app_is (same s1) app -> app_is (same s1) (snd (net_get c app n))) /\
            (forall app m, app_is (same s1) app -> app_is (same s1) (snd (net_send c app m)))) as Hnet.
  { intros s1 [q1 Hq1]; split; intros app n; [by eapply net_get_same|by eapply net_send_same]. }
  destruct (Hnet s) as [Hg Hw]; [by eexists|].
  pose proof (begin_keeps (e_policy e) (net_get c) (app_is (same s)) Hg ch _ id UA_MESSAGETYPE_MSG Hs0) as H1.
  destruct (UA_MessageContext_begin _ _ _ _ _ _) as [r1 mc1]; cbn [snd] in H1.
  destruct (bad r1); [by apply (safe_end_message s); [|eexists|..]|].
  match goal with |- context [UA_MessageContext_encode ?po ?g ?w ?rl mc1 ?v ?t] =>
    pose proof (encode_context_keeps po g w rl (app_is (same s)) Hg Hw (fun _ H => H) mc1 v t H1) as H2;
    destruct (UA_MessageContext_encode po g w rl mc1 v t) as [r2 mc2] end.
  destruct (bad r2); [by apply (safe_end_message s); [|eexists|..]|].
  eapply wp_bind, wp_resume; [exact H2|]; intros s2 Hs2; apply wp_bind, Hsvc; [done|].
  intros v s3 Hok3 Hg3; apply wp_bind, wp_gets.
  assert (is_Some (k_ch (skel s3) !! a)) as Ha3 by (apply Hg3; by eexists).
  assert (forall r s', server_ok s' -> grows s3 s' -> Q r s') as HQ3.
  { intros r s' Hok' Hg'; apply HQ; [done|by transitivity s3]. }
  destruct (Hnet s3) as [Hg' Hw']; [apply Hg3; by eexists|].
  match goal with |- context [UA_MessageContext_encode ?po ?g ?w ?rl ?m ?v ?t] =>
    pose proof (encode_context_keeps po g w rl (app_is (same s3)) Hg' Hw' (fun _ H => H) m v t
      (ex_intro _ s3 (conj eq_refl (reflexivity s3)))) as H4;
    destruct (UA_MessageContext_encode po g w rl m v t) as [r4 mc4] end.
  destruct (bad r4); [by apply (safe_end_message s3)|].
  match goal with |- context [UA_MessageContext_finish ?po ?w ?rl mc4] =>
    pose proof (finish_keeps po w rl (app_is (same s3)) Hw' (fun _ H => H) mc4 H4) as H5;
    destruct (UA_MessageContext_finish po w rl mc4) as [r5 mc5] end.
  by apply (safe_end_message s3).
Qed.

Lemma safe_call_service s svc o hd t rq :
  server_ok s -> match o with Some h => is_Some (k_se (skel s) !! h) | None => True end ->
  service_safe s (call_service svc o hd t rq).
Proof.
  intros Hok Ho s1 Q Hs1 HQ; pose proof (server_ok_same _ _ Hs1 Hok) as Hok1.
  destruct o as [h|]; cbn [call_service]; [|by apply wp_gets, HQ, same_grows].
  destruct (decide _); [|by apply wp_gets, HQ, same_grows].
  apply wp_bind, safe_Service_CloseSession; [done|by destruct Hs1 as [-> _]|].
  intros r s2 Hok2 Hg2; apply wp_ret, HQ; [done|]; etransitivity; [by apply same_grows|done].
Qed.

Lemma safe_processMSG s a id msg (Q : status -> UA_Server -> Prop) :
  server_ok s -> is_Some (k_ch (skel s) !! a) ->
  (forall r s', server_ok s' -> grows s s' -> Q r s') -> wp (processMSG a id msg) Q s.
Proof.
  intros Hok Ha HQ; apply wp_bind, safe_find_reply; [done..|]; intros r s1 Hok1 Hg1 Hr.
  assert (is_Some (k_ch (skel s1) !! a)) as Ha1 by (by apply Hg1).
  assert (forall r s', server_ok s' -> grows s1 s' -> Q r s') as HQ1.
  { intros r' s' Hok' Hg'; apply HQ; [done|by transitivity s1]. }
  apply wp_bind, wp_gets; destruct r as [r|svc pos err|hd resp|hd resp|svc o hd rq].
  - by apply wp_ret, HQ1.
  - by apply safe_sendServiceFault.
  - apply safe_send_response; [done|done| |done]; intros s2 Q2 Hs2 HQ2.
    apply wp_ret, HQ2; [by eapply server_ok_same|by apply same_grows].
  - apply safe_send_response; [done|done| |done]; intros s2 Q2 Hs2 HQ2.
    apply wp_ret, HQ2; [by eapply server_ok_same|by apply same_grows].
  - apply safe_send_response; [done|done| |done]; by apply safe_call_service.
Qed.

(** ** Connections and delayed callbacks *)

Lemma safe_removeConnection s c (Q : unit -> UA_Server -> Prop) :
  server_ok s -> is_Some (k_co (skel s) !! c) ->
  (forall s', server_ok s' -> Q tt s') -> wp (UA_Server_removeConnection c) Q s.
Proof.
  intros [Hk Hn] [p Hc] HQ; unfold UA_Server_removeConnection.
  assert (forall s1, skel_ok (skel s1) (used s1) -> counts_ok (skel s1) ->
            k_co (skel s1) !! c = Some None -> wp (free_connection c) Q s1) as Hfree.
  { intros s1 Hk1 Hn1 Hc1; eapply wp_bind, wp_deref_connection; [done|]; intros x _ _.
    apply wp_modify, HQ; match goal with |- server_ok ?s' => set (s2 := s') end.
    assert (skel s2 = k_set_co (skel s1) (delete c (k_co (skel s1)))) as Hk2.
    { subst s2; unfold skel at 1, k_set_co; cbn; by rewrite fmap_delete. }
    split; rewrite Hk2; [by apply ok_free_connection|done]. }
  destruct p as [a|]; apply wp_bind.
  - destruct (proj1 (ok_connection_links _ _ Hk c a) Hc) as [l Ha].
    eapply wp_detachSecureChannel_some; [done..|]; intros s1 Hk1 Hu1; apply Hfree.
    + rewrite Hk1, Hu1; by apply ok_detach_connection.
    + by rewrite Hk1.
    + rewrite Hk1; cbn; by rewrite lookup_insert_eq.
  - apply wp_detachSecureChannel_none; [done|]; intros s1 Hk1 Hu1.
    apply Hfree; by rewrite ?Hk1, ?Hu1.
Qed.

Definition others (d : UA_DelayedCallback) (l : list UA_DelayedCallback) :=
  filter (fun d' => d' <> d) l.

Lemma elem_of_others d x l : x ∈ others d l <-> (x ∈ l) /\ x <> d.
Proof. unfold others; rewrite list_elem_of_filter; naive_solver. Qed.

(** The state in which a callback runs: it is out of the list already. *)
Definition taken_out (d : UA_DelayedCallback) (k : Skel) : Skel :=
  k_set_delayed k (others d (k_delayed k)).

(** Nothing but pointers and objects has changed. *)
Definition released (s s' : UA_Server) : Prop :=
  skel_ok (skel s') (used s') /\ lists_same s s'.

Lemma wp_run_removeSecureChannelCallback k a (Q : unit -> UA_Server -> Prop) s :
  skel_ok k (used s) -> removeSecureChannelCallback a ∈ k_delayed k ->
  skel s = taken_out (removeSecureChannelCallback a) k ->
  (forall s', released s s' -> k_ch (skel s') !! a = None -> Q tt s') ->
  wp (run_removeSecureChannelCallback a) Q s.
Proof.
  intros Hk Hin Hs HQ; unfold run_removeSecureChannelCallback.
  assert (is_Some (k_ch k !! a)) as [[c l] Ha] by (apply (ok_ch_dom _ _ Hk); by right).
  eapply wp_bind, (wp_deleteMembersCleanup a c l); rewrite ?Hs; cbn [k_ch k_co k_se taken_out k_set_delayed].
  - done.
  - intros c' ->; apply (ok_connection_links _ _ Hk); by eexists.
  - intros h Hh; exists (Some a); apply (ok_session_links _ _ Hk); by exists c, l.
  - intros s1 Hk1 Hu1.
    assert (k_ch (skel s1) !! a = Some (None, [])) as Ha1.
    { rewrite Hk1; cbn; by rewrite lookup_insert_eq. }
    eapply wp_bind, wp_deref_channel; [done|]; intros e _ _; apply wp_modify, HQ.
    all: match goal with |- context [skel ?s'] => set (s2 := s') | |- released _ ?s' => set (s2 := s') end.
    all: assert (skel s2 = k_set_ch (skel s1) (delete a (k_ch (skel s1)))) as Hk2
      by (subst s2; unfold skel at 1, k_set_ch; cbn; by rewrite fmap_delete).
    + assert (skel s2 = k_set_ch
        (k_set_delayed (k_set_channels (cleanup_skel k a c l) (k_channels k) (k_channelCount k))
           (others (removeSecureChannelCallback a) (k_delayed k)))
        (delete a (k_ch (cleanup_skel k a c l)))) as Hk3.
      { rewrite Hk2, Hk1; by destruct c. }
      split; [rewrite Hk3|unfold lists_same; rewrite Hk3, Hs; by destruct c].
      apply ok_free_channel.
      * eapply skel_ok_mono; [by apply ok_cleanup|exact Hu1].
      * cbn; by rewrite lookup_insert_eq.
      * apply (ok_channels _ _ Hk).
      * apply NoDup_filter, (ok_delayed _ _ Hk).
      * assert (k_channels (cleanup_skel k a c l) = k_channels k) as -> by (by destruct c).
        intros x; split; [|by intros [? _]]; intros Hx; split; [done|]; intros ->.
        by apply (ok_ch_disj _ _ Hk) in Hx.
      * intros x; rewrite elem_of_others; by destruct c.
    + rewrite Hk2; cbn; by rewrite lookup_delete_eq.
Qed.

Lemma wp_run_removeSessionCallback k h (Q : unit -> UA_Server -> Prop) s :
  skel_ok k (used s) -> removeSessionCallback h ∈ k_delayed k ->
  skel s = taken_out (removeSessionCallback h) k ->
  (forall s', released s s' -> k_se (skel s') !! h = None -> Q tt s') ->
  wp (run_removeSessionCallback h) Q s.
Proof.
  intros Hk Hin Hs HQ; unfold run_removeSessionCallback, UA_Session_deleteMembersCleanup.
  assert (is_Some (k_se k !! h)) as [p Hh] by (apply (ok_se_dom _ _ Hk); by right).
  set (d := removeSessionCallback h) in *.
  (* freeing the session once it is detached in the skeleton [k1] *)
  assert (forall k1 s1, skel_ok k1 (used s1) -> lists_same s s1 -> k_se k1 !! h = Some None ->
            skel s1 = taken_out d k1 -> d ∈ k_delayed k1 -> wp (free_session h) Q s1) as Hfree.
  { intros k1 s1 Hk1 Hls Hh1 Hs1 Hin1.
    eapply wp_bind, wp_deref_session; [by rewrite Hs1|]; intros x _ _; apply wp_modify, HQ.
    all: match goal with |- context [skel ?s'] => set (s2 := s') | |- released _ ?s' => set (s2 := s') end.
    all: assert (skel s2 = k_set_se (skel s1) (delete h (k_se (skel s1)))) as Hk2
      by (subst s2; unfold skel at 1, k_set_se; cbn; by rewrite fmap_delete).
    - assert (skel s2 = k_set_se (k_set_delayed (k_set_sessions k1 (k_sessions k1)
                (k_sessionCount k1)) (others d (k_delayed k1))) (delete h (k_se k1))) as Hk3
        by (by rewrite Hk2, Hs1).
      split; [rewrite Hk3|etransitivity; [exact Hls|unfold lists_same; by rewrite Hk2]].
      apply ok_free_session; [done|done|apply (ok_sessions _ _ Hk1)| | |].
      + apply NoDup_filter, (ok_delayed _ _ Hk1).
      + intros y; split; [|by intros [? _]]; intros Hy; split; [done|]; intros ->.
        by apply (ok_se_disj _ _ Hk1) in Hy.
      + intros y; by rewrite elem_of_others.
    - rewrite Hk2; cbn; by rewrite lookup_delete_eq. }
  apply wp_bind; destruct p as [a|].
  - destruct (proj1 (ok_session_links _ _ Hk h a) Hh) as (c & l & Ha & Hl).
    eapply wp_detachSession_some; [by rewrite Hs..|done|]; intros s1 Hk1 Hu1.
    eapply (Hfree (k_set_ch (k_set_se k (<[h := None]> (k_se k)))
              (<[a := (c, without h l)]> (k_ch k)))); [| | | |done].
    + rewrite Hu1; by eapply ok_detach_session.
    + unfold lists_same; by rewrite Hk1.
    + cbn; by rewrite lookup_insert_eq.
    + by rewrite Hk1, Hs.
  - eapply wp_detachSession_none; [by rewrite Hs|]; by eapply Hfree.
Qed.

Lemma wp_run_delayed_list l s (Q : unit -> UA_Server -> Prop) :
  skel_ok (skel s) (used s) -> NoDup l -> l ⊆ k_delayed (skel s) ->
  (forall s', skel_ok (skel s') (used s') ->
     k_channels (skel s') = k_channels (skel s) -> k_channelCount (skel s') = k_channelCount (skel s) ->
     k_sessions (skel s') = k_sessions (skel s) -> k_sessionCount (skel s') = k_sessionCount (skel s) ->
     (forall d, d ∈ k_delayed (skel s') <-> (d ∈ k_delayed (skel s)) /\ d ∉ l) -> Q tt s') ->
  wp (run_delayed_list l) Q s.
Proof.
  revert s; induction l as [|d l IH]; intros s Hk Hnd Hl HQ; cbn [run_delayed_list].
  - apply wp_ret, HQ; [done..|]; set_solver.
  - apply NoDup_cons in Hnd as [Hd Hnd].
    apply wp_bind, wp_modify; match goal with |- wp _ _ ?s' => set (s1 := s') end.
    assert (skel s1 = taken_out d (skel s)) as Hk1 by done.
    assert (used s1 = used s) as Hu1 by done; clearbody s1.
    assert (d ∈ k_delayed (skel s)) as Hin by set_solver.
    assert (forall s2, released s1 s2 -> wp (run_delayed_list l) Q s2) as Hrest.
    { intros s2 (Hk2 & Hc & Hcn & Hs & Hsn & Hd2); rewrite Hk1 in Hc, Hcn, Hs, Hsn, Hd2.
      change (k_delayed (skel s2) = others d (k_delayed (skel s))) in Hd2.
      apply IH; [done|done| |].
      - rewrite Hd2; intros x Hx; apply elem_of_others; set_solver.
      - intros s' Hk' H1 H2 H3 H4 Hd'; apply HQ; [done|by etransitivity..|]; intros x.
        rewrite Hd', Hd2, elem_of_others, elem_of_cons; naive_solver. }
    apply wp_bind; destruct d as [a|h]; cbn [run_delayed].
    + eapply (wp_run_removeSecureChannelCallback (skel s)); [by rewrite Hu1|done..|].
      intros s2 Hr2 _; by apply Hrest.
    + eapply (wp_run_removeSessionCallback (skel s)); [by rewrite Hu1|done..|].
      intros s2 Hr2 _; by apply Hrest.
Qed.

Lemma wp_cleanupDelayedCallbacks s (Q : unit -> UA_Server -> Prop) :
  skel_ok (skel s) (used s) ->
  (forall s', skel_ok (skel s') (used s') ->
     k_channels (skel s') = k_channels (skel s) -> k_channelCount (skel s') = k_channelCount (skel s) ->
     k_sessions (skel s') = k_sessions (skel s) -> k_sessionCount (skel s') = k_sessionCount (skel s) ->
     k_delayed (skel s') = [] -> Q tt s') ->
  wp UA_Server_cleanupDelayedCallbacks Q s.
Proof.
  intros Hk HQ; apply wp_bind, wp_gets, wp_run_delayed_list; [done| |done|].
  - apply (ok_delayed _ _ Hk).
  - intros s' Hk' H1 H2 H3 H4 Hd; apply HQ; [done..|].
    destruct (k_delayed (skel s')) as [|d l] eqn:E1; [done|].
    destruct (proj1 (Hd d)) as [H5 H6]; [rewrite ?E1; set_solver|]; done.
Qed.

Lemma safe_cleanupDelayedCallbacks s (Q : unit -> UA_Server -> Prop) :
  server_ok s -> (forall s', server_ok s' -> k_delayed (skel s') = [] -> Q tt s') ->
  wp UA_Server_cleanupDelayedCallbacks Q s.
Proof.
  intros [Hk Hn] HQ; apply wp_cleanupDelayedCallbacks; [done|].
  intros s' Hk' H1 H2 H3 H4 Hd; apply HQ; [|done]; split; [done|].
  unfold counts_ok; by rewrite H1, H2, H3, H4.
Qed.

(** ** Shutting down *)

Lemma wp_delete_channels l s (Q : unit -> UA_Server -> Prop) :
  skel_ok (skel s) (used s) -> NoDup l -> l ⊆ k_channels (skel s) ->
  (forall s', skel_ok (skel s') (used s') ->
     (forall a, a ∈ k_channels (skel s') <-> (a ∈ k_channels (skel s)) /\ a ∉ l) -> Q tt s') ->
  wp (delete_channels l) Q s.
Proof.
  revert s; induction l as [|a l IH]; intros s Hk Hnd Hl HQ; cbn [delete_channels].
  - apply wp_ret, HQ; [done|]; set_solver.
  - assert (a ∈ k_channels (skel s)) as Ha by set_solver.
    assert (is_Some (k_ch (skel s) !! a)) as [[c ls] Hp] by (apply (ok_ch_dom _ _ Hk); by left).
    apply wp_bind, wp_gets, wp_bind, wp_list_remove; [done|].
    apply wp_bind, wp_modify; match goal with |- wp _ _ ?s' => set (s1 := s') end.
    assert (skel s1 = k_set_channels (skel s) (without a (k_channels (skel s)))
                        (k_channelCount (skel s))) as Hk1 by done.
    assert (used s1 = used s) as Hu1 by done; clearbody s1.
    eapply wp_bind, (wp_deleteMembersCleanup a c ls); rewrite ?Hk1.
    + done.
    + intros c' ->; apply (ok_connection_links _ _ Hk); by eexists.
    + intros h Hh; exists (Some a); apply (ok_session_links _ _ Hk); by exists c, ls.
    + intros s2 Hk2 Hu2.
      assert (k_ch (skel s2) !! a = Some (None, [])) as Ha2.
      { rewrite Hk2; cbn; by rewrite lookup_insert_eq. }
      eapply wp_bind, wp_bind, wp_deref_channel; [done|]; intros e _ _; apply wp_modify.
      match goal with |- wp _ _ ?s' => set (s3 := s') end.
      assert (skel s3 = k_set_ch (skel s2) (delete a (k_ch (skel s2)))) as Hk3
        by (subst s3; unfold skel at 1, k_set_ch; cbn; by rewrite fmap_delete).
      assert (used s3 = used s2) as Hu3 by done; clearbody s3.
      assert (skel s3 = k_set_ch
        (k_set_delayed (k_set_channels (cleanup_skel (skel s) a c ls)
           (without a (k_channels (skel s))) (k_channelCount (skel s))) (k_delayed (skel s)))
        (delete a (k_ch (cleanup_skel (skel s) a c ls)))) as Hk4.
      { rewrite Hk3, Hk2; by destruct c. }
      apply NoDup_cons in Hnd as [Hal Hnd]; apply IH; [|done| |].
      * rewrite Hk4; apply ok_free_channel.
        -- eapply skel_ok_mono; [by apply ok_cleanup|lia].
        -- cbn; by rewrite lookup_insert_eq.
        -- apply NoDup_filter, (ok_channels _ _ Hk).
        -- apply (ok_delayed _ _ Hk).
        -- assert (k_channels (cleanup_skel (skel s) a c ls) = k_channels (skel s)) as -> by (by destruct c).
           intros x; rewrite elem_of_without; naive_solver.
        -- assert (k_delayed (cleanup_skel (skel s) a c ls) = k_delayed (skel s)) as -> by (by destruct c).
           intros x; split; [|by intros [? _]]; intros Hx; split; [done|]; intros ->.
           by apply (ok_ch_disj _ _ Hk) in Ha.
      * rewrite Hk4; cbn [k_channels k_set_ch k_set_delayed k_set_channels].
        intros x Hx; apply elem_of_without; set_solver.
      * intros s' Hk' Hch; apply HQ; [done|]; intros x; rewrite Hch, Hk4.
        cbn [k_channels k_set_ch k_set_delayed k_set_channels].
        rewrite elem_of_without, elem_of_cons; naive_solver.
Qed.

Lemma wp_delete_sessions l s (Q : unit -> UA_Server -> Prop) :
  skel_ok (skel s) (used s) -> NoDup l -> l ⊆ k_sessions (skel s) ->
  (forall s', skel_ok (skel s') (used s') -> k_channels (skel s') = k_channels (skel s) ->
     (forall a, a ∈ k_sessions (skel s') <-> (a ∈ k_sessions (skel s)) /\ a ∉ l) -> Q tt s') ->
  wp (delete_sessions l) Q s.
Proof.
  revert s; induction l as [|h l IH]; intros s Hk Hnd Hl HQ; cbn [delete_sessions].
  - apply wp_ret, HQ; [done|done|]; set_solver.
  - assert (h ∈ k_sessions (skel s)) as Hh by set_solver.
    assert (is_Some (k_se (skel s) !! h)) as [p Hp] by (apply (ok_se_dom _ _ Hk); by left).
    apply wp_bind, wp_gets, wp_bind, wp_list_remove; [done|].
    apply wp_bind, wp_modify; match goal with |- wp _ _ ?s' => set (s1 := s') end.
    assert (skel s1 = k_set_sessions (skel s) (without h (k_sessions (skel s)))
                        (k_sessionCount (skel s))) as Hk1 by done.
    assert (used s1 = used s) as Hu1 by done; clearbody s1.
    apply NoDup_cons in Hnd as [Hhl Hnd].
    (* freeing the session once it is detached in the skeleton [k2] *)
    assert (forall k2 s2, skel_ok k2 (used s2) -> k_se k2 !! h = Some None ->
              k_sessions k2 = k_sessions (skel s) -> k_channels k2 = k_channels (skel s) ->
              k_delayed k2 = k_delayed (skel s) ->
              skel s2 = k_set_sessions k2 (without h (k_sessions (skel s))) (k_sessionCount (skel s)) ->
              wp (_ ← free_session h; delete_sessions l) Q s2) as Hfree.
    { intros k2 s2 Hk2 Hn2 Hs2 Hc2 Hd2 Hs; eapply wp_bind, wp_bind, wp_deref_session.
      { by rewrite Hs. }
      intros x _ _; apply wp_modify; match goal with |- wp _ _ ?s' => set (s3 := s') end.
      assert (skel s3 = k_set_se (skel s2) (delete h (k_se (skel s2)))) as Hk3
        by (subst s3; unfold skel at 1, k_set_se; cbn; by rewrite fmap_delete).
      assert (used s3 = used s2) as Hu3 by done; clearbody s3.
      assert (skel s3 = k_set_se (k_set_delayed (k_set_sessions k2 (without h (k_sessions (skel s)))
                (k_sessionCount (skel s))) (k_delayed (skel s))) (delete h (k_se k2))) as Hk4.
      { rewrite Hk3, Hs, <- Hd2; done. }
      apply IH; [|done| |].
      - rewrite Hk4, Hu3; apply ok_free_session; [done|done| | | |].
        + apply NoDup_filter, (ok_sessions _ _ Hk).
        + apply (ok_delayed _ _ Hk).
        + intros y; rewrite elem_of_without, Hs2; naive_solver.
        + rewrite Hd2; intros y; split; [|by intros [? _]]; intros Hy; split; [done|]; intros ->.
          by apply (ok_se_disj _ _ Hk) in Hh.
      - rewrite Hk4; cbn [k_sessions k_set_se k_set_delayed k_set_sessions].
        intros y Hy; apply elem_of_without; set_solver.
      - intros s' Hk' Hch Hse; apply HQ; [done|by rewrite Hch, Hk4|]; intros y; rewrite Hse, Hk4.
        cbn [k_sessions k_set_se k_set_delayed k_set_sessions].
        rewrite elem_of_without, elem_of_cons; naive_solver. }
    apply wp_bind; destruct p as [a|].
    + destruct (proj1 (ok_session_links _ _ Hk h a) Hp) as (c & ls & Ha & Hls).
      eapply wp_detachSession_some; [by rewrite Hk1..|done|]; intros s2 Hk2 Hu2.
      eapply (Hfree (k_set_ch (k_set_se (skel s) (<[h := None]> (k_se (skel s))))
                (<[a := (c, without h ls)]> (k_ch (skel s))))); [|cbn|done..|].
      * rewrite Hu2, Hu1; by eapply ok_detach_session.
      * by rewrite lookup_insert_eq.
      * by rewrite Hk2, Hk1.
    + eapply wp_detachSession_none; [by rewrite Hk1|].
      by eapply (Hfree (skel s)); [rewrite Hu1|..].
Qed.
End Safe.
