(* ===== verification/ServerRun.v ===== *)
(** * The server as a state machine

    What the network layer and the main loop do to the server, one call after
    the other.  [server_safe]: from the empty server every sequence of calls is
    executed without touching freed memory; [server_delete_releases]: at the
    end nothing is left allocated. *)

From Stdlib Require Import ZArith Lia SpecFloat.
From stdpp Require Import base list numbers tactics sets gmap.
From S2P Require Import Prelude StateMonad UaTypes UaValue BinaryDecode FieldCodec Connection SecureChannel SecureChannelFrame ServerState SecureChannelManager SessionManager ServerBinary ServerLogic ServerInvariant ServerSafe.

Section Run.
Context {TE : TypeEnv} {E : ServerEnv} {GT : GeneratedTypes}.

(** ** Calls *)

Inductive ServerCall :=
| Accept (conf : UA_ConnectionConfig)       (* a client connects *)
| Packet (c : nat) (bytes : list Z)         (* bytes have been received *)
| Disconnect (c : nat)                      (* the socket is gone *)
| Shutdown (c : nat)                        (* an error of the socket *)
| Cleanup                                   (* every ten seconds *)
| DelayedCallbacks                          (* end of an iteration *)
| Tick (monotonic wallclock : Z).

(** [ServerNetworkLayerTCP_add] *)
Definition accept_connection (conf : UA_ConnectionConfig) : M unit :=
  p ← malloc;
  match p with
  | None => mret tt
  | Some c => new_connection c (mkConnection UA_CONNECTION_OPENING conf conf None [])
  end.

(** The network layer calls with its connections only. *)
Definition on_connection (c : nat) (m : M unit) : M unit :=
  h ← gets heap;
  match h_connections h !! c with Some _ => m | None => mret tt end.

Definition exec (call : ServerCall) : M unit :=
  match call with
  | Accept conf => accept_connection conf
  | Packet c bytes => on_connection c (processBinaryMessage c bytes)
  | Disconnect c => on_connection c (UA_Server_removeConnection c)
  | Shutdown c => on_connection c (connection_close c)
  | Cleanup => UA_Server_cleanup
  | DelayedCallbacks => UA_Server_cleanupDelayedCallbacks
  | Tick m w => modify (fun s => with_world s (with_clocks (world s) m w))
  end.

Fixpoint run (calls : list ServerCall) : M unit :=
  match calls with
  | [] => mret tt
  | call :: calls => _ ← exec call; run calls
  end.

(** A new server at the given clocks. *)
Definition server_init (m w : Z) (n : Net) : UA_Server :=
  UA_SessionManager_init (UA_SecureChannelManager_init
    (mkServer (mkCM [] 0 0 0) (mkSM [] 0) [] (mkHeap ∅ ∅ ∅) (mkWorld m w 0 0 n []))).

(** [UA_Server_delete] *)
Definition UA_Server_delete : M unit :=
  _ ← UA_SecureChannelManager_deleteMembers;
  _ ← UA_SessionManager_deleteMembers;
  UA_Server_cleanupDelayedCallbacks.

(** ** Safety *)

Lemma skel_init m w n : skel (server_init m w n) = mkSkel [] 0 [] 0 [] ∅ ∅ ∅.
Proof. unfold skel; cbn; by rewrite !fmap_empty. Qed.

Lemma server_init_ok m w n : server_ok (server_init m w n).
Proof.
  pose proof maxSessions_range; unfold server_ok; rewrite skel_init.
  split; [|by split; [|split; [|cbn; unfold zlen; cbn; lia]]].
  constructor; cbn [k_channels k_sessions k_delayed k_ch k_se k_co]; try (by constructor); try done.
  - intros a; rewrite lookup_empty; split; [by intros []|set_solver].
  - set_solver.
  - intros a; rewrite lookup_empty; split; [by intros []|set_solver].
  - set_solver.
  - intros a; rewrite lookup_empty; by intros [].
  - intros a; rewrite lookup_empty; by intros [].
  - intros a; rewrite lookup_empty; by intros [].
  - intros h a; rewrite lookup_empty; split; [done|].
    intros (c & l & H1 & _); by rewrite lookup_empty in H1.
  - intros c a; rewrite lookup_empty; split; [done|].
    intros (l & H1); by rewrite lookup_empty in H1.
Qed.

Lemma safe_on_connection s c m (Q : unit -> UA_Server -> Prop) :
  Q tt s -> (is_Some (k_co (skel s) !! c) -> wp m Q s) -> wp (on_connection c m) Q s.
Proof.
  intros HQ Hk; apply wp_bind, wp_gets; destruct (h_connections (heap s) !! c) as [conn|] eqn:Hc.
  - apply Hk; exists (conn_channel conn); cbn; by rewrite lookup_fmap, Hc.
  - by apply wp_ret.
Qed.

(** *** Messages and chunks *)

Definition good_after (s s' : UA_Server) : Prop := server_ok s' /\ grows s s'.

Lemma good_after_refl s : server_ok s -> good_after s s.
Proof. by split. Qed.

Lemma safe_processSecureChannelMessage s a t id msg (Q : status -> UA_Server -> Prop) :
  server_ok s -> is_Some (k_ch (skel s) !! a) ->
  (forall r s', good_after s s' -> Q r s') -> wp (processSecureChannelMessage a t id msg) Q s.
Proof.
  intros Hok Ha HQ; unfold processSecureChannelMessage.
  destruct (_ =? _); [apply safe_processOPN; [done..|]; intros; by apply HQ|].
  destruct (_ =? _); [apply safe_processMSG; [done..|]; intros; by apply HQ|].
  destruct (_ =? _); [|by apply wp_ret, HQ].
  apply wp_bind, safe_close_channel_of; [done..|]; intros; by apply wp_ret, HQ.
Qed.

Lemma on_message_good s a app ch t id msg :
  is_Some (k_ch (skel s) !! a) -> app_is (good_after s) app ->
  app_is (good_after s) (snd (fst (on_message a app ch t id msg))).
Proof.
  intros Ha Happ; unfold on_message.
  match goal with |- context [run_app ?f ?m app] =>
    assert (app_is (good_after s) (snd (run_app f m app))) as H1; [|by destruct (run_app f m app) as [[r ch'] app']] end.
  apply run_app_is; [done|]; intros s1 [Hok1 Hg1]; pose proof (proj1 Hg1 a Ha) as [p Hp].
  eapply wp_bind, same_wp_store_channel; [reflexivity|done|]; intros s2 Hs2.
  pose proof (server_ok_same _ _ Hs2 Hok1) as Hok2.
  apply wp_bind, safe_processSecureChannelMessage; [done|destruct Hs2 as [-> _]; by eexists|].
  intros r s3 [Hok3 Hg3]; assert (grows s s3) as Hg.
  { transitivity s1; [done|]; transitivity s2; [by apply same_grows|done]. }
  pose proof (proj1 Hg a Ha) as [p3 Hp3].
  eapply wp_bind, same_wp_load_channel; [done..|]; intros ch' _; by apply wp_ret.
Qed.

Lemma safe_processChunk_on s a chunk (Q : status -> UA_Server -> Prop) :
  server_ok s -> is_Some (k_ch (skel s) !! a) ->
  (forall r s', good_after s s' -> Q r s') -> wp (processChunk_on a chunk) Q s.
Proof.
  intros Hok [p Ha] HQ; unfold processChunk_on.
  eapply wp_bind, wp_deref_channel; [done|]; intros e _ _.
  eapply wp_bind, same_wp_load_channel; [done..|]; intros ch _.
  apply wp_bind, wp_gets, wp_bind, wp_gets.
  match goal with |- context [UA_SecureChannel_processChunk ?po ?co ?ao ?cb ?app ch chunk] =>
    pose proof (processChunk_keeps po co ao cb (app_is (good_after s))
      (fun ap2 ch2 t2 id2 m2 => on_message_good s a ap2 ch2 t2 id2 m2 (ex_intro _ p Ha)) app ch chunk
      (ex_intro _ s (conj eq_refl (good_after_refl s Hok)))) as H1;
    destruct (UA_SecureChannel_processChunk po co ao cb app ch chunk) as [[r app'] ch'] end.
  eapply wp_bind, wp_resume; [exact H1|]; intros s1 [Hok1 Hg1].
  assert (is_Some (k_ch (skel s1) !! a)) as [p1 Ha1] by (apply Hg1; by eexists).
  eapply wp_bind, same_wp_store_channel; [reflexivity|done|]; intros s2 Hs2.
  apply wp_ret, HQ; split; [by eapply server_ok_same|]; transitivity s1; [done|by apply same_grows].
Qed.

Lemma safe_openChannel s c msg (Q : status -> UA_Server -> Prop) :
  server_ok s -> is_Some (k_co (skel s) !! c) ->
  (forall r s', good_after s s' -> Q r s') -> wp (openChannel c msg) Q s.
Proof.
  intros Hok [p Hc] HQ; unfold openChannel.
  eapply wp_bind, wp_deref_connection; [done|]; intros conn _ Hp.
  destruct (negb _); [by apply wp_ret, HQ|].
  destruct (decode_asymmetricHeader msg) as [[[r uri] cert] thumb]; destruct (bad r); [by apply wp_ret, HQ|].
  apply wp_bind, safe_createSecureChannel; [done|by eexists|]; intros r1 s1 Hok1 Hg1 Hr.
  destruct (bad r1); [by apply wp_ret, HQ|]; destruct (Hr eq_refl) as [a Ha].
  eapply wp_bind, wp_deref_connection; [done|]; intros conn1 _ Hp1; rewrite Hp1.
  apply safe_processChunk_on; [done| |].
  - apply (ok_connection_links _ _ (proj1 Hok1)) in Ha as [l Ha]; by eexists.
  - intros r2 s2 [Hok2 Hg2]; apply HQ; split; [done|by transitivity s1].
Qed.

Lemma safe_processCompleteChunk s c chunk (Q : status -> UA_Server -> Prop) :
  server_ok s -> is_Some (k_co (skel s) !! c) ->
  (forall r s', good_after s s' -> Q r s') -> wp (processCompleteChunk c chunk) Q s.
Proof.
  intros Hok [p Hc] HQ; unfold processCompleteChunk.
  eapply wp_bind, wp_deref_connection; [done|]; intros conn _ Hp; rewrite Hp; destruct p as [a|].
  - apply safe_processChunk_on; [done| |done].
    apply (ok_connection_links _ _ (proj1 Hok)) in Hc as [l Ha]; by eexists.
  - unfold processCompleteChunkWithoutChannel.
    destruct (decode_tcpHeader chunk) as [[r t] offset]; destruct (bad r); [by apply wp_ret, HQ|].
    destruct (_ =? _).
    { eapply same_wp_processHEL; [reflexivity|done|]; intros r1 s1 Hs1; apply HQ.
      split; [by eapply server_ok_same|by apply same_grows]. }
    destruct (_ =? _); [|by apply wp_ret, HQ]; apply safe_openChannel; [done|by eexists|done].
Qed.

(** *** Packets *)

(** The server and the connection in the hands of the stream layer. *)
Definition stream_ok (s : UA_Server) (c : nat) (app : option UA_Server) (conn : UA_Connection) : Prop :=
  app_is (fun s' => good_after s s' /\ k_co (skel s') !! c = Some (conn_channel conn)) app.

Lemma on_chunk_ok s c app conn chunk :
  stream_ok s c app conn ->
  let r := on_chunk c app conn chunk in stream_ok s c (snd (fst r)) (snd r).
Proof.
  intros (s1 & -> & [Hok1 Hg1] & Hc1); unfold on_chunk, run_app.
  match goal with |- context [match ?m s1 with _ => _ end] =>
    assert (wp m (fun p s' => good_after s s' /\ k_co (skel s') !! c = Some (conn_channel (snd p))) s1)
      as Hwp end.
  { eapply wp_bind, same_wp_write_connection; [reflexivity|done|]; intros s2 Hs2.
    pose proof (server_ok_same _ _ Hs2 Hok1) as Hok2.
    apply wp_bind, safe_processCompleteChunk; [done|destruct Hs2 as [-> _]; by eexists|].
    intros r s3 [Hok3 Hg3]; assert (grows s1 s3) as Hg13.
    { transitivity s2; [by apply same_grows|done]. }
    assert (is_Some (k_co (skel s3) !! c)) as [p3 Hp3] by (apply Hg13; by eexists).
    eapply wp_bind, wp_deref_connection; [done|]; intros conn3 _ Hconn3.
    apply wp_ret; cbn; rewrite Hconn3; split; [split; [done|by transitivity s1]|done]. }
  apply wp_defined in Hwp as ([r conn'] & s' & -> & Hs'); by exists s'.
Qed.

Lemma sendError_ok s0 c p app err :
  k_co (skel s0) !! c = Some p -> app_is (same s0) app ->
  app_is (same s0) (UA_Connection_sendError (net_getBuffer c) (net_send c) app err ArrNull).
Proof.
  intros Hc Happ; unfold UA_Connection_sendError, net_getBuffer.
  destruct (hideErrors err ArrNull) as [e r].
  match goal with |- context [net_get c app ?n] =>
    pose proof (net_get_same s0 c p app n Hc Happ) as H1; destruct (net_get c app n) as [r1 app1] end.
  destruct (bad r1); [done|].
  destruct (UA_encodeBinary_buf _ TcpMessageHeader _) as [r2 b].
  destruct (UA_encodeBinary_buf _ TcpErrorMessage _) as [r3 [o1 o2]].
  by eapply net_send_same.
Qed.

Lemma safe_processBinaryMessage s c bytes (Q : unit -> UA_Server -> Prop) :
  server_ok s -> is_Some (k_co (skel s) !! c) ->
  (forall s', server_ok s' -> Q tt s') -> wp (processBinaryMessage c bytes) Q s.
Proof.
  intros Hok [p Hc] HQ; unfold processBinaryMessage.
  eapply wp_bind, wp_deref_connection; [done|]; intros conn _ Hp.
  apply wp_bind, wp_gets, wp_bind, wp_gets.
  match goal with |- context [UA_Connection_processChunks ?cb ?ao ?st bytes] =>
    pose proof (processChunks_keeps cb ao (stream_ok s c) (on_chunk_ok s c) (fun _ _ _ H => H) st bytes)
      as H1; destruct (UA_Connection_processChunks cb ao st bytes) as [r st'] end.
  destruct H1 as (s1 & Happ & [Hok1 Hg1] & Hc1).
  { exists s; split; [done|]; split; [by apply good_after_refl|]; cbn; by rewrite Hp. }
  cbn in Happ, Hc1; rewrite Happ; apply wp_bind, wp_modify; unfold wp at 1; cbn [resume].
  eapply wp_bind, same_wp_write_connection; [reflexivity|done|]; intros s2 Hs2.
  pose proof (server_ok_same _ _ Hs2 Hok1) as Hok2; destruct (bad r); [|by apply wp_ret, HQ].
  assert (k_co (skel s2) !! c = Some (conn_channel (ps_conn st'))) as Hc2 by (by destruct Hs2 as [-> _]).
  apply wp_bind, wp_gets.
  assert (app_is (same s2) (Some s2)) as Hs0 by (by exists s2).
  eapply wp_bind, wp_resume; [by eapply sendError_ok|]; intros s3 Hs3.
  eapply same_wp_connection_close; [done..|]; intros s4 Hs4; by eapply HQ, server_ok_same.
Qed.

Lemma safe_exec s call (Q : unit -> UA_Server -> Prop) :
  server_ok s -> (forall s', server_ok s' -> Q tt s') -> wp (exec call) Q s.
Proof.
  intros Hok HQ; destruct call as [conf|c bytes|c|c| | |m w]; cbn [exec].
  - apply wp_bind, wp_malloc; intros [p|] s1 Hk1 Hu1 _ Hp.
    + specialize (Hp p eq_refl); subst p; apply wp_modify, HQ.
      match goal with |- server_ok ?s' => set (s2 := s') end.
      assert (skel s2 = k_set_co (skel s1) (<[used s := None]> (k_co (skel s1)))) as Hk2.
      { subst s2; unfold skel at 1, k_set_co; cbn; by rewrite fmap_insert. }
      destruct Hok as [Hk Hn]; split; rewrite Hk2, Hk1; [|done].
      apply (ok_new_connection _ (used s)); [done|]; change (used s2) with (used s1); lia.
    + apply wp_ret, HQ; eapply server_ok_same; [|done]; split; [done|lia].
  - apply safe_on_connection; [by apply HQ|]; intros Hc; by apply safe_processBinaryMessage.
  - apply safe_on_connection; [by apply HQ|]; intros Hc; by apply safe_removeConnection.
  - apply safe_on_connection; [by apply HQ|]; intros [p Hc].
    eapply same_wp_connection_close; [reflexivity|done|]; intros s1 Hs1.
    by eapply HQ, server_ok_same.
  - apply wp_bind, wp_gets, wp_bind, safe_cleanupTimedOut_sessions; [done|]; intros s1 Hok1 _.
    apply safe_cleanupTimedOut_channels; [done|]; intros; by apply HQ.
  - apply safe_cleanupDelayedCallbacks; [done|]; intros; by apply HQ.
  - apply wp_modify, HQ; eapply server_ok_same; [|done]; by split.
Qed.

Lemma safe_run calls s (Q : unit -> UA_Server -> Prop) :
  server_ok s -> (forall s', server_ok s' -> Q tt s') -> wp (run calls) Q s.
Proof.
  revert s; induction calls as [|call calls IH]; intros s Hok HQ; cbn [run].
  - by apply wp_ret, HQ.
  - apply wp_bind, safe_exec; [done|]; intros s1 Hok1; by apply IH.
Qed.

(** C4: from a new server, every sequence of connections, messages, timeouts
    and delayed callbacks is executed without following a dangling pointer to a
    channel, session or connection, freeing one of them twice or corrupting a
    list; afterwards every such object is allocated exactly while it is listed
    or waits for its delayed callback, the pointers between connections,
    channels and sessions are mutual, and there are at most [maxSessions]
    sessions.  Message buffers are values of the model and not covered. *)
Theorem server_safe calls m w n :
  exists s', run calls (server_init m w n) = Some (tt, s') /\ server_ok s'.
Proof.
  destruct (wp_defined (run calls) (fun _ s' => server_ok s') (server_init m w n))
    as ([] & s' & Hr & Hok).
  - apply safe_run; [apply server_init_ok|done].
  - by exists s'.
Qed.

Lemma safe_Server_delete s (Q : unit -> UA_Server -> Prop) :
  server_ok s ->
  (forall s', h_channels (heap s') = ∅ -> h_sessions (heap s') = ∅ -> delayedCallbacks s' = [] ->
     Q tt s') ->
  wp UA_Server_delete Q s.
Proof.
  intros [Hk _] HQ; unfold UA_Server_delete.
  apply wp_bind, wp_bind, wp_gets, wp_delete_channels; [done|apply (ok_channels _ _ Hk)|done|].
  intros s1 Hk1 Hc1; apply wp_bind, wp_bind, wp_gets, wp_delete_sessions;
    [done|apply (ok_sessions _ _ Hk1)|done|].
  intros s2 Hk2 Hc2 Hs2; apply wp_cleanupDelayedCallbacks; [done|].
  intros s3 Hk3 Hc3 _ Hs3 _ Hd3; apply HQ; [| |exact Hd3].
  - apply map_eq; intros a; rewrite lookup_empty; apply eq_None_not_Some; intros Ha.
    assert (is_Some (k_ch (skel s3) !! a)) as Ha3 by (cbn; by rewrite lookup_fmap, fmap_is_Some).
    apply (ok_ch_dom _ _ Hk3) in Ha3 as [Hin|Hin]; [|rewrite Hd3 in Hin; set_solver].
    rewrite Hc3, Hc2 in Hin; by apply Hc1 in Hin as [? ?].
  - apply map_eq; intros h; rewrite lookup_empty; apply eq_None_not_Some; intros Hh.
    assert (is_Some (k_se (skel s3) !! h)) as Hh3 by (cbn; by rewrite lookup_fmap, fmap_is_Some).
    apply (ok_se_dom _ _ Hk3) in Hh3 as [Hin|Hin]; [|rewrite Hd3 in Hin; set_solver].
    rewrite Hs3 in Hin; by apply Hs2 in Hin as [? ?].
Qed.

(** C6: deleting the server after any sequence of calls releases every
    channel and every session: no memory is leaked, nothing is freed twice. *)
Theorem server_delete_releases calls m w n :
  exists s', (_ ← run calls; UA_Server_delete) (server_init m w n) = Some (tt, s') /\
    h_channels (heap s') = ∅ /\ h_sessions (heap s') = ∅ /\ delayedCallbacks s' = [].
Proof.
  destruct (wp_defined (_ ← run calls; UA_Server_delete) (fun _ s' =>
      h_channels (heap s') = ∅ /\ h_sessions (heap s') = ∅ /\ delayedCallbacks s' = [])
      (server_init m w n)) as ([] & s' & Hr & Hok).
  - apply wp_bind, safe_run; [apply server_init_ok|]; intros s1 Hok1.
    by apply safe_Server_delete.
  - by exists s'.
Qed.
End Run.
