(* ===== verification/ServerInversion.v ===== *)
(** * Executions of the server taken apart

    What follows from an execution of an operation of the server: the result
    and the final state in terms of the initial one. *)

From Stdlib Require Import ZArith Lia SpecFloat.
From stdpp Require Import base list numbers tactics sets gmap.
From S2P Require Import Prelude StateMonad UaTypes UaValue BinaryEncode BinaryDecode FieldCodec Codec Connection SecureChannel SecureChannelCorrect ServerState SecureChannelManager SessionManager ServerBinary ServerLogic ServerInvariant ServerSafe ServerRun.

Section Inversion.
Context {E : ServerEnv}.

Lemma deref_channel_inv a s e s' :
  deref_channel a s = Some (e, s') -> h_channels (heap s) !! a = Some e /\ s' = s.
Proof. intros (h & s1 & [-> ->]%gets_inv & [H ->]%the_inv)%bind_inv; done. Qed.

Lemma deref_session_inv h s x s' :
  deref_session h s = Some (x, s') -> h_sessions (heap s) !! h = Some x /\ s' = s.
Proof. intros (w & s1 & [-> ->]%gets_inv & [H ->]%the_inv)%bind_inv; done. Qed.

(** The heap with a session changed. *)
Definition put_session (s : UA_Server) (h : nat) (x : UA_Session) : UA_Server :=
  with_heap s (with_h_sessions (heap s) (<[h := x]> (h_sessions (heap s)))).

Lemma write_session_inv h x s u s' : write_session h x s = Some (u, s') -> s' = put_session s h x.
Proof. intros (y & s1 & [_ ->]%deref_session_inv & ->%modify_inv)%bind_inv; done. Qed.

Lemma update_session_inv h f s u s' :
  update_session h f s = Some (u, s') ->
  exists x, h_sessions (heap s) !! h = Some x /\ s' = put_session s h (f x).
Proof.
  intros (x & s1 & [Hx ->]%deref_session_inv & ->%write_session_inv)%bind_inv; by exists x.
Qed.

Lemma updateLifetime_inv h s u s' :
  UA_Session_updateLifetime h s = Some (u, s') ->
  exists x, h_sessions (heap s) !! h = Some x /\
    s' = put_session s h (set_validTill x (lifetime_end x (monotonic (world s)))).
Proof.
  intros (t & s1 & [-> ->]%gets_inv & (x & Hx & ->)%update_session_inv)%bind_inv; by exists x.
Qed.

(** ** Sessions that are found *)

Definition has_token (s : UA_Server) (h : nat) (token : UA_NodeId) : Prop :=
  exists x, h_sessions (heap s) !! h = Some x /\
    UA_NodeId_equal (Some (authenticationToken x)) (Some token) = true.

Lemma find_attached_inv token l s r s' :
  find_attached token l s = Some (r, s') ->
  s' = s /\ forall h, r = Some h -> has_token s h token.
Proof.
  induction l as [|h l IH]; cbn [find_attached].
  - by intros [-> ->]%ret_inv.
  - intros (x & s1 & [Hx ->]%deref_session_inv & H)%bind_inv.
    destruct (UA_NodeId_equal _ _) eqn:Heq; [|auto].
    apply ret_inv in H as [-> ->]; split; [done|]; injection 1 as <-; by exists x.
Qed.

Lemma find_session_inv token l s r s' :
  find_session authenticationToken token l s = Some (r, s') ->
  s' = s /\ forall h, r = Some h -> has_token s h token.
Proof.
  induction l as [|h l IH]; cbn [find_session].
  - by intros [-> ->]%ret_inv.
  - intros (x & s1 & [Hx ->]%deref_session_inv & H)%bind_inv.
    destruct (UA_NodeId_equal _ _) eqn:Heq; [|auto]; cbn [negb] in H.
    apply bind_inv in H as (t & s1 & [-> ->]%gets_inv & [-> ->]%ret_inv).
    split; [done|]; destruct (_ <? _); [done|]; injection 1 as <-; by exists x.
Qed.

Lemma lookup_session_inv {TE : TypeEnv} a token s r s' :
  lookup_session a token s = Some (r, s') ->
  s' = s /\ forall h, r = Some h -> has_token s h token.
Proof.
  intros (r1 & s1 & (e & s2 & [_ ->]%deref_channel_inv & [-> H1]%find_attached_inv)%bind_inv
          & H)%bind_inv.
  destruct r1 as [h|]; [apply ret_inv in H as [-> ->]; by split|].
  destruct (UA_NodeId_isNull token); [by apply ret_inv in H as [-> ->]|].
  by apply bind_inv in H as (sm & s2 & [-> ->]%gets_inv & H%find_session_inv).
Qed.

(** ** Changes of a single session *)

(** The parts of a server that its sessions and channels do not belong to. *)
Definition side (s : UA_Server) :=
  (sessionManager s, delayedCallbacks s, closeSession_calls (world s), monotonic (world s),
   secureChannelManager s, wallclock (world s)).

Lemma side_clock s s' : side s' = side s -> monotonic (world s') = monotonic (world s).
Proof. by injection 1. Qed.

(** Of the sessions only [h] differs: it is [x] now. *)
Definition session_becomes (s s' : UA_Server) (h : nat) (x : UA_Session) : Prop :=
  h_sessions (heap s') = <[h := x]> (h_sessions (heap s)) /\ side s' = side s.

Lemma session_becomes_refl s h x : h_sessions (heap s) !! h = Some x -> session_becomes s s h x.
Proof. intros Hx; split; [by rewrite insert_id|done]. Qed.

Lemma session_becomes_trans s s1 s2 h x y :
  session_becomes s s1 h x -> session_becomes s1 s2 h y -> session_becomes s s2 h y.
Proof. intros [H1 H2] [H3 H4]; split; [by rewrite H3, H1, insert_insert_eq|congruence]. Qed.

Lemma set_s_channel_id x : set_s_channel x (s_channel x) = x.
Proof. by destruct x. Qed.

Lemma session_becomes_lookup s s' h x : session_becomes s s' h x -> h_sessions (heap s') !! h = Some x.
Proof. intros [-> _]; by rewrite lookup_insert_eq. Qed.

Lemma session_becomes_put s s1 h x y :
  session_becomes s s1 h x -> session_becomes s (put_session s1 h y) h y.
Proof. intros [H1 H2]; split; [by cbn; rewrite H1, insert_insert_eq|done]. Qed.

Lemma write_channel_inv a e s u s' :
  write_channel a e s = Some (u, s') ->
  h_sessions (heap s') = h_sessions (heap s) /\ side s' = side s.
Proof. by intros (y & s1 & [_ ->]%deref_channel_inv & ->%modify_inv)%bind_inv. Qed.

Lemma malloc_inv s p s' :
  malloc s = Some (p, s') -> heap s' = heap s /\ side s' = side s.
Proof.
  by intros (n & s1 & [-> ->]%gets_inv & (u & s2 & ->%modify_inv & [_ ->]%ret_inv)%bind_inv)%bind_inv.
Qed.

Lemma copy_bytes_inv l s r l' s' :
  copy_bytes l s = Some ((r, l'), s') ->
  heap s' = heap s /\ side s' = side s /\ (r = GOOD -> l' = l).
Proof.
  unfold copy_bytes; destruct (zlen l =? 0) eqn:Hl.
  - intros [[= -> ->] ->]%ret_inv; split; [done|split; [done|intros _]].
    destruct l; [done|]; rewrite zlen_cons in Hl; pose proof (zlen_nonneg l); lia.
  - intros (p & s1 & [H1 H2]%malloc_inv & [Hr ->]%ret_inv)%bind_inv.
    by destruct p; injection Hr as H3 H4; subst.
Qed.

Lemma attachSession_inv h a s u s' :
  UA_Session_attachToSecureChannel h a s = Some (u, s') ->
  exists x, h_sessions (heap s) !! h = Some x /\ session_becomes s s' h (set_s_channel x (Some a)).
Proof.
  intros (e & s1 & [_ ->]%deref_channel_inv & (u1 & s2 & [Hs Hw]%write_channel_inv
    & (x & Hx & ->)%update_session_inv)%bind_inv)%bind_inv.
  rewrite Hs in Hx; exists x; split; [done|]; split; [by cbn; rewrite Hs|exact Hw].
Qed.

Lemma detachSession_inv h s u s' :
  UA_Session_detachFromSecureChannel h s = Some (u, s') ->
  exists x, h_sessions (heap s) !! h = Some x /\ session_becomes s s' h (set_s_channel x None).
Proof.
  intros (x & s1 & [Hx ->]%deref_session_inv & H)%bind_inv; exists x; split; [done|].
  destruct (s_channel x) as [a|] eqn:Ha.
  - apply bind_inv in H as (u1 & s1 & ->%write_session_inv & H).
    apply bind_inv in H as (e & s1 & [_ ->]%deref_channel_inv & H).
    apply bind_inv in H as (l & s1 & ->%list_remove_inv & [H1 H2]%write_channel_inv).
    by split; [rewrite H1|].
  - apply ret_inv in H as [_ ->]; rewrite <- Ha, set_s_channel_id.
    by apply session_becomes_refl.
Qed.

Lemma generateNonce_inv h s r s' :
  UA_Session_generateNonce h s = Some (r, s') ->
  exists x n, h_sessions (heap s) !! h = Some x /\ session_becomes s s' h (set_serverNonce x n) /\
    (r = GOOD -> is_Some (s_channel x)).
Proof.
  intros (x & s1 & [Hx ->]%deref_session_inv & H)%bind_inv.
  destruct (s_channel x) as [a|] eqn:Ha.
  - apply bind_inv in H as (e & s1 & [_ ->]%deref_channel_inv & H).
    apply bind_inv in H as (ok & s1 & Hok & H).
    assert (heap s1 = heap s /\ side s1 = side s) as [Hs Hm].
    { destruct (_ =? _); [by apply ret_inv in Hok as [_ ->]|].
      by apply bind_inv in Hok as (p & s2 & ?%malloc_inv & [_ ->]%ret_inv). }
    destruct (negb ok).
    + apply bind_inv in H as (u & s2 & ->%write_session_inv & [-> ->]%ret_inv).
      exists x, []; split; [done|split; [split; [by cbn; rewrite Hs|exact Hm]|by rewrite Ha; eexists]].
    + destruct (generateNonce _ _) as [r1 n].
      apply bind_inv in H as (u & s2 & ->%write_session_inv & [-> ->]%ret_inv).
      exists x, n; split; [done|split; [split; [by cbn; rewrite Hs|exact Hm]|by rewrite Ha; eexists]].
  - apply ret_inv in H as [-> ->]; exists x, (serverNonce x); split; [done|split; [|done]].
    replace (set_serverNonce x (serverNonce x)) with x; [by apply session_becomes_refl|by destruct x].
Qed.


(** ** Removal *)

Lemma delayedCallback_inv d s r s' :
  UA_Server_delayedCallback d s = Some (r, s') ->
  h_sessions (heap s') = h_sessions (heap s) /\ h_channels (heap s') = h_channels (heap s) /\
  h_connections (heap s') = h_connections (heap s) /\
  sessionManager s' = sessionManager s /\ secureChannelManager s' = secureChannelManager s /\
  closeSession_calls (world s') = closeSession_calls (world s) /\
  delayedCallbacks s' = (if bad r then delayedCallbacks s else d :: delayedCallbacks s) /\
  ((forall n, malloc_ok n = true) -> r = GOOD).
Proof.
  intros (p & s1 & (n & s2 & [-> ->]%gets_inv & (u & s3 & ->%modify_inv & [-> ->]%ret_inv)%bind_inv)%bind_inv
          & H)%bind_inv.
  destruct (malloc_ok _) eqn:Hm.
  - by apply bind_inv in H as (v & s4 & ->%modify_inv & [-> ->]%ret_inv).
  - apply ret_inv in H as [-> ->]; repeat (split; [done|]); intros Hall; by rewrite Hall in Hm.
Qed.

(** A session that has been taken out of the list. *)
Definition retired (x : UA_Session) : UA_Session := set_activated (set_s_channel x None) false.

Lemma removeSession_inv h s r s' :
  (forall n, malloc_ok n = true) -> removeSession h s = Some (r, s') ->
  exists x, h_sessions (heap s) !! h = Some x /\
    h_sessions (heap s') = <[h := retired x]> (h_sessions (heap s)) /\
    sm_sessions (sessionManager s') = filter (fun b => b <> h) (sm_sessions (sessionManager s)) /\
    delayedCallbacks s' = removeSessionCallback h :: delayedCallbacks s /\
    closeSession_calls (world s') = closeSession_calls (world s).
Proof.
  intros Hm (u & s1 & (x & Hx & B1)%detachSession_inv & H)%bind_inv; exists x; split; [done|].
  apply bind_inv in H as (u2 & s2 & (y & Hy & H2)%update_session_inv & H).
  rewrite (session_becomes_lookup _ _ _ _ B1) in Hy; injection Hy as <-.
  apply (session_becomes_put _ _ _ _ (retired x)) in B1; unfold retired in B1 at 1; rewrite <- H2 in B1; clear H2.
  apply bind_inv in H as (r3 & s3 & (Hs & _ & _ & Hsm & _ & Hc & Hd & Hr)%delayedCallback_inv & H).
  specialize (Hr Hm); subst r3; rewrite bad_good in *; destruct B1 as [B1 Hside].
  injection Hside as Hsm2 Hd2 Hc2 _ _ _.
  apply bind_inv in H as (sm & s4 & [-> ->]%gets_inv & H).
  apply bind_inv in H as (l & s4 & Hl & H); unfold list_remove in Hl.
  destruct (decide _); [|done]; apply ret_inv in Hl as [-> ->].
  apply bind_inv in H as (u5 & s5 & ->%modify_inv & [-> ->]%ret_inv); cbn.
  split; [congruence|split; [by rewrite Hsm, Hsm2|split; congruence]].
Qed.
End Inversion.
