(* ===== verification/ServerExamples.v ===== *)
(** * A server to run

    A configuration without security, and calls of a client on it. *)

From Stdlib Require Import ZArith Lia SpecFloat.
From stdpp Require Import base list numbers tactics sets gmap.
From S2P Require Import Prelude StateMonad UaTypes UaValue BinaryEncode BinaryDecode BinarySpec FieldCodec Codec Connection SecureChannel SecureChannelCorrect ServerState SecureChannelManager SessionManager ServerBinary ServerLogic ServerInvariant ServerSafe ServerRun.

(** The result of a computation, without its state. *)
Lemma result_of {A B} (o : option (A * B)) a : fst <$> o = Some a -> exists b, o = Some (a, b).
Proof. destruct o as [[x b]|]; [|done]; injection 1 as <-; by exists b. Qed.

Lemma lookup_of {A B} (f : A -> B) (o : option A) b : f <$> o = Some b -> exists a, o = Some a /\ f a = b.
Proof. destruct o as [a|]; [|done]; injection 1 as <-; by exists a. Qed.

Module ServerExample.
(** The policy without security; its random words and keys do not matter. *)
Definition policy : UA_SecurityPolicy unit :=
  UA_SecurityPolicy_None (fun _ => 0x07070707) (fun n => replicate (Z.to_nat n) 0) ArrNull None.

Definition endpoint : UA_Endpoint unit UA_String :=
  mkEndpoint unit UA_String policy ArrNull (fun _ _ => (GOOD, [])) (fun _ _ _ => GOOD)
    (fun _ => 0) ArrNull.

Lemma two_sessions : 0 <= 2 < 2 ^ 32.
Proof. lia. Qed.

(** At most two channels, two sessions, ten minutes for a token, one hour for
    a session; [ok] tells which allocations succeed. *)
Definition env (ok : nat -> bool) : ServerEnv := {|
  PolicyContext := unit;
  null_context := tt;
  EndpointDescription := UA_String;
  null_endpoint := ArrNull;
  with_endpointUrl u _ := u;
  ApplicationDescription := unit;
  null_application := tt;
  UserIdentityToken := unit;
  endpoints := [endpoint];
  maxSecureChannels := 2;
  maxSecurityTokenLifetime := 600000;
  maxSessions := 2;
  maxSessions_range := two_sessions;
  maxSessionTimeout := binary_normalize 53 1024 3600000 0 false;
  accessControl_activateSession _ _ _ := (GOOD, 1);
  malloc_ok := ok;
  buffer_ok _ _ := true;
  chunk_ok _ _ := true;
  UA_Guid_random n := mkGuid (Z.of_nat n + 1) 0 0 [0; 0; 0; 0; 0; 0; 0; 0];
  Net := unit;
  socket_send n _ _ := (true, n)
|}.

(** Requests of the example: a node id is the token of the header; an open
    request is a number, the type of the request.  Responses are numbers: the
    id of a channel, or a status. *)
#[export] Instance generated (ok : nat -> bool) : @GeneratedTypes (env ok) := {|
  UA_TYPES_OPENSECURECHANNELREQUEST := UA_TYPES_UINT32;
  UA_TYPES_OPENSECURECHANNELRESPONSE := UA_TYPES_UINT32;
  open_request_of_value v :=
    match v with VInt n => mkOpenRequest 1 n 1 [] 0 | _ => mkOpenRequest 0 0 0 [] 0 end;
  value_of_open_response r := VInt (channelId (osp_securityToken r));
  UA_TYPES_REQUESTHEADER := UA_TYPES_NODEID;
  UA_TYPES_SERVICEFAULT := UA_TYPES_UINT32;
  requestType _ := UA_TYPES_NODEID;
  responseType _ := UA_TYPES_UINT32;
  requestHandle_of_header _ := 1;
  header_of_request _ v :=
    match v with VNodeId n => mkRequestHeader n 1 | _ => mkRequestHeader UA_NODEID_NULL 0 end;
  create_request_of_value _ :=
    @mkCreateRequest (env ok) tt ArrNull ArrNull ArrNull ArrNull (S754_zero false) 0;
  activate_request_of_value _ := @mkActivateRequest (env ok) [] tt;
  value_of_fault _ _ _ error := VInt error;
  value_of_create_response _ _ r := VInt (csp_serviceResult r);
  value_of_activate_response _ _ r := VInt (asp_serviceResult r);
  value_of_close_response _ _ r := VInt r;
  other_service _ _ _ _ _ _ := VInt GOOD;
  ServerBinary.calloc_ok _ _ := true
|}.

#[export] Instance always : ServerEnv := env (fun _ => true).

Definition conf : UA_ConnectionConfig := mkConnectionConfig 0 65535 65535 0 0.

Definition no_identity : @UA_ActivateSessionRequest always := @mkActivateRequest always [] tt.

(** *** Packets *)

Definition type_id (n : Z) : list Z := [1; 0] ++ le_bytes 2 n.
Definition open_body : list Z :=
  type_id (binaryEncodingId UA_TYPES_UINT32) ++ le_bytes 4 UA_SECURITYTOKENREQUESTTYPE_ISSUE.
Definition token_body (svc guid : Z) : list Z :=
  type_id svc ++ [4; 1; 0] ++ guid_image (mkGuid guid 0 0 [0; 0; 0; 0; 0; 0; 0; 0]).

(** A chunk with its type and size. *)
Definition packet (type : Z) (l : list Z) : list Z :=
  le_bytes 4 (type + UA_CHUNKTYPE_FINAL) ++ le_bytes 4 (zlen l + 8) ++ l.

Definition hello : list Z :=
  packet UA_MESSAGETYPE_HEL (concat (map (le_bytes 4) [0; 65535; 65535; 0; 0; 4294967295])).

(** Asymmetric header, sequence number and request id 1. *)
Definition open_packet : list Z :=
  packet UA_MESSAGETYPE_OPN
    (le_bytes 4 0 ++ le_bytes 4 (arr_length UA_SECURITY_POLICY_NONE_URI)
     ++ string_bytes UA_SECURITY_POLICY_NONE_URI ++ le_bytes 4 4294967295 ++ le_bytes 4 4294967295
     ++ le_bytes 4 1 ++ le_bytes 4 1 ++ open_body).

(** The ids of channel and token are both [id]; [seq] is the number of the
    message and of the request. *)
Definition message (id seq : Z) (body : list Z) : list Z :=
  packet UA_MESSAGETYPE_MSG
    (le_bytes 4 id ++ le_bytes 4 id ++ le_bytes 4 seq ++ le_bytes 4 seq ++ body).

(** A client that connects and opens a channel, on connection [c]. *)
Definition open_on (c : nat) : list ServerCall := [Packet c hello; Packet c open_packet].
Definition connect (c : nat) : list ServerCall := Accept conf :: open_on c.
End ServerExample.

(** States of the server after calls. *)
Module DispatchExample.
Import ServerExample.
#[export] Existing Instances ChannelExample.env ChannelExample.transport.

(** The state after calls, the monotonic clock at 1000. *)
Definition start : UA_Server := server_init 1000 130000000000000000 tt.
Definition after (calls : list ServerCall) : UA_Server :=
  match run calls start with Some (_, s) => s | None => start end.

(** The client on connection 0 has the channel 2 and the session 6. *)
Definition activated_session : list ServerCall :=
  connect 0 ++ [Packet 0 (message 1 2 (token_body 461 0)); Packet 0 (message 1 3 (token_body 467 2))].

Lemma after_ok calls : server_ok (after calls).
Proof.
  unfold after; destruct (wp_defined (run calls) (fun _ s' => server_ok s') start) as ([] & s' & Hr & Hok).
  - apply safe_run; [apply server_init_ok|done].
  - by rewrite Hr.
Qed.

Lemma after_run calls : run calls start = Some (tt, after calls).
Proof.
  unfold after; destruct (wp_defined (run calls) (fun _ s' => server_ok s') start) as ([] & s' & Hr & Hok).
  - apply safe_run; [apply server_init_ok|done].
  - by rewrite Hr.
Qed.
End DispatchExample.
