(* ===== verification/SessionCorrect.v ===== *)
(** * Correctness of sessions

    Which session a service is called with, what activating a session does,
    and which sessions are removed when they time out. *)

From Stdlib Require Import ZArith Lia SpecFloat.
From stdpp Require Import base list numbers tactics sets gmap.
From S2P Require Import Prelude StateMonad UaTypes UaValue BinaryEncode BinaryDecode FieldCodec Codec Connection SecureChannel SecureChannelCorrect ServerState SecureChannelManager SessionManager ServerBinary ServerLogic ServerInvariant ServerSafe ServerRun ServerInversion ServerExamples.

(** ** Which session a service is called with *)

Section Dispatch.
Context {TE : TypeEnv} {E : ServerEnv} {GT : GeneratedTypes}.

(** The session [h] may be used by a service for the request [token]. *)
Definition bound_session (s : UA_Server) (a h : nat) (svc : Service) (token : UA_NodeId) : Prop :=
  exists x, h_sessions (heap s) !! h = Some x /\
    s_channel x = Some a /\
    (requiresSession svc = true -> activated x = true) /\
    validTill x = lifetime_end x (monotonic (world s)) /\
    UA_NodeId_equal (Some (authenticationToken x)) (Some token) = true.

Lemma call_with_session_inv a svc h pos handle v token s svc' o handle' v' s' :
  call_with_session a svc (requiresSession svc) h pos handle v s
    = Some (CallService svc' o handle' v', s') ->
  has_token s h token ->
  svc' = svc /\ o = Some h /\ handle' = handle /\ v' = v /\ bound_session s' a h svc token.
Proof.
  intros (x & s1 & [Hx ->]%deref_session_inv & H)%bind_inv (x' & Hx' & Htok).
  rewrite Hx in Hx'; injection Hx' as <-.
  destruct (requiresSession svc && negb (activated x)) eqn:Hact.
  { by apply bind_inv in H as (r & s1 & _ & [? _]%ret_inv). }
  destruct (bool_decide_reflect (s_channel x = Some a)) as [Hch|]; cbn [negb] in H;
    [|by apply ret_inv in H as [? _]].
  apply bind_inv in H as (u & s1 & (y & Hy & ->)%updateLifetime_inv & [Heq ->]%ret_inv).
  rewrite Hx in Hy; simplify_eq; do 4 (split; [done|]).
  eexists; cbn; split; [by rewrite lookup_insert_eq|]; cbn; split; [done|].
  split; [|by split].
  intros Hreq; rewrite Hreq in Hact; by destruct (activated y).
Qed.

Lemma dispatch_inv a svc pos hd v rq s svc' o handle v' s' :
  dispatch a svc (requiresSession svc) pos hd v rq s = Some (CallService svc' o handle v', s') ->
  rq = RequestOther /\ svc' = svc /\ handle = rh_requestHandle hd /\ v' = v /\
  match o with
  | None => requiresSession svc = false
  | Some h => bound_session s' a h svc (rh_authenticationToken hd)
  end.
Proof.
  destruct rq as [r|r|]; cbn [dispatch].
  - by intros (x & s1 & _ & [? _]%ret_inv)%bind_inv.
  - intros (o1 & s1 & _ & H)%bind_inv; destruct o1; [|by apply ret_inv in H as [? _]].
    by apply bind_inv in H as (x & s2 & _ & [? _]%ret_inv).
  - intros (o1 & s1 & [-> Hf]%lookup_session_inv & H)%bind_inv; destruct o1 as [h|].
    + apply call_with_session_inv with (token := rh_authenticationToken hd) in H; [|by apply Hf].
      by destruct H as (-> & -> & -> & -> & ?).
    + destruct (requiresSession svc); [by apply ret_inv in H as [? _]|].
      by apply ret_inv in H as [H ->]; simplify_eq.
Qed.

(** C5: whenever the server hands a request to a service, the request has
    been decoded, the service is the one its type id names and neither
    CreateSession nor ActivateSession; a service that requires a session has
    one, which is activated; and a session that is handed over is attached to
    the very channel the request came through, carries the authentication
    token of the request header, and its lifetime has just been extended. *)
Theorem service_called_with_bound_session a msg s svc o handle v s' :
  find_reply a msg s = Some (CallService svc o handle v, s') ->
  exists offset pos n req ty header,
    UA_decodeBinary calloc_ok msg 0 UA_TYPES_NODEID
      = (GOOD, Some (VNodeId (mkNodeId 0 (NumericId n))), offset) /\
    getServicePointers n = Some (svc, req, ty) /\
    UA_decodeBinary calloc_ok msg offset (requestType svc) = (GOOD, Some v, pos) /\
    header = header_of_request svc v /\ handle = rh_requestHandle header /\
    svc <> CreateSession /\ svc <> ActivateSession /\
    match o with
    | None => requiresSession svc = false
    | Some h => bound_session s' a h svc (rh_authenticationToken header)
    end.
Proof.
  unfold find_reply; destruct (UA_decodeBinary _ _ 0 _) as [[r id] offset] eqn:Hid.
  destruct (bad r) eqn:Hr; [by intros [? _]%ret_inv|]; apply bad_false in Hr; subst r.
  match goal with |- context [getServicePointers ?n] => set (num := n) end.
  destruct (getServicePointers num) as [[[svc0 req] ty]|] eqn:Hsvc; [|by intros [? _]%ret_inv].
  destruct (UA_decodeBinary _ _ offset _) as [[r v0] pos] eqn:Hv.
  destruct (bad r) eqn:Hr; [by intros [? _]%ret_inv|]; apply bad_false in Hr; subst r.
  destruct v0 as [v0|]; [|done]; pose proof (getServicePointers_session _ _ _ _ Hsvc) as ->.
  intros (Hrq & -> & -> & -> & Ho)%dispatch_inv.
  assert (exists n, id = Some (VNodeId (mkNodeId 0 (NumericId n))) /\ num = n) as (n & -> & ->).
  { subst num; revert Hsvc; destruct id as [w|]; [destruct w as [| | |[ns i]| | | | | | | | |]|];
      try done; destruct ns, i; try done; eauto. }
  eexists offset, pos, n, _, ty, _; do 5 (split; [done|]).
  unfold request_of_value in Hrq; destruct (decide (svc0 = CreateSession)) as [|Hc]; [done|].
  by destruct (decide (svc0 = ActivateSession)).
Qed.
End Dispatch.

Section DispatchWitness.
Import ServerExample DispatchExample.

Lemma service_called_with_bound_session_witness :
  exists s s' handle v token, run activated_session start = Some (tt, s) /\
    find_reply 2 (token_body 631 2) s = Some (CallService Service_Read (Some 6%nat) handle v, s') /\
    bound_session s' 2 6 Service_Read token.
Proof.
  edestruct (result_of (find_reply 2 (token_body 631 2) (after activated_session))) as [s' H];
    [vm_compute; reflexivity|].
  pose proof (service_called_with_bound_session _ _ _ _ _ _ _ _ H)
    as (offset & pos & n & req & ty & header & _ & _ & _ & _ & _ & _ & _ & Hb).
  eexists (after activated_session), s', _, _, (rh_authenticationToken header).
  split; [apply after_run|split; [exact H|exact Hb]].
Defined.
End DispatchWitness.

(** ** Activating a session *)

Section Activation.
Context {E : ServerEnv}.

(** What a client has to show: the signature, on a signed channel. *)
Definition signature_ok (s : UA_Server) (a : nat) (x : UA_Session) (signature : list Z) : Prop :=
  exists e, h_channels (heap s) !! a = Some e /\
    (is_signed (securityMode (e_channel e)) = true ->
     certSign_verify (e_endpoint e) (channelContext (e_channel e))
       (string_bytes (localCertificate (e_policy e)) ++ serverNonce x) signature = GOOD).

Lemma checkSignature_inv a h req s r s' :
  checkSignature a h req s = Some (r, s') ->
  heap s' = heap s /\ side s' = side s /\
  exists x, h_sessions (heap s) !! h = Some x /\
    (r = GOOD -> signature_ok s a x (asr_clientSignature req)).
Proof.
  intros (e & s1 & [He ->]%deref_channel_inv & (x & s2 & [Hx ->]%deref_session_inv & H)%bind_inv)%bind_inv.
  destruct (is_signed _) eqn:Hs; cbn [negb] in H.
  - apply bind_inv in H as ([r1 d] & s2 & (Hh & Hm & Hd)%copy_bytes_inv & H).
    destruct (bad r1) eqn:Hb; apply ret_inv in H as [-> ->].
    + split; [done|split; [done|exists x; split; [done|by intros ->]]].
    + apply bad_false in Hb; rewrite (Hd Hb).
      split; [done|split; [done|exists x; split; [done|]]]; intros Hv; exists e; split; [done|by intros].
  - apply ret_inv in H as [-> ->]; split; [done|split; [done|]].
    exists x; split; [done|]; intros _; exists e; split; [done|by rewrite Hs].
Qed.

(** The session [x] has become [x'] by a successful activation on channel [a]. *)
Definition activated_on (s : UA_Server) (a : nat) (req : UA_ActivateSessionRequest)
    (x x' : UA_Session) : Prop :=
  is_Some (s_channel x) /\
  monotonic (world s) <= validTill x /\
  signature_ok s a x (asr_clientSignature req) /\
  accessControl_activateSession (sessionId x) (asr_userIdentityToken req) (sessionHandle x)
    = (GOOD, sessionHandle x') /\
  s_channel x' = Some a /\ activated x' = true /\
  validTill x' = lifetime_end x (monotonic (world s)) /\
  authenticationToken x' = authenticationToken x /\ sessionId x' = sessionId x.

Lemma move_session_inv a h s u s' :
  move_session a h s = Some (u, s') ->
  exists x, h_sessions (heap s) !! h = Some x /\
    session_becomes s s' h (set_s_channel x (s_channel x ≫= fun _ => Some a)).
Proof.
  intros (x & s1 & [Hx ->]%deref_session_inv & H)%bind_inv; exists x; split; [done|].
  destruct (s_channel x) as [b|] eqn:Hb; simpl in H |- *.
  - destruct (bool_decide_reflect (Some b = Some a)) as [Heq|Hne]; cbn in H.
    + apply ret_inv in H as [_ ->]; rewrite <- Heq, <- Hb, set_s_channel_id.
      by apply session_becomes_refl.
    + apply bind_inv in H as (u1 & s1 & (y & Hy & H1)%detachSession_inv & (z & Hz & H2)%attachSession_inv).
      rewrite (session_becomes_lookup _ _ _ _ H1) in Hz; rewrite Hx in Hy; simplify_eq.
      exact (session_becomes_trans _ _ _ _ _ _ H1 H2).
  - apply ret_inv in H as [_ ->]; rewrite <- Hb, set_s_channel_id.
    by apply session_becomes_refl.
Qed.

(** One more step of a session whose state [Hb : session_becomes s s1 h x] is
    known: [H] says what the step does. *)
Ltac session_step Hb H :=
  let y := fresh "y" in
  let Hy := fresh "Hy" in
  destruct H as (y & Hy & H);
  rewrite (session_becomes_lookup _ _ _ _ Hb) in Hy; injection Hy as <-.

(** The same, if the step writes the session back. *)
Ltac session_put Hb H B :=
  session_step Hb H;
  match type of H with
  | ?s' = put_session _ _ ?y => pose proof (session_becomes_put _ _ _ _ y Hb) as B; rewrite <- H in B; clear H
  end.

(** What [finish_activation] makes of a session, up to the new nonce. *)
Definition activation_of (a : nat) (t : Z) (x : UA_Session) (nonce : list Z) : UA_Session :=
  let x := set_activated (set_s_channel x (s_channel x ≫= fun _ => Some a)) true in
  set_serverNonce (set_validTill x (lifetime_end x t)) nonce.

Lemma finish_activation_inv a h s resp s' :
  finish_activation a h s = Some (resp, s') ->
  exists x, h_sessions (heap s) !! h = Some x /\
    if bad (asp_serviceResult resp)
    then exists x', session_becomes s s' h x' /\ activated x' = false /\ s_channel x' = None
    else is_Some (s_channel x) /\
      session_becomes s s' h (activation_of a (monotonic (world s)) x (asp_serverNonce resp)).
Proof.
  intros (u & s1 & (x & Hx & B1)%move_session_inv & H)%bind_inv; exists x; split; [done|].
  apply bind_inv in H as (u2 & s2 & H2%update_session_inv & H); session_put B1 H2 B2.
  apply bind_inv in H as (u3 & s3 & H3%updateLifetime_inv & H); session_put B2 H3 B3.
  destruct B2 as [_ Hm%side_clock]; rewrite Hm in *; clear B1.
  apply bind_inv in H as (r1 & s4 & (y & n & Hy & B4 & Hch)%generateNonce_inv & H).
  rewrite (session_becomes_lookup _ _ _ _ B3) in Hy; injection Hy as <-.
  apply (session_becomes_trans _ _ _ _ _ _ B3) in B4; clear B3.
  apply bind_inv in H as (y & s5 & [Hy ->]%deref_session_inv & H).
  rewrite (session_becomes_lookup _ _ _ _ B4) in Hy; injection Hy as <-.
  apply bind_inv in H as ([r2 nonce] & s6 & (Hh6 & Hm6 & Hn)%copy_bytes_inv & H).
  change (session_becomes s s4 h (activation_of a (monotonic (world s)) x n)) in B4.
  assert (session_becomes s s6 h (activation_of a (monotonic (world s)) x n)) as B6.
  { destruct B4; split; congruence. }
  destruct (bad (Z.lor r1 r2)) eqn:Hb.
  - apply bind_inv in H as (u7 & s7 & H7%detachSession_inv & H); session_step B6 H7.
    apply (session_becomes_trans _ _ _ _ _ _ B6) in H7.
    apply bind_inv in H as (u8 & s8 & H8%update_session_inv & [-> ->]%ret_inv).
    session_put H7 H8 B8; cbn [asp_serviceResult]; rewrite Hb; by eexists.
  - apply ret_inv in H as [-> ->]; cbn [asp_serviceResult asp_serverNonce]; rewrite Hb.
    apply bad_false, lor_good in Hb as [-> ->]; rewrite (Hn eq_refl).
    split; [|done]; specialize (Hch eq_refl); cbn in Hch.
    destruct (s_channel x); [by eexists|by destruct Hch].
Qed.

(** C7: ActivateSession answers GOOD only for a session that has not timed out,
    is attached to some channel, whose client has signed the certificate and
    the last nonce of the server (on a signed channel) and whose user the
    access control has accepted; the session is then activated and attached
    to the channel of the request, its lifetime starts anew, the nonce of the
    answer is its new nonce, and no other session has changed.  After a failed
    activation the session is activated only if it was before, on the same
    channel and with the same lifetime. *)
Theorem activate_session_result a h req s resp s' :
  Service_ActivateSession a h req s = Some (resp, s') ->
  exists x x', h_sessions (heap s) !! h = Some x /\
    h_sessions (heap s') = <[h := x']> (h_sessions (heap s)) /\
    if bad (asp_serviceResult resp)
    then activated x' = true ->
         activated x = true /\ s_channel x' = s_channel x /\ validTill x' = validTill x
    else activated_on s a req x x' /\ asp_serverNonce resp = serverNonce x'.
Proof.
  intros (x & s1 & [Hx ->]%deref_session_inv & (t & s2 & [-> ->]%gets_inv & H)%bind_inv)%bind_inv.
  exists x; destruct (validTill x <? monotonic (world s)) eqn:Ht.
  { apply ret_inv in H as [-> ->]; exists x; split; [done|split; [by rewrite insert_id|done]]. }
  apply bind_inv in H as (r & s1 & (Hh1 & Hm1 & y & Hy & Hsig)%checkSignature_inv & H).
  rewrite Hx in Hy; injection Hy as <-.
  destruct (bad r) eqn:Hr.
  { apply ret_inv in H as [-> ->]; exists x; rewrite Hh1.
    split; [done|split; [by rewrite insert_id|by cbn; rewrite Hr]]. }
  apply bad_false in Hr; specialize (Hsig Hr).
  destruct (accessControl_activateSession _ _ _) as [ra hd] eqn:Hac.
  apply bind_inv in H as (u & s2 & (y & Hy & ->)%update_session_inv & H).
  rewrite Hh1, Hx in Hy; injection Hy as <-.
  assert (session_becomes s (put_session s1 h (set_handle x hd)) h (set_handle x hd)) as B2.
  { split; [by cbn; rewrite Hh1|done]. }
  destruct (bad ra) eqn:Hra.
  { apply ret_inv in H as [-> ->]; exists (set_handle x hd); cbn [asp_serviceResult]; rewrite Hra.
    split; [done|split; [by destruct B2|done]]. }
  apply bad_false in Hra; subst ra.
  apply finish_activation_inv in H; session_step B2 H.
  destruct (bad (asp_serviceResult resp)).
  - destruct H as (x' & B & Hf & _); exists x'; split; [done|].
    apply (session_becomes_trans _ _ _ _ _ _ B2) in B as [B _]; by rewrite Hf.
  - destruct H as [[b Hch] B]; cbn in Hch; eexists; split; [done|].
    destruct B2 as [B2 Hm2%side_clock]; destruct B as [B _]; rewrite Hm2 in B.
    split; [rewrite B, B2, insert_insert_eq; reflexivity|].
    unfold activated_on; cbn; rewrite Hch; split; [|done].
    split; [by eexists|]; split; [lia|]; by do 4 (split; [done|]).
Qed.



End Activation.

(** ** Sessions that time out *)

Section Timeout.
Context {E : ServerEnv}.
Context (memory : forall n, malloc_ok n = true).

Definition expired (m : gmap nat UA_Session) (t : Z) (h : nat) : bool :=
  match m !! h with Some x => validTill x <? t | None => false end.

(** What access control is told about a session. *)
Definition session_ids (m : gmap nat UA_Session) (h : nat) : UA_NodeId * Z :=
  match m !! h with
  | Some x => (sessionId x, sessionHandle x)
  | None => (UA_NODEID_NULL, 0)
  end.

Definition dead_sessions (m : gmap nat UA_Session) (t : Z) (l : list nat) : list nat :=
  List.filter (expired m t) l.

(** The sessions [dead] have been removed, in this order. *)
Definition removed (s s' : UA_Server) (dead : list nat) : Prop :=
  let m := h_sessions (heap s) in
  sm_sessions (sessionManager s') = filter (fun h => h ∉ dead) (sm_sessions (sessionManager s)) /\
  delayedCallbacks s' = rev (map removeSessionCallback dead) ++ delayedCallbacks s /\
  closeSession_calls (world s') = rev (map (session_ids m) dead) ++ closeSession_calls (world s) /\
  forall h, h_sessions (heap s') !! h =
    (fun x => if bool_decide (h ∈ dead) then retired x else x) <$> m !! h.

Lemma dead_sessions_ext m m' t l :
  (forall h, h ∈ l -> m' !! h = m !! h) -> dead_sessions m' t l = dead_sessions m t l.
Proof.
  intros Hm; apply filter_ext_in; intros h Hh%list_elem_of_In; unfold expired; by rewrite Hm.
Qed.

Lemma session_ids_ext m m' l :
  (forall h, h ∈ l -> m' !! h = m !! h) -> map (session_ids m') l = map (session_ids m) l.
Proof.
  intros Hm; apply map_ext_in; intros h Hh%list_elem_of_In; unfold session_ids; by rewrite Hm.
Qed.

Lemma filter_not_in_nil (l : list nat) : filter (fun h => h ∉ []) l = l.
Proof.
  induction l as [|h l IH]; [done|]; rewrite filter_cons_True by (apply not_elem_of_nil).
  by rewrite IH.
Qed.

Lemma dead_sessions_subset m t l h : h ∈ dead_sessions m t l -> h ∈ l.
Proof. rewrite !list_elem_of_In; unfold dead_sessions; rewrite filter_In; by intros [? _]. Qed.

Lemma removed_nil s : removed s s [].
Proof.
  split; [|split; [done|split; [done|]]].
  - symmetry; apply filter_not_in_nil.
  - intros h; rewrite bool_decide_eq_false_2 by set_solver; by destruct (_ !! h).
Qed.

Lemma removed_cons h l s s1 s' x :
  h_sessions (heap s) !! h = Some x -> h ∉ l ->
  h_sessions (heap s1) = <[h := retired x]> (h_sessions (heap s)) ->
  sm_sessions (sessionManager s1) = filter (fun b => b <> h) (sm_sessions (sessionManager s)) ->
  delayedCallbacks s1 = removeSessionCallback h :: delayedCallbacks s ->
  closeSession_calls (world s1) = (sessionId x, sessionHandle x) :: closeSession_calls (world s) ->
  removed s1 s' l -> removed s s' (h :: l).
Proof.
  intros Hx Hh Hm Hl Hd Hc (R1 & R2 & R3 & R4); unfold removed.
  split; [|split; [|split]].
  - rewrite R1, Hl, list_filter_filter; apply list_filter_iff; intros b.
    rewrite not_elem_of_cons; naive_solver.
  - rewrite R2, Hd; cbn [map rev]; by rewrite <- app_assoc.
  - rewrite R3, Hc; cbn [map rev]; rewrite <- app_assoc; f_equal.
    + f_equal; apply session_ids_ext; intros b Hb; rewrite Hm, lookup_insert_ne; [done|set_solver].
    + unfold session_ids; by rewrite Hx.
  - intros b; rewrite R4, Hm; destruct (decide (b = h)) as [->|Hne].
    + rewrite lookup_insert_eq, Hx; cbn; rewrite bool_decide_eq_false_2, bool_decide_eq_true_2
        by set_solver; done.
    + rewrite lookup_insert_ne by done; erewrite bool_decide_ext; [done|set_solver].
Qed.

Lemma cleanup_sessions_inv t l s u s' :
  NoDup l -> cleanup_sessions t l s = Some (u, s') ->
  removed s s' (dead_sessions (h_sessions (heap s)) t l).
Proof.
  revert s; induction l as [|h l IH]; intros s Hnd H; cbn [cleanup_sessions] in H.
  - apply ret_inv in H as [_ ->]; apply removed_nil.
  - apply NoDup_cons in Hnd as [Hh Hnd].
    apply bind_inv in H as (x & s1 & [Hx ->]%deref_session_inv & H).
    unfold dead_sessions; cbn [List.filter]; fold (dead_sessions (h_sessions (heap s)) t l).
    unfold expired at 1; rewrite Hx.
    apply bind_inv in H as (u1 & s1 & Hs1 & H).
    destruct (Z.leb_spec t (validTill x)) as [Hle|Hlt].
    + apply ret_inv in Hs1 as [_ ->]; rewrite (proj2 (Z.ltb_ge _ _)) by done; by apply IH.
    + rewrite (proj2 (Z.ltb_lt _ _)) by done.
      apply bind_inv in Hs1 as (u2 & s2 & ->%modify_inv & Hs1).
      apply bind_inv in Hs1 as (r & s3 & Hr & [_ ->]%ret_inv).
      apply removeSession_inv in Hr as (y & Hy & H1 & H2 & H3 & H4); [|done].
      cbn in Hy, H1, H2, H3, H4; rewrite Hx in Hy; injection Hy as <-.
      apply (IH _ Hnd) in H; rewrite (dead_sessions_ext (h_sessions (heap s))) in H.
      * eapply removed_cons; [done| |exact H1|done..]; by intros ?%dead_sessions_subset.
      * intros b Hb; rewrite H1, lookup_insert_ne; [done|]; by intros ->.
Qed.

(** while there is memory, the periodic cleanup removes exactly the
    sessions whose lifetime has ended before the given time: they leave the
    list, the order of the others kept; each is detached from its channel,
    deactivated and freed by a delayed callback; access control is told about
    each of them once, in the order of the list; and no other session
    changes. *)
Theorem timed_out_sessions_removed t s :
  server_ok s ->
  exists s', UA_SessionManager_cleanupTimedOut t s = Some (tt, s') /\
    removed s s' (dead_sessions (h_sessions (heap s)) t (sm_sessions (sessionManager s))).
Proof.
  intros Hok.
  destruct (wp_defined (UA_SessionManager_cleanupTimedOut t) (fun _ _ => True) s) as ([] & s' & H & _).
  { by apply safe_cleanupTimedOut_sessions. }
  exists s'; split; [done|]; apply bind_inv in H as (sm & s1 & [-> ->]%gets_inv & H).
  eapply cleanup_sessions_inv; [apply (ok_sessions _ _ (proj1 Hok))|exact H].
Qed.
End Timeout.

Section ActivationExamples.
Import ServerExample DispatchExample.

Definition created_session : list ServerCall :=
  connect 0 ++ [Packet 0 (message 1 2 (token_body 461 0))].

(** A second client comes two minutes after the first. *)
Definition two_clients : list ServerCall :=
  activated_session ++ Tick 1200001000 130000001200000000 :: connect 13
  ++ [Packet 13 (message 2 2 (token_body 461 0))].

Lemma timed_out_sessions_removed_witness :
  exists s', UA_SessionManager_cleanupTimedOut 36000001001 (after two_clients) = Some (tt, s') /\
    removed (after two_clients) s' [6%nat] /\
    sm_sessions (sessionManager (after two_clients)) = [19; 6]%nat.
Proof.
  destruct (timed_out_sessions_removed (E := always) (fun _ => eq_refl) 36000001001 (after two_clients)
              (after_ok two_clients)) as (s' & H1 & H2).
  exists s'; split; [exact H1|].
  replace (dead_sessions _ _ _) with [6%nat] in H2 by (vm_compute; reflexivity).
  split; [exact H2|vm_compute; reflexivity].
Defined.

Lemma activate_session_result_witness :
  exists resp s' x x',
    Service_ActivateSession 2 6 no_identity (after created_session)
      = Some (resp, s') /\
    asp_serviceResult resp = GOOD /\
    activated_on (after created_session) 2 no_identity x x'.
Proof.
  destruct (result_of (Service_ActivateSession 2 6 no_identity (after created_session))
              (mkActivateResponse GOOD (replicate 32 7))) as [s' H]; [vm_compute; reflexivity|].
  destruct (activate_session_result _ _ _ _ _ _ H) as (x & x' & _ & _ & Hx).
  exists (mkActivateResponse GOOD (replicate 32 7)), s', x, x'.
  split; [exact H|split; [reflexivity|exact (proj1 Hx)]].
Defined.

(** The client loses its connection, its channel is released, and it connects
    again. *)
Definition reconnected : list ServerCall :=
  activated_session ++ [Disconnect 0; Cleanup; DelayedCallbacks] ++ connect 14.

(** The answer to a message and the sessions of the server afterwards. *)
Definition answer (a : nat) (msg : list Z) (calls : list ServerCall) : option (Reply * list nat) :=
  '(r, s') ← find_reply a msg (after calls); Some (r, sm_sessions (sessionManager s')).

(** A client that loses its connection and asks for its session on a new
    channel before the session has timed out is refused with
    BADINTERNALERROR, although the session is still there; the same request on
    a second channel while the first one exists succeeds. *)
Example session_lost_with_channel :
  answer 16 (token_body 467 2) reconnected
    = Some (ReplyActivateSession 1 (mkActivateResponse BADINTERNALERROR (replicate 32 7)), [6%nat]) /\
  fst <$> answer 15 (token_body 467 2) (activated_session ++ connect 13)
    = Some (ReplyActivateSession 1 (mkActivateResponse GOOD (replicate 32 7))).
Proof. split; vm_compute; reflexivity. Qed.

End ActivationExamples.

