(* ===== verification/ChannelCorrect.v ===== *)
(** * Correctness of the server's SecureChannels

    Opening and creating channels, their release, and how long they live. *)

From Stdlib Require Import ZArith Lia SpecFloat.
From stdpp Require Import base list numbers tactics sets gmap.
From S2P Require Import Prelude StateMonad UaTypes UaValue BinaryEncode BinaryDecode FieldCodec Codec Connection SecureChannel SecureChannelCorrect ServerState SecureChannelManager SessionManager ServerBinary ServerLogic ServerInvariant ServerSafe ServerRun ServerInversion ServerExamples.

(** ** Opening *)

Section Opening.
Context {E : ServerEnv}.

Abbreviation channel := (UA_SecureChannel PolicyContext).

(** What opening and renewing leave alone. *)
Definition around (s : UA_Server) := (side s, h_sessions (heap s), h_connections (heap s)).

(** Of the objects only the data of the channel [a] differs: it is [ch] now. *)
Definition channel_becomes (s s' : UA_Server) (a : nat) (ch : channel) : Prop :=
  around s' = around s /\
  exists e, h_channels (heap s) !! a = Some e /\
    h_channels (heap s') = <[a := set_e_channel e ch]> (h_channels (heap s)).

Lemma channel_becomes_trans s s1 s2 a ch ch' :
  channel_becomes s s1 a ch -> channel_becomes s1 s2 a ch' -> channel_becomes s s2 a ch'.
Proof.
  intros [A1 (e & H1 & H2)] [A2 (e' & H3 & H4)]; split; [by transitivity (around s1)|].
  exists e; split; [done|]; rewrite H2, lookup_insert_eq in H3; injection H3 as <-.
  by rewrite H4, H2, insert_insert_eq.
Qed.

Lemma channel_becomes_lookup s s' a ch :
  channel_becomes s s' a ch ->
  exists e, h_channels (heap s) !! a = Some e /\ h_channels (heap s') !! a = Some (set_e_channel e ch).
Proof. intros [_ (e & H1 & H2)]; exists e; by rewrite H2, lookup_insert_eq. Qed.

(** A step that leaves objects and lists alone. *)
Lemma channel_becomes_copy s s1 s2 a ch :
  channel_becomes s s1 a ch -> heap s2 = heap s1 -> side s2 = side s1 -> channel_becomes s s2 a ch.
Proof.
  intros [A1 H] Hh Hs; split; [|by rewrite Hh].
  transitivity (around s1); [|done]; unfold around; congruence.
Qed.

Lemma write_data_inv s a e ch u s' :
  h_channels (heap s) !! a = Some e -> write_channel a (set_e_channel e ch) s = Some (u, s') ->
  channel_becomes s s' a ch.
Proof.
  intros He (y & s1 & [_ ->]%deref_channel_inv & ->%modify_inv)%bind_inv; split; [done|].
  by exists e.
Qed.

Lemma update_channel_inv a f s u s' :
  update_channel a f s = Some (u, s') ->
  exists e, h_channels (heap s) !! a = Some e /\ channel_becomes s s' a (f (e_channel e)).
Proof.
  intros (e & s1 & [He ->]%deref_channel_inv & H)%bind_inv; exists e; split; [done|].
  by eapply write_data_inv.
Qed.

(** The fields of a channel that new nonces and keys do not touch. *)
Definition keyed (ch ch' : channel) : Prop :=
  ch_state ch' = ch_state ch /\ securityMode ch' = securityMode ch /\
  securityToken ch' = securityToken ch /\ nextSecurityToken ch' = nextSecurityToken ch /\
  remoteCertificate ch' = remoteCertificate ch /\
  receiveSequenceNumber ch' = receiveSequenceNumber ch /\
  sendSequenceNumber ch' = sendSequenceNumber ch /\ chunks ch' = chunks ch.

#[export] Instance keyed_preorder : PreOrder keyed.
Proof. unfold keyed; split; [done|]; intros x y z H1 H2; destruct_and!; split_and!; etransitivity; done. Qed.

Lemma generateNewKeys_keyed {policy : UA_SecurityPolicy PolicyContext} ch r ch' :
  UA_SecureChannel_generateNewKeys policy ch = (r, ch') -> keyed ch ch'.
Proof.
  unfold UA_SecureChannel_generateNewKeys; destruct (UA_SecureChannel_generateLocalKeys _ _) as [r1 c1].
  destruct (bad r1); [by injection 1 as <- <-|].
  destruct (UA_SecureChannel_generateRemoteKeys _ _) as [r2 c2]; by injection 1 as <- <-.
Qed.

Lemma replace_nonces_inv a req s r s' :
  replace_nonces a req s = Some (r, s') ->
  exists e ch, h_channels (heap s) !! a = Some e /\ channel_becomes s s' a ch /\
    keyed (e_channel e) ch /\ (r = GOOD -> remoteNonce ch = osr_clientNonce req).
Proof.
  intros ([r1 n] & s1 & (Hh & Hs & Hn)%copy_bytes_inv & H)%bind_inv.
  apply bind_inv in H as (u & s2 & (e & He & B2)%update_channel_inv & H).
  destruct (channel_becomes_lookup _ _ _ _ B2) as (e' & He' & He2).
  rewrite He in He'; injection He' as <-.
  apply bind_inv in H as (e3 & s3 & [He3 ->]%deref_channel_inv & H).
  rewrite He2 in He3; injection He3 as <-.
  destruct (UA_SecureChannel_generateLocalNonce _ _) as [r2 ch] eqn:Hg.
  apply bind_inv in H as (u4 & s4 & B4%(write_data_inv _ _ (set_e_channel e _)) & [-> ->]%ret_inv);
    [|exact He2].
  unfold UA_SecureChannel_generateLocalNonce in Hg; destruct (generateNonce _ _) as [r3 n3].
  injection Hg as <- <-; exists e, (set_localNonce (ch_set_remoteNonce (e_channel e) n) n3); rewrite <- Hh; split; [done|split; [|split; [done|]]].
  - destruct (channel_becomes_trans _ _ _ _ _ _ B2 B4) as [A (e5 & H1 & H2)].
    rewrite He in H1; injection H1 as <-; split; [rewrite A; unfold around; by rewrite Hs, Hh|].
    exists e; by rewrite <- Hh.
  - intros [Hr1 _]%lor_good; cbn; by apply Hn.
Qed.

Lemma generateNewKeys_inv a s r s' :
  generateNewKeys a s = Some (r, s') ->
  exists e ch, h_channels (heap s) !! a = Some e /\ channel_becomes s s' a ch /\
    keyed (e_channel e) ch /\ localNonce ch = localNonce (e_channel e) /\
    remoteNonce ch = remoteNonce (e_channel e).
Proof.
  intros (e & s1 & [He ->]%deref_channel_inv & H)%bind_inv.
  destruct (UA_SecureChannel_generateNewKeys _ _) as [r2 ch] eqn:Hg.
  apply bind_inv in H as (u4 & s4 & B4%(write_data_inv _ _ e) & [-> ->]%ret_inv); [|done].
  exists e, ch; split; [done|split; [done|split; [by eapply generateNewKeys_keyed|]]].
  revert Hg; unfold UA_SecureChannel_generateNewKeys.
  destruct (UA_SecureChannel_generateLocalKeys _ _) as [r1 c1].
  destruct (bad r1); [by injection 1 as <- <-|].
  destruct (UA_SecureChannel_generateRemoteKeys _ _) as [r3 c2]; by injection 1 as <- <-.
Qed.

(** The channel has been opened by the request: token, mode and nonce. *)
Definition opened (s : UA_Server) (e : channel_list_entry) (req : UA_OpenSecureChannelRequest)
    (ch : channel) : Prop :=
  ch_state (e_channel e) = UA_SECURECHANNELSTATE_FRESH /\
  (osr_securityMode req = UA_MESSAGESECURITYMODE_NONE \/
   UA_String_equal (policyUri (e_policy e)) UA_SECURITY_POLICY_NONE_URI = false) /\
  ch_state ch = UA_SECURECHANNELSTATE_OPEN /\
  securityMode ch = osr_securityMode req /\
  securityToken ch = mkToken (lastChannelId (secureChannelManager s))
                       (tokenId (securityToken (e_channel e))) (wallclock (world s))
                       (revise_lifetime (osr_requestedLifetime req)) /\
  remoteNonce ch = osr_clientNonce req.

(** The second half of opening, after the token has been set. *)
Definition after_token (a : nat) (req : UA_OpenSecureChannelRequest)
    (resp : UA_OpenSecureChannelResponse) : M (status * UA_OpenSecureChannelResponse) :=
  r1 ← replace_nonces a req;
  r2 ← generateNewKeys a;
  if bad (Z.lor r1 r2) then mret (Z.lor r1 r2, resp)
  else
    e ← deref_channel a;
    '(retval, nonce) ← copy_bytes (localNonce (e_channel e));
    timestamp ← now;
    let resp := mkOpenResponse (osr_requestHandle req) timestamp (osp_serviceResult resp)
                  (securityToken (e_channel e)) nonce in
    if bad retval then mret (retval, resp)
    else
      _ ← update_channel a (fun ch => ch_set_state ch UA_SECURECHANNELSTATE_OPEN);
      mret (GOOD, resp).

Lemma after_token_inv a req resp s r resp' s' :
  after_token a req resp s = Some ((r, resp'), s') ->
  exists e ch, h_channels (heap s) !! a = Some e /\ channel_becomes s s' a ch /\
    securityMode ch = securityMode (e_channel e) /\
    securityToken ch = securityToken (e_channel e) /\
    if bad r then ch_state ch = ch_state (e_channel e)
    else ch_state ch = UA_SECURECHANNELSTATE_OPEN /\ remoteNonce ch = osr_clientNonce req /\
      resp' = mkOpenResponse (osr_requestHandle req) (wallclock (world s)) (osp_serviceResult resp)
                (securityToken ch) (localNonce ch).
Proof.
  intros (r1 & s1 & (e & ch1 & He & B1 & K1 & Hn)%replace_nonces_inv & H)%bind_inv.
  destruct (channel_becomes_lookup _ _ _ _ B1) as (e' & He' & He1).
  rewrite He in He'; injection He' as <-.
  apply bind_inv in H as (r2 & s2 & (e2 & ch2 & He2 & B2 & K2 & Hl & Hrn)%generateNewKeys_inv & H).
  rewrite He1 in He2; injection He2 as <-; cbn in K2, Hl, Hrn.
  apply (channel_becomes_trans _ _ _ _ _ _ B1) in B2; clear He1.
  assert (keyed (e_channel e) ch2) as (Kst & Km & Kt & _) by (by transitivity ch1).
  exists e; destruct (bad (Z.lor r1 r2)) eqn:Hb.
  { apply ret_inv in H as [[= -> ->] ->]; exists ch2; by rewrite Hb. }
  apply bad_false, lor_good in Hb as [-> ->]; specialize (Hn eq_refl).
  destruct (channel_becomes_lookup _ _ _ _ B2) as (e' & He' & He2).
  rewrite He in He'; injection He' as <-.
  apply bind_inv in H as (e3 & s3 & [He3 ->]%deref_channel_inv & H).
  rewrite He2 in He3; injection He3 as <-; cbn [e_channel set_e_channel] in H.
  apply bind_inv in H as ([r4 n] & s4 & (Hh & Hs & Hc)%copy_bytes_inv & H).
  apply (channel_becomes_copy _ _ s4) in B2; [|done..].
  apply bind_inv in H as (t & s5 & [-> ->]%gets_inv & H).
  destruct (bad r4) eqn:Hb.
  { apply ret_inv in H as [[= -> ->] ->]; exists ch2; by rewrite Hb. }
  apply bad_false in Hb; rewrite (Hc Hb) in H.
  apply bind_inv in H as (u & s5 & (e5 & He5 & B5)%update_channel_inv & H).
  rewrite Hh, He2 in He5; injection He5 as <-.
  apply ret_inv in H as [H ->]; injection H as -> ->; rewrite bad_good.
  pose proof (channel_becomes_trans _ _ _ _ _ _ B2 B5) as B6.
  eexists; split; [done|split; [exact B6|split; [done|split; [done|split; [done|]]]]].
  destruct B2 as [A _]; injection A as _ _ _ _ _ Hw _ _.
  split; [cbn; congruence|]; by rewrite Hw.
Qed.

Lemma revise_lifetime_bounds l :
  0 < maxSecurityTokenLifetime -> 0 <= l -> 0 < revise_lifetime l <= maxSecurityTokenLifetime.
Proof.
  unfold revise_lifetime; intros Hm Hl.
  destruct (Z.ltb_spec maxSecurityTokenLifetime l), (Z.eqb_spec maxSecurityTokenLifetime 0),
    (Z.eqb_spec l 0); lia.
Qed.

Lemma next_channelId_inv s id s' :
  next_channelId s = Some (id, s') ->
  id = lastChannelId (secureChannelManager s) /\ heap s' = heap s /\ world s' = world s /\
  secureChannelManager s' = mkCM (channels (secureChannelManager s))
    (currentChannelCount (secureChannelManager s))
    (u32 (lastChannelId (secureChannelManager s) + 1)) (lastTokenId (secureChannelManager s)).
Proof.
  by intros (cm & s1 & [-> ->]%gets_inv & (u & s2 & ->%modify_inv & [-> ->]%ret_inv)%bind_inv)%bind_inv.
Qed.

(** C39: opening changes nothing but the channel and the counter of channel
    ids.  It succeeds only on a fresh channel, and only without message
    security or under a policy other than None; the channel is then open, in
    the mode of the request and with its nonce, under the next channel id and
    with a lifetime between 1 and the maximum of the configuration (0 asks for
    the maximum); the answer carries the token and the nonce of the channel.
    After a failure the channel is in the state it was in. *)
Theorem open_channel_result a req resp s r resp' s' :
  0 < maxSecurityTokenLifetime -> 0 <= osr_requestedLifetime req ->
  UA_SecureChannelManager_open a req resp s = Some ((r, resp'), s') ->
  h_sessions (heap s') = h_sessions (heap s) /\ h_connections (heap s') = h_connections (heap s) /\
  channels (secureChannelManager s') = channels (secureChannelManager s) /\
  exists e ch, h_channels (heap s) !! a = Some e /\
    h_channels (heap s') = <[a := set_e_channel e ch]> (h_channels (heap s)) /\
    if bad r then ch_state ch = ch_state (e_channel e)
    else opened s e req ch /\ 0 < revisedLifetime (securityToken ch) <= maxSecurityTokenLifetime /\
      lastChannelId (secureChannelManager s') = u32 (lastChannelId (secureChannelManager s) + 1) /\
      resp' = mkOpenResponse (osr_requestHandle req) (wallclock (world s)) (osp_serviceResult resp)
                (securityToken ch) (localNonce ch).
Proof.
  intros Hmax Hreq (e & s1 & [He ->]%deref_channel_inv & H)%bind_inv.
  assert (exists ch, h_channels (heap s) = <[a := set_e_channel e ch]> (h_channels (heap s)) /\
            ch_state ch = ch_state (e_channel e)) as (ch0 & Hid & Hst0).
  { exists (e_channel e); split; [|done]; rewrite insert_id; [done|by destruct e]. }
  destruct (bool_decide_reflect (ch_state (e_channel e) = UA_SECURECHANNELSTATE_FRESH)) as [Hf|];
    cbn [negb] in H; cycle 1.
  { apply ret_inv in H as [[= -> ->] ->]; do 3 (split; [done|]); by exists e, ch0. }
  destruct (negb _ && _) eqn:Hmode.
  { apply ret_inv in H as [[= -> ->] ->]; do 3 (split; [done|]); by exists e, ch0. }
  apply bind_inv in H as (id & s1 & (-> & Hh1 & Hw1 & Hc1)%next_channelId_inv & H).
  apply bind_inv in H as (t & s2 & [-> ->]%gets_inv & H); rewrite Hw1 in H.
  apply bind_inv in H as (u & s2 & (e2 & He2 & B2)%update_channel_inv & H).
  rewrite Hh1, He in He2; injection He2 as <-.
  destruct (channel_becomes_lookup _ _ _ _ B2) as (e' & He' & He2).
  rewrite Hh1, He in He'; injection He' as <-.
  change (after_token a req resp s2 = Some ((r, resp'), s')) in H.
  apply after_token_inv in H as (e3 & ch & He3 & B3 & Hm & Ht & Hr).
  rewrite He2 in He3; injection He3 as <-; cbn in Hm, Ht, Hr.
  apply (channel_becomes_trans _ _ _ _ _ _ B2) in B3 as [A (e3 & He3 & Hch)].
  rewrite Hh1, He in He3; injection He3 as <-; rewrite Hh1 in Hch.
  unfold around, side in A; rewrite Hh1, Hc1, Hw1 in A; injection A as _ _ _ _ Hcm _ Hse Hco.
  split; [done|split; [done|split; [by rewrite Hcm|]]].
  exists e, ch; split; [done|split; [done|]].
  destruct (bad r); [done|]; destruct Hr as (Hst & Hn & ->).
  destruct B2 as [A2 _]; unfold around, side in A2; injection A2 as _ _ _ _ _ Hw2 _ _.
  rewrite Ht, Hw2, Hw1; cbn [revisedLifetime].
  split; [|split; [by apply revise_lifetime_bounds|split; [by rewrite Hcm|done]]].
  split; [done|split; [|by split]].
  destruct (Z.eqb_spec (osr_securityMode req) UA_MESSAGESECURITYMODE_NONE); [by left|right].
  by destruct (UA_String_equal _ _).
Qed.
End Opening.

(** ** The number of channels *)

Section Limit.
Context {E : ServerEnv}.

Lemma removeSecureChannel_inv a s r s' :
  (forall n, malloc_ok n = true) -> removeSecureChannel a s = Some (r, s') ->
  a ∈ channels (secureChannelManager s) /\
  channels (secureChannelManager s') = without a (channels (secureChannelManager s)).
Proof.
  intros Hm (r1 & s1 & (_ & _ & _ & _ & Hcm & _ & _ & Hr)%delayedCallback_inv & H)%bind_inv.
  rewrite (Hr Hm), bad_good in H.
  apply bind_inv in H as (cm & s2 & [-> ->]%gets_inv & H).
  apply bind_inv in H as (l & s2 & Hl & H); unfold list_remove in Hl.
  destruct (decide _) as [Ha|]; [|done]; apply ret_inv in Hl as [-> ->].
  apply bind_inv in H as (u5 & s5 & ->%modify_inv & [-> ->]%ret_inv); cbn; by rewrite <- Hcm.
Qed.

Lemma purge_channels_inv l s b s' :
  (forall n, malloc_ok n = true) -> purge_channels l s = Some (b, s') ->
  if b then exists a, a ∈ channels (secureChannelManager s) /\
    channels (secureChannelManager s') = without a (channels (secureChannelManager s))
  else s' = s.
Proof.
  intros Hm; induction l as [|a l IH]; cbn [purge_channels]; [by intros [-> ->]%ret_inv|].
  intros (e & s1 & [_ ->]%deref_channel_inv & H)%bind_inv; destruct (e_sessions e); [|by apply IH].
  apply bind_inv in H as (r & s2 & H & [-> ->]%ret_inv); exists a; by apply (removeSecureChannel_inv a s r).
Qed.

Lemma attachSecureChannel_channels c a s u s' :
  attachSecureChannel c a s = Some (u, s') -> secureChannelManager s' = secureChannelManager s.
Proof.
  intros (e & s1 & [_ ->]%deref_channel_inv & H)%bind_inv.
  destruct (e_connection e); [by apply ret_inv in H as [_ ->]|].
  apply bind_inv in H as (u1 & s1 & (x & s2 & [_ ->]%deref_channel_inv & ->%modify_inv)%bind_inv & H).
  apply bind_inv in H as (y & s2 & H & (z & s3 & H2 & ->%modify_inv)%bind_inv).
  apply bind_inv in H as (h & s4 & [-> ->]%gets_inv & [_ ->]%the_inv).
  by apply bind_inv in H2 as (h & s4 & [-> ->]%gets_inv & [_ ->]%the_inv).
Qed.

(** while there is memory, creating a channel never leaves the server with
    more channels than the configuration allows: at the limit, the first
    channel without a session makes room, and there is no new channel if all
    have sessions. *)
Theorem create_respects_limit c ep cert s r s' :
  (forall n, malloc_ok n = true) -> server_ok s -> maxSecureChannels < 2 ^ 32 ->
  zlen (channels (secureChannelManager s)) <= maxSecureChannels ->
  UA_SecureChannelManager_create c ep cert s = Some (r, s') ->
  zlen (channels (secureChannelManager s')) <= maxSecureChannels.
Proof.
  intros Hm [Hk [Hcount _]] Hmax Hlen (conn & s1 & (w & s2 & [-> ->]%gets_inv & [_ ->]%the_inv)%bind_inv & H)%bind_inv.
  destruct (conn_channel conn); [by apply ret_inv in H as [_ ->]|].
  apply bind_inv in H as (cm & s1 & [-> ->]%gets_inv & H).
  apply bind_inv in H as (room & s1 & Hroom & H).
  assert (zlen (channels (secureChannelManager s1)) <= maxSecureChannels /\
          (room = true -> zlen (channels (secureChannelManager s1)) < maxSecureChannels)) as [Hle Hlt].
  { cbn in Hcount; destruct (Z.ltb_spec (currentChannelCount (secureChannelManager s)) maxSecureChannels) as [Hl|Hg].
    - apply ret_inv in Hroom as [-> ->]; split; [done|intros _].
      rewrite Hcount, u32_small in Hl; [done|]; pose proof (zlen_nonneg (channels (secureChannelManager s))); lia.
    - apply bind_inv in Hroom as (cm & s2 & [-> ->]%gets_inv & Hp%purge_channels_inv); [|done].
      destruct room; [|by subst].
      destruct Hp as (a & Ha & Hch); rewrite Hch, zlen_without;
        [split; [|intros _]; lia|apply (ok_channels _ _ Hk)|done]. }
  destruct room; cbn [negb] in H; [|by apply ret_inv in H as [_ ->]]; specialize (Hlt eq_refl).
  apply bind_inv in H as (p & s2 & [_ Hs2]%malloc_inv & H); injection Hs2 as _ _ _ _ Hcm2 _.
  destruct p as [a|]; [|apply ret_inv in H as [_ ->]; by rewrite Hcm2].
  destruct (UA_SecureChannel_init _ _ _) as [ri ch].
  destruct (bad ri); [apply ret_inv in H as [_ ->]; by rewrite Hcm2|].
  apply bind_inv in H as (tok & s3 & (cm & s4 & [-> ->]%gets_inv & Hn)%bind_inv & H).
  apply bind_inv in Hn as (u4 & s4 & ->%modify_inv & [-> ->]%ret_inv).
  apply bind_inv in H as (t & s3 & [-> ->]%gets_inv & H).
  apply bind_inv in H as (u5 & s3 & ->%modify_inv & H).
  apply bind_inv in H as (cm & s3 & [-> ->]%gets_inv & H).
  apply bind_inv in H as (u6 & s3 & ->%modify_inv & H).
  apply bind_inv in H as (u7 & s5 & Ha%attachSecureChannel_channels & [-> ->]%ret_inv); rewrite Ha.
  cbn; rewrite zlen_cons, Hcm2; lia.
Qed.
End Limit.

(** ** Release *)

Section Release.
Context {E : ServerEnv}.

(** while there is memory, a channel that is taken out of the list - by a
    CLO message, a timeout or to make room - is freed by the delayed callbacks
    that run next: nothing points to it any more, no callback is left, and the
    sessions of the server are all still there. *)
Theorem closed_channel_released a s :
  (forall n, malloc_ok n = true) -> server_ok s -> a ∈ channels (secureChannelManager s) ->
  exists s1 s2, removeSecureChannel a s = Some (GOOD, s1) /\
    UA_Server_cleanupDelayedCallbacks s1 = Some (tt, s2) /\
    h_channels (heap s2) !! a = None /\ delayedCallbacks s2 = [] /\
    channels (secureChannelManager s2) = without a (channels (secureChannelManager s)) /\
    (forall c conn, h_connections (heap s2) !! c = Some conn -> conn_channel conn <> Some a) /\
    sm_sessions (sessionManager s2) = sm_sessions (sessionManager s) /\
    forall h, h ∈ sm_sessions (sessionManager s) ->
      exists x, h_sessions (heap s2) !! h = Some x /\ s_channel x <> Some a.
Proof.
  intros Hm Hok Ha.
  destruct (wp_defined (removeSecureChannel a) (fun r s1 => bad r = true \/ (r = GOOD /\ server_ok s1 /\
              channels (secureChannelManager s1) = without a (channels (secureChannelManager s)) /\
              sm_sessions (sessionManager s1) = sm_sessions (sessionManager s))) s) as (r & s1 & H1 & Hr).
  { apply wp_removeSecureChannel; [done|done|by left|]; intros s1 Hok1 Hk1; right.
    split; [done|split; [done|]].
    change (k_channels (skel s1) = without a (k_channels (skel s)) /\ k_sessions (skel s1) = k_sessions (skel s)).
    by rewrite Hk1. }
  assert (r = GOOD) as ->.
  { pose proof H1 as H; apply bind_inv in H as (r1 & s3 & (_ & _ & _ & _ & _ & _ & _ & Hg)%delayedCallback_inv & H).
    rewrite (Hg Hm), bad_good in H.
    apply bind_inv in H as (cm & s4 & _ & (l & s5 & _ & (u & s6 & _ & [-> _]%ret_inv)%bind_inv)%bind_inv); done. }
  destruct Hr as [[=]|(_ & Hok1 & Hch1 & Hse1)].
  destruct (wp_defined UA_Server_cleanupDelayedCallbacks (fun _ s2 => server_ok s2 /\ k_delayed (skel s2) = [] /\
              k_channels (skel s2) = k_channels (skel s1) /\ k_sessions (skel s2) = k_sessions (skel s1)) s1)
    as ([] & s2 & H2 & Hok2 & Hd2 & Hch2 & Hse2).
  { destruct Hok1 as [Hk1 Hn1]; apply wp_cleanupDelayedCallbacks; [done|].
    intros s2 Hk2 C1 C2 C3 C4 Hd; split; [|done]; split; [done|]; unfold counts_ok; by rewrite C1, C2, C3, C4. }
  exists s1, s2; do 2 (split; [done|]); destruct Hok2 as [Hk2 _].
  assert (k_ch (skel s2) !! a = None) as Hnone.
  { apply eq_None_not_Some; rewrite (ok_ch_dom _ _ Hk2), Hd2, Hch2; cbn [skel k_channels]; rewrite Hch1.
    intros [[]%elem_of_without|Hin]; [done|by apply not_elem_of_nil in Hin]. }
  split; [by cbn in Hnone; rewrite lookup_fmap, fmap_None in Hnone|].
  split; [exact Hd2|split; [by transitivity (channels (secureChannelManager s1))|split; [|split]]].
  - intros c conn Hc Hl; assert (k_co (skel s2) !! c = Some (Some a)) as Hco.
    { cbn; by rewrite lookup_fmap, Hc, <- Hl. }
    apply (ok_connection_links _ _ Hk2) in Hco as [l Hl2]; congruence.
  - by transitivity (sm_sessions (sessionManager s1)).
  - intros h Hh; assert (is_Some (k_se (skel s2) !! h)) as [p Hp].
    { apply (ok_se_dom _ _ Hk2); left; rewrite Hse2; cbn; by rewrite Hse1. }
    destruct (skel_session _ _ _ Hp) as (x & Hx & Hl); exists x; split; [done|]; rewrite Hl; intros ->.
    apply (ok_session_links _ _ Hk2) in Hp as (c & l & Hl2 & _); congruence.
Qed.

Lemma deref_connection_inv c s x s' :
  deref_connection c s = Some (x, s') -> h_connections (heap s) !! c = Some x /\ s' = s.
Proof. intros (h & s1 & [-> ->]%gets_inv & [H ->]%the_inv)%bind_inv; done. Qed.

Lemma write_connection_inv c x s u s' :
  write_connection c x s = Some (u, s') ->
  s' = with_heap s (with_h_connections (heap s) (<[c := x]> (h_connections (heap s)))).
Proof. intros (y & s1 & [_ ->]%deref_connection_inv & ->%modify_inv)%bind_inv; done. Qed.

Lemma forget_channel_inv l s u s' :
  forget_channel l s = Some (u, s') ->
  side s' = side s /\ h_channels (heap s') = h_channels (heap s) /\
  h_connections (heap s') = h_connections (heap s) /\
  forall h, h_sessions (heap s') !! h =
    (fun x => if bool_decide (h ∈ l) then set_s_channel x None else x) <$> h_sessions (heap s) !! h.
Proof.
  revert s; induction l as [|h l IH]; intros s; cbn [forget_channel].
  - intros [_ ->]%ret_inv; do 3 (split; [done|]); intros h; by destruct (h_sessions (heap s) !! h).
  - intros (x & s1 & [Hx ->]%deref_session_inv & (u1 & s2 & ->%write_session_inv & H)%bind_inv)%bind_inv.
    apply IH in H as (H1 & H2 & H3 & H4); do 3 (split; [done|]); intros b; rewrite H4; cbn.
    destruct (decide (b = h)) as [->|Hne].
    + rewrite lookup_insert_eq, Hx; cbn; rewrite (bool_decide_eq_true_2 (h ∈ h :: l)) by set_solver.
      f_equal; by destruct (bool_decide _).
    + rewrite lookup_insert_ne by done; erewrite bool_decide_ext; [done|set_solver].
Qed.

(** The connection [c] is closed and has no channel. *)
Definition disconnected (conn : UA_Connection) : UA_Connection :=
  mkConnection UA_CONNECTION_CLOSED (localConf conn) (remoteConf conn) None (incompleteMessage conn).

(** The step of [UA_SecureChannel_deleteMembersCleanup] on the connection. *)
Lemma close_connection_inv a c e conn s u s' :
  h_channels (heap s) !! a = Some e -> e_connection e = Some c ->
  h_connections (heap s) !! c = Some conn -> conn_channel conn = Some a ->
  (x ← deref_connection c;
   _ ← (if bool_decide (conn_state x = UA_CONNECTION_CLOSED) then mret tt else connection_close c);
   detachSecureChannel c : M unit) s = Some (u, s') ->
  side s' = side s /\ h_sessions (heap s') = h_sessions (heap s) /\
  h_channels (heap s') = <[a := set_e_connection e None]> (h_channels (heap s)) /\
  h_connections (heap s') = <[c := disconnected conn]> (h_connections (heap s)).
Proof.
  intros He Hec Hc Hl (x & s1 & [Hx ->]%deref_connection_inv & H)%bind_inv.
  rewrite Hc in Hx; injection Hx as <-.
  apply bind_inv in H as (u1 & s1 & H1 & H).
  assert (exists conn1, h_connections (heap s1) = <[c := conn1]> (h_connections (heap s)) /\
            disconnected conn1 = disconnected conn /\ conn_channel conn1 = Some a /\
            conn_state conn1 = UA_CONNECTION_CLOSED /\
            h_channels (heap s1) = h_channels (heap s) /\ h_sessions (heap s1) = h_sessions (heap s) /\
            side s1 = side s) as (conn1 & C1 & C2 & C3 & C4 & C5 & C6 & C7).
  { destruct (bool_decide_reflect (conn_state conn = UA_CONNECTION_CLOSED)) as [Hst|].
    - apply ret_inv in H1 as [_ ->]; exists conn; by rewrite insert_id.
    - apply bind_inv in H1 as (y & s2 & [Hy ->]%deref_connection_inv & ->%write_connection_inv).
      rewrite Hc in Hy; injection Hy as <-; by eexists. }
  apply bind_inv in H as (y & s2 & [Hy ->]%deref_connection_inv & H).
  rewrite C1, lookup_insert_eq in Hy; injection Hy as <-; rewrite C3 in H.
  apply bind_inv in H as (u2 & s2 & (e1 & s3 & [He1 ->]%deref_channel_inv & H2)%bind_inv & H).
  rewrite C5, He in He1; injection He1 as <-; rewrite decide_True in H2 by done.
  apply bind_inv in H2 as (z & s3 & [_ ->]%deref_channel_inv & ->%modify_inv).
  apply bind_inv in H as (y & s2 & [Hy ->]%deref_connection_inv & ->%write_connection_inv).
  cbn in Hy; rewrite C1, lookup_insert_eq in Hy; injection Hy as <-; cbn.
  split; [done|split; [done|split; [by rewrite C5|]]].
  rewrite C1, insert_insert_eq; f_equal; rewrite <- C2; unfold disconnected, set_channel; by rewrite C4.
Qed.

(** freeing a channel closes its connection, which forgets it, detaches
    its sessions, which stay allocated and activated, and frees the channel;
    nothing else changes. *)
Theorem release_effect a e s u s' :
  h_channels (heap s) !! a = Some e ->
  (forall c, e_connection e = Some c ->
     exists conn, h_connections (heap s) !! c = Some conn /\ conn_channel conn = Some a) ->
  run_removeSecureChannelCallback a s = Some (u, s') ->
  side s' = side s /\
  h_channels (heap s') = delete a (h_channels (heap s)) /\
  h_connections (heap s') =
    match e_connection e with
    | Some c => alter disconnected c (h_connections (heap s))
    | None => h_connections (heap s)
    end /\
  forall h, h_sessions (heap s') !! h =
    (fun x => if bool_decide (h ∈ e_sessions e) then set_s_channel x None else x)
      <$> h_sessions (heap s) !! h.
Proof.
  intros He Hconn (u1 & s1 & H & Hfree)%bind_inv.
  apply bind_inv in H as (u2 & s2 & (e2 & s3 & [He2 ->]%deref_channel_inv & H2)%bind_inv & H).
  rewrite He in He2; injection He2 as <-.
  apply bind_inv in H2 as (y & s3 & [_ ->]%deref_channel_inv & ->%modify_inv).
  set (e1 := set_e_channel e (ch_clear (e_channel e))) in *.
  apply bind_inv in H as (y1 & s3 & [He1 ->]%deref_channel_inv & H).
  cbn in He1; rewrite lookup_insert_eq in He1; injection He1 as <-.
  apply bind_inv in H as (u3 & s3 & H3 & H).
  assert (side s3 = side s /\ h_sessions (heap s3) = h_sessions (heap s) /\
          h_channels (heap s3) = <[a := set_e_connection e1 None]> (h_channels (heap s)) /\
          h_connections (heap s3) = match e_connection e with
            | Some c => alter disconnected c (h_connections (heap s))
            | None => h_connections (heap s) end) as (C1 & C2 & C3 & C4).
  { change (e_connection e1) with (e_connection e) in H3; destruct (e_connection e) as [c|] eqn:Hc.
    - destruct (Hconn c eq_refl) as (conn & Hcc & Hl).
      apply (close_connection_inv a c e1 conn) in H3 as (D1 & D2 & D3 & D4);
        [|by cbn; rewrite lookup_insert_eq|done..].
      cbn in D2, D3, D4; rewrite insert_insert_eq in D3; split; [done|split; [done|split; [done|]]].
      rewrite D4; apply map_eq; intros b; destruct (decide (b = c)) as [->|Hne].
      + by rewrite lookup_insert_eq, lookup_alter_eq, Hcc.
      + by rewrite lookup_insert_ne, lookup_alter_ne.
    - apply ret_inv in H3 as [_ ->]; split; [done|split; [done|split; [|done]]]; cbn; f_equal.
      subst e1; unfold set_e_connection, set_e_channel; cbn; by rewrite Hc. }
  apply bind_inv in H as (y2 & s4 & [Hy ->]%deref_channel_inv & H).
  rewrite C3, lookup_insert_eq in Hy; injection Hy as <-.
  apply bind_inv in H as (u4 & s4 & (F1 & F2 & F3 & F4)%forget_channel_inv & H).
  apply bind_inv in H as (z & s5 & [_ ->]%deref_channel_inv & ->%modify_inv).
  apply bind_inv in Hfree as (z2 & s5 & [_ ->]%deref_channel_inv & ->%modify_inv); cbn.
  split; [by transitivity (side s4); [|transitivity (side s3)]|].
  split; [by rewrite delete_insert_eq, F2, C3, delete_insert_eq|split; [by rewrite F3|]].
  intros h; by rewrite F4, C2.
Qed.
End Release.

(** ** On an example *)

Section ChannelExamples.
Import ServerExample DispatchExample.

Definition channels_of (calls : list ServerCall) : list nat :=
  channels (secureChannelManager (after calls)).

(** the time of creation of a channel is taken from the wall clock, the
    time it is compared with from the monotonic clock.  A channel whose token
    is valid for ten minutes is still there, and its client still served, a
    year later. *)
Theorem channel_outlives_lifetime :
  let year := 365 * 24 * 3600 * 10000000 in
  let later := connect 0 ++ [Tick (1000 + year) (130000000000000000 + year); Cleanup; DelayedCallbacks] in
  channels_of later = [2%nat] /\
  fmap (fun e => revisedLifetime (securityToken (e_channel e))) (h_channels (heap (after later)) !! 2%nat)
    = Some 600000 /\
  exists handle r,
    fst <$> find_reply 2 (token_body 461 0) (after later) = Some (ReplyCreateSession handle r) /\
    csp_serviceResult r = GOOD.
Proof.
  split; [vm_compute; reflexivity|split; [vm_compute; reflexivity|]].
  do 2 eexists; split; vm_compute; reflexivity.
Qed.

(** Two clients have the two channels that the server allows; a third has
    connected and said hello. *)
Definition full_server : list ServerCall :=
  connect 0 ++ connect 4 ++ [Accept conf; Packet 8 hello].

(** when the allocation of a delayed callback fails, the channel that was
    to make room stays in the list, but the result is ignored and a third
    channel is added to the two that are allowed; with enough memory the same
    calls leave two channels. *)
Theorem purge_failure_exceeds_limit :
  let calls := full_server ++ [Packet 8 open_packet] in
  let E := env (fun n => negb (n =? 10)%nat) in
  maxSecureChannels = 2 /\
  (fun p => channels (secureChannelManager (snd p))) <$>
    @run ChannelExample.env E (generated _) calls
      (@server_init E 1000 130000000000000000 tt) = Some [11; 6; 2]%nat /\
  channels_of calls = [11; 2]%nat.
Proof. split; [done|split; vm_compute; reflexivity]. Qed.

Definition open_request : UA_OpenSecureChannelRequest :=
  mkOpenRequest 7 UA_SECURITYTOKENREQUESTTYPE_ISSUE UA_MESSAGESECURITYMODE_NONE [1; 2; 3] 900000.

(** A fresh channel on the third connection. *)
Definition fresh_channel : UA_Server :=
  match @UA_SecureChannelManager_create always 8 endpoint ArrNull (after full_server) with
  | Some (_, s) => s
  | None => start
  end.

Lemma create_respects_limit_witness :
  zlen (channels (secureChannelManager (after full_server))) = 2 /\
  zlen (channels (secureChannelManager fresh_channel)) <= 2.
Proof.
  split; [vm_compute; reflexivity|].
  apply (@create_respects_limit always 8 endpoint ArrNull (after full_server) GOOD fresh_channel).
  - intros n; reflexivity.
  - apply after_ok.
  - vm_compute; reflexivity.
  - vm_compute; discriminate.
  - destruct (result_of (@UA_SecureChannelManager_create always 8 endpoint ArrNull (after full_server)) GOOD)
      as [s' H]; [vm_compute; reflexivity|].
    unfold fresh_channel; rewrite H; reflexivity.
Defined.

Lemma open_channel_result_witness :
  exists resp s' e ch,
    @UA_SecureChannelManager_open always 11 open_request open_response_init fresh_channel
      = Some ((GOOD, resp), s') /\
    opened fresh_channel e open_request ch /\ revisedLifetime (securityToken ch) = 600000.
Proof.
  edestruct (result_of (@UA_SecureChannelManager_open always 11 open_request open_response_init fresh_channel))
    as [s' H]; [vm_compute; reflexivity|].
  destruct (open_channel_result 11 open_request open_response_init fresh_channel GOOD _ s'
    ltac:(reflexivity) ltac:(discriminate) H) as (_ & _ & _ & e & ch & _ & _ & Ho).
  rewrite bad_good in Ho; destruct Ho as (Ho & _ & _ & _).
  eexists _, s', e, ch; split; [exact H|split; [exact Ho|]].
  destruct Ho as (_ & _ & _ & _ & Ht & _); rewrite Ht; vm_compute; reflexivity.
Defined.

Lemma closed_channel_released_witness :
  exists s1 s2, removeSecureChannel 6 (after full_server) = Some (GOOD, s1) /\
    UA_Server_cleanupDelayedCallbacks s1 = Some (tt, s2) /\
    channels (secureChannelManager s2) = [2%nat].
Proof.
  destruct (@closed_channel_released always 6 (after full_server)) as (s1 & s2 & H1 & H2 & _ & _ & H3 & _).
  - intros n; reflexivity.
  - apply after_ok.
  - vm_compute; left.
  - exists s1, s2; split; [exact H1|split; [exact H2|]]; rewrite H3; vm_compute; reflexivity.
Defined.

Lemma release_effect_witness :
  exists e s', @run_removeSecureChannelCallback always 2 (after activated_session) = Some (tt, s') /\
    h_channels (heap (after activated_session)) !! 2%nat = Some e /\ e_sessions e = [6%nat] /\
    h_channels (heap s') = delete 2%nat (h_channels (heap (after activated_session))).
Proof.
  destruct (lookup_of (fun e => (e_sessions e, e_connection e))
              (h_channels (heap (after activated_session)) !! 2%nat) ([6%nat], Some 0%nat))
    as (e & He & Hse); [vm_compute; reflexivity|]; injection Hse as Hs Hc.
  destruct (result_of (@run_removeSecureChannelCallback always 2 (after activated_session)) tt)
    as [s' H]; [vm_compute; reflexivity|].
  exists e, s'; split; [exact H|split; [exact He|split; [exact Hs|]]].
  refine (proj1 (proj2 (release_effect 2 e (after activated_session) tt s' He _ H))).
  intros c Hc'; rewrite Hc in Hc'; injection Hc' as <-.
  destruct (lookup_of conn_channel (h_connections (heap (after activated_session)) !! 0%nat) (Some 2%nat))
    as (conn & H1 & H2); [vm_compute; reflexivity|].
  exists conn; split; [exact H1|exact H2].
Defined.
End ChannelExamples.
