(* ===== verification/SubscriptionState.v ===== *)
(** * The state of subscriptions ([src/server/ua_subscription.h])

    A session has subscriptions, a subscription monitored items; an item that
    has a new value makes a notification, which stands in two queues, that of
    its item and that of its subscription.  Subscriptions, items and
    notifications live on a heap under their addresses, the number of their
    allocation.  A computation that follows a dangling pointer is [None].

    The model is of one session of a server without events and without threads
    ([UA_ENABLE_SUBSCRIPTIONS] without [UA_ENABLE_SUBSCRIPTIONS_EVENTS]).  The
    timer is the list of its callbacks and the queue of requested changes, as
    [TimerCorrect.v] describes [UA_Timer_process].  Messages that are sent are
    recorded. *)

From Stdlib Require Import ZArith Lia SpecFloat.
From stdpp Require Import base list numbers tactics sets gmap.
From S2P Require Import Prelude StateMonad UaTypes UaValue BinarySize BinaryEncode.

(** ** Data *)

Definition BADTIMESTAMPSTORETURNINVALID : status := 0x802B0000.
Definition BADDATAENCODINGINVALID : status := 0x80380000.
Definition BADDATAENCODINGUNSUPPORTED : status := 0x80390000.
Definition BADMONITORINGMODEINVALID : status := 0x80410000.
Definition BADMONITOREDITEMIDINVALID : status := 0x80420000.
Definition BADMONITOREDITEMFILTERINVALID : status := 0x80430000.
Definition BADMONITOREDITEMFILTERUNSUPPORTED : status := 0x80440000.
Definition BADFILTERNOTALLOWED : status := 0x80450000.
Definition BADTOOMANYSUBSCRIPTIONS : status := 0x80770000.
Definition BADTOOMANYPUBLISHREQUESTS : status := 0x80780000.
Definition BADNOSUBSCRIPTION : status := 0x80790000.
Definition BADSEQUENCENUMBERUNKNOWN : status := 0x807A0000.
Definition BADMESSAGENOTAVAILABLE : status := 0x807B0000.
Definition BADTOOMANYMONITOREDITEMS : status := 0x80DB0000.

Record UA_DataValue := mkDataValue { dv_header : DataValueHeader; dv_value : UA_Value }.

(** The value as the codec takes it. *)
Definition data_value (v : UA_DataValue) : UA_Value := VDataValue (dv_header v) (dv_value v).

Definition set_dv_status (v : UA_DataValue) (has : bool) (st : Z) : UA_DataValue :=
  let h := dv_header v in
  mkDataValue (mkDataValueHeader (hasValue h) has (hasSourceTimestamp h) (hasServerTimestamp h)
                 (hasSourcePicoseconds h) (hasServerPicoseconds h) st (sourceTimestamp h)
                 (sourcePicoseconds h) (serverTimestamp h) (serverPicoseconds h)) (dv_value v).

Definition variant_type (v : UA_Value) : option UA_DataType :=
  match v with VVariant t _ _ => t | _ => None end.

(** [UA_DataChangeFilter] *)
Record DataChangeFilter := mkFilter { trigger : Z; deadbandType : Z; deadbandValue : double }.

Definition UA_DATACHANGETRIGGER_STATUS : Z := 0.
Definition UA_DATACHANGETRIGGER_STATUSVALUE : Z := 1.
Definition UA_DATACHANGETRIGGER_STATUSVALUETIMESTAMP : Z := 2.
Definition UA_DEADBANDTYPE_NONE : Z := 0.
Definition UA_DEADBANDTYPE_ABSOLUTE : Z := 1.
Definition UA_DEADBANDTYPE_PERCENT : Z := 2.

Definition filter_init : DataChangeFilter := mkFilter 0 0 (S754_zero false).

Definition UA_ATTRIBUTEID_EVENTNOTIFIER : Z := 12.
Definition UA_ATTRIBUTEID_VALUE : Z := 13.

Definition UA_MONITORINGMODE_DISABLED : Z := 0.
Definition UA_MONITORINGMODE_SAMPLING : Z := 1.
Definition UA_MONITORINGMODE_REPORTING : Z := 2.

Inductive UA_MonitoredItemType :=
| UA_MONITOREDITEMTYPE_CHANGENOTIFY | UA_MONITOREDITEMTYPE_STATUSNOTIFY
| UA_MONITOREDITEMTYPE_EVENTNOTIFY.

#[export] Instance itemtype_eq_dec : EqDecision UA_MonitoredItemType.
Proof. solve_decision. Defined.

Inductive UA_SubscriptionState :=
| UA_SUBSCRIPTIONSTATE_NORMAL | UA_SUBSCRIPTIONSTATE_LATE | UA_SUBSCRIPTIONSTATE_KEEPALIVE.

#[export] Instance substate_eq_dec : EqDecision UA_SubscriptionState.
Proof. solve_decision. Defined.

(** [UA_ReadValueId] without the data encoding. *)
Record UA_ReadValueId := mkReadValueId {
  rvid_nodeId : UA_NodeId; rvid_attributeId : Z; rvid_indexRange : UA_String
}.

(** ** Objects *)

(** The data of a notification of a data change; [n_mon] is its item. *)
Record UA_Notification := mkNotification { n_mon : nat; n_value : UA_DataValue }.

Record UA_MonitoredItem := mkMonitoredItem {
  mi_subscription : option nat;
  monitoredItemId : Z;
  clientHandle : Z;
  monitoredItemType : UA_MonitoredItemType;
  timestampsToReturn : Z;
  monitoringMode : Z;
  monitoredNodeId : UA_NodeId;
  attributeId : Z;
  indexRange : UA_String;
  samplingInterval : double;
  maxQueueSize : Z;
  discardOldest : bool;
  mi_filter : DataChangeFilter;          (* the memory of the union [filter] *)
  lastValue : UA_Value;
  sampleCallbackId : Z;
  lastSampledValue : UA_ByteString;
  sampleCallbackIsRegistered : bool;
  mi_queue : list nat;
  queueSize : Z
}.

Definition set_mi_queue (m : UA_MonitoredItem) l n :=
  mkMonitoredItem (mi_subscription m) (monitoredItemId m) (clientHandle m) (monitoredItemType m)
    (timestampsToReturn m) (monitoringMode m) (monitoredNodeId m) (attributeId m) (indexRange m)
    (samplingInterval m) (maxQueueSize m) (discardOldest m) (mi_filter m) (lastValue m)
    (sampleCallbackId m) (lastSampledValue m) (sampleCallbackIsRegistered m) l n.
Definition set_mi_callback (m : UA_MonitoredItem) id registered :=
  mkMonitoredItem (mi_subscription m) (monitoredItemId m) (clientHandle m) (monitoredItemType m)
    (timestampsToReturn m) (monitoringMode m) (monitoredNodeId m) (attributeId m) (indexRange m)
    (samplingInterval m) (maxQueueSize m) (discardOldest m) (mi_filter m) (lastValue m)
    id (lastSampledValue m) registered (mi_queue m) (queueSize m).
Definition set_mi_last (m : UA_MonitoredItem) value sampled :=
  mkMonitoredItem (mi_subscription m) (monitoredItemId m) (clientHandle m) (monitoredItemType m)
    (timestampsToReturn m) (monitoringMode m) (monitoredNodeId m) (attributeId m) (indexRange m)
    (samplingInterval m) (maxQueueSize m) (discardOldest m) (mi_filter m) value
    (sampleCallbackId m) sampled (sampleCallbackIsRegistered m) (mi_queue m) (queueSize m).
Definition set_mi_mode (m : UA_MonitoredItem) mode :=
  mkMonitoredItem (mi_subscription m) (monitoredItemId m) (clientHandle m) (monitoredItemType m)
    (timestampsToReturn m) mode (monitoredNodeId m) (attributeId m) (indexRange m)
    (samplingInterval m) (maxQueueSize m) (discardOldest m) (mi_filter m) (lastValue m)
    (sampleCallbackId m) (lastSampledValue m) (sampleCallbackIsRegistered m) (mi_queue m)
    (queueSize m).
Definition set_mi_id (m : UA_MonitoredItem) id :=
  mkMonitoredItem (mi_subscription m) id (clientHandle m) (monitoredItemType m)
    (timestampsToReturn m) (monitoringMode m) (monitoredNodeId m) (attributeId m) (indexRange m)
    (samplingInterval m) (maxQueueSize m) (discardOldest m) (mi_filter m) (lastValue m)
    (sampleCallbackId m) (lastSampledValue m) (sampleCallbackIsRegistered m) (mi_queue m)
    (queueSize m).
Definition set_mi_what (m : UA_MonitoredItem) node range :=
  mkMonitoredItem (mi_subscription m) (monitoredItemId m) (clientHandle m) (monitoredItemType m)
    (timestampsToReturn m) (monitoringMode m) node (attributeId m) range
    (samplingInterval m) (maxQueueSize m) (discardOldest m) (mi_filter m) (lastValue m)
    (sampleCallbackId m) (lastSampledValue m) (sampleCallbackIsRegistered m) (mi_queue m)
    (queueSize m).
Definition set_mi_filter (m : UA_MonitoredItem) f :=
  mkMonitoredItem (mi_subscription m) (monitoredItemId m) (clientHandle m) (monitoredItemType m)
    (timestampsToReturn m) (monitoringMode m) (monitoredNodeId m) (attributeId m) (indexRange m)
    (samplingInterval m) (maxQueueSize m) (discardOldest m) f (lastValue m)
    (sampleCallbackId m) (lastSampledValue m) (sampleCallbackIsRegistered m) (mi_queue m)
    (queueSize m).
(** Mode, handle, type, sampling interval, size of the queue and its policy. *)
Definition set_mi_params (m : UA_MonitoredItem) mode handle type interval size oldest :=
  mkMonitoredItem (mi_subscription m) (monitoredItemId m) handle type
    (timestampsToReturn m) mode (monitoredNodeId m) (attributeId m) (indexRange m)
    interval size oldest (mi_filter m) (lastValue m)
    (sampleCallbackId m) (lastSampledValue m) (sampleCallbackIsRegistered m) (mi_queue m)
    (queueSize m).

(** [UA_NotificationMessage]: its data is at most one [DataChangeNotification],
    the list of client handles and values. *)
Record UA_NotificationMessage := mkMessage {
  nm_sequenceNumber : Z;
  nm_publishTime : Z;
  nm_data : option (list (Z * UA_DataValue))
}.

Definition message_init : UA_NotificationMessage := mkMessage 0 0 None.

Record UA_Subscription := mkSubscription {
  subscriptionId : Z;
  lifeTimeCount : Z;
  maxKeepAliveCount : Z;
  publishingInterval : double;
  notificationsPerPublish : Z;
  publishingEnabled : bool;
  priority : Z;
  sub_state : UA_SubscriptionState;
  sequenceNumber : Z;
  currentKeepAliveCount : Z;
  currentLifetimeCount : Z;
  publishCallbackId : Z;
  publishCallbackIsRegistered : bool;
  lastMonitoredItemId : Z;
  monitoredItems : list nat;
  monitoredItemsSize : Z;
  notificationQueue : list nat;
  notificationQueueSize : Z;
  dataChangeNotifications : Z;
  eventNotifications : Z;
  statusChangeNotifications : Z;
  readyNotifications : Z;
  retransmissionQueue : list UA_NotificationMessage;
  retransmissionQueueSize : Z
}.

Definition set_sub_settings (s : UA_Subscription) lifetime keepalive interval perPublish prio :=
  mkSubscription (subscriptionId s) lifetime keepalive interval perPublish (publishingEnabled s)
    prio (sub_state s) (sequenceNumber s) (currentKeepAliveCount s) (currentLifetimeCount s)
    (publishCallbackId s) (publishCallbackIsRegistered s) (lastMonitoredItemId s)
    (monitoredItems s) (monitoredItemsSize s) (notificationQueue s) (notificationQueueSize s)
    (dataChangeNotifications s) (eventNotifications s) (statusChangeNotifications s)
    (readyNotifications s) (retransmissionQueue s) (retransmissionQueueSize s).
(** Identifier, publishing mode and state. *)
Definition set_sub_mode (s : UA_Subscription) id enabled st :=
  mkSubscription id (lifeTimeCount s) (maxKeepAliveCount s) (publishingInterval s)
    (notificationsPerPublish s) enabled (priority s) st (sequenceNumber s)
    (currentKeepAliveCount s) (currentLifetimeCount s)
    (publishCallbackId s) (publishCallbackIsRegistered s) (lastMonitoredItemId s)
    (monitoredItems s) (monitoredItemsSize s) (notificationQueue s) (notificationQueueSize s)
    (dataChangeNotifications s) (eventNotifications s) (statusChangeNotifications s)
    (readyNotifications s) (retransmissionQueue s) (retransmissionQueueSize s).
(** Sequence number, keep-alive counter and lifetime counter. *)
Definition set_sub_counts (s : UA_Subscription) seq keepalive lifetime :=
  mkSubscription (subscriptionId s) (lifeTimeCount s) (maxKeepAliveCount s) (publishingInterval s)
    (notificationsPerPublish s) (publishingEnabled s) (priority s) (sub_state s) seq
    keepalive lifetime
    (publishCallbackId s) (publishCallbackIsRegistered s) (lastMonitoredItemId s)
    (monitoredItems s) (monitoredItemsSize s) (notificationQueue s) (notificationQueueSize s)
    (dataChangeNotifications s) (eventNotifications s) (statusChangeNotifications s)
    (readyNotifications s) (retransmissionQueue s) (retransmissionQueueSize s).
Definition set_sub_callback (s : UA_Subscription) id registered :=
  mkSubscription (subscriptionId s) (lifeTimeCount s) (maxKeepAliveCount s) (publishingInterval s)
    (notificationsPerPublish s) (publishingEnabled s) (priority s) (sub_state s)
    (sequenceNumber s) (currentKeepAliveCount s) (currentLifetimeCount s)
    id registered (lastMonitoredItemId s)
    (monitoredItems s) (monitoredItemsSize s) (notificationQueue s) (notificationQueueSize s)
    (dataChangeNotifications s) (eventNotifications s) (statusChangeNotifications s)
    (readyNotifications s) (retransmissionQueue s) (retransmissionQueueSize s).
Definition set_sub_items (s : UA_Subscription) last l n :=
  mkSubscription (subscriptionId s) (lifeTimeCount s) (maxKeepAliveCount s) (publishingInterval s)
    (notificationsPerPublish s) (publishingEnabled s) (priority s) (sub_state s)
    (sequenceNumber s) (currentKeepAliveCount s) (currentLifetimeCount s)
    (publishCallbackId s) (publishCallbackIsRegistered s) last l n
    (notificationQueue s) (notificationQueueSize s)
    (dataChangeNotifications s) (eventNotifications s) (statusChangeNotifications s)
    (readyNotifications s) (retransmissionQueue s) (retransmissionQueueSize s).
(** The queue with its size and the counters of its three kinds. *)
Definition set_sub_queue (s : UA_Subscription) l n data event st :=
  mkSubscription (subscriptionId s) (lifeTimeCount s) (maxKeepAliveCount s) (publishingInterval s)
    (notificationsPerPublish s) (publishingEnabled s) (priority s) (sub_state s)
    (sequenceNumber s) (currentKeepAliveCount s) (currentLifetimeCount s)
    (publishCallbackId s) (publishCallbackIsRegistered s) (lastMonitoredItemId s)
    (monitoredItems s) (monitoredItemsSize s) l n data event st
    (readyNotifications s) (retransmissionQueue s) (retransmissionQueueSize s).
Definition set_sub_ready (s : UA_Subscription) n :=
  mkSubscription (subscriptionId s) (lifeTimeCount s) (maxKeepAliveCount s) (publishingInterval s)
    (notificationsPerPublish s) (publishingEnabled s) (priority s) (sub_state s)
    (sequenceNumber s) (currentKeepAliveCount s) (currentLifetimeCount s)
    (publishCallbackId s) (publishCallbackIsRegistered s) (lastMonitoredItemId s)
    (monitoredItems s) (monitoredItemsSize s) (notificationQueue s) (notificationQueueSize s)
    (dataChangeNotifications s) (eventNotifications s) (statusChangeNotifications s)
    n (retransmissionQueue s) (retransmissionQueueSize s).
Definition set_sub_retransmission (s : UA_Subscription) l n :=
  mkSubscription (subscriptionId s) (lifeTimeCount s) (maxKeepAliveCount s) (publishingInterval s)
    (notificationsPerPublish s) (publishingEnabled s) (priority s) (sub_state s)
    (sequenceNumber s) (currentKeepAliveCount s) (currentLifetimeCount s)
    (publishCallbackId s) (publishCallbackIsRegistered s) (lastMonitoredItemId s)
    (monitoredItems s) (monitoredItemsSize s) (notificationQueue s) (notificationQueueSize s)
    (dataChangeNotifications s) (eventNotifications s) (statusChangeNotifications s)
    (readyNotifications s) l n.

(** [UA_PublishResponse] *)
Record UA_PublishResponse := mkPublishResponse {
  pr_requestHandle : Z;
  pr_timestamp : Z;
  pr_serviceResult : status;
  pr_subscriptionId : Z;
  pr_availableSequenceNumbers : list Z;
  pr_moreNotifications : bool;
  pr_notificationMessage : UA_NotificationMessage;
  pr_results : list status
}.

Record UA_PublishResponseEntry := mkPublishEntry {
  pre_requestId : Z;
  pre_response : UA_PublishResponse
}.

(** The part of [UA_Session] for subscriptions; [s_channel] tells whether the
    session is attached to a channel. *)
Record UA_Session := mkSession {
  s_channel : bool;
  lastSubscriptionId : Z;
  lastSeenSubscriptionId : Z;
  serverSubscriptions : list nat;
  responseQueue : list UA_PublishResponseEntry;
  numSubscriptions : Z;
  numPublishReq : Z
}.

Definition set_subscriptions (s : UA_Session) last l n :=
  mkSession (s_channel s) last (lastSeenSubscriptionId s) l (responseQueue s) n (numPublishReq s).
Definition set_responses (s : UA_Session) l n :=
  mkSession (s_channel s) (lastSubscriptionId s) (lastSeenSubscriptionId s)
    (serverSubscriptions s) l (numSubscriptions s) n.
Definition set_lastSeen (s : UA_Session) id :=
  mkSession (s_channel s) (lastSubscriptionId s) id
    (serverSubscriptions s) (responseQueue s) (numSubscriptions s) (numPublishReq s).

(** ** The timer and delayed callbacks *)

Inductive Callback := PublishCallback (sub : nat) | SampleCallback (mon : nat).

Inductive TimerChange := AddCallback (id : Z) (c : Callback) | RemoveCallback (id : Z).

Inductive DelayedFree := FreeSubscription (a : nat) | FreeMonitoredItem (m : nat).

#[export] Instance delayed_eq_dec : EqDecision DelayedFree.
Proof. solve_decision. Defined.

Record TimerState := mkTimer {
  repeatedCallbacks : list (Z * Callback);
  changes : list TimerChange;
  idCounter : Z
}.

(** What the application is told about local items: id and value. *)
Record World := mkWorld {
  clock : Z;
  allocs : nat;
  reads : nat;
  sent : list (Z * UA_PublishResponse);       (* the last one first *)
  told : list (Z * UA_DataValue)
}.

Record SubServer := mkSubServer {
  session : UA_Session;
  h_subs : gmap nat UA_Subscription;
  h_mons : gmap nat UA_MonitoredItem;
  h_notifs : gmap nat UA_Notification;
  localMonitoredItems : list nat;
  lastLocalMonitoredItemId : Z;
  timer : TimerState;
  delayed : list DelayedFree;
  world : World
}.

Definition with_session (s : SubServer) x :=
  mkSubServer x (h_subs s) (h_mons s) (h_notifs s) (localMonitoredItems s)
    (lastLocalMonitoredItemId s) (timer s) (delayed s) (world s).
Definition with_subs (s : SubServer) x :=
  mkSubServer (session s) x (h_mons s) (h_notifs s) (localMonitoredItems s)
    (lastLocalMonitoredItemId s) (timer s) (delayed s) (world s).
Definition with_mons (s : SubServer) x :=
  mkSubServer (session s) (h_subs s) x (h_notifs s) (localMonitoredItems s)
    (lastLocalMonitoredItemId s) (timer s) (delayed s) (world s).
Definition with_notifs (s : SubServer) x :=
  mkSubServer (session s) (h_subs s) (h_mons s) x (localMonitoredItems s)
    (lastLocalMonitoredItemId s) (timer s) (delayed s) (world s).
Definition with_local (s : SubServer) l id :=
  mkSubServer (session s) (h_subs s) (h_mons s) (h_notifs s) l id (timer s) (delayed s) (world s).
Definition with_timer (s : SubServer) x :=
  mkSubServer (session s) (h_subs s) (h_mons s) (h_notifs s) (localMonitoredItems s)
    (lastLocalMonitoredItemId s) x (delayed s) (world s).
Definition with_delayed (s : SubServer) x :=
  mkSubServer (session s) (h_subs s) (h_mons s) (h_notifs s) (localMonitoredItems s)
    (lastLocalMonitoredItemId s) (timer s) x (world s).
Definition with_world (s : SubServer) x :=
  mkSubServer (session s) (h_subs s) (h_mons s) (h_notifs s) (localMonitoredItems s)
    (lastLocalMonitoredItemId s) (timer s) (delayed s) x.

Abbreviation M := (state_m SubServer).

(** ** The environment *)

(** Configuration ([UA_ServerConfig]), memory, and the values of the address
    space: [readWithSession n] is the [n]-th reading.  The small entries by which
    callbacks are removed from the timer and objects are freed later have an
    oracle for their memory of their own. *)
Class SubscriptionEnv := {
  maxSubscriptionsPerSession : Z;
  publishingIntervalLimits : double * double;
  lifeTimeCountLimits : Z * Z;
  keepAliveCountLimits : Z * Z;
  maxNotificationsPerPublish : Z;
  maxRetransmissionQueueSize : Z;
  maxMonitoredItemsPerCall : Z;
  maxMonitoredItemsPerSubscription : Z;
  samplingIntervalLimits : double * double;
  queueSizeLimits : Z * Z;
  maxPublishReqPerSession : Z;
  malloc_ok : nat -> bool;
  entry_ok : nat -> bool;
  readWithSession : nat -> UA_ReadValueId -> Z -> UA_DataValue;
  minimumSamplingInterval : UA_NodeId -> option double   (* of a variable node *)
}.

Section State.
Context {E : SubscriptionEnv}.

(** ** Accessing objects *)

Definition deref_sub (a : nat) : M UA_Subscription := h ← gets h_subs; the (h !! a).
Definition deref_mon (m : nat) : M UA_MonitoredItem := h ← gets h_mons; the (h !! m).
Definition deref_notif (n : nat) : M UA_Notification := h ← gets h_notifs; the (h !! n).

Definition update_sub (a : nat) (f : UA_Subscription -> UA_Subscription) : M unit :=
  x ← deref_sub a; modify (fun s => with_subs s (<[a := f x]> (h_subs s))).
Definition update_mon (m : nat) (f : UA_MonitoredItem -> UA_MonitoredItem) : M unit :=
  x ← deref_mon m; modify (fun s => with_mons s (<[m := f x]> (h_mons s))).
Definition update_notif (n : nat) (f : UA_Notification -> UA_Notification) : M unit :=
  x ← deref_notif n; modify (fun s => with_notifs s (<[n := f x]> (h_notifs s))).
Definition update_session (f : UA_Session -> UA_Session) : M unit :=
  modify (fun s => with_session s (f (session s))).

Definition new_sub (a : nat) (x : UA_Subscription) : M unit :=
  modify (fun s => with_subs s (<[a := x]> (h_subs s))).
Definition new_mon (m : nat) (x : UA_MonitoredItem) : M unit :=
  modify (fun s => with_mons s (<[m := x]> (h_mons s))).
Definition new_notif (n : nat) (x : UA_Notification) : M unit :=
  modify (fun s => with_notifs s (<[n := x]> (h_notifs s))).

(** [UA_free] *)
Definition free_sub (a : nat) : M unit :=
  _ ← deref_sub a; modify (fun s => with_subs s (delete a (h_subs s))).
Definition free_mon (m : nat) : M unit :=
  _ ← deref_mon m; modify (fun s => with_mons s (delete m (h_mons s))).
Definition free_notif (n : nat) : M unit :=
  _ ← deref_notif n; modify (fun s => with_notifs s (delete n (h_notifs s))).

(** [UA_malloc]: the address, if there is memory. *)
Definition with_allocs (w : World) n := mkWorld (clock w) n (reads w) (sent w) (told w).

Definition malloc : M (option nat) :=
  n ← gets (fun s => allocs (world s));
  _ ← modify (fun s => with_world s (with_allocs (world s) (S n)));
  mret (if malloc_ok n then Some n else None).

(** An allocation whose address does not matter. *)
Definition alloc : M bool := p ← malloc; mret (bool_decide (is_Some p)).

Definition alloc_entry : M bool :=
  n ← gets (fun s => allocs (world s));
  _ ← modify (fun s => with_world s (with_allocs (world s) (S n)));
  mret (entry_ok n).

Definition now : M Z := gets (fun s => clock (world s)).

(** [UA_Server_readWithSession] *)
Definition read (rvid : UA_ReadValueId) (timestamps : Z) : M UA_DataValue :=
  n ← gets (fun s => reads (world s));
  _ ← modify (fun s => let w := world s in
        with_world s (mkWorld (clock w) (allocs w) (S n) (sent w) (told w)));
  mret (readWithSession n rvid timestamps).

(** [UA_SecureChannel_sendSymmetricMessage] over the channel of the session;
    without a channel nothing is sent.  The result is not looked at. *)
Definition send (requestId : Z) (response : UA_PublishResponse) : M unit :=
  s ← gets session;
  if s_channel s
  then modify (fun s => let w := world s in
         with_world s (mkWorld (clock w) (allocs w) (reads w) ((requestId, response) :: sent w)
                         (told w)))
  else mret tt.

(** [UA_Server_addRepeatedCallback], [UA_Server_removeRepeatedCallback]: both
    put a change into the queue of the timer.  The 64 bits of the counter of
    callbacks are taken to be enough. *)
Definition addRepeatedCallback (c : Callback) (interval : Z) : M (status * Z) :=
  if interval <? 5 then mret (BADINTERNALERROR, 0)
  else
    ok ← alloc;
    if negb ok then mret (BADOUTOFMEMORY, 0)
    else
      t ← gets timer;
      let id := idCounter t + 1 in
      _ ← modify (fun s => with_timer s
            (mkTimer (repeatedCallbacks t) (changes t ++ [AddCallback id c]) id));
      mret (GOOD, id).

Definition removeRepeatedCallback (id : Z) : M status :=
  ok ← alloc_entry;
  if negb ok then mret BADOUTOFMEMORY
  else
    t ← gets timer;
    _ ← modify (fun s => with_timer s
          (mkTimer (repeatedCallbacks t) (changes t ++ [RemoveCallback id]) (idCounter t)));
    mret GOOD.

(** [UA_Server_delayedFree] *)
Definition delayedFree (d : DelayedFree) : M status :=
  ok ← alloc_entry;
  if negb ok then mret BADOUTOFMEMORY
  else _ ← modify (fun s => with_delayed s (d :: delayed s)); mret GOOD.

(** [TAILQ_REMOVE], then [TAILQ_INSERT_AFTER]. *)
Fixpoint insert_after (a b : nat) (l : list nat) : list nat :=
  match l with
  | [] => []
  | c :: l => if (c =? a)%nat then c :: b :: l else c :: insert_after a b l
  end.

(** The conversion of a double to [UA_UInt32], by way of 64 bits. *)
Definition double_to_uint32 (x : double) : Z := u32 (double_to_int64 x).

(** [UA_BOUNDEDVALUE_SETWBOUNDS] *)
Definition bounded (limits : Z * Z) (src : Z) : Z :=
  if snd limits <? src then snd limits else if src <? fst limits then fst limits else src.

Definition double_gt (x y : double) : bool := SFltb y x.
Definition is_nan (x : double) : bool := match x with S754_nan => true | _ => false end.

(** The same for doubles, and the test for a number that is none. *)
Definition double_bounded (limits : double * double) (src : double) : double :=
  if is_nan src then fst limits
  else if double_gt src (snd limits) then snd limits
  else if SFltb src (fst limits) then fst limits else src.
End State.
