(* ===== verification/Subscription.v ===== *)
(** * Subscriptions ([src/server/ua_subscription.c],
    [src/server/ua_subscription_datachange.c], [src/server/ua_session.c])

    The two queues of notifications, sampling of monitored items, publishing,
    retransmission, and the publish requests of a session. *)

From Stdlib Require Import ZArith Lia SpecFloat.
From stdpp Require Import base list numbers tactics sets gmap.
From S2P Require Import Prelude StateMonad UaTypes UaValue BinarySize BinaryEncode FieldCodec SubscriptionState.

Section Subscription.
Context {TE : TypeEnv} {E : SubscriptionEnv}.

(** ** Notifications *)

(** The counter of the kind of the item, changed by [d]. *)
Definition count_notification (type : UA_MonitoredItemType) (d : Z) (s : UA_Subscription)
    (l : list nat) : UA_Subscription :=
  let data := dataChangeNotifications s in
  let event := eventNotifications s in
  let st := statusChangeNotifications s in
  let n := u32 (notificationQueueSize s + d) in
  match type with
  | UA_MONITOREDITEMTYPE_CHANGENOTIFY => set_sub_queue s l n (u32 (data + d)) event st
  | UA_MONITOREDITEMTYPE_EVENTNOTIFY => set_sub_queue s l n data (u32 (event + d)) st
  | UA_MONITOREDITEMTYPE_STATUSNOTIFY => set_sub_queue s l n data event (u32 (st + d))
  end.

Definition UA_Notification_delete (sub mon n : nat) : M unit :=
  m ← deref_mon mon;
  queue ← list_remove n (mi_queue m);
  _ ← update_mon mon (fun m => set_mi_queue m queue (u32 (queueSize m - 1)));
  s ← deref_sub sub;
  queue ← list_remove n (notificationQueue s);
  _ ← update_sub sub (fun s => count_notification (monitoredItemType m) (-1) s queue);
  free_notif n.

Definition UA_STATUSCODE_INFOTYPE_DATAVALUE : Z := 0x400.
Definition UA_STATUSCODE_INFOBITS_OVERFLOW : Z := 0x80.
Definition OVERFLOW_BITS : Z :=
  Z.lor UA_STATUSCODE_INFOTYPE_DATAVALUE UA_STATUSCODE_INFOBITS_OVERFLOW.

(** The notification to delete and the one to keep and move behind it. *)
Definition victims (oldest : bool) (queue : list nat) : option (nat * nat) :=
  match (if oldest then queue else rev queue) with
  | a :: b :: _ => Some (if oldest then (a, b) else (b, a))
  | _ => None
  end.

(** The loop of [MonitoredItem_ensureQueueSpace]. *)
Fixpoint shrink_queue (fuel : nat) (mon : nat) : M unit :=
  m ← deref_mon mon;
  if queueSize m <=? maxQueueSize m then mret tt
  else
    match fuel with
    | O => undefined
    | S fuel =>
        sub ← the (mi_subscription m);
        '(del, after_del) ← the (victims (discardOldest m) (mi_queue m));
        s ← deref_sub sub;
        queue ← list_remove after_del (notificationQueue s);
        _ ← (if decide (del ∈ queue) then mret tt else undefined);
        _ ← update_sub sub (fun s =>
              set_sub_queue s (insert_after del after_del queue) (notificationQueueSize s)
                (dataChangeNotifications s) (eventNotifications s) (statusChangeNotifications s));
        _ ← UA_Notification_delete sub mon del;
        shrink_queue fuel mon
    end.

Definition set_overflow (v : UA_DataValue) : UA_DataValue :=
  set_dv_status v true (Z.lor (dv_status (dv_header v)) OVERFLOW_BITS).
Definition clear_overflow (v : UA_DataValue) : UA_DataValue :=
  set_dv_status v (hasStatus (dv_header v)) (Z.land (dv_status (dv_header v)) (u32 (Z.lnot OVERFLOW_BITS))).

Definition MonitoredItem_ensureQueueSpace (mon : nat) : M unit :=
  m ← deref_mon mon;
  if queueSize m <=? maxQueueSize m then mret tt
  else
    _ ← shrink_queue (length (mi_queue m)) mon;
    m ← deref_mon mon;
    if decide (monitoredItemType m = UA_MONITOREDITEMTYPE_CHANGENOTIFY) then
      n ← the (if discardOldest m then head (mi_queue m) else last (mi_queue m));
      update_notif n (fun x => mkNotification (n_mon x)
        (if 1 <? maxQueueSize m then set_overflow (n_value x) else clear_overflow (n_value x)))
    else mret tt.

Definition UA_Notification_enqueue (sub mon n : nat) : M unit :=
  m ← deref_mon mon;
  _ ← update_mon mon (fun m => set_mi_queue m (mi_queue m ++ [n]) (u32 (queueSize m + 1)));
  s ← deref_sub sub;
  _ ← update_sub sub (fun s =>
        count_notification (monitoredItemType m) 1 s (notificationQueue s ++ [n]));
  MonitoredItem_ensureQueueSpace mon.

Fixpoint delete_notifications (sub mon : nat) (l : list nat) : M unit :=
  match l with
  | [] => mret tt
  | n :: l => _ ← UA_Notification_delete sub mon n; delete_notifications sub mon l
  end.

(** ** Monitored items *)

Definition UA_MonitoredItem_init (sub : option nat) : UA_MonitoredItem :=
  mkMonitoredItem sub 0 0 UA_MONITOREDITEMTYPE_CHANGENOTIFY 0 0 UA_NODEID_NULL 0 ArrNull
    (S754_zero false) 0 false filter_init UA_Variant_null 0 ArrNull false [] 0.

Definition UA_MonitoredItem_registerSampleCallback (mon : nat) : M status :=
  m ← deref_mon mon;
  if sampleCallbackIsRegistered m then mret GOOD
  else if decide (monitoredItemType m = UA_MONITOREDITEMTYPE_CHANGENOTIFY) then
    '(retval, id) ← addRepeatedCallback (SampleCallback mon) (double_to_uint32 (samplingInterval m));
    if bad retval then mret retval
    else _ ← update_mon mon (fun m => set_mi_callback m id true); mret GOOD
  else mret GOOD.

Definition UA_MonitoredItem_unregisterSampleCallback (mon : nat) : M status :=
  m ← deref_mon mon;
  if negb (sampleCallbackIsRegistered m) then mret GOOD
  else
    _ ← update_mon mon (fun m => set_mi_callback m (sampleCallbackId m) false);
    removeRepeatedCallback (sampleCallbackId m).

Definition UA_MonitoredItem_delete (mon : nat) : M unit :=
  m ← deref_mon mon;
  _ ← (if decide (monitoredItemType m = UA_MONITOREDITEMTYPE_CHANGENOTIFY)
       then _ ← UA_MonitoredItem_unregisterSampleCallback mon; mret tt else mret tt);
  m ← deref_mon mon;
  _ ← match mi_subscription m with
      | Some sub => delete_notifications sub mon (mi_queue m)
      | None => mret tt
      end;
  _ ← update_mon mon (fun m =>
        set_mi_last (set_mi_what m UA_NODEID_NULL ArrNull) UA_Variant_null ArrNull);
  _ ← delayedFree (FreeMonitoredItem mon); mret tt.

(** ** Detecting a change *)

(** Two's complement of an image of [w] bits. *)
Definition signed (w z : Z) : Z :=
  let m := z mod 2 ^ w in if m <? 2 ^ (w - 1) then m else m - 2 ^ w.

(** The distance of two numbers; overflow of a signed type is undefined. *)
Definition int_distance (a b : Z) (max : option Z) : option Z :=
  let d := if b <? a then a - b else b - a in
  match max with Some max => if d <=? max then Some d else None | None => Some d end.

(** The number that an image stands for. *)
Definition double_of_int (z : Z) : double := binary_normalize 53 1024 z 0 false.

(** The image of a binary number with [mw] bits of mantissa and [ew] of
    exponent. *)
Definition float_of_bits (mw ew : Z) (z : Z) : spec_float :=
  let sign := Z.testbit z (mw + ew) in
  let e := (z / 2 ^ mw) mod 2 ^ ew in
  let m := z mod 2 ^ mw in
  if e =? 2 ^ ew - 1 then (if m =? 0 then S754_infinity sign else S754_nan)
  else
    let m := if e =? 0 then m else m + 2 ^ mw in
    match m with
    | Zpos p => S754_finite sign p (Z.max e 1 - (2 ^ (ew - 1) - 1) - mw)
    | _ => S754_zero sign
    end.

Definition float_distance (prec emax : Z) (a b : spec_float) : spec_float :=
  if SFltb b a then SFsub prec emax a b else SFsub prec emax b a.

(** The distance of two values of a numeric type, as a double; [None] is
    undefined, [Some None] a type that is not numeric. *)
Definition distance (type : UA_DataType) (a b : Z) : option (option double) :=
  let small w := (Some ∘ double_of_int) <$> int_distance (signed w a) (signed w b) None in
  let usmall := (Some ∘ double_of_int) <$> int_distance a b None in
  let wide w :=
    (Some ∘ double_of_int) <$> int_distance (signed w a) (signed w b) (Some (2 ^ (w - 1) - 1)) in
  match typeIndex type with
  | 1 => small 8
  | 2 => usmall
  | 3 => small 16
  | 4 => usmall
  | 5 => wide 32
  | 6 => usmall
  | 7 => wide 64
  | 8 => usmall
  | 9 => Some (Some (float_distance 24 128 (float_of_bits 23 8 a) (float_of_bits 23 8 b)))
  | 10 => Some (Some (float_distance 53 1024 (float_of_bits 52 11 a) (float_of_bits 52 11 b)))
  | _ => Some None
  end.

Definition isDataTypeNumeric (type : UA_DataType) : bool :=
  builtin type && (1 <=? typeIndex type) && (typeIndex type <=? 10).

(** Is the value out of the deadband around the old one? *)
Definition outOfDeadBand (new old : UA_Value) (type : UA_DataType) (deadband : double) :
    option bool :=
  match new, old with
  | VInt a, VInt b =>
      d ← distance type a b;
      mret (match d with Some d => negb (SFleb d deadband) | None => true end)
  | _, _ => None
  end.

Fixpoint any_outOfDeadBand (new old : list UA_Value) (type : UA_DataType) (deadband : double) :
    option bool :=
  match new, old with
  | [], _ => Some false
  | a :: new, b :: old =>
      r ← outOfDeadBand a b type deadband;
      if (r : bool) then Some true else any_outOfDeadBand new old type deadband
  | _ :: _, [] => None
  end.

(** [arrayLength] of a variant; a scalar has length 0. *)
Definition variant_length (v : UA_Value) : Z :=
  match v with VVariant _ (SArray a) _ => arr_length a | _ => 0 end.

(** The same row of the type table. *)
Definition same_type (t u : option UA_DataType) : bool :=
  match t, u with
  | Some t, Some u => Bool.eqb (builtin t) (builtin u) && (typeIndex t =? typeIndex u)
  | None, None => true
  | _, _ => false
  end.

Definition updateNeededForFilteredValue (value oldValue : UA_Value) (deadband : double) :
    option bool :=
  if negb (variant_length value =? variant_length oldValue) then Some true
  else if negb (same_type (variant_type value) (variant_type oldValue)) then Some true
  else
    match value, oldValue with
    | VVariant (Some type) (SScalar a) _, VVariant _ (SScalar b) _ =>
        outOfDeadBand a b type deadband
    | VVariant (Some type) (SArray a) _, VVariant _ (SArray b) _ =>
        any_outOfDeadBand (arr_list a) (arr_list b) type deadband
    | VVariant (Some type) (SScalar _) _, VVariant _ (SArray _) _ => None
    | _, _ => Some false
    end.

Definition UA_VALUENCODING_MAXSTACK : Z := 512.

(** The binary encoding of a value, on the stack or on the heap: the status,
    the bytes, and whether they are on the stack. *)
Definition encode_value (value : UA_DataValue) : M (status * list Z * bool) :=
  let '(retval, (bytes, _)) :=
    UA_encodeBinary_buf (data_value value) UA_TYPES_DATAVALUE ([], UA_VALUENCODING_MAXSTACK) in
  if retval =? BADENCODINGLIMITSEXCEEDED then
    let binsize := UA_calcSizeBinary (data_value value) UA_TYPES_DATAVALUE in
    if binsize =? 0 then mret (BADENCODINGERROR, [], false)
    else
      ok ← alloc;
      if negb ok then mret (BADOUTOFMEMORY, [], false)
      else
        let '(retval, (bytes, _)) :=
          UA_encodeBinary_buf (data_value value) UA_TYPES_DATAVALUE ([], binsize) in
        mret (retval, bytes, false)
  else mret (retval, bytes, true).

(** [!lastSampledValue.data] *)
Definition is_null (s : UA_ByteString) : bool := match s with ArrNull => true | _ => false end.

(** The new encoding if the value has changed. *)
Definition detectValueChangeWithFilter (mon : nat) (value : UA_DataValue) : M (option (list Z)) :=
  m ← deref_mon mon;
  let f := mi_filter m in
  update ← the (A := bool)
    (match variant_type (dv_value value) with
     | Some type =>
         if isDataTypeNumeric type
            && ((trigger f =? UA_DATACHANGETRIGGER_STATUSVALUE)
                || (trigger f =? UA_DATACHANGETRIGGER_STATUSVALUETIMESTAMP))
            && (deadbandType f =? UA_DEADBANDTYPE_ABSOLUTE)
         then updateNeededForFilteredValue (dv_value value) (lastValue m) (deadbandValue f)
         else Some true
     | None => Some true
     end);
  if negb update then mret None
  else
    '(retval, bytes, on_stack) ← encode_value value;
    if bad retval then mret None
    else if negb (is_null (lastSampledValue m))
            && UA_String_equal (ArrData bytes) (lastSampledValue m)
    then mret None
    else if (on_stack : bool) then
      ok ← alloc; mret (if (ok : bool) then Some bytes else None)
    else mret (Some bytes).

Definition filtered_value (f : DataChangeFilter) (value : UA_DataValue) : UA_DataValue :=
  let h := dv_header value in
  let timestamps := negb (trigger f <? UA_DATACHANGETRIGGER_STATUSVALUETIMESTAMP) in
  mkDataValue
    (mkDataValueHeader (hasValue h && negb (trigger f =? UA_DATACHANGETRIGGER_STATUS))
       (hasStatus h) (hasSourceTimestamp h && timestamps) false
       (hasSourcePicoseconds h && timestamps) false (dv_status h) (sourceTimestamp h)
       (sourcePicoseconds h) (serverTimestamp h) (serverPicoseconds h)) (dv_value value).

Definition detectValueChange (mon : nat) (value : UA_DataValue) : M (option (list Z)) :=
  m ← deref_mon mon; detectValueChangeWithFilter mon (filtered_value (mi_filter m) value).

(** A change has been detected: the notification, or the local callback. *)
Definition notify_change (mon : nat) (value : UA_DataValue) : M bool :=
  m ← deref_mon mon;
  match mi_subscription m with
  | Some sub =>
      p ← malloc;
      match p with
      | None => mret false
      | Some n =>
          _ ← new_notif n (mkNotification mon value);
          _ ← UA_Notification_enqueue sub mon n; mret true
      end
  | None =>
      _ ← modify (fun s => let w := world s in
            with_world s (mkWorld (clock w) (allocs w) (reads w) (sent w)
                            ((monitoredItemId m, value) :: told w)));
      mret true
  end.

Definition sampleCallbackWithValue (mon : nat) (value : UA_DataValue) : M unit :=
  changed ← detectValueChange mon value;
  match changed with
  | None => mret tt
  | Some encoding =>
      stored ← notify_change mon value;
      if (stored : bool) then
        ok ← alloc;
        update_mon mon (fun m =>
          set_mi_last m (if (ok : bool) then dv_value value else UA_Variant_null) (ArrData encoding))
      else mret tt
  end.

Definition UA_MonitoredItem_sampleCallback (mon : nat) : M unit :=
  m ← deref_mon mon;
  if decide (monitoredItemType m = UA_MONITOREDITEMTYPE_CHANGENOTIFY) then
    value ← read (mkReadValueId (monitoredNodeId m) (attributeId m) (indexRange m))
              (timestampsToReturn m);
    sampleCallbackWithValue mon value
  else mret tt.

(** ** Publish requests of the session ([src/server/ua_session.c]) *)

Definition UA_Session_dequeuePublishReq : M (option UA_PublishResponseEntry) :=
  s ← gets session;
  match responseQueue s with
  | [] => mret None
  | pre :: l =>
      _ ← update_session (fun s => set_responses s l (u32 (numPublishReq s - 1)));
      mret (Some pre)
  end.

Definition UA_Session_queuePublishReq (pre : UA_PublishResponseEntry) (head : bool) : M unit :=
  update_session (fun s =>
    set_responses s (if head then pre :: responseQueue s else responseQueue s ++ [pre])
      (u32 (numPublishReq s + 1))).

(** ** Subscriptions *)

Definition UA_Subscription_new (id : Z) : M (option nat) :=
  p ← malloc;
  match p with
  | None => mret None
  | Some a =>
      _ ← new_sub a (mkSubscription id 0 0 (S754_zero false) 0 false 0 UA_SUBSCRIPTIONSTATE_NORMAL
                       0 0 0 0 false 0 [] 0 [] 0 0 0 0 0 [] 0);
      mret (Some a)
  end.

Definition Subscription_registerPublishCallback (a : nat) : M status :=
  s ← deref_sub a;
  if publishCallbackIsRegistered s then mret GOOD
  else
    '(retval, id) ← addRepeatedCallback (PublishCallback a) (double_to_uint32 (publishingInterval s));
    if bad retval then mret retval
    else _ ← update_sub a (fun s => set_sub_callback s id true); mret GOOD.

Definition Subscription_unregisterPublishCallback (a : nat) : M status :=
  s ← deref_sub a;
  if negb (publishCallbackIsRegistered s) then mret GOOD
  else
    retval ← removeRepeatedCallback (publishCallbackId s);
    if bad retval then mret retval
    else _ ← update_sub a (fun s => set_sub_callback s (publishCallbackId s) false); mret GOOD.

Fixpoint delete_items (a : nat) (l : list nat) : M unit :=
  match l with
  | [] => mret tt
  | mon :: l =>
      s ← deref_sub a;
      items ← list_remove mon (monitoredItems s);
      _ ← update_sub a (fun s =>
            set_sub_items s (lastMonitoredItemId s) items (monitoredItemsSize s));
      _ ← UA_MonitoredItem_delete mon;
      delete_items a l
  end.

Definition UA_Subscription_deleteMembers (a : nat) : M unit :=
  _ ← Subscription_unregisterPublishCallback a;
  s ← deref_sub a;
  _ ← delete_items a (monitoredItems s);
  update_sub a (fun s =>
    set_sub_retransmission (set_sub_items s (lastMonitoredItemId s) (monitoredItems s) 0) [] 0).

(** The first item with an identifier. *)
Fixpoint find_item (id : Z) (l : list nat) : M (option nat) :=
  match l with
  | [] => mret None
  | mon :: l =>
      m ← deref_mon mon;
      if monitoredItemId m =? id then mret (Some mon) else find_item id l
  end.

Definition UA_Subscription_getMonitoredItem (a : nat) (id : Z) : M (option nat) :=
  s ← deref_sub a; find_item id (monitoredItems s).

Definition UA_Subscription_deleteMonitoredItem (a : nat) (id : Z) : M status :=
  s ← deref_sub a;
  mon ← find_item id (monitoredItems s);
  match mon with
  | None => mret BADMONITOREDITEMIDINVALID
  | Some mon =>
      items ← list_remove mon (monitoredItems s);
      _ ← update_sub a (fun s =>
            set_sub_items s (lastMonitoredItemId s) items (u32 (monitoredItemsSize s - 1)));
      _ ← UA_MonitoredItem_delete mon;
      mret GOOD
  end.

Definition UA_Subscription_addMonitoredItem (a mon : nat) : M unit :=
  update_sub a (fun s =>
    set_sub_items s (lastMonitoredItemId s) (mon :: monitoredItems s)
      (u32 (monitoredItemsSize s + 1))).

(** The first subscription with an identifier. *)
Fixpoint find_subscription (id : Z) (l : list nat) : M (option nat) :=
  match l with
  | [] => mret None
  | a :: l =>
      s ← deref_sub a;
      if subscriptionId s =? id then mret (Some a) else find_subscription id l
  end.

Definition UA_Session_getSubscriptionById (id : Z) : M (option nat) :=
  s ← gets session; find_subscription id (serverSubscriptions s).

Definition UA_Session_addSubscription (a : nat) : M unit :=
  s ← gets session;
  let id := u32 (lastSubscriptionId s + 1) in
  _ ← update_sub a (fun x => set_sub_mode x id (publishingEnabled x) (sub_state x));
  update_session (fun s =>
    set_subscriptions s id (a :: serverSubscriptions s) (u32 (numSubscriptions s + 1))).

Definition UA_Session_deleteSubscription (id : Z) : M status :=
  sub ← UA_Session_getSubscriptionById id;
  match sub with
  | None => mret BADSUBSCRIPTIONIDINVALID
  | Some a =>
      _ ← UA_Subscription_deleteMembers a;
      retval ← delayedFree (FreeSubscription a);
      if bad retval then mret retval
      else
        s ← gets session;
        l ← list_remove a (serverSubscriptions s);
        _ ← update_session (fun s =>
              set_subscriptions s (lastSubscriptionId s) l (u32 (numSubscriptions s - 1)));
        mret GOOD
  end.

(** ** Retransmission *)

(** The last element of a queue that is not empty is removed. *)
Definition UA_Subscription_addRetransmissionMessage (a : nat) (entry : UA_NotificationMessage) :
    M unit :=
  s ← deref_sub a;
  _ ← (if (0 <? maxRetransmissionQueueSize)
          && (maxRetransmissionQueueSize <=? retransmissionQueueSize s)
       then
         match retransmissionQueue s with
         | [] => undefined
         | l => update_sub a (fun s =>
                  set_sub_retransmission s (removelast l) (u32 (retransmissionQueueSize s - 1)))
         end
       else mret tt);
  update_sub a (fun s =>
    set_sub_retransmission s (entry :: retransmissionQueue s)
      (u32 (retransmissionQueueSize s + 1))).

Definition find_message (seq : Z) (l : list UA_NotificationMessage) :
    option UA_NotificationMessage :=
  List.find (fun e => nm_sequenceNumber e =? seq) l.

(** The first message with the sequence number is taken out. *)
Fixpoint remove_message (seq : Z) (l : list UA_NotificationMessage) : list UA_NotificationMessage :=
  match l with
  | [] => []
  | e :: l => if nm_sequenceNumber e =? seq then l else e :: remove_message seq l
  end.

Definition UA_Subscription_removeRetransmissionMessage (a : nat) (seq : Z) : M status :=
  s ← deref_sub a;
  match find_message seq (retransmissionQueue s) with
  | None => mret BADSEQUENCENUMBERUNKNOWN
  | Some _ =>
      _ ← update_sub a (fun s =>
            set_sub_retransmission s (remove_message seq (retransmissionQueue s))
              (u32 (retransmissionQueueSize s - 1)));
      mret GOOD
  end.

(** ** Publishing *)

(** The loop of [prepareNotificationMessage]: [size] is the length of the
    array, [items] what has been put into it, [n] how many may still come. *)
Fixpoint move_notifications (a : nat) (n : nat) (size : option Z) (items : list (Z * UA_DataValue))
    (queue : list nat) : M (list (Z * UA_DataValue)) :=
  match queue, n with
  | [], _ | _, O => mret items
  | notification :: queue, S n' =>
      x ← deref_notif notification;
      m ← deref_mon (n_mon x);
      if decide (monitoredItemType m = UA_MONITOREDITEMTYPE_CHANGENOTIFY) then
        match size with
        | None => undefined
        | Some size =>
            if size <=? zlen items then undefined
            else
              _ ← UA_Notification_delete a (n_mon x) notification;
              move_notifications a n' (Some size) (items ++ [(clientHandle m, n_value x)]) queue
        end
      else move_notifications a n size items queue
  end.

Definition prepareNotificationMessage (a : nat) (notifications : Z) :
    M (status * option (list (Z * UA_DataValue))) :=
  ok ← alloc;
  if negb ok then mret (BADOUTOFMEMORY, None)
  else
    s ← deref_sub a;
    let data := 0 <? dataChangeNotifications s in
    ok ← (if data then ok1 ← alloc; if (ok1 : bool) then alloc else mret false else mret true);
    if negb ok then mret (BADOUTOFMEMORY, None)
    else
      let dcnSize := if notifications <? dataChangeNotifications s then notifications
                     else dataChangeNotifications s in
      items ← move_notifications a (Z.to_nat notifications)
                (if data then Some dcnSize else None) [] (notificationQueue s);
      mret (GOOD, if data then Some items else None).

Definition UA_Subscription_nextSequenceNumber (n : Z) : Z :=
  let next := u32 (n + 1) in if next =? 0 then 1 else next.

(** The subscription is late; the publish request waits again. *)
Definition be_late (a : nat) (pre : option UA_PublishResponseEntry) : M unit :=
  _ ← update_sub a (fun s =>
        set_sub_mode s (subscriptionId s) (publishingEnabled s) UA_SUBSCRIPTIONSTATE_LATE);
  match pre with Some pre => UA_Session_queuePublishReq pre true | None => mret tt end.

(** The message of the response, and whether it could be made. *)
Definition make_message (a : nat) (notifications : Z) : M (option (option (list (Z * UA_DataValue)))) :=
  if 0 <? notifications then
    ok ← alloc;
    if negb ok then mret None
    else
      '(retval, data) ← prepareNotificationMessage a notifications;
      mret (if bad retval then None else Some data)
  else mret (Some None).

(** From the point of no return on. *)
Definition send_publishResponse (a : nat) (pre : UA_PublishResponseEntry) (notifications : Z)
    (more : bool) (data : option (list (Z * UA_DataValue))) : M unit :=
  _ ← update_sub a (fun s => set_sub_ready s (u32 (readyNotifications s - notifications)));
  t ← now;
  s ← deref_sub a;
  let message := mkMessage (UA_Subscription_nextSequenceNumber (sequenceNumber s)) t data in
  _ ← (if 0 <? notifications then
         _ ← update_sub a (fun s => set_sub_counts s (nm_sequenceNumber message)
               (currentKeepAliveCount s) (currentLifetimeCount s));
         UA_Subscription_addRetransmissionMessage a message
       else mret tt);
  s ← deref_sub a;
  let r := pre_response pre in
  _ ← send (pre_requestId pre)
        (mkPublishResponse (pr_requestHandle r) t (pr_serviceResult r) (subscriptionId s)
           (map nm_sequenceNumber (retransmissionQueue s)) more message (pr_results r));
  update_sub a (fun s =>
    set_sub_counts (set_sub_mode s (subscriptionId s) (publishingEnabled s)
                      UA_SUBSCRIPTIONSTATE_NORMAL)
      (sequenceNumber s) 0 (currentLifetimeCount s)).

(** The notifications to send, and whether there are more. *)
Definition available (s : UA_Subscription) : Z * bool :=
  let n := if publishingEnabled s then readyNotifications s else 0 in
  if notificationsPerPublish s <? n then (notificationsPerPublish s, true) else (n, false).

(** No request: one more interval of the lifetime has passed.  The result
    tells whether the subscription has come to its end. *)
Definition count_lifetime (a : nat) (pre : option UA_PublishResponseEntry) : M bool :=
  s ← deref_sub a;
  let n := match pre with Some _ => 0 | None => u32 (currentLifetimeCount s + 1) end in
  _ ← update_sub a (fun s => set_sub_counts s (sequenceNumber s) (currentKeepAliveCount s) n);
  mret (match pre with Some _ => false | None => lifeTimeCount s <? n end).

(** One round of [UA_Subscription_publish]; the result tells whether there is
    another one. *)
Definition publish_once (a : nat) : M bool :=
  pre ← UA_Session_dequeuePublishReq;
  ended ← count_lifetime a pre;
  s ← deref_sub a;
  if (ended : bool) then _ ← UA_Session_deleteSubscription (subscriptionId s); mret false
  else
    _ ← (if notificationQueueSize s <? readyNotifications s
         then update_sub a (fun s => set_sub_ready s (notificationQueueSize s)) else mret tt);
    s ← deref_sub a;
    let '(notifications, more) := available s in
    let keepalive := u32 (currentKeepAliveCount s + 1) in
    _ ← (if notifications =? 0
         then update_sub a (fun s =>
                set_sub_counts s (sequenceNumber s) keepalive (currentLifetimeCount s))
         else mret tt);
    if (notifications =? 0) && (keepalive <? maxKeepAliveCount s) then
      _ ← match pre with Some pre => UA_Session_queuePublishReq pre true | None => mret tt end;
      mret false
    else
      x ← gets session;
      match pre with
      | Some p =>
          if negb (s_channel x) then _ ← be_late a pre; mret false
          else
            data ← make_message a notifications;
            match data with
            | None => _ ← be_late a pre; mret false
            | Some data => _ ← send_publishResponse a p notifications more data; mret more
            end
      | None => _ ← be_late a None; mret false
      end.

(** Every round but the last one answers a request. *)
Fixpoint publish_loop (fuel : nat) (a : nat) : M unit :=
  match fuel with
  | O => undefined
  | S fuel => again ← publish_once a; if (again : bool) then publish_loop fuel a else mret tt
  end.

Definition UA_Subscription_publish (a : nat) : M unit :=
  s ← gets session; publish_loop (S (length (responseQueue s))) a.

Definition publishCallback (a : nat) : M unit :=
  _ ← update_sub a (fun s => set_sub_ready s (notificationQueueSize s));
  UA_Subscription_publish a.

(** The response to the oldest request when there are too many. *)
Definition UA_Subscription_reachedPublishReqLimit : M bool :=
  pre ← UA_Session_dequeuePublishReq;
  match pre with
  | None => mret false
  | Some pre =>
      t ← now;
      let r := pre_response pre in
      _ ← send (pre_requestId pre)
            (mkPublishResponse (pr_requestHandle r) t BADTOOMANYPUBLISHREQUESTS 0 [] false
               (mkMessage 0 t None) (pr_results r));
      mret true
  end.

Fixpoint answer_requests (fuel : nat) : M unit :=
  match fuel with
  | O => undefined
  | S fuel =>
      pre ← UA_Session_dequeuePublishReq;
      match pre with
      | None => mret tt
      | Some pre =>
          t ← now;
          let r := pre_response pre in
          _ ← send (pre_requestId pre)
                (mkPublishResponse (pr_requestHandle r) t BADNOSUBSCRIPTION (pr_subscriptionId r)
                   (pr_availableSequenceNumbers r) (pr_moreNotifications r)
                   (pr_notificationMessage r) (pr_results r));
          answer_requests fuel
      end
  end.

Definition UA_Subscription_answerPublishRequestsNoSubscription : M unit :=
  s ← gets session;
  match serverSubscriptions s with
  | _ :: _ => mret tt
  | [] => answer_requests (S (length (responseQueue s)))
  end.
End Subscription.
