(* ===== verification/SubscriptionServices.v ===== *)
(** * The subscription services ([src/server/ua_services_subscription.c])

    Every service works on the subscriptions of its session; the ones with
    several operations call them one after the other
    ([UA_Server_processServiceOperations] of [src/server/ua_server_utils.c]). *)

From Stdlib Require Import ZArith Lia SpecFloat.
From stdpp Require Import base list numbers tactics sets gmap.
From S2P Require Import Prelude StateMonad UaTypes UaValue SubscriptionState Subscription.

(** ** Requests *)

Record UA_CreateSubscriptionRequest := mkCreateSubscription {
  csr_publishingInterval : double;
  csr_lifetimeCount : Z;
  csr_maxKeepAliveCount : Z;
  csr_maxNotificationsPerPublish : Z;
  csr_publishingEnabled : bool;
  csr_priority : Z
}.

(** The filter of [UA_MonitoringParameters]: not decoded, a data change
    filter, an event filter, with the memory it makes of the union, or
    another type. *)
Inductive Filter :=
| NoFilter
| DataChange (f : DataChangeFilter)
| EventFilter (image : DataChangeFilter)
| OtherFilter.

Record UA_MonitoringParameters := mkParameters {
  mp_clientHandle : Z;
  mp_samplingInterval : double;
  mp_filter : Filter;
  mp_queueSize : Z;
  mp_discardOldest : bool
}.

Record UA_MonitoredItemCreateRequest := mkItemCreate {
  icr_item : UA_ReadValueId;
  icr_dataEncoding : UA_QualifiedName;
  icr_monitoringMode : Z;
  icr_parameters : UA_MonitoringParameters
}.

Record UA_MonitoredItemCreateResult := mkCreateResult {
  cr_statusCode : status; cr_monitoredItemId : Z; cr_samplingInterval : double; cr_queueSize : Z
}.

Record UA_PublishRequest := mkPublishRequest {
  pq_requestHandle : Z;
  pq_acknowledgements : list (Z * Z)          (* subscription, sequence number *)
}.

(** "Default Binary" *)
Definition binaryEncoding : UA_String :=
  ArrData [68; 101; 102; 97; 117; 108; 116; 32; 66; 105; 110; 97; 114; 121].

Definition UA_TIMESTAMPSTORETURN_NEITHER : Z := 3.

Section Services.
Context {TE : TypeEnv} {E : SubscriptionEnv}.

(** The operations of a request, in order. *)
Fixpoint process_operations {A B} (op : A -> M B) (l : list A) : M (list B) :=
  match l with
  | [] => mret []
  | a :: l => b ← op a; bs ← process_operations op l; mret (b :: bs)
  end.

Definition UA_Server_processServiceOperations {A B} (op : A -> M B) (l : list A) :
    M (status * list B) :=
  match l with
  | [] => mret (BADNOTHINGTODO, [])
  | _ =>
      ok ← alloc;
      if negb ok then mret (BADOUTOFMEMORY, [])
      else bs ← process_operations op l; mret (GOOD, bs)
  end.

(** ** Subscriptions *)

Definition setSubscriptionSettings (a : nat) (r : UA_CreateSubscriptionRequest) : M unit :=
  _ ← Subscription_unregisterPublishCallback a;
  let interval := double_bounded publishingIntervalLimits (csr_publishingInterval r) in
  let keepalive := bounded keepAliveCountLimits (csr_maxKeepAliveCount r) in
  let lifetime := bounded lifeTimeCountLimits (csr_lifetimeCount r) in
  let lifetime := if lifetime <? u32 (3 * keepalive) then u32 (3 * keepalive) else lifetime in
  let perPublish :=
    if (csr_maxNotificationsPerPublish r =? 0)
       || (maxNotificationsPerPublish <? csr_maxNotificationsPerPublish r)
    then maxNotificationsPerPublish else csr_maxNotificationsPerPublish r in
  _ ← update_sub a (fun s =>
        set_sub_settings s lifetime keepalive interval perPublish (csr_priority r));
  _ ← Subscription_registerPublishCallback a; mret tt.

(** Status, identifier, revised interval, lifetime and keep-alive count. *)
Definition Service_CreateSubscription (r : UA_CreateSubscriptionRequest) :
    M (status * option (Z * double * Z * Z)) :=
  s ← gets session;
  if negb (maxSubscriptionsPerSession =? 0) && (maxSubscriptionsPerSession <=? numPublishReq s)
  then mret (BADTOOMANYSUBSCRIPTIONS, None)
  else
    p ← UA_Subscription_new 0;
    match p with
    | None => mret (BADOUTOFMEMORY, None)
    | Some a =>
        _ ← UA_Session_addSubscription a;
        _ ← update_sub a (fun s =>
              set_sub_mode s (subscriptionId s) (csr_publishingEnabled r) (sub_state s));
        _ ← setSubscriptionSettings a r;
        _ ← update_sub a (fun s =>
              set_sub_counts s (sequenceNumber s) (maxKeepAliveCount s) (currentLifetimeCount s));
        s ← deref_sub a;
        mret (GOOD, Some (subscriptionId s, publishingInterval s, lifeTimeCount s,
                          maxKeepAliveCount s))
    end.

Definition reset_lifetime (a : nat) : M unit :=
  update_sub a (fun s => set_sub_counts s (sequenceNumber s) (currentKeepAliveCount s) 0).

(** [publishingEnabled] of the request is not used. *)
Definition Service_ModifySubscription (id : Z) (r : UA_CreateSubscriptionRequest) :
    M (status * option (double * Z * Z)) :=
  sub ← UA_Session_getSubscriptionById id;
  match sub with
  | None => mret (BADSUBSCRIPTIONIDINVALID, None)
  | Some a =>
      _ ← setSubscriptionSettings a r;
      _ ← reset_lifetime a;
      s ← deref_sub a;
      mret (GOOD, Some (publishingInterval s, lifeTimeCount s, maxKeepAliveCount s))
  end.

Definition Operation_SetPublishingMode (enabled : bool) (id : Z) : M status :=
  sub ← UA_Session_getSubscriptionById id;
  match sub with
  | None => mret BADSUBSCRIPTIONIDINVALID
  | Some a =>
      _ ← reset_lifetime a;
      _ ← update_sub a (fun s => set_sub_mode s (subscriptionId s) enabled (sub_state s));
      mret GOOD
  end.

Definition Service_SetPublishingMode (enabled : bool) (ids : list Z) : M (status * list status) :=
  UA_Server_processServiceOperations (Operation_SetPublishingMode enabled) ids.

Definition Operation_DeleteSubscription (id : Z) : M status := UA_Session_deleteSubscription id.

Definition Service_DeleteSubscriptions (ids : list Z) : M (status * list status) :=
  r ← UA_Server_processServiceOperations Operation_DeleteSubscription ids;
  s ← gets session;
  _ ← match serverSubscriptions s with
      | [] => UA_Subscription_answerPublishRequestsNoSubscription
      | _ => mret tt
      end;
  mret r.

(** ** Monitored items *)

(** The filter of the parameters, or why it is rejected. *)
Definition check_filter (m : UA_MonitoredItem) (f : Filter) (dataType : option UA_DataType) :
    status * option DataChangeFilter :=
  match f with
  | NoFilter =>
      (GOOD, Some (mkFilter UA_DATACHANGETRIGGER_STATUSVALUE UA_DEADBANDTYPE_NONE (S754_zero false)))
  | DataChange f =>
      if deadbandType f =? UA_DEADBANDTYPE_PERCENT then (BADMONITOREDITEMFILTERUNSUPPORTED, None)
      else
        let numeric :=
          match variant_type (lastValue m) with
          | None => match dataType with Some t => isDataTypeNumeric t | None => false end
          | Some t => isDataTypeNumeric t
          end in
        if negb numeric then (BADFILTERNOTALLOWED, None) else (GOOD, Some f)
  | EventFilter image => (GOOD, Some image)
  | OtherFilter => (BADMONITOREDITEMFILTERINVALID, None)
  end.

(** Ten seconds *)
Definition TEN_SECONDS : double := binary_normalize 53 1024 10000 0 false.

(** The type of the item and its sampling interval before bounds. *)
Definition sampling_settings (m : UA_MonitoredItem) (requested : double) :
    UA_MonitoredItemType * double :=
  if attributeId m =? UA_ATTRIBUTEID_VALUE then
    (UA_MONITOREDITEMTYPE_CHANGENOTIFY,
     match minimumSamplingInterval (monitoredNodeId m) with
     | Some min => if SFltb requested min then min else requested
     | None => requested
     end)
  else if attributeId m =? UA_ATTRIBUTEID_EVENTNOTIFIER then
    (UA_MONITOREDITEMTYPE_EVENTNOTIFY, TEN_SECONDS)
  else (UA_MONITOREDITEMTYPE_CHANGENOTIFY, requested).

Definition setMonitoredItemSettings (mon : nat) (mode : Z) (p : UA_MonitoringParameters)
    (dataType : option UA_DataType) : M status :=
  m ← deref_mon mon;
  let '(retval, filter) := check_filter m (mp_filter p) dataType in
  if bad retval then mret retval
  else
    _ ← match filter with
        | Some f => update_mon mon (fun m => set_mi_filter m f)
        | None => mret tt
        end;
    _ ← UA_MonitoredItem_unregisterSampleCallback mon;
    let '(type, interval) := sampling_settings m (mp_samplingInterval p) in
    _ ← update_mon mon (fun m =>
          set_mi_params m mode (mp_clientHandle p) type
            (double_bounded samplingIntervalLimits interval)
            (bounded queueSizeLimits (mp_queueSize p)) (mp_discardOldest p));
    _ ← (if mode =? UA_MONITORINGMODE_REPORTING
         then _ ← UA_MonitoredItem_registerSampleCallback mon; mret tt else mret tt);
    mret GOOD.

Definition create_failed (retval : status) : UA_MonitoredItemCreateResult :=
  mkCreateResult retval 0 (S754_zero false) 0.

(** Errors of the first reading that may be repaired later. *)
Definition repairable : list status :=
  [0x80040000; BADCOMMUNICATIONERROR; 0x80320000; 0x801F0000; 0x803A0000; BADINDEXRANGENODATA].

Definition check_item (r : UA_MonitoredItemCreateRequest) (v : UA_DataValue) : status :=
  let h := dv_header v in
  let name := qn_name (icr_dataEncoding r) in
  if hasStatus h && (1 <? Z.shiftr (dv_status h) 30)
     && negb (bool_decide (dv_status h ∈ repairable))
  then dv_status h
  else if (0 <? arr_length name)
          && (negb (UA_String_equal binaryEncoding name)
              || negb (qn_namespaceIndex (icr_dataEncoding r) =? 0))
  then BADDATAENCODINGUNSUPPORTED
  else if negb (rvid_attributeId (icr_item r) =? UA_ATTRIBUTEID_VALUE) && (0 <? arr_length name)
  then BADDATAENCODINGINVALID
  else GOOD.

(** The new item, without the node id and the range, which are copied. *)
Definition new_item (sub : option nat) (r : UA_MonitoredItemCreateRequest) (timestamps : Z) :
    UA_MonitoredItem :=
  let m := UA_MonitoredItem_init sub in
  mkMonitoredItem sub 0 0 UA_MONITOREDITEMTYPE_CHANGENOTIFY timestamps 0 UA_NODEID_NULL
    (rvid_attributeId (icr_item r)) ArrNull (samplingInterval m) (maxQueueSize m)
    (discardOldest m) (mi_filter m) (lastValue m) (sampleCallbackId m) (lastSampledValue m)
    (sampleCallbackIsRegistered m) [] 0.

(** Identifier and list of a new item. *)
Definition add_item (sub : option nat) (mon : nat) : M unit :=
  match sub with
  | Some a =>
      s ← deref_sub a;
      let id := u32 (lastMonitoredItemId s + 1) in
      _ ← update_sub a (fun s => set_sub_items s id (monitoredItems s) (monitoredItemsSize s));
      _ ← update_mon mon (fun m => set_mi_id m id);
      UA_Subscription_addMonitoredItem a mon
  | None =>
      id ← gets lastLocalMonitoredItemId;
      let id := u32 (id + 1) in
      _ ← update_mon mon (fun m => set_mi_id m id);
      modify (fun s => with_local s (mon :: localMonitoredItems s) id)
  end.

(** [None] is a local item, without a subscription. *)
Definition Operation_CreateMonitoredItem (sub : option nat) (timestamps : Z)
    (r : UA_MonitoredItemCreateRequest) : M UA_MonitoredItemCreateResult :=
  full ← match sub with
         | Some a =>
             s ← deref_sub a;
             mret (negb (maxMonitoredItemsPerSubscription =? 0)
                   && (maxMonitoredItemsPerSubscription <=? monitoredItemsSize s))
         | None => mret false
         end;
  if (full : bool) then mret (create_failed BADTOOMANYMONITOREDITEMS)
  else
    v ← read (icr_item r) timestamps;
    let retval := check_item r v in
    if bad retval then mret (create_failed retval)
    else
      p ← malloc;
      match p with
      | None => mret (create_failed BADOUTOFMEMORY)
      | Some mon =>
          _ ← new_mon mon (new_item sub r timestamps);
          ok ← alloc;
          _ ← update_mon mon (fun m =>
                if ok then set_mi_what m (rvid_nodeId (icr_item r)) (rvid_indexRange (icr_item r))
                else m);
          retval ← setMonitoredItemSettings mon (icr_monitoringMode r) (icr_parameters r)
                     (variant_type (dv_value v));
          let retval := Z.lor (if (ok : bool) then GOOD else BADOUTOFMEMORY) retval in
          if bad retval then _ ← UA_MonitoredItem_delete mon; mret (create_failed retval)
          else
            _ ← add_item sub mon;
            _ ← (if icr_monitoringMode r =? UA_MONITORINGMODE_REPORTING
                 then UA_MonitoredItem_sampleCallback mon else mret tt);
            m ← deref_mon mon;
            mret (mkCreateResult GOOD (monitoredItemId m) (samplingInterval m) (maxQueueSize m))
      end.

(** The checks the services on items begin with. *)
Definition too_many {A} (l : list A) : bool :=
  negb (maxMonitoredItemsPerCall =? 0) && (maxMonitoredItemsPerCall <? zlen l).

Definition Service_CreateMonitoredItems (id timestamps : Z)
    (items : list UA_MonitoredItemCreateRequest) : M (status * list UA_MonitoredItemCreateResult) :=
  if too_many items then mret (BADTOOMANYOPERATIONS, [])
  else if UA_TIMESTAMPSTORETURN_NEITHER <? timestamps
  then mret (BADTIMESTAMPSTORETURNINVALID, [])
  else
    sub ← UA_Session_getSubscriptionById id;
    match sub with
    | None => mret (BADSUBSCRIPTIONIDINVALID, [])
    | Some a =>
        _ ← reset_lifetime a;
        UA_Server_processServiceOperations (Operation_CreateMonitoredItem (Some a) timestamps) items
    end.

Definition UA_Server_createDataChangeMonitoredItem (timestamps : Z)
    (item : UA_MonitoredItemCreateRequest) : M UA_MonitoredItemCreateResult :=
  Operation_CreateMonitoredItem None timestamps item.

(** Status, revised sampling interval and size of the queue. *)
Definition Operation_ModifyMonitoredItem (a : nat) (r : Z * UA_MonitoringParameters) :
    M (status * double * Z) :=
  let '(id, p) := r in
  mon ← UA_Subscription_getMonitoredItem a id;
  match mon with
  | None => mret (BADMONITOREDITEMIDINVALID, S754_zero false, 0)
  | Some mon =>
      m ← deref_mon mon;
      retval ← setMonitoredItemSettings mon (monitoringMode m) p None;
      if bad retval then mret (retval, S754_zero false, 0)
      else
        m ← deref_mon mon;
        _ ← MonitoredItem_ensureQueueSpace mon;
        mret (GOOD, samplingInterval m, maxQueueSize m)
  end.

Definition Service_ModifyMonitoredItems (id timestamps : Z)
    (items : list (Z * UA_MonitoringParameters)) : M (status * list (status * double * Z)) :=
  if too_many items then mret (BADTOOMANYOPERATIONS, [])
  else if UA_TIMESTAMPSTORETURN_NEITHER <? timestamps
  then mret (BADTIMESTAMPSTORETURNINVALID, [])
  else
    sub ← UA_Session_getSubscriptionById id;
    match sub with
    | None => mret (BADSUBSCRIPTIONIDINVALID, [])
    | Some a =>
        _ ← reset_lifetime a;
        UA_Server_processServiceOperations (Operation_ModifyMonitoredItem a) items
    end.

Definition Operation_SetMonitoringMode (a : nat) (mode : Z) (id : Z) : M status :=
  mon ← UA_Subscription_getMonitoredItem a id;
  match mon with
  | None => mret BADMONITOREDITEMIDINVALID
  | Some mon =>
      m ← deref_mon mon;
      if decide (monitoredItemType m = UA_MONITOREDITEMTYPE_STATUSNOTIFY)
      then mret BADNOTIMPLEMENTED
      else if UA_MONITORINGMODE_REPORTING <? mode then mret BADMONITORINGMODEINVALID
      else if monitoringMode m =? mode then mret GOOD
      else
        _ ← update_mon mon (fun m => set_mi_mode m mode);
        if mode =? UA_MONITORINGMODE_REPORTING then
          _ ← UA_MonitoredItem_registerSampleCallback mon; mret GOOD
        else
          _ ← UA_MonitoredItem_unregisterSampleCallback mon;
          _ ← delete_notifications a mon (mi_queue m);
          _ ← update_mon mon (fun m => set_mi_last m UA_Variant_null ArrNull);
          mret GOOD
  end.

Definition Service_SetMonitoringMode (id mode : Z) (items : list Z) : M (status * list status) :=
  if too_many items then mret (BADTOOMANYOPERATIONS, [])
  else
    sub ← UA_Session_getSubscriptionById id;
    match sub with
    | None => mret (BADSUBSCRIPTIONIDINVALID, [])
    | Some a =>
        _ ← reset_lifetime a;
        UA_Server_processServiceOperations (Operation_SetMonitoringMode a mode) items
    end.

Definition Operation_DeleteMonitoredItem (a : nat) (id : Z) : M status :=
  UA_Subscription_deleteMonitoredItem a id.

Definition Service_DeleteMonitoredItems (id : Z) (items : list Z) : M (status * list status) :=
  if too_many items then mret (BADTOOMANYOPERATIONS, [])
  else
    sub ← UA_Session_getSubscriptionById id;
    match sub with
    | None => mret (BADSUBSCRIPTIONIDINVALID, [])
    | Some a =>
        _ ← reset_lifetime a;
        UA_Server_processServiceOperations (Operation_DeleteMonitoredItem a) items
    end.

(** The first local item with an identifier. *)
Definition UA_Server_deleteMonitoredItem (id : Z) : M status :=
  l ← gets localMonitoredItems;
  mon ← find_item id l;
  match mon with
  | None => mret BADMONITOREDITEMIDINVALID
  | Some mon =>
      l ← list_remove mon l;
      _ ← modify (fun s => with_local s l (lastLocalMonitoredItemId s));
      _ ← UA_MonitoredItem_delete mon;
      mret GOOD
  end.

(** ** Publishing *)

Definition subscriptionSendError (requestHandle requestId : Z) (error : status) : M unit :=
  t ← now;
  send requestId (mkPublishResponse requestHandle t error 0 [] false message_init []).

(** The acknowledgements of a request, one after the other. *)
Fixpoint acknowledge (l : list (Z * Z)) : M (list status) :=
  match l with
  | [] => mret []
  | (id, seq) :: l =>
      sub ← UA_Session_getSubscriptionById id;
      r ← match sub with
          | None => mret BADSUBSCRIPTIONIDINVALID
          | Some a => UA_Subscription_removeRetransmissionMessage a seq
          end;
      rs ← acknowledge l;
      mret (r :: rs)
  end.

(** The subscriptions behind the one that was answered last. *)
Fixpoint behind_lastSeen (id : Z) (l : list nat) : M (list nat) :=
  match l with
  | [] => mret []
  | a :: l =>
      s ← deref_sub a;
      if subscriptionId s =? id then mret l else behind_lastSeen id l
  end.

(** The first one that is late. *)
Fixpoint find_late (l : list nat) : M (option nat) :=
  match l with
  | [] => mret None
  | a :: l =>
      s ← deref_sub a;
      if decide (sub_state s = UA_SUBSCRIPTIONSTATE_LATE) then mret (Some a) else find_late l
  end.

(** A late subscription is answered at once. *)
Definition publish_late : M unit :=
  x ← gets session;
  let all := serverSubscriptions x in
  immediate ← (if 0 <? lastSeenSubscriptionId x
               then behind_lastSeen (lastSeenSubscriptionId x) all else mret []);
  let found := match immediate with [] => false | _ => true end in
  late ← find_late (if found then immediate else all);
  late ← (match late with
          | None => if (found : bool) then find_late all else mret None
          | Some _ => mret late
          end);
  match late with
  | Some a =>
      s ← deref_sub a;
      _ ← update_session (fun x => set_lastSeen x (subscriptionId s));
      UA_Subscription_publish a
  | None => update_session (fun x => set_lastSeen x 0)
  end.

Definition Service_Publish (request : UA_PublishRequest) (requestId : Z) : M unit :=
  x ← gets session;
  let handle := pq_requestHandle request in
  match serverSubscriptions x with
  | [] => subscriptionSendError handle requestId BADNOSUBSCRIPTION
  | _ =>
      room ← (if negb (maxPublishReqPerSession =? 0) && (maxPublishReqPerSession <=? numPublishReq x)
              then UA_Subscription_reachedPublishReqLimit else mret true);
      if negb room then subscriptionSendError requestId handle BADINTERNALERROR
      else
        ok ← alloc;
        if negb ok then subscriptionSendError requestId handle BADOUTOFMEMORY
        else
          ok ← (match pq_acknowledgements request with [] => mret true | _ => alloc end);
          if negb ok then subscriptionSendError requestId handle BADOUTOFMEMORY
          else
            results ← acknowledge (pq_acknowledgements request);
            _ ← UA_Session_queuePublishReq
                  (mkPublishEntry requestId
                     (mkPublishResponse handle 0 GOOD 0 [] false message_init results)) false;
            publish_late
  end.

(** A copy of the message, if there is memory. *)
Definition Service_Republish (id seq : Z) : M (status * UA_NotificationMessage) :=
  sub ← UA_Session_getSubscriptionById id;
  match sub with
  | None => mret (BADSUBSCRIPTIONIDINVALID, message_init)
  | Some a =>
      _ ← reset_lifetime a;
      s ← deref_sub a;
      match find_message seq (retransmissionQueue s) with
      | None => mret (BADMESSAGENOTAVAILABLE, message_init)
      | Some message =>
          ok ← alloc;
          mret (if (ok : bool) then (GOOD, message) else (BADOUTOFMEMORY, message_init))
      end
  end.

(** ** The session and the main loop *)

Fixpoint delete_subscriptions (l : list nat) : M unit :=
  match l with
  | [] => mret tt
  | a :: l =>
      s ← deref_sub a;
      _ ← UA_Session_deleteSubscription (subscriptionId s);
      delete_subscriptions l
  end.

Definition set_channel (b : bool) : M unit :=
  update_session (fun x => mkSession b (lastSubscriptionId x) (lastSeenSubscriptionId x)
    (serverSubscriptions x) (responseQueue x) (numSubscriptions x) (numPublishReq x)).

(** The session loses its channel, its subscriptions and its requests. *)
Definition UA_Session_deleteMembersCleanup : M unit :=
  _ ← set_channel false;
  x ← gets session;
  _ ← delete_subscriptions (serverSubscriptions x);
  update_session (fun x => set_responses x [] (u32 (numPublishReq x - zlen (responseQueue x)))).

Definition run_callback (c : Callback) : M unit :=
  match c with
  | PublishCallback a => publishCallback a
  | SampleCallback m => UA_MonitoredItem_sampleCallback m
  end.

Definition apply_change (l : list (Z * Callback)) (c : TimerChange) : list (Z * Callback) :=
  match c with
  | AddCallback id c => (id, c) :: l
  | RemoveCallback id => List.filter (fun p => negb (fst p =? id)) l
  end.

Definition apply_changes (t : TimerState) : list (Z * Callback) :=
  fold_left apply_change (changes t) (repeatedCallbacks t).

Fixpoint run_callbacks (l : list Callback) : M unit :=
  match l with [] => mret tt | c :: l => _ ← run_callback c; run_callbacks l end.

Definition process_changes : M unit :=
  t ← gets timer; modify (fun s => with_timer s (mkTimer (apply_changes t) [] (idCounter t))).

(** [UA_Timer_process]: the changes are applied, then what is [due] is called,
    and the changes that the callbacks have asked for are applied. *)
Definition run_timer (due : list Z) : M unit :=
  _ ← process_changes;
  t ← gets timer;
  _ ← run_callbacks (omap (fun id => snd <$> List.find (fun p => fst p =? id) (repeatedCallbacks t)) due);
  process_changes.

Fixpoint free_delayed (l : list DelayedFree) : M unit :=
  match l with
  | [] => mret tt
  | FreeSubscription a :: l => _ ← free_sub a; free_delayed l
  | FreeMonitoredItem m :: l => _ ← free_mon m; free_delayed l
  end.

(** [UA_Server_cleanupDelayedCallbacks] *)
Definition cleanupDelayedCallbacks : M unit :=
  l ← gets delayed;
  _ ← modify (fun s => with_delayed s []);
  free_delayed l.
End Services.

(** ** Subscriptions as a state machine

    What the services, the timer and the main loop do to the subscriptions of
    a session, one call after the other. *)

Section Run.
Context {TE : TypeEnv} {E : SubscriptionEnv}.

Inductive SubCall :=
| CreateSubscription (r : UA_CreateSubscriptionRequest)
| ModifySubscription (id : Z) (r : UA_CreateSubscriptionRequest)
| SetPublishingMode (enabled : bool) (ids : list Z)
| DeleteSubscriptions (ids : list Z)
| CreateMonitoredItems (id timestamps : Z) (items : list UA_MonitoredItemCreateRequest)
| CreateLocalItem (timestamps : Z) (item : UA_MonitoredItemCreateRequest)
| DeleteLocalItem (id : Z)
| ModifyMonitoredItems (id timestamps : Z) (items : list (Z * UA_MonitoringParameters))
| SetMonitoringMode (id mode : Z) (items : list Z)
| DeleteMonitoredItems (id : Z) (items : list Z)
| Publish (r : UA_PublishRequest) (requestId : Z)
| Republish (id seq : Z)
| CloseSession                              (* the subscriptions of the session *)
| RunTimer (due : list Z)
| DelayedCallbacks                          (* end of an iteration *)
| Channel (attached : bool)                 (* of the session *)
| Tick (t : Z).

Definition discard {A} (m : M A) : M unit := _ ← m; mret tt.

Definition exec (call : SubCall) : M unit :=
  match call with
  | CreateSubscription r => discard (Service_CreateSubscription r)
  | ModifySubscription id r => discard (Service_ModifySubscription id r)
  | SetPublishingMode b ids => discard (Service_SetPublishingMode b ids)
  | DeleteSubscriptions ids => discard (Service_DeleteSubscriptions ids)
  | CreateMonitoredItems id ts items => discard (Service_CreateMonitoredItems id ts items)
  | CreateLocalItem ts item => discard (UA_Server_createDataChangeMonitoredItem ts item)
  | DeleteLocalItem id => discard (UA_Server_deleteMonitoredItem id)
  | ModifyMonitoredItems id ts items => discard (Service_ModifyMonitoredItems id ts items)
  | SetMonitoringMode id mode items => discard (Service_SetMonitoringMode id mode items)
  | DeleteMonitoredItems id items => discard (Service_DeleteMonitoredItems id items)
  | Publish r requestId => Service_Publish r requestId
  | Republish id seq => discard (Service_Republish id seq)
  | CloseSession => UA_Session_deleteMembersCleanup
  | RunTimer due => run_timer due
  | DelayedCallbacks => cleanupDelayedCallbacks
  | Channel b => set_channel b
  | Tick t => modify (fun s => let w := world s in
      with_world s (mkWorld t (allocs w) (reads w) (sent w) (told w)))
  end.

Fixpoint run (calls : list SubCall) : M unit :=
  match calls with
  | [] => mret tt
  | call :: calls => _ ← exec call; run calls
  end.

(** A new session with a channel. *)
Definition subs_init (t : Z) : SubServer :=
  mkSubServer (mkSession true 0 0 [] [] 0 0) ∅ ∅ ∅ [] 0 (mkTimer [] [] 0) []
    (mkWorld t 0 0 [] []).
End Run.
