(* ===== verification/SubscriptionInvariant.v ===== *)
(** * The invariant of subscriptions, monitored items and notifications

    The skeleton of a state keeps the queues, lists and pointers without the
    data.  [skel_ok]: the queue of an item is the part of the queue of its
    subscription that the item owns, in the same order; what is listed is
    allocated, and what waits to be freed is not listed; and the timer calls
    nothing that waits to be freed.  The lemmas say that every change of lists
    or pointers that the operations make keeps it. *)

From Stdlib Require Import ZArith Lia SpecFloat.
From stdpp Require Import base list numbers tactics sets gmap.
From S2P Require Import Prelude StateMonad UaTypes UaValue SubscriptionState Subscription SubscriptionServices.

(** ** The skeleton *)

(** An item that can be sampled, a new one, an item for events. *)
Inductive Kind := Sampled | Fresh | Other.

#[export] Instance kind_eq_dec : EqDecision Kind.
Proof. solve_decision. Defined.

Definition kind (y : UA_MonitoredItem) : Kind :=
  if decide (monitoredItemType y = UA_MONITOREDITEMTYPE_CHANGENOTIFY) then
    if decide (attributeId y <> UA_ATTRIBUTEID_EVENTNOTIFIER /\ 1 <= maxQueueSize y)
    then Sampled else Fresh
  else Other.

Definition pub (x : UA_Subscription) : option Z :=
  if publishCallbackIsRegistered x then Some (publishCallbackId x) else None.
Definition reg (y : UA_MonitoredItem) : option Z :=
  if sampleCallbackIsRegistered y then Some (sampleCallbackId y) else None.

Record Skel := mkSkel {
  k_queue : gmap nat (list nat);
  k_items : gmap nat (list nat);
  k_pub : gmap nat (option Z);
  k_of : gmap nat (option nat);
  k_mine : gmap nat (list nat);
  k_kind : gmap nat Kind;
  k_reg : gmap nat (option Z);
  k_owner : gmap nat nat;
  k_subs : list nat;
  k_local : list nat;
  k_delayed : list DelayedFree;
  k_timer : list (Z * Callback);
  k_counter : Z
}.

Definition skel (s : SubServer) : Skel :=
  mkSkel (notificationQueue <$> h_subs s) (monitoredItems <$> h_subs s) (pub <$> h_subs s)
    (mi_subscription <$> h_mons s) (mi_queue <$> h_mons s) (kind <$> h_mons s) (reg <$> h_mons s)
    (n_mon <$> h_notifs s) (serverSubscriptions (session s)) (localMonitoredItems s) (delayed s)
    (apply_changes (timer s)) (idCounter (timer s)).

Definition used (s : SubServer) : nat := allocs (world s).

(** The part of a queue that an item owns. *)
Definition owned (owner : gmap nat nat) (m : nat) (l : list nat) : list nat :=
  filter (fun n => owner !! n = Some m) l.

Record skel_ok (p : option nat) (k : Skel) (n : nat) : Prop := mkOk {
  ok_queue : forall a l, k_queue k !! a = Some l -> NoDup l;
  ok_queued : forall a l i, k_queue k !! a = Some l -> i ∈ l -> exists m,
    k_owner k !! i = Some m /\ k_of k !! m = Some (Some a) /\ k_kind k !! m = Some Sampled /\
    (FreeMonitoredItem m ∈ k_delayed k -> FreeSubscription a ∈ k_delayed k);
  ok_own : forall m a, k_of k !! m = Some (Some a) -> exists l,
    k_queue k !! a = Some l /\ k_mine k !! m = Some (owned (k_owner k) m l);
  ok_alone : forall m, k_of k !! m = Some None -> k_mine k !! m = Some [];
  ok_items : forall a l, k_items k !! a = Some l -> NoDup l /\ forall m, m ∈ l ->
    k_of k !! m = Some (Some a) /\ (FreeMonitoredItem m ∉ k_delayed k) /\ p <> Some m;
  ok_listed : forall a l, k_items k !! a = Some l ->
    a ∈ k_subs k \/ (FreeSubscription a ∈ k_delayed k /\ l = []);
  ok_kept : forall m o, k_of k !! m = Some o ->
    p = Some m \/ (FreeMonitoredItem m ∈ k_delayed k) \/
    match o with Some a => exists l, k_items k !! a = Some l /\ m ∈ l | None => m ∈ k_local k end;
  ok_kind : forall m, k_kind k !! m = Some Fresh -> p = Some m \/ FreeMonitoredItem m ∈ k_delayed k;
  ok_subs : NoDup (k_subs k);
  ok_alive : forall a, a ∈ k_subs k -> is_Some (k_items k !! a) /\ FreeSubscription a ∉ k_delayed k;
  ok_local : NoDup (k_local k);
  ok_locals : forall m, m ∈ k_local k ->
    k_of k !! m = Some None /\ (FreeMonitoredItem m ∉ k_delayed k) /\ p <> Some m;
  ok_delayed : NoDup (k_delayed k);
  ok_delayed_sub : forall a, FreeSubscription a ∈ k_delayed k -> is_Some (k_items k !! a);
  ok_delayed_mon : forall m, FreeMonitoredItem m ∈ k_delayed k -> is_Some (k_of k !! m);
  ok_pending : forall m, p = Some m -> is_Some (k_of k !! m) /\ FreeMonitoredItem m ∉ k_delayed k;
  ok_ids : NoDup (k_timer k).*1;
  ok_id : forall i c, (i, c) ∈ k_timer k -> i <= k_counter k;
  ok_publish : forall i a, (i, PublishCallback a) ∈ k_timer k ->
    a ∈ k_subs k /\ k_pub k !! a = Some (Some i);
  ok_sample : forall i m, (i, SampleCallback m) ∈ k_timer k ->
    k_reg k !! m = Some (Some i) /\ k_kind k !! m = Some Sampled /\ is_Some (k_of k !! m) /\
    FreeMonitoredItem m ∉ k_delayed k;
  ok_fresh_sub : forall a, is_Some (k_queue k !! a) -> (a < n)%nat;
  ok_fresh_items : forall a, is_Some (k_items k !! a) -> (a < n)%nat;
  ok_fresh_mon : forall m, is_Some (k_of k !! m) -> (m < n)%nat;
  ok_fresh_notif : forall i, is_Some (k_owner k !! i) -> (i < n)%nat
}.

Lemma skel_ok_used p k n n' : skel_ok p k n -> (n <= n')%nat -> skel_ok p k n'.
Proof.
  intros [] Hn; constructor; try done; intros a Ha; eapply Nat.lt_le_trans; eauto.
Qed.

(** ** Lists *)

Lemma owned_none o m l : (forall i, i ∈ l -> o !! i <> Some m) -> owned o m l = [].
Proof.
  unfold owned; induction l as [|i l IH]; intros Hl; [done|].
  rewrite filter_cons_False by (apply Hl, list_elem_of_here).
  apply IH; intros j Hj; by apply Hl, list_elem_of_further.
Qed.

Lemma owned_app o m l1 l2 : owned o m (l1 ++ l2) = owned o m l1 ++ owned o m l2.
Proof. apply filter_app. Qed.

Lemma owned_in o m l i : i ∈ owned o m l <-> o !! i = Some m /\ i ∈ l.
Proof. unfold owned; by rewrite list_elem_of_filter. Qed.

Lemma filter_ext_in {A} (P Q : A -> Prop) `{!∀ x, Decision (P x), !∀ x, Decision (Q x)} (l : list A) :
  (forall x, x ∈ l -> P x <-> Q x) -> filter P l = filter Q l.
Proof.
  induction l as [|x l IH]; intros Hpq; [done|].
  rewrite !filter_cons, IH by (intros; apply Hpq; set_solver).
  assert (P x <-> Q x) by (apply Hpq; set_solver); by repeat case_decide; try tauto.
Qed.

(** Deleting the owner of [i] from the table is deleting it from the list. *)
Lemma owned_delete o m l i : i ∉ l -> owned (delete i o) m l = owned o m l.
Proof.
  intros Hi; apply filter_ext_in; intros j Hj; rewrite lookup_delete_ne; [done|set_solver].
Qed.

Lemma owned_insert o m m' l i : i ∉ l -> owned (<[i := m']> o) m l = owned o m l.
Proof.
  intros Hi; apply filter_ext_in; intros j Hj; rewrite lookup_insert_ne; [done|set_solver].
Qed.

Lemma owned_without o m l i : owned o m (without i l) = without i (owned o m l).
Proof.
  unfold owned, without; rewrite !list_filter_filter; apply list_filter_iff; naive_solver.
Qed.

Lemma owned_other o m m' l i : o !! i = Some m' -> m <> m' -> owned o m (without i l) = owned o m l.
Proof.
  intros Ho Hne; unfold owned, without; rewrite list_filter_filter.
  apply list_filter_iff; intros j; split; [naive_solver|intros Hj; split; [done|congruence]].
Qed.

(** ** Notifications *)

Section Updates.
Context (p : option nat) (k : Skel) (n : nat).
Hypothesis (H : skel_ok p k n).

Definition k_set_queue (k : Skel) queue mine owner : Skel :=
  mkSkel queue (k_items k) (k_pub k) (k_of k) mine (k_kind k) (k_reg k) owner (k_subs k)
    (k_local k) (k_delayed k) (k_timer k) (k_counter k).

(** Notification [i] of item [m] is deleted; [l'] is the queue of the
    subscription without it, in which the items may have changed places, but
    not those of one monitored item. *)
Lemma ok_delete_notification m a l q i l' :
  k_of k !! m = Some (Some a) -> k_queue k !! a = Some l -> k_mine k !! m = Some q -> i ∈ q ->
  l' ≡ₚ without i l -> (forall m', owned (k_owner k) m' l' = owned (k_owner k) m' (without i l)) ->
  skel_ok p (k_set_queue k (<[a := l']> (k_queue k)) (<[m := without i q]> (k_mine k))
               (delete i (k_owner k))) n.
Proof.
  intros Hof Hl Hq Hi Hp Ho; destruct H.
  assert (q = owned (k_owner k) m l) as Hql by (destruct (ok_own0 m a Hof) as (? & ? & ?); congruence).
  assert (k_owner k !! i = Some m /\ i ∈ l) as [Hoi Hil] by (apply owned_in; congruence).
  assert (forall j, j ∈ l' <-> j <> i /\ j ∈ l) as Hl'.
  { intros j; rewrite Hp; apply elem_of_without. }
  constructor; cbn; try done.
  - intros b x [[<- <-]|[_ Hx]]%lookup_insert_Some; [|by eapply ok_queue0].
    rewrite Hp; by apply NoDup_filter, ok_queue0 with a.
  - intros b x j [[<- <-]|[Hne Hx]]%lookup_insert_Some Hj.
    + apply Hl' in Hj as [Hji Hj]; destruct (ok_queued0 a l j Hl Hj) as (m' & ? & ?).
      exists m'; by rewrite lookup_delete_ne.
    + destruct (ok_queued0 b x j Hx Hj) as (m' & ? & ? & ?); exists m'.
      rewrite lookup_delete_ne; [done|]; intros <-; naive_solver.
  - intros m' b Hb; destruct (ok_own0 m' b Hb) as (x & Hx & Hm).
    destruct (decide (b = a)) as [->|Hba].
    + assert (x = l) as -> by congruence; exists l'; rewrite lookup_insert_eq; split; [done|].
      rewrite owned_delete by (rewrite Hl'; naive_solver); rewrite Ho.
      destruct (decide (m' = m)) as [->|Hmm].
      * rewrite lookup_insert_eq, owned_without; congruence.
      * rewrite lookup_insert_ne by done; by rewrite (owned_other _ _ m).
    + assert (m' <> m) by congruence; exists x; rewrite !lookup_insert_ne by done; split; [done|].
      rewrite owned_delete; [done|]; intros Hix; destruct (ok_queued0 b x i Hx Hix) as (? & ? & ? & _); congruence.
  - intros m' Hm; rewrite lookup_insert_ne; [by apply ok_alone0|congruence].
  - intros b; rewrite lookup_insert_is_Some'; naive_solver.
  - intros j [x Hx]; apply ok_fresh_notif0; apply lookup_delete_Some in Hx as [_ Hx]; eauto.
Qed.

(** A new notification of an item. *)
Lemma ok_enqueue m a l q i n' :
  k_of k !! m = Some (Some a) -> k_queue k !! a = Some l -> k_mine k !! m = Some q ->
  k_kind k !! m = Some Sampled -> k_owner k !! i = None -> (n <= n')%nat -> (i < n')%nat ->
  (FreeMonitoredItem m ∈ k_delayed k -> FreeSubscription a ∈ k_delayed k) ->
  skel_ok p (k_set_queue k (<[a := l ++ [i]]> (k_queue k)) (<[m := q ++ [i]]> (k_mine k))
               (<[i := m]> (k_owner k))) n'.
Proof.
  intros Hof Hl Hq Hk Hi Hn Hin Hz; apply skel_ok_used with (n' := n') in H; [|done]; destruct H.
  assert (q = owned (k_owner k) m l) as Hql by (destruct (ok_own0 m a Hof) as (? & ? & ?); congruence).
  assert (forall b x, k_queue k !! b = Some x -> i ∉ x) as Hf.
  { intros b x Hx Hix; destruct (ok_queued0 b x i Hx Hix) as (? & ? & _); congruence. }
  constructor; cbn; try done.
  - intros b x [[<- <-]|[_ Hx]]%lookup_insert_Some; [|by eapply ok_queue0].
    apply NoDup_app; split; [by eapply ok_queue0|]; split; [|apply NoDup_singleton].
    intros j Hj ->%list_elem_of_singleton; by eapply Hf.
  - intros b x j [[<- <-]|[Hne Hx]]%lookup_insert_Some Hj.
    + apply elem_of_app in Hj as [Hj| ->%list_elem_of_singleton].
      * destruct (ok_queued0 a l j Hl Hj) as (m' & ? & ?); exists m'.
        rewrite lookup_insert_ne; [done|]; intros <-; by eapply Hf.
      * exists m; by rewrite lookup_insert_eq.
    + destruct (ok_queued0 b x j Hx Hj) as (m' & ? & ?); exists m'.
      rewrite lookup_insert_ne; [done|]; intros <-; by eapply Hf.
  - intros m' b Hb; destruct (ok_own0 m' b Hb) as (x & Hx & Hm).
    destruct (decide (b = a)) as [->|Hba].
    + assert (x = l) as -> by congruence; exists (l ++ [i]); rewrite lookup_insert_eq; split; [done|].
      rewrite owned_app, owned_insert by eauto.
      unfold owned at 2; rewrite filter_cons, filter_nil, lookup_insert_eq.
      destruct (decide (m' = m)) as [->|Hmm].
      * rewrite lookup_insert_eq, decide_True by done; congruence.
      * rewrite lookup_insert_ne, decide_False by congruence; by rewrite app_nil_r.
    + assert (m' <> m) by congruence; exists x; rewrite !lookup_insert_ne by done; split; [done|].
      rewrite owned_insert by eauto; done.
  - intros m' Hm; rewrite lookup_insert_ne; [by apply ok_alone0|congruence].
  - intros b; rewrite lookup_insert_is_Some'; naive_solver.
  - intros j; rewrite lookup_insert_is_Some'; naive_solver.
Qed.

(** ** The timer *)

Definition k_set_timer (k : Skel) pubs regs l c : Skel :=
  mkSkel (k_queue k) (k_items k) pubs (k_of k) (k_mine k) (k_kind k) regs (k_owner k) (k_subs k)
    (k_local k) (k_delayed k) l c.

(** The callbacks but one. *)
Definition unscheduled (i : Z) (l : list (Z * Callback)) : list (Z * Callback) :=
  List.filter (fun q => negb (fst q =? i)) l.

Lemma unscheduled_in i l j c : (j, c) ∈ unscheduled i l <-> j <> i /\ (j, c) ∈ l.
Proof.
  unfold unscheduled; rewrite !list_elem_of_In, filter_In; cbn.
  rewrite negb_true_iff, Z.eqb_neq; tauto.
Qed.

Lemma unscheduled_ids i l : NoDup l.*1 -> NoDup (unscheduled i l).*1.
Proof.
  unfold unscheduled; induction l as [|[j c] l IH]; cbn; [done|].
  intros [Hj Hl]%NoDup_cons; destruct (negb _); [|by apply IH].
  apply NoDup_cons; split; [|by apply IH].
  intros ([j' c'] & Heq & Hin)%list_elem_of_fmap; cbn in Heq; subst j'; apply Hj, list_elem_of_fmap.
  exists (j, c'); split; [done|]; by apply (unscheduled_in i l j c') in Hin as [_ ?].
Qed.

Lemma ok_register_sample m :
  k_kind k !! m = Some Sampled -> k_reg k !! m = Some None -> is_Some (k_of k !! m) ->
  FreeMonitoredItem m ∉ k_delayed k ->
  skel_ok p (k_set_timer k (k_pub k) (<[m := Some (k_counter k + 1)]> (k_reg k))
               ((k_counter k + 1, SampleCallback m) :: k_timer k) (k_counter k + 1)) n.
Proof.
  intros Hk Hr Hof Hd; destruct H; constructor; cbn; try done.
  - apply NoDup_cons; split; [|done].
    intros ([j c] & Hj & Hin)%list_elem_of_fmap; apply ok_id0 in Hin; cbn in Hj; lia.
  - intros j c [[= -> ->]|Hin]%elem_of_cons; [lia|]; apply ok_id0 in Hin; lia.
  - intros j a [[=]|Hin]%elem_of_cons; by apply ok_publish0.
  - intros j m' [[= -> ->]|Hin]%elem_of_cons; [by rewrite lookup_insert_eq|].
    destruct (ok_sample0 j m' Hin) as (? & ? & ? & ?); rewrite lookup_insert_ne; [done|congruence].
Qed.

Lemma ok_unregister_sample m i :
  k_reg k !! m = Some (Some i) ->
  skel_ok p (k_set_timer k (k_pub k) (<[m := None]> (k_reg k))
               (unscheduled i (k_timer k)) (k_counter k)) n.
Proof.
  intros Hr; destruct H; constructor; cbn; try done.
  - by apply unscheduled_ids.
  - intros j c [_ Hin]%unscheduled_in; eauto.
  - intros j a [_ Hin]%unscheduled_in; eauto.
  - intros j m' [Hj Hin]%unscheduled_in; destruct (ok_sample0 j m' Hin) as (? & ? & ? & ?).
    rewrite lookup_insert_ne; [done|congruence].
Qed.

Lemma ok_register_publish a :
  a ∈ k_subs k -> k_pub k !! a = Some None ->
  skel_ok p (k_set_timer k (<[a := Some (k_counter k + 1)]> (k_pub k)) (k_reg k)
               ((k_counter k + 1, PublishCallback a) :: k_timer k) (k_counter k + 1)) n.
Proof.
  intros Ha Hr; destruct H; constructor; cbn; try done.
  - apply NoDup_cons; split; [|done].
    intros ([j c] & Hj & Hin)%list_elem_of_fmap; apply ok_id0 in Hin; cbn in Hj; lia.
  - intros j c [[= -> ->]|Hin]%elem_of_cons; [lia|]; apply ok_id0 in Hin; lia.
  - intros j b [[= -> ->]|Hin]%elem_of_cons; [by rewrite lookup_insert_eq|].
    destruct (ok_publish0 j b Hin) as (? & ?); rewrite lookup_insert_ne; [done|congruence].
  - intros j m [[=]|Hin]%elem_of_cons; by apply ok_sample0.
Qed.

Lemma ok_unregister_publish a i :
  k_pub k !! a = Some (Some i) ->
  skel_ok p (k_set_timer k (<[a := None]> (k_pub k)) (k_reg k)
               (unscheduled i (k_timer k)) (k_counter k)) n.
Proof.
  intros Hr; destruct H; constructor; cbn; try done.
  - by apply unscheduled_ids.
  - intros j c [_ Hin]%unscheduled_in; eauto.
  - intros j b [Hj Hin]%unscheduled_in; destruct (ok_publish0 j b Hin) as (? & ?).
    rewrite lookup_insert_ne; [done|congruence].
  - intros j m [_ Hin]%unscheduled_in; eauto.
Qed.

(** ** Subscriptions *)

Definition k_set_subs (k : Skel) queue items pubs subs del : Skel :=
  mkSkel queue items pubs (k_of k) (k_mine k) (k_kind k) (k_reg k) (k_owner k) subs
    (k_local k) del (k_timer k) (k_counter k).

Lemma ok_new_subscription a n' :
  (n <= a)%nat -> (a < n')%nat ->
  skel_ok p (k_set_subs k (<[a := []]> (k_queue k)) (<[a := []]> (k_items k))
               (<[a := None]> (k_pub k)) (a :: k_subs k) (k_delayed k)) n'.
Proof.
  intros Ha Hn; destruct H.
  assert (k_queue k !! a = None) as Hq.
  { apply eq_None_not_Some; intros ?%ok_fresh_sub0; lia. }
  assert (k_items k !! a = None) as Hi.
  { apply eq_None_not_Some; intros ?%ok_fresh_items0; lia. }
  assert (a ∉ k_subs k) as Hs by (intros [[? ?] _]%ok_alive0; congruence).
  assert (forall b, k_of k !! b = Some (Some a) -> False) as Hno.
  { intros m Hm; destruct (ok_own0 m a Hm) as (? & ? & _); congruence. }
  constructor; cbn; try done.
  - intros b l [[<- <-]|[_ Hl]]%lookup_insert_Some; [constructor|eauto].
  - intros b l i [[<- <-]|[_ Hl]]%lookup_insert_Some Hin; [by apply not_elem_of_nil in Hin|eauto].
  - intros m b Hm; destruct (ok_own0 m b Hm) as (l & ? & ?); exists l.
    rewrite lookup_insert_ne; [done|intros <-; eauto].
  - intros b l [[<- <-]|[_ Hl]]%lookup_insert_Some; [|eauto].
    split; [constructor|]; intros m Hm; by apply not_elem_of_nil in Hm.
  - intros b l [[<- <-]|[_ Hl]]%lookup_insert_Some; [left; apply list_elem_of_here|].
    destruct (ok_listed0 b l Hl); [left; by apply list_elem_of_further|by right].
  - intros m o Hm; destruct (ok_kept0 m o Hm) as [?|[?|Ho]]; [by left|by right; left|right; right].
    destruct o as [b|]; [|done]; destruct Ho as (l & Hl & Hin); exists l.
    rewrite lookup_insert_ne by (intros <-; eauto); done.
  - by apply NoDup_cons.
  - intros b [->|Hb]%elem_of_cons.
    + rewrite lookup_insert_eq; split; [by eexists|].
      intros ?%ok_delayed_sub0; by destruct (k_items k !! a), H0.
    + destruct (ok_alive0 b Hb) as [? ?]; rewrite lookup_insert_ne by (intros <-; done); done.
  - intros b Hb; apply lookup_insert_is_Some'; auto.
  - intros i b Hb; destruct (ok_publish0 i b Hb) as [Hin ?].
    split; [by apply list_elem_of_further|]; rewrite lookup_insert_ne by (intros <-; done); done.
  - intros b [<-|Hb]%lookup_insert_is_Some'; [done|]; specialize (ok_fresh_sub0 b Hb); lia.
  - intros b [<-|Hb]%lookup_insert_is_Some'; [done|]; specialize (ok_fresh_items0 b Hb); lia.
  - intros m Hm; specialize (ok_fresh_mon0 m Hm); lia.
  - intros i Hm; specialize (ok_fresh_notif0 i Hm); lia.
Qed.

(** A subscription without items and callback is taken out of the session. *)
Lemma ok_drop_subscription a :
  a ∈ k_subs k -> k_items k !! a = Some [] -> k_pub k !! a = Some None ->
  skel_ok p (k_set_subs k (k_queue k) (k_items k) (k_pub k) (without a (k_subs k))
               (FreeSubscription a :: k_delayed k)) n.
Proof.
  intros Ha Hi Hp; destruct H; destruct (ok_alive0 a Ha) as [_ Hd].
  assert (forall m, FreeMonitoredItem m ∈ FreeSubscription a :: k_delayed k <->
                    FreeMonitoredItem m ∈ k_delayed k) as Hm by (intros m; rewrite elem_of_cons; naive_solver).
  constructor; cbn; try done; try by setoid_rewrite Hm.
  - intros b l i Hl Hin; destruct (ok_queued0 b l i Hl Hin) as (m & ? & ? & ? & Hz); exists m.
    rewrite Hm; do 3 (split; [done|]); intros ?; apply list_elem_of_further; auto.
  - intros b l Hl; destruct (ok_listed0 b l Hl) as [Hb|[? ->]].
    + destruct (decide (b = a)) as [->|Hne].
      * right; split; [apply list_elem_of_here|congruence].
      * left; by apply elem_of_without.
    + right; split; [by apply list_elem_of_further|done].
  - by apply NoDup_filter.
  - intros b [Hne Hb]%elem_of_without; destruct (ok_alive0 b Hb) as [? Hnd]; split; [done|].
    rewrite elem_of_cons; naive_solver.
  - by apply NoDup_cons.
  - intros b [[= ->]|Hb]%elem_of_cons; [by eexists|eauto].
  - intros i b Hb; destruct (ok_publish0 i b Hb) as [Hin Hpb]; split; [|done].
    apply elem_of_without; split; [congruence|done].
Qed.
(** ** Monitored items *)

Definition k_set_mons (k : Skel) items sub mine kinds regs loc del : Skel :=
  mkSkel (k_queue k) items (k_pub k) sub mine kinds regs (k_owner k) (k_subs k)
    loc del (k_timer k) (k_counter k).

Lemma ok_new_item m o n' :
  p = None -> (n <= m)%nat -> (m < n')%nat ->
  match o with Some a => is_Some (k_queue k !! a) | None => True end ->
  skel_ok (Some m) (k_set_mons k (k_items k) (<[m := o]> (k_of k)) (<[m := []]> (k_mine k))
                      (<[m := Fresh]> (k_kind k)) (<[m := None]> (k_reg k)) (k_local k) (k_delayed k)) n'.
Proof.
  intros Hp Hm Hn Ho; destruct H.
  assert (k_of k !! m = None) as Hof by (apply eq_None_not_Some; intros ?%ok_fresh_mon0; lia).
  assert (FreeMonitoredItem m ∉ k_delayed k) as Hd.
  { intros [? ?]%ok_delayed_mon0; congruence. }
  assert (forall a l i, k_queue k !! a = Some l -> i ∈ l -> k_owner k !! i <> Some m) as Hq.
  { intros a l i Hl Hi Hj; destruct (ok_queued0 a l i Hl Hi) as (? & ? & ? & _); congruence. }
  constructor; cbn; try done.
  - intros a l i Hl Hi; destruct (ok_queued0 a l i Hl Hi) as (m' & Hj & ?); exists m'.
    assert (m <> m') by (intros <-; by eapply Hq); by rewrite !lookup_insert_ne.
  - intros m' a [[<- ->]|[Hne Hm']]%lookup_insert_Some.
    + destruct Ho as [l Hl]; exists l; rewrite lookup_insert_eq; split; [done|]; f_equal.
      symmetry; apply owned_none; eauto.
    + destruct (ok_own0 m' a Hm') as (l & ? & ?); exists l; by rewrite lookup_insert_ne.
  - intros m' [[<- ->]|[Hne Hm']]%lookup_insert_Some; [by rewrite lookup_insert_eq|].
    rewrite lookup_insert_ne; auto.
  - intros a l Hl; destruct (ok_items0 a l Hl) as [? Hin]; split; [done|]; intros m' Hm'.
    destruct (Hin m' Hm') as (? & ? & ?); assert (m <> m') by congruence.
    rewrite lookup_insert_ne; naive_solver.
  - intros m' o' [[<- ->]|[Hne Hm']]%lookup_insert_Some; [by left|].
    destruct (ok_kept0 m' o' Hm') as [?|?]; [congruence|by right].
  - intros m' [[<- _]|[Hne Hm']]%lookup_insert_Some; [by left|].
    destruct (ok_kind0 m' Hm') as [?|?]; [congruence|by right].
  - intros m' Hm'; destruct (ok_locals0 m' Hm') as (? & ? & ?); assert (m <> m') by congruence.
    rewrite lookup_insert_ne; naive_solver.
  - intros m' Hm'; apply lookup_insert_is_Some'; auto.
  - intros m' [= <-]; rewrite lookup_insert_eq; by split; [eexists|].
  - intros i m' Hi; destruct (ok_sample0 i m' Hi) as (? & ? & [? ?] & ?).
    assert (m <> m') by congruence; by rewrite !lookup_insert_ne.
  - intros a Ha; specialize (ok_fresh_sub0 a Ha); lia.
  - intros a Ha; specialize (ok_fresh_items0 a Ha); lia.
  - intros m' [<-|Hb]%lookup_insert_is_Some'; [done|]; specialize (ok_fresh_mon0 m' Hb); lia.
  - intros i Hi; specialize (ok_fresh_notif0 i Hi); lia.
Qed.
Lemma ok_set_kind m q :
  k_kind k !! m <> Some Sampled -> q <> Fresh ->
  skel_ok p (k_set_mons k (k_items k) (k_of k) (k_mine k) (<[m := q]> (k_kind k)) (k_reg k)
               (k_local k) (k_delayed k)) n.
Proof.
  intros Hk Hq; destruct H; constructor; cbn; try done.
  - intros a l i Hl Hi; destruct (ok_queued0 a l i Hl Hi) as (m' & ? & ? & ? & ?); exists m'.
    rewrite lookup_insert_ne; [done|congruence].
  - intros m' [[<- ?]|[_ Hm']]%lookup_insert_Some; [congruence|eauto].
  - intros i m' Hi; destruct (ok_sample0 i m' Hi) as (? & ? & ?).
    rewrite lookup_insert_ne; [done|congruence].
Qed.

Lemma ok_list_item m a l :
  p = Some m -> k_of k !! m = Some (Some a) -> k_items k !! a = Some l -> a ∈ k_subs k ->
  k_kind k !! m <> Some Fresh ->
  skel_ok None (k_set_mons k (<[a := m :: l]> (k_items k)) (k_of k) (k_mine k) (k_kind k) (k_reg k)
                  (k_local k) (k_delayed k)) n.
Proof.
  intros -> Hof Hl Ha Hk; destruct H; destruct (ok_pending0 m eq_refl) as [_ Hd].
  constructor; cbn; try done.
  - intros b x [[<- <-]|[_ Hx]]%lookup_insert_Some.
    + destruct (ok_items0 a l Hl) as [? Hin]; split.
      { apply NoDup_cons; split; [|done]; intros Hm; by destruct (Hin m Hm) as (_ & _ & ?). }
      intros m' [->|Hm']%elem_of_cons; [done|]; by destruct (Hin m' Hm') as (? & ? & _).
    + destruct (ok_items0 b x Hx) as [? Hin]; split; [done|].
      intros m' Hm'; by destruct (Hin m' Hm') as (? & ? & _).
  - intros b x [[<- <-]|[_ Hx]]%lookup_insert_Some; [by left|eauto].
  - intros m' o Hm'; right; destruct (ok_kept0 m' o Hm') as [[= <-]|[?|Ho]]; [right|by left|right].
    + replace o with (Some a) by congruence; exists (m :: l); rewrite lookup_insert_eq.
      split; [done|apply list_elem_of_here].
    + destruct o as [b|]; [|done]; destruct Ho as (x & Hx & Hin).
      destruct (decide (a = b)) as [<-|Hne].
      * exists (m :: l); rewrite lookup_insert_eq; split; [done|]; apply list_elem_of_further; congruence.
      * exists x; by rewrite lookup_insert_ne.
  - intros m' Hm'; destruct (ok_kind0 m' Hm') as [[= <-]|?]; [done|by right].
  - intros b Hb; destruct (ok_alive0 b Hb); split; [apply lookup_insert_is_Some'; auto|done].
  - intros m' Hm'; by destruct (ok_locals0 m' Hm') as (? & ? & _).
  - intros b Hb; apply lookup_insert_is_Some'; auto.
  - intros b [<-|Hb]%lookup_insert_is_Some'; [|eauto]; apply ok_fresh_items0; by eexists.
Qed.

Lemma ok_list_local m :
  p = Some m -> k_of k !! m = Some None -> k_kind k !! m <> Some Fresh ->
  skel_ok None (k_set_mons k (k_items k) (k_of k) (k_mine k) (k_kind k) (k_reg k)
                  (m :: k_local k) (k_delayed k)) n.
Proof.
  intros -> Hof Hk; destruct H; destruct (ok_pending0 m eq_refl) as [_ Hd].
  constructor; cbn; try done.
  - intros b x Hx; destruct (ok_items0 b x Hx) as [? Hin]; split; [done|].
    intros m' Hm'; by destruct (Hin m' Hm') as (? & ? & _).
  - intros m' o Hm'; right; destruct (ok_kept0 m' o Hm') as [[= <-]|[?|Ho]]; [right|by left|right].
    + replace o with (@None nat) by congruence; apply list_elem_of_here.
    + destruct o as [b|]; [done|by apply list_elem_of_further].
  - intros m' Hm'; destruct (ok_kind0 m' Hm') as [[= <-]|?]; [done|by right].
  - apply NoDup_cons; split; [|done]; intros Hm; by destruct (ok_locals0 m Hm) as (_ & _ & ?).
  - intros m' [->|Hm']%elem_of_cons; [done|]; by destruct (ok_locals0 m' Hm') as (? & ? & _).
Qed.

Lemma ok_unlist_item m a l :
  p = None -> k_items k !! a = Some l -> m ∈ l ->
  skel_ok (Some m) (k_set_mons k (<[a := without m l]> (k_items k)) (k_of k) (k_mine k) (k_kind k)
                      (k_reg k) (k_local k) (k_delayed k)) n.
Proof.
  intros -> Hl Hm; destruct H; destruct (ok_items0 a l Hl) as [Hnd Hin].
  destruct (Hin m Hm) as (Hof & Hd & _); constructor; cbn; try done.
  - intros b x [[<- <-]|[Hne Hx]]%lookup_insert_Some.
    + split; [by apply NoDup_filter|]; intros m' [Hne Hm']%elem_of_without.
      destruct (Hin m' Hm') as (? & ? & _); split; [done|]; split; [done|congruence].
    + destruct (ok_items0 b x Hx) as [? Hin']; split; [done|]; intros m' Hm'.
      destruct (Hin' m' Hm') as (? & ? & _); split; [done|]; split; [done|congruence].
  - intros b x [[<- <-]|[Hne Hx]]%lookup_insert_Some; [|eauto].
    destruct (ok_listed0 a l Hl) as [?|[_ ->]]; [by left|by apply not_elem_of_nil in Hm].
  - intros m' o Hm'; destruct (decide (m' = m)) as [->|Hne]; [by left|]; right.
    destruct (ok_kept0 m' o Hm') as [?|[?|Ho]]; [done|by left|right].
    destruct o as [b|]; [|done]; destruct Ho as (x & Hx & Hin').
    destruct (decide (a = b)) as [<-|Hab].
    + exists (without m l); rewrite lookup_insert_eq; split; [done|].
      apply elem_of_without; split; [done|congruence].
    + exists x; by rewrite lookup_insert_ne.
  - intros m' Hm'; destruct (ok_kind0 m' Hm') as [?|?]; [done|by right].
  - intros b Hb; destruct (ok_alive0 b Hb); split; [apply lookup_insert_is_Some'; auto|done].
  - intros m' Hm'; destruct (ok_locals0 m' Hm') as (? & ? & _); split; [done|].
    split; [done|congruence].
  - intros b Hb; apply lookup_insert_is_Some'; auto.
  - intros m' [= <-]; split; [by eexists|done].
  - intros b [<-|Hb]%lookup_insert_is_Some'; [|eauto]; apply ok_fresh_items0; by eexists.
Qed.

Lemma ok_unlist_local m :
  p = None -> m ∈ k_local k ->
  skel_ok (Some m) (k_set_mons k (k_items k) (k_of k) (k_mine k) (k_kind k)
                      (k_reg k) (without m (k_local k)) (k_delayed k)) n.
Proof.
  intros -> Hm; destruct H; destruct (ok_locals0 m Hm) as (Hof & Hd & _).
  constructor; cbn; try done.
  - intros b x Hx; destruct (ok_items0 b x Hx) as [? Hin']; split; [done|]; intros m' Hm'.
    destruct (Hin' m' Hm') as (? & ? & _); split; [done|]; split; [done|congruence].
  - intros m' o Hm'; destruct (decide (m' = m)) as [->|Hne]; [by left|]; right.
    destruct (ok_kept0 m' o Hm') as [?|[?|Ho]]; [done|by left|right].
    destruct o as [b|]; [done|by apply elem_of_without].
  - intros m' Hm'; destruct (ok_kind0 m' Hm') as [?|?]; [done|by right].
  - by apply NoDup_filter.
  - intros m' [Hne Hm']%elem_of_without; destruct (ok_locals0 m' Hm') as (? & ? & _); split; [done|].
    split; [done|congruence].
  - intros m' [= <-]; split; [by eexists|done].
Qed.

(** An item that is not listed, without notifications and callback, waits to
    be freed. *)
Lemma ok_delay_item m :
  p = Some m -> k_mine k !! m = Some [] -> (forall i, (i, SampleCallback m) ∉ k_timer k) ->
  skel_ok None (k_set_mons k (k_items k) (k_of k) (k_mine k) (k_kind k) (k_reg k) (k_local k)
                  (FreeMonitoredItem m :: k_delayed k)) n.
Proof.
  intros -> Hq Hr; destruct H; destruct (ok_pending0 m eq_refl) as [Hof Hd].
  assert (forall a, FreeSubscription a ∈ FreeMonitoredItem m :: k_delayed k <->
                    FreeSubscription a ∈ k_delayed k) as Ha by (intros a; rewrite elem_of_cons; naive_solver).
  assert (forall m', m' <> m -> FreeMonitoredItem m' ∈ FreeMonitoredItem m :: k_delayed k <->
                    FreeMonitoredItem m' ∈ k_delayed k) as Hm by (intros a ?; rewrite elem_of_cons; naive_solver).
  constructor; cbn; try done.
  - intros a l i Hl Hi; destruct (ok_queued0 a l i Hl Hi) as (m' & Ho & Hm' & ? & Hz); exists m'.
    rewrite Ha, Hm; [done|]; intros ->; destruct (ok_own0 m a Hm') as (l' & Hl' & Hmine).
    assert (i ∈ owned (k_owner k) m l') by (apply owned_in; split; congruence).
    replace (owned (k_owner k) m l') with (@nil nat) in * by congruence; by eapply not_elem_of_nil.
  - intros a l Hl; destruct (ok_items0 a l Hl) as [? Hin]; split; [done|]; intros m' Hm'.
    destruct (Hin m' Hm') as (? & ? & ?); split; [done|]; rewrite Hm by congruence; done.
  - intros a l Hl; rewrite Ha; eauto.
  - intros m' o Hm'; destruct (ok_kept0 m' o Hm') as [[= <-]|[?|Ho]]; [right; left|right; left|by right; right].
    + apply list_elem_of_here.
    + by apply list_elem_of_further.
  - intros m' Hm'; right; destruct (ok_kind0 m' Hm') as [[= <-]|?]; [apply list_elem_of_here|by apply list_elem_of_further].
  - intros a Hin; rewrite Ha; eauto.
  - intros m' Hm'; destruct (ok_locals0 m' Hm') as (? & ? & ?); rewrite Hm by congruence; done.
  - by apply NoDup_cons.
  - intros a Hin%Ha; eauto.
  - intros m' [[= ->]|Hm']%elem_of_cons; [done|eauto].
  - intros i m' Hi; destruct (ok_sample0 i m' Hi) as (? & ? & ? & ?).
    rewrite Hm by (intros ->; by eapply Hr); done.
Qed.
End Updates.

(** ** The end of an iteration *)

(** The heaps without what waits to be freed. *)
Definition freed_sub (d : list DelayedFree) (a : nat) : Prop := FreeSubscription a ∈ d.
Definition freed_mon (d : list DelayedFree) (m : nat) : Prop := FreeMonitoredItem m ∈ d.

#[export] Instance freed_sub_dec d a : Decision (freed_sub d a).
Proof. unfold freed_sub; apply _. Defined.
#[export] Instance freed_mon_dec d m : Decision (freed_mon d m).
Proof. unfold freed_mon; apply _. Defined.

Definition keep_subs {A} (d : list DelayedFree) (h : gmap nat A) : gmap nat A :=
  filter (fun q => ~ freed_sub d q.1) h.
Definition keep_mons {A} (d : list DelayedFree) (h : gmap nat A) : gmap nat A :=
  filter (fun q => ~ freed_mon d q.1) h.

Definition k_cleanup (k : Skel) : Skel :=
  let d := k_delayed k in
  mkSkel (keep_subs d (k_queue k)) (keep_subs d (k_items k)) (keep_subs d (k_pub k))
    (keep_mons d (k_of k)) (keep_mons d (k_mine k)) (keep_mons d (k_kind k)) (keep_mons d (k_reg k))
    (k_owner k) (k_subs k) (k_local k) [] (k_timer k) (k_counter k).

Lemma ok_free_all k n : skel_ok None k n -> skel_ok None (k_cleanup k) n.
Proof.
  intros []; unfold k_cleanup, keep_subs, keep_mons; set (d := k_delayed k) in *.
  assert (forall m, FreeMonitoredItem m ∉ []) as Hn1 by (intros ?; apply not_elem_of_nil).
  assert (forall a, FreeSubscription a ∉ []) as Hn2 by (intros ?; apply not_elem_of_nil).
  constructor; cbn; try done; repeat setoid_rewrite map_lookup_filter_Some; cbn.
  - intros a l [? _]; eauto.
  - intros a l i [Hl Ha] Hi; destruct (ok_queued0 a l i Hl Hi) as (m & ? & ? & ? & Hz).
    exists m; assert (~ freed_mon d m) by (intros Hm; by apply Ha, Hz).
    split; [done|]; split; [done|]; split; [done|]; intros Hin; by apply not_elem_of_nil in Hin.
  - intros m a [Hm Hd]; destruct (ok_own0 m a Hm) as (l & Hl & ?); exists l.
    split; [split; [done|]|done]; intros Ha.
    destruct (ok_kept0 m (Some a) Hm) as [?|[?|(x & Hx & Hin)]]; [done|done|].
    destruct (ok_listed0 a x Hx) as [Hs|[_ ->]]; [by apply ok_alive0 in Hs as [_ ?]|].
    by apply not_elem_of_nil in Hin.
  - intros m [Hm ?]; auto.
  - intros a l [Hl Ha]; destruct (ok_items0 a l Hl) as [? Hin]; split; [done|].
    intros m Hm; destruct (Hin m Hm) as (? & ? & _); done.
  - intros a l [Hl Ha]; destruct (ok_listed0 a l Hl) as [?|[? _]]; [by left|done].
  - intros m o [Hm Hd]; right; right; destruct (ok_kept0 m o Hm) as [?|[?|Ho]]; [done|done|].
    destruct o as [a|]; [|done]; destruct Ho as (l & Hl & Hin); exists l.
    split; [apply map_lookup_filter_Some; split; [done|]; cbn|done].
    intros Ha; destruct (ok_listed0 a l Hl) as [Hs|[_ ->]]; [by apply ok_alive0 in Hs as [_ ?]|].
    by apply not_elem_of_nil in Hin.
  - intros m [Hm Hd]; destruct (ok_kind0 m Hm) as [?|?]; done.
  - intros a Ha; destruct (ok_alive0 a Ha) as [[l Hl] Hd]; split; [|done].
    exists l; by apply map_lookup_filter_Some.
  - intros m Hm; destruct (ok_locals0 m Hm) as (? & ? & _); done.
  - apply NoDup_nil_2.
  - intros a Ha; by apply not_elem_of_nil in Ha.
  - intros m Ha; by apply not_elem_of_nil in Ha.
  - intros i a Hi; destruct (ok_publish0 i a Hi) as [Ha ?]; split; [done|]; split; [done|].
    by destruct (ok_alive0 a Ha).
  - intros i m Hi; destruct (ok_sample0 i m Hi) as (? & ? & [o Ho] & ?); split; [done|].
    split; [done|]; split; [|done]; exists o; by apply map_lookup_filter_Some.
  - intros a [l [? _]%map_lookup_filter_Some]; eauto.
  - intros a [l [? _]%map_lookup_filter_Some]; eauto.
  - intros a [l [? _]%map_lookup_filter_Some]; eauto.
Qed.
