(* ===== verification/SubscriptionLogic.v ===== *)
(** * Rules for the operations on subscriptions

    [same]: a step that leaves the skeleton as it is.  [moves]: a step that
    changes no lists but the named ones.  Weakest preconditions of the
    operations on notifications, items, callbacks and requests. *)

From Stdlib Require Import ZArith Lia SpecFloat.
From stdpp Require Import base list numbers tactics sets gmap.
From S2P Require Import Prelude StateMonad UaTypes UaValue BinarySize BinaryEncode SubscriptionState Subscription SubscriptionServices SubscriptionInvariant.

Section Logic.
Context {TE : TypeEnv} {E : SubscriptionEnv}.

(** ** Counters *)

(** A value of the address space, or none yet. *)
Definition sampled_value (v : UA_Value) : Prop :=
  v = UA_Variant_null \/ exists n r t, v = dv_value (readWithSession n r t).

(** The counters, of 32 bits, count the queues; the queue for retransmission
    is bounded by the configuration. *)
Definition sub_counts (x : UA_Subscription) : Prop :=
  notificationQueueSize x = u32 (zlen (notificationQueue x)) /\
  dataChangeNotifications x = notificationQueueSize x /\
  retransmissionQueueSize x = u32 (zlen (retransmissionQueue x)) /\
  (0 < maxRetransmissionQueueSize < 2 ^ 32 ->
   zlen (retransmissionQueue x) <= maxRetransmissionQueueSize).

Definition mon_counts (y : UA_MonitoredItem) : Prop :=
  queueSize y = u32 (zlen (mi_queue y)) /\ 0 <= maxQueueSize y /\ sampled_value (lastValue y).

Definition counts (s : SubServer) : Prop :=
  map_Forall (fun _ => sub_counts) (h_subs s) /\ map_Forall (fun _ => mon_counts) (h_mons s) /\
  numPublishReq (session s) = u32 (zlen (responseQueue (session s))).

(** The invariant; item [p] is being made or deleted. *)
Definition inv (p : option nat) (s : SubServer) : Prop := skel_ok p (skel s) (used s) /\ counts s.

Definition same (s s' : SubServer) : Prop :=
  skel s' = skel s /\ (used s <= used s')%nat /\ (counts s -> counts s').

#[export] Instance same_preorder : PreOrder same.
Proof.
  split; [by intros s|]; intros a b c (H1 & H2 & H3) (H4 & H5 & H6).
  split; [congruence|]; split; [lia|auto].
Qed.

Lemma inv_same p s s' : inv p s -> same s s' -> inv p s'.
Proof.
  intros [H Hc] (Hk & Hu & Hc'); split; [|by apply Hc'].
  rewrite Hk; by eapply skel_ok_used.
Qed.

(** Lists that an operation may change are given as they are afterwards. *)
Record moves items pubs subs loc del (s s' : SubServer) : Prop := mkMoves {
  m_items : k_items (skel s') = items;
  m_pub : k_pub (skel s') = pubs;
  m_subs : k_subs (skel s') = subs;
  m_local : k_local (skel s') = loc;
  m_delayed : k_delayed (skel s') = del;
  m_of : k_of (skel s') = k_of (skel s);
  m_kind : forall m, k_kind (skel s) !! m = Some Sampled -> k_kind (skel s') !! m = Some Sampled;
  m_settled : forall m, k_kind (skel s) !! m <> Some Fresh -> k_kind (skel s') !! m <> Some Fresh;
  m_used : (used s <= used s')%nat
}.

Definition quiet (s s' : SubServer) : Prop :=
  let k := skel s in moves (k_items k) (k_pub k) (k_subs k) (k_local k) (k_delayed k) s s'.

Lemma same_quiet s s' : same s s' -> quiet s s'.
Proof. intros (H & Hu & _); split; rewrite ?H; auto. Qed.

Lemma moves_quiet items pubs subs loc del s s1 s2 :
  moves items pubs subs loc del s s1 -> quiet s1 s2 -> moves items pubs subs loc del s s2.
Proof. intros [] []; split; try congruence; [auto|auto|lia]. Qed.

Lemma quiet_moves items pubs subs loc del s s1 s2 :
  quiet s s1 -> moves items pubs subs loc del s1 s2 -> moves items pubs subs loc del s s2.
Proof. intros [] []; split; try congruence; [auto|auto|lia]. Qed.

#[export] Instance quiet_preorder : PreOrder quiet.
Proof. split; [intros s; by split; auto|intros a b c; apply moves_quiet]. Qed.

Section Quiet.
Context (s s' : SubServer) (H : quiet s s').

Lemma quiet_items : k_items (skel s') = k_items (skel s).
Proof. exact (m_items _ _ _ _ _ _ _ H). Qed.
Lemma quiet_pub : k_pub (skel s') = k_pub (skel s).
Proof. exact (m_pub _ _ _ _ _ _ _ H). Qed.
Lemma quiet_subs : k_subs (skel s') = k_subs (skel s).
Proof. exact (m_subs _ _ _ _ _ _ _ H). Qed.
Lemma quiet_local : k_local (skel s') = k_local (skel s).
Proof. exact (m_local _ _ _ _ _ _ _ H). Qed.
Lemma quiet_delayed : k_delayed (skel s') = k_delayed (skel s).
Proof. exact (m_delayed _ _ _ _ _ _ _ H). Qed.
Lemma quiet_of : k_of (skel s') = k_of (skel s).
Proof. exact (m_of _ _ _ _ _ _ _ H). Qed.
Lemma quiet_kind m : k_kind (skel s) !! m = Some Sampled -> k_kind (skel s') !! m = Some Sampled.
Proof. apply (m_kind _ _ _ _ _ _ _ H). Qed.
Lemma quiet_settled m : k_kind (skel s) !! m <> Some Fresh -> k_kind (skel s') !! m <> Some Fresh.
Proof. apply (m_settled _ _ _ _ _ _ _ H). Qed.
End Quiet.

(** ** From the skeleton to the objects *)

Lemma queue_sub s a l : k_queue (skel s) !! a = Some l ->
  exists x, h_subs s !! a = Some x /\ notificationQueue x = l.
Proof. unfold skel; cbn; rewrite lookup_fmap_Some; naive_solver. Qed.

Lemma items_sub s a l : k_items (skel s) !! a = Some l ->
  exists x, h_subs s !! a = Some x /\ monitoredItems x = l.
Proof. unfold skel; cbn; rewrite lookup_fmap_Some; naive_solver. Qed.

Lemma alive_sub s a : is_Some (k_items (skel s) !! a) -> exists x, h_subs s !! a = Some x.
Proof. intros [l (x & Hx & _)%items_sub]; by exists x. Qed.

Lemma of_mon s m o : k_of (skel s) !! m = Some o ->
  exists y, h_mons s !! m = Some y /\ mi_subscription y = o.
Proof. unfold skel; cbn; rewrite lookup_fmap_Some; naive_solver. Qed.

Lemma alive_mon s m : is_Some (k_of (skel s) !! m) -> exists y, h_mons s !! m = Some y.
Proof. intros [o (y & Hy & _)%of_mon]; by exists y. Qed.

Lemma kind_mon s m q : k_kind (skel s) !! m = Some q ->
  exists y, h_mons s !! m = Some y /\ kind y = q.
Proof. unfold skel; cbn; rewrite lookup_fmap_Some; naive_solver. Qed.

Lemma owner_notif s i m : k_owner (skel s) !! i = Some m ->
  exists x, h_notifs s !! i = Some x /\ n_mon x = m.
Proof. unfold skel; cbn; rewrite lookup_fmap_Some; naive_solver. Qed.

Section Lookup.
Context (s : SubServer).

Lemma sub_queue a x : h_subs s !! a = Some x -> k_queue (skel s) !! a = Some (notificationQueue x).
Proof. intros H; cbn; by rewrite lookup_fmap, H. Qed.
Lemma sub_items a x : h_subs s !! a = Some x -> k_items (skel s) !! a = Some (monitoredItems x).
Proof. intros H; cbn; by rewrite lookup_fmap, H. Qed.
Lemma sub_pub a x : h_subs s !! a = Some x -> k_pub (skel s) !! a = Some (pub x).
Proof. intros H; cbn; by rewrite lookup_fmap, H. Qed.
Lemma mon_of m y : h_mons s !! m = Some y -> k_of (skel s) !! m = Some (mi_subscription y).
Proof. intros H; cbn; by rewrite lookup_fmap, H. Qed.
Lemma mon_mine m y : h_mons s !! m = Some y -> k_mine (skel s) !! m = Some (mi_queue y).
Proof. intros H; cbn; by rewrite lookup_fmap, H. Qed.
Lemma mon_kind m y : h_mons s !! m = Some y -> k_kind (skel s) !! m = Some (kind y).
Proof. intros H; cbn; by rewrite lookup_fmap, H. Qed.
Lemma mon_reg m y : h_mons s !! m = Some y -> k_reg (skel s) !! m = Some (reg y).
Proof. intros H; cbn; by rewrite lookup_fmap, H. Qed.
End Lookup.

Lemma kind_sampled y : kind y = Sampled <->
  monitoredItemType y = UA_MONITOREDITEMTYPE_CHANGENOTIFY /\
  attributeId y <> UA_ATTRIBUTEID_EVENTNOTIFIER /\ 1 <= maxQueueSize y.
Proof. unfold kind; repeat case_decide; naive_solver. Qed.

Lemma counts_sub s a x : counts s -> h_subs s !! a = Some x -> sub_counts x.
Proof. intros (H & _) Ha; exact (H a x Ha). Qed.
Lemma counts_mon s m y : counts s -> h_mons s !! m = Some y -> mon_counts y.
Proof. intros (_ & H & _) Ha; exact (H m y Ha). Qed.

(** ** Access *)

Lemma wp_seq {A B} (m : M A) (f : A -> M B) P Q s :
  wp m P s -> (forall a s', P a s' -> wp (f a) Q s') -> wp (m ≫= f) Q s.
Proof. intros Hm Hf; apply wp_bind; eapply wp_mono; [exact Hm|exact Hf]. Qed.

Lemma wp_deref_sub a x (Q : UA_Subscription -> SubServer -> Prop) s :
  h_subs s !! a = Some x -> Q x s -> wp (deref_sub a) Q s.
Proof. intros H HQ; unfold wp, deref_sub, mbind, M_bind, gets; by rewrite H. Qed.

Lemma wp_deref_mon m y (Q : UA_MonitoredItem -> SubServer -> Prop) s :
  h_mons s !! m = Some y -> Q y s -> wp (deref_mon m) Q s.
Proof. intros H HQ; unfold wp, deref_mon, mbind, M_bind, gets; by rewrite H. Qed.

Lemma wp_deref_notif i x (Q : UA_Notification -> SubServer -> Prop) s :
  h_notifs s !! i = Some x -> Q x s -> wp (deref_notif i) Q s.
Proof. intros H HQ; unfold wp, deref_notif, mbind, M_bind, gets; by rewrite H. Qed.

Lemma wp_update_sub a x f (Q : unit -> SubServer -> Prop) s :
  h_subs s !! a = Some x -> Q tt (with_subs s (<[a := f x]> (h_subs s))) -> wp (update_sub a f) Q s.
Proof. intros H HQ; eapply wp_bind, wp_deref_sub; [exact H|]; exact HQ. Qed.

Lemma wp_update_mon m y f (Q : unit -> SubServer -> Prop) s :
  h_mons s !! m = Some y -> Q tt (with_mons s (<[m := f y]> (h_mons s))) -> wp (update_mon m f) Q s.
Proof. intros H HQ; eapply wp_bind, wp_deref_mon; [exact H|]; exact HQ. Qed.

Lemma wp_update_notif i x f (Q : unit -> SubServer -> Prop) s :
  h_notifs s !! i = Some x -> Q tt (with_notifs s (<[i := f x]> (h_notifs s))) ->
  wp (update_notif i f) Q s.
Proof. intros H HQ; eapply wp_bind, wp_deref_notif; [exact H|]; exact HQ. Qed.

(** ** Steps that leave the skeleton *)

Definition sub_same (x x' : UA_Subscription) : Prop :=
  notificationQueue x' = notificationQueue x /\ monitoredItems x' = monitoredItems x /\
  pub x' = pub x /\ (sub_counts x -> sub_counts x').

Definition mon_same (y y' : UA_MonitoredItem) : Prop :=
  mi_subscription y' = mi_subscription y /\ mi_queue y' = mi_queue y /\ kind y' = kind y /\
  reg y' = reg y /\ (mon_counts y -> mon_counts y').

Lemma fmap_insert_id {A B} (f : A -> B) (h : gmap nat A) a x x' :
  h !! a = Some x -> f x' = f x -> f <$> <[a := x']> h = f <$> h.
Proof. intros H Hf; rewrite fmap_insert, Hf; apply insert_id; by rewrite lookup_fmap, H. Qed.

Lemma same_with_sub s a x x' :
  h_subs s !! a = Some x -> sub_same x x' -> same s (with_subs s (<[a := x']> (h_subs s))).
Proof.
  intros H (H1 & H2 & H3 & H4); split; [|split; [done|]].
  - unfold skel; cbn; by rewrite !(fmap_insert_id _ _ _ x).
  - intros (Hs & Hm & Hn); split; [|done]; apply map_Forall_insert_2; [apply H4, (Hs a x H)|done].
Qed.

Lemma same_with_mon s m y y' :
  h_mons s !! m = Some y -> mon_same y y' -> same s (with_mons s (<[m := y']> (h_mons s))).
Proof.
  intros H (H1 & H2 & H3 & H4 & H5); split; [|split; [done|]].
  - unfold skel; cbn; by rewrite !(fmap_insert_id _ _ _ y).
  - intros (Hs & Hm & Hn); split; [done|split; [|done]].
    apply map_Forall_insert_2; [apply H5, (Hm m y H)|done].
Qed.

Lemma same_with_notif s i x x' :
  h_notifs s !! i = Some x -> n_mon x' = n_mon x ->
  same s (with_notifs s (<[i := x']> (h_notifs s))).
Proof. intros H H1; split; [|done]; unfold skel; cbn; by rewrite (fmap_insert_id _ _ _ x). Qed.

Lemma wp_update_sub_same a f (Q : unit -> SubServer -> Prop) s :
  is_Some (k_items (skel s) !! a) -> (forall x, sub_same x (f x)) ->
  (forall s', same s s' -> Q tt s') -> wp (update_sub a f) Q s.
Proof.
  intros [x Hx]%alive_sub Hf HQ; eapply wp_update_sub; [exact Hx|].
  apply HQ; by eapply same_with_sub.
Qed.

Lemma wp_update_mon_same m f (Q : unit -> SubServer -> Prop) s :
  is_Some (k_of (skel s) !! m) -> (forall y, mon_same y (f y)) ->
  (forall s', same s s' -> Q tt s') -> wp (update_mon m f) Q s.
Proof.
  intros [x Hx]%alive_mon Hf HQ; eapply wp_update_mon; [exact Hx|].
  apply HQ; by eapply same_with_mon.
Qed.

(** A step of the world, or of the session. *)
Lemma same_with_world s w : (used s <= allocs w)%nat -> same s (with_world s w).
Proof. by intros H; split; [|split]. Qed.

Lemma same_with_session s x :
  serverSubscriptions x = serverSubscriptions (session s) ->
  (numPublishReq (session s) = u32 (zlen (responseQueue (session s))) ->
   numPublishReq x = u32 (zlen (responseQueue x))) -> same s (with_session s x).
Proof.
  intros H Hn; split; [unfold skel; cbn; by rewrite H|split; [done|]].
  intros (? & ? & ?); split; [done|]; split; [done|]; by apply Hn.
Qed.

Lemma wp_malloc_exact (Q : option nat -> SubServer -> Prop) s :
  Q (if malloc_ok (used s) then Some (used s) else None)
    (with_world s (with_allocs (world s) (S (used s)))) -> wp malloc Q s.
Proof. done. Qed.

Lemma wp_alloc (Q : bool -> SubServer -> Prop) s :
  (forall b s', same s s' -> Q b s') -> wp alloc Q s.
Proof.
  intros HQ; eapply wp_bind; apply HQ, same_with_world; cbn; unfold used; lia.
Qed.

Lemma wp_alloc_exact (Q : bool -> SubServer -> Prop) s :
  Q (malloc_ok (used s)) (with_world s (with_allocs (world s) (S (used s)))) -> wp alloc Q s.
Proof.
  intros HQ; unfold used in HQ; unfold wp, alloc, malloc, mbind, M_bind, gets, modify, mret, M_ret.
  destruct (malloc_ok _); exact HQ.
Qed.

(** The address is new. *)
Lemma wp_malloc_any (Q : option nat -> SubServer -> Prop) s :
  (forall q w, (used s <= allocs w)%nat -> (forall a, q = Some a -> a = used s /\ (a < allocs w)%nat) ->
     Q q (with_world s w)) ->
  wp malloc Q s.
Proof.
  intros HQ; apply HQ; [cbn; unfold used; lia|].
  intros a; destruct (malloc_ok _); intros [= <-]; split; [done|]; cbn; lia.
Qed.

Lemma wp_read r t (Q : UA_DataValue -> SubServer -> Prop) s :
  (forall n s', same s s' -> Q (readWithSession n r t) s') -> wp (read r t) Q s.
Proof. intros HQ; by apply HQ, same_with_world. Qed.

Lemma wp_now (Q : Z -> SubServer -> Prop) s : (forall t, Q t s) -> wp now Q s.
Proof. intros HQ; apply HQ. Qed.

Lemma wp_send i r (Q : unit -> SubServer -> Prop) s :
  (forall s', same s s' -> Q tt s') -> wp (send i r) Q s.
Proof.
  intros HQ; apply wp_bind, wp_gets; destruct (s_channel _); [|by apply HQ].
  apply HQ; by apply same_with_world.
Qed.

Lemma wp_dequeuePublishReq (Q : option UA_PublishResponseEntry -> SubServer -> Prop) s :
  (forall r s', same s s' ->
     match r with
     | Some pre => responseQueue (session s) = pre :: responseQueue (session s')
     | None => responseQueue (session s) = [] /\ s' = s
     end -> Q r s') ->
  wp UA_Session_dequeuePublishReq Q s.
Proof.
  intros HQ; apply wp_bind, wp_gets.
  destruct (responseQueue (session s)) as [|pre l] eqn:Hl; [by apply HQ|].
  apply wp_bind, wp_modify, wp_ret, HQ; [|done].
  apply same_with_session; [done|]; cbn; intros ->; rewrite Hl, zlen_cons, u32_pred; f_equal; lia.
Qed.

Lemma wp_queuePublishReq pre h (Q : unit -> SubServer -> Prop) s :
  (forall s', same s s' -> zlen (responseQueue (session s')) = zlen (responseQueue (session s)) + 1 ->
              Q tt s') ->
  wp (UA_Session_queuePublishReq pre h) Q s.
Proof.
  intros HQ; apply wp_modify, HQ.
  - apply same_with_session; [done|]; cbn; intros ->.
    rewrite u32_succ; destruct h; [by rewrite zlen_cons|].
    rewrite zlen_app, zlen_cons, zlen_nil; f_equal; lia.
  - cbn; destruct h; [rewrite zlen_cons; lia|]; rewrite zlen_app, zlen_cons, zlen_nil; lia.
Qed.
End Logic.

Create HintDb quiet.
#[export] Hint Resolve same_quiet : quiet.
