(* ===== verification/SubscriptionQueues.v ===== *)
(** * The queues of notifications

    Enqueueing, making room in the queue of an item, and deleting. *)

From Stdlib Require Import ZArith Lia SpecFloat.
From stdpp Require Import base list numbers tactics sets gmap.
From S2P Require Import Prelude StateMonad UaTypes UaValue SubscriptionState Subscription SubscriptionServices SubscriptionInvariant SubscriptionLogic.

(** ** Lists *)

Lemma filter_split {A} (P : A -> Prop) `{!∀ x, Decision (P x)} (l q1 q2 : list A) x :
  filter P l = q1 ++ x :: q2 ->
  exists l1 l2, l = l1 ++ x :: l2 /\ filter P l1 = q1 /\ filter P l2 = q2 /\ P x.
Proof.
  revert q1; induction l as [|y l IH]; intros q1 Heq; [by destruct q1|].
  rewrite filter_cons in Heq; case_decide as Hy.
  - destruct q1 as [|z q1]; injection Heq as ? Heq; subst.
    + exists [], l; rewrite filter_nil; done.
    + destruct (IH q1 Heq) as (l1 & l2 & -> & <- & <- & Hx); exists (z :: l1), l2.
      by rewrite filter_cons_True.
  - destruct (IH q1 Heq) as (l1 & l2 & -> & <- & <- & Hx); exists (y :: l1), l2.
    by rewrite filter_cons_False.
Qed.

(** The notification to delete stands right before the one to keep. *)
Lemma victims_split oldest q del aft :
  victims oldest q = Some (del, aft) -> exists q1 q2, q = q1 ++ del :: aft :: q2 /\
  (if (oldest : bool) then q1 = [] else q2 = []).
Proof.
  unfold victims; destruct oldest.
  - destruct q as [|a [|b q]]; try done; intros [= <- <-]; by exists [], q.
  - destruct (rev q) as [|a [|b r]] eqn:Hr; try done; intros [= <- <-].
    exists (rev r), []; split; [|done]; rewrite <- (rev_involutive q), Hr; cbn; by rewrite <- app_assoc.
Qed.

Lemma victims_some oldest q : (2 <= length q)%nat -> is_Some (victims oldest q).
Proof.
  unfold victims; intros H; destruct oldest.
  - destruct q as [|a [|b q]]; cbn in H; try lia; by eexists.
  - rewrite <- length_rev in H; destruct (rev q) as [|a [|b r]]; cbn in H; try lia; by eexists.
Qed.

Lemma without_app a l1 l2 : without a (l1 ++ l2) = without a l1 ++ without a l2.
Proof. apply filter_app. Qed.
Lemma without_cons_eq a l : without a (a :: l) = without a l.
Proof. unfold without; by rewrite filter_cons_False by auto. Qed.
Lemma without_cons_ne a b l : b <> a -> without a (b :: l) = b :: without a l.
Proof. intros H; unfold without; by rewrite filter_cons_True. Qed.

Lemma insert_after_split a b l1 l2 : a ∉ l1 -> insert_after a b (l1 ++ a :: l2) = l1 ++ a :: b :: l2.
Proof.
  induction l1 as [|c l1 IH]; cbn; intros H; [by rewrite Nat.eqb_refl|].
  apply not_elem_of_cons in H as [Hc H]; destruct (Nat.eqb_spec c a); [congruence|]; by rewrite IH.
Qed.

(** The place of [del] is taken by [aft]. *)
Lemma move_after (del aft : nat) l1 l2 l3 :
  let l := l1 ++ del :: l2 ++ aft :: l3 in
  NoDup l ->
  insert_after del aft (without aft l) = l1 ++ del :: aft :: l2 ++ l3 /\
  without del (insert_after del aft (without aft l)) = l1 ++ aft :: l2 ++ l3 /\
  without del l = l1 ++ l2 ++ aft :: l3.
Proof.
  cbn zeta; intros (Hn1 & Hd1 & Hn2)%NoDup_app.
  apply NoDup_cons in Hn2 as [Hdel (Hn2 & Hd2 & Hn3)%NoDup_app].
  apply NoDup_cons in Hn3 as [Haft Hn3].
  assert ((del ∉ l1) /\ (aft ∉ l1) /\ del <> aft /\ (del ∉ l2) /\ (del ∉ l3) /\ aft ∉ l2) as (? & ? & ? & ? & ? & ?).
  { rewrite elem_of_app, elem_of_cons in Hdel; set_solver. }
  assert (insert_after del aft (without aft (l1 ++ del :: l2 ++ aft :: l3)) =
          l1 ++ del :: aft :: l2 ++ l3) as Hi.
  { rewrite without_app, without_cons_ne, without_app, without_cons_eq, !without_notin by done.
    by apply insert_after_split. }
  split; [done|]; rewrite Hi; split.
  - rewrite without_app, without_cons_eq, without_cons_ne, without_app, !without_notin by done; done.
  - rewrite without_app, without_cons_eq, without_app, without_cons_ne, !without_notin by done; done.
Qed.

(** Moving [aft] behind [del] and deleting [del] keeps the order of the
    notifications of every item. *)
Lemma shrink_order o m l q1 q2 del aft :
  NoDup l -> owned o m l = q1 ++ del :: aft :: q2 ->
  let l' := insert_after del aft (without aft l) in
  del ∈ without aft l /\ aft ∈ l /\ del ∈ l' /\ without del l' ≡ₚ without del l /\
  forall m', owned o m' (without del l') = owned o m' (without del l).
Proof.
  intros Hnd Hq; destruct (filter_split _ _ _ _ _ Hq) as (l1 & r & -> & _ & Hr & Hdel).
  destruct (filter_split _ _ [] _ _ Hr) as (l2 & l3 & -> & Hl2 & _ & Haft).
  destruct (move_after del aft l1 l2 l3 Hnd) as (Hi & Hw & Hd); cbn zeta; rewrite Hw, Hd, Hi.
  assert (del <> aft).
  { intros ->; apply NoDup_app in Hnd as (_ & _ & Hnd); apply NoDup_cons in Hnd as [Hnd _]; set_solver. }
  split; [apply elem_of_without; set_solver|]; split; [set_solver|]; split; [set_solver|].
  split; [f_equiv; by rewrite Permutation_middle|].
  intros m'; rewrite !owned_app; f_equal; destruct (decide (m' = m)) as [->|Hne].
  - unfold owned; rewrite filter_cons_True, !filter_app, filter_cons_True, Hl2 by done; done.
  - unfold owned; rewrite filter_cons_False, !filter_app, filter_cons_False by congruence; done.
Qed.

Section Queues.
Context {TE : TypeEnv} {E : SubscriptionEnv}.

(** ** Deleting a notification *)

(** What the inverse of the invariant gives for a notification of an item. *)
Lemma inv_owned p s mon y sub i :
  inv p s -> h_mons s !! mon = Some y -> mi_subscription y = Some sub -> i ∈ mi_queue y ->
  kind y = Sampled /\ k_owner (skel s) !! i = Some mon /\
  exists x, h_subs s !! sub = Some x /\ i ∈ notificationQueue x /\ NoDup (notificationQueue x) /\
    mi_queue y = owned (k_owner (skel s)) mon (notificationQueue x).
Proof.
  intros [H _] Hy Hsub Hi; pose proof (mon_of _ _ _ Hy) as Hof; rewrite Hsub in Hof.
  destruct (ok_own _ _ _ H _ _ Hof) as (l & Hl & Hm); pose proof (mon_mine _ _ _ Hy) as Hm'.
  rewrite Hm' in Hm; apply (inj Some) in Hm; assert (i ∈ owned (k_owner (skel s)) mon l) as Ho by (by rewrite <- Hm).
  apply owned_in in Ho as [Ho Hil]; destruct (queue_sub _ _ _ Hl) as (x & Hx & <-).
  destruct (ok_queued _ _ _ H _ _ _ Hl Hil) as (m' & Ho' & _ & Hk & _).
  assert (m' = mon) as -> by congruence; rewrite (mon_kind _ _ _ Hy) in Hk; injection Hk as Hk.
  split; [done|]; split; [done|]; exists x; split; [done|]; split; [done|]; split; [|done].
  exact (ok_queue _ _ _ H _ _ Hl).
Qed.

Definition moved (x : UA_Subscription) (l : list nat) : UA_Subscription :=
  set_sub_queue x l (notificationQueueSize x) (dataChangeNotifications x) (eventNotifications x)
    (statusChangeNotifications x).

Lemma moved_self x : moved x (notificationQueue x) = x.
Proof. by destruct x. Qed.

Lemma with_sub_self s a x : h_subs s !! a = Some x -> with_subs s (<[a := x]> (h_subs s)) = s.
Proof. intros H; destruct s; unfold with_subs; cbn in *; by rewrite insert_id. Qed.

(** The state after a notification has been deleted, in which the queue of the
    subscription was [l] before. *)
Definition deleted (s : SubServer) mon y sub x l i : SubServer :=
  mkSubServer (session s)
    (<[sub := count_notification UA_MONITOREDITEMTYPE_CHANGENOTIFY (-1) x (without i l)]> (h_subs s))
    (<[mon := set_mi_queue y (without i (mi_queue y)) (u32 (queueSize y - 1))]> (h_mons s))
    (delete i (h_notifs s)) (localMonitoredItems s) (lastLocalMonitoredItemId s) (timer s)
    (delayed s) (world s).

Lemma skel_deleted s mon y sub x l i :
  h_mons s !! mon = Some y -> h_subs s !! sub = Some x ->
  skel (deleted s mon y sub x l i) =
  k_set_queue (skel s) (<[sub := without i l]> (k_queue (skel s)))
    (<[mon := without i (mi_queue y)]> (k_mine (skel s))) (delete i (k_owner (skel s))).
Proof.
  intros Hy Hx; unfold skel, deleted, k_set_queue; cbn.
  rewrite !fmap_insert, fmap_delete; f_equal; (apply insert_id; rewrite lookup_fmap, ?Hy, ?Hx; done).
Qed.

(** Deletion after the queue of the subscription has become [l]. *)
Lemma wp_delete_moved p mon y sub x i l (Q : unit -> SubServer -> Prop) s :
  inv p s -> h_mons s !! mon = Some y -> mi_subscription y = Some sub ->
  h_subs s !! sub = Some x -> i ∈ mi_queue y -> i ∈ l ->
  without i l ≡ₚ without i (notificationQueue x) ->
  (forall m', owned (k_owner (skel s)) m' (without i l) =
              owned (k_owner (skel s)) m' (without i (notificationQueue x))) ->
  (inv p (deleted s mon y sub x l i) -> quiet s (deleted s mon y sub x l i) ->
   Q tt (deleted s mon y sub x l i)) ->
  wp (UA_Notification_delete sub mon i) Q (with_subs s (<[sub := moved x l]> (h_subs s))).
Proof.
  intros Hinv Hy Hsub Hx Hi Hil Hp Ho HQ.
  destruct (inv_owned _ _ _ _ _ _ Hinv Hy Hsub Hi) as (Hk & Hoi & x' & Hx' & Hix & Hnd & Hq).
  assert (x' = x) as -> by congruence; apply kind_sampled in Hk as Hk'; destruct Hk' as (Ht & _).
  pose proof (skel_deleted s mon y sub x l i Hy Hx) as Hsk.
  assert (Hd : inv p (deleted s mon y sub x l i)).
  { destruct Hinv as [H Hc]; split.
    - rewrite Hsk; eapply ok_delete_notification; [exact H| | |by apply mon_mine| | |done].
      + rewrite (mon_of _ _ _ Hy); by f_equal.
      + by apply sub_queue.
      + done.
      + done.
    - destruct (counts_sub _ _ _ Hc Hx) as (C1 & C2 & C3), (counts_mon _ _ _ Hc Hy) as (C4 & C5).
      destruct Hc as (Hs & Hm & Hn); split; [|split; [|done]].
      + apply map_Forall_insert_2; [|done]; unfold sub_counts; cbn; rewrite C2, C1.
        change (u32 (zlen (notificationQueue x)) + -1) with (u32 (zlen (notificationQueue x)) - 1).
        rewrite u32_pred.
        assert (zlen (without i l) = zlen (without i (notificationQueue x))) as ->
          by (unfold zlen; by rewrite Hp).
        by rewrite zlen_without.
      + apply map_Forall_insert_2; [|done]; unfold mon_counts; cbn; rewrite C4, u32_pred.
        rewrite zlen_without; [done| |done]; rewrite Hq; by apply NoDup_filter. }
  destruct (owner_notif _ _ _ Hoi) as (nt & Hnt & _).
  unfold UA_Notification_delete; eapply wp_bind, wp_deref_mon; [exact Hy|].
  apply wp_bind, wp_list_remove; [done|].
  eapply wp_bind, wp_update_mon; [exact Hy|].
  eapply wp_bind, wp_deref_sub; [apply lookup_insert_eq|]; apply wp_bind, wp_list_remove; [done|].
  eapply wp_bind, wp_update_sub; [apply lookup_insert_eq|].
  eapply wp_bind, wp_deref_notif; [exact Hnt|]; apply wp_modify.
  unfold with_notifs, with_subs, with_mons; cbn; rewrite insert_insert_eq, Ht.
  apply HQ; [exact Hd|]; split; rewrite ?Hsk; done.
Qed.

(** Everything but the heaps. *)
Definition rest (s : SubServer) :=
  (session s, localMonitoredItems s, lastLocalMonitoredItemId s, timer s, delayed s, world s).

Definition with_queue (y : UA_MonitoredItem) (q : list nat) : UA_MonitoredItem :=
  set_mi_queue y q (u32 (zlen q)).

(** Only the queue of [mon] changes, to [q], and that of its subscription. *)
Record requeued (s : SubServer) mon y sub x q (s' : SubServer) : Prop := mkRequeued {
  r_rest : rest s' = rest s;
  r_mons : h_mons s' = <[mon := with_queue y q]> (h_mons s);
  r_subs : exists l n, h_subs s' = <[sub := set_sub_queue x l n n (eventNotifications x)
                                             (statusChangeNotifications x)]> (h_subs s);
  r_notifs : forall i, i ∈ q -> h_notifs s' !! i = h_notifs s !! i
}.

Lemma deleted_requeued p s mon y sub x l i :
  inv p s -> h_mons s !! mon = Some y -> mi_subscription y = Some sub ->
  h_subs s !! sub = Some x -> i ∈ mi_queue y ->
  requeued s mon y sub x (without i (mi_queue y)) (deleted s mon y sub x l i).
Proof.
  intros Hinv Hy Hsub Hx Hi.
  destruct (inv_owned _ _ _ _ _ _ Hinv Hy Hsub Hi) as (_ & _ & x0 & _ & _ & Hnd & Hq).
  destruct Hinv as [_ Hc], (counts_sub _ _ _ Hc Hx) as (C1 & C2 & C3), (counts_mon _ _ _ Hc Hy) as (C4 & C5).
  split; [done| | |].
  - cbn; do 2 f_equal; unfold with_queue; f_equal; rewrite C4, u32_pred, zlen_without; [done| |done].
    rewrite Hq; by apply NoDup_filter.
  - do 2 eexists; cbn; rewrite C2; reflexivity.
  - intros j [Hne _]%elem_of_without; cbn; by rewrite lookup_delete_ne.
Qed.

Lemma requeued_trans s1 s2 s3 mon y sub x q q' x' :
  requeued s1 mon y sub x q s2 -> h_subs s2 !! sub = Some x' ->
  requeued s2 mon (with_queue y q) sub x' q' s3 -> q' ⊆ q -> requeued s1 mon y sub x q' s3.
Proof.
  intros [R1 M1 (l1 & n1 & S1) N1] Hx' [R2 M2 (l2 & n2 & S2) N2] Hsub; split.
  - congruence.
  - rewrite M2, M1, insert_insert_eq; done.
  - rewrite S1, lookup_insert_eq in Hx'; injection Hx' as <-.
    exists l2, n2; rewrite S2, S1, insert_insert_eq; done.
  - intros i Hi; rewrite N2, N1 by auto; done.
Qed.

Lemma requeued_mon s mon y sub x q s' :
  requeued s mon y sub x q s' -> h_mons s' !! mon = Some (with_queue y q).
Proof. intros [_ -> _ _]; apply lookup_insert_eq. Qed.

Lemma requeued_sub s mon y sub x q s' :
  requeued s mon y sub x q s' -> exists x', h_subs s' !! sub = Some x'.
Proof. intros [_ _ (l & n & ->) _]; eexists; apply lookup_insert_eq. Qed.

Lemma requeued_refl p s mon y sub x :
  inv p s -> h_mons s !! mon = Some y -> h_subs s !! sub = Some x ->
  requeued s mon y sub x (mi_queue y) s.
Proof.
  intros [_ Hc] Hy Hx; destruct (counts_sub _ _ _ Hc Hx) as (C1 & C2 & C3), (counts_mon _ _ _ Hc Hy) as (C4 & C5).
  split; [done| | |done].
  - rewrite insert_id; [done|]; rewrite Hy; f_equal; unfold with_queue; rewrite <- C4; by destruct y.
  - exists (notificationQueue x), (notificationQueueSize x); rewrite insert_id; [done|].
    rewrite Hx; f_equal; rewrite <- C2 at 2; by destruct x.
Qed.

Lemma wp_notification_delete p mon y sub x i (Q : unit -> SubServer -> Prop) s :
  inv p s -> h_mons s !! mon = Some y -> mi_subscription y = Some sub -> i ∈ mi_queue y ->
  h_subs s !! sub = Some x ->
  (inv p (deleted s mon y sub x (notificationQueue x) i) ->
   quiet s (deleted s mon y sub x (notificationQueue x) i) ->
   requeued s mon y sub x (without i (mi_queue y)) (deleted s mon y sub x (notificationQueue x) i) ->
   Q tt (deleted s mon y sub x (notificationQueue x) i)) ->
  wp (UA_Notification_delete sub mon i) Q s.
Proof.
  intros Hinv Hy Hsub Hi Hx HQ.
  destruct (inv_owned _ _ _ _ _ _ Hinv Hy Hsub Hi) as (_ & _ & x' & Hx' & Hix & _).
  assert (x' = x) as -> by congruence.
  rewrite <- (with_sub_self s sub x Hx), <- (moved_self x).
  apply (wp_delete_moved p mon y sub x i (notificationQueue x) Q s); try done.
  intros Hinv' Hq; apply HQ; [done|done|]; by eapply deleted_requeued.
Qed.

(** All notifications of an item. *)
Lemma wp_delete_notifications p mon y sub x l (Q : unit -> SubServer -> Prop) s :
  inv p s -> h_mons s !! mon = Some y -> mi_subscription y = Some sub -> mi_queue y = l ->
  h_subs s !! sub = Some x ->
  (forall s', inv p s' -> quiet s s' -> requeued s mon y sub x [] s' -> Q tt s') ->
  wp (delete_notifications sub mon l) Q s.
Proof.
  revert s y x; induction l as [|i l IH]; intros s y x Hinv Hy Hsub Hl Hx HQ; cbn.
  - apply HQ; [done|done|]; rewrite <- Hl; by eapply requeued_refl.
  - assert (i ∈ mi_queue y) as Hi by (rewrite Hl; apply list_elem_of_here).
    eapply wp_bind, (wp_notification_delete p mon y sub x i); try done.
    intros Hinv' Hq Hr; destruct (requeued_sub _ _ _ _ _ _ _ Hr) as [x' Hx'].
    destruct (inv_owned _ _ _ _ _ _ Hinv Hy Hsub Hi) as (_ & _ & x0 & _ & _ & Hnd & Hown).
    assert (NoDup (i :: l)) as [Hil _]%NoDup_cons by (rewrite <- Hl, Hown; by apply NoDup_filter).
    assert (without i (mi_queue y) = l) as Hw.
    { rewrite Hl, without_cons_eq; by apply without_notin. }
    eapply (IH _ (with_queue y l) x'); [exact Hinv'| |done|done|exact Hx'|].
    + rewrite Hw in Hr; by eapply requeued_mon.
    + intros s' Hinv2 Hq2 Hr2; apply HQ; [done|by etrans|].
      rewrite Hw in Hr; eapply requeued_trans; [exact Hr|exact Hx'|exact Hr2|set_solver].
Qed.

(** ** Making room *)

(** What is kept of a queue: its end, or its beginning and its last
    notification. *)
Definition kept (oldest : bool) (q q' : list nat) : Prop :=
  if oldest then exists r, q = r ++ q' else exists q1 r a, q = q1 ++ r ++ [a] /\ q' = q1 ++ [a].

Lemma kept_trans oldest q del aft q1 q2 q' :
  q = q1 ++ del :: aft :: q2 -> (if (oldest : bool) then q1 = [] else q2 = []) ->
  kept oldest (q1 ++ aft :: q2) q' -> kept oldest q q'.
Proof.
  intros ->; unfold kept; destruct oldest; intros ->.
  - cbn; intros (r & ->); by exists (del :: r).
  - intros (l & r & a & Heq & ->); exists l.
    assert (exists r', q1 = l ++ r') as [r' ->].
    { rewrite app_assoc in Heq; apply app_inj_tail in Heq as [-> _]; by exists r. }
    rewrite app_assoc in Heq; apply app_inj_tail in Heq as [Heq ->].
    exists (r' ++ [del]), a; split; [by rewrite <- !app_assoc|done].
Qed.

Lemma kept_subset oldest q q' : kept oldest q q' -> q' ⊆ q.
Proof. unfold kept; destruct oldest; [intros (r & ->)|intros (l & r & a & -> & ->)]; set_solver. Qed.

Lemma kept_nonempty oldest q q' : kept oldest q q' -> oldest = false -> q' <> [].
Proof. intros H ->; destruct H as (l & r & a & _ & ->); by destruct l. Qed.
Lemma kept_self oldest q : q <> [] -> kept oldest q q.
Proof.
  intros Hq; unfold kept; destruct oldest; [by exists []|].
  destruct (exists_last Hq) as (l & a & ->); by exists l, [], a.
Qed.

(** One round of the loop: the notification to delete makes place for the one
    behind it. *)
Lemma wp_shrink_round p mon y sub x (next : M unit) (Q : unit -> SubServer -> Prop) s :
  inv p s -> h_mons s !! mon = Some y -> mi_subscription y = Some sub ->
  h_subs s !! sub = Some x -> (2 <= length (mi_queue y))%nat ->
  (forall s' q1 del aft q2, inv p s' -> quiet s s' ->
     mi_queue y = q1 ++ del :: aft :: q2 -> (if discardOldest y then q1 = [] else q2 = []) ->
     requeued s mon y sub x (q1 ++ aft :: q2) s' -> wp next Q s') ->
  wp ('(del, after_del) ← the (victims (discardOldest y) (mi_queue y));
      x ← deref_sub sub;
      queue ← list_remove after_del (notificationQueue x);
      _ ← (if decide (del ∈ queue) then mret tt else undefined);
      _ ← update_sub sub (fun x => moved x (insert_after del after_del queue));
      _ ← UA_Notification_delete sub mon del; next) Q s.
Proof.
  intros Hinv Hy Hsub Hx Hlen HQ.
  destruct (victims_some (discardOldest y) (mi_queue y) Hlen) as [[del aft] Hv].
  destruct (victims_split _ _ _ _ Hv) as (q1 & q2 & Hq & Hend).
  assert (del ∈ mi_queue y) as Hdel by (rewrite Hq; set_solver).
  destruct (inv_owned _ _ _ _ _ _ Hinv Hy Hsub Hdel) as (_ & _ & x' & Hx' & _ & Hnd & Hown).
  assert (x' = x) as -> by congruence.
  assert (owned (k_owner (skel s)) mon (notificationQueue x) = q1 ++ del :: aft :: q2) as Ho by congruence.
  destruct (shrink_order _ _ _ _ _ _ _ Hnd Ho) as (H1 & H2 & H3 & H4 & H5).
  eapply wp_bind, wp_the; [exact Hv|]; eapply wp_bind, wp_deref_sub; [exact Hx|].
  apply wp_bind, wp_list_remove; [done|]; rewrite decide_True by done; apply wp_bind, wp_ret.
  eapply wp_bind, wp_update_sub; [exact Hx|]; apply wp_bind.
  eapply (wp_delete_moved p mon y sub x del); try done.
  intros Hinv' Hquiet.
  assert (without del (mi_queue y) = q1 ++ aft :: q2) as Hw.
  { assert (NoDup (mi_queue y)) as Hnq by (rewrite Hown; by apply NoDup_filter).
    rewrite Hq in Hnq |- *; apply NoDup_app in Hnq as (_ & Hd & [Hn _]%NoDup_cons).
    rewrite without_app, without_cons_eq, !without_notin; [done| |]; set_solver. }
  eapply HQ; [exact Hinv'|exact Hquiet|exact Hq|exact Hend|].
  rewrite <- Hw; by eapply deleted_requeued.
Qed.

Lemma wp_shrink_queue p fuel mon y sub x (Q : unit -> SubServer -> Prop) s :
  inv p s -> h_mons s !! mon = Some y -> mi_subscription y = Some sub ->
  h_subs s !! sub = Some x -> (length (mi_queue y) <= fuel)%nat -> 1 <= maxQueueSize y ->
  mi_queue y <> [] ->
  (forall s' q, inv p s' -> quiet s s' -> requeued s mon y sub x q s' ->
     kept (discardOldest y) (mi_queue y) q -> q <> [] -> u32 (zlen q) <= maxQueueSize y ->
     (zlen (mi_queue y) < 2 ^ 32 -> zlen q = Z.min (zlen (mi_queue y)) (maxQueueSize y)) -> Q tt s') ->
  wp (shrink_queue fuel mon) Q s.
Proof.
  revert s y x; induction fuel as [|fuel IH]; intros s y x Hinv Hy Hsub Hx Hf Hmax Hne HQ.
  { destruct (mi_queue y); cbn in Hf; [done|lia]. }
  pose proof (counts_mon _ _ _ (proj2 Hinv) Hy) as (C & _).
  unfold shrink_queue; fold shrink_queue; eapply wp_bind, wp_deref_mon; [exact Hy|].
  destruct (Z.leb_spec (queueSize y) (maxQueueSize y)) as [Hle|Hgt].
  { apply wp_ret, (HQ s (mi_queue y)); try done; [by eapply requeued_refl|by apply kept_self|lia|].
    intros Hz; rewrite C in Hle; unfold u32 in Hle; rewrite Z.mod_small in Hle; unfold zlen in *; lia. }
  assert (2 <= length (mi_queue y))%nat as Hlen.
  { destruct (mi_queue y) as [|? [|? ?]]; cbn; [done| |lia].
    rewrite C in Hgt; change (u32 (zlen [n])) with 1 in Hgt; lia. }
  eapply wp_bind, wp_the; [exact Hsub|].
  eapply wp_shrink_round; [exact Hinv|exact Hy|exact Hsub|exact Hx|exact Hlen|].
  intros s' q1 del aft q2 Hinv' Hq' Heq Hend Hr.
  destruct (requeued_sub _ _ _ _ _ _ _ Hr) as [x' Hx'].
  eapply (IH s' (with_queue y (q1 ++ aft :: q2)) x'); try done; cbn.
  - by eapply requeued_mon.
  - rewrite Heq in Hf; rewrite length_app in *; cbn in *; lia.
  - by destruct q1.
  - intros s2 q Hinv2 Hq2 Hr2 Hk Hne2 Hle Hmin.
    apply (HQ s2 q); try done; [by etrans| | |].
    + eapply requeued_trans; [exact Hr|exact Hx'|exact Hr2|by eapply kept_subset].
    + by eapply kept_trans.
    + intros Hz; rewrite C in Hgt; unfold u32 in Hgt; rewrite Z.mod_small in Hgt by (unfold zlen in *; lia).
      assert (zlen (mi_queue y) = zlen (q1 ++ aft :: q2) + 1) as Hzl.
      { rewrite Heq; unfold zlen; rewrite !length_app; cbn; lia. }
      rewrite Hmin by lia; lia.
Qed.
(** The notification that tells of the overflow. *)
Definition flagged (oldest : bool) (q : list nat) : option nat := if oldest then head q else last q.

Definition flag (y : UA_MonitoredItem) (x : UA_Notification) : UA_Notification :=
  mkNotification (n_mon x)
    (if 1 <? maxQueueSize y then set_overflow (n_value x) else clear_overflow (n_value x)).

(** The queue of [mon] has been shortened to [q], and the overflow is told by
    notification [i]. *)
Record overflowed (s : SubServer) mon y sub x q i (s' : SubServer) : Prop := mkOverflowed {
  o_rest : rest s' = rest s;
  o_mons : h_mons s' = <[mon := with_queue y q]> (h_mons s);
  o_subs : exists l n, h_subs s' = <[sub := set_sub_queue x l n n (eventNotifications x)
                                             (statusChangeNotifications x)]> (h_subs s);
  o_flag : flagged (discardOldest y) q = Some i;
  o_notifs : forall j, j ∈ q -> h_notifs s' !! j =
    (if decide (j = i) then flag y <$> h_notifs s !! j else h_notifs s !! j)
}.

Lemma flagged_some oldest q : q <> [] -> exists i, flagged oldest q = Some i /\ i ∈ q.
Proof.
  intros Hq; unfold flagged; destruct oldest.
  - destruct q as [|i q]; [done|]; exists i; split; [done|apply list_elem_of_here].
  - destruct (exists_last Hq) as (l & i & ->); exists i; rewrite last_snoc; set_solver.
Qed.

Lemma wp_ensureQueueSpace p mon y (Q : unit -> SubServer -> Prop) s :
  inv p s -> h_mons s !! mon = Some y -> (queueSize y <= maxQueueSize y -> Q tt s) ->
  (forall s' sub x q i, maxQueueSize y < queueSize y -> mi_subscription y = Some sub ->
     h_subs s !! sub = Some x -> inv p s' -> quiet s s' -> overflowed s mon y sub x q i s' ->
     kept (discardOldest y) (mi_queue y) q -> u32 (zlen q) <= maxQueueSize y ->
     (zlen (mi_queue y) < 2 ^ 32 -> zlen q = Z.min (zlen (mi_queue y)) (maxQueueSize y)) -> Q tt s') ->
  wp (MonitoredItem_ensureQueueSpace mon) Q s.
Proof.
  intros Hinv Hy Hle HQ; pose proof (counts_mon _ _ _ (proj2 Hinv) Hy) as (C & Hm & _).
  eapply wp_bind, wp_deref_mon; [exact Hy|].
  destruct (Z.leb_spec (queueSize y) (maxQueueSize y)) as [H|Hgt]; [apply wp_ret; auto|].
  assert (mi_queue y <> []) as Hne.
  { intros Hq; rewrite C, Hq in Hgt; change (u32 (zlen [])) with 0 in Hgt; lia. }
  destruct (flagged_some true _ Hne) as (i0 & _ & Hi0).
  destruct (mi_subscription y) as [sub|] eqn:Hsub.
  2: { pose proof (ok_alone _ _ _ (proj1 Hinv) mon) as Ha.
       rewrite (mon_of _ _ _ Hy), (mon_mine _ _ _ Hy), Hsub in Ha; by injection (Ha eq_refl). }
  destruct (inv_owned _ _ _ _ _ _ Hinv Hy Hsub Hi0) as (Hk & _ & x & Hx & _).
  apply kind_sampled in Hk as (Ht & _ & Hmax).
  eapply wp_bind, wp_shrink_queue; try done.
  intros s1 q Hinv1 Hq1 Hr1 Hkept Hne1 Hle1 Hmin.
  eapply wp_bind, wp_deref_mon; [by eapply requeued_mon|]; cbn.
  rewrite decide_True by done.
  destruct (flagged_some (discardOldest y) q Hne1) as (i & Hi & Hin).
  eapply wp_bind, wp_the; [exact Hi|].
  pose proof (requeued_mon _ _ _ _ _ _ _ Hr1) as Hy1.
  destruct (inv_owned _ _ _ _ _ _ Hinv1 Hy1 Hsub Hin) as (_ & Ho & _).
  destruct (owner_notif _ _ _ Ho) as (nt & Hnt & _).
  eapply wp_update_notif; [exact Hnt|].
  assert (same s1 (with_notifs s1 (<[i := flag y nt]> (h_notifs s1)))) as Hs by by eapply same_with_notif.
  eapply (HQ _ sub x q i); try done.
  - by eapply inv_same.
  - etrans; [exact Hq1|]; by apply same_quiet.
  - destruct Hr1 as [R1 R2 R3 R4]; split; try done; cbn; intros j Hj.
    destruct (decide (j = i)) as [->|Hji]; [|by rewrite lookup_insert_ne, R4].
    by rewrite lookup_insert_eq, <- R4, Hnt.
Qed.

(** ** A new notification *)

Definition enqueued (s : SubServer) mon y sub x i v : SubServer :=
  mkSubServer (session s)
    (<[sub := count_notification UA_MONITOREDITEMTYPE_CHANGENOTIFY 1 x (notificationQueue x ++ [i])]>
       (h_subs s))
    (<[mon := with_queue y (mi_queue y ++ [i])]> (h_mons s))
    (<[i := mkNotification mon v]> (h_notifs s)) (localMonitoredItems s)
    (lastLocalMonitoredItemId s) (timer s) (delayed s) (world s).

Lemma skel_enqueued s mon y sub x i v :
  h_mons s !! mon = Some y -> h_subs s !! sub = Some x ->
  skel (enqueued s mon y sub x i v) =
  k_set_queue (skel s) (<[sub := notificationQueue x ++ [i]]> (k_queue (skel s)))
    (<[mon := mi_queue y ++ [i]]> (k_mine (skel s))) (<[i := mon]> (k_owner (skel s))).
Proof.
  intros Hy Hx; unfold skel, enqueued, k_set_queue; cbn.
  rewrite !fmap_insert; f_equal; (apply insert_id; rewrite lookup_fmap, ?Hy, ?Hx; done).
Qed.

(** An item whose notifications can be delivered, or that is deleted together
    with its subscription. *)
Definition deliverable (s : SubServer) (mon : nat) : Prop :=
  k_kind (skel s) !! mon = Some Sampled /\ is_Some (k_of (skel s) !! mon) /\
  forall a, k_of (skel s) !! mon = Some (Some a) -> FreeMonitoredItem mon ∈ k_delayed (skel s) ->
    FreeSubscription a ∈ k_delayed (skel s).

Lemma inv_enqueued p s mon y sub x i v :
  inv p s -> deliverable s mon -> h_mons s !! mon = Some y -> mi_subscription y = Some sub ->
  h_subs s !! sub = Some x -> k_owner (skel s) !! i = None -> (i < used s)%nat ->
  inv p (enqueued s mon y sub x i v) /\ quiet s (enqueued s mon y sub x i v).
Proof.
  intros [H Hc] (Hk & _ & Hz) Hy Hsub Hx Hi Hu; pose proof (skel_enqueued s mon y sub x i v Hy Hx) as Hs.
  pose proof (mon_of _ _ _ Hy) as Hof; rewrite Hsub in Hof.
  split; [split|split; rewrite ?Hs; done].
  - rewrite Hs; eapply ok_enqueue; [exact H|exact Hof|by apply sub_queue|by apply mon_mine|done|done|reflexivity|done|].
    by apply Hz.
  - destruct (counts_sub _ _ _ Hc Hx) as (C1 & C2 & C3), (counts_mon _ _ _ Hc Hy) as (C4 & C5).
    destruct Hc as (Hcs & Hcm & Hn); split; [|split; [|done]].
    + apply map_Forall_insert_2; [|done]; unfold sub_counts; cbn; rewrite C2, C1, u32_succ.
      split; [f_equal; unfold zlen; rewrite length_app; cbn; lia|done].
    + by apply map_Forall_insert_2.
Qed.

(** The fresh address of a notification owns nothing yet. *)
Lemma fresh_owner p s i : inv p s -> (used s <= i)%nat -> k_owner (skel s) !! i = None.
Proof.
  intros [H _] Hi; apply eq_None_not_Some; intros Hs; apply (ok_fresh_notif _ _ _ H) in Hs; lia.
Qed.
Lemma wp_enqueue p mon y sub x i v (Q : unit -> SubServer -> Prop) s :
  inv p s -> deliverable s mon -> h_mons s !! mon = Some y -> mi_subscription y = Some sub ->
  h_subs s !! sub = Some x -> k_owner (skel s) !! i = None -> (i < used s)%nat ->
  let s1 := enqueued s mon y sub x i v in
  let y1 := with_queue y (mi_queue y ++ [i]) in
  inv p s1 -> quiet s s1 ->
  (u32 (zlen (mi_queue y ++ [i])) <= maxQueueSize y -> Q tt s1) ->
  (forall s' x1 q j, maxQueueSize y < u32 (zlen (mi_queue y ++ [i])) -> h_subs s1 !! sub = Some x1 ->
     inv p s' -> quiet s s' -> overflowed s1 mon y1 sub x1 q j s' ->
     kept (discardOldest y) (mi_queue y ++ [i]) q -> u32 (zlen q) <= maxQueueSize y ->
     (zlen (mi_queue y ++ [i]) < 2 ^ 32 ->
      zlen q = Z.min (zlen (mi_queue y ++ [i])) (maxQueueSize y)) -> Q tt s') ->
  wp (UA_Notification_enqueue sub mon i) Q (with_notifs s (<[i := mkNotification mon v]> (h_notifs s))).
Proof.
  intros Hinv (Hk & _) Hy Hsub Hx Ho Hi s1 y1 Hinv1 Hq1 Hfit Hover.
  pose proof (counts_mon _ _ _ (proj2 Hinv) Hy) as (C & _).
  rewrite (mon_kind _ _ _ Hy) in Hk; injection Hk as Hk; apply kind_sampled in Hk as (Ht & _).
  unfold UA_Notification_enqueue.
  eapply wp_bind, wp_deref_mon; [exact Hy|]; eapply wp_bind, wp_update_mon; [exact Hy|].
  eapply wp_bind, wp_deref_sub; [exact Hx|]; eapply wp_bind, wp_update_sub; [exact Hx|].
  match goal with |- wp _ _ ?s2 => assert (s2 = s1) as -> end.
  { unfold s1, enqueued, with_subs, with_mons, with_notifs, with_queue; cbn; rewrite Ht; do 3 f_equal.
    rewrite C, u32_succ; f_equal; unfold zlen; rewrite length_app; cbn; lia. }
  assert (h_mons s1 !! mon = Some y1) as Hy1 by apply lookup_insert_eq.
  eapply wp_ensureQueueSpace; [exact Hinv1|exact Hy1|exact Hfit|].
  intros s' sub' x1 q j Hgt Hsub' Hx1 Hinv' Hq' Hov Hkept Hle Hmin.
  assert (sub' = sub) as -> by (cbn in Hsub'; congruence).
  eapply Hover; try done; by etrans.
Qed.
End Queues.
