(* ===== verification/SubscriptionSafe.v ===== *)
(** * The operations on subscriptions keep the invariant

    From a state in which the invariant holds, every operation is defined, and
    the invariant holds afterwards. *)

From Stdlib Require Import ZArith Lia SpecFloat.
From stdpp Require Import base list numbers tactics sets gmap.
From S2P Require Import Prelude StateMonad UaTypes UaValue BinarySize BinaryEncode FieldCodec SubscriptionState Subscription SubscriptionServices SubscriptionInvariant SubscriptionLogic SubscriptionQueues.

Section Safe.
Context {TE : TypeEnv} {E : SubscriptionEnv}.

(** Queues have room for a notification, the entries for removal and delayed
    freeing find memory, and two readings with the same type have the same
    shape and no distance that overflows. *)
Record sane : Prop := mkSane {
  sane_entries : forall n, entry_ok n = true;
  sane_queues : 1 <= fst queueSizeLimits /\ 1 <= snd queueSizeLimits;
  sane_readings : forall n r t n' r' t' d, is_Some (updateNeededForFilteredValue
    (dv_value (readWithSession n r t)) (dv_value (readWithSession n' r' t')) d)
}.

Hypothesis Hsane : sane.

(** ** Steps that leave the skeleton *)

Lemma wp_deref_alive_sub p a (Q : UA_Subscription -> SubServer -> Prop) s :
  inv p s -> is_Some (k_items (skel s) !! a) ->
  (forall x, h_subs s !! a = Some x -> sub_counts x -> Q x s) -> wp (deref_sub a) Q s.
Proof.
  intros [_ Hc] [x Hx]%alive_sub HQ; eapply wp_deref_sub; [exact Hx|].
  apply HQ; [done|]; by eapply counts_sub.
Qed.

Lemma wp_deref_alive_mon p m (Q : UA_MonitoredItem -> SubServer -> Prop) s :
  inv p s -> is_Some (k_of (skel s) !! m) ->
  (forall y, h_mons s !! m = Some y -> mon_counts y -> Q y s) -> wp (deref_mon m) Q s.
Proof.
  intros [_ Hc] [x Hx]%alive_mon HQ; eapply wp_deref_mon; [exact Hx|].
  apply HQ; [done|]; by eapply counts_mon.
Qed.

Lemma wp_alloc_entry (Q : bool -> SubServer -> Prop) s :
  (forall s', same s s' -> Q true s') -> wp alloc_entry Q s.
Proof.
  intros HQ; eapply wp_bind; cbn; rewrite (sane_entries Hsane).
  apply HQ, same_with_world; cbn; unfold used; lia.
Qed.

(** ** Sampling *)

Lemma wp_encode_value v (Q : status * list Z * bool -> SubServer -> Prop) s :
  (forall r s', same s s' -> Q r s') -> wp (encode_value v) Q s.
Proof.
  intros HQ; unfold encode_value.
  destruct (UA_encodeBinary_buf _ _ ([], UA_VALUENCODING_MAXSTACK)) as [r [bytes ?]].
  destruct (r =? _); [|by apply wp_ret, HQ]; destruct (_ =? 0); [by apply wp_ret, HQ|].
  apply wp_bind, wp_alloc; intros b s' Hs; destruct b; cbn [negb]; [|by apply HQ].
  match goal with |- context [UA_encodeBinary_buf ?a ?b ?c] =>
    destruct (UA_encodeBinary_buf a b c) as [r' [bytes' ?]] end; by apply HQ.
Qed.

Lemma readings_comparable n r t w d :
  sampled_value w -> is_Some (updateNeededForFilteredValue (dv_value (readWithSession n r t)) w d).
Proof.
  intros [->|(n' & r' & t' & ->)]; [|apply (sane_readings Hsane)].
  unfold updateNeededForFilteredValue; destruct (negb _); [by eexists|]; cbn [variant_type UA_Variant_null].
  destruct (variant_type (dv_value (readWithSession n r t))) as [ty|] eqn:Ht; [by eexists|].
  destruct (dv_value (readWithSession n r t)); cbn in Ht |- *; try by eexists.
  subst; by eexists.
Qed.

Lemma wp_detectValueChange p mon n r t (Q : option (list Z) -> SubServer -> Prop) s :
  inv p s -> is_Some (k_of (skel s) !! mon) ->
  (forall b s', same s s' -> Q b s') ->
  wp (detectValueChange mon (readWithSession n r t)) Q s.
Proof.
  intros Hinv Hm HQ; apply wp_bind, (wp_deref_alive_mon p); [done|done|]; intros y Hy (_ & _ & Hv).
  apply wp_bind; eapply wp_deref_mon; [exact Hy|].
  set (v := filtered_value _ _).
  assert (exists b, (match variant_type (dv_value v) with
     | Some type =>
         if isDataTypeNumeric type
            && ((trigger (mi_filter y) =? UA_DATACHANGETRIGGER_STATUSVALUE)
                || (trigger (mi_filter y) =? UA_DATACHANGETRIGGER_STATUSVALUETIMESTAMP))
            && (deadbandType (mi_filter y) =? UA_DEADBANDTYPE_ABSOLUTE)
         then updateNeededForFilteredValue (dv_value v) (lastValue y) (deadbandValue (mi_filter y))
         else Some true
     | None => Some true
     end) = Some b) as [b Hb].
  { destruct (variant_type _); [|by eexists]; destruct (_ && _); [|by eexists].
    by apply readings_comparable. }
  eapply wp_bind, wp_the; [exact Hb|]; destruct b; cbn [negb]; [|by apply wp_ret, HQ].
  apply wp_bind, wp_encode_value; intros [[rv bytes] on_stack] s1 H1.
  destruct (bad rv); [by apply wp_ret, HQ|].
  destruct (_ && _); [by apply wp_ret, HQ|]; destruct on_stack; [|by apply wp_ret, HQ].
  apply wp_bind, wp_alloc; intros ok s2 H2; apply wp_ret, HQ; by etrans.
Qed.

Lemma wp_notify_change p mon v (Q : bool -> SubServer -> Prop) s :
  inv p s -> deliverable s mon ->
  (forall b s', inv p s' -> quiet s s' -> Q b s') -> wp (notify_change mon v) Q s.
Proof.
  intros Hinv Hdel HQ; pose proof Hdel as (Hk & Hm & Hz).
  apply wp_bind, (wp_deref_alive_mon p); [done|done|]; intros y Hy (C & _).
  destruct (mi_subscription y) as [sub|] eqn:Hsub.
  - apply wp_bind, wp_malloc_any; intros q w Hw Hq.
    assert (same s (with_world s w)) as Hs by by apply same_with_world.
    assert (inv p (with_world s w)) as Hinv1 by by eapply inv_same.
    destruct q as [i|]; [|apply wp_ret, HQ; [done|by apply same_quiet]].
    destruct (Hq i eq_refl) as [-> Hi].
    pose proof (mon_of _ _ _ Hy) as Hof; rewrite Hsub in Hof.
    destruct (ok_own _ _ _ (proj1 Hinv) _ _ Hof) as (l & Hl & _).
    destruct (queue_sub _ _ _ Hl) as (x & Hx & _).
    assert (k_owner (skel (with_world s w)) !! used s = None) as Ho.
    { change (skel (with_world s w)) with (skel s); by eapply fresh_owner. }
    destruct (inv_enqueued p (with_world s w) mon y sub x (used s) v) as [Hinv2 Hq2]; try done.
    assert (forall s', inv p s' -> quiet (with_world s w) s' -> wp (mret true : M bool) Q s') as HQ'.
    { intros s' ? ?; apply wp_ret, HQ; [done|]; etrans; [by apply same_quiet|done]. }
    apply wp_bind, wp_modify, wp_bind.
    eapply wp_enqueue; try done; intros; by apply HQ'.
  - apply wp_bind, wp_modify, wp_ret.
    assert (same s (with_world s (mkWorld (clock (world s)) (allocs (world s)) (reads (world s))
      (sent (world s)) ((monitoredItemId y, v) :: told (world s))))) as Hs by by apply same_with_world.
    apply HQ; [by eapply inv_same|by apply same_quiet].
Qed.
Lemma deliverable_quiet s s' m : deliverable s m -> quiet s s' -> deliverable s' m.
Proof.
  intros (Hk & Hm & Hz) H; unfold deliverable; rewrite (quiet_of _ _ H), (quiet_delayed _ _ H).
  split; [by apply (quiet_kind _ _ H)|done].
Qed.

Lemma wp_sampleCallback p mon (Q : unit -> SubServer -> Prop) s :
  inv p s -> deliverable s mon -> (forall s', inv p s' -> quiet s s' -> Q tt s') ->
  wp (UA_MonitoredItem_sampleCallback mon) Q s.
Proof.
  intros Hinv Hdel HQ; pose proof Hdel as (_ & Hm & _).
  apply wp_bind, (wp_deref_alive_mon p); [done|done|]; intros y Hy _.
  destruct (decide _); [|by apply wp_ret, HQ].
  apply wp_bind, wp_read; intros n s1 H1; set (r := mkReadValueId _ _ _).
  assert (inv p s1) as Hinv1 by by eapply inv_same.
  apply same_quiet in H1; assert (deliverable s1 mon) as Hdel1 by by eapply deliverable_quiet.
  apply wp_bind; eapply wp_detectValueChange; [exact Hinv1|apply Hdel1|].
  intros b s2 H2; assert (inv p s2) as Hinv2 by by eapply inv_same.
  apply same_quiet in H2; assert (deliverable s2 mon) as Hdel2 by by eapply deliverable_quiet.
  destruct b as [bytes|]; [|apply wp_ret, HQ; [done|by etrans]].
  apply wp_bind; eapply wp_notify_change; [exact Hinv2|exact Hdel2|].
  intros stored s3 Hinv3 H3; assert (quiet s s3) as Hq by (etrans; [exact H1|by etrans]).
  destruct stored; [|by apply wp_ret, HQ].
  apply wp_bind, wp_alloc; intros ok s4 H4.
  apply wp_update_mon_same.
  - destruct H4 as (-> & _); by rewrite (quiet_of _ _ H3); apply Hdel2.
  - intros y'; repeat split; cbn; [apply H|apply H|]; destruct ok; [right; eauto|by left].
  - intros s5 H5; assert (same s3 s5) as H by by etrans.
    apply HQ; [by eapply inv_same|etrans; [exact Hq|by apply same_quiet]].
Qed.

(** ** Callbacks of the timer *)

Lemma apply_changes_snoc l ch c i j :
  apply_changes (mkTimer l (ch ++ [c]) i) = apply_change (apply_changes (mkTimer l ch j)) c.
Proof. unfold apply_changes; cbn; by rewrite fold_left_app. Qed.

Lemma skel_register_sample s w m y id :
  h_mons s !! m = Some y ->
  let t := timer s in
  skel (with_mons (with_timer (with_world s w)
          (mkTimer (repeatedCallbacks t) (changes t ++ [AddCallback id (SampleCallback m)]) id))
          (<[m := set_mi_callback y id true]> (h_mons s))) =
  k_set_timer (skel s) (k_pub (skel s)) (<[m := Some id]> (k_reg (skel s)))
    ((id, SampleCallback m) :: k_timer (skel s)) id.
Proof.
  intros Hy; unfold skel, k_set_timer; cbn -[apply_changes]; rewrite !fmap_insert.
  rewrite (apply_changes_snoc _ _ _ _ (idCounter (timer s))); destruct (timer s) eqn:Ht; cbn -[apply_changes].
  f_equal; apply insert_id; rewrite lookup_fmap, Hy; done.
Qed.

Lemma quiet_timer s s' regs l c :
  skel s' = k_set_timer (skel s) (k_pub (skel s)) regs l c -> (used s <= used s')%nat -> quiet s s'.
Proof. by intros Hs Hu; split; rewrite ?Hs. Qed.

Lemma wp_registerSample p mon (Q : status -> SubServer -> Prop) s :
  inv p s -> is_Some (k_of (skel s) !! mon) -> k_kind (skel s) !! mon <> Some Fresh ->
  FreeMonitoredItem mon ∉ k_delayed (skel s) ->
  (forall r s', inv p s' -> quiet s s' -> Q r s') ->
  wp (UA_MonitoredItem_registerSampleCallback mon) Q s.
Proof.
  intros Hinv Hm Hk Hd HQ.
  apply wp_bind, (wp_deref_alive_mon p); [done|done|]; intros y Hy _.
  destruct (sampleCallbackIsRegistered y) eqn:Hreg; [by apply wp_ret, HQ|].
  destruct (decide _) as [Ht|]; [|by apply wp_ret, HQ].
  apply wp_bind; unfold addRepeatedCallback; destruct (_ <? 5); [by apply wp_ret, wp_ret, HQ|].
  apply wp_bind, wp_bind, wp_malloc_any; intros q w Hw _; apply wp_ret.
  assert (same s (with_world s w)) as Hs by by apply same_with_world.
  destruct (negb _).
  { apply wp_ret, wp_ret, HQ; [by eapply inv_same|by apply same_quiet]. }
  apply wp_bind, wp_gets, wp_bind, wp_modify, wp_ret; cbn [bad negb].
  eapply wp_bind, wp_update_mon; [exact Hy|]; apply wp_ret.
  rewrite (mon_kind _ _ _ Hy) in Hk.
  assert (kind y = Sampled) as Hks.
  { unfold kind in *; rewrite decide_True in Hk |- * by done; case_decide; done. }
  pose proof (skel_register_sample s w mon y (idCounter (timer s) + 1) Hy) as Hsk; cbn zeta in Hsk.
  destruct Hinv as [H Hc]; apply HQ; [split|eapply quiet_timer; [exact Hsk|exact Hw]].
  - pose proof (ok_register_sample p (skel s) (used s) H mon) as Hok.
    rewrite (mon_kind _ _ _ Hy), (mon_reg _ _ _ Hy), Hks in Hok; unfold reg in Hok.
    rewrite Hreg in Hok; specialize (Hok eq_refl eq_refl Hm Hd).
    eapply skel_ok_used in Hok; [|exact Hw]; change (k_counter (skel s)) with (idCounter (timer s)) in Hok.
    rewrite <- Hsk in Hok; exact Hok.
  - destruct (counts_mon _ _ _ Hc Hy) as (C1 & C2 & C3), Hc as (Hcs & Hcm & Hn).
    split; [done|]; split; [|done]; by apply map_Forall_insert_2.
Qed.

Lemma skel_unregister_sample s w m y :
  h_mons s !! m = Some y -> sampleCallbackIsRegistered y = true ->
  let t := timer s in
  skel (with_timer (with_world (with_mons s (<[m := set_mi_callback y (sampleCallbackId y) false]> (h_mons s))) w)
          (mkTimer (repeatedCallbacks t) (changes t ++ [RemoveCallback (sampleCallbackId y)]) (idCounter t))) =
  k_set_timer (skel s) (k_pub (skel s)) (<[m := None]> (k_reg (skel s)))
    (unscheduled (sampleCallbackId y) (k_timer (skel s))) (k_counter (skel s)).
Proof.
  intros Hy Hr; unfold skel, k_set_timer; cbn -[apply_changes]; rewrite !fmap_insert.
  rewrite (apply_changes_snoc _ _ _ _ (idCounter (timer s))); destruct (timer s) eqn:Ht; cbn -[apply_changes].
  f_equal; apply insert_id; rewrite lookup_fmap, Hy; done.
Qed.

(** Nothing samples the item afterwards; notifications stay. *)
Lemma wp_unregisterSample p mon (Q : status -> SubServer -> Prop) s :
  inv p s -> is_Some (k_of (skel s) !! mon) ->
  (forall r s' y, inv p s' -> quiet s s' -> h_subs s' = h_subs s -> h_mons s !! mon = Some y ->
     h_mons s' = <[mon := set_mi_callback y (sampleCallbackId y) false]> (h_mons s) ->
     h_notifs s' = h_notifs s ->
     (forall i, (i, SampleCallback mon) ∉ k_timer (skel s')) -> Q r s') ->
  wp (UA_MonitoredItem_unregisterSampleCallback mon) Q s.
Proof.
  intros Hinv Hm HQ.
  apply wp_bind, (wp_deref_alive_mon p); [done|done|]; intros y Hy _.
  assert (forall i, (i, SampleCallback mon) ∈ k_timer (skel s) -> reg y = Some i) as Hreg.
  { intros i Hi; apply (ok_sample _ _ _ (proj1 Hinv)) in Hi as [Hi _].
    rewrite (mon_reg _ _ _ Hy) in Hi; by injection Hi. }
  unfold reg in Hreg; destruct (sampleCallbackIsRegistered y) eqn:Hr; cbn [negb].
  - eapply wp_bind, wp_update_mon; [exact Hy|].
    apply wp_bind; unfold alloc_entry; apply wp_bind, wp_gets, wp_bind, wp_modify, wp_ret.
    rewrite (sane_entries Hsane); cbn [negb]; apply wp_bind, wp_gets, wp_bind, wp_modify, wp_ret.
    set (w := with_allocs _ _).
    pose proof (skel_unregister_sample s w mon y Hy Hr) as Hsk; cbn zeta in Hsk.
    destruct Hinv as [H Hc].
    eapply HQ; [split|eapply quiet_timer; [exact Hsk|cbn; unfold used; lia]|done|exact Hy|done|done|].
    + pose proof (ok_unregister_sample p (skel s) (used s) H mon (sampleCallbackId y)) as Hok.
      rewrite (mon_reg _ _ _ Hy) in Hok; unfold reg in Hok; rewrite Hr in Hok; specialize (Hok eq_refl).
      rewrite <- Hsk in Hok; eapply skel_ok_used; [exact Hok|cbn; unfold used; lia].
    + destruct (counts_mon _ _ _ Hc Hy) as (C1 & C2 & C3), Hc as (Hcs & Hcm & Hn).
      split; [done|]; split; [|done]; by apply map_Forall_insert_2.
    + intros i Hi; apply (f_equal k_timer) in Hsk; cbn [k_timer k_set_timer] in Hsk.
      assert ((i, SampleCallback mon) ∈ unscheduled (sampleCallbackId y) (k_timer (skel s))) as Hi'
        by (rewrite <- Hsk; exact Hi).
      apply unscheduled_in in Hi' as [Hne Hi']; apply Hreg in Hi'; congruence.
  - apply wp_ret, (HQ _ s y); try done.
    + rewrite insert_id; [done|]; rewrite Hy; f_equal; rewrite <- Hr; by destruct y.
    + intros i Hi; by apply Hreg in Hi.
Qed.
(** ** Deleting an item *)

Lemma wp_delayedFree p m (Q : status -> SubServer -> Prop) s :
  inv p s ->
  (forall s', counts s' -> (used s <= used s')%nat ->
     skel s' = k_set_mons (skel s) (k_items (skel s)) (k_of (skel s)) (k_mine (skel s))
       (k_kind (skel s)) (k_reg (skel s)) (k_local (skel s)) (m :: k_delayed (skel s)) -> Q GOOD s') ->
  wp (delayedFree m) Q s.
Proof.
  intros [_ Hc] HQ; apply wp_bind, wp_alloc_entry; intros s1 H1; cbn [negb].
  apply wp_bind, wp_modify, wp_ret; destruct H1 as (Hk & Hu & Hc1).
  apply HQ; [by apply Hc1|done|]; unfold k_set_mons; rewrite <- Hk; reflexivity.
Qed.

Definition deletes (mon : nat) (s s' : SubServer) : Prop :=
  let k := skel s in
  moves (k_items k) (k_pub k) (k_subs k) (k_local k) (FreeMonitoredItem mon :: k_delayed k) s s'.

Lemma quiet_deletes mon s s1 s2 : quiet s s1 -> deletes mon s1 s2 -> deletes mon s s2.
Proof.
  intros H H1; eapply quiet_moves; [exact H|]; unfold deletes in H1; cbn zeta in H1.
  by rewrite (quiet_items _ _ H), (quiet_pub _ _ H), (quiet_subs _ _ H),
    (quiet_local _ _ H), (quiet_delayed _ _ H) in H1.
Qed.

(** The end of the deletion, without notifications and callback. *)
Lemma wp_delete_end mon (Q : unit -> SubServer -> Prop) s :
  inv (Some mon) s -> is_Some (k_of (skel s) !! mon) -> k_mine (skel s) !! mon = Some [] ->
  (forall i, (i, SampleCallback mon) ∉ k_timer (skel s)) ->
  (forall s', inv None s' -> deletes mon s s' -> Q tt s') ->
  wp (_ ← update_mon mon (fun m =>
            set_mi_last (set_mi_what m UA_NODEID_NULL ArrNull) UA_Variant_null ArrNull);
      _ ← delayedFree (FreeMonitoredItem mon); mret tt) Q s.
Proof.
  intros Hinv Hm Hmine Hno HQ; apply wp_bind, wp_update_mon_same; [done| |].
  { intros y'; repeat split; [apply H|apply H|by left]. }
  intros s3 H3; assert (inv (Some mon) s3) as Hinv3 by by eapply inv_same.
  apply wp_bind; eapply wp_delayedFree; [exact Hinv3|]; intros s4 Hc Hu Hk; apply wp_ret.
  apply HQ; [split; [|done]|].
  - rewrite Hk; eapply skel_ok_used; [|exact Hu].
    apply (ok_delay_item _ _ _ (proj1 Hinv3) mon); [done|..]; destruct H3 as (-> & _); done.
  - eapply quiet_deletes; [by apply same_quiet|]; split; rewrite ?Hk; done.
Qed.

(** The notifications are deleted, then the item. *)
Lemma wp_delete_queue mon (Q : unit -> SubServer -> Prop) s :
  inv (Some mon) s -> is_Some (k_of (skel s) !! mon) ->
  (forall i, (i, SampleCallback mon) ∉ k_timer (skel s)) ->
  (forall s', inv None s' -> deletes mon s s' -> Q tt s') ->
  wp (m ← deref_mon mon;
      _ ← match mi_subscription m with
          | Some sub => delete_notifications sub mon (mi_queue m)
          | None => mret tt
          end;
      _ ← update_mon mon (fun m =>
            set_mi_last (set_mi_what m UA_NODEID_NULL ArrNull) UA_Variant_null ArrNull);
      _ ← delayedFree (FreeMonitoredItem mon); mret tt) Q s.
Proof.
  intros Hinv Hm Hno HQ; apply wp_bind, (wp_deref_alive_mon (Some mon)); [done|done|]; intros y Hy _.
  destruct (mi_subscription y) as [sub|] eqn:Hsub.
  - pose proof (mon_of _ _ _ Hy) as Hof; rewrite Hsub in Hof.
    destruct (ok_own _ _ _ (proj1 Hinv) _ _ Hof) as (l & Hl & _).
    destruct (queue_sub _ _ _ Hl) as (x & Hx & _).
    eapply wp_bind, (wp_delete_notifications (Some mon)); [exact Hinv|exact Hy|exact Hsub|done|exact Hx|].
    intros s2 Hinv2 H2 Hr; apply wp_delete_end; [done| | | |].
    + by rewrite (quiet_of _ _ H2).
    + apply requeued_mon in Hr; apply (mon_mine _ _ _ Hr).
    + destruct Hr as [Hr _ _ _]; injection Hr as _ _ _ Ht _ _; unfold skel; cbn; by rewrite Ht.
    + intros s' Hinv' Hd; apply HQ; [done|by eapply quiet_deletes].
  - apply wp_bind, wp_ret, wp_delete_end; [done|done| |done|done].
    apply (ok_alone _ _ _ (proj1 Hinv)); by rewrite (mon_of _ _ _ Hy), Hsub.
Qed.

Lemma wp_item_delete mon (Q : unit -> SubServer -> Prop) s :
  inv (Some mon) s -> (forall s', inv None s' -> deletes mon s s' -> Q tt s') ->
  wp (UA_MonitoredItem_delete mon) Q s.
Proof.
  intros Hinv HQ; destruct (ok_pending _ _ _ (proj1 Hinv) mon eq_refl) as [Hm _].
  apply wp_bind, (wp_deref_alive_mon (Some mon)); [done|done|]; intros y Hy _.
  destruct (decide _) as [Hch|Hch].
  - apply wp_bind, wp_bind; eapply wp_unregisterSample; [exact Hinv|exact Hm|].
    intros r s1 y1 Hinv1 H1 _ _ _ _ Hno; apply wp_ret, wp_delete_queue; [done| |done|].
    + by rewrite (quiet_of _ _ H1).
    + intros s' Hinv' Hd; apply HQ; [done|by eapply quiet_deletes].
  - apply wp_bind, wp_ret, wp_delete_queue; [done|done| |done].
    intros i Hi; apply (ok_sample _ _ _ (proj1 Hinv)) in Hi as (_ & Hk & _).
    rewrite (mon_kind _ _ _ Hy) in Hk; injection Hk as Hk; by apply kind_sampled in Hk as [? _].
Qed.

(** ** The publish callback *)

Lemma skel_register_publish s w a x id :
  h_subs s !! a = Some x ->
  let t := timer s in
  skel (with_subs (with_timer (with_world s w)
          (mkTimer (repeatedCallbacks t) (changes t ++ [AddCallback id (PublishCallback a)]) id))
          (<[a := set_sub_callback x id true]> (h_subs s))) =
  k_set_timer (skel s) (<[a := Some id]> (k_pub (skel s))) (k_reg (skel s))
    ((id, PublishCallback a) :: k_timer (skel s)) id.
Proof.
  intros Hy; unfold skel, k_set_timer; cbn -[apply_changes]; rewrite !fmap_insert.
  rewrite (apply_changes_snoc _ _ _ _ (idCounter (timer s))); destruct (timer s) eqn:Ht; cbn -[apply_changes].
  f_equal; apply insert_id; rewrite lookup_fmap, Hy; done.
Qed.

(** Only the callback of a subscription changes. *)
Definition scheduled (a : nat) (s s' : SubServer) : Prop :=
  let k := skel s in exists o,
  moves (k_items k) (<[a := o]> (k_pub k)) (k_subs k) (k_local k) (k_delayed k) s s'.

Lemma scheduled_timer s s' a o l c :
  skel s' = k_set_timer (skel s) (<[a := o]> (k_pub (skel s))) (k_reg (skel s)) l c ->
  (used s <= used s')%nat -> scheduled a s s'.
Proof. by intros Hs Hu; exists o; split; rewrite ?Hs. Qed.

Lemma quiet_scheduled p a s s' :
  inv p s -> is_Some (k_items (skel s) !! a) -> quiet s s' -> scheduled a s s'.
Proof.
  intros _ [x Hx]%alive_sub H; exists (pub x).
  rewrite insert_id by (by apply sub_pub); exact H.
Qed.

Lemma wp_registerPublish p a (Q : status -> SubServer -> Prop) s :
  inv p s -> a ∈ k_subs (skel s) ->
  (forall r s', inv p s' -> scheduled a s s' -> Q r s') ->
  wp (Subscription_registerPublishCallback a) Q s.
Proof.
  intros Hinv Ha HQ; destruct (ok_alive _ _ _ (proj1 Hinv) a Ha) as [Hal _].
  assert (forall s', same s s' -> scheduled a s s') as Hsame.
  { intros s' Hs; eapply quiet_scheduled; [exact Hinv|done|by apply same_quiet]. }
  apply wp_bind, (wp_deref_alive_sub p); [done|done|]; intros x Hx _.
  destruct (publishCallbackIsRegistered x) eqn:Hreg; [by apply wp_ret, HQ, Hsame|].
  apply wp_bind; unfold addRepeatedCallback; destruct (_ <? 5); [by apply wp_ret, wp_ret, HQ, Hsame|].
  apply wp_bind, wp_bind, wp_malloc_any; intros q w Hw _; apply wp_ret.
  assert (same s (with_world s w)) as Hs by by apply same_with_world.
  destruct (negb _).
  { apply wp_ret, wp_ret, HQ; [by eapply inv_same|by apply Hsame]. }
  apply wp_bind, wp_gets, wp_bind, wp_modify, wp_ret; cbn [bad negb].
  eapply wp_bind, wp_update_sub; [exact Hx|]; apply wp_ret.
  pose proof (skel_register_publish s w a x (idCounter (timer s) + 1) Hx) as Hsk; cbn zeta in Hsk.
  destruct Hinv as [H Hc]; apply HQ; [split|eapply scheduled_timer; [exact Hsk|exact Hw]].
  - pose proof (ok_register_publish p (skel s) (used s) H a Ha) as Hok.
    rewrite (sub_pub _ _ _ Hx) in Hok; unfold pub in Hok; rewrite Hreg in Hok; specialize (Hok eq_refl).
    eapply skel_ok_used in Hok; [|exact Hw]; change (k_counter (skel s)) with (idCounter (timer s)) in Hok.
    rewrite <- Hsk in Hok; exact Hok.
  - destruct (counts_sub _ _ _ Hc Hx) as (C1 & C2 & C3), Hc as (Hcs & Hcm & Hn).
    split; [|done]; by apply map_Forall_insert_2.
Qed.

Lemma skel_unregister_publish s w a x :
  h_subs s !! a = Some x -> publishCallbackIsRegistered x = true ->
  let t := timer s in
  skel (with_subs (with_timer (with_world s w)
          (mkTimer (repeatedCallbacks t) (changes t ++ [RemoveCallback (publishCallbackId x)]) (idCounter t)))
          (<[a := set_sub_callback x (publishCallbackId x) false]> (h_subs s))) =
  k_set_timer (skel s) (<[a := None]> (k_pub (skel s))) (k_reg (skel s))
    (unscheduled (publishCallbackId x) (k_timer (skel s))) (k_counter (skel s)).
Proof.
  intros Hy Hr; unfold skel, k_set_timer; cbn -[apply_changes]; rewrite !fmap_insert.
  rewrite (apply_changes_snoc _ _ _ _ (idCounter (timer s))); destruct (timer s) eqn:Ht; cbn -[apply_changes].
  f_equal; apply insert_id; rewrite lookup_fmap, Hy; done.
Qed.

Lemma wp_unregisterPublish p a (Q : status -> SubServer -> Prop) s :
  inv p s -> is_Some (k_items (skel s) !! a) ->
  (forall r s', inv p s' -> scheduled a s s' -> k_pub (skel s') !! a = Some None -> Q r s') ->
  wp (Subscription_unregisterPublishCallback a) Q s.
Proof.
  intros Hinv Ha HQ; apply wp_bind, (wp_deref_alive_sub p); [done|done|]; intros x Hx _.
  destruct (publishCallbackIsRegistered x) eqn:Hreg; cbn [negb].
  - apply wp_bind, wp_bind; unfold alloc_entry; apply wp_bind, wp_gets, wp_bind, wp_modify, wp_ret.
    rewrite (sane_entries Hsane); cbn [negb]; apply wp_bind, wp_gets, wp_bind, wp_modify, wp_ret.
    set (w := with_allocs _ _); cbn [bad negb].
    eapply wp_bind, wp_update_sub; [exact Hx|]; apply wp_ret.
    pose proof (skel_unregister_publish s w a x Hx Hreg) as Hsk; cbn zeta in Hsk.
    destruct Hinv as [H Hc].
    eapply HQ; [split|eapply scheduled_timer; [exact Hsk|cbn; unfold used; lia]|].
    + pose proof (ok_unregister_publish p (skel s) (used s) H a (publishCallbackId x)) as Hok.
      rewrite (sub_pub _ _ _ Hx) in Hok; unfold pub in Hok; rewrite Hreg in Hok; specialize (Hok eq_refl).
      rewrite <- Hsk in Hok; eapply skel_ok_used; [exact Hok|cbn; unfold used; lia].
    + destruct (counts_sub _ _ _ Hc Hx) as (C1 & C2 & C3), Hc as (Hcs & Hcm & Hn).
      split; [|done]; by apply map_Forall_insert_2.
    + apply (f_equal k_pub) in Hsk; cbn [k_pub k_set_timer] in Hsk.
      etrans; [exact (f_equal (fun h => h !! a) Hsk)|]; apply lookup_insert_eq.
  - apply wp_ret, HQ; [done|by eapply quiet_scheduled|].
    rewrite (sub_pub _ _ _ Hx); unfold pub; by rewrite Hreg.
Qed.
End Safe.

(** ** Deleting subscriptions

    [grows]: what a step of the timer or of a service leaves of the
    subscriptions and items.  Nothing is freed before the end of the
    iteration, and an item whose deletion began in the step belongs to a
    subscription that is deleted as well. *)

Section Delete.
Context {TE : TypeEnv} {E : SubscriptionEnv}.
Hypothesis Hsane : sane.

Record grows (s s' : SubServer) : Prop := mkGrows {
  g_of : k_of (skel s') = k_of (skel s);
  g_kind : forall m, k_kind (skel s) !! m = Some Sampled -> k_kind (skel s') !! m = Some Sampled;
  g_alive : forall a, is_Some (k_items (skel s') !! a) <-> is_Some (k_items (skel s) !! a);
  g_local : k_local (skel s') = k_local (skel s);
  g_subs : k_subs (skel s') ⊆ k_subs (skel s);
  g_delayed : k_delayed (skel s) ⊆ k_delayed (skel s');
  g_zombie : forall m, FreeMonitoredItem m ∈ k_delayed (skel s') ->
    FreeMonitoredItem m ∈ k_delayed (skel s) \/
    exists a, k_of (skel s) !! m = Some (Some a) /\ FreeSubscription a ∈ k_delayed (skel s');
  g_used : (used s <= used s')%nat
}.

Lemma quiet_grows s s' : quiet s s' -> grows s s'.
Proof.
  intros H; split; rewrite ?(quiet_of _ _ H), ?(quiet_items _ _ H), ?(quiet_local _ _ H), ?(quiet_subs _ _ H),
    ?(quiet_delayed _ _ H); auto; [apply (quiet_kind _ _ H)|apply (m_used _ _ _ _ _ _ _ H)].
Qed.

Lemma same_subs_grow s s' : same s s' -> grows s s'.
Proof. intros H; by apply quiet_grows, same_quiet. Qed.

#[export] Instance grows_preorder : PreOrder grows.
Proof.
  split; [intros s; by apply quiet_grows|]; intros s1 s2 s3 [] []; split; try congruence.
  - auto.
  - intros a; by rewrite g_alive1.
  - by etrans.
  - by etrans.
  - intros m [Hm|(a & Ha & Hd)]%g_zombie1; [|right; exists a; by rewrite <- g_of0].
    destruct (g_zombie0 m Hm) as [?|(a & Ha & Hd)]; [by left|right; exists a; auto].
  - lia.
Qed.

Lemma deliverable_grows s s' m : deliverable s m -> grows s s' -> deliverable s' m.
Proof.
  intros (Hk & Hm & Hz) []; split; [auto|]; rewrite g_of0; split; [done|].
  intros a Ha [Hd|(b & Hb & Hd)]%g_zombie0; [auto|congruence].
Qed.

(** ** The items of a subscription *)

(** All items are deleted; [del] are the entries of delayed callbacks. *)
Definition clears (a : nat) (del : list DelayedFree) (s s' : SubServer) : Prop :=
  let k := skel s in
  (forall m, m ∈ del -> exists i, m = FreeMonitoredItem i /\ k_of k !! i = Some (Some a)) /\
  moves (<[a := []]> (k_items k)) (k_pub k) (k_subs k) (k_local k) (del ++ k_delayed k) s s'.

Lemma skel_with_items s a x l last n :
  h_subs s !! a = Some x ->
  skel (with_subs s (<[a := set_sub_items x last l n]> (h_subs s))) =
  k_set_mons (skel s) (<[a := l]> (k_items (skel s))) (k_of (skel s)) (k_mine (skel s))
    (k_kind (skel s)) (k_reg (skel s)) (k_local (skel s)) (k_delayed (skel s)).
Proof.
  intros Hx; unfold skel, k_set_mons; cbn; rewrite !fmap_insert; f_equal;
    (apply insert_id; rewrite lookup_fmap, Hx; done).
Qed.

Lemma counts_with_items s a x l last n :
  counts s -> h_subs s !! a = Some x -> counts (with_subs s (<[a := set_sub_items x last l n]> (h_subs s))).
Proof.
  intros Hc Hx; pose proof (counts_sub _ _ _ Hc Hx) as C; destruct Hc as (Hs & Hm & Hn).
  split; [|done]; by apply map_Forall_insert_2.
Qed.

(** An item is taken off the list of its subscription. *)
Lemma unlist_item s a x mon last n :
  inv None s -> h_subs s !! a = Some x -> mon ∈ monitoredItems x ->
  let s' := with_subs s (<[a := set_sub_items x last (without mon (monitoredItems x)) n]> (h_subs s)) in
  let k := skel s in
  inv (Some mon) s' /\ k_of k !! mon = Some (Some a) /\
  moves (<[a := without mon (monitoredItems x)]> (k_items k)) (k_pub k) (k_subs k) (k_local k)
    (k_delayed k) s s'.
Proof.
  intros [H Hc] Hx Hm; pose proof (skel_with_items s a x (without mon (monitoredItems x)) last n Hx) as Hk.
  split; [split|split].
  - rewrite Hk; apply (ok_unlist_item None _ _ H); [done|by apply sub_items|done].
  - by apply counts_with_items.
  - by apply (ok_items _ _ _ H a _ (sub_items _ _ _ Hx)).
  - split; rewrite ?Hk; done.
Qed.

Lemma deletes_moves mon items pubs subs loc del s s1 s2 :
  moves items pubs subs loc del s s1 -> deletes mon s1 s2 ->
  moves items pubs subs loc (FreeMonitoredItem mon :: del) s s2.
Proof. intros [] []; split; try congruence; [auto|auto|lia]. Qed.

Lemma wp_delete_items a l (Q : unit -> SubServer -> Prop) s :
  inv None s -> k_items (skel s) !! a = Some l ->
  (forall s' del, inv None s' -> clears a del s s' -> Q tt s') -> wp (delete_items a l) Q s.
Proof.
  revert s; induction l as [|mon l IH]; intros s Hinv Hl HQ; cbn [delete_items].
  { apply wp_ret, (HQ s []); [done|]; split; [set_solver|]; split; try done; by rewrite insert_id. }
  destruct (items_sub _ _ _ Hl) as (x & Hx & Hxl).
  eapply wp_bind, wp_deref_sub; [exact Hx|].
  assert (mon ∈ monitoredItems x) as Hm by (rewrite Hxl; apply list_elem_of_here).
  apply wp_bind, wp_list_remove; [done|]; eapply wp_bind, wp_update_sub; [exact Hx|].
  destruct (unlist_item s a x mon (lastMonitoredItemId x) (monitoredItemsSize x) Hinv Hx Hm) as (Hinv1 & Hof & H1).
  apply wp_bind; eapply wp_item_delete; [exact Hsane|exact Hinv1|]; intros s2 Hinv2 H2.
  pose proof (deletes_moves _ _ _ _ _ _ _ _ _ H1 H2) as H3.
  destruct (ok_items _ _ _ (proj1 Hinv) a _ Hl) as [Hnd _]; apply NoDup_cons in Hnd as [Hml Hnd].
  rewrite Hxl, without_cons_eq, without_notin in H3 by done.
  apply IH; [done|by rewrite (m_items _ _ _ _ _ _ _ H3), lookup_insert_eq|].
  intros s' del Hinv' [Hdel H4]; apply (HQ s' (del ++ [FreeMonitoredItem mon])); [done|].
  destruct H3, H4; split.
  - intros d [Hd| ->%list_elem_of_singleton]%elem_of_app; [|by exists mon].
    destruct (Hdel d Hd) as (i & ? & ?); exists i; by rewrite <- m_of.
  - split; try congruence; [|rewrite m_delayed0, m_delayed, <- app_assoc; done|auto|auto|lia].
    rewrite m_items0, m_items, insert_insert_eq; done.
Qed.

(** The subscription has no items and no callback any more. *)
Definition empties (a : nat) (del : list DelayedFree) (s s' : SubServer) : Prop :=
  let k := skel s in
  (forall m, m ∈ del -> exists i, m = FreeMonitoredItem i /\ k_of k !! i = Some (Some a)) /\
  moves (<[a := []]> (k_items k)) (<[a := None]> (k_pub k)) (k_subs k) (k_local k)
    (del ++ k_delayed k) s s'.

Lemma wp_deleteMembers a (Q : unit -> SubServer -> Prop) s :
  inv None s -> is_Some (k_items (skel s) !! a) ->
  (forall s' del, inv None s' -> empties a del s s' -> Q tt s') ->
  wp (UA_Subscription_deleteMembers a) Q s.
Proof.
  intros Hinv Ha HQ; apply wp_bind; eapply wp_unregisterPublish; [exact Hsane|exact Hinv|exact Ha|].
  intros r s1 Hinv1 (o & H1) Hpub; assert (is_Some (k_items (skel s1) !! a)) as Ha1.
  { by rewrite (m_items _ _ _ _ _ _ _ H1). }
  apply wp_bind, (wp_deref_alive_sub None); [done|done|]; intros x Hx _.
  apply wp_bind, wp_delete_items; [done|by apply sub_items|]; intros s2 del Hinv2 [Hdel H2].
  assert (k_items (skel s2) !! a = Some []) as Hnil.
  { by rewrite (m_items _ _ _ _ _ _ _ H2), lookup_insert_eq. }
  destruct (items_sub _ _ _ Hnil) as (x2 & Hx2 & Hx2l).
  eapply wp_update_sub; [exact Hx2|]; rewrite Hx2l.
  match goal with |- Q tt ?s3 => assert (same s2 s3) as H3 end.
  { eapply same_with_sub; [exact Hx2|]; split; [done|split; [cbn; congruence|split; [done|]]].
    intros (C1 & C2 & C3); do 3 (split; [done|]); intros [? _]; unfold zlen; cbn; lia. }
  apply (HQ _ del); [by eapply inv_same|]; split.
  - intros m Hm; destruct (Hdel m Hm) as (i & ? & ?); exists i; by rewrite <- (m_of _ _ _ _ _ _ _ H1).
  - eapply moves_quiet; [|by apply same_quiet].
    assert (o = None) as ->.
    { rewrite (m_pub _ _ _ _ _ _ _ H1), lookup_insert_eq in Hpub; by injection Hpub. }
    destruct H1, H2; split; try congruence; [auto|auto|lia].
Qed.

(** ** Deleting a subscription *)

Lemma find_subscription_in p id l (Q : option nat -> SubServer -> Prop) s :
  inv p s -> (forall a, a ∈ l -> is_Some (k_items (skel s) !! a)) ->
  (forall r, match r with Some a => a ∈ l | None => True end -> Q r s) ->
  wp (find_subscription id l) Q s.
Proof.
  intros Hinv Hl HQ; induction l as [|a l IH]; cbn [find_subscription]; [by apply wp_ret, HQ|].
  apply wp_bind, (wp_deref_alive_sub p); [done|apply Hl, list_elem_of_here|]; intros x _ _.
  destruct (_ =? _); [apply wp_ret, HQ, list_elem_of_here|].
  apply IH; [intros b Hb; by apply Hl, list_elem_of_further|].
  intros [b|] Hb; [by apply HQ, list_elem_of_further|by apply HQ].
Qed.

Lemma wp_getSubscriptionById p id (Q : option nat -> SubServer -> Prop) s :
  inv p s -> (forall r, match r with Some a => a ∈ k_subs (skel s) | None => True end -> Q r s) ->
  wp (UA_Session_getSubscriptionById id) Q s.
Proof.
  intros Hinv HQ; apply wp_bind, wp_gets; eapply find_subscription_in; [done| |exact HQ].
  intros a Ha; by apply (ok_alive _ _ _ (proj1 Hinv)).
Qed.

(** Deleting a subscription of the session. *)
Lemma wp_delete_found a (Q : status -> SubServer -> Prop) s :
  inv None s -> a ∈ k_subs (skel s) ->
  (forall s', inv None s' -> grows s s' -> k_subs (skel s') = without a (k_subs (skel s)) ->
     FreeSubscription a ∈ k_delayed (skel s') -> Q GOOD s') ->
  wp (_ ← UA_Subscription_deleteMembers a;
      retval ← delayedFree (FreeSubscription a);
      if bad retval then mret retval
      else
        s ← gets session;
        l ← list_remove a (serverSubscriptions s);
        _ ← update_session (fun s =>
              set_subscriptions s (lastSubscriptionId s) l (u32 (numSubscriptions s - 1)));
        mret GOOD) Q s.
Proof.
  intros Hinv Ha HQ.
  assert (is_Some (k_items (skel s) !! a)) as Hal by by apply (ok_alive _ _ _ (proj1 Hinv)).
  apply wp_bind, wp_deleteMembers; [done|done|]; intros s1 del Hinv1 [Hdel H1].
  apply wp_bind; eapply wp_delayedFree; [exact Hsane|exact Hinv1|]; intros s2 Hc2 Hu2 Hk2; cbn [bad negb].
  assert (a ∈ k_subs (skel s1)) as Ha1 by by rewrite (m_subs _ _ _ _ _ _ _ H1).
  apply wp_bind, wp_gets, wp_bind, wp_list_remove.
  { change (a ∈ k_subs (skel s2)); by rewrite Hk2. }
  apply wp_bind, wp_modify, wp_ret; set (s3 := with_session _ _).
  assert (skel s3 = k_set_subs (skel s1) (k_queue (skel s1)) (k_items (skel s1)) (k_pub (skel s1))
            (without a (k_subs (skel s1))) (FreeSubscription a :: k_delayed (skel s1))) as Hk3.
  { assert (skel s3 = k_set_subs (skel s2) (k_queue (skel s2)) (k_items (skel s2)) (k_pub (skel s2))
            (without a (k_subs (skel s2))) (k_delayed (skel s2))) as -> by done; by rewrite Hk2. }
  apply HQ; [split| | |].
  - rewrite Hk3; eapply skel_ok_used; [apply (ok_drop_subscription None _ _ (proj1 Hinv1) a); [exact Ha1| |]|exact Hu2].
    + rewrite (m_items _ _ _ _ _ _ _ H1); apply lookup_insert_eq.
    + rewrite (m_pub _ _ _ _ _ _ _ H1); apply lookup_insert_eq.
  - destruct Hc2 as (? & ? & ?); split; [done|split; done].
  - destruct H1; split; rewrite ?Hk3; cbn [k_set_subs k_of k_kind k_items k_local k_subs k_delayed].
    + done.
    + done.
    + intros b; rewrite m_items, lookup_insert_is_Some'; split; [intros [<-|?]; done|by right].
    + done.
    + rewrite m_subs; intros b [_ ?]%elem_of_without; done.
    + rewrite m_delayed; intros d Hd; apply list_elem_of_further, elem_of_app; by right.
    + intros m [?|Hm]%elem_of_cons; [done|]; rewrite m_delayed in Hm.
      apply elem_of_app in Hm as [Hm|Hm]; [right; exists a|by left].
      destruct (Hdel _ Hm) as (i & [= <-] & ?); split; [done|apply list_elem_of_here].
    + change (used s3) with (used s2); lia.
  - rewrite Hk3; cbn [k_set_subs k_subs]; by rewrite (m_subs _ _ _ _ _ _ _ H1).
  - rewrite Hk3; apply list_elem_of_here.
Qed.

Lemma wp_deleteSubscription id (Q : status -> SubServer -> Prop) s :
  inv None s -> (forall r s', inv None s' -> grows s s' -> Q r s') ->
  wp (UA_Session_deleteSubscription id) Q s.
Proof.
  intros Hinv HQ; apply wp_bind, (wp_getSubscriptionById None); [done|]; intros [a|] Ha.
  - apply wp_delete_found; auto.
  - by apply wp_ret, HQ.
Qed.
End Delete.
