(* ===== verification/SubscriptionPublish.v ===== *)
(** * Publishing *)

From Stdlib Require Import ZArith Lia SpecFloat.
From stdpp Require Import base list numbers tactics sets gmap.
From S2P Require Import Prelude StateMonad UaTypes UaValue SubscriptionState Subscription SubscriptionServices SubscriptionInvariant SubscriptionLogic SubscriptionQueues SubscriptionSafe.

Section Publish.
Context {TE : TypeEnv} {E : SubscriptionEnv}.

Lemma Forall2_impl_in {A B} (P R : A -> B -> Prop) l k :
  Forall2 P l k -> (forall a b, a ∈ l -> P a b -> R a b) -> Forall2 R l k.
Proof. induction 1; intros H'; constructor; [|apply IHForall2]; set_solver. Qed.

(** ** Moving notifications into a message *)

(** What is sent of a notification: the handle of its item and its value. *)
Definition entry (s : SubServer) (i : nat) : option (Z * UA_DataValue) :=
  x ← h_notifs s !! i; m ← h_mons s !! n_mon x; mret (clientHandle m, n_value x).

Lemma entry_deleted s mon y sub x l i j :
  h_mons s !! mon = Some y -> j <> i -> entry (deleted s mon y sub x l i) j = entry s j.
Proof.
  intros Hy Hj; unfold entry, deleted; cbn; rewrite lookup_delete_ne by done.
  destruct (h_notifs s !! j) as [n|]; [|done]; cbn.
  destruct (decide (n_mon n = mon)) as [->|Hne]; [by rewrite lookup_insert_eq, Hy|].
  by rewrite lookup_insert_ne by done.
Qed.

(** The subscription with the rest of its queue. *)
Definition with_rest (x : UA_Subscription) (l : list nat) : UA_Subscription :=
  set_sub_queue x l (u32 (zlen l)) (u32 (zlen l)) (eventNotifications x)
    (statusChangeNotifications x).

Lemma with_rest_self x : sub_counts x -> with_rest x (notificationQueue x) = x.
Proof. intros (H1 & H2 & _); unfold with_rest; rewrite <- H1; rewrite <- H2 at 2; by destruct x. Qed.

(** The first [n] notifications, in their order, are moved into the message. *)
Lemma wp_move_notifications p a x n size items (Q : list (Z * UA_DataValue) -> SubServer -> Prop) s :
  inv p s -> h_subs s !! a = Some x -> zlen items + Z.of_nat n <= size ->
  (forall s' es, inv p s' -> quiet s s' -> rest s' = rest s ->
     h_subs s' = <[a := with_rest x (drop n (notificationQueue x))]> (h_subs s) ->
     Forall2 (fun i e => entry s i = Some e) (take n (notificationQueue x)) es -> Q (items ++ es) s') ->
  wp (move_notifications a n (Some size) items (notificationQueue x)) Q s.
Proof.
  remember (notificationQueue x) as l eqn:Hl.
  revert s x n items Hl; induction l as [|i l IH]; intros s x n items Hl Hinv Hx Hsize HQ.
  { destruct n; (apply wp_ret; rewrite <- (app_nil_r items); apply (HQ s []); try done;
      rewrite drop_nil, Hl, with_rest_self by (by eapply counts_sub, Hx; apply Hinv); by rewrite insert_id). }
  destruct n as [|n]; cbn [move_notifications].
  { apply wp_ret; rewrite <- (app_nil_r items); apply (HQ s []); try done.
    rewrite drop_0, Hl, with_rest_self by (by eapply counts_sub, Hx; apply Hinv); by rewrite insert_id. }
  assert (i ∈ notificationQueue x) as Hi by (rewrite <- Hl; apply list_elem_of_here).
  destruct (ok_queued _ _ _ (proj1 Hinv) _ _ _ (sub_queue _ _ _ Hx) Hi) as (mon & Ho & Hof & Hk & _).
  destruct (owner_notif _ _ _ Ho) as (nt & Hnt & Hmon), (of_mon _ _ _ Hof) as (y & Hy & Hsub).
  rewrite (mon_kind _ _ _ Hy) in Hk; injection Hk as Hk; apply kind_sampled in Hk as (Ht & _).
  eapply wp_bind, wp_deref_notif; [exact Hnt|]; rewrite Hmon.
  eapply wp_bind, wp_deref_mon; [exact Hy|]; rewrite decide_True by done.
  destruct (Z.leb_spec size (zlen items)) as [Hle|Hgt]; [lia|].
  assert (i ∈ mi_queue y) as Him.
  { destruct (ok_own _ _ _ (proj1 Hinv) _ _ Hof) as (l' & Hl' & Hm).
    rewrite (sub_queue _ _ _ Hx) in Hl'; apply (inj Some) in Hl' as <-.
    rewrite (mon_mine _ _ _ Hy) in Hm; apply (inj Some) in Hm as ->; by apply owned_in. }
  pose proof (ok_queue _ _ _ (proj1 Hinv) _ _ (sub_queue _ _ _ Hx)) as Hnd; rewrite <- Hl in Hnd.
  apply NoDup_cons in Hnd as [Hil Hnd].
  assert (without i (notificationQueue x) = l) as Hw by (rewrite <- Hl, without_cons_eq; by apply without_notin).
  eapply wp_bind, wp_notification_delete; [exact Hinv|exact Hy|exact Hsub|exact Him|exact Hx|].
  intros Hinv1 Hq1 _; set (s1 := deleted s mon y a x (notificationQueue x) i) in *.
  assert (h_subs s1 !! a = Some (with_rest x l)) as Hx1.
  { unfold s1, deleted; cbn; rewrite lookup_insert_eq, Hw; f_equal; unfold with_rest.
    destruct (counts_sub _ _ _ (proj2 Hinv) Hx) as (C1 & C2 & _); rewrite C2, C1, <- Hl.
    change (u32 (zlen (i :: l)) + -1) with (u32 (zlen (i :: l)) - 1); rewrite u32_pred, zlen_cons.
    do 2 f_equal; f_equal; lia. }
  apply (IH s1 (with_rest x l) n (items ++ [(clientHandle y, n_value nt)])); [done|done|done| |].
  - rewrite zlen_app, zlen_cons, zlen_nil; lia.
  - intros s2 es Hinv2 Hq2 Hr Hsubs Hes; rewrite <- app_assoc; cbn [app].
    apply HQ; [done|by etrans|by rewrite Hr| |].
    + rewrite Hsubs; unfold s1, deleted; cbn; by rewrite insert_insert_eq.
    + cbn [firstn]; constructor; [unfold entry; rewrite Hnt; cbn; by rewrite Hmon, Hy|].
      eapply Forall2_impl_in; [exact Hes|]; intros j e Hj <-; symmetry.
      apply entry_deleted; [done|]; intros ->; apply Hil; by eapply (subseteq_take n l).
Qed.
(** [n] notifications, no more than there are. *)
Lemma wp_prepare p a x n (Q : status * option (list (Z * UA_DataValue)) -> SubServer -> Prop) s :
  inv p s -> h_subs s !! a = Some x -> 0 < n <= notificationQueueSize x ->
  (forall w, (exists k, malloc_ok k = false) -> (used s <= allocs w)%nat ->
     Q (BADOUTOFMEMORY, None) (with_world s w)) ->
  (forall s' es, inv p s' -> quiet s s' -> session s' = session s ->
     clock (world s') = clock (world s) -> sent (world s') = sent (world s) ->
     h_subs s' = <[a := with_rest x (drop (Z.to_nat n) (notificationQueue x))]> (h_subs s) ->
     Forall2 (fun i e => entry s i = Some e) (take (Z.to_nat n) (notificationQueue x)) es ->
     Q (GOOD, Some es) s') ->
  wp (prepareNotificationMessage a n) Q s.
Proof.
  intros Hinv Hx Hn Hbad HQ; destruct (counts_sub _ _ _ (proj2 Hinv) Hx) as (C1 & C2 & _).
  apply wp_bind, wp_alloc_exact; destruct (malloc_ok _) eqn:Hm1; cbn [negb].
  2: { apply wp_ret, Hbad; [eauto|cbn; unfold used; lia]. }
  set (w1 := with_allocs _ _).
  eapply wp_bind, wp_deref_sub; [exact Hx|].
  destruct (Z.ltb_spec 0 (dataChangeNotifications x)) as [Hd|Hd]; [|lia].
  assert (forall w, (used s <= allocs w)%nat -> clock w = clock (world s) -> sent w = sent (world s) ->
    wp (items ← move_notifications a (Z.to_nat n)
          (Some (if n <? dataChangeNotifications x then n else dataChangeNotifications x)) []
          (notificationQueue x); mret (GOOD, Some items)) Q (with_world s w)) as Hmove.
  { intros w Hw Hc Hs; assert (same s (with_world s w)) as Hsw by by apply same_with_world.
    apply wp_bind; eapply wp_move_notifications; [eapply inv_same; [exact Hinv|exact Hsw]|exact Hx| |].
    - rewrite zlen_nil; destruct (Z.ltb_spec n (dataChangeNotifications x)); lia.
    - intros s' es Hinv' Hq Hr Hsubs Hes; injection Hr as Hr1 _ _ _ _ Hr2; apply wp_ret, HQ; try done.
      + etrans; [by apply same_quiet|done].
      + by rewrite Hr2.
      + by rewrite Hr2. }
  apply wp_bind, wp_bind, wp_alloc_exact; destruct (malloc_ok (used (with_world s w1))) eqn:Hm2.
  - apply wp_alloc_exact; match goal with |- context [malloc_ok ?k] => destruct (malloc_ok k) eqn:Hm3 end; cbn [negb].
    + apply Hmove; cbn; try done; unfold used; lia.
    + apply wp_ret, Hbad; [eauto|cbn; unfold used; lia].
  - apply wp_ret, wp_ret, Hbad; [eauto|cbn; unfold used; lia].
Qed.

(** ** Retransmission *)

(** The queue with a new message, without the oldest one when it is full. *)
Definition retained (m : UA_NotificationMessage) (l : list UA_NotificationMessage) :=
  m :: (if (0 <? maxRetransmissionQueueSize) && (maxRetransmissionQueueSize <=? u32 (zlen l))
        then removelast l else l).

Definition with_retransmission (x : UA_Subscription) l := set_sub_retransmission x l (u32 (zlen l)).

Lemma zlen_removelast {A} (l : list A) : l <> [] -> zlen (removelast l) = zlen l - 1.
Proof.
  intros H; destruct (exists_last H) as (l' & a & ->); rewrite removelast_last, zlen_app, zlen_cons, zlen_nil; lia.
Qed.

Lemma retained_bound m l :
  0 < maxRetransmissionQueueSize < 2 ^ 32 -> zlen l <= maxRetransmissionQueueSize ->
  zlen (retained m l) <= maxRetransmissionQueueSize.
Proof.
  intros Hm Hl; unfold retained; rewrite zlen_cons; destruct (Z.ltb_spec 0 maxRetransmissionQueueSize); [|lia].
  unfold u32; rewrite Z.mod_small by (unfold zlen in *; lia).
  destruct (Z.leb_spec maxRetransmissionQueueSize (zlen l)); cbn [andb]; [|lia].
  rewrite zlen_removelast; [lia|]; intros ->; rewrite zlen_nil in *; lia.
Qed.

Lemma retained_same x m : sub_same x (with_retransmission x (retained m (retransmissionQueue x))).
Proof.
  repeat split; cbn; try apply H; intros Hm; apply retained_bound; [done|]; by apply H.
Qed.

Lemma wp_addRetransmission a x m (Q : unit -> SubServer -> Prop) s :
  h_subs s !! a = Some x -> sub_counts x ->
  Q tt (with_subs s (<[a := with_retransmission x (retained m (retransmissionQueue x))]> (h_subs s))) ->
  wp (UA_Subscription_addRetransmissionMessage a m) Q s.
Proof.
  intros Hx (_ & _ & C & _) HQ; eapply wp_bind, wp_deref_sub; [exact Hx|]; rewrite C.
  unfold with_retransmission, retained in HQ; rewrite zlen_cons in HQ.
  destruct (Z.ltb_spec 0 maxRetransmissionQueueSize), (Z.leb_spec maxRetransmissionQueueSize (u32 (zlen (retransmissionQueue x)))); cbn [andb] in *.
  2-4: (apply wp_bind, wp_ret; eapply wp_update_sub; [exact Hx|]; rewrite C, u32_succ; exact HQ).
  destruct (retransmissionQueue x) as [|m' l] eqn:Hl; [change (u32 (zlen [])) with 0 in *; lia|].
  eapply wp_bind, wp_update_sub; [exact Hx|]; eapply wp_update_sub; [apply lookup_insert_eq|].
  cbn [retransmissionQueueSize retransmissionQueue set_sub_retransmission]; rewrite C.
  unfold with_subs; cbn [h_subs session h_mons h_notifs localMonitoredItems lastLocalMonitoredItemId timer delayed world].
  rewrite insert_insert_eq, u32_pred, u32_succ, <- zlen_removelast by done; exact HQ.
Qed.

(** ** The response *)

(** The subscription after [n] notifications have been sent. *)
Definition published (x : UA_Subscription) (n : Z) (m : UA_NotificationMessage) : UA_Subscription :=
  let x := set_sub_ready x (u32 (readyNotifications x - n)) in
  let x := if 0 <? n
           then with_retransmission
                  (set_sub_counts x (nm_sequenceNumber m) (currentKeepAliveCount x) (currentLifetimeCount x))
                  (retained m (retransmissionQueue x))
           else x in
  set_sub_counts (set_sub_mode x (subscriptionId x) (publishingEnabled x) UA_SUBSCRIPTIONSTATE_NORMAL)
    (sequenceNumber x) 0 (currentLifetimeCount x).

Definition with_sent (w : World) m : World := mkWorld (clock w) (allocs w) (reads w) (m :: sent w) (told w).

Lemma published_same x n m : sub_same x (published x n m).
Proof.
  unfold published; destruct (0 <? n); repeat split; cbn; try apply H.
  intros Hm; apply retained_bound; [done|]; by apply H.
Qed.

Lemma wp_send_publishResponse a x pre n more data (Q : unit -> SubServer -> Prop) s :
  h_subs s !! a = Some x -> sub_counts x -> s_channel (session s) = true ->
  (let m := mkMessage (UA_Subscription_nextSequenceNumber (sequenceNumber x)) (clock (world s)) data in
   let x' := published x n m in
   let r := mkPublishResponse (pr_requestHandle (pre_response pre)) (clock (world s))
              (pr_serviceResult (pre_response pre)) (subscriptionId x)
              (map nm_sequenceNumber (retransmissionQueue x')) more m (pr_results (pre_response pre)) in
   Q tt (with_world (with_subs s (<[a := x']> (h_subs s))) (with_sent (world s) (pre_requestId pre, r)))) ->
  wp (send_publishResponse a pre n more data) Q s.
Proof.
  intros Hx HC Hch HQ; cbn zeta in HQ; unfold send_publishResponse.
  eapply wp_bind, wp_update_sub; [exact Hx|]; apply wp_bind, wp_gets.
  eapply wp_bind, wp_deref_sub; [apply lookup_insert_eq|].
  set (x1 := set_sub_ready x (u32 (readyNotifications x - n))) in *.
  set (m := mkMessage _ _ _) in *; set (x2 := if 0 <? n
    then with_retransmission
           (set_sub_counts x1 (nm_sequenceNumber m) (currentKeepAliveCount x1) (currentLifetimeCount x1))
           (retained m (retransmissionQueue x1))
    else x1).
  assert (published x n m = set_sub_counts (set_sub_mode x2 (subscriptionId x2) (publishingEnabled x2)
    UA_SUBSCRIPTIONSTATE_NORMAL) (sequenceNumber x2) 0 (currentLifetimeCount x2)) as Hp by done.
  rewrite Hp in HQ; clear Hp.
  assert (subscriptionId x2 = subscriptionId x) as Hid by (unfold x2; by destruct (0 <? n)).
  assert (forall (next : M unit), wp next Q (with_subs s (<[a := x2]> (h_subs s))) ->
    wp (_ ← (if 0 <? n then
         _ ← update_sub a (fun s => set_sub_counts s (nm_sequenceNumber m)
               (currentKeepAliveCount s) (currentLifetimeCount s));
         UA_Subscription_addRetransmissionMessage a m
       else mret tt); next) Q (with_subs s (<[a := x1]> (h_subs s)))) as Hstep.
  { intros next Hnext; unfold x2 in Hnext; destruct (0 <? n); [|apply wp_bind, wp_ret; exact Hnext].
    apply wp_bind; eapply wp_bind, wp_update_sub; [apply lookup_insert_eq|].
    eapply wp_addRetransmission; [apply lookup_insert_eq|exact HC|].
    unfold with_subs in *; cbn [h_subs session h_mons h_notifs localMonitoredItems lastLocalMonitoredItemId timer delayed world] in *.
    rewrite !insert_insert_eq; exact Hnext. }
  apply Hstep; clear Hstep; eapply wp_bind, wp_deref_sub; [apply lookup_insert_eq|].
  unfold send; apply wp_bind, wp_bind, wp_gets; cbn [session with_subs]; rewrite Hch.
  apply wp_modify; eapply wp_update_sub; [apply lookup_insert_eq|].
  unfold with_subs, with_world in *; cbn [h_subs session h_mons h_notifs localMonitoredItems lastLocalMonitoredItemId timer delayed world] in *.
  rewrite insert_insert_eq; rewrite Hid in *; exact HQ.
Qed.
(** ** A round of publishing *)

Hypothesis Hsane : sane.

Lemma wp_make_message a x n (Q : option (option (list (Z * UA_DataValue))) -> SubServer -> Prop) s :
  inv None s -> h_subs s !! a = Some x -> n <= notificationQueueSize x ->
  (forall w, (exists k, malloc_ok k = false) -> (used s <= allocs w)%nat -> Q None (with_world s w)) ->
  (n <= 0 -> Q (Some None) s) ->
  (forall s' es, 0 < n -> inv None s' -> quiet s s' -> session s' = session s ->
     clock (world s') = clock (world s) -> sent (world s') = sent (world s) ->
     h_subs s' = <[a := with_rest x (drop (Z.to_nat n) (notificationQueue x))]> (h_subs s) ->
     Forall2 (fun i e => entry s i = Some e) (take (Z.to_nat n) (notificationQueue x)) es ->
     Q (Some (Some es)) s') ->
  wp (make_message a n) Q s.
Proof.
  intros Hinv Hx Hn Hbad H0 HQ; unfold make_message; destruct (Z.ltb_spec 0 n); [|by apply wp_ret, H0].
  apply wp_bind, wp_alloc_exact; destruct (malloc_ok _) eqn:Hm; cbn [negb].
  2: { apply wp_ret, Hbad; [eauto|cbn; unfold used; lia]. }
  set (w := with_allocs _ _); assert (same s (with_world s w)) as Hw by (apply same_with_world; cbn; unfold used; lia).
  apply wp_bind, (wp_prepare None a x); [by eapply inv_same|done|done| |].
  - intros w' Hk Hw'; apply wp_ret, Hbad; [done|]; cbn in Hw'; unfold used in *; lia.
  - intros s' es Hinv' Hq Hs Hc Hsent Hsubs Hes; apply wp_ret, HQ; try done.
    etrans; [by apply same_quiet|done].
Qed.

Lemma wp_be_late a pre (Q : unit -> SubServer -> Prop) s :
  is_Some (k_items (skel s) !! a) -> (forall s', same s s' -> Q tt s') -> wp (be_late a pre) Q s.
Proof.
  intros Ha HQ; apply wp_bind, wp_update_sub_same; [done|done|]; intros s1 H1.
  destruct pre; [|by apply wp_ret, HQ]; apply wp_queuePublishReq; intros s2 H2 _; apply HQ; by etrans.
Qed.

Lemma wp_count_lifetime a x pre (Q : bool -> SubServer -> Prop) s :
  h_subs s !! a = Some x ->
  (let n := match pre with Some _ => 0 | None => u32 (currentLifetimeCount x + 1) end in
   Q (match pre with Some _ => false | None => lifeTimeCount x <? n end)
     (with_subs s (<[a := set_sub_counts x (sequenceNumber x) (currentKeepAliveCount x) n]> (h_subs s)))) ->
  wp (count_lifetime a pre) Q s.
Proof.
  intros Hx HQ; eapply wp_bind, wp_deref_sub; [exact Hx|].
  eapply wp_bind, wp_update_sub; [exact Hx|]; apply wp_ret; exact HQ.
Qed.

Lemma alive_grows s s' a : grows s s' -> is_Some (k_items (skel s) !! a) -> is_Some (k_items (skel s') !! a).
Proof. intros H; by apply (g_alive _ _ H). Qed.

Lemma alive_same s s' a : same s s' -> is_Some (k_items (skel s) !! a) -> is_Some (k_items (skel s') !! a).
Proof. intros (-> & _); done. Qed.

(** The end of a round: [n] notifications are there, or it is time for a
    message that tells that the subscription is alive. *)
Lemma wp_respond a x pre n more (Q : bool -> SubServer -> Prop) s :
  inv None s -> h_subs s !! a = Some x -> n <= notificationQueueSize x ->
  (forall r s', inv None s' -> grows s s' -> Q r s') ->
  wp (x ← gets session;
      match pre with
      | Some p =>
          if negb (s_channel x) then _ ← be_late a pre; mret false
          else
            data ← make_message a n;
            match data with
            | None => _ ← be_late a pre; mret false
            | Some data => _ ← send_publishResponse a p n more data; mret more
            end
      | None => _ ← be_late a None; mret false
      end) Q s.
Proof.
  intros Hinv Hx Hn HQ; assert (is_Some (k_items (skel s) !! a)) as Ha by (rewrite (sub_items _ _ _ Hx); by eexists).
  assert (forall pre s1, inv None s1 -> grows s s1 -> wp (_ ← be_late a pre; mret false) Q s1) as Hlate.
  { intros pre' s1 Hinv1 H1; apply wp_bind, wp_be_late; [by eapply alive_grows|]; intros s2 H2.
    apply wp_ret, HQ; [by eapply inv_same|etrans; [done|by apply same_subs_grow]]. }
  apply wp_bind, wp_gets; destruct pre as [p|]; [|by apply Hlate].
  destruct (s_channel (session s)) eqn:Hch; cbn [negb]; [|by apply Hlate].
  assert (forall s1 x1 data, inv None s1 -> grows s s1 -> session s1 = session s -> h_subs s1 !! a = Some x1 ->
    wp (_ ← send_publishResponse a p n more data; mret more) Q s1) as Hsend.
  { intros s1 x1 data Hinv1 H1 Hs1 Hx1.
    eapply wp_bind, wp_send_publishResponse; [exact Hx1|by eapply counts_sub, Hx1; apply Hinv1|by rewrite Hs1|].
    cbn zeta; match goal with |- wp _ _ ?s2 => assert (same s1 s2) as H2 end.
    { etrans; [eapply same_with_sub; [exact Hx1|apply published_same]|]; by apply same_with_world. }
    apply wp_ret, HQ; [by eapply inv_same|etrans; [done|by apply same_subs_grow]]. }
  eapply wp_bind, wp_make_message; [exact Hinv|exact Hx|exact Hn| | |].
  - intros w _ Hw; assert (same s (with_world s w)) as H by by apply same_with_world.
    apply Hlate; [by eapply inv_same|by apply same_subs_grow].
  - intros _; by eapply Hsend.
  - intros s1 es _ Hinv1 H1 Hs1 _ _ Hsubs _; eapply Hsend; [done|by apply quiet_grows|done|].
    rewrite Hsubs; apply lookup_insert_eq.
Qed.

Lemma available_bound x n more :
  readyNotifications x <= notificationQueueSize x -> 0 <= notificationQueueSize x ->
  available x = (n, more) -> n <= notificationQueueSize x.
Proof.
  unfold available; destruct (publishingEnabled x).
  - destruct (Z.ltb_spec (notificationsPerPublish x) (readyNotifications x)); intros H1 H2 [= <- <-]; lia.
  - destruct (Z.ltb_spec (notificationsPerPublish x) 0); intros H1 H2 [= <- <-]; lia.
Qed.

Lemma wp_update_if {A} (b : bool) a x f (next : M A) (Q : A -> SubServer -> Prop) s :
  h_subs s !! a = Some x ->
  wp next Q (with_subs s (<[a := if b then f x else x]> (h_subs s))) ->
  wp (_ ← (if b then update_sub a f else mret tt); next) Q s.
Proof.
  intros Hx HQ; apply wp_bind; destruct b; [by eapply wp_update_sub|].
  apply wp_ret; by rewrite with_sub_self in HQ.
Qed.

(** A change of the subscription that leaves the skeleton. *)
Lemma step_sub s0 s a x x' :
  inv None s0 -> same s0 s -> h_subs s !! a = Some x -> sub_same x x' ->
  let s' := with_subs s (<[a := x']> (h_subs s)) in
  same s0 s' /\ inv None s' /\ h_subs s' !! a = Some x'.
Proof.
  intros Hinv Hs Hx Hf s'; assert (same s s') as H by by eapply same_with_sub.
  split; [by etrans|]; split; [|apply lookup_insert_eq].
  eapply inv_same; [eapply inv_same; [exact Hinv|exact Hs]|exact H].
Qed.

Lemma wp_publish_once a (Q : bool -> SubServer -> Prop) s :
  inv None s -> is_Some (k_items (skel s) !! a) ->
  (forall r s', inv None s' -> grows s s' -> Q r s') -> wp (publish_once a) Q s.
Proof.
  intros Hinv Ha HQ; apply wp_bind, wp_dequeuePublishReq; intros pre s1 H1 _.
  destruct (alive_sub _ _ (alive_same _ _ _ H1 Ha)) as [x Hx].
  eapply wp_bind, wp_count_lifetime; [exact Hx|]; cbn zeta.
  set (x2 := set_sub_counts x _ _ _).
  destruct (step_sub s s1 a x x2 Hinv H1 Hx) as (H2 & Hinv2 & Hx2); [done|].
  set (s2 := with_subs s1 _) in *; clearbody s2.
  eapply wp_bind, wp_deref_sub; [exact Hx2|]; destruct (match pre with Some _ => false | None => _ end).
  { apply wp_bind; eapply wp_deleteSubscription; [exact Hsane|exact Hinv2|]; intros r s3 Hinv3 H3.
    apply wp_ret, HQ; [done|]; etrans; [by apply same_subs_grow|done]. }
  eapply wp_update_if; [exact Hx2|]; set (x3 := if _ <? readyNotifications x2 then _ else x2).
  destruct (step_sub s s2 a x2 x3 Hinv H2 Hx2) as (H3 & Hinv3 & Hx3); [unfold x3; by destruct (_ <? _)|].
  set (s3 := with_subs s2 _) in *; clearbody s3.
  eapply wp_bind, wp_deref_sub; [exact Hx3|]; destruct (available x3) as [n more] eqn:Hav.
  assert (n <= notificationQueueSize x3) as Hn.
  { eapply available_bound; [| |exact Hav].
    - unfold x3; destruct (Z.ltb_spec (notificationQueueSize x2) (readyNotifications x2)); cbn in *; lia.
    - destruct (counts_sub _ _ _ (proj2 Hinv3) Hx3) as (-> & _); unfold u32; apply Z.mod_pos_bound; lia. }
  eapply wp_update_if; [exact Hx3|]; set (x4 := if n =? 0 then _ else x3).
  destruct (step_sub s s3 a x3 x4 Hinv H3 Hx3) as (H4 & Hinv4 & Hx4); [unfold x4; by destruct (_ =? _)|].
  set (s4 := with_subs s3 _) in *; clearbody s4; destruct (_ && _).
  { assert (forall s5, same s4 s5 -> wp (mret false : M bool) Q s5) as Hend.
    { intros s5 H5; apply wp_ret, HQ; [by eapply inv_same|apply same_subs_grow; by etrans]. }
    apply wp_bind; destruct pre; [|by apply wp_ret, Hend]; apply wp_queuePublishReq; intros s5 H5 _; by apply Hend. }
  eapply wp_respond; [exact Hinv4|exact Hx4|unfold x4; destruct (n =? 0); exact Hn|].
  intros r s5 Hinv5 H5; apply HQ; [done|]; etrans; [by apply same_subs_grow|done].
Qed.

(** ** Termination *)

Definition requests (s : SubServer) : list UA_PublishResponseEntry := responseQueue (session s).

Lemma keeps_deref_sub a : keeps requests (deref_sub a).
Proof. unfold deref_sub; repeat keeps_step. Qed.
Lemma keeps_deref_mon m : keeps requests (deref_mon m).
Proof. unfold deref_mon; repeat keeps_step. Qed.
Lemma keeps_deref_notif i : keeps requests (deref_notif i).
Proof. unfold deref_notif; repeat keeps_step. Qed.
Lemma keeps_update_sub a f : keeps requests (update_sub a f).
Proof. unfold update_sub, deref_sub; repeat keeps_step. Qed.
Lemma keeps_alloc : keeps requests alloc.
Proof. unfold alloc, malloc; repeat keeps_step. Qed.
Lemma keeps_send i r : keeps requests (send i r).
Proof. unfold send; repeat keeps_step. Qed.

Create HintDb keeps.
#[local] Hint Resolve keeps_deref_sub keeps_deref_mon keeps_deref_notif keeps_update_sub keeps_alloc
  keeps_send : keeps.

Ltac keeps_steps := repeat first [solve [auto with keeps] | keeps_step].

Lemma keeps_notification_delete a m i : keeps requests (UA_Notification_delete a m i).
Proof. unfold UA_Notification_delete, update_mon, free_notif; keeps_steps. Qed.

Lemma keeps_move_notifications a n size items l : keeps requests (move_notifications a n size items l).
Proof.
  revert n items; induction l as [|i l IH]; intros n items; cbn [move_notifications]; [destruct n; keeps_steps|].
  destruct n; keeps_steps; first [apply keeps_notification_delete|apply IH].
Qed.

Lemma keeps_make_message a n : keeps requests (make_message a n).
Proof.
  unfold make_message, prepareNotificationMessage; keeps_steps; apply keeps_move_notifications.
Qed.

Lemma keeps_send_publishResponse a pre n more data : keeps requests (send_publishResponse a pre n more data).
Proof. unfold send_publishResponse, UA_Subscription_addRetransmissionMessage, now; keeps_steps. Qed.

(** With the result [true] the requests are left, and [b] holds. *)
Definition again (b : Prop) (m : M bool) : Prop :=
  forall s s', m s = Some (true, s') -> b /\ requests s' = requests s.

Lemma again_bind {A} b (m : M A) k : keeps requests m -> (forall a, again b (k a)) -> again b (m ≫= k).
Proof.
  intros Hm Hk s s' (a & s1 & H1 & H2)%bind_inv; destruct (Hk _ _ _ H2) as [Hb Hr].
  split; [done|]; rewrite Hr; exact (Hm _ _ _ H1).
Qed.

Lemma again_not {A} b (m : M A) : again b (_ ← m; mret false).
Proof. by intros s s' (a & s1 & _ & [? _]%ret_inv)%bind_inv. Qed.

Lemma again_ret (b : Prop) x : b -> again b (mret x).
Proof. by intros Hb s s' [_ ->]%ret_inv. Qed.

(** Another round only after a request has been answered. *)
Lemma publish_once_again a s s' :
  publish_once a s = Some (true, s') -> (length (requests s') < length (requests s))%nat.
Proof.
  intros (pre & s1 & H1 & H)%bind_inv.
  assert (match pre with Some _ => (length (requests s1) < length (requests s))%nat | None => True end) as Hl.
  { unfold UA_Session_dequeuePublishReq in H1; apply bind_inv in H1 as (x & s0 & [-> ->]%gets_inv & H1).
    unfold requests; destruct (responseQueue (session s)) as [|q l] eqn:Hq; [by apply ret_inv in H1 as [-> _]|].
    apply bind_inv in H1 as ([] & s2 & ->%modify_inv & [-> ->]%ret_inv); cbn; lia. }
  match type of H with ?m s1 = _ => assert (again (is_Some pre) m) as Ha end.
  { unfold count_lifetime, be_late; apply again_bind; [keeps_steps|]; intros ended.
    apply again_bind; [keeps_steps|]; intros x; destruct ended; [apply again_not|].
    apply again_bind; [keeps_steps|]; intros ?; apply again_bind; [keeps_steps|]; intros x'.
    destruct (available x') as [n more]; apply again_bind; [keeps_steps|]; intros ?.
    destruct (_ && _); [apply again_not|]; apply again_bind; [keeps_steps|]; intros x2.
    destruct pre as [p|]; [|apply again_not]; destruct (negb _); [apply again_not|].
    apply again_bind; [apply keeps_make_message|]; intros [data|]; [|apply again_not].
    apply again_bind; [apply keeps_send_publishResponse|]; intros ?; apply again_ret; by eexists. }
  destruct (Ha _ _ H) as [[p ->] ->]; exact Hl.
Qed.

Lemma wp_publish_loop fuel a (Q : unit -> SubServer -> Prop) s :
  (length (requests s) < fuel)%nat -> inv None s -> is_Some (k_items (skel s) !! a) ->
  (forall s', inv None s' -> grows s s' -> Q tt s') -> wp (publish_loop fuel a) Q s.
Proof.
  revert s; induction fuel as [|fuel IH]; intros s Hf Hinv Ha HQ; [lia|]; cbn [publish_loop].
  pose proof (wp_publish_once a (fun r s' => inv None s' /\ grows s s') s Hinv Ha) as Hw.
  destruct (wp_defined _ _ _ (Hw (fun _ _ H1 H2 => conj H1 H2))) as (r & s1 & Hr & Hinv1 & H1).
  apply wp_bind; unfold wp at 1; rewrite Hr; destruct r; [|by apply wp_ret, HQ].
  apply publish_once_again in Hr; apply IH; [lia|done|by eapply alive_grows|].
  intros s2 Hinv2 H2; apply HQ; [done|by etrans].
Qed.

Lemma wp_publish a (Q : unit -> SubServer -> Prop) s :
  inv None s -> is_Some (k_items (skel s) !! a) ->
  (forall s', inv None s' -> grows s s' -> Q tt s') -> wp (UA_Subscription_publish a) Q s.
Proof.
  intros Hinv Ha HQ; apply wp_bind, wp_gets, wp_publish_loop; try done; unfold requests; lia.
Qed.

Lemma wp_publishCallback a (Q : unit -> SubServer -> Prop) s :
  inv None s -> is_Some (k_items (skel s) !! a) ->
  (forall s', inv None s' -> grows s s' -> Q tt s') -> wp (publishCallback a) Q s.
Proof.
  intros Hinv Ha HQ; apply wp_bind, wp_update_sub_same; [done|done|]; intros s1 H1.
  apply wp_publish; [by eapply inv_same|by eapply alive_same|].
  intros s2 Hinv2 H2; apply HQ; [done|]; etrans; [by apply same_subs_grow|done].
Qed.
End Publish.
