(* ===== verification/SubscriptionServicesSafe.v ===== *)
(** * The subscription services keep the invariant *)

From Stdlib Require Import ZArith Lia SpecFloat.
From stdpp Require Import base list numbers tactics sets gmap.
From S2P Require Import Prelude StateMonad UaTypes UaValue SubscriptionState Subscription SubscriptionServices SubscriptionInvariant SubscriptionLogic SubscriptionQueues SubscriptionSafe SubscriptionPublish.

Section ServicesSafe.
Context {TE : TypeEnv} {E : SubscriptionEnv}.
Hypothesis Hsane : sane.

(** ** Operations *)

Lemma wp_process_operations {A B} (P : SubServer -> Prop) (op : A -> M B) l
    (Q : list B -> SubServer -> Prop) s :
  (forall a s, P s -> wp (op a) (fun _ s' => P s') s) -> P s ->
  (forall bs s', P s' -> Q bs s') -> wp (process_operations op l) Q s.
Proof.
  intros Hop; revert s Q; induction l as [|a l IH]; intros s Q HP HQ; cbn; [by apply wp_ret, HQ|].
  eapply wp_seq; [by apply Hop|]; intros b s1 H1; apply wp_bind, IH; [done|].
  intros bs s2 H2; by apply wp_ret, HQ.
Qed.

(** A property of states that does not depend on what the steps of [same]
    change. *)
Definition stable (P : SubServer -> Prop) : Prop := forall s s', P s -> same s s' -> P s'.

Lemma wp_processServiceOperations {A B} (P : SubServer -> Prop) (op : A -> M B) l
    (Q : status * list B -> SubServer -> Prop) s :
  stable P -> (forall a s, P s -> wp (op a) (fun _ s' => P s') s) -> P s ->
  (forall r s', P s' -> Q r s') -> wp (UA_Server_processServiceOperations op l) Q s.
Proof.
  intros Hst Hop HP HQ; unfold UA_Server_processServiceOperations.
  destruct l as [|a l]; [by apply wp_ret, HQ|].
  apply wp_bind, wp_alloc; intros b s1 H1; destruct (negb b); [apply wp_ret, HQ; by eapply Hst|].
  eapply wp_bind, wp_process_operations; [exact Hop|by eapply Hst|]; intros bs s2 H2; by apply wp_ret, HQ.
Qed.

(** The invariant, and a subscription of the session. *)
Definition owns (a : nat) (s : SubServer) : Prop := inv None s /\ a ∈ k_subs (skel s).

Lemma inv_stable : stable (inv None).
Proof. intros s s' H; by apply inv_same. Qed.
Lemma owns_stable a : stable (owns a).
Proof. intros s s' [H Ha] Hs; split; [by eapply inv_same|]; by destruct Hs as (-> & _). Qed.

Lemma owns_alive a s : owns a s -> is_Some (k_items (skel s) !! a).
Proof. intros [[H _] Ha]; by apply (ok_alive _ _ _ H). Qed.

Lemma owns_quiet a s s' : owns a s -> inv None s' -> quiet s s' -> owns a s'.
Proof. intros [_ Ha] Hinv Hq; split; [done|]; by rewrite (quiet_subs _ _ Hq). Qed.

Lemma owns_scheduled a b s s' : owns a s -> inv None s' -> scheduled b s s' -> owns a s'.
Proof. intros [_ Ha] Hinv [o Hq]; split; [done|]; by rewrite (m_subs _ _ _ _ _ _ _ Hq). Qed.

Lemma wp_update_owned a f (Q : unit -> SubServer -> Prop) s :
  owns a s -> (forall x, sub_same x (f x)) -> (forall s', owns a s' -> same s s' -> Q tt s') ->
  wp (update_sub a f) Q s.
Proof.
  intros Ha Hf HQ; apply wp_update_sub_same; [by apply owns_alive|done|].
  intros s' Hs; apply HQ; [by eapply owns_stable|done].
Qed.

Lemma wp_deref_owned a (Q : UA_Subscription -> SubServer -> Prop) s :
  owns a s -> (forall x, h_subs s !! a = Some x -> Q x s) -> wp (deref_sub a) Q s.
Proof.
  intros Ha HQ; apply (wp_deref_alive_sub None); [apply Ha|by apply owns_alive|auto].
Qed.

Lemma wp_getOwned id (Q : option nat -> SubServer -> Prop) s :
  inv None s -> Q None s -> (forall a, owns a s -> Q (Some a) s) ->
  wp (UA_Session_getSubscriptionById id) Q s.
Proof.
  intros Hinv Hn HQ; apply (wp_getSubscriptionById None); [done|]; intros [a|] Ha; [by apply HQ|done].
Qed.

Lemma wp_reset_lifetime a (Q : unit -> SubServer -> Prop) s :
  owns a s -> (forall s', owns a s' -> Q tt s') -> wp (reset_lifetime a) Q s.
Proof. intros Ha HQ; eapply wp_update_owned; [done|done|auto]. Qed.

(** ** Subscriptions *)

Lemma wp_setSubscriptionSettings a r (Q : unit -> SubServer -> Prop) s :
  owns a s -> (forall s', owns a s' -> Q tt s') -> wp (setSubscriptionSettings a r) Q s.
Proof.
  intros Ha HQ; apply wp_bind; eapply wp_unregisterPublish; [exact Hsane|apply Ha|by apply owns_alive|].
  intros rv s1 Hinv1 H1 _; assert (owns a s1) as Ha1 by by eapply owns_scheduled.
  eapply wp_bind, wp_update_owned; [exact Ha1|done|]; intros s2 Ha2 _.
  apply wp_bind, (wp_registerPublish None); [apply Ha2|apply Ha2|].
  intros rv' s3 Hinv3 H3; apply wp_ret, HQ; by eapply owns_scheduled.
Qed.

Definition fresh_sub (id : Z) : UA_Subscription :=
  mkSubscription id 0 0 (S754_zero false) 0 false 0 UA_SUBSCRIPTIONSTATE_NORMAL
    0 0 0 0 false 0 [] 0 [] 0 0 0 0 0 [] 0.

(** A new subscription becomes one of the session. *)
Lemma wp_new_subscription {A} (none : M A) (next : nat -> M A) (Q : A -> SubServer -> Prop) s :
  inv None s -> (forall s', inv None s' -> wp none Q s') ->
  (forall a s', owns a s' -> wp (next a) Q s') ->
  wp (p ← UA_Subscription_new 0;
      match p with
      | None => none
      | Some a => _ ← UA_Session_addSubscription a; next a
      end) Q s.
Proof.
  intros Hinv Hn HS; apply wp_bind, wp_bind, wp_malloc_any; intros q w Hw Hq.
  assert (same s (with_world s w)) as Hs by by apply same_with_world.
  destruct q as [a|]; [|apply wp_ret, Hn; by eapply inv_same].
  destruct (Hq a eq_refl) as [-> Hu]; apply wp_bind, wp_modify, wp_ret.
  apply wp_bind, wp_bind, wp_gets; eapply wp_bind, wp_update_sub; [apply lookup_insert_eq|].
  apply wp_modify, HS.
  match goal with |- owns _ ?s2 => assert (skel s2 = k_set_subs (skel s) (<[used s := []]> (k_queue (skel s)))
    (<[used s := []]> (k_items (skel s))) (<[used s := None]> (k_pub (skel s))) (used s :: k_subs (skel s))
    (k_delayed (skel s))) as Hk end.
  { unfold skel, k_set_subs; cbn; by rewrite !insert_insert_eq, !fmap_insert. }
  destruct Hinv as [H (Hcs & Hcm & Hcn)]; split; [split|].
  - rewrite Hk; by apply (ok_new_subscription None _ _ H).
  - split; [|by split]; cbn; rewrite insert_insert_eq; apply map_Forall_insert_2; [|done].
    repeat split; intros [? _]; unfold zlen; cbn; lia.
  - rewrite Hk; apply list_elem_of_here.
Qed.

Lemma create_subscription_safe r s :
  inv None s -> wp (Service_CreateSubscription r) (fun _ s' => inv None s') s.
Proof.
  intros Hinv; apply wp_bind, wp_gets; destruct (_ && _); [by apply wp_ret|].
  apply wp_new_subscription; [done|intros s' ?; by apply wp_ret|]; intros a s1 H1.
  eapply wp_bind, wp_update_owned; [exact H1|done|]; intros s2 H2 _.
  apply wp_bind, wp_setSubscriptionSettings; [done|]; intros s3 H3.
  eapply wp_bind, wp_update_owned; [exact H3|done|]; intros s4 H4 _.
  apply wp_bind, wp_deref_owned; [done|]; intros x _; apply wp_ret, H4.
Qed.

Lemma modify_subscription_safe id r s :
  inv None s -> wp (Service_ModifySubscription id r) (fun _ s' => inv None s') s.
Proof.
  intros Hinv; apply wp_bind, wp_getOwned; [done|by apply wp_ret|]; intros a H1.
  apply wp_bind, wp_setSubscriptionSettings; [done|]; intros s2 H2.
  apply wp_bind, wp_reset_lifetime; [done|]; intros s3 H3.
  apply wp_bind, wp_deref_owned; [done|]; intros x _; apply wp_ret, H3.
Qed.

Lemma set_publishing_mode_safe enabled ids s :
  inv None s -> wp (Service_SetPublishingMode enabled ids) (fun _ s' => inv None s') s.
Proof.
  intros Hinv; apply (wp_processServiceOperations (inv None)); [exact inv_stable| |done|done].
  intros id s1 H1; apply wp_bind, wp_getOwned; [done|by apply wp_ret|]; intros a H2.
  apply wp_bind, wp_reset_lifetime; [done|]; intros s3 H3.
  eapply wp_bind, wp_update_owned; [exact H3|done|]; intros s4 H4 _; apply wp_ret, H4.
Qed.

Lemma wp_answer_requests fuel (Q : unit -> SubServer -> Prop) s :
  (length (requests s) < fuel)%nat -> (forall s', same s s' -> Q tt s') ->
  wp (answer_requests fuel) Q s.
Proof.
  revert s; induction fuel as [|fuel IH]; intros s Hf HQ; [lia|]; cbn [answer_requests].
  apply wp_bind, wp_dequeuePublishReq; intros [pre|] s1 H1 Hr; [|by apply wp_ret, HQ].
  apply wp_bind, wp_gets; unfold requests in Hf.
  pose proof (wp_keeps requests _ (fun _ s' => same s1 s') s1 (keeps_send (pre_requestId pre)
    (mkPublishResponse (pr_requestHandle (pre_response pre)) (clock (world s1)) BADNOSUBSCRIPTION
       (pr_subscriptionId (pre_response pre)) (pr_availableSequenceNumbers (pre_response pre))
       (pr_moreNotifications (pre_response pre)) (pr_notificationMessage (pre_response pre))
       (pr_results (pre_response pre))))) as Hw.
  eapply wp_seq; [apply Hw, wp_send; by intros|]; cbn; intros _ s2 [H2 Hr2].
  apply IH; [rewrite Hr2; rewrite Hr in Hf; cbn in Hf; unfold requests; lia|].
  intros s3 H3; apply HQ; etrans; [exact H1|by etrans].
Qed.

Lemma wp_answerNoSubscription (Q : unit -> SubServer -> Prop) s :
  (forall s', same s s' -> Q tt s') -> wp UA_Subscription_answerPublishRequestsNoSubscription Q s.
Proof.
  intros HQ; apply wp_bind, wp_gets; destruct (serverSubscriptions _); [|by apply wp_ret, HQ].
  apply wp_answer_requests; [unfold requests; lia|done].
Qed.

Lemma delete_subscriptions_safe ids s :
  inv None s -> wp (Service_DeleteSubscriptions ids) (fun _ s' => inv None s') s.
Proof.
  intros Hinv; apply wp_bind, (wp_processServiceOperations (inv None)); [exact inv_stable| |done|].
  - intros id s1 H1; eapply wp_deleteSubscription; [exact Hsane|done|by intros].
  - intros r s1 H1; apply wp_bind, wp_gets, wp_bind; destruct (serverSubscriptions _).
    + apply wp_answerNoSubscription; intros s2 H2; apply wp_ret; by eapply inv_same.
    + apply wp_ret; by apply wp_ret.
Qed.

(** ** The settings of an item *)

Lemma bounded_queue x : 1 <= bounded queueSizeLimits x.
Proof.
  destruct (sane_queues Hsane) as [H1 H2]; unfold bounded.
  destruct (Z.ltb_spec (snd queueSizeLimits) x); [done|]; destruct (Z.ltb_spec x (fst queueSizeLimits)); lia.
Qed.

Lemma settings_kind y0 y r type interval mode h i q o :
  sampling_settings y0 r = (type, interval) -> attributeId y = attributeId y0 ->
  kind (set_mi_params y mode h type i (bounded queueSizeLimits q) o) =
  (if decide (attributeId y = UA_ATTRIBUTEID_EVENTNOTIFIER) then Other else Sampled).
Proof.
  intros H Ha; revert H; unfold sampling_settings, kind; pose proof (bounded_queue q) as Hq; rewrite <- Ha.
  destruct (Z.eqb_spec (attributeId y) UA_ATTRIBUTEID_VALUE) as [Hv|Hv].
  - intros [= <- _]; cbn; rewrite Hv, !decide_True, decide_False by done; done.
  - destruct (Z.eqb_spec (attributeId y) UA_ATTRIBUTEID_EVENTNOTIFIER) as [He|He]; intros [= <- _]; cbn.
    + by rewrite decide_False, decide_True by done.
    + by rewrite !decide_True, decide_False by done.
Qed.

(** The parameters of an item are set. *)
Lemma wp_set_params p mon y y' (Q : unit -> SubServer -> Prop) f s :
  inv p s -> h_mons s !! mon = Some y -> f y = y' ->
  mi_subscription y' = mi_subscription y -> mi_queue y' = mi_queue y -> reg y' = reg y ->
  queueSize y' = queueSize y -> lastValue y' = lastValue y -> 0 <= maxQueueSize y' ->
  kind y' <> Fresh -> (kind y = Sampled -> kind y' = Sampled) ->
  (forall s', inv p s' -> quiet s s' -> h_mons s' !! mon = Some y' -> Q tt s') ->
  wp (update_mon mon f) Q s.
Proof.
  intros Hinv Hy <- H1 H2 H3 H4 H5 H6 Hk Hks HQ; eapply wp_update_mon; [exact Hy|].
  set (s' := with_mons s _); assert (counts s') as Hc.
  { destruct (counts_mon _ _ _ (proj2 Hinv) Hy) as (C1 & C2 & C3), Hinv as [_ (Hcs & Hcm & Hcn)].
    split; [done|]; split; [|done]; apply map_Forall_insert_2; [|done].
    unfold mon_counts; rewrite H4, H2, H5; done. }
  assert (h_mons s' !! mon = Some (f y)) as Hy' by apply lookup_insert_eq.
  destruct (decide (kind y = Sampled)) as [Hs|Hs].
  - assert (same s s') as Hss.
    { eapply same_with_mon; [exact Hy|]; split; [done|]; split; [done|]; split; [rewrite Hks; done|].
      split; [done|]; intros (C1 & C2 & C3); unfold mon_counts; rewrite H4, H2, H5; done. }
    apply HQ; [by eapply inv_same|by apply same_quiet|done].
  - assert (skel s' = k_set_mons (skel s) (k_items (skel s)) (k_of (skel s)) (k_mine (skel s))
      (<[mon := kind (f y)]> (k_kind (skel s))) (k_reg (skel s)) (k_local (skel s)) (k_delayed (skel s))) as Hsk.
    { unfold s', skel, k_set_mons; cbn; rewrite !fmap_insert; f_equal;
        (apply insert_id; rewrite lookup_fmap, Hy; cbn; congruence). }
    assert (k_kind (skel s) !! mon <> Some Sampled) as Hk' by (rewrite (mon_kind _ _ _ Hy); congruence).
    apply HQ; [split; [|done]|split; rewrite ?Hsk; try done|done].
    + rewrite Hsk; by apply (ok_set_kind p _ _ (proj1 Hinv)).
    + intros m Hm; cbn -[skel]; rewrite lookup_insert_ne; [done|congruence].
    + intros m Hm; cbn -[skel]; destruct (decide (mon = m)) as [<-|Hne].
      * rewrite lookup_insert_eq; congruence.
      * by rewrite lookup_insert_ne.
Qed.
(** An item that can be found by its identifier, or is being made. *)
Definition item (p : option nat) (mon : nat) (s : SubServer) : Prop :=
  inv p s /\ is_Some (k_of (skel s) !! mon) /\ FreeMonitoredItem mon ∉ k_delayed (skel s).

Lemma item_quiet p mon s s' : item p mon s -> inv p s' -> quiet s s' -> item p mon s'.
Proof.
  intros (_ & Hm & Hd) Hinv Hq; split; [done|]; by rewrite (quiet_of _ _ Hq), (quiet_delayed _ _ Hq).
Qed.

Lemma item_same p mon s s' : item p mon s -> same s s' -> item p mon s'.
Proof. intros H Hs; eapply item_quiet; [exact H|eapply inv_same; [apply H|done]|by apply same_quiet]. Qed.

Lemma wp_update_item p mon f (Q : unit -> SubServer -> Prop) s :
  item p mon s -> (forall y, mon_same y (f y)) -> (forall s', item p mon s' -> same s s' -> Q tt s') ->
  wp (update_mon mon f) Q s.
Proof.
  intros Hi Hf HQ; apply wp_update_mon_same; [apply Hi|done|]; intros s' Hs.
  apply HQ; [by eapply item_same|done].
Qed.

Lemma wp_setMonitoredItemSettings p mon mode par dt (Q : status -> SubServer -> Prop) s :
  item p mon s ->
  (forall r s', item p mon s' -> quiet s s' ->
     (bad r = false -> k_kind (skel s') !! mon <> Some Fresh) -> Q r s') ->
  wp (setMonitoredItemSettings mon mode par dt) Q s.
Proof.
  intros Hi HQ; apply wp_bind, (wp_deref_alive_mon p); [apply Hi|apply Hi|]; intros y Hy Hc.
  destruct (check_filter y _ dt) as [rv filter]; destruct (bad rv) eqn:Hrv.
  { apply wp_ret, HQ; [done|done|congruence]. }
  assert (exists y1 s1, (match filter with
        | Some f => update_mon mon (fun m => set_mi_filter m f)
        | None => mret tt
        end : M unit) s = Some (tt, s1) /\ same s s1 /\ h_mons s1 !! mon = Some y1 /\
        attributeId y1 = attributeId y) as (y1 & s1 & He & Hs1 & Hy1 & Ha1).
  { destruct filter as [f|]; [|by exists y, s].
    exists (set_mi_filter y f), (with_mons s (<[mon := set_mi_filter y f]> (h_mons s))).
    split; [unfold update_mon, deref_mon, mbind, M_bind, gets; by rewrite Hy|].
    split; [by eapply same_with_mon|]; split; [apply lookup_insert_eq|done]. }
  apply wp_bind; unfold wp at 1; rewrite He; pose proof (item_same _ _ _ _ Hi Hs1) as Hi1.
  apply wp_bind; eapply wp_unregisterSample; [exact Hsane|apply Hi1|apply Hi1|].
  intros r s2 y2 Hinv2 Hq2 _ Hy2 Hm2 _ _; assert (y2 = y1) as -> by congruence.
  assert (h_mons s2 !! mon = Some (set_mi_callback y1 (sampleCallbackId y1) false)) as Hy3
    by (rewrite Hm2; apply lookup_insert_eq).
  destruct (sampling_settings y (mp_samplingInterval par)) as [type interval] eqn:Hset.
  set (y3 := set_mi_callback y1 (sampleCallbackId y1) false) in *.
  assert (forall i q o h, kind (set_mi_params y3 mode h type i (bounded queueSizeLimits q) o) =
    (if decide (attributeId y3 = UA_ATTRIBUTEID_EVENTNOTIFIER) then Other else Sampled)) as Hkind.
  { intros; by eapply settings_kind. }
  eapply wp_bind, wp_set_params; [exact Hinv2|exact Hy3|reflexivity|done..| | | |].
  - pose proof (bounded_queue (mp_queueSize par)); cbn; lia.
  - rewrite Hkind; by case_decide.
  - rewrite Hkind; intros (_ & ? & _)%kind_sampled; by rewrite decide_False.
  - intros s3 Hinv3 Hq3 Hy3'; assert (quiet s s3) as Hq by (etrans; [by apply same_quiet|by etrans]).
    assert (k_kind (skel s3) !! mon <> Some Fresh) as Hk.
    { rewrite (mon_kind _ _ _ Hy3'), Hkind; by case_decide. }
    pose proof (item_quiet _ _ _ _ Hi Hinv3 Hq) as Hi3; destruct (mode =? _).
    + apply wp_bind, wp_bind, (wp_registerSample p); [done|apply Hi3|done|apply Hi3|].
      intros rr s4 Hinv4 Hq4; apply wp_ret, wp_ret, HQ; [by eapply item_quiet|by etrans|].
      intros _; by apply (quiet_settled _ _ Hq4).
    + apply wp_bind, wp_ret, wp_ret, HQ; done.
Qed.
(** ** Creating an item *)

Lemma wp_sample_item mon (Q : unit -> SubServer -> Prop) s :
  item None mon s -> k_kind (skel s) !! mon <> Some Fresh ->
  (forall s', inv None s' -> quiet s s' -> Q tt s') -> wp (UA_MonitoredItem_sampleCallback mon) Q s.
Proof.
  intros (Hinv & Hm & Hd) Hk HQ; destruct (k_kind (skel s) !! mon) as [[| |]|] eqn:Hkm; try done.
  - eapply wp_sampleCallback; [exact Hsane|exact Hinv| |done]; split; [done|]; split; [done|]; done.
  - apply wp_bind, (wp_deref_alive_mon None); [done|done|]; intros y Hy _.
    rewrite (mon_kind _ _ _ Hy) in Hkm; injection Hkm as Hky; unfold kind in Hky.
    destruct (decide _); [by case_decide|by apply wp_ret, HQ].
  - destruct (alive_mon _ _ Hm) as [y Hy]; rewrite (mon_kind _ _ _ Hy) in Hkm; done.
Qed.

(** The address of a new item. *)
Lemma wp_new_item sub r ts mon w (Q : unit -> SubServer -> Prop) s :
  inv None s -> match sub with Some a => is_Some (k_items (skel s) !! a) | None => True end ->
  (used s <= allocs w)%nat -> mon = used s -> (mon < allocs w)%nat ->
  (forall s', item (Some mon) mon s' -> k_of (skel s') !! mon = Some sub ->
     k_items (skel s') = k_items (skel s) -> k_subs (skel s') = k_subs (skel s) -> Q tt s') ->
  wp (new_mon mon (new_item sub r ts)) Q (with_world s w).
Proof.
  intros Hinv Ha Hw Hmon Hlt HQ; apply wp_modify; subst mon.
  match goal with |- Q tt ?s2 => assert (skel s2 = k_set_mons (skel s) (k_items (skel s))
    (<[used s := sub]> (k_of (skel s))) (<[used s := []]> (k_mine (skel s))) (<[used s := Fresh]> (k_kind (skel s)))
    (<[used s := None]> (k_reg (skel s))) (k_local (skel s)) (k_delayed (skel s))) as Hk end.
  { unfold skel, k_set_mons; cbn; rewrite !fmap_insert; do 2 f_equal.
    unfold kind; cbn; rewrite decide_True by done; case_decide as H; [|done]; destruct H; lia. }
  destruct Hinv as [H Hc]; assert (match sub with Some a => is_Some (k_queue (skel s) !! a) | None => True end) as Hq.
  { destruct sub as [a|]; [|done]; destruct (alive_sub _ _ Ha) as [x Hx].
    rewrite (sub_queue _ _ _ Hx); by eexists. }
  pose proof (ok_new_item None _ _ H (used s) sub (allocs w) eq_refl (le_n _) Hlt Hq) as H'.
  rewrite <- Hk in H'; apply HQ; rewrite ?Hk; [split; [split; [exact H'|]|]| |done|done].
  - destruct Hc as (Hcs & Hcm & Hcn); split; [done|]; split; [|done].
    apply map_Forall_insert_2; [|done]; split; [done|split; [done|by left]].
  - by apply (ok_pending _ _ _ H').
  - cbn; by rewrite lookup_insert_eq.
Qed.

Lemma skel_with_local s l id :
  skel (with_local s l id) = k_set_mons (skel s) (k_items (skel s)) (k_of (skel s)) (k_mine (skel s))
    (k_kind (skel s)) (k_reg (skel s)) l (k_delayed (skel s)).
Proof. done. Qed.

(** The item is listed. *)
Lemma wp_add_item sub mon (Q : unit -> SubServer -> Prop) s :
  item (Some mon) mon s -> k_of (skel s) !! mon = Some sub ->
  match sub with Some a => a ∈ k_subs (skel s) | None => True end ->
  k_kind (skel s) !! mon <> Some Fresh ->
  (forall s', item None mon s' -> k_kind (skel s') !! mon <> Some Fresh ->
     k_subs (skel s') = k_subs (skel s) -> Q tt s') ->
  wp (add_item sub mon) Q s.
Proof.
  intros Hi Hof Ha Hk HQ; destruct sub as [a|]; unfold add_item.
  - assert (is_Some (k_items (skel s) !! a)) as Hal by by apply (ok_alive _ _ _ (proj1 (proj1 Hi))).
    apply wp_bind, (wp_deref_alive_sub (Some mon)); [apply Hi|done|]; intros x _ _.
    apply wp_bind, wp_update_sub_same; [done|done|]; intros s1 H1.
    eapply wp_bind, wp_update_item; [by eapply item_same|done|]; intros s2 Hi2 H2.
    assert (same s s2) as (Hs & _) by by etrans.
    rewrite <- Hs in *; destruct (alive_sub _ _ Hal) as [x2 Hx2].
    eapply wp_update_sub; [exact Hx2|].
    pose proof (skel_with_items s2 a x2 (mon :: monitoredItems x2) (lastMonitoredItemId x2)
      (u32 (monitoredItemsSize x2 + 1)) Hx2) as Hsk.
    apply HQ; rewrite ?Hsk; [|done|done].
    destruct Hi2 as ([H2' Hc2] & Hm2 & Hd2); split; [split|rewrite Hsk; done].
    + rewrite Hsk; by apply (ok_list_item (Some mon) _ _ H2' mon a _ eq_refl Hof (sub_items _ _ _ Hx2)).
    + by apply counts_with_items.
  - apply wp_bind, wp_gets; eapply wp_bind, wp_update_item; [exact Hi|done|]; intros s2 Hi2 (Hs & _).
    apply wp_modify; rewrite <- Hs in *; apply HQ; [|done|done].
    destruct Hi2 as ([H2' Hc2] & Hm2 & Hd2); split; [split|done]; [|exact Hc2].
    change (used (with_local s2 (mon :: localMonitoredItems s2) (u32 (lastLocalMonitoredItemId s + 1)))) with (used s2).
    rewrite skel_with_local; by apply (ok_list_local (Some mon) _ _ H2').
Qed.

Lemma wp_createMonitoredItem sub ts r (Q : UA_MonitoredItemCreateResult -> SubServer -> Prop) s :
  match sub with Some a => owns a s | None => inv None s end ->
  (forall x s', inv None s' -> k_subs (skel s') = k_subs (skel s) -> Q x s') ->
  wp (Operation_CreateMonitoredItem sub ts r) Q s.
Proof.
  intros Hs HQ; assert (inv None s) as Hinv by (destruct sub; [apply Hs|done]).
  assert (forall s1, same s s1 -> forall x, wp (mret x : M _) Q s1) as Hret.
  { intros s1 H1 x; apply wp_ret, HQ; [by eapply inv_same|]; by destruct H1 as (-> & _). }
  apply wp_bind; eapply wp_mono with (P := fun _ s1 => s1 = s).
  { destruct sub as [a|]; [|by apply wp_ret]; apply wp_bind, wp_deref_owned; [done|]; intros x _; by apply wp_ret. }
  intros full s0 ->; destruct full; [by apply Hret|].
  apply wp_bind, wp_read; intros n s1 H1; cbn zeta.
  match goal with |- context [bad ?b] => destruct (bad b) end; [by apply Hret|].
  apply wp_bind, wp_malloc_any; intros q w Hw Hq; assert (same s1 (with_world s1 w)) as H1w by by apply same_with_world.
  destruct q as [mon|]; [|apply Hret; by etrans]; destruct (Hq mon eq_refl) as [Hmon Hlt].
  eapply wp_bind, wp_new_item; [by eapply inv_same| |exact Hw|done|done|].
  { destruct sub as [a|]; [|done]; destruct H1 as (-> & _); by apply owns_alive. }
  intros s2 Hi2 Hof2 _ Hsubs2; apply wp_bind, wp_alloc; intros ok s3 H3.
  eapply wp_bind, wp_update_item; [by eapply item_same| |].
  { intros y; destruct ok; done. }
  intros s4 Hi4 H4; eapply wp_bind, wp_setMonitoredItemSettings; [exact Hi4|].
  intros rv s5 Hi5 Hq5 Hk5; assert (quiet s2 s5) as Hq25.
  { etrans; [|exact Hq5]; apply same_quiet; by etrans. }
  assert (k_subs (skel s5) = k_subs (skel s)) as Hsubs5.
  { rewrite (quiet_subs _ _ Hq25), Hsubs2; by destruct H1 as (-> & _). }
  match goal with |- context [bad (Z.lor ?b rv)] => destruct (bad (Z.lor b rv)) eqn:Hbad end.
  { eapply wp_bind, wp_item_delete; [exact Hsane|apply Hi5|]; intros s6 Hinv6 H6.
    apply wp_ret, HQ; [done|]; by rewrite (m_subs _ _ _ _ _ _ _ H6). }
  assert (bad rv = false) as Hrv.
  { revert Hbad; unfold bad; rewrite !negb_false_iff, !Z.eqb_eq; by intros [_ ?]%Z.lor_eq_0_iff. }
  apply wp_bind, wp_add_item; [done|by rewrite (quiet_of _ _ Hq25)| |auto|].
  { destruct sub as [a|]; [|done]; rewrite Hsubs5; apply Hs. }
  intros s6 Hi6 Hk6 Hsubs6; apply wp_bind.
  eapply wp_mono with (P := fun _ s7 => inv None s7 /\ quiet s6 s7).
  { destruct (_ =? _); [by apply wp_sample_item|by apply wp_ret; split; [apply Hi6|]]. }
  intros [] s7 [Hinv7 Hq7]; apply wp_bind, (wp_deref_alive_mon None); [done|rewrite (quiet_of _ _ Hq7); apply Hi6|].
  intros y _ _; apply wp_ret, HQ; [done|]; by rewrite (quiet_subs _ _ Hq7), Hsubs6.
Qed.

Lemma create_items_safe id ts items s :
  inv None s -> wp (Service_CreateMonitoredItems id ts items) (fun _ s' => inv None s') s.
Proof.
  intros Hinv; unfold Service_CreateMonitoredItems; destruct (too_many items); [by apply wp_ret|].
  destruct (_ <? ts); [by apply wp_ret|].
  apply wp_bind, wp_getOwned; [done|by apply wp_ret|]; intros a Ha.
  apply wp_bind, wp_reset_lifetime; [done|]; intros s1 H1.
  apply (wp_processServiceOperations (owns a)); [apply owns_stable| |done|by intros ? ? [? _]].
  intros r s2 H2; apply wp_createMonitoredItem; [done|]; intros x s3 Hinv3 Hsubs; split; [done|].
  rewrite Hsubs; apply H2.
Qed.
(** ** The other services on items *)

Lemma wp_find_item id l (Q : option nat -> SubServer -> Prop) s :
  inv None s -> (forall m, m ∈ l -> is_Some (k_of (skel s) !! m)) ->
  (forall r, match r with Some m => m ∈ l | None => True end -> Q r s) ->
  wp (find_item id l) Q s.
Proof.
  intros Hinv Hl HQ; induction l as [|m l IH]; cbn [find_item]; [by apply wp_ret, HQ|].
  apply wp_bind, (wp_deref_alive_mon None); [done|apply Hl, list_elem_of_here|]; intros y _ _.
  destruct (_ =? _); [apply wp_ret, HQ, list_elem_of_here|].
  apply IH; [intros b Hb; by apply Hl, list_elem_of_further|].
  intros [b|] Hb; [by apply HQ, list_elem_of_further|by apply HQ].
Qed.

(** An item of a subscription. *)
Definition item_of (a mon : nat) (s : SubServer) : Prop :=
  item None mon s /\ k_of (skel s) !! mon = Some (Some a) /\ k_kind (skel s) !! mon <> Some Fresh.

Lemma listed_item a x mon s :
  owns a s -> h_subs s !! a = Some x -> mon ∈ monitoredItems x -> item_of a mon s.
Proof.
  intros [Hinv Ha] Hx Hm; destruct (ok_items _ _ _ (proj1 Hinv) a _ (sub_items _ _ _ Hx)) as [_ Hin].
  destruct (Hin mon Hm) as (Hof & Hd & _); split; [split; [done|split; [by eexists|done]]|]; split; [done|].
  intros Hk; by destruct (ok_kind _ _ _ (proj1 Hinv) mon Hk).
Qed.

Lemma wp_getItem a id (Q : option nat -> SubServer -> Prop) s :
  owns a s -> Q None s -> (forall mon, item_of a mon s -> Q (Some mon) s) ->
  wp (UA_Subscription_getMonitoredItem a id) Q s.
Proof.
  intros Ha Hn HQ; apply wp_bind, wp_deref_owned; [done|]; intros x Hx.
  apply wp_find_item; [apply Ha| |].
  - intros m Hm; by destruct (listed_item a x m s Ha Hx Hm) as ((_ & ? & _) & _).
  - intros [m|] Hm; [|done]; by apply HQ, (listed_item a x).
Qed.

Lemma wp_modifyItem a r (Q : status * double * Z -> SubServer -> Prop) s :
  owns a s -> (forall x s', owns a s' -> Q x s') -> wp (Operation_ModifyMonitoredItem a r) Q s.
Proof.
  intros Ha HQ; destruct r as [id par]; apply wp_bind, wp_getItem; [done|by apply wp_ret, HQ|].
  intros mon (Hi & Hof & Hk); apply wp_bind, (wp_deref_alive_mon None); [apply Hi|apply Hi|]; intros y _ _.
  eapply wp_bind, wp_setMonitoredItemSettings; [exact Hi|]; intros rv s1 Hi1 Hq1 _.
  assert (owns a s1) as Ha1 by (eapply owns_quiet; [exact Ha|apply Hi1|done]).
  destruct (bad rv); [by apply wp_ret, HQ|].
  apply wp_bind, (wp_deref_alive_mon None); [apply Hi1|apply Hi1|]; intros y1 Hy1 _.
  eapply wp_bind, wp_ensureQueueSpace; [apply Hi1|exact Hy1|by intros; apply wp_ret, HQ|].
  intros s2 sub x q i _ _ _ Hinv2 Hq2 _ _ _ _; apply wp_ret, HQ; by eapply owns_quiet.
Qed.

Lemma modify_items_safe id ts items s :
  inv None s -> wp (Service_ModifyMonitoredItems id ts items) (fun _ s' => inv None s') s.
Proof.
  intros Hinv; unfold Service_ModifyMonitoredItems; destruct (too_many items); [by apply wp_ret|].
  destruct (_ <? ts); [by apply wp_ret|].
  apply wp_bind, wp_getOwned; [done|by apply wp_ret|]; intros a Ha.
  apply wp_bind, wp_reset_lifetime; [done|]; intros s1 H1.
  apply (wp_processServiceOperations (owns a)); [apply owns_stable| |done|by intros ? ? [? _]].
  intros r s2 H2; by apply wp_modifyItem.
Qed.

Lemma wp_setMode a mode id (Q : status -> SubServer -> Prop) s :
  owns a s -> (forall x s', owns a s' -> Q x s') -> wp (Operation_SetMonitoringMode a mode id) Q s.
Proof.
  intros Ha HQ; apply wp_bind, wp_getItem; [done|by apply wp_ret, HQ|]; intros mon (Hi & Hof & Hk).
  apply wp_bind, (wp_deref_alive_mon None); [apply Hi|apply Hi|]; intros y Hy _.
  destruct (decide _); [by apply wp_ret, HQ|]; destruct (_ <? mode); [by apply wp_ret, HQ|].
  destruct (monitoringMode y =? mode); [by apply wp_ret, HQ|].
  eapply wp_bind, wp_update_mon; [exact Hy|]; set (s1 := with_mons s _).
  assert (same s s1) as H1 by by eapply same_with_mon.
  pose proof (item_same _ _ _ _ Hi H1) as Hi1.
  assert (owns a s1) as Ha1 by by eapply owns_stable.
  assert (forall s2, owns a s2 -> forall x, wp (mret x : M status) Q s2) as Hret by (intros; by apply wp_ret, HQ).
  destruct (mode =? _).
  - apply wp_bind, (wp_registerSample None); [apply Hi1|apply Hi1|by destruct H1 as (-> & _)|apply Hi1|].
    intros r s2 Hinv2 Hq2; apply Hret; by eapply owns_quiet.
  - apply wp_bind; eapply wp_unregisterSample; [exact Hsane|apply Hi1|apply Hi1|].
    intros r s2 y1 Hinv2 Hq2 _ Hy1 Hm2 _ _; pose proof (owns_quiet _ _ _ Ha1 Hinv2 Hq2) as Ha2.
    assert (y1 = set_mi_mode y mode) as -> by (cbn in Hy1; rewrite lookup_insert_eq in Hy1; by injection Hy1).
    rewrite (mon_of _ _ _ Hy) in Hof; injection Hof as Hof.
    destruct (alive_sub _ _ (owns_alive _ _ Ha2)) as [x Hx].
    eapply wp_bind, (wp_delete_notifications None); [done| | | |exact Hx|].
    + rewrite Hm2; apply lookup_insert_eq.
    + done.
    + done.
    + intros s3 Hinv3 Hq3 _; assert (quiet s1 s3) as Hq13 by by etrans.
      pose proof (item_quiet _ _ _ _ Hi1 Hinv3 Hq13) as Hi3.
      eapply wp_bind, wp_update_item; [exact Hi3| |].
      { intros y'; repeat split; [apply H|apply H|by left]. }
      intros s4 Hi4 H4; apply Hret; eapply owns_stable; [|exact H4]; by eapply owns_quiet.
Qed.

Lemma set_monitoring_mode_safe id mode items s :
  inv None s -> wp (Service_SetMonitoringMode id mode items) (fun _ s' => inv None s') s.
Proof.
  intros Hinv; unfold Service_SetMonitoringMode; destruct (too_many items); [by apply wp_ret|].
  apply wp_bind, wp_getOwned; [done|by apply wp_ret|]; intros a Ha.
  apply wp_bind, wp_reset_lifetime; [done|]; intros s1 H1.
  apply (wp_processServiceOperations (owns a)); [apply owns_stable| |done|by intros ? ? [? _]].
  intros r s2 H2; by apply wp_setMode.
Qed.

Lemma wp_deleteItem a id (Q : status -> SubServer -> Prop) s :
  owns a s -> (forall x s', owns a s' -> Q x s') -> wp (Operation_DeleteMonitoredItem a id) Q s.
Proof.
  intros Ha HQ; apply wp_bind, wp_deref_owned; [done|]; intros x Hx.
  apply wp_bind, wp_find_item; [apply Ha| |].
  { intros m Hm; by destruct (listed_item a x m s Ha Hx Hm) as ((_ & ? & _) & _). }
  intros [mon|] Hm; [|by apply wp_ret, HQ].
  apply wp_bind, wp_list_remove; [done|]; eapply wp_bind, wp_update_sub; [exact Hx|].
  destruct (unlist_item s a x mon (lastMonitoredItemId x) (u32 (monitoredItemsSize x - 1)) (proj1 Ha) Hx Hm)
    as (Hinv1 & Hof & H1).
  eapply wp_bind, wp_item_delete; [exact Hsane|exact Hinv1|]; intros s2 Hinv2 H2.
  apply wp_ret, HQ; split; [done|]; rewrite (m_subs _ _ _ _ _ _ _ H2), (m_subs _ _ _ _ _ _ _ H1); apply Ha.
Qed.

Lemma delete_items_safe id items s :
  inv None s -> wp (Service_DeleteMonitoredItems id items) (fun _ s' => inv None s') s.
Proof.
  intros Hinv; unfold Service_DeleteMonitoredItems; destruct (too_many items); [by apply wp_ret|].
  apply wp_bind, wp_getOwned; [done|by apply wp_ret|]; intros a Ha.
  apply wp_bind, wp_reset_lifetime; [done|]; intros s1 H1.
  apply (wp_processServiceOperations (owns a)); [apply owns_stable| |done|by intros ? ? [? _]].
  intros r s2 H2; by apply wp_deleteItem.
Qed.

Lemma delete_local_safe id s :
  inv None s -> wp (UA_Server_deleteMonitoredItem id) (fun _ s' => inv None s') s.
Proof.
  intros Hinv; apply wp_bind, wp_gets, wp_bind, wp_find_item; [done| |].
  { intros m Hm; destruct (ok_locals _ _ _ (proj1 Hinv) m Hm) as (-> & _); by eexists. }
  intros [mon|] Hm; [|by apply wp_ret]; apply wp_bind, wp_list_remove; [done|].
  apply wp_bind, wp_modify; eapply wp_bind, wp_item_delete; [exact Hsane| |intros s2 Hinv2 _; by apply wp_ret].
  destruct Hinv as [H Hc]; split; [|exact Hc]; rewrite skel_with_local.
  by apply (ok_unlist_local None _ _ H mon).
Qed.

(** ** Publish requests *)

Lemma wp_sendError h i e (Q : unit -> SubServer -> Prop) s :
  (forall s', same s s' -> Q tt s') -> wp (subscriptionSendError h i e) Q s.
Proof. intros HQ; apply wp_bind, wp_gets, wp_send; done. Qed.

Lemma zlen_remove_message seq l m :
  find_message seq l = Some m -> zlen (remove_message seq l) = zlen l - 1.
Proof.
  unfold find_message; induction l as [|e l IH]; cbn [List.find remove_message]; [done|].
  destruct (_ =? _); rewrite !zlen_cons; [lia|]; intros H; rewrite IH by done; lia.
Qed.

Lemma wp_removeRetransmission a seq (Q : status -> SubServer -> Prop) s :
  owns a s -> (forall r s', same s s' -> Q r s') ->
  wp (UA_Subscription_removeRetransmissionMessage a seq) Q s.
Proof.
  intros Ha HQ; apply wp_bind, wp_deref_owned; [done|]; intros x Hx.
  destruct (find_message seq (retransmissionQueue x)) as [m|] eqn:Hm; [|by apply wp_ret, HQ].
  eapply wp_bind, wp_update_sub; [exact Hx|]; apply wp_ret, HQ; eapply same_with_sub; [exact Hx|].
  split; [done|split; [done|split; [done|]]]; intros (C1 & C2 & C3 & C4); do 2 (split; [done|]); cbn.
  rewrite C3, u32_pred, (zlen_remove_message _ _ _ Hm); split; [done|]; intros ?; specialize (C4 H); lia.
Qed.

Lemma wp_acknowledge l (Q : list status -> SubServer -> Prop) s :
  inv None s -> (forall r s', inv None s' -> same s s' -> Q r s') -> wp (acknowledge l) Q s.
Proof.
  revert s Q; induction l as [|[id seq] l IH]; intros s Q Hinv HQ; cbn [acknowledge]; [by apply wp_ret, HQ|].
  assert (forall r s1, same s s1 -> wp (rs ← acknowledge l; mret (r :: rs)) Q s1) as Hrest.
  { intros r s1 H1; apply wp_bind, IH; [by eapply inv_same|]; intros rs s2 Hinv2 H2.
    apply wp_ret, HQ; [done|by etrans]. }
  apply wp_bind, wp_getOwned; [done|apply wp_bind, wp_ret; by apply Hrest|].
  intros a Ha; apply wp_bind, wp_removeRetransmission; [done|]; intros r s1 H1; by apply Hrest.
Qed.

Lemma wp_behind id l (Q : list nat -> SubServer -> Prop) s :
  inv None s -> (forall a, a ∈ l -> is_Some (k_items (skel s) !! a)) ->
  (forall r, r ⊆ l -> Q r s) -> wp (behind_lastSeen id l) Q s.
Proof.
  intros Hinv Hl HQ; induction l as [|a l IH]; cbn [behind_lastSeen]; [by apply wp_ret, HQ|].
  apply wp_bind, (wp_deref_alive_sub None); [done|apply Hl, list_elem_of_here|]; intros x _ _.
  destruct (_ =? _); [apply wp_ret, HQ; set_solver|].
  apply IH; [intros b Hb; by apply Hl, list_elem_of_further|]; intros r Hr; apply HQ; set_solver.
Qed.

Lemma wp_find_late l (Q : option nat -> SubServer -> Prop) s :
  inv None s -> (forall a, a ∈ l -> is_Some (k_items (skel s) !! a)) ->
  (forall r, match r with Some a => a ∈ l | None => True end -> Q r s) -> wp (find_late l) Q s.
Proof.
  intros Hinv Hl HQ; induction l as [|a l IH]; cbn [find_late]; [by apply wp_ret, HQ|].
  apply wp_bind, (wp_deref_alive_sub None); [done|apply Hl, list_elem_of_here|]; intros x _ _.
  destruct (decide _); [apply wp_ret, HQ, list_elem_of_here|].
  apply IH; [intros b Hb; by apply Hl, list_elem_of_further|].
  intros [b|] Hb; [by apply HQ, list_elem_of_further|by apply HQ].
Qed.

Lemma wp_publish_late (Q : unit -> SubServer -> Prop) s :
  inv None s -> (forall s', inv None s' -> Q tt s') -> wp publish_late Q s.
Proof.
  intros Hinv HQ; apply wp_bind, wp_gets; set (all := serverSubscriptions (session s)).
  assert (forall a, a ∈ all -> is_Some (k_items (skel s) !! a)) as Hall.
  { intros a Ha; by apply (ok_alive _ _ _ (proj1 Hinv)). }
  apply wp_bind; eapply wp_mono with (P := fun l s' => s' = s /\ l ⊆ all).
  { destruct (_ <? _); [apply wp_behind; auto|apply wp_ret; set_solver]. }
  intros l s' [-> Hl]; set (found := match l with [] => false | _ => true end).
  apply wp_bind, wp_find_late; [done|destruct found; auto|]; intros late Hlate.
  apply wp_bind; eapply wp_mono with (P := fun r s' => s' = s /\ match r with Some a => a ∈ all | None => True end).
  { destruct late as [a|]; [apply wp_ret; split; [done|destruct found; auto]|].
    destruct found; [apply wp_find_late; auto|by apply wp_ret]. }
  intros [a|] s' [-> Ha].
  - apply wp_bind, (wp_deref_alive_sub None); [done|auto|]; intros x _ _.
    apply wp_bind, wp_modify; eapply wp_publish; [exact Hsane| |auto|auto].
    eapply inv_same; [exact Hinv|]; by apply same_with_session.
  - apply wp_modify, HQ; eapply inv_same; [exact Hinv|]; by apply same_with_session.
Qed.

Lemma publish_request_safe r i s : inv None s -> wp (Service_Publish r i) (fun _ s' => inv None s') s.
Proof.
  intros Hinv; apply wp_bind, wp_gets.
  assert (forall s1, same s s1 -> forall h j e, wp (subscriptionSendError h j e) (fun _ s' => inv None s') s1) as Herr.
  { intros s1 H1 h j e; apply wp_sendError; intros s2 H2; eapply inv_same; [exact Hinv|by etrans]. }
  destruct (serverSubscriptions _); [by apply Herr|].
  apply wp_bind; eapply wp_mono with (P := fun _ s1 => same s s1).
  { destruct (_ && _); [|by apply wp_ret]; apply wp_bind, wp_dequeuePublishReq; intros [pre|] s1 H1 _; [|by apply wp_ret].
    apply wp_bind, wp_gets, wp_bind, wp_send; intros s2 H2; apply wp_ret; by etrans. }
  intros room s1 H1; destruct room; cbn [negb]; [|by apply Herr].
  apply wp_bind, wp_alloc; intros ok s2 H2; assert (same s s2) as H12 by by etrans.
  destruct ok; cbn [negb]; [|by apply Herr].
  apply wp_bind; eapply wp_mono with (P := fun _ s3 => same s s3).
  { destruct (pq_acknowledgements r); [by apply wp_ret|apply wp_alloc; intros; by etrans]. }
  intros ok s3 H3; destruct ok; cbn [negb]; [|by apply Herr].
  apply wp_bind, wp_acknowledge; [by eapply inv_same|]; intros rs s4 Hinv4 H4.
  apply wp_bind, wp_queuePublishReq; intros s5 H5 _; apply wp_publish_late; [by eapply inv_same|done].
Qed.

Lemma republish_safe id seq s : inv None s -> wp (Service_Republish id seq) (fun _ s' => inv None s') s.
Proof.
  intros Hinv; apply wp_bind, wp_getOwned; [done|by apply wp_ret|]; intros a Ha.
  apply wp_bind, wp_reset_lifetime; [done|]; intros s1 H1.
  apply wp_bind, wp_deref_owned; [done|]; intros x _.
  destruct (find_message _ _); [|apply wp_ret, H1].
  apply wp_bind, wp_alloc; intros ok s2 H2; apply wp_ret; eapply inv_same; [apply H1|done].
Qed.
End ServicesSafe.

(** ** Every sequence of calls is executed

    [subscriptions_safe]: from a new session on, no sequence of service calls,
    runs of the timer and delayed callbacks follows a dangling pointer, and
    the invariant holds afterwards. *)

Section RunSafe.
Context {TE : TypeEnv} {E : SubscriptionEnv}.
Hypothesis Hsane : sane.

(** ** The end of the session *)

Lemma wp_delete_subscriptions l (Q : unit -> SubServer -> Prop) s :
  inv None s -> (forall a, a ∈ l -> is_Some (k_items (skel s) !! a)) ->
  (forall s', inv None s' -> Q tt s') -> wp (delete_subscriptions l) Q s.
Proof.
  revert s; induction l as [|a l IH]; intros s Hinv Hl HQ; cbn [delete_subscriptions]; [by apply wp_ret, HQ|].
  apply wp_bind, (wp_deref_alive_sub None); [done|apply Hl, list_elem_of_here|]; intros x _ _.
  apply wp_bind; eapply wp_deleteSubscription; [exact Hsane|exact Hinv|]; intros r s1 Hinv1 H1.
  apply IH; [done| |done]; intros b Hb; apply (g_alive _ _ H1), Hl; by apply list_elem_of_further.
Qed.

Lemma wp_set_channel b s (Q : unit -> SubServer -> Prop) :
  inv None s -> (forall s', inv None s' -> Q tt s') -> wp (set_channel b) Q s.
Proof.
  intros Hinv HQ; apply wp_modify, HQ; eapply inv_same; [exact Hinv|]; by apply same_with_session.
Qed.

Lemma close_session_safe s : inv None s -> wp UA_Session_deleteMembersCleanup (fun _ s' => inv None s') s.
Proof.
  intros Hinv; apply wp_bind, (wp_set_channel false s); [done|]; clear s Hinv; intros s Hinv.
  apply wp_bind, wp_gets, wp_bind, wp_delete_subscriptions; [done| |].
  { intros a Ha; by apply (ok_alive _ _ _ (proj1 Hinv)). }
  intros s1 Hinv1; apply wp_modify; eapply inv_same; [exact Hinv1|].
  apply same_with_session; [done|]; cbn; intros ->; unfold u32; rewrite Zminus_mod_idemp_l, Z.sub_diag; done.
Qed.

(** ** The timer *)

(** What a callback needs. *)
Definition callable (s : SubServer) (c : Callback) : Prop :=
  match c with
  | PublishCallback a => is_Some (k_items (skel s) !! a)
  | SampleCallback m => deliverable s m
  end.

Lemma callable_grows s s' c : callable s c -> grows s s' -> callable s' c.
Proof.
  intros Hc Hg; destruct c as [a|m]; [by apply (g_alive _ _ Hg)|by eapply deliverable_grows].
Qed.

Lemma wp_run_callbacks l (Q : unit -> SubServer -> Prop) s :
  inv None s -> (forall c, c ∈ l -> callable s c) ->
  (forall s', inv None s' -> Q tt s') -> wp (run_callbacks l) Q s.
Proof.
  revert s; induction l as [|c l IH]; intros s Hinv Hl HQ; cbn [run_callbacks]; [by apply wp_ret, HQ|].
  apply wp_bind; eapply wp_mono with (P := fun _ s' => inv None s' /\ grows s s').
  - pose proof (Hl c (list_elem_of_here c l)) as Hc; destruct c as [a|m]; cbn [run_callback].
    + by eapply wp_publishCallback.
    + eapply wp_sampleCallback; [exact Hsane|exact Hinv|exact Hc|]; intros s' ? ?; split; [done|by apply quiet_grows].
  - intros [] s1 [Hinv1 H1]; apply IH; [done| |done]; intros c' Hc'.
    eapply callable_grows; [apply Hl; by apply list_elem_of_further|done].
Qed.

(** The timer calls nothing that waits to be freed. *)
Lemma timer_callable s i c : inv None s -> (i, c) ∈ k_timer (skel s) -> callable s c.
Proof.
  intros [H _] Hi; destruct c as [a|m]; cbn.
  - by apply (ok_alive _ _ _ H), (ok_publish _ _ _ H i).
  - destruct (ok_sample _ _ _ H i m Hi) as (_ & Hk & Hm & Hd); split; [done|]; split; [done|done].
Qed.

Lemma wp_process_changes (Q : unit -> SubServer -> Prop) s :
  inv None s -> (forall s', inv None s' -> (forall p, p ∈ repeatedCallbacks (timer s') -> p ∈ k_timer (skel s')) -> Q tt s') ->
  wp process_changes Q s.
Proof.
  intros Hinv HQ; apply wp_bind, wp_gets, wp_modify; apply HQ; [|done].
  eapply inv_same; [exact Hinv|]; done.
Qed.

Lemma run_timer_safe due s : inv None s -> wp (run_timer due) (fun _ s' => inv None s') s.
Proof.
  intros Hinv; apply wp_bind, wp_process_changes; [done|]; intros s1 Hinv1 Hin.
  apply wp_bind, wp_gets, wp_bind, wp_run_callbacks; [done| |]; [|by intros; apply wp_process_changes].
  intros c Hc; apply list_elem_of_omap in Hc as (i & _ & Hc); apply fmap_Some in Hc as ([j c'] & Hf & ->).
  apply List.find_some in Hf as [Hf _]; apply list_elem_of_In in Hf.
  eapply timer_callable; [exact Hinv1|by apply Hin].
Qed.

(** ** The end of an iteration *)

(** The objects without those that have been freed. *)
Lemma wp_free_delayed l (Q : unit -> SubServer -> Prop) s :
  NoDup l -> (forall a, FreeSubscription a ∈ l -> is_Some (h_subs s !! a)) ->
  (forall m, FreeMonitoredItem m ∈ l -> is_Some (h_mons s !! m)) ->
  (forall s', h_subs s' = keep_subs l (h_subs s) -> h_mons s' = keep_mons l (h_mons s) ->
     h_notifs s' = h_notifs s -> rest s' = rest s -> Q tt s') ->
  wp (free_delayed l) Q s.
Proof.
  revert s; induction l as [|d l IH]; intros s Hnd Hs Hm HQ; cbn [free_delayed].
  { apply wp_ret, HQ; try done; unfold keep_subs, keep_mons; symmetry; apply map_filter_id; cbn;
      intros i x _; apply not_elem_of_nil. }
  apply NoDup_cons in Hnd as [Hd Hnd]; destruct d as [a|m].
  - destruct (Hs a (list_elem_of_here _ _)) as [x Hx]; apply wp_bind; eapply wp_bind, wp_deref_sub; [exact Hx|].
    apply wp_modify, IH; [done| | |].
    + intros b Hb; cbn; rewrite lookup_delete_ne by (intros ->; done); by apply Hs, list_elem_of_further.
    + intros m Hin; by apply Hm, list_elem_of_further.
    + intros s' H1 H2 H3 H4; apply HQ; [rewrite H1|rewrite H2|done|done]; cbn; apply map_eq; intros b;
        apply option_eq; intros y; unfold keep_subs, keep_mons, freed_sub, freed_mon;
        rewrite !map_lookup_filter_Some, ?lookup_delete_Some, elem_of_cons; cbn; naive_solver.
  - destruct (Hm m (list_elem_of_here _ _)) as [x Hx]; apply wp_bind; eapply wp_bind, wp_deref_mon; [exact Hx|].
    apply wp_modify, IH; [done| | |].
    + intros b Hb; by apply Hs, list_elem_of_further.
    + intros b Hb; cbn; rewrite lookup_delete_ne by (intros ->; done); by apply Hm, list_elem_of_further.
    + intros s' H1 H2 H3 H4; apply HQ; [rewrite H1|rewrite H2|done|done]; cbn; apply map_eq; intros b;
        apply option_eq; intros y; unfold keep_subs, keep_mons, freed_sub, freed_mon;
        rewrite !map_lookup_filter_Some, ?lookup_delete_Some, elem_of_cons; cbn; naive_solver.
Qed.

Lemma keep_subs_fmap {A B} d (f : A -> B) (h : gmap nat A) : f <$> keep_subs d h = keep_subs d (f <$> h).
Proof.
  unfold keep_subs; apply map_eq; intros i; apply option_eq; intros y.
  rewrite lookup_fmap_Some, map_lookup_filter_Some, lookup_fmap_Some; setoid_rewrite map_lookup_filter_Some; naive_solver.
Qed.

Lemma keep_mons_fmap {A B} d (f : A -> B) (h : gmap nat A) : f <$> keep_mons d h = keep_mons d (f <$> h).
Proof.
  unfold keep_mons; apply map_eq; intros i; apply option_eq; intros y.
  rewrite lookup_fmap_Some, map_lookup_filter_Some, lookup_fmap_Some; setoid_rewrite map_lookup_filter_Some; naive_solver.
Qed.

Lemma cleanup_safe s : inv None s -> wp cleanupDelayedCallbacks (fun _ s' => inv None s') s.
Proof.
  intros [H Hc]; apply wp_bind, wp_gets, wp_bind, wp_modify, wp_free_delayed.
  - exact (ok_delayed _ _ _ H).
  - intros a Ha; apply (ok_delayed_sub _ _ _ H) in Ha; by destruct (alive_sub _ _ Ha) as [x Hx]; exists x.
  - intros m Hm; apply (ok_delayed_mon _ _ _ H) in Hm; by destruct (alive_mon _ _ Hm) as [x Hx]; exists x.
  - intros s' H1 H2 H3 H4; injection H4 as R1 R2 R3 R4 R5 R6; cbn in H1, H2, H3, R1, R2, R4, R5, R6.
    assert (skel s' = k_cleanup (skel s)) as Hk.
    { unfold skel, k_cleanup; rewrite H1, H2, H3, R1, R2, R4, R5; cbn; by rewrite !keep_subs_fmap, !keep_mons_fmap. }
    split; [rewrite Hk; unfold used; rewrite R6; by apply ok_free_all|].
    destruct Hc as (Hs & Hm & Hn); split; [rewrite H1|split; [rewrite H2|by rewrite R1]].
    + intros a x [Hx _]%map_lookup_filter_Some; by eapply Hs.
    + intros a x [Hx _]%map_lookup_filter_Some; by eapply Hm.
Qed.

(** ** All calls *)

Lemma exec_safe call s : inv None s -> wp (exec call) (fun _ s' => inv None s') s.
Proof.
  intros Hinv; destruct call; cbn [exec];
    try (unfold discard; eapply wp_seq; [|intros ? s' H'; apply wp_ret; exact H']).
  - by apply create_subscription_safe.
  - by apply modify_subscription_safe.
  - by apply set_publishing_mode_safe.
  - by apply delete_subscriptions_safe.
  - by apply create_items_safe.
  - by apply wp_createMonitoredItem.
  - by apply delete_local_safe.
  - by apply modify_items_safe.
  - by apply set_monitoring_mode_safe.
  - by apply delete_items_safe.
  - by apply publish_request_safe.
  - by apply republish_safe.
  - by apply close_session_safe.
  - by apply run_timer_safe.
  - by apply cleanup_safe.
  - by apply wp_set_channel.
  - apply wp_modify; eapply inv_same; [exact Hinv|]; by apply same_with_world.
Qed.

Lemma run_safe calls s : inv None s -> wp (run calls) (fun _ s' => inv None s') s.
Proof.
  revert s; induction calls as [|c calls IH]; intros s Hinv; cbn [run]; [by apply wp_ret|].
  eapply wp_seq; [by apply exec_safe|]; cbn; intros _ s1 H1; by apply IH.
Qed.

Lemma inv_subs_init t : inv None (subs_init t).
Proof.
  split; [|by split; [apply map_Forall_empty|split; [apply map_Forall_empty|]]].
  assert (skel (subs_init t) = mkSkel ∅ ∅ ∅ ∅ ∅ ∅ ∅ ∅ [] [] [] [] 0) as ->.
  { unfold skel; cbn; by rewrite !fmap_empty. }
  split; cbn; intros *; rewrite ?lookup_empty; try (by intros [? ?]); try done; try apply NoDup_nil_2.
  all: by intros ?%not_elem_of_nil.
Qed.
End RunSafe.
