(* ===== verification/SubscriptionBounds.v ===== *)
(** * Subscriptions: the bound of the queues of items

    Whatever is executed keeps the queue of every monitored item within its
    size, and the number of subscriptions of the session is counted: if a call
    ends, and whatever memory it finds.  That it ends is proved with the
    invariant of the pointers. *)

From Stdlib Require Import ZArith Lia SpecFloat.
From stdpp Require Import base list numbers tactics sets gmap.
From S2P Require Import Prelude StateMonad UaTypes UaValue SubscriptionState Subscription SubscriptionServices.

Section Bounds.
Context {TE : TypeEnv} {E : SubscriptionEnv}.

(** ** Bounded items *)

(** What the bound is about. *)
Definition queue_shape (y : UA_MonitoredItem) : list nat * Z * Z := (mi_queue y, queueSize y, maxQueueSize y).

(** The counter is not below the length, and does not wrap. *)
Definition counted (y : UA_MonitoredItem) : Prop :=
  zlen (mi_queue y) <= queueSize y < 2 ^ 32 /\ 0 <= maxQueueSize y < 2 ^ 32 - 1.

Definition within (y : UA_MonitoredItem) : Prop := queueSize y <= maxQueueSize y.

(** All items; all but one, whose queue is being cut; one is new. *)
Definition all_within (m : nat) (y : UA_MonitoredItem) : Prop := counted y /\ within y.
Definition all_but (e m : nat) (y : UA_MonitoredItem) : Prop := counted y /\ (m = e \/ within y).
Definition one_empty (e m : nat) (y : UA_MonitoredItem) : Prop :=
  counted y /\ within y /\ (m = e -> queueSize y = 0).

(** The item is as [F] demands, and the subscriptions are counted. *)
Record bounds (F : nat -> UA_MonitoredItem -> Prop) (s : SubServer) : Prop := mkBounds {
  bd_items : forall m y, h_mons s !! m = Some y -> F m y;
  bd_nodup : NoDup (serverSubscriptions (session s));
  bd_used : forall a, a ∈ serverSubscriptions (session s) -> (a < allocs (world s))%nat;
  bd_count : numSubscriptions (session s) = u32 (zlen (serverSubscriptions (session s)))
}.

Lemma bounds_weaken (F G : nat -> UA_MonitoredItem -> Prop) s :
  (forall m y, F m y -> G m y) -> bounds F s -> bounds G s.
Proof. intros H [B1 B2 B3 B4]; split; auto; intros m y Hy; auto. Qed.

(** A demand on the shape that the removal of a notification preserves. *)
Record demand (F : nat -> UA_MonitoredItem -> Prop) : Prop := mkDemand {
  dm_shape : forall m y y', queue_shape y' = queue_shape y -> F m y -> F m y';
  dm_delete : forall m y n, n ∈ mi_queue y -> F m y ->
    F m (set_mi_queue y (without n (mi_queue y)) (u32 (queueSize y - 1)))
}.

Lemma zlen_without_le n l : n ∈ l -> zlen (without n l) <= zlen l - 1.
Proof.
  unfold without; induction l as [|b l IH]; [by intros []%elem_of_nil|].
  intros Hn; rewrite zlen_cons; destruct (decide (b = n)) as [->|Hne].
  - rewrite filter_cons_False by auto; pose proof (length_filter (fun b => b <> n) l); unfold zlen; lia.
  - rewrite filter_cons_True, zlen_cons by done; apply elem_of_cons in Hn as [->|Hn]; [done|]; specialize (IH Hn); lia.
Qed.

Lemma counted_delete y n : n ∈ mi_queue y -> counted y ->
  counted (set_mi_queue y (without n (mi_queue y)) (u32 (queueSize y - 1))) /\ u32 (queueSize y - 1) = queueSize y - 1.
Proof.
  intros Hn [[H1 H2] H3]; pose proof (zlen_without_le n _ Hn) as Hl.
  assert (0 <= zlen (without n (mi_queue y))) by (unfold zlen; lia).
  assert (u32 (queueSize y - 1) = queueSize y - 1) as Hu by (unfold u32; apply Z.mod_small; lia).
  split; [|exact Hu]; unfold counted; cbn; rewrite Hu; lia.
Qed.

Lemma shape_fields y y' : queue_shape y' = queue_shape y ->
  mi_queue y' = mi_queue y /\ queueSize y' = queueSize y /\ maxQueueSize y' = maxQueueSize y.
Proof. by unfold queue_shape; intros [= -> -> ->]. Qed.

Lemma demand_within : demand all_within.
Proof.
  split; unfold all_within, counted, within.
  - intros m y y' (-> & -> & ->)%shape_fields; done.
  - intros m y n Hn [Hc Hw]; destruct (counted_delete y n Hn Hc) as [H Hu]; split; [exact H|]; cbn; rewrite Hu; lia.
Qed.

Lemma demand_but e : demand (all_but e).
Proof.
  split; unfold all_but, counted, within.
  - intros m y y' (-> & -> & ->)%shape_fields; done.
  - intros m y n Hn [Hc Hw]; destruct (counted_delete y n Hn Hc) as [H Hu]; split; [exact H|]; cbn; rewrite Hu; lia.
Qed.

Lemma demand_empty e : demand (one_empty e).
Proof.
  split; unfold one_empty, counted, within.
  - intros m y y' (-> & -> & ->)%shape_fields; done.
  - intros m y n Hn (Hc & Hw & He); destruct (counted_delete y n Hn Hc) as [H Hu]; split; [exact H|]; cbn; rewrite Hu.
    split; [lia|]; intros Hm; destruct Hc as [[Hl _] _]; pose proof (zlen_without_le n _ Hn); rewrite (He Hm) in *.
    assert (0 <= zlen (without n (mi_queue y))) by (unfold zlen; lia); lia.
Qed.

(** ** What keeps them *)

Definition kept {A} (F : nat -> UA_MonitoredItem -> Prop) (m : M A) : Prop :=
  forall s a s', bounds F s -> m s = Some (a, s') -> bounds F s'.

Section Kept.
Context (F : nat -> UA_MonitoredItem -> Prop).

Lemma kept_mret {A} (a : A) : kept F (mret a).
Proof. by intros s b s' H [_ ->]%ret_inv. Qed.

Lemma kept_gets {A} (f : SubServer -> A) : kept F (gets f).
Proof. by intros s b s' H [_ ->]%gets_inv. Qed.

Lemma kept_undefined {A} : kept F (undefined : M A).
Proof. done. Qed.

Lemma kept_the {A} (o : option A) : kept F (the o).
Proof. by intros s b s' H [_ ->]%the_inv. Qed.

Lemma kept_list_remove a l : kept F (list_remove a l).
Proof. by intros s b s' H ->%list_remove_inv. Qed.

Lemma kept_modify (f : SubServer -> SubServer) : (forall s, bounds F s -> bounds F (f s)) -> kept F (modify f).
Proof. intros H s b s' Hs ->%modify_inv; auto. Qed.

Lemma kept_bind {A B} (m : M A) (k : A -> M B) : kept F m -> (forall a, kept F (k a)) -> kept F (m ≫= k).
Proof. intros Hm Hk s b s' Hs (a & s1 & H1 & H2)%bind_inv; eapply Hk; [eapply Hm|]; eauto. Qed.

(** The parts of the state that the bounds do not look at. *)
Lemma bounds_part s s' : h_mons s' = h_mons s -> serverSubscriptions (session s') = serverSubscriptions (session s) ->
  numSubscriptions (session s') = numSubscriptions (session s) -> (allocs (world s) <= allocs (world s'))%nat ->
  bounds F s -> bounds F s'.
Proof.
  intros H1 H2 H3 H4 [B1 B2 B3 B4]; split; rewrite ?H1, ?H2, ?H3; [done|done| |done].
  intros a Ha; specialize (B3 a Ha); lia.
Qed.

Lemma bounds_with_mons s m y : F m y -> bounds F s -> bounds F (with_mons s (<[m := y]> (h_mons s))).
Proof.
  intros Hy [B1 B2 B3 B4]; split; [|done..]; cbn; intros m' y'.
  destruct (decide (m' = m)) as [->|Hne]; [by rewrite lookup_insert_eq; intros [= <-]|].
  rewrite lookup_insert_ne by done; auto.
Qed.

Lemma kept_update_mon_by m f : (forall y, F m y -> F m (f y)) -> kept F (update_mon m f).
Proof.
  intros Hf s b s' Hs (y & s1 & H1 & H2)%bind_inv; unfold deref_mon in H1.
  apply bind_inv in H1 as (h & s2 & [-> ->]%gets_inv & [H1 ->]%the_inv).
  apply modify_inv in H2 as ->; apply bounds_with_mons; [|done]; apply Hf; by eapply bd_items.
Qed.

Lemma kept_free_mon m : kept F (free_mon m).
Proof.
  apply kept_bind; [apply kept_bind; [apply kept_gets|intros; apply kept_the]|intros _].
  apply kept_modify; intros s [B1 B2 B3 B4]; split; [|done..]; cbn; intros m' y' [_ H]%lookup_delete_Some; auto.
Qed.
End Kept.
End Bounds.

Ltac kept_step :=
  match goal with
  | |- kept _ (mbind _ _) => apply kept_bind; [|intros ?]
  | |- kept _ (mret _) => apply kept_mret
  | |- kept _ (gets _) => apply kept_gets
  | |- kept _ undefined => apply kept_undefined
  | |- kept _ (the _) => apply kept_the
  | |- kept _ (list_remove _ _) => apply kept_list_remove
  | |- kept _ (modify _) => apply kept_modify; intros ?; apply bounds_part; [reflexivity..|cbn; lia]
  | |- kept _ (update_mon _ _) => apply kept_update_mon_by; intros ?; apply dm_shape; [assumption|try reflexivity]
  | |- kept _ (if ?b then _ else _) => destruct b
  | |- kept _ (match ?x with _ => _ end) => destruct x
  | |- kept _ (let '(_, _) := ?x in _) => destruct x
  end.
Ltac bounded_by := repeat (first [solve [eauto with kept_db] | kept_step]); try done.

Create HintDb kept_db discriminated.

(** ** What the operations keep *)

Section Operations.
Context {TE : TypeEnv} {E : SubscriptionEnv} (F : nat -> UA_MonitoredItem -> Prop) (HF : demand F).

Lemma kept_deref_mon m : kept F (deref_mon m).
Proof using. unfold deref_mon; bounded_by. Qed.
Lemma kept_deref_sub a : kept F (deref_sub a).
Proof using. unfold deref_sub; bounded_by. Qed.
Lemma kept_deref_notif n : kept F (deref_notif n).
Proof using. unfold deref_notif; bounded_by. Qed.
#[local] Hint Resolve kept_deref_mon kept_deref_sub kept_deref_notif : kept_db.

Lemma kept_update_sub a f : kept F (update_sub a f).
Proof using. unfold update_sub; bounded_by. Qed.
Lemma kept_update_notif n f : kept F (update_notif n f).
Proof using. unfold update_notif; bounded_by. Qed.
Lemma kept_new_sub a x : kept F (new_sub a x).
Proof using. unfold new_sub; bounded_by. Qed.
Lemma kept_new_notif n x : kept F (new_notif n x).
Proof using. unfold new_notif; bounded_by. Qed.
Lemma kept_free_sub a : kept F (free_sub a).
Proof using. unfold free_sub; bounded_by. Qed.
Lemma kept_free_notif n : kept F (free_notif n).
Proof using. unfold free_notif; bounded_by. Qed.
Lemma bounds_more s n : bounds F s -> (allocs (world s) <= n)%nat -> bounds F (with_world s (with_allocs (world s) n)).
Proof using. intros Hs Hn; by apply (bounds_part F s). Qed.
Lemma kept_malloc : kept F malloc.
Proof using.
  intros s b s' Hs (n & s1 & [-> ->]%gets_inv & (u & s2 & ->%modify_inv & [_ ->]%ret_inv)%bind_inv)%bind_inv.
  apply bounds_more; [done|lia].
Qed.
#[local] Hint Resolve kept_update_sub kept_update_notif kept_new_sub kept_new_notif kept_free_sub kept_free_notif
  kept_malloc : kept_db.
Lemma kept_alloc : kept F alloc.
Proof using. unfold alloc; bounded_by. Qed.
Lemma kept_alloc_entry : kept F alloc_entry.
Proof using.
  intros s b s' Hs (n & s1 & [-> ->]%gets_inv & (u & s2 & ->%modify_inv & [_ ->]%ret_inv)%bind_inv)%bind_inv.
  apply bounds_more; [done|lia].
Qed.
Lemma kept_now : kept F now.
Proof using. unfold now; bounded_by. Qed.
Lemma kept_read r t : kept F (read r t).
Proof using. unfold read; bounded_by. Qed.
Lemma kept_send i r : kept F (send i r).
Proof using. unfold send; bounded_by. Qed.
#[local] Hint Resolve kept_alloc kept_alloc_entry kept_now kept_read kept_send : kept_db.
Lemma kept_addRepeated c i : kept F (addRepeatedCallback c i).
Proof using. unfold addRepeatedCallback; bounded_by. Qed.
Lemma kept_removeRepeated id : kept F (removeRepeatedCallback id).
Proof using. unfold removeRepeatedCallback; bounded_by. Qed.
Lemma kept_delayedFree d : kept F (delayedFree d).
Proof using. unfold delayedFree; bounded_by. Qed.
#[local] Hint Resolve kept_addRepeated kept_removeRepeated kept_delayedFree : kept_db.

(** *** Notifications and items *)

(** A notification leaves the queue of its item. *)
Lemma deref_mon_inv m s y s' : deref_mon m s = Some (y, s') -> h_mons s !! m = Some y /\ s' = s.
Proof using.
  unfold deref_mon; intros (h & s1 & [-> ->]%gets_inv & [H ->]%the_inv)%bind_inv; done.
Qed.

Lemma update_mon_inv m f s u s' : update_mon m f s = Some (u, s') ->
  exists y, h_mons s !! m = Some y /\ s' = with_mons s (<[m := f y]> (h_mons s)).
Proof using.
  unfold update_mon; intros (y & s1 & [Hy ->]%deref_mon_inv & ->%modify_inv)%bind_inv; by exists y.
Qed.

Lemma kept_Notification_delete sub mon n : kept F (UA_Notification_delete sub mon n).
Proof using HF.
  intros s b s' Hs (y & s1 & [Hy ->]%deref_mon_inv & H)%bind_inv.
  apply bind_inv in H as (q & s2 & Hq & H); unfold list_remove in Hq.
  destruct (decide (n ∈ mi_queue y)) as [Hn|]; [|done]; apply ret_inv in Hq as [-> ->].
  apply bind_inv in H as (u & s3 & (y' & Hy' & ->)%update_mon_inv & H).
  assert (y' = y) as -> by congruence; revert H; generalize b s'.
  match goal with |- forall b s', ?m _ = _ -> _ => cut (kept F m) end; [intros Hk b0 s0; apply Hk|bounded_by].
  apply bounds_with_mons; [|done]; apply (dm_delete F HF); [done|]; by eapply bd_items.
Qed.
#[local] Hint Resolve kept_Notification_delete : kept_db.

Lemma kept_delete_notifications sub mon l : kept F (delete_notifications sub mon l).
Proof using HF. induction l as [|n l IH]; cbn [delete_notifications]; bounded_by. Qed.
Lemma kept_registerSample mon : kept F (UA_MonitoredItem_registerSampleCallback mon).
Proof using HF. unfold UA_MonitoredItem_registerSampleCallback; bounded_by. Qed.
Lemma kept_unregisterSample mon : kept F (UA_MonitoredItem_unregisterSampleCallback mon).
Proof using HF. unfold UA_MonitoredItem_unregisterSampleCallback; bounded_by. Qed.
#[local] Hint Resolve kept_delete_notifications kept_registerSample kept_unregisterSample : kept_db.
Lemma kept_MonitoredItem_delete mon : kept F (UA_MonitoredItem_delete mon).
Proof using HF. unfold UA_MonitoredItem_delete; bounded_by. Qed.
#[local] Hint Resolve kept_MonitoredItem_delete : kept_db.

Lemma kept_encode_value v : kept F (encode_value v).
Proof using. unfold encode_value; bounded_by. Qed.
#[local] Hint Resolve kept_encode_value : kept_db.
Lemma kept_detectValueChange mon v : kept F (detectValueChange mon v).
Proof using. unfold detectValueChange, detectValueChangeWithFilter; bounded_by. Qed.
#[local] Hint Resolve kept_detectValueChange : kept_db.

(** *** Subscriptions *)

Lemma kept_update_session f : (forall x, serverSubscriptions (f x) = serverSubscriptions x) ->
  (forall x, numSubscriptions (f x) = numSubscriptions x) -> kept F (update_session f).
Proof using. intros H1 H2; apply kept_modify; intros s; apply bounds_part; cbn; auto. Qed.

Lemma kept_dequeue : kept F UA_Session_dequeuePublishReq.
Proof using. unfold UA_Session_dequeuePublishReq; repeat (first [by apply kept_update_session|kept_step]). Qed.
Lemma kept_queuePublishReq pre b : kept F (UA_Session_queuePublishReq pre b).
Proof using. by apply kept_update_session. Qed.
#[local] Hint Resolve kept_dequeue kept_queuePublishReq : kept_db.

Lemma kept_registerPublish a : kept F (Subscription_registerPublishCallback a).
Proof using. unfold Subscription_registerPublishCallback; bounded_by. Qed.
Lemma kept_unregisterPublish a : kept F (Subscription_unregisterPublishCallback a).
Proof using. unfold Subscription_unregisterPublishCallback; bounded_by. Qed.
#[local] Hint Resolve kept_registerPublish kept_unregisterPublish : kept_db.
Lemma kept_delete_items a l : kept F (delete_items a l).
Proof using HF. induction l as [|m l IH]; cbn [delete_items]; bounded_by. Qed.
#[local] Hint Resolve kept_delete_items : kept_db.
Lemma kept_Subscription_deleteMembers a : kept F (UA_Subscription_deleteMembers a).
Proof using HF. unfold UA_Subscription_deleteMembers; bounded_by. Qed.
Lemma kept_find_item id l : kept F (find_item id l).
Proof using. induction l as [|m l IH]; cbn [find_item]; bounded_by. Qed.
#[local] Hint Resolve kept_Subscription_deleteMembers kept_find_item : kept_db.
Lemma kept_getMonitoredItem a id : kept F (UA_Subscription_getMonitoredItem a id).
Proof using. unfold UA_Subscription_getMonitoredItem; bounded_by. Qed.
Lemma kept_deleteMonitoredItem a id : kept F (UA_Subscription_deleteMonitoredItem a id).
Proof using HF. unfold UA_Subscription_deleteMonitoredItem; bounded_by. Qed.
Lemma kept_addMonitoredItem a mon : kept F (UA_Subscription_addMonitoredItem a mon).
Proof using. unfold UA_Subscription_addMonitoredItem; bounded_by. Qed.
Lemma kept_find_subscription id l : kept F (find_subscription id l).
Proof using. induction l as [|m l IH]; cbn [find_subscription]; bounded_by. Qed.
#[local] Hint Resolve kept_getMonitoredItem kept_deleteMonitoredItem kept_addMonitoredItem kept_find_subscription : kept_db.
Lemma kept_getSubscriptionById id : kept F (UA_Session_getSubscriptionById id).
Proof using. unfold UA_Session_getSubscriptionById; bounded_by. Qed.
#[local] Hint Resolve kept_getSubscriptionById : kept_db.

(** A subscription leaves the list of the session. *)
Lemma bounds_without a s last : bounds F s -> a ∈ serverSubscriptions (session s) ->
  bounds F (with_session s (set_subscriptions (session s) last (without a (serverSubscriptions (session s)))
                              (u32 (numSubscriptions (session s) - 1)))).
Proof using.
  intros [B1 B2 B3 B4] Ha; split; cbn; [done| | |].
  - by apply NoDup_filter.
  - intros b [_ Hb]%elem_of_without; auto.
  - rewrite B4, u32_pred, zlen_without by done; done.
Qed.

Lemma kept_deleteSubscription id : kept F (UA_Session_deleteSubscription id).
Proof using HF.
  unfold UA_Session_deleteSubscription; apply kept_bind; [bounded_by|intros [a|]; [|bounded_by]].
  do 2 (apply kept_bind; [bounded_by|intros ?]); destruct (bad _); [bounded_by|].
  intros s b s' Hs (x & s1 & [-> ->]%gets_inv & H)%bind_inv.
  apply bind_inv in H as (l & s1 & Hl & H); unfold list_remove in Hl; destruct (decide _) as [Hin|]; [|done].
  apply ret_inv in Hl as [-> ->]; apply bind_inv in H as (u & s2 & ->%modify_inv & [_ ->]%ret_inv).
  by apply bounds_without.
Qed.
#[local] Hint Resolve kept_deleteSubscription : kept_db.

(** A new one, allocated just now, joins it. *)
Lemma bounds_addSubscription a s u s' : bounds F s -> a ∉ serverSubscriptions (session s) ->
  (a < allocs (world s))%nat -> UA_Session_addSubscription a s = Some (u, s') -> bounds F s'.
Proof using.
  intros [B1 B2 B3 B4] Hnew Hlt (x & s1 & [-> ->]%gets_inv & H)%bind_inv.
  apply bind_inv in H as ([] & s1 & H1 & ->%modify_inv); unfold update_sub in H1.
  apply bind_inv in H1 as (y & s2 & Hd & ->%modify_inv).
  apply bind_inv in Hd as (h & s3 & [_ ->]%gets_inv & [_ ->]%the_inv); split; cbn; [done| | |].
  - by constructor.
  - intros b [->|Hb]%elem_of_cons; auto.
  - rewrite B4, u32_succ, zlen_cons; done.
Qed.

(** *** Publishing *)

Lemma kept_addRetransmission a m : kept F (UA_Subscription_addRetransmissionMessage a m).
Proof using. unfold UA_Subscription_addRetransmissionMessage; bounded_by. Qed.
Lemma kept_removeRetransmission a seq : kept F (UA_Subscription_removeRetransmissionMessage a seq).
Proof using. unfold UA_Subscription_removeRetransmissionMessage; bounded_by. Qed.
Lemma kept_move a queue : forall n size items, kept F (move_notifications a n size items queue).
Proof using HF. induction queue as [|i queue IH]; intros n size items; cbn [move_notifications]; bounded_by. Qed.
#[local] Hint Resolve kept_addRetransmission kept_removeRetransmission kept_move : kept_db.
Lemma kept_prepare a n : kept F (prepareNotificationMessage a n).
Proof using HF. unfold prepareNotificationMessage; bounded_by. Qed.
#[local] Hint Resolve kept_prepare : kept_db.
Lemma kept_be_late a pre : kept F (be_late a pre).
Proof using. unfold be_late; bounded_by. Qed.
Lemma kept_make_message a n : kept F (make_message a n).
Proof using HF. unfold make_message; bounded_by. Qed.
Lemma kept_send_publish a pre n more data : kept F (send_publishResponse a pre n more data).
Proof using. unfold send_publishResponse; bounded_by. Qed.
Lemma kept_count_lifetime a pre : kept F (count_lifetime a pre).
Proof using. unfold count_lifetime; bounded_by. Qed.
#[local] Hint Resolve kept_be_late kept_make_message kept_send_publish kept_count_lifetime : kept_db.
Lemma kept_publish_once a : kept F (publish_once a).
Proof using HF. unfold publish_once; bounded_by. Qed.
#[local] Hint Resolve kept_publish_once : kept_db.
Lemma kept_publish_loop fuel a : kept F (publish_loop fuel a).
Proof using HF. induction fuel as [|fuel IH]; cbn [publish_loop]; bounded_by. Qed.
#[local] Hint Resolve kept_publish_loop : kept_db.
Lemma kept_publish a : kept F (UA_Subscription_publish a).
Proof using HF. unfold UA_Subscription_publish; bounded_by. Qed.
#[local] Hint Resolve kept_publish : kept_db.
Lemma kept_publishCallback a : kept F (publishCallback a).
Proof using HF. unfold publishCallback; bounded_by. Qed.
Lemma kept_reachedLimit : kept F UA_Subscription_reachedPublishReqLimit.
Proof using. unfold UA_Subscription_reachedPublishReqLimit; bounded_by. Qed.
Lemma kept_answer fuel : kept F (answer_requests fuel).
Proof using. induction fuel as [|fuel IH]; cbn [answer_requests]; bounded_by. Qed.
#[local] Hint Resolve kept_publishCallback kept_reachedLimit kept_answer : kept_db.
Lemma kept_answerNoSubscription : kept F UA_Subscription_answerPublishRequestsNoSubscription.
Proof using. unfold UA_Subscription_answerPublishRequestsNoSubscription; bounded_by. Qed.
Lemma kept_acknowledge l : kept F (acknowledge l).
Proof using. induction l as [|[id seq] l IH]; cbn [acknowledge]; bounded_by. Qed.
Lemma kept_behind id l : kept F (behind_lastSeen id l).
Proof using. induction l as [|a l IH]; cbn [behind_lastSeen]; bounded_by. Qed.
Lemma kept_find_late l : kept F (find_late l).
Proof using. induction l as [|a l IH]; cbn [find_late]; bounded_by. Qed.
#[local] Hint Resolve kept_answerNoSubscription kept_acknowledge kept_behind kept_find_late : kept_db.
Lemma kept_lastSeen f : kept F (update_session (fun x => set_lastSeen x (f x))).
Proof using. by apply kept_update_session. Qed.
#[local] Hint Resolve kept_lastSeen : kept_db.
Lemma kept_publish_late : kept F publish_late.
Proof using HF.
  unfold publish_late; repeat (first [solve [eauto with kept_db] | by apply kept_update_session | kept_step]).
Qed.
#[local] Hint Resolve kept_publish_late : kept_db.
Lemma kept_sendError h i e : kept F (subscriptionSendError h i e).
Proof using. unfold subscriptionSendError; bounded_by. Qed.
#[local] Hint Resolve kept_sendError : kept_db.
Lemma kept_Publish r i : kept F (Service_Publish r i).
Proof using HF. unfold Service_Publish; bounded_by. Qed.
Lemma kept_reset_lifetime a : kept F (reset_lifetime a).
Proof using. unfold reset_lifetime; bounded_by. Qed.
#[local] Hint Resolve kept_reset_lifetime : kept_db.
Lemma kept_Republish id seq : kept F (Service_Republish id seq).
Proof using. unfold Service_Republish; bounded_by. Qed.

(** *** The services that do not touch the size of a queue *)

Lemma kept_operations {A B} (op : A -> M B) l : (forall a, kept F (op a)) ->
  kept F (SubscriptionServices.UA_Server_processServiceOperations op l).
Proof using.
  intros Hop; assert (forall l, kept F (process_operations op l))
    by (clear l; intros l; induction l as [|a l IH]; cbn [process_operations]; bounded_by).
  unfold SubscriptionServices.UA_Server_processServiceOperations; bounded_by.
Qed.

Lemma kept_settings a r : kept F (setSubscriptionSettings a r).
Proof using. unfold setSubscriptionSettings; bounded_by. Qed.
#[local] Hint Resolve kept_settings : kept_db.

Lemma Subscription_new_inv s a s' : UA_Subscription_new 0 s = Some (Some a, s') ->
  a = allocs (world s) /\ session s' = session s /\ (a < allocs (world s'))%nat.
Proof using.
  intros (o & s1 & (n & s2 & [-> ->]%gets_inv & (u & s3 & ->%modify_inv & [-> ->]%ret_inv)%bind_inv)%bind_inv & H)%bind_inv.
  destruct (malloc_ok _); [|by apply ret_inv in H as [? _]].
  apply bind_inv in H as (u' & s3 & ->%modify_inv & [[= ->] ->]%ret_inv); split; [done|]; split; [done|]; cbn; lia.
Qed.

Lemma kept_Subscription_new id : kept F (UA_Subscription_new id).
Proof using. unfold UA_Subscription_new; bounded_by. Qed.

Lemma kept_CreateSubscription r : kept F (Service_CreateSubscription r).
Proof using.
  unfold Service_CreateSubscription; apply kept_bind; [bounded_by|intros x]; destruct (_ && _); [bounded_by|].
  intros s b s' Hs (o & s1 & Hnew & H)%bind_inv; pose proof (kept_Subscription_new _ _ _ _ Hs Hnew) as Hs1.
  destruct o as [a|]; [|by apply ret_inv in H as [_ ->]].
  apply Subscription_new_inv in Hnew as (-> & Hses & Hlt).
  apply bind_inv in H as (u & s2 & Hadd & H); revert H; generalize b s'.
  match goal with |- forall b s', ?m _ = _ -> _ => cut (kept F m) end; [intros Hk b0 s0; apply Hk|bounded_by].
  eapply bounds_addSubscription; [exact Hs1| |exact Hlt|exact Hadd]; rewrite Hses; intros Hin.
  pose proof (bd_used _ _ Hs _ Hin); lia.
Qed.

Lemma kept_ModifySubscription id r : kept F (Service_ModifySubscription id r).
Proof using. unfold Service_ModifySubscription; bounded_by. Qed.
Lemma kept_SetPublishingMode b ids : kept F (Service_SetPublishingMode b ids).
Proof using. apply kept_operations; intros id; unfold Operation_SetPublishingMode; bounded_by. Qed.
Lemma kept_DeleteSubscriptions ids : kept F (Service_DeleteSubscriptions ids).
Proof using HF.
  unfold Service_DeleteSubscriptions; apply kept_bind; [|intros; bounded_by].
  apply kept_operations; intros id; apply kept_deleteSubscription.
Qed.
Lemma kept_SetMonitoringMode id mode l : kept F (Service_SetMonitoringMode id mode l).
Proof using HF.
  assert (forall a l, kept F (SubscriptionServices.UA_Server_processServiceOperations (Operation_SetMonitoringMode a mode) l))
    by (intros a l'; apply kept_operations; intros m; unfold Operation_SetMonitoringMode; bounded_by).
  unfold Service_SetMonitoringMode; bounded_by.
Qed.
Lemma kept_DeleteMonitoredItems id l : kept F (Service_DeleteMonitoredItems id l).
Proof using HF.
  assert (forall a l, kept F (SubscriptionServices.UA_Server_processServiceOperations (Operation_DeleteMonitoredItem a) l))
    by (intros a l'; apply kept_operations; intros m; apply kept_deleteMonitoredItem).
  unfold Service_DeleteMonitoredItems; bounded_by.
Qed.
Lemma kept_deleteLocal id : kept F (UA_Server_deleteMonitoredItem id).
Proof using HF. unfold UA_Server_deleteMonitoredItem; bounded_by. Qed.
Lemma kept_delete_subscriptions l : kept F (delete_subscriptions l).
Proof using HF. induction l as [|a l IH]; cbn [delete_subscriptions]; bounded_by. Qed.
#[local] Hint Resolve kept_delete_subscriptions : kept_db.
Lemma kept_set_channel b : kept F (set_channel b).
Proof using. by apply kept_update_session. Qed.
#[local] Hint Resolve kept_set_channel : kept_db.
Lemma kept_cleanup : kept F SubscriptionServices.UA_Session_deleteMembersCleanup.
Proof using HF.
  unfold SubscriptionServices.UA_Session_deleteMembersCleanup;
    repeat (first [solve [eauto with kept_db] | by apply kept_update_session | kept_step]).
Qed.
Lemma kept_process_changes : kept F process_changes.
Proof using. unfold process_changes; bounded_by. Qed.
Lemma kept_free_delayed l : kept F (free_delayed l).
Proof using.
  induction l as [|[a|m] l IH]; cbn [free_delayed]; [bounded_by| |];
    repeat (first [apply kept_free_mon | solve [eauto with kept_db] | kept_step]).
Qed.
#[local] Hint Resolve kept_free_delayed : kept_db.
Lemma kept_delayedCallbacks : kept F cleanupDelayedCallbacks.
Proof using. unfold cleanupDelayedCallbacks; bounded_by. Qed.
End Operations.

#[export] Hint Resolve demand_within demand_but demand_empty kept_deref_mon kept_deref_sub kept_deref_notif kept_update_sub
  kept_update_notif kept_new_notif kept_malloc kept_alloc kept_read kept_registerSample kept_unregisterSample
  kept_MonitoredItem_delete kept_detectValueChange kept_getMonitoredItem kept_addMonitoredItem
  kept_getSubscriptionById kept_reset_lifetime kept_publishCallback kept_process_changes : kept_db.

(** ** What changes the size of a queue *)

Section Sizes.
Context {TE : TypeEnv} {E : SubscriptionEnv}.

(** From one demand to another. *)
Definition brings {A} (F G : nat -> UA_MonitoredItem -> Prop) (m : M A) : Prop :=
  forall s a s', bounds F s -> m s = Some (a, s') -> bounds G s'.

Lemma brings_bind {A B} F G H (m : M A) (k : A -> M B) :
  brings F G m -> (forall a, brings G H (k a)) -> brings F H (m ≫= k).
Proof. intros Hm Hk s b s' Hs (a & s1 & H1 & H2)%bind_inv; eapply Hk; [eapply Hm|]; eauto. Qed.

Lemma brings_kept {A B} F G (m : M A) (k : A -> M B) :
  kept F m -> (forall a, brings F G (k a)) -> brings F G (m ≫= k).
Proof. apply brings_bind. Qed.

(** A new demand is implied by the old one. *)
Lemma brings_weaken {A} (F G H : nat -> UA_MonitoredItem -> Prop) (m : M A) :
  brings F G m -> (forall i y, G i y -> H i y) -> brings F H m.
Proof. intros Hm HG s a s' Hs Ha; eapply bounds_weaken; [exact HG|by eapply Hm]. Qed.

Lemma but_within e s : bounds (all_but e) s -> (forall y, h_mons s !! e = Some y -> within y) -> bounds all_within s.
Proof.
  intros [B1 B2 B3 B4] He; split; [|done..]; intros m y Hy; destruct (B1 m y Hy) as [Hc [->|Hw]]; split; auto.
Qed.

Lemma shrink_queue_within fuel mon : brings (all_but mon) all_within (shrink_queue fuel mon).
Proof.
  induction fuel as [|fuel IH]; cbn [shrink_queue]; intros s u s' Hs (y & s1 & [Hy ->]%deref_mon_inv & H)%bind_inv;
    destruct (queueSize y <=? maxQueueSize y) eqn:Hle;
    try (apply ret_inv in H as [_ ->]; apply (but_within mon); [done|];
         intros y'; rewrite Hy; intros [= <-]; unfold within; lia); [done|].
  revert H; apply (brings_kept (all_but mon)) with (s := s); [bounded_by| |done]; intros sub.
  apply brings_kept; [bounded_by|]; intros [del after_del].
  do 4 (apply brings_kept; [bounded_by|intros ?]).
  apply brings_kept; [apply kept_Notification_delete, demand_but|intros _; exact IH].
Qed.

Lemma ensureQueueSpace_within mon : brings (all_but mon) all_within (MonitoredItem_ensureQueueSpace mon).
Proof.
  intros s u s' Hs (y & s1 & [Hy ->]%deref_mon_inv & H)%bind_inv.
  destruct (queueSize y <=? maxQueueSize y) eqn:Hle.
  - apply ret_inv in H as [_ ->]; apply (but_within mon); [done|].
    intros y'; rewrite Hy; intros [= <-]; unfold within; lia.
  - revert H; apply (brings_bind (all_but mon) all_within) with (s := s); [apply shrink_queue_within| |done].
    intros ?; change (kept all_within (y' ← deref_mon mon; if decide (monitoredItemType y' = UA_MONITOREDITEMTYPE_CHANGENOTIFY)
      then n ← the (if discardOldest y' then head (mi_queue y') else last (mi_queue y'));
           update_notif n (fun x => mkNotification (n_mon x)
             (if 1 <? maxQueueSize y' then set_overflow (n_value x) else clear_overflow (n_value x)))
      else mret tt)); bounded_by.
Qed.

(** A notification more, and at most one too many. *)
Lemma counted_enqueue y n : counted y -> within y ->
  counted (set_mi_queue y (mi_queue y ++ [n]) (u32 (queueSize y + 1))).
Proof.
  unfold counted, within; intros [[H1 H2] H3] H4; cbn; rewrite zlen_app; change (zlen [n]) with 1.
  assert (0 <= zlen (mi_queue y)) by (unfold zlen; lia).
  assert (u32 (queueSize y + 1) = queueSize y + 1) as -> by (unfold u32; apply Z.mod_small; lia); lia.
Qed.

Lemma kept_enqueue sub mon n : kept all_within (UA_Notification_enqueue sub mon n).
Proof.
  intros s u s' Hs (y & s1 & [Hy ->]%deref_mon_inv & H)%bind_inv.
  apply bind_inv in H as (u' & s2 & (y' & Hy' & ->)%update_mon_inv & H); assert (y' = y) as -> by congruence.
  destruct (bd_items _ _ Hs _ _ Hy) as [Hc Hw]; revert H.
  apply (brings_kept (all_but mon)); [bounded_by|intros ?; apply brings_kept; [bounded_by|intros ?; apply ensureQueueSpace_within]|].
  apply bounds_with_mons; [split; [by apply counted_enqueue|by left]|].
  eapply bounds_weaken; [|exact Hs]; intros i z [H1 H2]; split; auto.
Qed.
#[local] Hint Resolve kept_enqueue : kept_db.

Lemma kept_sample mon : kept all_within (UA_MonitoredItem_sampleCallback mon).
Proof.
  assert (forall v, kept all_within (notify_change mon v)) by (intros v; unfold notify_change; bounded_by).
  assert (Hd := demand_within).
  unfold UA_MonitoredItem_sampleCallback, sampleCallbackWithValue; bounded_by.
Qed.
#[local] Hint Resolve kept_sample : kept_db.

(** ** The services that set sizes *)

Context (Hlow : 1 <= fst queueSizeLimits /\ 1 <= snd queueSizeLimits).
Context (Hlim : fst queueSizeLimits < 2 ^ 32 - 1 /\ snd queueSizeLimits < 2 ^ 32 - 1).

Lemma bounded_range n : 0 <= bounded queueSizeLimits n < 2 ^ 32 - 1.
Proof. unfold bounded; destruct (Z.ltb_spec (snd queueSizeLimits) n), (Z.ltb_spec n (fst queueSizeLimits)); lia. Qed.

Lemma kept_setSettings F mon mode p type : demand F ->
  (forall y mode handle type interval n oldest, F mon y ->
     F mon (set_mi_params y mode handle type interval (bounded queueSizeLimits n) oldest)) ->
  kept F (setMonitoredItemSettings mon mode p type).
Proof using.
  clear Hlow Hlim; intros HF Hset; unfold setMonitoredItemSettings.
  repeat (first [solve [eauto with kept_db] | apply kept_update_mon_by; by auto | kept_step]); done.
Qed.

Lemma setSettings_empty mon mode p type : kept (one_empty mon) (setMonitoredItemSettings mon mode p type).
Proof.
  apply kept_setSettings; [apply demand_empty|].
  intros y ???? n ? [Hc (Hw & He)]; specialize (He eq_refl); pose proof (bounded_range n) as Hr.
  unfold one_empty, counted, within in *; cbn; rewrite He in *; repeat split; try done; lia.
Qed.

Lemma setSettings_but mon mode p type : kept (all_but mon) (setMonitoredItemSettings mon mode p type).
Proof.
  apply kept_setSettings; [apply demand_but|].
  intros y ???? n ? [Hc _]; pose proof (bounded_range n) as Hr.
  unfold all_but, counted in *; cbn; split; [lia|by left].
Qed.

Lemma empty_within e i y : one_empty e i y -> all_within i y.
Proof using. by intros (H1 & H2 & _). Qed.

Lemma new_mon_empty mon sub r ts : brings all_within (one_empty mon) (new_mon mon (new_item sub r ts)).
Proof using.
  intros s u s' Hs ->%modify_inv; destruct Hs as [B1 B2 B3 B4]; split; [|done..]; cbn; intros m y.
  destruct (decide (m = mon)) as [->|Hne].
  - rewrite lookup_insert_eq; intros [= <-]; unfold one_empty, counted, within; cbn; change (zlen []) with 0; repeat split; lia.
  - rewrite lookup_insert_ne by done; intros Hy; destruct (B1 m y Hy) as [H1 H2]; by repeat split; try apply H1.
Qed.

Lemma kept_add_item sub mon : kept all_within (add_item sub mon).
Proof using.
  assert (Hd := demand_within); unfold add_item; bounded_by.
Qed.

Lemma kept_createItem sub ts r : kept all_within (Operation_CreateMonitoredItem sub ts r).
Proof.
  assert (Hd := demand_within); unfold Operation_CreateMonitoredItem.
  apply kept_bind; [bounded_by|intros full]; destruct full; [bounded_by|].
  apply kept_bind; [bounded_by|intros v]; cbv zeta; destruct (bad _); [bounded_by|].
  apply kept_bind; [bounded_by|intros [mon|]]; [|bounded_by].
  apply (brings_bind all_within (one_empty mon)); [apply new_mon_empty|intros _].
  apply brings_kept; [bounded_by|intros ok]; apply brings_kept.
  { destruct ok; apply kept_update_mon_by; [|done]; intros y; by apply dm_shape; [apply demand_empty|]. }
  intros _; apply (brings_bind _ all_within).
  { eapply brings_weaken; [apply setSettings_empty|apply empty_within]. }
  intros retval; pose proof kept_add_item as Hadd; cbv zeta; destruct (bad _).
  - change (kept all_within (_ ← UA_MonitoredItem_delete mon; mret (create_failed (Z.lor (if ok then GOOD else BADOUTOFMEMORY) retval)))).
    bounded_by.
  - apply brings_kept; [apply Hadd|intros _]; apply brings_kept; [bounded_by|intros _].
    apply brings_kept; [bounded_by|intros m]; apply kept_mret.
Qed.

(** Refused settings leave the item as it is. *)
Lemma setSettings_refused mon mode p type s ret s' :
  setMonitoredItemSettings mon mode p type s = Some (ret, s') -> bad ret = true -> s' = s.
Proof using.
  intros (m & s1 & [_ ->]%deref_mon_inv & H)%bind_inv Hbad; destruct (check_filter _ _ _) as [st filter].
  destruct (bad st); [by apply ret_inv in H as [_ ->]|]; exfalso.
  apply bind_inv in H as (u1 & s1 & _ & H); apply bind_inv in H as (u2 & s2 & _ & H).
  destruct (sampling_settings _ _) as [ty interval].
  apply bind_inv in H as (u3 & s3 & _ & H); apply bind_inv in H as (u4 & s4 & _ & [-> _]%ret_inv); done.
Qed.

Lemma kept_modifyItem a r : kept all_within (Operation_ModifyMonitoredItem a r).
Proof.
  assert (Hd := demand_within); destruct r as [id p]; unfold Operation_ModifyMonitoredItem.
  apply kept_bind; [bounded_by|intros [mon|]]; [|bounded_by].
  apply kept_bind; [bounded_by|intros m].
  intros s b s' Hs (ret & s1 & Hset & H)%bind_inv; destruct (bad ret) eqn:Hbad.
  { apply ret_inv in H as [_ ->]; by rewrite (setSettings_refused _ _ _ _ _ _ _ Hset Hbad). }
  assert (bounds (all_but mon) s1) as Hs1.
  { eapply setSettings_but; [|exact Hset]; eapply bounds_weaken; [|exact Hs].
    intros i y [H1 H2]; split; auto. }
  revert H; apply (brings_kept (all_but mon)); [bounded_by|intros m'|done].
  apply (brings_bind _ all_within); [apply ensureQueueSpace_within|intros _; apply kept_mret].
Qed.

(** ** Every call *)

Lemma kept_discard {A} (m : M A) : kept all_within m -> kept all_within (discard m).
Proof using. intros H; unfold discard; bounded_by. Qed.

Lemma kept_exec call : kept all_within (exec call).
Proof.
  assert (Hd := demand_within); destruct call; cbn [exec]; try apply kept_discard.
  - apply kept_CreateSubscription.
  - apply kept_ModifySubscription.
  - apply kept_SetPublishingMode.
  - by apply kept_DeleteSubscriptions.
  - assert (forall a ts l, kept all_within (SubscriptionServices.UA_Server_processServiceOperations (Operation_CreateMonitoredItem a ts) l))
      by (intros; apply kept_operations; intros; apply kept_createItem).
    unfold Service_CreateMonitoredItems; bounded_by.
  - apply kept_createItem.
  - by apply kept_deleteLocal.
  - assert (forall a l, kept all_within (SubscriptionServices.UA_Server_processServiceOperations (Operation_ModifyMonitoredItem a) l))
      by (intros; apply kept_operations; intros; apply kept_modifyItem).
    unfold Service_ModifyMonitoredItems; bounded_by.
  - by apply kept_SetMonitoringMode.
  - by apply kept_DeleteMonitoredItems.
  - by apply kept_Publish.
  - apply kept_Republish.
  - by apply kept_cleanup.
  - assert (forall l, kept all_within (run_callbacks l)).
    { intros l; induction l as [|[a|m] l IH]; cbn [run_callbacks run_callback]; bounded_by. }
    unfold run_timer; bounded_by.
  - apply kept_delayedCallbacks.
  - apply kept_set_channel.
  - bounded_by.
Qed.

Lemma kept_run calls : kept all_within (run calls).
Proof. pose proof kept_exec; induction calls as [|call calls IH]; cbn [run]; bounded_by. Qed.

Lemma bounds_init t : bounds all_within (subs_init t).
Proof using. split; cbn; [by intros m y|constructor|by intros a []%elem_of_nil|done]. Qed.

(** After any calls every queue is within the size of its item, and the
    session counts its subscriptions. *)
Lemma run_bounds calls t s : run calls (subs_init t) = Some (tt, s) -> bounds all_within s.
Proof. intros H; eapply kept_run; [apply bounds_init|exact H]. Qed.
End Sizes.
