(* ===== verification/SubscriptionCorrect.v ===== *)
(** * An example of subscriptions

    A configuration, an address space whose variable has another value at
    every reading, and calls of a client. *)

From Stdlib Require Import ZArith Lia SpecFloat.
From stdpp Require Import base list numbers tactics sets gmap.
From S2P Require Import Prelude StateMonad UaTypes UaValue BinarySize BinaryEncode BinarySpec Codec FieldCodec SubscriptionState Subscription SubscriptionServices SubscriptionInvariant SubscriptionLogic SubscriptionQueues SubscriptionSafe SubscriptionPublish SubscriptionServicesSafe SubscriptionBounds.

#[export] Existing Instance Codec.Example.env.

Module SubscriptionExample.
Definition dbl (z : Z) : double := binary_normalize 53 1024 z 0 false.

(** The [n]-th reading: a double with the image [n]. *)
Definition reading (n : nat) : UA_DataValue :=
  mkDataValue (mkDataValueHeader true false true true false false 0 (Z.of_nat n) 0 7 0)
    (VVariant (Some UA_TYPES_DOUBLE) (SScalar (VInt (Z.of_nat n))) ArrNull).

(** [memory]: is there memory for objects, and for the small entries? *)
Definition config (memory entries : nat -> bool) : SubscriptionEnv := {|
  maxSubscriptionsPerSession := 2;
  publishingIntervalLimits := (dbl 100, dbl 3600000);
  lifeTimeCountLimits := (3, 15000);
  keepAliveCountLimits := (1, 100);
  maxNotificationsPerPublish := 1000;
  maxRetransmissionQueueSize := 3;
  maxMonitoredItemsPerCall := 0;
  maxMonitoredItemsPerSubscription := 0;
  samplingIntervalLimits := (dbl 50, dbl 86400000);
  queueSizeLimits := (1, 100);
  maxPublishReqPerSession := 5;
  malloc_ok := memory;
  entry_ok := entries;
  readWithSession n _ _ := reading n;
  minimumSamplingInterval _ := None
|}.

#[export] Instance env : SubscriptionEnv := config (fun _ => true) (fun _ => true).

Lemma env_sane : sane.
Proof. split; [done|done|]; intros n r t n' r' t' d; by eexists. Qed.

(** A subscription every 500 ms with two notifications in a message, and an
    item with a queue of three. *)
Definition create : UA_CreateSubscriptionRequest := mkCreateSubscription (dbl 500) 10 2 2 true 0.

Definition variable : UA_ReadValueId := mkReadValueId (mkNodeId 1 (NumericId 1)) 13 ArrNull.

Definition monitor (queue : Z) (oldest : bool) : UA_MonitoredItemCreateRequest :=
  mkItemCreate variable (mkQualifiedName 0 ArrNull) 2 (mkParameters 77 (dbl 100) NoFilter queue oldest).

(** Callback 1 publishes, callback 2 samples. *)
Definition setup : list SubCall := [CreateSubscription create; CreateMonitoredItems 1 0 [monitor 3 true]].
Definition publish (i : Z) : SubCall := Publish (mkPublishRequest i []) i.

Definition after (calls : list SubCall) : option SubServer := snd <$> run calls (subs_init 5).

(** Values sent, by handle and image. *)
Definition sent_values (s : SubServer) : list (Z * Z * list (Z * UA_Value)) :=
  map (fun '(i, r) => (i, nm_sequenceNumber (pr_notificationMessage r),
         match nm_data (pr_notificationMessage r) with
         | Some l => map (fun '(h, v) => (h, match dv_value v with VVariant _ (SScalar x) _ => x | _ => VInt (-1) end)) l
         | None => []
         end)) (sent (world s)).

(** Six samples, a queue of three: two messages with the last three values. *)
Example six_samples :
  sent_values <$> after (setup ++ repeat (RunTimer [2]) 5 ++ [publish 1; publish 2; RunTimer [1]]) =
  Some [(2, 2, [(77, VInt 6)]); (1, 1, [(77, VInt 4); (77, VInt 5)])].
Proof. vm_compute; reflexivity. Qed.
End SubscriptionExample.

(** ** Subscriptions: main theorems

    Memory safety and the invariant of the queues, for every sequence of
    calls, and what publishing, overflow of a queue and the
    lifetime of a subscription do in a state that such a sequence leads to. *)

Section Correct.
Context {TE : TypeEnv} {E : SubscriptionEnv}.

(** What [publishCallback] does before it publishes. *)
Definition elapse (a : nat) : M unit := update_sub a (fun s => set_sub_ready s (notificationQueueSize s)).

(** The states that calls lead to, before and after every call, and before and
    after every round of publishing. *)
Inductive reachable : SubServer -> Prop :=
| reachable_calls calls t s : run calls (subs_init t) = Some (tt, s) -> reachable s
| reachable_elapsed s a s' : reachable s -> a ∈ serverSubscriptions (session s) ->
    elapse a s = Some (tt, s') -> reachable s'
| reachable_round s a more s' : reachable s -> a ∈ serverSubscriptions (session s) ->
    publish_once a s = Some (more, s') -> reachable s'.

Lemma listed_alive s a : inv None s -> a ∈ serverSubscriptions (session s) -> is_Some (k_items (skel s) !! a).
Proof. intros [H _] Ha; by destruct (ok_alive _ _ _ H a Ha) as [Hal _]. Qed.

Lemma reachable_inv_subs s : sane -> reachable s -> inv None s.
Proof.
  intros Hs; induction 1 as [calls t s Hr|s a s' _ IH Ha He|s a more s' _ IH Ha He].
  - pose proof (run_safe Hs calls _ (inv_subs_init t)) as H; unfold wp in H; by rewrite Hr in H.
  - assert (wp (elapse a) (fun _ => inv None) s) as H.
    { apply wp_update_sub_same; [by apply listed_alive|done|]; intros s1 H1; by eapply inv_same. }
    unfold wp in H; by rewrite He in H.
  - assert (wp (publish_once a) (fun _ => inv None) s) as H.
    { eapply wp_publish_once; [done|done|by apply listed_alive|]; intros ?? Hinv _; exact Hinv. }
    unfold wp in H; by rewrite He in H.
Qed.

(** ** Safety *)

(** C12: from a new session on, in an environment that is [sane], every sequence
    of service calls, runs of the timer, delayed callbacks and losses of the
    channel is executed: no pointer to a deleted subscription, monitored item
    or notification is followed, no element is removed from a list that does
    not hold it, and every loop ends.  Sane are environments in which the
    queues of items have room for a notification, the entries that remove
    callbacks from the timer and free objects later find memory (a callback
    would be left dangling otherwise; all other allocations may fail), and the
    comparison of any two readings by a deadband is defined. *)
Theorem subscriptions_safe calls t : sane -> exists s, run calls (subs_init t) = Some (tt, s).
Proof.
  intros Hs; destruct (wp_defined _ _ _ (run_safe Hs calls _ (inv_subs_init t))) as ([] & s & H & _); by exists s.
Qed.

(** The queue of a subscription, its items and their queues; the counters are
    of 32 bits. *)
Definition consistent (s : SubServer) (a : nat) : Prop :=
  exists x, h_subs s !! a = Some x /\ NoDup (notificationQueue x) /\ NoDup (monitoredItems x) /\
    notificationQueueSize x = u32 (zlen (notificationQueue x)) /\
    dataChangeNotifications x = notificationQueueSize x /\
    retransmissionQueueSize x = u32 (zlen (retransmissionQueue x)) /\
    (0 < maxRetransmissionQueueSize < 2 ^ 32 ->
     zlen (retransmissionQueue x) <= maxRetransmissionQueueSize) /\
    (forall m, m ∈ monitoredItems x -> exists y, h_mons s !! m = Some y /\ mi_subscription y = Some a /\
       mi_queue y = filter (fun i => n_mon <$> h_notifs s !! i = Some m) (notificationQueue x) /\
       queueSize y = u32 (zlen (mi_queue y))) /\
    (forall i, i ∈ notificationQueue x -> exists n, h_notifs s !! i = Some n /\ n_mon n ∈ monitoredItems x).

Lemma inv_consistent s a : inv None s -> a ∈ serverSubscriptions (session s) -> consistent s a.
Proof.
  intros [H Hc] Ha; destruct (ok_alive _ _ _ H a Ha) as [Hal Hd]; destruct (alive_sub _ _ Hal) as [x Hx].
  destruct (counts_sub _ _ _ Hc Hx) as (C1 & C2 & C3 & C4); exists x; split; [done|].
  destruct (ok_items _ _ _ H a _ (sub_items _ _ _ Hx)) as [Hnd Hin].
  split; [by apply (ok_queue _ _ _ H a), sub_queue|]; do 5 (split; [done|]); split.
  - intros m Hm; destruct (Hin m Hm) as (Hof & _); destruct (of_mon _ _ _ Hof) as (y & Hy & Hsub).
    destruct (counts_mon _ _ _ Hc Hy) as (C & _); exists y; do 2 (split; [done|]); split; [|done].
    destruct (ok_own _ _ _ H _ _ Hof) as (l & Hl & Hq).
    rewrite (sub_queue _ _ _ Hx) in Hl; apply (inj Some) in Hl as <-.
    rewrite (mon_mine _ _ _ Hy) in Hq; apply (inj Some) in Hq; rewrite Hq.
    apply filter_ext_in; intros i _; cbn; by rewrite lookup_fmap.
  - intros i Hi; destruct (ok_queued _ _ _ H a _ i (sub_queue _ _ _ Hx) Hi) as (m & Ho & Hof & _ & Hz).
    destruct (owner_notif _ _ _ Ho) as (n & Hn & <-); exists n; split; [done|].
    destruct (ok_kept _ _ _ H _ _ Hof) as [?|[Hdel|(l & Hl & Hm)]]; [done|by apply Hz in Hdel|].
    rewrite (sub_items _ _ _ Hx) in Hl; by apply (inj Some) in Hl as ->.
Qed.

(** C13: in an environment that is [sane], after every sequence of calls the two
    queues agree: the queue of a monitored item is the part of the queue of its
    subscription that belongs to it, in the same order, and every notification
    belongs to an item of the subscription.  The counters count what they
    stand for, modulo 2^32: [numPublishReq] the waiting requests,
    [notificationQueueSize] and [dataChangeNotifications] the queue of a
    subscription, [retransmissionQueueSize] its messages, [queueSize] the queue
    of an item.  No more messages are kept for retransmission than configured.
    If the configured limits of queues are below 2^32-1, so that [queueSize]
    does not wrap, the queue of every item is within its [maxQueueSize], and
    [numSubscriptions] counts the subscriptions of the session.
    [monitoredItemsSize] is not covered. *)
Theorem queues_consistent calls t : sane ->
  exists s, run calls (subs_init t) = Some (tt, s) /\
    NoDup (serverSubscriptions (session s)) /\
    numPublishReq (session s) = u32 (zlen (responseQueue (session s))) /\
    (forall a, a ∈ serverSubscriptions (session s) -> consistent s a) /\
    (fst queueSizeLimits < 2 ^ 32 - 1 /\ snd queueSizeLimits < 2 ^ 32 - 1 ->
     (forall m y, h_mons s !! m = Some y -> zlen (mi_queue y) <= queueSize y <= maxQueueSize y) /\
     numSubscriptions (session s) = u32 (zlen (serverSubscriptions (session s)))).
Proof.
  intros Hs; destruct (wp_defined _ _ _ (run_safe Hs calls _ (inv_subs_init t))) as ([] & s & H & Hinv).
  exists s; split; [done|]; split; [apply (ok_subs _ _ _ (proj1 Hinv))|]; split; [apply Hinv|].
  split; [intros a; by apply inv_consistent|]; intros Hlim.
  destruct (run_bounds (sane_queues Hs) Hlim calls t s H) as [Hq _ _ Hn]; split; [|exact Hn].
  intros m y Hy; destruct (Hq m y Hy) as [[[? _] _] Hw]; by split.
Qed.

(** ** Publishing *)

Lemma wp_dequeue_some pre l (Q : option UA_PublishResponseEntry -> SubServer -> Prop) s :
  responseQueue (session s) = pre :: l ->
  Q (Some pre) (with_session s (set_responses (session s) l (u32 (numPublishReq (session s) - 1)))) ->
  wp UA_Session_dequeuePublishReq Q s.
Proof. intros Hl HQ; apply wp_bind, wp_gets; rewrite Hl; exact HQ. Qed.

(** How many notifications are ready, and how many a message takes. *)
Definition ready (x : UA_Subscription) : Z := Z.min (readyNotifications x) (notificationQueueSize x).
Definition message_size (x : UA_Subscription) : Z := Z.min (notificationsPerPublish x) (ready x).

(** The subscription at the beginning of a round, when there is a request. *)
Definition round_start (x : UA_Subscription) : UA_Subscription :=
  let x := set_sub_counts x (sequenceNumber x) (currentKeepAliveCount x) 0 in
  if notificationQueueSize x <? readyNotifications x then set_sub_ready x (notificationQueueSize x) else x.

Lemma round_start_same x : sub_same x (round_start x).
Proof. unfold round_start; cbn; by destruct (_ <? _). Qed.

Lemma round_start_fields x :
  notificationQueue (round_start x) = notificationQueue x /\
  subscriptionId (round_start x) = subscriptionId x /\
  sequenceNumber (round_start x) = sequenceNumber x /\
  retransmissionQueue (round_start x) = retransmissionQueue x /\
  currentLifetimeCount (round_start x) = 0 /\
  message_size x <= notificationQueueSize (round_start x).
Proof.
  unfold round_start, message_size, ready; cbn.
  destruct (notificationQueueSize x <? readyNotifications x); cbn; repeat split; lia.
Qed.

Lemma available_start x : publishingEnabled x = true ->
  available (round_start x) = (message_size x, notificationsPerPublish x <? ready x).
Proof.
  intros He; unfold round_start, available, message_size, ready; cbn.
  destruct (Z.ltb_spec (notificationQueueSize x) (readyNotifications x)); cbn; rewrite He;
    [rewrite (Z.min_r (readyNotifications x)) by lia|rewrite (Z.min_l (readyNotifications x)) by lia];
    match goal with |- context [?a <? ?b] => destruct (Z.ltb_spec a b) end; f_equal; lia.
Qed.

Section Round.
Context (s : SubServer) (a : nat) (x : UA_Subscription) (pre : UA_PublishResponseEntry)
  (l : list UA_PublishResponseEntry).
Hypothesis Hmem : forall k, malloc_ok k = true.
Hypothesis Hinv : inv None s.
Hypothesis Hx : h_subs s !! a = Some x.
Hypothesis Hl : responseQueue (session s) = pre :: l.
Hypothesis Hch : s_channel (session s) = true.
Hypothesis Hen : publishingEnabled x = true.
Hypothesis Hn : 0 < message_size x.

(** The message with the notifications [es], and the subscription afterwards. *)
Definition round_message (es : list (Z * UA_DataValue)) : UA_NotificationMessage :=
  mkMessage (UA_Subscription_nextSequenceNumber (sequenceNumber x)) (clock (world s)) (Some es).

Definition round_sub (es : list (Z * UA_DataValue)) : UA_Subscription :=
  published (with_rest (round_start x) (drop (Z.to_nat (message_size x)) (notificationQueue x)))
    (message_size x) (round_message es).

Definition round_response (es : list (Z * UA_DataValue)) : UA_PublishResponse :=
  mkPublishResponse (pr_requestHandle (pre_response pre)) (clock (world s))
    (pr_serviceResult (pre_response pre)) (subscriptionId x)
    (map nm_sequenceNumber (retransmissionQueue (round_sub es)))
    (notificationsPerPublish x <? ready x) (round_message es) (pr_results (pre_response pre)).

Lemma wp_round (Q : bool -> SubServer -> Prop) :
  (forall s' es, inv None s' ->
     Forall2 (fun i e => entry s i = Some e)
       (take (Z.to_nat (message_size x)) (notificationQueue x)) es ->
     session s' = set_responses (session s) l (u32 (numPublishReq (session s) - 1)) ->
     h_subs s' = <[a := round_sub es]> (h_subs s) ->
     sent (world s') = (pre_requestId pre, round_response es) :: sent (world s) ->
     Q (notificationsPerPublish x <? ready x) s') ->
  wp (publish_once a) Q s.
Proof.
  intros HQ; eapply wp_bind, wp_dequeue_some; [exact Hl|]; set (s1 := with_session s _).
  assert (same s s1) as H1.
  { apply same_with_session; [done|]; cbn; intros ->; rewrite Hl, zlen_cons, u32_pred; f_equal; lia. }
  eapply wp_bind, wp_count_lifetime; [exact Hx|]; cbn zeta.
  set (x2 := set_sub_counts x _ _ 0).
  destruct (step_sub s s1 a x x2 Hinv H1 Hx) as (H2 & Hinv2 & Hx2); [done|].
  eapply wp_bind, wp_deref_sub; [exact Hx2|].
  eapply wp_update_if; [exact Hx2|]; change (if _ <? readyNotifications x2 then _ else x2) with (round_start x).
  destruct (step_sub s _ a x2 (round_start x) Hinv H2 Hx2) as (H3 & Hinv3 & Hx3).
  { change (round_start x) with (if notificationQueueSize x2 <? readyNotifications x2 then set_sub_ready x2 (notificationQueueSize x2) else x2).
    destruct (notificationQueueSize x2 <? readyNotifications x2); repeat split; try done; apply H. }
  eapply wp_bind, wp_deref_sub; [exact Hx3|]; rewrite available_start by done.
  assert ((message_size x =? 0) = false) as Hz by lia; rewrite Hz; cbn [andb].
  match type of Hx3 with h_subs ?st !! _ = _ => set (s3 := st) in * end.
  assert (s_channel (session s3) = true) as Hch3 by exact Hch.
  apply wp_bind, wp_ret, wp_bind, wp_gets; rewrite Hch3; cbn [negb].
  destruct (round_start_fields x) as (Eq & Ei & Es & Er & Ez & Hle).
  eapply wp_bind, wp_make_message; [exact Hinv3|exact Hx3| | |lia|].
  - exact Hle.
  - intros w [k Hk]; by rewrite Hmem in Hk.
  - intros s4 es _ Hinv4 H4 Hsess Hclock Hsent Hsubs Hes; rewrite Eq in *.
    assert (h_subs s4 !! a = Some (with_rest (round_start x) (drop (Z.to_nat (message_size x)) (notificationQueue x)))) as Hx4
      by (rewrite Hsubs; apply lookup_insert_eq).
    eapply wp_bind, wp_send_publishResponse; [exact Hx4|by eapply counts_sub, Hx4; apply Hinv4|by rewrite Hsess|].
    cbn zeta; apply wp_ret; eapply HQ with (es := es).
    + eapply inv_same; [exact Hinv4|]; etrans; [eapply same_with_sub; [exact Hx4|apply published_same]|].
      by apply same_with_world.
    + exact Hes.
    + exact Hsess.
    + cbn; rewrite Hsubs, Hclock; cbn; rewrite !insert_insert_eq, Es; done.
    + cbn; rewrite Hsent, Hclock; cbn; rewrite Ei, Es; done.
Qed.
End Round.

(** C14: When a request waits and the session has a channel, publishing sends
    the first notifications of the queue, as many as are ready and the
    subscription allows in one message, in their order, with the next sequence
    number as the answer to the oldest request.  They leave the queue, the
    message is kept for retransmission, and its number is among the available
    ones; more notifications are announced exactly when more are ready. *)
Theorem publish_sends s a x pre l :
  sane -> reachable s -> (forall k, malloc_ok k = true) -> h_subs s !! a = Some x ->
  responseQueue (session s) = pre :: l -> s_channel (session s) = true ->
  publishingEnabled x = true -> 0 < message_size x ->
  let n := Z.to_nat (message_size x) in
  let more := notificationsPerPublish x <? ready x in
  exists s' es x',
    publish_once a s = Some (more, s') /\
    Forall2 (fun i e => entry s i = Some e) (take n (notificationQueue x)) es /\
    let m := mkMessage (UA_Subscription_nextSequenceNumber (sequenceNumber x)) (clock (world s)) (Some es) in
    sent (world s') =
      (pre_requestId pre,
       mkPublishResponse (pr_requestHandle (pre_response pre)) (clock (world s))
         (pr_serviceResult (pre_response pre)) (subscriptionId x)
         (map nm_sequenceNumber (retransmissionQueue x')) more m (pr_results (pre_response pre)))
      :: sent (world s) /\
    responseQueue (session s') = l /\ h_subs s' = <[a := x']> (h_subs s) /\
    notificationQueue x' = drop n (notificationQueue x) /\
    sequenceNumber x' = nm_sequenceNumber m /\
    retransmissionQueue x' = retained m (retransmissionQueue x) /\
    sub_state x' = UA_SUBSCRIPTIONSTATE_NORMAL /\ currentKeepAliveCount x' = 0 /\
    currentLifetimeCount x' = 0.
Proof.
  intros Hs Hr Hmem Hx Hl Hch Hen Hn n more; apply (reachable_inv_subs _ Hs) in Hr.
  destruct (wp_defined _ _ _ (wp_round s a x pre l Hmem Hr Hx Hl Hch Hen Hn
    (fun r s' => r = more /\ exists es,
     Forall2 (fun i e => entry s i = Some e) (take n (notificationQueue x)) es /\
     responseQueue (session s') = l /\ h_subs s' = <[a := round_sub s x es]> (h_subs s) /\
     sent (world s') = (pre_requestId pre, round_response s x pre es) :: sent (world s))
    ltac:(intros s' es _ H1 H2 H3 H4; split; [done|]; exists es; by rewrite H2)))
    as (r & s' & Hp & -> & es & Hes & Hq & Hsubs & Hsent).
  destruct (round_start_fields x) as (Eq & Ei & Es & Er & Ez & _).
  exists s', es, (round_sub s x es); split; [done|]; split; [done|]; cbn zeta; split; [done|].
  split; [done|]; split; [done|]; unfold round_sub, published.
  destruct (Z.ltb_spec 0 (message_size x)); [|lia]; cbn; by rewrite Er.
Qed.

(** ** Retransmission *)

Lemma find_subscription_ext id l s s' r :
  (forall a, subscriptionId <$> h_subs s' !! a = subscriptionId <$> h_subs s !! a) ->
  find_subscription id l s = Some (r, s) -> find_subscription id l s' = Some (r, s').
Proof.
  intros He; induction l as [|a l IH]; cbn [find_subscription]; [by intros [-> _]%ret_inv|].
  intros (x & s1 & H1 & H)%bind_inv; unfold deref_sub in *.
  apply bind_inv in H1 as (h & s2 & [-> ->]%gets_inv & [Hx ->]%the_inv).
  specialize (He a); rewrite Hx in He; destruct (h_subs s' !! a) as [x'|] eqn:Hx'; [|done].
  cbn in He; injection He as He; unfold mbind, M_bind, gets; rewrite Hx'; cbn; rewrite He.
  destruct (_ =? _); [by apply ret_inv in H as [-> _]|by apply IH].
Qed.

Lemma getSubscription_ext id s s' r :
  serverSubscriptions (session s') = serverSubscriptions (session s) ->
  (forall a, subscriptionId <$> h_subs s' !! a = subscriptionId <$> h_subs s !! a) ->
  UA_Session_getSubscriptionById id s = Some (r, s) ->
  UA_Session_getSubscriptionById id s' = Some (r, s').
Proof.
  intros Hs He (x & s1 & [-> ->]%gets_inv & H)%bind_inv.
  unfold UA_Session_getSubscriptionById, mbind, M_bind, gets; rewrite Hs; by eapply find_subscription_ext.
Qed.

End Correct.

(** ** The theorems on an example *)

Module CorrectExample.
Import SubscriptionExample.

(** A state that calls lead to, perhaps when an interval of subscription 0 has
    just elapsed. *)
Definition end_state (calls : list SubCall) (interval : bool) : option SubServer :=
  s ← after calls; if interval then snd <$> elapse 0 s else Some s.

Lemma reach calls interval check :
  (check <$> end_state calls interval) = Some true ->
  (interval = true -> ((fun s => bool_decide (serverSubscriptions (session s) = [0%nat])) <$> after calls) = Some true) ->
  exists s, reachable s /\ check s = true.
Proof.
  unfold end_state, after; destruct (run calls (subs_init 5)) as [[[] s]|] eqn:E; [|done]; cbn.
  assert (reachable s) as Hs by by eapply reachable_calls.
  destruct interval; cbn; [|by intros [= Hc] _; exists s].
  destruct (elapse 0 s) as [[[] s']|] eqn:E'; [|done]; cbn; intros [= Hc] Hl; exists s'; split; [|done].
  specialize (Hl eq_refl); injection Hl as Hl%bool_decide_eq_true.
  eapply reachable_elapsed; [exact Hs| |exact E']; rewrite Hl; apply list_elem_of_here.
Qed.

(** Subscription 0 is the only one. *)
Definition alone (check : UA_Subscription -> UA_Session -> bool) (s : SubServer) : bool :=
  match h_subs s !! 0%nat, serverSubscriptions (session s) with
  | Some x, [0%nat] => check x (session s)
  | _, _ => false
  end.

Lemma alone_spec check s : alone check s = true ->
  exists x, h_subs s !! 0%nat = Some x /\ serverSubscriptions (session s) = [0%nat] /\
    UA_Session_getSubscriptionById (subscriptionId x) s = Some (Some 0%nat, s) /\
    check x (session s) = true.
Proof.
  unfold alone; destruct (h_subs s !! 0%nat) as [x|] eqn:Hx; [|done].
  destruct (serverSubscriptions (session s)) as [|[|] [|]] eqn:Hl; try done; intros Hc.
  exists x; split; [done|]; split; [done|]; split; [|done].
  unfold UA_Session_getSubscriptionById, mbind, M_bind, gets; rewrite Hl; cbn.
  unfold mbind, M_bind, deref_sub, gets; cbn; unfold mbind, M_bind, gets; rewrite Hx; cbn.
  by rewrite Z.eqb_refl.
Qed.

(** A request waits, and there are notifications for it. *)
Definition can_publish (x : UA_Subscription) (s : UA_Session) : bool :=
  match responseQueue s with [] => false | _ => true end &&
  s_channel s && publishingEnabled x && (0 <? message_size x) &&
  (notificationsPerPublish x <? ready x).

Lemma can_publish_spec x s : can_publish x s = true ->
  exists pre l, responseQueue s = pre :: l /\ s_channel s = true /\ publishingEnabled x = true /\
    0 < message_size x /\ (notificationsPerPublish x <? ready x) = true.
Proof.
  unfold can_publish; rewrite !andb_true_iff; intros [[[[Hl ?] ?] ?%Z.ltb_lt] ?].
  destruct (responseQueue s) as [|pre l]; [done|]; by exists pre, l.
Qed.

(** Three samples, a request, and the end of the publishing interval. *)
Definition sampled : list SubCall := setup ++ repeat (RunTimer [2]) 3 ++ [publish 1; publish 2].

Lemma sampled_reachable : exists s, reachable s /\ alone can_publish s = true.
Proof. apply (reach sampled true); [|intros _]; vm_compute; reflexivity. Qed.
End CorrectExample.

Lemma subscriptions_safe_witness :
  exists s, run (E := SubscriptionExample.env) CorrectExample.sampled (subs_init 5) = Some (tt, s).
Proof. exact (subscriptions_safe _ _ SubscriptionExample.env_sane). Defined.

Lemma queues_consistent_witness :
  exists s, run (E := SubscriptionExample.env) CorrectExample.sampled (subs_init 5) = Some (tt, s) /\
    (forall a, a ∈ serverSubscriptions (session s) -> consistent (E := SubscriptionExample.env) s a) /\
    (forall m y, h_mons s !! m = Some y -> zlen (mi_queue y) <= queueSize y <= maxQueueSize y).
Proof.
  destruct (queues_consistent CorrectExample.sampled 5 SubscriptionExample.env_sane) as (s & Hr & _ & _ & H & Hq).
  exists s; split; [exact Hr|]; split; [exact H|]; apply Hq; by split.
Defined.

Lemma publish_sends_witness :
  exists s s' r, reachable (E := SubscriptionExample.env) s /\
    publish_once (E := SubscriptionExample.env) 0 s = Some (true, s') /\
    sent (world s') = r :: sent (world s).
Proof.
  destruct CorrectExample.sampled_reachable as (s & Hr & Hc).
  destruct (CorrectExample.alone_spec _ _ Hc) as (x & Hx & _ & _ & Hp).
  destruct (CorrectExample.can_publish_spec _ _ Hp) as (pre & l & Hl & Hch & Hen & Hn & Hm).
  destruct (publish_sends s 0 x pre l SubscriptionExample.env_sane Hr (fun _ => eq_refl) Hx Hl Hch Hen Hn)
    as (s' & es & x' & Hp' & _ & Hsent & _).
  rewrite Hm in Hp'; exists s, s'; eexists; split; [exact Hr|]; split; [exact Hp'|exact Hsent].
Defined.
