(* ===== verification/SubscriptionRetransmission.v ===== *)
(** * Subscriptions: retransmission ([src/server/ua_subscription.c],
    [src/server/ua_services_subscription.c])

    How long a published message can be requested again: over the requests,
    rounds of publishing, acknowledgements and Republish calls that follow, of
    all subscriptions of the session. *)

From Stdlib Require Import ZArith Lia SpecFloat.
From stdpp Require Import base list numbers tactics sets gmap.
From S2P Require Import Prelude StateMonad UaTypes UaValue SubscriptionState Subscription SubscriptionServices SubscriptionInvariant SubscriptionLogic SubscriptionQueues SubscriptionSafe SubscriptionPublish SubscriptionServicesSafe SubscriptionCorrect.

Section Retransmission.
Context {TE : TypeEnv} {E : SubscriptionEnv}.

(** ** What the calls do *)

Lemma find_subscription_inv id l s r s' : find_subscription id l s = Some (r, s') ->
  s' = s /\ match r with Some b => exists y, h_subs s !! b = Some y /\ subscriptionId y = id | None => True end.
Proof.
  induction l as [|a l IH]; cbn [find_subscription]; [by intros [-> ->]%ret_inv|].
  intros (y & s1 & (h & s2 & [-> ->]%gets_inv & [Hy ->]%the_inv)%bind_inv & H)%bind_inv.
  destruct (Z.eqb_spec (subscriptionId y) id) as [Hid|]; [|auto].
  apply ret_inv in H as [-> ->]; split; [done|]; by exists y.
Qed.

Lemma getSubscription_inv id s r s' : UA_Session_getSubscriptionById id s = Some (r, s') ->
  s' = s /\ match r with Some b => exists y, h_subs s !! b = Some y /\ subscriptionId y = id | None => True end.
Proof. intros (x & s1 & [-> ->]%gets_inv & H)%bind_inv; by apply find_subscription_inv in H. Qed.

Lemma update_sub_inv a f s u s' : update_sub a f s = Some (u, s') ->
  exists y, h_subs s !! a = Some y /\ s' = with_subs s (<[a := f y]> (h_subs s)).
Proof.
  intros (y & s1 & (h & s2 & [-> ->]%gets_inv & [Hy ->]%the_inv)%bind_inv & ->%modify_inv)%bind_inv; by exists y.
Qed.

(** The message with a number is found and copied; the queue stays. *)
Lemma republish_found id seq a x s :
  UA_Session_getSubscriptionById id s = Some (Some a, s) -> h_subs s !! a = Some x ->
  (forall k, malloc_ok k = true) ->
  exists s', Service_Republish id seq s =
    Some (match find_message seq (retransmissionQueue x) with
          | Some m => (GOOD, m) | None => (BADMESSAGENOTAVAILABLE, message_init) end, s').
Proof.
  intros Hg Hx Hmem; unfold Service_Republish, reset_lifetime, update_sub, deref_sub, alloc, malloc.
  unfold mbind, M_bind, gets, modify, mret, M_ret; rewrite Hg; cbn; rewrite ?Hx; cbn;
  rewrite ?Hx, lookup_insert_eq; cbn; unfold find_message.
  destruct (List.find _ (retransmissionQueue x)); [rewrite Hmem|]; by eexists.
Qed.

Definition relived (x : UA_Subscription) : UA_Subscription :=
  set_sub_counts x (sequenceNumber x) (currentKeepAliveCount x) 0.

Lemma republish_inv id seq s r s' : Service_Republish id seq s = Some (r, s') ->
  session s' = session s /\
  (h_subs s' = h_subs s \/ exists b y, h_subs s !! b = Some y /\ h_subs s' = <[b := relived y]> (h_subs s)).
Proof.
  intros (o & s1 & [-> _]%getSubscription_inv & H)%bind_inv; destruct o as [b|]; [|apply ret_inv in H as [_ ->]; auto].
  apply bind_inv in H as (u & s2 & (y & Hy & ->)%update_sub_inv & H).
  apply bind_inv in H as (y' & s3 & (h & s4 & [_ ->]%gets_inv & [_ ->]%the_inv)%bind_inv & H).
  assert (session s' = session s /\ h_subs s' = <[b := relived y]> (h_subs s)) as [? ?]; [|split; [done|]; right; by exists b, y].
  destruct (find_message seq (retransmissionQueue y')); [|by apply ret_inv in H as [_ ->]].
  unfold alloc, malloc in H; apply bind_inv in H as (ok & s5 & Ha & [_ ->]%ret_inv).
  apply bind_inv in Ha as (p & s6 & Hp & [_ ->]%ret_inv).
  apply bind_inv in Hp as (k & s7 & [-> ->]%gets_inv & Hp).
  by apply bind_inv in Hp as (v & s8 & ->%modify_inv & [_ ->]%ret_inv).
Qed.

(** An acknowledgement takes the first message with the number out. *)
Definition without_message (seq : Z) (x : UA_Subscription) : UA_Subscription :=
  set_sub_retransmission x (remove_message seq (retransmissionQueue x)) (u32 (retransmissionQueueSize x - 1)).

Lemma acknowledge_inv id seq s r s' : acknowledge [(id, seq)] s = Some (r, s') ->
  s' = s \/ exists b y, h_subs s !! b = Some y /\ subscriptionId y = id /\
    s' = with_subs s (<[b := without_message seq y]> (h_subs s)).
Proof.
  cbn [acknowledge]; intros (o & s1 & [-> Ho]%getSubscription_inv & H)%bind_inv.
  apply bind_inv in H as (st & s2 & H & Hrest).
  apply bind_inv in Hrest as (rs & s3 & [-> ->]%ret_inv & [_ ->]%ret_inv).
  destruct o as [b|]; [|apply ret_inv in H as [_ ->]; auto]; destruct Ho as (y & Hy & Hid).
  apply bind_inv in H as (y' & s3 & (h & s4 & [-> ->]%gets_inv & [Hy' ->]%the_inv)%bind_inv & H).
  destruct (find_message seq (retransmissionQueue y')); [|apply ret_inv in H as [_ ->]; auto].
  apply bind_inv in H as (v & s4 & (z & Hz & ->)%update_sub_inv & [_ ->]%ret_inv).
  right; exists b, z; split; [done|]; split; [congruence|done].
Qed.

Lemma acknowledge_one id seq a x m s :
  UA_Session_getSubscriptionById id s = Some (Some a, s) -> h_subs s !! a = Some x ->
  find_message seq (retransmissionQueue x) = Some m ->
  acknowledge [(id, seq)] s = Some ([GOOD], with_subs s (<[a := without_message seq x]> (h_subs s))).
Proof.
  intros Hg Hx Hm; unfold acknowledge, UA_Subscription_removeRetransmissionMessage, update_sub, deref_sub.
  unfold mbind, M_bind, gets, modify, mret, M_ret; rewrite Hg; cbn; rewrite ?Hx; cbn; rewrite Hm, ?Hx; done.
Qed.

(** ** Messages in a queue *)

Lemma find_message_none seq l : seq ∉ map nm_sequenceNumber l -> find_message seq l = None.
Proof.
  unfold find_message; induction l as [|m l IH]; cbn; [done|].
  intros [H1 H2]%not_elem_of_cons; destruct (Z.eqb_spec (nm_sequenceNumber m) seq); [congruence|auto].
Qed.

Lemma find_message_at m l1 l2 : nm_sequenceNumber m ∉ map nm_sequenceNumber l1 ->
  find_message (nm_sequenceNumber m) (l1 ++ m :: l2) = Some m.
Proof.
  unfold find_message; induction l1 as [|e l1 IH]; cbn; [by rewrite Z.eqb_refl|].
  intros [H1 H2]%not_elem_of_cons; destruct (Z.eqb_spec (nm_sequenceNumber e) (nm_sequenceNumber m)); [congruence|auto].
Qed.

Lemma remove_message_at m l1 l2 : nm_sequenceNumber m ∉ map nm_sequenceNumber l1 ->
  remove_message (nm_sequenceNumber m) (l1 ++ m :: l2) = l1 ++ l2.
Proof.
  induction l1 as [|e l1 IH]; cbn; [by rewrite Z.eqb_refl|].
  intros [H1 H2]%not_elem_of_cons; destruct (Z.eqb_spec (nm_sequenceNumber e) (nm_sequenceNumber m)); [congruence|].
  f_equal; auto.
Qed.

Lemma remove_message_subset seq l e : e ∈ remove_message seq l -> e ∈ l.
Proof.
  induction l as [|d l IH]; cbn; [done|]; destruct (_ =? _); [by right|].
  intros [->|H]%elem_of_cons; [by left|right; auto].
Qed.

Lemma remove_message_length seq l : (length (remove_message seq l) <= length l)%nat.
Proof. induction l as [|d l IH]; cbn; [done|]; destruct (_ =? _); cbn; lia. Qed.

(** Another message is taken out in front or behind. *)
Lemma remove_message_other seq m l1 l2 : seq <> nm_sequenceNumber m ->
  exists l1' l2', remove_message seq (l1 ++ m :: l2) = l1' ++ m :: l2' /\ (length l1' <= length l1)%nat /\
    (forall e, e ∈ l1' -> e ∈ l1) /\ (forall e, e ∈ l2' -> e ∈ l2).
Proof.
  intros Hne; induction l1 as [|e l1 IH]; cbn.
  - destruct (Z.eqb_spec (nm_sequenceNumber m) seq) as [|_]; [congruence|].
    exists [], (remove_message seq l2); repeat split; try done; intros e; apply remove_message_subset.
  - destruct (_ =? _); [exists l1, l2; repeat split; try done; [cbn; lia|intros d; by right]|].
    destruct IH as (l1' & l2' & -> & Hl & H1 & H2); exists (e :: l1'), l2'; repeat split; [cbn; lia| |exact H2].
    intros d [->|Hd]%elem_of_cons; [by left|right; auto].
Qed.

(** ** What follows a message *)

(** A round that answers a request with notifications. *)
Definition can_send (s : SubServer) (b : nat) (y : UA_Subscription) (pre : UA_PublishResponseEntry)
    (l : list UA_PublishResponseEntry) : Prop :=
  h_subs s !! b = Some y /\ responseQueue (session s) = pre :: l /\ s_channel (session s) = true /\
  publishingEnabled y = true /\ 0 < message_size y.

(** From a state to a later one, with [n] further messages of subscription [a]
    and no acknowledgement of message [seq] of it. *)
Inductive later (a : nat) (id seq : Z) (s : SubServer) : Z -> SubServer -> Prop :=
| LaterNow : later a id seq s 0 s
| LaterRequest n t pre u : later a id seq s n t ->
    UA_Session_queuePublishReq pre false t = Some (tt, u) -> later a id seq s n u
| LaterElapse n t b u : later a id seq s n t -> elapse b t = Some (tt, u) -> later a id seq s n u
| LaterPublish n t b y pre l more u : later a id seq s n t -> can_send t b y pre l ->
    publish_once b t = Some (more, u) -> later a id seq s (if decide (b = a) then n + 1 else n) u
| LaterAcknowledge n t id' seq' r u : later a id seq s n t -> (id', seq') <> (id, seq) ->
    acknowledge [(id', seq')] t = Some (r, u) -> later a id seq s n u
| LaterRepublish n t id' seq' r u : later a id seq s n t ->
    Service_Republish id' seq' t = Some (r, u) -> later a id seq s n u.

(** Sequence numbers count from 1 to 2^32-1 and start again. *)
Definition number_after (seq n : Z) : Z := 1 + (seq - 1 + n) mod (2 ^ 32 - 1).

Lemma number_after_0 n : let seq := UA_Subscription_nextSequenceNumber n in number_after seq 0 = seq.
Proof.
  unfold number_after, UA_Subscription_nextSequenceNumber, u32; pose proof (Z.mod_pos_bound (n + 1) (2 ^ 32)).
  destruct (Z.eqb_spec ((n + 1) mod 2 ^ 32) 0); cbn zeta; rewrite Z.mod_small; lia.
Qed.

Lemma number_after_succ seq n : number_after seq (n + 1) = UA_Subscription_nextSequenceNumber (number_after seq n).
Proof.
  unfold number_after, UA_Subscription_nextSequenceNumber, u32.
  replace (seq - 1 + (n + 1)) with (seq - 1 + n + 1) by lia; rewrite <- Zplus_mod_idemp_l.
  pose proof (Z.mod_pos_bound (seq - 1 + n) (2 ^ 32 - 1)) as H; set (k := (seq - 1 + n) mod (2 ^ 32 - 1)) in *.
  destruct (Z.eq_dec k (2 ^ 32 - 2)) as [->|]; [done|].
  rewrite !Z.mod_small by lia; destruct (Z.eqb_spec (1 + k + 1) 0); cbn zeta; lia.
Qed.

Lemma number_after_new seq n : 1 <= seq < 2 ^ 32 -> 0 < n < 2 ^ 32 - 1 -> number_after seq n <> seq.
Proof.
  intros Hs Hn H; unfold number_after in H; assert ((seq - 1 + n) mod (2 ^ 32 - 1) = (seq - 1) mod (2 ^ 32 - 1)) as He
    by (rewrite (Z.mod_small (seq - 1)); lia).
  assert (n mod (2 ^ 32 - 1) = 0) as Hz.
  { replace n with (seq - 1 + n - (seq - 1)) by lia; by rewrite Zminus_mod, He, Z.sub_diag, Zmod_0_l. }
  rewrite Z.mod_small in Hz; lia.
Qed.

Section Available.
Context (Hsane : sane) (Hmem : forall k, malloc_ok k = true) (Hmax : 0 <= maxRetransmissionQueueSize < 2 ^ 32).
Context (a : nat) (id : Z) (m : UA_NotificationMessage) (old : list UA_NotificationMessage).
Context (Hseq : 1 <= nm_sequenceNumber m < 2 ^ 32).

Abbreviation seq := (nm_sequenceNumber m).

(** Room for [n] more messages in front of it, before it is the last one and
    dropped. *)
Definition has_room (n : Z) : Prop :=
  n < 2 ^ 32 - 1 /\ (maxRetransmissionQueueSize = 0 \/ n < maxRetransmissionQueueSize).

(** The message is in the queue of its subscription, behind at most [n] newer
    ones with other numbers. *)
Definition holds (n : Z) (x : UA_Subscription) : Prop :=
  subscriptionId x = id /\ sequenceNumber x = number_after seq n /\ exists l1 l2,
    retransmissionQueue x = l1 ++ m :: l2 /\ zlen l1 <= n /\ (seq ∉ map nm_sequenceNumber l1) /\
    (forall e, e ∈ l2 -> e ∈ old).

Record available_after (n : Z) (t : SubServer) : Prop := mkAvailable {
  av_inv : inv None t;
  av_get : UA_Session_getSubscriptionById id t = Some (Some a, t);
  av_holds : exists x, h_subs t !! a = Some x /\ holds n x
}.

(** One subscription changes, and keeps its identifier. *)
Lemma available_update n n' t u b y y' : available_after n t -> inv None u ->
  serverSubscriptions (session u) = serverSubscriptions (session t) ->
  h_subs t !! b = Some y -> h_subs u = <[b := y']> (h_subs t) -> subscriptionId y' = subscriptionId y ->
  (b = a -> holds n y -> holds n' y') -> (b <> a -> n' = n) -> available_after n' u.
Proof using.
  intros [_ Hg (x & Hx & Hh)] Hu Hs Hy Hsubs Hid Hself Hother; split; [done| |].
  - eapply getSubscription_ext; [exact Hs| |exact Hg]; intros c; rewrite Hsubs.
    destruct (decide (b = c)) as [<-|Hne]; [by rewrite lookup_insert_eq, Hy; cbn; rewrite Hid|by rewrite lookup_insert_ne].
  - destruct (decide (b = a)) as [->|Hne].
    + exists y'; rewrite Hsubs, lookup_insert_eq; split; [done|]; assert (y = x) as -> by congruence; auto.
    + exists x; rewrite Hsubs, lookup_insert_ne by done; split; [done|]; by rewrite (Hother Hne).
Qed.

(** Nothing changes for the subscriptions. *)
Lemma available_same n t u : available_after n t -> inv None u ->
  serverSubscriptions (session u) = serverSubscriptions (session t) -> h_subs u = h_subs t -> available_after n u.
Proof using.
  intros Ha Hu Hs Hsubs; destruct (av_holds _ _ Ha) as (x & Hx & Hh).
  eapply (available_update n n t u a x x); try done; by rewrite Hsubs, insert_id.
Qed.

Lemma run_inv {A} (c : M A) t r u : wp c (fun _ => inv None) t -> c t = Some (r, u) -> inv None u.
Proof using. unfold wp; intros H Hc; by rewrite Hc in H. Qed.

Lemma acknowledge_kept q t r u : inv None t -> acknowledge q t = Some (r, u) -> inv None u.
Proof using.
  intros Hinv; apply run_inv; apply wp_acknowledge; [exact Hinv|by intros].
Qed.

Lemma round_sub_fields s y es : 0 < message_size y -> let y' := round_sub s y es in
  subscriptionId y' = subscriptionId y /\
  sequenceNumber y' = UA_Subscription_nextSequenceNumber (sequenceNumber y) /\
  retransmissionQueue y' = retained (round_message s y es) (retransmissionQueue y).
Proof using.
  intros Hn; destruct (round_start_fields y) as (_ & Ei & _ & Er & _).
  unfold round_sub, published; destruct (Z.ltb_spec 0 (message_size y)); [|lia]; cbn; by rewrite Er.
Qed.

Lemma round_inv t b y pre l more u : inv None t -> can_send t b y pre l -> publish_once b t = Some (more, u) ->
  more = (notificationsPerPublish y <? ready y) /\ inv None u /\
  serverSubscriptions (session u) = serverSubscriptions (session t) /\ exists es,
  h_subs u = <[b := round_sub t y es]> (h_subs t) /\
  sent (world u) = (pre_requestId pre, round_response t y pre es) :: sent (world t).
Proof using Hmem.
  intros Hinv (Hy & Hl & Hch & Hen & Hn) Hp.
  pose proof (wp_round t b y pre l Hmem Hinv Hy Hl Hch Hen Hn (fun r s' => r = (notificationsPerPublish y <? ready y) /\
    inv None s' /\ serverSubscriptions (session s') = serverSubscriptions (session t) /\ exists es,
    h_subs s' = <[b := round_sub t y es]> (h_subs t) /\
    sent (world s') = (pre_requestId pre, round_response t y pre es) :: sent (world t))) as H.
  unfold wp in H; rewrite Hp in H; apply H; intros s' es Hi _ Hs Hsubs Hsent.
  split; [done|]; split; [done|]; split; [by rewrite Hs|]; by exists es.
Qed.

(** A newer message in front: it has another number, and the one that is
    dropped is not this one. *)
Lemma holds_newer n t y es : 0 <= n -> has_room (n + 1) -> 0 < message_size y ->
  holds n y -> holds (n + 1) (round_sub t y es).
Proof.
  intros Hn [Hr1 Hr2] Hms (Hid & Hno & l1 & l2 & Hq & Hl & Hnew & Hold).
  destruct (round_sub_fields t y es Hms) as (F1 & F2 & F3); unfold holds; rewrite F1, F2, F3, Hno, <- number_after_succ.
  split; [done|]; split; [done|]; set (m' := round_message t y es).
  assert (nm_sequenceNumber m' <> seq) as Hne.
  { change (UA_Subscription_nextSequenceNumber (sequenceNumber y) <> seq); rewrite Hno, <- number_after_succ.
    apply number_after_new; lia. }
  unfold retained; rewrite Hq.
  assert (forall l3, (forall e, e ∈ l3 -> e ∈ l2) -> exists l1' l2', m' :: l1 ++ m :: l3 = l1' ++ m :: l2' /\
    zlen l1' <= n + 1 /\ (seq ∉ map nm_sequenceNumber l1') /\ (forall e, e ∈ l2' -> e ∈ old)) as Hform.
  { intros l3 H3; exists (m' :: l1), l3; split; [done|]; rewrite zlen_cons; split; [lia|]; split; [|auto].
    rewrite map_cons; intros [H|H]%elem_of_cons; [by apply Hne|done]. }
  destruct (_ && _) eqn:Hfull; [|by apply Hform].
  destruct (decide (l2 = [])) as [->|Hl2].
  - exfalso; apply andb_true_iff in Hfull as [H1%Z.ltb_lt H2%Z.leb_le].
    rewrite zlen_app, zlen_cons, zlen_nil in H2; unfold u32 in H2.
    assert (0 <= zlen l1) by (unfold zlen; lia); rewrite Z.mod_small in H2 by lia; lia.
  - destruct (exists_last Hl2) as (l3 & e & ->).
    replace (l1 ++ m :: l3 ++ [e]) with ((l1 ++ m :: l3) ++ [e]) by (by rewrite <- app_assoc).
    rewrite removelast_last; apply Hform; intros d Hd; apply elem_of_app; by left.
Qed.

Lemma available_later s n t : available_after 0 s -> later a id seq s n t -> has_room n -> 0 <= n /\ available_after n t.
Proof.
  intros Hs Hl; induction Hl as [|n t pre u Hl IH Hq|n t b u Hl IH Hq|n t b y pre l more u Hl IH Hc Hq
    |n t id' seq' r u Hl IH Hne Hq|n t id' seq' r u Hl IH Hq]; intros Hroom; [done|..].
  - destruct (IH Hroom) as [Hn Ha]; split; [done|]; pose proof (av_inv _ _ Ha) as Hinv.
    apply modify_inv in Hq as ->; eapply available_same; [exact Ha| |done..].
    eapply inv_same; [exact Hinv|]; apply same_with_session; [done|]; cbn; intros ->.
    rewrite u32_succ, zlen_app, zlen_cons, zlen_nil; f_equal; lia.
  - destruct (IH Hroom) as [Hn Ha]; split; [done|].
    assert (Hq' := Hq); apply update_sub_inv in Hq' as (y & Hy & ->).
    eapply available_update; [exact Ha| |done|exact Hy|done|done|by intros _ H; apply H|done].
    eapply inv_same; [apply Ha|]; by eapply same_with_sub.
  - assert (has_room n) as Hroom' by (destruct (decide (b = a)); [destruct Hroom; split; lia|done]).
    destruct (IH Hroom') as [Hn Ha]; split; [destruct (decide _); lia|].
    destruct (round_inv _ _ _ _ _ _ _ (av_inv _ _ Ha) Hc Hq) as (_ & Hu & Hsubs & es & Hh & _).
    destruct Hc as (Hy & _ & _ & _ & Hms); destruct (round_sub_fields t y es Hms) as (Hid & _).
    eapply available_update; [exact Ha|done|done|exact Hy|exact Hh|exact Hid| |].
    + intros ->; rewrite decide_True in * by done; by apply holds_newer.
    + intros Hne; by rewrite decide_False.
  - destruct (IH Hroom) as [Hn Ha]; split; [done|].
    pose proof (acknowledge_kept _ _ _ _ (av_inv _ _ Ha) Hq) as Hu.
    apply acknowledge_inv in Hq as [->|(b & y & Hy & Hid & ->)]; [done|].
    eapply available_update; [exact Ha|exact Hu|done|exact Hy|done|done| |done].
    intros -> (H1 & H2 & l1 & l2 & H3 & H4 & H5 & H6); split; [done|]; split; [done|].
    destruct (remove_message_other seq' m l1 l2) as (l1' & l2' & Hrm & Hlen & Hi1 & Hi2); [intros Heq; apply Hne; f_equal; congruence|].
    exists l1', l2'; split; [by cbn; rewrite H3|]; split; [unfold zlen in *; lia|]; split; [|auto].
    intros (e & Heq & He)%list_elem_of_fmap; apply H5; rewrite Heq; apply list_elem_of_fmap; exists e; auto.
  - destruct (IH Hroom) as [Hn Ha]; split; [done|].
    assert (inv None u) as Hu by (eapply run_inv; [by apply republish_safe, Ha|exact Hq]).
    apply republish_inv in Hq as [Hs' [Hh|(b & y & Hy & Hh)]]; [by eapply available_same; [exact Ha|done|rewrite Hs'|]|].
    eapply available_update; [exact Ha|exact Hu|by rewrite Hs'|exact Hy|exact Hh|done|by intros _ H; apply H|done].
Qed.

(** What Republish and the acknowledgement give. *)
Lemma available_republished n t : available_after n t -> exists u, Service_Republish id seq t = Some ((GOOD, m), u).
Proof using Hmem.
  intros [_ Hg (x & Hx & _ & _ & l1 & l2 & Hq & _ & Hnew & _)].
  destruct (republish_found id seq a x t Hg Hx Hmem) as [u Hu]; exists u; rewrite Hu, Hq, find_message_at; done.
Qed.

Lemma available_acknowledged n t : available_after n t -> (seq ∉ map nm_sequenceNumber old) -> exists u v,
  acknowledge [(id, seq)] t = Some ([GOOD], u) /\
  Service_Republish id seq u = Some ((BADMESSAGENOTAVAILABLE, message_init), v).
Proof using Hmem.
  intros [_ Hg (x & Hx & _ & _ & l1 & l2 & Hq & _ & Hnew & Hold)] Hno.
  assert (find_message seq (retransmissionQueue x) = Some m) as Hm by (by rewrite Hq, find_message_at).
  set (u := with_subs t (<[a := without_message seq x]> (h_subs t))); exists u.
  destruct (republish_found id seq a (without_message seq x) u) as [v Hv]; [|apply lookup_insert_eq|done|].
  - eapply getSubscription_ext; [| |exact Hg]; [done|]; intros b; cbn.
    destruct (decide (a = b)) as [<-|Hne]; [by rewrite lookup_insert_eq, Hx|by rewrite lookup_insert_ne].
  - exists v; split; [by apply acknowledge_one with (m := m)|]; rewrite Hv.
    change (retransmissionQueue (without_message seq x)) with (remove_message seq (retransmissionQueue x)).
    rewrite Hq, remove_message_at, find_message_none; [done| |done]; rewrite map_app.
    intros [H|(e & Heq & He)%list_elem_of_fmap]%elem_of_app; [done|].
    apply Hno; rewrite Heq; apply list_elem_of_fmap; exists e; auto.
Qed.
End Available.

(** C15: in a sane environment with memory, the message that publishing sends is
    put in front of the retransmission queue, and the oldest one is dropped if
    the queue was full.  It stays available over what follows, while it is not
    acknowledged and fewer further messages of its subscription are published
    than the queue holds: requests that arrive, elapsed intervals, rounds of
    publishing that answer a request, acknowledgements of other messages, and
    Republish, for all subscriptions of the session.  There Republish with the
    subscription and the number returns that very message; its acknowledgement
    is accepted, and afterwards it is not available any more, unless an older
    message with the same number was kept when it was published. *)
Theorem published_message_republished s a x pre l :
  sane -> reachable s -> (forall k, malloc_ok k = true) -> 0 <= maxRetransmissionQueueSize < 2 ^ 32 ->
  can_send s a x pre l -> UA_Session_getSubscriptionById (subscriptionId x) s = Some (Some a, s) ->
  exists s' r, publish_once a s = Some (notificationsPerPublish x <? ready x, s') /\
    sent (world s') = (pre_requestId pre, r) :: sent (world s) /\
    let m := pr_notificationMessage r in
    retransmissionQueue <$> h_subs s' !! a = Some (retained m (retransmissionQueue x)) /\
    forall n t, later a (subscriptionId x) (nm_sequenceNumber m) s' n t -> has_room n ->
      (exists u, Service_Republish (subscriptionId x) (nm_sequenceNumber m) t = Some ((GOOD, m), u)) /\
      ((nm_sequenceNumber m ∉ map nm_sequenceNumber (retransmissionQueue x)) -> exists u v,
         acknowledge [(subscriptionId x, nm_sequenceNumber m)] t = Some ([GOOD], u) /\
         Service_Republish (subscriptionId x) (nm_sequenceNumber m) u =
           Some ((BADMESSAGENOTAVAILABLE, message_init), v)).
Proof.
  intros Hs Hr Hmem Hmax Hc Hg; apply (reachable_inv_subs _ Hs) in Hr; pose proof Hc as (Hx & Hl & Hch & Hen & Hn).
  destruct (wp_defined _ _ _ (wp_round s a x pre l Hmem Hr Hx Hl Hch Hen Hn (fun _ _ => True) ltac:(done)))
    as (more & s' & Hp & _).
  destruct (round_inv Hmem s a x pre l more s' Hr Hc Hp) as (-> & Hinv & Hsubs & es & Hh & Hsent).
  destruct (round_sub_fields s x es Hn) as (F1 & F2 & F3).
  exists s', (round_response s x pre es); split; [done|]; split; [done|]; cbn zeta.
  set (m := pr_notificationMessage _); split; [rewrite Hh, lookup_insert_eq; exact (f_equal Some F3)|].
  assert (1 <= nm_sequenceNumber m < 2 ^ 32) as Hseq.
  { cbn; unfold UA_Subscription_nextSequenceNumber, u32; pose proof (Z.mod_pos_bound (sequenceNumber x + 1) (2 ^ 32)).
    cbn zeta; destruct (Z.eqb_spec ((sequenceNumber x + 1) mod 2 ^ 32) 0); lia. }
  assert (available_after a (subscriptionId x) m (retransmissionQueue x) 0 s') as Hav.
  { split; [done| |].
    - eapply getSubscription_ext; [exact Hsubs| |exact Hg]; intros b; rewrite Hh.
      destruct (decide (a = b)) as [<-|Hne]; [rewrite lookup_insert_eq, Hx; exact (f_equal Some F1)|by rewrite lookup_insert_ne].
    - exists (round_sub s x es); split; [by rewrite Hh, lookup_insert_eq|]; split; [done|].
      split; [rewrite F2; symmetry; apply number_after_0|]; exists []; eexists; split; [exact F3|].
      split; [done|]; split; [by intros []%elem_of_nil|]; intros e; destruct (_ && _); [|done].
      destruct (decide (retransmissionQueue x = [])) as [->|Hq]; [done|].
      destruct (exists_last Hq) as (l' & d & ->); rewrite removelast_last; intros He; apply elem_of_app; by left. }
  intros n t Hlater Hroom; destruct (available_later Hmem Hmax _ _ m _ Hseq s' n t Hav Hlater Hroom) as [_ Ha].
  split; [by eapply available_republished|by eapply available_acknowledged].
Qed.
End Retransmission.

Lemma published_message_republished_witness :
  exists s s' u id m, reachable (E := SubscriptionExample.env) s /\
    publish_once (E := SubscriptionExample.env) 0 s = Some (true, s') /\
    Service_Republish (E := SubscriptionExample.env) id (nm_sequenceNumber m) s' = Some ((GOOD, m), u).
Proof.
  destruct CorrectExample.sampled_reachable as (s & Hr & Hc).
  destruct (CorrectExample.alone_spec _ _ Hc) as (x & Hx & _ & Hg & Hp).
  destruct (CorrectExample.can_publish_spec _ _ Hp) as (pre & l & Hl & Hch & Hen & Hn & Hm).
  destruct (published_message_republished s 0 x pre l SubscriptionExample.env_sane Hr (fun _ => eq_refl))
    as (s' & r & Hp' & _ & _ & H).
  - split; [by vm_compute|by vm_compute].
  - split; [exact Hx|]; split; [exact Hl|]; split; [exact Hch|]; split; [exact Hen|exact Hn].
  - exact Hg.
  - destruct (H 0 s') as [[u Hu] _]; [constructor|split; [lia|right; by vm_compute]|].
    rewrite Hm in Hp'; exists s, s', u, (subscriptionId x), (pr_notificationMessage r).
    split; [exact Hr|]; split; [exact Hp'|exact Hu].
Defined.
