(* ===== verification/SubscriptionDetect.v ===== *)
(** * Subscriptions: detection of changes

    A sample is reported when it is not within the deadband, its filtered
    encoding differs from the one before and has room on the stack: values are
    told apart exactly, but without a callback for full buffers the encoder
    does not ask for the heap. *)

From Stdlib Require Import ZArith Lia SpecFloat.
From stdpp Require Import base list numbers tactics sets gmap.
From S2P Require Import Prelude StateMonad UaTypes UaValue BinarySize BinaryEncode BinaryDecode BinarySpec EncodeLogic BinaryEncodeCorrect BinaryRoundtrip Codec FieldCodec SubscriptionState Subscription SubscriptionServices SubscriptionLogic SubscriptionCorrect.

Section Detect.
Context {TE : TypeEnv} {E : SubscriptionEnv}.













(** ** Deadbands *)









(** ** Detection *)








(** ** Items of the application *)






Section Local.
Context (mon : nat).
Hypothesis Hmem : forall k, malloc_ok k = true.


End Local.

End Detect.

(** ** The theorems on an example *)

Module DetectExample.
Import SubscriptionExample.





End DetectExample.


