(* ===== verification/SubscriptionBehaviour.v ===== *)
(** * Subscriptions: lifetime, queues of items, detection of changes

    A subscription without publish requests comes to its end; a full queue of
    an item keeps what it has been configured to keep; a change is reported
    exactly when the filtered value has changed; the revised parameters are
    within their limits. *)

From Stdlib Require Import ZArith Lia SpecFloat.
From stdpp Require Import base list numbers tactics sets gmap.
From S2P Require Import Prelude StateMonad UaTypes UaValue BinarySize BinaryEncode BinarySpec FieldCodec SubscriptionState Subscription SubscriptionServices SubscriptionInvariant SubscriptionLogic SubscriptionQueues SubscriptionSafe SubscriptionPublish SubscriptionServicesSafe SubscriptionCorrect.

Section Behaviour.
Context {TE : TypeEnv} {E : SubscriptionEnv}.

(** ** Lifetime *)

(** The subscription stays what it is but for its state and counters. *)
Definition aged (x x' : UA_Subscription) : Prop :=
  subscriptionId x' = subscriptionId x /\ lifeTimeCount x' = lifeTimeCount x /\
  currentLifetimeCount x' = u32 (currentLifetimeCount x + 1).

(** A round without requests. *)
Lemma wp_round_without_request a x (Q : bool -> SubServer -> Prop) s :
  sane -> inv None s -> h_subs s !! a = Some x -> responseQueue (session s) = [] ->
  a ∈ serverSubscriptions (session s) ->
  UA_Session_getSubscriptionById (subscriptionId x) s = Some (Some a, s) ->
  (u32 (currentLifetimeCount x + 1) <= lifeTimeCount x -> forall s' x',
     inv None s' -> session s' = session s -> h_subs s' = <[a := x']> (h_subs s) -> aged x x' ->
     Q false s') ->
  (lifeTimeCount x < u32 (currentLifetimeCount x + 1) -> forall s',
     inv None s' -> k_subs (skel s') = without a (k_subs (skel s)) ->
     FreeSubscription a ∈ k_delayed (skel s') -> Q false s') ->
  wp (publish_once a) Q s.
Proof.
  intros Hs Hinv Hx Hl Ha Hg Hlive Hend.
  apply wp_bind, wp_dequeuePublishReq; intros pre s1 _ Hpre; rewrite Hl in Hpre.
  destruct pre as [p|]; [done|]; destruct Hpre as [_ ->].
  eapply wp_bind, wp_count_lifetime; [exact Hx|]; cbn zeta.
  set (x2 := set_sub_counts x _ _ _).
  destruct (step_sub s s a x x2 Hinv) as (H2 & Hinv2 & Hx2); [done|exact Hx|done|].
  set (s2 := with_subs s _) in *.
  assert (session s2 = session s /\ h_subs s2 = <[a := x2]> (h_subs s)) as [Hs2 Hh2] by done.
  assert (aged x x2) as Hx2a by done.
  eapply wp_bind, wp_deref_sub; [exact Hx2|].
  destruct (Z.ltb_spec (lifeTimeCount x) (u32 (currentLifetimeCount x + 1))) as [Hlt|Hge].
  { assert (UA_Session_getSubscriptionById (subscriptionId x2) s2 = Some (Some a, s2)) as Hg2.
    { eapply getSubscription_ext; [| |exact Hg]; [done|]; intros b; rewrite Hh2.
      destruct (decide (a = b)) as [<-|Hne]; [by rewrite lookup_insert_eq, Hx|by rewrite lookup_insert_ne]. }
    apply wp_bind; unfold UA_Session_deleteSubscription; apply wp_bind.
    unfold wp at 1; rewrite Hg2; apply (wp_delete_found Hs); [done| |].
    - by change (a ∈ serverSubscriptions (session s2)); rewrite Hs2.
    - intros s3 Hinv3 _ Hsubs3 Hd3; apply wp_ret, Hend; [done|done| |done].
      rewrite Hsubs3; by destruct H2 as (-> & _). }
  assert (forall s' x', inv None s' -> session s' = session s -> h_subs s' = <[a := x']> (h_subs s) ->
    aged x x' -> wp (mret false : M bool) Q s') as Hret by (intros; apply wp_ret; by eapply Hlive).
  clearbody s2.
  eapply wp_update_if; [exact Hx2|]; set (x3 := if _ <? readyNotifications x2 then _ else x2).
  destruct (step_sub s s2 a x2 x3 Hinv H2 Hx2) as (H3 & Hinv3 & Hx3).
  { unfold x3; by destruct (notificationQueueSize x2 <? readyNotifications x2). }
  assert (aged x x3) as Hx3a by (unfold x3; by destruct (notificationQueueSize x2 <? readyNotifications x2)).
  eapply wp_bind, wp_deref_sub; [exact Hx3|]; destruct (available x3) as [n more].
  eapply wp_update_if; [exact Hx3|]; set (x4 := if n =? 0 then _ else x3).
  set (s3 := with_subs s2 _) in *.
  assert (session s3 = session s /\ h_subs s3 = <[a := x3]> (h_subs s)) as [Hs3 Hh3].
  { unfold s3; cbn; by rewrite Hh2, insert_insert_eq. }
  clearbody s3; destruct (step_sub s s3 a x3 x4 Hinv H3 Hx3) as (H4 & Hinv4 & Hx4).
  { unfold x4; by destruct (n =? 0). }
  assert (aged x x4) as Hx4a by (unfold x4; by destruct (n =? 0)).
  set (s4 := with_subs s3 _) in *.
  assert (session s4 = session s /\ h_subs s4 = <[a := x4]> (h_subs s)) as [Hs4 Hh4].
  { unfold s4; cbn; by rewrite Hh3, insert_insert_eq. }
  clearbody s4; destruct (_ && _); [apply wp_bind, wp_ret; by eapply Hret|].
  apply wp_bind, wp_gets, wp_bind, wp_bind.
  eapply wp_update_sub; [exact Hx4|]; apply wp_ret.
  eapply Hret; [| |cbn; rewrite Hh4, insert_insert_eq; reflexivity|exact Hx4a]; [|done].
  eapply inv_same; [exact Hinv4|]; by eapply same_with_sub.
Qed.

(** So many publishing intervals pass. *)
Fixpoint intervals (n : nat) (a : nat) : M unit :=
  match n with O => mret tt | S n => _ ← publishCallback a; intervals n a end.

(** The subscription is alive, and has been without requests for [n] intervals. *)
Record waiting (s : SubServer) (a : nat) (id life : Z) (n : nat) : Prop := mkWaiting {
  w_inv : inv None s;
  w_listed : a ∈ serverSubscriptions (session s);
  w_requests : responseQueue (session s) = [];
  w_found : UA_Session_getSubscriptionById id s = Some (Some a, s);
  w_sub : exists x, h_subs s !! a = Some x /\ subscriptionId x = id /\ lifeTimeCount x = life /\
    currentLifetimeCount x = Z.of_nat n
}.

Lemma wp_interval a id life n (Q : unit -> SubServer -> Prop) s :
  sane -> waiting s a id life n -> life < 2 ^ 32 - 1 -> Z.of_nat n <= life ->
  (Z.of_nat n < life -> forall s', waiting s' a id life (S n) -> Q tt s') ->
  (Z.of_nat n = life -> forall s', inv None s' -> a ∉ serverSubscriptions (session s') ->
     FreeSubscription a ∈ delayed s' -> Q tt s') ->
  wp (publishCallback a) Q s.
Proof.
  intros Hs [Hinv Ha Hl Hg (x & Hx & Hid & Hlife & Hn)] Hmax Hle Hlive Hend.
  eapply wp_bind, wp_update_sub; [exact Hx|]; set (x1 := set_sub_ready x _).
  destruct (step_sub s s a x x1 Hinv) as (H1 & Hinv1 & Hx1); [done|exact Hx|done|].
  set (s1 := with_subs s _) in *; assert (session s1 = session s /\ h_subs s1 = <[a := x1]> (h_subs s)) as [Hs1 Hh1] by done.
  clearbody s1.
  assert (UA_Session_getSubscriptionById id s1 = Some (Some a, s1)) as Hg1.
  { eapply getSubscription_ext; [| |exact Hg]; [by rewrite Hs1|]; intros b; rewrite Hh1.
    destruct (decide (a = b)) as [<-|Hne]; [by rewrite lookup_insert_eq, Hx|by rewrite lookup_insert_ne]. }
  apply wp_bind, wp_gets; rewrite Hs1, Hl; cbn [publish_loop length]; apply wp_bind.
  assert (u32 (currentLifetimeCount x1 + 1) = Z.of_nat (S n)) as Hu.
  { cbn; rewrite Hn; unfold u32; rewrite Z.mod_small; lia. }
  eapply wp_round_without_request; [done|exact Hinv1|exact Hx1|by rewrite Hs1|by rewrite Hs1|by rewrite <- Hid in Hg1| |].
  - rewrite Hu; intros Hlt s2 x2 Hinv2 Hs2 Hh2 (A1 & A2 & A3); apply wp_ret, Hlive; [cbn in Hlt; lia|].
    split; [done|by rewrite Hs2, Hs1|by rewrite Hs2, Hs1| |].
    + eapply getSubscription_ext; [| |exact Hg1]; [by rewrite Hs2|]; intros b; rewrite Hh2.
      destruct (decide (a = b)) as [<-|Hne]; [|by rewrite lookup_insert_ne].
      rewrite lookup_insert_eq, Hx1; cbn; by rewrite A1.
    + exists x2; rewrite Hh2, lookup_insert_eq; split; [done|]; rewrite A1, A2, A3, Hu; done.
  - rewrite Hu; intros Hlt s2 Hinv2 Hsubs2 Hd2; apply wp_ret, Hend; [cbn in Hlt; lia|done| |exact Hd2].
    intros Hin; change (a ∈ k_subs (skel s2)) in Hin; rewrite Hsubs2 in Hin; by apply elem_of_without in Hin as [? _].
Qed.

Lemma intervals_wait a id life n m s :
  sane -> waiting s a id life n -> life < 2 ^ 32 - 1 -> Z.of_nat (n + m) <= life ->
  wp (intervals m a) (fun _ s' => waiting s' a id life (n + m)) s.
Proof.
  revert s n; induction m as [|m IH]; intros s n Hs Hw Hmax Hle; cbn [intervals].
  { apply wp_ret; by rewrite Nat.add_0_r. }
  apply wp_bind; eapply wp_interval; [done|exact Hw|done|lia| |lia].
  intros _ s1 H1; rewrite <- Nat.add_succ_comm; apply IH; [done|done|done|lia].
Qed.

Lemma intervals_app m k a s (Q : unit -> SubServer -> Prop) :
  wp (intervals m a) (fun _ s' => wp (intervals k a) Q s') s -> wp (intervals (m + k) a) Q s.
Proof.
  revert s; induction m as [|m IH]; intros s H; [exact H|]; cbn [intervals Nat.add] in *.
  unfold wp, mbind, M_bind in *; destruct (publishCallback a s) as [[[] s1]|]; [by apply IH|done].
Qed.

(** C16: A subscription for which no publish request arrives lives for exactly
    its revised lifetime: after any number of publishing intervals up to
    [lifeTimeCount] it is still one of the session, and with the next interval
    it is taken out of the session and waits to be freed. *)
Theorem subscription_expires s a x :
  sane -> reachable s -> a ∈ serverSubscriptions (session s) -> h_subs s !! a = Some x ->
  UA_Session_getSubscriptionById (subscriptionId x) s = Some (Some a, s) ->
  responseQueue (session s) = [] -> currentLifetimeCount x = 0 ->
  0 <= lifeTimeCount x < 2 ^ 32 - 1 ->
  (forall n, Z.of_nat n <= lifeTimeCount x -> exists s', intervals n a s = Some (tt, s') /\
     (a ∈ serverSubscriptions (session s'))) /\
  exists s', intervals (S (Z.to_nat (lifeTimeCount x))) a s = Some (tt, s') /\
    (a ∉ serverSubscriptions (session s')) /\ FreeSubscription a ∈ delayed s'.
Proof.
  intros Hs Hr Ha Hx Hg Hl Hc Hlife; apply (reachable_inv_subs _ Hs) in Hr.
  assert (waiting s a (subscriptionId x) (lifeTimeCount x) 0) as Hw by (split; eauto).
  split.
  - intros n Hn; destruct (wp_defined _ _ _ (intervals_wait a _ _ 0 n s Hs Hw ltac:(lia) ltac:(lia))) as ([] & s' & H & Hw').
    exists s'; split; [done|]; apply Hw'.
  - set (k := Z.to_nat (lifeTimeCount x)); replace (S k) with (k + 1)%nat by lia.
    assert (wp (intervals (k + 1) a) (fun _ s' => (a ∉ serverSubscriptions (session s')) /\ FreeSubscription a ∈ delayed s') s) as H.
    { apply intervals_app; eapply wp_mono; [apply (intervals_wait a _ _ 0 k s Hs Hw); lia|].
      intros [] s1 H1; cbn [intervals]; apply wp_bind; eapply wp_interval; [done|exact H1|lia|lia|lia|].
      intros _ s2 _ Hn2 Hd2; by apply wp_ret. }
    destruct (wp_defined _ _ _ H) as ([] & s' & H' & Hq); by exists s'.
Qed.

(** ** The queue of an item *)

(** A queue of at most [max] notifications with a new one. *)
Definition push (oldest : bool) (max : Z) (q : list nat) (i : nat) : list nat :=
  if zlen q <? max then q ++ [i] else (if oldest then tail q else removelast q) ++ [i].

(** The notification that tells that another one has been lost. *)
Definition lost_flag (y : UA_MonitoredItem) (q : list nat) : option nat :=
  if zlen (mi_queue y) <? maxQueueSize y then None else flagged (discardOldest y) q.

Definition flag_value (y : UA_MonitoredItem) (v : UA_DataValue) : UA_DataValue :=
  if 1 <? maxQueueSize y then set_overflow v else clear_overflow v.

Lemma kept_one oldest q q' i :
  kept oldest (q ++ [i]) q' -> zlen q' = zlen q -> q <> [] ->
  q' = (if oldest then tail q else removelast q) ++ [i].
Proof.
  unfold kept, zlen; destruct oldest.
  - intros (r & Hr) Hl Hq; assert (length r = 1%nat) as Hr1.
    { apply (f_equal length) in Hr; rewrite !length_app in Hr; cbn in Hr; lia. }
    destruct r as [|h [|? ?]]; try done; destruct q as [|h' q]; [done|]; by injection Hr as _ <-.
  - intros (q1 & r & b & Hr & ->) Hl Hq; assert (length r = 1%nat) as Hr1.
    { apply (f_equal length) in Hr; rewrite !length_app in *; cbn in *; lia. }
    rewrite app_assoc in Hr; apply app_inj_tail in Hr as [-> ->].
    destruct r as [|h [|? ?]]; try done; by rewrite removelast_last.
Qed.

Lemma reachable_item s a x mon y :
  inv None s -> a ∈ serverSubscriptions (session s) -> h_subs s !! a = Some x ->
  mon ∈ monitoredItems x -> h_mons s !! mon = Some y ->
  monitoredItemType y = UA_MONITOREDITEMTYPE_CHANGENOTIFY ->
  deliverable s mon /\ mi_subscription y = Some a /\ 1 <= maxQueueSize y.
Proof.
  intros Hinv Ha Hx Hm Hy Ht; assert (owns a s) as Ho by by split.
  destruct (listed_item a x mon s Ho Hx Hm) as ((_ & Hof & Hd) & Hsub & Hk).
  rewrite (mon_kind _ _ _ Hy) in Hk; assert (kind y = Sampled) as Hs.
  { unfold kind in *; rewrite decide_True in Hk |- * by done; case_decide; done. }
  split; [split; [by rewrite (mon_kind _ _ _ Hy), Hs|split; [done|by intros ? _ ?]]|].
  rewrite (mon_of _ _ _ Hy) in Hsub; split; [by injection Hsub|].
  apply kind_sampled in Hs; apply Hs.
Qed.

(** A new value of a monitored item is put at the end of the queue of the
    item.  When the queue is full, the oldest notification, or the newest of
    the older ones, is deleted, as the item is configured to; the other
    notifications keep their places and values, except that the one next to the
    gap tells of the overflow.  The queues of other items stay as they are. *)
Theorem notification_queued s a x mon y v :
  sane -> reachable s -> (forall k, malloc_ok k = true) ->
  a ∈ serverSubscriptions (session s) -> h_subs s !! a = Some x -> mon ∈ monitoredItems x ->
  h_mons s !! mon = Some y -> monitoredItemType y = UA_MONITOREDITEMTYPE_CHANGENOTIFY ->
  zlen (mi_queue y) <= maxQueueSize y < 2 ^ 32 - 1 ->
  exists s' i q, notify_change mon v s = Some (true, s') /\
    q = push (discardOldest y) (maxQueueSize y) (mi_queue y) i /\
    h_mons s' = <[mon := set_mi_queue y q (zlen q)]> (h_mons s) /\ (i ∉ mi_queue y) /\
    forall j, j ∈ q -> n_value <$> h_notifs s' !! j =
      (let w := if decide (j = i) then Some v else n_value <$> h_notifs s !! j in
       if decide (lost_flag y q = Some j) then flag_value y <$> w else w).
Proof.
  intros Hs Hr Hmem Ha Hx Hm Hy Ht [Hle Hmax]; apply (reachable_inv_subs _ Hs) in Hr.
  destruct (reachable_item s a x mon y Hr Ha Hx Hm Hy Ht) as (Hdel & Hsub & Hone).
  set (w := with_allocs (world s) (S (used s))); set (i := used s).
  assert (same s (with_world s w)) as Hw by (apply same_with_world; cbn; unfold used; lia).
  pose proof (inv_same _ _ _ Hr Hw) as Hinv1.
  assert (k_owner (skel (with_world s w)) !! i = None) as Ho by by eapply (fresh_owner None s).
  assert ((i ∉ mi_queue y)) as Hi.
  { intros Hi; destruct (inv_owned _ _ _ _ _ _ Hr Hy Hsub Hi) as (_ & Hoi & _); cbn in Ho, Hoi; congruence. }
  assert (forall l, 0 <= zlen l -> zlen l < 2 ^ 32 -> u32 (@zlen nat l) = zlen l) as Hu.
  { intros l ? ?; unfold u32; by rewrite Z.mod_small. }
  assert (zlen (mi_queue y ++ [i]) = zlen (mi_queue y) + 1) as Hz by (rewrite zlen_app; done).
  set (post := fun (r : bool) s' => r = true /\ exists q,
    q = push (discardOldest y) (maxQueueSize y) (mi_queue y) i /\
    h_mons s' = <[mon := set_mi_queue y q (zlen q)]> (h_mons s) /\
    forall j, j ∈ q -> n_value <$> h_notifs s' !! j =
      (let w := if decide (j = i) then Some v else n_value <$> h_notifs s !! j in
       if decide (lost_flag y q = Some j) then flag_value y <$> w else w)).
  assert (wp (notify_change mon v) post s) as H.
  2: { destruct (wp_defined _ _ _ H) as (r & s' & He & -> & q & Hq & Hmons & Hn).
       exists s', i, q; split; [done|]; done. }
  eapply wp_bind, wp_deref_mon; [exact Hy|]; rewrite Hsub.
  apply wp_bind, wp_malloc_exact; rewrite Hmem; apply wp_bind, wp_modify, wp_bind.
  destruct (inv_enqueued None (with_world s w) mon y a x i v) as [Hinv2 Hq2]; try done.
  { cbn; unfold i, used; lia. }
  eapply wp_enqueue; [exact Hinv1|exact Hdel|exact Hy|exact Hsub|exact Hx|exact Ho|cbn; unfold i, used; lia|done|done| |].
  - intros Hfit; fold i in Hfit |- *; apply wp_ret; split; [done|]; exists (mi_queue y ++ [i]).
    pose proof (zlen_nonneg (mi_queue y)); rewrite (Hu (mi_queue y ++ [i])) in Hfit by lia.
    assert ((zlen (mi_queue y) <? maxQueueSize y) = true) as Hlt by (apply Z.ltb_lt; lia).
    unfold push, lost_flag; rewrite Hlt; split; [done|]; split.
    + cbn; unfold with_queue; by rewrite Hu by lia.
    + intros j _; rewrite decide_False by done; cbn [h_notifs enqueued]; fold i; case_decide as Hj.
      * rewrite Hj; by rewrite lookup_insert_eq.
      * by rewrite lookup_insert_ne.
  - fold i; intros s' x1 q j Hgt Hx1 Hinv' Hq' Hov Hk Hqle Hmin; apply wp_ret; split; [done|]; exists q.
    pose proof (zlen_nonneg (mi_queue y)); rewrite (Hu (mi_queue y ++ [i])) in Hgt by lia.
    specialize (Hmin ltac:(lia)); assert ((zlen (mi_queue y) <? maxQueueSize y) = false) as Hlt by (apply Z.ltb_ge; lia).
    assert (q = push (discardOldest y) (maxQueueSize y) (mi_queue y) i) as Hq.
    { unfold push; rewrite Hlt; apply kept_one; [done|lia|]; intros H0; rewrite H0 in Hlt;
      apply Z.ltb_ge in Hlt; change (zlen []) with 0 in Hlt; lia. }
    unfold lost_flag; rewrite Hlt; split; [done|]; destruct Hov as [_ Hms _ Hfl Hns]; split.
    + rewrite Hms; cbn; rewrite insert_insert_eq; unfold with_queue; by rewrite (Hu q) by lia.
    + intros l Hl; rewrite (Hns l Hl); change (discardOldest (with_queue y (mi_queue y ++ [i]))) with (discardOldest y) in Hfl.
      rewrite Hfl; cbn [h_notifs enqueued]; fold i; destruct (decide (l = i)) as [->|Hi'];
        [rewrite lookup_insert_eq|rewrite lookup_insert_ne by done];
        repeat case_decide; try congruence; try done.
      cbn; by destruct (h_notifs s !! l).
Qed.
End Behaviour.

(** ** The theorems on an example *)

Module BehaviourExample.
Import SubscriptionExample CorrectExample.

(** A new subscription, without requests. *)
Definition idle (x : UA_Subscription) (s : UA_Session) : bool :=
  match responseQueue s with [] => true | _ => false end &&
  (currentLifetimeCount x =? 0) && (lifeTimeCount x =? 10).

Lemma idle_spec x s : idle x s = true ->
  responseQueue s = [] /\ currentLifetimeCount x = 0 /\ lifeTimeCount x = 10.
Proof.
  unfold idle; rewrite !andb_true_iff, !Z.eqb_eq; intros [[Hl ?] ?]; by destruct (responseQueue s).
Qed.

Lemma idle_reachable : exists s, reachable s /\ alone idle s = true.
Proof. apply (reach [CreateSubscription create] false); [|done]; vm_compute; reflexivity. Qed.

(** The item of the subscription has a full queue. *)
Definition full (s : SubServer) : bool :=
  match h_subs s !! 0%nat, serverSubscriptions (session s), h_mons s !! 3%nat with
  | Some x, [0%nat], Some y =>
      bool_decide (monitoredItems x = [3%nat]) &&
      bool_decide (monitoredItemType y = UA_MONITOREDITEMTYPE_CHANGENOTIFY) &&
      (zlen (mi_queue y) =? 3) && (maxQueueSize y =? 3) && discardOldest y
  | _, _, _ => false
  end.

Lemma full_spec s : full s = true -> exists x y,
  h_subs s !! 0%nat = Some x /\ (0%nat ∈ serverSubscriptions (session s)) /\ (3%nat ∈ monitoredItems x) /\
  h_mons s !! 3%nat = Some y /\ monitoredItemType y = UA_MONITOREDITEMTYPE_CHANGENOTIFY /\
  zlen (mi_queue y) = 3 /\ maxQueueSize y = 3 /\ discardOldest y = true.
Proof.
  unfold full; destruct (h_subs s !! 0%nat) as [x|]; [|done].
  destruct (serverSubscriptions (session s)) as [|[|] [|]]; try done.
  destruct (h_mons s !! 3%nat) as [y|]; [|done].
  rewrite !andb_true_iff, !Z.eqb_eq, !bool_decide_eq_true; intros [[[[Hi ?] ?] ?] ?].
  exists x, y; rewrite Hi; repeat split; try done; apply list_elem_of_here.
Qed.

Lemma full_reachable : exists s, reachable s /\ full s = true.
Proof. apply (reach (setup ++ repeat (RunTimer [2]) 3) false); [|done]; vm_compute; reflexivity. Qed.
End BehaviourExample.

Lemma subscription_expires_witness :
  exists s s', reachable (E := SubscriptionExample.env) s /\
    intervals (E := SubscriptionExample.env) 11 0 s = Some (tt, s') /\
    (0%nat ∉ serverSubscriptions (session s')) /\ FreeSubscription 0 ∈ delayed s'.
Proof.
  destruct BehaviourExample.idle_reachable as (s & Hr & Hc).
  destruct (CorrectExample.alone_spec _ _ Hc) as (x & Hx & Hs & Hg & Hi).
  destruct (BehaviourExample.idle_spec _ _ Hi) as (Hl & Hz & Hlife).
  destruct (subscription_expires s 0 x SubscriptionExample.env_sane Hr
    ltac:(rewrite Hs; apply list_elem_of_here) Hx Hg Hl Hz ltac:(rewrite Hlife; lia)) as (_ & s' & H & Hn & Hd).
  rewrite Hlife in H; exists s, s'; split; [exact Hr|]; split; [exact H|]; split; [exact Hn|exact Hd].
Defined.

Lemma notification_queued_witness :
  exists s s' y i, reachable (E := SubscriptionExample.env) s /\ h_mons s !! 3%nat = Some y /\
    notify_change (E := SubscriptionExample.env) 3 (SubscriptionExample.reading 9) s = Some (true, s') /\
    h_mons s' !! 3%nat = Some (set_mi_queue y (tail (mi_queue y) ++ [i]) 3).
Proof.
  destruct BehaviourExample.full_reachable as (s & Hr & Hf).
  destruct (BehaviourExample.full_spec _ Hf) as (x & y & Hx & Hs & Hm & Hy & Ht & Hlen & Hmax & Hd).
  destruct (notification_queued s 0 x 3 y (SubscriptionExample.reading 9) SubscriptionExample.env_sane Hr
    (fun _ => eq_refl) Hs Hx Hm Hy Ht ltac:(lia)) as (s' & i & q & H & Hq & Hms & _).
  unfold push in Hq; rewrite Hlen, Hmax, Hd in Hq; cbn in Hq.
  exists s, s', y, i; split; [exact Hr|]; split; [exact Hy|]; split; [exact H|]; rewrite Hms, lookup_insert_eq, Hq; do 2 f_equal.
  destruct (mi_queue y) as [|q1 [|q2 [|q3 [|]]]]; unfold zlen in *; cbn in *; lia.
Defined.

(** ** Subscriptions: revised parameters

    What a client asks for a subscription is revised: the interval, the
    lifetime and the keep-alive count are brought into their limits, and the
    lifetime is at least three times the keep-alive count. *)

(** ** Limits *)

Lemma SFltb_irrefl x : SFltb x x = false.
Proof.
  unfold SFltb; destruct x as [[]|[]| |[] m e]; try done; cbn; rewrite Z.compare_refl;
    unfold Pos.compare; by rewrite Pos.compare_cont_refl.
Qed.

(** Neither below the lower nor above the upper limit. *)
Definition within (limits : double * double) (x : double) : Prop :=
  SFltb x (fst limits) = false /\ SFltb (snd limits) x = false.

Lemma double_bounded_within limits src :
  SFltb (snd limits) (fst limits) = false -> within limits (double_bounded limits src).
Proof.
  destruct limits as [lo hi]; cbn; intros Hl; unfold within, double_bounded, double_gt; cbn.
  destruct (is_nan src); [split; [apply SFltb_irrefl|exact Hl]|].
  destruct (SFltb hi src) eqn:H1; [split; [exact Hl|apply SFltb_irrefl]|].
  destruct (SFltb src lo) eqn:H2; [split; [apply SFltb_irrefl|exact Hl]|done].
Qed.

Lemma bounded_within limits z : fst limits <= snd limits ->
  fst limits <= bounded limits z <= snd limits.
Proof.
  unfold bounded; destruct (Z.ltb_spec (snd limits) z), (Z.ltb_spec z (fst limits)); lia.
Qed.

Section Settings.
Context {TE : TypeEnv} {E : SubscriptionEnv}.

(** The parameters of a subscription after a request. *)
Record revised (r : UA_CreateSubscriptionRequest) (x : UA_Subscription) : Prop := mkRevised {
  rv_interval : within publishingIntervalLimits (publishingInterval x);
  rv_keepalive : fst keepAliveCountLimits <= maxKeepAliveCount x <= snd keepAliveCountLimits;
  rv_lifetime : fst lifeTimeCountLimits <= lifeTimeCount x <= Z.max (snd lifeTimeCountLimits) (3 * maxKeepAliveCount x);
  rv_three : 3 * maxKeepAliveCount x <= lifeTimeCount x;
  rv_perPublish : 0 < maxNotificationsPerPublish -> 0 <= csr_maxNotificationsPerPublish r ->
    1 <= notificationsPerPublish x <= maxNotificationsPerPublish
}.

Lemma settings_revised r x' interval keepalive lifetime perPublish :
  SFltb (snd publishingIntervalLimits) (fst publishingIntervalLimits) = false ->
  fst keepAliveCountLimits <= snd keepAliveCountLimits -> 0 <= fst keepAliveCountLimits ->
  3 * snd keepAliveCountLimits < 2 ^ 32 -> fst lifeTimeCountLimits <= snd lifeTimeCountLimits ->
  interval = double_bounded publishingIntervalLimits (csr_publishingInterval r) ->
  keepalive = bounded keepAliveCountLimits (csr_maxKeepAliveCount r) ->
  lifetime = (let l := bounded lifeTimeCountLimits (csr_lifetimeCount r) in
              if l <? u32 (3 * keepalive) then u32 (3 * keepalive) else l) ->
  perPublish = (if (csr_maxNotificationsPerPublish r =? 0)
                   || (maxNotificationsPerPublish <? csr_maxNotificationsPerPublish r)
                then maxNotificationsPerPublish else csr_maxNotificationsPerPublish r) ->
  publishingInterval x' = interval -> maxKeepAliveCount x' = keepalive -> lifeTimeCount x' = lifetime ->
  notificationsPerPublish x' = perPublish -> revised r x'.
Proof.
  intros Hi Hk Hk0 Hk3 Hl -> Ek El Ep Ei Ek' El' Ep'.
  pose proof (bounded_within keepAliveCountLimits (csr_maxKeepAliveCount r) Hk) as Hb; rewrite <- Ek, <- Ek' in Hb.
  pose proof (bounded_within lifeTimeCountLimits (csr_lifetimeCount r) Hl) as Hb'.
  set (l := bounded lifeTimeCountLimits _) in *; cbn zeta in El; rewrite <- Ek' in El.
  assert (u32 (3 * maxKeepAliveCount x') = 3 * maxKeepAliveCount x') as Hu by (unfold u32; rewrite Z.mod_small; lia).
  rewrite Hu in El; destruct (Z.ltb_spec l (3 * maxKeepAliveCount x')); split;
    try (rewrite Ei; by apply double_bounded_within); rewrite ?El', ?El; try lia; intros ? ?; rewrite Ep', Ep;
    destruct (Z.eqb_spec (csr_maxNotificationsPerPublish r) 0), (Z.ltb_spec maxNotificationsPerPublish (csr_maxNotificationsPerPublish r)); cbn; lia.
Qed.

(** C22: When there are not too many requests, a subscription is created: it
    becomes the first one of the session under the next identifier, with its
    parameters revised into their limits, as the response tells, and its first
    publishing sends a message in any case.  If the interval is at least 5 ms, its
    callback is requested from the timer, with the integral part of the interval. *)
Theorem subscription_created r s :
  (forall k, malloc_ok k = true) ->
  maxSubscriptionsPerSession = 0 \/ numPublishReq (session s) < maxSubscriptionsPerSession ->
  SFltb (snd publishingIntervalLimits) (fst publishingIntervalLimits) = false ->
  0 <= fst keepAliveCountLimits <= snd keepAliveCountLimits -> 3 * snd keepAliveCountLimits < 2 ^ 32 ->
  fst lifeTimeCountLimits <= snd lifeTimeCountLimits ->
  let a := allocs (world s) in
  exists s' x, Service_CreateSubscription r s =
    Some ((GOOD, Some (subscriptionId x, publishingInterval x, lifeTimeCount x, maxKeepAliveCount x)), s') /\
  h_subs s' = <[a := x]> (h_subs s) /\ revised r x /\
  serverSubscriptions (session s') = a :: serverSubscriptions (session s) /\
  subscriptionId x = u32 (lastSubscriptionId (session s) + 1) /\
  lastSubscriptionId (session s') = subscriptionId x /\
  publishingEnabled x = csr_publishingEnabled r /\ notificationQueue x = [] /\ monitoredItems x = [] /\
  currentKeepAliveCount x = maxKeepAliveCount x /\
  let interval := double_to_uint32 (publishingInterval x) in
  publishCallbackIsRegistered x = negb (interval <? 5) /\
  changes (timer s') = changes (timer s) ++
    (if interval <? 5 then [] else [AddCallback (publishCallbackId x) (PublishCallback a)]).
Proof.
  intros Hmem Hmax Hi Hk Hk3 Hl a.
  assert (negb (maxSubscriptionsPerSession =? 0) && (maxSubscriptionsPerSession <=? numPublishReq (session s)) = false) as Hroom.
  { destruct Hmax as [->|Hlt]; [done|]; rewrite (proj2 (Z.leb_gt _ _) Hlt); by rewrite andb_false_r. }
  match goal with |- exists s' x, _ = Some ((GOOD, @?out x), s') /\ @?rest s' x =>
    assert (wp (Service_CreateSubscription r) (fun o s' => exists x, rest s' x /\ o = (GOOD, out x)) s) as H end.
  2: { destruct (wp_defined _ _ _ H) as (o & s' & He & x & Hx & ->); by exists s', x. }
  unfold wp, Service_CreateSubscription, UA_Subscription_new, UA_Session_addSubscription, setSubscriptionSettings,
    Subscription_unregisterPublishCallback, Subscription_registerPublishCallback, addRepeatedCallback, alloc, malloc,
    new_sub, update_session, update_sub, deref_sub, mbind, M_bind, gets, modify, mret, M_ret.
  rewrite Hroom, Hmem; cbn -[double_to_uint32 double_bounded bounded]; fold a.
  repeat (rewrite lookup_insert_eq; cbn -[double_to_uint32 double_bounded bounded]).
  set (interval := double_bounded publishingIntervalLimits _); set (keepalive := bounded keepAliveCountLimits _).
  destruct (double_to_uint32 interval <? 5) eqn:Hiv; unfold mbind, M_bind, gets, modify, mret, M_ret; rewrite ?Hmem;
    cbn -[double_to_uint32 double_bounded bounded];
    repeat (rewrite lookup_insert_eq; cbn -[double_to_uint32 double_bounded bounded]);
    (eexists; split; [split; [rewrite !insert_insert_eq; reflexivity|]|reflexivity]);
    cbn -[double_to_uint32 double_bounded bounded]; rewrite Hiv, ?app_nil_r; (split; [|by repeat split]);
    eapply (settings_revised r); (done || lia || reflexivity).
Qed.
End Settings.

Lemma subscription_created_witness :
  exists s' x, Service_CreateSubscription (E := SubscriptionExample.env) SubscriptionExample.create (subs_init 5) =
    Some ((GOOD, Some (1, publishingInterval x, lifeTimeCount x, maxKeepAliveCount x)), s') /\
    revised (E := SubscriptionExample.env) SubscriptionExample.create x.
Proof.
  destruct (subscription_created (E := SubscriptionExample.env) SubscriptionExample.create (subs_init 5))
    as (s' & x & H & _ & Hr & _ & Hid & _);
    [reflexivity|right; reflexivity|reflexivity|split; discriminate|reflexivity|discriminate|].
  exists s', x; rewrite Hid in H; split; [exact H|exact Hr].
Defined.
