(* ===== verification/AddressSpace.v ===== *)
(** * Nodes and the node store as the services see it

    A node has references, sorted by kind ([UA_NodeReferenceKind]: type and
    direction).  Nodes live on a heap; the node store hands out pointers to
    them, counts the references it handed out and frees a node that was
    removed when the last one is released ([NodeStore.v] models the hash map
    behind it, [NodeSpace.v] proves that it behaves as described here).  The
    services edit a node in place through such a pointer.

    Of [src/server/ua_nodes.c]: the references of a node. *)

From Stdlib Require Import ZArith Lia.
From stdpp Require Import base list numbers tactics sets gmap.
From S2P Require Import Prelude StateMonad UaTypes NodeStore.

Definition BADDUPLICATEREFERENCENOTALLOWED : status := 0x80660000.
Definition UNCERTAINREFERENCENOTDELETED : status := 0x40BC0000.

(** ** Nodes ([include/ua_plugin_nodestore.h]) *)

Definition UA_NODECLASS_UNSPECIFIED : Z := 0.
Definition UA_NODECLASS_OBJECT : Z := 1.
Definition UA_NODECLASS_VARIABLE : Z := 2.
Definition UA_NODECLASS_METHOD : Z := 4.
Definition UA_NODECLASS_OBJECTTYPE : Z := 8.
Definition UA_NODECLASS_VARIABLETYPE : Z := 16.
Definition UA_NODECLASS_REFERENCETYPE : Z := 32.
Definition UA_NODECLASS_DATATYPE : Z := 64.

Record UA_NodeReferenceKind := mkKind {
  rk_referenceTypeId : UA_NodeId;
  rk_isInverse : bool;
  targetIds : list UA_ExpandedNodeId
}.

(** The attributes all node classes share, and whether the node has a
    destructor in its [lifecycle] (of an object type or a variable type). *)
Record UA_Node := mkUaNode {
  nodeId : UA_NodeId;
  nodeClass : Z;
  browseName : UA_QualifiedName;
  displayName : UA_LocalizedText;
  description : UA_LocalizedText;
  writeMask : Z;
  references : list UA_NodeReferenceKind;
  has_destructor : bool
}.

Definition set_references (n : UA_Node) (l : list UA_NodeReferenceKind) : UA_Node :=
  mkUaNode (nodeId n) (nodeClass n) (browseName n) (displayName n) (description n) (writeMask n) l
    (has_destructor n).

(** [UA_AddReferencesItem] *)
Record UA_AddReferencesItem := mkAddReferencesItem {
  ar_sourceNodeId : UA_NodeId;
  ar_referenceTypeId : UA_NodeId;
  ar_isForward : bool;
  ar_targetServerUri : UA_String;
  ar_targetNodeId : UA_ExpandedNodeId;
  ar_targetNodeClass : Z
}.

(** [UA_DeleteReferencesItem] *)
Record UA_DeleteReferencesItem := mkDeleteReferencesItem {
  dr_sourceNodeId : UA_NodeId;
  dr_referenceTypeId : UA_NodeId;
  dr_isForward : bool;
  dr_targetNodeId : UA_ExpandedNodeId;
  deleteBidirectional : bool
}.

(** [UA_DeleteNodesItem] *)
Record UA_DeleteNodesItem := mkDeleteNodesItem {
  dn_nodeId : UA_NodeId;
  deleteTargetReferences : bool
}.

(** An [ExpandedNodeId] of this server. *)
Definition local_id (id : UA_NodeId) : UA_ExpandedNodeId := mkExpandedNodeId id ArrNull 0.

(** [UA_BrowseDescription] *)
Record UA_BrowseDescription := mkBrowseDescription {
  bd_nodeId : UA_NodeId;
  browseDirection : Z;
  bd_referenceTypeId : UA_NodeId;
  includeSubtypes : bool;
  nodeClassMask : Z;
  resultMask : Z
}.

(** [ContinuationPointEntry] ([src/server/ua_session.h]) *)
Record ContinuationPointEntry := mkCp {
  cp_identifier : UA_ByteString;
  browseDescription : UA_BrowseDescription;
  maxReferences : Z;
  referenceKindIndex : nat;     (* the last point in the references *)
  targetIndex : nat
}.

Definition set_cp_position (cp : ContinuationPointEntry) (kind target : nat) : ContinuationPointEntry :=
  mkCp (cp_identifier cp) (browseDescription cp) (maxReferences cp) kind target.

(** ** The state

    The nodes, and the continuation points of the session that calls the
    services.  [destroyed] lists the calls of destructors: the type node, or
    [None] for the global one, and the node. *)

Record AddressSpace := mkSpace {
  nodes : gmap nat UA_Node;                  (* the heap *)
  stored : list nat;                         (* the nodes in the node store *)
  held : list nat;                           (* the references handed out *)
  allocs : nat;                              (* allocations so far *)
  destroyed : list (option UA_NodeId * UA_NodeId);
  continuationPoints : list ContinuationPointEntry;
  availableContinuationPoints : Z;           (* UA_UInt16 *)
  guids : nat                                (* random Guids so far *)
}.

Definition set_nodes (s : AddressSpace) ns st h :=
  mkSpace ns st h (allocs s) (destroyed s) (continuationPoints s) (availableContinuationPoints s)
    (guids s).
Definition set_allocs (s : AddressSpace) n :=
  mkSpace (nodes s) (stored s) (held s) n (destroyed s) (continuationPoints s)
    (availableContinuationPoints s) (guids s).
Definition set_destroyed (s : AddressSpace) l :=
  mkSpace (nodes s) (stored s) (held s) (allocs s) l (continuationPoints s)
    (availableContinuationPoints s) (guids s).
Definition set_cps (s : AddressSpace) l available :=
  mkSpace (nodes s) (stored s) (held s) (allocs s) (destroyed s) l available (guids s).
Definition set_guids (s : AddressSpace) n :=
  mkSpace (nodes s) (stored s) (held s) (allocs s) (destroyed s) (continuationPoints s)
    (availableContinuationPoints s) n.

Abbreviation M := (state_m AddressSpace).

(** ** The node store *)

Definition has_id (s : AddressSpace) (id : UA_NodeId) (p : nat) : Prop :=
  UA_NodeId_equal (nodeId <$> nodes s !! p) (Some id) = true.

#[export] Instance has_id_dec s id p : Decision (has_id s id p).
Proof. unfold has_id; apply _. Defined.

(** The node of an identifier in the store. *)
Definition find_node (s : AddressSpace) (id : UA_NodeId) : option nat :=
  snd <$> list_find (has_id s id) (stored s).

Definition UA_Nodestore_get (id : UA_NodeId) : M (option nat) := fun s =>
  match find_node s id with
  | None => Some (None, s)
  | Some p => Some (Some p, set_nodes s (nodes s) (stored s) (p :: held s))
  end.

(** One of several references that are held to a node. *)
Fixpoint drop_one (p : nat) (l : list nat) : list nat :=
  match l with [] => [] | q :: l => if decide (q = p) then l else q :: drop_one p l end.

(** A node that is neither stored nor referred to is freed. *)
Definition cleanup (p : nat) (s : AddressSpace) : AddressSpace :=
  if decide (p ∈ stored s \/ p ∈ held s) then s
  else set_nodes s (delete p (nodes s)) (stored s) (held s).

Definition UA_Nodestore_release (p : nat) : M unit := fun s =>
  if decide (p ∈ held s) then
    Some (tt, cleanup p (set_nodes s (nodes s) (stored s) (drop_one p (held s))))
  else None.

Definition UA_Nodestore_remove (id : UA_NodeId) : M status := fun s =>
  match find_node s id with
  | None => Some (BADNODEIDUNKNOWN, s)
  | Some p => Some (GOOD, cleanup p (set_nodes s (nodes s) (without p (stored s)) (held s)))
  end.

(** Access through a pointer. *)
Definition node_at (p : nat) : M UA_Node := fun s => the (nodes s !! p) s.

Definition write_node (p : nat) (n : UA_Node) : M unit := fun s =>
  _ ← nodes s !! p; Some (tt, set_nodes s (<[p := n]> (nodes s)) (stored s) (held s)).

(** ** Configuration and environment *)

(** Whether an allocation succeeds, the random number generator, the limits of
    [UA_ServerConfig] (0: none), the access control plugin ([None]: no
    callback), the global destructor, and whether the session is the one of the
    server itself, [adminSession]. *)
Class Env := {
  malloc_ok : nat -> bool;
  guid_random : nat -> UA_Guid;
  maxReferencesPerNode : Z;
  maxNodesPerNodeManagement : Z;
  maxNodesPerTranslateBrowsePathsToNodeIds : Z;
  maxNodesPerRegisterNodes : Z;
  allowAddReference : option (UA_AddReferencesItem -> bool);
  allowDeleteReference : option (UA_DeleteReferencesItem -> bool);
  allowDeleteNode : option (UA_DeleteNodesItem -> bool);
  global_destructor : bool;
  admin : bool
}.

(** ** Allocation and copies *)

Section Memory.
Context {E : Env}.

Definition malloc : M bool := fun s =>
  Some (malloc_ok (allocs s), set_allocs s (S (allocs s))).

(** A copy of a string: an empty one is the sentinel. *)
Definition copied (str : UA_String) : UA_String :=
  match str with ArrData [] => ArrEmpty | _ => str end.

Definition UA_String_copy (str : UA_String) : M (status * UA_String) :=
  if arr_length str =? 0 then mret (GOOD, copied str)
  else ok ← malloc; mret (if (ok : bool) then (GOOD, str) else (BADOUTOFMEMORY, ArrNull)).

Definition UA_NodeId_copy (id : UA_NodeId) : M (status * UA_NodeId) :=
  let ns := nid_namespaceIndex id in
  let copy (f : UA_String -> UA_NodeIdIdentifier) str :=
    '(ret, str) ← UA_String_copy str;
    mret (ret, if bad ret then UA_NODEID_NULL else mkNodeId ns (f str)) in
  match nid_identifier id with
  | NumericId _ | GuidId _ => mret (GOOD, id)
  | StringId str => copy StringId str
  | ByteStringId str => copy ByteStringId str
  | OtherId _ _ => mret (BADINTERNALERROR, UA_NODEID_NULL)
  end.

Definition UA_ExpandedNodeId_copy (id : UA_ExpandedNodeId) : M (status * UA_ExpandedNodeId) :=
  '(ret1, n) ← UA_NodeId_copy (eni_nodeId id);
  '(ret2, uri) ← UA_String_copy (eni_namespaceUri id);
  let ret := Z.lor ret1 ret2 in
  mret (ret, if bad ret then local_id UA_NODEID_NULL else mkExpandedNodeId n uri (eni_serverIndex id)).

Definition UA_QualifiedName_copy (n : UA_QualifiedName) : M (status * UA_QualifiedName) :=
  '(ret, str) ← UA_String_copy (qn_name n);
  mret (ret, if bad ret then mkQualifiedName 0 ArrNull else mkQualifiedName (qn_namespaceIndex n) str).

Definition UA_LocalizedText_copy (t : UA_LocalizedText) : M (status * UA_LocalizedText) :=
  '(ret1, locale) ← UA_String_copy (lt_locale t);
  '(ret2, text) ← UA_String_copy (lt_text t);
  let ret := Z.lor ret1 ret2 in
  mret (ret, if bad ret then mkLocalizedText ArrNull ArrNull else mkLocalizedText locale text).

(** ** References of a node *)

(** The node is passed by value: the callers write it back. *)
Definition addReferenceTarget (refs : UA_NodeReferenceKind) (target : UA_ExpandedNodeId)
    : M (status * UA_NodeReferenceKind) :=
  ok ← malloc;
  if negb ok then mret (BADOUTOFMEMORY, refs)
  else
    '(retval, t) ← UA_ExpandedNodeId_copy target;
    mret (retval, if bad retval then refs
                  else mkKind (rk_referenceTypeId refs) (rk_isInverse refs) (targetIds refs ++ [t])).

Definition addReferenceKind (node : UA_Node) (item : UA_AddReferencesItem) : M (status * UA_Node) :=
  ok ← malloc;
  if negb ok then mret (BADOUTOFMEMORY, node)
  else
    '(ret1, typeId) ← UA_NodeId_copy (ar_referenceTypeId item);
    '(ret2, newRef) ← addReferenceTarget (mkKind typeId (negb (ar_isForward item)) [])
                        (ar_targetNodeId item);
    let retval := Z.lor ret1 ret2 in
    mret (retval, if bad retval then node else set_references node (references node ++ [newRef])).

(** The kind a reference belongs to: its index, the first one. *)
Definition same_kind (typeId : UA_NodeId) (isForward : bool) (refs : UA_NodeReferenceKind) : Prop :=
  rk_isInverse refs <> isForward /\
  UA_NodeId_equal (Some (rk_referenceTypeId refs)) (Some typeId) = true.

#[export] Instance same_kind_dec typeId isForward refs : Decision (same_kind typeId isForward refs).
Proof. unfold same_kind; apply _. Defined.

Definition same_target (target t : UA_ExpandedNodeId) : bool :=
  UA_ExpandedNodeId_equal (Some t) (Some target).

Definition UA_Node_addReference (node : UA_Node) (item : UA_AddReferencesItem) : M (status * UA_Node) :=
  match list_find (same_kind (ar_referenceTypeId item) (ar_isForward item)) (references node) with
  | Some (i, existingRefs) =>
      if existsb (same_target (ar_targetNodeId item)) (targetIds existingRefs)
      then mret (BADDUPLICATEREFERENCENOTALLOWED, node)
      else
        '(retval, refs) ← addReferenceTarget existingRefs (ar_targetNodeId item);
        mret (retval, set_references node (<[i := refs]> (references node)))
  | None => addReferenceKind node item
  end.
End Memory.

(** The element [i] of an array is removed: the last element takes its place. *)
Definition remove_at {A} (l : list A) (i : nat) : list A :=
  match last l with
  | None => l
  | Some x => take (length l - 1) (<[i := x]> l)
  end.

(** [for(size_t j = l; j > 0; --j)]: the last element that satisfies a test. *)
Fixpoint find_last {A} (test : A -> bool) (l : list A) : option nat :=
  match l with
  | [] => None
  | a :: l =>
      match find_last test l with
      | Some i => Some (S i)
      | None => if test a then Some 0%nat else None
      end
  end.

Definition refers_to (id : UA_NodeId) (t : UA_ExpandedNodeId) : bool :=
  UA_NodeId_equal (Some id) (Some (eni_nodeId t)).

(** The last kind that fits and has the target, with the index of the target. *)
Definition deletes_from (item : UA_DeleteReferencesItem) (refs : UA_NodeReferenceKind) : bool :=
  if eqb (dr_isForward item) (rk_isInverse refs) then false
  else if negb (UA_NodeId_equal (Some (dr_referenceTypeId item)) (Some (rk_referenceTypeId refs)))
  then false
  else match find_last (refers_to (eni_nodeId (dr_targetNodeId item))) (targetIds refs) with
       | Some _ => true
       | None => false
       end.

Definition UA_Node_deleteReference (node : UA_Node) (item : UA_DeleteReferencesItem)
    : status * UA_Node :=
  match find_last (deletes_from item) (references node) with
  | None => (UNCERTAINREFERENCENOTDELETED, node)
  | Some i =>
      match references node !! i with
      | None => (UNCERTAINREFERENCENOTDELETED, node)
      | Some refs =>
          match find_last (refers_to (eni_nodeId (dr_targetNodeId item))) (targetIds refs) with
          | None => (UNCERTAINREFERENCENOTDELETED, node)
          | Some j =>
              match remove_at (targetIds refs) j with
              | [] => (GOOD, set_references node (remove_at (references node) i))
              | targets =>
                  (GOOD, set_references node
                     (<[i := mkKind (rk_referenceTypeId refs) (rk_isInverse refs) targets]>
                        (references node)))
              end
          end
      end
  end.

Definition UA_Node_deleteReferences (node : UA_Node) : UA_Node := set_references node [].
