(* ===== verification/NodeTree.v ===== *)
(** * Trees of nodes ([src/server/ua_server_utils.c])

    Searching upwards along references ([isNodeInTree], with its check for
    loops at every fifth level), the type of a node, and editing a node.

    The search ends at [UA_MAX_TREE_RECURSE] levels, so [tree_fuel] levels of
    the recursion are enough. *)

From Stdlib Require Import ZArith Lia.
From stdpp Require Import base list numbers tactics sets gmap.
From S2P Require Import Prelude StateMonad UaTypes NodeStore AddressSpace.

(** Numeric identifiers of namespace 0 ([tools/schema/NodeIds.csv]) *)
Definition ns0 (i : Z) : UA_NodeId := mkNodeId 0 (NumericId i).

Definition UA_NS0ID_HIERARCHICALREFERENCES : UA_NodeId := ns0 33.
Definition UA_NS0ID_HASTYPEDEFINITION : UA_NodeId := ns0 40.
Definition UA_NS0ID_AGGREGATES : UA_NodeId := ns0 44.
Definition UA_NS0ID_HASSUBTYPE : UA_NodeId := ns0 45.

Definition UA_MAX_TREE_RECURSE : Z := 50.

Definition nodeid_eqb (a b : UA_NodeId) : bool := UA_NodeId_equal (Some a) (Some b).

(** ** [isNodeInTree] *)

Section Search.
Context (nodeToFind : UA_NodeId) (referenceTypeIds : list UA_NodeId).

Definition type_listed (refs : UA_NodeReferenceKind) : bool :=
  existsb (nodeid_eqb (rk_referenceTypeId refs)) referenceTypeIds.

(** The loops over the kinds and targets of a node.  [visited] are the
    identifiers from the node to the leaf, [depth] its depth; [search] is the
    recursive call. *)
Section Loops.
Context (search : UA_NodeId -> list UA_NodeId -> Z -> M bool) (visited : list UA_NodeId) (depth : Z).

Fixpoint search_targets (targets : list UA_ExpandedNodeId) : M bool :=
  match targets with
  | [] => mret false
  | t :: targets =>
      if (depth mod 5 =? 4) && existsb (fun id => nodeid_eqb id (eni_nodeId t)) visited
      then search_targets targets
      else
        foundRecursive ← search (eni_nodeId t) (eni_nodeId t :: visited) (u16 (depth + 1));
        if (foundRecursive : bool) then mret true else search_targets targets
  end.

Fixpoint search_kinds (kinds : list UA_NodeReferenceKind) : M bool :=
  match kinds with
  | [] => mret false
  | refs :: kinds =>
      if negb (rk_isInverse refs) then search_kinds kinds
      else if negb (type_listed refs) then search_kinds kinds
      else
        found ← search_targets (targetIds refs);
        if (found : bool) then mret true else search_kinds kinds
  end.
End Loops.

Fixpoint isNodeInTreeNoCircular (fuel : nat) (leafNode : UA_NodeId) (visitedRefs : list UA_NodeId)
    (depth : Z) : M bool :=
  match fuel with
  | O => undefined
  | S fuel =>
      if nodeid_eqb nodeToFind leafNode then mret true
      else if UA_MAX_TREE_RECURSE <=? depth then mret false
      else
        node ← UA_Nodestore_get leafNode;
        match node with
        | None => mret false
        | Some p =>
            n ← node_at p;
            found ← search_kinds (isNodeInTreeNoCircular fuel) visitedRefs depth (references n);
            _ ← UA_Nodestore_release p;
            mret found
        end
  end.
End Search.

Definition tree_fuel : nat := 51.

Definition isNodeInTree (leafNode nodeToFind : UA_NodeId) (referenceTypeIds : list UA_NodeId) : M bool :=
  isNodeInTreeNoCircular nodeToFind referenceTypeIds tree_fuel leafNode [leafNode] 0.

(** ** Types *)

(** The type, direction and class of the reference to the type of a node. *)
Definition type_reference (nodeClass : Z) : option (UA_NodeId * bool * Z) :=
  if nodeClass =? UA_NODECLASS_OBJECT then
    Some (UA_NS0ID_HASTYPEDEFINITION, false, UA_NODECLASS_OBJECTTYPE)
  else if nodeClass =? UA_NODECLASS_VARIABLE then
    Some (UA_NS0ID_HASTYPEDEFINITION, false, UA_NODECLASS_VARIABLETYPE)
  else if bool_decide (nodeClass ∈ [UA_NODECLASS_OBJECTTYPE; UA_NODECLASS_VARIABLETYPE;
                                    UA_NODECLASS_REFERENCETYPE; UA_NODECLASS_DATATYPE])
  then Some (UA_NS0ID_HASSUBTYPE, true, nodeClass)
  else None.

Fixpoint getNodeType_loop (parentRef : UA_NodeId) (inverse : bool) (typeNodeClass : Z)
    (kinds : list UA_NodeReferenceKind) : M (option nat) :=
  match kinds with
  | [] => mret None
  | refs :: kinds =>
      let next := getNodeType_loop parentRef inverse typeNodeClass kinds in
      if negb (eqb (rk_isInverse refs) inverse) then next
      else if negb (nodeid_eqb (rk_referenceTypeId refs) parentRef) then next
      else
        match targetIds refs with
        | [] => undefined
        | target :: _ =>
            type ← UA_Nodestore_get (eni_nodeId target);
            match type with
            | None => next
            | Some p =>
                n ← node_at p;
                if nodeClass n =? typeNodeClass then mret (Some p)
                else _ ← UA_Nodestore_release p; next
            end
        end
  end.

(** The type is handed out to the caller. *)
Definition getNodeType (node : UA_Node) : M (option nat) :=
  match type_reference (nodeClass node) with
  | None => mret None
  | Some (parentRef, inverse, typeNodeClass) =>
      getNodeType_loop parentRef inverse typeNodeClass (references node)
  end.

Definition UA_Node_hasSubTypeOrInstances (node : UA_Node) : bool :=
  existsb (fun refs =>
    (negb (rk_isInverse refs) && nodeid_eqb (rk_referenceTypeId refs) UA_NS0ID_HASSUBTYPE) ||
    (rk_isInverse refs && nodeid_eqb (rk_referenceTypeId refs) UA_NS0ID_HASTYPEDEFINITION))
    (references node).

(** ** Editing a node, in a build without immutable nodes *)

Definition UA_Server_editNode (nodeId : UA_NodeId) (callback : UA_Node -> M (status * UA_Node))
    : M status :=
  node ← UA_Nodestore_get nodeId;
  match node with
  | None => mret BADNODEIDUNKNOWN
  | Some p =>
      n ← node_at p;
      '(retval, n) ← callback n;
      _ ← write_node p n;
      _ ← UA_Nodestore_release p;
      mret retval
  end.
