(* ===== verification/Browse.v ===== *)
(** * Browsing ([src/server/ua_services_view.c])

    Browse and BrowseNext with continuation points ([Browse.v] models the
    rest of the file), and the loop over the operations of a
    service ([ua_server_utils.c]). *)

From Stdlib Require Import ZArith Lia.
From stdpp Require Import base list numbers tactics sets gmap.
From S2P Require Import Prelude StateMonad UaTypes NodeStore AddressSpace NodeTree.

Definition BADCONTINUATIONPOINTINVALID : status := 0x804A0000.
Definition BADNOCONTINUATIONPOINTS : status := 0x804B0000.
Definition BADREFERENCETYPEIDINVALID : status := 0x804C0000.
Definition BADBROWSEDIRECTIONINVALID : status := 0x804D0000.
Definition BADBROWSENAMEINVALID : status := 0x80600000.
Definition BADVIEWIDUNKNOWN : status := 0x806B0000.
Definition BADNOMATCH : status := 0x806F0000.

Definition UA_BROWSEDIRECTION_FORWARD : Z := 0.
Definition UA_BROWSEDIRECTION_INVERSE : Z := 1.
Definition UA_BROWSEDIRECTION_BOTH : Z := 2.

Definition UA_BROWSERESULTMASK_NONE : Z := 0.
Definition UA_BROWSERESULTMASK_REFERENCETYPEID : Z := 1.
Definition UA_BROWSERESULTMASK_ISFORWARD : Z := 2.
Definition UA_BROWSERESULTMASK_NODECLASS : Z := 4.
Definition UA_BROWSERESULTMASK_BROWSENAME : Z := 8.
Definition UA_BROWSERESULTMASK_DISPLAYNAME : Z := 16.
Definition UA_BROWSERESULTMASK_TYPEDEFINITION : Z := 32.

(** ** Data *)

(** [UA_ReferenceDescription] *)
Record UA_ReferenceDescription := mkDescription {
  rd_referenceTypeId : UA_NodeId;
  rd_isForward : bool;
  rd_nodeId : UA_ExpandedNodeId;
  rd_browseName : UA_QualifiedName;
  rd_displayName : UA_LocalizedText;
  rd_nodeClass : Z;
  rd_typeDefinition : UA_ExpandedNodeId
}.

(** [UA_BrowseResult] *)
Record UA_BrowseResult := mkBrowseResult {
  br_statusCode : status;
  continuationPoint : UA_ByteString;
  br_references : UA_Array UA_ReferenceDescription
}.

Definition BrowseResult_init : UA_BrowseResult := mkBrowseResult GOOD ArrNull ArrNull.
Definition browse_error (s : status) : UA_BrowseResult := mkBrowseResult s ArrNull ArrNull.

Section Browse.
Context {E : Env}.

(** ** References of a node *)

Definition masked (mask bit : Z) : bool := negb (Z.land mask bit =? 0).

(** A member that is copied when the mask asks for it, the null value otherwise. *)
Definition copy_if {A} (b : bool) (null : A) (copy : M (status * A)) : M (status * A) :=
  if b then copy else mret (GOOD, null).

Definition copy_type (curr : UA_Node) : M (status * UA_NodeId) :=
  if (nodeClass curr =? UA_NODECLASS_OBJECT) || (nodeClass curr =? UA_NODECLASS_VARIABLE) then
    type ← getNodeType curr;
    match type with
    | None => mret (GOOD, UA_NODEID_NULL)
    | Some p =>
        n ← node_at p;
        r ← UA_NodeId_copy (nodeId n);
        _ ← UA_Nodestore_release p;
        mret r
    end
  else mret (GOOD, UA_NODEID_NULL).

Definition fillReferenceDescription (curr : UA_Node) (ref : UA_NodeReferenceKind) (mask : Z)
    : M (status * UA_ReferenceDescription) :=
  let want := masked mask in
  '(r1, id) ← UA_NodeId_copy (nodeId curr);
  '(r2, typeId) ← copy_if (want UA_BROWSERESULTMASK_REFERENCETYPEID) UA_NODEID_NULL
                    (UA_NodeId_copy (rk_referenceTypeId ref));
  '(r3, name) ← copy_if (want UA_BROWSERESULTMASK_BROWSENAME) (mkQualifiedName 0 ArrNull)
                  (UA_QualifiedName_copy (browseName curr));
  '(r4, display) ← copy_if (want UA_BROWSERESULTMASK_DISPLAYNAME) (mkLocalizedText ArrNull ArrNull)
                     (UA_LocalizedText_copy (displayName curr));
  '(r5, typeDef) ← copy_if (want UA_BROWSERESULTMASK_TYPEDEFINITION) UA_NODEID_NULL (copy_type curr);
  mret (Z.lor (Z.lor (Z.lor (Z.lor r1 r2) r3) r4) r5,
        mkDescription typeId
          (if want UA_BROWSERESULTMASK_ISFORWARD then negb (rk_isInverse ref) else false)
          (local_id id) name display
          (if want UA_BROWSERESULTMASK_NODECLASS then nodeClass curr else 0)
          (local_id typeDef)).

Definition relevantReference (includeSubtypes : bool) (rootRef testRef : UA_NodeId) : M bool :=
  if negb includeSubtypes then mret (nodeid_eqb rootRef testRef)
  else isNodeInTree testRef rootRef [UA_NS0ID_HASSUBTYPE].

Definition matchClassMask (node : UA_Node) (nodeClassMask : Z) : bool :=
  if negb (nodeClassMask =? UA_NODECLASS_UNSPECIFIED) && (Z.land (nodeClass node) nodeClassMask =? 0)
  then false else true.

(** Where the loops stand: with the references so far and the size of their
    array; out of room at a reference that is left over; failed. *)
Inductive BrowseStep :=
| BrowseOn (refs : list UA_ReferenceDescription) (refs_size : Z)
| BrowseFull (kind target : nat) (refs : list UA_ReferenceDescription)
| BrowseError (s : status).

Section Loops.
Context (descr : UA_BrowseDescription) (maxrefs : Z).

(** Twice the size, at most the maximum. *)
Definition grown (refs_size : Z) : Z := if maxrefs <? refs_size * 2 then maxrefs else refs_size * 2.

(** A target that matches is described in the next element of the array. *)
Definition browse_target (rk : UA_NodeReferenceKind) (kind ti : nat) (target : UA_Node)
    (refs : list UA_ReferenceDescription) (refs_size : Z) : M BrowseStep :=
  if negb (matchClassMask target (nodeClassMask descr)) then mret (BrowseOn refs refs_size)
  else if maxrefs <=? zlen refs then mret (BrowseFull kind ti refs)
  else
    ok ← (if refs_size <=? zlen refs then malloc else mret true);
    if negb ok then mret (BrowseError BADOUTOFMEMORY)
    else
      let refs_size := if refs_size <=? zlen refs then grown refs_size else refs_size in
      '(s, d) ← fillReferenceDescription target rk (resultMask descr);
      mret (if bad s then BrowseError s else BrowseOn (refs ++ [d]) refs_size).

(** From the target number [ti] on. *)
Fixpoint browse_targets (rk : UA_NodeReferenceKind) (kind ti : nat) (targets : list UA_ExpandedNodeId)
    (refs : list UA_ReferenceDescription) (refs_size : Z) : M BrowseStep :=
  match targets with
  | [] => mret (BrowseOn refs refs_size)
  | t :: targets =>
      target ← UA_Nodestore_get (eni_nodeId t);
      match target with
      | None => browse_targets rk kind (S ti) targets refs refs_size
      | Some p =>
          n ← node_at p;
          step ← browse_target rk kind ti n refs refs_size;
          _ ← UA_Nodestore_release p;
          match step with
          | BrowseOn refs refs_size => browse_targets rk kind (S ti) targets refs refs_size
          | _ => mret step
          end
      end
  end.

(** Direction and type of the references are the ones asked for. *)
Definition kind_relevant (rk : UA_NodeReferenceKind) : M bool :=
  if rk_isInverse rk && (browseDirection descr =? UA_BROWSEDIRECTION_FORWARD) then mret false
  else if negb (rk_isInverse rk) && (browseDirection descr =? UA_BROWSEDIRECTION_INVERSE)
  then mret false
  else if UA_NodeId_isNull (bd_referenceTypeId descr) then mret true
  else relevantReference (includeSubtypes descr) (bd_referenceTypeId descr) (rk_referenceTypeId rk).

(** From the kind number [kind] on, in the first relevant one from the target
    number [ti] on. *)
Fixpoint browse_kinds (kind ti : nat) (kinds : list UA_NodeReferenceKind)
    (refs : list UA_ReferenceDescription) (refs_size : Z) : M BrowseStep :=
  match kinds with
  | [] => mret (BrowseOn refs refs_size)
  | rk :: kinds =>
      relevant ← kind_relevant rk;
      if negb relevant then browse_kinds (S kind) ti kinds refs refs_size
      else
        step ← browse_targets rk kind ti (drop ti (targetIds rk)) refs refs_size;
        match step with
        | BrowseOn refs refs_size => browse_kinds (S kind) 0 kinds refs refs_size
        | _ => mret step
        end
  end.
End Loops.

(** The most references that are returned at once. *)
Definition browse_limit (maxReferences : Z) : Z :=
  if maxReferences =? 0 then
    if negb (maxReferencesPerNode =? 0) then maxReferencesPerNode else UA_INT32_MAX
  else if negb (maxReferencesPerNode =? 0) && (maxReferencesPerNode <? maxReferences)
  then maxReferencesPerNode else maxReferences.

(** Whether the node is done, and the new position. *)
Definition browseReferences (node : UA_Node) (cp : ContinuationPointEntry)
    : M (bool * ContinuationPointEntry * UA_BrowseResult) :=
  match references node with
  | [] => mret (true, cp, BrowseResult_init)
  | kinds =>
      ok ← malloc;
      if negb ok then mret (false, cp, browse_error BADOUTOFMEMORY)
      else
        step ← browse_kinds (browseDescription cp) (browse_limit (maxReferences cp))
                 (referenceKindIndex cp) (targetIndex cp) (drop (referenceKindIndex cp) kinds) [] 2;
        match step with
        | BrowseOn [] _ => mret (true, cp, mkBrowseResult GOOD ArrNull ArrEmpty)
        | BrowseOn refs _ => mret (true, cp, mkBrowseResult GOOD ArrNull (ArrData refs))
        | BrowseFull kind target refs =>
            mret (false, set_cp_position cp kind target, mkBrowseResult GOOD ArrNull (ArrData refs))
        | BrowseError s => mret (false, cp, browse_error s)
        end
  end.

(** ** Browse and BrowseNext *)

Definition direction_valid (direction : Z) : bool :=
  (direction =? UA_BROWSEDIRECTION_BOTH) || (direction =? UA_BROWSEDIRECTION_FORWARD) ||
  (direction =? UA_BROWSEDIRECTION_INVERSE).

(** Whether the node is a reference type; [false] also when it is not there. *)
Definition is_reference_type (id : UA_NodeId) : M bool :=
  reftype ← UA_Nodestore_get id;
  match reftype with
  | None => mret false
  | Some p =>
      n ← node_at p;
      _ ← UA_Nodestore_release p;
      mret (nodeClass n =? UA_NODECLASS_REFERENCETYPE)
  end.

Definition browseWithContinuation (cp : ContinuationPointEntry)
    : M (bool * ContinuationPointEntry * UA_BrowseResult) :=
  let descr := browseDescription cp in
  if negb (direction_valid (browseDirection descr))
  then mret (true, cp, browse_error BADBROWSEDIRECTIONINVALID)
  else
    isRef ← (if UA_NodeId_isNull (bd_referenceTypeId descr) then mret true
             else is_reference_type (bd_referenceTypeId descr));
    if negb isRef then mret (true, cp, browse_error BADREFERENCETYPEIDINVALID)
    else
      node ← UA_Nodestore_get (bd_nodeId descr);
      match node with
      | None => mret (true, cp, browse_error BADNODEIDUNKNOWN)
      | Some p =>
          n ← node_at p;
          r ← browseReferences n cp;
          _ ← UA_Nodestore_release p;
          mret r
      end.

Definition removeCp (i : nat) : M unit :=
  cps ← gets continuationPoints;
  available ← gets availableContinuationPoints;
  modify (fun s => set_cps s (delete i cps) (u16 (available + 1))).

(** [UA_BrowseDescription_copy] *)
Definition BrowseDescription_copy (descr : UA_BrowseDescription) : M (status * UA_BrowseDescription) :=
  '(r1, node) ← UA_NodeId_copy (bd_nodeId descr);
  '(r2, type) ← UA_NodeId_copy (bd_referenceTypeId descr);
  mret (Z.lor r1 r2, mkBrowseDescription node (browseDirection descr) type (includeSubtypes descr)
                       (nodeClassMask descr) (resultMask descr)).

(** [*ident = UA_Guid_random()] *)
Definition random_identifier : M UA_ByteString := fun s =>
  Some (ArrData (guid_image (guid_random (guids s))), set_guids s (S (guids s))).

(** The new continuation point is put in front of the others. *)
Definition attachCp (cp : ContinuationPointEntry) : M unit :=
  modify (fun s => set_cps s (cp :: continuationPoints s) (availableContinuationPoints s - 1)).

Definition persistCp (cp : ContinuationPointEntry) (result : UA_BrowseResult) : M UA_BrowseResult :=
  available ← gets availableContinuationPoints;
  ok ← (if available <=? 0 then mret false else malloc);
  if negb ok then mret (browse_error BADNOCONTINUATIONPOINTS)
  else
    '(retval, descr) ← BrowseDescription_copy (browseDescription cp);
    if bad retval then mret (browse_error retval)
    else
      ok ← malloc;
      if negb ok then mret (browse_error BADOUTOFMEMORY)
      else
        ident ← random_identifier;
        '(retval, returned) ← UA_String_copy ident;
        if bad retval then mret (browse_error retval)
        else
          _ ← attachCp (mkCp ident descr (maxReferences cp) (referenceKindIndex cp) (targetIndex cp));
          mret (mkBrowseResult (br_statusCode result) returned (br_references result)).

Definition Operation_Browse (maxrefs : Z) (descr : UA_BrowseDescription) : M UA_BrowseResult :=
  let cp := mkCp ArrNull descr maxrefs 0 0 in
  '(done, cp, result) ← browseWithContinuation cp;
  if (done : bool) || bad (br_statusCode result) then mret result
  else persistCp cp result.

Definition named_cp (identifier : UA_ByteString) (cp : ContinuationPointEntry) : Prop :=
  UA_String_equal (cp_identifier cp) identifier = true.

#[export] Instance named_cp_dec identifier cp : Decision (named_cp identifier cp).
Proof. unfold named_cp; apply _. Defined.

Definition Operation_BrowseNext (releaseContinuationPoints : bool) (identifier : UA_ByteString)
    : M UA_BrowseResult :=
  cps ← gets continuationPoints;
  match list_find (named_cp identifier) cps with
  | None => mret (browse_error BADCONTINUATIONPOINTINVALID)
  | Some (i, cp) =>
      if releaseContinuationPoints then _ ← removeCp i; mret BrowseResult_init
      else
        '(done, cp, result) ← browseWithContinuation cp;
        _ ← modify (fun s => set_cps s (<[i := cp]> (continuationPoints s))
                                       (availableContinuationPoints s));
        if (done : bool) then _ ← removeCp i; mret result
        else
          '(retval, returned) ← UA_String_copy (cp_identifier cp);
          mret (if bad retval then browse_error retval
                else mkBrowseResult (br_statusCode result) returned (br_references result))
  end.

(** ** The operations of a service *)

Section Operations.
Context {A B : Type} (operationCallback : A -> M B).

Fixpoint run_operations (ops : list A) : M (list B) :=
  match ops with
  | [] => mret []
  | a :: ops => b ← operationCallback a; bs ← run_operations ops; mret (b :: bs)
  end.

Definition UA_Server_processServiceOperations (ops : list A) : M (status * list B) :=
  match ops with
  | [] => mret (BADNOTHINGTODO, [])
  | _ =>
      ok ← malloc;
      if negb ok then mret (BADOUTOFMEMORY, [])
      else bs ← run_operations ops; mret (GOOD, bs)
  end.
End Operations.

(** More operations than a limit that is not 0. *)
Definition too_many {A} (limit : Z) (ops : list A) : bool :=
  negb (limit =? 0) && (limit <? zlen ops).

Definition Service_Browse (viewId : UA_NodeId) (requestedMaxReferencesPerNode : Z)
    (nodesToBrowse : list UA_BrowseDescription) : M (status * list UA_BrowseResult) :=
  if negb (UA_NodeId_isNull viewId) then mret (BADVIEWIDUNKNOWN, [])
  else UA_Server_processServiceOperations (Operation_Browse requestedMaxReferencesPerNode)
         nodesToBrowse.

Definition Service_BrowseNext (releaseContinuationPoints : bool) (cps : list UA_ByteString)
    : M (status * list UA_BrowseResult) :=
  UA_Server_processServiceOperations (Operation_BrowseNext releaseContinuationPoints) cps.
End Browse.

(** ** Browse paths and registered nodes ([src/server/ua_services_view.c])

    TranslateBrowsePathsToNodeIds: from a starting node, every element of the
    path leads to the targets of the references it names, in two arrays that
    alternate; RegisterNodes and UnregisterNodes.  Assertions are those of a
    release build: they do nothing. *)

(** ** Data ([tools/schema/Opc.Ua.Types.bsd]) *)

(** [UA_RelativePathElement] *)
Record UA_RelativePathElement := mkPathElement {
  pe_referenceTypeId : UA_NodeId;
  pe_isInverse : bool;
  pe_includeSubtypes : bool;
  targetName : UA_QualifiedName
}.

(** [UA_BrowsePath], with the elements of its [UA_RelativePath] *)
Record UA_BrowsePath := mkBrowsePath {
  startingNode : UA_NodeId;
  elements : list UA_RelativePathElement
}.

(** [UA_BrowsePathTarget] *)
Record UA_BrowsePathTarget := mkPathTarget {
  targetId : UA_ExpandedNodeId;
  remainingPathIndex : Z
}.

(** [UA_BrowsePathResult]; [targets_dangling]: the pointer to the targets is to
    memory that was freed. *)
Record UA_BrowsePathResult := mkPathResult {
  bp_statusCode : status;
  bp_targets : list UA_BrowsePathTarget;
  targets_dangling : bool
}.

Definition path_error (s : status) : UA_BrowsePathResult := mkPathResult s [] false.

Definition UA_QualifiedName_isNull (q : UA_QualifiedName) : bool :=
  (qn_namespaceIndex q =? 0) && (arr_length (qn_name q) =? 0).

(** Namespace and name are the same. *)
Definition name_equal (q r : UA_QualifiedName) : bool :=
  (qn_namespaceIndex q =? qn_namespaceIndex r) && UA_String_equal (qn_name q) (qn_name r).

(** The node has the target name of the previous path element, if there is one. *)
Definition name_fits (name : option UA_QualifiedName) (node : UA_Node) : bool :=
  match name with Some q => name_equal q (browseName node) | None => true end.

(** What the loops change: the status and the array of targets of the result
    (its size only: what is written into it is not counted as a target), and
    the nodes of the next element with the size of their array. *)
Record Walk := mkWalk {
  wk_status : status;
  targetsSize : Z;
  next : list UA_NodeId;
  nextSize : Z
}.

Definition set_wk_status (w : Walk) (s : status) : Walk := mkWalk s (targetsSize w) (next w) (nextSize w).

Section Translate.
Context {E : Env}.

(** ** Walking along a path *)

(** A reference to another server doubles the array of targets and is written
    behind its last element, where the next one overwrites it. *)
Fixpoint walkBrowsePathElementReferenceTargets (targets : list UA_ExpandedNodeId) (w : Walk) : M Walk :=
  match targets with
  | [] => mret w
  | t :: targets =>
      if negb (eni_serverIndex t =? 0) then
        ok ← malloc;
        if negb ok then mret (set_wk_status w BADOUTOFMEMORY)
        else
          '(retval, _) ← UA_ExpandedNodeId_copy t;
          walkBrowsePathElementReferenceTargets targets
            (mkWalk retval (targetsSize w * 2) (next w) (nextSize w))
      else
        let full := nextSize w <=? zlen (next w) in
        ok ← (if full then malloc else mret true);
        if negb ok then mret (set_wk_status w BADOUTOFMEMORY)
        else
          let size := if full then nextSize w * 2 else nextSize w in
          '(retval, id) ← UA_NodeId_copy (eni_nodeId t);
          if bad retval then mret (mkWalk retval (targetsSize w) (next w) size)
          else walkBrowsePathElementReferenceTargets targets
                 (mkWalk retval (targetsSize w) (next w ++ [id]) size)
  end.

Section Element.
Context (nodeClassMask : Z) (elem : UA_RelativePathElement) (elemDepth : nat) (name : option UA_QualifiedName).

(** Return all references? *)
Definition any_type : bool := UA_NodeId_isNull (pe_referenceTypeId elem).

(** Direction and type of the references are the ones of the element. *)
Definition element_relevant (rk : UA_NodeReferenceKind) : M bool :=
  if negb (eqb (rk_isInverse rk) (pe_isInverse elem)) then mret false
  else if any_type then mret true
  else relevantReference (pe_includeSubtypes elem) (pe_referenceTypeId elem) (rk_referenceTypeId rk).

Fixpoint walk_kinds (kinds : list UA_NodeReferenceKind) (w : Walk) : M Walk :=
  match kinds with
  | [] => mret w
  | rk :: kinds =>
      if bad (wk_status w) then mret w
      else
        relevant ← element_relevant rk;
        if negb relevant then walk_kinds kinds w
        else w ← walkBrowsePathElementReferenceTargets (targetIds rk) w; walk_kinds kinds w
  end.

Fixpoint walk_nodes (current : list UA_NodeId) (w : Walk) : M Walk :=
  match current with
  | [] => mret w
  | id :: current =>
      node ← UA_Nodestore_get id;
      match node with
      | None => walk_nodes current (if Nat.eqb elemDepth 0 then set_wk_status w BADNODEIDUNKNOWN else w)
      | Some p =>
          n ← node_at p;
          w ← (if negb (matchClassMask n nodeClassMask) then mret w
               else if negb (name_fits name n) then mret w
               else walk_kinds (references n) w);
          _ ← UA_Nodestore_release p;
          walk_nodes current w
      end
  end.

Definition walkBrowsePathElement (current : list UA_NodeId) (w : Walk) : M Walk :=
  isRef ← (if any_type then mret true else is_reference_type (pe_referenceTypeId elem));
  if negb isRef then mret w else walk_nodes current w.

(** The nodes at the end that fit. *)
Fixpoint addBrowsePathTargets (current : list UA_NodeId) : M (list UA_BrowsePathTarget) :=
  match current with
  | [] => mret []
  | id :: current =>
      node ← UA_Nodestore_get id;
      match node with
      | None => addBrowsePathTargets current
      | Some p =>
          n ← node_at p;
          _ ← UA_Nodestore_release p;
          let skip := negb (matchClassMask n nodeClassMask && name_fits name n) in
          targets ← addBrowsePathTargets current;
          mret (if skip then targets else mkPathTarget (local_id id) (2 ^ 32 - 1) :: targets)
      end
  end.
End Element.

(** The loop over the elements: the nodes at the end of the path and the name
    they must have, or [None] when no node is left or it failed. *)
Fixpoint walk_elements (nodeClassMask : Z) (elems : list UA_RelativePathElement) (depth : nat)
    (name : option UA_QualifiedName) (current : list UA_NodeId) (currentSize : Z) (w : Walk)
    : M (Walk * option (list UA_NodeId * option UA_QualifiedName)) :=
  match elems with
  | [] => mret (w, Some (current, name))
  | elem :: elems =>
      w ← walkBrowsePathElement nodeClassMask elem depth name current w;
      match next w with
      | [] => mret (w, None)
      | _ =>
          if bad (wk_status w) then mret (w, None)
          else walk_elements nodeClassMask elems (S depth) (Some (targetName elem)) (next w) (nextSize w)
                 (mkWalk (wk_status w) (targetsSize w) [] currentSize)
      end
  end.

(** Status and targets of the result. *)
Definition walkBrowsePath (path : UA_BrowsePath) (nodeClassMask : Z) (size : Z) (current : list UA_NodeId)
    (currentSize nextSize : Z) : M (status * list UA_BrowsePathTarget) :=
  '(w, reached) ← walk_elements nodeClassMask (elements path) 0 None current currentSize
                    (mkWalk GOOD size [] nextSize);
  match reached with
  | None => mret (wk_status w, [])
  | Some (current, name) =>
      ok ← (if targetsSize w <? zlen current then malloc else mret true);
      if negb ok then mret (BADOUTOFMEMORY, [])
      else
        targets ← addBrowsePathTargets nodeClassMask name current;
        mret (wk_status w, targets)
  end.

(** After a failed allocation the pointer to the targets is left in the result. *)
Definition Operation_TranslateBrowsePathToNodeIds (nodeClassMask : Z) (path : UA_BrowsePath)
    : M UA_BrowsePathResult :=
  match elements path with
  | [] => mret (path_error BADNOTHINGTODO)
  | _ =>
      if existsb (fun e => UA_QualifiedName_isNull (targetName e)) (elements path)
      then mret (path_error BADBROWSENAMEINVALID)
      else
        ok ← malloc;
        if negb ok then mret (path_error BADOUTOFMEMORY)
        else
          ok ← malloc;
          if negb ok then mret (mkPathResult BADOUTOFMEMORY [] true)
          else
            ok ← malloc;
            if negb ok then mret (mkPathResult BADOUTOFMEMORY [] true)
            else
              '(retval, start) ← UA_NodeId_copy (startingNode path);
              if bad retval then mret (mkPathResult retval [] true)
              else
                '(retval, targets) ← walkBrowsePath path nodeClassMask 10 [start] 10 10;
                let retval := match targets with
                              | [] => if bad retval then retval else BADNOMATCH
                              | _ => retval
                              end in
                mret (if bad retval then path_error retval else mkPathResult retval targets false)
  end.

Definition Service_TranslateBrowsePathsToNodeIds (browsePaths : list UA_BrowsePath)
    : M (status * list UA_BrowsePathResult) :=
  if too_many maxNodesPerTranslateBrowsePathsToNodeIds browsePaths then mret (BADTOOMANYOPERATIONS, [])
  else UA_Server_processServiceOperations (Operation_TranslateBrowsePathToNodeIds 0) browsePaths.

(** Along hierarchical references, to objects and variables. *)
Definition UA_Server_browseSimplifiedBrowsePath (origin : UA_NodeId) (browsePath : list UA_QualifiedName)
    : M UA_BrowsePathResult :=
  Operation_TranslateBrowsePathToNodeIds (Z.lor UA_NODECLASS_OBJECT UA_NODECLASS_VARIABLE)
    (mkBrowsePath origin (map (mkPathElement UA_NS0ID_HIERARCHICALREFERENCES false true) browsePath)).

(** ** RegisterNodes *)

(** [UA_Array_copy] of identifiers: what was copied is freed when it fails. *)
Fixpoint copy_ids (ids : list UA_NodeId) : M (status * list UA_NodeId) :=
  match ids with
  | [] => mret (GOOD, [])
  | id :: ids =>
      '(r1, id) ← UA_NodeId_copy id;
      '(r2, ids) ← copy_ids ids;
      mret (Z.lor r1 r2, id :: ids)
  end.

Definition Service_RegisterNodes (nodesToRegister : list UA_NodeId) : M (status * list UA_NodeId) :=
  match nodesToRegister with
  | [] => mret (BADNOTHINGTODO, [])
  | _ =>
      if too_many maxNodesPerRegisterNodes nodesToRegister then mret (BADTOOMANYOPERATIONS, [])
      else
        ok ← malloc;
        if negb ok then mret (BADOUTOFMEMORY, [])
        else
          '(retval, ids) ← copy_ids nodesToRegister;
          mret (retval, if bad retval then [] else ids)
  end.

Definition Service_UnregisterNodes (nodesToUnregister : list UA_NodeId) : status :=
  if too_many maxNodesPerRegisterNodes nodesToUnregister then BADTOOMANYOPERATIONS
  else match nodesToUnregister with [] => BADNOTHINGTODO | _ => GOOD end.
End Translate.
