(* ===== verification/AddressLogic.v ===== *)
(** * Reading the address space

    Looking a node up and releasing it again leaves the store as it was.  The
    search upwards ends and finds a node exactly if some path of at most 50
    references leads to it: the check for loops drops no result. *)

From Stdlib Require Import ZArith Lia.
From stdpp Require Import base list numbers tactics sets gmap relations.
From S2P Require Import Prelude StateMonad UaTypes NodeStore AddressSpace NodeTree.

(** ** Equality of identifiers *)

Lemma UA_NodeId_equal_sym a b : nodeid_eqb a b = nodeid_eqb b a.
Proof.
  unfold nodeid_eqb, UA_NodeId_equal, UA_String_equal, UA_Guid_equal, memeq.
  rewrite (Z.eqb_sym (nid_namespaceIndex b)), (Z.eqb_sym (identifierType b)).
  destruct (negb _ || negb _); [done|].
  destruct (nid_identifier a), (nid_identifier b); try done.
  - apply Z.eqb_sym.
  - rewrite Z.eqb_sym; destruct (negb _); [done|]; apply bool_decide_ext; naive_solver.
  - apply bool_decide_ext; naive_solver.
  - rewrite Z.eqb_sym; destruct (negb _); [done|]; apply bool_decide_ext; naive_solver.
Qed.

Lemma nodeid_eqb_trans a b c :
  nodeid_eqb a b = true -> nodeid_eqb b c = true -> nodeid_eqb a c = true.
Proof.
  unfold nodeid_eqb, UA_NodeId_equal; intros H1 H2.
  destruct (negb _ || negb _) eqn:E1 in H1; [done|]; destruct (negb _ || negb _) eqn:E2 in H2; [done|].
  zbool; replace (negb _ || negb _) with false by (symmetry; apply orb_false_iff; split; zbool;
    apply negb_false_iff, Z.eqb_eq; congruence).
  destruct (nid_identifier a), (nid_identifier b); try done; destruct (nid_identifier c); try done;
    unfold UA_Guid_equal in *; rewrite ?UA_String_equal_spec, ?memeq_true in *; unfold string_eqv in *;
    zbool; try congruence; apply Z.eqb_eq; lia.
Qed.

(** Equal identifiers are equal to the same ones. *)
Lemma nodeid_eqb_same a b c : nodeid_eqb a b = true -> nodeid_eqb c a = nodeid_eqb c b.
Proof.
  intros H; apply eq_true_iff_eq; split; intros H'; [by eapply nodeid_eqb_trans|].
  eapply nodeid_eqb_trans; [done|]; by rewrite UA_NodeId_equal_sym.
Qed.

Lemma nodeid_eqb_valid a b : nodeid_valid a -> nodeid_valid b ->
  nodeid_eqb a b = true <-> nodeid_eqv a b.
Proof. apply UA_NodeId_equal_spec. Qed.

(** ** Looking up *)

(** The node of an identifier. *)
Definition lookup_node (s : AddressSpace) (id : UA_NodeId) : option UA_Node :=
  p ← find_node s id; nodes s !! p.

(** The nodes in the store are allocated. *)
Definition stored_allocated (s : AddressSpace) : Prop :=
  forall p, p ∈ stored s -> is_Some (nodes s !! p).

Lemma find_node_some s id p : find_node s id = Some p ->
  p ∈ stored s /\ has_id s id p.
Proof.
  unfold find_node; destruct (list_find _ _) as [[i q]|] eqn:H; [|done]; injection 1 as <-.
  apply list_find_Some in H as (H1 & H2 & _); split; [by eapply list_elem_of_lookup_2|done].
Qed.

Lemma find_node_none s id p : find_node s id = None -> p ∈ stored s -> ~ has_id s id p.
Proof.
  unfold find_node; destruct (list_find _ _) as [[i q]|] eqn:H; [done|]; intros _ Hp.
  apply list_find_None in H; rewrite Forall_forall in H; by apply H.
Qed.

(** With a reference to [p]. *)
Definition pushed (p : nat) (s : AddressSpace) : AddressSpace :=
  set_nodes s (nodes s) (stored s) (p :: held s).

Lemma get_none s id : find_node s id = None -> UA_Nodestore_get id s = Some (None, s).
Proof. unfold UA_Nodestore_get; by intros ->. Qed.

Lemma get_some s id p : find_node s id = Some p -> UA_Nodestore_get id s = Some (Some p, pushed p s).
Proof. unfold UA_Nodestore_get; by intros ->. Qed.

Lemma release_pushed p s : p ∈ stored s -> UA_Nodestore_release p (pushed p s) = Some (tt, s).
Proof.
  intros Hp; unfold UA_Nodestore_release, pushed; simpl.
  rewrite decide_True by (by left); rewrite decide_True by done.
  unfold cleanup; simpl; rewrite decide_True by (by left); by destruct s.
Qed.

Lemma lookup_node_spec s id p n : find_node s id = Some p -> nodes s !! p = Some n ->
  lookup_node s id = Some n.
Proof. unfold lookup_node; by intros ->. Qed.

(** The same name finds the same node. *)
Lemma find_node_same s a b : nodeid_eqb a b = true -> find_node s a = find_node s b.
Proof.
  intros H; unfold find_node; f_equal; apply list_find_ext; intros p.
  unfold has_id; destruct (nodes s !! p); simpl; [|done].
  change (nodeid_eqb (nodeId u) a = true <-> nodeid_eqb (nodeId u) b = true).
  by rewrite (nodeid_eqb_same a b).
Qed.

(** ** Paths *)

Section Paths.
Context (s : AddressSpace) (types : list UA_NodeId) (find : UA_NodeId).

(** An inverse reference of a listed type leads from [x] to [y]. *)
Definition up (x y : UA_NodeId) : Prop :=
  exists n refs t, lookup_node s x = Some n /\ refs ∈ references n /\ rk_isInverse refs = true /\
    type_listed types refs = true /\ t ∈ targetIds refs /\ y = eni_nodeId t.

(** A node of the name is [k] references up from [x]. *)
Definition reaches (k : nat) (x : UA_NodeId) : Prop :=
  exists y, nsteps up k x y /\ nodeid_eqb find y = true.

Lemma up_same a b y : nodeid_eqb a b = true -> up a y -> up b y.
Proof. unfold up, lookup_node; intros H; by rewrite (find_node_same s a b). Qed.

Lemma reaches_same k a b : nodeid_eqb a b = true -> reaches k a -> reaches k b.
Proof.
  intros H (y & Hy & Hf); inversion Hy as [|k' ? z ? Hz]; subst.
  - exists b; split; [constructor|]; by eapply nodeid_eqb_trans.
  - exists y; split; [|done]; eapply nsteps_l; [by eapply up_same|done].
Qed.

Lemma reaches_0 x : reaches 0 x <-> nodeid_eqb find x = true.
Proof.
  split; [intros (y & Hy & Hf); by inversion Hy; subst|].
  intros H; exists x; split; [constructor|done].
Qed.

Lemma reaches_S k x : reaches (S k) x <-> exists y, up x y /\ reaches k y.
Proof.
  split.
  - intros (y & Hy & Hf); inversion Hy as [|k' ? z ? Hz Hn]; subst; exists z; split; [done|by exists y].
  - intros (z & Hz & y & Hn & Hf); exists y; split; [by eapply nsteps_l|done].
Qed.

(** No node on the way from the leaf is closer than [k]. *)
Definition no_closer (k : nat) (visited : list UA_NodeId) : Prop :=
  forall v k', v ∈ visited -> (k' < k)%nat -> ~ reaches k' v.

Lemma no_closer_up k visited x y : x ∈ visited -> no_closer (S k) visited -> up x y ->
  no_closer k (y :: visited).
Proof.
  intros Hx Hno Hup v k' [->|Hv]%elem_of_cons Hk Hr; [|by apply (Hno v k'); [|lia|]].
  apply (Hno x (S k') Hx); [lia|]; apply reaches_S; by exists y.
Qed.
End Paths.

(** ** The search *)

Section Search.
Context (find : UA_NodeId) (types : list UA_NodeId).

(** What the search at [x] has to give in a state: an answer without any
    effect, true only for a node that can be reached within [left] steps, and
    true if one is reached and no visited node is closer. *)
Definition search_spec (left : nat) (visited : list UA_NodeId) (s : AddressSpace) (x : UA_NodeId)
    (m : M bool) : Prop :=
  exists b, m s = Some (b, s) /\
    (b = true -> exists k, (k <= left)%nat /\ reaches s types find k x) /\
    (forall k, (k <= left)%nat -> reaches s types find k x -> no_closer s types find k visited ->
     b = true).

Section Loops.
Context (search : UA_NodeId -> list UA_NodeId -> Z -> M bool) (s : AddressSpace)
  (visited : list UA_NodeId) (depth : Z) (left : nat).
Context (Hsearch : forall x,
  search_spec left (x :: visited) s x (search x (x :: visited) (u16 (depth + 1)))).

Lemma search_targets_ok targets :
  exists b, search_targets search visited depth targets s = Some (b, s) /\
    (b = true -> exists t k, t ∈ targets /\ (k <= left)%nat /\
                   reaches s types find k (eni_nodeId t)) /\
    (forall t k, t ∈ targets -> (k <= left)%nat -> reaches s types find k (eni_nodeId t) ->
       no_closer s types find k (eni_nodeId t :: visited) ->
       no_closer s types find (S k) visited -> b = true).
Proof.
  induction targets as [|t targets (b & E & Hs & Hc)].
  { exists false; split; [done|]; split; [done|]; intros t k Ht; by apply not_elem_of_nil in Ht. }
  destruct (Hsearch (eni_nodeId t)) as (b1 & E1 & Hs1 & Hc1); simpl.
  destruct (_ && _) eqn:Hskip.
  - apply andb_true_iff in Hskip as [_ Hex]; apply existsb_exists in Hex as (v & Hv & Heq).
    exists b; split; [done|]; split; [intros Hb; destruct (Hs Hb) as (t' & k & ? & ?); exists t', k; set_solver|].
    intros t' k [->|Ht']%elem_of_cons Hk Hr Hno Hno'; [|by eapply Hc].
    exfalso; apply list_elem_of_In in Hv; apply (Hno' v k); [done|lia|].
    eapply reaches_same; [|done]; by rewrite UA_NodeId_equal_sym.
  - unfold mbind at 1, M_bind at 1; rewrite E1; destruct b1.
    + exists true; split; [done|]; split; [|done]; intros _.
      destruct (Hs1 eq_refl) as (k & Hk & Hr); exists t, k; split; [by left|done].
    + exists b; split; [done|]; split; [intros Hb; destruct (Hs Hb) as (t' & k & ? & ?); exists t', k; set_solver|].
      intros t' k [->|Ht']%elem_of_cons Hk Hr Hno Hno'; [|by eapply Hc].
      exfalso; by specialize (Hc1 k Hk Hr Hno).
Qed.

Lemma search_kinds_ok kinds :
  exists b, search_kinds types search visited depth kinds s = Some (b, s) /\
    (b = true -> exists refs t k, refs ∈ kinds /\ rk_isInverse refs = true /\
       type_listed types refs = true /\ t ∈ targetIds refs /\ (k <= left)%nat /\
       reaches s types find k (eni_nodeId t)) /\
    (forall refs t k, refs ∈ kinds -> rk_isInverse refs = true -> type_listed types refs = true ->
       t ∈ targetIds refs -> (k <= left)%nat -> reaches s types find k (eni_nodeId t) ->
       no_closer s types find k (eni_nodeId t :: visited) ->
       no_closer s types find (S k) visited -> b = true).
Proof.
  induction kinds as [|refs kinds (b & E & Hs & Hc)].
  { exists false; split; [done|]; split; [done|]; intros refs t k Ht; by apply not_elem_of_nil in Ht. }
  assert (Hskip : rk_isInverse refs && type_listed types refs = false ->
    search_kinds types search visited depth (refs :: kinds) s =
    search_kinds types search visited depth kinds s).
  { simpl; by destruct (rk_isInverse refs), (type_listed types refs). }
  destruct (rk_isInverse refs && type_listed types refs) eqn:Hrel.
  - apply andb_true_iff in Hrel as [Hinv Hty]; simpl; rewrite Hinv, Hty; simpl.
    destruct (search_targets_ok (targetIds refs)) as (b1 & E1 & Hs1 & Hc1).
    unfold mbind at 1, M_bind at 1; rewrite E1; destruct b1.
    + exists true; split; [done|]; split; [|done]; intros _.
      destruct (Hs1 eq_refl) as (t & k & ? & ? & ?); exists refs, t, k; set_solver.
    + exists b; split; [done|]; split.
      { intros Hb; destruct (Hs Hb) as (r & t & k & ? & ?); exists r, t, k; set_solver. }
      intros r t k [->|Hr]%elem_of_cons H1 H2 H3 H4 H5 H6 H7; [|by eapply (Hc r t k)].
      by specialize (Hc1 t k H3 H4 H5 H6 H7).
  - rewrite Hskip by done; exists b; split; [done|]; split.
    { intros Hb; destruct (Hs Hb) as (r & t & k & ? & ?); exists r, t, k; set_solver. }
    intros r t k [->|Hr]%elem_of_cons H1 H2; [by rewrite H1, H2 in Hrel|by eapply (Hc r t k)].
Qed.
End Loops.

(** Allocated nodes stay allocated while one is looked at. *)
Lemma stored_allocated_pushed p s : stored_allocated s -> stored_allocated (pushed p s).
Proof. done. Qed.

Lemma search_ok left : forall x visited depth s, (left <= 50)%nat -> depth = 50 - Z.of_nat left ->
  stored_allocated s -> x ∈ visited ->
  search_spec left visited s x (isNodeInTreeNoCircular find types (S left) x visited depth).
Proof.
  induction left as [left IH] using lt_wf_ind; intros x visited depth s Hle Hd Hs Hx.
  unfold search_spec; cbn [isNodeInTreeNoCircular].
  destruct (nodeid_eqb find x) eqn:Heq.
  { exists true; split; [done|]; split; [|done]; intros _; exists 0%nat; split; [lia|by apply reaches_0]. }
  assert (Hnot : forall k, reaches s types find k x -> exists k' y, k = S k' /\
            up s types x y /\ reaches s types find k' y).
  { intros [|k] Hr; [apply reaches_0 in Hr; congruence|]; apply reaches_S in Hr as (y & ? & ?); by exists k, y. }
  unfold UA_MAX_TREE_RECURSE; destruct left as [|left].
  { rewrite (proj2 (Z.leb_le 50 depth)) by lia; exists false; split; [done|]; split; [done|].
    intros k Hk Hr _; destruct (Hnot k Hr) as (k' & y & -> & _); lia. }
  rewrite (proj2 (Z.leb_gt 50 depth)) by lia.
  unfold mbind at 1, M_bind at 1; destruct (find_node s x) as [p|] eqn:Hp.
  2: { rewrite get_none by done; exists false; split; [done|]; split; [done|].
       intros k Hk Hr _; destruct (Hnot k Hr) as (k' & y & -> & (n & ? & ? & Hn & _) & _).
       unfold lookup_node in Hn; by rewrite Hp in Hn. }
  rewrite (get_some s x p) by done; destruct (find_node_some _ _ _ Hp) as [Hst _].
  destruct (Hs p Hst) as [n Hn].
  unfold mbind at 1, M_bind at 1, node_at, the; change (nodes (pushed p s)) with (nodes s); rewrite Hn.
  assert (Hrec : forall y, search_spec left (y :: visited) (pushed p s) y
            (isNodeInTreeNoCircular find types (S left) y (y :: visited) (u16 (depth + 1)))).
  { intros y; apply IH; [lia|lia|unfold u16; rewrite Z.mod_small by lia; lia|done|by left]. }
  destruct (search_kinds_ok _ _ visited depth left Hrec (references n)) as (b & E & Hsnd & Hcmp).
  cbn [mret M_ret]; unfold mbind at 1, M_bind at 1; rewrite E.
  unfold mbind at 1, M_bind at 1; rewrite release_pushed by done.
  exists b; split; [done|]; split.
  - intros Hb; destruct (Hsnd Hb) as (refs & t & k & H1 & H2 & H3 & H4 & H5 & H6).
    exists (S k); split; [lia|]; apply reaches_S; exists (eni_nodeId t); split; [|exact H6].
    exists n, refs, t; split; [by eapply lookup_node_spec|done].
  - intros k Hk Hr Hno; destruct (Hnot k Hr) as (k' & y & -> & Hup & Hr').
    pose proof (no_closer_up _ _ _ _ _ _ _ Hx Hno Hup) as Hno'.
    destruct Hup as (n' & refs & t & Hn' & H1 & H2 & H3 & H4 & ->).
    rewrite (lookup_node_spec s x p n) in Hn' by done; injection Hn' as <-.
    apply (Hcmp refs t k'); try done; lia.
Qed.
End Search.

(** The search gives an answer, leaves everything as it was, and the answer
    is whether the node is at most 50 references up from the leaf. *)
Lemma isNodeInTree_ok s leaf find types : stored_allocated s ->
  exists b, isNodeInTree leaf find types s = Some (b, s) /\
    (b = true <-> exists k, (k <= 50)%nat /\ reaches s types find k leaf).
Proof.
  intros Hs; destruct (search_ok find types 50 leaf [leaf] 0 s) as (b & E & Hsnd & Hcmp);
    [lia|done|done|by left|].
  exists b; split; [exact E|]; split; [exact Hsnd|]; intros (k & Hk & Hr).
  destruct b; [done|]; exfalso; revert k Hk Hr; induction k as [k IH] using lt_wf_ind; intros Hk Hr.
  enough (false = true) by done; apply (Hcmp k Hk Hr).
  intros v j ->%list_elem_of_singleton Hj Hr'; by apply (IH j); [|lia|].
Qed.

(** ** Computations that only read the address space

    A quiet computation leaves the state as it was, up to the number of
    allocations, and its result has a property.  What copies, descriptions and
    searches give, with and without enough memory. *)

(** ** Quiet computations *)

Definition quiet {A} (m : M A) (s : AddressSpace) (Q : A -> Prop) : Prop :=
  exists a n, m s = Some (a, set_allocs s n) /\ Q a.

Lemma set_allocs_same s : set_allocs s (allocs s) = s.
Proof. by destruct s. Qed.

Lemma quiet_ret {A} (a : A) s (Q : A -> Prop) : Q a -> quiet (mret a) s Q.
Proof. exists a, (allocs s); by rewrite set_allocs_same. Qed.

Lemma quiet_bind {A B} (m : M A) (k : A -> M B) s (P : A -> Prop) (Q : B -> Prop) :
  quiet m s P -> (forall a n, P a -> quiet (k a) (set_allocs s n) Q) -> quiet (m ≫= k) s Q.
Proof.
  intros (a & n & E & HP) Hk; destruct (Hk a n HP) as (b & n' & E' & HQ).
  exists b, n'; split; [|done]; unfold mbind, M_bind; rewrite E; exact E'.
Qed.

Lemma quiet_mono {A} (m : M A) s (P Q : A -> Prop) :
  quiet m s P -> (forall a, P a -> Q a) -> quiet m s Q.
Proof. intros (a & n & E & HP) H; exists a, n; auto. Qed.

Lemma quiet_and {A} (m : M A) s (P Q : A -> Prop) :
  quiet m s P -> quiet m s Q -> quiet m s (fun a => P a /\ Q a).
Proof. intros (a & n & E & HP) (b & n' & E' & HQ); exists a, n; split; [done|]; split; [done|congruence]. Qed.

(** A computation without any effect. *)
Lemma quiet_exact {A} (m : M A) s a (Q : A -> Prop) : m s = Some (a, s) -> Q a -> quiet m s Q.
Proof. intros E HQ; exists a, (allocs s); by rewrite set_allocs_same. Qed.

Lemma quiet_wp {A} (m : M A) s (Q : A -> Prop) (R : A -> AddressSpace -> Prop) :
  quiet m s Q -> (forall a n, Q a -> R a (set_allocs s n)) -> wp m R s.
Proof. intros (a & n & E & HQ) H; unfold wp; rewrite E; auto. Qed.

(** A node is looked at: it is released in the end. *)
Lemma quiet_node {A B} (f : UA_Node -> M A) (k : A -> M B) (m0 : M B) s id (Q : B -> Prop) :
  stored_allocated s ->
  (lookup_node s id = None -> quiet m0 s Q) ->
  (forall p n, find_node s id = Some p -> lookup_node s id = Some n ->
     exists P : A -> Prop, quiet (f n) (pushed p s) P /\
       forall a n', P a -> quiet (k a) (set_allocs s n') Q) ->
  quiet (o ← UA_Nodestore_get id;
         match o with
         | None => m0
         | Some p => n ← node_at p; a ← f n; _ ← UA_Nodestore_release p; k a
         end) s Q.
Proof.
  intros Hs H0 Hf; unfold quiet, lookup_node in *.
  destruct (find_node s id) as [p|] eqn:Hp.
  - destruct (find_node_some _ _ _ Hp) as [Hst _]; destruct (Hs p Hst) as [n Hn].
    destruct (Hf p n eq_refl Hn) as (P & (a & n' & E & HP) & Hk); destruct (Hk a n' HP) as (b & n'' & E' & HQ).
    exists b, n''; split; [|done].
    unfold mbind at 1, M_bind at 1; rewrite (get_some s id p) by done.
    unfold mbind at 1, M_bind at 1, node_at, the; change (nodes (pushed p s)) with (nodes s); rewrite Hn.
    cbn [mret M_ret]; unfold mbind at 1, M_bind at 1; rewrite E.
    unfold mbind at 1, M_bind at 1.
    change (set_allocs (pushed p s) n') with (pushed p (set_allocs s n')).
    rewrite release_pushed by done; exact E'.
  - destruct (H0 eq_refl) as (b & n & E & HQ); exists b, n; split; [|done].
    unfold mbind at 1, M_bind at 1; by rewrite get_none.
Qed.

(** The node is only read. *)
Lemma quiet_look {B} (k : UA_Node -> M B) (m0 : M B) s id (Q : B -> Prop) :
  stored_allocated s ->
  (lookup_node s id = None -> quiet m0 s Q) ->
  (forall n n', lookup_node s id = Some n -> quiet (k n) (set_allocs s n') Q) ->
  quiet (o ← UA_Nodestore_get id;
         match o with
         | None => m0
         | Some p => n ← node_at p; _ ← UA_Nodestore_release p; k n
         end) s Q.
Proof.
  intros Hs H0 Hk; refine (quiet_node (fun n => mret n) k m0 s id Q Hs H0 _).
  intros p n _ Hn; exists (eq n); split; [by apply quiet_ret|]; intros a n' <-; by apply Hk.
Qed.

Section Copies.
Context {E : Env}.

(** There is always enough memory. *)
Definition memory : Prop := forall n, malloc_ok n = true.

Lemma quiet_malloc s (Q : bool -> Prop) : (forall b, (memory -> b = true) -> Q b) -> quiet malloc s Q.
Proof. intros H; exists (malloc_ok (allocs s)), (S (allocs s)); split; [done|]; apply H; auto. Qed.

(** ** Copies *)

(** The identifier can be copied: its type is one of the four. *)
Definition copyable (id : UA_NodeId) : Prop :=
  match nid_identifier id with OtherId _ _ => False | _ => True end.

Definition copied_id (id : UA_NodeId) : UA_NodeId :=
  mkNodeId (nid_namespaceIndex id)
    match nid_identifier id with
    | StringId str => StringId (copied str)
    | ByteStringId str => ByteStringId (copied str)
    | i => i
    end.

Definition copied_expanded (id : UA_ExpandedNodeId) : UA_ExpandedNodeId :=
  mkExpandedNodeId (copied_id (eni_nodeId id)) (copied (eni_namespaceUri id)) (eni_serverIndex id).

Definition copied_name (n : UA_QualifiedName) : UA_QualifiedName :=
  mkQualifiedName (qn_namespaceIndex n) (copied (qn_name n)).

Definition copied_text (t : UA_LocalizedText) : UA_LocalizedText :=
  mkLocalizedText (copied (lt_locale t)) (copied (lt_text t)).

(** A copy of [a]: the result is [a'] if it succeeds, and it succeeds if there
    is memory and [a] can be copied. *)
Definition copy_of {A} (can : Prop) (a' : A) (r : status * A) : Prop :=
  (r.1 = GOOD -> r.2 = a') /\ (memory -> can -> r.1 = GOOD).

Lemma quiet_String_copy str s : quiet (UA_String_copy str) s (copy_of True (copied str)).
Proof.
  unfold UA_String_copy; destruct (arr_length str =? 0) eqn:H; [by apply quiet_ret|].
  eapply quiet_bind; [by apply quiet_malloc; intros b Hb; exact Hb|]; intros b n Hb; cbv beta in Hb.
  apply quiet_ret; destruct b; split; simpl; try done.
  - destruct str as [| |[]]; done.
  - intros Hm; by specialize (Hb Hm).
Qed.


Lemma quiet_NodeId_copy id s : quiet (UA_NodeId_copy id) s (copy_of (copyable id) (copied_id id)).
Proof.
  unfold UA_NodeId_copy, copied_id, copyable.
  destruct id as [ns i]; simpl; destruct i; simpl;
    try (apply quiet_ret; by split); try (apply quiet_ret; by split; [|intros _ []]);
    (eapply quiet_bind; [apply quiet_String_copy|]; intros [ret v] n [H1 H2]; simpl in *;
     apply quiet_ret; split; simpl; [intros ->; by rewrite H1|auto]).
Qed.

(** What can be copied is copied unless there is no memory. *)
Definition memory_status (st : status) : Prop := st = GOOD \/ st = BADOUTOFMEMORY.

Lemma quiet_String_copy_status str s : quiet (UA_String_copy str) s (fun r => memory_status r.1).
Proof.
  unfold UA_String_copy; destruct (arr_length str =? 0); [by apply quiet_ret; left|].
  eapply quiet_bind; [by apply (quiet_malloc s (fun _ => True))|]; intros b n _.
  apply quiet_ret; destruct b; [by left|by right].
Qed.

Lemma quiet_NodeId_copy_status id s : copyable id -> quiet (UA_NodeId_copy id) s (fun r => memory_status r.1).
Proof.
  unfold UA_NodeId_copy, copyable; destruct (nid_identifier id); intros H; try done;
    try (by apply quiet_ret; left);
    (eapply quiet_bind; [apply quiet_String_copy_status|]; intros [ret v] n Hr; by apply quiet_ret).
Qed.

Lemma memory_status_lor a b : memory_status a -> memory_status b -> memory_status (Z.lor a b).
Proof. intros [->| ->] [->| ->]; unfold memory_status; vm_compute; auto. Qed.

Lemma quiet_ExpandedNodeId_copy_status id s : copyable (eni_nodeId id) ->
  quiet (UA_ExpandedNodeId_copy id) s (fun r => memory_status r.1).
Proof.
  intros H; unfold UA_ExpandedNodeId_copy.
  eapply quiet_bind; [by apply quiet_NodeId_copy_status|]; intros [r1 v1] n H1.
  eapply quiet_bind; [apply quiet_String_copy_status|]; intros [r2 v2] n' H2.
  by apply quiet_ret, memory_status_lor.
Qed.


Lemma copy_of_lor {A B C} P Q (a : A) (b : B) (c : C) x y r1 v1 r2 v2 :
  copy_of P a (r1, v1) -> copy_of Q b (r2, v2) -> (v1 = a -> v2 = b -> x = c) ->
  copy_of (P /\ Q) c (Z.lor r1 r2, if bad (Z.lor r1 r2) then y else x).
Proof.
  intros [H1 H2] [H3 H4] Hx; split; simpl in *.
  - intros Hr; rewrite Hr; apply lor_good in Hr as [Ha Hb]; simpl; auto.
  - intros Hm [HP HQ]; apply lor_good; auto.
Qed.

Lemma quiet_ExpandedNodeId_copy id s :
  quiet (UA_ExpandedNodeId_copy id) s (copy_of (copyable (eni_nodeId id)) (copied_expanded id)).
Proof.
  unfold UA_ExpandedNodeId_copy.
  eapply quiet_bind; [apply quiet_NodeId_copy|]; intros [r1 v1] n H1.
  eapply quiet_bind; [apply quiet_String_copy|]; intros [r2 v2] n' H2.
  apply quiet_ret; eapply copy_of_lor with (c := copied_expanded id) in H2; [|exact H1|].
  - destruct H2 as [Ha Hb]; split; [exact Ha|]; intros ? ?; by apply Hb.
  - intros -> ->; done.
Qed.

Lemma quiet_QualifiedName_copy name s :
  quiet (UA_QualifiedName_copy name) s (copy_of True (copied_name name)).
Proof.
  unfold UA_QualifiedName_copy; eapply quiet_bind; [apply quiet_String_copy|]; intros [r v] n [H1 H2].
  apply quiet_ret; split; simpl in *; [intros ->; by rewrite H1|auto].
Qed.

Lemma quiet_LocalizedText_copy t s :
  quiet (UA_LocalizedText_copy t) s (copy_of True (copied_text t)).
Proof.
  unfold UA_LocalizedText_copy.
  eapply quiet_bind; [apply quiet_String_copy|]; intros [r1 v1] n H1.
  eapply quiet_bind; [apply quiet_String_copy|]; intros [r2 v2] n' H2.
  apply quiet_ret; eapply copy_of_lor with (c := copied_text t) in H2; [|exact H1|].
  - destruct H2 as [Ha Hb]; split; [exact Ha|]; intros ? ?; by apply Hb.
  - intros -> ->; done.
Qed.

(** ** The type of a node *)

Section TypeNode.
Context (s : AddressSpace) (parentRef : UA_NodeId) (inverse : bool) (class : Z).

(** The first target that is a node of the class of types. *)
Fixpoint type_node (kinds : list UA_NodeReferenceKind) : option nat :=
  match kinds with
  | [] => None
  | refs :: kinds =>
      let here :=
        if negb (eqb (rk_isInverse refs) inverse) then None
        else if negb (nodeid_eqb (rk_referenceTypeId refs) parentRef) then None
        else
          t ← head (targetIds refs);
          p ← find_node s (eni_nodeId t);
          n ← nodes s !! p;
          if nodeClass n =? class then Some p else None in
      match here with Some p => Some p | None => type_node kinds end
  end.
End TypeNode.

Definition type_of (s : AddressSpace) (n : UA_Node) : option nat :=
  '(parentRef, inverse, class) ← type_reference (nodeClass n);
  type_node s parentRef inverse class (references n).

(** No kind without targets. *)
Definition kinds_used (n : UA_Node) : Prop := Forall (fun rk => targetIds rk <> []) (references n).

(** With a reference to a node, if there is one. *)
Definition handed (o : option nat) (s : AddressSpace) : AddressSpace :=
  match o with Some p => pushed p s | None => s end.

Lemma getNodeType_loop_ok s parentRef inverse class kinds :
  stored_allocated s -> Forall (fun rk => targetIds rk <> []) kinds ->
  getNodeType_loop parentRef inverse class kinds s =
    Some (type_node s parentRef inverse class kinds,
          handed (type_node s parentRef inverse class kinds) s).
Proof.
  intros Hs; induction 1 as [|refs kinds Hne Hall IH]; [done|]; simpl.
  destruct (negb (eqb _ _)); [exact IH|]; destruct (negb (nodeid_eqb _ _)); [exact IH|].
  destruct (targetIds refs) as [|t ts]; [done|]; simpl.
  unfold mbind at 1, M_bind at 1; destruct (find_node s (eni_nodeId t)) as [p|] eqn:Hp.
  - rewrite (get_some s _ p) by done; simpl; destruct (find_node_some _ _ _ Hp) as [Hst _].
    destruct (Hs p Hst) as [n Hn].
    unfold mbind at 1, M_bind at 1, node_at, the; change (nodes (pushed p s)) with (nodes s); rewrite Hn.
    simpl; rewrite ?Hn; simpl; destruct (nodeClass n =? class); [done|].
    unfold mbind at 1, M_bind at 1; rewrite release_pushed by done; exact IH.
  - rewrite get_none by done; exact IH.
Qed.

Lemma getNodeType_ok s n : stored_allocated s -> kinds_used n ->
  getNodeType n s = Some (type_of s n, handed (type_of s n) s).
Proof.
  intros Hs Hu; unfold getNodeType, type_of; destruct (type_reference _) as [[[parent inv] class]|]; [|done].
  by apply getNodeType_loop_ok.
Qed.

Lemma type_node_stored s parentRef inverse class kinds p :
  type_node s parentRef inverse class kinds = Some p -> p ∈ stored s.
Proof.
  induction kinds as [|refs kinds IH]; [done|]; simpl.
  destruct (negb (eqb _ _)); [exact IH|]; destruct (negb (nodeid_eqb _ _)); [exact IH|].
  destruct (head _) as [t|]; simpl; [|exact IH].
  destruct (find_node s _) as [q|] eqn:Hq; simpl; [|exact IH].
  destruct (nodes s !! q) as [n|]; simpl; [|exact IH].
  destruct (_ =? _); [|exact IH]; injection 1 as <-; by apply find_node_some in Hq as [].
Qed.

Lemma type_of_stored s n p : type_of s n = Some p -> p ∈ stored s.
Proof.
  unfold type_of; destruct (type_reference _) as [[[parent inv] class]|]; [|done].
  apply type_node_stored.
Qed.
End Copies.
