(* ===== verification/BrowseCorrect.v ===== *)
(** * The loops of Browse

    The references of a node that match a description, in their order, and
    what a browse returns of them from a position on. *)

From Stdlib Require Import ZArith Lia.
From stdpp Require Import base list numbers tactics sets gmap.
From S2P Require Import Prelude StateMonad UaTypes NodeStore AddressSpace NodeTree Browse AddressLogic.

(** ** What can be read *)

(** The stored nodes are allocated, their kinds of references are in use, and
    the identifiers can be copied. *)
Record readable (s : AddressSpace) : Prop := mkReadable {
  rd_allocated : stored_allocated s;
  rd_used : forall p n, p ∈ stored s -> nodes s !! p = Some n -> kinds_used n;
  rd_copyable : forall p n, p ∈ stored s -> nodes s !! p = Some n ->
    copyable (nodeId n) /\ Forall (fun rk => copyable (rk_referenceTypeId rk)) (references n)
}.

Lemma lookup_stored s id n : lookup_node s id = Some n ->
  exists p, find_node s id = Some p /\ p ∈ stored s /\ nodes s !! p = Some n.
Proof.
  unfold lookup_node; destruct (find_node s id) as [p|] eqn:Hp; [|done]; intros Hn.
  exists p; split; [done|]; split; [by apply find_node_some in Hp as []|done].
Qed.

Lemma readable_pushed p s : readable s -> readable (pushed p s).
Proof. by intros [H1 H2 H3]. Qed.

Lemma readable_allocs n s : readable s -> readable (set_allocs s n).
Proof. by intros [H1 H2 H3]. Qed.

Section Describe.
Context {E : Env}.

(** ** Descriptions *)

Definition type_id (s : AddressSpace) (n : UA_Node) : UA_NodeId :=
  if (nodeClass n =? UA_NODECLASS_OBJECT) || (nodeClass n =? UA_NODECLASS_VARIABLE) then
    match type_of s n ≫= fun p => nodes s !! p with
    | Some t => copied_id (nodeId t)
    | None => UA_NODEID_NULL
    end
  else UA_NODEID_NULL.

Definition describe (s : AddressSpace) (mask : Z) (rk : UA_NodeReferenceKind) (n : UA_Node)
    : UA_ReferenceDescription :=
  let want {A} bit (a null : A) := if masked mask bit then a else null in
  mkDescription (want UA_BROWSERESULTMASK_REFERENCETYPEID (copied_id (rk_referenceTypeId rk)) UA_NODEID_NULL)
    (want UA_BROWSERESULTMASK_ISFORWARD (negb (rk_isInverse rk)) false)
    (local_id (copied_id (nodeId n)))
    (want UA_BROWSERESULTMASK_BROWSENAME (copied_name (browseName n)) (mkQualifiedName 0 ArrNull))
    (want UA_BROWSERESULTMASK_DISPLAYNAME (copied_text (displayName n)) (mkLocalizedText ArrNull ArrNull))
    (want UA_BROWSERESULTMASK_NODECLASS (nodeClass n) 0)
    (local_id (want UA_BROWSERESULTMASK_TYPEDEFINITION (type_id s n) UA_NODEID_NULL)).

Lemma quiet_copy_if {A} (b : bool) (null : A) copy s can a' :
  quiet copy s (copy_of can a') ->
  quiet (copy_if b null copy) s (copy_of can (if b then a' else null)).
Proof. intros H; destruct b; [done|]; by apply quiet_ret. Qed.

Lemma quiet_copy_type s n : readable s -> kinds_used n ->
  quiet (copy_type n) s (copy_of True (type_id s n)).
Proof.
  intros Hr Hu; unfold copy_type, type_id.
  destruct (_ || _); [|by apply quiet_ret].
  pose proof (rd_allocated s Hr) as Hs.
  pose proof (getNodeType_ok s n Hs Hu) as Ht; destruct (type_of s n) as [p|] eqn:Hp; simpl in *.
  - destruct (Hs p (type_of_stored _ _ _ Hp)) as [t Ht']; rewrite Ht'.
    destruct (rd_copyable s Hr p t (type_of_stored _ _ _ Hp) Ht') as [Hc _].
    destruct (quiet_NodeId_copy (nodeId t) (pushed p s)) as ([r v] & k & Ek & [H1 H2]).
    exists (r, v), k; split; [|split; [exact H1|auto]].
    unfold mbind at 1, M_bind at 1; rewrite Ht.
    unfold mbind at 1, M_bind at 1, node_at, the; change (nodes (pushed p s)) with (nodes s); rewrite Ht'.
    cbn [mret M_ret]; unfold mbind at 1, M_bind at 1; rewrite Ek.
    unfold mbind at 1, M_bind at 1.
    change (set_allocs (pushed p s) k) with (pushed p (set_allocs s k)).
    by rewrite release_pushed by (exact (type_of_stored _ _ _ Hp)).
  - eapply quiet_exact; [unfold mbind at 1, M_bind at 1; rewrite Ht; reflexivity|done].
Qed.

Lemma quiet_fill s mask rk n : readable s -> kinds_used n ->
  quiet (fillReferenceDescription n rk mask) s
    (copy_of (copyable (nodeId n) /\ copyable (rk_referenceTypeId rk)) (describe s mask rk n)).
Proof.
  intros Hr Hu; unfold fillReferenceDescription, describe.
  eapply quiet_bind; [apply quiet_NodeId_copy|]; intros [r1 id] n1 [G1 M1].
  eapply quiet_bind; [apply quiet_copy_if, quiet_NodeId_copy|]; intros [r2 ty] n2 [G2 M2].
  eapply quiet_bind; [apply quiet_copy_if, quiet_QualifiedName_copy|]; intros [r3 name] n3 [G3 M3].
  eapply quiet_bind; [apply quiet_copy_if, quiet_LocalizedText_copy|]; intros [r4 dis] n4 [G4 M4].
  eapply quiet_bind; [apply quiet_copy_if, quiet_copy_type; [by repeat apply readable_allocs|done]|].
  intros [r5 td] n5 [G5 M5]; apply quiet_ret; split; cbn [fst snd] in *.
  - rewrite !lor_good; intros [[[[H1 H2] H3] H4] H5].
    by rewrite (G1 H1), (G2 H2), (G3 H3), (G4 H4), (G5 H5).
  - intros Hm [C1 C2]; rewrite !lor_good; auto 10.
Qed.

(** ** The references that match *)

Section Matching.
Context (s : AddressSpace) (descr : UA_BrowseDescription).

(** The answer of [kind_relevant]. *)
Definition relevant (rk : UA_NodeReferenceKind) : bool :=
  match kind_relevant descr rk s with Some (b, _) => b | None => false end.

(** The target is a node of a class that is asked for. *)
Definition match_target (rk : UA_NodeReferenceKind) (t : UA_ExpandedNodeId)
    : option UA_ReferenceDescription :=
  n ← lookup_node s (eni_nodeId t);
  if matchClassMask n (nodeClassMask descr) then Some (describe s (resultMask descr) rk n) else None.

Definition match_targets (rk : UA_NodeReferenceKind) (targets : list UA_ExpandedNodeId) :=
  omap (match_target rk) targets.

(** The references from a position on. *)
Fixpoint matches_from (ti : nat) (kinds : list UA_NodeReferenceKind) : list UA_ReferenceDescription :=
  match kinds with
  | [] => []
  | rk :: kinds =>
      if relevant rk then match_targets rk (drop ti (targetIds rk)) ++ matches_from 0 kinds
      else matches_from ti kinds
  end.
End Matching.

Lemma kind_relevant_ok s descr rk : readable s ->
  kind_relevant descr rk s = Some (relevant s descr rk, s).
Proof.
  intros Hr; unfold relevant; destruct (kind_relevant descr rk s) as [[b s']|] eqn:H.
  - unfold kind_relevant, relevantReference in H.
    repeat destr_if; try (by injection H as <- <-).
    destruct (isNodeInTree_ok s (rk_referenceTypeId rk) (bd_referenceTypeId descr) [UA_NS0ID_HASSUBTYPE])
      as (b' & E' & _); [apply Hr|]; rewrite E' in H; by injection H as <- <-.
  - unfold kind_relevant, relevantReference in H; repeat destr_if; try done.
    destruct (isNodeInTree_ok s (rk_referenceTypeId rk) (bd_referenceTypeId descr) [UA_NS0ID_HASSUBTYPE])
      as (b' & E' & _); [apply Hr|]; by rewrite E' in H.
Qed.

(** Another state with the same nodes. *)
Definition same_store (s s' : AddressSpace) : Prop := nodes s' = nodes s /\ stored s' = stored s.

Lemma lookup_same s s' id : same_store s s' -> lookup_node s' id = lookup_node s id.
Proof. destruct s, s'; intros [H1 H2]; simpl in *; by subst. Qed.

Lemma readable_same s s' : same_store s s' -> readable s -> readable s'.
Proof. destruct s, s'; intros [H1 H2] [R1 R2 R3]; simpl in *; subst; by split. Qed.

Lemma relevant_same descr s s' rk : same_store s s' -> readable s ->
  relevant s' descr rk = relevant s descr rk.
Proof.
  intros Hsame Hr; unfold relevant, kind_relevant, relevantReference.
  destr_if; [done|]; destr_if; [done|]; destr_if; [done|]; destr_if; [done|].
  destruct (isNodeInTree_ok s (rk_referenceTypeId rk) (bd_referenceTypeId descr) [UA_NS0ID_HASSUBTYPE])
    as (b & -> & H1); [apply Hr|].
  destruct (isNodeInTree_ok s' (rk_referenceTypeId rk) (bd_referenceTypeId descr)
              [UA_NS0ID_HASSUBTYPE]) as (b' & -> & H2); [by eapply (readable_same s)|].
  apply eq_true_iff_eq; rewrite H1, H2; destruct s, s', Hsame; simpl in *; by subst.
Qed.

Lemma matches_from_same descr s s' kinds : forall ti, same_store s s' -> readable s ->
  matches_from s' descr ti kinds = matches_from s descr ti kinds.
Proof.
  induction kinds as [|rk kinds IH]; intros ti Hsame Hr; [done|]; simpl.
  rewrite (relevant_same descr s), !IH by done; destruct (relevant s descr rk); [|done].
  f_equal; destruct s, s', Hsame; simpl in *; by subst.
Qed.

(** ** The loops *)

Section Loops.
Context (descr : UA_BrowseDescription) (maxrefs : Z).

(** The result of the loops: everything that was left, [rest], is there; or
    the array is full and [rest] begins with what was added; or it failed, which
    only happens without memory.  [pos] is what lies behind a position. *)
Definition step_ok (refs rest : list UA_ReferenceDescription)
    (pos : nat -> nat -> list UA_ReferenceDescription) (can : Prop) (step : BrowseStep) : Prop :=
  match step with
  | BrowseOn refs' _ => refs' = refs ++ rest /\ zlen refs' <= maxrefs
  | BrowseFull k t refs' => exists more, refs' = refs ++ more /\ zlen refs' = maxrefs /\
      rest = more ++ pos k t /\ pos k t <> []
  | BrowseError st => st <> GOOD /\ (memory -> ~ can)
  end.

(** Everything of [rk] can be described. *)
Definition kind_copyable (rk : UA_NodeReferenceKind) : Prop := copyable (rk_referenceTypeId rk).

Lemma quiet_browse_target s rk kind ti n refs size p :
  readable s -> p ∈ stored s -> nodes s !! p = Some n -> zlen refs <= maxrefs ->
  quiet (browse_target descr maxrefs rk kind ti n refs size) s
    (fun step =>
       if matchClassMask n (nodeClassMask descr) then
         match step with
         | BrowseOn refs' _ => refs' = refs ++ [describe s (resultMask descr) rk n] /\
                               zlen refs' <= maxrefs
         | BrowseFull k t refs' => k = kind /\ t = ti /\ refs' = refs /\ zlen refs' = maxrefs
         | BrowseError st => st <> GOOD /\ (memory -> ~ kind_copyable rk)
         end
       else exists size', step = BrowseOn refs size').
Proof.
  intros Hr Hp Hn Hle; unfold browse_target.
  destruct (matchClassMask _ _) eqn:Hm; cbn [negb]; [|apply quiet_ret; by eexists].
  destruct (maxrefs <=? zlen refs) eqn:Hfull; zbool; [apply quiet_ret; repeat split; lia|].
  eapply quiet_bind with (P := fun b : bool => memory -> b = true).
  { destruct (size <=? zlen refs); [by apply quiet_malloc|by apply quiet_ret]. }
  intros b n1 Hb; destruct b; cbn [negb]; [|apply quiet_ret; split; [done|]; intros Hmem; by specialize (Hb Hmem)].
  eapply quiet_bind; [apply quiet_fill; [by apply readable_allocs|by eapply (rd_used s Hr)]|].
  intros [st d] n2 [G1 M1]; apply quiet_ret; cbn [fst snd] in *.
  destruct (bad st) eqn:Hbad.
  - split; [by unfold bad in Hbad; zbool|]; intros Hmem Hk.
    rewrite M1 in Hbad; [done|done|]; split; [by eapply (rd_copyable s Hr)|done].
  - apply bad_false in Hbad; rewrite (G1 Hbad); split; [done|].
    rewrite zlen_app, zlen_cons, zlen_nil; lia.
Qed.

Lemma quiet_browse_targets rk kind pos targets : forall s ti refs size,
  readable s -> zlen refs <= maxrefs -> targets = drop ti (targetIds rk) ->
  (forall t, pos kind t = match_targets s descr rk (drop t (targetIds rk))) ->
  quiet (browse_targets descr maxrefs rk kind ti targets refs size) s
    (step_ok refs (match_targets s descr rk targets) pos (kind_copyable rk)).
Proof.
  induction targets as [|t targets IH]; intros s ti refs size Hr Hle Hd Hpos.
  { apply quiet_ret; split; [by rewrite app_nil_r|done]. }
  assert (Hd' : targets = drop (S ti) (targetIds rk))
    by (rewrite <- Nat.add_1_r, <- drop_drop, <- Hd; done).
  assert (Hrest : match_targets s descr rk (t :: targets) = pos kind ti) by (by rewrite Hd, Hpos).
  cbn [browse_targets].
  eapply quiet_node; [apply Hr|..].
  - intros Hnone; cbn [match_targets omap list_omap]; unfold match_target at 1; rewrite Hnone; simpl.
    by apply IH.
  - intros p n Hp Hn; destruct (lookup_stored _ _ _ Hn) as (p' & Hp' & Hst & Hn').
    assert (p' = p) as -> by congruence.
    eexists; split; [eapply (quiet_browse_target (pushed p s)); try done; by apply readable_pushed|].
    intros step n' Hstep; cbv beta in Hstep.
    assert (Hm : match_targets s descr rk (t :: targets) =
              (if matchClassMask n (nodeClassMask descr) then [describe s (resultMask descr) rk n] else [])
              ++ match_targets s descr rk targets).
    { cbn [match_targets omap list_omap]; unfold match_target at 1; rewrite Hn; simpl.
      by destruct (matchClassMask _ _). }
    destruct (matchClassMask n (nodeClassMask descr)).
    + destruct step as [refs' size'|k ti' refs'|st]; [|apply quiet_ret|by apply quiet_ret].
      * destruct Hstep as [-> Hle']; rewrite Hm.
        eapply quiet_mono;
          [exact (IH (set_allocs s n') (S ti) _ size' (readable_allocs _ _ Hr) Hle' Hd' Hpos)|].
        intros [refs2 size2|k2 ti2 refs2|st2]; simpl; try done.
        -- by rewrite <- app_assoc.
        -- intros (more & -> & Hz & Heq & Hne); exists (describe s (resultMask descr) rk n :: more).
           rewrite <- app_assoc in Hz |- *; simpl; split; [done|]; split; [done|]; split; [|done].
           f_equal; exact Heq.
      * destruct Hstep as (-> & -> & -> & Hz); exists []; rewrite app_nil_r, <- Hrest, Hm; by split_and!.
    + destruct Hstep as [size' ->]; rewrite Hm.
      exact (IH (set_allocs s n') (S ti) refs size' (readable_allocs _ _ Hr) Hle Hd' Hpos).
Qed.

Lemma step_ok_app refs l rest pos (can can' : Prop) step :
  step_ok (refs ++ l) rest pos can step -> (can' -> can) -> step_ok refs (l ++ rest) pos can' step.
Proof.
  intros H Hc; destruct step as [refs' size|k t refs'|st]; simpl in *.
  - by rewrite app_assoc.
  - destruct H as (more & -> & Hz & -> & Hne); exists (l ++ more); by rewrite <- !app_assoc in *.
  - destruct H as [H1 H2]; split; [done|]; intros Hm Hcan; by apply (H2 Hm), Hc.
Qed.

Lemma quiet_browse_kinds s all kinds : forall n kind ti refs size,
  readable s -> zlen refs <= maxrefs -> kinds = drop kind all ->
  quiet (browse_kinds descr maxrefs kind ti kinds refs size) (set_allocs s n)
    (step_ok refs (matches_from s descr ti kinds) (fun k t => matches_from s descr t (drop k all))
       (Forall kind_copyable kinds)).
Proof.
  induction kinds as [|rk kinds IH]; intros n kind ti refs size Hr Hle Hd.
  { apply quiet_ret; split; [by rewrite app_nil_r|done]. }
  assert (Hd' : kinds = drop (S kind) all)
    by (rewrite <- Nat.add_1_r, <- drop_drop, <- Hd; done).
  cbn [browse_kinds matches_from].
  eapply quiet_bind; [eapply quiet_exact with (Q := fun b => b = relevant s descr rk);
    [by apply kind_relevant_ok, readable_allocs|exact (relevant_same descr s (set_allocs s n) rk (conj eq_refl eq_refl) Hr)]|].
  intros b n1 ->; destruct (relevant s descr rk) eqn:Hrel; cbn [negb].
  2: { eapply quiet_mono; [exact (IH n1 (S kind) ti refs size Hr Hle Hd')|].
       intros [| |st]; simpl; try done; intros [H1 H2]; split; [done|]; intros Hm Hall.
       apply (H2 Hm); by inversion Hall. }
  assert (Hpos : forall t, matches_from s descr t (drop kind all) =
            match_targets s descr rk (drop t (targetIds rk)) ++ matches_from s descr 0 kinds).
  { intros t; rewrite <- Hd; simpl; by rewrite Hrel. }
  set (pos1 := fun k t => if decide (k = kind) then match_targets s descr rk (drop t (targetIds rk)) else []).
  assert (Hpos1 : forall t, pos1 kind t = match_targets s descr rk (drop t (targetIds rk)))
    by (intros t; unfold pos1; by destruct (decide _)).
  eapply quiet_bind;
    [exact (quiet_browse_targets rk kind pos1 _ (set_allocs s n1) ti refs size
              (readable_allocs n1 s Hr) Hle eq_refl Hpos1)|].
  intros [refs' size'|k t refs'|st] n2 Hstep; simpl in Hstep.
  - destruct Hstep as [-> Hle'].
    eapply quiet_mono; [exact (IH n2 (S kind) 0%nat _ size' Hr Hle' Hd')|].
    intros step Hstep; eapply step_ok_app; [exact Hstep|]; intros Hall; by inversion Hall.
  - apply quiet_ret; destruct Hstep as (more & -> & Hz & Heq & Hne); exists more.
    unfold pos1 in Heq, Hne; destruct (decide (k = kind)) as [->|]; [|done].
    rewrite Hpos; split; [done|]; split; [done|]; split.
    + rewrite app_assoc; f_equal; exact Heq.
    + intros H; apply app_eq_nil in H as [H _]; by apply Hne.
  - apply quiet_ret; destruct Hstep as [H1 H2]; split; [done|]; intros Hm Hall; apply (H2 Hm).
    by inversion Hall.
Qed.
End Loops.

(** ** One page *)

(** What lies behind the position of a continuation point. *)
Definition remaining (s : AddressSpace) (n : UA_Node) (cp : ContinuationPointEntry)
    : list UA_ReferenceDescription :=
  matches_from s (browseDescription cp) (targetIndex cp) (drop (referenceKindIndex cp) (references n)).

Lemma remaining_same s s' n cp : same_store s s' -> readable s -> remaining s' n cp = remaining s n cp.
Proof. apply matches_from_same. Qed.

(** All that is left is returned; or a full page, and the position is moved
    behind it; or there was no memory. *)
Inductive page_of (s : AddressSpace) (n : UA_Node) (cp : ContinuationPointEntry) :
    bool * ContinuationPointEntry * UA_BrowseResult -> Prop :=
| LastPage arr : arr_list arr = remaining s n cp ->
    zlen (remaining s n cp) <= browse_limit (maxReferences cp) ->
    page_of s n cp (true, cp, mkBrowseResult GOOD ArrNull arr)
| FullPage k t page : remaining s n cp = page ++ remaining s n (set_cp_position cp k t) ->
    zlen page = browse_limit (maxReferences cp) -> remaining s n (set_cp_position cp k t) <> [] ->
    page_of s n cp (false, set_cp_position cp k t, mkBrowseResult GOOD ArrNull (ArrData page))
| NoPage st : st <> GOOD -> ~ memory -> page_of s n cp (false, cp, browse_error st).

Lemma page_of_same s s' n cp r : same_store s s' -> readable s -> page_of s' n cp r -> page_of s n cp r.
Proof.
  intros Hsame Hr [arr Ha Hz|k t page Ha Hz Hp|st Hst Hm].
  - rewrite (remaining_same s) in Ha, Hz by done; by apply LastPage.
  - rewrite !(remaining_same s s') in Ha by done; rewrite (remaining_same s) in Hp by done; by apply FullPage.
  - by apply NoPage.
Qed.

Lemma quiet_browseReferences s p n cp : readable s -> p ∈ stored s -> nodes s !! p = Some n ->
  0 <= browse_limit (maxReferences cp) -> quiet (browseReferences n cp) s (page_of s n cp).
Proof.
  intros Hr Hp Hn Hlim; unfold browseReferences.
  assert (Hnil : references n = [] -> page_of s n cp (true, cp, BrowseResult_init)).
  { intros Hempty; assert (Hrem : remaining s n cp = []) by (unfold remaining; by rewrite Hempty, drop_nil).
    apply (LastPage s n cp ArrNull); rewrite Hrem; done. }
  destruct (references n) as [|rk kinds] eqn:Hrefs; [apply quiet_ret; auto|].
  assert (Hne : references n <> []) by congruence; rewrite <- Hrefs; clear Hnil.
  eapply quiet_bind; [apply quiet_malloc; intros b Hb; exact Hb|]; intros b n1 Hb; cbv beta in Hb.
  destruct b; cbn [negb]; [|apply quiet_ret, NoPage; [done|]; intros Hm; by specialize (Hb Hm)].
  eapply quiet_bind.
  { apply (quiet_browse_kinds (browseDescription cp) (browse_limit (maxReferences cp)) s (references n)); done. }
  intros [refs size|k t refs|st] n2 Hstep; simpl in Hstep.
  - destruct Hstep as [Hrest Hz].
    destruct refs as [|d refs]; apply quiet_ret, LastPage; unfold remaining; by rewrite <- Hrest.
  - destruct Hstep as (more & -> & Hz & Heq & Hpos); apply quiet_ret, FullPage; done.
  - destruct Hstep as [Hst Hm]; apply quiet_ret, NoPage; [done|]; intros Hmem; apply (Hm Hmem).
    apply Forall_drop; by eapply (rd_copyable s Hr).
Qed.

(** The status a description leads to before any reference is looked at. *)
Definition browse_status (s : AddressSpace) (descr : UA_BrowseDescription) : status :=
  if negb (direction_valid (browseDirection descr)) then BADBROWSEDIRECTIONINVALID
  else if negb (UA_NodeId_isNull (bd_referenceTypeId descr)) &&
          negb (match lookup_node s (bd_referenceTypeId descr) with
                | Some n => nodeClass n =? UA_NODECLASS_REFERENCETYPE
                | None => false
                end)
  then BADREFERENCETYPEIDINVALID
  else match lookup_node s (bd_nodeId descr) with Some _ => GOOD | None => BADNODEIDUNKNOWN end.

Lemma browse_status_same s s' descr : same_store s s' -> browse_status s' descr = browse_status s descr.
Proof. destruct s, s'; intros [H1 H2]; simpl in *; by subst. Qed.

Lemma quiet_is_reference_type s id : readable s ->
  quiet (is_reference_type id) s
    (fun b => b = match lookup_node s id with
                  | Some n => nodeClass n =? UA_NODECLASS_REFERENCETYPE
                  | None => false
                  end).
Proof.
  intros Hr; unfold is_reference_type.
  apply quiet_look; [apply Hr|by intros ->; apply quiet_ret|].
  by intros n n' ->; apply quiet_ret.
Qed.

(** A browse ends with its status, or with a page of the node. *)
Inductive browsed (s : AddressSpace) (cp : ContinuationPointEntry)
    (r : bool * ContinuationPointEntry * UA_BrowseResult) : Prop :=
| BrowsedBad : browse_status s (browseDescription cp) <> GOOD ->
    r = (true, cp, browse_error (browse_status s (browseDescription cp))) -> browsed s cp r
| BrowsedPage n : browse_status s (browseDescription cp) = GOOD ->
    lookup_node s (bd_nodeId (browseDescription cp)) = Some n -> page_of s n cp r -> browsed s cp r.

Lemma quiet_browseWithContinuation s cp : readable s -> 0 <= browse_limit (maxReferences cp) ->
  quiet (browseWithContinuation cp) s (browsed s cp).
Proof.
  intros Hr Hlim; unfold browseWithContinuation; set (descr := browseDescription cp).
  destruct (direction_valid (browseDirection descr)) eqn:Hdir; cbn [negb].
  2: { assert (Hst : browse_status s descr = BADBROWSEDIRECTIONINVALID)
         by (unfold browse_status; by rewrite Hdir).
       apply quiet_ret, BrowsedBad; fold descr; by rewrite Hst. }
  eapply quiet_bind with (P := fun b : bool => b = false <->
    negb (UA_NodeId_isNull (bd_referenceTypeId descr)) &&
    negb (match lookup_node s (bd_referenceTypeId descr) with
          | Some n => nodeClass n =? UA_NODECLASS_REFERENCETYPE
          | None => false
          end) = true).
  { destruct (UA_NodeId_isNull (bd_referenceTypeId descr)); [by apply quiet_ret|].
    eapply quiet_mono; [by apply quiet_is_reference_type|]; intros b ->.
    destruct (lookup_node _ _); [|done]; by destruct (_ =? _). }
  intros b n1 Hb; assert (Hr1 : readable (set_allocs s n1)) by by apply readable_allocs.
  destruct b; cbn [negb].
  2: { assert (Hst : browse_status s descr = BADREFERENCETYPEIDINVALID).
       { unfold browse_status; rewrite Hdir; cbn [negb]; by rewrite (proj1 Hb eq_refl). }
       apply quiet_ret, BrowsedBad; fold descr; by rewrite Hst. }
  assert (Hst : browse_status s descr =
    match lookup_node s (bd_nodeId descr) with Some _ => GOOD | None => BADNODEIDUNKNOWN end).
  { unfold browse_status; rewrite Hdir; cbn [negb].
    destruct (negb (UA_NodeId_isNull (bd_referenceTypeId descr)) && _); [|done].
    destruct Hb as [_ Hb]; by specialize (Hb eq_refl). }
  apply (quiet_node (fun n => browseReferences n cp) mret); [apply Hr1|..].
  - intros Hnone; change (lookup_node s (bd_nodeId descr) = None) in Hnone; rewrite Hnone in Hst.
    apply quiet_ret, BrowsedBad; fold descr; by rewrite Hst.
  - intros p n Hp Hn; destruct (lookup_stored _ _ _ Hn) as (p' & Hp' & Hsto & Hn').
    assert (p' = p) as -> by congruence; change (lookup_node s (bd_nodeId descr) = Some n) in Hn.
    eexists; split; [apply (quiet_browseReferences _ p n cp); [by apply readable_pushed|done..]|].
    intros r k Hpage; apply quiet_ret, (BrowsedPage s cp r n); [fold descr; by rewrite Hst, Hn|done|].
    by apply (page_of_same s (pushed p (set_allocs s n1))).
Qed.
End Describe.

(** ** Browsing in pages

    A client that browses a node and then asks for the next references until
    there is no continuation point gets every matching reference once, in
    order, in pages within the limit; and its session has the continuation
    points it had before.  What a browse changes in any case. *)

(** The nodes are the same, the same ones are referred to, and no destructor was called. *)
Definition unchanged (s s' : AddressSpace) : Prop :=
  same_store s s' /\ held s' = held s /\ destroyed s' = destroyed s.

#[export] Instance unchanged_preorder : PreOrder unchanged.
Proof.
  split; [by intros s|].
  intros s1 s2 s3 ([H1 H2] & H3 & H4) ([G1 G2] & G3 & G4); unfold unchanged, same_store; by split_and!; etransitivity.
Qed.

Lemma unchanged_allocs s n : unchanged s (set_allocs s n).
Proof. done. Qed.

Section Pages.
Context {E : Env}.

(** ** Any browse *)

(** The continuation points of the session are the same, or there is one more,
    for pages of the same size. *)
Definition cps_grown (maxrefs : Z) (s s' : AddressSpace) : Prop :=
  (continuationPoints s' = continuationPoints s /\
   availableContinuationPoints s' = availableContinuationPoints s) \/
  (exists cp, continuationPoints s' = cp :: continuationPoints s /\
    availableContinuationPoints s' = availableContinuationPoints s - 1 /\
    0 < availableContinuationPoints s /\ maxReferences cp = maxrefs).

(** All matching references of the node of a description. *)
Definition all_references (s : AddressSpace) (descr : UA_BrowseDescription) : list UA_ReferenceDescription :=
  match lookup_node s (bd_nodeId descr) with
  | Some n => matches_from s descr 0 (references n)
  | None => []
  end.

Lemma quiet_BrowseDescription_copy descr s :
  quiet (BrowseDescription_copy descr) s (fun r =>
    (r.1 = GOOD -> r.2 = mkBrowseDescription (copied_id (bd_nodeId descr)) (browseDirection descr)
       (copied_id (bd_referenceTypeId descr)) (includeSubtypes descr) (nodeClassMask descr) (resultMask descr)) /\
    (memory -> copyable (bd_nodeId descr) -> copyable (bd_referenceTypeId descr) -> r.1 = GOOD)).
Proof.
  unfold BrowseDescription_copy.
  eapply quiet_bind; [apply quiet_NodeId_copy|]; intros [r1 v1] n [G1 M1].
  eapply quiet_bind; [apply quiet_NodeId_copy|]; intros [r2 v2] n' [G2 M2].
  apply quiet_ret; simpl in *; split; [intros [H1 H2]%lor_good; by rewrite G1, G2|].
  intros Hm C1 C2; apply lor_good; auto.
Qed.

(** The result of persisting, and the new continuation point if there is one. *)
Definition persisted (s : AddressSpace) (cp : ContinuationPointEntry) (result : UA_BrowseResult)
    (result' : UA_BrowseResult) (s' : AddressSpace) : Prop :=
  (unchanged s s' /\ continuationPoints s' = continuationPoints s /\
   availableContinuationPoints s' = availableContinuationPoints s /\
   result' = browse_error (br_statusCode result') /\ br_statusCode result' <> GOOD /\
   ~ (memory /\ 0 < availableContinuationPoints s /\ copyable (bd_nodeId (browseDescription cp)) /\
      copyable (bd_referenceTypeId (browseDescription cp)))) \/
  (let d := browseDescription cp in
   let ident := ArrData (guid_image (guid_random (guids s))) in
   unchanged s s' /\ 0 < availableContinuationPoints s /\
   continuationPoints s' =
     mkCp ident (mkBrowseDescription (copied_id (bd_nodeId d)) (browseDirection d)
              (copied_id (bd_referenceTypeId d)) (includeSubtypes d) (nodeClassMask d) (resultMask d))
       (maxReferences cp) (referenceKindIndex cp) (targetIndex cp) :: continuationPoints s /\
   availableContinuationPoints s' = availableContinuationPoints s - 1 /\
   result' = mkBrowseResult (br_statusCode result) ident (br_references result)).

Lemma guid_image_long g : guid_image g <> [] /\ 0 < zlen (guid_image g).
Proof.
  assert (H : 0 < zlen (guid_image g)).
  { unfold guid_image; rewrite !zlen_app; unfold zlen at 1; rewrite length_le_bytes.
    pose proof (zlen_nonneg (le_bytes 2 (data2 g))); pose proof (zlen_nonneg (le_bytes 2 (data3 g)));
    pose proof (zlen_nonneg (data4 g)); lia. }
  split; [|done]; intros Hn; rewrite Hn in H; done.
Qed.

Lemma wp_quiet {A B} (m : M A) (k : A -> M B) s (P : A -> Prop) (Q : B -> AddressSpace -> Prop) :
  quiet m s P -> (forall a n, P a -> wp (k a) Q (set_allocs s n)) -> wp (m ≫= k) Q s.
Proof. intros H Hk; apply wp_bind; by eapply quiet_wp. Qed.

Lemma wp_persistCp s cp result : wp (persistCp cp result) (persisted s cp result) s.
Proof.
  assert (Hfail : forall n g st, st <> GOOD ->
    ~ (memory /\ 0 < availableContinuationPoints s /\ copyable (bd_nodeId (browseDescription cp)) /\
       copyable (bd_referenceTypeId (browseDescription cp))) ->
    persisted s cp result (browse_error st) (set_guids (set_allocs s n) g)) by by left.
  unfold persistCp; apply wp_bind, wp_gets.
  apply (wp_quiet _ _ _ (fun b : bool => (b = true -> 0 < availableContinuationPoints s) /\
           (memory -> 0 < availableContinuationPoints s -> b = true))).
  { destruct (_ <=? 0) eqn:H; zbool; [apply quiet_ret; split; [done|lia]|].
    apply quiet_malloc; intros b Hb; split; [done|]; auto. }
  intros b n [Hav Hb]; destruct b; cbn [negb].
  2: { apply wp_ret, (Hfail n (guids s)); [done|]; intros (Hm & Hp & _); by specialize (Hb Hm Hp). }
  specialize (Hav eq_refl).
  eapply wp_quiet; [apply quiet_BrowseDescription_copy|]; intros [st d] n1 [G1 M1]; cbn [fst snd] in *.
  destruct (bad st) eqn:Hbad.
  { apply wp_ret, (Hfail n1 (guids s)); [by unfold bad in Hbad; zbool|].
    intros (Hm & _ & C1 & C2); by rewrite (M1 Hm C1 C2) in Hbad. }
  apply bad_false in Hbad; rewrite (G1 Hbad); clear G1 M1.
  eapply wp_quiet; [apply quiet_malloc; intros b Hb'; exact Hb'|]; intros b n2 Hb2; cbv beta in Hb2.
  destruct b; cbn [negb].
  2: { apply wp_ret, (Hfail n2 (guids s)); [done|]; intros (Hm & _); by specialize (Hb2 Hm). }
  apply wp_bind; unfold wp, random_identifier; cbv beta iota.
  set (ident := ArrData _); set (s3 := set_guids _ _).
  eapply wp_quiet; [apply (quiet_String_copy ident s3)|]; intros [st2 v] n3 [G3 M3]; cbn [fst snd] in *.
  destruct (bad st2) eqn:Hbad2.
  { apply wp_ret, (Hfail n3 (S (guids s))); [by unfold bad in Hbad2; zbool|].
    intros (Hm & _); by rewrite (M3 Hm I) in Hbad2. }
  apply bad_false in Hbad2; rewrite (G3 Hbad2).
  replace (copied ident) with ident; [|unfold ident; simpl; pose proof (guid_image_long (guid_random (guids s)))
    as [Hne _]; change (guids (set_allocs s n2)) with (guids s); by destruct (guid_image _)].
  apply wp_bind, wp_modify, wp_ret; by right.
Qed.

(** What any browse does: the nodes stay, the session has at most one more
    continuation point, and what is returned are matching references. *)
Lemma wp_Operation_Browse s maxrefs descr : readable s -> 0 <= browse_limit maxrefs ->
  wp (Operation_Browse maxrefs descr) (fun result s' =>
    unchanged s s' /\ cps_grown maxrefs s s' /\
    exists rest, all_references s descr = arr_list (br_references result) ++ rest \/
                 arr_list (br_references result) = []) s.
Proof.
  intros Hr Hlim; unfold Operation_Browse; set (cp := mkCp ArrNull descr maxrefs 0 0).
  eapply wp_quiet; [by apply (quiet_browseWithContinuation s cp)|].
  intros r n Hres; set (s1 := set_allocs s n).
  assert (Hsame : unchanged s s1 /\ cps_grown maxrefs s s1) by (split; [done|by left]).
  destruct Hres as [Hbad ->|m Hgood Hm Hpage].
  { apply wp_ret; destruct Hsame; split_and!; [done..|]; exists []; by right. }
  assert (Hall : all_references s descr = remaining s m cp)
    by (unfold all_references; change (lookup_node s (bd_nodeId descr) = Some m) in Hm; by rewrite Hm).
  inversion Hpage as [arr Ha Hz|k t page Ha Hz Hp|st Hst Hmem]; subst r; cbn [br_statusCode].
  - apply wp_ret; destruct Hsame; split_and!; [done..|]; exists []; left.
    by rewrite Hall, <- Ha, app_nil_r.
  - eapply wp_mono; [apply wp_persistCp|]; intros result s' [H|H].
    + destruct H as (H1 & H2 & H3 & H4 & H5 & _); split_and!; [done|by left|].
      exists []; right; by rewrite H4.
    + destruct H as (H1 & H2 & H3 & H4 & ->); split_and!; [done|right; by eexists|].
      eexists; left; rewrite Hall; exact Ha.
  - assert (Hb : bad (br_statusCode (browse_error st)) = true)
      by (unfold bad; by apply negb_true_iff, Z.eqb_neq).
    rewrite Hb; apply wp_ret; destruct Hsame; split_and!; [done..|]; exists []; by right.
Qed.

(** ** Page by page, with enough memory *)

(** Identifiers as they are decoded: they can be copied, and an empty string
    is null or the sentinel. *)
Definition descr_ok (descr : UA_BrowseDescription) : Prop :=
  (copyable (bd_nodeId descr) /\ copied_id (bd_nodeId descr) = bd_nodeId descr) /\
  (copyable (bd_referenceTypeId descr) /\
   copied_id (bd_referenceTypeId descr) = bd_referenceTypeId descr).

(** A page with what is left behind the continuation point [cp], if there is
    one; [identifier] is what the client is given for it. *)
Definition page_then (s : AddressSpace) (n : UA_Node) (limit : Z) (page before : list UA_ReferenceDescription)
    (identifier : UA_ByteString) (cp : option ContinuationPointEntry) : Prop :=
  match cp with
  | None => page = before /\ zlen page <= limit /\ arr_length identifier = 0
  | Some cp => before = page ++ remaining s n cp /\ remaining s n cp <> [] /\ zlen page = limit /\
      identifier = cp_identifier cp /\ 0 < arr_length identifier
  end.

Lemma page_of_good s n cp done_ cp' result : memory -> page_of s n cp (done_, cp', result) ->
  br_statusCode result = GOOD /\
  (if done_ then cp' = cp /\ arr_list (br_references result) = remaining s n cp /\
      zlen (remaining s n cp) <= browse_limit (maxReferences cp) /\ continuationPoint result = ArrNull
   else (exists k t, cp' = set_cp_position cp k t) /\
     remaining s n cp = arr_list (br_references result) ++ remaining s n cp' /\
     remaining s n cp' <> [] /\ zlen (arr_list (br_references result)) = browse_limit (maxReferences cp)).
Proof.
  intros Hm H; inversion H; subst; [done| |done].
  split; [done|]; split; [by eexists _, _|done].
Qed.

Lemma wp_first_page s n maxrefs descr : memory -> readable s -> descr_ok descr ->
  browse_status s descr = GOOD -> lookup_node s (bd_nodeId descr) = Some n ->
  0 <= browse_limit maxrefs -> 0 < availableContinuationPoints s ->
  wp (Operation_Browse maxrefs descr) (fun result s' =>
    unchanged s s' /\ br_statusCode result = GOOD /\ exists cp : option ContinuationPointEntry,
      page_then s n (browse_limit maxrefs) (arr_list (br_references result))
        (matches_from s descr 0 (references n)) (continuationPoint result) cp /\
      continuationPoints s' = option_list cp ++ continuationPoints s /\
      availableContinuationPoints s' = availableContinuationPoints s - zlen (option_list cp) /\
      (forall c, cp = Some c -> browseDescription c = descr /\ maxReferences c = maxrefs)) s.
Proof.
  intros Hm Hr [[C1 K1] [C2 K2]] Hst Hn Hlim Hav; unfold Operation_Browse.
  set (cp := mkCp ArrNull descr maxrefs 0 0).
  eapply wp_quiet; [by apply (quiet_browseWithContinuation s cp)|].
  intros r n1 [Hbad _|m _ Hm' Hpage]; [done|].
  assert (m = n) as -> by (change (lookup_node s (bd_nodeId descr) = Some m) in Hm'; congruence).
  destruct r as [[done_ cp'] result]; apply page_of_good in Hpage as [Hgood Hpage]; [|done].
  rewrite Hgood; destruct done_; cbn [orb].
  - destruct Hpage as (-> & Hp & Hz & Hc); apply wp_ret; split; [done|]; split; [done|].
    exists None; unfold page_then; rewrite Hc, Hp; split_and!; [done|exact Hz|done|done| |done].
    change (zlen (option_list None)) with 0; simpl; lia.
  - destruct Hpage as ((k & t & ->) & Hp & Hne & Hz).
    eapply wp_mono; [apply wp_persistCp|]; intros result' s' [H|H].
    + exfalso; destruct H as (_ & _ & _ & _ & _ & H); apply H; split_and!; done.
    + unfold cp in H; cbn [browseDescription set_cp_position maxReferences referenceKindIndex targetIndex] in H.
      destruct H as (H1 & _ & H2 & H3 & ->); rewrite K1, K2 in H2.
      split; [exact H1|]; split; [done|]; eexists (Some _); split; [|split; [exact H2|split; [exact H3|]]].
      * split; [exact Hp|]; split; [exact Hne|]; split; [exact Hz|]; split; [done|].
        apply (guid_image_long (guid_random (guids s))).
      * injection 1 as <-; split; [by destruct descr|done].
Qed.

Lemma UA_String_equal_refl str : UA_String_equal str str = true.
Proof. by apply UA_String_equal_spec. Qed.

(** The continuation point is the first one of the session. *)
Lemma wp_next_page s n cp cps available : memory -> readable s ->
  browse_status s (browseDescription cp) = GOOD ->
  lookup_node s (bd_nodeId (browseDescription cp)) = Some n ->
  0 <= browse_limit (maxReferences cp) -> 0 < arr_length (cp_identifier cp) ->
  continuationPoints s = cp :: cps -> availableContinuationPoints s = available ->
  0 <= available < 65535 ->
  wp (Operation_BrowseNext false (cp_identifier cp)) (fun result s' =>
    unchanged s s' /\ br_statusCode result = GOOD /\ exists cp' : option ContinuationPointEntry,
      page_then s n (browse_limit (maxReferences cp)) (arr_list (br_references result))
        (remaining s n cp) (continuationPoint result) cp' /\
      continuationPoints s' = option_list cp' ++ cps /\
      availableContinuationPoints s' = available + 1 - zlen (option_list cp') /\
      (forall c, cp' = Some c -> browseDescription c = browseDescription cp /\
                               maxReferences c = maxReferences cp)) s.
Proof.
  intros Hm Hr Hst Hn Hlim Hid Hcps Hav Hrange; unfold Operation_BrowseNext.
  apply wp_bind, wp_gets; rewrite Hcps.
  assert (Hfind : list_find (named_cp (cp_identifier cp)) (cp :: cps) = Some (0%nat, cp)).
  { cbn [list_find]; rewrite decide_True; [done|apply UA_String_equal_refl]. }
  rewrite Hfind.
  eapply wp_quiet; [by apply (quiet_browseWithContinuation s cp)|].
  intros r n1 [Hbad _|m _ Hm' Hpage]; [done|]; assert (m = n) as -> by congruence.
  destruct r as [[done_ cp'] result]; apply page_of_good in Hpage as [Hgood Hpage]; [|done].
  apply wp_bind, wp_modify; change (continuationPoints (set_allocs s n1)) with (continuationPoints s).
  rewrite Hcps; cbn [list_insert insert list_alter].
  destruct done_.
  - destruct Hpage as (-> & Hp & Hz & Hc).
    unfold removeCp; apply wp_bind, wp_bind, wp_gets, wp_bind, wp_gets, wp_modify, wp_ret.
    split; [done|]; split; [done|]; exists None; unfold page_then.
    split; [split_and!; [done|by rewrite Hp|by rewrite Hc]|]; split; [done|]; split; [|done].
    simpl; rewrite Hav; unfold u16; rewrite Z.mod_small by lia; change (zlen []) with 0; lia.
  - destruct Hpage as ((k & t & ->) & Hp & Hne & Hz).
    eapply wp_quiet; [apply quiet_String_copy|]; intros [st v] n2 [G1 M1]; cbn [fst snd] in *.
    cbn [set_cp_position cp_identifier] in *.
    rewrite (M1 Hm I), (G1 (M1 Hm I)).
    assert (copied (cp_identifier cp) = cp_identifier cp) as ->
      by (destruct (cp_identifier cp) as [| |[]]; done).
    cbn [bad]; apply wp_ret; split; [done|]; split; [done|].
    exists (Some (set_cp_position cp k t)); split; [by split_and!|]; split; [done|]; split; [|by injection 1 as <-].
    simpl; rewrite Hav; change (zlen [_]) with 1; lia.
Qed.

(** ** The whole list *)

(** A client asks for the next page until there is no continuation point. *)
Fixpoint browse_rest (fuel : nat) (identifier : UA_ByteString) : M (list UA_BrowseResult) :=
  match fuel with
  | O => undefined
  | S fuel =>
      if arr_length identifier =? 0 then mret []
      else
        result ← Operation_BrowseNext false identifier;
        results ← browse_rest fuel (continuationPoint result);
        mret (result :: results)
  end.

Definition browse_all (fuel : nat) (maxrefs : Z) (descr : UA_BrowseDescription) : M (list UA_BrowseResult) :=
  result ← Operation_Browse maxrefs descr;
  results ← browse_rest fuel (continuationPoint result);
  mret (result :: results).

(** The references of several results. *)
Definition all_pages (results : list UA_BrowseResult) : list UA_ReferenceDescription :=
  results ≫= fun r => arr_list (br_references r).

(** A page that was delivered without an error and within the limit. *)
Definition good_page (limit : Z) (r : UA_BrowseResult) : Prop :=
  br_statusCode r = GOOD /\ zlen (arr_list (br_references r)) <= limit.

Lemma wp_browse_rest fuel : forall s n identifier before (cp : option ContinuationPointEntry) cps maxrefs descr available
    page,
  memory -> readable s -> browse_status s descr = GOOD -> lookup_node s (bd_nodeId descr) = Some n ->
  0 < browse_limit maxrefs -> 0 < available <= 65535 ->
  page_then s n (browse_limit maxrefs) page before identifier cp ->
  continuationPoints s = option_list cp ++ cps ->
  availableContinuationPoints s = available - zlen (option_list cp) ->
  (forall c, cp = Some c -> browseDescription c = descr /\ maxReferences c = maxrefs) ->
  (length before - length page < fuel)%nat ->
  wp (browse_rest fuel identifier) (fun results s' =>
    unchanged s s' /\ continuationPoints s' = cps /\ availableContinuationPoints s' = available /\
    before = page ++ all_pages results /\ Forall (good_page (browse_limit maxrefs)) results) s.
Proof.
  induction fuel as [|fuel IH];
    intros s n identifier before cp cps maxrefs descr available page Hm Hr Hst Hn Hlim Hav Hpage Hcps Ha Hd Hf;
    [lia|]; cbn [browse_rest].
  destruct cp as [cp|]; simpl in Hpage.
  2: { destruct Hpage as (-> & Hz & Hi); rewrite Hi; cbn [Z.eqb].
       apply wp_ret; simpl in *; change (zlen []) with 0 in Ha; rewrite app_nil_r; split_and!; [done|done|lia|done|done]. }
  destruct Hpage as (Hb & Hne & Hz & Hi & Hi0); destruct (Hd cp eq_refl) as [<- <-].
  rewrite (proj2 (Z.eqb_neq _ _)) by lia; subst identifier.
  simpl in Hcps, Ha; change (zlen [cp]) with 1 in Ha.
  apply wp_bind; eapply wp_mono;
    [apply (wp_next_page s n cp cps (available - 1)); try done; lia|].
  intros result s' (Hun & Hgood & cp' & Hpage' & Hcps' & Ha' & Hd').
  assert (Hsame : same_store s s') by apply Hun.
  assert (Hrem : forall c, remaining s' n c = remaining s n c) by (intros c; by apply remaining_same).
  apply wp_bind; eapply wp_mono.
  - apply (IH s' n (continuationPoint result) (remaining s n cp) cp' cps (maxReferences cp) (browseDescription cp)
             available (arr_list (br_references result))); try done.
    + by eapply readable_same.
    + by rewrite (browse_status_same s).
    + by rewrite (lookup_same s).
    + destruct cp'; simpl in *; [by rewrite Hrem|done].
    + rewrite Ha'; lia.
    + rewrite Hb, length_app in Hf.
      assert (Hpos : (0 < length (arr_list (br_references result)))%nat).
      { destruct cp' as [c|]; simpl in Hpage'.
        - destruct Hpage' as (_ & _ & Hz' & _); unfold zlen in Hz'; lia.
        - destruct Hpage' as [-> _]; revert Hne; destruct (remaining s n cp); [by intros []|intros _; simpl; lia]. }
      destruct (remaining s n cp); simpl in *; [done|lia].
  - intros results s'' (Hun' & H1 & H2 & H3 & H4); apply wp_ret.
    split; [by etransitivity|]; split; [done|]; split; [done|]; split.
    + cbn [all_pages mbind list_bind]; rewrite Hb, H3; done.
    + constructor; [|done]; split; [done|].
      destruct cp' as [c|]; simpl in Hpage'; [destruct Hpage' as (_ & _ & -> & _)|destruct Hpage' as (_ & ? & _)]; lia.
Qed.
End Pages.
