(* ===== verification/NodeManagement.v ===== *)
(** * References between nodes and deletion of nodes
    ([src/server/ua_services_nodemanagement.c])

    Adding and deleting references in both directions, and deleting a node with
    its children.  The recursion over children has no bound in the code; the
    model takes fuel, and [NodeDelete.v] proves how much suffices. *)

From Stdlib Require Import ZArith Lia.
From stdpp Require Import base list numbers tactics sets gmap.
From S2P Require Import Prelude StateMonad UaTypes NodeStore AddressSpace NodeTree Browse.

Definition BADUSERACCESSDENIED : status := 0x801F0000.

Section NodeManagement.
Context {E : Env}.

(** The session is not the one of the server, and access control refuses. *)
Definition denied {A} (allow : option (A -> bool)) (item : A) : bool :=
  negb admin && match allow with Some f => negb (f item) | None => false end.

(** ** References *)

Definition addOneWayReference (item : UA_AddReferencesItem) (node : UA_Node) : M (status * UA_Node) :=
  UA_Node_addReference node item.

Definition deleteOneWayReference (item : UA_DeleteReferencesItem) (node : UA_Node) : M (status * UA_Node) :=
  mret (UA_Node_deleteReference node item).

(** The other direction of a reference. *)
Definition second_add (item : UA_AddReferencesItem) : UA_AddReferencesItem :=
  mkAddReferencesItem (eni_nodeId (ar_targetNodeId item)) (ar_referenceTypeId item)
    (negb (ar_isForward item)) ArrNull (local_id (ar_sourceNodeId item)) UA_NODECLASS_UNSPECIFIED.

(** The reference itself, to be deleted again. *)
Definition undo_add (item : UA_AddReferencesItem) : UA_DeleteReferencesItem :=
  mkDeleteReferencesItem (ar_sourceNodeId item) (ar_referenceTypeId item) (ar_isForward item)
    (ar_targetNodeId item) false.

Definition Operation_addReference (item : UA_AddReferencesItem) : M status :=
  if denied allowAddReference item then mret BADUSERACCESSDENIED
  else if 0 <? arr_length (ar_targetServerUri item) then mret BADNOTIMPLEMENTED
  else
    retval ← UA_Server_editNode (ar_sourceNodeId item) (addOneWayReference item);
    let firstExisted := retval =? BADDUPLICATEREFERENCENOTALLOWED in
    if negb firstExisted && bad retval then mret retval
    else
      let secondItem := second_add item in
      retval ← UA_Server_editNode (ar_sourceNodeId secondItem) (addOneWayReference secondItem);
      let secondExisted := retval =? BADDUPLICATEREFERENCENOTALLOWED in
      _ ← (if negb secondExisted && bad retval && negb firstExisted
           then UA_Server_editNode (ar_sourceNodeId item) (deleteOneWayReference (undo_add item))
           else mret GOOD);
      mret (if firstExisted && secondExisted then BADDUPLICATEREFERENCENOTALLOWED
            else if secondExisted then GOOD else retval).

Definition second_delete (item : UA_DeleteReferencesItem) : UA_DeleteReferencesItem :=
  mkDeleteReferencesItem (eni_nodeId (dr_targetNodeId item)) (dr_referenceTypeId item)
    (negb (dr_isForward item)) (local_id (dr_sourceNodeId item)) false.

Definition Operation_deleteReference (item : UA_DeleteReferencesItem) : M status :=
  if denied allowDeleteReference item then mret BADUSERACCESSDENIED
  else
    retval ← UA_Server_editNode (dr_sourceNodeId item) (deleteOneWayReference item);
    if bad retval then mret retval
    else if negb (deleteBidirectional item) || negb (eni_serverIndex (dr_targetNodeId item) =? 0)
    then mret retval
    else
      UA_Server_editNode (dr_sourceNodeId (second_delete item)) (deleteOneWayReference (second_delete item)).

(** ** Deleting nodes *)

(** The loop over the targets of the kind number [i] of the node [p], from the
    target number [j] on.  The array of kinds may change under the loop: an
    entry that was moved away is treated as a dangling pointer. *)
Fixpoint removeIncoming_targets (fuel : nat) (p i j : nat) (type : UA_NodeId) (isForward : bool) : M unit :=
  match fuel with
  | O => undefined
  | S fuel =>
      node ← node_at p;
      refs ← the (references node !! i);
      match targetIds refs !! j with
      | None => mret tt
      | Some t =>
          _ ← Operation_deleteReference
                (mkDeleteReferencesItem (eni_nodeId t) type isForward (local_id (nodeId node)) false);
          removeIncoming_targets fuel p i (S j) type isForward
      end
  end.

Fixpoint removeIncoming_kinds (fuel : nat) (p i : nat) : M unit :=
  match fuel with
  | O => undefined
  | S fuel =>
      node ← node_at p;
      match references node !! i with
      | None => mret tt
      | Some refs =>
          _ ← removeIncoming_targets (S (length (targetIds refs))) p i 0
                (rk_referenceTypeId refs) (rk_isInverse refs);
          removeIncoming_kinds fuel p (S i)
      end
  end.

(** References only become fewer, so one more round than kinds is enough. *)
Definition removeIncomingReferences (p : nat) : M unit :=
  node ← node_at p;
  removeIncoming_kinds (S (length (references node))) p 0.

Definition call_destructor (type : option UA_NodeId) (node : UA_NodeId) : M unit :=
  modify (fun s => set_destroyed s (destroyed s ++ [(type, node)])).

Definition deconstructNode (p : nat) : M unit :=
  node ← node_at p;
  _ ← (if (nodeClass node =? UA_NODECLASS_OBJECT) || (nodeClass node =? UA_NODECLASS_VARIABLE) then
         type ← getNodeType node;
         match type with
         | None => mret tt
         | Some q =>
             t ← node_at q;
             _ ← (if has_destructor t then call_destructor (Some (nodeId t)) (nodeId node) else mret tt);
             UA_Nodestore_release q
         end
       else mret tt);
  if global_destructor then call_destructor None (nodeId node) else mret tt.

(** The children of a node, as [removeChildren] browses them. *)
Definition children_of (id : UA_NodeId) : UA_BrowseDescription :=
  mkBrowseDescription id UA_BROWSEDIRECTION_FORWARD UA_NS0ID_AGGREGATES true
    (Z.lor (Z.lor UA_NODECLASS_OBJECT UA_NODECLASS_VARIABLE) UA_NODECLASS_METHOD)
    UA_BROWSERESULTMASK_NONE.

Section Children.
Context (deleteNode : UA_DeleteNodesItem -> M status) (p : nat).

Fixpoint remove_children (refs : list UA_ReferenceDescription) : M unit :=
  match refs with
  | [] => mret tt
  | rd :: refs =>
      node ← node_at p;
      let id := eni_nodeId (rd_nodeId rd) in
      if nodeid_eqb (nodeId node) id then remove_children refs
      else _ ← deleteNode (mkDeleteNodesItem id true); remove_children refs
  end.

Definition removeChildren : M unit :=
  node ← node_at p;
  br ← Operation_Browse 0 (children_of (nodeId node));
  if bad (br_statusCode br) then mret tt else remove_children (arr_list (br_references br)).
End Children.

Definition removeDeconstructedNode (deleteNode : UA_DeleteNodesItem -> M status) (p : nat)
    (removeTargetRefs : bool) : M unit :=
  _ ← removeChildren deleteNode p;
  _ ← (if removeTargetRefs then removeIncomingReferences p else mret tt);
  node ← node_at p;
  _ ← UA_Nodestore_remove (nodeId node);
  mret tt.

Fixpoint deleteNodeOperation (fuel : nat) (item : UA_DeleteNodesItem) : M status :=
  match fuel with
  | O => undefined
  | S fuel =>
      if denied allowDeleteNode item then mret BADUSERACCESSDENIED
      else
        node ← UA_Nodestore_get (dn_nodeId item);
        match node with
        | None => mret BADNODEIDUNKNOWN
        | Some p =>
            n ← node_at p;
            if UA_Node_hasSubTypeOrInstances n then
              _ ← UA_Nodestore_release p; mret BADINTERNALERROR
            else
              _ ← deconstructNode p;
              _ ← removeDeconstructedNode (deleteNodeOperation fuel) p (deleteTargetReferences item);
              _ ← UA_Nodestore_release p;
              mret GOOD
        end
  end.

(** ** The services *)

Definition limited_service {A B} (operation : A -> M B) (ops : list A) : M (status * list B) :=
  if too_many maxNodesPerNodeManagement ops then mret (BADTOOMANYOPERATIONS, [])
  else UA_Server_processServiceOperations operation ops.

Definition Service_AddReferences : list UA_AddReferencesItem -> M (status * list status) :=
  limited_service Operation_addReference.

Definition Service_DeleteReferences : list UA_DeleteReferencesItem -> M (status * list status) :=
  limited_service Operation_deleteReference.

Definition Service_DeleteNodes (fuel : nat) : list UA_DeleteNodesItem -> M (status * list status) :=
  limited_service (deleteNodeOperation fuel).
End NodeManagement.
