(* ===== verification/NodeReferences.v ===== *)
(** * The references of a node as a set

    In a well-formed node every kind of references (type and direction) occurs
    once and has targets, each of them once.  Adding and deleting a reference
    keep this and change the set of references as they should; a reference that
    was just added is deleted without a trace. *)

From Stdlib Require Import ZArith Lia.
From stdpp Require Import base list numbers tactics sets gmap.
From S2P Require Import Prelude StateMonad UaTypes NodeStore AddressSpace NodeTree AddressLogic.

(** ** Lists without two elements of the same name *)

Section Unique.
Context {A : Type} (same : A -> A -> bool).

Definition unique_by (l : list A) : Prop :=
  forall i j a b, l !! i = Some a -> l !! j = Some b -> same a b = true -> i = j.

Lemma unique_nil : unique_by [].
Proof. by intros i j a b. Qed.

Lemma unique_snoc l a : (forall x y, same x y = same y x) -> unique_by l ->
  (forall b, b ∈ l -> same a b = false) -> unique_by (l ++ [a]).
Proof.
  intros Hsym Hl Ha i j x y Hx Hy Hs.
  apply lookup_app_Some in Hx as [Hx|[Hi Hx]]; apply lookup_app_Some in Hy as [Hy|[Hj Hy]].
  - by eapply Hl.
  - apply list_lookup_singleton_Some in Hy as [Hj0 ->].
    rewrite Hsym, (Ha x) in Hs; [done|by eapply list_elem_of_lookup_2].
  - apply list_lookup_singleton_Some in Hx as [Hi0 ->].
    rewrite (Ha y) in Hs; [done|by eapply list_elem_of_lookup_2].
  - apply list_lookup_singleton_Some in Hx as [? _]; apply list_lookup_singleton_Some in Hy as [? _]; lia.
Qed.

(** An element is replaced by one of the same name. *)
Lemma unique_insert l i a b : unique_by l -> l !! i = Some a -> (forall x, same b x = same a x) ->
  (forall x, same x b = same x a) -> unique_by (<[i := b]> l).
Proof.
  intros Hl Ha H1 H2 j k x y Hx Hy Hs.
  apply list_lookup_insert_Some in Hx as [(-> & <- & _)|[? Hx]];
    apply list_lookup_insert_Some in Hy as [(-> & <- & _)|[? Hy]]; try done.
  - rewrite H1 in Hs; by eapply Hl.
  - rewrite H2 in Hs; by eapply Hl.
  - by eapply Hl.
Qed.
End Unique.

Section RemoveAt.
Context {A : Type}.
Implicit Types l : list A.

Lemma remove_at_snoc l x i : remove_at (l ++ [x]) i = <[i := x]> l.
Proof.
  unfold remove_at; rewrite last_snoc, length_app; simpl; rewrite Nat.add_sub.
  destruct (decide (i < length l)%nat).
  - by rewrite insert_app_l, take_app_length' by (by rewrite ?length_insert).
  - rewrite (list_insert_ge l) by lia; rewrite insert_app_r_alt by lia.
    by rewrite take_app_length.
Qed.

Lemma remove_at_lookup l i k : (i < length l)%nat ->
  remove_at l i !! k = if decide (k < length l - 1)%nat
                       then if decide (k = i) then l !! (length l - 1)%nat else l !! k
                       else None.
Proof.
  destruct l as [|x l _] using rev_ind; [simpl; lia|]; rewrite remove_at_snoc, !length_app; simpl.
  intros Hi; replace (length l + 1 - 1)%nat with (length l) by lia.
  destruct (decide (k < length l)%nat).
  - rewrite lookup_app_r, Nat.sub_diag by lia; simpl.
    destruct (decide (k = i)) as [->|]; [by rewrite list_lookup_insert_eq|].
    by rewrite list_lookup_insert_ne, lookup_app_l.
  - apply lookup_ge_None_2; rewrite length_insert; lia.
Qed.

Lemma length_remove_at l i : length (remove_at l i) = (length l - 1)%nat.
Proof.
  destruct l as [|x l _] using rev_ind; [done|]; rewrite remove_at_snoc, length_insert, length_app; simpl; lia.
Qed.

Lemma elem_of_remove_at l i x : (i < length l)%nat ->
  x ∈ remove_at l i <-> exists k, k <> i /\ l !! k = Some x.
Proof.
  intros Hi; rewrite list_elem_of_lookup; split.
  - intros [k Hk]; rewrite remove_at_lookup in Hk by done; destruct (decide (k < _)%nat); [|done].
    destruct (decide (k = i)) as [->|]; [exists (length l - 1)%nat; split; [lia|done]|by exists k].
  - intros (k & Hne & Hk); pose proof (lookup_lt_Some _ _ _ Hk).
    destruct (decide (k = length l - 1)%nat) as [->|].
    + exists i; rewrite remove_at_lookup by done; by rewrite !decide_True by lia.
    + exists k; rewrite remove_at_lookup by done; by rewrite decide_True, decide_False by lia.
Qed.

Lemma unique_remove_at same l i : unique_by same l -> (i < length l)%nat ->
  unique_by same (remove_at l i).
Proof.
  intros Hl Hi j k a b; rewrite !remove_at_lookup by done.
  repeat destruct (decide _); try done; intros Ha Hb Hs; subst; try done;
    pose proof (Hl _ _ _ _ Ha Hb Hs); lia.
Qed.

Lemma find_last_some (test : A -> bool) l i : find_last test l = Some i ->
  exists a, l !! i = Some a /\ test a = true.
Proof.
  revert i; induction l as [|a l IH]; intros i; simpl; [done|].
  destruct (find_last test l) as [k|]; [injection 1 as <-; by apply IH|].
  destruct (test a) eqn:Ha; [|done]; injection 1 as <-; by exists a.
Qed.

Lemma find_last_none (test : A -> bool) l : find_last test l = None -> forall a, a ∈ l -> test a = false.
Proof.
  induction l as [|a l IH]; simpl; [set_solver|].
  destruct (find_last test l); [done|]; destruct (test a) eqn:Ha; [done|]; set_solver.
Qed.

(** The last element satisfies the test. *)
Lemma find_last_snoc (test : A -> bool) l a : test a = true -> find_last test (l ++ [a]) = Some (length l).
Proof. intros Ha; induction l as [|b l IH]; simpl; [by rewrite Ha|by rewrite IH]. Qed.

(** Only one element can satisfy the test. *)
Lemma find_last_unique (test : A -> bool) l i a :
  (forall j b, l !! j = Some b -> test b = true -> j = i) -> l !! i = Some a -> test a = true ->
  find_last test l = Some i.
Proof.
  intros Hu Ha Ht; destruct (find_last test l) as [k|] eqn:Hk.
  - apply find_last_some in Hk as (b & Hb & Hb'); by rewrite (Hu k b Hb Hb').
  - pose proof (find_last_none _ _ Hk a (list_elem_of_lookup_2 _ _ _ Ha)); congruence.
Qed.
End RemoveAt.

(** ** Well-formed nodes *)

(** A target on this server. *)
Definition local_target (t : UA_ExpandedNodeId) : Prop :=
  copyable (eni_nodeId t) /\ arr_list (eni_namespaceUri t) = [] /\ eni_serverIndex t = 0.

Definition target_same (t u : UA_ExpandedNodeId) : bool := nodeid_eqb (eni_nodeId t) (eni_nodeId u).

Definition kind_same (a b : UA_NodeReferenceKind) : bool :=
  eqb (rk_isInverse a) (rk_isInverse b) && nodeid_eqb (rk_referenceTypeId a) (rk_referenceTypeId b).

Record kind_wf (rk : UA_NodeReferenceKind) : Prop := mkKindWf {
  kw_copyable : copyable (rk_referenceTypeId rk);
  kw_used : targetIds rk <> [];
  kw_local : Forall local_target (targetIds rk);
  kw_unique : unique_by target_same (targetIds rk)
}.

Definition kinds_wf (l : list UA_NodeReferenceKind) : Prop := Forall kind_wf l /\ unique_by kind_same l.

Definition node_wf (n : UA_Node) : Prop := copyable (nodeId n) /\ kinds_wf (references n).

(** The node has a reference of a type, in a direction, to a node. *)
Definition has_ref (l : list UA_NodeReferenceKind) (type : UA_NodeId) (inverse : bool) (id : UA_NodeId) : Prop :=
  exists rk t, rk ∈ l /\ rk_isInverse rk = inverse /\ nodeid_eqb (rk_referenceTypeId rk) type = true /\
    t ∈ targetIds rk /\ nodeid_eqb (eni_nodeId t) id = true.

Lemma copyable_refl id : copyable id <-> nodeid_eqb id id = true.
Proof.
  unfold copyable, nodeid_eqb, UA_NodeId_equal; rewrite !Z.eqb_refl; simpl.
  destruct (nid_identifier id); rewrite ?Z.eqb_refl, ?(proj2 (UA_String_equal_spec _ _)) by done; try done.
  unfold UA_Guid_equal; by rewrite memeq_refl.
Qed.

Lemma kind_same_sym a b : kind_same a b = kind_same b a.
Proof. unfold kind_same; rewrite UA_NodeId_equal_sym; by destruct (rk_isInverse a), (rk_isInverse b). Qed.

Lemma target_same_sym t u : target_same t u = target_same u t.
Proof. apply UA_NodeId_equal_sym. Qed.

Lemma nodeid_eqb_l a b c : nodeid_eqb a b = true -> nodeid_eqb a c = nodeid_eqb b c.
Proof. intros H; by rewrite (UA_NodeId_equal_sym a c), (UA_NodeId_equal_sym b c), (nodeid_eqb_same a b). Qed.

(** Names can be replaced by equal ones. *)
Lemma has_ref_same l type type' inv id id' :
  nodeid_eqb type type' = true -> nodeid_eqb id id' = true ->
  has_ref l type inv id -> has_ref l type' inv id'.
Proof.
  intros H1 H2 (rk & t & H3 & H4 & H5 & H6 & H7); exists rk, t; split_and!; try done;
    by eapply nodeid_eqb_trans.
Qed.

(** ** Deleting a reference *)

Section Delete.
Context (item : UA_DeleteReferencesItem).
Let type := dr_referenceTypeId item.
Let inverse := negb (dr_isForward item).
Let id := eni_nodeId (dr_targetNodeId item).

Lemma deletes_from_spec rk : deletes_from item rk = true <->
  rk_isInverse rk = inverse /\ nodeid_eqb (rk_referenceTypeId rk) type = true /\
  exists t, t ∈ targetIds rk /\ nodeid_eqb (eni_nodeId t) id = true.
Proof.
  unfold deletes_from, inverse, type, id; fold (nodeid_eqb (dr_referenceTypeId item) (rk_referenceTypeId rk)).
  rewrite (UA_NodeId_equal_sym (rk_referenceTypeId rk)).
  destruct (eqb _ _) eqn:Hd; [apply eqb_prop in Hd; rewrite Hd; split; [done|];
    intros [H _]; by destruct (rk_isInverse rk)|].
  assert (Hinv : rk_isInverse rk = negb (dr_isForward item)) by (by destruct (rk_isInverse rk), (dr_isForward item)).
  destruct (nodeid_eqb _ _); cbn [negb]; [|split; [done|by intros (_ & ? & _)]].
  destruct (find_last _ _) as [j|] eqn:Hj; split; try done; intros H.
  - apply find_last_some in Hj as (t & Ht & Heq); split; [done|]; split; [done|]; exists t.
    split; [by eapply list_elem_of_lookup_2|]; by rewrite UA_NodeId_equal_sym.
  - destruct H as (_ & _ & t & Ht & Heq); pose proof (find_last_none _ _ Hj t Ht) as Hn.
    unfold refers_to in Hn; fold (nodeid_eqb (eni_nodeId (dr_targetNodeId item)) (eni_nodeId t)) in Hn.
    by rewrite UA_NodeId_equal_sym, Heq in Hn.
Qed.

(** What becomes of the list of kinds: in one of them the target is removed,
    or the kind is removed with its only target. *)
Inductive deleted_from (l : list UA_NodeReferenceKind) : list UA_NodeReferenceKind -> Prop :=
| DeletedTarget i rk j t rest : l !! i = Some rk -> rk_isInverse rk = inverse ->
    nodeid_eqb (rk_referenceTypeId rk) type = true ->
    targetIds rk !! j = Some t -> nodeid_eqb (eni_nodeId t) id = true ->
    remove_at (targetIds rk) j = rest -> rest <> [] ->
    deleted_from l (<[i := mkKind (rk_referenceTypeId rk) (rk_isInverse rk) rest]> l)
| DeletedKind i rk t : l !! i = Some rk -> rk_isInverse rk = inverse ->
    nodeid_eqb (rk_referenceTypeId rk) type = true ->
    targetIds rk = [t] -> nodeid_eqb (eni_nodeId t) id = true ->
    deleted_from l (remove_at l i).

Lemma deleteReference_cases n :
  ((exists l, UA_Node_deleteReference n item = (GOOD, set_references n l) /\
              deleted_from (references n) l) /\ has_ref (references n) type inverse id) \/
  (UA_Node_deleteReference n item = (UNCERTAINREFERENCENOTDELETED, n) /\
   ~ has_ref (references n) type inverse id).
Proof.
  unfold UA_Node_deleteReference; destruct (find_last _ (references n)) as [i|] eqn:Hi.
  - left; apply find_last_some in Hi as (rk & Hrk & Hdel); rewrite Hrk.
    apply deletes_from_spec in Hdel as (Hinv & Hty & t0 & Ht0 & Heq0).
    destruct (find_last _ (targetIds rk)) as [j|] eqn:Hj.
    2: { exfalso; pose proof (find_last_none _ _ Hj t0 Ht0) as Hn; unfold refers_to in Hn.
         fold (nodeid_eqb (eni_nodeId (dr_targetNodeId item)) (eni_nodeId t0)) in Hn.
         rewrite UA_NodeId_equal_sym in Hn; fold id in Hn; congruence. }
    apply find_last_some in Hj as (t & Ht & Heq); unfold refers_to in Heq.
    fold (nodeid_eqb (eni_nodeId (dr_targetNodeId item)) (eni_nodeId t)) in Heq.
    rewrite UA_NodeId_equal_sym in Heq; fold id in Heq.
    split; [|exists rk, t0; split_and!; try done; by eapply list_elem_of_lookup_2].
    destruct (remove_at (targetIds rk) j) as [|u rest] eqn:Hrest; eexists; (split; [done|]).
    + apply (DeletedKind _ i rk t); try done.
      pose proof (length_remove_at (targetIds rk) j) as Hlen; rewrite Hrest in Hlen; simpl in Hlen.
      destruct (targetIds rk) as [|x [|y l]]; [done| |simpl in Hlen; lia].
      by apply list_lookup_singleton_Some in Ht as [_ <-].
    + by apply (DeletedTarget _ i rk j t).
  - right; split; [done|]; intros (rk & t & Hrk & Hinv & Hty & Ht & Heq).
    assert (deletes_from item rk = true) as Hd by (apply deletes_from_spec; eauto 10).
    by rewrite (find_last_none _ _ Hi rk Hrk) in Hd.
Qed.

Lemma deleted_wf l l' : kinds_wf l -> deleted_from l l' -> kinds_wf l'.
Proof.
  intros [Hl Hu] Hd; pose proof Hl as Hall; rewrite Forall_forall in Hall.
  destruct Hd as [i rk j t rest Hi Hinv Hty Hj Heq Hrest Hne|i rk t Hi Hinv Hty Hone Heq].
  - assert (Hrk : kind_wf rk) by (apply Hall; by eapply list_elem_of_lookup_2).
    assert (Hlt : (j < length (targetIds rk))%nat) by (by eapply lookup_lt_Some).
    split; [apply Forall_insert; [done|]|].
    + destruct Hrk as [K1 K2 K3 K4]; subst rest; split; [done|done| |by apply unique_remove_at].
      apply Forall_forall; intros u Hu'%elem_of_remove_at; [|done].
      destruct Hu' as (k & _ & Hk); rewrite Forall_forall in K3; apply K3; by eapply list_elem_of_lookup_2.
    + apply (unique_insert _ l i rk); [done|done|done|done].
  - assert (Hlt : (i < length l)%nat) by (by eapply lookup_lt_Some).
    split; [|by apply unique_remove_at].
    apply Forall_forall; intros u Hu'%elem_of_remove_at; [|done].
    destruct Hu' as (k & _ & Hk); apply Hall; by eapply list_elem_of_lookup_2.
Qed.

(** Exactly the named reference is gone. *)
Lemma deleted_has_ref l l' ty inv x : kinds_wf l -> deleted_from l l' ->
  has_ref l' ty inv x <->
  has_ref l ty inv x /\ ~ (nodeid_eqb ty type = true /\ inv = inverse /\ nodeid_eqb x id = true).
Proof.
  intros [Hl Hu] Hd; rewrite Forall_forall in Hl.
  assert (Hdel : forall i rk j t, l !! i = Some rk -> rk_isInverse rk = inverse ->
            nodeid_eqb (rk_referenceTypeId rk) type = true -> targetIds rk !! j = Some t ->
            nodeid_eqb (eni_nodeId t) id = true ->
            forall k rk' m u, l !! k = Some rk' -> targetIds rk' !! m = Some u ->
              rk_isInverse rk' = inv -> nodeid_eqb (rk_referenceTypeId rk') ty = true ->
              nodeid_eqb (eni_nodeId u) x = true ->
              nodeid_eqb ty type = true /\ inv = inverse /\ nodeid_eqb x id = true <-> k = i /\ m = j).
  { intros i rk j t H1 H2 H3 H4 H5 k rk' m u G1 G2 G3 G4 G5; split.
    - intros (T1 & T2 & T3).
      assert (k = i) as ->.
      { apply (Hu k i rk' rk); try done; unfold kind_same; rewrite G3, H2, T2, eqb_reflx; simpl.
        rewrite (nodeid_eqb_l _ ty), (nodeid_eqb_same _ type) by done; done. }
      assert (rk' = rk) as -> by congruence; split; [done|].
      destruct (Hl rk) as [_ _ _ Hut]; [by eapply list_elem_of_lookup_2|].
      apply (Hut m j u t); try done; unfold target_same.
      by rewrite (nodeid_eqb_l _ x), (nodeid_eqb_same _ id).
    - intros [-> ->]; assert (rk' = rk) as -> by congruence; assert (u = t) as -> by congruence.
      split; [by rewrite <- (nodeid_eqb_l (rk_referenceTypeId rk))|]; split; [congruence|].
      by rewrite <- (nodeid_eqb_l (eni_nodeId t)). }
  assert (Hhas : forall L, has_ref L ty inv x <-> exists k rk m u, L !! k = Some rk /\ rk_isInverse rk = inv /\
            nodeid_eqb (rk_referenceTypeId rk) ty = true /\ targetIds rk !! m = Some u /\
            nodeid_eqb (eni_nodeId u) x = true).
  { intros L; split.
    - intros (rk & u & [k Hk]%list_elem_of_lookup & ? & ? & [m Hm]%list_elem_of_lookup & ?); by exists k, rk, m, u.
    - intros (k & rk & m & u & Hk & ? & ? & Hm & ?); exists rk, u; split_and!; try done; by eapply list_elem_of_lookup_2. }
  destruct Hd as [i rk j t rest Hi Hinv Hty Hj Heq Hrest Hne|i rk t Hi Hinv Hty Hone Heq];
    specialize (Hdel i rk); rewrite !Hhas.
  - assert (Hlt : (i < length l)%nat) by (by eapply lookup_lt_Some).
    assert (Hjl : (j < length (targetIds rk))%nat) by (by eapply lookup_lt_Some).
    specialize (Hdel j t Hi Hinv Hty Hj Heq); split.
    + intros (k & rk' & m & u & G1 & G2 & G3 & G4 & G5).
      apply list_lookup_insert_Some in G1 as [(-> & <- & _)|[Hk G1]].
      * simpl in *; assert (Hu' : u ∈ remove_at (targetIds rk) j) by (rewrite Hrest; by eapply list_elem_of_lookup_2).
        apply elem_of_remove_at in Hu' as (m' & Hm' & Hum); [|done].
        split; [by exists k, rk, m', u|]; intros Hnot.
        by apply (Hdel k rk m' u) in Hnot as [_ ?].
      * split; [by exists k, rk', m, u|]; intros Hnot; by apply (Hdel k rk' m u) in Hnot as [? _].
    + intros ((k & rk' & m & u & G1 & G2 & G3 & G4 & G5) & Hnot).
      destruct (decide (k = i)) as [->|Hk].
      * assert (rk' = rk) as -> by congruence.
        assert (Hm : m <> j) by (intros ->; apply Hnot, (Hdel i rk j u); done).
        assert (Hu' : u ∈ remove_at (targetIds rk) j) by (apply elem_of_remove_at; [done|by exists m]).
        rewrite Hrest in Hu'; apply list_elem_of_lookup in Hu' as [m' Hm'].
        eexists i, _, m', u; split; [by apply list_lookup_insert_eq|done].
      * exists k, rk', m, u; split; [by rewrite list_lookup_insert_ne|done].
  - assert (Hlt : (i < length l)%nat) by (by eapply lookup_lt_Some).
    specialize (Hdel 0%nat t Hi Hinv Hty); rewrite Hone in Hdel; specialize (Hdel eq_refl Heq).
    assert (Hmem : forall rk', rk' ∈ remove_at l i <-> exists k, k <> i /\ l !! k = Some rk')
      by (intros rk'; by apply elem_of_remove_at).
    split.
    + intros (k & rk' & m & u & G1 & G2 & G3 & G4 & G5).
      destruct (proj1 (Hmem rk')) as (k' & Hk' & Hl'); [by eapply list_elem_of_lookup_2|].
      split; [by exists k', rk', m, u|]; intros Hnot; by apply (Hdel k' rk' m u) in Hnot as [? _].
    + intros ((k & rk' & m & u & G1 & G2 & G3 & G4 & G5) & Hnot).
      assert (Hk : k <> i).
      { intros ->; assert (rk' = rk) as -> by congruence; rewrite Hone in G4.
        pose proof G4 as Hm; apply list_lookup_singleton_Some in Hm as [-> _].
        apply Hnot, (Hdel i rk 0%nat u); try done; by rewrite Hone. }
      assert (Hin : rk' ∈ remove_at l i) by (apply Hmem; by exists k).
      apply list_elem_of_lookup in Hin as [k' Hk'].
      by exists k', rk', m, u.
Qed.
End Delete.

(** ** Adding a reference *)

Lemma copied_id_same id : copyable id -> nodeid_eqb (copied_id id) id = true /\ copyable (copied_id id).
Proof.
  destruct id as [ns i]; unfold copyable, copied_id, nodeid_eqb, UA_NodeId_equal, identifierType; simpl.
  rewrite Z.eqb_refl; destruct i; simpl; intros H; rewrite ?Z.eqb_refl; try done.
  - split; [apply UA_String_equal_spec; by destruct string as [| |[]]|done].
  - unfold UA_Guid_equal; by rewrite memeq_refl.
  - split; [apply UA_String_equal_spec; by destruct byteString as [| |[]]|done].
Qed.

Lemma copied_local t : local_target t -> local_target (copied_expanded t).
Proof.
  intros (H1 & H2 & H3); split_and!; [by apply copied_id_same| |done].
  destruct t as [id [| |[]] n]; done.
Qed.

Lemma local_target_id id : copyable id -> local_target (local_id id).
Proof. done. Qed.

(** Expanded identifiers of this server are compared by their node. *)
Lemma same_target_local t u : local_target t -> local_target u ->
  same_target u t = nodeid_eqb (eni_nodeId t) (eni_nodeId u).
Proof.
  intros (_ & Hu1 & Hs1) (_ & Hu2 & Hs2); unfold same_target, UA_ExpandedNodeId_equal.
  rewrite Hs1, Hs2; cbn [Z.eqb negb].
  by rewrite (proj2 (UA_String_equal_spec _ _)) by (unfold string_eqv; by rewrite Hu1, Hu2).
Qed.

Section Add.
Context {E : Env} (item : UA_AddReferencesItem).
Let type := ar_referenceTypeId item.
Let inverse := negb (ar_isForward item).
Let id := eni_nodeId (ar_targetNodeId item).
Let target := copied_expanded (ar_targetNodeId item).
Context (Htype : copyable type) (Hlocal : local_target (ar_targetNodeId item)).

Lemma same_kind_spec rk : same_kind (ar_referenceTypeId item) (ar_isForward item) rk <->
  rk_isInverse rk = inverse /\ nodeid_eqb (rk_referenceTypeId rk) type = true.
Proof.
  unfold same_kind, inverse, type, nodeid_eqb.
  by destruct (rk_isInverse rk), (ar_isForward item); simpl; intuition.
Qed.

(** The list of kinds with the reference: in its kind, or in a new one. *)
Inductive added_to (l : list UA_NodeReferenceKind) : list UA_NodeReferenceKind -> Prop :=
| AddedTarget i rk : l !! i = Some rk -> rk_isInverse rk = inverse ->
    nodeid_eqb (rk_referenceTypeId rk) type = true ->
    added_to l (<[i := mkKind (rk_referenceTypeId rk) (rk_isInverse rk) (targetIds rk ++ [target])]> l)
| AddedKind : (forall rk, rk ∈ l -> rk_isInverse rk = inverse ->
                nodeid_eqb (rk_referenceTypeId rk) type = false) ->
    added_to l (l ++ [mkKind (copied_id type) inverse [target]]).

Lemma quiet_addReferenceTarget rk s :
  quiet (addReferenceTarget rk (ar_targetNodeId item)) s (fun r => memory_status r.1 /\
    r.2 = if bad r.1 then rk else mkKind (rk_referenceTypeId rk) (rk_isInverse rk) (targetIds rk ++ [target])).
Proof.
  unfold addReferenceTarget.
  eapply quiet_bind; [by apply (quiet_malloc s (fun _ => True))|]; intros b n _.
  destruct b; cbn [negb]; [|apply quiet_ret; split; [by right|done]].
  eapply quiet_bind; [apply quiet_and; [apply quiet_ExpandedNodeId_copy|
                                        apply quiet_ExpandedNodeId_copy_status, Hlocal]|].
  intros [r v] n' [[G _] Hst]; apply quiet_ret; split; [done|]; cbn [fst snd] in *.
  destruct (bad r) eqn:Hb; [done|]; apply bad_false in Hb; by rewrite (G Hb).
Qed.

Lemma quiet_addReferenceKind n s :
  quiet (addReferenceKind n item) s (fun r => memory_status r.1 /\
    r.2 = if bad r.1 then n
          else set_references n (references n ++ [mkKind (copied_id type) inverse [target]])).
Proof.
  unfold addReferenceKind.
  eapply quiet_bind; [by apply (quiet_malloc s (fun _ => True))|]; intros b n1 _.
  destruct b; cbn [negb]; [|apply quiet_ret; split; [by right|done]].
  eapply quiet_bind; [apply quiet_and; [apply quiet_NodeId_copy|by apply quiet_NodeId_copy_status]|].
  intros [r v] n2 [[G _] Hst]; cbn [fst snd] in *.
  eapply quiet_bind; [apply quiet_addReferenceTarget|].
  intros [r' v'] n3 [Hst' Hv]; cbn [fst snd] in *; apply quiet_ret; split; [by apply memory_status_lor|].
  destruct (bad (Z.lor r r')) eqn:Hb; cbn [fst snd]; rewrite Hb; [done|].
  apply bad_false, lor_good in Hb as [H1 H2]; rewrite (G H1) in Hv; rewrite H2 in Hv; by rewrite Hv.
Qed.

Lemma quiet_addReference n s : kinds_wf (references n) ->
  quiet (UA_Node_addReference n item) s (fun r =>
    (has_ref (references n) type inverse id /\ r = (BADDUPLICATEREFERENCENOTALLOWED, n)) \/
    (~ has_ref (references n) type inverse id /\
       ((exists l, r = (GOOD, set_references n l) /\ added_to (references n) l) \/
        r = (BADOUTOFMEMORY, n)))).
Proof.
  intros [Hwf Hu]; unfold UA_Node_addReference.
  destruct (list_find _ (references n)) as [[i rk]|] eqn:Hf.
  - apply list_find_Some in Hf as (Hi & [Hinv Hty]%same_kind_spec & Hfirst).
    assert (Hrk : kind_wf rk) by (rewrite Forall_forall in Hwf; apply Hwf; by eapply list_elem_of_lookup_2).
    assert (Hhas : has_ref (references n) type inverse id <->
              existsb (same_target (ar_targetNodeId item)) (targetIds rk) = true).
    { rewrite existsb_exists; split.
      - intros (rk' & t & Hrk' & Hinv' & Hty' & Ht & Heq); apply list_elem_of_lookup in Hrk' as [k Hk].
        assert (k = i) as ->.
        { apply (Hu k i rk' rk Hk Hi); unfold kind_same; rewrite Hinv, Hinv', eqb_reflx; simpl.
          by rewrite (nodeid_eqb_l _ type), UA_NodeId_equal_sym. }
        assert (rk' = rk) as -> by congruence; exists t; split; [by apply list_elem_of_In|].
        rewrite (same_target_local t); [done| |done].
        pose proof (kw_local _ Hrk) as Hl; rewrite Forall_forall in Hl; by apply Hl.
      - intros (t & Ht%list_elem_of_In & Heq); exists rk, t; split_and!; try done; [by eapply list_elem_of_lookup_2|].
        rewrite (same_target_local t) in Heq; [done| |done].
        pose proof (kw_local _ Hrk) as Hl; rewrite Forall_forall in Hl; by apply Hl. }
    destruct (existsb _ _) eqn:Hex; [apply quiet_ret; left; split; [by apply Hhas|done]|].
    eapply quiet_bind; [apply quiet_addReferenceTarget|].
    intros [r v] n1 [Hst Hv]; cbn [fst snd] in *; apply quiet_ret; right.
    split; [intros H; by apply Hhas in H|].
    destruct Hst as [->| ->]; cbn in Hv; subst v; [|right].
    + left; eexists; split; [done|]; by apply (AddedTarget _ i rk).
    + rewrite list_insert_id by done; by destruct n.
  - apply list_find_None in Hf; rewrite Forall_forall in Hf.
    assert (Hno : forall rk, rk ∈ references n -> rk_isInverse rk = inverse ->
              nodeid_eqb (rk_referenceTypeId rk) type = false).
    { intros rk Hrk Hinv; destruct (nodeid_eqb _ _) eqn:Hty; [|done].
      exfalso; apply (Hf rk Hrk); by apply same_kind_spec. }
    eapply quiet_mono; [apply quiet_addReferenceKind|]; intros [r v] [Hst Hv]; cbn [fst snd] in *; right.
    split; [intros (rk & t & Hrk & Hinv & Hty & _); by rewrite (Hno rk) in Hty|].
    destruct Hst as [->| ->]; cbn in Hv; subst v; [left|by right].
    eexists; split; [done|]; by apply AddedKind.
Qed.

Lemma target_same_id : nodeid_eqb (eni_nodeId target) id = true.
Proof. apply copied_id_same, Hlocal. Qed.

Lemma added_wf l l' : kinds_wf l -> ~ has_ref l type inverse id -> added_to l l' -> kinds_wf l'.
Proof.
  intros [Hwf Hu] Hno Hadd; destruct Hadd as [i rk Hi Hinv Hty|Hnone].
  - rewrite Forall_forall in Hwf; pose proof (Hwf rk (list_elem_of_lookup_2 _ _ _ Hi)) as [K1 K2 K3 K4].
    split; [apply Forall_insert; [by apply Forall_forall|]|by apply (unique_insert _ l i rk)].
    split; [done|by destruct (targetIds rk)|by apply Forall_app; split; [|apply Forall_singleton, copied_local]|].
    apply unique_snoc; [apply target_same_sym|done|]; intros t Ht.
    destruct (target_same target t) eqn:Heq; [|done]; exfalso; apply Hno; exists rk, t; split_and!; try done.
    + by eapply list_elem_of_lookup_2.
    + unfold target_same in Heq; rewrite <- (nodeid_eqb_l (eni_nodeId target)); [apply target_same_id|done].
  - split.
    + apply Forall_app; split; [done|]; apply Forall_singleton; split; simpl; [by apply copied_id_same|done| |].
      * by apply Forall_singleton, copied_local.
      * apply (unique_snoc _ []); [apply target_same_sym|apply unique_nil|by intros b Hb%not_elem_of_nil].
    + apply unique_snoc; [apply kind_same_sym|done|]; intros rk Hrk; unfold kind_same; simpl.
      destruct (eqb inverse (rk_isInverse rk)) eqn:He; [|done]; apply eqb_prop in He; simpl.
      rewrite (nodeid_eqb_l _ type) by (by apply copied_id_same); rewrite UA_NodeId_equal_sym.
      by apply Hnone.
Qed.

(** Exactly the new reference is there in addition. *)
Lemma added_has_ref l l' ty inv x : added_to l l' ->
  has_ref l' ty inv x <->
  has_ref l ty inv x \/ (nodeid_eqb ty type = true /\ inv = inverse /\ nodeid_eqb x id = true).
Proof.
  assert (Hx : nodeid_eqb (eni_nodeId target) x = nodeid_eqb x id).
  { rewrite UA_NodeId_equal_sym; apply nodeid_eqb_same, target_same_id. }
  intros Hadd; destruct Hadd as [i rk Hi Hinv Hty|Hnone].
  - assert (Hlt : (i < length l)%nat) by (by eapply lookup_lt_Some); split.
    + intros (rk' & t & Hrk' & G1 & G2 & Ht & G3).
      apply list_elem_of_lookup in Hrk' as [k Hk]; apply list_lookup_insert_Some in Hk as [(-> & <- & _)|[Hne Hk]].
      * cbn [rk_isInverse rk_referenceTypeId targetIds] in *; apply elem_of_app in Ht as [Ht|Ht%list_elem_of_singleton].
        -- left; exists rk, t; split_and!; try done; by eapply list_elem_of_lookup_2.
        -- subst t; right; split_and!; [by rewrite <- (nodeid_eqb_l (rk_referenceTypeId rk))|congruence|by rewrite <- Hx].
      * left; exists rk', t; split_and!; try done; by eapply list_elem_of_lookup_2.
    + intros [(rk' & t & Hrk' & G1 & G2 & Ht & G3)|(G1 & -> & G3)].
      * apply list_elem_of_lookup in Hrk' as [k Hk]; destruct (decide (k = i)) as [->|Hne].
        -- assert (rk' = rk) as -> by congruence; eexists _, t; split.
           { eapply (list_elem_of_lookup_2 _ i); by apply list_lookup_insert_eq. }
           simpl; split_and!; try done; apply elem_of_app; by left.
        -- exists rk', t; split_and!; try done; eapply (list_elem_of_lookup_2 _ k).
           by rewrite list_lookup_insert_ne.
      * eexists _, target; split; [eapply (list_elem_of_lookup_2 _ i); by apply list_lookup_insert_eq|].
        cbn [rk_isInverse rk_referenceTypeId targetIds]; split_and!; [done|by rewrite (nodeid_eqb_same ty type)| |by rewrite Hx].
        apply elem_of_app; right; by left.
  - split.
    + intros (rk' & t & Hrk' & G1 & G2 & Ht & G3); apply elem_of_app in Hrk' as [Hrk'|Hrk'%list_elem_of_singleton].
      * left; by exists rk', t.
      * subst rk'; cbn [rk_isInverse rk_referenceTypeId targetIds] in *; apply list_elem_of_singleton in Ht; subst t; right.
        split_and!; [rewrite <- (nodeid_eqb_l (copied_id type)) by done|done|by rewrite <- Hx].
        by apply copied_id_same.
    + intros [(rk' & t & Hrk' & G1 & G2 & Ht & G3)|(G1 & -> & G3)].
      * exists rk', t; split; [apply elem_of_app; by left|done].
      * eexists _, target; split; [apply elem_of_app; right; by left|].
        cbn [rk_isInverse rk_referenceTypeId targetIds]; split_and!; [done| |by left|by rewrite Hx].
        rewrite (nodeid_eqb_same ty type) by done; by apply copied_id_same.
Qed.

(** Deleting what was just added gives the list back. *)
Lemma added_undone n l del : kinds_wf (references n) -> ~ has_ref (references n) type inverse id ->
  added_to (references n) l ->
  dr_referenceTypeId del = type -> dr_isForward del = ar_isForward item ->
  dr_targetNodeId del = ar_targetNodeId item ->
  UA_Node_deleteReference (set_references n l) del = (GOOD, n).
Proof.
  intros [Hwf Hu] Hno Hadd D1 D2 D3.
  assert (Htgt : refers_to (eni_nodeId (dr_targetNodeId del)) target = true).
  { unfold refers_to; fold (nodeid_eqb (eni_nodeId (dr_targetNodeId del)) (eni_nodeId target)).
    rewrite D3, UA_NodeId_equal_sym; apply target_same_id. }
  assert (Hdel : forall rk, deletes_from del rk = true <-> rk_isInverse rk = inverse /\
            nodeid_eqb (rk_referenceTypeId rk) type = true /\
            exists t, t ∈ targetIds rk /\ nodeid_eqb (eni_nodeId t) id = true).
  { intros rk; rewrite deletes_from_spec, D1, D2, D3; done. }
  unfold UA_Node_deleteReference; cbn [references set_references].
  destruct Hadd as [i rk Hi Hinv Hty|Hnone].
  - set (rk' := mkKind _ _ _); assert (Hlt : (i < length (references n))%nat) by (by eapply lookup_lt_Some).
    assert (Hi' : <[i := rk']> (references n) !! i = Some rk') by (by apply list_lookup_insert_eq).
    rewrite (find_last_unique _ _ i rk'); [|intros j b Hj Hb|done|].
    2: { destruct (decide (j = i)) as [|Hne]; [done|]; rewrite list_lookup_insert_ne in Hj by done.
         apply Hdel in Hb as (B1 & B2 & _); apply (Hu j i b rk Hj Hi); unfold kind_same.
         rewrite B1, Hinv, eqb_reflx; simpl; by rewrite (nodeid_eqb_l _ type), UA_NodeId_equal_sym. }
    2: { apply Hdel; split; [done|]; split; [done|]; exists target; split; [|apply target_same_id].
         simpl; apply elem_of_app; right; by left. }
    rewrite Hi'; cbn [targetIds rk']; rewrite find_last_snoc by done; rewrite remove_at_snoc.
    rewrite list_insert_ge by lia.
    assert (Hne : targetIds rk <> [])
      by (rewrite Forall_forall in Hwf; apply kw_used, Hwf; by eapply list_elem_of_lookup_2).
    destruct (targetIds rk) as [|t ts] eqn:Hts; [done|]; f_equal; unfold rk'; cbn [rk_referenceTypeId rk_isInverse].
    rewrite list_insert_insert_eq, (list_insert_id (references n) i (mkKind _ _ (t :: ts)));
      [by destruct n|].
    rewrite Hi; destruct rk; simpl in *; by rewrite Hts.
  - rewrite find_last_snoc.
    2: { apply Hdel; split; [done|]; split; [by apply copied_id_same|]; exists target; split; [by left|apply target_same_id]. }
    rewrite lookup_app_r, Nat.sub_diag by lia; cbn [lookup list_lookup targetIds find_last].
    rewrite Htgt; cbn; rewrite remove_at_snoc, list_insert_ge by lia; by destruct n.
Qed.
End Add.
