(* ===== verification/ReferencesMutual.v ===== *)
(** * References between nodes

    The invariant of the address space, and that references are mutual: a
    reference leads to a stored node which has the reference back.  Adding a
    reference adds both directions or changes nothing; deleting one deletes
    both directions. *)

From Stdlib Require Import ZArith Lia.
From stdpp Require Import base list numbers tactics sets gmap.
From S2P Require Import Prelude StateMonad UaTypes NodeStore AddressSpace NodeTree AddressLogic Browse BrowseCorrect NodeManagement NodeReferences.

(** ** The invariant *)

Record space_ok (s : AddressSpace) : Prop := mkSpaceOk {
  so_nodup : NoDup (stored s);
  so_alloc : forall p, p ∈ stored s \/ p ∈ held s -> is_Some (nodes s !! p);
  so_leak : forall p n, nodes s !! p = Some n -> p ∈ stored s \/ p ∈ held s;
  so_wf : forall p n, p ∈ stored s -> nodes s !! p = Some n -> node_wf n;
  so_ids : forall p q n m, p ∈ stored s -> q ∈ stored s -> nodes s !! p = Some n ->
    nodes s !! q = Some m -> nodeid_eqb (nodeId n) (nodeId m) = true -> p = q
}.

Lemma space_readable s : space_ok s -> readable s.
Proof.
  intros [H1 H2 H3 H4 H5]; split.
  - intros p Hp; apply H2; by left.
  - intros p n Hp Hn; destruct (H4 p n Hp Hn) as [_ [Hk _]]; unfold kinds_used.
    eapply Forall_impl; [exact Hk|]; intros rk Hrk; apply Hrk.
  - intros p n Hp Hn; destruct (H4 p n Hp Hn) as [Hc [Hk _]]; split; [done|].
    eapply Forall_impl; [exact Hk|]; intros rk Hrk; apply Hrk.
Qed.

Lemma space_allocated s : space_ok s -> stored_allocated s.
Proof. intros H; apply (space_readable s H). Qed.

Lemma space_ok_same s s' : unchanged s s' -> space_ok s -> space_ok s'.
Proof.
  destruct s, s'; intros ([H1 H2] & H3 & H4) [G1 G2 G3 G4 G5]; simpl in *; subst; by split.
Qed.

(** The identifier of a node. *)
Definition id_at (s : AddressSpace) (p : nat) : UA_NodeId :=
  match nodes s !! p with Some n => nodeId n | None => UA_NODEID_NULL end.

(** The node has a reference. *)
Definition ref (s : AddressSpace) (p : nat) (type : UA_NodeId) (inverse : bool) (x : UA_NodeId) : Prop :=
  exists n, nodes s !! p = Some n /\ has_ref (references n) type inverse x.

Definition mutual (s : AddressSpace) : Prop :=
  forall p type inverse x, p ∈ stored s -> ref s p type inverse x ->
    exists q, find_node s x = Some q /\ ref s q type (negb inverse) (id_at s p).

Lemma ref_same s p ty ty' inv x x' : nodeid_eqb ty ty' = true -> nodeid_eqb x x' = true ->
  ref s p ty inv x -> ref s p ty' inv x'.
Proof. intros H1 H2 (n & Hn & H); exists n; split; [done|]; by eapply has_ref_same. Qed.

Lemma find_node_id s x p : find_node s x = Some p -> nodeid_eqb (id_at s p) x = true.
Proof.
  intros H; apply find_node_some in H as [_ H]; unfold has_id in H; unfold id_at.
  by destruct (nodes s !! p).
Qed.

Lemma find_node_stored s x p : find_node s x = Some p -> p ∈ stored s.
Proof. by intros [H _]%find_node_some. Qed.

(** A stored node is found under its name. *)
Lemma find_node_at s p x : space_ok s -> p ∈ stored s -> nodeid_eqb (id_at s p) x = true ->
  find_node s x = Some p.
Proof.
  intros Hok Hp Hx; destruct (so_alloc s Hok p (or_introl Hp)) as [n Hn].
  unfold id_at in Hx; rewrite Hn in Hx.
  destruct (find_node s x) as [q|] eqn:Hq.
  - destruct (find_node_some _ _ _ Hq) as [Hsq Hidq]; destruct (so_alloc s Hok q (or_introl Hsq)) as [m Hm].
    f_equal; symmetry; apply (so_ids s Hok p q n m); try done.
    unfold has_id in Hidq; rewrite Hm in Hidq; simpl in Hidq; fold (nodeid_eqb (nodeId m) x) in Hidq.
    eapply nodeid_eqb_trans; [done|]; by rewrite UA_NodeId_equal_sym.
  - exfalso; apply (find_node_none s x p Hq Hp); unfold has_id; by rewrite Hn.
Qed.

Lemma id_at_copyable s p : space_ok s -> p ∈ stored s -> copyable (id_at s p).
Proof.
  intros Hok Hp; destruct (so_alloc s Hok p (or_introl Hp)) as [n Hn]; unfold id_at; rewrite Hn.
  by eapply (so_wf s Hok).
Qed.

(** ** Editing *)

(** Another state whose nodes differ in their references only. *)
Definition edited (s s' : AddressSpace) : Prop :=
  stored s' = stored s /\ held s' = held s /\ destroyed s' = destroyed s /\
  (forall p, nodes s' !! p = None <-> nodes s !! p = None) /\
  (forall p n n', nodes s !! p = Some n -> nodes s' !! p = Some n' -> n' = set_references n (references n')).

#[export] Instance edited_preorder : PreOrder edited.
Proof.
  split.
  - intros s; unfold edited; split_and!; try done; intros p n n' -> [= ->]; by destruct n'.
  - intros s1 s2 s3 (A1 & A2 & A3 & A4 & A5) (B1 & B2 & B3 & B4 & B5); unfold edited; split_and!.
    1-3: by etransitivity.
    + intros p; by rewrite B4, A4.
    + intros p n1 n3 H1 H3; destruct (nodes s2 !! p) as [n2|] eqn:H2.
      * rewrite (B5 p n2 n3), (A5 p n1 n2) by done; done.
      * by apply B4 in H2; rewrite H2 in H3.
Qed.

Lemma unchanged_edited s s' : unchanged s s' -> edited s s'.
Proof.
  intros ([H1 H2] & H3 & H4); unfold edited; rewrite H1; split_and!; try done.
  intros p n n' -> [= ->]; by destruct n'.
Qed.

Lemma edited_id s s' p : edited s s' -> id_at s' p = id_at s p.
Proof.
  intros (_ & _ & _ & H1 & H2); unfold id_at; destruct (nodes s !! p) as [n|] eqn:Hn.
  - destruct (nodes s' !! p) as [n'|] eqn:Hn'; [by rewrite (H2 p n n')|apply H1 in Hn'; congruence].
  - by rewrite (proj2 (H1 p)).
Qed.

Lemma edited_find s s' x : edited s s' -> find_node s' x = find_node s x.
Proof.
  intros Hed; pose proof Hed as (H0 & _ & _ & H1 & H2); unfold find_node; rewrite H0; f_equal; apply list_find_ext.
  intros p; unfold has_id; destruct (nodes s !! p) as [n|] eqn:Hn.
  - destruct (nodes s' !! p) as [n'|] eqn:Hn'; [|apply H1 in Hn'; congruence].
    by rewrite (H2 p n n').
  - by rewrite (proj2 (H1 p)).
Qed.

(** [p] gets new references. *)
Definition updated (p : nat) (n : UA_Node) (s : AddressSpace) : AddressSpace :=
  set_nodes s (<[p := n]> (nodes s)) (stored s) (held s).

Lemma updated_edited p n l k s : nodes s !! p = Some n ->
  edited s (set_allocs (updated p (set_references n l) s) k).
Proof.
  intros Hn; unfold edited, updated; simpl; split_and!; try done.
  - intros q; destruct (decide (q = p)) as [->|]; [rewrite lookup_insert_eq, Hn; done|by rewrite lookup_insert_ne].
  - intros q m m' Hm; destruct (decide (q = p)) as [->|].
    + rewrite lookup_insert_eq; injection 1 as <-; assert (m = n) as -> by congruence; by destruct n.
    + rewrite lookup_insert_ne by done; intros Hm'; assert (m' = m) as -> by congruence; by destruct m.
Qed.

Lemma edited_ok s s' : space_ok s -> edited s s' ->
  (forall p n, p ∈ stored s -> nodes s' !! p = Some n -> kinds_wf (references n)) -> space_ok s'.
Proof.
  intros [H1 H2 H3 H4 H5] (A1 & A2 & A3 & A4 & A5) Hk.
  assert (Hback : forall p n, nodes s' !! p = Some n -> exists m, nodes s !! p = Some m /\
            nodeId n = nodeId m).
  { intros p n Hn; destruct (nodes s !! p) as [m|] eqn:Hm; [|apply A4 in Hm; congruence].
    exists m; split; [done|]; by rewrite (A5 p m n). }
  split; rewrite ?A1, ?A2; try done.
  - intros p Hp; destruct (nodes s' !! p) eqn:Hn; [done|]; apply A4 in Hn.
    destruct (H2 p Hp) as [n Hn']; congruence.
  - intros p n (m & Hm & _)%Hback; by eapply H3.
  - intros p n Hp Hn; destruct (Hback p n Hn) as (m & Hm & Hid).
    split; [rewrite Hid; by eapply H4|by eapply (Hk p)].
  - intros p q n m Hp Hq Hn Hm; destruct (Hback p n Hn) as (n0 & Hn0 & ->);
      destruct (Hback q m Hm) as (m0 & Hm0 & ->); by apply (H5 p q n0 m0).
Qed.

Lemma updated_ref p n l k s q ty inv x : nodes s !! p = Some n ->
  ref (set_allocs (updated p (set_references n l) s) k) q ty inv x <->
  if decide (q = p) then has_ref l ty inv x else ref s q ty inv x.
Proof.
  intros Hn; unfold ref, updated; simpl; destruct (decide (q = p)) as [->|].
  - rewrite lookup_insert_eq; split; [by intros (m & [= <-] & H)|]; intros H; by eexists.
  - by rewrite lookup_insert_ne.
Qed.

Lemma updated_ok p n l k s : space_ok s -> nodes s !! p = Some n -> (p ∈ stored s -> kinds_wf l) ->
  space_ok (set_allocs (updated p (set_references n l) s) k).
Proof.
  intros Hok Hn Hl; apply (edited_ok s); [done|by apply updated_edited|].
  intros q m Hq; unfold updated; simpl; destruct (decide (q = p)) as [->|].
  - rewrite lookup_insert_eq; injection 1 as <-; by apply Hl.
  - rewrite lookup_insert_ne by done; intros Hm; by eapply (so_wf s Hok).
Qed.

Lemma wp_editNode id (callback : UA_Node -> M (status * UA_Node)) (R : status -> AddressSpace -> Prop) s :
  space_ok s -> (find_node s id = None -> R BADNODEIDUNKNOWN s) ->
  (forall p n, find_node s id = Some p -> nodes s !! p = Some n ->
     exists Q : status * UA_Node -> Prop, quiet (callback n) (pushed p s) Q /\
       forall ret n' k, Q (ret, n') -> R ret (set_allocs (updated p n' s) k)) ->
  wp (UA_Server_editNode id callback) R s.
Proof.
  intros Hok H0 H1; unfold wp, UA_Server_editNode; destruct (find_node s id) as [p|] eqn:Hp.
  - pose proof (find_node_stored _ _ _ Hp) as Hst; destruct (so_alloc s Hok p (or_introl Hst)) as [n Hn].
    destruct (H1 p n eq_refl Hn) as (Q & (r & k & Er & HQ) & HR); destruct r as [ret n'].
    unfold mbind at 1, M_bind at 1; rewrite (get_some s id p) by done.
    unfold mbind at 1, M_bind at 1, node_at, the; change (nodes (pushed p s)) with (nodes s); rewrite Hn.
    cbn [mret M_ret]; unfold mbind at 1, M_bind at 1; rewrite Er.
    assert (Ew : write_node p n' (set_allocs (pushed p s) k) =
                 Some (tt, pushed p (set_allocs (updated p n' s) k))).
    { unfold write_node; change (nodes (set_allocs (pushed p s) k)) with (nodes s); by rewrite Hn. }
    unfold mbind at 1, M_bind at 1; rewrite Ew.
    unfold mbind at 1, M_bind at 1; rewrite release_pushed by done; by apply HR.
  - unfold mbind at 1, M_bind at 1; rewrite get_none by done; by apply H0.
Qed.

(** ** Deleting a reference in one node *)

(** The node named [src] loses a reference, if it has it. *)
Definition ref_deleted (s s' : AddressSpace) (src type : UA_NodeId) (inverse : bool) (x : UA_NodeId) : Prop :=
  edited s s' /\ space_ok s' /\
  (forall p ty inv y, ref s' p ty inv y <-> ref s p ty inv y /\
     ~ (find_node s src = Some p /\ nodeid_eqb ty type = true /\ inv = inverse /\ nodeid_eqb y x = true)).

Lemma wp_delete_one item s : space_ok s ->
  wp (UA_Server_editNode (dr_sourceNodeId item) (deleteOneWayReference item)) (fun ret s' =>
    ref_deleted s s' (dr_sourceNodeId item) (dr_referenceTypeId item) (negb (dr_isForward item))
      (eni_nodeId (dr_targetNodeId item)) /\
    (forall p, find_node s (dr_sourceNodeId item) <> Some p -> nodes s' !! p = nodes s !! p) /\
    (forall p n n', find_node s (dr_sourceNodeId item) = Some p -> nodes s !! p = Some n ->
       nodes s' !! p = Some n' -> n' = n \/ deleted_from item (references n) (references n')) /\
    (ret = GOOD <-> exists p, find_node s (dr_sourceNodeId item) = Some p /\
       ref s p (dr_referenceTypeId item) (negb (dr_isForward item)) (eni_nodeId (dr_targetNodeId item))) /\
    (ret <> GOOD -> nodes s' = nodes s)) s.
Proof.
  intros Hok; apply wp_editNode; [done|..].
  - intros Hnone; split; [|split; [done|split; [by rewrite Hnone|split; [split; [done|]|done]]]].
    + split; [reflexivity|]; split; [done|]; intros p ty inv y; rewrite Hnone.
      split; [intros H; split; [done|by intros [? _]]|by intros [? _]].
    + rewrite Hnone; by intros (? & ? & _).
  - intros p n Hp Hn; exists (eq (UA_Node_deleteReference n item)); split; [by apply quiet_ret|].
    intros ret n' k Hret; pose proof (find_node_stored _ _ _ Hp) as Hst.
    destruct (so_wf s Hok p n Hst Hn) as [_ Hwf].
    destruct (deleteReference_cases item n) as [((l & Hl & Hdel) & Hhas)|[Hl Hno]]; rewrite Hl in Hret;
      injection Hret as <- <-.
    + pose proof (deleted_wf _ _ _ Hwf Hdel) as Hwf'.
      split; [|split; [|split; [|split; [split; [|done]|done]]]].
      * split; [by apply updated_edited|]; split; [by apply updated_ok|].
        intros q ty inv y; rewrite updated_ref by done; destruct (decide (q = p)) as [->|Hne].
        -- rewrite (deleted_has_ref item _ _ ty inv y Hwf Hdel); unfold ref; split.
           ++ intros [H1 H2]; split; [by exists n|]; by intros (_ & ?).
           ++ intros [(m & Hm & H1) H2]; assert (m = n) as -> by congruence; split; [done|].
              intros H3; by apply H2.
        -- split; [intros H; split; [done|]; intros (H1 & _); congruence|by intros [? _]].
      * intros q Hq; unfold updated; simpl; rewrite lookup_insert_ne; [done|congruence].
      * intros q m m' Hq Hm Hm'; assert (q = p) as -> by congruence; assert (m = n) as -> by congruence.
        unfold updated in Hm'; simpl in Hm'; rewrite lookup_insert_eq in Hm'; injection Hm' as <-; by right.
      * intros _; exists p; split; [done|by exists n].
    + assert (Hid : updated p n s = s) by (unfold updated; rewrite insert_id by done; by destruct s).
      rewrite Hid; split; [|split; [done|split; [|split; [split; [done|]|done]]]].
      * split; [by apply unchanged_edited|]; split; [by apply (space_ok_same s); [apply unchanged_allocs|]|].
        intros q ty inv y; change (ref (set_allocs s k) q ty inv y) with (ref s q ty inv y).
        split; [|by intros [? _]]; intros H; split; [done|]; intros (H1 & H2 & -> & H4).
        assert (q = p) as -> by congruence; destruct H as (m & Hm & H); assert (m = n) as -> by congruence.
        apply Hno; by eapply has_ref_same.
      * intros q m m' Hq Hm Hm'; left; change (nodes s !! q = Some m') in Hm'; congruence.
      * intros (q & Hq & m & Hm & Hr); assert (q = p) as -> by congruence; assert (m = n) as -> by congruence.
        by contradict Hno.
Qed.

(** Names of the same stored node are equal. *)
Lemma same_name s p x y : find_node s x = Some p -> nodeid_eqb (id_at s p) y = true -> nodeid_eqb x y = true.
Proof.
  intros Hp Hy; apply find_node_id in Hp; eapply nodeid_eqb_trans; [|exact Hy].
  by rewrite UA_NodeId_equal_sym.
Qed.

Lemma found_name s p x y : find_node s x = Some p -> find_node s y = Some p -> nodeid_eqb x y = true.
Proof. intros Hx Hy; by apply (same_name s p), find_node_id. Qed.

(** Both directions of a reference are deleted. *)
Lemma mutual_deleted s s1 s2 src tgt type inv p : space_ok s -> mutual s -> find_node s src = Some p ->
  ref_deleted s s1 src type inv tgt -> ref_deleted s1 s2 tgt type (negb inv) src -> mutual s2.
Proof.
  intros Hok Hm Hp (Ed1 & Ok1 & R1) (Ed2 & Ok2 & R2) r ty i x Hr Href.
  assert (Ed : edited s s2) by by etransitivity.
  rewrite (edited_id s s2), (edited_find s s2) by done.
  pose proof Ed as (Est & _); rewrite Est in Hr.
  apply R2 in Href as [Href N2]; apply R1 in Href as [Href N1]; rewrite (edited_find s s1) in N2 by done.
  destruct (Hm r ty i x Hr Href) as (q & Hq & Hback); exists q; split; [done|].
  apply R2; split; [apply R1; split; [done|]|rewrite (edited_find s s1) by done].
  - intros (G1 & G2 & G3 & G4); apply N2; split_and!; [by apply find_node_at|done|by destruct i, inv|].
    by apply (found_name s q).
  - intros (G1 & G2 & G3 & G4); apply N1; split_and!; [by apply find_node_at|done|by destruct i, inv|].
    by apply (found_name s q).
Qed.

Section Operations.
Context {E : Env}.

(** DeleteReferences of both directions. *)
Lemma wp_deleteReference item s : space_ok s -> mutual s ->
  deleteBidirectional item = true -> eni_serverIndex (dr_targetNodeId item) = 0 ->
  let inv := negb (dr_isForward item) in
  let src := dr_sourceNodeId item in let tgt := eni_nodeId (dr_targetNodeId item) in
  wp (Operation_deleteReference item) (fun ret s' =>
    edited s s' /\ space_ok s' /\ mutual s' /\ (ret <> GOOD -> nodes s' = nodes s) /\
    (ret = GOOD -> exists p q, find_node s src = Some p /\ find_node s tgt = Some q /\
       ref s p (dr_referenceTypeId item) inv tgt /\
       forall r ty i x, ref s' r ty i x <-> ref s r ty i x /\
         ~ (r = p /\ nodeid_eqb ty (dr_referenceTypeId item) = true /\ i = inv /\ nodeid_eqb x tgt = true) /\
         ~ (r = q /\ nodeid_eqb ty (dr_referenceTypeId item) = true /\ i = negb inv /\ nodeid_eqb x src = true))) s.
Proof.
  intros Hok Hm Hbi Hloc inv src tgt; unfold Operation_deleteReference.
  destruct (denied _ _); [apply wp_ret; by split_and!|].
  apply wp_bind; eapply wp_mono; [by apply wp_delete_one|].
  intros ret s1 (Hdel & _ & _ & Hret & Hsame); destruct (bad ret) eqn:Hbad.
  { assert (Hne : ret <> GOOD) by (unfold bad in Hbad; by zbool).
    apply wp_ret; pose proof Hdel as (Ed & Ok1 & R1); split_and!; [done|done| |by intros _; apply Hsame|done].
    assert (Hnone : forall p, find_node s src = Some p -> ~ ref s p (dr_referenceTypeId item) inv tgt)
      by (intros p Hp H; apply Hne, Hret; by exists p).
    assert (Heq : forall p ty i y, ref s1 p ty i y <-> ref s p ty i y).
    { intros p ty i y; rewrite R1; split; [by intros [? _]|]; intros H; split; [done|].
      intros (H1 & H2 & -> & H4); apply (Hnone p H1); by eapply ref_same. }
    intros p ty i x Hp; rewrite Heq, (edited_id s s1), (edited_find s s1) by done; intros Href.
    destruct Ed as (Est & _); rewrite Est in Hp; destruct (Hm p ty i x Hp Href) as (q & Hq & Hback).
    exists q; split; [done|]; by apply Heq. }
  apply bad_false in Hbad as ->; rewrite Hbi, Hloc; cbn [negb Z.eqb orb].
  destruct (proj1 Hret eq_refl) as (p & Hp & Href); clear Hret Hsame.
  pose proof Hdel as (Ed & Ok1 & R1).
  destruct (Hm p _ _ _ (find_node_stored _ _ _ Hp) Href) as (q & Hq & Hback).
  eapply wp_mono; [by apply (wp_delete_one (second_delete item) s1)|].
  intros ret s2 (Hdel2 & _ & _ & Hret2 & _); cbn [second_delete dr_sourceNodeId dr_referenceTypeId
    dr_isForward dr_targetNodeId local_id eni_nodeId] in *.
  pose proof Hdel2 as (Ed2 & Ok2 & R2).
  assert (Hgood : ret = GOOD).
  { apply Hret2; exists q; rewrite (edited_find s s1) by done; split; [done|].
    apply R1; split; [|intros (_ & _ & H & _); by destruct (dr_isForward item)].
    eapply ref_same; [| |exact Hback]; [|by apply find_node_id].
    by destruct Href as (n & _ & rk & t & _ & _ & H & _); eapply nodeid_eqb_trans;
      [rewrite UA_NodeId_equal_sym|]. }
  split; [by etransitivity|]; split; [done|]; split; [by apply (mutual_deleted s s1 s2 src tgt (dr_referenceTypeId item) inv p)|].
  split; [done|]; intros _; exists p, q; split_and!; [done..|].
  intros r ty i x; rewrite R2, R1, (edited_find s s1) by done; split.
  - intros [[H1 H2] H3]; split_and!; [done|intros (-> & ?); by apply H2|intros (-> & ?); by apply H3].
  - intros (H1 & H2 & H3); split; [split; [done|]|]; [intros (G & ?); apply H2|intros (G & ?); apply H3];
      (split; [|done]); congruence.
Qed.

(** A reference is added in one node. *)
Lemma wp_add_one item s (R : status -> AddressSpace -> Prop) : space_ok s ->
  copyable (ar_referenceTypeId item) -> local_target (ar_targetNodeId item) ->
  (find_node s (ar_sourceNodeId item) = None -> R BADNODEIDUNKNOWN s) ->
  (forall p n, find_node s (ar_sourceNodeId item) = Some p -> nodes s !! p = Some n ->
     let type := ar_referenceTypeId item in let inv := negb (ar_isForward item) in
     let tgt := eni_nodeId (ar_targetNodeId item) in
     (ref s p type inv tgt -> forall k, R BADDUPLICATEREFERENCENOTALLOWED (set_allocs s k)) /\
     (~ ref s p type inv tgt ->
        (forall k, R BADOUTOFMEMORY (set_allocs s k)) /\
        (forall l k, added_to item (references n) l -> R GOOD (set_allocs (updated p (set_references n l) s) k)))) ->
  wp (UA_Server_editNode (ar_sourceNodeId item) (addOneWayReference item)) R s.
Proof.
  intros Hok Hty Hloc H0 H1; apply wp_editNode; [done|done|]; intros p n Hp Hn.
  pose proof (find_node_stored _ _ _ Hp) as Hst; destruct (so_wf s Hok p n Hst Hn) as [_ Hwf].
  eexists; split; [by apply quiet_addReference|]; intros ret n' k Hr; destruct (H1 p n Hp Hn) as [Hdup Hnew].
  assert (Href : forall ty i x, ref s p ty i x <-> has_ref (references n) ty i x).
  { intros ty i x; split; [intros (m & Hm & H); congruence|by exists n]. }
  assert (Hid : updated p n s = s) by (unfold updated; rewrite insert_id by done; by destruct s).
  destruct Hr as [[Hhas [= -> ->]]|[Hno [(l & [= -> ->] & Hadd)|[= -> ->]]]].
  - rewrite Hid; by apply Hdup, Href.
  - apply Hnew; [by rewrite Href|done].
  - rewrite Hid; apply Hnew; by rewrite Href.
Qed.

(** Nothing happened but allocations. *)
Lemma nodes_same_edited s s' : edited s s' -> nodes s' = nodes s -> space_ok s -> mutual s ->
  space_ok s' /\ mutual s'.
Proof.
  intros (E1 & E2 & E3 & _) Hn Hok Hm; assert (Hun : unchanged s s') by by split_and!.
  split; [by apply (space_ok_same s)|].
  destruct s, s'; simpl in *; by subst.
Qed.

Lemma found_copyable s x p : find_node s x = Some p -> copyable x.
Proof. intros H; apply copyable_refl; by eapply found_name. Qed.

(** The first direction is deleted again. *)
Lemma wp_undo item n l p k s : let s1 := set_allocs (updated p (set_references n l) s) k in
  space_ok s -> space_ok s1 -> find_node s (ar_sourceNodeId item) = Some p -> nodes s !! p = Some n ->
  copyable (ar_referenceTypeId item) -> local_target (ar_targetNodeId item) ->
  ~ has_ref (references n) (ar_referenceTypeId item) (negb (ar_isForward item)) (eni_nodeId (ar_targetNodeId item)) ->
  added_to item (references n) l ->
  wp (UA_Server_editNode (ar_sourceNodeId item) (deleteOneWayReference (undo_add item)))
    (fun _ s' => edited s s' /\ nodes s' = nodes s) s1.
Proof.
  intros s1 Hok Hok1 Hp Hn Hty Hloc Hno Hadd.
  assert (Ed : edited s s1) by by apply updated_edited.
  apply wp_editNode; [done|rewrite (edited_find s s1) by done; congruence|].
  intros q m Hq Hm; rewrite (edited_find s s1) in Hq by done; assert (q = p) as -> by congruence.
  unfold s1, updated in Hm; simpl in Hm; rewrite lookup_insert_eq in Hm; injection Hm as <-.
  destruct (so_wf s Hok p n (find_node_stored _ _ _ Hp) Hn) as [_ Hwf].
  exists (eq (GOOD, n)); split.
  - unfold deleteOneWayReference; apply quiet_ret; symmetry; by apply (added_undone item).
  - intros ret n' k' [= <- <-].
    assert (Hnodes : nodes (set_allocs (updated p n s1) k') = nodes s).
    { unfold updated, s1; simpl; by rewrite insert_insert_eq, insert_id. }
    split; [|done]; apply unchanged_edited; by split_and!.
Qed.

(** The outcome of AddReferences: both directions are there, or nothing has changed. *)
Definition add_outcome (item : UA_AddReferencesItem) (s : AddressSpace) (ret : status) (s' : AddressSpace) : Prop :=
  let type := ar_referenceTypeId item in let inv := negb (ar_isForward item) in
  let src := ar_sourceNodeId item in let tgt := eni_nodeId (ar_targetNodeId item) in
  edited s s' /\ space_ok s' /\ mutual s' /\ (ret <> GOOD -> nodes s' = nodes s) /\
  (ret = GOOD -> exists p q, find_node s src = Some p /\ find_node s tgt = Some q /\
     ~ ref s p type inv tgt /\
     forall r ty i x, ref s' r ty i x <-> ref s r ty i x \/
       (r = p /\ nodeid_eqb ty type = true /\ i = inv /\ nodeid_eqb x tgt = true) \/
       (r = q /\ nodeid_eqb ty type = true /\ i = negb inv /\ nodeid_eqb x src = true)).

Lemma add_nothing item s ret s' : space_ok s -> mutual s -> ret <> GOOD -> edited s s' ->
  nodes s' = nodes s -> add_outcome item s ret s'.
Proof. intros Hok Hm Hne Hed Hn; destruct (nodes_same_edited s s' Hed Hn Hok Hm); by split_and!. Qed.

(** The reference back. *)
Lemma mutual_back s p q type inv src tgt : mutual s -> find_node s src = Some p -> find_node s tgt = Some q ->
  ref s p type inv tgt -> ref s q type (negb inv) src.
Proof.
  intros Hm Hp Hq Href; destruct (Hm p _ _ _ (find_node_stored _ _ _ Hp) Href) as (q' & Hq' & Hback).
  assert (q' = q) as -> by congruence; destruct Href as (n & _ & rk & t & _ & _ & H & _).
  eapply ref_same; [|by apply find_node_id|exact Hback].
  eapply nodeid_eqb_trans; [|exact H]; by rewrite UA_NodeId_equal_sym.
Qed.

Section AddBoth.
Context (item : UA_AddReferencesItem) (s : AddressSpace) (Hok : space_ok s) (Hm : mutual s).
Context (Hty : copyable (ar_referenceTypeId item)) (Hloc : local_target (ar_targetNodeId item)).
Context (p : nat) (n : UA_Node) (Hp : find_node s (ar_sourceNodeId item) = Some p) (Hn : nodes s !! p = Some n).
Let type := ar_referenceTypeId item.
Let inv := negb (ar_isForward item).
Let src := ar_sourceNodeId item.
Let tgt := eni_nodeId (ar_targetNodeId item).

Lemma second_item : copyable (ar_referenceTypeId (second_add item)) /\
  local_target (ar_targetNodeId (second_add item)).
Proof. split; [done|]; by apply local_target_id, (found_copyable s _ p). Qed.

(** The first direction was there already. *)
Lemma wp_second_exists k : ref s p type inv tgt ->
  wp (UA_Server_editNode (ar_sourceNodeId (second_add item)) (addOneWayReference (second_add item)))
    (fun ret s' => ret = BADDUPLICATEREFERENCENOTALLOWED /\ edited s s' /\ nodes s' = nodes s) (set_allocs s k).
Proof.
  intros Href; destruct second_item as [Hty2 Hloc2].
  destruct (Hm p _ _ _ (find_node_stored _ _ _ Hp) Href) as (q & Hq & _).
  apply wp_add_one; [exact (space_ok_same s _ (unchanged_allocs s k) Hok)|done|done|..].
  - intros Hnone; change (find_node s tgt = None) in Hnone; congruence.
  - intros q' m Hq' _; change (find_node s tgt = Some q') in Hq'; assert (q' = q) as -> by congruence.
    split; [intros _ k'; split; [done|]; split; [exact (unchanged_edited _ _ (unchanged_allocs s k'))|done]|].
    intros Hno; exfalso; apply Hno; change (ref s q type (negb inv) src).
    by apply (mutual_back s p q type inv src tgt).
Qed.

Context (l : list UA_NodeReferenceKind) (k : nat) (Hno : ~ ref s p type inv tgt)
  (Hadd : added_to item (references n) l).
Let s1 := set_allocs (updated p (set_references n l) s) k.

Lemma first_added : edited s s1 /\ space_ok s1 /\
  forall r ty i x, ref s1 r ty i x <-> ref s r ty i x \/
    (r = p /\ nodeid_eqb ty type = true /\ i = inv /\ nodeid_eqb x tgt = true).
Proof.
  pose proof (find_node_stored _ _ _ Hp) as Hst; destruct (so_wf s Hok p n Hst Hn) as [_ Hwf].
  assert (Hnol : ~ has_ref (references n) type inv tgt) by (intros H; apply Hno; by exists n).
  split; [by apply updated_edited|]; split; [apply updated_ok; [done|done|intros _; by eapply added_wf]|].
  intros r ty i x; unfold s1; rewrite updated_ref by done; destruct (decide (r = p)) as [->|Hne].
  - rewrite (added_has_ref item Hty Hloc _ _ _ _ _ Hadd); split.
    + intros [H|H]; [left; by exists n|by right].
    + intros [(m & Hm' & H)|(_ & H)]; [left; congruence|by right].
  - split; [by left|by intros [?|(? & _)]].
Qed.

(** The second direction is not there either. *)
Lemma second_missing q : find_node s tgt = Some q -> ~ ref s1 q type (ar_isForward item) src.
Proof.
  intros Hq Href; apply first_added in Href as [Href|(_ & _ & H & _)]; [|by unfold inv in H; destruct (ar_isForward item)].
  apply Hno; rewrite <- (negb_involutive (ar_isForward item)) in Href.
  apply (mutual_back s q p type _ tgt src) in Href; [|done..].
  by unfold inv; rewrite negb_involutive in Href.
Qed.

Lemma wp_second_added :
  wp (UA_Server_editNode (ar_sourceNodeId (second_add item)) (addOneWayReference (second_add item)))
    (fun ret s2 => (ret <> GOOD /\ ret <> BADDUPLICATEREFERENCENOTALLOWED /\ exists k', s2 = set_allocs s1 k') \/
                   (ret = GOOD /\ add_outcome item s GOOD s2)) s1.
Proof.
  destruct first_added as (Ed1 & Ok1 & R1); destruct second_item as [Hty2 Hloc2].
  apply wp_add_one; [done|done|done|..].
  - intros _; left; split; [done|]; split; [done|]; exists k; done.
  - intros q m Hq Hmq; change (find_node s1 tgt = Some q) in Hq.
    pose proof Hq as Hqs; rewrite (edited_find s s1) in Hqs by done.
    split; [intros Href; exfalso; apply (second_missing q Hqs); rewrite <- (negb_involutive (ar_isForward item)); exact Href|].
    intros Hno2; split; [intros k'; left; split; [done|]; split; [done|]; by exists k'|].
    intros l2 k2 Hadd2; right; split; [done|]; set (s2 := set_allocs _ k2).
    pose proof (find_node_stored _ _ _ Hq) as Hst; destruct (so_wf s1 Ok1 q m Hst Hmq) as [_ Hwf].
    assert (Ed2 : edited s1 s2) by by apply updated_edited.
    assert (R2 : forall r ty i x, ref s2 r ty i x <-> ref s1 r ty i x \/
              (r = q /\ nodeid_eqb ty type = true /\ i = negb inv /\ nodeid_eqb x src = true)).
    { intros r ty i x; unfold s2; rewrite updated_ref by done; destruct (decide (r = q)) as [->|Hne].
      - rewrite (added_has_ref (second_add item) Hty2 Hloc2 _ _ _ _ _ Hadd2); split.
        + intros [H|H]; [left; by exists m|by right].
        + intros [(m' & Hm' & H)|(_ & H)]; [left; congruence|by right].
      - split; [by left|by intros [?|(? & _)]]. }
    assert (Ok2 : space_ok s2).
    { apply updated_ok; [done|done|intros _; eapply (added_wf (second_add item)); [done..| |exact Hadd2]].
      intros H; apply Hno2; by exists m. }
    assert (Hall : forall r ty i x, ref s2 r ty i x <-> ref s r ty i x \/
       (r = p /\ nodeid_eqb ty type = true /\ i = inv /\ nodeid_eqb x tgt = true) \/
       (r = q /\ nodeid_eqb ty type = true /\ i = negb inv /\ nodeid_eqb x src = true)).
    { intros r ty i x; rewrite R2, R1; tauto. }
    assert (Ed : edited s s2) by by etransitivity.
    split; [done|]; split; [done|]; split; [|split; [done|]; intros _; by exists p, q].
    intros r ty i x Hr Href; rewrite (edited_find s s2), (edited_id s s2) by done.
    apply Hall in Href as [Href|[(-> & T & -> & Hx)|(-> & T & -> & Hx)]].
    + destruct Ed as (Est & _); rewrite Est in Hr; destruct (Hm r ty i x Hr Href) as (q' & Hq' & Hback).
      exists q'; split; [done|]; apply Hall; by left.
    + exists q; split; [by rewrite (find_node_same s x tgt)|]; apply Hall; right; right.
      split_and!; [done|done|done|by apply find_node_id].
    + exists p; split; [by rewrite (find_node_same s x src)|]; apply Hall; right; left.
      split_and!; [done|done|by rewrite negb_involutive|by apply find_node_id].
Qed.
End AddBoth.

(** AddReferences: both directions, or nothing. *)
Lemma wp_addReference item s : space_ok s -> mutual s ->
  copyable (ar_referenceTypeId item) -> local_target (ar_targetNodeId item) ->
  wp (Operation_addReference item) (add_outcome item s) s.
Proof.
  intros Hok Hm Hty Hloc.
  assert (Hal : forall k, edited s (set_allocs s k)) by (intros k; by apply unchanged_edited).
  unfold Operation_addReference; destruct (denied _ _); [apply wp_ret; by apply add_nothing|].
  destruct (0 <? _); [apply wp_ret; by apply add_nothing|].
  apply wp_bind, wp_add_one; [done|done|done|intros _; apply wp_ret; by apply add_nothing|].
  intros p n Hp Hn; cbv zeta; split.
  - intros Href k; change (BADDUPLICATEREFERENCENOTALLOWED =? BADDUPLICATEREFERENCENOTALLOWED) with true.
    cbn [andb negb]; apply wp_bind; eapply wp_mono; [by eapply wp_second_exists|].
    intros ret s' (-> & Hed & Hnodes).
    change (BADDUPLICATEREFERENCENOTALLOWED =? BADDUPLICATEREFERENCENOTALLOWED) with true.
    cbn [andb negb]; apply wp_bind, wp_ret, wp_ret; by apply add_nothing.
  - intros Hno; split; [intros k; apply wp_ret; by apply add_nothing|].
    intros l k Hadd; change (GOOD =? BADDUPLICATEREFERENCENOTALLOWED) with false.
    change (bad GOOD) with false; cbn [andb negb].
    apply wp_bind; eapply wp_mono; [by eapply (wp_second_added item s)|].
    intros ret s2 [(Hne & Hnd & k' & ->)|[-> Hout]].
    + rewrite (proj2 (Z.eqb_neq ret _)) by done.
      assert (bad ret = true) as -> by (unfold bad; by apply negb_true_iff, Z.eqb_neq).
      cbn [andb negb]; apply wp_bind; eapply wp_mono.
      * apply (wp_undo item n l p k' s); try done; [|intros H; apply Hno; by exists n].
        destruct (so_wf s Hok p n (find_node_stored _ _ _ Hp) Hn) as [_ Hwf].
        apply updated_ok; [done|done|intros _; eapply (added_wf item); try done].
        intros H; apply Hno; by exists n.
      * intros st s3 [Hed Hnodes]; apply wp_ret; by apply add_nothing.
    + change (GOOD =? BADDUPLICATEREFERENCENOTALLOWED) with false; change (bad GOOD) with false.
      cbn [andb negb]; by apply wp_bind, wp_ret, wp_ret.
Qed.
End Operations.
