(* ===== verification/NodeDelete.v ===== *)
(** * References to a node that is deleted

    [removeIncomingReferences] deletes the references other nodes have to a
    node.  The references of the node itself may change in the loop, when it
    refers to itself; still none is missed. *)

From Stdlib Require Import ZArith Lia.
From stdpp Require Import base list numbers tactics sets gmap relations.
From S2P Require Import Prelude StateMonad UaTypes NodeStore AddressSpace NodeTree Browse AddressLogic BrowseCorrect NodeManagement NodeReferences ReferencesMutual.

(** ** Deleting one reference keeps the other positions *)

Lemma lookup_remove_at_before {A} (l : list A) i k : (k < i)%nat -> (i < length l)%nat ->
  remove_at l i !! k = l !! k.
Proof. intros H1 H2; rewrite remove_at_lookup by done; by rewrite decide_True, decide_False by lia. Qed.

(** The kind that changes is the one of the deleted reference; those in front
    of it stay where they are, and other references do not move in front of it. *)
Lemma deleted_positions item l l' : kinds_wf l -> deleted_from item l l' ->
  exists i rk j t, l !! i = Some rk /\ rk_isInverse rk = negb (dr_isForward item) /\
    nodeid_eqb (rk_referenceTypeId rk) (dr_referenceTypeId item) = true /\
    targetIds rk !! j = Some t /\ nodeid_eqb (eni_nodeId t) (eni_nodeId (dr_targetNodeId item)) = true /\
    (forall k, (k < i)%nat -> l' !! k = l !! k) /\
    (length l' <= length l)%nat /\
    (forall a b k u, l !! a = Some k -> targetIds k !! b = Some u ->
       nodeid_eqb (eni_nodeId u) (eni_nodeId (dr_targetNodeId item)) = false ->
       exists a' b' k', l' !! a' = Some k' /\ targetIds k' !! b' = Some u /\
         rk_isInverse k' = rk_isInverse k /\ rk_referenceTypeId k' = rk_referenceTypeId k /\
         ((a' = a /\ b' = b) \/ (i <= a')%nat)).
Proof.
  intros [Hwf _] Hd; destruct Hd as [i rk j t rest Hi Hinv Hty Hj Heq Hrest Hne|i rk t Hi Hinv Hty Hone Heq];
    pose proof (lookup_lt_Some _ _ _ Hi) as Hlt.
  - exists i, rk, j, t; split_and!; try done.
    + intros k Hk; apply list_lookup_insert_ne; lia.
    + by rewrite length_insert.
    + intros a b k u Ha Hb Hu; destruct (decide (a = i)) as [->|Hne'].
      * assert (k = rk) as -> by congruence.
        assert (Hbj : b <> j) by (intros ->; congruence).
        assert (Hin : u ∈ remove_at (targetIds rk) j)
          by (apply elem_of_remove_at; [by eapply lookup_lt_Some|by exists b]).
        rewrite Hrest in Hin; apply list_elem_of_lookup in Hin as [b' Hb'].
        eexists i, b', _; split; [by apply list_lookup_insert_eq|]; split_and!; try done; by right.
      * exists a, b, k; split; [by rewrite list_lookup_insert_ne|]; split_and!; try done; by left.
  - exists i, rk, 0%nat, t; split_and!; try done.
    + by rewrite Hone.
    + intros k Hk; by apply lookup_remove_at_before.
    + rewrite length_remove_at; lia.
    + intros a b k u Ha Hb Hu; destruct (decide (a = i)) as [->|Hne'].
      * exfalso; assert (k = rk) as -> by congruence; rewrite Hone in Hb.
        apply list_lookup_singleton_Some in Hb as [_ ->]; congruence.
      * pose proof (lookup_lt_Some _ _ _ Ha).
        destruct (decide (a = length l - 1)%nat) as [->|].
        -- exists i, b, k; split; [rewrite remove_at_lookup by done; by rewrite !decide_True by lia|].
           split_and!; try done; by right.
        -- exists a, b, k; split; [rewrite remove_at_lookup by done; by rewrite decide_True, decide_False by lia|].
           split_and!; try done; by left.
Qed.

(** Fewer references. *)
Definition fewer_refs (s t : AddressSpace) : Prop := forall q ty i x, ref t q ty i x -> ref s q ty i x.

Section Incoming.
Context {E : Env} (s : AddressSpace) (p : nat).
Context (Hok : space_ok s) (Hm : mutual s) (Hp : p ∈ stored s).
Context (Hmay : forall item, denied allowDeleteReference item = false).
Let pid := id_at s p.

Definition kinds_at (t : AddressSpace) : list UA_NodeReferenceKind :=
  match nodes t !! p with Some n => references n | None => [] end.

(** The position [(a, b)] is not in front of [(i, j)]. *)
Definition behind (i j a b : nat) : Prop := (i < a \/ a = i /\ j <= b)%nat.

Record progress (i j : nat) (t : AddressSpace) : Prop := mkProgress {
  pg_edited : edited s t;
  pg_ok : space_ok t;
  pg_fewer : fewer_refs s t;
  pg_kept : forall q ty inv x, q <> p -> ref s q ty inv x -> nodeid_eqb x pid = false -> ref t q ty inv x;
  (* references to the node have their counterpart among what is left *)
  pg_left : forall q ty inv x, q <> p -> q ∈ stored s -> ref t q ty inv x -> nodeid_eqb x pid = true ->
    exists a b rk u, kinds_at t !! a = Some rk /\ targetIds rk !! b = Some u /\
      rk_isInverse rk = negb inv /\ nodeid_eqb (rk_referenceTypeId rk) ty = true /\
      nodeid_eqb (eni_nodeId u) (id_at s q) = true /\ behind i j a b;
  (* a reference of the node to itself that is done with has no counterpart *)
  pg_self : forall a b rk u, kinds_at t !! a = Some rk -> targetIds rk !! b = Some u ->
    nodeid_eqb (eni_nodeId u) pid = true -> ~ behind i j a b ->
    ~ ref t p (rk_referenceTypeId rk) (negb (rk_isInverse rk)) pid
}.

Lemma kinds_at_some t : edited s t -> exists n, nodes t !! p = Some n /\ kinds_at t = references n /\ nodeId n = pid.
Proof.
  intros Hed; pose proof (edited_id s t p Hed) as Hid; destruct Hed as (_ & _ & _ & H & _).
  destruct (so_alloc s Hok p (or_introl Hp)) as [n Hn]; unfold kinds_at, pid in *.
  destruct (nodes t !! p) as [m|] eqn:Hmt; [|apply H in Hmt; congruence].
  exists m; split; [done|]; split; [done|]; rewrite <- Hid; unfold id_at; by rewrite Hmt.
Qed.

Lemma kinds_at_ref t a b rk u : edited s t -> space_ok t -> kinds_at t !! a = Some rk ->
  targetIds rk !! b = Some u -> ref t p (rk_referenceTypeId rk) (rk_isInverse rk) (eni_nodeId u).
Proof.
  intros Hed Hokt Ha Hb; destruct (kinds_at_some t Hed) as (n & Hn & Hk & _); rewrite Hk in Ha.
  assert (Hpt : p ∈ stored t) by by rewrite (proj1 Hed).
  destruct (so_wf t Hokt p n Hpt Hn) as [_ [Hall _]]; rewrite Forall_forall in Hall.
  destruct (Hall rk (list_elem_of_lookup_2 _ _ _ Ha)) as [K1 _ K3 _]; rewrite Forall_forall in K3.
  exists n; split; [done|]; exists rk, u; split_and!; try done; try (by eapply list_elem_of_lookup_2);
    apply copyable_refl; [done|]; by apply (K3 u (list_elem_of_lookup_2 _ _ _ Hb)).
Qed.

Lemma progress_start : progress 0 0 s.
Proof.
  split; [reflexivity|done|by intros q ty i x|done| |].
  - intros q ty inv x Hq Hst Href Hx; destruct (Hm q ty inv x Hst Href) as (p' & Hp' & Hback).
    assert (p' = p) as ->.
    { assert (find_node s x = Some p) by (apply find_node_at; [done|done|]; unfold pid in Hx; by rewrite UA_NodeId_equal_sym).
      congruence. }
    destruct Hback as (n & Hn & rk & u & Hrk & H1 & H2 & Hu & H3).
    apply list_elem_of_lookup in Hrk as [a Ha]; apply list_elem_of_lookup in Hu as [b Hb].
    exists a, b, rk, u; unfold kinds_at; rewrite Hn; split_and!; try done; unfold behind; lia.
  - intros a b rk u _ _ _ Hb; exfalso; apply Hb; unfold behind; lia.
Qed.

(** The next row. *)
Lemma progress_row i j t : progress i j t ->
  (forall rk, kinds_at t !! i = Some rk -> (length (targetIds rk) <= j)%nat) -> progress (S i) 0 t.
Proof.
  intros [H1 H2 H3 H4 H5 H6] Hlen; split; try done.
  - intros q ty inv x Hq Hst Href Hx; destruct (H5 q ty inv x Hq Hst Href Hx) as (a & b & rk & u & Ha & Hb & ? & ? & ? & Hbe).
    exists a, b, rk, u; split_and!; try done; destruct Hbe as [?|[-> Hjb]]; [unfold behind; lia|].
    specialize (Hlen rk Ha); apply lookup_lt_Some in Hb; lia.
  - intros a b rk u Ha Hb Hu Hnb; apply (H6 a b rk u Ha Hb Hu); intros Hbe; apply Hnb.
    destruct Hbe as [?|[-> Hjb]]; [unfold behind; lia|].
    specialize (Hlen rk Ha); apply lookup_lt_Some in Hb; lia.
Qed.

(** The reference at a position is deleted in the node it leads to. *)
Definition incoming_item (rk : UA_NodeReferenceKind) (u : UA_ExpandedNodeId) : UA_DeleteReferencesItem :=
  mkDeleteReferencesItem (eni_nodeId u) (rk_referenceTypeId rk) (rk_isInverse rk) (local_id pid) false.

(** What the deletion does to the references of the node itself: nothing, or
    one behind the row changes. *)
Lemma own_kinds i j t t' rk u : progress i j t -> kinds_at t !! i = Some rk -> targetIds rk !! j = Some u ->
  edited s t' ->
  (forall q, find_node t (eni_nodeId u) <> Some q -> nodes t' !! q = nodes t !! q) ->
  (forall q n n', find_node t (eni_nodeId u) = Some q -> nodes t !! q = Some n ->
     nodes t' !! q = Some n' -> n' = n \/ deleted_from (incoming_item rk u) (references n) (references n')) ->
  (length (kinds_at t') <= length (kinds_at t))%nat /\
  (forall a, (a <= i)%nat -> kinds_at t' !! a = kinds_at t !! a) /\
  (forall a b k v, kinds_at t !! a = Some k -> targetIds k !! b = Some v ->
     nodeid_eqb (eni_nodeId v) pid = false -> behind i j a b ->
     exists a' b' k', kinds_at t' !! a' = Some k' /\ targetIds k' !! b' = Some v /\
       rk_isInverse k' = rk_isInverse k /\ rk_referenceTypeId k' = rk_referenceTypeId k /\
       ((a' = a /\ b' = b) \/ (i < a')%nat)).
Proof.
  intros [H1 H2 H3 H4 H5 H6] Hi Hj Hed Hother Hself.
  assert (Hsame : kinds_at t' = kinds_at t -> (length (kinds_at t') <= length (kinds_at t))%nat /\
    (forall a, (a <= i)%nat -> kinds_at t' !! a = kinds_at t !! a) /\
    (forall a b k v, kinds_at t !! a = Some k -> targetIds k !! b = Some v ->
       nodeid_eqb (eni_nodeId v) pid = false -> behind i j a b ->
       exists a' b' k', kinds_at t' !! a' = Some k' /\ targetIds k' !! b' = Some v /\
         rk_isInverse k' = rk_isInverse k /\ rk_referenceTypeId k' = rk_referenceTypeId k /\
         ((a' = a /\ b' = b) \/ (i < a')%nat))).
  { intros ->; split; [done|]; split; [done|]; intros a b k v Ha Hb _ _; exists a, b, k; split_and!; try done; by left. }
  destruct (kinds_at_some t H1) as (n & Hn & Hk & Hid).
  destruct (kinds_at_some t' Hed) as (n' & Hn' & Hk' & _).
  destruct (decide (find_node t (eni_nodeId u) = Some p)) as [Hfp|Hfp].
  2: { apply Hsame; rewrite Hk, Hk'; specialize (Hother p Hfp); congruence. }
  destruct (Hself p n n' Hfp Hn Hn') as [->|Hdel]; [apply Hsame; congruence|]; clear Hsame.
  assert (Hpt : p ∈ stored t) by by rewrite (proj1 H1).
  destruct (so_wf t H2 p n Hpt Hn) as [_ Hwf].
  apply (deleted_positions _ _ _ Hwf) in Hdel as (i' & rk' & j' & v & Hi' & Hinv & Hty & Hj' & Hv & Hbefore & Hlen & Hpos).
  cbn [incoming_item dr_isForward dr_referenceTypeId dr_targetNodeId local_id eni_nodeId] in Hinv, Hty, Hv, Hpos.
  assert (Hu : nodeid_eqb (eni_nodeId u) pid = true)
    by (rewrite UA_NodeId_equal_sym; unfold pid; rewrite <- (edited_id s t p H1); by apply find_node_id).
  rewrite <- Hk in Hi'.
  assert (Hlt : (i < i')%nat).
  { destruct (decide (i' = i)) as [->|Hne]; [assert (rk' = rk) as -> by congruence; by destruct (rk_isInverse rk)|].
    destruct (decide (i < i')%nat); [done|]; exfalso.
    apply (H6 i' j' rk' v Hi' Hj' Hv); [unfold behind; lia|].
    rewrite Hinv, negb_involutive; eapply ref_same; [|exact Hu|by eapply kinds_at_ref].
    by rewrite UA_NodeId_equal_sym. }
  rewrite Hk, Hk' in *; split; [done|]; split; [intros a Ha; apply Hbefore; lia|].
  intros a b k w Ha Hb Hw Hbe; destruct (Hpos a b k w Ha Hb Hw) as (a' & b' & k' & ? & ? & ? & ? & Hcase).
  exists a', b', k'; split_and!; try done; destruct Hcase; [by left|right; lia].
Qed.

Lemma wp_incoming_step i j t rk u : progress i j t -> kinds_at t !! i = Some rk -> targetIds rk !! j = Some u ->
  wp (Operation_deleteReference (incoming_item rk u)) (fun _ t' =>
    progress i (S j) t' /\ kinds_at t' !! i = Some rk /\
    (length (kinds_at t') <= length (kinds_at t))%nat) t.
Proof.
  intros Hpg Hi Hj; pose proof Hpg as [H1 H2 H3 H4 H5 H6]; unfold Operation_deleteReference; rewrite Hmay.
  apply wp_bind; eapply wp_mono; [by apply wp_delete_one|].
  intros ret t' (Hdel & Hother & Hself & _ & _); destruct Hdel as (Ed & Ok & R).
  assert (Hed : edited s t') by by etransitivity.
  destruct (own_kinds i j t t' rk u Hpg Hi Hj Hed Hother Hself) as (Hlen & Hrows & Hpos).
  cbn [incoming_item dr_sourceNodeId dr_referenceTypeId dr_isForward dr_targetNodeId local_id eni_nodeId] in R.
  assert (Hfew : fewer_refs t t') by (intros q ty inv x Hr; by apply R in Hr as [? _]).
  assert (Hprog : progress i (S j) t').
  { split; [done|done|by intros q ty inv x ?%Hfew%H3| | |].
    - intros q ty inv x Hq Href Hx; apply R; split; [by apply H4|]; intros (_ & _ & _ & Hx'); congruence.
    - intros q ty inv x Hq Hst Href Hx; pose proof Href as Hr; apply R in Hr as [Hr Hno].
      destruct (H5 q ty inv x Hq Hst Hr Hx) as (a & b & k & v & Ha & Hb & Hinv & Hty & Hv & Hbe).
      assert (Hvp : nodeid_eqb (eni_nodeId v) pid = false).
      { destruct (nodeid_eqb (eni_nodeId v) pid) eqn:Hvp; [|done]; exfalso; apply Hq.
        assert (G : forall r, r ∈ stored s -> nodeid_eqb (eni_nodeId v) (id_at s r) = true ->
                    find_node s (eni_nodeId v) = Some r)
          by (intros r Hrs Hvr; apply find_node_at; [done|done|by rewrite UA_NodeId_equal_sym]).
        pose proof (G q Hst Hv); pose proof (G p Hp Hvp); congruence. }
      destruct (Hpos a b k v Ha Hb Hvp Hbe) as (a' & b' & k' & Ha' & Hb' & Hinv' & Hty' & Hcase).
      exists a', b', k', v; rewrite Hinv', Hty'; split_and!; try done.
      destruct Hcase as [[-> ->]|Hlt]; [|unfold behind; lia].
      destruct (decide (a = i /\ b = j)) as [[-> ->]|Hne]; [|unfold behind in *; lia].
      exfalso; assert (k = rk) as -> by congruence; assert (v = u) as -> by congruence.
      apply Hno; split; [|split; [by rewrite UA_NodeId_equal_sym|split; [by rewrite Hinv, negb_involutive|done]]].
      rewrite (edited_find s t) by done; apply find_node_at; [done|done|by rewrite UA_NodeId_equal_sym].
    - intros a b k v Ha Hb Hv Hnb; assert (Hai : (a <= i)%nat) by (unfold behind in Hnb; lia).
      rewrite (Hrows a Hai) in Ha; destruct (decide (a = i /\ b = j)) as [[-> ->]|Hne].
      + assert (k = rk) as -> by congruence; assert (v = u) as -> by congruence.
        intros Href; apply R in Href as [_ Hno]; apply Hno; split.
        * rewrite (edited_find s t) by done; apply find_node_at; [done|done|by rewrite UA_NodeId_equal_sym].
        * assert (Href : ref t p (rk_referenceTypeId rk) (rk_isInverse rk) (eni_nodeId u)) by by eapply kinds_at_ref.
          destruct Href as (n & _ & k & _ & _ & _ & Hk & _); split; [|split; [done|]].
          -- eapply nodeid_eqb_trans; [|exact Hk]; by rewrite UA_NodeId_equal_sym.
          -- eapply nodeid_eqb_trans; [|exact Hv]; by rewrite UA_NodeId_equal_sym.
      + intros Href%Hfew; revert Href; apply (H6 a b k v); try done; unfold behind in *; lia. }
  destruct (bad ret); [apply wp_ret|cbn [incoming_item deleteBidirectional negb orb]; apply wp_ret];
    (split; [exact Hprog|]; split; [by rewrite Hrows|done]).
Qed.

Lemma wp_node_at {A} (k : UA_Node -> M A) (Q : A -> AddressSpace -> Prop) q n t :
  nodes t !! q = Some n -> wp (k n) Q t -> wp (n ← node_at q; k n) Q t.
Proof. intros Hn Hk; apply wp_bind; unfold wp at 1, node_at, the; by rewrite Hn. Qed.

Lemma wp_incoming_row i rk : forall fuel j t, progress i j t -> kinds_at t !! i = Some rk ->
  (j <= length (targetIds rk))%nat -> (length (targetIds rk) < j + fuel)%nat ->
  wp (removeIncoming_targets fuel p i j (rk_referenceTypeId rk) (rk_isInverse rk)) (fun _ t' =>
    progress (S i) 0 t' /\ (i < length (kinds_at t') <= length (kinds_at t))%nat) t.
Proof.
  intros fuel; induction fuel as [|fuel IH]; intros j t Hpg Hi Hj Hf; [lia|].
  destruct (kinds_at_some t (pg_edited _ _ _ Hpg)) as (n & Hn & Hk & Hid).
  cbn [removeIncoming_targets]; apply (wp_node_at _ _ p n); [done|]; rewrite <- Hk.
  apply wp_bind, (wp_the _ rk); [done|]; destruct (targetIds rk !! j) as [u|] eqn:Hu.
  - rewrite Hid; fold (incoming_item rk u); apply wp_bind; eapply wp_mono; [by apply (wp_incoming_step i j)|].
    intros ret t' (Hpg' & Hi' & Hlen); pose proof (lookup_lt_Some _ _ _ Hu).
    eapply wp_mono; [apply (IH (S j) t' Hpg' Hi'); lia|]; intros _ t2 [H1 H2]; split; [done|lia].
  - apply wp_ret; split; [|by split; [eapply lookup_lt_Some|]]; apply (progress_row i j); [done|]; intros k Hk'.
    assert (k = rk) as -> by congruence; by apply lookup_ge_None_1.
Qed.

Lemma wp_incoming_rows : forall fuel i t, progress i 0 t -> (length (kinds_at t) < i + fuel)%nat ->
  (i <= length (kinds_at t))%nat ->
  wp (removeIncoming_kinds fuel p i) (fun _ t' => exists i', progress i' 0 t' /\ (length (kinds_at t') <= i')%nat) t.
Proof.
  intros fuel; induction fuel as [|fuel IH]; intros i t Hpg Hf Hi; [lia|]; cbn [removeIncoming_kinds].
  destruct (kinds_at_some t (pg_edited _ _ _ Hpg)) as (n & Hn & Hk & Hid).
  apply (wp_node_at _ _ p n); [done|]; rewrite <- Hk.
  destruct (kinds_at t !! i) as [rk|] eqn:Hrk.
  - apply wp_bind; eapply wp_mono; [apply (wp_incoming_row i rk); [done|done|lia|lia]|].
    intros _ t' [Hpg' Hlen]; apply IH; [done|lia|lia].
  - apply wp_ret; exists i; split; [done|]; by apply lookup_ge_None_1.
Qed.

(** No other node refers to the node any more; the other references are there. *)
Lemma wp_removeIncomingReferences :
  wp (removeIncomingReferences p) (fun _ t =>
    edited s t /\ space_ok t /\ fewer_refs s t /\
    (forall q ty inv x, q <> p -> ref s q ty inv x -> nodeid_eqb x pid = false -> ref t q ty inv x) /\
    (forall q ty inv x, q <> p -> q ∈ stored s -> ref t q ty inv x -> nodeid_eqb x pid = false)) s.
Proof.
  destruct (kinds_at_some s (reflexivity s)) as (n & Hn & Hk & _).
  unfold removeIncomingReferences; apply (wp_node_at _ _ p n); [done|].
  eapply wp_mono; [apply wp_incoming_rows; [exact progress_start|rewrite Hk; lia|lia]|].
  intros _ t (i & [H1 H2 H3 H4 H5 H6] & Hlen); split_and!; try done.
  intros q ty inv x Hq Hst Href; destruct (nodeid_eqb x pid) eqn:Hx; [|done]; exfalso.
  destruct (H5 q ty inv x Hq Hst Href Hx) as (a & b & rk & u & Ha & _ & _ & _ & _ & Hbe).
  apply lookup_lt_Some in Ha; unfold behind in Hbe; lia.
Qed.
End Incoming.

(** ** Deleting nodes

    A node is deleted with its children, the nodes it refers to by Aggregates
    and its subtypes, unless these are not allowed to be deleted; references to
    a deleted node are deleted as well, and nothing else.  The recursion ends
    when the children form no cycle. *)

(** ** States with fewer nodes *)

(** Another state with the same nodes and references to them. *)
Definition idle (s t : AddressSpace) : Prop := same_store s t /\ held t = held s.

Lemma idle_ok s t : idle s t -> space_ok s -> space_ok t.
Proof. destruct s, t; intros [[H1 H2] H3] [G1 G2 G3 G4 G5]; simpl in *; subst; by split. Qed.

Lemma idle_mutual s t : idle s t -> mutual s -> mutual t.
Proof. destruct s, t; intros [[H1 H2] H3]; simpl in *; by subst. Qed.

Lemma unchanged_idle s t : unchanged s t -> idle s t.
Proof. by intros (H1 & H2 & _). Qed.

(** Nodes and references were deleted. *)
Record sub (s t : AddressSpace) : Prop := mkSub {
  sb_stored : forall p, p ∈ stored t -> p ∈ stored s;
  sb_node : forall p n', nodes t !! p = Some n' ->
    exists n, nodes s !! p = Some n /\ n' = set_references n (references n');
  sb_refs : fewer_refs s t
}.

#[export] Instance sub_preorder : PreOrder sub.
Proof.
  split.
  - intros s; split; [done| |by intros q ty i x]; intros p n Hn; exists n; split; [done|by destruct n].
  - intros s1 s2 s3 [A1 A2 A3] [B1 B2 B3]; split; [auto| |by intros q ty i x ?%B3%A3].
    intros p n3 Hn3; destruct (B2 p n3 Hn3) as (n2 & Hn2 & E3); destruct (A2 p n2 Hn2) as (n1 & Hn1 & E2).
    exists n1; split; [done|]; rewrite E3 at 1; by rewrite E2.
Qed.

Lemma idle_sub s t : idle s t -> sub s t.
Proof.
  destruct s, t; intros [[H1 H2] H3]; simpl in *; subst; split; [done| |by intros q ty i x].
  intros p n Hn; exists n; split; [done|by destruct n].
Qed.

Lemma edited_sub s t : edited s t -> fewer_refs s t -> sub s t.
Proof.
  intros (H1 & _ & _ & H4 & H5) Hf; split; [by rewrite H1| |done].
  intros p n' Hn'; destruct (nodes s !! p) as [n|] eqn:Hn; [|apply H4 in Hn; congruence].
  exists n; split; [done|]; by apply (H5 p).
Qed.

Lemma sub_id s t p : sub s t -> is_Some (nodes t !! p) -> id_at t p = id_at s p.
Proof.
  intros Hs [n' Hn']; destruct (sb_node s t Hs p n' Hn') as (n & Hn & He).
  unfold id_at; rewrite Hn, Hn'; by rewrite He.
Qed.

Lemma sub_find s t x p : space_ok s -> space_ok t -> sub s t -> find_node t x = Some p -> find_node s x = Some p.
Proof.
  intros Hs Ht Hsub Hp; pose proof (find_node_stored _ _ _ Hp) as Hst.
  apply find_node_at; [done|by apply (sb_stored s t Hsub)|].
  rewrite <- (sub_id s t); [by apply find_node_id|done|]; apply (so_alloc t Ht); by left.
Qed.

(** ** Children *)

(** The type is a subtype of Aggregates. *)
Definition aggregates (s : AddressSpace) (type : UA_NodeId) : Prop :=
  exists k, (k <= 50)%nat /\ reaches s [UA_NS0ID_HASSUBTYPE] UA_NS0ID_AGGREGATES k type.

(** [q] is a child of [p]. *)
Definition child (s : AddressSpace) (p q : nat) : Prop :=
  q <> p /\ p ∈ stored s /\ exists type x n, ref s p type false x /\ aggregates s type /\ find_node s x = Some q /\
    nodes s !! q = Some n /\ matchClassMask n (nodeClassMask (children_of (id_at s p))) = true.

Lemma up_fewer s t types x y : space_ok s -> space_ok t -> sub s t -> up t types x y ->
  exists y', up s types x y' /\ nodeid_eqb y y' = true.
Proof.
  intros Hs Ht Hsub (n & rk & u & Hn & Hrk & Hinv & Hty & Hu & ->).
  destruct (lookup_stored _ _ _ Hn) as (p & Hp & Hst & Hpn).
  destruct (so_wf t Ht p n Hst Hpn) as [_ [Hall _]]; rewrite Forall_forall in Hall.
  destruct (Hall rk Hrk) as [K1 _ K3 _]; rewrite Forall_forall in K3; destruct (K3 u Hu) as [Hc _].
  assert (Href : ref t p (rk_referenceTypeId rk) true (eni_nodeId u)).
  { exists n; split; [done|]; exists rk, u; split_and!; try done; by apply copyable_refl. }
  apply (sb_refs s t Hsub) in Href as (m & Hm & rk' & u' & Hrk' & Hinv' & Hty' & Hu' & He').
  exists (eni_nodeId u'); split; [|by rewrite UA_NodeId_equal_sym].
  exists m, rk', u'; split_and!; try done.
  - unfold lookup_node; by rewrite (sub_find s t x p).
  - unfold type_listed in *; rewrite existsb_exists in *; destruct Hty as (ty & Hin & He); exists ty; split; [done|].
    by rewrite (nodeid_eqb_l _ (rk_referenceTypeId rk)).
Qed.

Lemma reaches_fewer s t types find k : forall x, space_ok s -> space_ok t -> sub s t ->
  reaches t types find k x -> reaches s types find k x.
Proof.
  induction k as [|k IH]; intros x Hs Ht Hsub; [by rewrite !reaches_0|].
  intros (y & Hup & Hr)%reaches_S; destruct (up_fewer s t types x y Hs Ht Hsub Hup) as (y' & Hup' & He).
  apply reaches_S; exists y'; split; [done|]; eapply reaches_same; [exact He|]; by apply IH.
Qed.

Lemma child_fewer s t p q : space_ok s -> space_ok t -> sub s t -> child t p q -> child s p q.
Proof.
  intros Hs Ht Hsub (Hne & Hst & ty & x & n & Href & (k & Hk & Hr) & Hq & Hn & Hmask).
  destruct (sb_node s t Hsub q n Hn) as (m & Hm & He).
  split; [done|]; split; [by apply (sb_stored s t Hsub)|]; exists ty, x, m; split_and!; try done.
  - by apply (sb_refs s t Hsub).
  - exists k; split; [done|]; by eapply reaches_fewer.
  - by apply (sub_find s t).
  - by rewrite He in Hmask.
Qed.

Lemma rtc_child_fewer s t p q : space_ok s -> space_ok t -> sub s t -> rtc (child t) p q -> rtc (child s) p q.
Proof.
  intros Hs Ht Hsub; induction 1 as [p|p q r Hpq _ IH]; [done|].
  eapply rtc_l; [by eapply child_fewer|done].
Qed.

(** The children form no cycle: they have a smaller rank. *)
Definition ranked (rank : nat -> nat) (s : AddressSpace) : Prop :=
  forall p q, child s p q -> (rank q < rank p)%nat.

Lemma rtc_rank rank s p q : ranked rank s -> rtc (child s) p q -> (rank q <= rank p)%nat.
Proof. intros Hr; induction 1 as [p|p q r Hpq _ IH]; [lia|]; specialize (Hr p q Hpq); lia. Qed.

(** ** The steps of a deletion *)

Section Delete.
Context {E : Env}.

Lemma wp_deconstructNode s p : space_ok s -> p ∈ stored s ->
  wp (deconstructNode p) (fun _ t => idle s t) s.
Proof.
  intros Hok Hp; destruct (so_alloc s Hok p (or_introl Hp)) as [n Hn].
  pose proof (space_readable s Hok) as Hr.
  unfold deconstructNode; apply (wp_node_at _ _ p n); [done|].
  assert (Hfinish : forall t, idle s t -> wp (if global_destructor then call_destructor None (nodeId n) else mret tt)
                      (fun _ t => idle s t) t).
  { intros t Ht; destruct global_destructor; [by apply wp_modify|by apply wp_ret]. }
  destruct (_ || _); apply wp_bind; [|by apply wp_ret, Hfinish].
  apply wp_bind; unfold wp at 1; rewrite (getNodeType_ok s n) by (try apply Hr; by eapply (rd_used s Hr)).
  destruct (type_of s n) as [q|] eqn:Hq; cbn [handed]; [|by apply wp_ret, Hfinish].
  pose proof (type_of_stored _ _ _ Hq) as Hqs; destruct (so_alloc s Hok q (or_introl Hqs)) as [m Hmq].
  apply (wp_node_at _ _ q m); [done|].
  destruct (has_destructor m); apply wp_bind; [apply wp_modify|apply wp_ret]; unfold wp.
  - change (set_destroyed (pushed q s) ?l) with (pushed q (set_destroyed s l)).
    rewrite release_pushed by done; by apply Hfinish.
  - rewrite release_pushed by done; by apply Hfinish.
Qed.

Lemma relevant_children s id rk : readable s -> relevant s (children_of id) rk = true ->
  rk_isInverse rk = false /\ aggregates s (rk_referenceTypeId rk).
Proof.
  intros Hr; unfold relevant, kind_relevant.
  change (browseDirection (children_of id) =? UA_BROWSEDIRECTION_FORWARD) with true.
  change (browseDirection (children_of id) =? UA_BROWSEDIRECTION_INVERSE) with false.
  change (UA_NodeId_isNull (bd_referenceTypeId (children_of id))) with false.
  destruct (rk_isInverse rk); [done|]; cbn [andb negb]; intros H; split; [done|].
  destruct (isNodeInTree_ok s (rk_referenceTypeId rk) UA_NS0ID_AGGREGATES [UA_NS0ID_HASSUBTYPE])
    as (b & Eb & Hb); [apply Hr|].
  change (relevantReference (includeSubtypes (children_of id)) (bd_referenceTypeId (children_of id))
            (rk_referenceTypeId rk)) with (isNodeInTree (rk_referenceTypeId rk) UA_NS0ID_AGGREGATES [UA_NS0ID_HASSUBTYPE]) in H.
  rewrite Eb in H; subst b; by apply Hb.
Qed.

(** What the browse of the children returns are children. *)
Lemma all_references_child s p rd : space_ok s -> p ∈ stored s ->
  rd ∈ all_references s (children_of (id_at s p)) ->
  exists q, find_node s (eni_nodeId (rd_nodeId rd)) = Some q /\ (q <> p -> child s p q).
Proof.
  intros Hok Hp; unfold all_references; pose proof (space_readable s Hok) as Hr.
  destruct (so_alloc s Hok p (or_introl Hp)) as [n Hn].
  assert (Hid : id_at s p = nodeId n) by (unfold id_at; by rewrite Hn).
  assert (Hlook : lookup_node s (id_at s p) = Some n).
  { unfold lookup_node; rewrite (find_node_at s p); [done|done|done|].
    apply copyable_refl; by apply id_at_copyable. }
  cbn [children_of bd_nodeId]; rewrite Hlook.
  assert (Hfrom : forall kinds ti, (forall rk, rk ∈ kinds -> rk ∈ references n) ->
    rd ∈ matches_from s (children_of (id_at s p)) ti kinds ->
    exists rk t, rk ∈ references n /\ relevant s (children_of (id_at s p)) rk = true /\ t ∈ targetIds rk /\
      match_target s (children_of (id_at s p)) rk t = Some rd).
  { intros kinds; induction kinds as [|rk kinds IH]; intros ti Hin; simpl; [by intros ?%not_elem_of_nil|].
    destruct (relevant s _ rk) eqn:Hrel; [|apply IH; set_solver].
    rewrite elem_of_app; intros [Hrd|Hrd]; [|apply (IH 0%nat); [set_solver|done]].
    unfold match_targets in Hrd; apply list_elem_of_omap in Hrd as (t & Ht & Hmt).
    exists rk, t; split_and!; try done; [set_solver|].
    apply list_elem_of_lookup in Ht as [i Hi]; rewrite lookup_drop in Hi; by eapply list_elem_of_lookup_2. }
  intros Hrd; destruct (Hfrom (references n) 0%nat (fun _ H => H) Hrd) as (rk & t & Hrk & Hrel & Ht & Hmt).
  unfold match_target in Hmt; destruct (lookup_node s (eni_nodeId t)) as [m|] eqn:Hm; [|done]; simpl in Hmt.
  destruct (matchClassMask m _) eqn:Hmask; [|done]; injection Hmt as <-.
  destruct (lookup_stored _ _ _ Hm) as (q & Hq & Hqs & Hqn).
  destruct (so_wf s Hok q m Hqs Hqn) as [Hcm _].
  cbn [describe rd_nodeId local_id eni_nodeId]; exists q; split.
  - apply find_node_at; [done|done|]; unfold id_at; rewrite Hqn; rewrite UA_NodeId_equal_sym.
    by apply copied_id_same.
  - intros Hne; split; [done|]; split; [done|]; exists (rk_referenceTypeId rk), (eni_nodeId t), m.
    destruct (so_wf s Hok p n Hp Hn) as [_ [Hall _]]; rewrite Forall_forall in Hall.
    destruct (Hall rk Hrk) as [K1 _ K3 _]; rewrite Forall_forall in K3.
    destruct (relevant_children s _ rk Hr Hrel) as [Hinv Hagg]; split_and!; try done.
    exists n; split; [done|]; exists rk, t; split_and!; try done; apply copyable_refl; [done|by apply K3].
Qed.

(** ** The node is removed and released *)

(** [u] is [t] without the node [p]. *)
Definition removed (p : nat) (t u : AddressSpace) : Prop :=
  stored u = without p (stored t) /\ p :: held u = held t /\
  nodes u = if decide (p ∈ held u) then nodes t else delete p (nodes t).

Lemma wp_remove_release t p h : space_ok t -> p ∈ stored t -> held t = p :: h ->
  wp (_ ← UA_Nodestore_remove (id_at t p); UA_Nodestore_release p) (fun _ u => removed p t u) t.
Proof.
  intros Hok Hp Hh; assert (Hf : find_node t (id_at t p) = Some p).
  { apply find_node_at; [done|done|]; apply copyable_refl; by apply id_at_copyable. }
  apply wp_bind; unfold wp at 1, UA_Nodestore_remove; rewrite Hf.
  assert (Hcl : cleanup p (set_nodes t (nodes t) (without p (stored t)) (held t)) =
                set_nodes t (nodes t) (without p (stored t)) (held t)).
  { unfold cleanup; rewrite decide_True; [done|]; right; simpl; rewrite Hh; by left. }
  rewrite Hcl; unfold wp, UA_Nodestore_release; simpl; rewrite Hh.
  rewrite decide_True by (by left); simpl; rewrite decide_True by done.
  unfold removed, cleanup; simpl.
  assert (Hnot : p ∉ without p (stored t)) by (by intros [? _]%elem_of_without).
  destruct (decide (p ∈ h)) as [Hin|Hout].
  - rewrite decide_True by (by right); simpl; by rewrite decide_True.
  - rewrite decide_False by (by intros [?|?]); simpl; by rewrite decide_False.
Qed.

Lemma removed_ok p t u : space_ok t -> removed p t u -> space_ok u.
Proof.
  intros [H1 H2 H3 H4 H5] (Hst & Hh & Hn).
  assert (Hnodes : forall q, q <> p \/ q ∈ held u -> nodes u !! q = nodes t !! q).
  { intros q Hq; rewrite Hn; destruct (decide (p ∈ held u)); [done|]; apply lookup_delete_ne; intros <-.
    by destruct Hq. }
  assert (Hsub : forall q, q ∈ stored u -> q ∈ stored t /\ q <> p)
    by (intros q; rewrite Hst, elem_of_without; by intros []).
  split.
  - rewrite Hst; unfold without; by apply NoDup_filter.
  - intros q [Hq|Hq].
    + destruct (Hsub q Hq); rewrite Hnodes by (by left); apply H2; by left.
    + rewrite Hnodes by (by right); apply H2; right; rewrite <- Hh; by right.
  - intros q n Hq; rewrite Hn in Hq; destruct (decide (p ∈ held u)) as [Hin|Hout].
    + destruct (H3 q n Hq) as [G|G].
      * destruct (decide (q = p)) as [->|]; [by right|left; rewrite Hst; by apply elem_of_without].
      * right; rewrite <- Hh in G; by apply elem_of_cons in G as [->|].
    + apply lookup_delete_Some in Hq as [Hne Hq]; destruct (H3 q n Hq) as [G|G].
      * left; rewrite Hst; by apply elem_of_without.
      * right; rewrite <- Hh in G; by apply elem_of_cons in G as [->|].
  - intros q n Hq Hqn; destruct (Hsub q Hq); rewrite Hnodes in Hqn by (by left); by eapply H4.
  - intros q r n m Hq Hr Hqn Hrn; destruct (Hsub q Hq), (Hsub r Hr).
    rewrite Hnodes in Hqn by (by left); rewrite Hnodes in Hrn by (by left); by eapply H5.
Qed.

Lemma removed_ref p t u q ty i x : removed p t u -> ref u q ty i x -> ref t q ty i x.
Proof.
  intros (_ & _ & Hn) (n & Hq & H); exists n; split; [|done]; rewrite Hn in Hq.
  destruct (decide _); [done|]; by apply lookup_delete_Some in Hq as [_ ?].
Qed.

Lemma removed_ref_back p t u q ty i x : removed p t u -> q <> p -> ref t q ty i x -> ref u q ty i x.
Proof.
  intros (_ & _ & Hn) Hne (n & Hq & H); exists n; split; [|done]; rewrite Hn.
  destruct (decide _); [done|]; by rewrite lookup_delete_ne.
Qed.

Lemma removed_sub p t u : removed p t u -> sub t u.
Proof.
  intros Hr; pose proof Hr as (Hst & Hh & Hn); split.
  - intros q; rewrite Hst, elem_of_without; by intros [].
  - intros q n Hq; exists n; split; [|by destruct n]; rewrite Hn in Hq.
    destruct (decide _); [done|]; by apply lookup_delete_Some in Hq as [_ ?].
  - intros q ty i x; by apply (removed_ref p).
Qed.

(** After the references to it were deleted, a node can be removed. *)
Lemma mutual_removed p s t u : space_ok s -> mutual s -> p ∈ stored s -> edited s t -> space_ok t ->
  fewer_refs s t ->
  (forall q ty inv x, q <> p -> ref s q ty inv x -> nodeid_eqb x (id_at s p) = false -> ref t q ty inv x) ->
  (forall q ty inv x, q <> p -> q ∈ stored s -> ref t q ty inv x -> nodeid_eqb x (id_at s p) = false) ->
  removed p t u -> mutual u.
Proof.
  intros Hok Hm Hp Hed Hokt Hfew Hkept Hgone Hrem q ty i x Hq Href.
  pose proof (removed_ok p t u Hokt Hrem) as Hoku; pose proof (removed_sub p t u Hrem) as Hsub.
  pose proof Hrem as (Hst & _); rewrite Hst in Hq; apply elem_of_without in Hq as [Hne Hqt].
  assert (Hqs : q ∈ stored s) by by rewrite <- (proj1 Hed).
  apply (removed_ref p t u) in Href; [|done].
  assert (Hx : nodeid_eqb x (id_at s p) = false) by by apply (Hgone q ty i).
  destruct (Hm q ty i x Hqs (Hfew _ _ _ _ Href)) as (r & Hr & Hback).
  assert (Hrp : r <> p) by (intros ->; apply find_node_id in Hr; by rewrite UA_NodeId_equal_sym, Hx in Hr).
  assert (Hidq : id_at u q = id_at s q).
  { rewrite (sub_id t u) by (try done; apply (so_alloc u Hoku); left; rewrite Hst; by apply elem_of_without).
    by apply edited_id. }
  exists r; split.
  - apply find_node_at; [done|rewrite Hst; apply elem_of_without; split; [done|]|].
    + rewrite (proj1 Hed); by eapply find_node_stored.
    + rewrite (sub_id t u), (edited_id s t); [by apply find_node_id|done|done|].
      apply (so_alloc u Hoku); left; rewrite Hst; apply elem_of_without; split; [done|].
      rewrite (proj1 Hed); by eapply find_node_stored.
  - rewrite Hidq; apply (removed_ref_back p t u); [done|done|]; apply Hkept; [done|done|].
    destruct (nodeid_eqb (id_at s q) (id_at s p)) eqn:Heq; [|done]; exfalso; apply Hne.
    destruct (so_alloc s Hok q (or_introl Hqs)) as [n Hn]; destruct (so_alloc s Hok p (or_introl Hp)) as [m Hmp].
    apply (so_ids s Hok q p n m); try done; unfold id_at in Heq; by rewrite Hn, Hmp in Heq.
Qed.

(** ** The recursion *)

Section Recursion.
Context (rank : nat -> nat) (Hmay : forall item, denied allowDeleteReference item = false).
Context (Hlim : 0 <= browse_limit 0).

(** What becomes of the space when the node of an identifier is deleted. *)
Definition deleted (s : AddressSpace) (id : UA_NodeId) (ret : status) (t : AddressSpace) : Prop :=
  space_ok t /\ mutual t /\ sub s t /\ held t = held s /\
  (forall q, q ∈ stored s -> q ∈ stored t \/ exists p, find_node s id = Some p /\ rtc (child s) p q) /\
  (ret = GOOD -> is_Some (find_node s id) /\ find_node t id = None) /\
  (ret <> GOOD -> idle s t).

Lemma deleted_nothing s id ret t : space_ok s -> mutual s -> idle s t -> ret <> GOOD -> deleted s id ret t.
Proof.
  intros Hok Hm Hi Hne; pose proof Hi as [[_ Hst] Hh]; split; [by eapply idle_ok|]; split; [by eapply idle_mutual|].
  split; [by apply idle_sub|]; split; [done|]; split; [|by split].
  intros q Hq; left; by rewrite Hst.
Qed.

Context (deleteNode : UA_DeleteNodesItem -> M status) (bound : nat).
Context (Hrec : forall s id, (0 < bound)%nat -> space_ok s -> mutual s -> ranked rank s ->
  (forall p, find_node s id = Some p -> (rank p < bound)%nat) ->
  wp (deleteNode (mkDeleteNodesItem id true)) (deleted s id) s).

(** In the middle of the deletion of [p]: the state at its start was [s]. *)
Record deleting (s : AddressSpace) (p : nat) (t : AddressSpace) : Prop := mkDeleting {
  dg_ok : space_ok t;
  dg_mutual : mutual t;
  dg_sub : sub s t;
  dg_held : held t = held s;
  dg_stored : p ∈ stored t;
  dg_gone : forall q, q ∈ stored s -> q ∈ stored t \/ rtc (child s) p q
}.

Lemma deleting_idle s p t u : deleting s p t -> idle t u -> deleting s p u.
Proof.
  intros [H1 H2 H3 H4 H5 H6] Hi; pose proof Hi as [[_ Hst] Hh]; split.
  - by eapply idle_ok.
  - by eapply idle_mutual.
  - etransitivity; [done|by apply idle_sub].
  - congruence.
  - by rewrite Hst.
  - intros q Hq; rewrite Hst; auto.
Qed.

Lemma ranked_fewer s t : space_ok s -> space_ok t -> sub s t -> ranked rank s -> ranked rank t.
Proof. intros Hs Ht Hsub Hr p q Hc; apply Hr; by eapply child_fewer. Qed.

Lemma wp_remove_children s p refs : forall t, space_ok s -> ranked rank s -> (rank p < S bound)%nat ->
  p ∈ stored s -> deleting s p t ->
  (forall rd, rd ∈ refs -> exists q, find_node s (eni_nodeId (rd_nodeId rd)) = Some q /\ (q <> p -> child s p q)) ->
  wp (remove_children deleteNode p refs) (fun _ u => deleting s p u) t.
Proof.
  induction refs as [|rd refs IH]; intros t Hok Hrk Hb Hp Hd Hch; [by apply wp_ret|].
  pose proof Hd as [H1 H2 H3 H4 H5 H6]; cbn [remove_children].
  destruct (so_alloc t H1 p (or_introl H5)) as [n Hn]; apply (wp_node_at _ _ p n); [done|].
  assert (Hrefs : forall rd', rd' ∈ refs -> exists q, find_node s (eni_nodeId (rd_nodeId rd')) = Some q /\ (q <> p -> child s p q))
    by (intros rd' Hrd'; apply Hch; by right).
  destruct (nodeid_eqb (nodeId n) _) eqn:Hself; [by apply IH|].
  destruct (Hch rd) as (c & Hc & Hchild); [by left|].
  assert (Hcp : c <> p).
  { intros ->; apply find_node_id in Hc; rewrite <- (sub_id s t) in Hc; [|done|by exists n].
    unfold id_at in Hc; rewrite Hn in Hc; congruence. }
  specialize (Hchild Hcp); pose proof (Hrk p c Hchild) as Hlt.
  apply wp_bind; eapply wp_mono; [apply (Hrec t); [lia|done|done|by apply (ranked_fewer s)|]|].
  { intros c' Hc'; apply (sub_find s t) in Hc'; [|done..]; assert (c' = c) as -> by congruence; lia. }
  intros ret u (U1 & U2 & U3 & U4 & U5 & U6 & U7); apply IH; try done; split; try done.
  - by etransitivity.
  - congruence.
  - destruct (U5 p H5) as [?|(c' & Hc' & Hpath)]; [done|]; exfalso.
    apply (sub_find s t) in Hc'; [|done..]; assert (c' = c) as -> by congruence.
    apply (rtc_child_fewer s t) in Hpath; [|done..]; apply (rtc_rank rank s) in Hpath; [lia|done].
  - intros q Hq; destruct (H6 q Hq) as [Hqt|]; [|by right].
    destruct (U5 q Hqt) as [?|(c' & Hc' & Hpath)]; [by left|right].
    apply (sub_find s t) in Hc'; [|done..]; assert (c' = c) as -> by congruence.
    eapply rtc_l; [exact Hchild|]; by apply (rtc_child_fewer s t).
Qed.

Lemma wp_removeChildren s p : space_ok s -> mutual s -> ranked rank s -> (rank p < S bound)%nat ->
  p ∈ stored s -> wp (removeChildren deleteNode p) (fun _ u => deleting s p u) s.
Proof.
  intros Hok Hm Hrk Hb Hp; destruct (so_alloc s Hok p (or_introl Hp)) as [n Hn].
  assert (Hid : id_at s p = nodeId n) by (unfold id_at; by rewrite Hn).
  unfold removeChildren; apply (wp_node_at _ _ p n); [done|]; rewrite <- Hid.
  apply wp_bind; eapply wp_mono; [apply wp_Operation_Browse; [by apply space_readable|done]|].
  intros br t (Hun & _ & rest & Hrefs); apply unchanged_idle in Hun.
  assert (Hd : deleting s p t).
  { apply (deleting_idle s p s); [|done]; split; try done; by left. }
  destruct (bad _); [by apply wp_ret|]; apply wp_remove_children; try done.
  intros rd Hrd; apply all_references_child; [done|done|].
  destruct Hrefs as [->|Hnil]; [apply elem_of_app; by left|]; rewrite Hnil in Hrd; by apply not_elem_of_nil in Hrd.
Qed.

(** The node, its children and the references to it. *)
Lemma wp_removeDeconstructedNode s p h : space_ok s -> mutual s -> ranked rank s -> (rank p < S bound)%nat ->
  p ∈ stored s -> held s = p :: h ->
  wp (_ ← removeDeconstructedNode deleteNode p true; _ ← UA_Nodestore_release p; mret GOOD) (fun ret u =>
    ret = GOOD /\ space_ok u /\ mutual u /\ sub s u /\ held u = h /\ (p ∉ stored u) /\
    (forall q, q ∈ stored s -> q ∈ stored u \/ rtc (child s) p q)) s.
Proof.
  intros Hok Hm Hrk Hb Hp Hh; unfold removeDeconstructedNode.
  apply wp_bind, wp_bind; eapply wp_mono; [by apply wp_removeChildren|].
  intros _ t [H1 H2 H3 H4 H5 H6]; apply wp_bind.
  eapply wp_mono; [by apply (wp_removeIncomingReferences t p)|].
  intros _ t2 (Hed & Hok2 & Hfew & Hkept & Hgone).
  assert (Hp2 : p ∈ stored t2) by by rewrite (proj1 Hed).
  destruct (so_alloc t2 Hok2 p (or_introl Hp2)) as [n Hn]; apply (wp_node_at _ _ p n); [done|].
  assert (Hid : nodeId n = id_at t2 p) by (unfold id_at; by rewrite Hn).
  rewrite Hid; pose proof (wp_remove_release t2 p h Hok2 Hp2) as Hrem.
  assert (Hheld : held t2 = p :: h) by (destruct Hed as (_ & -> & _); congruence).
  specialize (Hrem Hheld); apply wp_bind; unfold wp in Hrem |- *.
  unfold mbind at 1, M_bind at 1 in Hrem.
  destruct (UA_Nodestore_remove (id_at t2 p) t2) as [[st t3]|]; [|done]; cbn [mret M_ret].
  unfold mbind at 1, M_bind at 1.
  destruct (UA_Nodestore_release p t3) as [[[] u]|]; [|done]; cbn [mret M_ret].
  assert (Hpu : p ∉ stored u) by (destruct Hrem as (-> & _); by intros [? _]%elem_of_without).
  pose proof (removed_ok p t2 u Hok2 Hrem) as Hoku.
  split; [done|]; split; [done|]; split; [by apply (mutual_removed p t t2 u)|].
  split; [etransitivity; [exact H3|]; etransitivity; [by apply edited_sub|by eapply removed_sub]|].
  split; [destruct Hrem as (_ & Hr & _); rewrite Hheld in Hr; by injection Hr|]; split; [done|].
  intros q Hq; destruct (decide (q = p)) as [->|Hne]; [right; done|].
  destruct (H6 q Hq) as [Hqt|]; [|by right]; left; destruct Hrem as (-> & _).
  apply elem_of_without; split; [done|]; by rewrite (proj1 Hed).
Qed.
End Recursion.

Lemma space_ok_pushed s p : space_ok s -> p ∈ stored s -> space_ok (pushed p s).
Proof.
  intros [H1 H2 H3 H4 H5] Hp; split; try done.
  - intros q [Hq|Hq]; [apply H2; by left|]; apply elem_of_cons in Hq as [->|Hq]; apply H2; [by left|by right].
  - intros q n Hq; destruct (H3 q n Hq); [by left|right; by right].
Qed.

(** Deleting a node with fuel for the ranks below it. *)
Lemma wp_deleteNode rank fuel : (forall item, denied allowDeleteReference item = false) ->
  0 <= browse_limit 0 -> forall s id, (0 < fuel)%nat -> space_ok s -> mutual s -> ranked rank s ->
  (forall p, find_node s id = Some p -> (rank p < fuel)%nat) ->
  wp (deleteNodeOperation fuel (mkDeleteNodesItem id true)) (deleted s id) s.
Proof.
  intros Hmay Hlim; induction fuel as [|fuel IH]; intros s id Hpos Hok Hm Hrk Hf; [lia|].
  cbn [deleteNodeOperation dn_nodeId deleteTargetReferences].
  destruct (denied _ _); [by apply wp_ret, deleted_nothing|].
  apply wp_bind; unfold wp at 1; destruct (find_node s id) as [p|] eqn:Hp.
  2: { rewrite get_none by done; by apply wp_ret, deleted_nothing. }
  rewrite (get_some s id p) by done; pose proof (find_node_stored _ _ _ Hp) as Hst.
  destruct (so_alloc s Hok p (or_introl Hst)) as [n Hn]; apply (wp_node_at _ _ p n); [done|].
  pose proof (space_ok_pushed s p Hok Hst) as Hok1.
  destruct (UA_Node_hasSubTypeOrInstances n).
  { apply wp_bind; unfold wp at 1; rewrite release_pushed by done; by apply wp_ret, deleted_nothing. }
  apply wp_bind; eapply wp_mono; [by apply wp_deconstructNode|]; intros [] t Hidle; cbv beta in Hidle.
  pose proof (idle_ok _ _ Hidle Hok1) as Hokt; pose proof (idle_sub _ _ Hidle) as Hsub.
  assert (Hsub' : sub s t) by (destruct Hsub as [A B C]; by split).
  assert (Hpt : p ∈ stored t) by (destruct Hidle as [[_ H] _]; by rewrite H).
  assert (Hheld : held t = p :: held s) by (destruct Hidle as [_ H]; by rewrite H).
  eapply wp_mono.
  - apply (wp_removeDeconstructedNode rank Hmay Hlim (deleteNodeOperation fuel) fuel) with (h := held s); try done.
    + by eapply idle_mutual.
    + by apply (ranked_fewer rank s).
    + by apply Hf.
  - intros ret u (-> & U1 & U2 & U3 & U4 & U5 & U6); assert (Hsu : sub s u) by by etransitivity.
    split; [done|]; split; [done|]; split; [done|]; split; [done|]; split; [|split; [|done]].
    + intros q Hq; destruct (U6 q) as [?|Hpath]; [destruct Hidle as [[_ H] _]; by rewrite H|by left|right].
      exists p; split; [done|]; by apply (rtc_child_fewer s t).
    + intros _; split; [by exists p|]; destruct (find_node u id) as [r|] eqn:Hr; [|done]; exfalso; apply U5.
      pose proof Hr as Hr'; apply (sub_find s u) in Hr'; [|done..]; assert (r = p) as -> by congruence.
      by eapply find_node_stored.
Qed.
End Delete.
