(* ===== verification/TranslateCorrect.v ===== *)
(** * Browse paths: what is found

    The nodes at the end of a path, as a list; the walk finds them in this
    order, or fails for want of memory.  Membership is having a path. *)

From Stdlib Require Import ZArith Lia.
From stdpp Require Import base list numbers tactics sets gmap.
From S2P Require Import Prelude StateMonad UaTypes NodeStore AddressSpace NodeTree AddressLogic Browse BrowseCorrect NodeReferences ReferencesMutual.

Section Found.
Context {E : Env}.

(** ** The nodes at the end of a path *)

Section Spec.
Context (s : AddressSpace) (mask : Z).

(** Class and name are the ones asked for. *)
Definition node_fits (name : option UA_QualifiedName) (n : UA_Node) : bool :=
  matchClassMask n mask && name_fits name n.

Definition element_admits (elem : UA_RelativePathElement) (rk : UA_NodeReferenceKind) : bool :=
  match element_relevant elem rk s with Some (b, _) => b | None => false end.

(** The type of the element is a reference type of the server. *)
Definition element_known (elem : UA_RelativePathElement) : bool :=
  any_type elem ||
  match lookup_node s (pe_referenceTypeId elem) with
  | Some n => nodeClass n =? UA_NODECLASS_REFERENCETYPE
  | None => false
  end.

Definition kind_targets (elem : UA_RelativePathElement) (rk : UA_NodeReferenceKind) : list UA_NodeId :=
  if element_admits elem rk then map (fun t => copied_id (eni_nodeId t)) (targetIds rk) else [].

(** The targets of one element from a node. *)
Definition node_targets (name : option UA_QualifiedName) (elem : UA_RelativePathElement) (id : UA_NodeId)
    : list UA_NodeId :=
  match lookup_node s id with
  | Some n => if node_fits name n then references n ≫= kind_targets elem else []
  | None => []
  end.

Definition end_fits (name : option UA_QualifiedName) (id : UA_NodeId) : bool :=
  match lookup_node s id with Some n => node_fits name n | None => false end.

Fixpoint path_ids (name : option UA_QualifiedName) (elems : list UA_RelativePathElement) (ids : list UA_NodeId)
    : list UA_NodeId :=
  match elems with
  | [] => filter (fun id => end_fits name id = true) ids
  | elem :: elems =>
      if element_known elem then path_ids (Some (targetName elem)) elems (ids ≫= node_targets name elem)
      else []
  end.
End Spec.

Lemma element_relevant_ok s elem rk : readable s ->
  element_relevant elem rk s = Some (element_admits s elem rk, s).
Proof.
  intros Hr; unfold element_admits, element_relevant, relevantReference.
  repeat destr_if; try done.
  destruct (isNodeInTree_ok s (rk_referenceTypeId rk) (pe_referenceTypeId elem) [UA_NS0ID_HASSUBTYPE])
    as (b & -> & _); [apply Hr|done].
Qed.

Lemma element_admits_same s s' elem rk : same_store s s' -> readable s ->
  element_admits s' elem rk = element_admits s elem rk.
Proof.
  intros Hsame Hr; unfold element_admits, element_relevant, relevantReference.
  repeat destr_if; try done.
  destruct (isNodeInTree_ok s (rk_referenceTypeId rk) (pe_referenceTypeId elem) [UA_NS0ID_HASSUBTYPE])
    as (b & -> & H1); [apply Hr|].
  destruct (isNodeInTree_ok s' (rk_referenceTypeId rk) (pe_referenceTypeId elem) [UA_NS0ID_HASSUBTYPE])
    as (b' & -> & H2); [by eapply (readable_same s)|].
  apply eq_true_iff_eq; rewrite H1, H2; destruct s, s', Hsame; simpl in *; by subst.
Qed.

(** ** The walk *)

(** The walk added the nodes [ids] to the next ones, or there was no memory. *)
Definition walked (w : Walk) (ids : list UA_NodeId) (w' : Walk) : Prop :=
  (wk_status w' = wk_status w /\ next w' = next w ++ ids /\ targetsSize w' = targetsSize w) \/
  (wk_status w' <> GOOD /\ ~ memory).

Lemma walked_nil w : walked w [] w.
Proof. left; by rewrite app_nil_r. Qed.

Lemma walked_app w ids ids' w' w'' : walked w ids w' -> walked w' ids' w'' -> walked w (ids ++ ids') w''.
Proof.
  intros [(H1 & H2 & H3)|[H1 Hm]] [(G1 & G2 & G3)|[G1 Gm]]; unfold walked; try by right.
  - left; rewrite G1, G2, G3, H1, H2, H3, app_assoc; done.
  - right; by rewrite G1.
Qed.

Lemma quiet_walk_targets targets : forall s w, Forall local_target targets -> wk_status w = GOOD ->
  quiet (walkBrowsePathElementReferenceTargets targets w) s
    (walked w (map (fun t => copied_id (eni_nodeId t)) targets)).
Proof.
  induction targets as [|t targets IH]; intros s w Hl Hw; [apply quiet_ret, walked_nil|].
  inversion Hl as [|? ? (Hc & _ & Hsi) Hl']; subst; cbn [walkBrowsePathElementReferenceTargets map].
  rewrite Hsi; cbn [Z.eqb negb].
  eapply quiet_bind with (P := fun b : bool => memory -> b = true).
  { destruct (_ <=? _); [by apply quiet_malloc|by apply quiet_ret]. }
  intros b n Hb; destruct b; cbn [negb]; [|apply quiet_ret; right; split; [done|]; intros Hm; by specialize (Hb Hm)].
  eapply quiet_bind; [apply quiet_NodeId_copy|]; intros [st id] n' [G1 M1]; cbn [fst snd] in *.
  destruct (bad st) eqn:Hbad.
  - apply quiet_ret; right; split; [by unfold bad in Hbad; simpl; zbool|]; intros Hm.
    by rewrite (M1 Hm Hc) in Hbad.
  - apply bad_false in Hbad; rewrite (G1 Hbad); subst st.
    eapply quiet_mono; [by apply IH|]; intros w' Hw'.
    refine (walked_app w [copied_id (eni_nodeId t)] _ _ w' _ Hw'); left; by rewrite Hw.
Qed.

Lemma quiet_walk_kinds elem s kinds : forall n w, readable s -> Forall kind_wf kinds ->
  wk_status w = GOOD \/ ~ memory ->
  quiet (walk_kinds elem kinds w) (set_allocs s n) (walked w (kinds ≫= kind_targets s elem)).
Proof.
  induction kinds as [|rk kinds IH]; intros n w Hr Hwf Hw; [apply quiet_ret, walked_nil|].
  inversion Hwf as [|? ? Hrk Hwf']; subst; cbn [walk_kinds].
  destruct (bad (wk_status w)) eqn:Hbad.
  { destruct Hw as [Hw|Hm]; [by rewrite Hw in Hbad|]; apply quiet_ret; right; split; [by apply bad_true|done]. }
  apply bad_false in Hbad; cbn [mbind list_bind]; unfold kind_targets at 1.
  eapply quiet_bind; [eapply quiet_exact with (Q := fun b => b = element_admits s elem rk);
    [by apply element_relevant_ok, readable_allocs|by apply (element_admits_same s)]|].
  intros b n1 ->; destruct (element_admits s elem rk); cbn [negb].
  - eapply quiet_bind; [apply quiet_walk_targets; [apply Hrk|done]|]; intros w1 n2 Hw1.
    eapply quiet_mono; [apply IH; try done|intros w2 Hw2; by eapply walked_app].
    destruct Hw1 as [(-> & _)|[_ ?]]; [by left|by right].
  - exact (IH n1 w Hr Hwf' Hw).
Qed.

Lemma kinds_targets_same s s' elem kinds : same_store s s' -> readable s ->
  kinds ≫= kind_targets s' elem = kinds ≫= kind_targets s elem.
Proof.
  intros Hsame Hr; induction kinds as [|rk kinds IH]; [done|]; cbn [mbind list_bind].
  rewrite <- IH; unfold kind_targets at 1 3; by rewrite (element_admits_same s s').
Qed.

(** ** From the nodes of one element to the next *)

(** Nodes that are not there are left out, unless the path starts with one. *)
Lemma quiet_walk_nodes mask elem depth name s current : space_ok s -> forall n w,
  (forall id, id ∈ current -> lookup_node s id = None -> depth <> 0%nat) -> wk_status w = GOOD \/ ~ memory ->
  quiet (walk_nodes mask elem depth name current w) (set_allocs s n)
    (walked w (current ≫= node_targets s mask name elem)).
Proof.
  intros Hok; pose proof (space_readable s Hok) as Hr.
  induction current as [|id current IH]; intros n w Hd Hw; [apply quiet_ret, walked_nil|].
  assert (Hd' : forall id, id ∈ current -> lookup_node s id = None -> depth <> 0%nat)
    by (intros x Hx; apply Hd; by right).
  cbn [walk_nodes mbind list_bind].
  eapply (quiet_node (fun m => if negb (matchClassMask m mask) then mret w
             else if negb (name_fits name m) then mret w else walk_kinds elem (references m) w)
           (fun w => walk_nodes mask elem depth name current w)); [exact (rd_allocated s Hr)|..].
  - intros Hnone; change (lookup_node s id = None) in Hnone; unfold node_targets at 1; rewrite Hnone.
    rewrite (proj2 (Nat.eqb_neq depth 0)) by (apply (Hd id); [by left|done]); exact (IH n w Hd' Hw).
  - intros p m _ Hn; change (lookup_node s id = Some m) in Hn; destruct (lookup_stored _ _ _ Hn) as (p' & _ & Hst & Hm).
    exists (walked w (node_targets s mask name elem id)); split.
    + unfold node_targets, node_fits; rewrite Hn.
      destruct (matchClassMask m mask); cbn [negb andb]; [|apply quiet_ret, walked_nil].
      destruct (name_fits name m); cbn [negb]; [|apply quiet_ret, walked_nil].
      rewrite <- (kinds_targets_same s (pushed p s)) by done.
      change (pushed p (set_allocs s n)) with (set_allocs (pushed p s) n).
      apply quiet_walk_kinds; [by apply readable_pushed|by eapply (so_wf s Hok)|done].
    + intros w' n' Hw'; eapply quiet_mono; [apply (IH n' w' Hd')|intros w2 Hw2; by eapply walked_app].
      destruct Hw' as [(-> & _)|[_ ?]]; [done|by right].
Qed.

Lemma quiet_walk_element mask elem depth name s current : space_ok s -> forall n w,
  (forall id, id ∈ current -> lookup_node s id = None -> depth <> 0%nat) -> wk_status w = GOOD ->
  quiet (walkBrowsePathElement mask elem depth name current w) (set_allocs s n)
    (walked w (if element_known s elem then current ≫= node_targets s mask name elem else [])).
Proof.
  intros Hok n w Hd Hw; unfold walkBrowsePathElement, element_known.
  eapply quiet_bind with (P := fun b => b = element_known s elem).
  { unfold element_known; destruct (any_type elem); [by apply quiet_ret|].
    by apply (quiet_is_reference_type (set_allocs s n)), readable_allocs, space_readable. }
  intros b n' ->; fold (element_known s elem); destruct (element_known s elem); cbn [negb].
  - exact (quiet_walk_nodes mask elem depth name s current Hok n' w Hd (or_introl Hw)).
  - apply quiet_ret, walked_nil.
Qed.

(** ** The whole path *)

(** The nodes that fit at the end, with their names; or no memory; or no node
    was left on the way. *)
Definition walked_path (s : AddressSpace) (mask : Z) (name : option UA_QualifiedName)
    (elems : list UA_RelativePathElement) (ids : list UA_NodeId)
    (r : Walk * option (list UA_NodeId * option UA_QualifiedName)) : Prop :=
  (wk_status r.1 = GOOD /\
     path_ids s mask name elems ids =
       match r.2 with Some (current, last) => filter (fun id => end_fits s mask last id = true) current | None => [] end) \/
  (wk_status r.1 <> GOOD /\ ~ memory /\ r.2 = None).

Lemma path_ids_nil s mask name elems : path_ids s mask name elems [] = [].
Proof.
  revert name; induction elems as [|elem elems IH]; intros name; [done|]; simpl.
  destruct (element_known s elem); [apply IH|done].
Qed.

Lemma quiet_walk_elements mask s elems : space_ok s -> forall depth name current size n w,
  (forall id, id ∈ current -> lookup_node s id = None -> depth <> 0%nat) -> wk_status w = GOOD -> next w = [] ->
  quiet (walk_elements mask elems depth name current size w) (set_allocs s n)
    (walked_path s mask name elems current).
Proof.
  intros Hok; induction elems as [|elem elems IH]; intros depth name current size n w Hd Hw Hnext;
    [apply quiet_ret; by left|].
  cbn [walk_elements]; eapply quiet_bind; [by apply quiet_walk_element|].
  intros w' n' [(H1 & H2 & H3)|[H1 Hm]].
  - rewrite Hnext in H2; simpl in H2; rewrite Hw in H1.
    assert (Hpath : path_ids s mask name (elem :: elems) current =
              path_ids s mask (Some (targetName elem)) elems (next w')).
    { rewrite H2; simpl; destruct (element_known s elem); [done|by rewrite path_ids_nil]. }
    unfold walked_path; rewrite Hpath; destruct (next w') as [|id ids] eqn:Hids.
    + apply quiet_ret; left; split; [done|]; simpl; apply path_ids_nil.
    + rewrite (proj2 (bad_false _) H1); apply IH; [done|exact H1|done].
  - destruct (next w'); [apply quiet_ret; by right|].
    rewrite (proj2 (bad_true _) H1); apply quiet_ret; by right.
Qed.

Lemma quiet_addTargets mask name s current : readable s -> forall n,
  quiet (addBrowsePathTargets mask name current) (set_allocs s n)
    (eq (map (fun id => mkPathTarget (local_id id) (2 ^ 32 - 1))
           (filter (fun id => end_fits s mask name id = true) current))).
Proof.
  intros Hr; induction current as [|id current IH]; intros n; [by apply quiet_ret|]; cbn [addBrowsePathTargets].
  apply quiet_look; [exact (rd_allocated s Hr)|..].
  - intros Hnone; change (lookup_node s id = None) in Hnone; rewrite filter_cons_False; [apply IH|].
    unfold end_fits; by rewrite Hnone.
  - intros m n' Hm; change (lookup_node s id = Some m) in Hm.
    eapply quiet_bind; [apply (IH n')|]; intros targets n2 <-; apply quiet_ret.
    assert (Hfit : end_fits s mask name id = matchClassMask m mask && name_fits name m)
      by (unfold end_fits; by rewrite Hm).
    rewrite <- Hfit; destruct (end_fits s mask name id) eqn:Hend;
      [by rewrite filter_cons_True|rewrite filter_cons_False; [done|congruence]].
Qed.
(** ** Paths *)

(** Direction and type of the references are the ones of the element, or a
    subtype of it. *)
Definition leads (s : AddressSpace) (elem : UA_RelativePathElement) (rk : UA_NodeReferenceKind) : Prop :=
  rk_isInverse rk = pe_isInverse elem /\
  (any_type elem = true \/
   if pe_includeSubtypes elem then
     exists k, (k <= 50)%nat /\ reaches s [UA_NS0ID_HASSUBTYPE] (pe_referenceTypeId elem) k (rk_referenceTypeId rk)
   else nodeid_eqb (pe_referenceTypeId elem) (rk_referenceTypeId rk) = true).

Lemma element_admits_leads s elem rk : readable s -> element_admits s elem rk = true <-> leads s elem rk.
Proof.
  intros Hr; unfold element_admits, element_relevant, relevantReference, leads.
  destruct (isNodeInTree_ok s (rk_referenceTypeId rk) (pe_referenceTypeId elem) [UA_NS0ID_HASSUBTYPE])
    as (b & Eb & Hb); [apply Hr|].
  destruct (rk_isInverse rk), (pe_isInverse elem); cbn [eqb negb];
    try (split; [done|by intros []]);
    (destruct (any_type elem); [split; [by split; [|left]|done]|];
     destruct (pe_includeSubtypes elem); cbn [negb]; [rewrite Eb|]; naive_solver).
Qed.

(** Along the elements, from node to node with the names and class asked for. *)
Inductive path_to (s : AddressSpace) (mask : Z) :
    option UA_QualifiedName -> list UA_RelativePathElement -> UA_NodeId -> UA_NodeId -> Prop :=
| PathEnd name x n : lookup_node s x = Some n -> node_fits mask name n = true -> path_to s mask name [] x x
| PathStep name elem elems x n rk t y : lookup_node s x = Some n -> node_fits mask name n = true ->
    element_known s elem = true -> rk ∈ references n -> leads s elem rk -> t ∈ targetIds rk ->
    path_to s mask (Some (targetName elem)) elems (copied_id (eni_nodeId t)) y ->
    path_to s mask name (elem :: elems) x y.

Lemma elem_of_node_targets s mask name elem x y : readable s ->
  y ∈ node_targets s mask name elem x <-> exists n rk t, lookup_node s x = Some n /\
    node_fits mask name n = true /\ rk ∈ references n /\ leads s elem rk /\ t ∈ targetIds rk /\
    y = copied_id (eni_nodeId t).
Proof.
  intros Hr; unfold node_targets; destruct (lookup_node s x) as [n|];
    [|split; [by intros ?%not_elem_of_nil|by intros (? & ? & ? & ? & _)]].
  destruct (node_fits mask name n) eqn:Hfit;
    [|split; [by intros ?%not_elem_of_nil|intros (? & ? & ? & [= <-] & ? & _); congruence]].
  rewrite list_elem_of_bind; split.
  - intros (rk & Hy & Hrk); unfold kind_targets in Hy.
    destruct (element_admits s elem rk) eqn:Ha; [|by apply not_elem_of_nil in Hy].
    apply list_elem_of_fmap in Hy as (t & -> & Ht); exists n, rk, t; split_and!; try done.
    by apply element_admits_leads.
  - intros (m & rk & t & [= <-] & _ & Hrk & Hl & Ht & ->); exists rk; split; [|done]; unfold kind_targets.
    rewrite (proj2 (element_admits_leads s elem rk Hr) Hl); apply list_elem_of_fmap; by exists t.
Qed.

Lemma elem_of_path_ids s mask elems : readable s -> forall name ids y,
  y ∈ path_ids s mask name elems ids <-> exists x, x ∈ ids /\ path_to s mask name elems x y.
Proof.
  intros Hr; induction elems as [|elem elems IH]; intros name ids y; cbn [path_ids].
  - rewrite list_elem_of_filter; unfold end_fits; split.
    + intros [Hfit Hy]; exists y; split; [done|]; destruct (lookup_node s y) as [n|] eqn:Hn; [|done].
      by eapply PathEnd.
    + intros (x & Hx & Hpath); inversion Hpath as [? ? n Hn Hfit|]; subst; by rewrite Hn.
  - destruct (element_known s elem) eqn:Hk.
    2: { split; [by intros ?%not_elem_of_nil|intros (x & _ & Hpath); inversion Hpath; congruence]. }
    rewrite IH; split.
    + intros (z & Hz & Hpath); apply list_elem_of_bind in Hz as (x & Hz & Hx).
      apply elem_of_node_targets in Hz as (n & rk & t & Hn & Hfit & Hrk & Hl & Ht & ->); [|done].
      exists x; split; [done|]; by eapply PathStep.
    + intros (x & Hx & Hpath); inversion Hpath as [|? ? ? ? n rk t ? Hn Hfit _ Hrk Hl Ht Hrest]; subst.
      exists (copied_id (eni_nodeId t)); split; [|done]; apply list_elem_of_bind; exists x; split; [|done].
      apply elem_of_node_targets; [done|]; by exists n, rk, t.
Qed.

(** ** The operation *)

Definition path_target (id : UA_NodeId) : UA_BrowsePathTarget := mkPathTarget (local_id id) (2 ^ 32 - 1).

(** The status when there is enough memory. *)
Definition path_status (s : AddressSpace) (path : UA_BrowsePath) (found : list UA_NodeId) : status :=
  match found with
  | _ :: _ => GOOD
  | [] =>
      match lookup_node s (startingNode path), elements path with
      | None, elem :: _ => if element_known s elem then BADNODEIDUNKNOWN else BADNOMATCH
      | _, _ => BADNOMATCH
      end
  end.

(** What is found and the status, or no memory. *)
Definition found_or_failed (s : AddressSpace) (path : UA_BrowsePath) (found : list UA_NodeId) (st : status)
    (targets : list UA_BrowsePathTarget) : Prop :=
  (st = path_status s path found /\ targets = map path_target found) \/ (st <> GOOD /\ ~ memory /\ targets = []).

(** The status of the walk, before no target at all becomes an error. *)
Definition final_status (targets : list UA_BrowsePathTarget) (st : status) : status :=
  match targets with [] => if bad st then st else BADNOMATCH | _ => st end.

Lemma final_status_found s path found : found <> [] \/ is_Some (lookup_node s (startingNode path)) ->
  final_status (map path_target found) GOOD = path_status s path found.
Proof.
  unfold final_status, path_status; destruct found as [|id found]; [|done]; intros [?|[n ->]]; [done|].
  done.
Qed.

(** The path starts at a node that is not there. *)
Lemma quiet_walk_missing mask s path start n : space_ok s -> elements path <> [] ->
  lookup_node s start = None -> lookup_node s (startingNode path) = None ->
  quiet (walkBrowsePath path mask 10 [start] 10 10) (set_allocs s n) (fun r =>
    final_status r.2 r.1 = path_status s path [] /\ r.2 = []).
Proof.
  intros Hok Hne Hstart Hmiss; unfold walkBrowsePath, path_status; rewrite Hmiss.
  destruct (elements path) as [|elem elems]; [done|]; cbn [walk_elements].
  eapply quiet_bind with (P := fun r => (wk_status r.1 = if element_known s elem then BADNODEIDUNKNOWN else GOOD) /\ r.2 = None).
  - eapply quiet_bind with (P := fun w => next w = [] /\ wk_status w = if element_known s elem then BADNODEIDUNKNOWN else GOOD).
    + unfold walkBrowsePathElement.
      eapply quiet_bind with (P := fun b => b = element_known s elem).
      { unfold element_known; destruct (any_type elem); [by apply quiet_ret|].
        by apply (quiet_is_reference_type (set_allocs s n)), readable_allocs, space_readable. }
      intros b n' ->; destruct (element_known s elem); cbn [negb walk_nodes]; [|by apply quiet_ret].
      apply quiet_exact with (a := mkWalk BADNODEIDUNKNOWN 10 [] 10); [|done].
      unfold mbind, M_bind; rewrite get_none; [reflexivity|].
      unfold lookup_node in Hstart; destruct (find_node s start) as [q|] eqn:Hq; [|exact Hq].
      destruct (space_allocated s Hok q) as [m Hm]; [by eapply find_node_stored|by simpl in Hstart; rewrite Hm in Hstart].
    + intros w n' [-> Hw]; apply quiet_ret; by split.
  - intros [w o] n' [Hw Ho]; simpl in Hw, Ho; subst o; apply quiet_ret; simpl; rewrite Hw; by destruct (element_known s elem).
Qed.

Lemma quiet_walkBrowsePath mask s path start n : space_ok s -> elements path <> [] ->
  lookup_node s start = lookup_node s (startingNode path) ->
  quiet (walkBrowsePath path mask 10 [start] 10 10) (set_allocs s n) (fun r =>
    found_or_failed s path (path_ids s mask None (elements path) [start]) (final_status r.2 r.1) r.2).
Proof.
  intros Hok Hne Hstart; destruct (lookup_node s (startingNode path)) as [m|] eqn:Hm; rewrite ?Hm in Hstart.
  2: { eapply quiet_mono; [by apply (quiet_walk_missing mask s)|]; intros [st targets] [H Ht]; cbn [fst snd] in *; left.
       assert (path_ids s mask None (elements path) [start] = []) as ->; [|by rewrite Ht in *].
       destruct (elements path) as [|elem elems]; [done|]; simpl; unfold node_targets; rewrite Hstart.
       rewrite path_ids_nil; by destruct (element_known s elem). }
  unfold walkBrowsePath; set (found := path_ids _ _ _ _ _).
  eapply quiet_bind; [apply quiet_walk_elements; [done| |done|done]|].
  { intros id ->%list_elem_of_singleton; by rewrite Hstart. }
  intros [w o] n1 [[Hst Hfound]|(Hst & Hmem & Ho)]; simpl in *.
  2: { subst o; apply quiet_ret; right; simpl; rewrite (proj2 (bad_true _) Hst); by split_and!. }
  fold found in Hfound; destruct o as [[current last]|].
  2: { apply quiet_ret; left; cbn [fst snd]; rewrite Hst, Hfound; split; [|done].
       apply (final_status_found s path []); right; by eexists. }
  eapply quiet_bind with (P := fun b : bool => memory -> b = true).
  { destruct (_ <? _); [by apply quiet_malloc|by apply quiet_ret]. }
  intros b n2 Hb; destruct b; cbn [negb].
  - eapply quiet_bind; [apply (quiet_addTargets mask last s); by apply space_readable|]; intros targets n3 <-.
    apply quiet_ret; left; cbn [fst snd]; rewrite Hst, <- Hfound; split; [|done].
    apply final_status_found; right; by eexists.
  - apply quiet_ret; right; split; [done|]; split; [intros Hmem; by specialize (Hb Hmem)|done].
Qed.

Lemma quiet_TranslateBrowsePath mask s path : space_ok s -> copyable (startingNode path) ->
  elements path <> [] -> existsb (fun e => UA_QualifiedName_isNull (targetName e)) (elements path) = false ->
  quiet (Operation_TranslateBrowsePathToNodeIds mask path) s (fun r =>
    found_or_failed s path (path_ids s mask None (elements path) [copied_id (startingNode path)])
      (bp_statusCode r) (bp_targets r) /\ (targets_dangling r = true -> ~ memory)).
Proof.
  intros Hok Hc Hne Hnames; unfold Operation_TranslateBrowsePathToNodeIds; rewrite Hnames.
  assert (Hfail : forall st b, st <> GOOD -> ~ memory ->
    found_or_failed s path (path_ids s mask None (elements path) [copied_id (startingNode path)]) st [] /\
    (b = true -> ~ memory)) by (split; [by right|done]).
  destruct (elements path) as [|elem elems] eqn:Hel; [done|]; rewrite <- Hel in *; clear Hel.
  do 3 (eapply quiet_bind; [apply quiet_malloc; intros b Hb; exact Hb|];
        let b := fresh "b" in let Hb := fresh "Hb" in intros b ? Hb; cbv beta in Hb;
        destruct b; cbn [negb]; [clear Hb|apply quiet_ret, Hfail; [done|intros Hm; by specialize (Hb Hm)]]).
  eapply quiet_bind; [apply quiet_NodeId_copy|]; intros [st start] n' [G1 M1]; cbn [fst snd] in *.
  destruct (bad st) eqn:Hbad.
  { apply quiet_ret, Hfail; [by apply bad_true|]; intros Hm; by rewrite (M1 Hm Hc) in Hbad. }
  apply bad_false in Hbad; rewrite (G1 Hbad).
  eapply quiet_bind; [apply (quiet_walkBrowsePath mask s path (copied_id (startingNode path))); [done|done|]|].
  { unfold lookup_node; by rewrite (find_node_same s _ (startingNode path)) by by apply copied_id_same. }
  intros [st' targets] n2 Hr; cbn [fst snd] in Hr; apply quiet_ret.
  fold (final_status targets st'); destruct (bad (final_status targets st')) eqn:Hb; [|by split].
  split; [|done]; cbn [path_error bp_statusCode bp_targets].
  destruct Hr as [[H1 H2]|H]; [|right; by split_and!; [apply bad_true|apply H|]].
  left; split; [done|]; unfold path_status in H1; destruct (path_ids _ _ _ _ _); [done|by rewrite H1 in Hb].
Qed.
End Found.
