(* ===== verification/SpaceCheck.v ===== *)
(** * Checking an address space

    Boolean checks for the invariant of the space, for mutual references and for
    ranks of children, with an example of an address space they hold of: a line
    of three machines and the types of references it uses. *)

From Stdlib Require Import ZArith Lia.
From stdpp Require Import base list numbers tactics sets gmap relations.
From S2P Require Import Prelude StateMonad UaTypes NodeStore AddressSpace NodeTree AddressLogic Browse BrowseCorrect NodeManagement NodeReferences ReferencesMutual NodeDelete.

(** ** Nodes *)

Section UniqueCheck.
Context {A : Type} (same : A -> A -> bool).

Fixpoint uniqueb (l : list A) : bool :=
  match l with
  | [] => true
  | a :: l => forallb (fun b => negb (same a b) && negb (same b a)) l && uniqueb l
  end.

Lemma uniqueb_unique l : uniqueb l = true -> unique_by same l.
Proof.
  induction l as [|a l IH]; [by intros _ i j x y|]; simpl.
  intros [Ha Hl]%andb_true_iff; rewrite forallb_forall in Ha; specialize (IH Hl).
  intros i j x y Hx Hy Hs; destruct i as [|i], j as [|j]; simpl in Hx, Hy; simplify_eq; try done.
  - apply list_elem_of_lookup_2, list_elem_of_In, Ha, andb_true_iff in Hy as [H _]; by rewrite Hs in H.
  - apply list_elem_of_lookup_2, list_elem_of_In, Ha, andb_true_iff in Hx as [_ H]; by rewrite Hs in H.
  - f_equal; by eapply IH.
Qed.
End UniqueCheck.

Definition copyableb (id : UA_NodeId) : bool := nodeid_eqb id id.

Definition local_targetb (t : UA_ExpandedNodeId) : bool :=
  copyableb (eni_nodeId t) && bool_decide (arr_list (eni_namespaceUri t) = []) && (eni_serverIndex t =? 0).

Definition kind_wfb (rk : UA_NodeReferenceKind) : bool :=
  copyableb (rk_referenceTypeId rk) && negb (bool_decide (targetIds rk = [])) &&
  forallb local_targetb (targetIds rk) && uniqueb target_same (targetIds rk).

Definition node_wfb (n : UA_Node) : bool :=
  copyableb (nodeId n) && forallb kind_wfb (references n) && uniqueb kind_same (references n).

Lemma forallb_Forall' {A} (f : A -> bool) (P : A -> Prop) l :
  (forall a, f a = true -> P a) -> forallb f l = true -> Forall P l.
Proof. intros Hf Hl; rewrite forallb_forall in Hl; apply Forall_forall; intros a Ha; by apply Hf, Hl, list_elem_of_In. Qed.

Lemma node_wfb_wf n : node_wfb n = true -> node_wf n.
Proof.
  unfold node_wfb; intros [[Hc Hk]%andb_true_iff Hu]%andb_true_iff; split; [by apply copyable_refl|].
  split; [|by apply uniqueb_unique]; eapply forallb_Forall'; [|exact Hk]; intros rk H.
  unfold kind_wfb in H; repeat apply andb_true_iff in H as [H ?]; split.
  - by apply copyable_refl.
  - by case_bool_decide.
  - eapply forallb_Forall'; [|done]; intros t Ht; unfold local_targetb in Ht.
    repeat apply andb_true_iff in Ht as [Ht ?]; split; [by apply copyable_refl|]; split; [by case_bool_decide|by zbool].
  - by apply uniqueb_unique.
Qed.

(** ** Spaces *)

Definition stored_nodes (s : AddressSpace) : list UA_Node := omap (fun p => nodes s !! p) (stored s).

Definition space_okb (s : AddressSpace) : bool :=
  bool_decide (NoDup (stored s)) &&
  bool_decide (Forall (fun p => is_Some (nodes s !! p)) (stored s ++ held s)) &&
  bool_decide (map_Forall (fun p _ => p ∈ stored s ++ held s) (nodes s)) &&
  forallb node_wfb (stored_nodes s) &&
  forallb (fun p => forallb (fun q =>
    match nodes s !! p, nodes s !! q with
    | Some n, Some m => negb (nodeid_eqb (nodeId n) (nodeId m)) || bool_decide (p = q)
    | _, _ => true
    end) (stored s)) (stored s).

Lemma space_okb_ok s : space_okb s = true -> space_ok s.
Proof.
  unfold space_okb; intros [[[[H1 H2]%andb_true_iff H3]%andb_true_iff H4]%andb_true_iff H5]%andb_true_iff.
  apply bool_decide_eq_true in H1, H2, H3; rewrite Forall_forall in H2; rewrite forallb_forall in H4, H5.
  split; try done.
  - intros p Hp; by apply H2, elem_of_app.
  - intros p n Hn; apply elem_of_app; by eapply H3.
  - intros p n Hp Hn; apply node_wfb_wf, H4, list_elem_of_In.
    unfold stored_nodes; apply list_elem_of_omap; by exists p.
  - intros p q n m Hp Hq Hn Hm He; specialize (H5 p (proj1 (list_elem_of_In _ _) Hp)).
    rewrite forallb_forall in H5; specialize (H5 q (proj1 (list_elem_of_In _ _) Hq)).
    rewrite Hn, Hm, He in H5; simpl in H5; by case_bool_decide.
Qed.

Definition has_refb (l : list UA_NodeReferenceKind) (type : UA_NodeId) (inverse : bool) (id : UA_NodeId) : bool :=
  existsb (fun rk => eqb (rk_isInverse rk) inverse && nodeid_eqb (rk_referenceTypeId rk) type &&
    existsb (fun t => nodeid_eqb (eni_nodeId t) id) (targetIds rk)) l.

Lemma has_refb_ref l type inverse id : has_refb l type inverse id = true -> has_ref l type inverse id.
Proof.
  unfold has_refb; rewrite existsb_exists; intros (rk & Hin & H); repeat apply andb_true_iff in H as [H ?].
  rewrite existsb_exists in *; destruct H0 as (t & Ht & He).
  exists rk, t; rewrite !list_elem_of_In; split_and!; try done; by apply eqb_prop.
Qed.

(** A test for all references of the nodes in the store. *)
Definition all_refs (s : AddressSpace) (test : nat -> UA_NodeReferenceKind -> UA_ExpandedNodeId -> bool) : bool :=
  forallb (fun p => match nodes s !! p with
    | Some n => forallb (fun rk => forallb (test p rk) (targetIds rk)) (references n)
    | None => true
    end) (stored s).

Lemma all_refs_spec s test p n rk t : all_refs s test = true -> p ∈ stored s -> nodes s !! p = Some n ->
  rk ∈ references n -> t ∈ targetIds rk -> test p rk t = true.
Proof.
  unfold all_refs; rewrite forallb_forall; intros H Hp Hn Hrk Ht.
  specialize (H p (proj1 (list_elem_of_In _ _) Hp)); rewrite Hn, forallb_forall in H.
  specialize (H rk (proj1 (list_elem_of_In _ _) Hrk)); rewrite forallb_forall in H.
  by apply H, list_elem_of_In.
Qed.

Definition mutualb (s : AddressSpace) : bool := all_refs s (fun p rk t =>
  match find_node s (eni_nodeId t) with
  | Some q => match nodes s !! q with
              | Some m => has_refb (references m) (rk_referenceTypeId rk) (negb (rk_isInverse rk)) (id_at s p)
              | None => false
              end
  | None => false
  end).

Lemma mutualb_mutual s : mutualb s = true -> mutual s.
Proof.
  intros H p type inverse x Hp (n & Hn & rk & t & Hrk & <- & Hty & Ht & Hx).
  pose proof (all_refs_spec _ _ p n rk t H Hp Hn Hrk Ht) as Hb; simpl in Hb.
  rewrite (find_node_same s (eni_nodeId t) x) in Hb by done.
  destruct (find_node s x) as [q|]; [|done]; exists q; split; [done|].
  destruct (nodes s !! q) as [m|] eqn:Hm; [|done]; apply has_refb_ref in Hb; exists m; split; [done|].
  eapply has_ref_same; [exact Hty|apply copyable_refl|exact Hb].
  destruct Hb as (rk' & t' & _ & _ & _ & _ & He); apply copyable_refl.
  eapply nodeid_eqb_trans; [|exact He]; by rewrite UA_NodeId_equal_sym.
Qed.

(** Every node that may be a child has a smaller rank. *)
Definition rankedb (rank : nat -> nat) (s : AddressSpace) : bool := all_refs s (fun p rk t =>
  match find_node s (eni_nodeId t) with
  | Some q =>
      match nodes s !! q with
      | Some m => rk_isInverse rk || bool_decide (q = p) || bool_decide (rank q < rank p)%nat ||
                  negb (matchClassMask m (nodeClassMask (children_of (id_at s p))))
      | None => true
      end
  | None => true
  end).

Lemma rankedb_ranked rank s : rankedb rank s = true -> ranked rank s.
Proof.
  intros H p q (Hne & Hp & type & x & m & (n & Hn & rk & t & Hrk & Hinv & _ & Ht & Hx) & _ & Hq & Hm & Hmask).
  pose proof (all_refs_spec _ _ p n rk t H Hp Hn Hrk Ht) as Hb; cbv beta in Hb.
  rewrite (find_node_same s (eni_nodeId t) x), Hq, Hm, Hinv, Hmask in Hb by done; cbn [orb negb] in Hb.
  rewrite bool_decide_eq_false_2 in Hb by done; by case_bool_decide.
Qed.

(** ** An example *)

Module SpaceExample.
Definition UA_NS0ID_HASCOMPONENT : UA_NodeId := ns0 47.

Definition text (l : list Z) : UA_QualifiedName := mkQualifiedName 1 (ArrData l).
Definition plain (l : list Z) : UA_LocalizedText := mkLocalizedText ArrNull (ArrData l).

Definition refs_to (type : UA_NodeId) (inverse : bool) (ids : list UA_NodeId) : UA_NodeReferenceKind :=
  mkKind type inverse (map local_id ids).

Definition node (id : UA_NodeId) (class : Z) (name : list Z) (refs : list UA_NodeReferenceKind) : UA_Node :=
  mkUaNode id class (text name) (plain name) (plain []) 0 refs false.

Definition line_id : UA_NodeId := mkNodeId 1 (NumericId 10).
Definition machine_id (i : Z) : UA_NodeId := mkNodeId 1 (NumericId i).

Definition machine (i : Z) : UA_Node :=
  node (machine_id i) UA_NODECLASS_OBJECT [77; i] [refs_to UA_NS0ID_HASCOMPONENT true [line_id]].

Definition plant_nodes : list UA_Node := [
  node UA_NS0ID_AGGREGATES UA_NODECLASS_REFERENCETYPE [65] [refs_to UA_NS0ID_HASSUBTYPE false [UA_NS0ID_HASCOMPONENT]];
  node UA_NS0ID_HASCOMPONENT UA_NODECLASS_REFERENCETYPE [67] [refs_to UA_NS0ID_HASSUBTYPE true [UA_NS0ID_AGGREGATES]];
  node line_id UA_NODECLASS_OBJECT [76] [refs_to UA_NS0ID_HASCOMPONENT false [machine_id 1; machine_id 2; machine_id 3]];
  machine 1; machine 2; machine 3].

(** Nothing is handed out, and the session has no continuation point. *)
Definition plant : AddressSpace :=
  mkSpace (list_to_map (imap pair plant_nodes)) (seq 0 6) [] 0 [] [] 5 0.

(** At most two references per node and request. *)
Definition plant_env : Env :=
  Build_Env (fun _ => true) (fun _ => mkGuid 1 2 3 [4; 5; 6; 7; 8; 9; 10; 11]) 2 0 0 0 None None None false false.

(** The machines of the line. *)
Definition descr : UA_BrowseDescription :=
  mkBrowseDescription line_id UA_BROWSEDIRECTION_FORWARD UA_NS0ID_AGGREGATES true 0 63.

Lemma plant_ok : space_ok plant.
Proof. apply space_okb_ok; by vm_compute. Qed.

Lemma plant_mutual : mutual plant.
Proof. apply mutualb_mutual; by vm_compute. Qed.

Definition rank (p : nat) : nat := if decide (p = 2)%nat then 1 else 0.

Lemma plant_ranked : ranked rank plant.
Proof. apply rankedb_ranked; by vm_compute. Qed.
End SpaceExample.
