(* ===== verification/NodeSpace.v ===== *)
(** * The hash map is the node store of the services

    [NodeStore.v] models the node store plugin: a hash map of entries with
    counted references.  The services are modelled on a simpler store, a heap
    of nodes, the list of the stored ones and the list of references that were
    handed out ([AddressSpace.v]).  Every call the services make has the same
    answer in both and leads to related states. *)

From Stdlib Require Import ZArith Lia.
From stdpp Require Import base list numbers tactics gmap.
From S2P Require Import Prelude StateMonad UaTypes NodeStore NodeStoreTable NodeStoreCorrect AddressSpace AddressLogic.

Section Space.
Context {NO : NodeOps UA_Node} (node_id_nodeId : forall n, node_id n = nodeId n).

(** ** Calls of the services *)

(** [Write] is an assignment to members of a node, through a pointer. *)
Inductive StoreCall :=
| Get (id : UA_NodeId)
| Release (p : nat)
| Remove (id : UA_NodeId)
| Write (p : nat) (n : UA_Node).

Inductive StoreAnswer :=
| Nothing
| Found (p : option nat)
| Removed (s : status).

Definition map_call (calloc_ok : Z -> bool) (c : StoreCall) (st : Store UA_Node)
    : option (StoreAnswer * Store UA_Node) :=
  match c with
  | Get id => '(p, st) ← UA_NodeMap_getNode st id; Some (Found p, st)
  | Release p => st ← UA_NodeMap_releaseNode st (Some p); Some (Nothing, st)
  | Remove id => '(s, st) ← UA_NodeMap_removeNode calloc_ok st id; Some (Removed s, st)
  | Write p n => e ← heap st !! p;
      Some (Nothing, store_entry st p (mkMapEntry (orig e) (refCount e) (deleted e) n))
  end.

Definition space_call (c : StoreCall) : M StoreAnswer :=
  match c with
  | Get id => p ← UA_Nodestore_get id; mret (Found p)
  | Release p => _ ← UA_Nodestore_release p; mret Nothing
  | Remove id => s ← UA_Nodestore_remove id; mret (Removed s)
  | Write p n => _ ← write_node p n; mret Nothing
  end.

(** Identifiers are valid, references that are held are released, and a write
    does not change the identifier of a node. *)
Definition proper (c : StoreCall) (s : AddressSpace) : Prop :=
  match c with
  | Get id | Remove id => nodeid_valid id
  | Release p => p ∈ held s
  | Write p n => exists m, nodes s !! p = Some m /\ nodeId n = nodeId m
  end.

(** ** The relation *)

Record models (st : Store UA_Node) (s : AddressSpace) : Prop := mkModels {
  md_store : store_ok st (held s) [];
  md_stored : ptrs (entries (nodemap st)) ≡ₚ stored s;
  md_nodes : forall p, NodeStoreTable.node_at st p = nodes s !! p
}.

Lemma drop_one_perm p l : p ∈ l -> l ≡ₚ p :: drop_one p l.
Proof.
  induction l as [|q l IH]; [by intros ?%not_elem_of_nil|]; simpl; destruct (decide (q = p)) as [->|Hne]; [done|].
  intros [->|Hp]%elem_of_cons; [done|]; rewrite (IH Hp) at 1; apply Permutation_swap.
Qed.

Lemma store_ok_perm (st : Store UA_Node) h h' : store_ok st h [] -> h ≡ₚ h' -> store_ok st h' [].
Proof. intros [H1 H2 H3] Hp; split; [done|done|]; by eapply heap_ok_perm. Qed.

Lemma models_alloc st s p : models st s -> p ∈ stored s \/ p ∈ held s -> is_Some (nodes s !! p).
Proof.
  intros [H1 H2 H3] Hp; rewrite <- H3; unfold NodeStoreTable.node_at.
  destruct (ho_alloc _ _ _ _ (so_heap _ _ _ H1) p) as [e ->]; [|by eexists].
  rewrite H2; destruct Hp; auto.
Qed.

Lemma models_leak st s p : models st s -> is_Some (nodes s !! p) -> p ∈ stored s \/ p ∈ held s.
Proof.
  intros [H1 H2 H3] [n Hn]; rewrite <- H3 in Hn; unfold NodeStoreTable.node_at in Hn.
  destruct (heap st !! p) as [e|] eqn:He; [|done].
  destruct (ho_leak _ _ _ _ (so_heap _ _ _ H1) p e He) as [Hp|[Hp|Hp]]; [left; by rewrite <- H2|by apply not_elem_of_nil in Hp|by right].
Qed.

(** The entry of an identifier is the one [find_node] finds. *)
Lemma models_found st s id p n : models st s -> nodeid_valid id -> p ∈ stored s -> nodes s !! p = Some n ->
  named id n -> find_node s id = Some p.
Proof.
  intros [H1 H2 H3] Hid Hp Hn Hnm.
  assert (Hvalid : forall q m, q ∈ stored s -> nodes s !! q = Some m -> nodeid_valid (nodeId m) /\
            idof st q = Some (nodeId m) /\ q ∈ ptrs (entries (nodemap st))).
  { intros q m Hq Hm; rewrite <- H2 in Hq; rewrite <- H3 in Hm.
    destruct (tw_ids _ _ (so_table _ _ _ H1) q Hq) as (idq & Hidq & Hv).
    rewrite idof_node_at, Hm in Hidq; injection Hidq as <-; rewrite node_id_nodeId in Hv.
    rewrite idof_node_at, Hm; simpl; by rewrite node_id_nodeId. }
  destruct (Hvalid p n Hp Hn) as (Hv & Hidp & Hpp); unfold named in Hnm; rewrite node_id_nodeId in Hnm.
  assert (Hhas : has_id s id p) by (unfold has_id; rewrite Hn; simpl; by apply UA_NodeId_equal_spec).
  destruct (find_node s id) as [q|] eqn:Hq; [|by destruct (find_node_none s id p Hq Hp)].
  apply find_node_some in Hq as [Hqs Hqid]; unfold has_id in Hqid.
  destruct (nodes s !! q) as [m|] eqn:Hm; [|done]; destruct (Hvalid q m Hqs Hm) as (Hvm & Hidq & Hqp).
  simpl in Hqid; apply UA_NodeId_equal_spec in Hqid; [|done..]; f_equal.
  eapply (tw_unique _ _ (so_table _ _ _ H1)); [done..|].
  destruct Hqid as [E1 E2], Hnm as [F1 F2]; split; [congruence|]; unfold string_eqv in *.
  destruct (nid_identifier (nodeId m)), (nid_identifier id), (nid_identifier (nodeId n)); try done; congruence.
Qed.
Lemma models_not_found st s id : models st s -> nodeid_valid id ->
  (forall n, n ∈ contents st -> ~ named id n) -> find_node s id = None.
Proof.
  intros Hmod Hid Hnone; destruct (find_node s id) as [p|] eqn:Hp; [exfalso|done].
  apply find_node_some in Hp as [Hp Hhas]; unfold has_id in Hhas.
  destruct (nodes s !! p) as [n|] eqn:Hn; [|done]; rewrite <- (md_nodes st s Hmod) in Hn.
  rewrite <- (md_stored st s Hmod) in Hp; apply (Hnone n); [apply elem_of_contents; by exists p|].
  destruct (tw_ids _ _ (so_table _ _ _ (md_store st s Hmod)) p Hp) as (idp & Hidp & Hv).
  rewrite idof_node_at, Hn in Hidp; injection Hidp as <-.
  unfold named; rewrite node_id_nodeId in *; by apply UA_NodeId_equal_spec.
Qed.

(** ** The calls *)

(** The entry [p] is in use, or it was freed in both. *)
Lemma models_cleanup st st' s p st_ h : models st s -> store_ok st' h [] -> ptrs (entries (nodemap st')) ≡ₚ st_ ->
  (forall q, q <> p -> NodeStoreTable.node_at st' q = NodeStoreTable.node_at st q) ->
  (heap st' !! p = None \/ NodeStoreTable.node_at st' p = NodeStoreTable.node_at st p) ->
  models st' (cleanup p (set_nodes s (nodes s) st_ h)).
Proof.
  intros Hmod Hok Hst Hsame Hgone; pose proof (md_nodes st s Hmod) as Hn; unfold cleanup; simpl.
  destruct (decide (p ∈ st_ \/ p ∈ h)) as [Hin|Hout]; split; simpl; try done.
  - intros q; destruct (decide (q = p)) as [->|Hne]; [|by rewrite Hsame].
    destruct Hgone as [Hnone|Hp]; [exfalso|by rewrite Hp].
    destruct (ho_alloc _ _ _ _ (so_heap _ _ _ Hok) p) as [e He]; [|congruence].
    rewrite Hst; destruct Hin; auto.
  - intros q; destruct (decide (q = p)) as [->|Hne]; [|by rewrite lookup_delete_ne, Hsame].
    rewrite lookup_delete_eq; unfold NodeStoreTable.node_at; destruct (heap st' !! p) as [e|] eqn:He; [|done].
    exfalso; apply Hout; destruct (ho_leak _ _ _ _ (so_heap _ _ _ Hok) p e He) as [H|[H|H]];
      [left; by rewrite <- Hst|by apply not_elem_of_nil in H|by right].
Qed.

(** A node is written to: its identifier stays. *)
Lemma models_write st s p n m : models st s -> nodes s !! p = Some m -> nodeId n = nodeId m ->
  exists e, heap st !! p = Some e /\
    models (store_entry st p (mkMapEntry (orig e) (refCount e) (deleted e) n))
           (set_nodes s (<[p := n]> (nodes s)) (stored s) (held s)).
Proof.
  intros [H1 H2 H3] Hm Hid; rewrite <- H3 in Hm; unfold NodeStoreTable.node_at in Hm.
  destruct (heap st !! p) as [e|] eqn:He; [|done]; injection Hm as Hm; exists e; split; [done|].
  assert (Hat : forall q, NodeStoreTable.node_at (store_entry st p (mkMapEntry (orig e) (refCount e) (deleted e) n)) q =
            <[p := n]> (nodes s) !! q).
  { intros q; unfold NodeStoreTable.node_at; cbn [store_entry set_heap heap]; destruct (decide (p = q)) as [<-|Hne];
      [by rewrite !lookup_insert_eq|rewrite !lookup_insert_ne by done; apply H3]. }
  split; [|done|exact Hat]; split; [|apply H1|eapply heap_same_meta; [apply H1|exact He|done..]].
  apply (table_wf_ext (idof st)); [apply H1|]; intros q Hq; rewrite !idof_node_at, Hat, H3.
  destruct (decide (p = q)) as [<-|Hne]; [|by rewrite lookup_insert_ne].
  rewrite lookup_insert_eq, <- H3; unfold NodeStoreTable.node_at; rewrite He; simpl.
  by rewrite Hm, !node_id_nodeId, Hid.
Qed.

Lemma call_simulated calloc_ok c st s : models st s -> proper c s ->
  count (nodemap st) < 2 ^ 26 -> zlen (held s) < 65535 ->
  exists a st' s', map_call calloc_ok c st = Some (a, st') /\ space_call c s = Some (a, s') /\ models st' s'.
Proof.
  intros Hmod Hp Hc Hh; pose proof (md_store st s Hmod) as Hok; destruct c as [id|p|id|p n]; simpl in Hp |- *.
  - destruct (get_exact st (held s) [] id Hok Hp Hh) as [(p & n & st' & Hpp & Hn & Hnm & -> & Hok' & Hm & Hsame)|[Hnone ->]].
    + assert (Hf : find_node s id = Some p).
      { eapply models_found; [done|done|by rewrite <- (md_stored st s Hmod)|by rewrite <- (md_nodes st s Hmod)|done]. }
      eexists _, st', (pushed p s); split; [done|]; split.
      { unfold mbind, M_bind; by rewrite (get_some s id p). }
      split; [exact Hok'|by rewrite Hm, (md_stored st s Hmod)|]; intros q; by rewrite Hsame, (md_nodes st s Hmod).
    + eexists _, st, s; split; [done|]; split; [|done]; unfold mbind, M_bind.
      by rewrite get_none by by eapply models_not_found.
  - destruct (release_exact st (held s) [] p Hok Hp) as (h & st' & Hperm & E & Hok' & Hm & Hsame & Hgone); [lia|].
    cbn [UA_NodeMap_releaseNode] in E; rewrite E; eexists _, st', _; split; [done|].
    unfold mbind, M_bind, UA_Nodestore_release; rewrite decide_True by done; split; [done|].
    apply (models_cleanup st); [done|..|exact Hgone].
    + eapply store_ok_perm; [done|]; apply (Permutation_cons_inv (a := p)); by rewrite <- Hperm, <- drop_one_perm.
    + by rewrite Hm, (md_stored st s Hmod).
    + intros q Hq; apply Hsame; by left.
  - destruct (remove_exact calloc_ok st (held s) [] id Hok Hp Hc)
      as [(p & n & st' & Hn & Hnm & -> & Hok' & Hperm & Hout & Hsame & Hgone)|[Hnone ->]].
    + assert (Hin : p ∈ stored s) by (rewrite <- (md_stored st s Hmod), Hperm; by left).
      assert (Hf : find_node s id = Some p) by (eapply models_found; [done|done|done|by rewrite <- (md_nodes st s Hmod)|done]).
      eexists _, st', _; split; [done|]; unfold mbind, M_bind, UA_Nodestore_remove; rewrite Hf; split; [done|].
      apply (models_cleanup st); [done|done| |intros q Hq; unfold NodeStoreTable.node_at; by rewrite Hsame|exact Hgone].
      unfold without; rewrite <- (md_stored st s Hmod), Hperm, filter_cons_False by auto.
      fold (without p (ptrs (entries (nodemap st')))); by rewrite without_notin.
    + eexists _, st, s; split; [done|]; split; [|done]; unfold mbind, M_bind, UA_Nodestore_remove.
      by rewrite (models_not_found st s id).
  - destruct Hp as (m & Hm & Hid); destruct (models_write st s p n m Hmod Hm Hid) as (e & He & Hmod').
    rewrite He; eexists _, _, _; split; [done|]; split; [|exact Hmod'].
    unfold mbind, M_bind, write_node; by rewrite Hm.
Qed.
(** ** Sequences of calls *)

Fixpoint map_calls (calloc_ok : Z -> bool) (cs : list StoreCall) (st : Store UA_Node)
    : option (list StoreAnswer * Store UA_Node) :=
  match cs with
  | [] => Some ([], st)
  | c :: cs =>
      '(a, st) ← map_call calloc_ok c st;
      '(answers, st) ← map_calls calloc_ok cs st;
      Some (a :: answers, st)
  end.

Fixpoint space_calls (cs : list StoreCall) : M (list StoreAnswer) :=
  match cs with
  | [] => mret []
  | c :: cs => a ← space_call c; answers ← space_calls cs; mret (a :: answers)
  end.

(** Every call is proper when it is made. *)
Fixpoint all_proper (cs : list StoreCall) (s : AddressSpace) : Prop :=
  match cs with
  | [] => True
  | c :: cs => proper c s /\ forall a s', space_call c s = Some (a, s') -> all_proper cs s'
  end.

Lemma space_call_sizes c s a s' : space_call c s = Some (a, s') ->
  zlen (held s') <= zlen (held s) + 1 /\ zlen (stored s') <= zlen (stored s).
Proof.
  assert (Hclean : forall p t, held (cleanup p t) = held t /\ stored (cleanup p t) = stored t)
    by (intros p t; unfold cleanup; by destruct (decide _)).
  assert (Hdrop : forall p l, (length (drop_one p l) <= length l)%nat).
  { intros p l; induction l as [|q l IH]; simpl; [lia|]; destruct (decide (q = p)); simpl; lia. }
  destruct c as [id|p|id|p n]; simpl; intros H; apply bind_inv in H as (x & t & H & [_ ->]%ret_inv); revert H.
  - unfold UA_Nodestore_get; destruct (find_node s id); intros [= _ <-]; simpl; rewrite ?zlen_cons; lia.
  - unfold UA_Nodestore_release; destruct (decide _); [|done]; intros [= _ <-].
    destruct (Hclean p (set_nodes s (nodes s) (stored s) (drop_one p (held s)))) as [-> ->]; simpl.
    specialize (Hdrop p (held s)); unfold zlen; lia.
  - unfold UA_Nodestore_remove; destruct (find_node s id) as [p|]; intros [= _ <-]; [|lia].
    destruct (Hclean p (set_nodes s (nodes s) (without p (stored s)) (held s))) as [-> ->]; simpl.
    pose proof (length_filter (fun b => b <> p) (stored s)); unfold without, zlen; lia.
  - unfold write_node; destruct (nodes s !! p); simpl; [|done]; intros [= _ <-]; simpl; lia.
Qed.

Lemma models_count st s : models st s -> count (nodemap st) = zlen (stored s).
Proof. intros [H1 H2 _]; by rewrite (so_count _ _ _ H1), H2. Qed.

(** C23: the hash map of the node store plugin implements the store the
    services are modelled on.  From related states (the same nodes at the same
    pointers, the same nodes stored, the same references handed out) every
    sequence of the calls that the modelled services make, looking up,
    releasing, removing and editing nodes, has the same answers in both, ends
    without touching freed memory, and leads to related states, as long as less
    than 2^26 nodes are stored and less than 65535 references are handed out.
    The modelled services insert no nodes. *)
Theorem nodestore_implements_space calloc_ok cs : forall st s, models st s -> all_proper cs s ->
  zlen (stored s) < 2 ^ 26 -> zlen (held s) + zlen cs < 65535 ->
  exists answers st' s', map_calls calloc_ok cs st = Some (answers, st') /\
    space_calls cs s = Some (answers, s') /\ models st' s'.
Proof.
  induction cs as [|c cs IH]; intros st s Hmod Hp Hst Hh; [by exists [], st, s|].
  destruct Hp as [Hp Hps]; rewrite zlen_cons in Hh; pose proof (zlen_nonneg cs).
  destruct (call_simulated calloc_ok c st s Hmod Hp) as (a & st1 & s1 & E1 & F1 & Hmod1);
    [by rewrite (models_count st s)|lia|].
  pose proof (space_call_sizes c s a s1 F1) as [Hh1 Hst1].
  destruct (IH st1 s1 Hmod1 (Hps a s1 F1)) as (answers & st2 & s2 & E2 & F2 & Hmod2); [lia|lia|].
  exists (a :: answers), st2, s2; cbn [map_calls space_calls]; unfold mbind, M_bind; rewrite F1, F2.
  cbn [mbind option_bind]; by rewrite E1; cbn [mbind option_bind]; rewrite E2.
Qed.
End Space.

(** ** An example *)

Module SpaceStoreExample.
#[export] Instance node_ops : NodeOps UA_Node := {|
  node_id := nodeId;
  set_numeric n i := mkUaNode (mkNodeId (nid_namespaceIndex (nodeId n)) (NumericId i)) (nodeClass n)
    (browseName n) (displayName n) (description n) (writeMask n) (references n) (has_destructor n);
  node_class := nodeClass;
  node_new c := mkUaNode UA_NODEID_NULL c (mkQualifiedName 0 ArrNull) (mkLocalizedText ArrNull ArrNull)
    (mkLocalizedText ArrNull ArrNull) 0 [] false;
  node_copy src dst := (GOOD, src);
  set_numeric_id n i := eq_refl;
  set_numeric_twice n i j := eq_refl
|}.

Definition id7 : UA_NodeId := mkNodeId 1 (NumericId 7).

Definition node7 (mask : Z) : UA_Node :=
  mkUaNode id7 UA_NODECLASS_OBJECT (mkQualifiedName 1 (ArrData [55])) (mkLocalizedText ArrNull ArrNull)
    (mkLocalizedText ArrNull ArrNull) mask [] false.

Definition built (c : Call UA_Node) (st : Store UA_Node) : Store UA_Node :=
  default st (snd <$> exec (fun _ => true) c st).

Definition store1 : Store UA_Node := built (NewNode 1 (Some 1%nat)) (new_store UA_Node).
Definition store2 : Store UA_Node := built (EditNode 1 (node7 0)) store1.
Definition store3 : Store UA_Node := built (InsertNode 1 None) store2.

Definition space3 : AddressSpace := mkSpace {[ 1%nat := node7 0 ]} [1%nat] [] 0 [] [] 5 0.

Lemma store3_ok : store_ok store3 [] [].
Proof.
  destruct (exec_ok (NewNode 1 (Some 1%nat)) (new_store UA_Node) [] [] (RNode (Some 1%nat)) store1)
    as (M1 & h1 & o1 & C1 & O1); [exact new_store_ok|split; [by intros ? _|done]|done..|].
  destruct C1 as [C1|C1]; inversion C1; subst.
  destruct (exec_ok (EditNode 1 (node7 0)) store1 [] [1%nat] RNone store2)
    as (M2 & h2 & o2 & C2 & O2); [exact O1|split; [by left|done]|done..|].
  destruct C2 as [C2|C2]; inversion C2; subst.
  destruct (exec_ok (InsertNode 1 None) store2 [] [1%nat] (RStatus GOOD) store3)
    as (M3 & h3 & o3 & C3 & O3); [exact O2|split; [by left|]|done..|].
  { intros n Hn; vm_compute in Hn; by injection Hn as <-. }
  assert (o3 = [] /\ h3 = []) as [-> ->]; [|done].
  destruct C3 as [C3|C3]; inversion C3; subst; (split; [|done]); apply Permutation_nil, (Permutation_cons_inv (a := 1%nat)); done.
Qed.

Lemma store3_models : models store3 space3.
Proof.
  split; [exact store3_ok|by vm_compute|]; intros p; unfold NodeStoreTable.node_at.
  assert (Hheap : heap store3 = {[ 1%nat := mkMapEntry None 0 false (node7 0) ]}) by by vm_compute.
  rewrite Hheap; unfold space3; cbn [nodes]; destruct (decide (p = 1%nat)) as [->|Hne].
  - by rewrite !lookup_singleton_eq.
  - by rewrite !lookup_singleton_ne.
Qed.

(** The node is removed while it is edited. *)
Definition calls : list StoreCall := [Get id7; Remove id7; Write 1 (node7 3); Get id7; Release 1].

Lemma calls_proper : all_proper calls space3.
Proof.
  split; [done|]; intros a1 s1 H1; vm_compute in H1; injection H1 as _ <-.
  split; [done|]; intros a2 s2 H2; vm_compute in H2; injection H2 as _ <-.
  split; [by eexists|]; intros a3 s3 H3; vm_compute in H3; injection H3 as _ <-.
  split; [done|]; intros a4 s4 H4; vm_compute in H4; injection H4 as _ <-.
  split; [by left|]; by intros a5 s5 _.
Qed.
End SpaceStoreExample.
Import SpaceStoreExample.

Lemma nodestore_implements_space_witness : exists st' s',
  map_calls (fun _ => true) calls store3 = Some ([Found (Some 1%nat); Removed GOOD; Nothing; Found None; Nothing], st') /\
  models st' s' /\ nodes s' = ∅.
Proof.
  destruct (nodestore_implements_space (NO := node_ops) (fun n => eq_refl) (fun _ => true) calls store3 space3 store3_models calls_proper)
    as (answers & st' & s' & H1 & H2 & Hmod).
  - by vm_compute.
  - by vm_compute.
  - exists st', s'; vm_compute in H2; injection H2 as <- <-; split; [exact H1|]; split; [exact Hmod|by vm_compute].
Defined.
