(* ===== verification/AddressCorrect.v ===== *)
(** * The continuation points of the session

    A session has five continuation points, used or available, whatever is
    requested.  Only Browse, BrowseNext and the deletion of nodes, which browses
    for children, touch them. *)

From Stdlib Require Import ZArith Lia.
From stdpp Require Import base list numbers tactics sets gmap relations.
From S2P Require Import Prelude StateMonad UaTypes NodeStore AddressSpace NodeTree Browse AddressLogic BrowseCorrect NodeManagement NodeReferences ReferencesMutual NodeDelete.

(** [UA_MAXCONTINUATIONPOINTS] ([src/server/ua_session.h]) *)
Definition UA_MAXCONTINUATIONPOINTS : Z := 5.

(** The points that are used and those that are left are all there are. *)
Definition session_ok (s : AddressSpace) : Prop :=
  zlen (continuationPoints s) + availableContinuationPoints s = UA_MAXCONTINUATIONPOINTS /\
  0 <= availableContinuationPoints s /\ Forall (fun cp => 0 <= maxReferences cp) (continuationPoints s).

Definition points (s : AddressSpace) : list ContinuationPointEntry * Z :=
  (continuationPoints s, availableContinuationPoints s).

(** ** What does not touch them *)

Create HintDb points.

Ltac points :=
  repeat first [solve [auto with points nocore] | keeps_step].

Section Keep.
Context {E : Env}.

Lemma keeps_points_malloc : keeps points malloc.
Proof. intros s a s' [= _ <-]; done. Qed.

Lemma keeps_points_get id : keeps points (UA_Nodestore_get id).
Proof. intros s a s'; unfold UA_Nodestore_get; destruct (find_node s id); by intros [= _ <-]. Qed.

Lemma points_cleanup p s : points (cleanup p s) = points s.
Proof. unfold cleanup; by destruct (decide _). Qed.

Lemma keeps_points_release p : keeps points (UA_Nodestore_release p).
Proof.
  intros s a s'; unfold UA_Nodestore_release; destruct (decide _); [|done].
  intros [= _ <-]; by rewrite points_cleanup.
Qed.

Lemma keeps_points_remove id : keeps points (UA_Nodestore_remove id).
Proof.
  intros s a s'; unfold UA_Nodestore_remove; destruct (find_node s id); intros [= _ <-]; [|done].
  by rewrite points_cleanup.
Qed.

Lemma keeps_points_node_at p : keeps points (node_at p).
Proof. intros s a s' [_ ->]%the_inv; done. Qed.

Lemma keeps_points_write_node p n : keeps points (write_node p n).
Proof. intros s a s'; unfold write_node; destruct (nodes s !! p); simpl; by intros [= _ <-]. Qed.

#[local] Hint Resolve keeps_points_malloc keeps_points_get keeps_points_release keeps_points_remove
  keeps_points_node_at keeps_points_write_node : points.

Lemma keeps_points_String_copy str : keeps points (UA_String_copy str).
Proof. unfold UA_String_copy; points. Qed.
#[local] Hint Resolve keeps_points_String_copy : points.

Lemma keeps_points_NodeId_copy id : keeps points (UA_NodeId_copy id).
Proof. unfold UA_NodeId_copy; points. Qed.
#[local] Hint Resolve keeps_points_NodeId_copy : points.

Lemma keeps_points_copies :
  (forall id, keeps points (UA_ExpandedNodeId_copy id)) /\
  (forall n, keeps points (UA_QualifiedName_copy n)) /\ (forall t, keeps points (UA_LocalizedText_copy t)).
Proof.
  split_and!; intros ?; unfold UA_ExpandedNodeId_copy, UA_QualifiedName_copy, UA_LocalizedText_copy; points.
Qed.

Lemma keeps_points_addReference node item : keeps points (UA_Node_addReference node item).
Proof.
  unfold UA_Node_addReference, addReferenceKind, addReferenceTarget; pose proof (proj1 keeps_points_copies); points.
Qed.

Lemma keeps_points_editNode id callback : (forall n, keeps points (callback n)) ->
  keeps points (UA_Server_editNode id callback).
Proof. intros H; unfold UA_Server_editNode; points. Qed.

Lemma keeps_points_search find types fuel : forall leaf visited depth,
  keeps points (isNodeInTreeNoCircular find types fuel leaf visited depth).
Proof.
  induction fuel as [|fuel IH]; intros leaf visited depth; cbn [isNodeInTreeNoCircular]; points.
  assert (Htargets : forall targets, keeps points
            (search_targets (isNodeInTreeNoCircular find types fuel) visited depth targets)).
  { induction targets; cbn [search_targets]; points. }
  match goal with |- keeps _ (search_kinds _ _ _ _ ?l) => induction l; cbn [search_kinds]; points end.
Qed.

Lemma keeps_points_isNodeInTree leaf find types : keeps points (isNodeInTree leaf find types).
Proof. apply keeps_points_search. Qed.

Lemma keeps_points_getNodeType n : keeps points (getNodeType n).
Proof.
  unfold getNodeType; points.
  match goal with |- keeps _ (getNodeType_loop _ _ _ ?l) => induction l; cbn [getNodeType_loop]; points end.
Qed.
#[local] Hint Resolve keeps_points_isNodeInTree keeps_points_getNodeType : points.

Lemma keeps_points_fill n rk mask : keeps points (fillReferenceDescription n rk mask).
Proof.
  unfold fillReferenceDescription, copy_if, copy_type; destruct keeps_points_copies as (? & ? & ?); points.
Qed.
#[local] Hint Resolve keeps_points_fill : points.

Lemma keeps_points_targets descr maxrefs rk kind targets : forall ti refs size,
  keeps points (browse_targets descr maxrefs rk kind ti targets refs size).
Proof.
  induction targets as [|t targets IH]; intros ti refs size; cbn [browse_targets]; unfold browse_target; points.
Qed.

Lemma keeps_points_kinds descr maxrefs kinds : forall kind ti refs size,
  keeps points (browse_kinds descr maxrefs kind ti kinds refs size).
Proof.
  pose proof (keeps_points_targets descr maxrefs).
  induction kinds as [|rk kinds IH]; intros kind ti refs size; cbn [browse_kinds];
    unfold kind_relevant, relevantReference; points.
Qed.
#[local] Hint Resolve keeps_points_kinds : points.

Lemma keeps_points_browse cp : keeps points (browseWithContinuation cp).
Proof. unfold browseWithContinuation, is_reference_type, browseReferences; points. Qed.

(** The continuation point that comes back is for pages of the same size. *)
Lemma browse_cp_max cp s r s' : browseWithContinuation cp s = Some (r, s') ->
  maxReferences r.1.2 = maxReferences cp.
Proof.
  unfold browseWithContinuation; intros H.
  destruct (negb _); [by apply ret_inv in H as [-> _]|].
  apply bind_inv in H as (isRef & s1 & _ & H); destruct (negb isRef); [by apply ret_inv in H as [-> _]|].
  apply bind_inv in H as (node & s2 & _ & H); destruct node as [p|]; [|by apply ret_inv in H as [-> _]].
  apply bind_inv in H as (n & s3 & _ & H); apply bind_inv in H as (r' & s4 & H & Hend).
  apply bind_inv in Hend as (_ & s5 & _ & [-> _]%ret_inv); revert H; unfold browseReferences.
  destruct (references n) as [|rk kinds]; [by intros [-> _]%ret_inv|]; intros H.
  apply bind_inv in H as (ok & s6 & _ & H); destruct (negb ok); [by apply ret_inv in H as [-> _]|].
  apply bind_inv in H as (step & s7 & _ & H); destruct step as [[|d refs] size|k t refs|st];
    by apply ret_inv in H as [-> _].
Qed.

(** ** What keeps their number *)

Definition keeps_session {A} (m : M A) : Prop :=
  forall s a s', session_ok s -> m s = Some (a, s') -> session_ok s'.

Lemma session_points s s' : points s' = points s -> session_ok s -> session_ok s'.
Proof. unfold points, session_ok; by intros [= -> ->]. Qed.

Lemma points_session {A} (m : M A) : keeps points m -> keeps_session m.
Proof. intros H s a s' Hs E0; eapply session_points; [by eapply H|done]. Qed.

Lemma session_bind {A B} (m : M A) (k : A -> M B) :
  keeps_session m -> (forall a, keeps_session (k a)) -> keeps_session (m ≫= k).
Proof. intros Hm Hk s b s' Hs (a & s1 & H1 & H2)%bind_inv; eapply Hk; [by eapply Hm|exact H2]. Qed.

Lemma session_ret {A} (a : A) : keeps_session (mret a).
Proof. by apply points_session, keeps_mret. Qed.

(** The parts that are used are at most five, so the counter does not wrap. *)
Lemma session_removed s i cp : session_ok s -> continuationPoints s !! i = Some cp ->
  session_ok (set_cps s (delete i (continuationPoints s)) (u16 (availableContinuationPoints s + 1))).
Proof.
  intros (H1 & H2 & H3) Hi; unfold session_ok, UA_MAXCONTINUATIONPOINTS in *; simpl.
  pose proof (lookup_lt_Some _ _ _ Hi) as Hlt; unfold zlen in *; rewrite (length_delete _ i) by by eexists.
  unfold u16; rewrite Z.mod_small by lia; split; [lia|]; split; [lia|]; by apply Forall_delete.
Qed.

Lemma session_Operation_Browse maxrefs descr : 0 <= maxrefs -> keeps_session (Operation_Browse maxrefs descr).
Proof.
  intros Hm s a s' Hs; unfold Operation_Browse; intros H.
  apply bind_inv in H as ([[done_ cp] result] & s1 & H1 & H).
  pose proof (keeps_points_browse _ _ _ _ H1) as Hp; apply browse_cp_max in H1; simpl in H1.
  apply (session_points _ s1) in Hs; [|done].
  destruct (_ || _); [by apply ret_inv in H as [_ ->]|]; clear Hp.
  revert H; unfold persistCp; intros H; apply bind_inv in H as (available & s2 & [-> ->]%gets_inv & H).
  apply bind_inv in H as (ok & s3 & H3 & H).
  assert (Hpos : points s3 = points s1 /\ (ok = true -> 0 < availableContinuationPoints s1)).
  { destruct (_ <=? 0) eqn:Hle; zbool; [by apply ret_inv in H3 as [-> ->]|].
    split; [exact (keeps_points_malloc _ _ _ H3)|lia]. }
  destruct Hpos as [Hp Hpos]; destruct ok; cbn [negb] in H.
  2: { apply ret_inv in H as [_ ->]; by eapply session_points. }
  specialize (Hpos eq_refl); apply bind_inv in H as ([retval d] & s4 & H4 & H).
  assert (Hcopy : forall d, keeps points (BrowseDescription_copy d))
    by (intros d'; unfold BrowseDescription_copy; points; apply keeps_points_NodeId_copy).
  apply Hcopy in H4; rewrite Hp in H4; clear Hp Hcopy.
  destruct (bad retval); [apply ret_inv in H as [_ ->]; by eapply session_points|].
  apply bind_inv in H as (ok & s5 & H5%keeps_points_malloc & H); rewrite H4 in H5.
  destruct (negb ok); [apply ret_inv in H as [_ ->]; by eapply session_points|].
  apply bind_inv in H as (ident & s6 & H6 & H).
  assert (Hp : points s6 = points s1) by (injection H6 as _ <-; exact H5); clear H6.
  apply bind_inv in H as ([retval' v] & s7 & H7%keeps_points_String_copy & H); rewrite Hp in H7.
  destruct (bad retval'); [apply ret_inv in H as [_ ->]; by eapply session_points|].
  apply bind_inv in H as ([] & s8 & H8%modify_inv & [_ ->]%ret_inv).
  destruct Hs as (E1 & E2 & E3); injection H7 as C1 C2; subst s8; unfold session_ok; simpl.
  rewrite C1, C2, zlen_cons; split; [lia|]; split; [lia|]; constructor; [simpl; lia|done].
Qed.
(** The number of points is the same when one is moved on. *)
Lemma session_moved s i cp cp' : session_ok s -> continuationPoints s !! i = Some cp ->
  maxReferences cp' = maxReferences cp ->
  session_ok (set_cps s (<[i := cp']> (continuationPoints s)) (availableContinuationPoints s)).
Proof.
  intros (H1 & H2 & H3) Hi Hmax; unfold session_ok; simpl; unfold zlen in *; rewrite length_insert.
  split; [done|]; split; [done|]; apply Forall_insert; [done|]; rewrite Hmax.
  by eapply Forall_lookup_1 in H3.
Qed.

Lemma session_removeCp i s s' : session_ok s -> is_Some (continuationPoints s !! i) ->
  removeCp i s = Some (tt, s') -> session_ok s'.
Proof.
  intros Hs [cp Hi] H; unfold removeCp in H.
  apply bind_inv in H as (cps & s1 & [-> ->]%gets_inv & H).
  apply bind_inv in H as (n & s2 & [-> ->]%gets_inv & ->%modify_inv).
  by eapply session_removed.
Qed.

Lemma session_Operation_BrowseNext release identifier : keeps_session (Operation_BrowseNext release identifier).
Proof.
  intros s a s' Hs; unfold Operation_BrowseNext; intros H.
  apply bind_inv in H as (cps & s1 & [-> ->]%gets_inv & H).
  destruct (list_find _ _) as [[i cp]|] eqn:Hfind; [|by apply ret_inv in H as [_ ->]].
  apply list_find_Some in Hfind as (Hi & _ & _); destruct release.
  { apply bind_inv in H as ([] & s2 & Hr & [_ ->]%ret_inv); by eapply session_removeCp. }
  apply bind_inv in H as ([[done_ cp'] result] & s2 & H2 & H).
  pose proof (keeps_points_browse _ _ _ _ H2) as Hp; apply browse_cp_max in H2; simpl in H2.
  apply (session_points _ s2) in Hs; [|done]; injection Hp as C1 C2.
  apply bind_inv in H as ([] & s3 & ->%modify_inv & H).
  rewrite <- C1 in Hi; pose proof (session_moved _ _ _ _ Hs Hi H2) as Hs'.
  destruct done_.
  - apply bind_inv in H as ([] & s4 & Hr & [_ ->]%ret_inv); eapply session_removeCp; [exact Hs'| |exact Hr].
    simpl; eexists; apply list_lookup_insert_eq; by eapply lookup_lt_Some.
  - apply bind_inv in H as ([retval v] & s4 & H4%keeps_points_String_copy & [_ ->]%ret_inv).
    by eapply session_points.
Qed.

(** ** Deleting nodes *)

Lemma keeps_points_deleteReference item : keeps points (Operation_deleteReference item).
Proof.
  assert (Hone : forall item, keeps points (UA_Server_editNode (dr_sourceNodeId item) (deleteOneWayReference item)))
    by (intros it; apply keeps_points_editNode; intros n; apply keeps_mret).
  unfold Operation_deleteReference; points.
Qed.

Lemma keeps_points_addReference_op item : keeps points (Operation_addReference item).
Proof.
  assert (Hadd : forall item, keeps points (UA_Server_editNode (ar_sourceNodeId item) (addOneWayReference item)))
    by (intros it; apply keeps_points_editNode; intros n; apply keeps_points_addReference).
  assert (Hdel : forall id item, keeps points (UA_Server_editNode id (deleteOneWayReference item)))
    by (intros id it; apply keeps_points_editNode; intros n; apply keeps_mret).
  unfold Operation_addReference; points.
Qed.

Lemma keeps_points_removeIncoming p : keeps points (removeIncomingReferences p).
Proof.
  pose proof keeps_points_deleteReference; pose proof keeps_points_node_at.
  assert (Htargets : forall fuel i j ty fwd, keeps points (removeIncoming_targets fuel p i j ty fwd)).
  { induction fuel; intros; cbn [removeIncoming_targets]; points. }
  assert (Hkinds : forall fuel i, keeps points (removeIncoming_kinds fuel p i)).
  { induction fuel; intros; cbn [removeIncoming_kinds]; points. }
  unfold removeIncomingReferences; points.
Qed.

Lemma keeps_points_deconstruct p : keeps points (deconstructNode p).
Proof.
  pose proof keeps_points_node_at; pose proof keeps_points_getNodeType; pose proof keeps_points_release.
  unfold deconstructNode, call_destructor; points.
Qed.

Lemma session_removeChildren deleteNode p : (forall item, keeps_session (deleteNode item)) ->
  keeps_session (removeChildren deleteNode p).
Proof.
  intros Hd; unfold removeChildren.
  apply session_bind; [apply points_session, keeps_points_node_at|intros n].
  apply session_bind; [by apply session_Operation_Browse|intros br].
  destruct (bad _); [apply session_ret|].
  induction (arr_list (br_references br)) as [|rd refs IH]; cbn [remove_children]; [apply session_ret|].
  apply session_bind; [apply points_session, keeps_points_node_at|intros m].
  destruct (nodeid_eqb _ _); [done|]; by apply session_bind.
Qed.

Lemma session_deleteNode fuel : forall item, keeps_session (deleteNodeOperation fuel item).
Proof.
  induction fuel as [|fuel IH]; intros item; cbn [deleteNodeOperation]; [by apply points_session, keeps_undefined|].
  assert (Hrel : forall p st, keeps_session (_ ← UA_Nodestore_release p; mret (st : status)))
    by (intros p st; apply session_bind; [apply points_session, keeps_points_release|intros; apply session_ret]).
  destruct (denied _ _); [apply session_ret|].
  apply session_bind; [apply points_session, keeps_points_get|intros [p|]]; [|apply session_ret].
  apply session_bind; [apply points_session, keeps_points_node_at|intros n].
  destruct (UA_Node_hasSubTypeOrInstances n); [apply Hrel|].
  apply session_bind; [apply points_session, keeps_points_deconstruct|intros _].
  apply session_bind; [|intros _; apply Hrel]; unfold removeDeconstructedNode.
  apply session_bind; [by apply session_removeChildren|intros _].
  apply session_bind; [|intros _; apply points_session; pose proof keeps_points_node_at;
    pose proof keeps_points_remove; points].
  destruct (deleteTargetReferences item); [apply points_session, keeps_points_removeIncoming|apply session_ret].
Qed.
End Keep.

(** ** The address space: what the services do

    Browse in pages, BrowseNext with any memory, and what every request leaves:
    a consistent space and the references that were handed out. *)

(** ** Requests *)

Section Requests.
Context {E : Env}.

Inductive AddressRequest :=
| ReqBrowse (viewId : UA_NodeId) (maxrefs : Z) (descrs : list UA_BrowseDescription)
| ReqBrowseNext (release : bool) (identifiers : list UA_ByteString)
| ReqAddReferences (items : list UA_AddReferencesItem)
| ReqDeleteReferences (items : list UA_DeleteReferencesItem)
| ReqDeleteNodes (fuel : nat) (items : list UA_DeleteNodesItem).

Definition exec_request (r : AddressRequest) : M unit :=
  match r with
  | ReqBrowse viewId maxrefs descrs => _ ← Service_Browse viewId maxrefs descrs; mret tt
  | ReqBrowseNext release identifiers => _ ← Service_BrowseNext release identifiers; mret tt
  | ReqAddReferences items => _ ← Service_AddReferences items; mret tt
  | ReqDeleteReferences items => _ ← Service_DeleteReferences items; mret tt
  | ReqDeleteNodes fuel items => _ ← Service_DeleteNodes fuel items; mret tt
  end.

(** The fuel is enough for the depth of the children in a space; they form no
    cycle. *)
Definition deep_enough (fuel : nat) (rank : nat -> nat) (s : AddressSpace) : Prop :=
  ranked rank s /\ forall p, p ∈ stored s -> (rank p < fuel)%nat.

(** Requests that treat references as mutual: to nodes of this server, in both
    directions, and a node is deleted with the references to it. *)
Definition request_ok (r : AddressRequest) (s : AddressSpace) : Prop :=
  match r with
  | ReqBrowse _ maxrefs _ => 0 <= maxrefs
  | ReqBrowseNext _ _ => True
  | ReqAddReferences items => forall item, item ∈ items ->
      copyable (ar_referenceTypeId item) /\ local_target (ar_targetNodeId item)
  | ReqDeleteReferences items => forall item, item ∈ items ->
      deleteBidirectional item = true /\ eni_serverIndex (dr_targetNodeId item) = 0
  | ReqDeleteNodes fuel items => (0 < fuel)%nat /\ (exists rank, deep_enough fuel rank s) /\
      forall item, item ∈ items -> deleteTargetReferences item = true
  end.

Record consistent (s : AddressSpace) : Prop := mkConsistent {
  cs_space : space_ok s;
  cs_mutual : mutual s;
  cs_session : session_ok s
}.

(** Requests that end; that they do is a theorem. *)
Inductive reachable (s : AddressSpace) : AddressSpace -> Prop :=
| ReachStart : reachable s s
| ReachStep t r u : reachable s t -> request_ok r t -> exec_request r t = Some (tt, u) -> reachable s u.

(** A limit is no negative number, and a session that may delete a node may
    delete references. *)
Definition config_ok : Prop :=
  0 <= maxReferencesPerNode /\ forall item, denied allowDeleteReference item = false.

Lemma browse_limit_nonneg n : config_ok -> 0 <= n -> 0 <= browse_limit n.
Proof.
  intros [H _] Hn; unfold browse_limit, UA_INT32_MAX; destruct (n =? 0), (maxReferencesPerNode =? 0);
    simpl; try destruct (_ <? _); lia.
Qed.

(** ** What each request leaves *)

Lemma wp_Operation_BrowseNext s release identifier : config_ok -> readable s -> session_ok s ->
  wp (Operation_BrowseNext release identifier) (fun _ t => unchanged s t) s.
Proof.
  intros Hc Hr (_ & _ & Hs); unfold Operation_BrowseNext; apply wp_bind, wp_gets.
  destruct (list_find _ _) as [[i cp]|] eqn:Hfind; [|by apply wp_ret].
  apply list_find_Some in Hfind as (Hi & _ & _); rewrite Forall_lookup in Hs; specialize (Hs i cp Hi).
  assert (Hcp : forall t, unchanged s t -> wp (removeCp i) (fun _ t => unchanged s t) t).
  { intros t Ht; unfold removeCp; apply wp_bind, wp_gets, wp_bind, wp_gets, wp_modify; exact Ht. }
  destruct release; [apply wp_bind; eapply wp_mono; [by apply Hcp|by intros [] t]|].
  eapply wp_quiet; [apply quiet_browseWithContinuation; [done|by apply browse_limit_nonneg]|].
  intros [[done_ cp'] result] n _; apply wp_bind, wp_modify; destruct done_.
  - apply wp_bind; eapply wp_mono; [by apply Hcp|by intros [] t].
  - eapply wp_quiet; [apply quiet_String_copy|]; intros [retval v] n' _; by apply wp_ret.
Qed.

(** A consistent space, and nothing more is handed out than before. *)
Definition settled (s t : AddressSpace) : Prop := space_ok t /\ mutual t /\ held t = held s.

Lemma settled_unchanged s t : space_ok s -> mutual s -> unchanged s t -> settled s t.
Proof.
  intros Hok Hm H%unchanged_idle; split; [by eapply idle_ok|]; split; [by eapply idle_mutual|apply H].
Qed.

(** What the requests keep, from the space that the first one found. *)
Definition kept (s t : AddressSpace) : Prop := consistent t /\ held t = held s.

Lemma consistent_allocs s n : consistent s -> consistent (set_allocs s n).
Proof.
  intros [Hok Hm Hs]; pose proof (unchanged_idle _ _ (unchanged_allocs s n)) as Hi.
  split; [by eapply idle_ok|by eapply idle_mutual|exact Hs].
Qed.

Lemma wp_kept {A} (m : M A) (Q : A -> AddressSpace -> Prop) s t :
  keeps_session m -> kept s t -> wp m Q t -> (forall a u, Q a u -> settled t u) -> wp m (fun a u => kept s u /\ Q a u) t.
Proof.
  intros Hm [[_ _ Hs] Hh] Hw HQ; unfold wp in *; destruct (m t) as [[a u]|] eqn:Hu; [|done].
  destruct (HQ a u Hw) as (H1 & H2 & H3); split; [|done].
  split; [split; [done|done|by eapply Hm]|congruence].
Qed.

(** A service does its operations one after the other. *)
Section Service.
Context {A B : Type} (operation : A -> M B) (Inv : AddressSpace -> Prop).
Context (Hallocs : forall s n, Inv s -> Inv (set_allocs s n)).

Lemma wp_run_operations ops : (forall a s, a ∈ ops -> Inv s -> wp (operation a) (fun _ t => Inv t) s) ->
  forall s, Inv s -> wp (run_operations operation ops) (fun _ t => Inv t) s.
Proof using.
  clear Hallocs; induction ops as [|a ops IH]; intros Hop s Hs; [by apply wp_ret|]; cbn [run_operations].
  apply wp_bind; eapply wp_mono; [apply Hop; [by left|done]|]; intros b t Ht; cbv beta in Ht.
  apply wp_bind; eapply wp_mono; [apply IH; [|done]; intros a' s' Ha'; apply Hop; by right|].
  intros bs u Hu; by apply wp_ret.
Qed.

Lemma wp_service ops s : (forall a s, a ∈ ops -> Inv s -> wp (operation a) (fun _ t => Inv t) s) ->
  Inv s -> wp (UA_Server_processServiceOperations operation ops) (fun _ t => Inv t) s.
Proof.
  intros Hop Hs; unfold UA_Server_processServiceOperations; destruct ops as [|a ops]; [by apply wp_ret|].
  apply wp_bind; unfold wp at 1, malloc; destruct (malloc_ok _); cbn [negb]; [|by apply wp_ret, Hallocs].
  apply wp_bind; eapply wp_mono; [apply wp_run_operations; [done|by apply Hallocs]|]; intros bs t Ht; by apply wp_ret.
Qed.

Lemma wp_limited_service ops s : (forall a s, a ∈ ops -> Inv s -> wp (operation a) (fun _ t => Inv t) s) ->
  Inv s -> wp (limited_service operation ops) (fun _ t => Inv t) s.
Proof. intros Hop Hs; unfold limited_service; destruct (too_many _ _); [by apply wp_ret|by apply wp_service]. Qed.
End Service.

(** ** The operations of the services *)

Lemma kept_allocs s t n : kept s t -> kept s (set_allocs t n).
Proof. intros [H Hh]; split; [by apply consistent_allocs|done]. Qed.

Lemma wp_kept_left {A} (m : M A) Q s t :
  wp m (fun a u => kept s u /\ Q a u) t -> wp m (fun _ u => kept s u) t.
Proof. intros H; eapply wp_mono; [exact H|by intros a u []]. Qed.

Lemma kept_Browse s t maxrefs descr : config_ok -> 0 <= maxrefs -> kept s t ->
  wp (Operation_Browse maxrefs descr) (fun _ u => kept s u) t.
Proof.
  intros Hc Hmax Hk; pose proof Hk as [[Hok Hm Hs] Hh]; eapply wp_kept_left, wp_kept; [|done| |].
  - by apply session_Operation_Browse.
  - apply wp_Operation_Browse; [by apply space_readable|by apply browse_limit_nonneg].
  - intros a u (Hun & _); by apply settled_unchanged.
Qed.

Lemma kept_BrowseNext s t release identifier : config_ok -> kept s t ->
  wp (Operation_BrowseNext release identifier) (fun _ u => kept s u) t.
Proof.
  intros Hc Hk; pose proof Hk as [[Hok Hm Hs] Hh]; eapply wp_kept_left, wp_kept; [|done| |].
  - apply session_Operation_BrowseNext.
  - by apply wp_Operation_BrowseNext; [|apply space_readable|].
  - intros a u Hun; by apply settled_unchanged.
Qed.

Lemma kept_addReference s t item : copyable (ar_referenceTypeId item) -> local_target (ar_targetNodeId item) ->
  kept s t -> wp (Operation_addReference item) (fun _ u => kept s u) t.
Proof.
  intros Hty Hloc Hk; pose proof Hk as [[Hok Hm Hs] Hh]; eapply wp_kept_left, wp_kept; [|done| |].
  - apply points_session, keeps_points_addReference_op.
  - by apply wp_addReference.
  - intros a u (Hed & Hok' & Hm' & _); split; [done|]; split; [done|]; apply Hed.
Qed.

Lemma kept_deleteReference s t item : deleteBidirectional item = true -> eni_serverIndex (dr_targetNodeId item) = 0 ->
  kept s t -> wp (Operation_deleteReference item) (fun _ u => kept s u) t.
Proof.
  intros Hbi Hsi Hk; pose proof Hk as [[Hok Hm Hs] Hh]; eapply wp_kept_left, wp_kept; [|done| |].
  - apply points_session, keeps_points_deleteReference.
  - by apply wp_deleteReference.
  - intros a u (Hed & Hok' & Hm' & _); split; [done|]; split; [done|]; apply Hed.
Qed.

Lemma kept_deleteNode s t fuel rank item : config_ok -> (0 < fuel)%nat -> deleteTargetReferences item = true ->
  kept s t -> deep_enough fuel rank t ->
  wp (deleteNodeOperation fuel item) (fun _ u => kept s u /\ deep_enough fuel rank u) t.
Proof.
  intros Hc Hpos Hdel Hk [Hrk Hf]; pose proof Hk as [[Hok Hm Hs] Hh].
  destruct item as [id del]; simpl in Hdel; subst del; eapply wp_mono.
  - eapply wp_kept; [apply session_deleteNode|done| |].
    + apply (wp_deleteNode rank); try done; [apply Hc|by apply browse_limit_nonneg|].
      intros p Hp; by apply Hf, (find_node_stored t id p).
    + intros a u (H1 & H2 & _ & H4 & _); by split.
  - intros a u (Hk' & H1 & H2 & Hsub & _); split; [done|]; split; [by apply (ranked_fewer rank t)|].
    intros p Hp; by apply Hf, Hsub.
Qed.

Lemma wp_request r s : config_ok -> consistent s -> request_ok r s ->
  wp (exec_request r) (fun _ t => kept s t) s.
Proof.
  intros Hc Hs Hr; assert (Hk : kept s s) by by split.
  assert (Hend : forall A (m : M A), wp m (fun _ t => kept s t) s -> wp (_ ← m; mret tt) (fun _ t => kept s t) s)
    by (intros A m H; apply wp_bind; eapply wp_mono; [exact H|]; intros a t Ht; by apply wp_ret).
  destruct r as [viewId maxrefs descrs|release identifiers|items|items|fuel items]; apply Hend; simpl in Hr.
  - unfold Service_Browse; destruct (negb _); [by apply wp_ret|].
    apply wp_service; [apply kept_allocs| |done]; intros descr t _ Ht; by apply kept_Browse.
  - apply wp_service; [apply kept_allocs| |done]; intros identifier t _ Ht; by apply kept_BrowseNext.
  - apply wp_limited_service; [apply kept_allocs| |done].
    intros item t Hi Ht; destruct (Hr item Hi); by apply kept_addReference.
  - apply wp_limited_service; [apply kept_allocs| |done].
    intros item t Hi Ht; destruct (Hr item Hi); by apply kept_deleteReference.
  - destruct Hr as (Hpos & (rank & Hdeep) & Hdel); eapply wp_mono.
    + apply (wp_limited_service _ (fun t => kept s t /\ deep_enough fuel rank t)); [| |done].
      * intros t n [H1 H2]; split; [by apply kept_allocs|exact H2].
      * intros item t Hi [H1 H2]; apply kept_deleteNode; try done; by apply Hdel.
    + by intros a t [].
Qed.

Lemma request_consistent r s : config_ok -> consistent s -> request_ok r s ->
  exists t, exec_request r s = Some (tt, t) /\ consistent t /\ held t = held s.
Proof.
  intros Hc Hs Hr; destruct (wp_defined _ _ _ (wp_request r s Hc Hs Hr)) as ([] & t & H & Hk).
  by exists t.
Qed.

(** ** What is asked for *)

(** Direction and type: any, the one given, or one of its subtypes. *)
Definition asked (s : AddressSpace) (descr : UA_BrowseDescription) (rk : UA_NodeReferenceKind) : Prop :=
  browseDirection descr <> (if rk_isInverse rk then UA_BROWSEDIRECTION_FORWARD else UA_BROWSEDIRECTION_INVERSE) /\
  (UA_NodeId_isNull (bd_referenceTypeId descr) = true \/
   if includeSubtypes descr then
     exists k, (k <= 50)%nat /\ reaches s [UA_NS0ID_HASSUBTYPE] (bd_referenceTypeId descr) k (rk_referenceTypeId rk)
   else nodeid_eqb (bd_referenceTypeId descr) (rk_referenceTypeId rk) = true).

Lemma relevant_asked s descr rk : readable s -> relevant s descr rk = true <-> asked s descr rk.
Proof.
  intros Hr; unfold relevant, kind_relevant, relevantReference, asked, UA_BROWSEDIRECTION_FORWARD,
    UA_BROWSEDIRECTION_INVERSE.
  destruct (isNodeInTree_ok s (rk_referenceTypeId rk) (bd_referenceTypeId descr) [UA_NS0ID_HASSUBTYPE])
    as (b & Eb & Hb); [apply Hr|].
  destruct (rk_isInverse rk); cbn [andb negb].
  - destruct (Z.eqb_spec (browseDirection descr) 0); [by split; [|intros []]|].
    destruct (UA_NodeId_isNull _); [split; [by split; [|left]|done]|].
    destruct (includeSubtypes descr); cbn [negb]; [rewrite Eb|]; naive_solver.
  - destruct (Z.eqb_spec (browseDirection descr) 1); [by split; [|intros []]|].
    destruct (UA_NodeId_isNull _); [split; [by split; [|left]|done]|].
    destruct (includeSubtypes descr); cbn [negb]; [rewrite Eb|]; naive_solver.
Qed.

Lemma elem_of_matches s descr kinds d : readable s ->
  d ∈ matches_from s descr 0 kinds <-> exists rk t n, rk ∈ kinds /\ asked s descr rk /\ t ∈ targetIds rk /\
    lookup_node s (eni_nodeId t) = Some n /\ matchClassMask n (nodeClassMask descr) = true /\
    d = describe s (resultMask descr) rk n.
Proof.
  intros Hr; induction kinds as [|rk kinds IH]; simpl.
  { split; [by intros ?%not_elem_of_nil|by intros (rk & t & n & ?%not_elem_of_nil & _)]. }
  assert (Hhere : d ∈ match_targets s descr rk (targetIds rk) <-> exists t n, t ∈ targetIds rk /\
    lookup_node s (eni_nodeId t) = Some n /\ matchClassMask n (nodeClassMask descr) = true /\
    d = describe s (resultMask descr) rk n).
  { unfold match_targets; rewrite list_elem_of_omap; unfold match_target; split.
    - intros (t & Ht & Hd); destruct (lookup_node s (eni_nodeId t)) as [n|] eqn:Hn; simpl in Hd; [|done].
      destruct (matchClassMask _ _) eqn:Hmask; [|done]; injection Hd as <-; by exists t, n.
    - intros (t & n & Ht & Hn & Hmask & ->); exists t; split; [done|]; rewrite Hn; simpl; by rewrite Hmask. }
  pose proof (relevant_asked s descr rk Hr) as Hrel; destruct (relevant s descr rk).
  - rewrite elem_of_app, drop_0, Hhere, IH; set_solver.
  - rewrite IH; split; [set_solver|]; intros (rk' & t & n & [->|Hin]%elem_of_cons & Hask & Hrest).
    + by apply Hrel in Hask.
    + by exists rk', t, n.
Qed.
End Requests.
