(* ===== verification/AddressServices.v ===== *)
(** * The address space: statements

    The search upwards along references, browsing in pages, references that
    stay mutual, and the deletion of nodes. *)

From Stdlib Require Import ZArith Lia.
From stdpp Require Import base list numbers tactics sets gmap relations.
From S2P Require Import Prelude StateMonad UaTypes NodeStore AddressSpace NodeTree AddressLogic Browse BrowseCorrect NodeManagement NodeReferences ReferencesMutual NodeDelete AddressCorrect TranslateCorrect SpaceCheck.

(** C8: [isNodeInTree] ends, touches nothing, and tells whether some path of
    at most 50 ([UA_MAX_TREE_RECURSE]) inverse references of the listed types
    leads from the leaf to the node.  Its check for loops, made at every fifth
    level only, never hides a path. *)
Theorem isNodeInTree_exact s leaf find types : stored_allocated s ->
  exists b, isNodeInTree leaf find types s = Some (b, s) /\
    (b = true <-> exists k y, (k <= 50)%nat /\ nsteps (up s types) k leaf y /\ nodeid_eqb find y = true).
Proof.
  intros Hs; destruct (isNodeInTree_ok s leaf find types Hs) as (b & E & Hb); exists b; split; [done|].
  rewrite Hb; unfold reaches; split; [intros (k & Hk & y & Hy & Hf); by exists k, y|].
  intros (k & y & Hk & Hy & Hf); exists k; split; [done|by exists y].
Qed.

Lemma isNodeInTree_exact_witness : exists b,
  isNodeInTree SpaceExample.UA_NS0ID_HASCOMPONENT UA_NS0ID_AGGREGATES [UA_NS0ID_HASSUBTYPE] SpaceExample.plant =
    Some (b, SpaceExample.plant) /\
  (b = true <-> exists k y, (k <= 50)%nat /\
     nsteps (up SpaceExample.plant [UA_NS0ID_HASSUBTYPE]) k SpaceExample.UA_NS0ID_HASCOMPONENT y /\
     nodeid_eqb UA_NS0ID_AGGREGATES y = true).
Proof. apply isNodeInTree_exact, space_allocated, SpaceExample.plant_ok. Defined.

Section Statements.
Context {E : Env}.

(** C9: a client that browses a node and follows the continuation points until
    there is none gets every reference that matches the description, each once
    and in the order of the node, in pages that are no longer than the limit of
    the request and of the server; every page is delivered with status Good.
    The matching references are those of the direction and type asked for (or
    of a subtype) to a node of the server of a class asked for.  In the end the
    nodes are the same, nothing is left referred to, and the session has the
    continuation points it had before. *)
Theorem browse_complete s n maxrefs descr fuel :
  memory -> readable s -> descr_ok descr -> browse_status s descr = GOOD ->
  lookup_node s (bd_nodeId descr) = Some n -> 0 < browse_limit maxrefs ->
  0 < availableContinuationPoints s <= 65535 ->
  (length (matches_from s descr 0 (references n)) < fuel)%nat ->
  exists results t, browse_all fuel maxrefs descr s = Some (results, t) /\
    all_pages results = matches_from s descr 0 (references n) /\
    (forall d, d ∈ all_pages results <-> exists rk u m, rk ∈ references n /\ asked s descr rk /\
       u ∈ targetIds rk /\ lookup_node s (eni_nodeId u) = Some m /\
       matchClassMask m (nodeClassMask descr) = true /\ d = describe s (resultMask descr) rk m) /\
    Forall (good_page (browse_limit maxrefs)) results /\ unchanged s t /\
    continuationPoints t = continuationPoints s /\
    availableContinuationPoints t = availableContinuationPoints s.
Proof.
  intros Hm Hr Hd Hst Hn Hlim Hav Hf; apply wp_defined.
  unfold browse_all; apply wp_bind; eapply wp_mono; [apply (wp_first_page s n); try done; lia|].
  intros result s1 (Hun & Hgood & cp & Hpage & Hcps & Ha & Hcp); apply wp_bind.
  assert (Hsame : same_store s s1) by apply Hun.
  eapply wp_mono.
  - apply (wp_browse_rest fuel s1 n (continuationPoint result) (matches_from s descr 0 (references n)) cp
             (continuationPoints s) maxrefs descr (availableContinuationPoints s)
             (arr_list (br_references result))); try done; try lia.
    + by eapply readable_same.
    + by rewrite (browse_status_same s).
    + by rewrite (lookup_same s).
    + destruct cp as [c|]; simpl in *; [by rewrite (remaining_same s s1)|done].
  - intros results t (Hun' & H1 & H2 & H3 & H4); apply wp_ret.
    assert (Hall : all_pages (result :: results) = matches_from s descr 0 (references n)) by (by rewrite H3).
    split; [done|]; split; [intros d; rewrite Hall; by apply elem_of_matches|].
    split; [|split; [by etransitivity|done]]; constructor; [|done]; split; [done|].
    destruct cp as [c|]; simpl in Hpage; [destruct Hpage as (_ & _ & -> & _)|destruct Hpage as (_ & ? & _)]; lia.
Qed.

(** C18: with enough memory, translating a browse path returns exactly the list
    [path_ids]: element by element, from each node reached so far in the order
    of the walk, the targets of its references in the order the node has them,
    one for every way that leads there (a node that is reached twice is
    returned twice).  Its members are the nodes to which a path leads from the
    starting node: along a reference of the direction and type of the element
    (or of a subtype), to a node of the server with the target name of the
    element.  An empty list is BadNoMatch, or BadNodeIdUnknown if there is no
    starting node.  Without memory the result is the same or an error without
    targets.  Nothing in the address space changes. *)
Theorem translate_path_result mask s path : space_ok s -> copyable (startingNode path) ->
  elements path <> [] -> existsb (fun e => UA_QualifiedName_isNull (targetName e)) (elements path) = false ->
  let found := path_ids s mask None (elements path) [copied_id (startingNode path)] in
  exists r n, Operation_TranslateBrowsePathToNodeIds mask path s = Some (r, set_allocs s n) /\
    (forall y, y ∈ found <-> path_to s mask None (elements path) (copied_id (startingNode path)) y) /\
    (memory \/ bp_statusCode r = GOOD ->
       bp_targets r = map path_target found /\ bp_statusCode r = path_status s path found) /\
    (bp_statusCode r <> GOOD -> bp_targets r = []) /\ (memory -> targets_dangling r = false).
Proof.
  intros Hok Hc Hne Hnames found; destruct (quiet_TranslateBrowsePath mask s path Hok Hc Hne Hnames)
    as (r & n & H & Hr & Hdang).
  fold found in Hr; exists r, n; split; [exact H|]; split; [|split; [|split]].
  - intros y; unfold found; rewrite elem_of_path_ids by by apply space_readable.
    split; [by intros (x & ->%list_elem_of_singleton & ?)|]; intros Hy; eexists; split; [by left|exact Hy].
  - intros Hm; destruct Hr as [[H1 H2]|(H1 & H2 & _)]; [done|by destruct Hm].
  - intros Hbad; destruct Hr as [[H1 ->]|(_ & _ & ->)]; [|done].
    destruct found; [done|]; by rewrite H1 in Hbad.
  - intros Hm; destruct (targets_dangling r); [|done]; by destruct (Hdang eq_refl).
Qed.

(** C10: with a configuration that denies no deletion of references, from a
    consistent space every sequence of service requests (Browse, BrowseNext,
    AddReferences to nodes of this server, DeleteReferences in both directions,
    DeleteNodes with the references to the node and with the children, which
    form no cycle; each with a list of operations, with or without enough
    memory) leads to a consistent one: every reference of a node leads to a node
    of the store that has the reference back, identifiers are unique, no kind of
    references is empty or occurs twice, and the session's continuation points
    are within their number.  No node is left referred to, and any further
    request of this kind ends without following a dangling pointer.  What the
    conditions exclude does leave references without a counterpart: a reference
    deleted in one direction, or a node deleted without the references to it. *)
Theorem references_stay_mutual s t : config_ok -> consistent s -> reachable s t ->
  consistent t /\ held t = held s /\
  forall r, request_ok r t -> exists u, exec_request r t = Some (tt, u).
Proof.
  intros Hc Hs Hr; assert (Ht : consistent t /\ held t = held s).
  { induction Hr as [|t r u _ [IH Hh] Hok Hex]; [done|].
    destruct (request_consistent r t Hc IH Hok) as (u' & Hex' & Hu & Hh').
    rewrite Hex in Hex'; injection Hex' as <-; split; [done|congruence]. }
  destruct Ht as [Ht Hh]; split; [done|]; split; [done|]; intros r Hok.
  destruct (request_consistent r t Hc Ht Hok) as (u & Hu & _); by exists u.
Qed.

(** C19: adding a reference is all or nothing, whatever allocation fails:
    if it is refused, all nodes are as before; if it succeeds, the reference did
    not exist and exactly it and its reverse were added. *)
Theorem add_reference_atomic item s : space_ok s -> mutual s ->
  copyable (ar_referenceTypeId item) -> local_target (ar_targetNodeId item) ->
  exists ret t, Operation_addReference item s = Some (ret, t) /\ space_ok t /\ mutual t /\ held t = held s /\
    (ret <> GOOD -> nodes t = nodes s) /\
    (ret = GOOD ->
       let type := ar_referenceTypeId item in let inv := negb (ar_isForward item) in
       let src := ar_sourceNodeId item in let tgt := eni_nodeId (ar_targetNodeId item) in
       exists p q, find_node s src = Some p /\ find_node s tgt = Some q /\ ~ ref s p type inv tgt /\
         forall r ty i x, ref t r ty i x <-> ref s r ty i x \/
           (r = p /\ nodeid_eqb ty type = true /\ i = inv /\ nodeid_eqb x tgt = true) \/
           (r = q /\ nodeid_eqb ty type = true /\ i = negb inv /\ nodeid_eqb x src = true)).
Proof.
  intros Hok Hm Hty Hloc; destruct (wp_defined _ _ _ (wp_addReference item s Hok Hm Hty Hloc)) as (ret & t & H & Hout).
  destruct Hout as (Hed & Hok' & Hm' & Hbad & Hgood); exists ret, t; split_and!; try done; apply Hed.
Qed.

(** C20: deleting a node together with the references to it
    ([deleteTargetReferences]), where access control denies no deletion of
    references, ends if the children of nodes form no cycle, with a depth of
    recursion given by their ranks.  The node is gone, and at most its
    descendants with it; nodes and references only become fewer, the references
    that are left are mutual, and nothing is left referred to.  If deletion is
    refused, the nodes are as before. *)
Theorem delete_node_ends rank s id fuel : config_ok -> space_ok s -> mutual s -> ranked rank s ->
  (0 < fuel)%nat -> (forall p, find_node s id = Some p -> (rank p < fuel)%nat) ->
  exists ret t, deleteNodeOperation fuel (mkDeleteNodesItem id true) s = Some (ret, t) /\
    space_ok t /\ mutual t /\ sub s t /\ held t = held s /\
    (forall q, q ∈ stored s -> q ∈ stored t \/ exists p, find_node s id = Some p /\ rtc (child s) p q) /\
    (ret = GOOD -> is_Some (find_node s id) /\ find_node t id = None) /\
    (ret <> GOOD -> nodes t = nodes s /\ stored t = stored s).
Proof.
  intros Hc Hok Hm Hrk Hpos Hf; apply wp_defined; eapply wp_mono.
  - apply (wp_deleteNode rank); try done; [apply Hc|by apply browse_limit_nonneg].
  - intros ret t (H1 & H2 & H3 & H4 & H5 & H6 & H7); split_and!; try done.
    intros Hne; by destruct (H7 Hne).
Qed.
End Statements.

(** ** Witnesses *)

Module AddressExample.
Import SpaceExample.
#[export] Existing Instance plant_env.

Lemma plant_config : config_ok.
Proof. by split. Qed.

Lemma plant_consistent : consistent plant.
Proof.
  split; [exact plant_ok|exact plant_mutual|]; unfold session_ok, UA_MAXCONTINUATIONPOINTS.
  split; [done|]; split; [by vm_compute|constructor].
Qed.

(** From a machine to the line and to another machine of it. *)
Definition to_machine : UA_BrowsePath :=
  mkBrowsePath (machine_id 1)
    [mkPathElement UA_NS0ID_HASCOMPONENT true false (text [76]);
     mkPathElement UA_NS0ID_AGGREGATES false true (text [77; 2])].

(** A machine is also a component of another one. *)
Definition spare : UA_AddReferencesItem :=
  mkAddReferencesItem (machine_id 1) UA_NS0ID_HASCOMPONENT true ArrNull (local_id (machine_id 2)) 0.

Lemma spare_local : copyable (ar_referenceTypeId spare) /\ local_target (ar_targetNodeId spare).
Proof. by split. Qed.

Definition after (r : AddressRequest) (s : AddressSpace) : AddressSpace :=
  match exec_request r s with Some (_, t) => t | None => s end.

Definition plant1 : AddressSpace := Eval vm_compute in after (ReqBrowse UA_NODEID_NULL 1 [descr; descr]) plant.
Definition plant2 : AddressSpace := Eval vm_compute in after (ReqAddReferences [spare]) plant1.
Definition plant3 : AddressSpace :=
  Eval vm_compute in after (ReqDeleteNodes 3 [mkDeleteNodesItem line_id true]) plant2.

(** The machine that got a component ranks between the line and the others. *)
Definition rank2 (p : nat) : nat := if decide (p = 2)%nat then 2 else if decide (p = 3)%nat then 1 else 0.

Lemma plant_reachable : reachable plant plant3.
Proof.
  apply (ReachStep plant plant2 (ReqDeleteNodes 3 [mkDeleteNodesItem line_id true])); [| |by vm_compute].
  - apply (ReachStep plant plant1 (ReqAddReferences [spare])); [| |by vm_compute].
    + apply (ReachStep plant plant (ReqBrowse UA_NODEID_NULL 1 [descr; descr])); [constructor|done|by vm_compute].
    + intros item ->%list_elem_of_singleton; exact spare_local.
  - split; [lia|]; split.
    + exists rank2; split; [apply rankedb_ranked; by vm_compute|].
      intros p _; unfold rank2; repeat case_decide; lia.
    + by intros item ->%list_elem_of_singleton.
Qed.
End AddressExample.

Import SpaceExample AddressExample.

Lemma browse_complete_witness : exists results t,
  browse_all 4 0 descr plant = Some (results, t) /\ length (all_pages results) = 3%nat /\
  Forall (good_page 2) results.
Proof.
  destruct (lookup_node plant line_id) as [n|] eqn:Hn; [|by vm_compute in Hn].
  destruct (browse_complete plant n 0 descr 4) as (results & t & H & Hall & _ & Hgood & _).
  - done.
  - apply space_readable, plant_ok.
  - by vm_compute.
  - by vm_compute.
  - exact Hn.
  - by vm_compute.
  - by vm_compute.
  - vm_compute in Hn; injection Hn as <-; by vm_compute; lia.
  - exists results, t; split; [exact H|]; split; [|exact Hgood]; rewrite Hall.
    vm_compute in Hn; injection Hn as <-; by vm_compute.
Defined.

Lemma references_stay_mutual_witness : consistent plant3 /\ held plant3 = [] /\ length (stored plant3) = 3%nat.
Proof.
  destruct (references_stay_mutual plant plant3 plant_config plant_consistent plant_reachable) as (H & Hh & _).
  split; [exact H|]; split; [exact Hh|by vm_compute].
Defined.

Lemma add_reference_atomic_witness : exists t, Operation_addReference spare plant = Some (GOOD, t) /\ mutual t.
Proof.
  destruct (add_reference_atomic spare plant plant_ok plant_mutual) as (ret & t & H & _ & Hm & _).
  - by vm_compute.
  - by vm_compute.
  - exists t; split; [|exact Hm]; rewrite H; do 2 f_equal; by vm_compute in H; injection H as <- _.
Defined.

Lemma delete_node_ends_witness : exists t,
  deleteNodeOperation 2 (mkDeleteNodesItem line_id true) plant = Some (GOOD, t) /\ mutual t /\ held t = [].
Proof.
  destruct (delete_node_ends rank plant line_id 2 plant_config plant_ok plant_mutual plant_ranked)
    as (ret & t & H & _ & Hm & _ & Hh & _).
  - lia.
  - vm_compute; intros p [= <-]; lia.
  - exists t; split; [|split; [exact Hm|exact Hh]]; rewrite H; do 2 f_equal; by vm_compute in H; injection H as <- _.
Defined.

Lemma translate_path_result_witness : exists r n,
  Operation_TranslateBrowsePathToNodeIds 0 to_machine plant = Some (r, set_allocs plant n) /\
  bp_targets r = [path_target (machine_id 2)] /\ bp_statusCode r = GOOD /\
  path_to plant 0 None (elements to_machine) (machine_id 1) (machine_id 2).
Proof.
  destruct (translate_path_result 0 plant to_machine plant_ok) as (r & n & H & Hfound & Hr & _).
  - by vm_compute.
  - by vm_compute.
  - by vm_compute.
  - exists r, n; split; [exact H|]; destruct (Hr (or_introl (fun _ => eq_refl))) as [H1 H2].
    split; [rewrite H1; by vm_compute|]; split; [rewrite H2; by vm_compute|].
    apply Hfound; replace (path_ids _ _ _ _ _) with [machine_id 2] by (by vm_compute); by left.
Defined.
