(* ===== verification/Variant.v ===== *)
(** * Copies of values ([src/ua_types.c])

    The deep copy of a value, [UA_copy], and of an array of values.  A copy that
    fails is cleaned up: what is left is zeroed memory.  Freeing something twice
    is undefined. *)

From Stdlib Require Import ZArith Lia.
From stdpp Require Import base list numbers tactics sets gmap.
From S2P Require Import Prelude StateMonad UaTypes Util UaValue AddressSpace.

(** Zeroed memory of the type of a value. *)
Fixpoint zeroed (v : UA_Value) : UA_Value :=
  match v with
  | VInt _ => VInt 0
  | VString _ => VString ArrNull
  | VGuid _ => VGuid (mkGuid 0 0 0 (replicate 8 0))
  | VNodeId _ => VNodeId UA_NODEID_NULL
  | VExpandedNodeId _ => VExpandedNodeId (local_id UA_NODEID_NULL)
  | VQualifiedName _ => VQualifiedName (mkQualifiedName 0 ArrNull)
  | VLocalizedText _ => VLocalizedText (mkLocalizedText ArrNull ArrNull)
  | VExtEncoded _ _ _ | VExtDecoded _ _ _ =>
      VExtEncoded UA_EXTENSIONOBJECT_ENCODED_NOBODY UA_NODEID_NULL ArrNull
  | VDataValue _ _ => VDataValue DataValueHeader_init UA_Variant_null
  | VVariant _ _ _ => UA_Variant_null
  | VDiagnosticInfo _ => VDiagnosticInfo UA_DiagnosticInfo_null
  | VStruct fields =>
      VStruct (map (fun s => match s with SScalar v => SScalar (zeroed v) | SArray _ => SArray ArrNull end) fields)
  end.

Section Copy.
Context {E : Env}.

(** [UA_Array_copy], with the copy of an element.  All elements are copied,
    also after one that failed. *)
Fixpoint copy_all {A} (copy : A -> M (status * A)) (l : list A) : M (status * list A) :=
  match l with
  | [] => mret (GOOD, [])
  | a :: l =>
      '(r1, a) ← copy a;
      '(r2, l) ← copy_all copy l;
      mret (Z.lor r1 r2, a :: l)
  end.

Definition UA_Array_copy {A} (copy : A -> M (status * A)) (has_type : bool) (arr : UA_Array A)
    : M (status * UA_Array A) :=
  match arr with
  | ArrNull => mret (GOOD, ArrNull)
  | ArrEmpty | ArrData [] => mret (GOOD, ArrEmpty)
  | ArrData l =>
      if negb has_type then mret (BADINTERNALERROR, ArrNull)
      else
        ok ← malloc;
        if negb ok then mret (BADOUTOFMEMORY, ArrNull)
        else
          '(retval, l) ← copy_all copy l;
          mret (retval, if bad retval then ArrNull else ArrData l)
  end.

(** The dimensions are integers: nothing but the array is allocated. *)
Definition copy_int (z : Z) : M (status * Z) := mret (GOOD, z).

Fixpoint DiagnosticInfo_copy (d : UA_DiagnosticInfo) : M (status * UA_DiagnosticInfo) :=
  '(r1, info) ← (if hasAdditionalInfo d then UA_String_copy (additionalInfo d) else mret (GOOD, ArrNull));
  '(r2, has_inner, inner) ←
    (match innerDiagnosticInfo d with
     | Some i =>
         if hasInnerDiagnosticInfo d then
           ok ← malloc;
           if negb ok then mret (BADOUTOFMEMORY, false, None)
           else '(r, i) ← DiagnosticInfo_copy i; mret (r, true, Some i)
         else mret (GOOD, false, None)
     | None => mret (GOOD, hasInnerDiagnosticInfo d, None)
     end);
  mret (Z.lor r1 r2,
        mkDiagnosticInfo (hasSymbolicId d) (hasNamespaceUri d) (hasLocalizedText d) (hasLocale d)
          (hasAdditionalInfo d) (hasInnerStatusCode d) has_inner (symbolicId d) (di_namespaceUri d)
          (localizedText d) (di_locale d) info (innerStatusCode d) inner).

(** Whether a failed copy leaves [zeroed] memory: the caller's memory was
    initialized, and [UA_deleteMembers] initializes it again. *)
Definition cleaned {A} (zero : A) (r : status * A) : status * A := if bad r.1 then (r.1, zero) else r.

Definition copy_variant_data (copy : UA_Value -> M (status * UA_Value)) (has_type : bool)
    (data : Slot UA_Value) : M (status * Slot UA_Value) :=
  match data with
  | SScalar v =>
      '(retval, arr) ← UA_Array_copy copy has_type (ArrData [v]);
      mret (retval, match arr with ArrData [v] => SScalar v | _ => SArray ArrNull end)
  | SArray arr => '(retval, arr) ← UA_Array_copy copy has_type arr; mret (retval, SArray arr)
  end.

(** A variant with memory to free: [DataValue_copy] frees what a failed
    [Variant_copy] left behind, and the [UA_copy] around it frees it again. *)
Definition owns_data (v : UA_Value) : bool :=
  match v with
  | VVariant (Some _) (SScalar _) _ | VVariant (Some _) (SArray (ArrData _)) _ => true
  | _ => false
  end.

(** The members of a structure, in order. *)
Definition copy_member (copy element : UA_Value -> M (status * UA_Value)) (s : Slot UA_Value)
    : M (status * Slot UA_Value) :=
  match s with
  | SScalar v => '(r, v) ← copy v; mret (r, SScalar v)
  | SArray arr => '(r, arr) ← UA_Array_copy element true arr; mret (r, SArray arr)
  end.

Definition copy_members (copy element : UA_Value -> M (status * UA_Value))
    : list (Slot UA_Value) -> M (status * list (Slot UA_Value)) :=
  copy_all (copy_member copy element).

(** The members of a value are copied without cleaning up; [UA_copy] does it
    for the whole value, and for every element of an array. *)
Fixpoint copy_noInit (v : UA_Value) : M (status * UA_Value) :=
  let element v := r ← copy_noInit v; mret (cleaned (zeroed v) r) in
  match v with
  | VInt _ | VGuid _ => mret (GOOD, v)
  | VString s => '(r, s) ← UA_String_copy s; mret (r, VString s)
  | VNodeId n => '(r, n) ← UA_NodeId_copy n; mret (r, VNodeId n)
  | VExpandedNodeId n => '(r, n) ← UA_ExpandedNodeId_copy n; mret (r, VExpandedNodeId n)
  | VQualifiedName n => '(r, n) ← UA_QualifiedName_copy n; mret (r, VQualifiedName n)
  | VLocalizedText t => '(r, t) ← UA_LocalizedText_copy t; mret (r, VLocalizedText t)
  | VExtEncoded encoding typeId body =>
      '(r1, typeId) ← UA_NodeId_copy typeId;
      '(r2, body) ← UA_String_copy body;
      mret (Z.lor r1 r2, VExtEncoded encoding typeId body)
  | VExtDecoded encoding type data =>
      if (encoding =? UA_EXTENSIONOBJECT_DECODED) || (encoding =? UA_EXTENSIONOBJECT_DECODED_NODELETE) then
        match type, data with
        | Some _, Some d =>
            '(r, arr) ← UA_Array_copy element true (ArrData [d]);
            mret (r, VExtDecoded UA_EXTENSIONOBJECT_DECODED type
                       match arr with ArrData [d] => Some d | _ => None end)
        | _, _ => mret (BADINTERNALERROR, zeroed v)
        end
      else mret (GOOD, zeroed v)
  | VDataValue h value =>
      '(r, value) ← copy_noInit value;
      if bad r then
        if owns_data value then undefined else mret (r, VDataValue h UA_Variant_null)
      else mret (r, VDataValue h value)
  | VVariant type data dims =>
      '(r, data) ← copy_variant_data element (bool_decide (is_Some type)) data;
      if bad r then mret (r, UA_Variant_null)
      else
        '(r, dims) ← UA_Array_copy copy_int true dims;
        mret (r, VVariant type data dims)
  | VDiagnosticInfo d => '(r, d) ← DiagnosticInfo_copy d; mret (r, VDiagnosticInfo d)
  | VStruct fields =>
      '(r, fields) ← copy_members copy_noInit element fields;
      mret (r, VStruct fields)
  end.

Definition UA_copy (v : UA_Value) : M (status * UA_Value) :=
  r ← copy_noInit v; mret (cleaned (zeroed v) r).
End Copy.

(** ** Index ranges

    [UA_NumericRange_parseFromString] ([src/server/ua_server_utils.c]) and the
    parts of arrays that a range selects ([src/ua_types.c]): [computeStrides]
    finds blocks of elements with a constant distance, which are copied out of
    a variant or overwritten in it.  An access outside of an array is undefined. *)

Definition BADINVALIDARGUMENT : status := 0x80AB0000.

(** [UA_NumericRangeDimension] ([include/ua_types.h]) *)
Record UA_NumericRangeDimension := mkRangeDim { min : Z; max : Z }.   (* UA_UInt32 *)

Definition UA_NumericRange : Type := list UA_NumericRangeDimension.

(** ** Parsing *)

(** The dimension at the beginning of [buf] and its length; the length 0 is an
    error. *)
Definition readDimension (buf : list Z) : Z * UA_NumericRangeDimension :=
  let '(lo, progress) := UA_readNumber buf in
  if progress =? 0 then (0, mkRangeDim lo lo)
  else if (zlen buf <=? progress + 1) || negb (nth (Z.to_nat progress) buf 0 =? 58)
  then (progress, mkRangeDim lo lo)
  else
    let '(hi, progress2) := UA_readNumber (drop (Z.to_nat (progress + 1)) buf) in
    if progress2 =? 0 then (0, mkRangeDim lo hi)
    else if hi <=? lo then (0, mkRangeDim lo hi)
    else (progress + 1 + progress2, mkRangeDim lo hi).

Section Range.
Context {E : Env}.

(** One dimension after the other; every round reads at least one character, so
    [length str] rounds are enough.  [dimensionsMax] is the size of the array. *)
Fixpoint parse_dimensions (fuel : nat) (str : list Z) (dims : UA_NumericRange) (dimensionsMax : Z)
    : M (status * UA_NumericRange) :=
  match fuel with
  | O => undefined
  | S fuel =>
      let full := dimensionsMax <=? zlen dims in
      ok ← (if full then malloc else mret true);
      if negb ok then mret (BADOUTOFMEMORY, [])
      else
        let dimensionsMax := if full then dimensionsMax + 2 else dimensionsMax in
        let '(progress, dim) := readDimension str in
        if progress =? 0 then mret (BADINDEXRANGEINVALID, [])
        else
          let dims := dims ++ [dim] in
          match drop (Z.to_nat progress) str with
          | [] => mret (GOOD, dims)
          | c :: rest =>
              if negb (c =? 44) then mret (BADINDEXRANGEINVALID, [])
              else parse_dimensions fuel rest dims dimensionsMax
          end
  end.

Definition UA_NumericRange_parseFromString (str : list Z) : M (status * UA_NumericRange) :=
  parse_dimensions (S (length str)) str [] 0.
End Range.

(** ** Strides *)

(** The elements an array of these dimensions has, as [size_t] computes it. *)
Fixpoint dimensions_product (dims : list Z) (elements : Z) : Z :=
  match dims with [] => elements | d :: dims => dimensions_product dims (u64 (elements * d)) end.

(** The last index used in every dimension, and the number of elements. *)
Fixpoint check_range (dims : list Z) (range : UA_NumericRange) (count : Z) : status * list Z * Z :=
  match dims, range with
  | d :: dims, r :: range =>
      if max r <? min r then (BADINDEXRANGEINVALID, [], count)
      else if d <=? min r then (BADINDEXRANGENODATA, [], count)
      else
        let realmax := if max r <? d then max r else u32 (d - 1) in
        let '(s, rest, count) := check_range dims range (u64 (count * u32 (u32 (realmax - min r) + 1))) in
        (s, realmax :: rest, count)
  | _, _ => (GOOD, [], count)
  end.

Record Strides := mkStrides {
  total : Z;      (* elements in the range *)
  block : Z;      (* elements of a block *)
  stride : Z;     (* from the beginning of a block to the next *)
  first : Z       (* where the first block begins *)
}.

(** The loop runs from the innermost dimension to the outermost one. *)
Fixpoint stride_loop (dims : list Z) (range : UA_NumericRange) (realmax : list Z) (init : Strides)
    : bool * Strides * Z :=
  match dims, range, realmax with
  | d :: dims, r :: range, m :: realmax =>
      let '(found_contiguous, st, running_dimssize) := stride_loop dims range realmax init in
      let dimrange := u32 (u32 (1 + m) - min r) in
      let here := negb found_contiguous && negb (dimrange =? d) in
      let st :=
        mkStrides (total st)
          (if here then u64 (running_dimssize * dimrange) else block st)
          (if here then u64 (running_dimssize * d) else stride st)
          (u64 (first st + u64 (running_dimssize * min r))) in
      (found_contiguous || here, st, u64 (running_dimssize * d))
  | _, _, _ => (false, init, 1)
  end.

Definition Strides_init : Strides := mkStrides 0 0 0 0.

(** [arrayDimensions] is empty if the variant has none. *)
Definition computeStrides (arrayLength : Z) (arrayDimensions : list Z) (range : UA_NumericRange)
    : status * Strides :=
  if 2 ^ 32 - 1 <? arrayLength then (BADINTERNALERROR, Strides_init)
  else
    let dims := match arrayDimensions with [] => [u32 arrayLength] | _ => arrayDimensions end in
    if negb (bool_decide (arrayDimensions = [])) && negb (dimensions_product dims 1 =? arrayLength)
    then (BADINTERNALERROR, Strides_init)
    else if negb (zlen range =? zlen dims) then (BADINDEXRANGENODATA, Strides_init)
    else
      let '(s, realmax, count) := check_range dims range 1 in
      if bad s then (s, Strides_init)
      else
        let '(_, st, _) := stride_loop dims range realmax (mkStrides count count arrayLength 0) in
        (GOOD, st).

(** ** Reading a range *)

Section Blocks.
Context {A : Type} (copies : list (M (status * A))) (keep_going : bool).

(** [n] elements from the position [pos] on.  The status is the one of the last
    copy; with [keep_going = false] an error ends the loops. *)
Fixpoint copy_block (n : nat) (pos : Z) (retval : status) : M (status * list A) :=
  match n with
  | O => mret (retval, [])
  | S n =>
      if negb keep_going && bad retval then mret (retval, [])
      else
        copy ← the (copies !! Z.to_nat pos);
        '(retval, a) ← copy;
        '(retval, l) ← copy_block n (pos + 1) retval;
        mret (retval, a :: l)
  end.

Fixpoint copy_blocks (blocks n : nat) (stride pos : Z) (retval : status) : M (status * list A) :=
  match blocks with
  | O => mret (retval, [])
  | S blocks =>
      '(retval, l) ← copy_block n pos retval;
      '(retval, l') ← copy_blocks blocks n stride (pos + stride) retval;
      mret (retval, l ++ l')
  end.
End Blocks.

(** The number of blocks: the division by 0 is undefined. *)
Definition block_count (st : Strides) : option nat :=
  if block st =? 0 then None else Some (Z.to_nat (total st / block st)).

Definition isStringLike (type : UA_DataType) : bool :=
  bool_decide (typeIndex type = typeIndex UA_TYPES_STRING) && builtin type ||
  bool_decide (typeIndex type = typeIndex UA_TYPES_BYTESTRING) && builtin type ||
  bool_decide (typeIndex type = typeIndex UA_TYPES_XMLELEMENT) && builtin type.

Definition is_variant_type (type : UA_DataType) : bool :=
  bool_decide (typeIndex type = typeIndex UA_TYPES_VARIANT) && builtin type.

Section Copy.
Context {E : Env}.

Definition copySubString (src : UA_String) (dim : UA_NumericRangeDimension) : M (status * UA_String) :=
  if max dim <? min dim then mret (BADINDEXRANGEINVALID, ArrNull)
  else if arr_length src <=? min dim then mret (BADINDEXRANGENODATA, ArrNull)
  else
    let length := if max dim <? arr_length src then max dim - min dim + 1 else arr_length src - min dim in
    ok ← malloc;
    if negb ok then mret (BADOUTOFMEMORY, ArrNull)
    else if arr_length src <? min dim + length then undefined          (* memcpy behind the end *)
    else mret (GOOD, ArrData (take (Z.to_nat length) (drop (Z.to_nat (min dim)) (arr_list src)))).

(** [UA_Array_new]: whether there is an array of the size. *)
Definition UA_Array_new (size : Z) : M bool :=
  if UA_INT32_MAX <? size then mret false else if size =? 0 then mret true else malloc.

(** The dimensions of the copy, from the range as it was given. *)
Definition range_dimensions (range : UA_NumericRange) : list Z :=
  map (fun r => u32 (u32 (max r - min r) + 1)) range.

Definition array_of {A} (l : list A) : UA_Array A := match l with [] => ArrEmpty | _ => ArrData l end.

(** The dimensions of the variant itself; the rest of the range is for its
    elements.  A scalar is an array of length 1. *)
Definition split_range (isScalar : bool) (dims : list Z) (range : UA_NumericRange)
    : option (UA_NumericRange * UA_NumericRange) :=
  if isScalar then Some ([mkRangeDim 0 0], range)
  else
    let n := match dims with [] => 1 | _ => zlen dims end in
    if zlen range <? n then None else Some (take (Z.to_nat n) range, drop (Z.to_nat n) range).

Definition slot_length {A} (s : Slot A) : Z :=
  match s with SScalar _ => 1 | SArray arr => arr_length arr end.

Definition slot_scalar {A} (s : Slot A) : bool := match s with SScalar _ => true | SArray _ => false end.

(** What is left of a failed copy can own memory that was freed. *)
Record Copied := mkCopied { copy : UA_Value; dangling : bool }.

Definition whole (v : UA_Value) : M (status * Copied) :=
  '(retval, v) ← UA_copy v; mret (retval, mkCopied v false).

(** A part of a string, as far as the value is one. *)
Definition copy_part (v : UA_Value) (next : UA_NumericRange) : M (status * Copied) :=
  match v, next with
  | VString s, r :: _ => '(retval, s) ← copySubString s r; mret (retval, mkCopied (VString s) false)
  | _, _ => undefined
  end.

Definition no_content : Copied := mkCopied UA_Variant_null false.

(** The copied elements as the content of the new variant.  They are deleted
    when a copy failed; without memory for the dimensions they are deleted too,
    but the variant goes on pointing to them. *)
Definition range_result (type : UA_DataType) (isScalar : bool) (has_dims : bool) (range : UA_NumericRange)
    (retval : status) (l : list Copied) : M (status * Copied) :=
  if bad retval then
    if existsb dangling l then undefined else mret (retval, no_content)
  else if isScalar then
    match l with
    | v :: _ => mret (retval, mkCopied (VVariant (Some type) (SScalar (copy v)) ArrNull) false)
    | [] => undefined
    end
  else
    let content := SArray (array_of (map copy l)) in
    if has_dims then
      ok ← UA_Array_new (zlen range);
      if negb ok then mret (BADOUTOFMEMORY, mkCopied (VVariant (Some type) content ArrNull) true)
      else mret (GOOD, mkCopied (VVariant (Some type) content (array_of (range_dimensions range))) false)
    else mret (retval, mkCopied (VVariant (Some type) content ArrNull) false).

Fixpoint UA_Variant_copyRange (src : UA_Value) (range : UA_NumericRange) : M (status * Copied) :=
  match src with
  | VVariant None _ _ => mret (BADINVALIDARGUMENT, no_content)
  | VVariant (Some type) data arrayDimensions =>
      let dims := arr_list arrayDimensions in
      match split_range (slot_scalar data) dims range with
      | None => mret (BADINDEXRANGEINVALID, no_content)
      | Some (thisrange, nextrange) =>
          let '(retval, st) := computeStrides (slot_length data) dims thisrange in
          if bad retval then mret (retval, no_content)
          else
            ok ← UA_Array_new (total st);
            if negb ok then mret (BADOUTOFMEMORY, no_content)
            else
              n ← the (block_count st);
              '(retval, l) ←
                (match nextrange with
                 | [] => copy_blocks (map whole (slot_list data)) true n (Z.to_nat (block st)) (stride st) (first st) GOOD
                 | _ =>
                     let stringLike := isStringLike type in
                     let retval :=
                       if is_variant_type type then GOOD
                       else if negb stringLike || negb (zlen nextrange =? 1) then BADINDEXRANGENODATA else GOOD in
                     let nested v := if stringLike then copy_part v nextrange
                                     else UA_Variant_copyRange v nextrange in
                     let copies := match data with
                                   | SScalar v => [nested v]
                                   | SArray arr => arr_list (arr_map nested arr)
                                   end in
                     copy_blocks copies false n (Z.to_nat (block st)) (stride st) (first st) retval
                 end);
              range_result type (slot_scalar data) (negb (bool_decide (dims = []))) thisrange retval l
      end
  | _ => undefined
  end.

(** ** Writing a range *)

Section Overwrite.
Context (array : list UA_Value).

(** The elements of a block are replaced by copies. *)
Fixpoint set_block (n : nat) (pos : Z) (next : nat) (retval : status) (l : list UA_Value)
    : M (status * list UA_Value) :=
  match n with
  | O => mret (retval, l)
  | S n =>
      _ ← the (l !! Z.to_nat pos);
      v ← the (array !! next);
      '(r, v) ← UA_copy v;
      set_block n (pos + 1) (S next) (Z.lor retval r) (<[Z.to_nat pos := v]> l)
  end.

Fixpoint set_blocks (blocks n : nat) (stride pos : Z) (next : nat) (retval : status) (l : list UA_Value)
    : M (status * list UA_Value) :=
  match blocks with
  | O => mret (retval, l)
  | S blocks =>
      '(retval, l) ← set_block n pos next retval l;
      set_blocks blocks n stride (pos + stride) (next + n) retval l
  end.
End Overwrite.

(** The array of a variant after its range is overwritten. *)
Definition UA_Variant_setRangeCopy (v : UA_Value) (array : list UA_Value) (range : UA_NumericRange)
    : M (status * UA_Value) :=
  match v with
  | VVariant type data arrayDimensions =>
      let '(retval, st) := computeStrides (match data with SScalar _ => 0 | SArray a => arr_length a end)
                             (arr_list arrayDimensions) range in
      if bad retval then mret (retval, v)
      else if negb (total st =? zlen array) then mret (BADINDEXRANGEINVALID, v)
      else
        n ← the (block_count st);
        '(retval, l) ← set_blocks array n (Z.to_nat (block st)) (stride st) (first st) 0 GOOD (slot_list data);
        mret (retval, match data with
                      | SScalar w => VVariant type (SScalar (hd w l)) arrayDimensions
                      | SArray _ => VVariant type (SArray (array_of l)) arrayDimensions
                      end)
  | _ => undefined
  end.
End Copy.
