(* ===== verification/VariantCopyCorrect.v ===== *)
(** * Copies of values: what a copy is

    A copy that succeeds is the value itself, with empty strings and arrays
    replaced by the sentinel and what is not set left out; with enough memory,
    values of the known types are copied.  Nothing else changes. *)

From Stdlib Require Import ZArith Lia.
From stdpp Require Import base list numbers tactics sets gmap.
From S2P Require Import Prelude StateMonad UaTypes UaValue NodeStore AddressSpace NodeTree AddressLogic Variant.

(** ** The copy *)

Definition copied_array {A} (f : A -> A) (arr : UA_Array A) : UA_Array A :=
  match arr with
  | ArrNull => ArrNull
  | ArrEmpty | ArrData [] => ArrEmpty
  | ArrData l => ArrData (map f l)
  end.

Definition copied_slot (f : UA_Value -> UA_Value) (s : Slot UA_Value) : Slot UA_Value :=
  match s with SScalar v => SScalar (f v) | SArray arr => SArray (copied_array f arr) end.

Fixpoint copied_info (d : UA_DiagnosticInfo) : UA_DiagnosticInfo :=
  mkDiagnosticInfo (hasSymbolicId d) (hasNamespaceUri d) (hasLocalizedText d) (hasLocale d)
    (hasAdditionalInfo d) (hasInnerStatusCode d) (hasInnerDiagnosticInfo d) (symbolicId d) (di_namespaceUri d)
    (localizedText d) (di_locale d) (if hasAdditionalInfo d then copied (additionalInfo d) else ArrNull)
    (innerStatusCode d)
    (match innerDiagnosticInfo d with
     | Some i => if hasInnerDiagnosticInfo d then Some (copied_info i) else None
     | None => None
     end).

Definition is_decoded (encoding : Z) : bool :=
  (encoding =? UA_EXTENSIONOBJECT_DECODED) || (encoding =? UA_EXTENSIONOBJECT_DECODED_NODELETE).

Fixpoint copied_value (v : UA_Value) : UA_Value :=
  match v with
  | VInt _ | VGuid _ => v
  | VString s => VString (copied s)
  | VNodeId n => VNodeId (copied_id n)
  | VExpandedNodeId n => VExpandedNodeId (copied_expanded n)
  | VQualifiedName n => VQualifiedName (copied_name n)
  | VLocalizedText t => VLocalizedText (copied_text t)
  | VExtEncoded encoding typeId body => VExtEncoded encoding (copied_id typeId) (copied body)
  | VExtDecoded encoding type data =>
      if is_decoded encoding then
        VExtDecoded UA_EXTENSIONOBJECT_DECODED type
          (match data with Some d => Some (copied_value d) | None => None end)
      else zeroed v
  | VDataValue h value => VDataValue h (copied_value value)
  | VVariant type data dims =>
      VVariant type (copied_slot copied_value data) (copied_array (fun z => z) dims)
  | VDiagnosticInfo d => VDiagnosticInfo (copied_info d)
  | VStruct fields => VStruct (map (copied_slot copied_value) fields)
  end.

(** What can be copied: identifiers of the known types, variants with content
    have a type, and decoded extension objects have a type and content. *)
Definition copyable_all {A} (can : A -> Prop) : list A -> Prop := foldr (fun a P => can a /\ P) True.

Definition copyable_slot (can : UA_Value -> Prop) (s : Slot UA_Value) : Prop :=
  match s with
  | SArray (ArrData l) => copyable_all can l
  | SArray _ => True
  | SScalar v => can v
  end.

Fixpoint copyable_value (v : UA_Value) : Prop :=
  match v with
  | VNodeId n | VExtEncoded _ n _ => copyable n
  | VExpandedNodeId n => copyable (eni_nodeId n)
  | VExtDecoded encoding type data =>
      is_decoded encoding = true /\ is_Some type /\
      match data with Some d => copyable_value d | None => False end
  | VDataValue _ value => copyable_value value
  | VVariant type data _ =>
      (slot_list data <> [] -> is_Some type) /\ copyable_slot copyable_value data
  | VStruct fields => copyable_all (copyable_slot copyable_value) fields
  | _ => True
  end.

(** A variant in a data value has no content, or no dimensions that could fail
    to be copied after it. *)
Fixpoint freed_once (v : UA_Value) : Prop :=
  match v with
  | VDataValue _ value =>
      freed_once value /\
      match value with VVariant _ data dims => slot_list data = [] \/ arr_list dims = [] | _ => True end
  | VVariant _ data _ => copyable_slot freed_once data
  | VExtDecoded _ _ (Some d) => freed_once d
  | VStruct fields => copyable_all (copyable_slot freed_once) fields
  | _ => True
  end.

Section Copies.
Context {E : Env}.

Definition tame (v : UA_Value) : Prop := memory \/ freed_once v.

Definition copies {A} (copy : A -> M (status * A)) (can : A -> Prop) (f : A -> A) (a : A) : Prop :=
  forall s, quiet (copy a) s (copy_of (can a) (f a)).

Lemma copies_all {A} (copy : A -> M (status * A)) can f l : Forall (copies copy can f) l ->
  forall s, quiet (copy_all copy l) s (copy_of (Forall can l) (map f l)).
Proof.
  induction 1 as [|a l Ha Hl IH]; intros s; [apply quiet_ret; by split|]; cbn [copy_all map].
  eapply quiet_bind; [apply Ha|]; intros [r1 b] n [G1 M1].
  eapply quiet_bind; [apply IH|]; intros [r2 l'] n' [G2 M2]; apply quiet_ret; split; simpl in *.
  - intros [H1 H2]%lor_good; by rewrite G1, G2.
  - intros Hm Hall; inversion Hall; subst; apply lor_good; auto.
Qed.

Lemma quiet_array {A} (copy : A -> M (status * A)) can f has_type arr : Forall (copies copy can f) (arr_list arr) ->
  forall s, quiet (UA_Array_copy copy has_type arr) s
    (copy_of ((arr_list arr <> [] -> has_type = true) /\ Forall can (arr_list arr)) (copied_array f arr)).
Proof.
  intros Hf s; destruct arr as [| |[|a l]]; try (by apply quiet_ret); unfold UA_Array_copy.
  destruct has_type; cbn [negb].
  2: { apply quiet_ret; split; [done|]; intros _ [H _]; by specialize (H ltac:(done)). }
  eapply quiet_bind; [apply quiet_malloc; intros b Hb; exact Hb|]; intros b n Hb; cbv beta in Hb.
  destruct b; cbn [negb]; [|apply quiet_ret; split; [done|]; intros Hm _; by specialize (Hb Hm)].
  eapply quiet_bind; [by apply (copies_all copy can f)|]; intros [r l'] n' [G Hgood]; apply quiet_ret; split; cbn [fst snd] in *.
  - intros ->; cbn [bad]; by rewrite G.
  - intros Hm [_ Hall]; auto.
Qed.

Lemma copies_info : forall d s, quiet (DiagnosticInfo_copy d) s (copy_of True (copied_info d)).
Proof.
  fix IH 1; intros d s; destruct d as [b1 b2 b3 b4 b5 b6 b7 z1 z2 z3 z4 str z5 inner].
  cbn [DiagnosticInfo_copy copied_info hasAdditionalInfo hasInnerDiagnosticInfo additionalInfo innerDiagnosticInfo
       hasSymbolicId hasNamespaceUri hasLocalizedText hasLocale hasInnerStatusCode symbolicId di_namespaceUri
       localizedText di_locale innerStatusCode].
  eapply quiet_bind with (P := copy_of True (if b5 then copied str else ArrNull)).
  { destruct b5; [apply quiet_String_copy|by apply quiet_ret]. }
  intros [r1 info] n [G1 M1].
  eapply quiet_bind with (P := fun r => (r.1.1 = GOOD -> r.1.2 = b7 /\
    r.2 = match inner with Some i => if b7 then Some (copied_info i) else None | None => None end) /\
    (memory -> r.1.1 = GOOD)).
  { destruct inner as [i|]; [|by apply quiet_ret]; destruct b7; [|by apply quiet_ret].
    eapply quiet_bind; [apply quiet_malloc; intros b Hb; exact Hb|]; intros b n1 Hb; cbv beta in Hb.
    destruct b; cbn [negb]; [|apply quiet_ret; split; [done|]; intros Hm; by specialize (Hb Hm)].
    eapply quiet_bind; [apply IH|]; intros [r i'] n2 [G M]; apply quiet_ret; simpl in *; split; [|auto].
    intros Hr; split; [done|]; by rewrite G. }
  intros [[r2 has] inner'] n1 [G2 M2]; apply quiet_ret; split; simpl in *.
  - intros [H1 H2]%lor_good; destruct (G2 H2) as [-> ->]; by rewrite (G1 H1).
  - intros Hm _; apply lor_good; auto.
Qed.

Lemma cleaned_copy {A} (P : Prop) (w zero : A) r : copy_of P w r -> copy_of P w (cleaned zero r).
Proof.
  destruct r as [r v']; intros [G M]; unfold cleaned; simpl in *; destruct (bad r) eqn:Hb; split; simpl; auto.
  intros ->; done.
Qed.

(** Weaker conditions to copy. *)
Lemma copy_of_can {A} (P Q : Prop) (a : A) r : (Q -> P) -> copy_of P a r -> copy_of Q a r.
Proof. intros HPQ [G M]; split; [done|]; auto. Qed.

Lemma copyable_all_Forall {A} (Q : A -> Prop) l : copyable_all Q l -> Forall Q l.
Proof. induction l; simpl; [constructor|]; intros [? ?]; constructor; auto. Qed.

Lemma copyable_slot_Forall Q s : copyable_slot Q s -> Forall Q (slot_list s).
Proof. destruct s as [v|[| |l]]; simpl; auto using copyable_all_Forall. Qed.

(** The copy of an element of an array is cleaned up. *)
Lemma copies_cleaned {A} (copy : A -> M (status * A)) can f (zero : A -> A) v : copies copy can f v ->
  copies (fun v => r ← copy v; mret (cleaned (zero v) r)) can f v.
Proof.
  intros H s; eapply quiet_bind; [apply H|]; intros r n Hr; apply quiet_ret; by apply cleaned_copy.
Qed.

Lemma copies_data copy can f has_type data : Forall (copies copy can f) (slot_list data) ->
  forall s, quiet (copy_variant_data copy has_type data) s
    (copy_of ((slot_list data <> [] -> has_type = true) /\ Forall can (slot_list data)) (copied_slot f data)).
Proof.
  intros Hf s; destruct data as [v|arr].
  - eapply quiet_bind; [by apply (quiet_array copy can f has_type (ArrData [v]))|].
    intros [r arr] n [G M]; apply quiet_ret; split; cbn [fst snd] in *; [intros Hr; by rewrite (G Hr)|exact M].
  - eapply quiet_bind; [by apply (quiet_array copy can f has_type arr)|].
    intros [r arr'] n [G M]; apply quiet_ret; split; cbn [fst snd] in *; [intros Hr; by rewrite (G Hr)|exact M].
Qed.

Lemma copies_member copy element can f slot :
  Forall (copies copy can f) (slot_list slot) -> Forall (copies element can f) (slot_list slot) ->
  copies (copy_member copy element) (copyable_slot can) (copied_slot f) slot.
Proof.
  intros Hc He s; destruct slot as [v|arr]; cbn [copy_member copied_slot copyable_slot] in *.
  - inversion Hc; subst; eapply quiet_bind; [auto|]; intros [r v'] n [G M]; apply quiet_ret.
    split; cbn [fst snd] in *; [intros Hr; by rewrite (G Hr)|exact M].
  - eapply quiet_bind; [by apply (quiet_array element can f true arr)|]; intros [r arr'] n [G M]; apply quiet_ret.
    split; cbn [fst snd] in *; [intros Hr; by rewrite (G Hr)|]; intros Hm Hcan; apply M; [done|].
    split; [done|]; exact (copyable_slot_Forall can (SArray arr) Hcan).
Qed.

Lemma Forall_copies_cleaned {A} (copy : A -> M (status * A)) can f (zero : A -> A) l :
  Forall (copies copy can f) l -> Forall (copies (fun v => r ← copy v; mret (cleaned (zero v) r)) can f) l.
Proof. induction 1; constructor; auto using copies_cleaned. Qed.

(** A failed copy of a value owns memory only if it is a variant with content
    whose dimensions could not be copied. *)
Lemma quiet_result {A} (m : M A) s Q a s' : quiet m s Q -> m s = Some (a, s') -> Q a.
Proof. intros (b & n & Hb & HQ) Ha; rewrite Ha in Hb; by simplify_eq. Qed.

Lemma quiet_dims dims s : quiet (UA_Array_copy copy_int true dims) s
  (fun r => copy_of True (copied_array (fun z => z) dims) r /\ (r.1 <> GOOD -> arr_list dims <> [])).
Proof.
  apply quiet_and.
  - eapply quiet_mono; [apply (quiet_array copy_int (fun _ => True) (fun z => z) true dims)|].
    + apply Forall_true; intros z s'; by apply quiet_ret.
    + intros r Hr; revert Hr; apply copy_of_can; intros _; split; [done|]; by apply Forall_true.
  - destruct dims as [| |[|z l]]; try (by apply quiet_ret).
    eapply quiet_mono; [apply (quiet_array copy_int (fun _ => True) (fun z => z) true)|done].
    apply Forall_true; intros z' s'; by apply quiet_ret.
Qed.

Lemma variant_owns type data dims s r w s' :
  copy_noInit (VVariant type data dims) s = Some ((r, w), s') -> bad r = true -> owns_data w = true ->
  slot_list data <> [] /\ arr_list dims <> [] /\ ~ memory.
Proof.
  cbn [copy_noInit]; intros ([r1 data'] & s1 & H1 & H)%bind_inv Hb Ho.
  destruct (bad r1) eqn:Hr1; [apply ret_inv in H as [[= -> ->] _]; done|].
  apply bind_inv in H as ([r2 dims'] & s2 & H2 & H); apply ret_inv in H as [[= -> ->] _]; apply bad_true in Hb.
  destruct (quiet_result _ _ _ _ _ (quiet_dims dims s1) H2) as [[_ Hm] Hd]; simpl in Hm, Hd; split; [|split; [auto|]].
  - destruct data as [v|[| |[|v l]]]; try done; by apply bind_inv in H1 as ([r3 arr] & s3 & H3 & H1); apply ret_inv in H3 as [[= -> ->] _];
      apply ret_inv in H1 as [[= -> ->] _]; destruct type.
  - intros Hmem; by apply Hb, Hm.
Qed.

Lemma noInit_owns v s r w s' : copy_noInit v s = Some ((r, w), s') -> bad r = true -> owns_data w = true ->
  exists type data dims, v = VVariant type data dims.
Proof.
  intros H Hb Ho; destruct v; cbn [copy_noInit] in H; try (by do 3 eexists); exfalso;
    repeat match goal with
    | H : (_ ≫= _) _ = Some _ |- _ => apply bind_inv in H as (? & ? & _ & H)
    | H : (if ?b then _ else _) _ = Some _ |- _ => destruct b
    | H : (match ?o with Some _ => _ | None => _ end) _ = Some _ |- _ => destruct o
    | H : (let '(_, _) := ?x in _) _ = Some _ |- _ => destruct x
    | H : mret _ _ = Some _ |- _ => apply ret_inv in H as [[= -> ->] _]
    end; simpl in Ho; try done.
Qed.

Lemma copies_extension encoding type data :
  (forall v, data = Some v -> copies copy_noInit copyable_value copied_value v) ->
  copies copy_noInit copyable_value copied_value (VExtDecoded encoding type data).
Proof.
  intros Hd s; cbn [copy_noInit copied_value copyable_value]; unfold is_decoded.
  destruct (_ || _) eqn:He; [|apply quiet_ret; split; [done|]; by intros _ []].
  destruct type as [ty|]; [|apply quiet_ret; split; [done|]; by intros _ [_ [[] _]]].
  destruct data as [d|]; [|apply quiet_ret; split; [done|]; by intros _ [_ [_ []]]].
  eapply quiet_bind; [apply (quiet_array _ copyable_value copied_value)|].
  { constructor; [|constructor]; by apply copies_cleaned, Hd. }
  intros [r arr] n [G M]; apply quiet_ret; split; cbn [fst snd] in *; [intros Hr; by rewrite (G Hr)|].
  intros Hm (_ & _ & Hc); apply M; [done|]; split; [done|]; simpl; auto.
Qed.

Lemma copies_variant type data dims :
  Forall (copies copy_noInit copyable_value copied_value) (slot_list data) ->
  copies copy_noInit copyable_value copied_value (VVariant type data dims).
Proof.
  intros Hd s; cbn [copy_noInit copied_value copyable_value].
  eapply quiet_bind; [by apply (copies_data _ copyable_value copied_value), Forall_copies_cleaned|].
  intros [r data'] n [G M]; cbn [fst snd] in *; destruct (bad r) eqn:Hb.
  { apply quiet_ret; split; cbn [fst snd]; [intros ->; done|]; intros Hm [Ht Hc].
    rewrite M in Hb; [done|done|split; [intros Hl; by apply bool_decide_eq_true, Ht|by apply copyable_slot_Forall]]. }
  apply bad_false in Hb; eapply quiet_bind.
  { apply (quiet_array copy_int (fun _ => True) (fun z => z)), Forall_true; intros z s'; by apply quiet_ret. }
  intros [r' dims'] n' [G' M']; apply quiet_ret; split; cbn [fst snd] in *.
  - intros Hr; by rewrite (G Hb), (G' Hr).
  - intros Hm _; apply M'; [done|]; split; [done|]; by apply Forall_true.
Qed.

Lemma copies_datavalue h value : (memory \/ freed_once (VDataValue h value)) ->
  copies copy_noInit copyable_value copied_value value ->
  copies copy_noInit copyable_value copied_value (VDataValue h value).
Proof.
  intros Ht Hv s; cbn [copy_noInit copied_value copyable_value].
  destruct (Hv s) as ([r w] & n & Hr & G & M); simpl in G, M.
  eapply quiet_bind with (P := fun x => x = (r, w)); [by exists (r, w), n|]; intros ? n' ->.
  destruct (bad r) eqn:Hb.
  - assert (owns_data w = false) as ->.
    { destruct (owns_data w) eqn:Ho; [exfalso|done]; destruct (noInit_owns _ _ _ _ _ Hr Hb Ho) as (type & data & dims & ->).
      destruct (variant_owns _ _ _ _ _ _ _ Hr Hb Ho) as (Hd & Hdims & Hm).
      by destruct Ht as [|[_ [?|?]]]. }
    apply quiet_ret; split; simpl; [|done]; intros ->; done.
  - apply bad_false in Hb as ->; apply quiet_ret; split; simpl; [intros _; by rewrite G|done].
Qed.

Lemma tame_slot data : memory \/ copyable_slot freed_once data -> Forall tame (slot_list data).
Proof.
  intros [Hm|H%copyable_slot_Forall]; [|by eapply Forall_impl; [exact H|by right]].
  apply Forall_true; by left.
Qed.

Lemma Forall_apply {A} (P Q : A -> Prop) l : Forall (fun a => P a -> Q a) l -> Forall P l -> Forall Q l.
Proof. induction 1; inversion 1; subst; constructor; auto. Qed.

Theorem copies_noInit : forall v, tame v -> copies copy_noInit copyable_value copied_value v.
Proof.
  refine (UA_Value_nested_ind _ _ _ _ _ _ _ _ _ _ _ _ _ _); intros.
  9: { apply copies_extension; intros v ->; apply H; [done|]; destruct H0; [by left|by right]. }
  9: { apply copies_datavalue; [done|]; apply H; destruct H0 as [|[? _]]; [by left|by right]. }
  9: { apply copies_variant; by eapply Forall_apply, tame_slot. }
  10: { intros st; cbn [copy_noInit copied_value copyable_value].
        eapply quiet_bind; [apply (copies_all _ (copyable_slot copyable_value) (copied_slot copied_value))|].
        { assert (Ht : Forall (fun s => Forall tame (slot_list s)) fs).
          { destruct H0 as [Hm|Hf%copyable_all_Forall]; [apply Forall_true; intros; apply tame_slot; by left|].
            eapply Forall_impl; [exact Hf|]; intros; apply tame_slot; by right. }
          clear H0; induction H as [|s fs Hs Hfs IH]; inversion Ht; subst; constructor; [|by apply IH].
          apply copies_member; [|apply Forall_copies_cleaned]; by eapply Forall_apply. }
        intros [r w] n' [G M]; apply quiet_ret; split; cbn [fst snd] in *; [intros Hr; by rewrite (G Hr)|].
        intros Hm Hc; apply M; [done|]; by apply copyable_all_Forall. }
  all: intros st; cbn [copy_noInit copied_value copyable_value].
  all: try (by apply quiet_ret).
  all: try (eapply quiet_bind; [eauto using quiet_String_copy, quiet_NodeId_copy, quiet_ExpandedNodeId_copy,
     quiet_QualifiedName_copy, quiet_LocalizedText_copy, copies_info|]; intros [r w] n' [G M]; apply quiet_ret;
     split; cbn [fst snd] in *; [intros Hr; by rewrite (G Hr)|exact M]).
  eapply quiet_bind; [apply quiet_NodeId_copy|]; intros [r1 i] n [G1 M1].
  eapply quiet_bind; [apply quiet_String_copy|]; intros [r2 w] n' [G2 M2]; apply quiet_ret; split; cbn [fst snd] in *.
  - intros [H1 H2]%lor_good; by rewrite (G1 H1), (G2 H2).
  - intros Hm Hc; apply lor_good; auto.
Qed.

Corollary copies_UA_copy v : tame v -> copies UA_copy copyable_value copied_value v.
Proof. intros Ht; by apply copies_cleaned, copies_noInit. Qed.
End Copies.
