(* ===== verification/Strides.v ===== *)
(** * Strides of an index range

    The elements of an array that a range selects, in the order of the copy, and
    what [computeStrides] makes of them: which status it returns, that its
    blocks never leave the array, and for which ranges the blocks are exactly
    the selected elements. *)

From Stdlib Require Import ZArith Lia.
From stdpp Require Import base list numbers tactics sets gmap.
From S2P Require Import Prelude StateMonad UaTypes UaValue AddressSpace Variant.

(** ** Selected elements *)

(** The elements of an array of these dimensions. *)
Definition volume (dims : list Z) : Z := foldr Z.mul 1 dims.

Lemma volume_cons d dims : volume (d :: dims) = d * volume dims.
Proof. done. Qed.

(** A range with an element of the array in every dimension. *)
Definition range_inside : list Z -> UA_NumericRange -> Prop :=
  Forall2 (fun d r => d < 2 ^ 32 /\ 0 <= min r <= max r /\ max r < 2 ^ 32 /\ min r < d).

(** The indices used in a dimension: those that exist. *)
Definition extent (d : Z) (r : UA_NumericRangeDimension) : Z := Z.min (max r) (d - 1) - min r + 1.

Fixpoint extents (dims : list Z) (range : UA_NumericRange) : list Z :=
  match dims, range with
  | d :: dims, r :: range => extent d r :: extents dims range
  | _, _ => []
  end.

(** The selected indices, the last dimension first, and their places in the
    array. *)
Fixpoint selected (dims : list Z) (range : UA_NumericRange) : list (list Z) :=
  match dims, range with
  | d :: dims, r :: range => seqZ (min r) (extent d r) ≫= fun i => cons i <$> selected dims range
  | _, _ => [[]]
  end.

Fixpoint row_major (dims index : list Z) : Z :=
  match dims, index with
  | _ :: dims, i :: index => i * volume dims + row_major dims index
  | _, _ => 0
  end.

Definition positions (dims : list Z) (range : UA_NumericRange) : list Z := row_major dims <$> selected dims range.

(** [n] blocks of [b] elements. *)
Fixpoint block_positions (n : nat) (b stride first : Z) : list Z :=
  match n with
  | O => []
  | S n => seqZ first b ++ block_positions n b stride (first + stride)
  end.

(** A dimension is full if all its indices are selected.  The blocks have a
    constant distance if, after outer dimensions with one index each and one
    arbitrary dimension, at most one dimension is not full. *)
Definition full (d : Z) (r : UA_NumericRangeDimension) : bool := extent d r =? d.

Fixpoint restricted (dims : list Z) (range : UA_NumericRange) : nat :=
  match dims, range with
  | d :: dims, r :: range => (if full d r then 0 else 1) + restricted dims range
  | _, _ => 0
  end.

Fixpoint regular (dims : list Z) (range : UA_NumericRange) : bool :=
  match dims, range with
  | d :: dims, r :: range =>
      if extent d r =? 1 then regular dims range else bool_decide (restricted dims range <= 1)%nat
  | _, _ => true
  end.

(** All ranges of vectors and of matrices are. *)
Lemma regular_flat dims range : zlen dims <= 2 -> regular dims range = true.
Proof.
  destruct dims as [|d1 [|d2 [|d3 dims]]]; unfold zlen; simpl; try done; try lia; intros _.
  - destruct range as [|r1 range]; [done|]; by destruct (_ =? _).
  - destruct range as [|r1 [|r2 range]]; simpl; repeat case_match; try done;
      apply bool_decide_eq_true_2; lia.
Qed.

(** ** Arithmetic of the loops *)

Lemma range_inside_cons d dims r range : range_inside (d :: dims) (r :: range) <->
  (d < 2 ^ 32 /\ 0 <= min r <= max r /\ max r < 2 ^ 32 /\ min r < d) /\ range_inside dims range.
Proof. split; [by inversion 1|]; intros [? ?]; by constructor. Qed.

Lemma extent_bounds d r : 0 <= min r <= max r -> min r < d -> 1 <= extent d r <= d /\ min r + extent d r <= d.
Proof. unfold extent; lia. Qed.

Lemma volume_pos dims range : range_inside dims range -> 1 <= volume dims.
Proof. induction 1; simpl; [lia|]; unfold volume in *; simpl; nia. Qed.

Lemma volume_extents dims range : range_inside dims range -> 1 <= volume (extents dims range) <= volume dims.
Proof.
  induction 1 as [|d r dims range Hd Hr IH]; unfold volume in *; simpl; [lia|].
  destruct (extent_bounds d r) as [? ?]; [lia|lia|nia].
Qed.

(** The part of a nonempty product. *)
Lemma volume_cons_bound d dims range : range_inside dims range -> 1 <= d -> volume (d :: dims) < 2 ^ 32 ->
  d < 2 ^ 32 /\ volume dims < 2 ^ 32.
Proof. intros H%volume_pos ?; unfold volume in *; simpl; nia. Qed.

Lemma u64_small z : 0 <= z < 2 ^ 64 -> u64 z = z.
Proof. intros H; by apply Z.mod_small. Qed.

(** The last index of every dimension. *)
Definition realmax (d : Z) (r : UA_NumericRangeDimension) : Z := Z.min (max r) (d - 1).

Lemma realmax_size d r : d < 2 ^ 32 /\ 0 <= min r <= max r /\ max r < 2 ^ 32 /\ min r < d ->
  (if max r <? d then max r else u32 (d - 1)) = realmax d r /\
  u32 (u32 (realmax d r - min r) + 1) = extent d r /\ u32 (u32 (1 + realmax d r) - min r) = extent d r.
Proof.
  intros H; unfold realmax, extent; split; [|split].
  - destruct (Z.ltb_spec (max r) d); [lia|]; rewrite u32_small; lia.
  - rewrite (u32_small (_ - _)), u32_small; lia.
  - destruct (decide (1 + Z.min (max r) (d - 1) = 2 ^ 32)); [lia|].
    rewrite (u32_small (1 + _)), u32_small; lia.
Qed.

Lemma check_range_inside dims range : range_inside dims range -> volume dims < 2 ^ 32 ->
  forall count, 1 <= count -> count * volume (extents dims range) < 2 ^ 64 ->
  check_range dims range count = (GOOD, zip_with realmax dims range, count * volume (extents dims range)).
Proof.
  induction 1 as [|d r dims range Hd Hr IH]; intros Hv count Hc Hb; simpl.
  { unfold volume; simpl; do 2 f_equal; lia. }
  destruct (volume_cons_bound d dims range) as [_ Hv']; [done|lia|done|].
  pose proof (extent_bounds d r); pose proof (volume_extents dims range Hr).
  assert (Hm : count * extent d r * volume (extents dims range) < 2 ^ 64)
    by (unfold volume in Hb |- *; simpl in Hb; lia).
  replace (max r <? min r) with false by lia; replace (d <=? min r) with false by lia.
  destruct (realmax_size d r Hd) as (-> & -> & _); rewrite u64_small by nia.
  rewrite IH by (try done; nia); unfold volume; simpl; f_equal; lia.
Qed.

(** Otherwise the first dimension that does not fit decides about the error. *)
Fixpoint range_status (dims : list Z) (range : UA_NumericRange) : status :=
  match dims, range with
  | d :: dims, r :: range =>
      if max r <? min r then BADINDEXRANGEINVALID else if d <=? min r then BADINDEXRANGENODATA
      else range_status dims range
  | _, _ => GOOD
  end.

Lemma check_range_status dims range count : (check_range dims range count).1.1 = range_status dims range.
Proof.
  revert range count; induction dims as [|d dims IH]; intros [|r range] count; simpl; try done.
  destruct (_ <? _); [done|]; destruct (_ <=? _); [done|].
  match goal with |- context [check_range dims range ?c] => rewrite <- (IH range c) end.
  by destruct (check_range _ _ _) as [[]].
Qed.

(** ** Blocks *)

Lemma block_positions_app n1 n2 b stride first :
  block_positions (n1 + n2) b stride first =
  block_positions n1 b stride first ++ block_positions n2 b stride (first + Z.of_nat n1 * stride).
Proof.
  revert first; induction n1 as [|n1 IH]; intros first; simpl; [f_equal; lia|].
  rewrite IH, <- (assoc_L (++)); do 3 f_equal; lia.
Qed.

Lemma block_positions_shift n b stride first m :
  Z.add m <$> block_positions n b stride first = block_positions n b stride (m + first).
Proof.
  revert first; induction n as [|n IH]; intros first; simpl; [done|].
  rewrite fmap_app, fmap_add_seqZ, IH; do 2 f_equal; lia.
Qed.

(** Blocks that fill a dimension but for the distance go on in the next one. *)
Lemma block_positions_compose (e n : nat) m P b stride first : Z.of_nat n * stride = P \/ e = 1%nat ->
  (seqZ m (Z.of_nat e) ≫= fun i => Z.add (i * P) <$> block_positions n b stride first) =
  block_positions (e * n) b stride (m * P + first).
Proof.
  revert m; induction e as [|e IH]; intros m H; [done|].
  rewrite seqZ_cons, bind_cons, block_positions_shift by lia.
  replace (Z.pred (Z.of_nat (S e))) with (Z.of_nat e) by lia.
  change (S e * n)%nat with (n + e * n)%nat; rewrite block_positions_app; f_equal.
  destruct H as [H|H]; [|assert (e = 0%nat) as -> by lia; done].
  rewrite IH by auto; f_equal; nia.
Qed.

Lemma positions_cons d dims r range :
  positions (d :: dims) (r :: range) =
  seqZ (min r) (extent d r) ≫= fun i => Z.add (i * volume dims) <$> positions dims range.
Proof.
  unfold positions; simpl; induction (seqZ _ _) as [|i l IH]; [done|].
  rewrite !bind_cons, fmap_app, IH, <- !list_fmap_compose; f_equal.
Qed.

(** Blocks without gaps, and a single one. *)
Lemma block_positions_contiguous n b first : 0 <= b -> block_positions n b b first = seqZ first (Z.of_nat n * b).
Proof.
  intros Hb; revert first; induction n as [|n IH]; intros first; [done|]; cbn [block_positions].
  rewrite IH, <- seqZ_app by lia; f_equal; lia.
Qed.

Lemma positions_block d dims r range : range_inside (d :: dims) (r :: range) -> restricted dims range = 0%nat ->
  positions dims range = seqZ 0 (volume dims) ->
  positions (d :: dims) (r :: range) = seqZ (min r * volume dims) (volume dims * extent d r).
Proof.
  intros [Hd Hr]%range_inside_cons H0 IH; pose proof (volume_pos dims range Hr).
  pose proof (extent_bounds d r); rewrite positions_cons, IH.
  pose proof (block_positions_compose (Z.to_nat (extent d r)) 1 (min r) (volume dims) (volume dims) (volume dims) 0) as Hc.
  rewrite Z2Nat.id, Nat.mul_1_r in Hc by lia; simpl in Hc; rewrite app_nil_r in Hc; rewrite Hc by lia.
  rewrite block_positions_contiguous by lia; f_equal; lia.
Qed.

Lemma positions_full dims range : range_inside dims range -> restricted dims range = 0%nat ->
  positions dims range = seqZ 0 (volume dims).
Proof.
  induction 1 as [|d r dims range Hd Hr IH]; intros H0; [done|]; simpl in H0; unfold full in H0.
  destruct (Z.eqb_spec (extent d r) d) as [He|He]; [|done].
  rewrite positions_block by (try (by constructor); auto); destruct (extent_bounds d r) as [? ?]; [lia|lia|].
  assert (min r = 0) as -> by lia; change (volume (d :: dims)) with (d * volume dims); f_equal; lia.
Qed.

(** ** What the loop computes *)

(** Where the first selected element is. *)
Fixpoint range_offset (dims : list Z) (range : UA_NumericRange) : Z :=
  match dims, range with
  | d :: dims, r :: range => min r * volume dims + range_offset dims range
  | _, _ => 0
  end.

(** The blocks of the dimensions seen so far: there are [n], within the array,
    and they are the selected elements if the dimensions are as [regular] asks
    for. *)
Record blocks_of (dims : list Z) (range : UA_NumericRange) (st : Strides) (n : nat) : Prop := {
  blocks_some : (0 < n)%nat;
  blocks_size : 0 < block st;
  blocks_extent : Z.of_nat n * block st = volume (extents dims range);
  blocks_stride : 0 < stride st /\ Z.of_nat n * stride st <= volume dims;
  blocks_inside : 0 <= range_offset dims range /\
    range_offset dims range + (Z.of_nat n - 1) * stride st + block st <= volume dims;
  blocks_tight : (restricted dims range <= 1)%nat -> Z.of_nat n * stride st = volume dims;
  blocks_exact : (restricted dims range <= 1)%nat \/ regular dims range = true ->
    positions dims range = block_positions n (block st) (stride st) (range_offset dims range)
}.

Lemma blocks_of_found d dims r range total : range_inside (d :: dims) (r :: range) ->
  restricted dims range = 0%nat -> range_offset dims range = 0 -> volume (extents dims range) = volume dims ->
  blocks_of (d :: dims) (r :: range)
    (mkStrides total (volume dims * extent d r) (volume dims * d) (range_offset (d :: dims) (r :: range))) 1.
Proof.
  intros Hi H0 Ho Hv; pose proof Hi as [Hd Hr]%range_inside_cons; pose proof (volume_pos dims range Hr).
  pose proof (extent_bounds d r) as [? ?]; [lia|lia|].
  split; cbn [block stride range_offset extents block_positions]; rewrite ?volume_cons, ?Ho; try nia.
  intros _; rewrite app_nil_r, Z.add_0_r; apply positions_block; auto using positions_full.
Qed.

Lemma blocks_of_outer d dims r range st total n : range_inside (d :: dims) (r :: range) ->
  (0 < restricted dims range)%nat -> blocks_of dims range st n ->
  blocks_of (d :: dims) (r :: range)
    (mkStrides total (block st) (stride st) (range_offset (d :: dims) (r :: range))) (Z.to_nat (extent d r) * n).
Proof.
  intros Hi Hf [H1 H2 H3 [H4 H5] [H6 H7] H8 H9]; pose proof Hi as [Hd Hr]%range_inside_cons.
  pose proof (volume_pos dims range Hr); pose proof (extent_bounds d r) as [He1 He2]; [lia|lia|].
  set (e := Z.to_nat (extent d r)); assert (He : extent d r = Z.of_nat e) by (unfold e; lia).
  split; cbn [block stride range_offset extents restricted regular]; rewrite ?Nat2Z.inj_mul, ?volume_cons; try nia.
  - unfold full; destruct (Z.eqb_spec (extent d r) d); [|lia]; intros; nia.
  - intros Hreg; rewrite positions_cons, He.
    assert (Hsub : (restricted dims range <= 1)%nat \/ extent d r = 1 /\ regular dims range = true).
    { destruct Hreg as [Hreg|Hreg]; [left; lia|]; destruct (Z.eqb_spec (extent d r) 1); [by right|].
      by left; apply bool_decide_eq_true in Hreg. }
    rewrite H9 by tauto; apply block_positions_compose; destruct Hsub as [Hs|[Hs _]]; [left; by apply H8|right; lia].
Qed.

Lemma full_range dims range : range_inside dims range -> restricted dims range = 0%nat ->
  range_offset dims range = 0 /\ extents dims range = dims.
Proof.
  induction 1 as [|d r dims range Hd Hr IH]; intros H0; [done|]; simpl in H0; unfold full in H0.
  destruct (Z.eqb_spec (extent d r) d) as [He|He]; [|done]; pose proof (extent_bounds d r) as [? ?]; [lia|lia|].
  destruct IH as [IH1 IH2]; [done|]; simpl; rewrite IH1, IH2, He; split; [|done].
  assert (min r = 0) as -> by lia; lia.
Qed.

Lemma range_offset_bound dims range : range_inside dims range -> 0 <= range_offset dims range < volume dims.
Proof.
  induction 1 as [|d r dims range Hd Hr IH]; cbn [range_offset];
    [unfold volume; simpl; lia|]; rewrite volume_cons; nia.
Qed.

Lemma stride_loop_blocks dims range init : range_inside dims range -> volume dims < 2 ^ 32 -> first init = 0 ->
  let '(found, st, running) := stride_loop dims range (zip_with realmax dims range) init in
  running = volume dims /\ total st = total init /\ first st = range_offset dims range /\
  if found then (0 < restricted dims range)%nat /\ exists n, blocks_of dims range st n
  else restricted dims range = 0%nat /\ block st = block init /\ stride st = stride init.
Proof.
  intros Hi; revert init; induction Hi as [|d r dims range Hd Hr IH]; intros init Hv Hf; [done|].
  destruct (volume_cons_bound d dims range) as [_ Hv']; [done|lia|done|]; cbn [stride_loop zip_with].
  specialize (IH init Hv' Hf); destruct (stride_loop _ _ _ _) as [[found st] running].
  destruct IH as (-> & Ht & Hfirst & IH); pose proof (volume_pos dims range Hr); rewrite volume_cons in Hv.
  destruct (extent_bounds d r) as [? ?]; [lia|lia|]; pose proof (range_offset_bound dims range Hr).
  destruct (realmax_size d r Hd) as (_ & _ & ->).
  assert (0 <= volume dims * min r /\ volume dims * min r + volume dims <= d * volume dims) by nia.
  assert (0 <= volume dims * extent d r <= d * volume dims) by nia.
  rewrite (u64_small (volume dims * min r)), Hfirst by lia; rewrite (u64_small (_ + _)) by lia.
  rewrite !u64_small by lia.
  cbn [range_offset restricted total first block stride]; unfold full.
  split; [rewrite volume_cons; lia|]; split; [done|]; split; [lia|].
  destruct found; cbn [negb andb orb].
  { destruct IH as [Hres [n Hn]]; split; [lia|].
    exists (Z.to_nat (extent d r) * n)%nat; destruct (blocks_of_outer d dims r range st (total st) n); 
      [by constructor|done|done|]; split; cbn [block stride] in *; auto. }
  destruct IH as (Hres & Hb & Hs); destruct (full_range dims range Hr Hres) as [Ho He].
  destruct (Z.eqb_spec (extent d r) d) as [Heq|Heq]; cbn [negb]; [by rewrite Hres|]; split; [lia|].
  exists 1%nat; destruct (blocks_of_found d dims r range (total st)); [by constructor|done|done|by rewrite He|].
  split; cbn [block stride] in *; auto.
Qed.

(** ** [computeStrides] *)

(** The dimensions of an array: one if the variant has none. *)
Definition array_dims (len : Z) (dims : list Z) : list Z := match dims with [] => [len] | _ => dims end.

(** The dimensions fit the length, and not only modulo the width of [size_t]. *)
Definition matrix (len : Z) (dims : list Z) : Prop :=
  0 <= len < 2 ^ 32 /\ Forall (fun d => 0 <= d < 2 ^ 32) dims /\ volume (array_dims len dims) = len.

Lemma dimensions_product_volume dims e : Forall (fun d => 0 <= d < 2 ^ 32) dims -> 0 <= e ->
  dimensions_product dims (u64 e) = u64 (e * volume dims).
Proof.
  intros Hd; revert e; induction Hd as [|d dims H Hd IH]; intros e He; cbn [dimensions_product].
  { unfold volume; simpl; by rewrite Z.mul_1_r. }
  rewrite volume_cons; replace (u64 (u64 e * d)) with (u64 (e * d)) by (unfold u64; by rewrite Zmult_mod_idemp_l).
  rewrite IH by nia; f_equal; lia.
Qed.

Lemma zlen_zero_iff {A} (l : list A) : (zlen l =? 0) = bool_decide (l = []).
Proof. by destruct l. Qed.

(** The range has as many dimensions as the array, all with an element. *)
Definition range_error (len : Z) (dims : list Z) (range : UA_NumericRange) : status :=
  if zlen range =? zlen (array_dims len dims) then range_status (array_dims len dims) range
  else BADINDEXRANGENODATA.

Lemma computeStrides_matrix len dims range : matrix len dims ->
  let dims' := array_dims len dims in
  computeStrides len dims range =
  if negb (zlen range =? zlen dims') then (BADINDEXRANGENODATA, Strides_init)
  else
    let '(s, realmax, count) := check_range dims' range 1 in
    if bad s then (s, Strides_init)
    else let '(_, st, _) := stride_loop dims' range realmax (mkStrides count count len 0) in (GOOD, st).
Proof.
  intros (Hlen & Hdims & Hvol); unfold computeStrides, array_dims in *.
  replace (2 ^ 32 - 1 <? len) with false by lia; rewrite u32_small by lia; cbv zeta.
  destruct dims as [|d dims]; [done|]; change 1 with (u64 1) at 1; rewrite dimensions_product_volume by done.
  by rewrite Z.mul_1_l, Hvol, u64_small, Z.eqb_refl by lia.
Qed.

Lemma computeStrides_status len dims range : matrix len dims ->
  (computeStrides len dims range).1 = range_error len dims range.
Proof.
  intros Hm; rewrite computeStrides_matrix by done; cbv zeta; unfold range_error.
  rewrite <- (check_range_status _ range 1); destruct (zlen range =? _); [|done]; simpl.
  destruct (check_range _ range 1) as [[st realmax] count]; simpl; destruct (bad st) eqn:Hb; [done|].
  apply bad_false in Hb as ->; by destruct (stride_loop _ _ _ _) as [[]].
Qed.

Lemma range_status_inside dims range : Forall (fun d => 0 <= d < 2 ^ 32) dims ->
  Forall (fun r => 0 <= min r < 2 ^ 32 /\ 0 <= max r < 2 ^ 32) range ->
  zlen range = zlen dims -> range_status dims range = GOOD -> range_inside dims range.
Proof.
  intros Hd; revert range; induction Hd as [|d dims H Hd IH]; intros [|r range] Hr Hl; unfold zlen in Hl; simpl in *;
    try lia; [constructor|]; inversion Hr; subst.
  destruct (Z.ltb_spec (max r) (min r)); [done|]; destruct (Z.leb_spec d (min r)); [done|]; intros Hs.
  apply range_inside_cons; split; [lia|]; apply IH; try done; unfold zlen; lia.
Qed.

Lemma matrix_dims len dims : matrix len dims -> Forall (fun d => 0 <= d < 2 ^ 32) (array_dims len dims).
Proof. intros (H1 & H2 & _); destruct dims; [constructor; [done|constructor]|done]. Qed.

Lemma computeStrides_blocks len dims range : matrix len dims -> range_inside (array_dims len dims) range ->
  exists st n, computeStrides len dims range = (GOOD, st) /\ total st = volume (extents (array_dims len dims) range) /\
    first st = range_offset (array_dims len dims) range /\ blocks_of (array_dims len dims) range st n.
Proof.
  intros Hm Hi; pose proof Hm as (Hlen & Hdims & Hvol); pose proof (volume_extents _ _ Hi) as Hv.
  rewrite computeStrides_matrix by done; cbv zeta; set (D := array_dims len dims) in *.
  replace (zlen range =? zlen D) with true
    by (symmetry; apply Z.eqb_eq; unfold zlen; f_equal; symmetry; by eapply Forall2_length).
  rewrite check_range_inside by (try done; lia); cbn [negb bad]; rewrite Z.mul_1_l.
  pose proof (stride_loop_blocks D range
    (mkStrides (volume (extents D range)) (volume (extents D range)) len 0) Hi ltac:(lia) eq_refl) as Hl.
  change (bad GOOD) with false; cbv iota.
  destruct (stride_loop _ _ _ _) as [[found st] running]; destruct Hl as (Hrun & Ht & Hf & Hl).
  destruct found; [destruct Hl as [_ [n Hn]]; by exists st, n|]; exists st, 1%nat; split; [done|]; split; [done|]; split; [done|].
  destruct Hl as (H0 & Hb & Hst); destruct (full_range _ _ Hi H0) as [Ho He]; simpl in Hb, Hst; rewrite He in *.
  split; rewrite ?Hb, ?Hst, ?He; try lia.
  intros _; rewrite Ho; simpl; rewrite app_nil_r; auto using positions_full.
Qed.

(** The blocks are within the array. *)
Lemma block_positions_inside n b stride first p : 0 <= b -> 0 < stride -> p ∈ block_positions n b stride first ->
  first <= p < first + (Z.of_nat n - 1) * stride + b.
Proof.
  intros Hb Hs; revert first; induction n as [|n IH]; intros first; simpl; [by intros ?%elem_of_nil|].
  intros [Hp%elem_of_seqZ|Hp%IH]%elem_of_app; nia.
Qed.

Lemma blocks_of_inside dims range st n p : blocks_of dims range st n ->
  p ∈ block_positions n (block st) (stride st) (range_offset dims range) -> 0 <= p < volume dims.
Proof.
  intros [] Hp%block_positions_inside; [|lia|by destruct blocks_stride0]; destruct blocks_inside0; lia.
Qed.

Lemma blocks_of_count dims range st n : blocks_of dims range st n -> total st = volume (extents dims range) ->
  block_count st = Some n.
Proof.
  intros [] Ht; unfold block_count; destruct (Z.eqb_spec (block st) 0); [lia|].
  by rewrite Ht, <- blocks_extent0, Z.div_mul, Nat2Z.id by done.
Qed.

(** ** The places of the selected elements *)

Lemma positions_inside dims range : range_inside dims range ->
  forall p, p ∈ positions dims range -> 0 <= p < volume dims.
Proof.
  induction 1 as [|d r dims range Hd Hr IH]; intros p.
  { intros ->%list_elem_of_singleton; unfold volume; simpl; lia. }
  rewrite positions_cons, volume_cons; intros (i & (q & -> & Hq)%list_elem_of_fmap & Hi%elem_of_seqZ)%list_elem_of_bind.
  destruct (extent_bounds d r) as [? ?]; [lia|lia|]; specialize (IH q Hq); nia.
Qed.

Lemma positions_NoDup dims range : range_inside dims range -> NoDup (positions dims range).
Proof.
  induction 1 as [|d r dims range Hd Hr IH]; [apply NoDup_singleton|]; rewrite positions_cons.
  pose proof (positions_inside dims range Hr) as Hin; revert Hin IH; generalize (positions dims range) as ps.
  intros ps Hin IH; pose proof (NoDup_seqZ (min r) (extent d r)) as Hnd; revert Hnd.
  generalize (seqZ (min r) (extent d r)) as l; induction l as [|i l IHl]; [constructor|].
  intros [Hi Hl]%NoDup_cons; rewrite bind_cons; apply NoDup_app; split; [|split; [|by apply IHl]].
  - apply NoDup_fmap; [intros x y; lia|done].
  - intros p (q & -> & Hq)%list_elem_of_fmap (j & (q' & Heq & Hq')%list_elem_of_fmap & Hj)%list_elem_of_bind.
    apply Hin in Hq, Hq'; assert (i = j) as -> by nia; done.
Qed.

Lemma length_positions dims range : range_inside dims range ->
  zlen (positions dims range) = volume (extents dims range).
Proof.
  induction 1 as [|d r dims range Hd Hr IH]; [done|]; rewrite positions_cons; cbn [extents]; rewrite volume_cons, <- IH.
  destruct (extent_bounds d r) as [? ?]; [lia|lia|].
  assert (Hb : forall l, zlen (l ≫= fun i => Z.add (i * volume dims) <$> positions dims range) =
    zlen l * zlen (positions dims range)).
  { induction l as [|i l IHl]; [done|]; rewrite bind_cons, zlen_app, IHl, zlen_cons.
    unfold zlen at 1; rewrite length_fmap; fold (zlen (positions dims range)); lia. }
  rewrite Hb; unfold zlen at 1; rewrite length_seqZ; lia.
Qed.
