(* ===== verification/IndexRangeCorrect.v ===== *)
(** * Index ranges: what is read and written

    Copying a range out of a variant never leaves its arrays, and gives the
    selected elements; writing a range replaces exactly them. *)

From Stdlib Require Import ZArith Lia.
From stdpp Require Import base list numbers tactics sets gmap.
From S2P Require Import Prelude StateMonad UaTypes UaValue NodeStore AddressSpace NodeTree AddressLogic Variant VariantCopyCorrect Strides.

(** The elements at places of a list. *)
Definition pick {A} (l : list A) (ps : list Z) : list A := omap (fun p => l !! Z.to_nat p) ps.

Lemma pick_app {A} (l : list A) ps qs : pick l (ps ++ qs) = pick l ps ++ pick l qs.
Proof. apply omap_app. Qed.

Lemma length_pick {A} (l : list A) ps : (forall p, p ∈ ps -> 0 <= p < zlen l) -> length (pick l ps) = length ps.
Proof.
  unfold pick; induction ps as [|p ps IH]; intros H; [done|]; cbn [omap list_omap].
  destruct (lookup_lt_is_Some_2 l (Z.to_nat p)) as [a ->].
  - specialize (H p ltac:(left)); unfold zlen in H; lia.
  - simpl; f_equal; apply IH; intros; apply H; by right.
Qed.

(** ** The loops of the copy *)

Section Loops.
Context {E : Env} {A B : Type} (f : A -> M (status * B)) (Q : A -> status * B -> Prop) (keep : bool).

(** A run over elements: each is copied, and without [keep] an error is the end. *)
Inductive run : status -> list A -> status -> list B -> Prop :=
  | run_nil r : run r [] r []
  | run_stop r l : keep = false -> r <> GOOD -> run r l r []
  | run_cons r a l r1 b r2 l' : (keep = false -> r = GOOD) -> Q a (r1, b) -> run r1 l r2 l' ->
      run r (a :: l) r2 (b :: l').

Lemma run_both r l1 r1 l1' l2 r2 l2' : run r l1 r1 l1' -> run r1 l2 r2 l2' -> run r (l1 ++ l2) r2 (l1' ++ l2').
Proof.
  induction 1 as [|r l Hk Hr|]; intros H2; simpl; [done| |econstructor; eauto].
  inversion H2; subst; [by apply run_stop|by apply run_stop|]; by destruct Hr; auto.
Qed.

(** All elements succeed. *)
Lemma run_good (g : A -> B) r l r' l' : (forall a x, a ∈ l -> Q a x -> x = (GOOD, g a)) -> run r l r' l' ->
  r = GOOD -> r' = GOOD /\ l' = map g l.
Proof.
  intros Hq; induction 1 as [| |r a l r1 b r2 l' Hk Ha Hrun IH]; intros ->; [done|done|].
  pose proof (Hq a (r1, b) ltac:(left) Ha) as [= -> ->].
  destruct IH as [-> ->]; [intros; apply Hq; [by right|done]|done|done].
Qed.

(** As many results as elements, unless an error ended the run. *)
Lemma run_length r l r' l' : run r l r' l' -> keep = true \/ r' = GOOD -> length l' = length l.
Proof.
  induction 1 as [|r l Hk Hr|r a l r1 b r2 l' Hk Ha Hrun IH]; intros H; simpl; [done| |by rewrite IH].
  destruct H; congruence.
Qed.

Context (elements : list A).
Hypothesis Hf : forall a s, a ∈ elements -> quiet (f a) s (Q a).

Lemma quiet_copy_block n pos r s : 0 <= pos -> pos + Z.of_nat n <= zlen elements ->
  quiet (copy_block (map f elements) keep n pos r) s
    (fun x => run r (pick elements (seqZ pos (Z.of_nat n))) x.1 x.2).
Proof.
  revert pos r s; induction n as [|n IH]; intros pos r s H0 H1; [apply quiet_ret; constructor|].
  cbn [copy_block]; destruct (negb keep && bad r) eqn:Hk.
  { apply andb_true_iff in Hk as [Hk Hr]; apply quiet_ret, run_stop; [by destruct keep|by apply bad_true]. }
  destruct (lookup_lt_is_Some_2 elements (Z.to_nat pos)) as [a Ha]; [unfold zlen in H1; lia|].
  rewrite list_lookup_fmap, Ha; simpl; rewrite seqZ_cons by lia; unfold pick; simpl; rewrite Ha.
  eapply quiet_bind; [by apply (quiet_exact _ _ (f a) (eq (f a)))|]; intros ? n1 <-.
  eapply quiet_bind; [apply Hf; by eapply list_elem_of_lookup_2|]; intros [r1 b] n2 Hb.
  eapply quiet_bind; [apply IH; lia|]; intros [r2 l2] n3 Hl; apply quiet_ret; simpl in *.
  replace (Z.pred _) with (Z.of_nat n) by lia; eapply run_cons; [|exact Hb|exact Hl].
  intros ->; by apply bad_false.
Qed.

Lemma quiet_copy_blocks m n stride first r s :
  (forall p, p ∈ block_positions m (Z.of_nat n) stride first -> 0 <= p < zlen elements) ->
  quiet (copy_blocks (map f elements) keep m n stride first r) s
    (fun x => run r (pick elements (block_positions m (Z.of_nat n) stride first)) x.1 x.2).
Proof.
  revert first r s; induction m as [|m IH]; intros first r s H; [apply quiet_ret; constructor|].
  cbn [copy_blocks block_positions] in *; rewrite pick_app.
  apply quiet_bind with (P := fun x => run r (pick elements (seqZ first (Z.of_nat n))) x.1 x.2).
  { destruct n as [|n]; [by apply quiet_ret; constructor|].
    pose proof (H first) as H1; pose proof (H (first + Z.of_nat n)) as H2.
    apply quiet_copy_block; [|assert (first + Z.of_nat n < zlen elements); [|lia]];
      [apply H1|apply H2]; apply elem_of_app; left; apply elem_of_seqZ; lia. }
  intros [r1 l1] n1 H1; eapply quiet_bind; [apply IH; intros; apply H, elem_of_app; by right|].
  intros [r2 l2] n2 H2; apply quiet_ret; by eapply run_both.
Qed.
End Loops.

(** ** Copying a range *)

Section Copied.
Context {E : Env}.

Lemma quiet_Array_new n s : quiet (UA_Array_new n) s (fun b => memory -> n <= UA_INT32_MAX -> b = true).
Proof.
  unfold UA_Array_new; destruct (Z.ltb_spec UA_INT32_MAX n); [apply quiet_ret; lia|].
  destruct (n =? 0); [by apply quiet_ret|]; apply quiet_malloc; auto.
Qed.

(** The variant of the copied elements. *)
Definition range_value (type : UA_DataType) (data : Slot UA_Value) (dims : list Z) (range : UA_NumericRange)
    (l : list UA_Value) : UA_Value :=
  match data with
  | SScalar v => VVariant (Some type) (SScalar (hd v l)) ArrNull
  | SArray _ => VVariant (Some type) (SArray (array_of l))
                  (match dims with [] => ArrNull | _ => array_of (range_dimensions range) end)
  end.

(** Enough memory, also for the dimensions of the copy. *)
Definition room (range : UA_NumericRange) : Prop := memory /\ zlen range <= UA_INT32_MAX.

Lemma quiet_range_result type data dims range r l s :
  (r = GOOD -> l <> []) -> existsb dangling l = false ->
  quiet (range_result type (slot_scalar data) (negb (bool_decide (dims = []))) range r l) s
    (fun x => (x.1 = GOOD -> r = GOOD /\ x.2 = mkCopied (range_value type data dims range (map copy l)) false) /\
              (x.1 <> GOOD -> x.2 = no_content \/ dangling x.2 = true /\ ~ room range) /\
              (room range -> r = GOOD -> x.1 = GOOD)).
Proof.
  intros Hl Hd; unfold range_result; destruct (bad r) eqn:Hb.
  { apply bad_true in Hb; rewrite Hd; apply quiet_ret; simpl; split; [congruence|]; split; [auto|]; congruence. }
  apply bad_false in Hb as ->; destruct data as [v|arr]; cbn [slot_scalar].
  { destruct l; [by destruct Hl|]; apply quiet_ret; simpl; split; [done|]; by split. }
  destruct dims as [|d dims]; cbn; [apply quiet_ret; simpl; split; [done|]; by split|].
  eapply quiet_bind; [apply quiet_Array_new|]; intros b n Hb; destruct b; cbn; apply quiet_ret; simpl;
    [split; [done|]; by split|].
  assert (Hroom : ~ room range) by (intros [Hm Hz]; discriminate (Hb Hm Hz)).
  split; [done|]; split; [by right|]; by intros H.
Qed.

(** The copy of an element: the whole of it, or the part for the rest of the
    range. *)
Definition part_copy (type : UA_DataType) (next : UA_NumericRange) (v : UA_Value) : M (status * Copied) :=
  match next with
  | [] => whole v
  | _ => if isStringLike type then copy_part v next else UA_Variant_copyRange v next
  end.

Definition part_status (type : UA_DataType) (next : UA_NumericRange) : status :=
  match next with
  | [] => GOOD
  | _ => if is_variant_type type then GOOD
         else if negb (isStringLike type) || negb (zlen next =? 1) then BADINDEXRANGENODATA else GOOD
  end.

Definition keeps_going (next : UA_NumericRange) : bool := match next with [] => true | _ => false end.

Lemma copyRange_unfold type data dims range this next :
  split_range (slot_scalar data) (arr_list dims) range = Some (this, next) ->
  UA_Variant_copyRange (VVariant (Some type) data dims) range =
  (let '(r, st) := computeStrides (slot_length data) (arr_list dims) this in
   if bad r then mret (r, no_content)
   else
     ok ← UA_Array_new (total st);
     if negb ok then mret (BADOUTOFMEMORY, no_content)
     else
       n ← the (block_count st);
       '(r, l) ← copy_blocks (map (part_copy type next) (slot_list data)) (keeps_going next) n
                   (Z.to_nat (block st)) (stride st) (first st) (part_status type next);
       range_result type (slot_scalar data) (negb (bool_decide (arr_list dims = []))) this r l).
Proof.
  intros Hs; cbn [UA_Variant_copyRange]; rewrite Hs; destruct next as [|r next]; [done|].
  assert (Hd : match data with
               | SScalar v => [part_copy type (r :: next) v]
               | SArray arr => arr_list (arr_map (part_copy type (r :: next)) arr)
               end = map (part_copy type (r :: next)) (slot_list data)) by by destruct data as [|[]].
  rewrite <- Hd; done.
Qed.

(** What a copy of a range gives, for a run over the elements at [ps]. *)
Record range_outcome (Q : UA_Value -> status * Copied -> Prop) type data dims this next (x : status * Copied) (ps : list Z)
    (r : status) (rs : list Copied) : Prop := {
  outcome_places : regular (array_dims (slot_length data) dims) this = true ->
    ps = positions (array_dims (slot_length data) dims) this;
  outcome_run : run Q (keeps_going next) (part_status type next) (pick (slot_list data) ps) r rs;
  outcome_value : x.1 = GOOD -> r = GOOD /\ x.2 = mkCopied (range_value type data dims this (map copy rs)) false;
  outcome_good : room this -> r = GOOD -> x.1 = GOOD
}.

Lemma copy_blocks_stopped {A} (copies : list (M (status * A))) m n stride first r : bad r = true ->
  copy_blocks copies false m n stride first r = mret (r, []).
Proof.
  intros Hr; revert first; induction m as [|m IH]; intros first; [done|]; cbn [copy_blocks].
  assert (copy_block copies false n first r = mret (r, [])) as -> by (destruct n; simpl; by rewrite ?Hr).
  transitivity ('(r, l') ← copy_blocks copies false m n stride (first + stride) r; mret (r, l')); [done|].
  by rewrite IH.
Qed.

Lemma quiet_parts Q type next elements n m stride first s :
  (forall a s, a ∈ elements -> part_status type next = GOOD -> quiet (part_copy type next a) s (Q a)) ->
  (forall p, p ∈ block_positions n (Z.of_nat m) stride first -> 0 <= p < zlen elements) ->
  quiet (copy_blocks (map (part_copy type next) elements) (keeps_going next) n m stride first (part_status type next)) s
    (fun x => run Q (keeps_going next) (part_status type next)
                (pick elements (block_positions n (Z.of_nat m) stride first)) x.1 x.2).
Proof.
  intros Hq Hp; destruct (bad (part_status type next)) eqn:Hb.
  - assert (Hk : keeps_going next = false) by by destruct next.
    rewrite Hk, copy_blocks_stopped by done; apply quiet_ret, run_stop; [done|]; by apply bad_true.
  - apply bad_false in Hb; apply quiet_copy_blocks; auto.
Qed.

Lemma run_dangling (Q : UA_Value -> status * Copied -> Prop) keep r l r' rs :
  (forall a x, Q a x -> dangling x.2 = false) -> run Q keep r l r' rs -> existsb dangling rs = false.
Proof.
  intros Hq; induction 1 as [| |r a l r1 b r2 l' Hk Ha Hrun IH]; [done|done|]; simpl.
  apply Hq in Ha; simpl in Ha; by rewrite Ha, IH.
Qed.

Lemma quiet_copyRange Q type data dims range this next s :
  split_range (slot_scalar data) (arr_list dims) range = Some (this, next) ->
  matrix (slot_length data) (arr_list dims) -> range_inside (array_dims (slot_length data) (arr_list dims)) this ->
  (forall a s, a ∈ slot_list data -> part_status type next = GOOD -> quiet (part_copy type next a) s (Q a)) ->
  (forall a x, Q a x -> dangling x.2 = false) ->
  quiet (UA_Variant_copyRange (VVariant (Some type) data dims) range) s (fun x =>
    (x.1 <> GOOD -> x.2 = no_content \/ dangling x.2 = true /\ ~ room this) /\
    ((x.1 <> GOOD /\ ~ (memory /\ slot_length data <= UA_INT32_MAX)) \/
     exists ps r rs, range_outcome Q type data (arr_list dims) this next x ps r rs)).
Proof.
  intros Hs Hm Hi Hq Hdang; rewrite (copyRange_unfold _ _ _ _ _ _ Hs).
  destruct (computeStrides_blocks _ _ _ Hm Hi) as (st & n & -> & Ht & Hf & Hb); cbn [bad].
  assert (Hlen : zlen (slot_list data) = slot_length data) by by destruct data as [|[]].
  pose proof (volume_extents _ _ Hi) as Hv; pose proof Hm as (_ & _ & Hvol).
  change (bad GOOD) with false; cbv iota; eapply quiet_bind; [apply quiet_Array_new|]; intros b n1 Hb1.
  destruct b; cbn [negb].
  2: { apply quiet_ret; split; [by left|]; left; split; [done|]; intros [H1 H2]; discriminate (Hb1 H1 ltac:(lia)). }
  rewrite (blocks_of_count _ _ _ _ Hb Ht); eapply quiet_bind; [by apply (quiet_exact _ _ n (eq n))|]; intros ? n2 <-.
  pose proof (blocks_size _ _ _ _ Hb) as Hsize; assert (Hsz : Z.of_nat (Z.to_nat (block st)) = block st) by lia.
  eapply quiet_bind; [apply (quiet_parts Q); [done|]|].
  { rewrite Hsz, Hf, Hlen; intros p Hp; pose proof (blocks_of_inside _ _ _ _ _ Hb Hp); lia. }
  rewrite Hsz, Hf; intros [r rs] n3 Hrun; simpl in Hrun.
  eapply quiet_mono; [apply quiet_range_result|].
  { intros -> ->; apply run_length in Hrun; [|by right]; simpl in Hrun.
    rewrite length_pick in Hrun.
    - pose proof (blocks_some _ _ _ _ Hb); destruct n; [lia|]; simpl in Hrun; rewrite length_app, length_seqZ in Hrun; lia.
    - rewrite Hlen; intros p Hp; pose proof (blocks_of_inside _ _ _ _ _ Hb Hp); lia. }
  { by eapply run_dangling. }
  intros x (H1 & H2 & H3); split; [done|]; right.
  exists (block_positions n (block st) (stride st) (range_offset (array_dims (slot_length data) (arr_list dims)) this)), r, rs.
  split; [|done|done|done]; intros Hreg; symmetry; apply (blocks_exact _ _ _ _ Hb); by right.
Qed.
End Copied.

(** ** Safety *)

Definition is_string (v : UA_Value) : Prop := match v with VString _ => True | _ => False end.

(** A variant whose dimensions multiply to the length of its array, also in the
    variants inside; strings are strings. *)
Fixpoint well_dimensioned (v : UA_Value) : Prop :=
  match v with
  | VVariant None _ _ => True
  | VVariant (Some type) data dims =>
      matrix (slot_length data) (arr_list dims) /\
      (isStringLike type = true -> Forall is_string (slot_list data)) /\
      (isStringLike type = false -> is_variant_type type = true -> copyable_slot well_dimensioned data)
  | _ => False
  end.

(** A range as it is parsed: numbers of 32 bits. *)
Definition range_numbers (range : UA_NumericRange) : Prop :=
  Forall (fun r => 0 <= min r < 2 ^ 32 /\ 0 <= max r < 2 ^ 32) range.

Section Safety.
Context {E : Env}.

Lemma quiet_true {A} (m : M A) s (Q : A -> Prop) : quiet m s Q -> quiet m s (fun _ => True).
Proof. intros H; by eapply quiet_mono. Qed.

Lemma quiet_copySubString str r s : quiet (copySubString str r) s (fun x =>
  (x.1 <> GOOD -> x.2 = ArrNull) /\
  (memory -> min r <= max r -> min r < arr_length str -> x = (GOOD,
     ArrData (take (Z.to_nat (Z.min (max r + 1) (arr_length str) - min r)) (drop (Z.to_nat (min r)) (arr_list str)))))).
Proof.
  unfold copySubString; destruct (Z.ltb_spec (max r) (min r)); [apply quiet_ret; split; [done|lia]|].
  destruct (Z.leb_spec (arr_length str) (min r)); [apply quiet_ret; split; [done|lia]|].
  eapply quiet_bind; [apply quiet_malloc; intros b Hb; exact Hb|]; intros b n Hb; cbv beta in Hb.
  destruct b; cbn [negb]; [|apply quiet_ret; split; [done|intros Hm; by specialize (Hb Hm)]].
  assert ((if max r <? arr_length str then max r - min r + 1 else arr_length str - min r) =
          Z.min (max r + 1) (arr_length str) - min r) as ->.
  { destruct (Z.ltb_spec (max r) (arr_length str)); lia. }
  rewrite (proj2 (Z.ltb_ge _ _)) by lia; by apply quiet_ret.
Qed.

Lemma quiet_copy_part v r next s : is_string v ->
  quiet (copy_part v (r :: next)) s (fun x => dangling x.2 = false).
Proof.
  destruct v; try done; intros _; simpl; eapply quiet_bind; [apply quiet_copySubString|].
  intros [? ?] ? _; by apply quiet_ret.
Qed.

Lemma quiet_whole v s : tame v ->
  quiet (whole v) s (fun x => dangling x.2 = false /\ copy_of (copyable_value v) (copied_value v) (x.1, copy x.2)).
Proof.
  intros Hv; eapply quiet_bind; [by apply copies_UA_copy|]; intros [r w] n Hr; by apply quiet_ret.
Qed.

(** Elements that are copied without allocating twice, and no variants. *)
Definition flat (v : UA_Value) : Prop :=
  match v with
  | VVariant (Some type) data _ => is_variant_type type = false /\ Forall freed_once (slot_list data)
  | _ => True
  end.

Lemma split_range_this isScalar dims range this next : split_range isScalar dims range = Some (this, next) ->
  range_numbers range -> range_numbers this /\ range_numbers next /\
  zlen this = if isScalar then 1 else match dims with [] => 1 | _ => zlen dims end.
Proof.
  unfold split_range; destruct isScalar.
  { intros [= <- <-] Hr; split; [|done]; constructor; [simpl; lia|constructor]. }
  destruct (Z.ltb_spec (zlen range) (match dims with [] => 1 | _ => zlen dims end)); [done|].
  intros [= <- <-] Hr; split; [by apply Forall_take|]; split; [by apply Forall_drop|].
  unfold zlen in *; rewrite length_take; destruct dims; lia.
Qed.

(** The dimensions decide about an error, or there is an element in each. *)
Lemma range_error_inside len dims this : matrix len dims -> range_numbers this ->
  range_error len dims this = GOOD -> range_inside (array_dims len dims) this.
Proof.
  intros Hm Hr; unfold range_error; destruct (Z.eqb_spec (zlen this) (zlen (array_dims len dims))); [|done].
  apply range_status_inside; auto using matrix_dims.
Qed.

(** A copy that failed has no content, or without room a dangling one. *)
Definition range_ended (range : UA_NumericRange) (x : status * Copied) : Prop :=
  (x.1 <> GOOD -> x.2 = no_content \/ dangling x.2 = true) /\
  (dangling x.2 = true -> x.1 <> GOOD /\ ~ room range).

Lemma split_range_length isScalar dims range this next : split_range isScalar dims range = Some (this, next) ->
  range <> [] -> zlen this <= zlen range /\ zlen next <= zlen range.
Proof.
  unfold split_range; destruct isScalar.
  { intros [= <- <-] Hr; split; [|done]; destruct range; [done|]; unfold zlen; simpl; lia. }
  destruct (_ <? _); [done|]; intros [= <- <-] _; unfold zlen; rewrite length_take, length_drop; lia.
Qed.

Lemma room_shorter this range : zlen this <= zlen range -> room range -> room this.
Proof. intros Hl [Hm Hr]; split; [done|lia]. Qed.

Theorem copyRange_quiet : forall v, well_dimensioned v -> forall range s, range <> [] -> range_numbers range ->
  flat v \/ room range -> quiet (UA_Variant_copyRange v range) s (range_ended range).
Proof.
  refine (UA_Value_nested_ind _ _ _ _ _ _ _ _ _ _ _ _ _ _); try done.
  intros [type|] data dims IH Hw range s Hne Hr Hflat; [|by apply quiet_ret; split; [left|]]; destruct Hw as (Hm & Hstr & Hvar).
  destruct (split_range (slot_scalar data) (arr_list dims) range) as [[this next]|] eqn:Hs.
  2: { cbn [UA_Variant_copyRange]; rewrite Hs; by apply quiet_ret; split; [left|]. }
  destruct (split_range_this _ _ _ _ _ Hs Hr) as (Hthis & Hnext & _).
  destruct (split_range_length _ _ _ _ _ Hs Hne) as [Hlen1 Hlen2].
  destruct (decide (range_error (slot_length data) (arr_list dims) this = GOOD)) as [Hg|Hg].
  2: { rewrite (copyRange_unfold _ _ _ _ _ _ Hs); rewrite <- computeStrides_status in Hg by done.
       destruct (computeStrides _ _ _) as [r st]; apply bad_true in Hg; simpl in Hg; rewrite Hg.
       by apply quiet_ret; split; [left|]. }
  eapply quiet_mono; [apply (quiet_copyRange (fun _ x => dangling x.2 = false) type data dims range this next s Hs Hm)|].
  - by apply range_error_inside.
  - intros a s' Ha Hp; destruct next as [|r next]; cbn [part_copy].
    + eapply quiet_mono; [apply quiet_whole|by intros x []].
      destruct Hflat as [[_ Hf]|[Hroom _]]; [right; by eapply Forall_forall in Hf|by left].
    + destruct (isStringLike type) eqn:Hl; [apply quiet_copy_part; eapply Forall_forall in Ha; [exact Ha|by apply Hstr]|].
      destruct (is_variant_type type) eqn:Hv; [|by simpl in Hp; rewrite Hv, Hl in Hp].
      assert (Hroom : room (r :: next)) by (destruct Hflat as [[Hf _]|Hroom]; [congruence|by eapply room_shorter]).
      pose proof (copyable_slot_Forall _ _ (Hvar eq_refl eq_refl)) as Hall; rewrite Forall_forall in Hall, IH.
      eapply quiet_mono; [apply IH; auto|]; intros x [_ Hd]; destruct (dangling x.2); [by destruct Hd|done].
  - auto.
  - intros x [Hbad Hout]; split; [intros Hx; destruct (Hbad Hx) as [|[? _]]; auto|].
    intros Hd; destruct (decide (x.1 = GOOD)) as [Hx|Hx].
    + destruct Hout as [[? _]|(ps & r & rs & [_ _ Hval _])]; [done|]; destruct (Hval Hx) as [_ Heq]; by rewrite Heq in Hd.
    + split; [done|]; destruct (Hbad Hx) as [Heq|[_ Hnot]]; [by rewrite Heq in Hd|].
      intros Hroom; by apply Hnot, (room_shorter this range).
Qed.
End Safety.

(** ** The selected elements *)

(** The part of an element that the rest of a range selects: the whole element,
    or a part of a string. *)
Definition selected_part (next : UA_NumericRange) (v : UA_Value) : UA_Value :=
  match next, v with
  | r :: _, VString s =>
      VString (ArrData (take (Z.to_nat (Z.min (max r + 1) (arr_length s) - min r))
                             (drop (Z.to_nat (min r)) (arr_list s))))
  | _, _ => copied_value v
  end.

Definition has_part (type : UA_DataType) (next : UA_NumericRange) (v : UA_Value) : Prop :=
  match next with
  | [] => copyable_value v
  | [r] => isStringLike type = true /\ min r <= max r /\
           match v with VString s => min r < arr_length s | _ => False end
  | _ => False
  end.

Section Selected.
Context {E : Env}.

Lemma has_part_status type next v : has_part type next v -> part_status type next = GOOD.
Proof.
  destruct next as [|r [|]]; simpl; try done; intros (-> & _); by destruct (is_variant_type type).
Qed.

Lemma quiet_part_copy type next v s : memory -> has_part type next v ->
  quiet (part_copy type next v) s (fun x => x = (GOOD, mkCopied (selected_part next v) false)).
Proof.
  intros Hm Hv; destruct next as [|r [|]]; simpl in Hv; [|destruct Hv as (Ht & Hr & Hv)|done].
  - eapply quiet_mono; [apply quiet_whole; by left|]; intros [r [w d]] [Hd [G M]]; simpl in *.
    specialize (M Hm Hv); subst; by rewrite G.
  - destruct v as [|str| | | | | | | | | | |]; try done; simpl; rewrite Ht; cbn [copy_part].
    eapply quiet_bind; [apply quiet_copySubString|]; intros x n [_ Hx].
    specialize (Hx Hm Hr Hv) as ->; by apply quiet_ret.
Qed.

Lemma quiet_range_selected type data dims range this next s :
  memory -> slot_length data <= UA_INT32_MAX -> zlen this <= UA_INT32_MAX ->
  split_range (slot_scalar data) (arr_list dims) range = Some (this, next) ->
  matrix (slot_length data) (arr_list dims) -> range_inside (array_dims (slot_length data) (arr_list dims)) this ->
  regular (array_dims (slot_length data) (arr_list dims)) this = true ->
  Forall (has_part type next) (slot_list data) ->
  quiet (UA_Variant_copyRange (VVariant (Some type) data dims) range) s (fun x =>
    x = (GOOD, mkCopied (range_value type data (arr_list dims) this
                 (map (selected_part next) (pick (slot_list data) (positions (array_dims (slot_length data) (arr_list dims)) this)))) false)).
Proof.
  intros Hmem Hlen Hrange Hs Hm Hi Hreg Hparts; rewrite Forall_forall in Hparts.
  eapply quiet_mono; [apply (quiet_copyRange (fun v x => x = (GOOD, mkCopied (selected_part next v) false)) _ _ _ _ _ _ _ Hs Hm Hi)|].
  { intros a s' Ha _; by apply (quiet_part_copy type), Hparts. }
  { by intros a x ->. }
  intros [r v] [Hnull [[Hbad Hmax]|(ps & r' & rs & [Hps Hrun Hval Hgood])]]; [by destruct Hmax|].
  rewrite (Hps Hreg) in Hrun; simpl in *.
  destruct (run_good _ _ (fun v => mkCopied (selected_part next v) false) _ _ _ _ (fun _ _ _ H => H) Hrun) as [-> ->].
  { destruct (slot_list data) as [|a l] eqn:Hl; [|by apply (has_part_status type next a), Hparts; left].
    pose proof (volume_pos _ _ Hi); destruct Hm as (_ & _ & Hvol).
    destruct data as [|[| |[]]]; simpl in *; try done; unfold slot_length, arr_length, zlen in *; simpl in *; lia. }
  specialize (Hgood (conj Hmem Hrange) eq_refl) as ->; destruct (Hval eq_refl) as [_ ->]; by rewrite map_map.
Qed.
End Selected.

(** ** Writing a range *)

(** The values at places of a list replaced. *)
Fixpoint overwrite {A} (ps : list Z) (vs l : list A) : list A :=
  match ps, vs with
  | p :: ps, v :: vs => overwrite ps vs (<[Z.to_nat p := v]> l)
  | _, _ => l
  end.

Lemma overwrite_app {A} ps qs (vs ws l : list A) : length ps = length vs ->
  overwrite (ps ++ qs) (vs ++ ws) l = overwrite qs ws (overwrite ps vs l).
Proof. revert vs l; induction ps as [|p ps IH]; intros [|v vs] l H; simpl in *; auto; lia. Qed.

Lemma length_overwrite {A} ps (vs l : list A) : length (overwrite ps vs l) = length l.
Proof.
  revert vs l; induction ps as [|p ps IH]; intros [|v vs] l; simpl; try done; by rewrite IH, length_insert.
Qed.

Lemma overwrite_other {A} ps (vs l : list A) i : (forall p, p ∈ ps -> i <> Z.to_nat p) -> overwrite ps vs l !! i = l !! i.
Proof.
  revert vs l; induction ps as [|p ps IH]; intros [|v vs] l H; simpl; try done.
  rewrite IH by (intros; apply H; by right); apply list_lookup_insert_ne; intros Heq; by apply (H p); [left|].
Qed.

Lemma pick_overwrite {A} ps (vs l : list A) : NoDup ps -> (forall p, p ∈ ps -> 0 <= p < zlen l) ->
  length ps = length vs -> pick (overwrite ps vs l) ps = vs.
Proof.
  revert vs l; induction ps as [|p ps IH]; intros [|v vs] l Hnd Hin Hl; simpl in Hl; try done; try lia.
  apply NoDup_cons in Hnd as [Hp Hnd]; cbn [overwrite]; unfold pick; cbn [omap list_omap].
  pose proof (Hin p ltac:(left)) as Hb; unfold zlen in Hb; rewrite overwrite_other.
  - rewrite list_lookup_insert_eq by lia; f_equal; apply IH; [done| |lia].
    unfold zlen; rewrite length_insert; intros q Hq; apply Hin; by right.
  - intros q Hq Heq; pose proof (Hin q ltac:(by right)); assert (p = q) as -> by lia; done.
Qed.

Section Written.
Context {E : Env} (array : list UA_Value).
Hypothesis Htame : Forall tame array.

(** Copies of the elements of [array] from [next] on, at the places [ps]. *)
Definition written (ps : list Z) (next : nat) (r : status) (l : list UA_Value) (x : status * list UA_Value) : Prop :=
  exists vs, length vs = length ps /\ x.2 = overwrite ps vs l /\
    (x.1 = GOOD -> r = GOOD /\ vs = map copied_value (take (length ps) (drop next array))) /\
    (memory -> Forall copyable_value array -> r = GOOD -> x.1 = GOOD).

Lemma written_app ps qs next r l x y :
  written ps next r l x -> written qs (next + length ps) x.1 x.2 y -> written (ps ++ qs) next r l y.
Proof.
  intros (vs & H1 & H2 & H3 & H4) (ws & H5 & H6 & H7 & H8); exists (vs ++ ws).
  rewrite !length_app, overwrite_app by done; split; [lia|]; split; [by rewrite H6, H2|]; split; [|auto].
  intros Hy; destruct (H7 Hy) as [Hx ->]; destruct (H3 Hx) as [-> ->]; split; [done|].
  by rewrite <- map_app, <- take_take_drop, drop_drop.
Qed.

Lemma written_none next r l : written [] next r l (r, l).
Proof. by exists []. Qed.

Lemma quiet_set_block n pos next r l s : 0 <= pos -> pos + Z.of_nat n <= zlen l -> (next + n <= length array)%nat ->
  quiet (set_block array n pos next r l) s (written (seqZ pos (Z.of_nat n)) next r l).
Proof.
  revert pos next r l s; induction n as [|n IH]; intros pos next r l s H0 H1 H2; [apply quiet_ret, written_none|].
  cbn [set_block]; rewrite seqZ_cons by lia; replace (Z.pred _) with (Z.of_nat n) by lia.
  destruct (lookup_lt_is_Some_2 l (Z.to_nat pos)) as [a Ha]; [unfold zlen in H1; lia|]; rewrite Ha.
  destruct (lookup_lt_is_Some_2 array next) as [v Hv]; [lia|]; rewrite Hv.
  eapply quiet_bind; [by apply (quiet_exact _ _ a (eq a))|]; intros _ n1 _.
  eapply quiet_bind; [by apply (quiet_exact _ _ v (eq v))|]; intros ? n2 <-.
  rewrite Forall_forall in Htame.
  eapply quiet_bind; [by eapply copies_UA_copy, Htame, list_elem_of_lookup_2|]; intros [r1 w] n3 [G M]; cbn [fst snd] in *.
  eapply quiet_mono; [apply IH; [lia| |lia]|].
  { unfold zlen in *; rewrite length_insert; lia. }
  intros y Hy; apply (written_app [pos] _ next r l (Z.lor r r1, <[Z.to_nat pos:=w]> l)); [|by rewrite Nat.add_1_r].
  exists [w]; split; [done|]; split; [done|]; cbn [fst length]; split.
  - intros [Hr Hr1]%lor_good; split; [done|]; rewrite (G Hr1).
    by rewrite (drop_S array v next Hv).
  - intros Hm Hall Hr; apply lor_good; split; [done|]; apply M; [done|].
    rewrite Forall_forall in Hall; by apply Hall, list_elem_of_lookup_2 with next.
Qed.

Lemma quiet_set_blocks m n stride first next r l s : (0 < n)%nat ->
  (forall p, p ∈ block_positions m (Z.of_nat n) stride first -> 0 <= p < zlen l) ->
  (next + m * n <= length array)%nat ->
  quiet (set_blocks array m n stride first next r l) s
    (written (block_positions m (Z.of_nat n) stride first) next r l).
Proof.
  intros Hpos; revert first next r l s; induction m as [|m IH]; intros first next r l s H Hn;
    [apply quiet_ret, written_none|]; cbn [set_blocks block_positions] in *.
  assert (Hin : forall p, first <= p < first + Z.of_nat n -> 0 <= p < zlen l).
  { intros p Hp; apply H, elem_of_app; left; by apply elem_of_seqZ. }
  pose proof (Hin first ltac:(lia)); pose proof (Hin (first + Z.of_nat n - 1) ltac:(lia)).
  eapply quiet_bind; [apply (quiet_set_block n first next r l s); lia|]; intros [r1 l1] n1 Hw.
  assert (Hl : zlen l1 = zlen l).
  { destruct Hw as (vs & _ & Hw & _); simpl in Hw; rewrite Hw; unfold zlen; by rewrite length_overwrite. }
  eapply quiet_mono; [apply IH; [|lia]|].
  { rewrite Hl; intros p Hp; apply H, elem_of_app; by right. }
  intros y Hy; eapply written_app; [exact Hw|]; by rewrite length_seqZ, Nat2Z.id.
Qed.
End Written.

(** The array of a variant, as it is overwritten. *)
Definition with_elements (data : Slot UA_Value) (l : list UA_Value) : Slot UA_Value :=
  match data with SScalar w => SScalar (hd w l) | SArray _ => SArray (array_of l) end.

Section Written.
Context {E : Env}.

Lemma quiet_setRangeCopy type arr dims array range s :
  matrix (arr_length arr) (arr_list dims) -> range_inside (array_dims (arr_length arr) (arr_list dims)) range ->
  zlen array = volume (extents (array_dims (arr_length arr) (arr_list dims)) range) -> Forall tame array ->
  quiet (UA_Variant_setRangeCopy (VVariant type (SArray arr) dims) array range) s (fun x =>
    exists ps l, (regular (array_dims (arr_length arr) (arr_list dims)) range = true ->
        ps = positions (array_dims (arr_length arr) (arr_list dims)) range) /\
      written array ps 0 GOOD (arr_list arr) (x.1, l) /\ x.2 = VVariant type (SArray (array_of l)) dims).
Proof.
  intros Hm Hi Hlen Htame; unfold UA_Variant_setRangeCopy; cbn [slot_list].
  destruct (computeStrides_blocks _ _ _ Hm Hi) as (st & n & -> & Ht & Hf & Hb); change (bad GOOD) with false; cbv iota.
  rewrite Ht, <- Hlen, Z.eqb_refl; cbn [negb]; rewrite (blocks_of_count _ _ _ _ Hb Ht).
  eapply quiet_bind; [by apply (quiet_exact _ _ n (eq n))|]; intros ? n2 <-.
  pose proof (blocks_size _ _ _ _ Hb) as Hsize; assert (Hsz : Z.of_nat (Z.to_nat (block st)) = block st) by lia.
  pose proof (blocks_extent _ _ _ _ Hb) as Hext; assert (Harr : zlen (arr_list arr) = arr_length arr) by by destruct arr.
  eapply quiet_bind; [apply quiet_set_blocks; [done|lia| |]|].
  - rewrite Hsz, Hf, Harr; intros p Hp; pose proof (blocks_of_inside _ _ _ _ _ Hb Hp); by destruct Hm as (_ & _ & <-).
  - unfold zlen in Hlen; nia.
  - rewrite Hsz, Hf; intros [r l] n3 Hw; apply quiet_ret; eexists _, l; split; [|by split].
    intros Hreg; symmetry; apply (blocks_exact _ _ _ _ Hb); by right.
Qed.
End Written.
