(* ===== verification/RangeServices.v ===== *)
(** * Parsing of index ranges

    The parser returns for every string, with a range of proper dimensions or an
    error; printed ranges are read back. *)

From Stdlib Require Import ZArith Lia.
From stdpp Require Import base list numbers tactics sets gmap.
From S2P Require Import Prelude StateMonad UaTypes Util UaValue NodeStore AddressSpace NodeTree AddressLogic SpaceCheck Variant VariantCopyCorrect Strides IndexRangeCorrect.

(** ** Numbers *)

Lemma readNumber_loop_bounds buf n progress :
  0 <= n < 2 ^ 32 -> 0 <= progress ->
  0 <= (readNumber_loop buf n progress).1 < 2 ^ 32 /\
  progress <= (readNumber_loop buf n progress).2 <= progress + zlen buf.
Proof.
  revert n progress; induction buf as [|c buf IH]; intros n progress Hn Hp; cbn [readNumber_loop].
  { unfold zlen; simpl; lia. }
  rewrite zlen_cons; destruct (is_digit c); [|pose proof (zlen_nonneg buf); simpl; lia].
  pose proof (u32_range (u32 (n * 10) + u32 (c - 48))); destruct (IH (u32 (u32 (n * 10) + u32 (c - 48))) (progress + 1)); lia.
Qed.

Lemma readNumber_number k p rest : (0 < k)%nat -> 0 <= p < 10 ^ Z.of_nat k -> p < 2 ^ 32 ->
  is_digit (hd 0 rest) = false -> UA_readNumber (digits k p ++ rest) = (p, zlen (digits k p)) /\ 0 < zlen (digits k p).
Proof.
  intros Hk Hp H32 Hr; unfold UA_readNumber.
  destruct (readNumber_loop_digits k p rest 0 0) as (j & Hj & _ & -> & ->); [done|lia|done|lia|].
  split; [|lia]; destruct rest as [|c rest]; cbn [readNumber_loop]; [|cbn in Hr; rewrite Hr]; f_equal; lia.
Qed.

(** ** The dimensions of a range *)

Definition dimension_ok (r : UA_NumericRangeDimension) : Prop := 0 <= min r <= max r /\ max r < 2 ^ 32.

Lemma readDimension_ok buf : let '(progress, r) := readDimension buf in
  progress = 0 \/ 0 < progress <= zlen buf /\ dimension_ok r.
Proof.
  unfold readDimension, dimension_ok.
  destruct (readNumber_loop_bounds buf 0 0 ltac:(lia) ltac:(lia)) as [Hlo Hpr].
  destruct (UA_readNumber buf) as [lo progress] eqn:E; unfold UA_readNumber in E; rewrite E in Hlo, Hpr; simpl in Hlo, Hpr.
  destruct (Z.eqb_spec progress 0) as [|Hp]; [by left|].
  destruct (Z.leb_spec (zlen buf) (progress + 1)) as [|Hl]; cbn [orb]; [right; simpl; lia|].
  destruct (negb _); [right; simpl; lia|]; set (tl := drop (Z.to_nat (progress + 1)) buf).
  destruct (readNumber_loop_bounds tl 0 0 ltac:(lia) ltac:(lia)) as [Hhi Hpr2].
  destruct (UA_readNumber tl) as [hi progress2] eqn:E2; unfold UA_readNumber in E2; rewrite E2 in Hhi, Hpr2; simpl in Hhi, Hpr2.
  destruct (Z.eqb_spec progress2 0); [by left|]; destruct (Z.leb_spec hi lo); [by left|]; right.
  assert (zlen tl = zlen buf - (progress + 1)) by (unfold tl, zlen in *; rewrite length_drop; lia).
  simpl; lia.
Qed.

Section Parse.
Context {E : Env}.

(** The parser always returns. *)
Lemma quiet_parse_dimensions fuel str dims dimensionsMax s : (length str < fuel)%nat -> Forall dimension_ok dims ->
  quiet (parse_dimensions fuel str dims dimensionsMax) s (fun x =>
    (x.1 = GOOD -> x.2 <> [] /\ Forall dimension_ok x.2) /\ (x.1 <> GOOD -> x.2 = [])).
Proof.
  revert str dims dimensionsMax s; induction fuel as [|fuel IH]; intros str dims dimensionsMax s Hfuel Hd; [lia|].
  cbn [parse_dimensions]; eapply quiet_bind with (P := fun _ => True).
  { destruct (_ <=? _); [by apply quiet_malloc|by apply quiet_ret]. }
  intros b n _; destruct b; cbn [negb]; [|by apply quiet_ret].
  pose proof (readDimension_ok str) as Hr; destruct (readDimension str) as [progress r].
  destruct (Z.eqb_spec progress 0) as [|Hp]; [by apply quiet_ret|]; destruct Hr as [|[Hlen Hr]]; [done|].
  assert (Hall : Forall dimension_ok (dims ++ [r])) by (apply Forall_app; split; [done|by constructor]).
  pose proof (length_drop str (Z.to_nat progress)) as Hdrop; destruct (drop _ str) as [|c rest].
  { apply quiet_ret; simpl; split; [intros _|done]; split; [by destruct dims|done]. }
  destruct (negb (c =? 44)); [by apply quiet_ret|]; apply IH; [|done].
  simpl in Hdrop; unfold zlen in Hlen; lia.
Qed.

(** ** Printed ranges *)

Definition print_dimension (r : UA_NumericRangeDimension) : list Z :=
  digits 10 (min r) ++ (if min r =? max r then [] else 58 :: digits 10 (max r)).

Fixpoint print_range (range : UA_NumericRange) : list Z :=
  match range with
  | [] => []
  | [r] => print_dimension r
  | r :: range => print_dimension r ++ 44 :: print_range range
  end.

Lemma readDimension_print r rest : dimension_ok r -> rest = [] \/ hd 0 rest = 44 ->
  readDimension (print_dimension r ++ rest) = (zlen (print_dimension r), r) /\ 0 < zlen (print_dimension r).
Proof.
  intros Hr Hrest; unfold readDimension, print_dimension, dimension_ok in *; destruct r as [lo hi]; cbn [min max] in *.
  assert (Hsep : is_digit (hd 0 rest) = false) by by destruct Hrest as [->| ->].
  destruct (Z.eqb_spec lo hi) as [<-|Hne].
  - rewrite app_nil_r.
    destruct (readNumber_number 10 lo rest ltac:(lia) ltac:(simpl; lia) ltac:(lia) Hsep) as [-> Hpos].
    replace (zlen _ =? 0) with false by lia; split; [|done].
    destruct Hrest as [->|Hc].
    + rewrite app_nil_r; replace (zlen _ <=? _) with true by lia; done.
    + destruct rest as [|c rest]; [done|]; simpl in Hc; subst c; unfold zlen; rewrite Nat2Z.id, List.app_nth2 by lia.
      rewrite Nat.sub_diag; simpl; by rewrite orb_true_r.
  - rewrite <- app_assoc; cbn [app].
    destruct (readNumber_number 10 lo (58 :: digits 10 hi ++ rest) ltac:(lia) ltac:(simpl; lia) ltac:(lia) eq_refl) as [-> Hpos].
    destruct (readNumber_number 10 hi rest ltac:(lia) ltac:(simpl; lia) ltac:(lia) Hsep) as [Hhi Hpos2].
    replace (zlen (digits 10 lo) =? 0) with false by lia.
    rewrite !zlen_app, !zlen_cons, zlen_app; pose proof (zlen_nonneg rest).
    replace (_ <=? _) with false by lia; unfold zlen at 1; rewrite Nat2Z.id, List.app_nth2 by lia.
    rewrite Nat.sub_diag; cbn [nth Z.eqb Pos.eqb negb orb].
    replace (drop _ _) with (digits 10 hi ++ rest).
    2: { rewrite (cons_middle 58), (assoc_L (++)), drop_app_length'; [done|].
         rewrite length_app; unfold zlen; simpl; lia. }
    rewrite Hhi; replace (zlen (digits 10 hi) =? 0) with false by lia; replace (hi <=? lo) with false by lia.
    split; [f_equal; lia|lia].
Qed.

Lemma quiet_parse_print fuel range dims dimensionsMax s : memory -> range <> [] -> Forall dimension_ok range ->
  (length (print_range range) < fuel)%nat ->
  quiet (parse_dimensions fuel (print_range range) dims dimensionsMax) s (fun x => x = (GOOD, dims ++ range)).
Proof.
  intros Hm; revert fuel dims dimensionsMax s; induction range as [|r range IH]; intros fuel dims dimensionsMax s Hne Hall Hf;
    [done|]; apply Forall_cons in Hall as [Hr Hall].
  destruct fuel as [|fuel]; [lia|]; cbn [parse_dimensions].
  eapply quiet_bind with (P := fun b => b = true).
  { destruct (_ <=? _); [apply quiet_malloc; auto|by apply quiet_ret]. }
  intros ? n ->; cbn [negb]; set (rest := match range with [] => [] | _ => 44 :: print_range range end).
  assert (Hp : print_range (r :: range) = print_dimension r ++ rest) by (destruct range; [by rewrite app_nil_r|done]).
  destruct (readDimension_print r rest Hr) as [Hd Hpos]; [destruct range; auto|].
  rewrite Hp, Hd in *; replace (zlen _ =? 0) with false by lia; unfold zlen; rewrite Nat2Z.id, drop_app_length.
  destruct range as [|r' range]; [by apply quiet_ret|]; unfold rest; simpl (negb _); cbv iota.
  replace (dims ++ r :: r' :: range) with ((dims ++ [r]) ++ r' :: range) by by rewrite <- (assoc_L (++)).
  apply IH; [done|done|]; subst rest; rewrite length_app in Hf; unfold zlen in Hpos; simpl in Hf |- *; lia.
Qed.

End Parse.

(** ** Copies and index ranges: the statements

    What the deep copy of a value, the parser of index ranges, and reading and
    writing a range of an array guarantee, with computed examples. *)

(** ** Examples *)

Module RangeExample.
Local Existing Instance SpaceExample.plant_env.

Definition ints (l : list Z) : UA_Array UA_Value := ArrData (map VInt l).

(** A variant of integers of these dimensions. *)
Definition numbers (n : nat) (dims : UA_Array Z) : UA_Value :=
  VVariant (Some UA_TYPES_INT32) (SArray (ints (seqZ 0 (Z.of_nat n)))) dims.

Definition rows_columns : UA_NumericRange := [mkRangeDim 1 2; mkRangeDim 0 1].

Definition result (x : option (status * Copied * AddressSpace)) : option (status * UA_Value) :=
  (fun r => (r.1.1, copy r.1.2)) <$> x.

Example matrix_part : result (UA_Variant_copyRange (numbers 9 (ArrData [3; 3])) rows_columns SpaceExample.plant) =
  Some (GOOD, VVariant (Some UA_TYPES_INT32) (SArray (ints [3; 4; 6; 7])) (ArrData [2; 2])).
Proof. vm_compute; reflexivity. Qed.

(** A cube with two dimensions inside that are not full is read with one
    distance for all blocks: the elements 0 1 3 4 9 10 12 13 are asked for. *)
Example cube_part : result (UA_Variant_copyRange (numbers 27 (ArrData [3; 3; 3]))
    [mkRangeDim 0 1; mkRangeDim 0 1; mkRangeDim 0 1] SpaceExample.plant) =
  Some (GOOD, VVariant (Some UA_TYPES_INT32) (SArray (ints [0; 1; 3; 4; 6; 7; 9; 10])) (ArrData [2; 2; 2])) /\
  positions [3; 3; 3] [mkRangeDim 0 1; mkRangeDim 0 1; mkRangeDim 0 1] = [0; 1; 3; 4; 9; 10; 12; 13].
Proof. split; vm_compute; reflexivity. Qed.

(** Dimensions that multiply to the length of an empty array modulo 2^64: the
    first element is read, although there is none. *)
Example overflowing_dimensions : UA_Variant_copyRange
    (VVariant (Some UA_TYPES_INT32) (SArray ArrEmpty) (ArrData [2 ^ 31; 2 ^ 31; 4]))
    [mkRangeDim 0 0; mkRangeDim 0 0; mkRangeDim 0 0] SpaceExample.plant = None.
Proof. vm_compute; reflexivity. Qed.

(** The dimensions of the copy are those asked for, and not those copied. *)
Example clipped_dimensions : result (UA_Variant_copyRange (numbers 9 (ArrData [3; 3]))
    [mkRangeDim 1 9; mkRangeDim 0 1] SpaceExample.plant) =
  Some (GOOD, VVariant (Some UA_TYPES_INT32) (SArray (ints [3; 4; 6; 7])) (ArrData [9; 2])).
Proof. vm_compute; reflexivity. Qed.

(** Memory for one allocation only: the array of a data value with dimensions is
    copied, the dimensions are not, and the copied array is freed twice. *)
Definition scarce_env : Env :=
  Build_Env (fun n => n =? 0)%nat (fun _ => mkGuid 0 0 0 []) 0 0 0 0 None None None false false.

Example copy_frees_twice :
  @UA_copy scarce_env (VDataValue DataValueHeader_init (numbers 1 (ArrData [1]))) SpaceExample.plant = None /\
  result (@UA_Variant_copyRange scarce_env (numbers 1 (ArrData [1])) [mkRangeDim 0 0] SpaceExample.plant) =
    Some (BADOUTOFMEMORY, numbers 1 ArrNull).
Proof. split; vm_compute; reflexivity. Qed.
End RangeExample.

(** ** Statements *)

Section Statements.
Context {E : Env}.

(** C34: A deep copy of a value returns and changes nothing but the heap it
    allocates from: if it succeeds the copy is the value, with empty strings and
    arrays as the sentinel; if it fails, zeroed memory of the type is left; and
    with enough memory every value of the known types is copied.  When memory
    runs out this needs that no data value holds an array or scalar with array
    dimensions: their content would be freed twice. *)
Theorem value_copied (v : UA_Value) s (Hv : memory \/ freed_once v) :
  exists r n, UA_copy v s = Some (r, set_allocs s n) /\
    (r.1 = GOOD -> r.2 = copied_value v) /\ (r.1 <> GOOD -> r.2 = zeroed v) /\
    (memory -> copyable_value v -> r.1 = GOOD).
Proof.
  assert (H : quiet (UA_copy v) s (fun r => copy_of (copyable_value v) (copied_value v) r /\
                                     (r.1 <> GOOD -> r.2 = zeroed v))).
  { apply quiet_and; [by apply copies_UA_copy|]; eapply quiet_bind; [by apply copies_noInit|]; intros [r w] n _.
    apply quiet_ret; unfold cleaned; simpl; destruct (bad r) eqn:Hb; simpl; [done|]; by apply bad_false in Hb as ->. }
  destruct H as (r & n & Hr & [[G M] Z]); eauto 8.
Qed.

(** C35: The index range parser returns for every string, whether or not there is
    memory, and changes nothing else: either with an error and no range, or with
    at least one dimension, each with a lower bound that is not above the upper
    one and both bounds in 32 bits; and with memory, a range that was printed in
    the notation of the standard is read back as it was. *)
Theorem range_parsed (str : list Z) s :
  (exists r n, UA_NumericRange_parseFromString str s = Some (r, set_allocs s n) /\
     (r.1 = GOOD -> r.2 <> [] /\ Forall dimension_ok r.2) /\ (r.1 <> GOOD -> r.2 = [])) /\
  (forall range, memory -> range <> [] -> Forall dimension_ok range ->
     exists n, UA_NumericRange_parseFromString (print_range range) s = Some ((GOOD, range), set_allocs s n)).
Proof.
  split.
  - destruct (quiet_parse_dimensions (S (length str)) str [] 0 s) as (r & n & Hp & Hr); [lia|constructor|eauto].
  - intros range Hm Hne Hok.
    destruct (quiet_parse_print (S (length (print_range range))) range [] 0 s) as (r & n & Hp & ->); eauto.
Qed.

(** C25: Copying a range out of a variant and overwriting a range of one never
    access an element outside of the array, for any range and any number of
    dimensions, and return with nothing else changed, if the dimensions of the
    array multiply to its length (also those of variants inside), and if there is
    enough memory or what is copied is not a variant itself and not freed twice
    when its copy fails; a copy that fails leaves no content, except for a
    dangling one when there is no memory for its dimensions. *)
Theorem range_access_inside (v : UA_Value) range s (Hv : well_dimensioned v) (Hr : range_numbers range)
  (Hne : range <> []) (Hmem : flat v \/ room range) :
  (exists r n, UA_Variant_copyRange v range s = Some (r, set_allocs s n) /\
     (r.1 <> GOOD -> r.2 = no_content \/ dangling r.2 = true) /\ (room range -> dangling r.2 = false)) /\
  (forall type arr dims array, v = VVariant type (SArray arr) dims -> type <> None -> Forall tame array ->
     exists r l n, UA_Variant_setRangeCopy v array range s = Some ((r, VVariant type (SArray l) dims), set_allocs s n) /\
       arr_length l = arr_length arr).
Proof.
  split.
  { destruct (copyRange_quiet v Hv range s Hne Hr Hmem) as (r & n & Hc & He & Hd); exists r, n; split; [done|].
    split; [done|]; intros Hroom; destruct (dangling r.2); [by destruct Hd|done]. }
  intros [type|] arr dims array -> Ht Htame; [|done]; destruct Hv as (Hm & _ & _); cbn [slot_length] in Hm.
  assert (Harr : zlen (arr_list arr) = arr_length arr) by by destruct arr.
  destruct (decide (range_error (arr_length arr) (arr_list dims) range = GOOD)) as [Hg|Hg].
  2: { rewrite <- (computeStrides_status _ _ _ Hm) in Hg; apply bad_true in Hg; unfold UA_Variant_setRangeCopy.
       destruct (computeStrides _ _ _) as [r st]; simpl in Hg; rewrite Hg.
       exists r, arr, (allocs s); by rewrite set_allocs_same. }
  pose proof (range_error_inside _ _ _ Hm Hr Hg) as Hi.
  destruct (decide (zlen array = volume (extents (array_dims (arr_length arr) (arr_list dims)) range))) as [He|He].
  - destruct (quiet_setRangeCopy (Some type) arr dims array range s Hm Hi He Htame) as ([r w] & n & -> & ps & l & _ & Hw & Hl).
    simpl in Hl; subst w; exists r, (array_of l), n; split; [done|].
    destruct Hw as (vs & _ & Hw & _); simpl in Hw; subst l; rewrite <- Harr.
    unfold zlen; rewrite <- (length_overwrite ps vs (arr_list arr)); by destruct (overwrite _ _ _).
  - destruct (computeStrides_blocks _ _ _ Hm Hi) as (st & n & Hs & Hst & _); unfold UA_Variant_setRangeCopy; rewrite Hs.
    change (bad GOOD) with false; cbv iota; rewrite Hst, (proj2 (Z.eqb_neq _ _)) by done; cbn [negb].
    exists BADINDEXRANGEINVALID, arr, (allocs s); by rewrite set_allocs_same.
Qed.

(** C24: With enough memory, copying a range out of an array gives exactly the
    elements that the range selects, in row-major order, for every vector and
    matrix, and in more dimensions if at most one of them is cut after outer ones
    with a single index and one arbitrary dimension; a range with one more
    dimension gives the selected part of each string. *)
Theorem range_copy_selects type (l : list UA_Value) dims this next s
  (Hmem : memory) (Hlen : zlen l <= UA_INT32_MAX) (Hdims : zlen this <= UA_INT32_MAX)
  (Hm : matrix (zlen l) (arr_list dims)) (Hi : range_inside (array_dims (zlen l) (arr_list dims)) this)
  (Hreg : zlen this <= 2 \/ regular (array_dims (zlen l) (arr_list dims)) this = true)
  (Hparts : Forall (has_part type next) l) :
  exists n, UA_Variant_copyRange (VVariant (Some type) (SArray (ArrData l)) dims) (this ++ next) s =
    Some ((GOOD, mkCopied (VVariant (Some type)
                   (SArray (ArrData (map (selected_part next)
                                      (pick l (positions (array_dims (zlen l) (arr_list dims)) this)))))
                   (if decide (arr_list dims = []) then ArrNull else ArrData (range_dimensions this))) false),
          set_allocs s n).
Proof.
  assert (Hl : zlen (array_dims (zlen l) (arr_list dims)) = zlen this) by (unfold zlen; f_equal; by eapply Forall2_length).
  assert (Hsplit : split_range false (arr_list dims) (this ++ next) = Some (this, next)).
  { unfold split_range, array_dims in *; rewrite zlen_app; pose proof (zlen_nonneg next).
    destruct (arr_list dims) as [|d ds]; rewrite <- Hl; unfold zlen in *; simpl in Hl |- *.
    - replace (1 + _ <? 1) with false by lia; rewrite take_app_length', drop_app_length' by lia; done.
    - replace (_ <? _) with false by lia; rewrite take_app_length', drop_app_length' by lia; done. }
  assert (Hreg' : regular (array_dims (zlen l) (arr_list dims)) this = true).
  { destruct Hreg; [apply regular_flat; lia|done]. }
  destruct (quiet_range_selected type (SArray (ArrData l)) dims (this ++ next) this next s) as (x & n & -> & ->); try done.
  exists n; do 4 f_equal; unfold range_value; cbn [slot_list slot_length arr_list arr_length].
  assert (Hne : pick l (positions (array_dims (zlen l) (arr_list dims)) this) <> []).
  { intros Hnil%(f_equal length); rewrite length_pick in Hnil.
    - pose proof (length_positions _ _ Hi); pose proof (volume_extents _ _ Hi); unfold zlen in *; simpl in Hnil; lia.
    - intros p Hp%(positions_inside _ _ Hi); by destruct Hm as (_ & _ & <-). }
  f_equal; [destruct (pick _ _); done|].
  destruct (arr_list dims) as [|d ds]; [done|]; rewrite decide_False by done.
  by destruct this; [unfold array_dims, zlen in Hl; simpl in Hl; lia|].
Qed.

(** C26: overwriting a range of an array, whose dimensions multiply to its
    length and hold the range, with as many elements as the range selects,
    replaces exactly the elements that the range selects: the others stay as
    they are, the number of elements does not change, and if all copies succeed
    -- as they do with enough memory -- the selected elements are the given ones
    in order.  The range has at most two dimensions or blocks at a constant
    distance ([regular]); for other ranges of three dimensions the code writes
    elsewhere.  The given elements are [tame]: no copy of one can fail halfway. *)
Theorem range_write_replaces type arr dims array range s
  (Hm : matrix (arr_length arr) (arr_list dims)) (Hi : range_inside (array_dims (arr_length arr) (arr_list dims)) range)
  (Hlen : zlen array = volume (extents (array_dims (arr_length arr) (arr_list dims)) range))
  (Htame : Forall tame array)
  (Hreg : zlen range <= 2 \/ regular (array_dims (arr_length arr) (arr_list dims)) range = true) :
  let ps := positions (array_dims (arr_length arr) (arr_list dims)) range in
  exists r l n, UA_Variant_setRangeCopy (VVariant type (SArray arr) dims) array range s =
      Some ((r, VVariant type (SArray (array_of l)) dims), set_allocs s n) /\
    length l = length (arr_list arr) /\
    (forall i, Z.of_nat i ∉ ps -> l !! i = arr_list arr !! i) /\
    (r = GOOD -> pick l ps = map copied_value array) /\
    (memory -> Forall copyable_value array -> r = GOOD).
Proof.
  intros ps; destruct (quiet_setRangeCopy type arr dims array range s Hm Hi Hlen Htame) as ([r w] & n & -> & qs & l & Hqs & Hw & Hl).
  assert (Hz : zlen (array_dims (arr_length arr) (arr_list dims)) = zlen range) by (unfold zlen; f_equal; by eapply Forall2_length).
  rewrite Hqs in Hw by (destruct Hreg; [apply regular_flat; lia|done]); simpl in Hl, Hw; subst w; fold ps in Hw.
  destruct Hw as (vs & Hvs & Hover & Hgood & Hmem); simpl in *; subst l.
  pose proof (positions_inside _ _ Hi) as Hin; destruct Hm as (_ & _ & Hvol); rewrite Hvol in Hin.
  exists r, (overwrite ps vs (arr_list arr)), n; split; [done|]; split; [apply length_overwrite|]; split; [|split].
  - intros i Hni; apply overwrite_other; intros p Hp ->; apply Hni.
    rewrite Z2Nat.id by (by apply Hin); done.
  - intros Hr; destruct (Hgood Hr) as [_ Heq]; rewrite pick_overwrite; [|by apply positions_NoDup| |done].
    + rewrite Heq, drop_0, take_ge; [done|]; apply Nat2Z.inj_le; fold (zlen array); fold (zlen ps).
      by rewrite Hlen, <- (length_positions _ _ Hi).
    + replace (zlen (arr_list arr)) with (arr_length arr) by by destruct arr. exact Hin.
  - intros H1 H2; by apply Hmem.
Qed.
End Statements.

(** ** Instances *)

Section Witnesses.
Import SpaceExample RangeExample.
Local Existing Instance plant_env.

(** The heap of the examples has memory for everything. *)
Lemma plant_memory : memory.
Proof. by intros n. Qed.

Lemma value_copied_witness : exists n,
  UA_copy (VVariant (Some UA_TYPES_STRING) (SScalar (VString (ArrData []))) ArrNull) plant =
    Some ((GOOD, VVariant (Some UA_TYPES_STRING) (SScalar (VString ArrEmpty)) ArrNull), set_allocs plant n).
Proof.
  destruct (value_copied (VVariant (Some UA_TYPES_STRING) (SScalar (VString (ArrData []))) ArrNull) plant)
    as ([r w] & n & Hr & G & _ & M); [left; exact plant_memory|]; simpl in M, G.
  rewrite (M plant_memory) in * by (split; [by eexists|done]); rewrite (G eq_refl) in Hr; eauto.
Defined.

Lemma range_parsed_witness : exists n,
  UA_NumericRange_parseFromString (print_range [mkRangeDim 1 2; mkRangeDim 17 17]) plant =
    Some ((GOOD, [mkRangeDim 1 2; mkRangeDim 17 17]), set_allocs plant n) /\
  print_range [mkRangeDim 1 2; mkRangeDim 17 17] = [49; 58; 50; 44; 49; 55].
Proof.
  destruct (range_parsed [] plant) as [_ H].
  destruct (H [mkRangeDim 1 2; mkRangeDim 17 17] plant_memory) as [n Hn]; [done| |by exists n].
  repeat constructor; simpl; lia.
Defined.

Lemma numbers_dimensioned n : Z.of_nat n < 2 ^ 32 -> n <> 0%nat -> well_dimensioned (numbers n ArrNull).
Proof.
  intros Hn H0; split; [|done]; assert (Hz : slot_length (SArray (ints (seqZ 0 (Z.of_nat n)))) = Z.of_nat n).
  { change (zlen (map VInt (seqZ 0 (Z.of_nat n))) = Z.of_nat n); unfold zlen; by rewrite length_map, length_seqZ, Nat2Z.id. }
  rewrite Hz; split; [lia|]; split; [constructor|]; unfold volume; simpl; lia.
Qed.

Lemma range_access_inside_witness : exists r n,
  UA_Variant_copyRange (numbers 9 ArrNull) [mkRangeDim 7 4294967295] plant = Some (r, set_allocs plant n) /\
  (room [mkRangeDim 7 4294967295] -> dangling r.2 = false).
Proof.
  destruct (range_access_inside (numbers 9 ArrNull) [mkRangeDim 7 4294967295] plant) as [(r & n & H & _ & Hd) _];
    [|  |done| |by exists r, n].
  - by apply numbers_dimensioned.
  - repeat constructor; simpl; lia.
  - left; split; [done|]; apply Forall_forall; intros v (z & -> & _)%list_elem_of_fmap; exact I.
Defined.

Lemma matrix_33 : matrix 9 [3; 3].
Proof. split; [lia|]; split; [repeat constructor; lia|done]. Qed.

Lemma rows_columns_inside : range_inside [3; 3] rows_columns.
Proof. repeat constructor; simpl; lia. Qed.

Lemma range_copy_selects_witness : exists n,
  UA_Variant_copyRange (numbers 9 (ArrData [3; 3])) rows_columns plant =
    Some ((GOOD, mkCopied (VVariant (Some UA_TYPES_INT32) (SArray (ints [3; 4; 6; 7])) (ArrData [2; 2])) false),
          set_allocs plant n).
Proof.
  destruct (range_copy_selects UA_TYPES_INT32 (map VInt (seqZ 0 9)) (ArrData [3; 3]) rows_columns [] plant)
    as [n Hn]; [exact plant_memory|done|done|exact matrix_33|exact rows_columns_inside|by left|by repeat constructor|].
  exists n; exact Hn.
Defined.

Lemma range_write_replaces_witness : exists r l n,
  UA_Variant_setRangeCopy (numbers 9 (ArrData [3; 3])) (map VInt [20; 21; 22; 23]) rows_columns plant =
    Some ((r, VVariant (Some UA_TYPES_INT32) (SArray (array_of l)) (ArrData [3; 3])), set_allocs plant n) /\
  pick l [3; 4; 6; 7] = map VInt [20; 21; 22; 23].
Proof.
  destruct (range_write_replaces (Some UA_TYPES_INT32) (ints (seqZ 0 9)) (ArrData [3; 3]) (map VInt [20; 21; 22; 23])
    rows_columns plant) as (r & l & n & H & _ & _ & Hp & Hm);
    [exact matrix_33|exact rows_columns_inside|done|by repeat constructor; right|by left|].
  exists r, l, n; split; [exact H|]; apply Hp, Hm; [exact plant_memory|by repeat constructor].
Defined.
End Witnesses.
